(* ===== verification/_CoqProject ===== *)
-Q . S2P
Prelude.v
ZendString.v
StrMem.v
StrCaseOps.v
StrCase.v
StrSearchOps.v
StrSearch.v
OrderedMap.v
HashTypes.v
HashOps.v
HashChain.v
HashRehash.v
HashInv.v
HashLayout.v
HashInsert.v
HashIndex.v
HashDelete.v
HashInit.v
HashTheorems.v
HashIterOps.v
HashApplyOps.v
HashIterate.v
HashApply.v
HashTheorems2.v
HashCopy.v
SortOps.v
SortSpec.v
SortNet.v
SortTheorems.v
HashSortOps.v
HashSort.v
HashCompare.v
HashTheorems4.v
LListOps.v
LListTheorems.v
Stack.v
PtrStack.v
NumericKey.v
HashDupOps.v
HashDupMain.v
HashConvMain.v
HashTheorems6.v
HashExtraOps.v
HashRekey.v
ZendDouble.v
SplHeapOps.v
SplHeapTheorems.v
Base64Ops.v
Base64.v
Uuencode.v
Levenshtein.v
Crc32.v
RandomOps.v
RandomEngines.v
Random.v
RandomMtOps.v
RandomMt.v
RandomHex.v
RandomSerialOps.v
RandomSerial.v
RandomizerOps.v
Randomizer.v
MmPageOps.v
MmHeapOps.v
MmAllocOps.v
MmChunk.v
MmHeapInv.v
MmHeap.v
MmRing.v
MmGc.v
MmBlocks.v
MmUser.v
MmRealloc.v
MmTheorems.v
GcOps.v
GcGraph.v
GcRoots.v
GcScan.v
GcCollect.v
GcTheorems.v
