(* ===== verification/Prelude.v ===== *)
(** * Verification of the Zend engine's data structures and algorithms (PHP 8.2.28)

    The repository holds the sources of PHP 8.2.28 (src/php-8.2.28) beside an
    application in PHP. This development covers parts of the engine written in C that
    carry logic of their own: the hash table behind every PHP array, the sorting
    routine, lists and stacks, strings, the memory manager, and the algorithms of
    ext/random, ext/spl and ext/standard that build on them. Everything is translated
    by hand from the C sources for a 64-bit little-endian Linux release build
    (ZEND_DEBUG = 0, SIZEOF_ZEND_LONG = 8, SSE2 where the source tests for it).

    ** Conventions

    Integers are [Z]; a C type of w bits is reduced modulo 2^w where it can overflow
    ([u32], [u64], [i32], [i64]). [res] is the outcome of code that can stop with a fatal
    error ([Fatal]) or run into undefined behaviour ([Ub]): an access outside an array, a
    failed assertion, a sum that does not fit a signed type, a loop whose fuel is used
    up. A theorem that some operation is [Ok] therefore says that it terminates and that
    every access is in bounds. Loops that are not structural take fuel; the fuel passed
    by the operations is computed from the state (table sizes, number of bytes in memory,
    number of chunks) and proved to be enough. Code outside of the repository's sources,
    callbacks, comparison functions, the operating system, is a
    parameter; what is relied upon is a named class ([OsLaws], [SortMem], [SortFn],
    [Inserter], [Uint128Laws], ...), for which there are concrete instances.

    ** Parts

    Prelude: machine integers, the [res] monad, checked arrays. StrMem: blocks of bytes
    with <string.h>. OrderedMap: the abstract specification of a PHP array.

    Strings. ZendString, NumericKey: zend_string.h and the numeric string keys of
    zend_hash.h (the hash function; the strings taken as integers are exactly the
    canonical decimals). StrCaseOps, StrCase: case conversion and comparison of
    zend_operators.c, the SSE2 path included. StrSearchOps, StrSearch: zend_memnstr and
    its variants (Sunday's algorithm).

    Hash table (Zend/zend_hash.c, zend_hash.h, zend_types.h). HashTypes has the data,
    HashOps, HashIterOps, HashApplyOps (copying too), HashSortOps, HashDupOps and
    HashExtraOps the operations, one definition per function. HashChain,
    HashRehash, HashInv and HashLayout: collision chains, rehashing, the representation
    invariant [ht_inv] for the three layouts, and the changes between them. HashInsert,
    HashIndex, HashDelete, HashIterate (the iterators too), HashApply, HashCopy, HashSort,
    HashCompare, HashDupMain, HashConvMain, HashRekey: the operations refine
    those of the ordered map. HashInit has concrete tables, HashTheorems, 2, 4 and 6 (and
    HashCopy, HashRekey) the contracts.

    Sorting (Zend/zend_sort.c). SortOps is the code over an abstract memory, SortSpec
    states what it needs, SortNet proves the networks, insertion sort and the partition,
    SortTheorems applies them to arrays. HashSort and LListTheorems use it.

    Lists and stacks. LListOps, LListTheorems: zend_llist.c over a store with addresses.
    Stack: zend_stack.c. PtrStack: zend_ptr_stack.c.

    Heaps (ext/spl/spl_heap.c). ZendDouble: doubles. SplHeapOps, SplHeapTheorems: the
    array heap and its classes, with comparisons that may throw. A comparison that calls
    next() on the heap it compares for, which the code does not prevent, is not modelled.

    Memory manager (Zend/zend_alloc.c). MmPageOps: bitmaps, pages of a chunk and the
    best-fit search. MmHeapOps: the state (the heap, headers of chunks, bytes of memory),
    mappings, chunks. MmAllocOps: collection, small, large and huge blocks,
    reallocation, entry points, start, shutdown, memory limit. MmChunk, MmHeapInv: what
    a chunk and the heap represent ([heap_inv]). MmHeap, MmRing, MmGc, MmBlocks, MmUser,
    MmRealloc: each operation against that invariant, with the blocks, their contents,
    the statistics and every error. MmTheorems: the contracts. Every system call may
    fail; [OsLaws] has what is assumed of those that succeed. The contracts of allocation
    and reallocation have conditions ([main_used] or [no_collection], [LowFree],
    [harmless]), each the absence of a circumstance in which the code goes wrong.

    Collector of cycles (Zend/zend_gc.c). GcOps: cells with counters and colors, the
    buffer of roots, the stack of the traversals, marking, scanning, collecting, a run.
    GcGraph: what a traversal does to the graph of cells. GcScan: trial deletion, and
    that it finds the largest set of cells that refer only to themselves. GcRoots: the
    buffer, its compaction. GcCollect: collecting gives the counters back. GcTheorems:
    the contracts; the traversals of GcOps keep their stack in a list, which the
    segmented stack refines.

    ext/random. RandomOps: ranges, PCG, the combined generator, 128-bit arithmetic.
    RandomEngines, Random: their laws, and that ranges are unbiased. RandomHex: bytes in
    hexadecimal, Xoshiro256**. RandomSerialOps, RandomSerial: states as arrays, read and
    written through the hash table. RandomMtOps, RandomMt: the Mersenne Twister refines
    its recurrence. RandomizerOps, Randomizer: shuffling is a permutation, each as likely
    as the others, and the engines fulfil the contract of the ranges.

    ext/standard. Base64Ops, Base64 (base64.c): the coder and its inverse. Uuencode
    (uuencode.c): the round trip, and that decoding is safe on any text. Levenshtein
    (levenshtein.c): the number returned is the least cost of a script of edits. Crc32
    (crc32.c): the table divides by the polynomial, and what the checksum detects.

    ** Groups of theorems

    Refinement: tables, lists, stacks and heaps implement ordered maps, lists and sorted
    sequences. Invariants: every operation keeps the representation invariant of its
    component. Safety: no operation is [Ub] from a valid state. Round trips: numeric
    strings, base64, uuencode, hexadecimal states, serialised engines. Bounds: numbers in a range,
    bins of the memory manager, comparisons made by a sort.

    ** Not modelled

    The virtual machine, the compiler and the optimizer (their code is generated or works
    on opcodes); objects apart from the heap classes; zend_strtod.c;
    opcache; threads, servers and streams; extensions that wrap other libraries. In the
    components modelled: exhaustion of memory outside of zend_alloc.c, destructors that
    change the table they are called from, the handlers that destroy and free the garbage
    of the collector (they are parameters; that a run with destructors ends is not
    proved), error handlers that run inside the memory manager, custom heaps and storage
    handlers, vector variants for processors other than the base x86-64, Windows, debug
    builds. *)

From stdpp Require Export base list list_numbers numbers option gmap.
From Stdlib Require Export ZArith Lia.

Open Scope Z_scope.

(** ** Machine integers *)

Definition u8 (x : Z) : Z := x mod 2 ^ 8.
Definition u32 (x : Z) : Z := x mod 2 ^ 32.
Definition u64 (x : Z) : Z := x mod 2 ^ 64.
(** Value of a w-bit pattern read as a two's complement integer. *)
Definition sint (w x : Z) : Z :=
  let y := x mod 2 ^ w in if y <? 2 ^ (w - 1) then y else y - 2 ^ w.
Definition i32 : Z -> Z := sint 32.
Definition i64 : Z -> Z := sint 64.

Definition is_byte (b : Z) : Prop := 0 <= b < 256.

Definition ZEND_LONG_MAX : Z := 2 ^ 63 - 1.
Definition ZEND_LONG_MIN : Z := - 2 ^ 63.

Lemma u32_small x : 0 <= x < 2 ^ 32 -> u32 x = x.
Proof. apply Z.mod_small. Qed.

Lemma i32_small x : 0 <= x < 2 ^ 31 -> i32 x = x.
Proof.
  intros Hx. unfold i32, sint. rewrite Z.mod_small by lia. change (32 - 1) with 31. by rewrite (proj2 (Z.ltb_lt _ _)) by lia.
Qed.

Lemma u64_small x : 0 <= x < 2 ^ 64 -> u64 x = x.
Proof. apply Z.mod_small. Qed.

Lemma u32_range x : 0 <= u32 x < 2 ^ 32.
Proof. apply Z.mod_pos_bound; lia. Qed.

Lemma u64_range x : 0 <= u64 x < 2 ^ 64.
Proof. apply Z.mod_pos_bound; lia. Qed.

(** ** Results: a value, a fatal engine error, or undefined behaviour

    [Fatal] is a call of [zend_error_noreturn(E_ERROR, ...)]. [Ub] is an
    access out of the bounds of an allocation, a failed [ZEND_ASSERT], a signed
    overflow where one is checked for, or a loop that exceeds its fuel. *)

Inductive res (A : Type) : Type :=
| Ok (a : A)
| Fatal
| Ub.
Arguments Ok {A} a.
Arguments Fatal {A}.
Arguments Ub {A}.

#[export] Instance res_ret : MRet res := fun A a => Ok a.
#[export] Instance res_bind : MBind res := fun A B f m =>
  match m with Ok a => f a | Fatal => Fatal | Ub => Ub end.

Definition assert_ (b : bool) : res unit := if b then Ok tt else Ub.

Lemma bind_ok {A B} (f : A -> res B) (a : A) : (Ok a ≫= f) = f a.
Proof. reflexivity. Qed.

(** [runs m Q F]: [m] has no undefined behaviour, its value satisfies [Q], and
    it stops with a fatal error only if [F]. *)
Definition runs {A} (m : res A) (Q : A -> Prop) (F : Prop) : Prop :=
  match m with Ok a => Q a | Fatal => F | Ub => False end.

Lemma runs_bind {A B} (m : res A) (f : A -> res B) (P : A -> Prop) Q F :
  runs m P F -> (forall a, P a -> runs (f a) Q F) -> runs (m ≫= f) Q F.
Proof. destruct m; cbn; auto. Qed.

Lemma runs_ok {A} (m : res A) a Q F : m = Ok a -> Q a -> runs m Q F.
Proof. by intros ->. Qed.

Lemma runs_weaken {A} (m : res A) (P Q : A -> Prop) (F G : Prop) :
  runs m P F -> (forall a, P a -> Q a) -> (F -> G) -> runs m Q G.
Proof. destruct m; cbn; auto. Qed.

(** ** Arrays indexed by machine integers *)

Section Arrays.
Context {A : Type}.
Implicit Types (l : list A) (a : A) (i : Z).

Definition zlen l : Z := Z.of_nat (length l).
Definition zget l i : option A := if 0 <=? i then l !! Z.to_nat i else None.
Definition zset l i a : list A := <[Z.to_nat i := a]> l.
Definition in_range l i : bool := (0 <=? i) && (i <? zlen l).

Definition rd l i : res A :=
  match zget l i with Some a => Ok a | None => Ub end.
Definition wr l i a : res (list A) :=
  if in_range l i then Ok (zset l i a) else Ub.

Lemma zget_Some_range l i a : zget l i = Some a -> 0 <= i < zlen l.
Proof.
  unfold zget, zlen. destruct (Z.leb_spec 0 i); [|done].
  intros H1%lookup_lt_Some. lia.
Qed.

Lemma zget_is_Some l i : 0 <= i < zlen l -> exists a, zget l i = Some a.
Proof.
  unfold zget, zlen. intros H. rewrite (proj2 (Z.leb_le _ _)) by lia.
  apply lookup_lt_is_Some. lia.
Qed.

Lemma zget_zset_eq l i a : 0 <= i < zlen l -> zget (zset l i a) i = Some a.
Proof.
  unfold zget, zset, zlen. intros H. rewrite (proj2 (Z.leb_le _ _)) by lia.
  apply list_lookup_insert_eq. lia.
Qed.

Lemma zget_zset_ne l i j a : 0 <= i -> i <> j -> zget (zset l i a) j = zget l j.
Proof.
  unfold zget, zset. intros H Hne. destruct (Z.leb_spec 0 j); [|done].
  apply list_lookup_insert_ne. lia.
Qed.

Lemma zlen_zset l i a : zlen (zset l i a) = zlen l.
Proof. unfold zlen, zset. by rewrite length_insert. Qed.

Lemma zset_zset l i a b : zset (zset l i a) i b = zset l i b.
Proof. unfold zset. apply list_insert_insert_eq. Qed.

Lemma rd_ok l i a : zget l i = Some a -> rd l i = Ok a.
Proof. unfold rd. by intros ->. Qed.

Lemma wr_ok l i a : 0 <= i < zlen l -> wr l i a = Ok (zset l i a).
Proof. unfold wr, in_range. intros H.
  rewrite (proj2 (Z.leb_le _ _)), (proj2 (Z.ltb_lt _ _)) by lia. done. Qed.

Lemma zlen_app l1 l2 : zlen (l1 ++ l2) = zlen l1 + zlen l2.
Proof. unfold zlen. rewrite length_app. lia. Qed.

Lemma zlen_cons a l : zlen (a :: l) = zlen l + 1.
Proof. unfold zlen. cbn. lia. Qed.

Lemma zlen_nonneg l : 0 <= zlen l.
Proof. unfold zlen. lia. Qed.

Lemma zget_app_l l1 l2 i : i < zlen l1 -> zget (l1 ++ l2) i = zget l1 i.
Proof.
  unfold zget, zlen. intros H. destruct (Z.leb_spec 0 i); [|done].
  apply lookup_app_l. lia.
Qed.

Lemma zget_replicate n a i : 0 <= i < Z.of_nat n -> zget (replicate n a) i = Some a.
Proof.
  unfold zget. intros H. rewrite (proj2 (Z.leb_le _ _)) by lia.
  apply lookup_replicate_2. lia.
Qed.

Lemma zlen_replicate n a : zlen (replicate n a) = Z.of_nat n.
Proof. unfold zlen. by rewrite length_replicate. Qed.
End Arrays.

(** ** Comparison functions *)

(** A three-way comparison that is consistent. *)
Definition comparison {A} (c : A -> A -> Z) : Prop :=
  (forall x y, Z.sgn (c y x) = - Z.sgn (c x y))
  /\ (forall x y z, c x y <= 0 -> c y z <= 0 -> c x z <= 0).

Lemma comparison_lt {A} (c : A -> A -> Z) x y z : comparison c ->
  c x y <= 0 -> c y z <= 0 -> c x y < 0 \/ c y z < 0 -> c x z < 0.
Proof.
  intros [Hs Ht] H1 H2 H3. pose proof (Ht x y z H1 H2) as H4. destruct (Z.eq_dec (c x z) 0) as [H0|]; [|lia].
  pose proof (Hs x z) as S1. pose proof (Hs x y) as S2. pose proof (Hs y z) as S3.
  assert (c z x <= 0) as H5 by lia. pose proof (Ht y z x H2 H5). pose proof (Ht z x y H5 H1). lia.
Qed.

Lemma comparison_refl {A} (c : A -> A -> Z) x : comparison c -> c x x = 0.
Proof. intros [Hs _]. specialize (Hs x x). lia. Qed.

(** ** Hint databases and tactics *)

Create HintDb zarr.
Create Rewrite HintDb zarr.
#[export] Hint Rewrite @zlen_zset @zlen_replicate @bind_ok : zarr.
#[export] Hint Resolve u32_range u64_range zlen_nonneg : zarr.

(** Case analysis on the boolean comparisons the code branches on. *)
Ltac zcase :=
  match goal with
  | |- context [?a <? ?b] => destruct (Z.ltb_spec a b)
  | |- context [?a <=? ?b] => destruct (Z.leb_spec a b)
  | |- context [?a =? ?b] => destruct (Z.eqb_spec a b)
  | H : context [?a <? ?b] |- _ => destruct (Z.ltb_spec a b)
  | H : context [?a <=? ?b] |- _ => destruct (Z.leb_spec a b)
  | H : context [?a =? ?b] |- _ => destruct (Z.eqb_spec a b)
  end.
