(* ===== verification/ZendString.v ===== *)
(** * Strings of the engine (Zend/zend_string.h, Zend/zend_hash.c)

    The hash function of string keys, in the form compiled for x86-64 (bytes
    are [signed char], four bytes are folded per multiplication), and the
    recognition of canonical decimal integers among string keys. A string is
    the list of its bytes, each between 0 and 255. *)

From S2P Require Import Prelude.

(** ** zend_inline_hash_func *)

(** [str[i]] where [char] is signed. *)
Definition schar (b : Z) : Z := sint 8 b.

(** The loop body that folds four bytes. *)
Definition hash4 (hash c0 c1 c2 c3 : Z) : Z :=
  u64 (hash * (33 * 33 * 33 * 33) + schar c0 * (33 * 33 * 33)
       + schar c1 * (33 * 33) + schar c2 * 33 + schar c3).

(** What follows the loop: fewer than eight bytes are left. *)
Definition hash_tail4 (hash : Z) (str : list Z) : Z :=
  match str with
  | c0 :: c1 :: c2 :: _ =>
      u64 (hash * (33 * 33 * 33) + schar c0 * (33 * 33) + schar c1 * 33 + schar c2)
  | c0 :: c1 :: _ => u64 (hash * (33 * 33) + schar c0 * 33 + schar c1)
  | c0 :: _ => u64 (hash * 33 + schar c0)
  | [] => hash
  end.

Fixpoint hash_loop (hash : Z) (str : list Z) : Z :=
  match str with
  | c0 :: c1 :: c2 :: c3 :: rest =>
      match rest with
      | c4 :: c5 :: c6 :: c7 :: rest' =>
          hash_loop (hash4 (hash4 hash c0 c1 c2 c3) c4 c5 c6 c7) rest'
      | _ => hash_tail4 (hash4 hash c0 c1 c2 c3) rest
      end
  | _ => hash_tail4 hash str
  end.

Definition zend_inline_hash_func (str : list Z) : Z :=
  Z.lor (hash_loop 5381 str) 0x8000000000000000.

(** The reference definition: one byte at a time, [hash * 33 + c]. *)
Definition djbx33a (hash : Z) (str : list Z) : Z :=
  fold_left (fun h c => u64 (h * 33 + schar c)) str hash.

(** ** _zend_handle_numeric_str, _zend_handle_numeric_str_ex *)

(** MAX_LENGTH_OF_LONG for a 64-bit zend_long. *)
Definition MAX_LENGTH_OF_LONG : Z := 20.

(** [key[i]]; a zend_string carries a terminating NUL after its bytes. *)
Definition byte_at (key : list Z) (i : Z) : Z := default 0 (zget key i).

Definition is_digit (c : Z) : bool := (48 <=? c) && (c <=? 57).

(** The [while (1)] loop: [tmp] is the position already consumed. *)
Fixpoint numeric_loop (fuel : nat) (key : list Z) (tmp idx : Z) : option Z :=
  match fuel with
  | O => None
  | S fuel =>
      let tmp := tmp + 1 in
      if tmp =? zlen key then
        if byte_at key 0 =? 45 then
          if ZEND_LONG_MAX <? u64 (idx - 1) then None else Some (u64 (0 - idx))
        else if ZEND_LONG_MAX <? idx then None else Some idx
      else if is_digit (byte_at key tmp) then
        numeric_loop fuel key tmp (u64 (idx * 10 + (byte_at key tmp - 48)))
      else None
  end.

Definition _zend_handle_numeric_str_ex (key : list Z) : option Z :=
  let tmp := if byte_at key 0 =? 45 then 1 else 0 in
  if ((byte_at key tmp =? 48) && (1 <? zlen key))
     || (MAX_LENGTH_OF_LONG - 1 <? zlen key - tmp)
  then None
  else numeric_loop (S (length key)) key tmp (u64 (byte_at key tmp - 48)).

Definition _zend_handle_numeric_str (key : list Z) : option Z :=
  let c := byte_at key 0 in
  if 57 <? schar c then None
  else if schar c <? 48 then
    if negb (c =? 45) then None
    else let c1 := byte_at key 1 in
      if (57 <? schar c1) || (schar c1 <? 48) then None
      else _zend_handle_numeric_str_ex key
  else _zend_handle_numeric_str_ex key.

Example numeric_42 : _zend_handle_numeric_str [52; 50] = Some 42.
Proof. reflexivity. Qed.
Example numeric_m7 : _zend_handle_numeric_str [45; 55] = Some (2 ^ 64 - 7).
Proof. reflexivity. Qed.
Example numeric_lead0 : _zend_handle_numeric_str [48; 55] = None.
Proof. reflexivity. Qed.

(** ** Equivalence of the unrolled hash with the reference *)

Lemma u64_fold h x : u64 (u64 h * 33 + x) = u64 (h * 33 + x).
Proof.
  unfold u64. rewrite Z.add_mod, Z.mul_mod_idemp_l, <- Z.add_mod by lia. done.
Qed.

(** Wrap-around may be postponed to the end of a run of bytes. *)
Lemma u64_djbx str hash : str <> [] ->
  u64 (fold_left (fun h c => h * 33 + schar c) str hash) = djbx33a hash str.
Proof.
  intros Hne.
  assert (forall str hash, u64 (fold_left (fun h c => h * 33 + schar c) str hash)
            = djbx33a (u64 hash) str) as Hgen.
  { clear. induction str as [|c str IH]; intros hash; cbn; [done|].
    by rewrite IH, u64_fold. }
  destruct str as [|c str]; [done|]. exact (Hgen str (hash * 33 + schar c)).
Qed.

Lemma hash4_djbx hash c0 c1 c2 c3 :
  hash4 hash c0 c1 c2 c3 = djbx33a hash [c0; c1; c2; c3].
Proof. rewrite <- u64_djbx by done. cbn. unfold hash4. f_equal. ring. Qed.

Lemma hash_tail4_djbx hash str :
  (length str < 4)%nat -> hash_tail4 hash str = djbx33a hash str.
Proof.
  intros H. destruct str as [|c0 [|c1 [|c2 [|]]]]; simpl in H; try lia; try done;
    rewrite <- u64_djbx by done; cbn; f_equal; ring.
Qed.

Lemma djbx33a_app hash s1 s2 : djbx33a hash (s1 ++ s2) = djbx33a (djbx33a hash s1) s2.
Proof. apply fold_left_app. Qed.

Lemma hash_loop_djbx str hash : hash_loop hash str = djbx33a hash str.
Proof.
  remember (length str) as n eqn:Hn. revert str hash Hn.
  induction n as [n IH] using lt_wf_ind; intros str hash ->.
  destruct str as [|c0 [|c1 [|c2 [|c3 rest]]]];
    try (apply hash_tail4_djbx; simpl; lia).
  change (c0 :: c1 :: c2 :: c3 :: rest) with ([c0; c1; c2; c3] ++ rest).
  rewrite djbx33a_app, <- hash4_djbx.
  destruct rest as [|c4 [|c5 [|c6 [|c7 rest']]]];
    try (apply hash_tail4_djbx; simpl; lia).
  change (c4 :: c5 :: c6 :: c7 :: rest') with ([c4; c5; c6; c7] ++ rest').
  rewrite djbx33a_app, <- (hash4_djbx _ c4). simpl.
  eapply IH; [|reflexivity]. simpl. lia.
Qed.

Lemma djbx33a_range str hash : 0 <= hash < 2 ^ 64 -> 0 <= djbx33a hash str < 2 ^ 64.
Proof.
  revert hash; induction str as [|c str IH]; intros hash H; [exact H|].
  cbn. apply IH, u64_range.
Qed.

Lemma lor_top_bit x : 0 <= x < 2 ^ 64 -> 2 ^ 63 <= Z.lor x (2 ^ 63) < 2 ^ 64.
Proof.
  intros H. assert (0 <= Z.lor x (2 ^ 63)) by (apply Z.lor_nonneg; lia). split.
  - assert (Z.testbit (Z.lor x (2 ^ 63)) 63 = true) as Hb.
    { by rewrite Z.lor_spec, Z.pow2_bits_true, orb_true_r by lia. }
    rewrite Z.testbit_true in Hb by lia.
    destruct (Z.lt_ge_cases (Z.lor x (2 ^ 63)) (2 ^ 63)); [|done].
    by rewrite Z.div_small in Hb by lia.
  - destruct (Z.eq_dec (Z.lor x (2 ^ 63)) 0) as [->|Hne]; [lia|].
    apply Z.log2_lt_pow2; [lia|]. rewrite Z.log2_lor by lia.
    apply Z.max_lub_lt; [|reflexivity].
    destruct (Z.eq_dec x 0) as [->|]; [reflexivity|]. apply Z.log2_lt_pow2; lia.
Qed.

Lemma zend_inline_hash_func_range str :
  2 ^ 63 <= zend_inline_hash_func str < 2 ^ 64.
Proof.
  unfold zend_inline_hash_func. change 0x8000000000000000 with (2 ^ 63).
  apply lor_top_bit. rewrite hash_loop_djbx. apply djbx33a_range. lia.
Qed.
