(* ===== verification/StrMem.v ===== *)
(** * Bytes in memory

    A block of memory is a list of bytes and a pointer into it an index. The
    functions of <string.h> the engine uses, with every access checked. *)

From S2P Require Import Prelude.

(** The [n] bytes from [i] on. *)
Definition slice {A} (M : list A) (i n : Z) : list A := take (Z.to_nat n) (drop (Z.to_nat i) M).

Definition in_bounds {A} (M : list A) (i n : Z) : bool := (0 <=? i) && (0 <=? n) && (i + n <=? zlen M).

(** [memchr(M + p, c, n)]: bytes are read one after the other until [c] is found. *)
Fixpoint memchr_loop (n : nat) (M : list Z) (p c : Z) : res (option Z) :=
  match n with
  | O => Ok None
  | S n => x ← rd M p; if x =? c then Ok (Some p) else memchr_loop n M (p + 1) c
  end.

Definition memchr (M : list Z) (p c n : Z) : res (option Z) :=
  _ ← assert_ (0 <=? n); memchr_loop (Z.to_nat n) M p c.

(** The last occurrence; [p] is one past the byte that is read next. *)
Fixpoint memrchr_loop (n : nat) (M : list Z) (p c : Z) : res (option Z) :=
  match n with
  | O => Ok None
  | S n => x ← rd M (p - 1); if x =? c then Ok (Some (p - 1)) else memrchr_loop n M (p - 1) c
  end.

Definition memrchr (M : list Z) (s c n : Z) : res (option Z) :=
  _ ← assert_ (0 <=? n); memrchr_loop (Z.to_nat n) M (s + n) c.

(** Lexicographic order of the first bytes that differ; of the result only the sign
    is specified. *)
Fixpoint cmp_bytes (a b : list Z) : Z :=
  match a, b with
  | x :: a, y :: b => if x =? y then cmp_bytes a b else x - y
  | _, _ => 0
  end.

Definition memcmp (A : list Z) (i : Z) (B : list Z) (j n : Z) : res Z :=
  _ ← assert_ (in_bounds A i n && in_bounds B j n);
  Ok (cmp_bytes (slice A i n) (slice B j n)).

(** Overwrites the bytes of [M] from [q] on with [l]. *)
Definition store {A} (M : list A) (q : Z) (l : list A) : list A :=
  take (Z.to_nat q) M ++ l ++ drop (Z.to_nat q + length l) M.

Definition wr_block (M : list Z) (q : Z) (l : list Z) : res (list Z) :=
  _ ← assert_ (in_bounds M q (zlen l)); Ok (store M q l).

Definition rd_block (M : list Z) (p n : Z) : res (list Z) :=
  _ ← assert_ (in_bounds M p n); Ok (slice M p n).

(** ** Slices *)

Section Slices.
Context {A : Type}.
Implicit Types (M l : list A) (i j n p q : Z).

Lemma in_bounds_spec M i n : in_bounds M i n = true <-> 0 <= i /\ 0 <= n /\ i + n <= zlen M.
Proof. unfold in_bounds. rewrite !andb_true_iff, !Z.leb_le. tauto. Qed.

Lemma in_bounds_intro M i n : 0 <= i -> 0 <= n -> i + n <= zlen M -> in_bounds M i n = true.
Proof. intros. by apply in_bounds_spec. Qed.

Lemma zlen_slice M i n : 0 <= i -> 0 <= n -> i + n <= zlen M -> zlen (slice M i n) = n.
Proof. unfold zlen, slice. intros. rewrite length_take, length_drop. lia. Qed.

Lemma zget_slice M i n k : 0 <= i -> 0 <= k < n -> zget (slice M i n) k = zget M (i + k).
Proof.
  intros Hi Hk. unfold zget, slice. rewrite !(proj2 (Z.leb_le _ _)) by lia.
  rewrite lookup_take_lt by lia. rewrite lookup_drop. f_equal. lia.
Qed.

Lemma slice_nil M i : slice M i 0 = [].
Proof. reflexivity. Qed.

Lemma slice_cons M i n x : 0 <= i -> 0 < n -> zget M i = Some x -> slice M i n = x :: slice M (i + 1) (n - 1).
Proof.
  unfold zget, slice. intros Hi Hn. rewrite (proj2 (Z.leb_le _ _)) by lia. intros Hx.
  rewrite (drop_S _ x (Z.to_nat i)) by done. replace (Z.to_nat n) with (S (Z.to_nat (n - 1))) by lia. cbn.
  do 3 f_equal. lia.
Qed.

Lemma slice_app M i m n : 0 <= i -> 0 <= m -> 0 <= n -> slice M i (m + n) = slice M i m ++ slice M (i + m) n.
Proof.
  unfold slice. intros. rewrite Z2Nat.inj_add, Z2Nat.inj_add by lia.
  rewrite <- drop_drop. rewrite <- (take_drop (Z.to_nat m) (drop (Z.to_nat i) M)) at 1.
  destruct (Nat.le_gt_cases (Z.to_nat m) (length (drop (Z.to_nat i) M))).
  - rewrite take_app_ge by (rewrite length_take; lia). rewrite length_take, Nat.min_l by lia.
    do 2 f_equal. lia.
  - rewrite (drop_ge (drop _ _)) by lia. rewrite !app_nil_r, take_nil, app_nil_r.
    rewrite take_ge; [done|]. rewrite length_take. lia.
Qed.

Lemma slice_all M : slice M 0 (zlen M) = M.
Proof. unfold slice, zlen. rewrite Nat2Z.id. by rewrite take_ge. Qed.

Lemma slice_mid l M r n : zlen M = n -> slice (l ++ M ++ r) (zlen l) n = M.
Proof.
  unfold slice, zlen. intros <-. rewrite !Nat2Z.id, drop_app_length. by rewrite take_app_length.
Qed.

(** Equal slices are equal bytes. *)
Lemma slice_eq_iff M i l : 0 <= i -> i + zlen l <= zlen M ->
  slice M i (zlen l) = l <-> forall k, 0 <= k < zlen l -> zget M (i + k) = zget l k.
Proof.
  intros Hi Hl. split.
  - intros H k Hk. rewrite <- (zget_slice M i (zlen l)) by lia. by rewrite H.
  - intros H. apply list_eq. intros k. destruct (decide (k < length l)%nat) as [Hk|Hk].
    + specialize (H (Z.of_nat k)). rewrite <- (zget_slice M i (zlen l)) in H by (unfold zlen in *; lia).
      unfold zget in H. rewrite (proj2 (Z.leb_le _ _)), Nat2Z.id in H by lia. apply H. unfold zlen. lia.
    + rewrite !lookup_ge_None_2; try done; [lia|].
      pose proof (zlen_slice M i (zlen l)) as Hs. unfold zlen in *. lia.
Qed.

Lemma length_store M q l : 0 <= q -> q + zlen l <= zlen M -> zlen (store M q l) = zlen M.
Proof. unfold store, zlen. intros. rewrite !length_app, length_take, length_drop. lia. Qed.

Lemma store_at pre old post l : zlen old = zlen l -> store (pre ++ old ++ post) (zlen pre) l = pre ++ l ++ post.
Proof.
  unfold store, zlen. intros Hl. rewrite Nat2Z.id, take_app_length. do 2 f_equal.
  rewrite <- drop_drop, drop_app_length. replace (length l) with (length old) by lia. apply drop_app_length.
Qed.
End Slices.

Lemma cmp_bytes_eq a b : length a = length b -> cmp_bytes a b = 0 <-> a = b.
Proof.
  revert b. induction a as [|x a IH]; intros [|y b] Hl; cbn; try done.
  cbn in Hl. destruct (Z.eqb_spec x y) as [->|Hne].
  - rewrite IH by lia. split; [by intros ->|by intros [= ->]].
  - split; [lia|by intros [= -> ->]].
Qed.

(** ** The first and the last byte *)

Lemma memchr_loop_ok n M p c : 0 <= p -> p + Z.of_nat n <= zlen M ->
  exists r, memchr_loop n M p c = Ok r /\
  match r with
  | Some q => p <= q < p + Z.of_nat n /\ zget M q = Some c /\ forall k, p <= k < q -> zget M k <> Some c
  | None => forall k, p <= k < p + Z.of_nat n -> zget M k <> Some c
  end.
Proof.
  revert p. induction n as [|n IH]; intros p Hp Hl; cbn.
  - exists None. split; [done|]. intros. lia.
  - destruct (zget_is_Some M p) as [x Hx]; [lia|]. rewrite (rd_ok _ _ _ Hx). cbn. case (Z.eqb_spec x c) as [->|Hne].
    + exists (Some p). split; [done|]. split; [lia|]. split; [done|]. intros; lia.
    + destruct (IH (p + 1)) as (r & Hr & Hs); [lia..|]. exists r. split; [done|].
      assert (zget M p <> Some c) by congruence.
      destruct r as [q|].
      * destruct Hs as (? & ? & Hk). split; [lia|]. split; [done|]. intros k ?.
        destruct (decide (k = p)) as [->|]; [done|]. apply Hk. lia.
      * intros k ?. destruct (decide (k = p)) as [->|]; [done|]. apply Hs. lia.
Qed.

Lemma memchr_ok M p c n : 0 <= p -> 0 <= n -> p + n <= zlen M ->
  exists r, memchr M p c n = Ok r /\
  match r with
  | Some q => p <= q < p + n /\ zget M q = Some c /\ forall k, p <= k < q -> zget M k <> Some c
  | None => forall k, p <= k < p + n -> zget M k <> Some c
  end.
Proof.
  intros Hp Hn Hl. unfold memchr, assert_. rewrite (proj2 (Z.leb_le _ _)) by lia. cbn.
  destruct (memchr_loop_ok (Z.to_nat n) M p c) as (r & Hr & Hs); [lia..|]. exists r. split; [done|].
  by rewrite Z2Nat.id in Hs by lia.
Qed.

Lemma memrchr_loop_ok n M p c : 0 <= p - Z.of_nat n -> p <= zlen M ->
  exists r, memrchr_loop n M p c = Ok r /\
  match r with
  | Some q => p - Z.of_nat n <= q < p /\ zget M q = Some c /\ forall k, q < k < p -> zget M k <> Some c
  | None => forall k, p - Z.of_nat n <= k < p -> zget M k <> Some c
  end.
Proof.
  revert p. induction n as [|n IH]; intros p Hp Hl; cbn.
  - exists None. split; [done|]. intros. lia.
  - destruct (zget_is_Some M (p - 1)) as [x Hx]; [lia|]. rewrite (rd_ok _ _ _ Hx). cbn. case (Z.eqb_spec x c) as [->|Hne].
    + exists (Some (p - 1)). split; [done|]. split; [lia|]. split; [done|]. intros; lia.
    + destruct (IH (p - 1)) as (r & Hr & Hs); [lia..|]. exists r. split; [done|].
      assert (zget M (p - 1) <> Some c) by congruence.
      destruct r as [q|].
      * destruct Hs as (? & ? & Hk). split; [lia|]. split; [done|]. intros k ?.
        destruct (decide (k = p - 1)) as [->|]; [done|]. apply Hk. lia.
      * intros k ?. destruct (decide (k = p - 1)) as [->|]; [done|]. apply Hs. lia.
Qed.

Lemma memrchr_ok M s c n : 0 <= s -> 0 <= n -> s + n <= zlen M ->
  exists r, memrchr M s c n = Ok r /\
  match r with
  | Some q => s <= q < s + n /\ zget M q = Some c /\ forall k, q < k < s + n -> zget M k <> Some c
  | None => forall k, s <= k < s + n -> zget M k <> Some c
  end.
Proof.
  intros Hp Hn Hl. unfold memrchr, assert_. rewrite (proj2 (Z.leb_le _ _)) by lia. cbn.
  destruct (memrchr_loop_ok (Z.to_nat n) M (s + n) c) as (r & Hr & Hs); [lia..|]. exists r. split; [done|].
  replace (s + n - Z.of_nat (Z.to_nat n)) with s in Hs by lia. done.
Qed.

Lemma memcmp_ok A i B j n : 0 <= i -> 0 <= j -> 0 <= n -> i + n <= zlen A -> j + n <= zlen B ->
  memcmp A i B j n = Ok (cmp_bytes (slice A i n) (slice B j n)).
Proof. intros. unfold memcmp. by rewrite !in_bounds_intro by lia. Qed.

(** ** Overwriting *)

Section Store.
Context {A : Type}.
Implicit Types (M l : list A) (i n p q : Z).

Lemma zget_store M q l k : 0 <= q -> q + zlen l <= zlen M ->
  zget (store M q l) k = if (q <=? k) && (k <? q + zlen l) then zget l (k - q) else zget M k.
Proof.
  unfold zget, store, zlen. intros Hq Hl. destruct (Z.leb_spec 0 k) as [Hk|Hk].
  2:{ rewrite (proj2 (Z.leb_gt q k)) by lia. done. }
  destruct (Z.leb_spec q k); cbn.
  - rewrite lookup_app_r by (rewrite length_take; lia). rewrite length_take, Nat.min_l by lia.
    destruct (Z.ltb_spec k (q + Z.of_nat (length l))).
    + rewrite (proj2 (Z.leb_le _ _)) by lia. rewrite lookup_app_l by lia. f_equal. lia.
    + rewrite lookup_app_r by lia. rewrite lookup_drop. f_equal. lia.
  - rewrite lookup_app_l by (rewrite length_take; lia). apply lookup_take_lt. lia.
Qed.

Lemma zget_ext M l : zlen M = zlen l -> (forall k, 0 <= k < zlen M -> zget M k = zget l k) -> M = l.
Proof.
  intros Hl H. apply list_eq. intros k. destruct (decide (k < length M)%nat).
  - specialize (H (Z.of_nat k)). unfold zget, zlen in *. rewrite (proj2 (Z.leb_le _ _)), Nat2Z.id in H by lia. apply H. lia.
  - rewrite !lookup_ge_None_2; try done; unfold zlen in *; lia.
Qed.

Lemma slice_ext M l i j n : 0 <= i -> 0 <= j -> 0 <= n -> i + n <= zlen M -> j + n <= zlen l ->
  (forall k, 0 <= k < n -> zget M (i + k) = zget l (j + k)) -> slice M i n = slice l j n.
Proof.
  intros ????? H. apply zget_ext; rewrite !zlen_slice by lia; [done|]. intros k Hk. rewrite !zget_slice by lia. auto.
Qed.

Lemma slice_store_disjoint M q l i n : 0 <= q -> q + zlen l <= zlen M -> 0 <= i -> 0 <= n -> i + n <= zlen M ->
  i + n <= q \/ q + zlen l <= i -> slice (store M q l) i n = slice M i n.
Proof.
  intros. apply slice_ext; rewrite ?length_store by lia; try lia. intros k Hk. rewrite zget_store by lia.
  destruct (Z.leb_spec q (i + k)), (Z.ltb_spec (i + k) (q + zlen l)); cbn; try done. lia.
Qed.

Lemma slice_store_same M q l : 0 <= q -> q + zlen l <= zlen M -> slice (store M q l) q (zlen l) = l.
Proof.
  intros. pose proof (zlen_nonneg l). apply slice_eq_iff; rewrite ?length_store by lia; try lia.
  intros k Hk. rewrite zget_store by lia. rewrite (proj2 (Z.leb_le _ _)), (proj2 (Z.ltb_lt _ _)) by lia. cbn. f_equal. lia.
Qed.

Lemma store_store M q l1 l2 : 0 <= q -> q + zlen l1 + zlen l2 <= zlen M ->
  store (store M q l1) (q + zlen l1) l2 = store M q (l1 ++ l2).
Proof.
  intros. pose proof (zlen_nonneg l1). pose proof (zlen_nonneg l2). pose proof (zlen_app l1 l2) as Happ.
  assert (Hs : zlen (store M q l1) = zlen M) by (apply length_store; lia).
  apply zget_ext; rewrite !length_store; try lia.
  intros k Hk. rewrite !zget_store by lia. rewrite Happ.
  destruct (Z.leb_spec q k), (Z.leb_spec (q + zlen l1) k), (Z.ltb_spec k (q + zlen l1)),
    (Z.ltb_spec k (q + (zlen l1 + zlen l2))), (Z.ltb_spec k (q + zlen l1 + zlen l2)); cbn; try done; try lia.
  - unfold zget, zlen in *. rewrite !(proj2 (Z.leb_le _ _)) by lia. rewrite lookup_app_r by lia. f_equal. lia.
  - by rewrite zget_app_l by lia.
Qed.

Lemma store_store_at M q l1 l2 r : r = q + zlen l1 -> 0 <= q -> q + zlen l1 + zlen l2 <= zlen M ->
  store (store M q l1) r l2 = store M q (l1 ++ l2).
Proof. intros ->. apply store_store. Qed.

Lemma store_nil M q : store M q [] = M.
Proof. unfold store. cbn. rewrite Nat.add_0_r. apply take_drop. Qed.

Lemma zset_store M q x : 0 <= q < zlen M -> zset M q x = store M q [x].
Proof.
  intros. unfold zlen in *. apply zget_ext; rewrite ?zlen_zset, ?length_store; unfold zlen; cbn; try lia.
  intros k Hk. rewrite zget_store by (unfold zlen; cbn; lia). change (zlen [x]) with 1.
  destruct (decide (k = q)) as [->|Hne].
  - rewrite zget_zset_eq by (unfold zlen; lia). rewrite (proj2 (Z.leb_le _ _)), (proj2 (Z.ltb_lt _ _)) by lia. by rewrite Z.sub_diag.
  - rewrite zget_zset_ne by lia. destruct (Z.leb_spec q k), (Z.ltb_spec k (q + 1)); cbn; done || lia.
Qed.
End Store.

Lemma rd_block_ok M p n : 0 <= p -> 0 <= n -> p + n <= zlen M -> rd_block M p n = Ok (slice M p n).
Proof. intros. unfold rd_block. by rewrite in_bounds_intro by lia. Qed.

Lemma wr_block_ok M q l : 0 <= q -> q + zlen l <= zlen M -> wr_block M q l = Ok (store M q l).
Proof. intros. pose proof (zlen_nonneg l). unfold wr_block. by rewrite in_bounds_intro by lia. Qed.

Lemma wr_store (M : list Z) q x : 0 <= q < zlen M -> wr M q x = Ok (store M q [x]).
Proof. intros. rewrite wr_ok by done. by rewrite zset_store. Qed.

Lemma zlen_one {A} (x : A) : zlen [x] = 1.
Proof. reflexivity. Qed.

Lemma zlen_map {A B} (f : A -> B) l : zlen (map f l) = zlen l.
Proof. unfold zlen. by rewrite length_map. Qed.

#[export] Hint Rewrite @zlen_map @zlen_app : zarr.

(** A literal string of bytes. *)
Ltac byte_literal := unfold is_byte; repeat (apply Forall_cons; split; [lia|]); by apply Forall_nil.
