(* ===== verification/StrCaseOps.v ===== *)
(** * Case of ASCII letters (Zend/zend_operators.c)

    Conversion to lower and upper case, byte by byte through a table and sixteen
    bytes at a time with SSE2 instructions, and the comparisons of byte strings that
    ignore case. Source and destination are pointers into one block of memory, so
    that a string can be converted in place. *)

From S2P Require Import Prelude.
From S2P Require Import StrMem.

Definition zend_tolower_map : list Z := [
  0; 1; 2; 3; 4; 5; 6; 7; 8; 9; 10; 11; 12; 13; 14; 15;
  16; 17; 18; 19; 20; 21; 22; 23; 24; 25; 26; 27; 28; 29; 30; 31;
  32; 33; 34; 35; 36; 37; 38; 39; 40; 41; 42; 43; 44; 45; 46; 47;
  48; 49; 50; 51; 52; 53; 54; 55; 56; 57; 58; 59; 60; 61; 62; 63;
  64; 97; 98; 99; 100; 101; 102; 103; 104; 105; 106; 107; 108; 109; 110; 111;
  112; 113; 114; 115; 116; 117; 118; 119; 120; 121; 122; 91; 92; 93; 94; 95;
  96; 97; 98; 99; 100; 101; 102; 103; 104; 105; 106; 107; 108; 109; 110; 111;
  112; 113; 114; 115; 116; 117; 118; 119; 120; 121; 122; 123; 124; 125; 126; 127;
  128; 129; 130; 131; 132; 133; 134; 135; 136; 137; 138; 139; 140; 141; 142; 143;
  144; 145; 146; 147; 148; 149; 150; 151; 152; 153; 154; 155; 156; 157; 158; 159;
  160; 161; 162; 163; 164; 165; 166; 167; 168; 169; 170; 171; 172; 173; 174; 175;
  176; 177; 178; 179; 180; 181; 182; 183; 184; 185; 186; 187; 188; 189; 190; 191;
  192; 193; 194; 195; 196; 197; 198; 199; 200; 201; 202; 203; 204; 205; 206; 207;
  208; 209; 210; 211; 212; 213; 214; 215; 216; 217; 218; 219; 220; 221; 222; 223;
  224; 225; 226; 227; 228; 229; 230; 231; 232; 233; 234; 235; 236; 237; 238; 239;
  240; 241; 242; 243; 244; 245; 246; 247; 248; 249; 250; 251; 252; 253; 254; 255].

Definition zend_toupper_map : list Z := [
  0; 1; 2; 3; 4; 5; 6; 7; 8; 9; 10; 11; 12; 13; 14; 15;
  16; 17; 18; 19; 20; 21; 22; 23; 24; 25; 26; 27; 28; 29; 30; 31;
  32; 33; 34; 35; 36; 37; 38; 39; 40; 41; 42; 43; 44; 45; 46; 47;
  48; 49; 50; 51; 52; 53; 54; 55; 56; 57; 58; 59; 60; 61; 62; 63;
  64; 65; 66; 67; 68; 69; 70; 71; 72; 73; 74; 75; 76; 77; 78; 79;
  80; 81; 82; 83; 84; 85; 86; 87; 88; 89; 90; 91; 92; 93; 94; 95;
  96; 65; 66; 67; 68; 69; 70; 71; 72; 73; 74; 75; 76; 77; 78; 79;
  80; 81; 82; 83; 84; 85; 86; 87; 88; 89; 90; 123; 124; 125; 126; 127;
  128; 129; 130; 131; 132; 133; 134; 135; 136; 137; 138; 139; 140; 141; 142; 143;
  144; 145; 146; 147; 148; 149; 150; 151; 152; 153; 154; 155; 156; 157; 158; 159;
  160; 161; 162; 163; 164; 165; 166; 167; 168; 169; 170; 171; 172; 173; 174; 175;
  176; 177; 178; 179; 180; 181; 182; 183; 184; 185; 186; 187; 188; 189; 190; 191;
  192; 193; 194; 195; 196; 197; 198; 199; 200; 201; 202; 203; 204; 205; 206; 207;
  208; 209; 210; 211; 212; 213; 214; 215; 216; 217; 218; 219; 220; 221; 222; 223;
  224; 225; 226; 227; 228; 229; 230; 231; 232; 233; 234; 235; 236; 237; 238; 239;
  240; 241; 242; 243; 244; 245; 246; 247; 248; 249; 250; 251; 252; 253; 254; 255].

(** [zend_tolower_map[(unsigned char)(c)]] *)
Definition zend_tolower_ascii (c : Z) : Z := nth (Z.to_nat (u8 c)) zend_tolower_map 0.
Definition zend_toupper_ascii (c : Z) : Z := nth (Z.to_nat (u8 c)) zend_toupper_map 0.

(** ** The SSE2 instructions, lane by lane

    An [__m128i] is the list of its sixteen bytes. *)

Definition mm_set1_epi8 (c : Z) : list Z := replicate 16 (u8 c).
Definition mm_cmpgt_epi8 (a b : list Z) : list Z := zip_with (fun x y => if sint 8 y <? sint 8 x then 0xff else 0) a b.
Definition mm_cmplt_epi8 (a b : list Z) : list Z := mm_cmpgt_epi8 b a.
Definition mm_and_si128 (a b : list Z) : list Z := zip_with Z.land a b.
Definition mm_add_epi8 (a b : list Z) : list Z := zip_with (fun x y => u8 (x + y)) a b.
Definition mm_movemask_epi8 (a : list Z) : Z := foldr (fun x m => 2 * m + Z.b2z (Z.testbit x 7)) 0 a.

Definition BLOCKCONV_STRIDE : Z := 16.

(** [c_start], [c_end] and [c_delta] are the arguments of BLOCKCONV_INIT_RANGE and
    BLOCKCONV_INIT_DELTA; [c_ascii] is zend_tolower_ascii or zend_toupper_ascii. The
    functions for the two cases differ in nothing else. *)
Record caseconv : Type := mkConv { c_start : Z; c_end : Z; c_delta : Z; c_ascii : Z -> Z }.

Definition conv_lower : caseconv := mkConv 65 90 (97 - 65) zend_tolower_ascii.
Definition conv_upper : caseconv := mkConv 97 122 (65 - 97) zend_toupper_ascii.

Section Conversion.
Context (cv : caseconv).

Definition blconv_mingle (operand : list Z) : list Z :=
  mm_and_si128 (mm_cmpgt_epi8 operand (mm_set1_epi8 (c_start cv - 1)))
               (mm_cmplt_epi8 operand (mm_set1_epi8 (c_end cv + 1))).

Definition BLOCKCONV_FOUND (operand : list Z) : bool := negb (mm_movemask_epi8 (blconv_mingle operand) =? 0).

Definition blconv_result (operand : list Z) : list Z :=
  mm_add_epi8 operand (mm_and_si128 (blconv_mingle operand) (mm_set1_epi8 (c_delta cv))).

(** [do { ... } while (p + BLOCKCONV_STRIDE <= end);] *)
Fixpoint block_loop (fuel : nat) (M : list Z) (p q end_ : Z) : res (list Z * Z * Z) :=
  match fuel with
  | O => Ub
  | S fuel =>
      operand ← rd_block M p BLOCKCONV_STRIDE;
      M ← wr_block M q (blconv_result operand);
      let p := p + BLOCKCONV_STRIDE in
      let q := q + BLOCKCONV_STRIDE in
      if p + BLOCKCONV_STRIDE <=? end_ then block_loop fuel M p q end_ else Ok (M, p, q)
  end.

(** [while (p < end) *q++ = zend_tolower_ascii( *p++);] *)
Fixpoint byte_loop (fuel : nat) (M : list Z) (p q end_ : Z) : res (list Z) :=
  match fuel with
  | O => Ub
  | S fuel =>
      if p <? end_ then
        c ← rd M p;
        M ← wr M q (c_ascii cv c);
        byte_loop fuel M (p + 1) (q + 1) end_
      else Ok M
  end.

Definition loop_fuel (length : Z) : nat := S (Z.to_nat length).

Definition str_case_impl (M : list Z) (dest str length : Z) : res (list Z) :=
  let end_ := str + length in
  '(M, p, q) ← (if BLOCKCONV_STRIDE <=? length then block_loop (loop_fuel length) M str dest end_
                else Ok (M, str, dest));
  byte_loop (loop_fuel length) M p q end_.

Definition str_case_copy (M : list Z) (dest source length : Z) : res (list Z) :=
  M ← str_case_impl M dest source length; wr M (dest + length) 0.

(** ** Copies that are made only if something changes

    The fresh memory [fresh] comes behind the source string [str] of [length] bytes;
    the result is its contents without the terminating NUL, [None] that nothing is to
    be converted. *)

(** [while (p < end)]: the first byte that changes. *)
Fixpoint find_change (fuel : nat) (M : list Z) (p end_ : Z) : res Z :=
  match fuel with
  | O => Ub
  | S fuel =>
      if p <? end_ then
        c ← rd M p;
        if negb (c =? c_ascii cv c) then Ok p else find_change fuel M (p + 1) end_
      else Ok p
  end.

Definition str_case_dup_ex (fresh str : list Z) : res (option (list Z)) :=
  let length := zlen str in
  let M := str ++ fresh in
  p ← find_change (loop_fuel length) M 0 length;
  if p <? length then
    head ← rd_block M 0 p;
    M ← (if negb (p =? 0) then wr_block M length head else Ok M);
    M ← str_case_impl M (length + p) p (length - p);
    M ← wr M (length + length) 0;
    r ← rd_block M length length;
    Ok (Some r)
  else Ok None.

(** [while (p + BLOCKCONV_STRIDE <= end)]: the first block with a byte that changes,
    or the position of the rest that is shorter than a block. *)
Fixpoint find_block (fuel : nat) (M : list Z) (p end_ : Z) : res (Z * bool) :=
  match fuel with
  | O => Ub
  | S fuel =>
      if p + BLOCKCONV_STRIDE <=? end_ then
        operand ← rd_block M p BLOCKCONV_STRIDE;
        if BLOCKCONV_FOUND operand then Ok (p, true)
        else find_block fuel M (p + BLOCKCONV_STRIDE) end_
      else Ok (p, false)
  end.

Definition string_case_ex (fresh str : list Z) : res (option (list Z)) :=
  let length := zlen str in
  let M := str ++ fresh in
  '(p, found) ← find_block (loop_fuel length) M 0 length;
  if (found : bool) then
    head ← rd_block M 0 p;
    M ← wr_block M length head;
    operand ← rd_block M p BLOCKCONV_STRIDE;
    M ← wr_block M (length + p) (blconv_result operand);
    let p := p + BLOCKCONV_STRIDE in
    M ← str_case_impl M (length + p) p (length - p);
    M ← wr M (length + length) 0;
    r ← rd_block M length length;
    Ok (Some r)
  else
    p ← find_change (loop_fuel length) M p length;
    if p <? length then
      head ← rd_block M 0 p;
      M ← wr_block M length head;
      M ← byte_loop (loop_fuel length) M p (length + p) length;
      M ← wr M (length + length) 0;
      r ← rd_block M length length;
      Ok (Some r)
    else Ok None.
End Conversion.

Definition zend_str_tolower_impl := str_case_impl conv_lower.
Definition zend_str_toupper_impl := str_case_impl conv_upper.
Definition zend_str_tolower_copy := str_case_copy conv_lower.
Definition zend_str_toupper_copy := str_case_copy conv_upper.
Definition zend_str_tolower_dup_ex := str_case_dup_ex conv_lower.
Definition zend_str_toupper_dup_ex := str_case_dup_ex conv_upper.
Definition zend_string_tolower_ex := string_case_ex conv_lower.
Definition zend_string_toupper_ex := string_case_ex conv_upper.

(** In place. *)
Definition zend_str_tolower (M : list Z) (str length : Z) : res (list Z) := zend_str_tolower_impl M str str length.
Definition zend_str_toupper (M : list Z) (str length : Z) : res (list Z) := zend_str_toupper_impl M str str length.

(** [fresh] is what emalloc returns: [length + 1] bytes. *)
Definition zend_str_tolower_dup (fresh str : list Z) : res (list Z) :=
  M ← zend_str_tolower_copy (str ++ fresh) (zlen str) 0 (zlen str); Ok (slice M (zlen str) (zlen str)).
Definition zend_str_toupper_dup (fresh str : list Z) : res (list Z) :=
  M ← zend_str_toupper_copy (str ++ fresh) (zlen str) 0 (zlen str); Ok (slice M (zlen str) (zlen str)).

(** ** Comparison *)

Definition ZEND_THREEWAY_COMPARE (a b : Z) : Z := if a =? b then 0 else if a <? b then -1 else 1.

(** [s1] and [s2] are pointers into the memory [M]. *)
Definition zend_binary_strcmp (M : list Z) (s1 len1 s2 len2 : Z) : res Z :=
  if s1 =? s2 then Ok 0
  else
    retval ← memcmp M s1 M s2 (Z.min len1 len2);
    Ok (if retval =? 0 then ZEND_THREEWAY_COMPARE len1 len2 else retval).

Definition zend_binary_strncmp (M : list Z) (s1 len1 s2 len2 length : Z) : res Z :=
  if s1 =? s2 then Ok 0
  else
    retval ← memcmp M s1 M s2 (Z.min length (Z.min len1 len2));
    Ok (if retval =? 0 then ZEND_THREEWAY_COMPARE (Z.min length len1) (Z.min length len2) else retval).

(** [while (len--)]: [None] if the bytes agree up to [lower]. *)
Fixpoint casecmp_loop (lower : Z -> Z) (len : nat) (M : list Z) (s1 s2 : Z) : res (option Z) :=
  match len with
  | O => Ok None
  | S len =>
      x ← rd M s1;
      y ← rd M s2;
      let c1 := lower x in
      let c2 := lower y in
      if negb (c1 =? c2) then Ok (Some (c1 - c2)) else casecmp_loop lower len M (s1 + 1) (s2 + 1)
  end.

Definition binary_strcasecmp (lower : Z -> Z) (M : list Z) (s1 len1 s2 len2 : Z) : res Z :=
  if s1 =? s2 then Ok 0
  else
    r ← casecmp_loop lower (Z.to_nat (Z.min len1 len2)) M s1 s2;
    Ok (match r with Some d => d | None => ZEND_THREEWAY_COMPARE len1 len2 end).

Definition binary_strncasecmp (lower : Z -> Z) (M : list Z) (s1 len1 s2 len2 length : Z) : res Z :=
  if s1 =? s2 then Ok 0
  else
    r ← casecmp_loop lower (Z.to_nat (Z.min length (Z.min len1 len2))) M s1 s2;
    Ok (match r with
        | Some d => d
        | None => ZEND_THREEWAY_COMPARE (Z.min length len1) (Z.min length len2)
        end).

Definition zend_binary_strcasecmp := binary_strcasecmp zend_tolower_ascii.
Definition zend_binary_strncasecmp := binary_strncasecmp zend_tolower_ascii.

(** [tolower] is the function of the C library in the current locale. *)
Definition zend_binary_strcasecmp_l (tolower : Z -> Z) := binary_strcasecmp tolower.
Definition zend_binary_strncasecmp_l (tolower : Z -> Z) := binary_strncasecmp tolower.
