(* ===== verification/StrCase.v ===== *)
(** * Correctness of the case conversions and of the comparisons

    Whatever path is taken, block-wise or byte-wise, in place or into a copy, the
    result is the string mapped through the table; the comparisons are consistent
    orders of the strings. *)

From S2P Require Import Prelude.
From S2P Require Import StrMem.
From S2P Require Import StrCaseOps.

(** ** The tables and the vector lanes, by exhaustion *)

Definition all_bytes : list Z := seqZ 0 256.

Lemma all_bytes_forall (P : Z -> bool) : forallb P all_bytes = true -> forall c, is_byte c -> P c = true.
Proof.
  unfold is_byte. intros H c Hc. rewrite forallb_forall in H. apply H.
  apply list_elem_of_In, elem_of_seqZ. lia.
Qed.

Definition is_upper (c : Z) : bool := (65 <=? c) && (c <=? 90).
Definition is_lower (c : Z) : bool := (97 <=? c) && (c <=? 122).

Lemma zend_tolower_ascii_spec c : is_byte c -> zend_tolower_ascii c = if is_upper c then c + 32 else c.
Proof.
  intros Hc. apply Z.eqb_eq. revert c Hc. apply all_bytes_forall. vm_compute. reflexivity.
Qed.

Lemma zend_toupper_ascii_spec c : is_byte c -> zend_toupper_ascii c = if is_lower c then c - 32 else c.
Proof.
  intros Hc. apply Z.eqb_eq. revert c Hc. apply all_bytes_forall. vm_compute. reflexivity.
Qed.

Lemma zend_tolower_ascii_byte c : is_byte c -> is_byte (zend_tolower_ascii c).
Proof.
  intros Hc. rewrite zend_tolower_ascii_spec by done. unfold is_byte, is_upper in *.
  destruct (Z.leb_spec 65 c), (Z.leb_spec c 90); cbn; lia.
Qed.

(** One lane of the block conversion. *)
Definition lane_mingle (cv : caseconv) (c : Z) : Z :=
  Z.land (if sint 8 (u8 (c_start cv - 1)) <? sint 8 c then 0xff else 0)
         (if sint 8 c <? sint 8 (u8 (c_end cv + 1)) then 0xff else 0).
Definition lane_result (cv : caseconv) (c : Z) : Z := u8 (c + Z.land (lane_mingle cv c) (u8 (c_delta cv))).

(** What the loops need of the two conversions. *)
Class ConvLaws (cv : caseconv) : Prop := {
  conv_lane : forall c, is_byte c -> lane_result cv c = c_ascii cv c;
  conv_found : forall c, is_byte c -> Z.testbit (lane_mingle cv c) 7 = negb (c =? c_ascii cv c);
}.

#[export] Instance conv_lower_laws : ConvLaws conv_lower.
Proof.
  split; intros c Hc; [apply Z.eqb_eq|apply eqb_prop]; revert c Hc; apply all_bytes_forall; vm_compute; reflexivity.
Qed.
#[export] Instance conv_upper_laws : ConvLaws conv_upper.
Proof.
  split; intros c Hc; [apply Z.eqb_eq|apply eqb_prop]; revert c Hc; apply all_bytes_forall; vm_compute; reflexivity.
Qed.

Lemma zip_with_replicate {A B C} (f : A -> B -> C) (l : list A) b n : length l = n ->
  zip_with f l (replicate n b) = map (fun x => f x b) l.
Proof. revert n. induction l as [|x l IH]; intros [|n] H; cbn in *; try done. by rewrite IH by lia. Qed.

Lemma zip_with_replicate_l {A B C} (f : A -> B -> C) (l : list B) a n : length l = n ->
  zip_with f (replicate n a) l = map (f a) l.
Proof. revert n. induction l as [|x l IH]; intros [|n] H; cbn in *; try done. by rewrite IH by lia. Qed.

Lemma zip_with_map_same {A B C D} (f : B -> C -> D) (g : A -> B) (h : A -> C) l :
  zip_with f (map g l) (map h l) = map (fun x => f (g x) (h x)) l.
Proof. induction l as [|x l IH]; cbn; [done|]. by rewrite IH. Qed.

Section Lanes.
Context (cv : caseconv).

Lemma blconv_mingle_map l : length l = 16%nat -> blconv_mingle cv l = map (lane_mingle cv) l.
Proof.
  intros Hl. unfold blconv_mingle, mm_cmplt_epi8, mm_cmpgt_epi8, mm_set1_epi8, mm_and_si128.
  rewrite zip_with_replicate, zip_with_replicate_l by done. by rewrite zip_with_map_same.
Qed.

Lemma blconv_result_map l : length l = 16%nat -> blconv_result cv l = map (lane_result cv) l.
Proof.
  intros Hl. unfold blconv_result, mm_add_epi8, mm_and_si128, mm_set1_epi8. rewrite blconv_mingle_map by done.
  rewrite zip_with_replicate by (by rewrite length_map). rewrite map_map.
  rewrite <- (map_id l) at 1. by rewrite zip_with_map_same.
Qed.

Lemma movemask_zero l : mm_movemask_epi8 l = 0 <-> Forall (fun x => Z.testbit x 7 = false) l.
Proof.
  assert (forall l, 0 <= mm_movemask_epi8 l) as Hpos.
  { clear l. induction l as [|x l IH]; [done|]. change (0 <= 2 * mm_movemask_epi8 l + Z.b2z (Z.testbit x 7)).
    destruct (Z.testbit x 7); cbn [Z.b2z]; lia. }
  induction l as [|x l IH]; [by split|].
  change (mm_movemask_epi8 (x :: l)) with (2 * mm_movemask_epi8 l + Z.b2z (Z.testbit x 7)).
  rewrite Forall_cons, <- IH. specialize (Hpos l). destruct (Z.testbit x 7); cbn [Z.b2z].
  - split; [lia|by intros []].
  - split; [split; [done|lia]|intros []; lia].
Qed.
End Lanes.

(** ** The loops *)

Section Loops.
Context (cv : caseconv) {L : ConvLaws cv}.
Implicit Types (M : list Z) (p q n : Z).

Lemma blconv_result_ok l : length l = 16%nat -> Forall is_byte l -> blconv_result cv l = map (c_ascii cv) l.
Proof.
  intros Hl Hb. rewrite blconv_result_map by done. apply map_ext_in. intros c Hc. apply conv_lane.
  rewrite Forall_forall in Hb. apply Hb. by apply list_elem_of_In.
Qed.

Lemma found_ok l : length l = 16%nat -> Forall is_byte l ->
  BLOCKCONV_FOUND cv l = negb (bool_decide (map (c_ascii cv) l = l)).
Proof.
  intros Hl Hb. unfold BLOCKCONV_FOUND. f_equal. apply eq_bool_prop_intro. rewrite Is_true_true, Z.eqb_eq, bool_decide_spec.
  rewrite blconv_mingle_map by done. rewrite movemask_zero. clear Hl.
  induction Hb as [|c l Hc Hb IH]; cbn [map]; [by split|]. rewrite Forall_cons, IH, conv_found by done.
  destruct (Z.eqb_spec c (c_ascii cv c)) as [He|He]; cbn.
  - split; [intros [_ H]; by rewrite H, <- He|intros [= H1 H2]; done].
  - split; [by intros []|intros [= H1 H2]; congruence].
Qed.

(** Where source and destination may lie. *)
Definition apart p q n : Prop := q = p \/ q + n <= p \/ p + n <= q.

Lemma byte_loop_ok fuel M p q end_ : let n := end_ - p in
  0 <= n < Z.of_nat fuel -> 0 <= p -> 0 <= q -> p + n <= zlen M -> q + n <= zlen M -> apart p q n ->
  byte_loop cv fuel M p q end_ = Ok (store M q (map (c_ascii cv) (slice M p n))).
Proof.
  cbn zeta. revert M p q. induction fuel as [|fuel IH]; intros M p q Hn Hp Hq H1 H2 Ha; [lia|]. cbn [byte_loop].
  destruct (Z.ltb_spec p end_).
  - destruct (zget_is_Some M p) as [c Hc]; [lia|]. rewrite (rd_ok _ _ _ Hc). cbn [mbind res_bind].
    rewrite wr_store by lia. cbn [mbind res_bind].
    assert (Hz : zlen (store M q [c_ascii cv c]) = zlen M) by (apply length_store; rewrite ?zlen_one; lia).
    rewrite IH; rewrite ?Hz; try lia; [|unfold apart in *; lia].
    rewrite (slice_cons M p (end_ - p) c) by (done || lia). cbn [map].
    f_equal. replace (q + 1) with (q + zlen [c_ascii cv c]) by done.
    rewrite slice_store_disjoint by (change (zlen [c_ascii cv c]) with 1; unfold apart in *; lia).
    rewrite store_store; [|lia|].
    2:{ rewrite zlen_map, zlen_slice by lia. change (zlen [c_ascii cv c]) with 1. lia. }
    cbn. do 4 f_equal. lia.
  - replace (end_ - p) with 0 by lia. rewrite slice_nil. cbn [map]. by rewrite store_nil.
Qed.

Lemma block_loop_ok fuel M p q end_ : let n := 16 * ((end_ - p) / 16) in
  16 <= end_ - p < 16 * Z.of_nat fuel -> 0 <= p -> 0 <= q -> end_ <= zlen M -> q + (end_ - p) <= zlen M ->
  apart p q (end_ - p) -> Forall is_byte (slice M p (end_ - p)) ->
  block_loop cv fuel M p q end_ = Ok (store M q (map (c_ascii cv) (slice M p n)), p + n, q + n).
Proof.
  cbn zeta. revert M p q. induction fuel as [|fuel IH]; intros M p q Hn Hp Hq H1 H2 Ha Hb; [lia|]. cbn [block_loop].
  unfold BLOCKCONV_STRIDE. rewrite rd_block_ok by lia. cbn [mbind res_bind].
  assert (Hl : zlen (slice M p 16) = 16) by (apply zlen_slice; lia).
  replace (end_ - p) with (16 + (end_ - (p + 16))) in Hb by lia. rewrite slice_app in Hb by lia. apply Forall_app in Hb as [Hb1 Hb2].
  rewrite blconv_result_ok by (done || (unfold zlen in Hl; lia)).
  set (l := map (c_ascii cv) (slice M p 16)). assert (Hll : zlen l = 16) by (unfold l; by rewrite zlen_map).
  rewrite wr_block_ok by lia. cbn [mbind res_bind].
  assert (Hz : zlen (store M q l) = zlen M) by (apply length_store; lia).
  assert (Hd : forall m, 0 <= m -> p + 16 + m <= end_ -> slice (store M q l) (p + 16) m = slice M (p + 16) m).
  { intros m Hm Hm2. apply slice_store_disjoint; unfold apart in *; lia. }
  destruct (Z.leb_spec (p + 16 + 16) end_).
  - rewrite IH; rewrite ?Hz; try lia; [|unfold apart in *; lia|by rewrite Hd by lia].
    assert (Hdiv : 16 * ((end_ - p) / 16) = 16 + 16 * ((end_ - (p + 16)) / 16)).
    { replace (end_ - p) with (end_ - (p + 16) + 1 * 16) by lia. rewrite Z.div_add by lia. lia. }
    pose proof (Z.mul_div_le (end_ - (p + 16)) 16 ltac:(lia)).
    assert (0 <= (end_ - (p + 16)) / 16) by (apply Z.div_pos; lia).
    rewrite Hd by lia. rewrite Hdiv, slice_app, map_app by lia. fold l.
    rewrite store_store_at; [|lia|lia|].
    2:{ rewrite ?zlen_app, zlen_map, !zlen_slice; lia. }
    f_equal. f_equal; [f_equal|]; lia.
  - assert (Hdiv : 16 * ((end_ - p) / 16) = 16).
    { replace ((end_ - p) / 16) with 1; [done|]. apply Z.div_unique with (end_ - p - 16); lia. }
    by rewrite Hdiv.
Qed.

Lemma str_case_impl_ok M dest str n : 0 <= n -> 0 <= str -> 0 <= dest -> str + n <= zlen M -> dest + n <= zlen M ->
  apart str dest n -> Forall is_byte (slice M str n) ->
  str_case_impl cv M dest str n = Ok (store M dest (map (c_ascii cv) (slice M str n))).
Proof.
  intros Hn Hs Hd H1 H2 Ha Hb. unfold str_case_impl, BLOCKCONV_STRIDE, loop_fuel. cbn zeta.
  assert (E : str + n - str = n) by lia.
  destruct (Z.leb_spec 16 n).
  - rewrite block_loop_ok; rewrite ?E; try done; try lia. cbn [mbind res_bind].
    pose proof (Z.mul_div_le n 16 ltac:(lia)). assert (0 <= n / 16) by (apply Z.div_pos; lia).
    set (m := 16 * (n / 16)) in *. set (l := map (c_ascii cv) (slice M str m)).
    assert (Hl : zlen l = m) by (unfold l; rewrite zlen_map, zlen_slice; lia).
    assert (Hz : zlen (store M dest l) = zlen M) by (apply length_store; lia).
    rewrite byte_loop_ok; rewrite ?Hz; try lia; [|unfold apart in *; lia].
    rewrite slice_store_disjoint by (unfold apart in *; lia).
    rewrite store_store_at; [|lia|lia|].
    2:{ rewrite zlen_map, zlen_slice; lia. }
    unfold l. rewrite <- map_app. replace (str + n - (str + m)) with (n - m) by lia.
    rewrite <- slice_app by lia. do 4 f_equal. lia.
  - cbn [mbind res_bind]. rewrite byte_loop_ok; rewrite ?E; done || lia.
Qed.

(** ** Looking for something to convert *)

Lemma find_change_ok fuel M p end_ : 0 <= end_ - p < Z.of_nat fuel -> 0 <= p -> end_ <= zlen M ->
  exists r, find_change cv fuel M p end_ = Ok r /\ p <= r <= end_ /\
    map (c_ascii cv) (slice M p (r - p)) = slice M p (r - p) /\
    (r < end_ -> exists c, zget M r = Some c /\ c_ascii cv c <> c).
Proof.
  revert p. induction fuel as [|fuel IH]; intros p Hf Hp H; [lia|]. cbn [find_change].
  destruct (Z.ltb_spec p end_).
  2:{ exists p. split; [done|]. split; [lia|]. rewrite Z.sub_diag, slice_nil. split; [done|lia]. }
  destruct (zget_is_Some M p) as [c Hc]; [lia|]. rewrite (rd_ok _ _ _ Hc). cbn [mbind res_bind].
  destruct (Z.eqb_spec c (c_ascii cv c)) as [He|He]; cbn [negb].
  - destruct (IH (p + 1)) as (r & Hr & Hb & Hm & Hx); [lia..|]. exists r. split; [done|]. split; [lia|]. split; [|done].
    rewrite (slice_cons M p (r - p) c) by (done || lia). cbn [map]. replace (r - p - 1) with (r - (p + 1)) by lia.
    by rewrite Hm, <- He.
  - exists p. split; [done|]. split; [lia|]. rewrite Z.sub_diag, slice_nil. split; [done|]. intros _. by exists c.
Qed.

Lemma find_block_ok fuel M p end_ : 0 <= end_ - p < Z.of_nat fuel -> 0 <= p -> end_ <= zlen M ->
  Forall is_byte (slice M p (end_ - p)) ->
  exists r b, find_block cv fuel M p end_ = Ok (r, b) /\ p <= r <= end_ /\
    map (c_ascii cv) (slice M p (r - p)) = slice M p (r - p) /\
    (b = true -> r + 16 <= end_ /\ map (c_ascii cv) (slice M r 16) <> slice M r 16).
Proof.
  revert p. induction fuel as [|fuel IH]; intros p Hf Hp H Hb; [lia|]. cbn [find_block]. unfold BLOCKCONV_STRIDE.
  destruct (Z.leb_spec (p + 16) end_).
  2:{ exists p, false. split; [done|]. split; [lia|]. by rewrite Z.sub_diag. }
  rewrite rd_block_ok by lia. cbn [mbind res_bind].
  replace (end_ - p) with (16 + (end_ - (p + 16))) in Hb by lia. rewrite slice_app in Hb by lia. apply Forall_app in Hb as [Hb1 Hb2].
  assert (Hl : zlen (slice M p 16) = 16) by (apply zlen_slice; lia).
  rewrite found_ok by (done || (unfold zlen in Hl; lia)). case_bool_decide as Hd; cbn [negb].
  - destruct (IH (p + 16)) as (r & b & Hr & Hrb & Hm & Hx); [lia..|done|]. exists r, b. split; [done|]. split; [lia|]. split; [|done].
    replace (r - p) with (16 + (r - (p + 16))) by lia. rewrite slice_app, map_app by lia. by rewrite Hd, Hm.
  - exists p, true. split; [done|]. split; [lia|]. rewrite Z.sub_diag. split; [done|]. intros _. split; [lia|done].
Qed.

(** ** Copies *)

Definition changed (s : list Z) : option (list Z) :=
  let r := map (c_ascii cv) s in if bool_decide (r = s) then None else Some r.

Lemma changed_at s k c : zget s k = Some c -> c_ascii cv c <> c -> changed s = Some (map (c_ascii cv) s).
Proof.
  intros Hk Hc. unfold changed. case_bool_decide as He; [|done]. exfalso. apply Hc.
  unfold zget in Hk. destruct (0 <=? k); [|done].
  assert (Hm : map (c_ascii cv) s !! Z.to_nat k = Some (c_ascii cv c)) by (rewrite list_lookup_fmap, Hk; done).
  rewrite He, Hk in Hm. by injection Hm.
Qed.

(** Terminating the copy and reading it back. *)
Lemma finish_copy M n l : 0 <= n -> zlen l = n -> zlen M = n + (n + 1) ->
  (M ← wr (store M n l) (n + n) 0; r ← rd_block M n n; Ok (Some r)) = Ok (Some l).
Proof.
  intros Hn Hl HM. assert (Hz : zlen (store M n l) = n + (n + 1)) by (rewrite length_store; lia).
  rewrite wr_store by lia. cbn [mbind res_bind].
  rewrite rd_block_ok by (rewrite ?length_store; rewrite ?zlen_one; lia). cbn [mbind res_bind].
  rewrite slice_store_disjoint by (rewrite ?zlen_one; lia). do 2 f_equal. subst n. apply slice_store_same; lia.
Qed.

Lemma slice_source (s fresh : list Z) p n : 0 <= p -> 0 <= n -> p + n <= zlen s -> slice (s ++ fresh) p n = slice s p n.
Proof.
  intros. pose proof (zlen_nonneg fresh). apply slice_ext; rewrite ?zlen_app; try lia. intros k Hk. by rewrite zget_app_l by lia.
Qed.

(** The bytes before [p] do not change: copying them and converting the rest is
    converting everything. *)
Lemma head_and_rest s p : 0 <= p <= zlen s -> map (c_ascii cv) (slice s 0 p) = slice s 0 p ->
  slice s 0 p ++ map (c_ascii cv) (slice s p (zlen s - p)) = map (c_ascii cv) s.
Proof.
  intros Hp Hm. rewrite <- Hm, <- map_app. f_equal. rewrite <- (Z.add_0_l p) at 2. rewrite <- slice_app by lia.
  replace (p + (zlen s - p)) with (zlen s) by lia. apply slice_all.
Qed.

Lemma slice_bytes s p n : Forall is_byte s -> Forall is_byte (slice s p n).
Proof. intros. by apply Forall_take, Forall_drop. Qed.

Lemma copy_and_convert s fresh p : 0 <= p <= zlen s -> Forall is_byte s -> zlen fresh = zlen s + 1 ->
  map (c_ascii cv) (slice s 0 p) = slice s 0 p ->
  let M := store (s ++ fresh) (zlen s) (slice s 0 p) in
  str_case_impl cv M (zlen s + p) p (zlen s - p) = Ok (store (s ++ fresh) (zlen s) (map (c_ascii cv) s)).
Proof.
  intros Hp Hb Hf Hm M. assert (Hl : zlen (slice s 0 p) = p) by (apply zlen_slice; lia).
  assert (Hz : zlen M = zlen s + (zlen s + 1)) by (unfold M; rewrite length_store; rewrite ?zlen_app; lia).
  assert (Hd : slice M p (zlen s - p) = slice s p (zlen s - p)).
  { unfold M. rewrite slice_store_disjoint by (rewrite ?zlen_app; lia). apply slice_source; lia. }
  rewrite str_case_impl_ok; rewrite ?Hd; try lia; [|unfold apart; lia|by apply slice_bytes].
  unfold M. rewrite store_store_at; [|lia|lia|].
  2:{ rewrite ?zlen_app, zlen_map, !zlen_slice; lia. }
  by rewrite head_and_rest.
Qed.

Lemma str_case_dup_ex_ok fresh s : Forall is_byte s -> zlen fresh = zlen s + 1 ->
  str_case_dup_ex cv fresh s = Ok (changed s).
Proof.
  intros Hb Hf. pose proof (zlen_nonneg s). unfold str_case_dup_ex, loop_fuel. cbn zeta.
  destruct (find_change_ok (S (Z.to_nat (zlen s))) (s ++ fresh) 0 (zlen s)) as (p & -> & Hp & Hm & Hx);
    rewrite ?zlen_app; try lia. cbn [mbind res_bind].
  rewrite Z.sub_0_r, slice_source in Hm by lia.
  destruct (Z.ltb_spec p (zlen s)).
  - destruct Hx as (c & Hc & Hne); [lia|]. rewrite zget_app_l in Hc by lia. rewrite (changed_at s p c) by done.
    rewrite rd_block_ok, slice_source by (rewrite ?zlen_app; lia). cbn [mbind res_bind].
    assert (Hl : zlen (slice s 0 p) = p) by (apply zlen_slice; lia).
    replace (if negb (p =? 0) then _ else _) with (Ok (store (s ++ fresh) (zlen s) (slice s 0 p)) : res (list Z)).
    2:{ destruct (Z.eqb_spec p 0) as [->|]; cbn [negb].
        - by rewrite slice_nil, store_nil.
        - by rewrite wr_block_ok by (rewrite ?zlen_app; lia). }
    cbn [mbind res_bind]. rewrite copy_and_convert by (done || lia). cbn [mbind res_bind].
    apply finish_copy; rewrite ?zlen_map, ?zlen_app; lia.
  - replace p with (zlen s) in Hm by lia. rewrite slice_all in Hm. unfold changed. by rewrite bool_decide_true.
Qed.

Lemma zlen_copied (s fresh l : list Z) : zlen fresh = zlen s + 1 -> zlen l <= zlen s ->
  zlen (store (s ++ fresh) (zlen s) l) = zlen s + (zlen s + 1).
Proof. intros. pose proof (zlen_nonneg s). rewrite length_store; rewrite ?zlen_app; lia. Qed.

(** Copying the head and converting the block that was compared. *)
Lemma string_block_ok (fresh s : list Z) p : Forall is_byte s -> zlen fresh = zlen s + 1 -> 0 <= p -> p + 16 <= zlen s ->
  map (c_ascii cv) (slice s 0 p) = slice s 0 p ->
  (M ← wr_block (s ++ fresh) (zlen s) (slice s 0 p);
   operand ← rd_block M p 16;
   wr_block M (zlen s + p) (blconv_result cv operand))
  = Ok (store (s ++ fresh) (zlen s) (map (c_ascii cv) (slice s 0 (p + 16)))).
Proof.
  intros Hb Hf Hp Hp2 Hm.
  assert (Hl : zlen (slice s 0 p) = p) by (apply zlen_slice; lia).
  assert (Hl2 : zlen (slice s p 16) = 16) by (apply zlen_slice; lia).
  assert (Hz : zlen (store (s ++ fresh) (zlen s) (slice s 0 p)) = zlen s + (zlen s + 1)) by (apply zlen_copied; lia).
  rewrite wr_block_ok by (rewrite ?zlen_app; lia). cbn [mbind res_bind].
  rewrite rd_block_ok by lia. cbn [mbind res_bind].
  rewrite slice_store_disjoint, slice_source by (rewrite ?zlen_app; lia).
  rewrite blconv_result_ok; [|unfold zlen in Hl2; lia|by apply slice_bytes].
  rewrite wr_block_ok by (rewrite ?zlen_map; lia).
  rewrite store_store_at by (rewrite ?zlen_map, ?zlen_app; lia).
  by rewrite (slice_app s 0 p 16), map_app, Hm by lia.
Qed.

Lemma changed_in (s : list Z) p n : 0 <= p -> 0 <= n -> p + n <= zlen s ->
  map (c_ascii cv) (slice s p n) <> slice s p n -> changed s = Some (map (c_ascii cv) s).
Proof.
  intros Hp Hn Hl Hne. unfold changed. case_bool_decide as He; [|done]. exfalso. apply Hne.
  rewrite <- (slice_all s) in He. replace (zlen s) with (p + (n + (zlen s - (p + n)))) in He by lia.
  rewrite !slice_app, !map_app in He by lia.
  apply app_inj_1 in He as [_ He]; [|by rewrite length_map]. by apply app_inj_1 in He as [He _]; [|by rewrite length_map].
Qed.

Lemma string_case_ex_ok fresh s : Forall is_byte s -> zlen fresh = zlen s + 1 ->
  string_case_ex cv fresh s = Ok (changed s).
Proof.
  intros Hb Hf. pose proof (zlen_nonneg s). unfold string_case_ex, loop_fuel. cbn zeta.
  destruct (find_block_ok (S (Z.to_nat (zlen s))) (s ++ fresh) 0 (zlen s)) as (p & b & -> & Hp & Hm & Hx);
    rewrite ?zlen_app; try lia.
  { rewrite Z.sub_0_r, slice_source by lia. by apply slice_bytes. }
  cbn [mbind res_bind]. rewrite Z.sub_0_r, slice_source in Hm by lia. destruct b.
  - destruct Hx as [Hx Hne]; [done|]. rewrite slice_source in Hne by lia. rewrite (changed_in s p 16) by (done || lia).
    unfold BLOCKCONV_STRIDE. rewrite rd_block_ok, slice_source by (rewrite ?zlen_app; lia). cbn [mbind res_bind].
    pose proof (string_block_ok fresh s p Hb Hf (proj1 Hp) Hx Hm) as Hblk.
    destruct (wr_block _ _ _) as [M| |]; cbn [mbind res_bind] in Hblk |- *; try done.
    destruct (rd_block _ _ _); cbn [mbind res_bind] in Hblk |- *; try done. rewrite Hblk. cbn [mbind res_bind].
    set (l := map (c_ascii cv) (slice s 0 (p + 16))).
    assert (Hll : zlen l = p + 16) by (unfold l; rewrite zlen_map, zlen_slice; lia).
    assert (Hz2 : zlen (store (s ++ fresh) (zlen s) l) = zlen s + (zlen s + 1)) by (apply zlen_copied; lia).
    assert (Hd : slice (store (s ++ fresh) (zlen s) l) (p + 16) (zlen s - (p + 16)) = slice s (p + 16) (zlen s - (p + 16))).
    { rewrite slice_store_disjoint by (rewrite ?zlen_app; lia). apply slice_source; lia. }
    rewrite str_case_impl_ok; rewrite ?Hd; try lia; [|unfold apart; lia|by apply slice_bytes]. cbn [mbind res_bind].
    rewrite store_store_at; [|lia|lia|].
    2:{ rewrite ?zlen_app, zlen_map, !zlen_slice; lia. }
    unfold l. rewrite <- map_app. rewrite <- (Z.add_0_l (p + 16)) at 2. rewrite <- slice_app by lia.
    replace (p + 16 + (zlen s - (p + 16))) with (zlen s) by lia. rewrite slice_all.
    apply finish_copy; rewrite ?zlen_map, ?zlen_app; lia.
  - clear Hx.
    destruct (find_change_ok (S (Z.to_nat (zlen s))) (s ++ fresh) p (zlen s)) as (r & -> & Hr & Hm2 & Hx);
      rewrite ?zlen_app; try lia. cbn [mbind res_bind]. rewrite slice_source in Hm2 by lia.
    assert (Hh : map (c_ascii cv) (slice s 0 r) = slice s 0 r).
    { replace r with (p + (r - p)) by lia. by rewrite slice_app, Z.add_0_l, map_app, Hm, Hm2 by lia. }
    destruct (Z.ltb_spec r (zlen s)).
    + destruct Hx as (c & Hc & Hne); [lia|]. rewrite zget_app_l in Hc by lia. rewrite (changed_at s r c) by done.
      rewrite rd_block_ok, slice_source by (rewrite ?zlen_app; lia). cbn [mbind res_bind].
      assert (Hl : zlen (slice s 0 r) = r) by (apply zlen_slice; lia).
      rewrite wr_block_ok by (rewrite ?zlen_app; lia). cbn [mbind res_bind].
      assert (Hz := zlen_copied s fresh (slice s 0 r) Hf ltac:(lia)).
      rewrite byte_loop_ok; try lia; [|unfold apart; lia]. cbn [mbind res_bind].
      rewrite slice_store_disjoint, slice_source by (rewrite ?zlen_app; lia).
      rewrite store_store_at; [|lia|lia|].
      2:{ rewrite ?zlen_app, zlen_map, !zlen_slice; lia. }
      rewrite head_and_rest by (done || lia). apply finish_copy; rewrite ?zlen_map, ?zlen_app; lia.
    + replace r with (zlen s) in Hh by lia. rewrite slice_all in Hh. unfold changed. by rewrite bool_decide_true.
Qed.

Lemma str_case_in_place pre s post : Forall is_byte s ->
  str_case_impl cv (pre ++ s ++ post) (zlen pre) (zlen pre) (zlen s) = Ok (pre ++ map (c_ascii cv) s ++ post).
Proof.
  intros Hb. pose proof (zlen_nonneg pre). pose proof (zlen_nonneg s). pose proof (zlen_nonneg post).
  rewrite str_case_impl_ok; rewrite ?zlen_app, ?slice_mid; try done; try lia; [|by left].
  f_equal. apply store_at. by rewrite zlen_map.
Qed.
End Loops.

(** ** Comparison *)

(** Lexicographic order of byte strings, a proper prefix coming first. *)
Fixpoint lex_compare (a b : list Z) : Z :=
  match a, b with
  | [], [] => 0
  | [], _ :: _ => -1
  | _ :: _, [] => 1
  | x :: a, y :: b => if x =? y then lex_compare a b else x - y
  end.

Lemma lex_compare_zero a b : lex_compare a b = 0 <-> a = b.
Proof.
  revert b. induction a as [|x a IH]; intros [|y b]; cbn; try done.
  destruct (Z.eqb_spec x y) as [->|Hne].
  - rewrite IH. split; [by intros ->|by intros [= ->]].
  - split; [lia|by intros [= -> ->]].
Qed.

Lemma lex_compare_comparison : comparison lex_compare.
Proof.
  split.
  - intros a. induction a as [|x a IH]; intros [|y b]; cbn; try done.
    destruct (Z.eqb_spec x y) as [->|Hne]; [by rewrite Z.eqb_refl|]. rewrite (proj2 (Z.eqb_neq y x)) by lia. lia.
  - intros a. induction a as [|x a IH]; intros [|y b] [|z c]; cbn; try lia.
    intros H1 H2. destruct (Z.eqb_spec x y), (Z.eqb_spec y z), (Z.eqb_spec x z); subst; try lia; eauto.
Qed.

Lemma lex_compare_shorter (a b : list Z) n : n = Nat.min (length a) (length b) ->
  lex_compare a b = let d := cmp_bytes (take n a) (take n b) in
                    if d =? 0 then ZEND_THREEWAY_COMPARE (zlen a) (zlen b) else d.
Proof.
  revert b n. induction a as [|x a IH]; intros [|y b] n ->; try done.
  cbn. destruct (Z.eqb_spec x y) as [->|Hne].
  - rewrite (IH b _ eq_refl). cbn. destruct (_ =? 0); [|done]. unfold ZEND_THREEWAY_COMPARE. rewrite !zlen_cons.
    destruct (Z.eqb_spec (zlen a) (zlen b)), (Z.ltb_spec (zlen a) (zlen b)), (Z.eqb_spec (zlen a + 1) (zlen b + 1)),
      (Z.ltb_spec (zlen a + 1) (zlen b + 1)); done || lia.
  - by rewrite (proj2 (Z.eqb_neq _ 0)) by lia.
Qed.

(** Valid arguments: two strings in memory that have one length if they are one. *)
Definition two_strings (M : list Z) (s1 len1 s2 len2 : Z) : Prop :=
  in_bounds M s1 len1 = true /\ in_bounds M s2 len2 = true /\ (s1 = s2 -> len1 = len2).

Lemma take_slice {A} (M : list A) s n m : 0 <= m <= n -> take (Z.to_nat m) (slice M s n) = slice M s m.
Proof. intros. unfold slice. rewrite take_take. f_equal. lia. Qed.

Lemma zend_binary_strcmp_ok M s1 len1 s2 len2 : two_strings M s1 len1 s2 len2 ->
  zend_binary_strcmp M s1 len1 s2 len2 = Ok (lex_compare (slice M s1 len1) (slice M s2 len2)).
Proof.
  unfold two_strings. rewrite !in_bounds_spec. intros ((?&?&?)&(?&?&?)&Hs). unfold zend_binary_strcmp.
  destruct (Z.eqb_spec s1 s2) as [->|Hne].
  - rewrite (Hs eq_refl). f_equal. symmetry. by apply lex_compare_zero.
  - rewrite memcmp_ok by lia. cbn [mbind res_bind].
    assert (L1 : zlen (slice M s1 len1) = len1) by (apply zlen_slice; lia).
    assert (L2 : zlen (slice M s2 len2) = len2) by (apply zlen_slice; lia).
    rewrite (lex_compare_shorter _ _ (Z.to_nat (Z.min len1 len2))) by (unfold zlen in *; lia).
    rewrite !take_slice by lia. by rewrite L1, L2.
Qed.

Lemma casecmp_loop_ok lower len M s1 s2 : 0 <= s1 -> 0 <= s2 -> s1 + Z.of_nat len <= zlen M -> s2 + Z.of_nat len <= zlen M ->
  let d := cmp_bytes (map lower (slice M s1 (Z.of_nat len))) (map lower (slice M s2 (Z.of_nat len))) in
  casecmp_loop lower len M s1 s2 = Ok (if d =? 0 then None else Some d).
Proof.
  revert s1 s2. induction len as [|len IH]; intros s1 s2 H1 H2 L1 L2; [done|]. cbn [casecmp_loop].
  destruct (zget_is_Some M s1) as [x Hx]; [lia|]. destruct (zget_is_Some M s2) as [y Hy]; [lia|].
  rewrite (rd_ok _ _ _ Hx), (rd_ok _ _ _ Hy). cbn [mbind res_bind].
  rewrite (slice_cons M s1 _ x), (slice_cons M s2 _ y) by (done || lia). cbn [map cmp_bytes].
  destruct (Z.eqb_spec (lower x) (lower y)) as [He|He]; cbn [negb].
  - rewrite IH by lia. by replace (Z.of_nat (S len) - 1) with (Z.of_nat len) by lia.
  - by rewrite (proj2 (Z.eqb_neq _ 0)) by lia.
Qed.

Lemma binary_strcasecmp_ok lower M s1 len1 s2 len2 : two_strings M s1 len1 s2 len2 ->
  binary_strcasecmp lower M s1 len1 s2 len2
  = Ok (lex_compare (map lower (slice M s1 len1)) (map lower (slice M s2 len2))).
Proof.
  unfold two_strings. rewrite !in_bounds_spec. intros ((?&?&?)&(?&?&?)&Hs). unfold binary_strcasecmp.
  destruct (Z.eqb_spec s1 s2) as [->|Hne].
  - rewrite (Hs eq_refl). f_equal. symmetry. by apply lex_compare_zero.
  - rewrite casecmp_loop_ok by lia. cbn [mbind res_bind]. rewrite Z2Nat.id by lia.
    assert (L1 : zlen (slice M s1 len1) = len1) by (apply zlen_slice; lia).
    assert (L2 : zlen (slice M s2 len2) = len2) by (apply zlen_slice; lia).
    rewrite (lex_compare_shorter _ _ (Z.to_nat (Z.min len1 len2))) by (rewrite !length_map; unfold zlen in *; lia).
    rewrite !firstn_map, !take_slice, !zlen_map, L1, L2 by lia. cbn zeta. by destruct (cmp_bytes _ _ =? 0).
Qed.

(** The functions with a limit compare the prefixes of that length. *)
Lemma binary_strncmp_prefix M s1 len1 s2 len2 n : 0 <= n ->
  zend_binary_strncmp M s1 len1 s2 len2 n = zend_binary_strcmp M s1 (Z.min n len1) s2 (Z.min n len2).
Proof.
  intros. unfold zend_binary_strncmp, zend_binary_strcmp.
  by replace (Z.min (Z.min n len1) (Z.min n len2)) with (Z.min n (Z.min len1 len2)) by lia.
Qed.

Lemma binary_strncasecmp_prefix lower M s1 len1 s2 len2 n : 0 <= n ->
  binary_strncasecmp lower M s1 len1 s2 len2 n = binary_strcasecmp lower M s1 (Z.min n len1) s2 (Z.min n len2).
Proof.
  intros. unfold binary_strncasecmp, binary_strcasecmp.
  by replace (Z.min (Z.min n len1) (Z.min n len2)) with (Z.min n (Z.min len1 len2)) by lia.
Qed.

(** ** The contracts *)

(** C27: Converting to lower or upper case maps every byte through the table, which
    changes the ASCII letters and nothing else, whether sixteen bytes at a time or one
    by one, in place or into a copy; the functions that copy only on demand return
    NULL, or the string itself, exactly if no byte changes. *)
Theorem case_conversion_correct str fresh pre post :
  Forall is_byte str -> zlen fresh = zlen str + 1 ->
  let lower := map (fun c => if is_upper c then c + 32 else c) str in
  let upper := map (fun c => if is_lower c then c - 32 else c) str in
  zend_str_tolower (pre ++ str ++ post) (zlen pre) (zlen str) = Ok (pre ++ lower ++ post)
  /\ zend_str_toupper (pre ++ str ++ post) (zlen pre) (zlen str) = Ok (pre ++ upper ++ post)
  /\ zend_string_tolower_ex fresh str = Ok (if bool_decide (lower = str) then None else Some lower)
  /\ zend_string_toupper_ex fresh str = Ok (if bool_decide (upper = str) then None else Some upper)
  /\ zend_str_tolower_dup_ex fresh str = zend_string_tolower_ex fresh str
  /\ zend_str_toupper_dup_ex fresh str = zend_string_toupper_ex fresh str.
Proof.
  intros Hb Hf. cbn zeta.
  assert (forall f g : Z -> Z, (forall c, is_byte c -> f c = g c) -> map g str = map f str) as Hm.
  { intros f g H. apply map_ext_in. intros c Hc%list_elem_of_In. rewrite H; [done|]. rewrite Forall_forall in Hb. auto. }
  rewrite (Hm _ _ zend_tolower_ascii_spec), (Hm _ _ zend_toupper_ascii_spec).
  unfold zend_str_tolower, zend_str_toupper, zend_str_tolower_impl, zend_str_toupper_impl, zend_string_tolower_ex,
    zend_string_toupper_ex, zend_str_tolower_dup_ex, zend_str_toupper_dup_ex.
  rewrite (str_case_in_place conv_lower), (str_case_in_place conv_upper) by exact Hb.
  rewrite !(string_case_ex_ok _ _ _ Hb Hf), !(str_case_dup_ex_ok _ _ _ Hb Hf). repeat split; reflexivity.
Qed.

Lemma case_conversion_correct_witness :
  let hello := [72; 101; 108; 108; 111; 44; 32; 65; 66; 67; 68; 69; 32; 91; 64; 90; 255; 88] in
  zend_string_tolower_ex (replicate 19 7) hello
  = Ok (Some [104; 101; 108; 108; 111; 44; 32; 97; 98; 99; 100; 101; 32; 91; 64; 122; 255; 120]).
Proof.
  intros hello. destruct (case_conversion_correct hello (replicate 19 7) [] []) as (_ & _ & H & _).
  - byte_literal.
  - reflexivity.
  - rewrite H. reflexivity.
Defined.

(** zend_binary_strcasecmp orders byte strings lexicographically by their lower-case
    forms: its result has the sign of that comparison and is 0 exactly for strings
    that are equal up to case; zend_binary_strcmp does the same without conversion,
    and the variants with a limit compare the prefixes. The orders are consistent. *)
Theorem binary_compare_correct M s1 len1 s2 len2 n :
  two_strings M s1 len1 s2 len2 -> 0 <= n ->
  let a := slice M s1 len1 in
  let b := slice M s2 len2 in
  let low := map zend_tolower_ascii in
  zend_binary_strcmp M s1 len1 s2 len2 = Ok (lex_compare a b)
  /\ zend_binary_strcasecmp M s1 len1 s2 len2 = Ok (lex_compare (low a) (low b))
  /\ (lex_compare (low a) (low b) = 0 <-> low a = low b)
  /\ comparison (fun x y => lex_compare (low x) (low y))
  /\ zend_binary_strncmp M s1 len1 s2 len2 n = zend_binary_strcmp M s1 (Z.min n len1) s2 (Z.min n len2)
  /\ zend_binary_strncasecmp M s1 len1 s2 len2 n = zend_binary_strcasecmp M s1 (Z.min n len1) s2 (Z.min n len2).
Proof.
  intros Hs Hn. cbn zeta. split; [by apply zend_binary_strcmp_ok|]. split; [by apply binary_strcasecmp_ok|].
  split; [apply lex_compare_zero|]. split; [|split; [by apply binary_strncmp_prefix|by apply binary_strncasecmp_prefix]].
  destruct lex_compare_comparison as [H1 H2]. split; eauto.
Qed.

(** "aBc" against "AbD", which is one memory block. *)
Lemma binary_compare_correct_witness :
  zend_binary_strcasecmp [97; 66; 99; 65; 98; 68] 0 3 3 3 = Ok (-1).
Proof.
  destruct (binary_compare_correct [97; 66; 99; 65; 98; 68] 0 3 3 3 2) as (_ & H & _).
  - split; [reflexivity|]. split; [reflexivity|]. intros [=].
  - lia.
  - rewrite H. reflexivity.
Defined.
