(* ===== verification/StrSearchOps.v ===== *)
(** * Searching a byte string for another (Zend/zend_operators.h, zend_operators.c)

    [H] is the haystack, the bytes from [haystack] to [end], and [N] the needle;
    results are positions in the haystack, [None] is NULL. For long strings the
    search uses Sunday's algorithm with a table of shifts of type [unsigned int]. *)

From S2P Require Import Prelude.
From S2P Require Import StrMem.
From S2P Require Import StrCaseOps.

(** [while (p <= end)]; [end_] is the last position where the needle fits. *)
Fixpoint memnstr_loop (fuel : nat) (H N : list Z) (ne end_ p : Z) : res (option Z) :=
  match fuel with
  | O => Ub
  | S fuel =>
      if p <=? end_ then
        c ← rd N 0;
        o ← memchr H p c (end_ - p + 1);
        match o with
        | Some p =>
            x ← rd H (p + zlen N - 1);
            same ← (if ne =? x then r ← memcmp N 1 H (p + 1) (zlen N - 2); Ok (r =? 0) else Ok false);
            if (same : bool) then Ok (Some p) else memnstr_loop fuel H N ne end_ (p + 1)
        | None => Ok None
        end
      else Ok None
  end.

(** ** Sunday's algorithm *)

(** [td[(unsigned char)needle[i]] = (int)needle_len - i], for [i] from 0 up. *)
Fixpoint pre_forward (fuel : nat) (N : list Z) (i : Z) (td : list Z) : res (list Z) :=
  match fuel with
  | O => Ok td
  | S fuel =>
      c ← rd N i;
      td ← wr td (u8 c) (u32 (i32 (zlen N) - i));
      pre_forward fuel N (i + 1) td
  end.

(** [for (i = needle_len - 1; i >= 0; i--) td[(unsigned char)needle[i]] = i + 1;]
    where [i] is an [int]. *)
Fixpoint pre_reverse (fuel : nat) (N : list Z) (i : Z) (td : list Z) : res (list Z) :=
  match fuel with
  | O => Ok td
  | S fuel =>
      if 0 <=? i then
        c ← rd N i;
        td ← wr td (u8 c) (u32 (i + 1));
        pre_reverse fuel N (i - 1) td
      else Ok td
  end.

Definition zend_memnstr_ex_pre (N : list Z) (reverse : bool) : res (list Z) :=
  let td := replicate 256 (u32 (zlen N + 1)) in
  if reverse then pre_reverse (length N) N (i32 (zlen N - 1)) td
  else pre_forward (length N) N 0 td.

(** [for (i = 0; i < needle_len; i++) if (needle[i] != p[i]) break;] *)
Fixpoint match_loop (fuel : nat) (H N : list Z) (p i : Z) : res Z :=
  match fuel with
  | O => Ok i
  | S fuel =>
      a ← rd N i;
      b ← rd H (p + i);
      if negb (a =? b) then Ok i else match_loop fuel H N p (i + 1)
  end.

Fixpoint memnstr_ex_loop (fuel : nat) (H N td : list Z) (end_ p : Z) : res (option Z) :=
  match fuel with
  | O => Ub
  | S fuel =>
      if p <=? end_ then
        i ← match_loop (length N) H N p 0;
        if i =? zlen N then Ok (Some p)
        else if p =? end_ then Ok None
        else
          c ← rd H (p + zlen N);
          d ← rd td (u8 c);
          memnstr_ex_loop fuel H N td end_ (p + d)
      else Ok None
  end.

Definition search_fuel (H : list Z) : nat := S (S (length H)).

Definition zend_memnstr_ex (H N : list Z) : res (option Z) :=
  if (zlen N =? 0) || (zlen H <? zlen N) then Ok None
  else
    td ← zend_memnstr_ex_pre N false;
    memnstr_ex_loop (search_fuel H) H N td (zlen H - zlen N) 0.

Fixpoint memnrstr_ex_loop (fuel : nat) (H N td : list Z) (p : Z) : res (option Z) :=
  match fuel with
  | O => Ub
  | S fuel =>
      if 0 <=? p then
        i ← match_loop (length N) H N p 0;
        if i =? zlen N then Ok (Some p)
        else if p =? 0 then Ok None
        else
          c ← rd H (p - 1);
          d ← rd td (u8 c);
          memnrstr_ex_loop fuel H N td (p - d)
      else Ok None
  end.

Definition zend_memnrstr_ex (H N : list Z) : res (option Z) :=
  if (zlen N =? 0) || (zlen H <? zlen N) then Ok None
  else
    td ← zend_memnstr_ex_pre N true;
    memnrstr_ex_loop (search_fuel H) H N td (zlen H - zlen N).

(** ** The functions the rest of the engine calls *)

Definition zend_memnstr (H N : list Z) : res (option Z) :=
  if zlen N =? 1 then c ← rd N 0; memchr H 0 c (zlen H)
  else if zlen N =? 0 then Ok (Some 0)
  else if zlen H <? zlen N then Ok None
  else if (zlen H <? 1024) || (zlen N <? 9) then
    ne ← rd N (zlen N - 1);
    memnstr_loop (search_fuel H) H N ne (zlen H - zlen N) 0
  else zend_memnstr_ex H N.

(** Without HAVE_MEMRCHR this is a loop of its own, which does the same. *)
Definition zend_memrchr (H : list Z) (c n : Z) : res (option Z) := memrchr H 0 c n.

(** [do { ... } while (p-- >= haystack);] *)
Fixpoint memnrstr_loop (fuel : nat) (H N : list Z) (ne p : Z) : res (option Z) :=
  match fuel with
  | O => Ub
  | S fuel =>
      c ← rd N 0;
      o ← zend_memrchr H c (p + 1);
      match o with
      | None => Ok None
      | Some p =>
          x ← rd H (p + zlen N - 1);
          same ← (if ne =? x then r ← memcmp N 1 H (p + 1) (zlen N - 2); Ok (r =? 0) else Ok false);
          if (same : bool) then Ok (Some p)
          else if 0 <=? p then memnrstr_loop fuel H N ne (p - 1)
          else Ok None
      end
  end.

Definition zend_memnrstr (H N : list Z) : res (option Z) :=
  if zlen N =? 0 then Ok (Some (zlen H))
  else if zlen N =? 1 then c ← rd N 0; zend_memrchr H c (zlen H)
  else if zlen H <? zlen N then Ok None
  else if (zlen H <? 1024) || (zlen N <? 3) then
    ne ← rd N (zlen N - 1);
    memnrstr_loop (search_fuel H) H N ne (zlen H - zlen N)
  else zend_memnrstr_ex H N.

(** ** Ignoring case *)

(** [while (ptr1 < end)] *)
Fixpoint strnieq_loop (num : nat) (A : list Z) (p1 : Z) (B : list Z) (p2 : Z) : res bool :=
  match num with
  | O => Ok true
  | S num =>
      x ← rd A p1;
      y ← rd B p2;
      if negb (zend_tolower_ascii x =? zend_tolower_ascii y) then Ok false
      else strnieq_loop num A (p1 + 1) B (p2 + 1)
  end.

Definition zend_strnieq (A : list Z) (p1 : Z) (B : list Z) (p2 num : Z) : res bool :=
  strnieq_loop (Z.to_nat num) A p1 B p2.

(** [!p_upper || (p_lower && p_lower < p_upper) ? p_lower : p_upper] *)
Definition nearer (p_lower p_upper : option Z) : option Z :=
  match p_upper with
  | None => p_lower
  | Some u => match p_lower with Some l => if l <? u then p_lower else p_upper | None => p_upper end
  end.

(** [if (p_lower == p) p_lower = memchr(p_lower + 1, c, end - p_lower);] *)
Definition advance (H : list Z) (q : option Z) (p c end_ : Z) : res (option Z) :=
  match q with
  | Some l => if l =? p then memchr H (l + 1) c (end_ - l) else Ok q
  | None => Ok None
  end.

Fixpoint memnistr_loop (fuel : nat) (H N : list Z) (end_ : Z) (p_lower p_upper : option Z) : res (option Z) :=
  match fuel with
  | O => Ub
  | S fuel =>
      match nearer p_lower p_upper with
      | Some p =>
          if p <=? end_ then
            first ← rd N 0;
            last ← rd N (zlen N - 1);
            x ← rd H (p + zlen N - 1);
            same ← (if (zend_tolower_ascii last =? x) || (zend_toupper_ascii last =? x)
                    then zend_strnieq N 1 H (p + 1) (zlen N - 2) else Ok false);
            if (same : bool) then Ok (Some p)
            else
              p_lower ← advance H p_lower p (zend_tolower_ascii first) end_;
              p_upper ← advance H p_upper p (zend_toupper_ascii first) end_;
              memnistr_loop fuel H N end_ p_lower p_upper
          else Ok None
      | None => Ok None
      end
  end.

Definition zend_memnistr (H N : list Z) : res (option Z) :=
  if zlen N =? 0 then Ok (Some 0)
  else if zlen H <? zlen N then Ok None
  else
    first ← rd N 0;
    let first_lower := zend_tolower_ascii first in
    let first_upper := zend_toupper_ascii first in
    p_lower ← memchr H 0 first_lower (zlen H);
    p_upper ← (if negb (first_lower =? first_upper) then
                 memchr H 0 first_upper
                   (if zlen N =? 1 then match p_lower with Some l => l | None => zlen H end else zlen H)
               else Ok None);
    if zlen N =? 1 then Ok (nearer p_lower p_upper)
    else memnistr_loop (search_fuel H) H N (zlen H - zlen N) p_lower p_upper.
