(* ===== verification/StrSearch.v ===== *)
(** * Correctness of the search functions

    Each function finds the first (or last) occurrence of the needle, whichever of
    its algorithms runs; Sunday's shifts never skip an occurrence. *)

From S2P Require Import Prelude.
From S2P Require Import StrMem.
From S2P Require Import StrCaseOps.
From S2P Require Import StrCase.
From S2P Require Import StrSearchOps.

(** ** Occurrences *)

(** [N] is at position [p] of [H], up to [f]. *)
Definition occurs (f : Z -> Z) (H N : list Z) (p : Z) : Prop :=
  0 <= p /\ p + zlen N <= zlen H /\ map f (slice H p (zlen N)) = map f N.

#[export] Instance occurs_dec f H N p : Decision (occurs f H N p).
Proof. unfold occurs. apply _. Defined.

Definition first_of (P : Z -> Prop) (r : option Z) : Prop :=
  match r with Some p => P p /\ forall q, P q -> p <= q | None => forall q, ~ P q end.
Definition last_of (P : Z -> Prop) (r : option Z) : Prop :=
  match r with Some p => P p /\ forall q, P q -> q <= p | None => forall q, ~ P q end.

Section Occurs.
Context (f : Z -> Z).
Implicit Types (H N : list Z) (p k : Z).

(** The bytes [k] of the needle and [p + k] of the haystack agree. *)
Definition agree H N p k : Prop := f <$> zget H (p + k) = f <$> zget N k.

Lemma zget_map (l : list Z) k : zget (map f l) k = f <$> zget l k.
Proof. unfold zget. destruct (0 <=? k); [|done]. apply list_lookup_fmap. Qed.

Lemma slices_agree H N p i n : 0 <= p + i -> 0 <= i -> 0 <= n -> p + i + n <= zlen H -> i + n <= zlen N ->
  map f (slice H (p + i) n) = map f (slice N i n) <-> forall k, i <= k < i + n -> agree H N p k.
Proof.
  intros. split.
  - intros E k Hk. pose proof (f_equal (fun l => zget l (k - i)) E) as E'. cbn beta in E'.
    rewrite !zget_map, !zget_slice in E' by lia. unfold agree. by replace (p + i + (k - i)) with (p + k) in E' by lia;
      replace (i + (k - i)) with k in E' by lia.
  - intros Hk. apply zget_ext; rewrite !zlen_map, !zlen_slice by lia; [done|]. intros k Hk'.
    rewrite !zget_map, !zget_slice by lia. specialize (Hk (i + k) ltac:(lia)). unfold agree in Hk.
    by rewrite Z.add_assoc in Hk.
Qed.

Lemma occurs_iff H N p : occurs f H N p <->
  0 <= p /\ p + zlen N <= zlen H /\ forall k, 0 <= k < zlen N -> agree H N p k.
Proof.
  pose proof (zlen_nonneg N). unfold occurs.
  split; intros (H1 & H2 & H3); (split; [done|]; split; [done|]).
  - intros k Hk. apply (slices_agree H N p 0 (zlen N)); try lia. rewrite slice_all, Z.add_0_r. done.
  - rewrite <- (slice_all N) at 2. rewrite <- (Z.add_0_r p). apply slices_agree; try lia. by rewrite Z.add_0_l.
Qed.

(** The first byte, the last byte and those between. *)
Lemma occurs_ends H N p : 2 <= zlen N -> occurs f H N p <->
  0 <= p /\ p + zlen N <= zlen H /\ agree H N p 0 /\ agree H N p (zlen N - 1)
  /\ map f (slice H (p + 1) (zlen N - 2)) = map f (slice N 1 (zlen N - 2)).
Proof.
  intros Hn. rewrite occurs_iff. split; intros (H1 & H2 & H3); (split; [done|]; split; [done|]).
  - split; [apply H3; lia|]. split; [apply H3; lia|]. apply slices_agree; try lia. intros k ?. apply H3. lia.
  - destruct H3 as (A0 & A1 & Am). rewrite slices_agree in Am by lia. intros k Hk.
    destruct (decide (k = 0)) as [->|]; [done|]. destruct (decide (k = zlen N - 1)) as [->|]; [done|]. apply Am. lia.
Qed.

Lemma agree_get H N p k a : zget N k = Some a -> agree H N p k -> exists b, zget H (p + k) = Some b /\ f b = f a.
Proof. unfold agree. intros ->. cbn. destruct (zget H (p + k)) as [b|]; [|done]. intros [= E]. eauto. Qed.
End Occurs.

(** Equality of bytes is agreement up to the identity. *)
Lemma agree_id H N p k : agree id H N p k <-> zget H (p + k) = zget N k.
Proof. unfold agree. by rewrite !option_fmap_id. Qed.

Lemma occurs_id H N p : occurs id H N p <-> 0 <= p /\ p + zlen N <= zlen H /\ slice H p (zlen N) = N.
Proof. unfold occurs. by rewrite !map_id. Qed.

(** ** Search by the first byte *)

(** What the loops test at a position where the first byte is right. *)
Lemma ends_test H N p ne : 2 <= zlen N -> 0 <= p -> p + zlen N <= zlen H -> zget H p = zget N 0 ->
  zget N (zlen N - 1) = Some ne ->
  exists x b, rd H (p + zlen N - 1) = Ok x /\
    (if ne =? x then r ← memcmp N 1 H (p + 1) (zlen N - 2); Ok (r =? 0) else Ok false) = Ok b /\
    (b = true <-> occurs id H N p).
Proof.
  intros Hn Hp Hl H0 Hne. destruct (zget_is_Some H (p + zlen N - 1)) as [x Hx]; [lia|]. exists x.
  exists (bool_decide (occurs id H N p)). split; [by apply rd_ok|]. split; [|apply bool_decide_eq_true].
  rewrite memcmp_ok by lia. cbn [mbind res_bind].
  assert (HA0 : agree id H N p 0) by (rewrite agree_id, Z.add_0_r; done).
  assert (HA1 : agree id H N p (zlen N - 1) <-> x = ne).
  { rewrite agree_id, Hne. replace (p + (zlen N - 1)) with (p + zlen N - 1) by lia. rewrite Hx. split; [by intros [=]|by intros ->]. }
  pose proof (occurs_ends id H N p Hn) as Ho. rewrite HA1, !map_id in Ho.
  pose proof (cmp_bytes_eq (slice N 1 (zlen N - 2)) (slice H (p + 1) (zlen N - 2))) as Hc.
  rewrite (eq_comm (slice N 1 _)) in Hc.
  destruct (Z.eqb_spec ne x) as [->|]; f_equal.
  - apply eq_bool_prop_intro. rewrite Is_true_true, Z.eqb_eq, bool_decide_spec, Hc; [tauto|].
    pose proof (zlen_slice N 1 (zlen N - 2)). pose proof (zlen_slice H (p + 1) (zlen N - 2)). unfold zlen in *. lia.
  - rewrite bool_decide_false; [done|]. rewrite Ho. intros (_ & _ & _ & E & _). congruence.
Qed.

(** Positions before the next one with the right first byte are no occurrences. *)
Lemma occurs_first f H N q c : 0 < zlen N -> zget N 0 = Some c -> occurs f H N q ->
  exists b, zget H q = Some b /\ f b = f c.
Proof.
  intros Hn Hc. rewrite occurs_iff. intros (_ & _ & Hk). specialize (Hk 0 ltac:(lia)).
  destruct (agree_get _ _ _ _ _ _ Hc Hk) as (b & Hb & E). rewrite Z.add_0_r in Hb. eauto.
Qed.

Lemma memnstr_loop_ok fuel H N ne p : 2 <= zlen N -> zget N (zlen N - 1) = Some ne ->
  0 <= p -> Z.max 0 (zlen H - zlen N - p + 1) < Z.of_nat fuel ->
  (forall q, occurs id H N q -> p <= q) ->
  exists r, memnstr_loop fuel H N ne (zlen H - zlen N) p = Ok r /\ first_of (occurs id H N) r.
Proof.
  intros Hn Hne. revert p. induction fuel as [|fuel IH]; intros p Hp Hf Hq; [lia|]. cbn [memnstr_loop].
  destruct (Z.leb_spec p (zlen H - zlen N)) as [Hle|Hgt].
  2:{ exists None. split; [done|]. intros q Ho. pose proof (Hq q Ho). destruct Ho as (? & ? & _). lia. }
  destruct (zget_is_Some N 0) as [c Hc]; [lia|]. rewrite (rd_ok _ _ _ Hc). cbn [mbind res_bind].
  destruct (memchr_ok H p c (zlen H - zlen N - p + 1)) as (o & -> & Ho); [lia..|]. cbn [mbind res_bind].
  destruct o as [p'|].
  - destruct Ho as (Hb & Hx & Hno). destruct (ends_test H N p' ne) as (x & b & -> & Ht & Hb'); [lia..|congruence|done|].
    cbn [mbind res_bind]. rewrite Ht. cbn [mbind res_bind].
    assert (Hq' : forall q, occurs id H N q -> p' <= q).
    { intros q Hoq. destruct (Z_lt_le_dec q p') as [Hlt|]; [|done]. exfalso.
      destruct (occurs_first id H N q c) as (y & Hy & E); [lia|done..|]. cbn in E. subst y.
      apply (Hno q); [|done]. pose proof (Hq q Hoq). lia. }
    destruct b.
    + exists (Some p'). split; [done|]. split; [by apply Hb'|done].
    + apply IH; [lia..|]. intros q Hoq. pose proof (Hq' q Hoq). destruct (decide (q = p')) as [->|]; [|lia].
      apply Hb' in Hoq. done.
  - exists None. split; [done|]. intros q Hoq.
    destruct (occurs_first id H N q c) as (y & Hy & E); [lia|done..|]. cbn in E. subst y.
    apply (Ho q); [|done]. pose proof (Hq q Hoq). destruct Hoq as (? & ? & _). lia.
Qed.

Lemma memnrstr_loop_ok fuel H N ne p : 2 <= zlen N -> zget N (zlen N - 1) = Some ne ->
  -1 <= p <= zlen H - zlen N -> p + 1 < Z.of_nat fuel ->
  (forall q, occurs id H N q -> q <= p) ->
  exists r, memnrstr_loop fuel H N ne p = Ok r /\ last_of (occurs id H N) r.
Proof.
  intros Hn Hne. revert p. induction fuel as [|fuel IH]; intros p Hp Hf Hq; [lia|]. cbn [memnrstr_loop].
  destruct (zget_is_Some N 0) as [c Hc]; [lia|]. rewrite (rd_ok _ _ _ Hc). cbn [mbind res_bind].
  unfold zend_memrchr. destruct (memrchr_ok H 0 c (p + 1)) as (o & -> & Ho); [lia..|]. cbn [mbind res_bind].
  destruct o as [p'|].
  - destruct Ho as (Hb & Hx & Hno). destruct (ends_test H N p' ne) as (x & b & -> & Ht & Hb'); [lia..|congruence|done|].
    cbn [mbind res_bind]. rewrite Ht. cbn [mbind res_bind].
    assert (Hq' : forall q, occurs id H N q -> q <= p').
    { intros q Hoq. destruct (Z_lt_le_dec p' q) as [Hlt|]; [|done]. exfalso.
      destruct (occurs_first id H N q c) as (y & Hy & E); [lia|done..|]. cbn in E. subst y.
      apply (Hno q); [|done]. pose proof (Hq q Hoq). lia. }
    destruct b.
    + exists (Some p'). split; [done|]. split; [by apply Hb'|done].
    + rewrite (proj2 (Z.leb_le 0 p')) by lia. apply IH; [lia..|]. intros q Hoq. pose proof (Hq' q Hoq).
      destruct (decide (q = p')) as [->|]; [|lia]. apply Hb' in Hoq. done.
  - exists None. split; [done|]. intros q Hoq.
    destruct (occurs_first id H N q c) as (y & Hy & E); [lia|done..|]. cbn in E. subst y.
    apply (Ho q); [|done]. pose proof (Hq q Hoq). destruct Hoq as (? & ? & _). lia.
Qed.

(** ** The table of shifts *)

(** Every shift is positive, at most one past the needle, and not beyond [bound k] for
    any position [k] of the byte in the needle that has been entered. *)
Definition shifts (N td : list Z) (entered : Z -> Prop) (bound : Z -> Z) : Prop :=
  zlen td = 256 /\ forall c, is_byte c -> exists d, zget td c = Some d /\ 1 <= d <= zlen N + 1 /\
    forall k, entered k -> 0 <= k < zlen N -> zget N k = Some c -> d <= bound k.

Lemma shifts_wr N td entered entered' bound i c : shifts N td entered bound -> is_byte c -> zget N i = Some c ->
  0 <= i < zlen N -> 1 <= bound i <= zlen N + 1 ->
  (forall k, 0 <= k < zlen N -> entered' k -> k = i \/ entered k) -> (forall k, entered k -> 0 <= k < zlen N -> bound i <= bound k) ->
  exists td', wr td c (bound i) = Ok td' /\ shifts N td' entered' bound.
Proof.
  intros [Hl Hs] Hc Hi Hir Hb He Hm. exists (zset td c (bound i)). unfold is_byte in *.
  split; [apply wr_ok; lia|]. split; [by rewrite zlen_zset|]. intros c' Hc'. destruct (decide (c' = c)) as [->|Hne].
  - exists (bound i). split; [apply zget_zset_eq; lia|]. split; [done|]. intros k Hk Hkr _.
    destruct (He k Hkr Hk) as [->|]; [lia|auto].
  - destruct (Hs c' Hc') as (d & Hd & Hdr & Hdk). exists d. rewrite zget_zset_ne by lia. split; [done|]. split; [done|].
    intros k Hk Hkr Hkc. destruct (He k Hkr Hk) as [->|]; [congruence|auto].
Qed.

Lemma shifts_init N entered bound : zlen N < 2 ^ 31 -> (forall k, ~ entered k) ->
  shifts N (replicate 256 (u32 (zlen N + 1))) entered bound.
Proof.
  intros Hn He. pose proof (zlen_nonneg N). split; [done|]. intros c Hc. exists (zlen N + 1). unfold is_byte in Hc.
  rewrite u32_small by lia. split; [apply zget_replicate; lia|]. split; [lia|]. intros k Hk. by destruct (He k).
Qed.

Lemma u8_byte c : is_byte c -> u8 c = c.
Proof. apply Z.mod_small. Qed.

Lemma zget_byte l k c : Forall is_byte l -> zget l k = Some c -> is_byte c.
Proof. unfold zget. destruct (0 <=? k); [|done]. intros H Hk. by eapply Forall_lookup_1 in H. Qed.

Lemma pre_forward_ok fuel N i td : Forall is_byte N -> zlen N < 2 ^ 31 -> 0 <= i -> Z.of_nat fuel = zlen N - i ->
  shifts N td (fun k => k < i) (fun k => zlen N - k) ->
  exists td', pre_forward fuel N i td = Ok td' /\ shifts N td' (fun _ => True) (fun k => zlen N - k).
Proof.
  intros Hb Hn. revert i td. induction fuel as [|fuel IH]; intros i td Hi Hf Hs; cbn [pre_forward].
  - exists td. split; [done|]. destruct Hs as [Hl Hs]. split; [done|]. intros c Hc. destruct (Hs c Hc) as (d & ? & ? & ?).
    exists d. split; [done|]. split; [done|]. intros k _ Hk. apply H1; lia.
  - destruct (zget_is_Some N i) as [c Hc]; [lia|]. rewrite (rd_ok _ _ _ Hc). cbn [mbind res_bind].
    pose proof (zget_byte _ _ _ Hb Hc) as Hcb. rewrite (u8_byte c) by done. rewrite i32_small, u32_small by lia.
    destruct (shifts_wr N td _ (fun k => k < i + 1) _ i c Hs Hcb Hc) as (td' & -> & Hs'); [lia..|].
    cbn [mbind res_bind]. apply IH; [lia..|done].
Qed.

Lemma pre_reverse_ok fuel N i td : Forall is_byte N -> zlen N < 2 ^ 31 -> i < zlen N -> Z.of_nat fuel = i + 1 ->
  shifts N td (fun k => i < k) (fun k => k + 1) ->
  exists td', pre_reverse fuel N i td = Ok td' /\ shifts N td' (fun _ => True) (fun k => k + 1).
Proof.
  intros Hb Hn. revert i td. induction fuel as [|fuel IH]; intros i td Hi Hf Hs; cbn [pre_reverse].
  - exists td. split; [done|]. destruct Hs as [Hl Hs]. split; [done|]. intros c Hc. destruct (Hs c Hc) as (d & ? & ? & ?).
    exists d. split; [done|]. split; [done|]. intros k _ Hk. apply H1; lia.
  - rewrite (proj2 (Z.leb_le 0 i)) by lia. destruct (zget_is_Some N i) as [c Hc]; [lia|]. rewrite (rd_ok _ _ _ Hc). cbn [mbind res_bind].
    pose proof (zget_byte _ _ _ Hb Hc) as Hcb. rewrite (u8_byte c) by done. rewrite u32_small by lia.
    destruct (shifts_wr N td _ (fun k => i - 1 < k) _ i c Hs Hcb Hc) as (td' & -> & Hs'); [lia..|].
    cbn [mbind res_bind]. apply IH; [lia..|done].
Qed.

Lemma zend_memnstr_ex_pre_ok N reverse : Forall is_byte N -> 0 < zlen N < 2 ^ 31 ->
  exists td, zend_memnstr_ex_pre N reverse = Ok td /\
    shifts N td (fun _ => True) (fun k => if reverse then k + 1 else zlen N - k).
Proof.
  intros Hb Hn. unfold zend_memnstr_ex_pre. destruct reverse.
  - rewrite i32_small by lia. apply pre_reverse_ok; [done|lia|lia|unfold zlen in *; lia|].
    destruct (shifts_init N (fun _ => False) (fun k => k + 1)) as [Hl Hs]; [lia|tauto|]. split; [done|].
    intros c Hc. destruct (Hs c Hc) as (d & ? & ? & _). exists d. split; [done|]. split; [done|]. lia.
  - apply pre_forward_ok; [done|lia|lia|unfold zlen in *; lia|].
    destruct (shifts_init N (fun _ => False) (fun k => zlen N - k)) as [Hl Hs]; [lia|tauto|]. split; [done|].
    intros c Hc. destruct (Hs c Hc) as (d & ? & ? & _). exists d. split; [done|]. split; [done|]. lia.
Qed.

(** The position in the reverse loop is an [int]: for a needle longer than 2^31 bytes
    it is negative from the start and nothing is entered in the table, so that every
    shift is one past the needle. *)
Lemma long_needle_reverse N : 2 ^ 31 < zlen N < 2 ^ 32 - 1 ->
  zend_memnstr_ex_pre N true = Ok (replicate 256 (zlen N + 1)).
Proof.
  intros Hn. unfold zend_memnstr_ex_pre. rewrite (u32_small (zlen N + 1)) by lia.
  assert (Hi : i32 (zlen N - 1) < 0).
  { unfold i32, sint. rewrite Z.mod_small by lia. change (32 - 1) with 31.
    rewrite (proj2 (Z.ltb_ge _ _)) by lia. lia. }
  destruct (length N); cbn [pre_reverse]; [done|]. by rewrite (proj2 (Z.leb_gt 0 _)) by lia.
Qed.

(** ** Sunday's algorithm *)

Lemma match_loop_ok fuel H N p i : 0 <= i -> 0 <= p -> p + zlen N <= zlen H -> Z.of_nat fuel = zlen N - i ->
  (forall k, 0 <= k < i -> agree id H N p k) ->
  exists r, match_loop fuel H N p i = Ok r /\ (r = zlen N <-> occurs id H N p).
Proof.
  revert i. induction fuel as [|fuel IH]; intros i Hi Hp Hl Hf Hk; cbn [match_loop].
  - exists i. split; [done|]. rewrite occurs_iff. split; [|lia]. intros ->. auto.
  - destruct (zget_is_Some N i) as [a Ha]; [lia|]. destruct (zget_is_Some H (p + i)) as [b Hb]; [lia|].
    rewrite (rd_ok _ _ _ Ha), (rd_ok _ _ _ Hb). cbn [mbind res_bind].
    destruct (Z.eqb_spec a b) as [->|Hne]; cbn [negb].
    + apply IH; try lia. intros k Hk'. destruct (decide (k = i)) as [->|]; [|apply Hk; lia]. rewrite agree_id. congruence.
    + exists i. split; [done|]. rewrite occurs_iff. split; [lia|]. intros (_ & _ & E).
      specialize (E i ltac:(lia)). rewrite agree_id in E. congruence.
Qed.

(** A jump over the byte behind the window skips no occurrence. *)
Lemma skip_forward H N td p q c d : shifts N td (fun _ => True) (fun k => zlen N - k) -> is_byte c ->
  zget H (p + zlen N) = Some c -> zget td c = Some d -> occurs id H N q -> p < q -> p + d <= q.
Proof.
  intros [_ Hs] Hc Hx Hd Hq Hpq. destruct (Hs c Hc) as (d' & Hd' & Hr & Hb).
  rewrite Hd in Hd'. injection Hd' as <-. destruct (Z_le_gt_dec (p + d) q) as [|Hgt]; [done|]. exfalso.
  apply occurs_iff in Hq as (? & ? & Hk). specialize (Hk (p + zlen N - q) ltac:(lia)). rewrite agree_id in Hk.
  replace (q + (p + zlen N - q)) with (p + zlen N) in Hk by lia. rewrite Hx in Hk. symmetry in Hk.
  specialize (Hb (p + zlen N - q) I ltac:(lia) Hk). lia.
Qed.

Lemma skip_backward H N td p q c d : shifts N td (fun _ => True) (fun k => k + 1) -> is_byte c ->
  zget H (p - 1) = Some c -> zget td c = Some d -> occurs id H N q -> q < p -> q <= p - d.
Proof.
  intros [_ Hs] Hc Hx Hd Hq Hpq. destruct (Hs c Hc) as (d' & Hd' & Hr & Hb).
  rewrite Hd in Hd'. injection Hd' as <-. destruct (Z_le_gt_dec q (p - d)) as [|Hgt]; [done|]. exfalso.
  apply occurs_iff in Hq as (? & ? & Hk). specialize (Hk (p - 1 - q) ltac:(lia)). rewrite agree_id in Hk.
  replace (q + (p - 1 - q)) with (p - 1) in Hk by lia. rewrite Hx in Hk. symmetry in Hk.
  specialize (Hb (p - 1 - q) I ltac:(lia) Hk). lia.
Qed.

Lemma memnstr_ex_loop_ok fuel H N td p : shifts N td (fun _ => True) (fun k => zlen N - k) -> Forall is_byte H ->
  0 < zlen N -> 0 <= p -> Z.max 0 (zlen H - zlen N - p + 1) < Z.of_nat fuel ->
  (forall q, occurs id H N q -> p <= q) ->
  exists r, memnstr_ex_loop fuel H N td (zlen H - zlen N) p = Ok r /\ first_of (occurs id H N) r.
Proof.
  intros Hs Hb Hn. revert p. induction fuel as [|fuel IH]; intros p Hp Hf Hq; [lia|]. cbn [memnstr_ex_loop].
  destruct (Z.leb_spec p (zlen H - zlen N)) as [Hle|Hgt].
  2:{ exists None. split; [done|]. intros q Ho. pose proof (Hq q Ho). destruct Ho as (? & ? & _). lia. }
  destruct (match_loop_ok (length N) H N p 0) as (r & -> & Hr); [lia..|unfold zlen; lia|lia|]. cbn [mbind res_bind].
  destruct (Z.eqb_spec r (zlen N)) as [Hm|Hm].
  { exists (Some p). split; [done|]. split; [by apply Hr|done]. }
  assert (Hq' : forall q, occurs id H N q -> p < q).
  { intros q Ho. pose proof (Hq q Ho). destruct (decide (q = p)) as [->|]; [tauto|lia]. }
  destruct (Z.eqb_spec p (zlen H - zlen N)) as [He|He].
  { exists None. split; [done|]. intros q Ho. pose proof (Hq' q Ho). destruct Ho as (? & ? & _). lia. }
  destruct (zget_is_Some H (p + zlen N)) as [c Hc]; [lia|]. rewrite (rd_ok _ _ _ Hc). cbn [mbind res_bind].
  pose proof (zget_byte _ _ _ Hb Hc) as Hcb. rewrite u8_byte by done.
  destruct (proj2 Hs c Hcb) as (d & Hd & Hdr & _). rewrite (rd_ok _ _ _ Hd). cbn [mbind res_bind].
  apply IH; [lia..|]. intros q Ho. eapply skip_forward; eauto.
Qed.

Lemma memnrstr_ex_loop_ok fuel H N td p : shifts N td (fun _ => True) (fun k => k + 1) -> Forall is_byte H ->
  0 < zlen N -> p <= zlen H - zlen N -> Z.max 0 (p + 1) < Z.of_nat fuel ->
  (forall q, occurs id H N q -> q <= p) ->
  exists r, memnrstr_ex_loop fuel H N td p = Ok r /\ last_of (occurs id H N) r.
Proof.
  intros Hs Hb Hn. revert p. induction fuel as [|fuel IH]; intros p Hp Hf Hq; [lia|]. cbn [memnrstr_ex_loop].
  destruct (Z.leb_spec 0 p) as [Hle|Hgt].
  2:{ exists None. split; [done|]. intros q Ho. pose proof (Hq q Ho). destruct Ho as (? & ? & _). lia. }
  destruct (match_loop_ok (length N) H N p 0) as (r & -> & Hr); [lia..|unfold zlen; lia|lia|]. cbn [mbind res_bind].
  destruct (Z.eqb_spec r (zlen N)) as [Hm|Hm].
  { exists (Some p). split; [done|]. split; [by apply Hr|done]. }
  assert (Hq' : forall q, occurs id H N q -> q < p).
  { intros q Ho. pose proof (Hq q Ho). destruct (decide (q = p)) as [->|]; [tauto|lia]. }
  destruct (Z.eqb_spec p 0) as [He|He].
  { exists None. split; [done|]. intros q Ho. pose proof (Hq' q Ho). destruct Ho as (? & ? & _). lia. }
  destruct (zget_is_Some H (p - 1)) as [c Hc]; [lia|]. rewrite (rd_ok _ _ _ Hc). cbn [mbind res_bind].
  pose proof (zget_byte _ _ _ Hb Hc) as Hcb. rewrite u8_byte by done.
  destruct (proj2 Hs c Hcb) as (d & Hd & Hdr & _). rewrite (rd_ok _ _ _ Hd). cbn [mbind res_bind].
  apply IH; [lia..|]. intros q Ho. eapply skip_backward; eauto.
Qed.

Lemma too_long f H N : zlen H < zlen N -> forall q, ~ occurs f H N q.
Proof. intros Hl q (? & ? & _). lia. Qed.

Lemma zend_memnstr_ex_ok H N : Forall is_byte H -> Forall is_byte N -> 0 < zlen N < 2 ^ 31 ->
  exists r, zend_memnstr_ex H N = Ok r /\ first_of (occurs id H N) r.
Proof.
  intros HH HN Hn. unfold zend_memnstr_ex. rewrite (proj2 (Z.eqb_neq (zlen N) 0)) by lia. cbn [orb].
  destruct (Z.ltb_spec (zlen H) (zlen N)).
  - exists None. split; [done|]. by (intros q; apply too_long).
  - destruct (zend_memnstr_ex_pre_ok N false) as (td & -> & Hs); [done..|]. cbn [mbind res_bind].
    apply memnstr_ex_loop_ok; try done; [lia|unfold search_fuel, zlen in *; lia|]. by intros q [? _].
Qed.

Lemma zend_memnrstr_ex_ok H N : Forall is_byte H -> Forall is_byte N -> 0 < zlen N < 2 ^ 31 ->
  exists r, zend_memnrstr_ex H N = Ok r /\ last_of (occurs id H N) r.
Proof.
  intros HH HN Hn. unfold zend_memnrstr_ex. rewrite (proj2 (Z.eqb_neq (zlen N) 0)) by lia. cbn [orb].
  destruct (Z.ltb_spec (zlen H) (zlen N)).
  - exists None. split; [done|]. by (intros q; apply too_long).
  - destruct (zend_memnstr_ex_pre_ok N true) as (td & -> & Hs); [done..|]. cbn [mbind res_bind].
    apply memnrstr_ex_loop_ok; try done; [lia|unfold search_fuel, zlen in *; lia|]. intros q (? & ? & _). lia.
Qed.

Lemma occurs_one f H c q : occurs f H [c] q <-> exists b, zget H q = Some b /\ f b = f c.
Proof.
  rewrite occurs_iff, zlen_one. split.
  - intros (? & ? & Hk). apply (agree_get f H [c] q 0 c) in Hk; [|done|lia]. by rewrite Z.add_0_r in Hk.
  - intros (b & Hb & E). apply zget_Some_range in Hb as Hr. split; [lia|]. split; [lia|]. intros k Hk.
    replace k with 0 by lia. unfold agree. rewrite Z.add_0_r, Hb. cbn. by rewrite E.
Qed.

Lemma zlen_1_inv {A} (l : list A) : zlen l = 1 -> exists x, l = [x].
Proof. destruct l as [|x [|y l]]; unfold zlen; cbn; intros; [lia|eauto|lia]. Qed.

Lemma zlen_0_inv {A} (l : list A) : zlen l = 0 -> l = [].
Proof. destruct l; unfold zlen; cbn; [done|lia]. Qed.

Lemma occurs_nil f H q : occurs f H [] q <-> 0 <= q <= zlen H.
Proof. unfold occurs. change (zlen (@nil Z)) with 0. rewrite slice_nil. split; [intros (?&?&_); lia|intros; split_and!; done || lia]. Qed.

(** ** Search ignoring case *)

Local Notation low := zend_tolower_ascii.
Local Notation up := zend_toupper_ascii.

(** The bytes equal to [a] up to case are its lower-case and its upper-case form. *)
Lemma same_letter a x : is_byte a -> is_byte x -> low x = low a <-> low a = x \/ up a = x.
Proof.
  intros Ha Hx. rewrite !zend_tolower_ascii_spec, zend_toupper_ascii_spec by done.
  unfold is_upper, is_lower, is_byte in *.
  destruct (Z.leb_spec 65 x), (Z.leb_spec x 90), (Z.leb_spec 65 a), (Z.leb_spec a 90), (Z.leb_spec 97 a), (Z.leb_spec a 122); cbn; lia.
Qed.

(** [r] is the first position of [c] from [lo] on, before [hi] if there is none. *)
Definition next_at (H : list Z) (c lo hi : Z) (r : option Z) : Prop :=
  match r with
  | Some q => lo <= q /\ zget H q = Some c /\ forall k, lo <= k < q -> zget H k <> Some c
  | None => forall k, lo <= k < hi -> zget H k <> Some c
  end.

Lemma memchr_next M p c n : 0 <= p -> 0 <= n -> p + n <= zlen M ->
  exists r, memchr M p c n = Ok r /\ next_at M c p (p + n) r.
Proof.
  intros Hp Hn Hl. destruct (memchr_ok M p c n) as (r & -> & Hr); [done..|]. exists r. split; [done|].
  destruct r; cbn; [|done]. destruct Hr as (? & ? & ?). split; [lia|done].
Qed.

Lemma next_at_weaken M c lo hi hi' r : hi' <= hi -> next_at M c lo hi r -> next_at M c lo hi' r.
Proof. destruct r; cbn; [done|]. intros Hh H k Hk. apply H. lia. Qed.

(** The two searches together; [p_upper] is not used when there is one form only. *)
Definition upper_next (H : list Z) (cl cu lo hi : Z) (r : option Z) : Prop :=
  (cl = cu /\ r = None) \/ next_at H cu lo hi r.

Lemma upper_next_weaken H cl cu lo hi hi' u : hi' <= hi -> upper_next H cl cu lo hi u -> upper_next H cl cu lo hi' u.
Proof. intros Hh [?|Hu]; [by left|right]. revert Hu. by apply next_at_weaken. Qed.

Definition candidate (H : list Z) (cl cu k : Z) : Prop := zget H k = Some cl \/ zget H k = Some cu.

Lemma nearer_ok H cl cu lo hi l u : next_at H cl lo hi l ->
  upper_next H cl cu lo (match l with Some q => Z.min q hi | None => hi end) u ->
  match nearer l u with
  | Some p => lo <= p /\ candidate H cl cu p /\ (forall k, lo <= k < Z.min p hi -> ~ candidate H cl cu k)
              /\ (forall q, l = Some q -> p <= q) /\ (forall q, u = Some q -> p <= q)
  | None => forall k, lo <= k < hi -> ~ candidate H cl cu k
  end.
Proof.
  unfold candidate. intros Hl Hu. destruct u as [u|]; cbn.
  - destruct Hu as [[_ [=]]|(Hu1 & Hu2 & Hu3)]. destruct l as [l|]; cbn in Hl.
    + destruct Hl as (Hl1 & Hl2 & Hl3). destruct (Z.ltb_spec l u); cbn.
      * split_and!; [done|by left| |by intros q [= <-]|intros q [= <-]; lia].
        intros k Hk [E|E]; [apply (Hl3 k)|apply (Hu3 k)]; lia || done.
      * split_and!; [done|by right| |intros q [= <-]; lia|by intros q [= <-]].
        intros k Hk [E|E]; [apply (Hl3 k)|apply (Hu3 k)]; lia || done.
    + split_and!; [done|by right| |done|by intros q [= <-]].
      intros k Hk [E|E]; [apply (Hl k)|apply (Hu3 k)]; lia || done.
  - destruct l as [l|]; cbn in Hl.
    + destruct Hl as (Hl1 & Hl2 & Hl3). split_and!; [done|by left| |by intros q [= <-]|done].
      intros k Hk [E|E]; [apply (Hl3 k); lia || done|]. destruct Hu as [[Hc _]|Hu].
      * apply (Hl3 k); [lia|congruence].
      * apply (Hu k); lia || done.
    + intros k Hk [E|E]; [apply (Hl k); lia || done|]. destruct Hu as [[Hc _]|Hu].
      * apply (Hl k); [lia|congruence].
      * apply (Hu k); lia || done.
Qed.

Lemma advance_next_ok H q p c lo end_ : next_at H c lo (end_ + 1) q -> lo <= p <= end_ -> 0 <= lo -> end_ + 1 <= zlen H ->
  (forall l, q = Some l -> p <= l) ->
  exists q', advance H q p c end_ = Ok q' /\ next_at H c (p + 1) (end_ + 1) q'.
Proof.
  intros Hq Hp Hlo He Hm. destruct q as [l|]; cbn.
  - destruct (Z.eqb_spec l p) as [->|Hne].
    + destruct (memchr_next H (p + 1) c (end_ - p)) as (r & Hr & Hn); [lia..|]. exists r. split; [done|].
      by replace (p + 1 + (end_ - p)) with (end_ + 1) in Hn by lia.
    + exists (Some l). split; [done|]. destruct Hq as (? & ? & Hk). specialize (Hm l eq_refl).
      split; [lia|]. split; [done|]. intros k ?. apply Hk. lia.
  - exists None. split; [done|]. intros k ?. apply Hq. lia.
Qed.

Lemma strnieq_loop_ok num A p1 B p2 : 0 <= p1 -> 0 <= p2 -> p1 + Z.of_nat num <= zlen A -> p2 + Z.of_nat num <= zlen B ->
  exists b, strnieq_loop num A p1 B p2 = Ok b /\
    (b = true <-> map low (slice A p1 (Z.of_nat num)) = map low (slice B p2 (Z.of_nat num))).
Proof.
  revert p1 p2. induction num as [|num IH]; intros p1 p2 H1 H2 L1 L2; [by exists true|]. cbn [strnieq_loop].
  destruct (zget_is_Some A p1) as [x Hx]; [lia|]. destruct (zget_is_Some B p2) as [y Hy]; [lia|].
  rewrite (rd_ok _ _ _ Hx), (rd_ok _ _ _ Hy). cbn [mbind res_bind].
  rewrite (slice_cons A p1 _ x), (slice_cons B p2 _ y) by (done || lia). cbn [map].
  destruct (Z.eqb_spec (low x) (low y)) as [He|He]; cbn [negb].
  - destruct (IH (p1 + 1) (p2 + 1)) as (b & -> & Hb); [lia..|]. exists b. split; [done|].
    replace (Z.of_nat (S num) - 1) with (Z.of_nat num) by lia. rewrite Hb, He. split; [by intros ->|by intros [= ->]].
  - exists false. split; [done|]. split; [done|]. by intros [= E].
Qed.

(** The test at a position whose first byte is right up to case. *)
Lemma ends_test_ci H N p a last : 2 <= zlen N -> 0 <= p -> p + zlen N <= zlen H -> Forall is_byte H -> Forall is_byte N ->
  zget N 0 = Some a -> candidate H (low a) (up a) p -> zget N (zlen N - 1) = Some last ->
  exists x b, rd H (p + zlen N - 1) = Ok x /\
    (if (low last =? x) || (up last =? x) then zend_strnieq N 1 H (p + 1) (zlen N - 2) else Ok false) = Ok b /\
    (b = true <-> occurs low H N p).
Proof.
  intros Hn Hp Hl HH HN Ha Hc Hlast. destruct (zget_is_Some H (p + zlen N - 1)) as [x Hx]; [lia|]. exists x.
  pose proof (zget_byte _ _ _ HH Hx). pose proof (zget_byte _ _ _ HN Hlast). pose proof (zget_byte _ _ _ HN Ha).
  assert (HA0 : agree low H N p 0).
  { unfold agree. rewrite Z.add_0_r, Ha. destruct Hc as [E|E]; rewrite E; cbn; f_equal; apply same_letter; try done;
      try (by apply (zget_byte _ _ _ HH E)); tauto. }
  assert (HA1 : agree low H N p (zlen N - 1) <-> low last = x \/ up last = x).
  { rewrite <- same_letter by done. unfold agree. replace (p + (zlen N - 1)) with (p + zlen N - 1) by lia.
    rewrite Hx, Hlast. cbn. split; [by intros [=]|by intros ->]. }
  pose proof (occurs_ends low H N p Hn) as Ho. rewrite HA1 in Ho.
  destruct (strnieq_loop_ok (Z.to_nat (zlen N - 2)) N 1 H (p + 1)) as (b & Hb & Hbe); [lia..|].
  rewrite Z2Nat.id in Hbe by lia.
  destruct (Z.eqb_spec (low last) x), (Z.eqb_spec (up last) x); cbn [orb].
  4:{ exists false. split; [by apply rd_ok|]. split; [done|]. rewrite Ho. split; [done|]. intros (_ & _ & _ & [E|E] & _); done. }
  all: exists b; split; [by apply rd_ok|]; split; [done|]; rewrite Hbe, Ho; split;
    [intros E; split_and!; auto|intros (_ & _ & _ & _ & E); done].
Qed.

Lemma memnistr_loop_ok fuel H N a lo l u : let end_ := zlen H - zlen N in
  2 <= zlen N -> Forall is_byte H -> Forall is_byte N -> zget N 0 = Some a ->
  0 <= lo -> Z.max 0 (end_ - lo + 1) < Z.of_nat fuel ->
  next_at H (low a) lo (end_ + 1) l -> upper_next H (low a) (up a) lo (end_ + 1) u ->
  (forall q, occurs low H N q -> lo <= q) ->
  exists r, memnistr_loop fuel H N end_ l u = Ok r /\ first_of (occurs low H N) r.
Proof.
  intros end_ Hn HH HN Ha. revert lo l u. induction fuel as [|fuel IH]; intros lo l u Hlo Hf Hnl Hnu Hq; [lia|]. cbn [memnistr_loop].
  assert (Hcand : forall q, occurs low H N q -> candidate H (low a) (up a) q).
  { intros q Ho. destruct (occurs_first low H N q a) as (y & Hy & E); [lia|done..|].
    apply same_letter in E; [|by apply (zget_byte _ _ _ HN Ha)|by apply (zget_byte _ _ _ HH Hy)]. unfold candidate. rewrite Hy.
    destruct E as [<-|<-]; auto. }
  pose proof (nearer_ok H (low a) (up a) lo (end_ + 1) l u Hnl) as Hne.
  destruct (nearer l u) as [p|].
  2:{ exists None. split; [done|]. intros q Ho. apply (Hne) with q; [|pose proof (Hq q Ho); destruct Ho as (? & ? & _); lia|by apply Hcand].
      revert Hnu. apply upper_next_weaken. destruct l; lia. }
  destruct Hne as (Hp & Hpc & Hno & Hml & Hmu).
  { revert Hnu. apply upper_next_weaken. destruct l; lia. }
  assert (Hq' : forall q, occurs low H N q -> p <= q).
  { intros q Ho. destruct (Z_lt_le_dec q p); [|done]. exfalso. apply (Hno q); [|by apply Hcand].
    pose proof (Hq q Ho). destruct Ho as (? & ? & _). lia. }
  destruct (Z.leb_spec p end_) as [Hle|Hgt].
  2:{ exists None. split; [done|]. intros q Ho. pose proof (Hq' q Ho). destruct Ho as (? & ? & _). lia. }
  rewrite (rd_ok _ _ _ Ha). cbn [mbind res_bind].
  destruct (zget_is_Some N (zlen N - 1)) as [last Hlast]; [lia|]. rewrite (rd_ok _ _ _ Hlast). cbn [mbind res_bind].
  destruct (ends_test_ci H N p a last) as (x & b & -> & Ht & Hb); [done || lia..|]. cbn [mbind res_bind].
  rewrite Ht. cbn [mbind res_bind]. destruct b.
  { exists (Some p). split; [done|]. split; [by apply Hb|done]. }
  destruct (advance_next_ok H l p (low a) lo end_) as (l' & -> & Hl'); [done || lia..|]. cbn [mbind res_bind].
  assert (exists u', advance H u p (up a) end_ = Ok u' /\ upper_next H (low a) (up a) (p + 1) (end_ + 1) u') as (u' & -> & Hu').
  { destruct Hnu as [[Hc ->]|Hnu]; [exists None; split; [done|by left]|].
    destruct (advance_next_ok H u p (up a) lo end_) as (u' & -> & Hu'); [done || lia..|]. exists u'. split; [done|by right]. }
  cbn [mbind res_bind]. apply (IH (p + 1)); try done; [lia..|].
  intros q Ho. pose proof (Hq' q Ho). destruct (decide (q = p)) as [->|]; [|lia]. apply Hb in Ho. done.
Qed.

(** ** The contracts *)

(** C28: zend_memnstr returns the first position at which the needle occurs in the
    haystack, and NULL if there is none: through memchr for one byte, by the first
    byte and memcmp for short strings, with Sunday's table of shifts for long ones,
    without a read outside of the two strings. *)
Theorem zend_memnstr_correct H N : Forall is_byte H -> Forall is_byte N -> zlen N < 2 ^ 31 ->
  exists r, zend_memnstr H N = Ok r /\ first_of (fun p => 0 <= p /\ p + zlen N <= zlen H /\ slice H p (zlen N) = N) r.
Proof.
  intros HH HN Hn. pose proof (zlen_nonneg N) as Hpos.
  cut (exists r, zend_memnstr H N = Ok r /\ first_of (occurs id H N) r).
  { intros (r & Hr & Hf). exists r. split; [done|]. destruct r; cbn in *; setoid_rewrite <- occurs_id; done. }
  unfold zend_memnstr. destruct (Z.eqb_spec (zlen N) 1) as [H1|H1].
  { destruct (zlen_1_inv N H1) as [c ->]. cbn [rd zget]. rewrite (rd_ok _ _ c) by done. cbn [mbind res_bind].
    destruct (memchr_ok H 0 c (zlen H)) as (r & -> & Hr); [lia|apply zlen_nonneg|lia|]. exists r. split; [done|].
    destruct r as [p|]; cbn.
    - destruct Hr as (? & Hp & Hk). split; [apply occurs_one; by exists c|]. intros q (b & Hb & E)%occurs_one. cbn in E. subst b.
      destruct (Z_lt_le_dec q p); [|done]. apply zget_Some_range in Hb as ?. exfalso. apply (Hk q); [lia|done].
    - intros q (b & Hb & E)%occurs_one. cbn in E. subst b. apply zget_Some_range in Hb as ?. apply (Hr q); [lia|done]. }
  destruct (Z.eqb_spec (zlen N) 0) as [H0|H0].
  { apply zlen_0_inv in H0 as ->. exists (Some 0). split; [done|]. cbn. rewrite occurs_nil.
    pose proof (zlen_nonneg H). split; [lia|]. intros q Hq%occurs_nil. lia. }
  destruct (Z.ltb_spec (zlen H) (zlen N)); [exists None; split; [done|]; by (intros q; apply too_long)|].
  destruct (_ || _); [|apply zend_memnstr_ex_ok; done || lia].
  destruct (zget_is_Some N (zlen N - 1)) as [ne Hne]; [lia|]. rewrite (rd_ok _ _ _ Hne). cbn [mbind res_bind].
  apply memnstr_loop_ok; try done; [lia|unfold search_fuel, zlen in *; lia|]. by intros q [? _].
Qed.

Lemma zend_memnstr_correct_witness :
  let H := [98; 97; 110; 97; 110; 97] in
  let N := [97; 110; 97] in
  zend_memnstr H N = Ok (Some 1)
  /\ first_of (fun p => 0 <= p /\ p + zlen N <= zlen H /\ slice H p (zlen N) = N) (Some 1).
Proof.
  intros H N. destruct (zend_memnstr_correct H N) as (r & Hr & Hf); [byte_literal..|vm_compute; reflexivity|].
  assert (Hr' := Hr). vm_compute in Hr'. injection Hr' as <-. done.
Defined.

(** zend_memnrstr returns the last position at which the needle occurs, and NULL if
    there is none; the empty needle occurs last at the end. *)
Theorem zend_memnrstr_correct H N : Forall is_byte H -> Forall is_byte N -> zlen N < 2 ^ 31 ->
  exists r, zend_memnrstr H N = Ok r /\ last_of (fun p => 0 <= p /\ p + zlen N <= zlen H /\ slice H p (zlen N) = N) r.
Proof.
  intros HH HN Hn. pose proof (zlen_nonneg N) as Hpos.
  cut (exists r, zend_memnrstr H N = Ok r /\ last_of (occurs id H N) r).
  { intros (r & Hr & Hf). exists r. split; [done|]. destruct r; cbn in *; setoid_rewrite <- occurs_id; done. }
  unfold zend_memnrstr. destruct (Z.eqb_spec (zlen N) 0) as [H0|H0].
  { apply zlen_0_inv in H0 as ->. exists (Some (zlen H)). split; [done|]. cbn. rewrite occurs_nil.
    pose proof (zlen_nonneg H). split; [lia|]. intros q Hq%occurs_nil. lia. }
  destruct (Z.eqb_spec (zlen N) 1) as [H1|H1].
  { destruct (zlen_1_inv N H1) as [c ->]. rewrite (rd_ok _ _ c) by done. cbn [mbind res_bind]. unfold zend_memrchr.
    destruct (memrchr_ok H 0 c (zlen H)) as (r & -> & Hr); [lia|apply zlen_nonneg|lia|]. exists r. split; [done|].
    destruct r as [p|]; cbn.
    - destruct Hr as (? & Hp & Hk). split; [apply occurs_one; by exists c|]. intros q (b & Hb & E)%occurs_one. cbn in E. subst b.
      destruct (Z_lt_le_dec p q); [|done]. apply zget_Some_range in Hb as ?. exfalso. apply (Hk q); [lia|done].
    - intros q (b & Hb & E)%occurs_one. cbn in E. subst b. apply zget_Some_range in Hb as ?. apply (Hr q); [lia|done]. }
  destruct (Z.ltb_spec (zlen H) (zlen N)); [exists None; split; [done|]; by (intros q; apply too_long)|].
  destruct (_ || _); [|apply zend_memnrstr_ex_ok; done || lia].
  destruct (zget_is_Some N (zlen N - 1)) as [ne Hne]; [lia|]. rewrite (rd_ok _ _ _ Hne). cbn [mbind res_bind].
  apply memnrstr_loop_ok; try done; [lia|lia|unfold search_fuel, zlen in *; lia|]. intros q (? & ? & _). lia.
Qed.

Lemma zend_memnrstr_correct_witness :
  let H := [98; 97; 110; 97; 110; 97] in
  let N := [97; 110; 97] in
  zend_memnrstr H N = Ok (Some 3)
  /\ last_of (fun p => 0 <= p /\ p + zlen N <= zlen H /\ slice H p (zlen N) = N) (Some 3).
Proof.
  intros H N. destruct (zend_memnrstr_correct H N) as (r & Hr & Hf); [byte_literal..|vm_compute; reflexivity|].
  assert (Hr' := Hr). vm_compute in Hr'. injection Hr' as <-. done.
Defined.

(** The search for the upper-case form, which is made only if there are two forms. *)
Lemma upper_search H a hi : 0 <= hi <= zlen H ->
  exists u, (if negb (low a =? up a) then memchr H 0 (up a) hi else Ok None) = Ok u
            /\ upper_next H (low a) (up a) 0 hi u.
Proof.
  intros Hhi. destruct (Z.eqb_spec (low a) (up a)); cbn [negb]; [exists None; split; [done|by left]|].
  destruct (memchr_next H 0 (up a) hi) as (u & -> & Hu); [lia..|]. exists u. split; [done|by right].
Qed.

(** A needle of one byte: the nearer one of the two forms. *)
Lemma memnistr_one H a l u : Forall is_byte H -> is_byte a -> next_at H (low a) 0 (zlen H) l ->
  upper_next H (low a) (up a) 0 (match l with Some l => l | None => zlen H end) u ->
  first_of (occurs low H [a]) (nearer l u).
Proof.
  intros HH Ha Hl Hu.
  assert (Hcand : forall q, occurs low H [a] q <-> candidate H (low a) (up a) q).
  { intros q. rewrite occurs_one. unfold candidate. split.
    - intros (b & Hb & E). rewrite Hb. apply same_letter in E; [|done|by apply (zget_byte _ _ _ HH Hb)].
      destruct E as [<-|<-]; auto.
    - intros [E|E]; (eexists; split; [exact E|]); (apply same_letter; [done|by apply (zget_byte _ _ _ HH E)|tauto]). }
  pose proof (nearer_ok H (low a) (up a) 0 (zlen H) l u Hl) as Hne.
  assert (Hu' : upper_next H (low a) (up a) 0 (match l with Some q => Z.min q (zlen H) | None => zlen H end) u).
  { revert Hu. apply upper_next_weaken. destruct l; lia. }
  specialize (Hne Hu'). destruct (nearer l u) as [p|]; cbn.
  - destruct Hne as (_ & Hc & Hno & _). split; [by apply Hcand|]. intros q Hq%Hcand.
    destruct (Z_lt_le_dec q p); [|done]. exfalso. apply (Hno q); [|done].
    destruct Hq as [?%zget_Some_range|?%zget_Some_range]; lia.
  - intros q Hq%Hcand. apply Hne with q; [|done]. destruct Hq as [?%zget_Some_range|?%zget_Some_range]; lia.
Qed.

(** zend_memnistr returns the first position at which the needle occurs up to the
    case of ASCII letters, and NULL if there is none, although it follows the
    occurrences of the lower-case and of the upper-case form of the first byte
    separately. *)
Theorem zend_memnistr_correct H N : Forall is_byte H -> Forall is_byte N ->
  exists r, zend_memnistr H N = Ok r /\
  first_of (fun p => 0 <= p /\ p + zlen N <= zlen H /\
                     map zend_tolower_ascii (slice H p (zlen N)) = map zend_tolower_ascii N) r.
Proof.
  intros HH HN. pose proof (zlen_nonneg N) as Hpos. pose proof (zlen_nonneg H) as Hposh.
  change (exists r, zend_memnistr H N = Ok r /\ first_of (occurs low H N) r).
  unfold zend_memnistr. destruct (Z.eqb_spec (zlen N) 0) as [H0|H0].
  { apply zlen_0_inv in H0 as ->. exists (Some 0). split; [done|]. cbn. rewrite occurs_nil.
    split; [lia|]. intros q Hq%occurs_nil. lia. }
  destruct (Z.ltb_spec (zlen H) (zlen N)); [exists None; split; [done|]; by (intros q; apply too_long)|].
  destruct (zget_is_Some N 0) as [a Ha]; [lia|]. rewrite (rd_ok _ _ _ Ha). cbn [mbind res_bind].
  destruct (memchr_next H 0 (low a) (zlen H)) as (l & -> & Hl); [lia..|]. cbn [mbind res_bind].
  rewrite Z.add_0_l in Hl. destruct (Z.eqb_spec (zlen N) 1) as [Hone|Hone].
  - destruct (upper_search H a (match l with Some l => l | None => zlen H end)) as (u & -> & Hu).
    { destruct l as [l|]; [|lia]. destruct Hl as (? & ?%zget_Some_range & _). lia. }
    exists (nearer l u). split; [done|]. destruct (zlen_1_inv N Hone) as [a' ->]. injection Ha as ->.
    apply memnistr_one; try done. by inversion HN.
  - destruct (upper_search H a (zlen H)) as (u & -> & Hu); [lia|].
    apply (memnistr_loop_ok _ H N a 0); try done; [lia|unfold search_fuel, zlen in *; lia| | |].
    + revert Hl. apply next_at_weaken. lia.
    + revert Hu. apply upper_next_weaken. lia.
    + by intros q [? _].
Qed.

Lemma zend_memnistr_correct_witness :
  let H := [98; 65; 110; 65; 78; 97] in
  let N := [97; 78; 65] in
  zend_memnistr H N = Ok (Some 1)
  /\ first_of (fun p => 0 <= p /\ p + zlen N <= zlen H /\
                        map zend_tolower_ascii (slice H p (zlen N)) = map zend_tolower_ascii N) (Some 1).
Proof.
  intros H N. destruct (zend_memnistr_correct H N) as (r & Hr & Hf); [byte_literal..|].
  assert (Hr' := Hr). vm_compute in Hr'. injection Hr' as <-. done.
Defined.
