(* ===== verification/OrderedMap.v ===== *)
(** * Ordered maps: what a hash table promises

    A PHP array is a finite map that remembers insertion order. The abstract
    state is the list of its entries; an update keeps the place of the key, an
    insertion goes to the end, a deletion keeps the order of the others. *)

From S2P Require Import Prelude.

Section OMap.
Context {K V : Type} `{EqDecision K}.
Implicit Types (l : list (K * V)) (k : K) (v : V).

Definition okeys l : list K := fst <$> l.

Fixpoint olookup k l : option V :=
  match l with
  | [] => None
  | (k', v) :: l => if decide (k = k') then Some v else olookup k l
  end.

(** Replaces the value of [k], if [k] is there. *)
Definition oreplace k v l : list (K * V) :=
  (fun e => if decide (e.1 = k) then (k, v) else e) <$> l.

Definition oinsert k v l : list (K * V) :=
  if decide (k ∈ okeys l) then oreplace k v l else l ++ [(k, v)].

Definition odelete k l : list (K * V) := filter (fun e => e.1 <> k) l.

Lemma okeys_app l1 l2 : okeys (l1 ++ l2) = okeys l1 ++ okeys l2.
Proof. apply fmap_app. Qed.

Lemma olookup_None k l : olookup k l = None <-> (k ∉ okeys l).
Proof.
  induction l as [|[k' v] l IH]; simpl; [set_solver|].
  change (okeys ((k', v) :: l)) with (k' :: okeys l).
  rewrite not_elem_of_cons. case_decide; [|tauto].
  split; [done|]. intros []; done.
Qed.

Lemma olookup_app k l1 l2 :
  olookup k (l1 ++ l2) = match olookup k l1 with Some v => Some v | None => olookup k l2 end.
Proof. induction l1 as [|[k' v] l1 IH]; simpl; [done|]. by case_decide. Qed.

Lemma olookup_middle k v l1 l2 :
  k ∉ okeys l1 -> olookup k (l1 ++ (k, v) :: l2) = Some v.
Proof.
  intros H%olookup_None. rewrite olookup_app, H. simpl. by rewrite decide_True.
Qed.

Lemma oreplace_app k v l1 l2 : oreplace k v (l1 ++ l2) = oreplace k v l1 ++ oreplace k v l2.
Proof. apply fmap_app. Qed.

Lemma oreplace_id k v l : k ∉ okeys l -> oreplace k v l = l.
Proof.
  induction l as [|[k' v'] l IH]; simpl; [done|].
  rewrite not_elem_of_cons. intros [Hne Hl].
  rewrite decide_False by congruence. f_equal. by apply IH.
Qed.

Lemma odelete_app k l1 l2 : odelete k (l1 ++ l2) = odelete k l1 ++ odelete k l2.
Proof. apply filter_app. Qed.

Lemma odelete_id k l : k ∉ okeys l -> odelete k l = l.
Proof.
  intros H. unfold odelete. induction l as [|e l IH]; [done|].
  unfold okeys in H. rewrite fmap_cons, not_elem_of_cons in H.
  destruct H as [Hne Hl]. rewrite filter_cons_True by congruence. f_equal. by apply IH.
Qed.

Lemma NoDup_middle k v l1 l2 :
  NoDup (okeys (l1 ++ (k, v) :: l2)) <->
  (k ∉ okeys l1) /\ (k ∉ okeys l2) /\ NoDup (okeys (l1 ++ l2)).
Proof.
  rewrite !okeys_app. change (okeys ((k, v) :: l2)) with (k :: okeys l2).
  rewrite <- Permutation_middle, NoDup_cons, not_elem_of_app. intuition auto.
Qed.

(** The three operations on an entry in the middle of the list. *)
Lemma oinsert_middle k v v' l1 l2 :
  NoDup (okeys (l1 ++ (k, v) :: l2)) ->
  oinsert k v' (l1 ++ (k, v) :: l2) = l1 ++ (k, v') :: l2.
Proof.
  intros (H1 & H2 & _)%NoDup_middle. unfold oinsert. rewrite decide_True.
  - rewrite oreplace_app. cbn. rewrite decide_True by done.
    f_equal; [|f_equal]; by apply oreplace_id.
  - rewrite okeys_app. cbn. set_solver.
Qed.

Lemma odelete_middle k v l1 l2 :
  NoDup (okeys (l1 ++ (k, v) :: l2)) -> odelete k (l1 ++ (k, v) :: l2) = l1 ++ l2.
Proof.
  intros (H1 & H2 & _)%NoDup_middle. rewrite odelete_app. f_equal; [by apply odelete_id|].
  unfold odelete. rewrite filter_cons_False by (cbn; tauto). by apply odelete_id.
Qed.

Lemma oinsert_fresh k v l : k ∉ okeys l -> oinsert k v l = l ++ [(k, v)].
Proof. intros. unfold oinsert. by rewrite decide_False. Qed.

Lemma okeys_oinsert k v l : k ∈ okeys l -> okeys (oinsert k v l) = okeys l.
Proof.
  intros H. unfold oinsert. rewrite decide_True by done. clear H.
  induction l as [|[k' v'] l IH]; [done|]. cbn in *. case_decide; subst; f_equal; apply IH.
Qed.

Lemma NoDup_oinsert k v l : NoDup (okeys l) -> NoDup (okeys (oinsert k v l)).
Proof.
  intros H. destruct (decide (k ∈ okeys l)).
  - by rewrite okeys_oinsert.
  - rewrite oinsert_fresh, okeys_app by done. apply NoDup_app. cbn.
    split_and!; [done| set_solver | apply NoDup_singleton].
Qed.

Lemma NoDup_odelete k l : NoDup (okeys l) -> NoDup (okeys (odelete k l)).
Proof.
  unfold okeys, odelete. induction l as [|e l IH]; [done|].
  rewrite fmap_cons, NoDup_cons. intros [H1 H2]. rewrite filter_cons. case_decide.
  - rewrite fmap_cons. constructor; [|auto]. intros (x & Hk & Hx)%list_elem_of_fmap.
    apply H1, list_elem_of_fmap. exists x. split; [done|].
    by apply list_elem_of_filter in Hx as [_ ?].
  - auto.
Qed.

(** The laws of a map. *)
Lemma olookup_oinsert_eq k v l : olookup k (oinsert k v l) = Some v.
Proof.
  unfold oinsert. case_decide as H.
  - induction l as [|[k' v'] l IH]; [set_solver|]. cbn in *.
    case_decide as H1; subst; cbn; [by rewrite decide_True|].
    rewrite decide_False by done. apply IH. set_solver.
  - rewrite olookup_app, (proj2 (olookup_None k l)) by done. cbn. by rewrite decide_True.
Qed.

Lemma olookup_oinsert_ne k k' v l : k <> k' -> olookup k (oinsert k' v l) = olookup k l.
Proof.
  intros Hne. unfold oinsert. case_decide as H.
  - clear H. induction l as [|[k2 v2] l IH]; [done|]. cbn.
    case_decide; subst; cbn; rewrite ?decide_False by done; [apply IH|].
    by case_decide.
  - rewrite olookup_app. cbn. rewrite decide_False by done. by destruct (olookup k l).
Qed.

Lemma olookup_odelete k k' l :
  olookup k (odelete k' l) = if decide (k = k') then None else olookup k l.
Proof.
  unfold odelete. induction l as [|[k2 v2] l IH]; [cbn; by case_decide|].
  rewrite filter_cons. cbn [fst]. destruct (decide (k2 <> k')) as [Hne|Heq].
  - cbn [olookup]. rewrite IH. repeat case_decide; congruence.
  - cbn [olookup]. rewrite IH. apply dec_stable in Heq. subst.
    repeat case_decide; congruence.
Qed.
End OMap.
