(* ===== verification/HashTypes.v ===== *)
(** * The data of the hash table (Zend/zend_types.h, Zend/zend_hash.h)

    Values, buckets, the table, the global iterator list, and the macros that
    address the hash part. Pointers to strings are integers; the environment
    says what they point to. *)

From S2P Require Import Prelude.
From S2P Require Import ZendString.

(** ** Values

    zend_hash.c distinguishes undefined slots, indirections to another slot,
    references, null and everything else. [ZVal t p] is a value of type [t]
    with payload [p]. *)
Inductive zval : Type :=
| IS_UNDEF
| IS_NULL
| IS_INDIRECT (p : Z)
| IS_REFERENCE (r : Z)
| ZVal (t p : Z).

#[export] Instance zval_eq_dec : EqDecision zval.
Proof. solve_decision. Defined.

Definition is_undef (v : zval) : bool :=
  match v with IS_UNDEF => true | _ => false end.

(** A bucket: [b_next] is the collision link [Z_NEXT(val)], kept in the [u2]
    member of the value and not copied by ZVAL_COPY_VALUE. *)
Record Bucket : Type := mkBucket {
  b_val : zval;
  b_next : Z;
  b_h : Z;
  b_key : option Z;
}.

#[export] Instance Bucket_eq_dec : EqDecision Bucket.
Proof. solve_decision. Defined.

Definition with_val (v : zval) (b : Bucket) : Bucket :=
  mkBucket v (b_next b) (b_h b) (b_key b).
Definition with_next (n : Z) (b : Bucket) : Bucket :=
  mkBucket (b_val b) n (b_h b) (b_key b).
Definition with_key (k : option Z) (b : Bucket) : Bucket :=
  mkBucket (b_val b) (b_next b) (b_h b) k.
Definition with_hkey (h : Z) (k : option Z) (b : Bucket) : Bucket :=
  mkBucket (b_val b) (b_next b) h k.

(** ** The environment of a table

    [ZSTR_VAL] is the contents of the string a pointer designates,
    [ZSTR_IS_INTERNED] its interned flag, [zend_string_init] the pointer the
    allocator returns for a copy of some bytes, [garbage] and [garbage_zv] the
    contents of freshly allocated memory. The law is what zend_string_init
    documents: the new string holds the bytes it was given and is not interned. *)
Class ZendEnv : Type := {
  ZSTR_VAL : Z -> list Z;
  ZSTR_IS_INTERNED : Z -> bool;
  zend_string_init : list Z -> Z;
  garbage : Bucket;
  garbage_zv : zval;
  zend_string_init_val : forall s, ZSTR_VAL (zend_string_init s) = s;
  zend_string_init_fresh : forall s, ZSTR_IS_INTERNED (zend_string_init s) = false;
}.

Definition ZSTR_H {E : ZendEnv} (key : Z) : Z := zend_inline_hash_func (ZSTR_VAL key).

(** zend_string_equal_content, zend_string_equals_cstr *)
Definition bytes_eqb (a b : list Z) : bool := bool_decide (a = b).

(** ** The table *)
Record HashTable : Type := mkHT {
  ht_addr : Z;               (* address of the struct *)
  ht_immutable : bool;       (* GC_FLAGS & IS_ARRAY_IMMUTABLE *)
  f_packed : bool;           (* HASH_FLAG_PACKED *)
  f_uninit : bool;           (* HASH_FLAG_UNINITIALIZED *)
  f_static : bool;           (* HASH_FLAG_STATIC_KEYS *)
  f_empty_ind : bool;        (* HASH_FLAG_HAS_EMPTY_IND *)
  nIteratorsCount : Z;
  nTableMask : Z;
  arHash : list Z;           (* the uint32_t words below arData *)
  arData : list Bucket;      (* union: buckets of a hash *)
  arPacked : list zval;      (* union: values of a packed array *)
  nNumUsed : Z;
  nNumOfElements : Z;
  nTableSize : Z;
  nInternalPointer : Z;
  nNextFreeElement : Z;
  pDestructor : bool;        (* a destructor is set *)
}.

Definition set_flags (packed uninit static empty_ind : bool) (t : HashTable) : HashTable :=
  mkHT (ht_addr t) (ht_immutable t) packed uninit static empty_ind
    (nIteratorsCount t) (nTableMask t) (arHash t) (arData t) (arPacked t)
    (nNumUsed t) (nNumOfElements t) (nTableSize t) (nInternalPointer t)
    (nNextFreeElement t) (pDestructor t).
Definition set_static (b : bool) (t : HashTable) : HashTable :=
  set_flags (f_packed t) (f_uninit t) b (f_empty_ind t) t.
Definition set_empty_ind (b : bool) (t : HashTable) : HashTable :=
  set_flags (f_packed t) (f_uninit t) (f_static t) b t.
Definition set_iters (n : Z) (t : HashTable) : HashTable :=
  mkHT (ht_addr t) (ht_immutable t) (f_packed t) (f_uninit t) (f_static t) (f_empty_ind t)
    n (nTableMask t) (arHash t) (arData t) (arPacked t)
    (nNumUsed t) (nNumOfElements t) (nTableSize t) (nInternalPointer t)
    (nNextFreeElement t) (pDestructor t).
(** The allocation: mask, hash part and data part. *)
Definition set_alloc (mask : Z) (H : list Z) (D : list Bucket) (P : list zval)
    (t : HashTable) : HashTable :=
  mkHT (ht_addr t) (ht_immutable t) (f_packed t) (f_uninit t) (f_static t) (f_empty_ind t)
    (nIteratorsCount t) mask H D P
    (nNumUsed t) (nNumOfElements t) (nTableSize t) (nInternalPointer t)
    (nNextFreeElement t) (pDestructor t).
Definition set_arHash (H : list Z) (t : HashTable) : HashTable :=
  set_alloc (nTableMask t) H (arData t) (arPacked t) t.
Definition set_arData (D : list Bucket) (t : HashTable) : HashTable :=
  set_alloc (nTableMask t) (arHash t) D (arPacked t) t.
Definition set_arPacked (P : list zval) (t : HashTable) : HashTable :=
  set_alloc (nTableMask t) (arHash t) (arData t) P t.
(** The counters. *)
Definition set_counts (used elems size iptr nfree : Z) (t : HashTable) : HashTable :=
  mkHT (ht_addr t) (ht_immutable t) (f_packed t) (f_uninit t) (f_static t) (f_empty_ind t)
    (nIteratorsCount t) (nTableMask t) (arHash t) (arData t) (arPacked t)
    used elems size iptr nfree (pDestructor t).
Definition set_nNumUsed (n : Z) (t : HashTable) : HashTable :=
  set_counts n (nNumOfElements t) (nTableSize t) (nInternalPointer t) (nNextFreeElement t) t.
Definition set_nNumOfElements (n : Z) (t : HashTable) : HashTable :=
  set_counts (nNumUsed t) n (nTableSize t) (nInternalPointer t) (nNextFreeElement t) t.
Definition set_nTableSize (n : Z) (t : HashTable) : HashTable :=
  set_counts (nNumUsed t) (nNumOfElements t) n (nInternalPointer t) (nNextFreeElement t) t.
Definition set_nInternalPointer (n : Z) (t : HashTable) : HashTable :=
  set_counts (nNumUsed t) (nNumOfElements t) (nTableSize t) n (nNextFreeElement t) t.
Definition set_nNextFreeElement (n : Z) (t : HashTable) : HashTable :=
  set_counts (nNumUsed t) (nNumOfElements t) (nTableSize t) (nInternalPointer t) n t.

(** ** What is outside the table

    [EvDtor] is a call of pDestructor; [EvAddref], [EvRelease] and [EvDelref] are
    calls of zend_string_addref, zend_string_release and zend_string_delref on a
    key. A destructor is an event: code that it runs is not modelled. *)
Inductive event : Type :=
| EvDtor (v : zval)
| EvAddref (key : Z)
| EvRelease (key : Z)
| EvDelref (key : Z).

(** HashTableIterator: [it_ht] is 0 for NULL and -1 for HT_POISONED_PTR. *)
Record HashTableIterator : Type := mkIter { it_ht : Z; it_pos : Z }.

Definition HT_POISONED_PTR : Z := -1.

Record world : Type := mkWorld {
  w_ind : gmap Z zval;                  (* the slots IS_INDIRECT points to *)
  ht_iterators : list HashTableIterator; (* EG(ht_iterators), ht_iterators_count long *)
  ht_iterators_used : Z;
  w_trace : list event;
}.

Definition set_iterators (l : list HashTableIterator) (w : world) : world :=
  mkWorld (w_ind w) l (ht_iterators_used w) (w_trace w).
Definition set_iterators_used (n : Z) (w : world) : world :=
  mkWorld (w_ind w) (ht_iterators w) n (w_trace w).
Definition set_ind (m : gmap Z zval) (w : world) : world :=
  mkWorld m (ht_iterators w) (ht_iterators_used w) (w_trace w).
Definition log (e : event) (w : world) : world :=
  mkWorld (w_ind w) (ht_iterators w) (ht_iterators_used w) (w_trace w ++ [e]).

(** [if (ht->pDestructor) ht->pDestructor(v)] *)
Definition run_dtor (ht : HashTable) (v : zval) (w : world) : world :=
  if pDestructor ht then log (EvDtor v) w else w.

(** ** Constants and macros (64-bit) *)

Definition HT_INVALID_IDX : Z := 2 ^ 32 - 1.
Definition HT_MIN_MASK : Z := 2 ^ 32 - 2.
Definition HT_MIN_SIZE : Z := 8.
Definition HT_MAX_SIZE : Z := 0x40000000.

Definition HT_SIZE_TO_MASK (n : Z) : Z := u32 (- (n + n)).
(** Number of words of the hash part, HT_HASH_SIZE / sizeof(uint32_t). *)
Definition HT_HASH_WORDS (mask : Z) : Z := u32 (- mask).

(** [h | ht->nTableMask] stored in a uint32_t. *)
Definition nIndex_of (ht : HashTable) (h : Z) : Z := u32 (Z.lor h (nTableMask ht)).

(** Position in [arHash] of [HT_HASH(ht, idx)], the word at the negative
    offset [(int32_t) idx] from arData. *)
Definition hash_pos (ht : HashTable) (idx : Z) : Z := zlen (arHash ht) + i32 idx.
Definition HT_HASH (ht : HashTable) (idx : Z) : res Z := rd (arHash ht) (hash_pos ht idx).
Definition HT_HASH_set (ht : HashTable) (idx v : Z) : res HashTable :=
  H ← wr (arHash ht) (hash_pos ht idx) v; Ok (set_arHash H ht).

Definition HT_HASH_RESET (ht : HashTable) : HashTable :=
  set_arHash (replicate (Z.to_nat (HT_HASH_WORDS (nTableMask ht))) HT_INVALID_IDX) ht.
Definition HT_HASH_RESET_PACKED (ht : HashTable) : HashTable :=
  set_arHash [HT_INVALID_IDX; HT_INVALID_IDX] ht.

Definition HT_IS_WITHOUT_HOLES (ht : HashTable) : bool := nNumUsed ht =? nNumOfElements ht.
Definition HT_HAS_STATIC_KEYS_ONLY (ht : HashTable) : bool := f_packed ht || f_static ht.
Definition HT_ITERATORS_OVERFLOW (ht : HashTable) : bool := nIteratorsCount ht =? 0xff.
Definition HT_HAS_ITERATORS (ht : HashTable) : bool := negb (nIteratorsCount ht =? 0).

Definition HASH_UPDATE : Z := 1.
Definition HASH_ADD : Z := 2.
Definition HASH_UPDATE_INDIRECT : Z := 4.
Definition HASH_ADD_NEW : Z := 8.
Definition HASH_ADD_NEXT : Z := 16.
Definition HASH_LOOKUP : Z := 32.
Definition has_flag (flag f : Z) : bool := negb (Z.land flag f =? 0).

(** ** Pointers to values *)
Inductive zptr : Type :=
| PData (i : Z)      (* &ht->arData[i].val *)
| PPacked (i : Z)    (* &ht->arPacked[i] *)
| PInd (p : Z).      (* a slot outside the table *)

Inductive zend_result : Type := SUCCESS | FAILURE.

(** ** The abstract view: an ordered map from keys to values *)
Inductive hkey : Type := KInt (h : Z) | KStr (s : list Z).

#[export] Instance hkey_eq_dec : EqDecision hkey.
Proof. solve_decision. Defined.

Section View.
Context {E : ZendEnv}.

Definition live (b : Bucket) : bool := negb (is_undef (b_val b)).

(** What a live bucket stores: value, hash and key, without the link. *)
Definition core : Type := (zval * Z * option Z)%type.
Definition bcore (b : Bucket) : option core :=
  if live b then Some (b_val b, b_h b, b_key b) else None.
Definition pcore_at (i : nat) (v : zval) : option core :=
  if is_undef v then None else Some (v, Z.of_nat i, None).

Definition ckey (c : core) : hkey :=
  match c.2 with None => KInt c.1.2 | Some k => KStr (ZSTR_VAL k) end.
Definition centry (c : core) : hkey * zval := (ckey c, c.1.1).

Definition cores (D : list Bucket) : list core := omap bcore D.
Definition pcores (P : list zval) : list core := omap id (imap pcore_at P).

(** The live entries of a table in iteration order. *)
Definition ht_cores (ht : HashTable) : list core :=
  if f_packed ht then pcores (take (Z.to_nat (nNumUsed ht)) (arPacked ht))
  else cores (take (Z.to_nat (nNumUsed ht)) (arData ht)).
Definition ht_elements (ht : HashTable) : list (hkey * zval) := centry <$> ht_cores ht.
End View.
