(* ===== verification/HashOps.v ===== *)
(** * Operations of the hash table, part 1 (Zend/zend_hash.c)

    Initialisation, growth, conversion between the packed and the hash layout,
    rehashing, lookup, insertion and deletion. One definition per C function;
    the build is the 64-bit release build (ZEND_DEBUG = 0). *)

From S2P Require Import Prelude.
From S2P Require Import ZendString.
From S2P Require Import HashTypes.

Section Ops.
Context {E : ZendEnv}.

(** ** Sizes and initialisation *)

(** The portable branch of zend_hash_check_size. *)
Definition zend_hash_check_size (nSize : Z) : res Z :=
  if nSize <=? HT_MIN_SIZE then Ok HT_MIN_SIZE
  else if HT_MAX_SIZE <=? nSize then Fatal
  else
    let n := nSize - 1 in
    let n := Z.lor n (Z.shiftr n 1) in
    let n := Z.lor n (Z.shiftr n 2) in
    let n := Z.lor n (Z.shiftr n 4) in
    let n := Z.lor n (Z.shiftr n 8) in
    let n := Z.lor n (Z.shiftr n 16) in
    Ok (n + 1).

Definition alloc_hash (mask : Z) : list Z := replicate (Z.to_nat (HT_HASH_WORDS mask)) 0.
Definition alloc_buckets (n : Z) : list Bucket := replicate (Z.to_nat n) garbage.
Definition alloc_packed (n : Z) : list zval := replicate (Z.to_nat n) garbage_zv.

(** memcpy / realloc of the first [n] cells into a larger block. *)
Definition copy_used {A} (n : Z) (src dst : list A) : list A :=
  take (Z.to_nat n) src ++ drop (Z.to_nat n) dst.

Definition zend_hash_real_init_packed_ex (ht : HashTable) : HashTable :=
  let ht := set_alloc (nTableMask ht) (alloc_hash (nTableMask ht)) []
              (alloc_packed (nTableSize ht)) ht in
  HT_HASH_RESET_PACKED (set_flags true false true false ht).

(** For a table of HT_MIN_SIZE only the flag byte is written; for any other
    size the whole flag word is, the iterator count included. *)
Definition zend_hash_real_init_mixed_ex (ht : HashTable) : HashTable :=
  let nSize := nTableSize ht in
  let mask := HT_SIZE_TO_MASK nSize in
  let ht' := set_alloc mask (alloc_hash mask) (alloc_buckets nSize) [] ht in
  if nSize =? HT_MIN_SIZE then
    set_arHash (replicate 16 HT_INVALID_IDX) (set_flags false false true false ht')
  else
    HT_HASH_RESET (set_iters 0 (set_flags false false true false ht')).

Definition zend_hash_real_init_mixed : HashTable -> HashTable := zend_hash_real_init_mixed_ex.
Definition zend_hash_real_init_packed : HashTable -> HashTable := zend_hash_real_init_packed_ex.
Definition zend_hash_real_init_ex (ht : HashTable) (packed : bool) : res HashTable :=
  _ ← assert_ (f_uninit ht);
  Ok (if packed then zend_hash_real_init_packed_ex ht else zend_hash_real_init_mixed_ex ht).
Definition zend_hash_real_init : HashTable -> bool -> res HashTable := zend_hash_real_init_ex.

Definition _zend_hash_init_int (addr nSize : Z) (dtor : bool) : res HashTable :=
  size ← zend_hash_check_size nSize;
  Ok (mkHT addr false false true false false 0 HT_MIN_MASK
        [HT_INVALID_IDX; HT_INVALID_IDX] [] [] 0 0 size 0 ZEND_LONG_MIN dtor).

Definition _zend_hash_init (addr nSize : Z) (dtor : bool) : res HashTable := _zend_hash_init_int addr nSize dtor.
Definition _zend_new_array_0 (addr : Z) : res HashTable := _zend_hash_init_int addr HT_MIN_SIZE true.
Definition _zend_new_array (addr nSize : Z) : res HashTable := _zend_hash_init_int addr nSize true.

Definition zend_new_pair (addr : Z) (val1 val2 : zval) : res HashTable :=
  ht ← _zend_hash_init_int addr HT_MIN_SIZE true;
  let ht := set_counts 2 2 (nTableSize ht) (nInternalPointer ht) 2 ht in
  let ht := zend_hash_real_init_packed_ex ht in
  P ← wr (arPacked ht) 0 val1;
  P ← wr P 1 val2;
  Ok (set_arPacked P ht).

Definition zend_hash_packed_grow (ht : HashTable) : res HashTable :=
  if HT_MAX_SIZE <=? nTableSize ht then Fatal
  else
    let newTableSize := nTableSize ht * 2 in
    Ok (set_nTableSize newTableSize
          (set_arPacked (copy_used (nNumUsed ht) (arPacked ht) (alloc_packed newTableSize)) ht)).

(** ** Iterators over tables, EG(ht_iterators) *)

Definition for_iters (w : world) (f : HashTableIterator -> HashTableIterator) : world :=
  let n := Z.to_nat (ht_iterators_used w) in
  set_iterators (map f (take n (ht_iterators w)) ++ drop n (ht_iterators w)) w.

Definition _zend_hash_iterators_update (w : world) (ht : HashTable) (from to : Z) : world :=
  for_iters w (fun it =>
    if (it_ht it =? ht_addr ht) && (it_pos it =? from) then mkIter (it_ht it) to else it).

Definition zend_hash_iterators_update (w : world) (ht : HashTable) (from to : Z) : world :=
  if HT_HAS_ITERATORS ht then _zend_hash_iterators_update w ht from to else w.

Definition zend_hash_iterators_lower_pos (w : world) (ht : HashTable) (start : Z) : Z :=
  fold_left (fun r it =>
      if (it_ht it =? ht_addr ht) && (start <=? it_pos it) && (it_pos it <? r)
      then it_pos it else r)
    (take (Z.to_nat (ht_iterators_used w)) (ht_iterators w)) (nNumUsed ht).

Definition zend_hash_iterators_advance (w : world) (ht : HashTable) (step : Z) : world :=
  for_iters w (fun it =>
    if it_ht it =? ht_addr ht then mkIter (it_ht it) (u32 (it_pos it + step)) else it).

Definition _zend_hash_iterators_remove (w : world) (ht : HashTable) : world :=
  for_iters w (fun it =>
    if it_ht it =? ht_addr ht then mkIter HT_POISONED_PTR (it_pos it) else it).

Definition zend_hash_iterators_remove (w : world) (ht : HashTable) : world :=
  if HT_HAS_ITERATORS ht then _zend_hash_iterators_remove w ht else w.

(** ** Rehashing *)

(** [nIndex = p->h | mask; Z_NEXT(p->val) = HT_HASH(ht, nIndex);
    HT_HASH(ht, nIndex) = HT_IDX_TO_HASH(i);] for [p = arData + i]. *)
Definition ht_link (ht : HashTable) (i : Z) : res HashTable :=
  p ← rd (arData ht) i;
  let nIndex := nIndex_of ht (b_h p) in
  nx ← HT_HASH ht nIndex;
  D ← wr (arData ht) i (with_next nx p);
  HT_HASH_set (set_arData D ht) nIndex i.

(** The loop for a table without holes. *)
Fixpoint rehash_plain (fuel : nat) (ht : HashTable) (i : Z) : res HashTable :=
  match fuel with
  | O => Ub
  | S fuel =>
      ht ← ht_link ht i;
      if i + 1 <? nNumUsed ht then rehash_plain fuel ht (i + 1) else Ok ht
  end.

(** [do { zend_hash_iterators_update(ht, iter_pos, j);
          iter_pos = zend_hash_iterators_lower_pos(ht, iter_pos + 1);
        } while (iter_pos < i);] *)
Fixpoint rehash_iters (fuel : nat) (w : world) (ht : HashTable) (i j iter_pos : Z)
  : res (world * Z) :=
  match fuel with
  | O => Ub
  | S fuel =>
      let w := zend_hash_iterators_update w ht iter_pos j in
      let iter_pos := zend_hash_iterators_lower_pos w ht (iter_pos + 1) in
      if iter_pos <? i then rehash_iters fuel w ht i j iter_pos else Ok (w, iter_pos)
  end.

(** [while (++i < ht->nNumUsed)]: the bucket at [i] moves down to [j]. The two
    copies of the loop in the source, without and with iterators, differ by the
    iterator update only. *)
Fixpoint rehash_compact (fuel : nat) (w : world) (ht : HashTable) (i j iter_pos : Z)
  : res (world * HashTable * Z) :=
  match fuel with
  | O => Ub
  | S fuel =>
      let i := i + 1 in
      if i <? nNumUsed ht then
        p ← rd (arData ht) i;
        if is_undef (b_val p) then rehash_compact fuel w ht i j iter_pos
        else
          q ← rd (arData ht) j;
          D ← wr (arData ht) j (mkBucket (b_val p) (b_next q) (b_h p) (b_key p));
          ht ← ht_link (set_arData D ht) j;
          let ht := if nInternalPointer ht =? i then set_nInternalPointer j ht else ht in
          '(w, iter_pos) ←
            (if HT_HAS_ITERATORS ht && (iter_pos <=? i)
             then rehash_iters (S (Z.to_nat (nNumUsed ht))) w ht i j iter_pos
             else Ok (w, iter_pos));
          rehash_compact fuel w ht i (j + 1) iter_pos
      else Ok (w, ht, j)
  end.

(** The loop for a table with holes, up to the first hole. *)
Fixpoint rehash_holes (fuel : nat) (w : world) (ht : HashTable) (i : Z)
  : res (world * HashTable) :=
  match fuel with
  | O => Ub
  | S fuel' =>
      p ← rd (arData ht) i;
      if is_undef (b_val p) then
        let iter_pos := if HT_HAS_ITERATORS ht
                        then zend_hash_iterators_lower_pos w ht (i + 1) else 0 in
        '(w, ht, j) ← rehash_compact fuel w ht i i iter_pos;
        Ok (w, set_nNumUsed j ht)
      else
        ht ← ht_link ht i;
        if i + 1 <? nNumUsed ht then rehash_holes fuel' w ht (i + 1) else Ok (w, ht)
  end.

Definition zend_hash_rehash (w : world) (ht : HashTable) : res (world * HashTable) :=
  if nNumOfElements ht =? 0 then
    if f_uninit ht then Ok (w, ht)
    else Ok (w, HT_HASH_RESET (set_nNumUsed 0 ht))
  else
    let ht := HT_HASH_RESET ht in
    let fuel := S (Z.to_nat (nNumUsed ht)) in
    if HT_IS_WITHOUT_HOLES ht then
      ht ← rehash_plain fuel ht 0; Ok (w, ht)
    else
      let old_num_used := nNumUsed ht in
      '(w, ht) ← rehash_holes fuel w ht 0;
      if HT_HAS_ITERATORS ht
      then Ok (_zend_hash_iterators_update w ht old_num_used (nNumUsed ht), ht)
      else Ok (w, ht).

(** ** Layout changes and growth *)

Definition zend_hash_packed_to_hash (w : world) (ht : HashTable) : res (world * HashTable) :=
  let nSize := nTableSize ht in
  let mask := HT_SIZE_TO_MASK nSize in
  _ ← assert_ (negb (mask =? 0));
  _ ← assert_ ((nNumUsed ht <=? zlen (arPacked ht)) && (nNumUsed ht <=? nSize));
  let n := Z.to_nat (nNumUsed ht) in
  let D := imap (fun i v => mkBucket v (b_next garbage) (Z.of_nat i) None)
             (take n (arPacked ht)) ++ drop n (alloc_buckets nSize) in
  zend_hash_rehash w
    (set_alloc mask (alloc_hash mask) D []
       (set_flags false (f_uninit ht) (f_static ht) (f_empty_ind ht) ht)).

Definition zend_hash_to_packed (ht : HashTable) : res HashTable :=
  _ ← assert_ (nNumUsed ht <=? zlen (arData ht));
  let n := Z.to_nat (nNumUsed ht) in
  let P := (b_val <$> take n (arData ht)) ++ drop n (alloc_packed (nTableSize ht)) in
  Ok (HT_HASH_RESET_PACKED
        (set_alloc HT_MIN_MASK (alloc_hash HT_MIN_MASK) [] P
           (set_flags true (f_uninit ht) true (f_empty_ind ht) ht))).

(** Replaces the buckets by a block of [nSize] buckets and rehashes. *)
Definition ht_realloc (w : world) (ht : HashTable) (nSize : Z) : res (world * HashTable) :=
  let mask := HT_SIZE_TO_MASK nSize in
  zend_hash_rehash w
    (set_alloc mask (alloc_hash mask)
       (copy_used (nNumUsed ht) (arData ht) (alloc_buckets nSize)) []
       (set_nTableSize nSize ht)).

Definition zend_hash_do_resize (w : world) (ht : HashTable) : res (world * HashTable) :=
  _ ← assert_ (negb (f_packed ht));
  if nNumOfElements ht + Z.shiftr (nNumOfElements ht) 5 <? nNumUsed ht then
    zend_hash_rehash w ht
  else if nTableSize ht <? HT_MAX_SIZE then
    let nSize := nTableSize ht + nTableSize ht in
    _ ← assert_ (negb (HT_SIZE_TO_MASK nSize =? 0));
    ht_realloc w ht nSize
  else Fatal.

Definition ZEND_HASH_IF_FULL_DO_RESIZE (w : world) (ht : HashTable) : res (world * HashTable) :=
  if nTableSize ht <=? nNumUsed ht then zend_hash_do_resize w ht else Ok (w, ht).

Definition zend_hash_extend (w : world) (ht : HashTable) (nSize : Z) (packed : bool)
  : res (world * HashTable) :=
  if nSize =? 0 then Ok (w, ht)
  else
    _ ← assert_ (negb (HT_SIZE_TO_MASK nSize =? 0));
    if f_uninit ht then
      ht ← (if nTableSize ht <? nSize
            then n ← zend_hash_check_size nSize; Ok (set_nTableSize n ht) else Ok ht);
      ht ← zend_hash_real_init ht packed; Ok (w, ht)
    else if packed then
      _ ← assert_ (f_packed ht);
      if nTableSize ht <? nSize then
        n ← zend_hash_check_size nSize;
        Ok (w, set_nTableSize n
                 (set_arPacked (copy_used (nNumUsed ht) (arPacked ht) (alloc_packed n)) ht))
      else Ok (w, ht)
    else
      _ ← assert_ (negb (f_packed ht));
      if nTableSize ht <? nSize then
        n ← zend_hash_check_size nSize; ht_realloc w ht n
      else Ok (w, ht).

(** [while (p != end)] with [p] walking down from the old end. *)
Fixpoint discard_loop (fuel : nat) (ht : HashTable) (p endp : Z) : res HashTable :=
  if p =? endp then Ok ht
  else match fuel with
  | O => Ub
  | S fuel =>
      let p := p - 1 in
      b ← rd (arData ht) p;
      if is_undef (b_val b) then discard_loop fuel ht p endp
      else
        let ht := set_nNumOfElements (nNumOfElements ht - 1) ht in
        ht ← HT_HASH_set ht (nIndex_of ht (b_h b)) (b_next b);
        discard_loop fuel ht p endp
  end.

Definition zend_hash_discard (ht : HashTable) (n : Z) : res HashTable :=
  _ ← assert_ (negb (f_packed ht));
  let p := nNumUsed ht in
  discard_loop (Z.to_nat p) (set_nNumUsed n ht) p n.

(** ** Lookup *)

(** The walk along a collision chain, up to the first bucket that [match_]
    accepts. The result is the index of the bucket. *)
Fixpoint chain_find (fuel : nat) (D : list Bucket) (match_ : Bucket -> bool) (idx : Z)
  : res (option Z) :=
  match fuel with
  | O => Ub
  | S fuel =>
      if idx =? HT_INVALID_IDX then Ok None
      else
        p ← rd D idx;
        if match_ p then Ok (Some idx) else chain_find fuel D match_ (b_next p)
  end.

(** [p->key == key || (p->h == h && p->key && zend_string_equal_content(p->key, key))] *)
Definition match_key (key : Z) (p : Bucket) : bool :=
  match b_key p with
  | Some k => (k =? key) || ((b_h p =? ZSTR_H key) && bytes_eqb (ZSTR_VAL k) (ZSTR_VAL key))
  | None => false
  end.

(** [p->h == h && p->key && zend_string_equals_cstr(p->key, str, len)] *)
Definition match_str (str : list Z) (h : Z) (p : Bucket) : bool :=
  match b_key p with
  | Some k => (b_h p =? h) && bytes_eqb (ZSTR_VAL k) str
  | None => false
  end.

(** [p->h == h && !p->key] *)
Definition match_index (h : Z) (p : Bucket) : bool :=
  match b_key p with Some _ => false | None => b_h p =? h end.

Definition chain_fuel (ht : HashTable) : nat := S (S (length (arData ht))).

Definition zend_hash_find_bucket (ht : HashTable) (key : Z) : res (option Z) :=
  _ ← assert_ (negb (ZSTR_H key =? 0));
  idx ← HT_HASH ht (nIndex_of ht (ZSTR_H key));
  chain_find (chain_fuel ht) (arData ht) (match_key key) idx.

Definition zend_hash_str_find_bucket (ht : HashTable) (str : list Z) (h : Z) : res (option Z) :=
  idx ← HT_HASH ht (nIndex_of ht h);
  chain_find (chain_fuel ht) (arData ht) (match_str str h) idx.

Definition zend_hash_index_find_bucket (ht : HashTable) (h : Z) : res (option Z) :=
  idx ← HT_HASH ht (nIndex_of ht h);
  chain_find (chain_fuel ht) (arData ht) (match_index h) idx.

Definition zend_hash_find (ht : HashTable) (key : Z) : res (option zptr) :=
  p ← zend_hash_find_bucket ht key; Ok (option_map PData p).

Definition zend_hash_str_find (ht : HashTable) (str : list Z) : res (option zptr) :=
  p ← zend_hash_str_find_bucket ht str (zend_inline_hash_func str); Ok (option_map PData p).

Definition _zend_hash_index_find (ht : HashTable) (h : Z) : res (option zptr) :=
  _ ← assert_ (negb (f_packed ht));
  p ← zend_hash_index_find_bucket ht h; Ok (option_map PData p).

Definition zend_hash_index_find (ht : HashTable) (h : Z) : res (option zptr) :=
  if f_packed ht then
    if h <? nNumUsed ht then
      zv ← rd (arPacked ht) h;
      Ok (if is_undef zv then None else Some (PPacked h))
    else Ok None
  else
    p ← zend_hash_index_find_bucket ht h; Ok (option_map PData p).

(** Reading and writing through a pointer to a value. *)
Definition zptr_get (w : world) (ht : HashTable) (p : zptr) : res zval :=
  match p with
  | PData i => b ← rd (arData ht) i; Ok (b_val b)
  | PPacked i => rd (arPacked ht) i
  | PInd a => match w_ind w !! a with Some v => Ok v | None => Ub end
  end.

Definition zptr_set (w : world) (ht : HashTable) (p : zptr) (v : zval)
  : res (world * HashTable) :=
  match p with
  | PData i =>
      b ← rd (arData ht) i;
      D ← wr (arData ht) i (with_val v b); Ok (w, set_arData D ht)
  | PPacked i => P ← wr (arPacked ht) i v; Ok (w, set_arPacked P ht)
  | PInd a => match w_ind w !! a with
              | Some _ => Ok (set_ind (<[a := v]> (w_ind w)) w, ht)
              | None => Ub
              end
  end.

(** ** Insertion and update *)

(** The value that a new bucket receives. *)
Definition new_val (flag : Z) (pData : zval) : zval :=
  if has_flag flag HASH_LOOKUP then IS_NULL else pData.

(** Appends a bucket: [idx = ht->nNumUsed++], the bucket is filled and linked. *)
Definition ht_append (ht : HashTable) (h : Z) (key : option Z) (v : zval)
  : res (HashTable * option zptr) :=
  let idx := nNumUsed ht in
  let ht := set_nNumOfElements (nNumOfElements ht + 1) (set_nNumUsed (idx + 1) ht) in
  p ← rd (arData ht) idx;
  D ← wr (arData ht) idx (mkBucket v (b_next p) h key);
  ht ← ht_link (set_arData D ht) idx;
  Ok (ht, Some (PData idx)).

(** What both string insertions do with an existing bucket [i]. *)
Definition update_found (w : world) (ht : HashTable) (i : Z) (pData : zval) (flag : Z)
  : res (world * HashTable * option zptr) :=
  let store data :=
    old ← zptr_get w ht data;
    '(w, ht) ← zptr_set (run_dtor ht old w) ht data pData;
    Ok (w, ht, Some data) in
  if has_flag flag HASH_LOOKUP then Ok (w, ht, Some (PData i))
  else
    v ← zptr_get w ht (PData i);
    if has_flag flag HASH_ADD then
      if negb (has_flag flag HASH_UPDATE_INDIRECT) then Ok (w, ht, None)
      else match v with
      | IS_INDIRECT a =>
          d ← zptr_get w ht (PInd a);
          if negb (is_undef d) then Ok (w, ht, None) else store (PInd a)
      | _ => Ok (w, ht, None)
      end
    else match v with
    | IS_INDIRECT a =>
        if has_flag flag HASH_UPDATE_INDIRECT then store (PInd a) else store (PData i)
    | _ => store (PData i)
    end.

Definition add_to_hash (w : world) (ht : HashTable) (key : Z) (pData : zval) (flag : Z)
  : res (world * HashTable * option zptr) :=
  let '(w, ht) := if ZSTR_IS_INTERNED key then (w, ht)
                  else (log (EvAddref key) w, set_static false ht) in
  '(ht, r) ← ht_append ht (ZSTR_H key) (Some key) (new_val flag pData);
  Ok (w, ht, r).

Definition _zend_hash_add_or_update_i (w : world) (ht : HashTable) (key : Z) (pData : zval)
    (flag : Z) : res (world * HashTable * option zptr) :=
  if f_uninit ht then add_to_hash w (zend_hash_real_init_mixed ht) key pData flag
  else if f_packed ht then
    '(w, ht) ← zend_hash_packed_to_hash w ht;
    '(w, ht) ← ZEND_HASH_IF_FULL_DO_RESIZE w ht;
    add_to_hash w ht key pData flag
  else
    p ← (if has_flag flag HASH_ADD_NEW then Ok None else zend_hash_find_bucket ht key);
    match p with
    | Some i => update_found w ht i pData flag
    | None =>
        '(w, ht) ← ZEND_HASH_IF_FULL_DO_RESIZE w ht;
        add_to_hash w ht key pData flag
    end.

(** The bytes are copied into a new string that the table owns. *)
Definition str_add_to_hash (w : world) (ht : HashTable) (str : list Z) (h : Z)
    (pData : zval) (flag : Z) : res (world * HashTable * option zptr) :=
  '(ht, r) ← ht_append (set_static false ht) h (Some (zend_string_init str))
               (new_val flag pData);
  Ok (w, ht, r).

Definition _zend_hash_str_add_or_update_i (w : world) (ht : HashTable) (str : list Z) (h : Z)
    (pData : zval) (flag : Z) : res (world * HashTable * option zptr) :=
  if f_uninit ht then str_add_to_hash w (zend_hash_real_init_mixed ht) str h pData flag
  else if f_packed ht then
    '(w, ht) ← zend_hash_packed_to_hash w ht;
    '(w, ht) ← ZEND_HASH_IF_FULL_DO_RESIZE w ht;
    str_add_to_hash w ht str h pData flag
  else
    p ← (if has_flag flag HASH_ADD_NEW then Ok None
         else zend_hash_str_find_bucket ht str h);
    match p with
    | Some i => update_found w ht i pData flag
    | None =>
        '(w, ht) ← ZEND_HASH_IF_FULL_DO_RESIZE w ht;
        str_add_to_hash w ht str h pData flag
    end.

(** [replace:] an existing value is destroyed and overwritten unless the
    operation only adds. *)
Definition index_replace (w : world) (ht : HashTable) (zv : zptr) (pData : zval) (flag : Z)
  : res (world * HashTable * option zptr) :=
  if has_flag flag HASH_LOOKUP then Ok (w, ht, Some zv)
  else if has_flag flag HASH_ADD then Ok (w, ht, None)
  else
    old ← zptr_get w ht zv;
    '(w, ht) ← zptr_set (run_dtor ht old w) ht zv pData;
    Ok (w, ht, Some zv).

(** [while (q != zv) ZVAL_UNDEF(q)] from [nNumUsed] to [h]. *)
Definition undef_range (P : list zval) (from to : Z) : list zval :=
  imap (fun i v => if (from <=? Z.of_nat i) && (Z.of_nat i <? to) then IS_UNDEF else v) P.

Definition is_add_next_new (flag : Z) : bool :=
  has_flag flag HASH_ADD_NEW && has_flag flag HASH_ADD_NEXT.

(** [add_to_packed:] *)
Definition add_to_packed (w : world) (ht : HashTable) (h : Z) (pData : zval) (flag : Z)
  : res (world * HashTable * option zptr) :=
  let P := if negb (is_add_next_new flag) && (nNumUsed ht <? h)
           then undef_range (arPacked ht) (nNumUsed ht) h else arPacked ht in
  P ← wr P h (new_val flag pData);
  Ok (w, set_counts (h + 1) (nNumOfElements ht + 1) (nTableSize ht) (nInternalPointer ht)
           (h + 1) (set_arPacked P ht), Some (PPacked h)).

(** The end of the function: a bucket is appended to a hash. *)
Definition index_append (w : world) (ht : HashTable) (h : Z) (pData : zval) (flag : Z)
  : res (world * HashTable * option zptr) :=
  let ht := if nNextFreeElement ht <=? i64 h
            then set_nNextFreeElement (if i64 h <? ZEND_LONG_MAX then i64 (h + 1)
                                       else ZEND_LONG_MAX) ht
            else ht in
  '(ht, r) ← ht_append ht h None (new_val flag pData);
  Ok (w, ht, r).

Definition _zend_hash_index_add_or_update_i (w : world) (ht : HashTable) (h : Z)
    (pData : zval) (flag : Z) : res (world * HashTable * option zptr) :=
  let h := if has_flag flag HASH_ADD_NEXT && (h =? u64 ZEND_LONG_MIN) then 0 else h in
  if f_packed ht then
    let convert_to_hash ht :=
      '(w, ht) ← zend_hash_packed_to_hash w ht; index_append w ht h pData flag in
    if negb (is_add_next_new flag) && (h <? nNumUsed ht) then
      zv ← rd (arPacked ht) h;
      if negb (is_undef zv) then index_replace w ht (PPacked h) pData flag
      else convert_to_hash ht
    else if h <? nTableSize ht then add_to_packed w ht h pData flag
    else if (Z.shiftr h 1 <? nTableSize ht)
            && (Z.shiftr (nTableSize ht) 1 <? nNumOfElements ht) then
      ht ← zend_hash_packed_grow ht; add_to_packed w ht h pData flag
    else
      convert_to_hash (if nTableSize ht <=? nNumUsed ht
                       then set_nTableSize (u32 (nTableSize ht + nTableSize ht)) ht else ht)
  else if f_uninit ht then
    if h <? nTableSize ht then
      add_to_packed w (zend_hash_real_init_packed_ex ht) h pData flag
    else index_append w (zend_hash_real_init_mixed ht) h pData flag
  else
    p ← (if has_flag flag HASH_ADD_NEW then Ok None else zend_hash_index_find_bucket ht h);
    match p with
    | Some i => index_replace w ht (PData i) pData flag
    | None =>
        '(w, ht) ← ZEND_HASH_IF_FULL_DO_RESIZE w ht;
        index_append w ht h pData flag
    end.

Definition zend_hash_add w ht key pData := _zend_hash_add_or_update_i w ht key pData HASH_ADD.
Definition zend_hash_update w ht key pData :=
  _zend_hash_add_or_update_i w ht key pData HASH_UPDATE.
Definition zend_hash_update_ind w ht key pData :=
  _zend_hash_add_or_update_i w ht key pData (Z.lor HASH_UPDATE HASH_UPDATE_INDIRECT).
Definition zend_hash_add_new w ht key pData :=
  _zend_hash_add_or_update_i w ht key pData HASH_ADD_NEW.
Definition zend_hash_lookup w ht key :=
  _zend_hash_add_or_update_i w ht key IS_NULL HASH_LOOKUP.

Definition zend_hash_str_update w ht str pData :=
  _zend_hash_str_add_or_update_i w ht str (zend_inline_hash_func str) pData HASH_UPDATE.
Definition zend_hash_str_add w ht str pData :=
  _zend_hash_str_add_or_update_i w ht str (zend_inline_hash_func str) pData HASH_ADD.

Definition zend_hash_index_add w ht h pData :=
  _zend_hash_index_add_or_update_i w ht h pData HASH_ADD.
Definition zend_hash_index_add_new w ht h pData :=
  _zend_hash_index_add_or_update_i w ht h pData (Z.lor HASH_ADD HASH_ADD_NEW).
Definition zend_hash_index_update w ht h pData :=
  _zend_hash_index_add_or_update_i w ht h pData HASH_UPDATE.
Definition zend_hash_next_index_insert w ht pData :=
  _zend_hash_index_add_or_update_i w ht (u64 (nNextFreeElement ht)) pData
    (Z.lor HASH_ADD HASH_ADD_NEXT).
Definition zend_hash_next_index_insert_new w ht pData :=
  _zend_hash_index_add_or_update_i w ht (u64 (nNextFreeElement ht)) pData
    (Z.lor HASH_ADD (Z.lor HASH_ADD_NEW HASH_ADD_NEXT)).
Definition zend_hash_index_lookup w ht h :=
  _zend_hash_index_add_or_update_i w ht h IS_NULL HASH_LOOKUP.

(** ** Deletion *)

Definition slot_undef (packed : bool) (ht : HashTable) (i : Z) : res bool :=
  if packed then v ← rd (arPacked ht) i; Ok (is_undef v)
  else b ← rd (arData ht) i; Ok (is_undef (b_val b)).

(** [while (1) { new_idx++; if (new_idx >= nNumUsed) break;
     else if (Z_TYPE(...) != IS_UNDEF) break; }] *)
Fixpoint next_used (fuel : nat) (packed : bool) (ht : HashTable) (idx : Z) : res Z :=
  match fuel with
  | O => Ub
  | S fuel =>
      let idx := idx + 1 in
      if nNumUsed ht <=? idx then Ok idx
      else u ← slot_undef packed ht idx;
           if u : bool then next_used fuel packed ht idx else Ok idx
  end.

(** [do { nNumUsed--; } while (nNumUsed > 0 && UNDEF(nNumUsed - 1))] *)
Fixpoint trim_used (fuel : nat) (packed : bool) (ht : HashTable) (n : Z) : res Z :=
  match fuel with
  | O => Ub
  | S fuel =>
      let n := n - 1 in
      if 0 <? n then
        u ← slot_undef packed ht (n - 1);
        if u : bool then trim_used fuel packed ht n else Ok n
      else Ok n
  end.

(** What both deletions do once the element is unlinked: the counters, the
    internal pointer and the iterators. *)
Definition del_fixup (packed : bool) (w : world) (ht : HashTable) (idx : Z)
  : res (world * HashTable) :=
  let ht := set_nNumOfElements (nNumOfElements ht - 1) ht in
  let fuel := S (Z.to_nat (nNumUsed ht)) in
  '(w, ht) ←
    (if (nInternalPointer ht =? idx) || HT_HAS_ITERATORS ht then
       new_idx ← next_used fuel packed ht idx;
       let ht := if nInternalPointer ht =? idx then set_nInternalPointer new_idx ht else ht in
       Ok (zend_hash_iterators_update w ht idx new_idx, ht)
     else Ok (w, ht));
  if nNumUsed ht - 1 =? idx then
    n ← trim_used fuel packed ht (nNumUsed ht);
    Ok (w, set_nInternalPointer (Z.min (nInternalPointer ht) n) (set_nNumUsed n ht))
  else Ok (w, ht).

Definition _zend_hash_packed_del_val (w : world) (ht : HashTable) (idx : Z)
  : res (world * HashTable) :=
  '(w, ht) ← del_fixup true w ht idx;
  old ← rd (arPacked ht) idx;
  P ← wr (arPacked ht) idx IS_UNDEF;
  Ok (run_dtor ht old w, set_arPacked P ht).

Definition _zend_hash_del_el_ex (w : world) (ht : HashTable) (idx : Z) (prev : option Z)
  : res (world * HashTable) :=
  p ← rd (arData ht) idx;
  ht ← match prev with
       | Some j => q ← rd (arData ht) j;
                   D ← wr (arData ht) j (with_next (b_next p) q); Ok (set_arData D ht)
       | None => HT_HASH_set ht (nIndex_of ht (b_h p)) (b_next p)
       end;
  '(w, ht) ← del_fixup false w ht idx;
  p ← rd (arData ht) idx;
  D ← wr (arData ht) idx (with_val IS_UNDEF p);
  Ok (run_dtor ht (b_val p) w, set_arData D ht).

(** [zend_string_release(p->key); p->key = NULL;] *)
Definition release_key (w : world) (ht : HashTable) (idx : Z) : res (world * HashTable) :=
  p ← rd (arData ht) idx;
  match b_key p with
  | Some k => D ← wr (arData ht) idx (with_key None p);
              Ok (log (EvRelease k) w, set_arData D ht)
  | None => Ok (w, ht)
  end.

(** The walk that also remembers the previous bucket. *)
Fixpoint chain_find_prev (fuel : nat) (D : list Bucket) (match_ : Bucket -> bool)
    (idx : Z) (prev : option Z) : res (option (Z * option Z)) :=
  match fuel with
  | O => Ub
  | S fuel =>
      if idx =? HT_INVALID_IDX then Ok None
      else
        p ← rd D idx;
        if match_ p then Ok (Some (idx, prev))
        else chain_find_prev fuel D match_ (b_next p) (Some idx)
  end.

(** The loop [while (Z_NEXT(prev->val) != idx)] of _zend_hash_del_el. *)
Fixpoint find_prev (fuel : nat) (D : list Bucket) (i idx : Z) : res Z :=
  match fuel with
  | O => Ub
  | S fuel =>
      prev ← rd D i;
      if b_next prev =? idx then Ok i else find_prev fuel D (b_next prev) idx
  end.

Definition _zend_hash_del_el (w : world) (ht : HashTable) (idx : Z) : res (world * HashTable) :=
  p ← rd (arData ht) idx;
  i ← HT_HASH ht (nIndex_of ht (b_h p));
  prev ← (if i =? idx then Ok None
          else j ← find_prev (chain_fuel ht) (arData ht) i idx; Ok (Some j));
  '(w, ht) ← release_key w ht idx;
  _zend_hash_del_el_ex w ht idx prev.

Definition zend_hash_packed_del_val := _zend_hash_packed_del_val.
Definition zend_hash_del_bucket := _zend_hash_del_el.

Definition zend_hash_del (w : world) (ht : HashTable) (key : Z)
  : res (world * HashTable * zend_result) :=
  idx ← HT_HASH ht (nIndex_of ht (ZSTR_H key));
  r ← chain_find_prev (chain_fuel ht) (arData ht) (match_key key) idx None;
  match r with
  | Some (idx, prev) =>
      '(w, ht) ← release_key w ht idx;
      '(w, ht) ← _zend_hash_del_el_ex w ht idx prev;
      Ok (w, ht, SUCCESS)
  | None => Ok (w, ht, FAILURE)
  end.

Definition zend_hash_str_del (w : world) (ht : HashTable) (str : list Z)
  : res (world * HashTable * zend_result) :=
  let h := zend_inline_hash_func str in
  idx ← HT_HASH ht (nIndex_of ht h);
  r ← chain_find_prev (chain_fuel ht) (arData ht) (match_str str h) idx None;
  match r with
  | Some (idx, prev) =>
      '(w, ht) ← release_key w ht idx;
      '(w, ht) ← _zend_hash_del_el_ex w ht idx prev;
      Ok (w, ht, SUCCESS)
  | None => Ok (w, ht, FAILURE)
  end.

(** Deletion of a compiled variable empties the slot and keeps the entry. *)
Definition zend_hash_del_ind (w : world) (ht : HashTable) (key : Z)
  : res (world * HashTable * zend_result) :=
  idx ← HT_HASH ht (nIndex_of ht (ZSTR_H key));
  r ← chain_find_prev (chain_fuel ht) (arData ht) (match_key key) idx None;
  match r with
  | Some (idx, prev) =>
      v ← zptr_get w ht (PData idx);
      match v with
      | IS_INDIRECT a =>
          d ← zptr_get w ht (PInd a);
          if is_undef d then Ok (w, ht, FAILURE)
          else
            '(w, ht) ← zptr_set w ht (PInd a) IS_UNDEF;
            Ok (run_dtor ht d w, set_empty_ind true ht, SUCCESS)
      | _ =>
          '(w, ht) ← release_key w ht idx;
          '(w, ht) ← _zend_hash_del_el_ex w ht idx prev;
          Ok (w, ht, SUCCESS)
      end
  | None => Ok (w, ht, FAILURE)
  end.

Definition zend_hash_index_del (w : world) (ht : HashTable) (h : Z)
  : res (world * HashTable * zend_result) :=
  if f_packed ht then
    if h <? nNumUsed ht then
      zv ← rd (arPacked ht) h;
      if negb (is_undef zv) then
        '(w, ht) ← _zend_hash_packed_del_val w ht h; Ok (w, ht, SUCCESS)
      else Ok (w, ht, FAILURE)
    else Ok (w, ht, FAILURE)
  else
    idx ← HT_HASH ht (nIndex_of ht h);
    r ← chain_find_prev (chain_fuel ht) (arData ht) (match_index h) idx None;
    match r with
    | Some (idx, prev) =>
        '(w, ht) ← _zend_hash_del_el_ex w ht idx prev; Ok (w, ht, SUCCESS)
    | None => Ok (w, ht, FAILURE)
    end.
End Ops.
