(* ===== verification/HashChain.v ===== *)
(** * Collision chains

    The arithmetic of the hash part, and the shape of the collision chains:
    the chain of a slot lists, from the highest to the lowest index, exactly
    the live buckets whose hash falls into that slot. *)

From S2P Require Import Prelude.
From S2P Require Import ZendString.
From S2P Require Import HashTypes.
From S2P Require Import HashOps.

(** ** Where [h | mask] points *)

Lemma mask_bits j n : 0 <= j <= 32 -> 0 <= n ->
  Z.testbit (2 ^ 32 - 2 ^ j) n = (j <=? n) && (n <? 32).
Proof.
  intros Hj Hn.
  replace (2 ^ 32 - 2 ^ j) with (Z.shiftl (Z.ones (32 - j)) j).
  2:{ rewrite Z.shiftl_mul_pow2, Z.ones_equiv by lia.
      replace (2 ^ 32) with (2 ^ (32 - j) * 2 ^ j) by (rewrite <- Z.pow_add_r by lia; f_equal; lia).
      lia. }
  rewrite Z.shiftl_spec by lia. destruct (Z.leb_spec j n); cbn.
  - destruct (Z.ltb_spec n 32); [apply Z.ones_spec_low; lia | apply Z.ones_spec_high; lia].
  - apply Z.testbit_neg_r. lia.
Qed.

Lemma u32_lor_mask h j : 0 <= j <= 32 ->
  u32 (Z.lor h (2 ^ 32 - 2 ^ j)) = h mod 2 ^ j + (2 ^ 32 - 2 ^ j).
Proof.
  intros Hj. unfold u32. rewrite <- (Z.land_ones _ 32), <- (Z.land_ones h j) by lia.
  assert (Z.land (Z.land h (Z.ones j)) (2 ^ 32 - 2 ^ j) = 0) as Hdisj.
  { apply Z.bits_inj'. intros n Hn.
    rewrite !Z.land_spec, mask_bits, Z.bits_0 by lia.
    destruct (Z.leb_spec j n); [|by rewrite andb_false_r].
    by rewrite Z.ones_spec_high, andb_false_r by lia. }
  rewrite Z.add_nocarry_lxor, Z.lxor_lor by exact Hdisj.
  apply Z.bits_inj'. intros n Hn.
  rewrite Z.land_spec, !Z.lor_spec, Z.land_spec, !mask_bits by lia.
  destruct (Z.ltb_spec n 32).
  - rewrite (Z.ones_spec_low 32), andb_true_r by lia.
    destruct (Z.leb_spec j n); cbn; [by rewrite !orb_true_r|].
    by rewrite Z.ones_spec_low, andb_true_r by lia.
  - rewrite (Z.ones_spec_high 32), andb_false_r by lia.
    rewrite Z.ones_spec_high by lia. by rewrite andb_false_r, andb_false_r.
Qed.

Lemma i32_neg x : 2 ^ 31 <= x < 2 ^ 32 -> i32 x = x - 2 ^ 32.
Proof.
  intros H. unfold i32, sint. rewrite Z.mod_small by lia.
  destruct (Z.ltb_spec x (2 ^ (32 - 1))); [|done].
  change (2 ^ (32 - 1)) with (2 ^ 31) in *. lia.
Qed.

(** The hash part has [2 ^ j] words and the mask that goes with it. *)
Definition geom (ht : HashTable) : Prop :=
  exists j, 1 <= j <= 31 /\ nTableMask ht = 2 ^ 32 - 2 ^ j /\ zlen (arHash ht) = 2 ^ j.

Lemma hash_pos_mod ht h : geom ht ->
  hash_pos ht (nIndex_of ht h) = h mod zlen (arHash ht).
Proof.
  intros (j & Hj & Hm & Hl). unfold hash_pos, nIndex_of. rewrite Hm, Hl, u32_lor_mask by lia.
  assert (0 <= h mod 2 ^ j < 2 ^ j) by (apply Z.mod_pos_bound; lia).
  assert (2 ^ j <= 2 ^ 31) by (apply Z.pow_le_mono_r; lia).
  rewrite i32_neg by lia. lia.
Qed.

Lemma geom_pos ht : geom ht -> 0 < zlen (arHash ht).
Proof. intros (j & ? & _ & ->). lia. Qed.

Lemma slot_range ht h : geom ht -> 0 <= h mod zlen (arHash ht) < zlen (arHash ht).
Proof. intros H%geom_pos. by apply Z.mod_pos_bound. Qed.

Lemma HT_HASH_ok ht h x : geom ht ->
  zget (arHash ht) (h mod zlen (arHash ht)) = Some x -> HT_HASH ht (nIndex_of ht h) = Ok x.
Proof. intros Hg Hx. unfold HT_HASH. rewrite hash_pos_mod by done. by apply rd_ok. Qed.

Lemma HT_HASH_set_ok ht h v : geom ht ->
  HT_HASH_set ht (nIndex_of ht h) v
  = Ok (set_arHash (zset (arHash ht) (h mod zlen (arHash ht)) v) ht).
Proof.
  intros Hg. unfold HT_HASH_set. rewrite hash_pos_mod by done.
  rewrite wr_ok; [done|]. by apply slot_range.
Qed.

(** ** Chains *)

Inductive chain (D : list Bucket) : Z -> list Z -> Prop :=
| chain_nil : chain D HT_INVALID_IDX []
| chain_cons i b l :
    i <> HT_INVALID_IDX -> zget D i = Some b -> chain D (b_next b) l -> chain D i (i :: l).

Definition in_slot (D : list Bucket) (L s i : Z) : bool :=
  match zget D i with Some b => live b && (b_h b mod L =? s) | None => false end.

(** The live buckets below [n] that belong to slot [s], highest first. *)
Fixpoint chain_upto (D : list Bucket) (L s : Z) (n : nat) : list Z :=
  match n with
  | O => []
  | S m => if in_slot D L s (Z.of_nat m) then Z.of_nat m :: chain_upto D L s m
           else chain_upto D L s m
  end.
Definition chain_idx (D : list Bucket) (L n s : Z) : list Z := chain_upto D L s (Z.to_nat n).

Definition chains_ok (H : list Z) (D : list Bucket) (n : Z) : Prop :=
  forall s, 0 <= s < zlen H ->
    exists x, zget H s = Some x /\ chain D x (chain_idx D (zlen H) n s).

Lemma elem_of_chain_idx D L n s i :
  i ∈ chain_idx D L n s <-> 0 <= i < n /\ in_slot D L s i = true.
Proof.
  unfold chain_idx.
  assert (0 <= i < n <-> 0 <= i < Z.of_nat (Z.to_nat n)) as -> by lia.
  generalize (Z.to_nat n) as m. intros m.
  induction m as [|m IH]; cbn [chain_upto]; [split; [by intros ?%not_elem_of_nil|lia]|].
  destruct (in_slot D L s (Z.of_nat m)) eqn:E.
  - rewrite elem_of_cons, IH. split; [intros [->|]; split; lia || naive_solver lia|].
    intros [? ?]. destruct (Z.eq_dec i (Z.of_nat m)); [by left|right; split; [lia|done]].
  - rewrite IH. split; [intros [? ?]; split; [lia|done]|]. intros [? ?]. split; [|done].
    destruct (Z.eq_dec i (Z.of_nat m)); [congruence|lia].
Qed.

Lemma chain_idx_ext D D' L n s :
  (forall i, 0 <= i < n -> in_slot D L s i = in_slot D' L s i) ->
  chain_idx D L n s = chain_idx D' L n s.
Proof.
  unfold chain_idx. intros H.
  assert (forall i, 0 <= i < Z.of_nat (Z.to_nat n) -> in_slot D L s i = in_slot D' L s i) as H'.
  { intros i ?. apply H. lia. }
  clear H. revert H'. generalize (Z.to_nat n) as m. intros m.
  induction m as [|m IH]; intros H; cbn; [done|].
  rewrite H, IH by (intros; apply H || idtac; lia). done.
Qed.

Lemma chain_idx_succ D L n s : 0 <= n ->
  chain_idx D L (n + 1) s
  = if in_slot D L s n then n :: chain_idx D L n s else chain_idx D L n s.
Proof.
  intros Hn. unfold chain_idx. rewrite Z2Nat.inj_add by lia.
  change (Z.to_nat 1) with 1%nat. rewrite Nat.add_1_r. cbn [chain_upto].
  rewrite Z2Nat.id by lia. done.
Qed.

Lemma length_chain_idx D L n s : (length (chain_idx D L n s) <= Z.to_nat n)%nat.
Proof.
  unfold chain_idx. induction (Z.to_nat n) as [|m IH]; cbn; [lia|].
  destruct (in_slot _ _ _ _); cbn; lia.
Qed.

(** Chains only look at the buckets they list. *)
Lemma chain_agree D D' x l :
  (forall i, i ∈ l -> zget D i = zget D' i) -> chain D x l -> chain D' x l.
Proof.
  intros H Hc. induction Hc as [|i b l Hi Hb Hc IH]; [constructor|].
  econstructor; [done| rewrite <- H; [done|set_solver] |]. apply IH. set_solver.
Qed.

Lemma in_slot_agree D D' L s i : zget D i = zget D' i -> in_slot D L s i = in_slot D' L s i.
Proof. unfold in_slot. by intros ->. Qed.

Lemma chains_agree H D D' n :
  (forall i, 0 <= i < n -> zget D i = zget D' i) -> chains_ok H D n -> chains_ok H D' n.
Proof.
  intros Ha Hc s Hs. destruct (Hc s Hs) as (x & Hx & Hch). exists x. split; [done|].
  rewrite <- (chain_idx_ext D) by (intros; apply in_slot_agree; auto).
  eapply chain_agree; [|done]. intros i [? _]%elem_of_chain_idx. auto.
Qed.

Lemma chains_empty D L :
  chains_ok (replicate (Z.to_nat L) HT_INVALID_IDX) D 0.
Proof.
  intros s Hs. rewrite zlen_replicate in *. exists HT_INVALID_IDX.
  split; [by apply zget_replicate|]. constructor.
Qed.

(** A dead bucket at [n] joins no chain. *)
Lemma chains_skip H D n b : 0 <= n -> zget D n = Some b -> live b = false ->
  chains_ok H D n -> chains_ok H D (n + 1).
Proof.
  intros Hn Hb Hl Hc s Hs. destruct (Hc s Hs) as (x & Hx & Hch). exists x. split; [done|].
  rewrite chain_idx_succ by done. unfold in_slot at 1. by rewrite Hb, Hl.
Qed.

(** Linking bucket [n] into its slot. *)
Lemma chains_link H D n b x : 0 < zlen H -> 0 <= n -> n <> HT_INVALID_IDX ->
  zget D n = Some b -> live b = true -> zget H (b_h b mod zlen H) = Some x ->
  chains_ok H D n ->
  chains_ok (zset H (b_h b mod zlen H) n) (zset D n (with_next x b)) (n + 1).
Proof.
  intros HL Hn Hinv Hb Hlive Hx Hc.
  assert (0 <= n < zlen D) as Hrange by (eapply zget_Some_range; eauto).
  set (s0 := b_h b mod zlen H) in *.
  assert (0 <= s0 < zlen H) as Hs0 by (by apply Z.mod_pos_bound).
  set (D' := zset D n (with_next x b)).
  assert (zget D' n = Some (with_next x b)) as Hb' by (apply zget_zset_eq; lia).
  assert (chains_ok H D' n) as Hc'.
  { eapply chains_agree; [|exact Hc]. intros i Hi. unfold D'.
    rewrite zget_zset_ne; [done|lia..]. }
  intros s Hs. rewrite zlen_zset in *. destruct (Hc' s Hs) as (y & Hy & Hch).
  rewrite chain_idx_succ by lia.
  assert (in_slot D' (zlen H) s n = (s0 =? s)) as ->.
  { unfold in_slot. rewrite Hb'. change (live (with_next x b)) with (live b). by rewrite Hlive. }
  destruct (Z.eqb_spec s0 s) as [->|Hne].
  - exists n. split; [apply zget_zset_eq; lia|]. econstructor; [done..|].
    assert (x = y) as -> by congruence. done.
  - exists y. split; [|done]. rewrite zget_zset_ne; [done|lia..].
Qed.

(** ** Walking a chain *)

Definition first_match (D : list Bucket) (m : Bucket -> bool) (l : list Z) : option Z :=
  head (filter (fun i => match zget D i with Some b => m b | None => false end = true) l).

Lemma chain_find_spec D m x l fuel :
  chain D x l -> (length l < fuel)%nat -> chain_find fuel D m x = Ok (first_match D m l).
Proof.
  intros Hc. revert fuel. induction Hc as [|i b l Hi Hb Hc IH]; intros fuel Hf;
    (destruct fuel as [|fuel]; cbn [length] in Hf; [lia|]); cbn [chain_find].
  - done.
  - rewrite (proj2 (Z.eqb_neq _ _)) by done. rewrite (rd_ok _ _ _ Hb), bind_ok.
    unfold first_match. rewrite filter_cons, Hb. destruct (m b); cbn.
    + done.
    + rewrite IH by lia. done.
Qed.
