(* ===== verification/HashRehash.v ===== *)
(** * Rehashing

    zend_hash_rehash rebuilds the chains, removes the holes and keeps the
    entries and their order; the loops over the iterators terminate. *)

From S2P Require Import Prelude.
From S2P Require Import ZendString.
From S2P Require Import HashTypes.
From S2P Require Import HashOps.
From S2P Require Import HashChain.

(** ** Cores of a prefix *)

Section Cores.
Implicit Types (D : list Bucket) (b : Bucket) (i n : Z).

Definition pre {A} (n : Z) (l : list A) : list A := take (Z.to_nat n) l.

Lemma pre_succ {A} (l : list A) n a : zget l n = Some a -> pre (n + 1) l = pre n l ++ [a].
Proof.
  intros Ha. assert (0 <= n < zlen l) by (eapply zget_Some_range; eauto).
  unfold pre, zget in *. rewrite (proj2 (Z.leb_le _ _)) in Ha by lia.
  rewrite Z2Nat.inj_add by lia. change (Z.to_nat 1) with 1%nat. rewrite Nat.add_1_r.
  by apply take_S_r.
Qed.

Lemma pre_ext {A} (l l' : list A) n : zlen l = zlen l' ->
  (forall i, 0 <= i < n -> zget l i = zget l' i) -> pre n l = pre n l'.
Proof.
  intros Hlen H. unfold pre. apply list_eq. intros i.
  destruct (decide (i < Z.to_nat n)%nat).
  - rewrite !lookup_take_lt by done. specialize (H (Z.of_nat i)). unfold zget in H.
    rewrite (proj2 (Z.leb_le _ _)), Nat2Z.id in H by lia. apply H. lia.
  - rewrite !lookup_take_ge by lia. done.
Qed.

Lemma pre_zset_ge {A} (l : list A) n i a : n <= i -> pre n (zset l i a) = pre n l.
Proof. intros. unfold pre, zset. rewrite take_insert, decide_False by lia. done. Qed.

(** Splitting a prefix at an index below [n]. *)
Lemma pre_split {A} (l : list A) n i a : i < n -> zget l i = Some a ->
  pre n l = pre i l ++ a :: drop (S (Z.to_nat i)) (pre n l).
Proof.
  intros Hi Ha. assert (0 <= i < zlen l) by (eapply zget_Some_range; eauto).
  unfold zget in Ha. rewrite (proj2 (Z.leb_le _ _)) in Ha by lia.
  unfold pre. rewrite <- (take_drop_middle (take (Z.to_nat n) l) (Z.to_nat i) a) at 1.
  - rewrite take_take, Nat.min_l by lia. done.
  - rewrite lookup_take_lt; [done|lia].
Qed.

Lemma pre_zset_split {A} (l : list A) n i a : i < n -> 0 <= i < zlen l ->
  pre n (zset l i a) = pre i l ++ a :: drop (S (Z.to_nat i)) (pre n l).
Proof.
  intros Hi Hr. rewrite (pre_split (zset l i a) n i a) by (try lia; by apply zget_zset_eq).
  rewrite pre_zset_ge by lia. do 2 f_equal. unfold pre, zset.
  rewrite take_insert, decide_True by lia. apply drop_insert_lt. lia.
Qed.

Lemma zlen_pre {A} (l : list A) n : 0 <= n <= zlen l -> zlen (pre n l) = n.
Proof. intros H. unfold pre, zlen in *. rewrite length_take. lia. Qed.

Lemma zget_pre {A} (l : list A) n i : i < n -> zget (pre n l) i = zget l i.
Proof.
  intros H. unfold zget, pre. destruct (Z.leb_spec 0 i); [|done].
  apply lookup_take_lt. lia.
Qed.

Lemma cores_app D1 D2 : cores (D1 ++ D2) = cores D1 ++ cores D2.
Proof. apply omap_app. Qed.

Lemma cores_single b : cores [b] = match bcore b with Some c => [c] | None => [] end.
Proof. unfold cores. cbn. by destruct (bcore b). Qed.

Lemma cores_cons b D :
  cores (b :: D) = match bcore b with Some c => c :: cores D | None => cores D end.
Proof. unfold cores. cbn. by destruct (bcore b). Qed.

Lemma cores_succ D n b : zget D n = Some b ->
  cores (pre (n + 1) D) = cores (pre n D) ++ match bcore b with Some c => [c] | None => [] end.
Proof. intros H. by rewrite (pre_succ _ _ _ H), cores_app, cores_single. Qed.

Lemma bcore_live b : live b = true -> bcore b = Some (b_val b, b_h b, b_key b).
Proof. unfold bcore. by intros ->. Qed.

Lemma bcore_dead b : live b = false -> bcore b = None.
Proof. unfold bcore. by intros ->. Qed.

(** Replacing a bucket by one with the same core changes no core. *)
Lemma cores_zset_same D n i b b' : zget D i = Some b -> bcore b' = bcore b ->
  cores (pre n (zset D i b')) = cores (pre n D).
Proof.
  intros Hb Hc. assert (0 <= i < zlen D) by (eapply zget_Some_range; eauto).
  destruct (Z.lt_ge_cases i n).
  - rewrite pre_zset_split by lia. pose proof (pre_split D n i b ltac:(done) Hb) as Hs.
    set (r := drop _ _) in *. rewrite Hs.
    by rewrite !cores_app, !cores_cons, Hc.
  - by rewrite pre_zset_ge.
Qed.

(** With as many cores as buckets there is no hole. *)
Lemma cores_full D n i b : zlen (cores (pre n D)) = zlen (pre n D) ->
  i < n -> zget D i = Some b -> live b = true.
Proof.
  intros Hlen Hi Hb. pose proof (pre_split D n i b Hi Hb) as Hs.
  set (r := drop _ _) in *. rewrite Hs in Hlen.
  destruct (live b) eqn:El; [done|]. exfalso. revert Hlen.
  rewrite cores_app, cores_cons, bcore_dead by done.
  assert (forall D, (length (cores D) <= length D)%nat) as Hle.
  { clear. unfold cores. induction D as [|b D IH]; cbn; [lia|].
    destruct (bcore b); cbn; lia. }
  unfold zlen. rewrite !length_app. cbn.
  pose proof (Hle (pre i D)). pose proof (Hle r).
  unfold cores in *. lia.
Qed.
End Cores.
#[export] Hint Rewrite @zlen_pre : zarr.

(** ** Geometry of the hash layout *)

Definition size_ok (n : Z) : Prop := exists k, 3 <= k <= 30 /\ n = 2 ^ k.

Lemma size_ok_bounds n : size_ok n -> 8 <= n <= HT_MAX_SIZE.
Proof.
  intros (k & Hk & ->). unfold HT_MAX_SIZE. change 8 with (2 ^ 3).
  change 0x40000000 with (2 ^ 30). split; apply Z.pow_le_mono_r; lia.
Qed.

Lemma size_ok_double n : size_ok n -> n < HT_MAX_SIZE -> size_ok (n + n).
Proof.
  intros (k & Hk & ->) Hlt. exists (k + 1). split; [|rewrite Z.pow_add_r; lia].
  unfold HT_MAX_SIZE in Hlt. change 0x40000000 with (2 ^ 30) in Hlt.
  apply Z.pow_lt_mono_r_iff in Hlt; lia.
Qed.

Lemma size_mask n : size_ok n ->
  exists j, 1 <= j <= 31 /\ HT_SIZE_TO_MASK n = 2 ^ 32 - 2 ^ j /\ 2 * n = 2 ^ j.
Proof.
  intros Hn. pose proof (size_ok_bounds _ Hn) as Hb. destruct Hn as (k & Hk & ->).
  exists (k + 1). assert (2 ^ (k + 1) = 2 * 2 ^ k) as E by (rewrite Z.pow_add_r; lia).
  split_and!; [lia..| |lia]. unfold HT_SIZE_TO_MASK, u32, HT_MAX_SIZE in *.
  rewrite E. replace (- (2 ^ k + 2 ^ k)) with ((2 ^ 32 - 2 * 2 ^ k) + (-1) * 2 ^ 32) by lia.
  rewrite Z.mod_add by lia. apply Z.mod_small. lia.
Qed.

Lemma mask_words n : size_ok n -> HT_HASH_WORDS (HT_SIZE_TO_MASK n) = 2 * n.
Proof.
  intros Hn. pose proof (size_ok_bounds _ Hn). destruct (size_mask n Hn) as (j & Hj & -> & Hw).
  unfold HT_HASH_WORDS, u32, HT_MAX_SIZE in *.
  replace (- (2 ^ 32 - 2 ^ j)) with (2 ^ j + (-1) * 2 ^ 32) by lia.
  rewrite Z.mod_add by lia. rewrite <- Hw. apply Z.mod_small. lia.
Qed.

Lemma mask_nonzero n : size_ok n -> HT_SIZE_TO_MASK n <> 0.
Proof.
  intros Hn. pose proof (size_ok_bounds _ Hn). destruct (size_mask n Hn) as (j & Hj & -> & Hw).
  unfold HT_MAX_SIZE in *. lia.
Qed.

Record mgeom (ht : HashTable) : Prop := {
  mg_size : size_ok (nTableSize ht);
  mg_mask : nTableMask ht = HT_SIZE_TO_MASK (nTableSize ht);
  mg_data : zlen (arData ht) = nTableSize ht;
  mg_used : 0 <= nNumUsed ht <= nTableSize ht;
}.

Lemma mgeom_geom ht : mgeom ht -> zlen (arHash ht) = 2 * nTableSize ht -> geom ht.
Proof.
  intros [Hs Hm _ _] Hl. destruct (size_mask _ Hs) as (j & Hj & Hmask & Hw).
  exists j. by rewrite Hm, Hl.
Qed.

Lemma used_not_invalid ht i : mgeom ht -> i <= nNumUsed ht -> i <> HT_INVALID_IDX.
Proof.
  intros [Hs _ _ Hu] Hi. pose proof (size_ok_bounds _ Hs).
  unfold HT_INVALID_IDX, HT_MAX_SIZE in *. lia.
Qed.

(** ** One link *)

Lemma ht_link_ok ht i p : geom ht -> zget (arData ht) i = Some p ->
  exists x, zget (arHash ht) (b_h p mod zlen (arHash ht)) = Some x /\
    ht_link ht i = Ok (set_alloc (nTableMask ht)
                         (zset (arHash ht) (b_h p mod zlen (arHash ht)) i)
                         (zset (arData ht) i (with_next x p)) (arPacked ht) ht).
Proof.
  intros Hg Hp. destruct (zget_is_Some (arHash ht) (b_h p mod zlen (arHash ht))) as [x Hx];
    [by apply slot_range|].
  exists x. split; [done|]. unfold ht_link. rewrite (rd_ok _ _ _ Hp), bind_ok.
  rewrite (HT_HASH_ok _ _ _ Hg Hx), bind_ok.
  rewrite wr_ok by (eapply zget_Some_range; eauto). rewrite bind_ok.
  pose proof (HT_HASH_set_ok (set_arData (zset (arData ht) i (with_next x p)) ht) (b_h p) i Hg)
    as Hset. exact Hset.
Qed.

(** ** The loop of a table without holes *)

Lemma rehash_plain_spec fuel : forall ht i,
  geom ht -> nNumUsed ht <= zlen (arData ht) -> nNumUsed ht < HT_INVALID_IDX ->
  (forall k b, i <= k < nNumUsed ht -> zget (arData ht) k = Some b -> live b = true) ->
  0 <= i < nNumUsed ht -> (Z.to_nat (nNumUsed ht - i) <= fuel)%nat ->
  chains_ok (arHash ht) (arData ht) i ->
  exists H' D', rehash_plain fuel ht i = Ok (set_alloc (nTableMask ht) H' D' (arPacked ht) ht)
    /\ zlen H' = zlen (arHash ht) /\ zlen D' = zlen (arData ht)
    /\ chains_ok H' D' (nNumUsed ht)
    /\ forall m, cores (pre m D') = cores (pre m (arData ht)).
Proof.
  induction fuel as [|fuel IH]; intros ht i Hg Hlen Hinv Hlive Hi Hf Hc; [lia|].
  destruct (zget_is_Some (arData ht) i) as [p Hp]; [lia|].
  destruct (ht_link_ok ht i p Hg Hp) as (x & Hx & Hlink).
  assert (live p = true) as Hlp by (eapply Hlive; [|done]; lia).
  set (H1 := zset (arHash ht) (b_h p mod zlen (arHash ht)) i) in *.
  set (D1 := zset (arData ht) i (with_next x p)) in *.
  assert (chains_ok H1 D1 (i + 1)) as Hc1.
  { apply chains_link; try done; [by apply geom_pos|lia|lia]. }
  assert (forall m, cores (pre m D1) = cores (pre m (arData ht))) as Hcores.
  { intros m. by apply cores_zset_same with p. }
  cbn [rehash_plain]. rewrite Hlink, bind_ok.
  set (ht1 := set_alloc (nTableMask ht) H1 D1 (arPacked ht) ht).
  change (nNumUsed ht1) with (nNumUsed ht).
  destruct (Z.ltb_spec (i + 1) (nNumUsed ht)) as [Hlt|Hge].
  - destruct (IH ht1 (i + 1)) as (H' & D' & Hr & HlH & HlD & Hch & Hco);
      cbn [ht1 nNumUsed set_alloc arHash arData]; try lia.
    + destruct Hg as (j & Hj & Hm & Hl). exists j. cbn. unfold H1. by rewrite zlen_zset.
    + unfold D1. rewrite zlen_zset. lia.
    + intros k b Hk Hb. unfold D1 in Hb. rewrite zget_zset_ne in Hb by lia.
      eapply Hlive; [|done]. lia.
    + done.
    + exists H', D'. rewrite Hr. split_and!; try done.
      * etransitivity; [exact HlH|]. apply zlen_zset.
      * etransitivity; [exact HlD|]. apply zlen_zset.
      * intros m. etransitivity; [exact (Hco m)|apply Hcores].
  - exists H1, D1. unfold H1, D1. rewrite !zlen_zset.
    assert (nNumUsed ht = i + 1) as -> by lia. done.
Qed.

(** ** The iterator loop *)

(** Two worlds that differ in iterator positions only. *)
Definition w_same (w w' : world) : Prop :=
  w_ind w' = w_ind w /\ w_trace w' = w_trace w
  /\ ht_iterators_used w' = ht_iterators_used w
  /\ (it_ht <$> ht_iterators w') = (it_ht <$> ht_iterators w).

#[export] Instance w_same_preorder : PreOrder w_same.
Proof.
  split; [by intros w|]. intros w1 w2 w3 (A1 & A2 & A3 & A4) (B1 & B2 & B3 & B4).
  split_and!; congruence.
Qed.

Lemma for_iters_same w f : (forall it, it_ht (f it) = it_ht it) -> w_same w (for_iters w f).
Proof.
  intros Hf. unfold for_iters. split_and!; [done..|]. cbn.
  rewrite fmap_app. rewrite <- (take_drop (Z.to_nat (ht_iterators_used w)) (ht_iterators w)) at 3.
  rewrite fmap_app. f_equal. rewrite <- list_fmap_compose. apply list_fmap_ext.
  intros i it _. apply Hf.
Qed.

Lemma iterators_update_same w ht from to : w_same w (zend_hash_iterators_update w ht from to).
Proof.
  unfold zend_hash_iterators_update. destruct (HT_HAS_ITERATORS ht); [|reflexivity].
  apply for_iters_same. intros it. by destruct (_ && _).
Qed.

Lemma lower_pos_bounds w ht start : start <= nNumUsed ht ->
  start <= zend_hash_iterators_lower_pos w ht start <= nNumUsed ht.
Proof.
  unfold zend_hash_iterators_lower_pos.
  generalize (take (Z.to_nat (ht_iterators_used w)) (ht_iterators w)) as l. intros l.
  generalize (nNumUsed ht) as r. induction l as [|it l IH]; intros r Hr; cbn; [lia|].
  destruct (_ && _ && _) eqn:Eb; [|by apply IH].
  apply andb_prop in Eb as [[_ ?]%andb_prop ?].
  specialize (IH (it_pos it)). lia.
Qed.

Lemma rehash_iters_ok fuel : forall w ht i j p,
  p <= i < nNumUsed ht -> 0 <= p -> (Z.to_nat (i - p) < fuel)%nat ->
  exists w' p', rehash_iters fuel w ht i j p = Ok (w', p') /\ w_same w w' /\ 0 <= p'.
Proof.
  induction fuel as [|fuel IH]; intros w ht i j p Hi Hp Hf; [lia|]. cbn [rehash_iters].
  set (w1 := zend_hash_iterators_update w ht p j).
  assert (w_same w w1) as Hw1 by apply iterators_update_same.
  pose proof (lower_pos_bounds w1 ht (p + 1)) as Hb.
  destruct (Z.ltb_spec (zend_hash_iterators_lower_pos w1 ht (p + 1)) i).
  - destruct (IH w1 ht i j (zend_hash_iterators_lower_pos w1 ht (p + 1)))
      as (w' & p' & Hr & Hw & Hp'); [lia..|].
    exists w', p'. split_and!; [done| by etransitivity | done].
  - eexists _, _. split_and!; [done|done|lia].
Qed.

(** ** Compaction *)

(** The place a bucket gets when the holes below it are removed. *)
Definition rank (D : list Bucket) (k : Z) : Z := zlen (cores (pre k D)).
Definition live_at (D : list Bucket) (k : Z) : bool :=
  match zget D k with Some b => live b | None => false end.
(** Where the internal pointer ends up when the buckets above [i] are moved. *)
Definition moved (D : list Bucket) (n i k : Z) : Z :=
  if (i <? k) && (k <? n) && live_at D k then rank D k else k.

Lemma rank_succ D k b : zget D k = Some b ->
  rank D (k + 1) = rank D k + (if live b then 1 else 0).
Proof.
  intros Hb. unfold rank, bcore, zlen. rewrite (cores_succ _ _ _ Hb), length_app.
  unfold bcore. destruct (live b); cbn; lia.
Qed.

Lemma rank_le D k : 0 <= k -> 0 <= rank D k <= k.
Proof.
  intros Hk. unfold rank, zlen. split; [lia|].
  assert (forall l : list Bucket, (length (cores l) <= length l)%nat) as Hle.
  { unfold cores. induction l as [|b l IH]; cbn; [lia|]. destruct (bcore b); cbn; lia. }
  pose proof (Hle (pre k D)). unfold pre in *. rewrite length_take in *. lia.
Qed.

Lemma moved_step D n i k b : 0 <= i -> i + 1 < n -> zget D (i + 1) = Some b ->
  moved D n i k =
  if (k =? i + 1) && live b then rank D (i + 1) else moved D n (i + 1) k.
Proof.
  intros Hi Hn Hb. unfold moved. destruct (Z.eqb_spec k (i + 1)) as [->|Hne]; cbn.
  - unfold live_at. rewrite Hb. rewrite (proj2 (Z.ltb_lt _ _)), (proj2 (Z.ltb_lt _ n)) by lia.
    rewrite (proj2 (Z.ltb_ge (i + 1) (i + 1))) by lia. cbn. done.
  - destruct (Z.ltb_spec i k), (Z.ltb_spec (i + 1) k); try lia; done.
Qed.

Lemma moved_low D n i k : k <= i -> moved D n i k = k.
Proof. intros. unfold moved. by rewrite (proj2 (Z.ltb_ge _ _)) by lia. Qed.

(** The state of a table after some of the loop: only the hash part, the
    buckets and the internal pointer differ. *)
Definition rehashed (ht : HashTable) (H : list Z) (D : list Bucket) (iptr : Z) : HashTable :=
  set_nInternalPointer iptr (set_alloc (nTableMask ht) H D (arPacked ht) ht).

Lemma rehashed_twice ht H D k H' D' k' :
  rehashed (rehashed ht H D k) H' D' k' = rehashed ht H' D' k'.
Proof. reflexivity. Qed.

Lemma rehash_compact_spec D0 fuel : forall w ht i j ip,
  geom ht -> nNumUsed ht <= zlen (arData ht) -> nNumUsed ht < HT_INVALID_IDX ->
  0 <= j <= i -> i < nNumUsed ht -> 0 <= ip -> (Z.to_nat (nNumUsed ht - i) <= fuel)%nat ->
  chains_ok (arHash ht) (arData ht) j ->
  (forall k, i < k < nNumUsed ht -> zget (arData ht) k = zget D0 k) ->
  cores (pre j (arData ht)) = cores (pre (i + 1) D0) -> rank D0 (i + 1) = j ->
  exists w' H' D' j',
    rehash_compact fuel w ht i j ip
    = Ok (w', rehashed ht H' D' (moved D0 (nNumUsed ht) i (nInternalPointer ht)), j')
    /\ w_same w w' /\ zlen H' = zlen (arHash ht) /\ zlen D' = zlen (arData ht)
    /\ chains_ok H' D' j' /\ cores (pre j' D') = cores (pre (nNumUsed ht) D0)
    /\ j' = rank D0 (nNumUsed ht).
Proof.
  induction fuel as [|fuel IH]; intros w ht i j ip Hg Hlen Hinv Hji Hi Hip Hf Hc Hrest Hco Hrk;
    [lia|]. cbn [rehash_compact].
  destruct (Z.ltb_spec (i + 1) (nNumUsed ht)) as [Hlt|Hge].
  2:{ exists w, (arHash ht), (arData ht), j. assert (nNumUsed ht = i + 1) as E by lia.
      rewrite E. unfold moved. rewrite (proj2 (andb_false_iff _ _)).
      2:{ left. destruct (Z.ltb_spec i (nInternalPointer ht)),
            (Z.ltb_spec (nInternalPointer ht) (i + 1)); try done; lia. }
      split_and!; try done. by destruct ht. }
  destruct (zget_is_Some (arData ht) (i + 1)) as [p Hp]; [lia|].
  rewrite (rd_ok _ _ _ Hp), bind_ok.
  assert (zget D0 (i + 1) = Some p) as Hp0 by (rewrite <- Hrest; [done|lia]).
  pose proof (moved_step D0 (nNumUsed ht) i (nInternalPointer ht) p ltac:(lia) Hlt Hp0) as Hmv.
  pose proof (rank_succ D0 _ _ Hp0) as Hrk1.
  unfold live in *. destruct (is_undef (b_val p)) eqn:Eu; cbn [negb] in *.
  - destruct (IH w ht (i + 1) j ip) as (w' & H' & D' & j' & Hr & Hrest');
      try done; try lia.
    + intros k Hk. apply Hrest. lia.
    + rewrite (cores_succ _ _ _ Hp0). unfold bcore, live. rewrite Eu. cbn.
      by rewrite app_nil_r.
    + exists w', H', D', j'. rewrite Hr. split; [|done]. by rewrite Hmv, andb_false_r.
  - destruct (zget_is_Some (arData ht) j) as [q Hq]; [lia|].
    rewrite (rd_ok _ _ _ Hq), bind_ok, wr_ok, bind_ok by lia.
    set (b := mkBucket (b_val p) (b_next q) (b_h p) (b_key p)).
    set (D1 := zset (arData ht) j b). set (ht1 := set_arData D1 ht).
    assert (zget D1 j = Some b) as Hb1 by (apply zget_zset_eq; lia).
    assert (live b = true) as Hlb by (unfold live, b; cbn; by rewrite Eu).
    destruct (ht_link_ok ht1 j b Hg Hb1) as (x & Hx & Hlink). rewrite Hlink, bind_ok.
    cbn [ht1 set_arData set_alloc arHash nTableMask arData arPacked] in *.
    set (s := b_h b mod zlen (arHash ht)) in *.
    set (H2 := zset (arHash ht) s j). set (D2 := zset D1 j (with_next x b)).
    assert (chains_ok H2 D2 (j + 1)) as Hc2.
    { apply chains_link; try done; [by apply geom_pos|lia|lia|].
      eapply chains_agree; [|exact Hc]. intros k Hk. unfold D1.
      rewrite zget_zset_ne; [done|lia..]. }
    assert (zlen D2 = zlen (arData ht)) as HlD2 by (unfold D2, D1; by rewrite !zlen_zset).
    assert (zlen H2 = zlen (arHash ht)) as HlH2 by (unfold H2; by rewrite zlen_zset).
    assert (cores (pre (j + 1) D2) = cores (pre (i + 1 + 1) D0)) as Hco2.
    { rewrite (cores_succ D0 _ _ Hp0), <- Hco.
      rewrite (cores_succ D2 j (with_next x b))
        by (apply zget_zset_eq; unfold D1; rewrite zlen_zset; lia).
      unfold D2, D1. rewrite !pre_zset_ge by lia. done. }
    set (iptr := if nInternalPointer ht =? i + 1 then j else nInternalPointer ht).
    set (ht2 := rehashed ht H2 D2 iptr).
    assert (exists w1 ip1,
      (if HT_HAS_ITERATORS ht2 && (ip <=? i + 1)
       then rehash_iters (S (Z.to_nat (nNumUsed ht2))) w ht2 (i + 1) j ip
       else Ok (w, ip)) = Ok (w1, ip1) /\ w_same w w1 /\ 0 <= ip1) as (w1 & ip1 & Hit & Hw1 & Hip1).
    { destruct (HT_HAS_ITERATORS ht2); cbn [andb]; [|by exists w, ip].
      destruct (Z.leb_spec ip (i + 1)); [|by exists w, ip].
      apply rehash_iters_ok; cbn; lia. }
    match goal with |- context [nInternalPointer ?t =? i + 1] =>
      replace (if nInternalPointer t =? i + 1 then set_nInternalPointer j t else t) with ht2
        by (unfold ht2, rehashed, iptr; cbn; by destruct (nInternalPointer ht =? i + 1)) end.
    rewrite Hit, bind_ok.
    destruct (IH w1 ht2 (i + 1) (j + 1) ip1) as (w' & H' & D' & j' & Hr & Hws & HlH & HlD & Hch & Hcf & Hj');
      cbn [ht2 rehashed set_nInternalPointer set_counts set_alloc nNumUsed arHash arData];
      try lia; try done.
    + destruct Hg as (jj & ? & ? & ?). exists jj. cbn. by rewrite HlH2.
    + intros k Hk. unfold D2, D1. rewrite !zget_zset_ne by lia. apply Hrest. lia.
    + exists w', H', D', j'. rewrite Hr.
      split; [|split_and!; [by etransitivity|exact (eq_trans HlH HlH2)
               |exact (eq_trans HlD HlD2)|done..]].
      unfold ht2 at 1. rewrite rehashed_twice. do 4 f_equal.
      cbn [ht2 rehashed set_nInternalPointer set_counts set_alloc nNumUsed nInternalPointer].
      unfold iptr. rewrite Hmv, andb_true_r. destruct (nInternalPointer ht =? i + 1); [|done].
      rewrite moved_low by lia. lia.
Qed.

(** ** The loop of a table with holes *)

Lemma rank_full D i : 0 <= i <= zlen D -> rank D i = i ->
  forall k, 0 <= k <= i -> rank D k = k.
Proof.
  intros Hi Hr k Hk. destruct (Z.eq_dec k i) as [->|]; [done|].
  assert (forall m : nat, Z.of_nat m <= i -> rank D (i - Z.of_nat m) = i - Z.of_nat m) as Hm.
  { induction m as [|m IH]; intros Hm; [by rewrite Z.sub_0_r|].
    specialize (IH ltac:(lia)). destruct (zget_is_Some D (i - Z.of_nat (S m))) as [b Hb]; [lia|].
    pose proof (rank_succ _ _ _ Hb) as Hs.
    replace (i - Z.of_nat (S m) + 1) with (i - Z.of_nat m) in Hs by lia.
    pose proof (rank_le D (i - Z.of_nat (S m)) ltac:(lia)). destruct (live b); lia. }
  specialize (Hm (Z.to_nat (i - k))). rewrite Z2Nat.id in Hm by lia.
  replace (i - (i - k)) with k in Hm by lia. apply Hm. lia.
Qed.

Lemma moved_first_hole D n i k : 0 <= i <= zlen D -> rank D i = i ->
  live_at D i = false \/ i = n -> moved D n i k = moved D n (-1) k.
Proof.
  intros Hi Hr Hh. unfold moved. destruct (Z.ltb_spec i k), (Z.ltb_spec (-1) k); try done; try lia.
  cbn. destruct (Z.ltb_spec k n); [|done]. cbn. destruct (live_at D k) eqn:El; [|done].
  symmetry. apply (rank_full D i); auto. lia.
Qed.

Lemma rehash_holes_spec fuel : forall w ht i,
  geom ht -> nNumUsed ht <= zlen (arData ht) -> nNumUsed ht < HT_INVALID_IDX ->
  0 <= i < nNumUsed ht -> (Z.to_nat (nNumUsed ht - i) <= fuel)%nat ->
  chains_ok (arHash ht) (arData ht) i -> rank (arData ht) i = i ->
  exists w' H' D' n',
    rehash_holes fuel w ht i
    = Ok (w', set_nNumUsed n'
                (rehashed ht H' D' (moved (arData ht) (nNumUsed ht) (-1) (nInternalPointer ht))))
    /\ w_same w w' /\ zlen H' = zlen (arHash ht) /\ zlen D' = zlen (arData ht)
    /\ chains_ok H' D' n' /\ cores (pre n' D') = cores (pre (nNumUsed ht) (arData ht))
    /\ n' = rank (arData ht) (nNumUsed ht).
Proof.
  induction fuel as [|fuel IH]; intros w ht i Hg Hlen Hinv Hi Hf Hc Hrk; [lia|].
  cbn [rehash_holes].
  destruct (zget_is_Some (arData ht) i) as [p Hp]; [lia|]. rewrite (rd_ok _ _ _ Hp), bind_ok.
  pose proof (rank_succ _ _ _ Hp) as Hrk1. unfold live in Hrk1.
  destruct (is_undef (b_val p)) eqn:Eu; cbn [negb] in Hrk1.
  - set (ip := if HT_HAS_ITERATORS ht then _ else 0).
    assert (0 <= ip) as Hip.
    { unfold ip. destruct (HT_HAS_ITERATORS ht); [|lia].
      pose proof (lower_pos_bounds w ht (i + 1)). lia. }
    destruct (rehash_compact_spec (arData ht) (S fuel) w ht i i ip)
      as (w' & H' & D' & j' & Hr & Hw & HlH & HlD & Hch & Hco & Hj); try done; try lia.
    + rewrite (cores_succ _ _ _ Hp). unfold bcore, live. rewrite Eu. cbn. by rewrite app_nil_r.
    + exists w', H', D', j'. rewrite Hr, bind_ok. split_and!; try done.
      rewrite (moved_first_hole _ _ i) by
        (try lia; left; unfold live_at, live; rewrite Hp, Eu; done). done.
  - assert (live p = true) as Hlp by (unfold live; by rewrite Eu).
    destruct (ht_link_ok ht i p Hg Hp) as (x & Hx & Hlink). rewrite Hlink, bind_ok.
    set (H1 := zset (arHash ht) (b_h p mod zlen (arHash ht)) i) in *.
    set (D1 := zset (arData ht) i (with_next x p)) in *.
    set (ht1 := set_alloc (nTableMask ht) H1 D1 (arPacked ht) ht).
    assert (chains_ok H1 D1 (i + 1)) as Hc1.
    { apply chains_link; try done; [by apply geom_pos|lia|lia]. }
    assert (forall m, cores (pre m D1) = cores (pre m (arData ht))) as Hcores
      by (intros m; by apply cores_zset_same with p).
    assert (forall m, rank D1 m = rank (arData ht) m) as Hrank
      by (intros m; unfold rank; by rewrite Hcores).
    assert (forall k, live_at D1 k = live_at (arData ht) k) as Hlive.
    { intros k. unfold live_at, D1. destruct (Z.eq_dec i k) as [<-|].
      - rewrite zget_zset_eq, Hp by lia. done.
      - by rewrite zget_zset_ne by lia. }
    assert (zlen D1 = zlen (arData ht)) as HlD1 by apply zlen_zset.
    assert (zlen H1 = zlen (arHash ht)) as HlH1 by apply zlen_zset.
    assert (moved D1 (nNumUsed ht) (-1) (nInternalPointer ht)
            = moved (arData ht) (nNumUsed ht) (-1) (nInternalPointer ht)) as Hmv
      by (unfold moved; by rewrite Hlive, Hrank).
    change (nNumUsed ht1) with (nNumUsed ht).
    destruct (Z.ltb_spec (i + 1) (nNumUsed ht)) as [Hlt|Hge].
    + destruct (IH w ht1 (i + 1)) as (w' & H' & D' & n' & Hr & Hw & HlH & HlD & Hch & Hco & Hn');
        cbn [ht1 set_alloc nNumUsed arHash arData]; rewrite ?Hrank, ?Hrk1; try lia; try done.
      * destruct Hg as (jj & ? & ? & ?). exists jj. cbn. by rewrite HlH1.
      * exists w', H', D', n'. rewrite Hr. cbn in HlH, HlD, Hco, Hn'.
        split_and!; try done; try congruence.
        change (nNumUsed ht1) with (nNumUsed ht). change (arData ht1) with D1.
        change (nInternalPointer ht1) with (nInternalPointer ht). by rewrite Hmv.
    + assert (nNumUsed ht = i + 1) as E by lia. exists w, H1, D1, (nNumUsed ht).
      rewrite <- Hmv. assert (rank (arData ht) (nNumUsed ht) = nNumUsed ht) as Hrn
        by (rewrite E; lia).
      rewrite <- (moved_first_hole D1 (nNumUsed ht) (nNumUsed ht)) by (try rewrite Hrank; auto; lia).
      assert (moved D1 (nNumUsed ht) (nNumUsed ht) (nInternalPointer ht) = nInternalPointer ht) as ->.
      { unfold moved. destruct (Z.ltb_spec (nNumUsed ht) (nInternalPointer ht)),
          (Z.ltb_spec (nInternalPointer ht) (nNumUsed ht)); try done; lia. }
      split_and!; try done.
      by rewrite E.
Qed.

(** ** zend_hash_rehash *)

(** The result of a rehash: no holes, complete chains, the same cores. *)
Definition rehash_post (w : world) (ht : HashTable) (w' : world) (ht' : HashTable) : Prop :=
  exists H' D' n' k',
    ht' = set_nNumUsed n' (rehashed ht H' D' k') /\ w_same w w'
    /\ zlen H' = 2 * nTableSize ht /\ zlen D' = nTableSize ht
    /\ chains_ok H' D' n' /\ n' = nNumOfElements ht
    /\ cores (pre n' D') = cores (pre (nNumUsed ht) (arData ht))
    /\ (0 < nNumOfElements ht ->
        k' = moved (arData ht) (nNumUsed ht) (-1) (nInternalPointer ht)).

Lemma zend_hash_rehash_spec w ht :
  mgeom ht -> f_uninit ht = false ->
  nNumOfElements ht = rank (arData ht) (nNumUsed ht) ->
  exists w' ht', zend_hash_rehash w ht = Ok (w', ht') /\ rehash_post w ht w' ht'.
Proof.
  intros Hg Hun Hcnt. destruct (Hg) as [Hs Hm Hd Hu]. unfold zend_hash_rehash.
  pose proof (size_ok_bounds _ Hs) as Hsz. unfold HT_MAX_SIZE in Hsz.
  set (R := replicate (Z.to_nat (HT_HASH_WORDS (nTableMask ht))) HT_INVALID_IDX).
  assert (zlen R = 2 * nTableSize ht) as HlR.
  { unfold R. rewrite zlen_replicate, Hm, mask_words by done. lia. }
  assert (geom (HT_HASH_RESET ht)) as Hgeom by (apply mgeom_geom; [by destruct Hg|exact HlR]).
  destruct (Z.eqb_spec (nNumOfElements ht) 0) as [E0|E0].
  - rewrite Hun. eexists _, _. split; [done|].
    exists R, (arData ht), 0, (nInternalPointer ht). split_and!; try done.
    + apply chains_empty.
    + change (cores (pre 0 (arData ht))) with (@nil core).
      rewrite Hcnt in E0. unfold rank, zlen in E0.
      destruct (cores _); cbn in *; [done|lia].
    + lia.
  - pose proof (rank_le (arData ht) (nNumUsed ht) ltac:(lia)) as Hrl.
    assert (chains_ok R (arData ht) 0) as Hc0 by apply chains_empty.
    assert (nNumUsed ht < HT_INVALID_IDX) as Hinv by (unfold HT_INVALID_IDX; lia).
    unfold HT_IS_WITHOUT_HOLES. cbn [HT_HASH_RESET set_arHash set_alloc nNumUsed nNumOfElements].
    destruct (Z.eqb_spec (nNumUsed ht) (nNumOfElements ht)) as [Efull|Eholes].
    + destruct (rehash_plain_spec (S (Z.to_nat (nNumUsed ht))) (HT_HASH_RESET ht) 0)
        as (H' & D' & Hr & HlH & HlD & Hch & Hco); cbn [HT_HASH_RESET set_arHash set_alloc
          nNumUsed arData arHash]; try done; try lia.
      { intros k b Hk Hb. eapply (cores_full (arData ht) (nNumUsed ht) k); [|lia|done].
        rewrite zlen_pre by lia. change (rank (arData ht) (nNumUsed ht) = nNumUsed ht). lia. }
      rewrite Hr, bind_ok. eexists _, _. split; [done|].
      exists H', D', (nNumUsed ht), (nInternalPointer ht).
      cbn [HT_HASH_RESET set_arHash set_alloc nNumUsed arData arHash] in *.
      split_and!; try done; try congruence; try exact (eq_trans HlH HlR).
      * intros _. assert (rank (arData ht) (nNumUsed ht) = nNumUsed ht) as Hrn by lia.
        rewrite <- (moved_first_hole (arData ht) (nNumUsed ht) (nNumUsed ht)) by (auto; lia).
        unfold moved. destruct (Z.ltb_spec (nNumUsed ht) (nInternalPointer ht)),
          (Z.ltb_spec (nInternalPointer ht) (nNumUsed ht)); try done; lia.
    + destruct (rehash_holes_spec (S (Z.to_nat (nNumUsed ht))) w (HT_HASH_RESET ht) 0)
        as (w' & H' & D' & n' & Hr & Hw & HlH & HlD & Hch & Hco & Hn');
        cbn [HT_HASH_RESET set_arHash set_alloc nNumUsed arData arHash nInternalPointer] in *;
        try done; try lia.
      rewrite Hr, bind_ok.
      set (ht' := set_nNumUsed n' _).
      assert (forall w2, w_same w w2 -> rehash_post w ht w2 ht') as Hpost.
      { intros w2 Hw2. exists H', D', n', (moved (arData ht) (nNumUsed ht) (-1) (nInternalPointer ht)).
        split_and!; try done; try congruence; exact (eq_trans HlH HlR). }
      destruct (HT_HAS_ITERATORS ht'); eexists _, _; (split; [done|]); apply Hpost; [|done].
      etransitivity; [exact Hw|]. apply for_iters_same. intros it. by destruct (_ && _).
Qed.
