(* ===== verification/HashInv.v ===== *)
(** * The representation invariant of the hash table

    [mixed ht cs] says that an initialised hash stores the entries [cs];
    [ht_inv] is the invariant of every table, in each of its three layouts. *)

From S2P Require Import Prelude.
From S2P Require Import ZendString.
From S2P Require Import OrderedMap.
From S2P Require Import HashTypes.
From S2P Require Import HashOps.
From S2P Require Import HashChain.
From S2P Require Import HashRehash.

Section Inv.
Context {E : ZendEnv}.

(** The hash of a string key is the hash of its bytes; an integer key is a
    64-bit value. *)
Definition core_wf (c : core) : Prop :=
  match c.2 with Some k => c.1.2 = ZSTR_H k | None => 0 <= c.1.2 < 2 ^ 64 end.
Definition core_static (c : core) : Prop :=
  match c.2 with Some k => ZSTR_IS_INTERNED k = true | None => True end.

Record mixed (ht : HashTable) (cs : list core) : Prop := {
  mx_geom : mgeom ht;
  mx_packed : f_packed ht = false;
  mx_uninit : f_uninit ht = false;
  mx_hash : zlen (arHash ht) = 2 * nTableSize ht;
  mx_chains : chains_ok (arHash ht) (arData ht) (nNumUsed ht);
  mx_cores : cores (pre (nNumUsed ht) (arData ht)) = cs;
  mx_count : nNumOfElements ht = zlen cs;
}.

(** The used part of a packed array ends with an element, at or below
    nNextFreeElement. *)
Definition last_live (ht : HashTable) : Prop :=
  nNumUsed ht = 0 \/ exists v, zget (arPacked ht) (nNumUsed ht - 1) = Some v /\ v <> IS_UNDEF.
Definition packed_end (ht : HashTable) : Prop :=
  nNumUsed ht <= Z.max 0 (nNextFreeElement ht) /\ last_live ht.

Inductive layout (ht : HashTable) : Prop :=
| LUninit : f_uninit ht = true -> f_packed ht = false -> nTableMask ht = HT_MIN_MASK ->
    arHash ht = [HT_INVALID_IDX; HT_INVALID_IDX] -> nNumUsed ht = 0 -> layout ht
| LPacked : f_uninit ht = false -> f_packed ht = true -> nTableMask ht = HT_MIN_MASK ->
    arHash ht = [HT_INVALID_IDX; HT_INVALID_IDX] -> zlen (arPacked ht) = nTableSize ht ->
    packed_end ht -> layout ht
| LMixed : mixed ht (ht_cores ht) -> layout ht.

(** nNextFreeElement lies above the integer keys, up to saturation. *)
Definition free_ok (nfree : Z) (cs : list core) : Prop :=
  ZEND_LONG_MIN <= nfree <= ZEND_LONG_MAX
  /\ forall h v, (v, h, None) ∈ cs -> i64 h < nfree \/ nfree = ZEND_LONG_MAX.

Record ht_inv (ht : HashTable) : Prop := {
  inv_size : size_ok (nTableSize ht);
  inv_used : 0 <= nNumUsed ht <= nTableSize ht;
  inv_count : nNumOfElements ht = zlen (ht_cores ht);
  inv_nodup : NoDup (okeys (ht_elements ht));
  inv_wf : Forall core_wf (ht_cores ht);
  inv_static : f_static ht = true -> Forall core_static (ht_cores ht);
  inv_free : free_ok (nNextFreeElement ht) (ht_cores ht);
  inv_layout : layout ht;
}.

(** ** Cores by index *)

Definition bkey (b : Bucket) : hkey := ckey (b_val b, b_h b, b_key b).

(** [at_index ht i b]: bucket [i] is in use, live, and equal to [b]. *)
Definition at_index (ht : HashTable) (i : Z) (b : Bucket) : Prop :=
  0 <= i < nNumUsed ht /\ zget (arData ht) i = Some b /\ live b = true.

Lemma elem_of_cores D n c : 0 <= n <= zlen D ->
  c ∈ cores (pre n D) <-> exists i b, 0 <= i < n /\ zget D i = Some b /\ bcore b = Some c.
Proof.
  intros Hn. unfold cores. rewrite list_elem_of_omap. split.
  - intros (b & Hb & Hc). apply list_elem_of_lookup in Hb as [i Hi].
    pose proof (lookup_lt_Some _ _ _ Hi) as Hlt. unfold pre in Hlt, Hi.
    rewrite length_take in Hlt. rewrite lookup_take_lt in Hi by lia.
    exists (Z.of_nat i), b. split; [lia|]. split; [|done]. unfold zget.
    by rewrite (proj2 (Z.leb_le _ _)), Nat2Z.id by lia.
  - intros (i & b & Hi & Hb & Hc). exists b. split; [|done].
    apply list_elem_of_lookup. exists (Z.to_nat i). unfold pre, zget in *.
    rewrite (proj2 (Z.leb_le _ _)) in Hb by lia. rewrite lookup_take_lt by lia. done.
Qed.

Lemma mixed_split ht cs i b : mixed ht cs -> at_index ht i b ->
  cs = cores (pre i (arData ht)) ++ (b_val b, b_h b, b_key b)
         :: cores (drop (S (Z.to_nat i)) (pre (nNumUsed ht) (arData ht))).
Proof.
  intros Hm (Hi & Hb & Hl). rewrite <- (mx_cores _ _ Hm).
  pose proof (pre_split (arData ht) (nNumUsed ht) i b ltac:(lia) Hb) as Hs.
  set (r := drop _ _) in *. rewrite Hs. by rewrite cores_app, cores_cons, bcore_live.
Qed.

Lemma mixed_key_index ht cs k : mixed ht cs ->
  k ∈ okeys (centry <$> cs) <-> exists i b, at_index ht i b /\ bkey b = k.
Proof.
  intros Hm. destruct (mx_geom _ _ Hm) as [Hs _ Hd Hu]. unfold okeys.
  rewrite <- list_fmap_compose, list_elem_of_fmap. rewrite <- (mx_cores _ _ Hm). split.
  - intros (c & -> & Hc). apply elem_of_cores in Hc as (i & b & Hi & Hb & Hcore); [|lia].
    exists i, b. unfold bcore in Hcore. destruct (live b) eqn:El; [|done].
    by simplify_eq.
  - intros (i & b & (Hi & Hb & Hl) & <-). exists (b_val b, b_h b, b_key b). split; [done|].
    apply elem_of_cores; [lia|]. exists i, b. by rewrite bcore_live.
Qed.

Lemma mixed_elem ht cs i b : mixed ht cs -> at_index ht i b -> (b_val b, b_h b, b_key b) ∈ cs.
Proof. intros Hm Hi. rewrite (mixed_split _ _ _ _ Hm Hi). set_solver. Qed.

Lemma mixed_lookup ht cs i b : mixed ht cs -> at_index ht i b ->
  NoDup (okeys (centry <$> cs)) -> olookup (bkey b) (centry <$> cs) = Some (b_val b).
Proof.
  intros Hm Hi. rewrite (mixed_split _ _ _ _ Hm Hi), fmap_app, fmap_cons.
  change (centry (b_val b, b_h b, b_key b)) with (bkey b, b_val b).
  intros (H1 & _ & _)%NoDup_middle. by apply olookup_middle.
Qed.

Lemma mixed_geom ht cs : mixed ht cs -> geom ht.
Proof. intros Hm. apply mgeom_geom; [apply Hm|apply Hm]. Qed.

(** ** Lookup *)

(** What a lookup of [k] returns: an index whose bucket has this key, or
    nothing when no entry has it. *)
Definition found (ht : HashTable) (cs : list core) (k : hkey) (r : option Z) : Prop :=
  match r with
  | Some i => exists b, at_index ht i b /\ bkey b = k
  | None => k ∉ okeys (centry <$> cs)
  end.

(** A test of buckets that accepts the key [k] and no other. *)
Definition tests (m : Bucket -> bool) (k : hkey) : Prop :=
  forall b, core_wf (b_val b, b_h b, b_key b) -> m b = true <-> bkey b = k.
Definition hash_of (k : hkey) : Z :=
  match k with KInt h => h | KStr s => zend_inline_hash_func s end.

Lemma core_wf_hash c : core_wf c -> c.1.2 = hash_of (ckey c).
Proof. destruct c as [[v h] [k|]]; cbn; [|done]. by intros ->. Qed.

Lemma tests_key key : tests (match_key key) (KStr (ZSTR_VAL key)).
Proof.
  intros b Hwf. unfold match_key, bkey, ckey, core_wf, bytes_eqb in *. cbn in *.
  destruct (b_key b) as [k|]; [|split; [done|congruence]].
  rewrite orb_true_iff, andb_true_iff, bool_decide_eq_true, !Z.eqb_eq. split.
  - intros [->|[_ ->]]; done.
  - intros [= Hk]. right. split; [|done]. unfold ZSTR_H in *. congruence.
Qed.

Lemma tests_str str : tests (match_str str (zend_inline_hash_func str)) (KStr str).
Proof.
  intros b Hwf. unfold match_str, bkey, ckey, core_wf, bytes_eqb in *. cbn in *.
  destruct (b_key b) as [k|]; [|split; [done|congruence]].
  rewrite andb_true_iff, bool_decide_eq_true, Z.eqb_eq. unfold ZSTR_H in *.
  split; [intros [_ ->]; done|]. intros [= Hk]. split; congruence.
Qed.

Lemma tests_index h : tests (match_index h) (KInt h).
Proof.
  intros b Hwf. unfold match_index, bkey, ckey in *. cbn in *.
  destruct (b_key b) as [k|]; [split; [done|congruence]|].
  rewrite Z.eqb_eq. split; [by intros ->|by intros [= ->]].
Qed.

Lemma chain_lookup ht cs m k : mixed ht cs -> Forall core_wf cs -> tests m k ->
  exists idx, HT_HASH ht (nIndex_of ht (hash_of k)) = Ok idx
    /\ exists l, chain (arData ht) idx l /\ (length l < chain_fuel ht)%nat
       /\ l = chain_idx (arData ht) (zlen (arHash ht)) (nNumUsed ht)
                (hash_of k mod zlen (arHash ht))
       /\ found ht cs k (first_match (arData ht) m l).
Proof.
  intros Hm Hwf Ht. pose proof (mixed_geom _ _ Hm) as Hg.
  destruct (mx_geom _ _ Hm) as [Hs _ Hd Hu].
  destruct (mx_chains _ _ Hm (hash_of k mod zlen (arHash ht))) as (idx & Hidx & Hch);
    [by apply slot_range|].
  exists idx. split; [by apply HT_HASH_ok|]. set (l := chain_idx _ _ _ _) in *.
  assert (forall b i, at_index ht i b -> m b = true <-> bkey b = k) as Htest.
  { intros b i Hi. apply Ht. rewrite Forall_forall in Hwf. apply Hwf.
    by eapply mixed_elem. }
  exists l. split_and!; [done| |done|].
  { pose proof (length_chain_idx (arData ht) (zlen (arHash ht)) (nNumUsed ht)
      (hash_of k mod zlen (arHash ht))) as Hlen.
    fold l in Hlen. unfold chain_fuel, zlen in *. lia. }
  unfold found, first_match. destruct (filter _ l) as [|i rest] eqn:Ef; cbn.
  - rewrite (mixed_key_index _ _ _ Hm). intros (i & b & Hi & Hk).
    assert (i ∈ filter (fun i => match zget (arData ht) i with Some b => m b | None => false end
              = true) l) as Hin; [|by rewrite Ef in Hin; apply not_elem_of_nil in Hin].
    destruct (Hi) as (Hr & Hb & Hl). apply list_elem_of_filter. rewrite Hb. split.
    + by apply (Htest b i Hi).
    + apply elem_of_chain_idx. split; [lia|]. unfold in_slot. rewrite Hb, Hl. cbn.
      apply Z.eqb_eq. f_equal. rewrite <- Hk. unfold bkey.
      pose proof (mixed_elem _ _ _ _ Hm Hi) as Hel. rewrite Forall_forall in Hwf.
      by rewrite <- (core_wf_hash _ (Hwf _ Hel)).
  - assert (i ∈ i :: rest) as Hin by set_solver. rewrite <- Ef in Hin.
    apply list_elem_of_filter in Hin as [Hmb Hin]. apply elem_of_chain_idx in Hin as [Hr Hsl].
    unfold in_slot in Hsl. destruct (zget (arData ht) i) as [b|] eqn:Hb; [|done].
    apply andb_prop in Hsl as [Hl _]. assert (at_index ht i b) as Hi by done.
    exists b. split; [done|]. by apply (Htest b i Hi).
Qed.

Lemma mixed_find ht cs m k : mixed ht cs -> Forall core_wf cs -> tests m k ->
  exists idx r, HT_HASH ht (nIndex_of ht (hash_of k)) = Ok idx
    /\ chain_find (chain_fuel ht) (arData ht) m idx = Ok r /\ found ht cs k r.
Proof.
  intros Hm Hwf Ht. destruct (chain_lookup _ _ _ _ Hm Hwf Ht)
    as (idx & Hidx & l & Hch & Hlen & _ & Hf).
  exists idx, (first_match (arData ht) m l). split_and!; try done. by apply chain_find_spec.
Qed.

(** The hash part of an empty or a packed table sends every lookup to
    HT_INVALID_IDX. *)
Lemma min_mask_hash ht h : nTableMask ht = HT_MIN_MASK ->
  arHash ht = [HT_INVALID_IDX; HT_INVALID_IDX] ->
  HT_HASH ht (nIndex_of ht h) = Ok HT_INVALID_IDX.
Proof.
  intros Hm Ha. apply HT_HASH_ok.
  - exists 1. rewrite Hm, Ha. split_and!; [lia..| reflexivity | reflexivity].
  - rewrite Ha. change (zlen _) with 2.
    assert (h mod 2 = 0 \/ h mod 2 = 1) as [-> | ->]; [|done|done].
    pose proof (Z.mod_pos_bound h 2). lia.
Qed.
End Inv.
