(* ===== verification/HashLayout.v ===== *)
(** * Growth and changes of layout

    Appending a bucket, rehashing, doubling, conversion from packed to hash:
    each keeps the entries and their order. *)

From S2P Require Import Prelude.
From S2P Require Import ZendString.
From S2P Require Import OrderedMap.
From S2P Require Import HashTypes.
From S2P Require Import HashOps.
From S2P Require Import HashChain.
From S2P Require Import HashRehash.
From S2P Require Import HashInv.

(** The fields that growth and rehashing leave alone. *)
Definition same_frame (a b : HashTable) : Prop :=
  ht_addr b = ht_addr a /\ f_static b = f_static a /\ f_empty_ind b = f_empty_ind a
  /\ nIteratorsCount b = nIteratorsCount a /\ nNextFreeElement b = nNextFreeElement a
  /\ pDestructor b = pDestructor a.

#[export] Instance same_frame_preorder : PreOrder same_frame.
Proof.
  split; [by intros x|]. intros x y z (A1 & A2 & A3 & A4 & A5 & A6) (B1 & B2 & B3 & B4 & B5 & B6).
  split_and!; congruence.
Qed.

Section Layout.
Context {E : ZendEnv}.

Lemma mixed_rehash w ht cs :
  mgeom ht -> f_uninit ht = false -> f_packed ht = false ->
  cores (pre (nNumUsed ht) (arData ht)) = cs -> nNumOfElements ht = zlen cs ->
  exists w' ht', zend_hash_rehash w ht = Ok (w', ht') /\ mixed ht' cs /\ w_same w w'
    /\ same_frame ht ht' /\ nNumUsed ht' = zlen cs /\ nTableSize ht' = nTableSize ht
    /\ (0 < zlen cs -> nInternalPointer ht'
          = moved (arData ht) (nNumUsed ht) (-1) (nInternalPointer ht)).
Proof.
  intros Hg Hun Hp Hcs Hn.
  destruct (zend_hash_rehash_spec w ht Hg Hun) as (w' & ht' & Hr & Hpost).
  { unfold rank. by rewrite Hcs. }
  destruct Hpost as (H' & D' & n' & k' & -> & Hw & HlH & HlD & Hch & Hn' & Hco & Hk).
  destruct Hg as [Hs Hm Hd Hu]. pose proof (rank_le (arData ht) (nNumUsed ht) ltac:(lia)) as Hrk.
  unfold rank in Hrk. rewrite Hcs in Hrk.
  eexists _, _. split; [exact Hr|]. split_and!; try done.
  - split; cbn; try done; [split; cbn; try done; lia|congruence].
  - cbn. congruence.
  - intros. apply Hk. lia.
Qed.

(** ** Appending a bucket *)

Lemma mixed_append ht cs h key v : mixed ht cs -> nNumUsed ht < nTableSize ht ->
  v <> IS_UNDEF ->
  exists ht' b, ht_append ht h key v = Ok (ht', Some (PData (nNumUsed ht)))
    /\ mixed ht' (cs ++ [(v, h, key)]) /\ same_frame ht ht'
    /\ nTableSize ht' = nTableSize ht /\ nInternalPointer ht' = nInternalPointer ht
    /\ zget (arData ht') (nNumUsed ht) = Some b
    /\ (b_val b, b_h b, b_key b) = (v, h, key) /\ nNumUsed ht' = nNumUsed ht + 1.
Proof.
  intros Hm Hlt Hv. destruct (mx_geom _ _ Hm) as [Hs Hmask Hd Hu].
  pose proof (mixed_geom _ _ Hm) as Hg. pose proof (size_ok_bounds _ Hs) as Hsz.
  unfold HT_MAX_SIZE in Hsz. unfold ht_append.
  set (n := nNumUsed ht) in *. cbn [set_nNumOfElements set_nNumUsed set_counts arData].
  destruct (zget_is_Some (arData ht) n) as [p Hp]; [lia|].
  rewrite (rd_ok _ _ _ Hp), bind_ok, wr_ok, bind_ok by lia.
  set (b := mkBucket v (b_next p) h key). set (D1 := zset (arData ht) n b).
  assert (zget D1 n = Some b) as Hb1 by (apply zget_zset_eq; lia).
  match goal with |- context [ht_link ?t n] => set (ht1 := t) end.
  destruct (ht_link_ok ht1 n b Hg Hb1) as (x & Hx & Hlink). rewrite Hlink, bind_ok.
  change (arHash ht1) with (arHash ht) in *. change (arData ht1) with D1 in *.
  set (H2 := zset (arHash ht) _ n). set (D2 := zset D1 n (with_next x b)).
  assert (live b = true) as Hlb by (unfold live; cbn; by destruct v).
  assert (zlen D2 = zlen (arData ht)) as HlD by (unfold D2, D1; by rewrite !zlen_zset).
  assert (zget D2 n = Some (with_next x b)) as Hb2
    by (apply zget_zset_eq; unfold D1; rewrite zlen_zset; lia).
  eexists _, (with_next x b). split; [done|]. split_and!; try done.
  split; cbn; try apply Hm.
  - split; cbn; try done; lia.
  - unfold H2. rewrite zlen_zset. apply Hm.
  - apply chains_link; try done; [by apply geom_pos|lia|unfold HT_INVALID_IDX; lia|].
    eapply chains_agree; [|apply (mx_chains _ _ Hm)]. intros k Hk.
    unfold D1. rewrite zget_zset_ne; [done|lia..].
  - rewrite (cores_succ _ _ _ Hb2). unfold D2, D1. rewrite !pre_zset_ge by lia.
    pose proof (mx_cores _ _ Hm) as Hcs. fold n in Hcs. rewrite Hcs, bcore_live by done. done.
  - rewrite (mx_count _ _ Hm). unfold zlen. rewrite length_app. cbn. lia.
Qed.

(** ** Growth *)

Lemma pre_copy_used {A} n (src dst : list A) : 0 <= n <= zlen src ->
  pre n (copy_used n src dst) = pre n src.
Proof.
  intros H. unfold pre, copy_used, zlen in *.
  rewrite take_app_length' by (rewrite length_take; lia). done.
Qed.

Lemma zlen_copy_used {A} n (src dst : list A) : 0 <= n <= zlen src -> n <= zlen dst ->
  zlen (copy_used n src dst) = zlen dst.
Proof.
  intros H1 H2. unfold copy_used, zlen in *. rewrite length_app, length_take, length_drop. lia.
Qed.

Lemma zlen_alloc_buckets n : 0 <= n -> zlen (alloc_buckets n) = n.
Proof. intros. unfold alloc_buckets. rewrite zlen_replicate. lia. Qed.

Lemma zlen_alloc_packed n : 0 <= n -> zlen (alloc_packed n) = n.
Proof. intros. unfold alloc_packed. rewrite zlen_replicate. lia. Qed.

Lemma mixed_realloc w ht cs n : mixed ht cs -> size_ok n -> nTableSize ht <= n ->
  exists w' ht', ht_realloc w ht n = Ok (w', ht') /\ mixed ht' cs /\ w_same w w'
    /\ same_frame ht ht' /\ nNumUsed ht' = zlen cs /\ nTableSize ht' = n.
Proof.
  intros Hm Hn Hle. destruct (mx_geom _ _ Hm) as [Hs Hmask Hd Hu].
  pose proof (size_ok_bounds _ Hn). unfold ht_realloc.
  match goal with |- context [zend_hash_rehash w ?t] =>
    destruct (mixed_rehash w t cs) as (w' & ht' & Hr & Hmx & Hw & Hf & Hu' & Hsz & _) end.
  - split; cbn; try done; [|lia].
    rewrite zlen_copy_used; rewrite ?zlen_alloc_buckets; lia.
  - apply Hm.
  - apply Hm.
  - cbn. rewrite pre_copy_used by lia. apply Hm.
  - apply Hm.
  - by exists w', ht'.
Qed.

Lemma mixed_do_resize w ht cs : mixed ht cs -> nTableSize ht <= nNumUsed ht ->
  runs (zend_hash_do_resize w ht)
    (fun '(w', ht') => mixed ht' cs /\ w_same w w' /\ same_frame ht ht'
                       /\ nNumUsed ht' < nTableSize ht')
    (nTableSize ht = HT_MAX_SIZE /\ nNumUsed ht <= zlen cs + Z.shiftr (zlen cs) 5).
Proof.
  intros Hm Hfull. destruct (mx_geom _ _ Hm) as [Hs Hmask Hd Hu].
  pose proof (size_ok_bounds _ Hs) as Hb. unfold zend_hash_do_resize.
  rewrite (mx_packed _ _ Hm), (mx_count _ _ Hm). cbn [assert_ negb]. rewrite bind_ok.
  assert (0 <= Z.shiftr (zlen cs) 5) by (apply Z.shiftr_nonneg; apply zlen_nonneg).
  destruct (Z.ltb_spec (zlen cs + Z.shiftr (zlen cs) 5) (nNumUsed ht)) as [Hlt|Hge].
  - destruct (mixed_rehash w ht cs) as (w' & ht' & Hr & Hmx & Hw & Hf & Hu' & Hsz & _);
      try apply Hm. eapply runs_ok; [exact Hr|]. split_and!; try done. lia.
  - destruct (Z.ltb_spec (nTableSize ht) HT_MAX_SIZE) as [Hmax|Hmax]; [|cbn; lia].
    pose proof (size_ok_double _ Hs Hmax) as Hs2. cbv zeta.
    rewrite (proj2 (Z.eqb_neq _ _)) by (by apply mask_nonzero). cbn [assert_ negb].
    rewrite bind_ok.
    destruct (mixed_realloc w ht cs _ Hm Hs2 ltac:(lia))
      as (w' & ht' & Hr & Hmx & Hw & Hf & Hu' & Hsz).
    eapply runs_ok; [exact Hr|]. split_and!; try done.
    pose proof (rank_le (arData ht) (nNumUsed ht) ltac:(lia)) as Hrk.
    unfold rank in Hrk. rewrite (mx_cores _ _ Hm) in Hrk. lia.
Qed.

(** The only reason for a fatal error: a table of the maximal size that is
    full and has too few holes to be worth compacting. *)
Definition at_capacity (ht : HashTable) : Prop :=
  nTableSize ht = HT_MAX_SIZE /\ nNumUsed ht = HT_MAX_SIZE
  /\ nNumUsed ht <= nNumOfElements ht + Z.shiftr (nNumOfElements ht) 5.

Lemma mixed_make_room w ht cs : mixed ht cs ->
  runs (ZEND_HASH_IF_FULL_DO_RESIZE w ht)
    (fun '(w', ht') => mixed ht' cs /\ w_same w w' /\ same_frame ht ht'
                       /\ nNumUsed ht' < nTableSize ht')
    (at_capacity ht).
Proof.
  intros Hm. unfold ZEND_HASH_IF_FULL_DO_RESIZE.
  destruct (Z.leb_spec (nTableSize ht) (nNumUsed ht)) as [Hfull|]; [|cbn; done].
  eapply runs_weaken; [by apply mixed_do_resize|done|]. intros [H1 H2].
  destruct (mx_geom _ _ Hm) as [_ _ _ Hu]. unfold at_capacity. rewrite (mx_count _ _ Hm). lia.
Qed.

(** ** From packed to hash *)

Lemma pcores_cores P n0 :
  pcores P = cores (imap (fun i v => mkBucket v n0 (Z.of_nat i) None) P).
Proof.
  unfold pcores, cores.
  assert (forall (f : nat -> nat), omap id (imap (fun i => pcore_at (f i)) P)
    = omap bcore (imap (fun i v => mkBucket v n0 (Z.of_nat (f i)) None) P)) as Hgen.
  { induction P as [|v P IH]; intros f; [done|]. rewrite !imap_cons. cbn.
    specialize (IH (f ∘ S)). unfold compose in *. unfold pcore_at at 1, bcore at 1, live.
    cbn. destruct (is_undef v); cbn; [exact IH|]. f_equal. exact IH. }
  exact (Hgen id).
Qed.

Lemma packed_to_hash_spec w ht :
  f_packed ht = true -> f_uninit ht = false -> size_ok (nTableSize ht) ->
  0 <= nNumUsed ht <= nTableSize ht -> nNumUsed ht <= zlen (arPacked ht) ->
  nNumOfElements ht = zlen (ht_cores ht) ->
  exists w' ht', zend_hash_packed_to_hash w ht = Ok (w', ht') /\ mixed ht' (ht_cores ht)
    /\ w_same w w' /\ same_frame ht ht' /\ nNumUsed ht' = zlen (ht_cores ht)
    /\ nTableSize ht' = nTableSize ht.
Proof.
  intros Hp Hun Hs Hu Hl Hc. unfold zend_hash_packed_to_hash.
  rewrite (proj2 (Z.eqb_neq _ _)) by (by apply mask_nonzero). cbn [negb assert_].
  rewrite bind_ok, (proj2 (Z.leb_le _ _)), (proj2 (Z.leb_le _ (nTableSize ht))) by lia.
  cbn [andb assert_]. rewrite bind_ok.
  match goal with |- context [zend_hash_rehash w ?t] =>
    destruct (mixed_rehash w t (ht_cores ht)) as (w' & ht' & Hr & Hmx & Hw & Hf & Hu' & Hsz & _)
  end.
  - split; cbn; try done. unfold zlen in *. rewrite length_app, length_imap, length_take, length_drop.
    unfold alloc_buckets. rewrite length_replicate. lia.
  - done.
  - done.
  - cbn. unfold ht_cores. rewrite Hp, (pcores_cores _ (b_next garbage)). f_equal.
    unfold pre. apply take_app_length'. rewrite length_imap, length_take. unfold zlen in Hl. lia.
  - done.
  - by exists w', ht'.
Qed.

(** ** A first allocation *)

Lemma real_init_mixed_spec ht : size_ok (nTableSize ht) -> nNumUsed ht = 0 ->
  nNumOfElements ht = 0 ->
  mixed (zend_hash_real_init_mixed ht) []
  /\ nNumUsed (zend_hash_real_init_mixed ht) = 0
  /\ nTableSize (zend_hash_real_init_mixed ht) = nTableSize ht
  /\ nNextFreeElement (zend_hash_real_init_mixed ht) = nNextFreeElement ht
  /\ f_static (zend_hash_real_init_mixed ht) = true
  /\ pDestructor (zend_hash_real_init_mixed ht) = pDestructor ht.
Proof.
  intros Hs Hu Hn. pose proof (size_ok_bounds _ Hs) as Hb.
  unfold zend_hash_real_init_mixed, zend_hash_real_init_mixed_ex.
  assert (zlen (alloc_buckets (nTableSize ht)) = nTableSize ht)
    by (apply zlen_alloc_buckets; lia).
  destruct (Z.eqb_spec (nTableSize ht) HT_MIN_SIZE) as [E8|E8]; split_and!; try done.
  - split; cbn; rewrite ?Hu; try done; [split; cbn; try done; lia| |].
    + rewrite E8. reflexivity.
    + apply (chains_empty _ 16).
  - split; cbn; rewrite ?Hu; try done; [split; cbn; try done; lia| |].
    + rewrite zlen_replicate, mask_words by done. lia.
    + apply chains_empty.
Qed.
End Layout.
