(* ===== verification/HashInsert.v ===== *)
(** * Lookup, insertion and update refine the ordered map

    zend_hash_find and its variants are the map's lookup; zend_hash_update,
    zend_hash_add, zend_hash_index_update and the others are its insertion, on
    every layout; the representation invariant is preserved. *)

From S2P Require Import Prelude.
From S2P Require Import ZendString.
From S2P Require Import OrderedMap.
From S2P Require Import HashTypes.
From S2P Require Import HashOps.
From S2P Require Import HashChain.
From S2P Require Import HashRehash.
From S2P Require Import HashInv.
From S2P Require Import HashLayout.

Section Insert.
Context {E : ZendEnv}.

(** The part of the invariant that speaks of the entries. *)
Definition side_ok (st : bool) (nfree : Z) (cs : list core) : Prop :=
  NoDup (okeys (centry <$> cs)) /\ Forall core_wf cs
  /\ (st = true -> Forall core_static cs) /\ free_ok nfree cs.

Lemma mixed_ht_cores ht cs : mixed ht cs -> ht_cores ht = cs.
Proof. intros Hm. unfold ht_cores. rewrite (mx_packed _ _ Hm). apply Hm. Qed.

Lemma mixed_inv ht cs : mixed ht cs -> side_ok (f_static ht) (nNextFreeElement ht) cs ->
  ht_inv ht /\ ht_elements ht = centry <$> cs.
Proof.
  intros Hm (H1 & H2 & H3 & H4). pose proof (mixed_ht_cores _ _ Hm) as Hcs.
  split; [|unfold ht_elements; by rewrite Hcs].
  destruct (mx_geom _ _ Hm) as [Hs Hmask Hd Hu].
  split; try done; unfold ht_elements; rewrite ?Hcs; try done; [apply Hm|].
  apply LMixed. by rewrite Hcs.
Qed.

Lemma inv_side ht : ht_inv ht -> side_ok (f_static ht) (nNextFreeElement ht) (ht_cores ht).
Proof. intros [? ? ? ? ? ? ? ?]. done. Qed.

Lemma free_ok_app nf nf' cs c : free_ok nf cs -> ZEND_LONG_MIN <= nf' <= ZEND_LONG_MAX ->
  nf <= nf' -> (c.2 = None -> i64 c.1.2 < nf' \/ nf' = ZEND_LONG_MAX) ->
  free_ok nf' (cs ++ [c]).
Proof.
  intros [Hr Hf] Hr' Hle Hc. split; [done|]. intros h v Hin.
  apply elem_of_app in Hin as [Hin | Hin%list_elem_of_singleton].
  - destruct (Hf _ _ Hin); [left; lia|right; lia].
  - subst c. by apply Hc.
Qed.

Lemma side_ok_app st nf st' nf' cs c : side_ok st nf cs ->
  ckey c ∉ okeys (centry <$> cs) -> core_wf c ->
  (st' = true -> st = true /\ core_static c) ->
  ZEND_LONG_MIN <= nf' <= ZEND_LONG_MAX -> nf <= nf' ->
  (c.2 = None -> i64 c.1.2 < nf' \/ nf' = ZEND_LONG_MAX) ->
  side_ok st' nf' (cs ++ [c]).
Proof.
  intros (Hn & Hw & Hst & Hf) Hfresh Hwf Hst' Hr Hle Hc. split_and!.
  - rewrite fmap_app, okeys_app. apply NoDup_app. cbn. split_and!; [done| |apply NoDup_singleton].
    intros x Hx ->%list_elem_of_singleton. done.
  - rewrite Forall_app. split; [done|]. by apply Forall_singleton.
  - intros Ht. destruct (Hst' Ht). rewrite Forall_app. split; [auto|]. by apply Forall_singleton.
  - by eapply free_ok_app.
Qed.

(** ** Appending an entry with a fresh key *)

(** The pointer [p] designates the value [v] of the entry with key [k]. *)
Definition points (ht : HashTable) (p : zptr) (k : hkey) (v : zval) : Prop :=
  match p with
  | PData i => f_packed ht = false /\ exists b, at_index ht i b /\ bkey b = k /\ b_val b = v
  | PPacked i => f_packed ht = true /\ 0 <= i < nNumUsed ht /\ zget (arPacked ht) i = Some v
                 /\ v <> IS_UNDEF /\ k = KInt i
  | PInd _ => False
  end.

Lemma points_get w ht p k v : points ht p k v -> zptr_get w ht p = Ok v.
Proof.
  destruct p as [i|i|a]; cbn; [|by intros (_ & _ & Hv & _); apply rd_ok|done].
  intros (_ & b & (_ & Hb & _) & _ & <-). by rewrite (rd_ok _ _ _ Hb).
Qed.

(** The outcome of an insertion: the invariant, the new entries, and a pointer
    to the value. *)
Definition inserted (w0 : world) (els : list (hkey * zval)) (k : hkey) (v : zval)
    (o : world * HashTable * option zptr) : Prop :=
  let '(w, ht, r) := o in
  ht_inv ht /\ ht_elements ht = els /\ (exists p, r = Some p /\ points ht p k v)
  /\ w_ind w = w_ind w0.

Lemma inserted_world w1 w els k v o : w_ind w1 = w_ind w ->
  inserted w1 els k v o -> inserted w els k v o.
Proof. destruct o as [[w' ht'] r]. intros Hw (H1 & H2 & H3 & H4). split_and!; [done..|congruence]. Qed.

Lemma append_spec w ht cs h key v nf : mixed ht cs -> nNumUsed ht < nTableSize ht ->
  v <> IS_UNDEF ->
  side_ok (f_static ht) nf cs -> ckey (v, h, key) ∉ okeys (centry <$> cs) ->
  core_wf (v, h, key) -> (f_static ht = true -> core_static (v, h, key)) ->
  ZEND_LONG_MIN <= nNextFreeElement ht <= ZEND_LONG_MAX -> nf <= nNextFreeElement ht ->
  (key = None -> i64 h < nNextFreeElement ht \/ nNextFreeElement ht = ZEND_LONG_MAX) ->
  exists ht', ht_append ht h key v = Ok (ht', Some (PData (nNumUsed ht)))
    /\ inserted w ((centry <$> cs) ++ [(ckey (v, h, key), v)]) (ckey (v, h, key)) v
         (w, ht', Some (PData (nNumUsed ht))).
Proof.
  intros Hm Hlt Hv Hside Hfresh Hwf Hst Hr Hle Hfree.
  destruct (mixed_append ht cs h key v Hm Hlt Hv)
    as (ht' & b & Happ & Hm' & (Ha & Hf1 & Hf2 & Hf3 & Hf4 & Hf5) & _ & _ & Hb & Hbv & Hus).
  exists ht'. split; [done|]. destruct (mixed_inv ht' _ Hm') as [Hi He].
  { rewrite Hf1, Hf4. eapply side_ok_app; eauto. }
  split_and!; [done|by rewrite He, fmap_app| |done]. eexists. split; [done|].
  destruct (mx_geom _ _ Hm) as [_ _ _ Hu]. injection Hbv as Hbv Hbh Hbk.
  split; [apply Hm'|]. exists b. unfold at_index, live, bkey. rewrite Hbv, Hbh, Hbk.
  split_and!; try done; try lia. by destruct v.
Qed.

(** ** Overwriting the value of an entry *)

Definition bshape (b : Bucket) : bool * Z * Z := (live b, b_next b, b_h b).

Lemma chains_shape H D D' n :
  (forall i, bshape <$> zget D' i = bshape <$> zget D i) ->
  chains_ok H D n -> chains_ok H D' n.
Proof.
  intros Hsh Hc s Hs. destruct (Hc s Hs) as (x & Hx & Hch). exists x. split; [done|].
  rewrite <- (chain_idx_ext D).
  - clear Hx. induction Hch as [|i b l Hi Hb Hch IH]; [constructor|].
    specialize (Hsh i). rewrite Hb in Hsh. destruct (zget D' i) as [b'|] eqn:Hb'; [|done].
    cbn in Hsh. unfold bshape in Hsh. simplify_eq. econstructor; [done..|]. congruence.
  - intros i Hi. unfold in_slot. specialize (Hsh i).
    destruct (zget D i) as [b|], (zget D' i) as [b'|]; cbn in Hsh; try done.
    unfold bshape in Hsh. by simplify_eq/=; congruence.
Qed.

Lemma mixed_set_val ht cs i b v : mixed ht cs -> at_index ht i b -> v <> IS_UNDEF ->
  exists c1 c2, cs = c1 ++ (b_val b, b_h b, b_key b) :: c2
    /\ mixed (set_arData (zset (arData ht) i (with_val v b)) ht)
         (c1 ++ (v, b_h b, b_key b) :: c2).
Proof.
  intros Hm Hi Hv. pose proof (mixed_split _ _ _ _ Hm Hi) as Hsp.
  destruct (Hi) as (Hr & Hb & Hl). destruct (mx_geom _ _ Hm) as [Hs Hmask Hd Hu].
  eexists _, _. split; [exact Hsp|].
  assert (live (with_val v b) = true) as Hlv by (unfold live; cbn; by destruct v).
  split; cbn; try apply Hm.
  - split; cbn; try done. by rewrite zlen_zset.
  - eapply chains_shape; [|apply Hm]. intros k. destruct (Z.eq_dec i k) as [<-|].
    + rewrite zget_zset_eq, Hb by lia. cbn. unfold bshape. cbn. congruence.
    + by rewrite zget_zset_ne by lia.
  - rewrite pre_zset_split by lia. by rewrite cores_app, cores_cons, bcore_live.
  - rewrite (mx_count _ _ Hm), Hsp. unfold zlen. rewrite !length_app. done.
Qed.

Lemma side_ok_set st nf c1 c2 v v' h key :
  side_ok st nf (c1 ++ (v, h, key) :: c2) -> side_ok st nf (c1 ++ (v', h, key) :: c2).
Proof.
  intros (Hn & Hw & Hst & Hr & Hf). split_and!; try done.
  - rewrite fmap_app, fmap_cons in *. unfold okeys in *. rewrite fmap_app, fmap_cons in *.
    exact Hn.
  - rewrite Forall_app, Forall_cons in *. exact Hw.
  - intros Ht. specialize (Hst Ht). rewrite Forall_app, Forall_cons in *. exact Hst.
  - split; [done|]. intros h0 v0 [Hin|[Heq|Hin]%elem_of_cons]%elem_of_app.
    + eapply Hf. apply elem_of_app. by left.
    + injection Heq as <- <- <-. apply (Hf h0 v). apply elem_of_app. right. by left.
    + eapply Hf. apply elem_of_app. right. right. done.
Qed.

Lemma set_val_spec w ht cs i b v : mixed ht cs ->
  side_ok (f_static ht) (nNextFreeElement ht) cs -> at_index ht i b -> v <> IS_UNDEF ->
  exists ht', zptr_set w ht (PData i) v = Ok (w, ht')
    /\ inserted w (oinsert (bkey b) v (centry <$> cs)) (bkey b) v (w, ht', Some (PData i)).
Proof.
  intros Hm Hside Hi Hv. destruct (mixed_set_val _ _ _ _ v Hm Hi Hv) as (c1 & c2 & Hcs & Hm').
  destruct (Hi) as (Hr & Hb & Hl). destruct (mx_geom _ _ Hm) as [Hs Hmask Hd Hu].
  unfold zptr_set. rewrite (rd_ok _ _ _ Hb), bind_ok, wr_ok, bind_ok by lia.
  eexists. split; [done|]. rewrite Hcs in Hside.
  destruct (mixed_inv _ _ Hm') as [Hinv He]; [by eapply side_ok_set|].
  split_and!; [done| | |done].
  - rewrite He, Hcs, !fmap_app, !fmap_cons.
    change (centry (b_val b, b_h b, b_key b)) with (bkey b, b_val b).
    rewrite oinsert_middle; [done|]. destruct Hside as [Hn _].
    by rewrite fmap_app, fmap_cons in Hn.
  - eexists. split; [done|]. split; [apply Hm|]. exists (with_val v b). split_and!; try done.
    unfold at_index. cbn. split_and!; try lia; [by apply zget_zset_eq; lia|]. unfold live. by destruct v.
Qed.

(** ** Lookup *)

(** The value a lookup finds. *)
Definition finds (w : world) (ht : HashTable) (r : option zptr) (o : option zval) : Prop :=
  match r, o with
  | Some p, Some v => zptr_get w ht p = Ok v
  | None, None => True
  | _, _ => False
  end.

Lemma found_finds w ht cs k r : mixed ht cs -> NoDup (okeys (centry <$> cs)) ->
  found ht cs k r -> finds w ht (option_map PData r) (olookup k (centry <$> cs)).
Proof.
  intros Hm Hn Hf. destruct r as [i|]; cbn in *.
  - destruct Hf as (b & Hi & <-). rewrite (mixed_lookup _ _ _ _ Hm Hi Hn). cbn.
    destruct Hi as (_ & Hb & _). by rewrite (rd_ok _ _ _ Hb), bind_ok.
  - by rewrite (proj2 (olookup_None _ _) Hf).
Qed.

Lemma uninit_elements ht : f_packed ht = false -> nNumUsed ht = 0 -> ht_cores ht = [].
Proof. intros Hp Hu. unfold ht_cores. by rewrite Hp, Hu. Qed.

Lemma ZSTR_H_nonzero key : negb (ZSTR_H key =? 0) = true.
Proof.
  pose proof (zend_inline_hash_func_range (ZSTR_VAL key)). unfold ZSTR_H.
  rewrite (proj2 (Z.eqb_neq _ _)); [done|lia].
Qed.

Lemma pcores_key P c : c ∈ pcores P -> c.2 = None.
Proof.
  unfold pcores. rewrite list_elem_of_omap. intros (o & Ho & Hc).
  apply elem_of_lookup_imap in Ho as (i & v & -> & _). unfold pcore_at in Hc.
  destruct (is_undef v); cbn in Hc; [done|]. by simplify_eq.
Qed.

Lemma packed_no_str ht s : f_packed ht = true -> KStr s ∉ okeys (ht_elements ht).
Proof.
  intros Hp. unfold okeys, ht_elements, ht_cores. rewrite Hp.
  intros (e & He & (c & -> & Hc)%list_elem_of_fmap)%list_elem_of_fmap.
  apply pcores_key in Hc. cbn in He. unfold ckey in He. by rewrite Hc in He.
Qed.

(** A lookup of a string key by either routine. *)
Lemma str_lookup_spec w ht s m : ht_inv ht -> tests m (KStr s) ->
  exists idx r, HT_HASH ht (nIndex_of ht (zend_inline_hash_func s)) = Ok idx
    /\ chain_find (chain_fuel ht) (arData ht) m idx = Ok r
    /\ finds w ht (option_map PData r) (olookup (KStr s) (ht_elements ht)).
Proof.
  intros Hinv Ht. destruct (inv_layout _ Hinv) as [Hun Hp Hm Ha Hu|Hun Hp Hm Ha Hl Hnf|Hm].
  - exists HT_INVALID_IDX, None. rewrite min_mask_hash by done. split_and!; [done..|].
    unfold ht_elements. by rewrite uninit_elements.
  - exists HT_INVALID_IDX, None. rewrite min_mask_hash by done. split_and!; [done..|].
    by rewrite (proj2 (olookup_None _ _)) by (by apply packed_no_str).
  - destruct (mixed_find ht _ m (KStr s) Hm) as (idx & r & H1 & H2 & H3);
      [apply Hinv|done|].
    exists idx, r. split_and!; [done..|]. apply (found_finds w _ _ _ _ Hm); [apply Hinv|done].
Qed.

Lemma zend_hash_find_ok w ht key : ht_inv ht ->
  exists r, zend_hash_find ht key = Ok r
    /\ finds w ht r (olookup (KStr (ZSTR_VAL key)) (ht_elements ht)).
Proof.
  intros Hinv. destruct (str_lookup_spec w ht _ _ Hinv (tests_key key)) as (idx & r & H1 & H2 & H3).
  unfold zend_hash_find, zend_hash_find_bucket. rewrite ZSTR_H_nonzero. cbn [assert_].
  rewrite bind_ok. unfold ZSTR_H. rewrite H1, bind_ok, H2, bind_ok. eauto.
Qed.

Lemma zend_hash_str_find_ok w ht str : ht_inv ht ->
  exists r, zend_hash_str_find ht str = Ok r
    /\ finds w ht r (olookup (KStr str) (ht_elements ht)).
Proof.
  intros Hinv. destruct (str_lookup_spec w ht _ _ Hinv (tests_str str)) as (idx & r & H1 & H2 & H3).
  unfold zend_hash_str_find, zend_hash_str_find_bucket. rewrite H1, bind_ok, H2, bind_ok. eauto.
Qed.

(** ** Insertion under a string key *)

Lemma mixed_set_static ht cs b : mixed ht cs -> mixed (set_static b ht) cs.
Proof. intros [[? ? ? ?] ? ? ? ? ? ?]. by split. Qed.

Lemma mixed_set_free ht cs n : mixed ht cs -> mixed (set_nNextFreeElement n ht) cs.
Proof. intros [[? ? ? ?] ? ? ? ? ? ?]. by split. Qed.

Lemma add_to_hash_spec w ht cs key v flag : mixed ht cs -> nNumUsed ht < nTableSize ht ->
  new_val flag v <> IS_UNDEF -> side_ok (f_static ht) (nNextFreeElement ht) cs ->
  KStr (ZSTR_VAL key) ∉ okeys (centry <$> cs) ->
  runs (add_to_hash w ht key v flag)
    (inserted w ((centry <$> cs) ++ [(KStr (ZSTR_VAL key), new_val flag v)]) (KStr (ZSTR_VAL key))
       (new_val flag v))
    False.
Proof.
  intros Hm Hlt Hv Hside Hfresh. pose proof Hside as (Hn & Hw & Hst & Hr & Hf).
  unfold add_to_hash. destruct (ZSTR_IS_INTERNED key) eqn:Ei; cbv beta iota zeta.
  - destruct (append_spec w ht cs (ZSTR_H key) (Some key) (new_val flag v) (nNextFreeElement ht))
      as (ht' & Happ & Hins); try done; try lia.
    rewrite Happ, bind_ok. exact Hins.
  - destruct (append_spec (log (EvAddref key) w) (set_static false ht) cs (ZSTR_H key) (Some key)
                (new_val flag v) (nNextFreeElement ht)) as (ht' & Happ & Hins); try done.
    + by apply mixed_set_static.
    + rewrite Happ, bind_ok. exact Hins.
Qed.

Lemma str_add_to_hash_spec w ht cs str v flag : mixed ht cs -> nNumUsed ht < nTableSize ht ->
  new_val flag v <> IS_UNDEF -> side_ok (f_static ht) (nNextFreeElement ht) cs ->
  KStr str ∉ okeys (centry <$> cs) ->
  runs (str_add_to_hash w ht str (zend_inline_hash_func str) v flag)
    (inserted w ((centry <$> cs) ++ [(KStr str, new_val flag v)]) (KStr str) (new_val flag v)) False.
Proof.
  intros Hm Hlt Hv Hside Hfresh. pose proof Hside as (Hn & Hw & Hst & Hr & Hf).
  pose proof (zend_string_init_val str) as Hval. unfold str_add_to_hash.
  destruct (append_spec w (set_static false ht) cs (zend_inline_hash_func str)
      (Some (zend_string_init str)) (new_val flag v) (nNextFreeElement ht)) as (ht' & Happ & Hins);
    try done.
  - by apply mixed_set_static.
  - unfold ckey. cbn. by rewrite Hval.
  - unfold core_wf, ZSTR_H. cbn. by rewrite Hval.
  - rewrite Happ, bind_ok. unfold ckey in Hins. cbn in Hins. rewrite Hval in Hins. exact Hins.
Qed.

(** The three layouts of a table, as the insertion code meets them. *)
Lemma packed_convert w ht : ht_inv ht -> f_packed ht = true -> f_uninit ht = false ->
  zlen (arPacked ht) = nTableSize ht ->
  exists w' ht', zend_hash_packed_to_hash w ht = Ok (w', ht')
    /\ mixed ht' (ht_cores ht)
    /\ side_ok (f_static ht') (nNextFreeElement ht') (ht_cores ht)
    /\ w_same w w' /\ (at_capacity ht' -> at_capacity ht).
Proof.
  intros Hinv Hp Hun Hl. pose proof (inv_used _ Hinv) as Hu.
  destruct (packed_to_hash_spec w ht) as (w1 & ht1 & Hc & Hm & Hw & Hfr & Hu1 & Hsz); try done;
    [apply Hinv|lia|apply Hinv|].
  exists w1, ht1. destruct (Hfr) as (_ & Hf1 & _ & _ & Hf4 & _). split_and!; try done.
  - rewrite Hf1, Hf4. by apply inv_side.
  - unfold at_capacity. rewrite Hsz, Hu1, (mx_count _ _ Hm), (inv_count _ Hinv).
    intros (H1 & H2 & H3). rewrite H1 in Hu.
    assert (zlen (ht_cores ht) <= nNumUsed ht); [|lia].
    unfold ht_cores, pcores. rewrite Hp. unfold zlen.
    assert (forall l : list (option core), (length (omap id l) <= length l)%nat) as Hle.
    { induction l as [|[c|] l IH]; cbn; lia. }
    pose proof (Hle (imap pcore_at (take (Z.to_nat (nNumUsed ht)) (arPacked ht)))) as Hle1.
    rewrite length_imap, length_take in Hle1. lia.
Qed.

Lemma uninit_init ht : ht_inv ht -> f_packed ht = false -> nNumUsed ht = 0 ->
  mixed (zend_hash_real_init_mixed ht) []
  /\ side_ok (f_static (zend_hash_real_init_mixed ht))
       (nNextFreeElement (zend_hash_real_init_mixed ht)) []
  /\ nNumUsed (zend_hash_real_init_mixed ht) < nTableSize (zend_hash_real_init_mixed ht)
  /\ nNextFreeElement (zend_hash_real_init_mixed ht) = nNextFreeElement ht.
Proof.
  intros Hinv Hp Hu. pose proof (uninit_elements ht Hp Hu) as Hel.
  pose proof (size_ok_bounds _ (inv_size _ Hinv)) as Hb.
  destruct (real_init_mixed_spec ht) as (Hm & Hu' & Hs' & Hf' & Hst & _);
    [apply Hinv|done|rewrite (inv_count _ Hinv), Hel; done|].
  destruct (inv_side _ Hinv) as (_ & _ & _ & Hr & _). split_and!; try done; [|lia].
  rewrite Hf'. split_and!; try done; [apply NoDup_nil_2|].
  split; [done|]. intros h v []%not_elem_of_nil.
Qed.

(** Both string insertions have the same shape: [find] looks the key [s] up,
    [add] appends it, [upd] deals with an existing bucket. *)
Section StringInsert.
Context (s : list Z) (m : Bucket -> bool) (Htests : tests m (KStr s)) (v : zval).
Context (find : HashTable -> res (option Z)).
Context (add : world -> HashTable -> res (world * HashTable * option zptr)).
Context (upd : Z -> res (world * HashTable * option zptr)).
Hypothesis find_ok : forall ht, find ht
  = (idx ← HT_HASH ht (nIndex_of ht (hash_of (KStr s)));
     chain_find (chain_fuel ht) (arData ht) m idx).
Hypothesis add_ok : forall w ht cs, mixed ht cs -> nNumUsed ht < nTableSize ht ->
  side_ok (f_static ht) (nNextFreeElement ht) cs -> KStr s ∉ okeys (centry <$> cs) ->
  runs (add w ht) (inserted w ((centry <$> cs) ++ [(KStr s, v)]) (KStr s) v) False.

Definition insert_with (new : bool) (w : world) (ht : HashTable)
  : res (world * HashTable * option zptr) :=
  if f_uninit ht then add w (zend_hash_real_init_mixed ht)
  else if f_packed ht then
    '(w, ht) ← zend_hash_packed_to_hash w ht;
    '(w, ht) ← ZEND_HASH_IF_FULL_DO_RESIZE w ht;
    add w ht
  else
    p ← (if new then Ok None else find ht);
    match p with
    | Some i => upd i
    | None =>
        '(w, ht) ← ZEND_HASH_IF_FULL_DO_RESIZE w ht;
        add w ht
    end.

Lemma make_room_add w ht cs : mixed ht cs ->
  side_ok (f_static ht) (nNextFreeElement ht) cs -> KStr s ∉ okeys (centry <$> cs) ->
  runs ('(w, ht) ← ZEND_HASH_IF_FULL_DO_RESIZE w ht; add w ht)
    (inserted w ((centry <$> cs) ++ [(KStr s, v)]) (KStr s) v) (at_capacity ht).
Proof.
  intros Hm Hside Hfresh. eapply runs_bind; [by apply mixed_make_room|].
  intros [w1 ht1] (Hm1 & (Hw & _) & (_ & Hf1 & _ & _ & Hf4 & _) & Hlt).
  eapply runs_weaken; [apply (add_ok w1 ht1 cs)|intros o; by apply inserted_world|done]; try done.
  by rewrite Hf1, Hf4.
Qed.

Lemma insert_with_fresh new w ht : ht_inv ht -> KStr s ∉ okeys (ht_elements ht) ->
  runs (insert_with new w ht) (inserted w (ht_elements ht ++ [(KStr s, v)]) (KStr s) v) (at_capacity ht).
Proof.
  intros Hinv Hfresh. unfold insert_with.
  destruct (inv_layout _ Hinv) as [Hun Hp Hm Ha Hu|Hun Hp Hm Ha Hl Hnf|Hm].
  - rewrite Hun. destruct (uninit_init ht Hinv Hp Hu) as (Hm1 & Hs1 & Hlt & _).
    unfold ht_elements in *. rewrite uninit_elements in * by done.
    eapply runs_weaken; [by apply (add_ok w _ [])|done|done].
  - rewrite Hun, Hp. destruct (packed_convert w ht Hinv Hp Hun Hl)
      as (w1 & ht1 & Hc & Hm1 & Hs1 & (Hw & _) & Hcap). rewrite Hc, bind_ok.
    eapply runs_weaken; [by apply (make_room_add w1 ht1)|intros o; by apply inserted_world|done].
  - rewrite (mx_uninit _ _ Hm), (mx_packed _ _ Hm).
    assert ((if new then Ok None else find ht) = Ok None) as ->.
    { destruct new; [done|]. rewrite find_ok.
      destruct (mixed_find ht _ _ _ Hm (inv_wf _ Hinv) Htests) as (idx & r & H1 & H2 & H3).
      rewrite H1, bind_ok, H2. destruct r as [i|]; [|done].
      destruct H3 as (b & Hi & Hk). exfalso. apply Hfresh.
      apply (mixed_key_index _ _ _ Hm). eauto. }
    rewrite bind_ok. eapply runs_weaken; [apply (make_room_add w ht (ht_cores ht))|done|done];
      try done. by apply inv_side.
Qed.

Lemma insert_with_found w ht : ht_inv ht -> KStr s ∈ okeys (ht_elements ht) ->
  exists i b, mixed ht (ht_cores ht) /\ at_index ht i b /\ bkey b = KStr s
    /\ insert_with false w ht = upd i.
Proof.
  intros Hinv Hin. unfold insert_with.
  destruct (inv_layout _ Hinv) as [Hun Hp Hm Ha Hu|Hun Hp Hm Ha Hl Hnf|Hm].
  - exfalso. unfold ht_elements in Hin. rewrite uninit_elements in Hin by done.
    by apply not_elem_of_nil in Hin.
  - exfalso. by apply (packed_no_str ht s Hp).
  - rewrite (mx_uninit _ _ Hm), (mx_packed _ _ Hm), find_ok.
    destruct (mixed_find ht _ _ _ Hm (inv_wf _ Hinv) Htests) as (idx & r & H1 & H2 & H3).
    rewrite H1, bind_ok, H2, bind_ok.
    destruct r as [i|]; [|done]. destruct H3 as (b & Hi & Hk). by exists i, b.
Qed.
End StringInsert.

Lemma find_bucket_eq ht key : zend_hash_find_bucket ht key
  = (idx ← HT_HASH ht (nIndex_of ht (hash_of (KStr (ZSTR_VAL key))));
     chain_find (chain_fuel ht) (arData ht) (match_key key) idx).
Proof. unfold zend_hash_find_bucket. by rewrite ZSTR_H_nonzero. Qed.

Lemma add_or_update_fresh w ht key v flag : ht_inv ht -> new_val flag v <> IS_UNDEF ->
  KStr (ZSTR_VAL key) ∉ okeys (ht_elements ht) ->
  runs (_zend_hash_add_or_update_i w ht key v flag)
    (inserted w (ht_elements ht ++ [(KStr (ZSTR_VAL key), new_val flag v)]) (KStr (ZSTR_VAL key))
       (new_val flag v))
    (at_capacity ht).
Proof.
  intros Hinv Hv Hfresh.
  apply (insert_with_fresh (ZSTR_VAL key) (match_key key) (tests_key key) (new_val flag v)
    (fun ht => zend_hash_find_bucket ht key) (fun w ht => add_to_hash w ht key v flag)
    (fun i => update_found w ht i v flag)); try done; intros.
  - apply find_bucket_eq.
  - by apply add_to_hash_spec.
Qed.

Lemma add_or_update_found w ht key v flag : ht_inv ht ->
  KStr (ZSTR_VAL key) ∈ okeys (ht_elements ht) -> has_flag flag HASH_ADD_NEW = false ->
  exists i b, mixed ht (ht_cores ht) /\ at_index ht i b /\ bkey b = KStr (ZSTR_VAL key)
    /\ _zend_hash_add_or_update_i w ht key v flag = update_found w ht i v flag.
Proof.
  intros Hinv Hin Hnew. unfold _zend_hash_add_or_update_i. rewrite Hnew.
  apply (insert_with_found (ZSTR_VAL key) (match_key key) (tests_key key)
    (fun ht => zend_hash_find_bucket ht key) (fun w ht => add_to_hash w ht key v flag)
    (fun i => update_found w ht i v flag)); try done. intros. apply find_bucket_eq.
Qed.

Lemma str_add_or_update_fresh w ht str v flag : ht_inv ht -> new_val flag v <> IS_UNDEF ->
  KStr str ∉ okeys (ht_elements ht) ->
  runs (_zend_hash_str_add_or_update_i w ht str (zend_inline_hash_func str) v flag)
    (inserted w (ht_elements ht ++ [(KStr str, new_val flag v)]) (KStr str) (new_val flag v))
    (at_capacity ht).
Proof.
  intros Hinv Hv Hfresh.
  apply (insert_with_fresh str _ (tests_str str) (new_val flag v)
    (fun ht => zend_hash_str_find_bucket ht str (zend_inline_hash_func str))
    (fun w ht => str_add_to_hash w ht str (zend_inline_hash_func str) v flag)
    (fun i => update_found w ht i v flag)); try done. intros. by apply str_add_to_hash_spec.
Qed.

Lemma str_add_or_update_found w ht str v flag : ht_inv ht ->
  KStr str ∈ okeys (ht_elements ht) -> has_flag flag HASH_ADD_NEW = false ->
  exists i b, mixed ht (ht_cores ht) /\ at_index ht i b /\ bkey b = KStr str
    /\ _zend_hash_str_add_or_update_i w ht str (zend_inline_hash_func str) v flag
       = update_found w ht i v flag.
Proof.
  intros Hinv Hin Hnew. unfold _zend_hash_str_add_or_update_i. rewrite Hnew.
  by apply (insert_with_found str _ (tests_str str)
    (fun ht => zend_hash_str_find_bucket ht str (zend_inline_hash_func str))
    (fun w ht => str_add_to_hash w ht str (zend_inline_hash_func str) v flag)
    (fun i => update_found w ht i v flag)).
Qed.

Lemma run_dtor_same ht v w : w_ind (run_dtor ht v w) = w_ind w.
Proof. unfold run_dtor. by destruct (pDestructor ht). Qed.

(** A value that is not an indirection to another slot. *)
Definition direct (v : zval) : Prop := match v with IS_INDIRECT _ => False | _ => True end.

Lemma update_found_update w ht i b v flag : ht_inv ht -> mixed ht (ht_cores ht) ->
  at_index ht i b -> v <> IS_UNDEF ->
  has_flag flag HASH_LOOKUP = false -> has_flag flag HASH_ADD = false ->
  (has_flag flag HASH_UPDATE_INDIRECT = true -> direct (b_val b)) ->
  exists ht', update_found w ht i v flag
      = Ok (run_dtor ht (b_val b) w, ht', Some (PData i))
    /\ inserted w (oinsert (bkey b) v (ht_elements ht)) (bkey b) v
         (run_dtor ht (b_val b) w, ht', Some (PData i)).
Proof.
  intros Hinv Hm Hi Hv Hf1 Hf2 Hf3.
  destruct (set_val_spec (run_dtor ht (b_val b) w) ht _ i b v Hm (inv_side _ Hinv) Hi Hv)
    as (ht' & Hset & Hins).
  exists ht'. split; [|eapply inserted_world, Hins; apply run_dtor_same]. destruct Hi as (_ & Hb & _).
  unfold update_found, zptr_get. rewrite (rd_ok _ _ _ Hb), !bind_ok, Hf1, Hf2.
  destruct (b_val b); try (rewrite Hset; reflexivity).
  destruct (has_flag flag HASH_UPDATE_INDIRECT); [by destruct (Hf3 eq_refl)|].
  rewrite Hset. reflexivity.
Qed.
End Insert.
