(* ===== verification/HashIndex.v ===== *)
(** * Integer keys, and the insertion functions of the API

    The packed layout, where the position is the key, and the integer-key
    operations on all layouts; then the insertion functions as operations of the
    ordered map, and tables that hold a list of values under the keys 0, 1, 2, ... *)

From S2P Require Import Prelude.
From S2P Require Import ZendString.
From S2P Require Import OrderedMap.
From S2P Require Import HashTypes.
From S2P Require Import HashOps.
From S2P Require Import HashChain.
From S2P Require Import HashRehash.
From S2P Require Import HashInv.
From S2P Require Import HashLayout.
From S2P Require Import HashInsert.

Section Packed.
Context {E : ZendEnv}.

(** ** Cores of a packed array *)

Definition pcores_from (o : nat) (P : list zval) : list core :=
  omap id (imap (fun i => pcore_at (o + i)%nat) P).

Lemma pcores_from_cons o v P : pcores_from o (v :: P)
  = (if is_undef v then [] else [(v, Z.of_nat o, None)]) ++ pcores_from (S o) P.
Proof.
  unfold pcores_from. rewrite imap_cons. cbn. rewrite Nat.add_0_r. unfold pcore_at at 1.
  assert (imap ((λ i : nat, pcore_at (o + i)) ∘ S) P = imap (λ i : nat, pcore_at (S o + i)) P) as ->.
  { apply imap_ext. intros i x _. cbn. f_equal. lia. }
  by destruct (is_undef v).
Qed.

Lemma pcores_from_app o P1 P2 :
  pcores_from o (P1 ++ P2) = pcores_from o P1 ++ pcores_from (o + length P1) P2.
Proof.
  revert o. induction P1 as [|v P1 IH]; intros o; cbn [app length].
  - by rewrite Nat.add_0_r.
  - rewrite !pcores_from_cons, IH, <- app_assoc. do 3 f_equal. cbn. lia.
Qed.

Lemma pcores_from_0 P : pcores P = pcores_from 0 P.
Proof. done. Qed.

Lemma elem_of_pcores_from o P v h k : (v, h, k) ∈ pcores_from o P ->
  k = None /\ Z.of_nat o <= h < Z.of_nat o + zlen P.
Proof.
  revert o. induction P as [|x P IH]; intros o; [intros []%not_elem_of_nil|].
  rewrite pcores_from_cons, elem_of_app. intros [Hin|Hin].
  - destruct (is_undef x); [by apply not_elem_of_nil in Hin|].
    apply list_elem_of_singleton in Hin. simplify_eq. unfold zlen. cbn. split; [done|lia].
  - apply IH in Hin as [-> Hr]. unfold zlen in *. cbn. split; [done|lia].
Qed.

Lemma NoDup_pcores_from o P : NoDup (okeys (centry <$> pcores_from o P)).
Proof.
  revert o. induction P as [|x P IH]; intros o; [apply NoDup_nil_2|].
  rewrite pcores_from_cons. destruct (is_undef x); [apply IH|].
  change (NoDup (KInt (Z.of_nat o) :: okeys (centry <$> pcores_from (S o) P))).
  constructor; [|apply IH]. unfold okeys. intros (e & He & (c & -> & Hc)%list_elem_of_fmap)%list_elem_of_fmap.
  destruct c as [[v h] k]. apply elem_of_pcores_from in Hc as [-> Hr]. cbn in He.
  injection He as Heq. rewrite <- Heq in Hr. lia.
Qed.

Lemma pcores_split P n i v : i < n -> zget P i = Some v -> v <> IS_UNDEF ->
  pcores (pre n P) = pcores (pre i P) ++ (v, i, None)
     :: pcores_from (S (Z.to_nat i)) (drop (S (Z.to_nat i)) (pre n P)).
Proof.
  intros Hi Hv Hu. assert (0 <= i < zlen P) by (eapply zget_Some_range; eauto).
  pose proof (pre_split P n i v Hi Hv) as Hs. set (r := drop _ _) in *. rewrite Hs.
  rewrite pcores_from_0, pcores_from_app, pcores_from_cons. f_equal.
  assert (length (pre i P) = Z.to_nat i) as ->
    by (unfold pre, zlen in *; rewrite length_take; lia).
  destruct v; try done; cbn; rewrite Z2Nat.id by lia; done.
Qed.

Lemma pcores_zset P n i v v' : i < n -> zget P i = Some v -> v' <> IS_UNDEF ->
  pcores (pre n (zset P i v')) = pcores (pre i P) ++ (v', i, None)
     :: pcores_from (S (Z.to_nat i)) (drop (S (Z.to_nat i)) (pre n P)).
Proof.
  intros Hi Hv Hu. assert (0 <= i < zlen P) by (eapply zget_Some_range; eauto).
  rewrite (pcores_split (zset P i v') n i v') by (try done; apply zget_zset_eq; lia).
  rewrite pre_zset_ge by lia. do 3 f_equal. unfold pre, zset.
  rewrite take_insert, decide_True by lia. apply drop_insert_lt. lia.
Qed.

Lemma pcores_from_live o P : Forall (fun v => v <> IS_UNDEF) P ->
  pcores_from o P = imap (fun i v => (v, Z.of_nat (o + i), None)) P.
Proof.
  intros HP. revert o. induction HP as [|v P Hv _ IH]; intros o; [done|].
  rewrite pcores_from_cons, imap_cons. rewrite IH. rewrite Nat.add_0_r.
  destruct (is_undef v) eqn:Ev; [by destruct v|]. cbn. f_equal. apply imap_ext. intros i x _. cbn.
  do 3 f_equal. lia.
Qed.

Lemma pcores_from_undef o P : (forall v, v ∈ P -> v = IS_UNDEF) -> pcores_from o P = [].
Proof.
  revert o. induction P as [|x P IH]; intros o Hu; [done|].
  rewrite pcores_from_cons. rewrite (Hu x) by (by left). cbn. apply IH.
  intros v Hv. apply Hu. by right.
Qed.

(** A value stored past the end, over a gap of undefined slots. *)
Lemma pcores_extend P P' n h v : 0 <= n <= h -> h < zlen P' -> zlen P' = zlen P ->
  (forall i, 0 <= i < n -> zget P' i = zget P i) ->
  (forall i, n <= i < h -> zget P' i = Some IS_UNDEF) -> v <> IS_UNDEF ->
  pcores (pre (h + 1) (zset P' h v)) = pcores (pre n P) ++ [(v, h, None)].
Proof.
  intros Hn Hh Hlen Hlow Hgap Hv.
  destruct (zget_is_Some P' h) as [x Hx]; [lia|].
  rewrite (pcores_zset P' (h + 1) h x v) by (done || lia).
  assert (drop (S (Z.to_nat h)) (pre (h + 1) P') = []) as ->.
  { apply drop_ge. unfold pre. rewrite length_take. lia. }
  change (pcores_from _ []) with (@nil core).
  rewrite (pcores_from_0 (pre h P')). f_equal.
  rewrite <- (take_drop (Z.to_nat n) (pre h P')), pcores_from_app.
  rewrite (pcores_from_undef _ (drop _ _)).
  - rewrite app_nil_r. change (pcores_from 0 (take (Z.to_nat n) (pre h P')) = pcores_from 0 (pre n P)).
    f_equal. unfold pre at 1. rewrite take_take, Nat.min_l by lia. by apply pre_ext.
  - intros y (i & Hi)%list_elem_of_lookup. rewrite lookup_drop in Hi.
    pose proof (lookup_lt_Some _ _ _ Hi) as Hlt. unfold pre in Hlt, Hi. rewrite length_take in Hlt.
    rewrite lookup_take_lt in Hi by lia.
    specialize (Hgap (Z.of_nat (Z.to_nat n + i)) ltac:(lia)). unfold zget in Hgap.
    rewrite (proj2 (Z.leb_le _ _)), Nat2Z.id in Hgap by lia. congruence.
Qed.

Lemma i64_small h : 0 <= h < 2 ^ 63 -> i64 h = h.
Proof.
  intros H. unfold i64, sint. rewrite Z.mod_small by lia.
  change (2 ^ (64 - 1)) with (2 ^ 63). by rewrite (proj2 (Z.ltb_lt _ _)) by lia.
Qed.

(** The invariant of a packed table follows from its sizes and counters. *)
Lemma packed_inv ht : f_packed ht = true -> f_uninit ht = false ->
  nTableMask ht = HT_MIN_MASK -> arHash ht = [HT_INVALID_IDX; HT_INVALID_IDX] ->
  size_ok (nTableSize ht) -> zlen (arPacked ht) = nTableSize ht ->
  0 <= nNumUsed ht <= nTableSize ht ->
  packed_end ht -> ZEND_LONG_MIN <= nNextFreeElement ht <= ZEND_LONG_MAX ->
  nNumOfElements ht = zlen (pcores (pre (nNumUsed ht) (arPacked ht))) -> ht_inv ht.
Proof.
  intros Hp Hun Hm Ha Hs Hl Hu Hend Hr Hc. pose proof (size_ok_bounds _ Hs) as Hb.
  pose proof Hend as [Hnf _].
  unfold HT_MAX_SIZE in Hb.
  assert (ht_cores ht = pcores (pre (nNumUsed ht) (arPacked ht))) as Hcs
    by (unfold ht_cores; by rewrite Hp).
  assert (forall v h k, (v, h, k) ∈ ht_cores ht -> k = None /\ 0 <= h < nNumUsed ht) as Hel.
  { intros v h k Hin. rewrite Hcs, pcores_from_0 in Hin.
    apply elem_of_pcores_from in Hin as [-> Hin]. rewrite zlen_pre in Hin by lia. done. }
  split; try done.
  - by rewrite Hcs.
  - unfold ht_elements. rewrite Hcs, pcores_from_0. apply NoDup_pcores_from.
  - apply Forall_forall. intros [[v h] k] [-> Hh]%Hel. cbn. lia.
  - intros _. apply Forall_forall. intros [[v h] k] [-> Hh]%Hel. done.
  - split; [done|]. intros h v [_ Hh]%Hel. rewrite i64_small by lia. left. lia.
  - by apply LPacked.
Qed.

Lemma elem_of_pcores P n v h k : 0 <= n <= zlen P -> (v, h, k) ∈ pcores (pre n P) ->
  0 <= h < n /\ zget P h = Some v /\ v <> IS_UNDEF.
Proof.
  intros Hn Hin. rewrite (pcores_cores _ 0) in Hin. unfold cores in Hin.
  apply list_elem_of_omap in Hin as (b & Hb & Hc).
  apply elem_of_lookup_imap in Hb as (i & x & -> & Hi).
  pose proof (lookup_lt_Some _ _ _ Hi) as Hlt. unfold pre in Hlt, Hi. rewrite length_take in Hlt.
  rewrite lookup_take_lt in Hi by lia. unfold bcore, live in Hc. cbn in Hc.
  destruct (is_undef x) eqn:Ex; [done|]. cbn in Hc. simplify_eq.
  split_and!; [lia|lia| |by destruct v]. unfold zget.
  by rewrite (proj2 (Z.leb_le _ _)), Nat2Z.id by lia.
Qed.

Lemma pcores_absent P n h : 0 <= n <= zlen P ->
  (n <= h \/ zget P h = Some IS_UNDEF) -> KInt h ∉ okeys (centry <$> pcores (pre n P)).
Proof.
  intros Hn Hh (e & He & (c & -> & Hc)%list_elem_of_fmap)%list_elem_of_fmap.
  destruct c as [[v h'] k]. pose proof (pcores_key _ _ Hc) as Hk. cbn in Hk. subst k.
  apply elem_of_pcores in Hc as (Hr & Hg & Hu); [|done]. cbn in He. simplify_eq.
  destruct Hh; [lia|congruence].
Qed.

Lemma pcores_lookup P n i v : i < n -> zget P i = Some v -> v <> IS_UNDEF ->
  olookup (KInt i) (centry <$> pcores (pre n P)) = Some v.
Proof.
  intros Hi Hv Hu. pose proof (NoDup_pcores_from 0 (pre n P)) as Hn.
  rewrite <- pcores_from_0 in Hn. rewrite (pcores_split P n i v) in * by done.
  rewrite fmap_app, fmap_cons in *.
  apply NoDup_middle in Hn as (H1 & _ & _). by apply olookup_middle.
Qed.

Lemma zend_hash_index_find_ok w ht h : ht_inv ht -> 0 <= h ->
  exists r, zend_hash_index_find ht h = Ok r
    /\ finds w ht r (olookup (KInt h) (ht_elements ht)).
Proof.
  intros Hinv Hh. unfold zend_hash_index_find. pose proof (inv_used _ Hinv) as Hu0.
  destruct (inv_layout _ Hinv) as [Hun Hp Hm Ha Hu|Hun Hp Hm Ha Hl Hnf|Hm].
  - rewrite Hp. unfold zend_hash_index_find_bucket. rewrite min_mask_hash by done.
    rewrite !bind_ok. exists None. split; [done|]. unfold ht_elements.
    by rewrite uninit_elements.
  - rewrite Hp. unfold ht_elements, ht_cores. rewrite Hp.
    change (take (Z.to_nat (nNumUsed ht)) (arPacked ht)) with (pre (nNumUsed ht) (arPacked ht)).
    destruct (Z.ltb_spec h (nNumUsed ht)).
    + destruct (zget_is_Some (arPacked ht) h) as [v Hv]; [lia|].
      rewrite (rd_ok _ _ _ Hv), bind_ok. destruct (decide (v = IS_UNDEF)) as [->|Hne].
      * exists None. split; [done|].
        rewrite (proj2 (olookup_None _ _)); [done|]. apply pcores_absent; [lia|by right].
      * exists (Some (PPacked h)). split; [by destruct v|].
        rewrite (pcores_lookup _ _ _ v) by done. cbn. by apply rd_ok.
    + exists None. split; [done|].
      rewrite (proj2 (olookup_None _ _)); [done|]. apply pcores_absent; [lia|by left].
  - rewrite (mx_packed _ _ Hm). unfold zend_hash_index_find_bucket.
    destruct (mixed_find ht _ _ _ Hm (inv_wf _ Hinv) (tests_index h)) as (idx & r & H1 & H2 & H3).
    cbn [hash_of] in H1. rewrite H1, bind_ok, H2, bind_ok. eexists. split; [done|].
    apply (found_finds w _ _ _ _ Hm); [apply Hinv|done].
Qed.

(** ** Insertion under an integer key *)

Lemma i64_range h : ZEND_LONG_MIN <= i64 h <= ZEND_LONG_MAX.
Proof.
  unfold i64, sint, ZEND_LONG_MIN, ZEND_LONG_MAX. change (2 ^ (64 - 1)) with (2 ^ 63).
  pose proof (Z.mod_pos_bound h (2 ^ 64)). destruct (Z.ltb_spec (h mod 2 ^ 64) (2 ^ 63)); lia.
Qed.

Lemma i64_succ h : 0 <= h < 2 ^ 64 -> i64 h < ZEND_LONG_MAX -> i64 (h + 1) = i64 h + 1.
Proof.
  intros Hh. unfold i64, sint, ZEND_LONG_MAX. change (2 ^ (64 - 1)) with (2 ^ 63).
  rewrite (Z.mod_small h) by lia.
  destruct (Z.ltb_spec h (2 ^ 63)); intros Hlt.
  - rewrite Z.mod_small by lia. destruct (Z.ltb_spec (h + 1) (2 ^ 63)); lia.
  - destruct (Z.eq_dec h (2 ^ 64 - 1)) as [->|].
    + reflexivity.
    + rewrite Z.mod_small by lia. destruct (Z.ltb_spec (h + 1) (2 ^ 63)); lia.
Qed.

Lemma index_append_spec w ht cs h v flag : mixed ht cs -> nNumUsed ht < nTableSize ht ->
  new_val flag v <> IS_UNDEF -> side_ok (f_static ht) (nNextFreeElement ht) cs ->
  0 <= h < 2 ^ 64 -> KInt h ∉ okeys (centry <$> cs) ->
  runs (index_append w ht h v flag)
    (inserted w ((centry <$> cs) ++ [(KInt h, new_val flag v)]) (KInt h) (new_val flag v)) False.
Proof.
  intros Hm Hlt Hv Hside Hh Hfresh. pose proof Hside as (Hn & Hw & Hst & Hr & Hf).
  unfold index_append. pose proof (i64_range h) as Hi.
  set (nf' := if i64 h <? ZEND_LONG_MAX then i64 (h + 1) else ZEND_LONG_MAX).
  assert (i64 h < nf' \/ nf' = ZEND_LONG_MAX) as Hnf.
  { unfold nf'. destruct (Z.ltb_spec (i64 h) ZEND_LONG_MAX); [|by right].
    left. rewrite i64_succ by done. lia. }
  assert (i64 h <= nf' <= ZEND_LONG_MAX) as Hnf2.
  { unfold nf'. destruct (Z.ltb_spec (i64 h) ZEND_LONG_MAX); [|lia].
    rewrite i64_succ by done. lia. }
  destruct (Z.leb_spec (nNextFreeElement ht) (i64 h)) as [Hle|Hgt].
  - destruct (append_spec w (set_nNextFreeElement nf' ht) cs h None (new_val flag v)
      (nNextFreeElement ht)) as (ht' & Happ & Hins); try done.
    + by apply mixed_set_free.
    + cbn. lia.
    + cbn. lia.
    + rewrite Happ, bind_ok. exact Hins.
  - destruct (append_spec w ht cs h None (new_val flag v) (nNextFreeElement ht))
      as (ht' & Happ & Hins); try done; try lia.
    rewrite Happ, bind_ok. exact Hins.
Qed.

Lemma undef_range_get P from to i : 0 <= i ->
  zget (undef_range P from to) i =
  if (from <=? i) && (i <? to) then (fun _ => IS_UNDEF) <$> zget P i else zget P i.
Proof.
  intros Hi. unfold zget, undef_range. rewrite (proj2 (Z.leb_le _ _)) by lia.
  rewrite list_lookup_imap. rewrite Z2Nat.id by lia.
  destruct (P !! Z.to_nat i); cbn; by destruct (_ && _).
Qed.

Lemma zlen_undef_range P from to : zlen (undef_range P from to) = zlen P.
Proof. unfold zlen, undef_range. by rewrite length_imap. Qed.

(** A packed table whose values lie in [P]; [add_to_packed] needs the slots
    between the end and the new index to be undefined only when it does not
    clear them itself. *)
Lemma add_to_packed_spec w ht h v flag : f_packed ht = true -> f_uninit ht = false ->
  nTableMask ht = HT_MIN_MASK -> arHash ht = [HT_INVALID_IDX; HT_INVALID_IDX] ->
  size_ok (nTableSize ht) -> zlen (arPacked ht) = nTableSize ht ->
  0 <= nNumUsed ht <= h -> h < nTableSize ht ->
  nNumOfElements ht = zlen (pcores (pre (nNumUsed ht) (arPacked ht))) ->
  (is_add_next_new flag = true ->
     forall i, nNumUsed ht <= i < h -> zget (arPacked ht) i = Some IS_UNDEF) ->
  new_val flag v <> IS_UNDEF ->
  runs (add_to_packed w ht h v flag)
    (inserted w ((centry <$> pcores (pre (nNumUsed ht) (arPacked ht)))
               ++ [(KInt h, new_val flag v)]) (KInt h) (new_val flag v)) False.
Proof.
  intros Hp Hun Hm Ha Hs Hl Hu Hh Hc Hgap Hv. unfold add_to_packed.
  pose proof (size_ok_bounds _ Hs) as Hb. unfold HT_MAX_SIZE in Hb.
  match goal with |- context [wr ?l h _] => set (P' := l) end.
  assert (zlen P' = zlen (arPacked ht)) as HlP
    by (unfold P'; destruct (_ && _); [apply zlen_undef_range|done]).
  assert (forall i, 0 <= i < nNumUsed ht -> zget P' i = zget (arPacked ht) i) as Hlow.
  { intros i Hi. unfold P'. destruct (_ && _); [|done]. rewrite undef_range_get by lia.
    by rewrite (proj2 (Z.leb_gt _ _)) by lia. }
  assert (forall i, nNumUsed ht <= i < h -> zget P' i = Some IS_UNDEF) as Hgap'.
  { intros i Hi. unfold P'. destruct (is_add_next_new flag) eqn:Ef; cbn [negb andb]; [auto|].
    rewrite (proj2 (Z.ltb_lt _ _)) by lia. rewrite undef_range_get by lia.
    rewrite (proj2 (Z.leb_le _ _)), (proj2 (Z.ltb_lt _ _)) by lia. cbn.
    destruct (zget_is_Some (arPacked ht) i) as [x ->]; [lia|done]. }
  rewrite wr_ok, bind_ok by lia.
  assert (pcores (pre (h + 1) (zset P' h (new_val flag v)))
    = pcores (pre (nNumUsed ht) (arPacked ht)) ++ [(new_val flag v, h, None)]) as Hco
    by (apply pcores_extend; done || lia).
  split_and!; [| | |done].
  - apply packed_inv; try done; cbn; try lia.
    + rewrite zlen_zset. lia.
    + split; cbn; [lia|right]. exists (new_val flag v). cbn.
      replace (h + 1 - 1) with h by lia. by rewrite zget_zset_eq by lia.
    + unfold ZEND_LONG_MIN, ZEND_LONG_MAX. lia.
    + rewrite Hco, Hc. unfold zlen. rewrite length_app. cbn. lia.
  - unfold ht_elements, ht_cores. cbn [f_packed set_counts set_arPacked set_alloc]. rewrite Hp.
    cbn [nNumUsed arPacked set_counts set_arPacked set_alloc].
    match goal with |- context [pcores (take (Z.to_nat ?n) ?l)] =>
      change (take (Z.to_nat n) l) with (pre n l) end.
    by rewrite Hco, fmap_app.
  - eexists. split; [done|]. cbn. split_and!; try done; try lia. by apply zget_zset_eq; lia.
Qed.

Lemma length_pcores_from o P : zlen (pcores_from o P) <= zlen P.
Proof.
  unfold zlen. revert o. induction P as [|x P IH]; intros o; [done|].
  rewrite pcores_from_cons, length_app. specialize (IH (S o)).
  unfold core in *. destruct (is_undef x); cbn [length]; lia.
Qed.

Lemma pcores_hole P n h : 0 <= h < n -> n <= zlen P -> zget P h = Some IS_UNDEF ->
  zlen (pcores (pre n P)) < n.
Proof.
  intros Hh Hn Hu. pose proof (pre_split P n h _ ltac:(lia) Hu) as Hs.
  set (r := drop _ _) in *. assert (zlen (pre n P) = n) as Hlen by (apply zlen_pre; lia).
  rewrite Hs in *. rewrite pcores_from_0, pcores_from_app, pcores_from_cons. cbn [is_undef app].
  pose proof (length_pcores_from 0 (pre h P)).
  pose proof (length_pcores_from (S (0 + length (pre h P))) r).
  unfold zlen in *. rewrite length_app in *. cbn [length] in *. lia.
Qed.

(** From packed to hash, then append. *)
Lemma convert_append w ht h v flag : f_packed ht = true -> f_uninit ht = false ->
  size_ok (nTableSize ht) -> 0 <= nNumUsed ht <= nTableSize ht ->
  nNumUsed ht <= zlen (arPacked ht) -> nNumOfElements ht = zlen (ht_cores ht) ->
  zlen (ht_cores ht) < nTableSize ht ->
  side_ok (f_static ht) (nNextFreeElement ht) (ht_cores ht) ->
  new_val flag v <> IS_UNDEF -> 0 <= h < 2 ^ 64 -> KInt h ∉ okeys (ht_elements ht) ->
  runs ('(w, ht) ← zend_hash_packed_to_hash w ht; index_append w ht h v flag)
    (inserted w (ht_elements ht ++ [(KInt h, new_val flag v)]) (KInt h) (new_val flag v)) False.
Proof.
  intros Hp Hun Hs Hu Hl Hc Hroom Hside Hv Hh Hfresh.
  destruct (packed_to_hash_spec w ht) as (w1 & ht1 & Hr & Hm & Hw & Hfr & Hu1 & Hsz); try done.
  rewrite Hr, bind_ok. destruct Hfr as (_ & Hf1 & _ & _ & Hf4 & _).
  destruct Hw as [Hw _]. eapply runs_weaken;
    [apply (index_append_spec w1 ht1 (ht_cores ht))|intros o; by apply inserted_world|done]; try done; [lia|].
  by rewrite Hf1, Hf4.
Qed.

(** The key under which an insertion stores: the next free index of a table
    that never had an integer key is 0. *)
Definition index_key (flag h : Z) : Z :=
  if has_flag flag HASH_ADD_NEXT && (h =? u64 ZEND_LONG_MIN) then 0 else h.

(** What the callers of the unchecked zend_hash_next_index_insert_new rely on:
    in a packed array the next index is the end of the array. *)
Definition next_is_end (ht : HashTable) (h : Z) : Prop :=
  f_packed ht = true \/ f_uninit ht = true -> h = nNumUsed ht.

Lemma index_fresh w ht h v flag : ht_inv ht -> 0 <= h < 2 ^ 64 ->
  new_val flag v <> IS_UNDEF -> (f_packed ht = true -> nNumUsed ht < HT_MAX_SIZE) ->
  KInt (index_key flag h) ∉ okeys (ht_elements ht) ->
  (is_add_next_new flag = true -> next_is_end ht (index_key flag h)) ->
  runs (_zend_hash_index_add_or_update_i w ht h v flag)
    (inserted w (ht_elements ht ++ [(KInt (index_key flag h), new_val flag v)])
       (KInt (index_key flag h)) (new_val flag v))
    (nTableSize ht = HT_MAX_SIZE).
Proof.
  intros Hinv Hh Hv Hmax Hfresh Hend. unfold _zend_hash_index_add_or_update_i.
  fold (index_key flag h). set (k := index_key flag h) in *.
  assert (0 <= k < 2 ^ 64) as Hk by (unfold k, index_key; destruct (_ && _); lia).
  pose proof (inv_used _ Hinv) as Hu0. pose proof (inv_size _ Hinv) as Hs.
  pose proof (size_ok_bounds _ Hs) as Hb. pose proof (inv_side _ Hinv) as Hside.
  destruct (inv_layout _ Hinv) as [Hun Hp Hm Ha Hu|Hun Hp Hm Ha Hl Hnf|Hm].
  - rewrite Hp, Hun. pose proof (uninit_elements ht Hp Hu) as Hcs.
    destruct (Z.ltb_spec k (nTableSize ht)).
    + eapply runs_weaken; [apply (add_to_packed_spec w (zend_hash_real_init_packed_ex ht) k v flag)
        | |done]; cbn; rewrite ?Hu; try done; try lia.
      * by apply zlen_alloc_packed; lia.
      * rewrite (inv_count _ Hinv), Hcs. done.
      * intros Hnn. rewrite (Hend Hnn) by (by right). rewrite Hu. intros i Hi. lia.
      * unfold ht_elements. by rewrite Hcs.
    + destruct (uninit_init ht Hinv Hp Hu) as (Hm1 & Hs1 & Hlt & _).
      unfold ht_elements in *. rewrite Hcs in *.
      eapply runs_weaken; [by apply (index_append_spec w _ [])|done|done].
  - rewrite Hp. specialize (Hmax Hp).
    assert (ht_cores ht = pcores (pre (nNumUsed ht) (arPacked ht))) as Hcs
      by (unfold ht_cores; by rewrite Hp).
    pose proof (inv_count _ Hinv) as Hc.
    assert (zlen (ht_cores ht) <= nNumUsed ht) as Hcle.
    { rewrite Hcs, pcores_from_0. etransitivity; [apply length_pcores_from|].
      rewrite zlen_pre; lia. }
    destruct (negb (is_add_next_new flag) && (k <? nNumUsed ht)) eqn:Elow.
    { apply andb_prop in Elow as [Enn Elt%Z.ltb_lt].
      destruct (zget_is_Some (arPacked ht) k) as [x Hx]; [lia|].
      rewrite (rd_ok _ _ _ Hx), bind_ok. assert (x = IS_UNDEF) as ->.
      { destruct (decide (x = IS_UNDEF)) as [|Hne]; [done|]. exfalso. apply Hfresh.
        unfold ht_elements. rewrite Hcs. destruct (decide (KInt k ∈ okeys (centry <$> pcores (pre (nNumUsed ht) (arPacked ht))))) as [|Hno]; [done|].
        apply olookup_None in Hno. by rewrite (pcores_lookup _ _ _ x) in Hno. }
      cbn [is_undef negb]. eapply runs_weaken; [apply (convert_append w ht k v flag)|done|done];
        try done; try lia. rewrite Hcs.
      pose proof (pcores_hole (arPacked ht) (nNumUsed ht) k ltac:(lia) ltac:(lia) Hx). lia. }
    assert (nNumUsed ht <= k) as Hnk.
    { destruct (is_add_next_new flag) eqn:Enn; cbn in Elow; [|by apply Z.ltb_ge in Elow].
      rewrite (Hend eq_refl) by (by left). lia. }
    destruct (Z.ltb_spec k (nTableSize ht)).
    { eapply runs_weaken; [apply (add_to_packed_spec w ht k v flag)| |done]; try done; try lia.
      - by rewrite <- Hcs.
      - intros Hnn. rewrite (Hend Hnn) by (by left). lia.
      - unfold ht_elements. by rewrite Hcs. }
    destruct ((Z.shiftr k 1 <? nTableSize ht)
              && (Z.shiftr (nTableSize ht) 1 <? nNumOfElements ht)) eqn:Egrow.
    + apply andb_prop in Egrow as [Eg%Z.ltb_lt _]. rewrite Z.shiftr_div_pow2 in Eg by lia.
      change (2 ^ 1) with 2 in Eg. unfold zend_hash_packed_grow.
      destruct (Z.leb_spec HT_MAX_SIZE (nTableSize ht)); [cbn; lia|]. rewrite bind_ok.
      match goal with |- context [add_to_packed w ?t k v flag] => set (ht1 := t) end.
      assert (pre (nNumUsed ht) (arPacked ht1) = pre (nNumUsed ht) (arPacked ht)) as Hpre
        by (apply pre_copy_used; lia).
      assert (zlen (arPacked ht1) = nTableSize ht * 2) as Hl1.
      { cbn. rewrite zlen_copy_used; rewrite ?zlen_alloc_packed; lia. }
      eapply runs_weaken; [apply (add_to_packed_spec w ht1 k v flag)| |done]; try done.
      * change (nTableSize ht1) with (nTableSize ht * 2).
        replace (nTableSize ht * 2) with (nTableSize ht + nTableSize ht) by lia.
        by apply size_ok_double.
      * cbn. lia.
      * change (nTableSize ht1) with (nTableSize ht * 2).
        pose proof (Z.div_mod k 2). pose proof (Z.mod_pos_bound k 2). lia.
      * change (nNumUsed ht1) with (nNumUsed ht). rewrite Hpre. by rewrite <- Hcs.
      * intros Hnn. rewrite (Hend Hnn) by (by left).
        change (nNumUsed ht1) with (nNumUsed ht). lia.
      * change (nNumUsed ht1) with (nNumUsed ht). rewrite Hpre.
        unfold ht_elements. by rewrite Hcs.
    + destruct (Z.leb_spec (nTableSize ht) (nNumUsed ht)) as [Hfull|Hroom].
      * assert (u32 (nTableSize ht + nTableSize ht) = nTableSize ht + nTableSize ht) as ->
          by (apply u32_small; unfold HT_MAX_SIZE in *; lia).
        eapply runs_weaken; [apply (convert_append w (set_nTableSize (nTableSize ht + nTableSize ht) ht) k v flag)|done|done];
          cbn; try done; try lia.
        -- apply size_ok_double; [done|lia].
        -- change (zlen (ht_cores ht) < nTableSize ht + nTableSize ht). lia.
      * eapply runs_weaken; [apply (convert_append w ht k v flag)|done|done]; try done; lia.
  - rewrite (mx_packed _ _ Hm), (mx_uninit _ _ Hm).
    assert ((if has_flag flag HASH_ADD_NEW then Ok None else zend_hash_index_find_bucket ht k)
            = Ok None) as Hnone.
    { destruct (has_flag flag HASH_ADD_NEW); [done|]. unfold zend_hash_index_find_bucket.
      destruct (mixed_find ht _ _ _ Hm (inv_wf _ Hinv) (tests_index k)) as (idx & r & H1 & H2 & H3).
      cbn [hash_of] in H1. rewrite H1, bind_ok, H2. destruct r as [i|]; [|done].
      destruct H3 as (b & Hi & Hkb). exfalso. apply Hfresh.
      apply (mixed_key_index _ _ _ Hm). eauto. }
    rewrite Hnone, bind_ok. eapply runs_bind.
    + eapply runs_weaken; [by apply mixed_make_room|intros a Ha; exact Ha|].
      unfold at_capacity. tauto.
    + intros [w1 ht1] (Hm1 & (Hw & _) & (_ & Hf1 & _ & _ & Hf4 & _) & Hlt).
      eapply runs_weaken; [apply (index_append_spec w1 ht1 (ht_cores ht))
        |intros o; by apply inserted_world|done]; try done.
      by rewrite Hf1, Hf4.
Qed.

(** ** Overwriting under an integer key *)

Lemma set_packed_spec w ht i old v : ht_inv ht -> f_packed ht = true ->
  0 <= i < nNumUsed ht -> zget (arPacked ht) i = Some old -> old <> IS_UNDEF ->
  v <> IS_UNDEF ->
  exists ht', zptr_set w ht (PPacked i) v = Ok (w, ht')
    /\ inserted w (oinsert (KInt i) v (ht_elements ht)) (KInt i) v (w, ht', Some (PPacked i)).
Proof.
  intros Hinv Hp Hi Hold Hne Hv. pose proof (inv_used _ Hinv) as Hu.
  destruct (inv_layout _ Hinv) as [Hun Hp' ? ? ?|Hun _ Hm Ha Hl Hnf|Hm];
    [congruence| |pose proof (mx_packed _ _ Hm); congruence].
  assert (ht_cores ht = pcores (pre (nNumUsed ht) (arPacked ht))) as Hcs
    by (unfold ht_cores; by rewrite Hp).
  unfold zptr_set. rewrite wr_ok, bind_ok by lia. eexists. split; [done|].
  assert (pcores (pre (nNumUsed ht) (zset (arPacked ht) i v)) = _) as Hset
    by (eapply pcores_zset; [|done|done]; lia).
  pose proof (pcores_split (arPacked ht) (nNumUsed ht) i old ltac:(lia) Hold Hne) as Hsp.
  split_and!; [| | |done].
  - destruct (inv_free _ Hinv) as [Hr _].
    apply packed_inv; try done; cbn; [apply Hinv|by rewrite zlen_zset| |].
    { destruct Hnf as [? [?|(x & Hx & Hxu)]]; (split; [done|]); [by left|right]. cbn.
      destruct (Z.eq_dec i (nNumUsed ht - 1)) as [->|].
      - exists v. by rewrite zget_zset_eq by lia.
      - exists x. by rewrite zget_zset_ne by lia. }
    rewrite Hset, (inv_count _ Hinv), Hcs, Hsp. unfold zlen. rewrite !length_app. done.
  - unfold ht_elements, ht_cores. cbn [f_packed set_arPacked set_alloc nNumUsed arPacked].
    rewrite Hp. change (take (Z.to_nat (nNumUsed ht))) with (@pre zval (nNumUsed ht)).
    rewrite Hset, Hsp, !fmap_app, !fmap_cons.
    change (centry (v, i, None)) with (KInt i, v). change (centry (old, i, None)) with (KInt i, old).
    rewrite oinsert_middle; [done|].
    pose proof (inv_nodup _ Hinv) as Hnd. unfold ht_elements in Hnd.
    by rewrite Hcs, Hsp, fmap_app, fmap_cons in Hnd.
  - eexists. split; [done|]. cbn. split_and!; try done; try lia. by apply zget_zset_eq; lia.
Qed.

Lemma index_found w ht h v flag : ht_inv ht -> 0 <= h ->
  KInt (index_key flag h) ∈ okeys (ht_elements ht) -> has_flag flag HASH_ADD_NEW = false ->
  exists p old, _zend_hash_index_add_or_update_i w ht h v flag = index_replace w ht p v flag
    /\ zptr_get w ht p = Ok old
    /\ olookup (KInt (index_key flag h)) (ht_elements ht) = Some old
    /\ forall w' v', v' <> IS_UNDEF -> exists ht', zptr_set w' ht p v' = Ok (w', ht')
         /\ inserted w' (oinsert (KInt (index_key flag h)) v' (ht_elements ht)) (KInt (index_key flag h)) v'
              (w', ht', Some p).
Proof.
  intros Hinv Hh Hin Hnew. unfold _zend_hash_index_add_or_update_i.
  fold (index_key flag h). set (k := index_key flag h) in *.
  assert (0 <= k) as Hk by (unfold k, index_key; destruct (_ && _); lia).
  pose proof (inv_used _ Hinv) as Hu0.
  destruct (inv_layout _ Hinv) as [Hun Hp Hm Ha Hu|Hun Hp Hm Ha Hl Hnf|Hm].
  - exfalso. unfold ht_elements in Hin. rewrite uninit_elements in Hin by done.
    by apply not_elem_of_nil in Hin.
  - rewrite Hp. unfold is_add_next_new. rewrite Hnew. cbn [andb negb].
    assert (ht_cores ht = pcores (pre (nNumUsed ht) (arPacked ht))) as Hcs
      by (unfold ht_cores; by rewrite Hp).
    unfold ht_elements in Hin. rewrite Hcs in Hin.
    destruct (Z.ltb_spec k (nNumUsed ht)) as [Hlt|Hge].
    2:{ exfalso. revert Hin. apply pcores_absent; [lia|by left]. }
    destruct (zget_is_Some (arPacked ht) k) as [old Hold]; [lia|].
    destruct (decide (old = IS_UNDEF)) as [->|Hne].
    { exfalso. revert Hin. apply pcores_absent; [lia|by right]. }
    exists (PPacked k), old. rewrite (rd_ok _ _ _ Hold), bind_ok. split_and!.
    + destruct old; done.
    + by apply rd_ok.
    + unfold ht_elements. rewrite Hcs. by apply pcores_lookup.
    + intros w' v' Hv'. by apply set_packed_spec with old.
  - rewrite (mx_packed _ _ Hm), (mx_uninit _ _ Hm), Hnew. unfold zend_hash_index_find_bucket.
    destruct (mixed_find ht _ _ _ Hm (inv_wf _ Hinv) (tests_index k)) as (idx & r & H1 & H2 & H3).
    cbn [hash_of] in H1. rewrite H1, bind_ok, H2, bind_ok.
    destruct r as [i|]; [|done]. destruct H3 as (b & Hi & Hkb).
    exists (PData i), (b_val b). destruct (Hi) as (_ & Hb & _). split_and!.
    + done.
    + cbn. by rewrite (rd_ok _ _ _ Hb), bind_ok.
    + rewrite <- Hkb. apply (mixed_lookup _ _ _ _ Hm Hi). apply Hinv.
    + intros w' v' Hv'. rewrite <- Hkb. apply set_val_spec; try done. by apply inv_side.
Qed.
End Packed.

(** ** The layout after an insertion

    [same_packed ht m]: if [m] returns a table, it is packed exactly if [ht] is. *)

Section Shape.
Context {E : ZendEnv}.

Definition yields {A} (m : res A) (P : A -> Prop) : Prop := forall a, m = Ok a -> P a.

Lemma yields_bind {A B} (m : res A) (f : A -> res B) (P : A -> Prop) Q :
  yields m P -> (forall a, P a -> yields (f a) Q) -> yields (m ≫= f) Q.
Proof. intros Hm Hf b Hb. destruct m; try done. by apply (Hf _ (Hm _ eq_refl)). Qed.

Lemma yields_any {A B} (m : res A) (f : A -> res B) Q : (forall a, yields (f a) Q) -> yields (m ≫= f) Q.
Proof. intros Hf b Hb. destruct m; try done. by apply (Hf _ _ Hb). Qed.

Lemma yields_ok {A} (a : A) (P : A -> Prop) : P a -> yields (Ok a) P.
Proof. intros HP b [= <-]. done. Qed.

Lemma key_cases k (l : list (hkey * zval)) : k ∈ okeys l \/ (k ∉ okeys l).
Proof. destruct (decide (k ∈ okeys l)); auto. Qed.

Lemma link_packed ht i : yields (ht_link ht i) (fun ht' => f_packed ht' = f_packed ht).
Proof.
  unfold ht_link. do 3 (apply yields_any; intros ?). unfold HT_HASH_set. apply yields_any. intros ?.
  by apply yields_ok.
Qed.

Lemma plain_packed fuel : forall ht i, yields (rehash_plain fuel ht i) (fun ht' => f_packed ht' = f_packed ht).
Proof.
  induction fuel as [|fuel IH]; intros ht i; [done|]. cbn [rehash_plain]. eapply yields_bind; [apply link_packed|].
  intros ht1 H1. destruct (_ <? _); [|by apply yields_ok]. rewrite <- H1. apply IH.
Qed.

Lemma compact_packed fuel : forall w ht i j p,
  yields (rehash_compact fuel w ht i j p) (fun x => f_packed x.1.2 = f_packed ht).
Proof.
  induction fuel as [|fuel IH]; intros w ht i j p; [done|]. cbn [rehash_compact].
  destruct (_ <? _); [|by apply yields_ok]. apply yields_any. intros b. destruct (is_undef _); [apply IH|].
  do 2 (apply yields_any; intros ?). eapply yields_bind; [apply link_packed|]. intros ht1 H1.
  apply yields_any. intros [w1 p1]. intros x Hx. apply IH in Hx. rewrite Hx. by destruct (_ =? _).
Qed.

Lemma holes_packed fuel : forall w ht i, yields (rehash_holes fuel w ht i) (fun x => f_packed x.2 = f_packed ht).
Proof.
  induction fuel as [|fuel IH]; intros w ht i; [done|]. cbn [rehash_holes]. apply yields_any. intros b.
  destruct (is_undef _).
  - eapply yields_bind; [apply compact_packed|]. intros [[w1 ht1] j] H1. by apply yields_ok.
  - eapply yields_bind; [apply link_packed|]. intros ht1 H1. destruct (_ <? _); [|by apply yields_ok].
    rewrite <- H1. apply IH.
Qed.

Lemma rehash_packed w ht : yields (zend_hash_rehash w ht) (fun x => f_packed x.2 = f_packed ht).
Proof.
  unfold zend_hash_rehash. destruct (_ =? 0); [destruct (f_uninit ht); by apply yields_ok|]. destruct (HT_IS_WITHOUT_HOLES _).
  - eapply yields_bind; [apply plain_packed|]. intros ht1 H1. by apply yields_ok.
  - eapply yields_bind; [apply holes_packed|]. intros [w1 ht1] H1. destruct (HT_HAS_ITERATORS _); by apply yields_ok.
Qed.

Lemma make_room_packed w ht : yields (ZEND_HASH_IF_FULL_DO_RESIZE w ht) (fun x => f_packed x.2 = f_packed ht).
Proof.
  unfold ZEND_HASH_IF_FULL_DO_RESIZE, zend_hash_do_resize. destruct (_ <=? _); [|by apply yields_ok]. apply yields_any. intros _.
  destruct (_ <? _); [apply rehash_packed|]. destruct (_ <? _); [|done]. apply yields_any. intros _.
  intros x Hx. by apply rehash_packed in Hx.
Qed.

Lemma to_hash_packed w ht : yields (zend_hash_packed_to_hash w ht) (fun x => f_packed x.2 = false).
Proof.
  unfold zend_hash_packed_to_hash. do 2 (apply yields_any; intros _). intros x Hx. by apply rehash_packed in Hx.
Qed.

Lemma append_packed w ht h v flag : yields (index_append w ht h v flag) (fun o => f_packed o.1.2 = f_packed ht).
Proof.
  unfold index_append, ht_append. intros o Ho. set (ht0 := if _ <=? _ then _ else ht) in Ho.
  assert (f_packed ht0 = f_packed ht) as <- by (unfold ht0; by destruct (_ <=? _)). revert o Ho.
  apply (yields_bind _ _ (fun x => f_packed x.1 = f_packed ht0)); [|intros [ht1 r] H1; by apply yields_ok]. do 2 (apply yields_any; intros ?).
  eapply yields_bind; [apply link_packed|]. intros ht1 H1. by apply yields_ok.
Qed.

Lemma add_packed w ht h v flag : yields (add_to_packed w ht h v flag) (fun o => f_packed o.1.2 = f_packed ht).
Proof. unfold add_to_packed. apply yields_any. intros P. by apply yields_ok. Qed.

Lemma zptr_set_packed w ht p v : yields (zptr_set w ht p v) (fun x => f_packed x.2 = f_packed ht).
Proof.
  destruct p; cbn; [do 2 (apply yields_any; intros ?)|apply yields_any; intros ?|destruct (_ !! _)]; try done; by apply yields_ok.
Qed.

Lemma replace_packed w ht p v flag : yields (index_replace w ht p v flag) (fun o => f_packed o.1.2 = f_packed ht).
Proof.
  unfold index_replace. do 2 (destruct (has_flag _ _); [by apply yields_ok|]). apply yields_any. intros old.
  eapply yields_bind; [apply zptr_set_packed|]. intros [w1 ht1] H1. by apply yields_ok.
Qed.

(** An integer key fits in a packed array if it comes after the elements and is less than the
    capacity, or less than twice the capacity when more than half of that is in use. *)
Definition fits_packed (ht : HashTable) (k : Z) : bool :=
  (nNumUsed ht <=? k) &&
  ((k <? nTableSize ht) || (k / 2 <? nTableSize ht) && (nTableSize ht / 2 <? nNumOfElements ht)).

(** The layout of the table that an insertion or update under [k] gives: a present key does not
    change it; an array without memory is packed if the key is below the capacity. *)
Definition packed_after (ht : HashTable) (k : Z) : bool :=
  if decide (KInt k ∈ okeys (ht_elements ht)) then f_packed ht
  else if f_packed ht then fits_packed ht k else f_uninit ht && (k <? nTableSize ht).

Lemma index_update_packed w ht h v : ht_inv ht -> 0 <= h ->
  yields (zend_hash_index_update w ht h v) (fun o => f_packed o.1.2 = packed_after ht h).
Proof.
  intros Hinv Hh. unfold packed_after. destruct (decide (KInt h ∈ okeys (ht_elements ht))) as [Hin|Hno].
  { destruct (index_found w ht h v HASH_UPDATE Hinv Hh Hin eq_refl) as (p & old & He & _).
    unfold zend_hash_index_update. rewrite He. apply replace_packed. }
  unfold zend_hash_index_update, _zend_hash_index_add_or_update_i, fits_packed.
  change (has_flag HASH_UPDATE HASH_ADD_NEXT) with false. change (has_flag HASH_UPDATE HASH_ADD_NEW) with false.
  change (is_add_next_new HASH_UPDATE) with false. cbn [andb negb]. rewrite !Z.shiftr_div_pow2 by lia. change (2 ^ 1) with 2.
  assert (Hconv : forall ht0, yields ('(w, ht) ← zend_hash_packed_to_hash w ht0; index_append w ht h v HASH_UPDATE) (fun o => f_packed o.1.2 = false)).
  { intros ht0. eapply yields_bind; [apply to_hash_packed|]. intros [w1 ht1] H1 o Ho. apply append_packed in Ho. by rewrite Ho. }
  destruct (f_packed ht) eqn:Hp.
  - destruct (Z.ltb_spec h (nNumUsed ht)) as [Hlt|Hge].
    + rewrite (proj2 (Z.leb_gt (nNumUsed ht) h)) by lia. cbn [andb]. unfold rd. destruct (zget (arPacked ht) h) as [x|] eqn:Hx; [|done].
      rewrite bind_ok. destruct (is_undef x) eqn:Ex; [apply Hconv|]. exfalso. apply Hno. unfold ht_elements, ht_cores. rewrite Hp.
      change (take (Z.to_nat (nNumUsed ht)) (arPacked ht)) with (pre (nNumUsed ht) (arPacked ht)).
      destruct (key_cases (KInt h) (centry <$> pcores (pre (nNumUsed ht) (arPacked ht)))) as [|Hk]; [done|].
      apply olookup_None in Hk. rewrite (pcores_lookup _ _ _ x) in Hk; [done|done|done|by intros ->].
    + rewrite (proj2 (Z.leb_le (nNumUsed ht) h)) by lia. cbn [andb]. destruct (h <? nTableSize ht); cbn [orb]; [intros o Ho; apply add_packed in Ho; by rewrite Ho|].
      destruct (_ && _); [|apply Hconv]. unfold zend_hash_packed_grow. destruct (_ <=? _); [done|]. rewrite bind_ok.
      intros o Ho. apply add_packed in Ho. by rewrite Ho.
  - destruct (f_uninit ht).
    + destruct (h <? nTableSize ht); intros o Ho; [apply add_packed in Ho|apply append_packed in Ho]; rewrite Ho; [done|]. unfold zend_hash_real_init_mixed, zend_hash_real_init_mixed_ex. by destruct (nTableSize ht =? HT_MIN_SIZE).
    + apply yields_any. intros [i|].
      * intros o Ho. apply replace_packed in Ho. by rewrite Ho.
      * eapply yields_bind; [apply make_room_packed|]. intros [w1 ht1] H1 o Ho. apply append_packed in Ho. rewrite Ho. cbn in H1. by rewrite H1.
Qed.
End Shape.

(** ** The insertion functions of the API *)

Section Api.
Context {E : ZendEnv}.

(** ** Lemmas on the flag combinations of the API *)

Lemma update_found_add w ht i b v : at_index ht i b ->
  update_found w ht i v HASH_ADD = Ok (w, ht, None).
Proof.
  intros (_ & Hb & _). unfold update_found, zptr_get. by rewrite (rd_ok _ _ _ Hb), !bind_ok.
Qed.

(** The outcome of an operation that only adds: a key that is present leaves
    everything as it is and returns NULL. *)
Definition added (w : world) (ht : HashTable) (k : hkey) (v : zval)
    (o : world * HashTable * option zptr) : Prop :=
  if decide (k ∈ okeys (ht_elements ht)) then o = (w, ht, None)
  else inserted w (ht_elements ht ++ [(k, v)]) k v o.

(** The outcome of an update: the old value, if any, is destroyed. *)
Definition updated (w : world) (ht : HashTable) (k : hkey) (v : zval)
    (o : world * HashTable * option zptr) : Prop :=
  inserted w (oinsert k v (ht_elements ht)) k v o
  /\ forall old, olookup k (ht_elements ht) = Some old -> o.1.1 = run_dtor ht old w.

Lemma updated_fresh w ht k v o : k ∉ okeys (ht_elements ht) ->
  inserted w (ht_elements ht ++ [(k, v)]) k v o -> updated w ht k v o.
Proof.
  intros Hk Ho. split; [by rewrite oinsert_fresh|].
  intros old Hold. apply olookup_None in Hk. congruence.
Qed.

Lemma update_found_updated w ht i b v : ht_inv ht -> mixed ht (ht_cores ht) -> at_index ht i b ->
  v <> IS_UNDEF ->
  runs (update_found w ht i v HASH_UPDATE) (updated w ht (bkey b) v) (at_capacity ht).
Proof.
  intros Hinv Hm Hi Hv. destruct (update_found_update w ht i b v HASH_UPDATE Hinv Hm Hi Hv eq_refl eq_refl ltac:(done)) as (ht' & -> & Hins).
  split; [done|]. intros old Hold. unfold ht_elements in Hold.
  rewrite (mixed_lookup _ _ _ _ Hm Hi (inv_nodup _ Hinv)) in Hold. by simplify_eq.
Qed.

Lemma update_ok w ht key v : ht_inv ht -> v <> IS_UNDEF ->
  runs (zend_hash_update w ht key v) (updated w ht (KStr (ZSTR_VAL key)) v) (at_capacity ht).
Proof.
  intros Hinv Hv. destruct (key_cases (KStr (ZSTR_VAL key)) (ht_elements ht)) as [Hin|Hno].
  - destruct (add_or_update_found w ht key v HASH_UPDATE Hinv Hin eq_refl)
      as (i & b & Hm & Hi & Hk & He). unfold zend_hash_update. rewrite He, <- Hk.
    by apply update_found_updated.
  - eapply runs_weaken; [by apply (add_or_update_fresh w ht key v HASH_UPDATE)| |done].
    intros o. by apply updated_fresh.
Qed.

Lemma index_update_ok w ht h v : ht_inv ht -> 0 <= h < 2 ^ 64 ->
  v <> IS_UNDEF -> (f_packed ht = true -> nNumUsed ht < HT_MAX_SIZE) ->
  runs (zend_hash_index_update w ht h v) (updated w ht (KInt h) v)
    (nTableSize ht = HT_MAX_SIZE).
Proof.
  intros Hinv Hh Hv Hmax. destruct (key_cases (KInt h) (ht_elements ht)) as [Hin|Hno].
  - destruct (index_found w ht h v HASH_UPDATE Hinv ltac:(lia) Hin eq_refl)
      as (p & old & He & Hg & Hl & Hset). unfold zend_hash_index_update. rewrite He.
    unfold index_replace. change (has_flag HASH_UPDATE HASH_LOOKUP) with false.
    change (has_flag HASH_UPDATE HASH_ADD) with false. cbv iota. rewrite Hg, bind_ok.
    destruct (Hset (run_dtor ht old w) v Hv) as (ht' & Hs & Hins). rewrite Hs, bind_ok.
    split; [eapply inserted_world, Hins; apply run_dtor_same|]. intros old' Hold'. cbn.
    change (index_key HASH_UPDATE h) with h in Hl. by simplify_eq.
  - pose proof (index_fresh w ht h v HASH_UPDATE Hinv Hh Hv Hmax Hno ltac:(done)) as Hf.
    unfold zend_hash_index_update. eapply runs_weaken; [exact Hf| |done].
    intros o. by apply updated_fresh.
Qed.

Lemma index_add_ok w ht h v : ht_inv ht -> 0 <= h < 2 ^ 64 ->
  v <> IS_UNDEF -> (f_packed ht = true -> nNumUsed ht < HT_MAX_SIZE) ->
  runs (zend_hash_index_add w ht h v) (added w ht (KInt h) v)
    (nTableSize ht = HT_MAX_SIZE).
Proof.
  intros Hinv Hh Hv Hmax. unfold added. destruct (decide _) as [Hin|Hno].
  - destruct (index_found w ht h v HASH_ADD Hinv ltac:(lia) Hin eq_refl)
      as (p & old & He & _). unfold zend_hash_index_add. by rewrite He.
  - pose proof (index_fresh w ht h v HASH_ADD Hinv Hh Hv Hmax Hno ltac:(done)) as Hf.
    unfold zend_hash_index_add. exact Hf.
Qed.

End Api.

(** ** Tables filled by zend_hash_next_index_insert *)

Section Dense.
Context {E : ZendEnv}.

(** The entries of a list. *)
Definition indexed (o : Z) (vals : list zval) : list (hkey * zval) :=
  imap (fun i v => (KInt (o + Z.of_nat i), v)) vals.

Lemma indexed_cons o v vals : indexed o (v :: vals) = (KInt o, v) :: indexed (o + 1) vals.
Proof.
  unfold indexed. rewrite imap_cons. rewrite Z.add_0_r. f_equal. apply imap_ext. intros i x _. cbn. do 2 f_equal. lia.
Qed.

Lemma indexed_app o l1 l2 : indexed o (l1 ++ l2) = indexed o l1 ++ indexed (o + zlen l1) l2.
Proof.
  revert o. induction l1 as [|v l1 IH]; intros o; [by rewrite Z.add_0_r|]. cbn [app]. rewrite !indexed_cons, IH, zlen_cons.
  cbn. do 2 f_equal. f_equal. lia.
Qed.

Lemma olookup_indexed h vals : forall o, o <= h -> olookup (KInt h) (indexed o vals) = zget vals (h - o).
Proof.
  induction vals as [|v vals IH]; intros o Ho; [unfold zget; cbn; by destruct (0 <=? h - o)|].
  rewrite indexed_cons. cbn [olookup]. unfold zget. rewrite (proj2 (Z.leb_le _ _)) by lia. destruct (decide (KInt h = KInt o)) as [Heq|Hne].
  - injection Heq as ->. by rewrite Z.sub_diag.
  - assert (h <> o) by congruence. rewrite IH by lia. unfold zget. rewrite (proj2 (Z.leb_le _ _)) by lia.
    by replace (Z.to_nat (h - o)) with (S (Z.to_nat (h - (o + 1)))) by lia.
Qed.

Record dense (ht : HashTable) (vals : list zval) : Prop := {
  dn_inv : ht_inv ht;
  dn_elements : ht_elements ht = indexed 0 vals;
  dn_used : nNumUsed ht = zlen vals;
  dn_shape : (f_uninit ht = true /\ f_packed ht = false /\ vals = [] /\ nNextFreeElement ht = ZEND_LONG_MIN)
             \/ (f_uninit ht = false /\ f_packed ht = true /\ nNextFreeElement ht = zlen vals);
}.

Lemma dense_count ht vals : dense ht vals -> nNumOfElements ht = zlen vals.
Proof.
  intros [Hi He _ _]. rewrite (inv_count _ Hi). assert (zlen (ht_elements ht) = zlen vals) as <-.
  { rewrite He. unfold zlen, indexed. by rewrite length_imap. }
  unfold ht_elements, zlen. by rewrite length_fmap.
Qed.

Lemma dense_find w ht vals h : dense ht vals -> 0 <= h ->
  exists r, zend_hash_index_find ht h = Ok r /\ finds w ht r (zget vals h).
Proof.
  intros Hd Hh. destruct (zend_hash_index_find_ok w ht h (dn_inv _ _ Hd) Hh) as (r & Hr & Hf). exists r. split; [done|].
  rewrite (dn_elements _ _ Hd), olookup_indexed, Z.sub_0_r in Hf by done. done.
Qed.

(** Appending, followed through the code: the world does not change and the table
    stays packed. *)
Lemma append_shape w ht vals v : dense ht vals -> zlen vals < HT_MAX_SIZE ->
  exists ht' p, zend_hash_next_index_insert w ht v = Ok (w, ht', p)
    /\ nNumUsed ht' = zlen vals + 1 /\ f_uninit ht' = false /\ f_packed ht' = true /\ nNextFreeElement ht' = zlen vals + 1.
Proof.
  intros Hd Hmax. pose proof (inv_size _ (dn_inv _ _ Hd)) as Hs. apply size_ok_bounds in Hs. pose proof (inv_used _ (dn_inv _ _ Hd)) as Hu.
  pose proof (dense_count _ _ Hd) as Hc. rewrite (dn_used _ _ Hd) in Hu.
  assert (forall ht0 h, f_uninit ht0 = false -> f_packed ht0 = true -> 0 <= h < zlen (arPacked ht0) -> h = zlen vals ->
    exists ht' p, add_to_packed w ht0 h v (Z.lor HASH_ADD HASH_ADD_NEXT) = Ok (w, ht', p)
    /\ nNumUsed ht' = zlen vals + 1 /\ f_uninit ht' = false /\ f_packed ht' = true /\ nNextFreeElement ht' = zlen vals + 1) as Hadd.
  { intros ht0 h U P Hh ->. unfold add_to_packed. rewrite wr_ok, bind_ok; [by eexists _, _|].
    destruct (negb _ && _); [rewrite zlen_undef_range|]; done. }
  unfold zend_hash_next_index_insert, _zend_hash_index_add_or_update_i. change (has_flag (Z.lor HASH_ADD HASH_ADD_NEXT) HASH_ADD_NEXT) with true.
  change (is_add_next_new _) with false. cbn [andb negb].
  destruct (dn_shape _ _ Hd) as [(U & P & -> & Hn)|(U & P & Hn)]; rewrite U, P || rewrite P; rewrite Hn.
  - rewrite Z.eqb_refl. rewrite (proj2 (Z.ltb_lt _ _)) by lia. apply Hadd; try done. cbn.
    unfold alloc_packed. rewrite zlen_replicate. lia.
  - unfold HT_MAX_SIZE in *. rewrite u64_small by lia.
    rewrite (proj2 (Z.eqb_neq (zlen vals) (u64 ZEND_LONG_MIN))) by (change (u64 ZEND_LONG_MIN) with (2 ^ 63); lia).
    rewrite (dn_used _ _ Hd), Z.ltb_irrefl. destruct (inv_layout _ (dn_inv _ _ Hd)) as [Hun|_ _ _ _ Hl _|Hm];
      [congruence| |by rewrite (mx_packed _ _ Hm) in P].
    destruct (Z.ltb_spec (zlen vals) (nTableSize ht)); [apply Hadd; (done || lia)|]. rewrite !Z.shiftr_div_pow2 by lia.
    rewrite (proj2 (Z.ltb_lt _ _)), (proj2 (Z.ltb_lt _ _)) by (change (2 ^ 1) with 2; Z.div_mod_to_equations; lia). cbn [andb].
    unfold zend_hash_packed_grow. rewrite (proj2 (Z.leb_gt _ _)) by (unfold HT_MAX_SIZE; lia). rewrite bind_ok.
    apply Hadd; try done. cbn. unfold copy_used, alloc_packed. rewrite zlen_app. unfold zlen in *.
    rewrite length_take, length_drop, length_replicate. rewrite (dn_used _ _ Hd). unfold zlen. lia.
Qed.

Lemma dense_append w ht vals v : dense ht vals -> zlen vals < HT_MAX_SIZE -> v <> IS_UNDEF ->
  exists ht' p, zend_hash_next_index_insert w ht v = Ok (w, ht', p) /\ dense ht' (vals ++ [v]).
Proof.
  intros Hd Hmax Hv. destruct (append_shape w ht vals v Hd Hmax) as (ht' & p & He & Hu & Hun & Hp & Hn). exists ht', p. split; [done|].
  assert (index_key (Z.lor HASH_ADD HASH_ADD_NEXT) (u64 (nNextFreeElement ht)) = zlen vals) as Hk.
  { unfold index_key. change (has_flag _ _) with true. cbn [andb]. unfold HT_MAX_SIZE in Hmax.
    destruct (dn_shape _ _ Hd) as [(_ & _ & -> & ->)|(_ & _ & ->)]; [done|]. pose proof (zlen_nonneg vals). rewrite u64_small by lia.
    rewrite (proj2 (Z.eqb_neq _ _)); [done|]. change (u64 ZEND_LONG_MIN) with (2 ^ 63). lia. }
  pose proof (index_fresh w ht (u64 (nNextFreeElement ht)) v (Z.lor HASH_ADD HASH_ADD_NEXT) (dn_inv _ _ Hd)) as Hf.
  rewrite Hk in Hf. unfold zend_hash_next_index_insert in He. rewrite He in Hf.
  destruct Hf as (Hi & Hel & _).
  - pose proof (u64_range (nNextFreeElement ht)). lia.
  - done.
  - intros _. by rewrite (dn_used _ _ Hd).
  - apply olookup_None. rewrite (dn_elements _ _ Hd), olookup_indexed by apply zlen_nonneg. rewrite Z.sub_0_r. unfold zget, zlen.
    rewrite (proj2 (Z.leb_le _ _)), Nat2Z.id by lia. apply lookup_ge_None. lia.
  - done.
  - split; [done| |by rewrite zlen_app, Hu|right; by rewrite zlen_app, Hn]. rewrite Hel, (dn_elements _ _ Hd), indexed_app.
    change (new_val _ v) with v. by rewrite Z.add_0_l, indexed_cons.
Qed.
End Dense.
