(* ===== verification/HashDelete.v ===== *)
(** * Deletion refines deletion of the ordered map

    Unlinking a bucket keeps every chain; the counters, the internal pointer
    and the iterators are repaired; the other entries keep their order. *)

From S2P Require Import Prelude.
From S2P Require Import ZendString.
From S2P Require Import OrderedMap.
From S2P Require Import HashTypes.
From S2P Require Import HashOps.
From S2P Require Import HashChain.
From S2P Require Import HashRehash.
From S2P Require Import HashInv.
From S2P Require Import HashLayout.
From S2P Require Import HashInsert.
From S2P Require Import HashIndex.

(** ** Unlinking from a chain *)

Lemma chain_find_prev_spec D m x l fuel p : chain D x l -> (length l < fuel)%nat ->
  match first_match D m l with
  | Some i => exists l1 l2, l = l1 ++ i :: l2 /\
      chain_find_prev fuel D m x p
      = Ok (Some (i, match last l1 with Some j => Some j | None => p end))
  | None => chain_find_prev fuel D m x p = Ok None
  end.
Proof.
  intros Hc. revert fuel p. induction Hc as [|i b l Hi Hb Hc IH]; intros fuel p Hf;
    (destruct fuel as [|fuel]; cbn [length] in Hf; [lia|]); cbn [chain_find_prev].
  - done.
  - rewrite (proj2 (Z.eqb_neq _ _)) by done. rewrite (rd_ok _ _ _ Hb), bind_ok.
    unfold first_match. rewrite filter_cons, Hb. destruct (m b); cbn.
    + by exists [], l.
    + specialize (IH fuel (Some i) ltac:(lia)). unfold first_match in IH.
      destruct (head _) as [i'|]; [|done].
      destruct IH as (l1 & l2 & -> & IH). exists (i :: l1), l2. split; [done|].
      rewrite IH. rewrite last_cons. by destruct (last l1).
Qed.

Lemma chain_mid D x l1 i l2 : chain D x (l1 ++ i :: l2) ->
  exists b, zget D i = Some b /\ chain D (b_next b) l2
    /\ (l1 = [] -> x = i)
    /\ (forall j, last l1 = Some j -> exists bj, zget D j = Some bj /\ b_next bj = i).
Proof.
  revert x. induction l1 as [|a l1 IH]; intros x Hc; inversion Hc as [|? b ? Hne Hb Hc' E]; subst.
  - exists b. by split_and!.
  - destruct (IH _ Hc') as (bi & Hbi & Hci & Hnil & Hlast). exists bi. split_and!; try done.
    intros j. rewrite last_cons. destruct (last l1) as [j'|] eqn:El.
    + intros [= ->]. by apply Hlast.
    + intros [= ->]. apply last_None in El. exists b. split; [done|auto].
Qed.

Lemma chain_unlink D x l1 i l2 b j bj : NoDup (l1 ++ i :: l2) ->
  chain D x (l1 ++ i :: l2) -> zget D i = Some b -> last l1 = Some j -> zget D j = Some bj ->
  chain (zset D j (with_next (b_next b) bj)) x (l1 ++ l2).
Proof.
  intros Hnd Hc Hb Hl Hj. assert (0 <= j < zlen D) as Hr by (eapply zget_Some_range; eauto).
  revert x Hc Hnd. induction l1 as [|a l1 IH]; intros x Hc Hnd; [done|].
  inversion Hc as [|? ba ? Hne Hba Hc' E1 E2]; subst. cbn in Hnd. apply NoDup_cons in Hnd as [Ha Hnd].
  rewrite last_cons in Hl. destruct (last l1) as [j'|] eqn:El.
  - injection Hl as ->. cbn. apply chain_cons with ba; [done| |by apply IH].
    rewrite zget_zset_ne; [done|lia|]. intros ->. apply Ha, elem_of_app. left.
    apply last_Some in El as [l' ->]. apply elem_of_app. right. by left.
  - injection Hl as ->. apply last_None in El. subst l1. cbn in *.
    apply chain_cons with (with_next (b_next b) bj); [done|by apply zget_zset_eq|]. cbn.
    inversion Hc' as [|? bi ? Hni Hbi Hci E3 E4]; subst. assert (bi = b) as -> by congruence.
    eapply chain_agree; [|exact Hci]. intros k Hk. rewrite zget_zset_ne; [done|lia|].
    intros ->. apply Ha. by right.
Qed.

Lemma NoDup_chain_idx D L n s : NoDup (chain_idx D L n s).
Proof.
  unfold chain_idx. induction (Z.to_nat n) as [|m IH]; cbn; [apply NoDup_nil_2|].
  destruct (in_slot D L s (Z.of_nat m)); [|done]. constructor; [|done].
  intros Hin. pose proof (elem_of_chain_idx D L (Z.of_nat m) s (Z.of_nat m)) as [Hel _].
  unfold chain_idx in Hel. rewrite Nat2Z.id in Hel. apply Hel in Hin. lia.
Qed.

(** Killing bucket [i] removes it from its chain and from no other. *)
Lemma chain_idx_kill D D' L n s i :
  (forall k, k <> i -> in_slot D' L s k = in_slot D L s k) -> in_slot D' L s i = false ->
  chain_idx D' L n s = filter (fun k => k <> i) (chain_idx D L n s).
Proof.
  intros Hk Hi. unfold chain_idx. induction (Z.to_nat n) as [|m IH]; [done|]. cbn [chain_upto].
  destruct (Z.eq_dec (Z.of_nat m) i) as [Heq|Hne].
  - rewrite Heq, Hi. destruct (in_slot D L s i); [|done].
    rewrite filter_cons_False by (cbn; tauto). done.
  - rewrite Hk by done. destruct (in_slot D L s (Z.of_nat m)); [|done].
    rewrite filter_cons_True by done. by rewrite IH.
Qed.

Lemma filter_ne_id (l : list Z) i : i ∉ l -> filter (fun k => k <> i) l = l.
Proof.
  induction l as [|a l IH]; [done|]. rewrite not_elem_of_cons. intros [Hne Hl].
  rewrite filter_cons_True by congruence. by rewrite IH.
Qed.

(** The bucket before [i] in its chain, as the deletion loops find it. *)
Definition prev_ok (H : list Z) (D : list Bucket) (n i : Z) (b : Bucket) (prev : option Z) : Prop :=
  exists l1 l2, chain_idx D (zlen H) n (b_h b mod zlen H) = l1 ++ i :: l2 /\ prev = last l1.

(** The hash part and the links after unlinking [i]. *)
Definition unlink_H (H : list Z) (b : Bucket) (prev : option Z) : list Z :=
  match prev with None => zset H (b_h b mod zlen H) (b_next b) | Some _ => H end.
Definition unlink_D (D : list Bucket) (b : Bucket) (prev : option Z) : list Bucket :=
  match prev with
  | Some j => match zget D j with Some bj => zset D j (with_next (b_next b) bj) | None => D end
  | None => D
  end.

Lemma prev_in_slot H D n i b prev j : prev_ok H D n i b prev -> prev = Some j ->
  j <> i /\ 0 <= j < n /\ in_slot D (zlen H) (b_h b mod zlen H) j = true.
Proof.
  intros (l1 & l2 & Hl & ->) Hj. pose proof (NoDup_chain_idx D (zlen H) n (b_h b mod zlen H)) as Hnd.
  rewrite Hl in Hnd. apply last_Some in Hj as [l' ->].
  assert (j ∈ chain_idx D (zlen H) n (b_h b mod zlen H)) as Hin.
  { rewrite Hl. apply elem_of_app. left. apply elem_of_app. right. by left. }
  apply elem_of_chain_idx in Hin. split; [|tauto]. intros ->.
  apply NoDup_app in Hnd as (_ & Hdis & _). apply (Hdis i); [|by left].
  apply elem_of_app. right. by left.
Qed.

Lemma chains_remove H D n i b prev D2 : 0 < zlen H -> chains_ok H D n -> 0 <= i < n ->
  zget D i = Some b -> live b = true -> prev_ok H D n i b prev ->
  (forall k, k <> i -> zget D2 k = zget (unlink_D D b prev) k) ->
  (forall b2, zget D2 i = Some b2 -> live b2 = false) ->
  chains_ok (unlink_H H b prev) D2 n.
Proof.
  intros HL Hc Hi Hb Hlive Hprev HD2 Hdead. set (s0 := b_h b mod zlen H) in *.
  assert (0 <= s0 < zlen H) as Hs0 by (by apply Z.mod_pos_bound).
  assert (zlen (unlink_H H b prev) = zlen H) as HlH
    by (unfold unlink_H; destruct prev; [done|apply zlen_zset]).
  assert (forall j, prev = Some j -> exists bj, zget D j = Some bj) as Hbj.
  { intros j Hj. destruct (prev_in_slot _ _ _ _ _ _ _ Hprev Hj) as (_ & _ & Hin).
    unfold in_slot in Hin. destruct (zget D j); [eauto|done]. }
  assert (forall k, k <> i -> forall s, in_slot D2 (zlen H) s k = in_slot D (zlen H) s k) as Hsame.
  { intros k Hk s. unfold in_slot. rewrite HD2 by done. unfold unlink_D.
    destruct prev as [j|]; [|done]. destruct (Hbj j eq_refl) as [bj Hj]. rewrite Hj.
    assert (0 <= j < zlen D) by (eapply zget_Some_range; eauto).
    destruct (Z.eq_dec j k) as [->|]; [by rewrite zget_zset_eq, Hj by done|].
    by rewrite zget_zset_ne by lia. }
  assert (forall s, in_slot D2 (zlen H) s i = false) as Hdi.
  { intros s. unfold in_slot. destruct (zget D2 i) as [b2|]; [|done].
    by rewrite (Hdead b2 eq_refl). }
  intros s Hs. rewrite HlH in *. destruct (Hc s Hs) as (x & Hx & Hch).
  rewrite (chain_idx_kill D D2 _ _ _ i) by auto.
  destruct (Z.eq_dec s s0) as [->|Hne].
  - destruct Hprev as (l1 & l2 & Hl & ->). fold s0 in Hl. rewrite Hl in *.
    pose proof (NoDup_chain_idx D (zlen H) n s0) as Hnd. rewrite Hl in Hnd.
    apply NoDup_app in Hnd as Hnd'. destruct Hnd' as (_ & Hdis & Hnd2).
    apply NoDup_cons in Hnd2 as [Hi2 _].
    assert (i ∉ l1) as Hi1 by (intros Hin; apply (Hdis i Hin); by left).
    rewrite filter_app, filter_cons_False, !filter_ne_id by (done || cbn; tauto).
    destruct (chain_mid _ _ _ _ _ Hch) as (b' & Hb' & Hch2 & Hnil & _).
    assert (b' = b) as -> by congruence.
    unfold unlink_H, unlink_D in *. destruct (last l1) as [j|] eqn:El.
    + exists x. split; [done|]. destruct (Hbj j eq_refl) as [bj Hj]. rewrite Hj in HD2.
      eapply chain_agree; [|by eapply (chain_unlink D x l1 i l2 b j bj)].
      intros k Hk. symmetry. apply HD2. intros ->. apply elem_of_app in Hk as [|]; done.
    + apply last_None in El. subst l1. exists (b_next b).
      split; [by apply zget_zset_eq|]. eapply chain_agree; [|exact Hch2].
      intros k Hk. symmetry. apply HD2. by intros ->.
  - assert (forall k, k ∈ chain_idx D (zlen H) n s -> k <> i) as Hki.
    { intros k [_ Hk]%elem_of_chain_idx ->. unfold in_slot in Hk. rewrite Hb, Hlive in Hk.
      apply Z.eqb_eq in Hk. done. }
    rewrite filter_ne_id by (intros Hin; by apply (Hki i)).
    exists x. split.
    + unfold unlink_H. destruct prev; [done|]. by rewrite zget_zset_ne by lia.
    + eapply chain_agree; [|exact Hch]. intros k Hk. rewrite HD2 by auto.
      unfold unlink_D. destruct prev as [j|]; [|done]. destruct (Hbj j eq_refl) as [bj Hj].
      rewrite Hj. destruct (prev_in_slot _ _ _ _ _ _ _ Hprev eq_refl) as (_ & Hjr & Hjs).
      rewrite zget_zset_ne; [done|lia|]. intros ->.
      apply elem_of_chain_idx in Hk as [_ Hk]. unfold in_slot in Hk, Hjs. rewrite Hj in Hk, Hjs.
      apply andb_prop in Hk as [_ Hk%Z.eqb_eq]. apply andb_prop in Hjs as [_ Hjs%Z.eqb_eq].
      by apply Hne; rewrite <- Hk, Hjs.
Qed.

(** Dead buckets at the end can be cut off. *)
Lemma chains_trim H D n n' : 0 <= n' <= n ->
  (forall k b, n' <= k < n -> zget D k = Some b -> live b = false) ->
  chains_ok H D n -> chains_ok H D n'.
Proof.
  intros Hn Hdead Hc s Hs. destruct (Hc s Hs) as (x & Hx & Hch). exists x. split; [done|].
  assert (forall m : nat, Z.of_nat m <= n - n' ->
    chain_idx D (zlen H) (n' + Z.of_nat m) s = chain_idx D (zlen H) n' s) as Hm.
  { induction m as [|m IH]; intros Hm; [by rewrite Z.add_0_r|].
    replace (n' + Z.of_nat (S m)) with (n' + Z.of_nat m + 1) by lia.
    rewrite chain_idx_succ by lia. unfold in_slot.
    destruct (zget D (n' + Z.of_nat m)) as [b|] eqn:Hb; [|apply IH; lia].
    rewrite (Hdead (n' + Z.of_nat m) b) by (done || lia). apply IH. lia. }
  rewrite <- (Hm (Z.to_nat (n - n')) ltac:(lia)).
  replace (n' + Z.of_nat (Z.to_nat (n - n'))) with n by lia. done.
Qed.

Lemma cores_trim D n n' : 0 <= n' <= n -> n <= zlen D ->
  (forall k b, n' <= k < n -> zget D k = Some b -> live b = false) ->
  cores (pre n' D) = cores (pre n D).
Proof.
  intros Hn Hl Hdead.
  assert (forall m : nat, Z.of_nat m <= n - n' ->
    cores (pre (n' + Z.of_nat m) D) = cores (pre n' D)) as Hm.
  { induction m as [|m IH]; intros Hm; [by rewrite Z.add_0_r|].
    replace (n' + Z.of_nat (S m)) with (n' + Z.of_nat m + 1) by lia.
    destruct (zget_is_Some D (n' + Z.of_nat m)) as [b Hb]; [lia|].
    rewrite (cores_succ _ _ _ Hb), bcore_dead, app_nil_r by (eapply Hdead; [|done]; lia).
    apply IH. lia. }
  rewrite <- (Hm (Z.to_nat (n - n')) ltac:(lia)).
  replace (n' + Z.of_nat (Z.to_nat (n - n'))) with n by lia. done.
Qed.

(** ** Counters, internal pointer and iterators *)

Section Fixup.
Context {E : ZendEnv}.

(** Slots below [nNumUsed] can be read. *)
Definition slots_ok (packed : bool) (ht : HashTable) : Prop :=
  nNumUsed ht <= (if packed then zlen (arPacked ht) else zlen (arData ht)).
Definition dead_slot (packed : bool) (ht : HashTable) (k : Z) : Prop :=
  slot_undef packed ht k = Ok true.

Lemma slot_undef_ok packed ht k : slots_ok packed ht -> 0 <= k < nNumUsed ht ->
  exists u, slot_undef packed ht k = Ok u.
Proof.
  unfold slots_ok, slot_undef. intros Hs Hk. destruct packed.
  - destruct (zget_is_Some (arPacked ht) k) as [v Hv]; [lia|]. rewrite (rd_ok _ _ _ Hv). eauto.
  - destruct (zget_is_Some (arData ht) k) as [v Hv]; [lia|]. rewrite (rd_ok _ _ _ Hv). eauto.
Qed.

(** The next slot in use after [idx], or the end. *)
Definition next_slot (packed : bool) (ht : HashTable) (idx r : Z) : Prop :=
  idx < r <= nNumUsed ht /\ (forall k, idx < k < r -> dead_slot packed ht k)
  /\ (r < nNumUsed ht -> slot_undef packed ht r = Ok false).

Lemma next_used_ok fuel : forall packed ht idx, slots_ok packed ht -> 0 <= idx < nNumUsed ht ->
  (Z.to_nat (nNumUsed ht - idx) < fuel)%nat ->
  exists r, next_used fuel packed ht idx = Ok r /\ next_slot packed ht idx r.
Proof.
  induction fuel as [|fuel IH]; intros packed ht idx Hs Hi Hf; [lia|]. cbn [next_used].
  destruct (Z.leb_spec (nNumUsed ht) (idx + 1)).
  - exists (idx + 1). split; [done|]. split_and!; intros; lia.
  - destruct (slot_undef_ok packed ht (idx + 1) Hs ltac:(lia)) as [u Hu]. rewrite Hu, bind_ok.
    destruct u.
    + destruct (IH packed ht (idx + 1) Hs ltac:(lia) ltac:(lia)) as (r & Hr & Hlt & Hd & Hl).
      exists r. split; [done|]. split_and!; [lia|lia| |done]. intros k Hk.
      destruct (Z.eq_dec k (idx + 1)) as [->|]; [done|]. apply Hd. lia.
    + exists (idx + 1). split; [done|]. split_and!; [lia|lia| |done]. intros; lia.
Qed.

Lemma trim_used_ok fuel : forall packed ht n, slots_ok packed ht -> 0 < n <= nNumUsed ht ->
  (Z.to_nat n < fuel)%nat ->
  exists r, trim_used fuel packed ht n = Ok r /\ 0 <= r < n
    /\ (r = 0 \/ slot_undef packed ht (r - 1) = Ok false)
    /\ forall k, r <= k < n - 1 -> dead_slot packed ht k.
Proof.
  induction fuel as [|fuel IH]; intros packed ht n Hs Hn Hf; [lia|]. cbn [trim_used].
  destruct (Z.ltb_spec 0 (n - 1)).
  - destruct (slot_undef_ok packed ht (n - 1 - 1) Hs ltac:(lia)) as [u Hu]. rewrite Hu, bind_ok.
    destruct u.
    + destruct (IH packed ht (n - 1) Hs ltac:(lia) ltac:(lia)) as (r & Hr & Hlt & Hl & Hd).
      exists r. split_and!; [done|lia|lia|done|]. intros k Hk.
      destruct (Z.eq_dec k (n - 1 - 1)) as [->|]; [done|]. apply Hd. lia.
    + exists (n - 1). split_and!; [done|lia|lia|by right|]. intros; lia.
  - exists (n - 1). split_and!; [done|lia|lia|left; lia|]. intros; lia.
Qed.

(** The outcome of the bookkeeping: [n] slots remain in use, only [idx] and
    dead slots are cut off, and an internal pointer at [idx] moves to the next
    element. *)
Definition fixed (packed : bool) (ht : HashTable) (idx n ip : Z) : Prop :=
  0 <= n <= nNumUsed ht
  /\ (forall k, n <= k < nNumUsed ht -> k = idx \/ dead_slot packed ht k)
  /\ (nInternalPointer ht <= nNumUsed ht -> ip <= n)
  /\ (nInternalPointer ht < idx -> ip = Z.min (nInternalPointer ht) n)
  /\ (nInternalPointer ht = idx ->
       (forall k, idx < k < ip -> dead_slot packed ht k)
       /\ (ip < n -> idx < ip /\ slot_undef packed ht ip = Ok false))
  /\ (idx <> nNumUsed ht - 1 -> n = nNumUsed ht)
  /\ (idx = nNumUsed ht - 1 -> n < nNumUsed ht /\ (n = 0 \/ slot_undef packed ht (n - 1) = Ok false)).

Lemma del_fixup_ok packed w ht idx : slots_ok packed ht -> 0 <= idx < nNumUsed ht ->
  exists w' n ip, del_fixup packed w ht idx
      = Ok (w', set_counts n (nNumOfElements ht - 1) (nTableSize ht) ip (nNextFreeElement ht) ht)
    /\ w_same w w' /\ fixed packed ht idx n ip.
Proof.
  intros Hs Hi. unfold del_fixup. set (ht1 := set_nNumOfElements _ ht). cbn zeta.
  assert (exists w' ip, (if (nInternalPointer ht1 =? idx) || HT_HAS_ITERATORS ht1 then
       new_idx ← next_used (S (Z.to_nat (nNumUsed ht1))) packed ht1 idx;
       Ok (zend_hash_iterators_update w
             (if nInternalPointer ht1 =? idx then set_nInternalPointer new_idx ht1 else ht1)
             idx new_idx,
           if nInternalPointer ht1 =? idx then set_nInternalPointer new_idx ht1 else ht1)
     else Ok (w, ht1)) = Ok (w', set_nInternalPointer ip ht1) /\ w_same w w'
     /\ (nInternalPointer ht <> idx -> ip = nInternalPointer ht)
     /\ (nInternalPointer ht = idx -> next_slot packed ht idx ip)) as (w' & ip & -> & Hw & Hne & Heq).
  { destruct (next_used_ok (S (Z.to_nat (nNumUsed ht1))) packed ht1 idx Hs Hi) as (r & Hr & Hn).
    { cbn. lia. }
    destruct (Z.eqb_spec (nInternalPointer ht1) idx) as [He|He]; cbn [orb].
    - rewrite Hr, bind_ok. eexists _, r. split_and!; [done|apply iterators_update_same|done|done].
    - destruct (HT_HAS_ITERATORS ht1).
      + rewrite Hr, bind_ok. eexists _, (nInternalPointer ht).
        split_and!; [done|apply iterators_update_same|done|done].
      + exists w, (nInternalPointer ht). by split_and!. }
  rewrite bind_ok. change (nNumUsed (set_nInternalPointer ip ht1)) with (nNumUsed ht).
  change (nNumUsed ht1) with (nNumUsed ht).
  destruct (Z.eqb_spec (nNumUsed ht - 1) idx) as [Hlast|Hlast].
  - destruct (trim_used_ok (S (Z.to_nat (nNumUsed ht))) packed (set_nInternalPointer ip ht1)
      (nNumUsed ht) Hs ltac:(cbn; lia) ltac:(lia)) as (n & Hn & Hr & Hl & Hd).
    rewrite Hn, bind_ok. exists w', n, (Z.min ip n). split_and!; [done|done|].
    unfold fixed. split_and!; try lia.
    + intros k Hk. destruct (Z.eq_dec k idx); [by left|right]. apply Hd. lia.
    + intros Hip. destruct (Heq Hip) as (? & ? & _). split; [intros; lia|lia].
    + intros _. split; [lia|done].
  - exists w', (nNumUsed ht), ip. split_and!; [done|done|].
    unfold fixed. split_and!; try lia.
    + intros. destruct (Z.eq_dec (nInternalPointer ht) idx) as [Hip|Hip];
        [destruct (Heq Hip) as (? & ? & _)|]; lia.
    + intros Hip. destruct (Heq Hip) as (? & Hd & Hl). split; [done|]. intros; split; [lia|auto].
Qed.
End Fixup.

(** ** Deleting an entry of a hash *)

Section Delete.
Context {E : ZendEnv}.

Lemma cores_ext D D' : bcore <$> D = bcore <$> D' -> cores D = cores D'.
Proof.
  unfold cores. revert D'. induction D as [|b D IH]; intros [|b' D'] Hd; try done.
  cbn in *. injection Hd as Hb Hd. rewrite Hb. by rewrite (IH D').
Qed.

Lemma cores_kill D D' n i b : 0 <= i < n -> n <= zlen D -> zlen D' = zlen D ->
  (forall k, k <> i -> bcore <$> zget D' k = bcore <$> zget D k) ->
  zget D' i = Some b -> live b = false ->
  cores (pre n D') = cores (pre i D) ++ cores (drop (S (Z.to_nat i)) (pre n D)).
Proof.
  intros Hi Hn Hl Hk Hb Hd. rewrite (pre_split D' n i b) by (done || lia).
  rewrite cores_app, cores_cons, bcore_dead by done. cbn.
  assert (forall m : nat, m <> Z.to_nat i -> bcore <$> D' !! m = bcore <$> D !! m) as Hm.
  { intros m Hne. specialize (Hk (Z.of_nat m) ltac:(lia)). unfold zget in Hk.
    by rewrite (proj2 (Z.leb_le _ _)), Nat2Z.id in Hk by lia. }
  f_equal; apply cores_ext, list_eq; intros m; rewrite !list_lookup_fmap; unfold pre.
  - destruct (decide (m < Z.to_nat i)%nat);
      [rewrite !lookup_take_lt by lia; apply Hm; lia|rewrite !lookup_take_ge by lia; done].
  - rewrite !lookup_drop.
    destruct (decide (S (Z.to_nat i) + m < Z.to_nat n)%nat);
      [rewrite !lookup_take_lt by lia; apply Hm; lia|rewrite !lookup_take_ge by lia; done].
Qed.

Lemma side_ok_sub st nf cs1 c cs2 : side_ok st nf (cs1 ++ c :: cs2) -> side_ok st nf (cs1 ++ cs2).
Proof.
  intros (Hn & Hw & Hst & Hr & Hf). rewrite Forall_app, Forall_cons in Hw. split_and!.
  - rewrite fmap_app, fmap_cons in *. destruct (centry c). apply NoDup_middle in Hn. tauto.
  - rewrite Forall_app. tauto.
  - intros Ht. specialize (Hst Ht). rewrite Forall_app, Forall_cons in *. tauto.
  - split; [done|]. intros h v Hin. apply (Hf h v).
    apply elem_of_app in Hin as [|]; apply elem_of_app; [by left|right; by right].
Qed.

(** The events of deleting an entry: its key is released, its value destroyed. *)
Definition del_events (dtor : bool) (v : zval) (key : option Z) : list event :=
  match key with Some k => [EvRelease k] | None => [] end ++ (if dtor then [EvDtor v] else []).

Definition deleted (w : world) (ht : HashTable) (k : hkey) (evs : list event)
    (w' : world) (ht' : HashTable) : Prop :=
  ht_inv ht' /\ ht_elements ht' = odelete k (ht_elements ht)
  /\ w_trace w' = w_trace w ++ evs /\ w_ind w' = w_ind w.

Lemma set_arData_id ht : set_arData (arData ht) ht = ht.
Proof. by destruct ht. Qed.

Lemma zset_id {A} (l : list A) i a : zget l i = Some a -> zset l i a = l.
Proof.
  unfold zget, zset. destruct (0 <=? i); [|done]. apply list_insert_id.
Qed.

Definition release_w (b : Bucket) (w : world) : world :=
  match b_key b with Some k => log (EvRelease k) w | None => w end.

Lemma release_key_ok w ht i b : zget (arData ht) i = Some b ->
  release_key w ht i
  = Ok (release_w b w, set_arData (zset (arData ht) i (with_key None b)) ht).
Proof.
  intros Hb. unfold release_key, release_w. rewrite (rd_ok _ _ _ Hb), bind_ok.
  destruct (b_key b) as [k|] eqn:Hk.
  - rewrite wr_ok by (eapply zget_Some_range; eauto). done.
  - assert (with_key None b = b) as -> by (destruct b; cbn in *; by subst).
    by rewrite zset_id, set_arData_id.
Qed.

(** The table after unlinking [i]: hash part and data. *)
Lemma unlink_ok ht i b prev D : geom ht -> zget D i = Some b ->
  (forall j, prev = Some j -> j <> i /\ is_Some (zget D j)) ->
  match prev with
  | Some j => q ← rd D j;
              D' ← wr D j (with_next (b_next b) q); Ok (set_arData D' (set_arData D ht))
  | None => HT_HASH_set (set_arData D ht) (nIndex_of (set_arData D ht) (b_h b)) (b_next b)
  end = Ok (set_alloc (nTableMask ht) (unlink_H (arHash ht) b prev) (unlink_D D b prev)
              (arPacked ht) ht).
Proof.
  intros Hg Hb Hj. unfold unlink_H, unlink_D. destruct prev as [j|].
  - destruct (Hj j eq_refl) as (_ & q & Hq). rewrite Hq, (rd_ok _ _ _ Hq), bind_ok.
    by rewrite wr_ok by (eapply zget_Some_range; eauto).
  - by rewrite HT_HASH_set_ok.
Qed.

Lemma unlink_D_get D b prev i k : (forall j, prev = Some j -> j <> i /\ 0 <= j) ->
  zlen (unlink_D D b prev) = zlen D /\ zget (unlink_D D b prev) i = zget D i
  /\ bcore <$> zget (unlink_D D b prev) k = bcore <$> zget D k.
Proof.
  intros Hj. unfold unlink_D. destruct prev as [j|]; [|done]. destruct (Hj j eq_refl) as [Hji Hj0].
  destruct (zget D j) as [bj|] eqn:Hb; [|done]. pose proof (zget_Some_range _ _ _ Hb) as Hr.
  rewrite zlen_zset. rewrite zget_zset_ne by lia. split_and!; [done|done|].
  destruct (Z.eq_dec j k) as [->|Hne]; [|by rewrite zget_zset_ne by lia].
  by rewrite zget_zset_eq, Hb by lia.
Qed.

(** What the deletion leaves of the hash: bucket [i] is dead, the others keep
    their contents and chains, [n'] slots remain. *)
Lemma mixed_remove ht cs i b prev D3 n' ip : mixed ht cs -> at_index ht i b ->
  prev_ok (arHash ht) (arData ht) (nNumUsed ht) i b prev ->
  (forall k, k <> i -> zget D3 k = zget (unlink_D (arData ht) b prev) k) ->
  zlen D3 = zlen (arData ht) ->
  (exists b3, zget D3 i = Some b3 /\ live b3 = false) -> 0 <= n' <= nNumUsed ht ->
  (forall k b, n' <= k < nNumUsed ht -> zget D3 k = Some b -> live b = false) ->
  mixed (set_counts n' (nNumOfElements ht - 1) (nTableSize ht) ip (nNextFreeElement ht)
           (set_alloc (nTableMask ht) (unlink_H (arHash ht) b prev) D3 (arPacked ht) ht))
    (cores (pre i (arData ht)) ++ cores (drop (S (Z.to_nat i)) (pre (nNumUsed ht) (arData ht)))).
Proof.
  intros Hm Hat Hprev HD Hlen (b3 & Hb3 & Hl3) Hn Hdead.
  pose proof (mixed_split _ _ _ _ Hm Hat) as Hcs. destruct Hat as (Hi & Hb & Hl).
  destruct (mx_geom _ _ Hm) as [Hs Hmask Hd Hu].
  assert (forall j, prev = Some j -> j <> i /\ 0 <= j) as Hpj.
  { intros j Hj. destruct (prev_in_slot _ _ _ _ _ _ _ Hprev Hj). lia. }
  split; cbn; try done.
  - split; cbn; [done|done|lia|lia].
  - apply Hm.
  - apply Hm.
  - unfold unlink_H. destruct prev; rewrite ?zlen_zset; apply Hm.
  - eapply (chains_trim _ _ (nNumUsed ht)); [lia|done|].
    eapply (chains_remove _ (arData ht) _ i); eauto; [|apply Hm|].
    + rewrite (mx_hash _ _ Hm). apply size_ok_bounds in Hs. lia.
    + intros b2 Hb2. congruence.
  - rewrite (cores_trim _ (nNumUsed ht)) by (done || lia).
    eapply cores_kill; eauto; try lia. intros k Hk. rewrite HD by done.
    by destruct (unlink_D_get (arData ht) b prev i k Hpj) as (_ & _ & ?).
  - rewrite (mx_count _ _ Hm), Hcs. unfold zlen. rewrite !length_app. cbn. lia.
Qed.

Lemma chain_idx_key D L n s i b : zget D i = Some b ->
  chain_idx (zset D i (with_key None b)) L n s = chain_idx D L n s.
Proof.
  intros Hb. apply chain_idx_ext. intros k Hk. unfold in_slot.
  pose proof (zget_Some_range _ _ _ Hb).
  destruct (Z.eq_dec i k) as [->|]; [by rewrite zget_zset_eq, Hb|].
  by rewrite zget_zset_ne by lia.
Qed.

(** Releasing the key and unlinking the bucket: everything _zend_hash_del_el
    does once the previous bucket is known. *)
Definition del_at (w : world) (ht : HashTable) (i : Z) (prev : option Z) : res (world * HashTable) :=
  '(w, ht) ← release_key w ht i; _zend_hash_del_el_ex w ht i prev.

Lemma w_same_trace w w' : w_same w w' -> w_trace w' = w_trace w /\ w_ind w' = w_ind w.
Proof. intros (? & ? & _). done. Qed.

Lemma run_dtor_trace ht v w :
  w_trace (run_dtor ht v w) = w_trace w ++ (if pDestructor ht then [EvDtor v] else []).
Proof. unfold run_dtor. destruct (pDestructor ht); [done|]. by rewrite app_nil_r. Qed.

Lemma fixed_ext packed ht ht' i n ip :
  nNumUsed ht' = nNumUsed ht -> nInternalPointer ht' = nInternalPointer ht ->
  (forall k, slot_undef packed ht' k = slot_undef packed ht k) ->
  fixed packed ht' i n ip -> fixed packed ht i n ip.
Proof.
  unfold fixed, dead_slot. intros -> -> Hs. by setoid_rewrite Hs.
Qed.

Lemma slot_undef_bcore ht D k : bcore <$> zget D k = bcore <$> zget (arData ht) k ->
  slot_undef false (set_arData D ht) k = slot_undef false ht k.
Proof.
  unfold slot_undef, rd, bcore, live. cbn.
  destruct (zget D k) as [b|], (zget (arData ht) k) as [b'|]; cbn; try done.
  by destruct (is_undef (b_val b)), (is_undef (b_val b')).
Qed.

(** Destroying bucket [i] of the unlinked data [D2] whose liveness is that of
    the original buckets. *)
Lemma kill_dead ht i n ip D2 D3 : (forall k, k <> i -> zget D3 k = zget D2 k) ->
  (exists b3, zget D3 i = Some b3 /\ live b3 = false) ->
  (forall k, slot_undef false (set_arData D2 ht) k = slot_undef false ht k) ->
  fixed false ht i n ip ->
  forall k b, n <= k < nNumUsed ht -> zget D3 k = Some b -> live b = false.
Proof.
  intros HD (b3 & Hb3 & Hl3) Hs (_ & Hd & _) k b Hk Hb.
  destruct (Z.eq_dec k i) as [->|Hne]; [congruence|]. destruct (Hd k Hk) as [->|Hdk]; [done|].
  rewrite HD in Hb by done. unfold dead_slot in Hdk. rewrite <- Hs in Hdk.
  unfold slot_undef in Hdk. cbn in Hdk. rewrite (rd_ok _ _ _ Hb) in Hdk. cbn in Hdk.
  unfold live. by simplify_eq; rewrite Hdk.
Qed.

(** Unlinking after the key was cleared: away from [i] the data is that of
    unlinking alone, at [i] the key is gone. *)
Lemma unlink_release D i b prev D1 : zget D i = Some b -> D1 = zset D i (with_key None b) ->
  (forall j, prev = Some j -> j <> i /\ is_Some (zget D j)) ->
  zget D1 i = Some (with_key None b)
  /\ (forall j, prev = Some j -> j <> i /\ is_Some (zget D1 j))
  /\ zlen (unlink_D D1 (with_key None b) prev) = zlen D
  /\ zget (unlink_D D1 (with_key None b) prev) i = Some (with_key None b)
  /\ forall k, k <> i ->
       zget (unlink_D D1 (with_key None b) prev) k = zget (unlink_D D b prev) k.
Proof.
  intros Hb -> Hpj. pose proof (zget_Some_range _ _ _ Hb) as Hr.
  assert (forall j, prev = Some j -> 0 <= j) as Hj0.
  { intros j Hj. destruct (Hpj j Hj) as (_ & ? & ?%zget_Some_range). lia. }
  destruct (unlink_D_get (zset D i (with_key None b)) (with_key None b) prev i i)
    as (Hlen & Hbi & _); [intros j Hj; split; [by apply Hpj|by apply Hj0]|].
  rewrite Hlen, Hbi, zlen_zset, zget_zset_eq by done. split_and!; try done.
  - intros j Hj. destruct (Hpj j Hj). split; [done|]. by rewrite zget_zset_ne by lia.
  - intros k Hk. unfold unlink_D. destruct prev as [j|]; [|by apply zget_zset_ne; [lia|]].
    destruct (Hpj j eq_refl) as (Hji & bj & Hbj). rewrite zget_zset_ne, Hbj by lia. cbn.
    pose proof (zget_Some_range _ _ _ Hbj). destruct (Z.eq_dec j k) as [->|Hne].
    + by rewrite !zget_zset_eq by (rewrite ?zlen_zset; done).
    + by rewrite !zget_zset_ne by lia.
Qed.

Lemma unlink_slots ht i b prev : mixed ht (ht_cores ht) -> at_index ht i b ->
  prev_ok (arHash ht) (arData ht) (nNumUsed ht) i b prev ->
  forall D2, zget D2 i = Some (with_key None b) ->
  (forall k, k <> i -> zget D2 k = zget (unlink_D (arData ht) b prev) k) ->
  forall k, slot_undef false (set_arData D2 ht) k = slot_undef false ht k.
Proof.
  intros Hm (Hi & Hb & Hl) Hprev D2 Hbi HD2 k. destruct (Z.eq_dec k i) as [->|Hne].
  - unfold slot_undef. cbn. by rewrite (rd_ok _ _ _ Hb), (rd_ok _ _ _ Hbi).
  - apply slot_undef_bcore. rewrite HD2 by done.
    destruct (unlink_D_get (arData ht) b prev i k) as (_ & _ & ?); [|done].
    intros j Hj. destruct (prev_in_slot _ _ _ _ _ _ _ Hprev Hj). lia.
Qed.

(** The deletion touches no other slot. *)
Definition others_kept (ht ht' : HashTable) (i : Z) : Prop :=
  (forall k, k <> i -> bcore <$> zget (arData ht') k = bcore <$> zget (arData ht) k)
  /\ (forall b, zget (arData ht') i = Some b -> live b = false)
  /\ f_packed ht' = f_packed ht /\ f_uninit ht' = f_uninit ht /\ pDestructor ht' = pDestructor ht
  /\ exists b, zget (arData ht') i = Some b.

Lemma del_at_ok w ht i b prev : ht_inv ht -> mixed ht (ht_cores ht) -> at_index ht i b ->
  prev_ok (arHash ht) (arData ht) (nNumUsed ht) i b prev ->
  exists w' ht', del_at w ht i prev = Ok (w', ht')
    /\ deleted w ht (bkey b) (del_events (pDestructor ht) (b_val b) (b_key b)) w' ht'
    /\ others_kept ht ht' i
    /\ exists n ip, fixed false ht i n ip
       /\ nNumUsed ht' = n /\ nInternalPointer ht' = ip.
Proof.
  intros Hinv Hm Hat Hprev. pose proof Hat as (Hi & Hb & Hl).
  destruct (mx_geom _ _ Hm) as [Hsz _ Hd Hu].
  destruct (unlink_release (arData ht) i b prev _ Hb eq_refl) as (Hb1 & Hpj & Hlen & Hbi & HD2).
  { intros j Hj. destruct (prev_in_slot _ _ _ _ _ _ _ Hprev Hj) as (? & ? & _).
    split; [done|]. apply zget_is_Some. lia. }
  unfold del_at. rewrite (release_key_ok _ _ _ _ Hb), bind_ok. unfold _zend_hash_del_el_ex.
  cbn [arData set_arData set_alloc]. rewrite (rd_ok _ _ _ Hb1), bind_ok.
  rewrite (unlink_ok ht i (with_key None b)) by (done || by eapply mixed_geom).
  rewrite bind_ok. set (D1 := zset _ i _) in *. set (D2 := unlink_D D1 _ prev) in *.
  set (ht2 := set_alloc _ _ _ _ ht).
  pose proof (unlink_slots ht i b prev Hm Hat Hprev D2 Hbi HD2) as Hslots.
  destruct (del_fixup_ok false (release_w b w) ht2 i) as (w' & n & ip & -> & Hw & Hfix);
    [unfold slots_ok; cbn; lia|done|].
  rewrite bind_ok. cbn [arData set_counts ht2 set_alloc]. rewrite (rd_ok _ _ _ Hbi), bind_ok.
  rewrite wr_ok by (rewrite Hlen; lia). rewrite bind_ok. eexists _, _. split; [done|].
  apply (fixed_ext false ht) in Hfix; [|done|done|done].
  assert (exists b3, zget (zset D2 i (with_val IS_UNDEF (with_key None b))) i = Some b3
    /\ live b3 = false) as Hb3 by (eexists; rewrite zget_zset_eq by lia; done).
  assert (forall k, k <> i -> zget (zset D2 i (with_val IS_UNDEF (with_key None b))) k
    = zget D2 k) as HD3 by (intros k Hk; by apply zget_zset_ne; [lia|]).
  pose proof (mixed_remove ht _ i b prev _ n ip Hm Hat Hprev
    ltac:(intros; rewrite HD3 by done; by apply HD2) ltac:(by rewrite zlen_zset) Hb3
    (proj1 Hfix) (kill_dead ht i n ip D2 _ HD3 Hb3 Hslots Hfix)) as Hm'.
  pose proof (mixed_split _ _ _ _ Hm Hat) as Hcs. pose proof (inv_side _ Hinv) as Hside.
  rewrite Hcs in Hside. apply side_ok_sub in Hside. apply mixed_inv in Hm' as [Hinv' Hels]; [|done].
  assert (forall k, k <> i -> bcore <$> zget (zset D2 i (with_val IS_UNDEF (with_key None b))) k
    = bcore <$> zget (arData ht) k) as Hkept.
  { intros k Hk. rewrite HD3, HD2 by done.
    destruct (unlink_D_get (arData ht) b prev i k) as (_ & _ & ?); [|done].
    intros j Hj. destruct (prev_in_slot _ _ _ _ _ _ _ Hprev Hj). lia. }
  split; [|split; [split_and!; [exact Hkept| |done|done|done|destruct Hb3 as (b3 & Hb3 & _); by exists b3]|exists n, ip; split_and!; done]].
  2:{ destruct Hb3 as (b3 & Hb3 & Hl3). intros b' Hb'. cbn in Hb'. congruence. }
  destruct (w_same_trace _ _ Hw) as [Ht Hind]. split_and!; [done| | |].
  - unfold ht_elements at 2. rewrite Hcs, fmap_app, fmap_cons.
    change (centry (b_val b, b_h b, b_key b)) with (bkey b, b_val b). rewrite odelete_middle.
    + by rewrite <- fmap_app.
    + pose proof (inv_nodup _ Hinv) as Hnd. unfold ht_elements in Hnd. by rewrite Hcs, fmap_app in Hnd.
  - rewrite run_dtor_trace, Ht. unfold release_w, del_events. cbn.
    destruct (b_key b); cbn; [by rewrite <- app_assoc|done].
  - rewrite run_dtor_same, Hind. unfold release_w. by destruct (b_key b).
Qed.

(** ** The deletion operations *)

Lemma mixed_find_prev ht cs m k : mixed ht cs -> Forall core_wf cs -> tests m k ->
  exists idx r, HT_HASH ht (nIndex_of ht (hash_of k)) = Ok idx
    /\ chain_find_prev (chain_fuel ht) (arData ht) m idx None = Ok r
    /\ match r with
       | Some (i, prev) => exists b, at_index ht i b /\ bkey b = k
           /\ prev_ok (arHash ht) (arData ht) (nNumUsed ht) i b prev
       | None => k ∉ okeys (centry <$> cs)
       end.
Proof.
  intros Hm Hwf Ht. destruct (chain_lookup ht cs m k Hm Hwf Ht) as (idx & Hx & l & Hc & Hf & Hl & Hfound).
  exists idx. pose proof (chain_find_prev_spec _ m _ _ _ None Hc Hf) as Hp.
  unfold found in Hfound. destruct (first_match (arData ht) m l) as [i|].
  - destruct Hp as (l1 & l2 & Hll & Hp). destruct Hfound as (b & Hat & Hk).
    exists (Some (i, last l1)). split_and!; [done|rewrite Hp; by destruct (last l1)|].
    exists b. split_and!; [done|done|]. exists l1, l2. split; [|done]. rewrite <- Hll, Hl.
    f_equal. f_equal. rewrite <- Hk. symmetry. unfold bkey. rewrite Forall_forall in Hwf.
    by rewrite <- (core_wf_hash _ (Hwf _ (mixed_elem _ _ _ _ Hm Hat))).
  - by exists None.
Qed.

(** The contract of deletion by key [k]: the entry goes away, its key is
    released and its value destroyed; a missing key changes nothing. *)
Definition del_spec (w : world) (ht : HashTable) (k : hkey)
    (o : world * HashTable * zend_result) : Prop :=
  let '(w', ht', r) := o in
  match olookup k (ht_elements ht) with
  | Some v => r = SUCCESS /\ exists c, c ∈ ht_cores ht /\ centry c = (k, v)
                /\ deleted w ht k (del_events (pDestructor ht) v c.2) w' ht'
  | None => r = FAILURE /\ w' = w /\ ht' = ht
  end.

Lemma del_at_spec w ht i b prev k : ht_inv ht -> mixed ht (ht_cores ht) -> at_index ht i b ->
  prev_ok (arHash ht) (arData ht) (nNumUsed ht) i b prev -> bkey b = k ->
  exists w' ht', del_at w ht i prev = Ok (w', ht') /\ del_spec w ht k (w', ht', SUCCESS).
Proof.
  intros Hinv Hm Hat Hprev <-. destruct (del_at_ok w ht i b prev Hinv Hm Hat Hprev)
    as (w' & ht' & Hdel & Hd & _). exists w', ht'. split; [done|]. unfold del_spec.
  unfold ht_elements at 1. rewrite (mixed_lookup _ _ _ _ Hm Hat (inv_nodup _ Hinv)). split; [done|].
  exists (b_val b, b_h b, b_key b). split_and!; [by eapply mixed_elem|done|done].
Qed.

Lemma del_spec_absent w ht k : k ∉ okeys (ht_elements ht) -> del_spec w ht k (w, ht, FAILURE).
Proof. intros Hk. unfold del_spec. by rewrite (proj2 (olookup_None _ _) Hk). Qed.

(** Deletion by a test that accepts the string [s], in every layout. *)
Lemma str_del_spec w ht m s : ht_inv ht -> tests m (KStr s) ->
  exists o, (idx ← HT_HASH ht (nIndex_of ht (hash_of (KStr s)));
    r ← chain_find_prev (chain_fuel ht) (arData ht) m idx None;
    match r with
    | Some (idx, prev) =>
        '(w, ht) ← release_key w ht idx;
        '(w, ht) ← _zend_hash_del_el_ex w ht idx prev;
        Ok (w, ht, SUCCESS)
    | None => Ok (w, ht, FAILURE)
    end) = Ok o /\ del_spec w ht (KStr s) o.
Proof.
  intros Hinv Ht. destruct (inv_layout _ Hinv) as [Hun Hp Hm Ha Hu|Hun Hp Hm Ha Hl Hnf|Hm].
  - rewrite min_mask_hash, !bind_ok by done. eexists. split; [done|]. apply del_spec_absent.
    unfold ht_elements. rewrite uninit_elements by done. apply not_elem_of_nil.
  - rewrite min_mask_hash, !bind_ok by done. eexists. split; [done|]. apply del_spec_absent.
    by apply packed_no_str.
  - destruct (mixed_find_prev ht _ m _ Hm (inv_wf _ Hinv) Ht) as (idx & r & -> & H2 & H3).
    rewrite bind_ok, H2, bind_ok. destruct r as [[i prev]|].
    + destruct H3 as (b & Hat & Hk & Hprev).
      destruct (del_at_spec w ht i b prev _ Hinv Hm Hat Hprev Hk) as (w' & ht' & Hdel & Hsp).
      unfold del_at in Hdel. destruct (release_key w ht i) as [[w1 ht1]| |]; try done.
      rewrite bind_ok in Hdel. rewrite bind_ok, Hdel, bind_ok. eauto.
    + eexists. split; [done|]. by apply del_spec_absent.
Qed.

Lemma zend_hash_del_ok w ht key : ht_inv ht ->
  exists o, zend_hash_del w ht key = Ok o /\ del_spec w ht (KStr (ZSTR_VAL key)) o.
Proof. intros Hinv. apply (str_del_spec w ht _ _ Hinv (tests_key key)). Qed.

Lemma zend_hash_str_del_ok w ht str : ht_inv ht ->
  exists o, zend_hash_str_del w ht str = Ok o /\ del_spec w ht (KStr str) o.
Proof. intros Hinv. apply (str_del_spec w ht _ _ Hinv (tests_str str)). Qed.

(** Deletion from a packed array. *)
Lemma pcores_kill P n i v : i < n -> zget P i = Some v ->
  pcores (pre n (zset P i IS_UNDEF)) = pcores (pre i P)
     ++ pcores_from (S (Z.to_nat i)) (drop (S (Z.to_nat i)) (pre n P)).
Proof.
  intros Hi Hv. pose proof (zget_Some_range _ _ _ Hv) as Hr.
  rewrite pre_zset_split by lia. rewrite pcores_from_0, pcores_from_app, pcores_from_cons. cbn.
  rewrite <- pcores_from_0. do 2 f_equal. unfold pre. rewrite length_take.
  assert (Z.to_nat i < length P)%nat by (unfold zlen in Hr; lia). lia.
Qed.

Lemma pcores_trim P n n' : 0 <= n' <= n -> n <= zlen P ->
  (forall k v, n' <= k < n -> zget P k = Some v -> v = IS_UNDEF) ->
  pcores (pre n' P) = pcores (pre n P).
Proof.
  intros Hn Hl Hdead. assert (pre n P = pre n' P ++ drop (Z.to_nat n') (pre n P)) as ->.
  { unfold pre. rewrite <- (take_drop (Z.to_nat n') (take (Z.to_nat n) P)) at 1.
    rewrite take_take. by replace (Z.to_nat n' `min` Z.to_nat n)%nat with (Z.to_nat n') by lia. }
  rewrite (pcores_from_0 (_ ++ _)), pcores_from_app.
  rewrite (pcores_from_undef _ (drop _ _)), app_nil_r; [done|].
  intros v (k & Hk)%list_elem_of_lookup. rewrite lookup_drop in Hk.
  pose proof (lookup_lt_Some _ _ _ Hk) as Hlt. unfold pre in Hk, Hlt. rewrite length_take in Hlt.
  rewrite lookup_take_lt in Hk by lia. apply (Hdead (Z.of_nat (Z.to_nat n' + k))); [lia|].
  unfold zget. by rewrite (proj2 (Z.leb_le _ _)), Nat2Z.id by lia.
Qed.

Lemma packed_del_ok w ht i v : ht_inv ht -> f_packed ht = true -> f_uninit ht = false ->
  nTableMask ht = HT_MIN_MASK -> arHash ht = [HT_INVALID_IDX; HT_INVALID_IDX] ->
  zlen (arPacked ht) = nTableSize ht -> packed_end ht ->
  0 <= i < nNumUsed ht -> zget (arPacked ht) i = Some v -> v <> IS_UNDEF ->
  exists w' ht', _zend_hash_packed_del_val w ht i = Ok (w', ht')
    /\ deleted w ht (KInt i) (del_events (pDestructor ht) v None) w' ht'
    /\ arPacked ht' = zset (arPacked ht) i IS_UNDEF /\ f_packed ht' = true
    /\ f_uninit ht' = f_uninit ht /\ pDestructor ht' = pDestructor ht
    /\ exists n ip, fixed true ht i n ip /\ nNumUsed ht' = n.
Proof.
  intros Hinv Hp Hun Hmask Ha Hlen Hnf Hi Hv Hne. pose proof (inv_used _ Hinv) as Hu.
  destruct (del_fixup_ok true w ht i) as (w' & n & ip & Hdel & Hw & Hfix);
    [unfold slots_ok; lia|done|]. pose proof Hfix as (Hn & Hd & _ & _ & _ & Hl1 & Hl2).
  unfold _zend_hash_packed_del_val. rewrite Hdel, bind_ok. cbn [arPacked set_counts].
  rewrite (rd_ok _ _ _ Hv), bind_ok, wr_ok by (eapply zget_Some_range; eauto).
  rewrite bind_ok. eexists _, _. split; [done|]. destruct (w_same_trace _ _ Hw) as [Ht Hind].
  assert (pcores (pre n (zset (arPacked ht) i IS_UNDEF))
    = pcores (pre (nNumUsed ht) (zset (arPacked ht) i IS_UNDEF))) as Htrim.
  { apply pcores_trim; [lia|rewrite zlen_zset; lia|]. intros k x Hk Hx.
    destruct (Z.eq_dec i k) as [->|Hik]; [rewrite zget_zset_eq in Hx by lia; congruence|].
    rewrite zget_zset_ne in Hx by lia. destruct (Hd k Hk) as [->|Hdk]; [done|].
    unfold dead_slot, slot_undef in Hdk. rewrite (rd_ok _ _ _ Hx) in Hdk. cbn in Hdk. by destruct x. }
  rewrite (pcores_kill _ _ _ _ (proj2 Hi) Hv) in Htrim.
  pose proof (pcores_split _ _ _ _ (proj2 Hi) Hv Hne) as Hcs.
  assert (ht_cores ht = pcores (pre (nNumUsed ht) (arPacked ht))) as Hht
    by (unfold ht_cores; by rewrite Hp).
  pose proof (inv_count _ Hinv) as Hc. rewrite Hht, Hcs in Hc.
  split; [|split_and!; try done; by exists n, ip]. split_and!.
  - apply packed_inv; cbn; try done; try lia; [apply Hinv|by rewrite zlen_zset| |apply Hinv|].
    { destruct Hnf as [Hle Hlast]. split; cbn; [lia|].
      destruct (Z.eq_dec i (nNumUsed ht - 1)) as [He|Hne1].
      - destruct (Hl2 He) as [Hlt [->|Hu1]]; [by left|right]. cbn.
        unfold slot_undef in Hu1. rewrite zget_zset_ne by lia. unfold rd in Hu1.
        destruct (zget (arPacked ht) (n - 1)) as [x|]; [|done]. cbn in Hu1.
        exists x. split; [done|]. by intros ->.
      - rewrite (Hl1 Hne1). destruct Hlast as [|(x & Hx & Hxu)]; [by left|right]. cbn.
        exists x. by rewrite zget_zset_ne by lia. }
    rewrite Htrim, Hc. unfold zlen. rewrite !length_app. cbn. lia.
  - unfold ht_elements. rewrite Hht, Hcs, fmap_app, fmap_cons. unfold ht_cores. cbn. rewrite Hp.
    change (take (Z.to_nat n)) with (@pre zval n).
    rewrite Htrim, fmap_app. symmetry. apply odelete_middle.
    pose proof (inv_nodup _ Hinv) as Hnd. unfold ht_elements in Hnd.
    by rewrite Hht, Hcs, fmap_app, fmap_cons in Hnd.
  - by rewrite run_dtor_trace, Ht.
  - by rewrite run_dtor_same, Hind.
Qed.

Lemma zend_hash_index_del_ok w ht h : ht_inv ht -> 0 <= h ->
  exists o, zend_hash_index_del w ht h = Ok o /\ del_spec w ht (KInt h) o.
Proof.
  intros Hinv Hh. unfold zend_hash_index_del. pose proof (inv_used _ Hinv) as Hu0.
  destruct (inv_layout _ Hinv) as [Hun Hp Hm Ha Hu|Hun Hp Hm Ha Hl Hnf|Hm].
  - rewrite Hp, min_mask_hash, !bind_ok by done. eexists. split; [done|]. apply del_spec_absent.
    unfold ht_elements. rewrite uninit_elements by done. apply not_elem_of_nil.
  - rewrite Hp. assert (ht_elements ht = centry <$> pcores (pre (nNumUsed ht) (arPacked ht))) as He
      by (unfold ht_elements, ht_cores; by rewrite Hp).
    destruct (Z.ltb_spec h (nNumUsed ht)) as [Hlt|Hge]; [|eexists; split; [done|]].
    2:{ apply del_spec_absent. rewrite He. apply pcores_absent; [lia|by left]. }
    destruct (zget_is_Some (arPacked ht) h) as [v Hv]; [lia|]. rewrite (rd_ok _ _ _ Hv), bind_ok.
    destruct (decide (v = IS_UNDEF)) as [->|Hne].
    + eexists. split; [done|]. apply del_spec_absent. rewrite He. apply pcores_absent; [lia|by right].
    + destruct (packed_del_ok w ht h v) as (w' & ht' & Hdel & Hd & _); try done.
      replace (negb (is_undef v)) with true by (by destruct v). rewrite Hdel, bind_ok.
      eexists. split; [done|]. unfold del_spec. rewrite He, (pcores_lookup _ _ _ v) by done.
      split; [done|]. exists (v, h, None). split_and!; [|done|done].
      unfold ht_cores. rewrite Hp. change (take (Z.to_nat (nNumUsed ht))) with (@pre zval (nNumUsed ht)).
      rewrite (pcores_split _ _ _ _ Hlt Hv Hne). apply elem_of_app. right. by left.
  - rewrite (mx_packed _ _ Hm).
    destruct (mixed_find_prev ht _ _ _ Hm (inv_wf _ Hinv) (tests_index h)) as (idx & r & Hx & H2 & H3).
    cbn [hash_of] in Hx. rewrite Hx, bind_ok, H2, bind_ok. destruct r as [[i prev]|].
    + destruct H3 as (b & Hat & Hk & Hprev). pose proof Hat as (_ & Hb & _).
      destruct (del_at_spec w ht i b prev _ Hinv Hm Hat Hprev Hk) as (w' & ht' & Hdel & Hsp).
      assert (b_key b = None) as Hkey by (unfold bkey, ckey in Hk; cbn in Hk; by destruct (b_key b)).
      unfold del_at, release_key in Hdel. rewrite (rd_ok _ _ _ Hb), bind_ok, Hkey, bind_ok in Hdel.
      rewrite Hdel, bind_ok. eauto.
    + eexists. split; [done|]. by apply del_spec_absent.
Qed.

(** ** Deletion of a known bucket *)

Lemma find_prev_spec D x l1 i l2 fuel j : NoDup (l1 ++ i :: l2) -> chain D x (l1 ++ i :: l2) ->
  last l1 = Some j -> (length l1 < fuel)%nat -> find_prev fuel D x i = Ok j.
Proof.
  revert x fuel. induction l1 as [|a l1 IH]; intros x fuel Hnd Hc Hj Hf; [done|].
  destruct fuel as [|fuel]; [cbn in Hf; lia|]. cbn in Hnd, Hf. apply NoDup_cons in Hnd as [Ha Hnd].
  inversion Hc as [|? ba ? Hne Hba Hc' E1 E2]; subst. cbn [find_prev].
  rewrite (rd_ok _ _ _ Hba), bind_ok. destruct l1 as [|a' l1].
  - cbn in *. inversion Hc'; subst. by rewrite Z.eqb_refl; simplify_eq.
  - inversion Hc'; subst. rewrite (proj2 (Z.eqb_neq _ _)).
    + apply (IH (b_next ba)); [done|done|by rewrite last_cons_cons in Hj|cbn in *; lia].
    + intros <-. cbn in Hnd. apply NoDup_cons in Hnd as [Hn _]. apply Hn, elem_of_app. right. by left.
Qed.

Lemma zend_hash_del_bucket_ok w ht i b : ht_inv ht -> f_packed ht = false -> f_uninit ht = false ->
  at_index ht i b ->
  exists w' ht', zend_hash_del_bucket w ht i = Ok (w', ht')
    /\ deleted w ht (bkey b) (del_events (pDestructor ht) (b_val b) (b_key b)) w' ht'
    /\ others_kept ht ht' i
    /\ exists n ip, fixed false ht i n ip
       /\ nNumUsed ht' = n /\ nInternalPointer ht' = ip.
Proof.
  intros Hinv Hp Hun Hat. destruct (inv_layout _ Hinv) as [Hun' _ _ _ _|_ Hp' _ _ _ _|Hm]; [congruence..|].
  pose proof Hat as (Hi & Hb & Hl). pose proof (mixed_geom _ _ Hm) as Hg.
  destruct (mx_chains _ _ Hm (b_h b mod zlen (arHash ht))) as (x & Hx & Hch); [by apply slot_range|].
  assert (i ∈ chain_idx (arData ht) (zlen (arHash ht)) (nNumUsed ht) (b_h b mod zlen (arHash ht))) as Hin.
  { apply elem_of_chain_idx. split; [lia|]. unfold in_slot. by rewrite Hb, Hl, Z.eqb_refl. }
  apply list_elem_of_split in Hin as (l1 & l2 & Hl12).
  pose proof (NoDup_chain_idx (arData ht) (zlen (arHash ht)) (nNumUsed ht)
    (b_h b mod zlen (arHash ht))) as Hnd.
  pose proof (length_chain_idx (arData ht) (zlen (arHash ht)) (nNumUsed ht)
    (b_h b mod zlen (arHash ht))) as Hlen.
  assert (prev_ok (arHash ht) (arData ht) (nNumUsed ht) i b (last l1)) as Hprev by (by exists l1, l2).
  destruct (del_at_ok w ht i b _ Hinv Hm Hat Hprev) as (w' & ht' & Hdel & Hd & Hf).
  exists w', ht'. split; [|done]. rewrite Hl12 in Hch, Hnd, Hlen.
  unfold zend_hash_del_bucket, _zend_hash_del_el. rewrite (rd_ok _ _ _ Hb), bind_ok.
  rewrite (HT_HASH_ok _ _ _ Hg Hx), bind_ok. unfold del_at in Hdel.
  destruct (chain_mid _ _ _ _ _ Hch) as (_ & _ & _ & Hnil & _).
  destruct (last l1) as [j|] eqn:Hlast.
  - assert (x <> i) as Hne.
    { intros ->. destruct l1 as [|a l1]; [done|]. inversion Hch; subst. cbn in Hnd.
      apply NoDup_cons in Hnd as [Hn _]. apply Hn, elem_of_app. right. by left. }
    rewrite (proj2 (Z.eqb_neq _ _)) by done.
    rewrite (find_prev_spec _ _ _ _ _ _ _ Hnd Hch Hlast), !bind_ok; [done|].
    rewrite length_app in Hlen. destruct (mx_geom _ _ Hm) as [_ _ Hda Hus].
    unfold chain_fuel, zlen in *. cbn in Hlen. lia.
  - apply last_None in Hlast. by rewrite (Hnil Hlast), Z.eqb_refl, bind_ok.
Qed.
End Delete.
