(* ===== verification/HashInit.v ===== *)
(** * Table sizes, the empty table, and concrete tables

    The size rounding of zend_hash_check_size and the tables that the
    initialisation functions build. A concrete environment, where string pointers
    are encodings of their contents, and concrete tables for the witnesses. *)

From S2P Require Import Prelude.
From S2P Require Import ZendString.
From S2P Require Import OrderedMap.
From S2P Require Import HashTypes.
From S2P Require Import HashOps.
From S2P Require Import HashChain.
From S2P Require Import HashRehash.
From S2P Require Import HashInv.
From S2P Require Import HashLayout.
From S2P Require Import HashInsert.
From S2P Require Import HashIndex.

(** ** Rounding up to a power of two *)

(** [smear n k x]: bit [i] of [x] is the disjunction of the bits [i .. i+k-1]
    of [n]. *)
Definition smears (n k x : Z) : Prop :=
  forall i, 0 <= i -> Z.testbit x i = true <-> exists j, 0 <= j < k /\ Z.testbit n (i + j) = true.

Lemma smears_1 n : smears n 1 n.
Proof.
  intros i Hi. split.
  - intros H. exists 0. split; [lia|]. by rewrite Z.add_0_r.
  - intros (j & Hj & H). by replace (i + j) with i in H by lia.
Qed.

Lemma smears_step n k x : 0 <= k -> smears n k x ->
  smears n (k + k) (Z.lor x (Z.shiftr x k)).
Proof.
  intros Hk Hs i Hi. rewrite Z.lor_spec, Z.shiftr_spec by lia. rewrite orb_true_iff.
  rewrite (Hs i Hi), (Hs (i + k) ltac:(lia)). split.
  - intros [(j & Hj & H)|(j & Hj & H)]; [exists j|exists (k + j)]; (split; [lia|]); [done|].
    by rewrite Z.add_assoc.
  - intros (j & Hj & H). destruct (Z.lt_ge_cases j k).
    + left. exists j. by split; [lia|].
    + right. exists (j - k). split; [lia|]. by replace (i + k + (j - k)) with (i + j) by lia.
Qed.

Lemma smears_full n x : 0 < n < 2 ^ 32 -> smears n 32 x -> 0 <= x -> x + 1 = 2 ^ (Z.log2 n + 1).
Proof.
  intros Hn Hs Hx. pose proof (Z.log2_nonneg n) as Hl.
  assert (Z.log2 n < 32) as Hl32 by (apply Z.log2_lt_pow2; lia).
  enough (x = Z.ones (Z.log2 n + 1)) as -> by (rewrite Z.ones_equiv; lia).
  apply Z.bits_inj'. intros i Hi. rewrite Z.testbit_ones_nonneg by lia.
  destruct (Z.ltb_spec i (Z.log2 n + 1)).
  - apply (Hs i Hi). exists (Z.log2 n - i). split; [lia|].
    replace (i + (Z.log2 n - i)) with (Z.log2 n) by lia. apply Z.bit_log2. lia.
  - apply not_true_is_false. rewrite (Hs i Hi). intros (j & Hj & Hb).
    by rewrite Z.bits_above_log2 in Hb by lia.
Qed.

Lemma lor_shiftr_nonneg x k : 0 <= x -> 0 <= Z.lor x (Z.shiftr x k).
Proof. intros. apply Z.lor_nonneg. split; [done|]. by apply Z.shiftr_nonneg. Qed.

Lemma check_size_ok n :
  runs (zend_hash_check_size n)
    (fun s => size_ok s /\ n <= s /\ (HT_MIN_SIZE < n -> s < 2 * n)
              /\ (n <= HT_MIN_SIZE -> s = HT_MIN_SIZE))
    (HT_MAX_SIZE <= n).
Proof.
  unfold zend_hash_check_size, runs. destruct (Z.leb_spec n HT_MIN_SIZE).
  { unfold HT_MIN_SIZE in *. split_and!; [exists 3; lia|lia|lia|done]. }
  destruct (Z.leb_spec HT_MAX_SIZE n); [done|]. unfold HT_MIN_SIZE, HT_MAX_SIZE in *. cbv zeta.
  match goal with |- size_ok (?x + 1) /\ _ =>
    assert (smears (n - 1) 32 x /\ 0 <= x) as [Hs Hx] end.
  { split; [|by repeat apply lor_shiftr_nonneg; lia].
    apply (smears_step _ 16); [lia|]. apply (smears_step _ 8); [lia|].
    apply (smears_step _ 4); [lia|]. apply (smears_step _ 2); [lia|].
    apply (smears_step _ 1); [lia|]. apply smears_1. }
  rewrite (smears_full (n - 1) _ ltac:(lia) Hs Hx).
  pose proof (Z.log2_spec (n - 1) ltac:(lia)) as [H1 H2].
  rewrite <- Z.add_1_r in H2.
  assert (2 ^ (Z.log2 (n - 1) + 1) = 2 * 2 ^ Z.log2 (n - 1)) as Hd
    by (rewrite Z.pow_add_r by (lia || apply Z.log2_nonneg); lia).
  assert (3 <= Z.log2 (n - 1)) by (apply Z.log2_le_pow2; lia).
  assert (Z.log2 (n - 1) < 30) by (apply Z.log2_lt_pow2; lia).
  split_and!; try lia. exists (Z.log2 (n - 1) + 1). lia.
Qed.

(** ** The empty table *)

Section Empty.
Context {E : ZendEnv}.

Lemma init_inv addr n dtor : runs (_zend_hash_init_int addr n dtor)
  (fun ht => ht_inv ht /\ ht_elements ht = [] /\ n <= nTableSize ht /\ pDestructor ht = dtor)
  (HT_MAX_SIZE <= n).
Proof.
  unfold _zend_hash_init_int. eapply runs_bind; [apply check_size_ok|].
  intros s (Hs & Hle & _). cbn. pose proof (size_ok_bounds _ Hs) as Hb. split_and!; try done.
  split; cbn; try done; try lia.
  - apply NoDup_nil_2.
  - split; [unfold ZEND_LONG_MIN, ZEND_LONG_MAX; lia|]. intros h v []%not_elem_of_nil.
  - by apply LUninit.
Qed.
End Empty.

(** ** A concrete environment and concrete tables *)

Program Definition demo_env : ZendEnv := {|
  ZSTR_VAL p := default [] (decode (Z.to_pos (Z.abs p)));
  ZSTR_IS_INTERNED p := p <? 0;
  zend_string_init s := Z.pos (encode s);
  garbage := mkBucket (ZVal 255 255) 0 77 None;
  garbage_zv := ZVal 255 255 |}.
Next Obligation. intros s. change (default [] (decode (encode s)) = s). by rewrite decode_encode. Qed.
Next Obligation. intros s. reflexivity. Qed.
#[export] Existing Instance demo_env.

Definition w0 : world := mkWorld ∅ [] 0 [].

(** The strings "a" and "b". *)
Definition str_a : Z := zend_string_init [97].
Definition str_b : Z := zend_string_init [98].

Definition get_ht {A} (m : res (world * HashTable * A)) (d : HashTable) : HashTable :=
  match m with Ok (_, ht, _) => ht | _ => d end.

Definition empty_ht : HashTable :=
  mkHT 1000 false false true false false 0 HT_MIN_MASK
    [HT_INVALID_IDX; HT_INVALID_IDX] [] [] 0 0 8 0 ZEND_LONG_MIN true.

(** ["a" => 1, 5 => 2]: a hash. *)
Definition demo_ht1 : HashTable :=
  Eval vm_compute in get_ht (zend_hash_update w0 empty_ht str_a (ZVal 4 1)) empty_ht.
Definition demo_ht : HashTable :=
  Eval vm_compute in get_ht (zend_hash_index_update w0 demo_ht1 5 (ZVal 4 2)) empty_ht.

(** [0 => 7]: a packed array. *)
Definition demo_packed : HashTable :=
  Eval vm_compute in get_ht (zend_hash_next_index_insert w0 empty_ht (ZVal 4 7)) empty_ht.

Lemma empty_ht_inv : ht_inv empty_ht.
Proof. apply (init_inv 1000 8 true). Qed.

(** Reading the invariant off a computed run. *)
Lemma inserted_inv {w els k v} {m : res (world * HashTable * option zptr)} {F : Prop} o ht :
  runs m (inserted w els k v) F -> m = Ok o -> o.1.2 = ht -> ht_inv ht.
Proof. intros Hr -> <-. destruct o as [[w' ht'] r]. apply Hr. Qed.

Lemma demo_ht1_inv : ht_inv demo_ht1.
Proof.
  eapply inserted_inv; [apply (add_or_update_fresh w0 empty_ht str_a (ZVal 4 1) HASH_UPDATE)| |].
  - apply empty_ht_inv.
  - done.
  - apply not_elem_of_nil.
  - vm_compute. reflexivity.
  - reflexivity.
Qed.

Lemma demo_ht_inv : ht_inv demo_ht.
Proof.
  eapply inserted_inv; [apply (index_fresh w0 demo_ht1 5 (ZVal 4 2) HASH_UPDATE)| |].
  - apply demo_ht1_inv.
  - lia.
  - done.
  - done.
  - vm_compute. by intros ?%list_elem_of_singleton.
  - done.
  - vm_compute. reflexivity.
  - reflexivity.
Qed.

Lemma demo_ht_at_0 : at_index demo_ht 0
  (mkBucket (ZVal 4 1) HT_INVALID_IDX (ZSTR_H str_a) (Some str_a)).
Proof. unfold at_index. split_and!; [reflexivity|reflexivity|vm_compute; reflexivity|reflexivity]. Qed.

Lemma demo_packed_inv : ht_inv demo_packed.
Proof.
  eapply inserted_inv; [apply (index_fresh w0 empty_ht (u64 ZEND_LONG_MIN) (ZVal 4 7)
                                 (Z.lor HASH_ADD HASH_ADD_NEXT))| |].
  - apply empty_ht_inv.
  - split; [done|reflexivity].
  - done.
  - done.
  - apply not_elem_of_nil.
  - done.
  - vm_compute. reflexivity.
  - reflexivity.
Qed.
