(* ===== verification/HashTheorems.v ===== *)
(** * The hash table implements an ordered map

    The contracts of the lookup, insertion and deletion operations, of
    rehashing and of initialisation, each with an instance on a concrete table. *)

From S2P Require Import Prelude.
From S2P Require Import ZendString.
From S2P Require Import OrderedMap.
From S2P Require Import HashTypes.
From S2P Require Import HashOps.
From S2P Require Import HashChain.
From S2P Require Import HashRehash.
From S2P Require Import HashInv.
From S2P Require Import HashLayout.
From S2P Require Import HashInsert.
From S2P Require Import HashIndex.
From S2P Require Import HashDelete.
From S2P Require Import HashInit.

Section Theorems.
Context {E : ZendEnv}.

(** ** Lookup *)

(** C3: zend_hash_find and zend_hash_str_find return a pointer to the value the
    ordered map has under the string, or NULL when there is none, in every
    layout; the walk along the collision chain ends. *)
Theorem zend_hash_find_correct w ht key : ht_inv ht ->
  (exists r, zend_hash_find ht key = Ok r
    /\ finds w ht r (olookup (KStr (ZSTR_VAL key)) (ht_elements ht)))
  /\ (exists r, zend_hash_str_find ht (ZSTR_VAL key) = Ok r
    /\ finds w ht r (olookup (KStr (ZSTR_VAL key)) (ht_elements ht))).
Proof. intros Hinv. split; [by apply zend_hash_find_ok|by apply zend_hash_str_find_ok]. Qed.

(** zend_hash_index_find returns a pointer to the value the ordered map has
    under the integer key, in the packed and in the hash layout. *)
Theorem zend_hash_index_find_correct w ht h : ht_inv ht -> 0 <= h ->
  exists r, zend_hash_index_find ht h = Ok r
    /\ finds w ht r (olookup (KInt h) (ht_elements ht)).
Proof. apply zend_hash_index_find_ok. Qed.

(** ** Insertion *)

(** C1: zend_hash_update is the insertion of the ordered map: a new key goes to the
    end, an old one keeps its place and its value is destroyed; the invariant is
    preserved, and the only error is the size limit. *)
Theorem zend_hash_update_correct w ht key v : ht_inv ht -> v <> IS_UNDEF ->
  runs (zend_hash_update w ht key v) (updated w ht (KStr (ZSTR_VAL key)) v) (at_capacity ht).
Proof. apply update_ok. Qed.

(** zend_hash_str_update behaves like zend_hash_update on the bytes given. *)
Theorem zend_hash_str_update_correct w ht str v : ht_inv ht -> v <> IS_UNDEF ->
  runs (zend_hash_str_update w ht str v) (updated w ht (KStr str) v) (at_capacity ht).
Proof.
  intros Hinv Hv. destruct (key_cases (KStr str) (ht_elements ht)) as [Hin|Hno].
  - destruct (str_add_or_update_found w ht str v HASH_UPDATE Hinv Hin eq_refl)
      as (i & b & Hm & Hi & Hk & He). unfold zend_hash_str_update. rewrite He, <- Hk.
    by apply update_found_updated.
  - pose proof (str_add_or_update_fresh w ht str v HASH_UPDATE Hinv Hv Hno) as Hf.
    unfold zend_hash_str_update. eapply runs_weaken; [exact Hf| |done].
    intros o. by apply updated_fresh.
Qed.

(** zend_hash_add and zend_hash_str_add insert a new key at the end and refuse
    an existing one without any effect. *)
Theorem zend_hash_add_correct w ht key v : ht_inv ht -> v <> IS_UNDEF ->
  runs (zend_hash_add w ht key v) (added w ht (KStr (ZSTR_VAL key)) v) (at_capacity ht)
  /\ runs (zend_hash_str_add w ht (ZSTR_VAL key) v) (added w ht (KStr (ZSTR_VAL key)) v)
       (at_capacity ht).
Proof.
  intros Hinv Hv. unfold added. destruct (decide _) as [Hin|Hno]; split.
  - destruct (add_or_update_found w ht key v HASH_ADD Hinv Hin eq_refl)
      as (i & b & Hm & Hi & Hk & He). unfold zend_hash_add. by rewrite He, (update_found_add _ _ _ b).
  - destruct (str_add_or_update_found w ht _ v HASH_ADD Hinv Hin eq_refl)
      as (i & b & Hm & Hi & Hk & He). unfold zend_hash_str_add.
    by rewrite He, (update_found_add _ _ _ b).
  - by apply (add_or_update_fresh w ht key v HASH_ADD).
  - pose proof (str_add_or_update_fresh w ht _ v HASH_ADD Hinv Hv Hno) as Hf.
    unfold zend_hash_str_add. exact Hf.
Qed.

(** zend_hash_lookup returns a pointer to the value of an existing key and
    appends the key with null otherwise. *)
Theorem zend_hash_lookup_correct w ht key : ht_inv ht ->
  runs (zend_hash_lookup w ht key)
    (fun o => match olookup (KStr (ZSTR_VAL key)) (ht_elements ht) with
              | Some v => exists p, o = (w, ht, Some p) /\ zptr_get w ht p = Ok v
              | None => inserted w (ht_elements ht ++ [(KStr (ZSTR_VAL key), IS_NULL)])
                          (KStr (ZSTR_VAL key)) IS_NULL o
              end) (at_capacity ht).
Proof.
  intros Hinv. destruct (key_cases (KStr (ZSTR_VAL key)) (ht_elements ht)) as [Hin|Hno].
  - destruct (add_or_update_found w ht key IS_NULL HASH_LOOKUP Hinv Hin eq_refl)
      as (i & b & Hm & Hi & Hk & He). unfold zend_hash_lookup. rewrite He, <- Hk.
    unfold ht_elements. rewrite (mixed_lookup _ _ _ _ Hm Hi (inv_nodup _ Hinv)). cbn.
    exists (PData i). split; [done|]. destruct Hi as (_ & Hb & _). cbn. by rewrite (rd_ok _ _ _ Hb).
  - rewrite (proj2 (olookup_None _ _) Hno).
    by apply (add_or_update_fresh w ht key IS_NULL HASH_LOOKUP).
Qed.

(** C2: zend_hash_index_update is the insertion of the ordered map under an integer
    key, in a packed array that holds fewer than HT_MAX_SIZE slots, a hash, or a table
    without memory. The table moves from the packed to the hash layout exactly when a
    new key does not fit: it lies in a hole of the array, or beyond its capacity and
    beyond what doubling an array that is more than half full would make room for. The
    only error is the fatal one of a table of the maximal size. *)
Theorem zend_hash_index_update_correct w ht h v : ht_inv ht -> 0 <= h < 2 ^ 64 ->
  v <> IS_UNDEF -> (f_packed ht = true -> nNumUsed ht < HT_MAX_SIZE) ->
  runs (zend_hash_index_update w ht h v)
    (fun o => updated w ht (KInt h) v o /\ f_packed o.1.2 = packed_after ht h)
    (nTableSize ht = HT_MAX_SIZE).
Proof.
  intros Hinv Hh Hv Hmax. pose proof (index_update_packed w ht h v Hinv (proj1 Hh)) as Hp.
  pose proof (index_update_ok w ht h v Hinv Hh Hv Hmax) as Hr.
  destruct (zend_hash_index_update w ht h v) as [o| |]; [|done..]. by split; [|apply Hp].
Qed.

(** zend_hash_index_add refuses an existing key and appends a new one. *)
Theorem zend_hash_index_add_correct w ht h v : ht_inv ht -> 0 <= h < 2 ^ 64 ->
  v <> IS_UNDEF -> (f_packed ht = true -> nNumUsed ht < HT_MAX_SIZE) ->
  runs (zend_hash_index_add w ht h v) (added w ht (KInt h) v)
    (nTableSize ht = HT_MAX_SIZE).
Proof. apply index_add_ok. Qed.

(** The key zend_hash_next_index_insert uses: nNextFreeElement, which starts
    below every integer and then means 0. *)
Definition next_index (ht : HashTable) : Z :=
  if nNextFreeElement ht =? ZEND_LONG_MIN then 0 else u64 (nNextFreeElement ht).

Lemma i64_u64 x : ZEND_LONG_MIN <= x <= ZEND_LONG_MAX -> i64 (u64 x) = x.
Proof.
  unfold i64, sint, u64, ZEND_LONG_MIN, ZEND_LONG_MAX. intros H. rewrite Z.mod_mod by lia.
  change (2 ^ (64 - 1)) with (2 ^ 63). pose proof (Z.mod_pos_bound x (2 ^ 64)).
  destruct (Z.lt_ge_cases x 0).
  - rewrite <- (Z.mod_add x 1), Z.mod_small by lia. zcase; lia.
  - rewrite Z.mod_small by lia. zcase; lia.
Qed.

Lemma next_index_key ht : ZEND_LONG_MIN <= nNextFreeElement ht <= ZEND_LONG_MAX ->
  index_key (Z.lor HASH_ADD HASH_ADD_NEXT) (u64 (nNextFreeElement ht)) = next_index ht.
Proof.
  intros Hr. unfold index_key, next_index. change (has_flag _ _) with true. cbn [andb].
  destruct (Z.eqb_spec (nNextFreeElement ht) ZEND_LONG_MIN) as [->|Hne].
  - by rewrite Z.eqb_refl.
  - destruct (Z.eqb_spec (u64 (nNextFreeElement ht)) (u64 ZEND_LONG_MIN)) as [He|]; [|done].
    exfalso. apply Hne. rewrite <- (i64_u64 (nNextFreeElement ht)), He by done. done.
Qed.

Lemma next_index_fresh ht : ht_inv ht -> nNextFreeElement ht < ZEND_LONG_MAX ->
  KInt (next_index ht) ∉ okeys (ht_elements ht).
Proof.
  intros Hinv Hlt. destruct (inv_free _ Hinv) as [Hr Hf]. unfold okeys, ht_elements.
  rewrite <- list_fmap_compose, list_elem_of_fmap. intros ([[v h] [k|]] & Hk & Hin).
  { done. }
  cbn in Hk. injection Hk as Hk. destruct (Hf _ _ Hin) as [Hh|Hh]; [|lia].
  unfold next_index in Hk. destruct (Z.eqb_spec (nNextFreeElement ht) ZEND_LONG_MIN) as [He|Hne].
  - pose proof (i64_range h). lia.
  - subst h. rewrite i64_u64 in Hh by done. lia.
Qed.

(** zend_hash_next_index_insert appends the value under the next free index.
    Below the largest integer the index is always new; at the largest integer
    an existing entry makes the operation fail without any effect. *)
Theorem zend_hash_next_index_insert_correct w ht v : ht_inv ht -> v <> IS_UNDEF ->
  (f_packed ht = true -> nNumUsed ht < HT_MAX_SIZE) ->
  runs (zend_hash_next_index_insert w ht v) (added w ht (KInt (next_index ht)) v)
    (nTableSize ht = HT_MAX_SIZE)
  /\ (nNextFreeElement ht < ZEND_LONG_MAX -> KInt (next_index ht) ∉ okeys (ht_elements ht)).
Proof.
  intros Hinv Hv Hmax. split; [|by apply next_index_fresh].
  destruct (inv_free _ Hinv) as [Hr _]. unfold added. rewrite <- next_index_key by done.
  pose proof (u64_range (nNextFreeElement ht)). destruct (decide _) as [Hin|Hno].
  - destruct (index_found w ht (u64 (nNextFreeElement ht)) v (Z.lor HASH_ADD HASH_ADD_NEXT) Hinv
      ltac:(lia) Hin eq_refl) as (p & old & He & _). unfold zend_hash_next_index_insert. by rewrite He.
  - pose proof (index_fresh w ht (u64 (nNextFreeElement ht)) v (Z.lor HASH_ADD HASH_ADD_NEXT)
      Hinv ltac:(lia) Hv Hmax Hno ltac:(done)) as Hf.
    unfold zend_hash_next_index_insert. exact Hf.
Qed.

(** ** Deletion *)

(** C4: zend_hash_del and zend_hash_str_del remove the entry, keep the order of the
    others and the invariant, release the key and destroy the value in this
    order; on a missing key they fail and change nothing. *)
Theorem zend_hash_del_correct w ht key : ht_inv ht ->
  (exists o, zend_hash_del w ht key = Ok o /\ del_spec w ht (KStr (ZSTR_VAL key)) o)
  /\ (exists o, zend_hash_str_del w ht (ZSTR_VAL key) = Ok o
        /\ del_spec w ht (KStr (ZSTR_VAL key)) o).
Proof. intros Hinv. split; [by apply zend_hash_del_ok|by apply zend_hash_str_del_ok]. Qed.

(** zend_hash_index_del removes the entry of an integer key in either layout. *)
Theorem zend_hash_index_del_correct w ht h : ht_inv ht -> 0 <= h ->
  exists o, zend_hash_index_del w ht h = Ok o /\ del_spec w ht (KInt h) o.
Proof. apply zend_hash_index_del_ok. Qed.

(** zend_hash_del_bucket finds the previous bucket of the chain, removes the
    entry, and moves an internal pointer that was at it to the next live bucket
    or to the end. *)
Theorem zend_hash_del_bucket_correct w ht i b : ht_inv ht -> f_packed ht = false ->
  f_uninit ht = false -> at_index ht i b ->
  exists w' ht', zend_hash_del_bucket w ht i = Ok (w', ht')
    /\ deleted w ht (bkey b) (del_events (pDestructor ht) (b_val b) (b_key b)) w' ht'
    /\ fixed false ht i (nNumUsed ht') (nInternalPointer ht').
Proof.
  intros Hinv Hp Hun Hi. destruct (zend_hash_del_bucket_ok w ht i b Hinv Hp Hun Hi)
    as (w' & ht' & Hd & Hdel & _ & n & ip & Hf & <- & <-). by exists w', ht'.
Qed.

(** ** Initialisation *)

(** zend_hash_check_size returns the smallest power of two at least the
    request, at least HT_MIN_SIZE, and fails from HT_MAX_SIZE on. *)
Theorem zend_hash_check_size_correct n :
  runs (zend_hash_check_size n)
    (fun s => size_ok s /\ n <= s /\ (HT_MIN_SIZE < n -> s < 2 * n)
              /\ (n <= HT_MIN_SIZE -> s = HT_MIN_SIZE))
    (HT_MAX_SIZE <= n).
Proof. apply check_size_ok. Qed.

(** _zend_hash_init_int builds a table that satisfies the invariant, is empty
    and is large enough. *)
Theorem zend_hash_init_correct addr n dtor : runs (_zend_hash_init_int addr n dtor)
  (fun ht => ht_inv ht /\ ht_elements ht = [] /\ n <= nTableSize ht /\ pDestructor ht = dtor)
  (HT_MAX_SIZE <= n).
Proof. apply init_inv. Qed.

(** ** Rehashing *)

Lemma rank_core D n cs k b : k < n -> n <= zlen D -> cores (pre n D) = cs ->
  zget D k = Some b -> live b = true -> zget cs (rank D k) = Some (b_val b, b_h b, b_key b).
Proof.
  intros Hk Hn <- Hb Hl. pose proof (zget_Some_range _ _ _ Hb) as Hr.
  rewrite (pre_split D n k b) by done. rewrite cores_app, cores_cons, bcore_live by done.
  unfold zget, rank, zlen. rewrite (proj2 (Z.leb_le _ _)) by lia. rewrite Nat2Z.id.
  by rewrite list_lookup_middle.
Qed.

Lemma rehash_pointer ht ht' cs b : mixed ht cs -> mixed ht' cs -> nNumUsed ht' = zlen cs ->
  nInternalPointer ht' = moved (arData ht) (nNumUsed ht) (-1) (nInternalPointer ht) ->
  at_index ht (nInternalPointer ht) b ->
  exists b', at_index ht' (nInternalPointer ht') b' /\ bcore b' = bcore b.
Proof.
  intros Hm Hm' Hu Hmv Hat. pose proof Hat as (Hi & Hb & Hl).
  destruct (mx_geom _ _ Hm) as [_ _ Hd Hus]. destruct (mx_geom _ _ Hm') as [_ _ Hd' Hus'].
  assert (nInternalPointer ht' = rank (arData ht) (nInternalPointer ht)) as Hip.
  { rewrite Hmv. unfold moved, live_at. rewrite Hb, Hl.
    rewrite (proj2 (Z.ltb_lt _ _)), (proj2 (Z.ltb_lt _ _)) by lia. done. }
  assert (nNumUsed ht <= zlen (arData ht)) as Hul by lia.
  pose proof (rank_core _ _ cs _ b (proj2 Hi) Hul (mx_cores _ _ Hm) Hb Hl) as Hc.
  rewrite <- Hip in Hc. pose proof (zget_Some_range _ _ _ Hc) as Hr.
  destruct (zget_is_Some (arData ht') (nInternalPointer ht')) as [b' Hb']; [lia|].
  assert (rank (arData ht') (nNumUsed ht') = nNumUsed ht') as Hfull
    by (unfold rank; rewrite (mx_cores _ _ Hm'); done).
  assert (forall k, 0 <= k <= nNumUsed ht' -> rank (arData ht') k = k) as Hrk
    by (apply rank_full; [lia|done]).
  assert (live b' = true) as Hl'.
  { pose proof (rank_succ _ _ _ Hb') as Hs. rewrite !Hrk in Hs by lia. destruct (live b'); [done|lia]. }
  exists b'. split; [split_and!; [lia|lia|done|done]|].
  assert (nNumUsed ht' <= zlen (arData ht')) as Hul' by lia.
  assert (nInternalPointer ht' < nNumUsed ht') as Hlt' by (rewrite Hu; lia).
  pose proof (rank_core _ _ cs _ b' Hlt' Hul' (mx_cores _ _ Hm') Hb' Hl') as Hc'.
  rewrite Hrk in Hc' by lia. rewrite !bcore_live by done. congruence.
Qed.

(** C5: zend_hash_rehash keeps the entries and their order and the invariant,
    squeezes out every hole, and leaves the internal pointer at the element it
    was at. *)
Theorem zend_hash_rehash_correct w ht : ht_inv ht -> f_packed ht = false -> f_uninit ht = false ->
  exists w' ht', zend_hash_rehash w ht = Ok (w', ht') /\ ht_inv ht'
    /\ ht_elements ht' = ht_elements ht /\ nNumUsed ht' = nNumOfElements ht'
    /\ w_same w w'
    /\ forall b, at_index ht (nInternalPointer ht) b ->
         exists b', at_index ht' (nInternalPointer ht') b' /\ bcore b' = bcore b.
Proof.
  intros Hinv Hp Hun.
  destruct (inv_layout _ Hinv) as [Hun' _ _ _ _|_ Hp' _ _ _ _|Hm]; [congruence..|].
  destruct (mixed_rehash w ht (ht_cores ht)) as (w' & ht' & Hr & Hm' & Hw & Hf & Hu' & _ & Hip);
    try apply Hm.
  destruct Hf as (_ & Hf1 & _ & _ & Hf4 & _). pose proof (inv_side _ Hinv) as Hside.
  rewrite <- Hf1, <- Hf4 in Hside. destruct (mixed_inv _ _ Hm' Hside) as [Hinv' He].
  exists w', ht'. split_and!; try done; [by rewrite (mx_count _ _ Hm')|].
  intros b Hat. apply (rehash_pointer ht ht' (ht_cores ht) b); try done. apply Hip.
  pose proof (mixed_elem _ _ _ _ Hm Hat) as Hin.
  unfold zlen. destruct (ht_cores ht); [by apply not_elem_of_nil in Hin|cbn; lia].
Qed.
End Theorems.

(** ** Instances on concrete tables *)

Lemma zend_hash_find_correct_witness :
  (exists r, zend_hash_find demo_ht str_a = Ok r /\ finds w0 demo_ht r (Some (ZVal 4 1)))
  /\ (exists r, zend_hash_str_find demo_ht (ZSTR_VAL str_a) = Ok r
        /\ finds w0 demo_ht r (Some (ZVal 4 1))).
Proof. exact (zend_hash_find_correct w0 demo_ht str_a demo_ht_inv). Defined.

Lemma zend_hash_index_find_correct_witness :
  exists r, zend_hash_index_find demo_packed 0 = Ok r /\ finds w0 demo_packed r (Some (ZVal 4 7)).
Proof. exact (zend_hash_index_find_correct w0 demo_packed 0 demo_packed_inv ltac:(lia)). Defined.

Lemma zend_hash_update_correct_witness :
  runs (zend_hash_update w0 demo_packed str_b (ZVal 4 3))
    (updated w0 demo_packed (KStr (ZSTR_VAL str_b)) (ZVal 4 3)) (at_capacity demo_packed).
Proof. exact (zend_hash_update_correct w0 demo_packed str_b (ZVal 4 3) demo_packed_inv ltac:(done)). Defined.

Lemma zend_hash_str_update_correct_witness :
  runs (zend_hash_str_update w0 demo_ht [97] (ZVal 4 3))
    (updated w0 demo_ht (KStr [97]) (ZVal 4 3)) (at_capacity demo_ht).
Proof. exact (zend_hash_str_update_correct w0 demo_ht [97] (ZVal 4 3) demo_ht_inv ltac:(done)). Defined.

Lemma zend_hash_add_correct_witness :
  runs (zend_hash_add w0 demo_ht str_a (ZVal 4 3))
    (added w0 demo_ht (KStr (ZSTR_VAL str_a)) (ZVal 4 3)) (at_capacity demo_ht)
  /\ runs (zend_hash_str_add w0 demo_ht (ZSTR_VAL str_a) (ZVal 4 3))
    (added w0 demo_ht (KStr (ZSTR_VAL str_a)) (ZVal 4 3)) (at_capacity demo_ht).
Proof. exact (zend_hash_add_correct w0 demo_ht str_a (ZVal 4 3) demo_ht_inv ltac:(done)). Defined.

Lemma zend_hash_lookup_correct_witness :
  runs (zend_hash_lookup w0 demo_ht str_b)
    (inserted w0 (ht_elements demo_ht ++ [(KStr (ZSTR_VAL str_b), IS_NULL)]) (KStr (ZSTR_VAL str_b)) IS_NULL)
    (at_capacity demo_ht).
Proof. exact (zend_hash_lookup_correct w0 demo_ht str_b demo_ht_inv). Defined.

Lemma zend_hash_index_update_correct_witness :
  runs (zend_hash_index_update w0 demo_packed 100 (ZVal 4 3))
    (fun o => updated w0 demo_packed (KInt 100) (ZVal 4 3) o /\ f_packed o.1.2 = packed_after demo_packed 100)
    (nTableSize demo_packed = HT_MAX_SIZE).
Proof.
  apply (zend_hash_index_update_correct w0 demo_packed 100 (ZVal 4 3) demo_packed_inv);
    [lia|done|done].
Defined.

(** 100 is too far away, 2 is the next slot, 0 is present. *)
Example demo_packed_after : packed_after demo_packed <$> [100; 2; 0] = [false; true; true].
Proof. by vm_compute. Qed.

Lemma zend_hash_index_add_correct_witness :
  runs (zend_hash_index_add w0 demo_ht 5 (ZVal 4 3))
    (added w0 demo_ht (KInt 5) (ZVal 4 3)) (nTableSize demo_ht = HT_MAX_SIZE).
Proof.
  apply (zend_hash_index_add_correct w0 demo_ht 5 (ZVal 4 3) demo_ht_inv); [lia|done|done].
Defined.

Lemma zend_hash_next_index_insert_correct_witness :
  runs (zend_hash_next_index_insert w0 demo_ht (ZVal 4 3))
    (added w0 demo_ht (KInt 6) (ZVal 4 3)) (nTableSize demo_ht = HT_MAX_SIZE)
  /\ (nNextFreeElement demo_ht < ZEND_LONG_MAX ->
       KInt 6 ∉ okeys (ht_elements demo_ht)).
Proof.
  apply (zend_hash_next_index_insert_correct w0 demo_ht (ZVal 4 3) demo_ht_inv); [done|done].
Defined.

Lemma zend_hash_del_correct_witness :
  (exists o, zend_hash_del w0 demo_ht str_a = Ok o /\ del_spec w0 demo_ht (KStr (ZSTR_VAL str_a)) o)
  /\ (exists o, zend_hash_str_del w0 demo_ht (ZSTR_VAL str_a) = Ok o
        /\ del_spec w0 demo_ht (KStr (ZSTR_VAL str_a)) o).
Proof. exact (zend_hash_del_correct w0 demo_ht str_a demo_ht_inv). Defined.

Lemma zend_hash_index_del_correct_witness :
  exists o, zend_hash_index_del w0 demo_packed 0 = Ok o /\ del_spec w0 demo_packed (KInt 0) o.
Proof. exact (zend_hash_index_del_correct w0 demo_packed 0 demo_packed_inv ltac:(lia)). Defined.

Lemma zend_hash_del_bucket_correct_witness :
  exists w' ht', zend_hash_del_bucket w0 demo_ht 0 = Ok (w', ht')
    /\ deleted w0 demo_ht (KStr (ZSTR_VAL str_a)) [EvRelease str_a; EvDtor (ZVal 4 1)] w' ht'
    /\ fixed false demo_ht 0 (nNumUsed ht') (nInternalPointer ht').
Proof.
  exact (zend_hash_del_bucket_correct w0 demo_ht 0 _ demo_ht_inv eq_refl eq_refl demo_ht_at_0).
Defined.

Lemma zend_hash_rehash_correct_witness :
  exists w' ht', zend_hash_rehash w0 demo_ht = Ok (w', ht') /\ ht_inv ht'
    /\ ht_elements ht' = ht_elements demo_ht /\ nNumUsed ht' = nNumOfElements ht'
    /\ w_same w0 w'
    /\ forall b, at_index demo_ht (nInternalPointer demo_ht) b ->
         exists b', at_index ht' (nInternalPointer ht') b' /\ bcore b' = bcore b.
Proof. exact (zend_hash_rehash_correct w0 demo_ht demo_ht_inv eq_refl eq_refl). Defined.
