(* ===== verification/HashIterOps.v ===== *)
(** * Operations of the hash table, part 2: positions and iterators (Zend/zend_hash.c)

    A position is an index of a slot. Iterators are entries of the global list
    EG(ht_iterators) that refer to a table by its address; the tables they refer
    to live in a heap of tables. *)

From S2P Require Import Prelude.
From S2P Require Import ZendString.
From S2P Require Import HashTypes.
From S2P Require Import HashOps.

(** The tables by address. *)
Abbreviation heap := (gmap Z HashTable).

Section IterOps.
Context {E : ZendEnv}.

(** What the slot [i] holds: value, hash or index, key. *)
Definition slot_at (ht : HashTable) (i : Z) : res core :=
  if f_packed ht then v ← rd (arPacked ht) i; Ok (v, i, None)
  else b ← rd (arData ht) i; Ok (b_val b, b_h b, b_key b).

(** ** Positions *)

(** [while (pos < ht->nNumUsed && Z_ISUNDEF(...)) pos++] *)
Fixpoint valid_pos_loop (fuel : nat) (ht : HashTable) (pos : Z) : res Z :=
  match fuel with
  | O => Ub
  | S fuel =>
      if pos <? nNumUsed ht then
        u ← slot_undef (f_packed ht) ht pos;
        if u : bool then valid_pos_loop fuel ht (pos + 1) else Ok pos
      else Ok pos
  end.

Definition pos_fuel (ht : HashTable) : nat := S (Z.to_nat (nNumUsed ht)).

Definition _zend_hash_get_valid_pos (ht : HashTable) (pos : Z) : res Z :=
  valid_pos_loop (pos_fuel ht) ht pos.
Definition _zend_hash_get_current_pos (ht : HashTable) : res Z :=
  _zend_hash_get_valid_pos ht (nInternalPointer ht).
Definition zend_hash_get_current_pos : HashTable -> res Z := _zend_hash_get_current_pos.

Definition zend_hash_internal_pointer_reset_ex (ht : HashTable) : res Z :=
  _zend_hash_get_valid_pos ht 0.

(** [while (idx > 0) { idx--; if (Z_TYPE(...) != IS_UNDEF) return idx; }] *)
Fixpoint prev_used (fuel : nat) (ht : HashTable) (idx : Z) : res (option Z) :=
  match fuel with
  | O => Ub
  | S fuel =>
      if 0 <? idx then
        let idx := idx - 1 in
        u ← slot_undef (f_packed ht) ht idx;
        if u : bool then prev_used fuel ht idx else Ok (Some idx)
      else Ok None
  end.

Definition zend_hash_internal_pointer_end_ex (ht : HashTable) : res Z :=
  r ← prev_used (pos_fuel ht) ht (nNumUsed ht);
  Ok (default (nNumUsed ht) r).

(** The result carries the new value of [*pos]. *)
Definition zend_hash_move_forward_ex (ht : HashTable) (pos : Z) : res (Z * zend_result) :=
  idx ← _zend_hash_get_valid_pos ht pos;
  if idx <? nNumUsed ht then
    r ← next_used (pos_fuel ht) (f_packed ht) ht idx;
    Ok (if nNumUsed ht <=? r then nNumUsed ht else r, SUCCESS)
  else Ok (pos, FAILURE).

Definition zend_hash_move_backwards_ex (ht : HashTable) (pos : Z) : res (Z * zend_result) :=
  if pos <? nNumUsed ht then
    r ← prev_used (pos_fuel ht) ht pos;
    Ok (default (nNumUsed ht) r, SUCCESS)
  else Ok (pos, FAILURE).

(** HASH_KEY_IS_STRING with the string, HASH_KEY_IS_LONG with the index,
    HASH_KEY_NON_EXISTENT. *)
Inductive key_result : Type :=
| HASH_KEY_IS_STRING (str_index : Z)
| HASH_KEY_IS_LONG (num_index : Z)
| HASH_KEY_NON_EXISTENT.

Definition key_of_core (c : core) : key_result :=
  match c.2 with Some k => HASH_KEY_IS_STRING k | None => HASH_KEY_IS_LONG c.1.2 end.

Definition zend_hash_get_current_key_ex (ht : HashTable) (pos : Z) : res key_result :=
  idx ← _zend_hash_get_valid_pos ht pos;
  if idx <? nNumUsed ht then c ← slot_at ht idx; Ok (key_of_core c)
  else Ok HASH_KEY_NON_EXISTENT.

(** Type tags of the values the key is returned as. *)
Definition TYPE_LONG : Z := 4.
Definition TYPE_STRING : Z := 6.

Definition zend_hash_get_current_key_zval_ex (w : world) (ht : HashTable) (pos : Z)
  : res (world * zval) :=
  idx ← _zend_hash_get_valid_pos ht pos;
  if nNumUsed ht <=? idx then Ok (w, IS_NULL)
  else
    c ← slot_at ht idx;
    Ok match c.2 with
       | Some k => (if ZSTR_IS_INTERNED k then w else log (EvAddref k) w, ZVal TYPE_STRING k)
       | None => (w, ZVal TYPE_LONG (i64 c.1.2))
       end.

Definition zend_hash_get_current_key_type_ex (ht : HashTable) (pos : Z) : res Z :=
  idx ← _zend_hash_get_valid_pos ht pos;
  if idx <? nNumUsed ht then
    if f_packed ht then Ok 2
    else p ← rd (arData ht) idx; Ok match b_key p with Some _ => 1 | None => 2 end
  else Ok 3.

Definition zend_hash_get_current_data_ex (ht : HashTable) (pos : Z) : res (option zptr) :=
  idx ← _zend_hash_get_valid_pos ht pos;
  Ok (if idx <? nNumUsed ht
      then Some (if f_packed ht then PPacked idx else PData idx) else None).

Definition zend_hash_has_more_elements_ex (ht : HashTable) (pos : Z) : res zend_result :=
  t ← zend_hash_get_current_key_type_ex ht pos; Ok (if t =? 3 then FAILURE else SUCCESS).

(** The variants on the internal pointer (Zend/zend_hash.h). *)
Definition zend_hash_internal_pointer_reset (ht : HashTable) : res HashTable :=
  p ← zend_hash_internal_pointer_reset_ex ht; Ok (set_nInternalPointer p ht).
Definition zend_hash_internal_pointer_end (ht : HashTable) : res HashTable :=
  p ← zend_hash_internal_pointer_end_ex ht; Ok (set_nInternalPointer p ht).
Definition zend_hash_move_forward (ht : HashTable) : res (HashTable * zend_result) :=
  '(p, r) ← zend_hash_move_forward_ex ht (nInternalPointer ht);
  Ok (set_nInternalPointer p ht, r).
Definition zend_hash_move_backwards (ht : HashTable) : res (HashTable * zend_result) :=
  '(p, r) ← zend_hash_move_backwards_ex ht (nInternalPointer ht);
  Ok (set_nInternalPointer p ht, r).
Definition zend_hash_get_current_data (ht : HashTable) : res (option zptr) :=
  zend_hash_get_current_data_ex ht (nInternalPointer ht).
Definition zend_hash_get_current_key (ht : HashTable) : res key_result :=
  zend_hash_get_current_key_ex ht (nInternalPointer ht).
Definition zend_hash_has_more_elements (ht : HashTable) : res zend_result :=
  zend_hash_has_more_elements_ex ht (nInternalPointer ht).

(** ** Counting *)

(** ZEND_HASH_MAP_FOREACH_VAL over the buckets: those that lead to an empty
    slot are not counted. *)
Fixpoint recalc_loop (w : world) (D : list Bucket) (num : Z) : res Z :=
  match D with
  | [] => Ok num
  | b :: D =>
      match b_val b with
      | IS_INDIRECT a =>
          match w_ind w !! a with
          | Some d => recalc_loop w D (if is_undef d then u32 (num - 1) else num)
          | None => Ub
          end
      | _ => recalc_loop w D num
      end
  end.

Definition zend_array_recalc_elements (w : world) (ht : HashTable) : res Z :=
  _ ← assert_ (negb (f_packed ht));
  recalc_loop w (take (Z.to_nat (nNumUsed ht)) (arData ht)) (nNumOfElements ht).

(** [is_symbol_table] says whether [ht == &EG(symbol_table)]. *)
Definition zend_array_count (w : world) (is_symbol_table : bool) (ht : HashTable)
  : res (HashTable * Z) :=
  if f_empty_ind ht then
    num ← zend_array_recalc_elements w ht;
    Ok (if nNumOfElements ht =? num then set_empty_ind false ht else ht, num)
  else if is_symbol_table then num ← zend_array_recalc_elements w ht; Ok (ht, num)
  else Ok (ht, nNumOfElements ht).

(** ** Iterators *)

Definition load (hp : heap) (a : Z) : res HashTable :=
  match hp !! a with Some ht => Ok ht | None => Ub end.

Definition inc_iters (ht : HashTable) : HashTable :=
  if HT_ITERATORS_OVERFLOW ht then ht else set_iters (nIteratorsCount ht + 1) ht.
(** The count is an unsigned char. *)
Definition dec_iters (ht : HashTable) : HashTable :=
  set_iters ((nIteratorsCount ht - 1) mod 256) ht.

(** The first entry with [iter->ht == NULL]. *)
Fixpoint free_iter (l : list HashTableIterator) (idx : Z) : option Z :=
  match l with
  | [] => None
  | it :: l => if it_ht it =? 0 then Some idx else free_iter l (idx + 1)
  end.

Definition zend_hash_iterator_add (w : world) (ht : HashTable) (pos : Z)
  : world * HashTable * Z :=
  let ht := inc_iters ht in
  match free_iter (ht_iterators w) 0 with
  | Some idx =>
      let w := set_iterators (zset (ht_iterators w) idx (mkIter (ht_addr ht) pos)) w in
      (if ht_iterators_used w <? idx + 1 then set_iterators_used (idx + 1) w else w, ht, idx)
  | None =>
      let idx := zlen (ht_iterators w) in
      (set_iterators_used (idx + 1)
         (set_iterators (ht_iterators w ++ mkIter (ht_addr ht) pos :: replicate 7 (mkIter 0 0)) w),
       ht, idx)
  end.

Definition zend_hash_iterator_pos (w : world) (hp : heap) (idx : Z) (a : Z)
  : res (world * heap * Z) :=
  _ ← assert_ (negb (idx =? 2 ^ 32 - 1));
  iter ← rd (ht_iterators w) idx;
  if it_ht iter =? a then Ok (w, hp, it_pos iter)
  else
    hp ← (if negb (it_ht iter =? 0) && negb (it_ht iter =? HT_POISONED_PTR) then
            t ← load hp (it_ht iter);
            Ok (if HT_ITERATORS_OVERFLOW t then hp else <[it_ht iter := dec_iters t]> hp)
          else Ok hp);
    ht ← load hp a;
    let hp := <[a := inc_iters ht]> hp in
    pos ← _zend_hash_get_current_pos ht;
    Ok (set_iterators (zset (ht_iterators w) idx (mkIter a pos)) w, hp, pos).

(** [while (idx > 0 && EG(ht_iterators)[idx - 1].ht == NULL) idx--;] *)
Fixpoint trim_iters (fuel : nat) (l : list HashTableIterator) (idx : Z) : res Z :=
  match fuel with
  | O => Ub
  | S fuel =>
      if 0 <? idx then
        it ← rd l (idx - 1);
        if it_ht it =? 0 then trim_iters fuel l (idx - 1) else Ok idx
      else Ok idx
  end.

Definition zend_hash_iterator_del (w : world) (hp : heap) (idx : Z) : res (world * heap) :=
  _ ← assert_ (negb (idx =? 2 ^ 32 - 1));
  iter ← rd (ht_iterators w) idx;
  hp ← (if negb (it_ht iter =? 0) && negb (it_ht iter =? HT_POISONED_PTR) then
          t ← load hp (it_ht iter);
          if HT_ITERATORS_OVERFLOW t then Ok hp
          else
            _ ← assert_ (negb (nIteratorsCount t =? 0));
            Ok (<[it_ht iter := dec_iters t]> hp)
        else Ok hp);
  let w := set_iterators (zset (ht_iterators w) idx (mkIter 0 (it_pos iter))) w in
  if idx =? ht_iterators_used w - 1 then
    n ← trim_iters (S (Z.to_nat idx)) (ht_iterators w) idx;
    Ok (set_iterators_used n w, hp)
  else Ok (w, hp).
End IterOps.
