(* ===== verification/HashApplyOps.v ===== *)
(** * Operations of the hash table, part 3: destruction, apply, copying (Zend/zend_hash.c)

    Destroying and emptying a table, and the loops that call a function on every
    element and may delete it; copying and merging tables. *)

From S2P Require Import Prelude.
From S2P Require Import ZendString.
From S2P Require Import HashTypes.
From S2P Require Import HashOps.
From S2P Require Import HashIterOps.

Section ApplyOps.
Context {E : ZendEnv}.

(** ** Destroying a table *)

(** [if (p->key) zend_string_release(p->key)] *)
Definition release_opt (key : option Z) (w : world) : world :=
  match key with Some k => log (EvRelease k) w | None => w end.

(** The loops [do { ht->pDestructor(&p->val); ... } while (++p != end)]: [check]
    says that dead buckets are skipped, [keys] that the keys are released. *)
Definition dtor_buckets (check keys : bool) (D : list Bucket) (w : world) : world :=
  fold_left (fun w p =>
      if check && is_undef (b_val p) then w
      else let w := log (EvDtor (b_val p)) w in
           if keys then release_opt (b_key p) w else w) D w.

Definition dtor_zvals (check : bool) (P : list zval) (w : world) : world :=
  fold_left (fun w v => if check && is_undef v then w else log (EvDtor v) w) P w.

Definition release_keys (D : list Bucket) (w : world) : world :=
  fold_left (fun w p => release_opt (b_key p) w) D w.

Definition used_buckets (ht : HashTable) : list Bucket := take (Z.to_nat (nNumUsed ht)) (arData ht).
Definition used_zvals (ht : HashTable) : list zval := take (Z.to_nat (nNumUsed ht)) (arPacked ht).

(** The part zend_hash_destroy and zend_hash_clean share: the elements of a
    hash are destroyed. *)
Definition dtor_hash (w : world) (ht : HashTable) : world :=
  let D := used_buckets ht in
  if pDestructor ht then
    if HT_HAS_STATIC_KEYS_ONLY ht then
      if HT_IS_WITHOUT_HOLES ht then dtor_buckets false false D w
      else dtor_buckets true false D w
    else if HT_IS_WITHOUT_HOLES ht then dtor_buckets false true D w
    else dtor_buckets true true D w
  else if negb (HT_HAS_STATIC_KEYS_ONLY ht) then release_keys D w
  else w.

Definition dtor_packed (w : world) (ht : HashTable) : world :=
  if pDestructor ht then
    if HT_IS_WITHOUT_HOLES ht then dtor_zvals false (used_zvals ht) w
    else dtor_zvals true (used_zvals ht) w
  else w.

(** The second component says whether the data of the table was freed. *)
Definition zend_hash_destroy (w : world) (ht : HashTable) : world * bool :=
  if negb (nNumUsed ht =? 0) then
    let w := if f_packed ht then dtor_packed w ht else dtor_hash w ht in
    (zend_hash_iterators_remove w ht, true)
  else if f_uninit ht then (w, false)
  else (w, true).

(** A destructor call on an undefined value does nothing. *)
Definition i_zval_ptr_dtor (v : zval) (w : world) : world :=
  if is_undef v then w else log (EvDtor v) w.

(** The loops of zend_array_destroy and zend_symtable_clean. *)
Definition ptr_dtor_buckets (w : world) (ht : HashTable) : world :=
  let D := used_buckets ht in
  if HT_HAS_STATIC_KEYS_ONLY ht then fold_left (fun w p => i_zval_ptr_dtor (b_val p) w) D w
  else if HT_IS_WITHOUT_HOLES ht then
    fold_left (fun w p => release_opt (b_key p) (i_zval_ptr_dtor (b_val p) w)) D w
  else
    fold_left (fun w p => if is_undef (b_val p) then w
                          else release_opt (b_key p) (i_zval_ptr_dtor (b_val p) w)) D w.

(** [is_ptr_dtor] says whether [ht->pDestructor == ZVAL_PTR_DTOR]. *)
Definition zend_array_destroy (is_ptr_dtor : bool) (w : world) (ht : HashTable) : world * bool :=
  let '(w, freed) :=
    if negb (nNumUsed ht =? 0) then
      if negb is_ptr_dtor then zend_hash_destroy w ht
      else if f_packed ht then (fold_left (fun w v => i_zval_ptr_dtor v w) (used_zvals ht) w, true)
      else (ptr_dtor_buckets w ht, true)
    else if f_uninit ht then (w, false)
    else (w, true) in
  (zend_hash_iterators_remove w ht, freed).

(** ** Emptying a table *)

Definition reset_counts (ht : HashTable) : HashTable :=
  set_counts 0 0 (nTableSize ht) 0 ZEND_LONG_MIN ht.

Definition zend_hash_clean (w : world) (ht : HashTable) : world * HashTable :=
  let '(w, ht) :=
    if negb (nNumUsed ht =? 0) then
      if f_packed ht then
        (if pDestructor ht && HT_HAS_STATIC_KEYS_ONLY ht then dtor_packed w ht else w, ht)
      else (dtor_hash w ht, HT_HASH_RESET ht)
    else (w, ht) in
  (w, reset_counts ht).

Definition zend_symtable_clean (w : world) (ht : HashTable) : res (world * HashTable) :=
  if negb (nNumUsed ht =? 0) then
    _ ← assert_ (negb (f_packed ht));
    Ok (ptr_dtor_buckets w ht, reset_counts (HT_HASH_RESET ht))
  else Ok (w, reset_counts ht).

(** ** Deleting through loops *)

(** [_zend_hash_packed_del_val] or [_zend_hash_del_el] at [idx]. *)
Definition del_slot (w : world) (ht : HashTable) (idx : Z) : res (world * HashTable) :=
  if f_packed ht then _zend_hash_packed_del_val w ht idx else _zend_hash_del_el w ht idx.

(** [for (idx = 0; idx < ht->nNumUsed; idx++)] *)
Fixpoint graceful_loop (fuel : nat) (w : world) (ht : HashTable) (idx : Z)
  : res (world * HashTable) :=
  if idx <? nNumUsed ht then
    match fuel with
    | O => Ub
    | S fuel =>
        u ← slot_undef (f_packed ht) ht idx;
        '(w, ht) ← (if u : bool then Ok (w, ht) else del_slot w ht idx);
        graceful_loop fuel w ht (idx + 1)
    end
  else Ok (w, ht).

Definition zend_hash_graceful_destroy (w : world) (ht : HashTable)
  : res (world * HashTable * bool) :=
  '(w, ht) ← graceful_loop (Z.to_nat (nNumUsed ht)) w ht 0;
  Ok (w, ht, negb (f_uninit ht)).

(** [while (idx > 0) { idx--; ... }] *)
Fixpoint graceful_reverse_loop (idx : nat) (w : world) (ht : HashTable)
  : res (world * HashTable) :=
  match idx with
  | O => Ok (w, ht)
  | S idx =>
      u ← slot_undef (f_packed ht) ht (Z.of_nat idx);
      '(w, ht) ← (if u : bool then Ok (w, ht) else del_slot w ht (Z.of_nat idx));
      graceful_reverse_loop idx w ht
  end.

Definition zend_hash_graceful_reverse_destroy (w : world) (ht : HashTable)
  : res (world * HashTable * bool) :=
  '(w, ht) ← graceful_reverse_loop (Z.to_nat (nNumUsed ht)) w ht;
  Ok (w, ht, negb (f_uninit ht)).

(** ** Applying a function to the elements *)

Definition ZEND_HASH_APPLY_KEEP : Z := 0.
Definition ZEND_HASH_APPLY_REMOVE : Z := 1.
Definition ZEND_HASH_APPLY_STOP : Z := 2.

(** The function called on an element: it gets the element and a state of its
    own, may overwrite the value, and returns a combination of the codes. *)
Section Apply.
Context {S : Type} (apply_func : S -> core -> S * zval * Z).

(** [&p->val] or [zv] for the slot [idx]. *)
Definition slot_ptr (ht : HashTable) (idx : Z) : zptr :=
  if f_packed ht then PPacked idx else PData idx.

(** The body of the loops for a slot in use. The first result says whether the
    loop goes on. *)
Definition apply_at (s : S) (w : world) (ht : HashTable) (idx : Z)
  : res (bool * S * world * HashTable) :=
  c ← slot_at ht idx;
  if is_undef c.1.1 then Ok (true, s, w, ht)
  else
    let '(s, v, result) := apply_func s c in
    '(w, ht) ← zptr_set w ht (slot_ptr ht idx) v;
    '(w, ht) ← (if has_flag result ZEND_HASH_APPLY_REMOVE then del_slot w ht idx else Ok (w, ht));
    Ok (negb (has_flag result ZEND_HASH_APPLY_STOP), s, w, ht).

Fixpoint apply_loop (fuel : nat) (s : S) (w : world) (ht : HashTable) (idx : Z)
  : res (S * world * HashTable) :=
  if idx <? nNumUsed ht then
    match fuel with
    | O => Ub
    | Datatypes.S fuel =>
        '(go, s, w, ht) ← apply_at s w ht idx;
        if go : bool then apply_loop fuel s w ht (idx + 1) else Ok (s, w, ht)
    end
  else Ok (s, w, ht).

Fixpoint reverse_apply_loop (idx : nat) (s : S) (w : world) (ht : HashTable)
  : res (S * world * HashTable) :=
  match idx with
  | O => Ok (s, w, ht)
  | Datatypes.S idx =>
      '(go, s, w, ht) ← apply_at s w ht (Z.of_nat idx);
      if go : bool then reverse_apply_loop idx s w ht else Ok (s, w, ht)
  end.

End Apply.

(** zend_hash_apply passes the value, zend_hash_apply_with_argument the value
    and an argument, zend_hash_apply_with_arguments also the key. *)
Definition zend_hash_apply {S} (apply_func : S -> zval -> S * zval * Z)
    (s : S) (w : world) (ht : HashTable) : res (S * world * HashTable) :=
  apply_loop (fun s c => apply_func s c.1.1) (Z.to_nat (nNumUsed ht)) s w ht 0.

Definition zend_hash_apply_with_argument {S A} (apply_func : S -> zval -> A -> S * zval * Z)
    (argument : A) (s : S) (w : world) (ht : HashTable) : res (S * world * HashTable) :=
  apply_loop (fun s c => apply_func s c.1.1 argument) (Z.to_nat (nNumUsed ht)) s w ht 0.

Definition zend_hash_apply_with_arguments {S A}
    (apply_func : S -> zval -> A -> Z * option Z -> S * zval * Z)
    (args : A) (s : S) (w : world) (ht : HashTable) : res (S * world * HashTable) :=
  apply_loop (fun s c => apply_func s c.1.1 args (c.1.2, c.2)) (Z.to_nat (nNumUsed ht)) s w ht 0.

Definition zend_hash_reverse_apply {S} (apply_func : S -> zval -> S * zval * Z)
    (s : S) (w : world) (ht : HashTable) : res (S * world * HashTable) :=
  reverse_apply_loop (fun s c => apply_func s c.1.1) (Z.to_nat (nNumUsed ht)) s w ht.
End ApplyOps.

(** ** Copying and merging *)

Section CopyOps.
Context {E : ZendEnv}.

(** The slots the loops walk over, dead ones included. *)
Definition raw_slots (ht : HashTable) : list core :=
  if f_packed ht then
    imap (fun i v => (v, Z.of_nat i, None)) (take (Z.to_nat (nNumUsed ht)) (arPacked ht))
  else (fun b => (b_val b, b_h b, b_key b)) <$> take (Z.to_nat (nNumUsed ht)) (arData ht).

(** The value an element of the source stands for: dead slots are skipped, and
    so are indirections to an undefined slot. *)
Definition resolve (packed : bool) (w : world) (v : zval) : res (option zval) :=
  match v with
  | IS_UNDEF => Ok None
  | IS_INDIRECT a =>
      if packed then Ok (Some v)
      else match w_ind w !! a with
           | Some d => Ok (if is_undef d then None else Some d)
           | None => Ub
           end
  | _ => Ok (Some v)
  end.

(** pCopyConstructor overwrites the new entry. *)
Definition run_ctor (ctor : option (zval -> zval)) (null_ok : bool)
    (o : world * HashTable * option zptr) : res (world * HashTable) :=
  let '(w, ht, r) := o in
  match ctor, r with
  | Some f, Some p => v ← zptr_get w ht p; zptr_set w ht p (f v)
  | Some _, None => if null_ok then Ok (w, ht) else Ub
  | None, _ => Ok (w, ht)
  end.

(** [insert w target c v] is the call that stores [v] under the key of [c]. *)
Fixpoint copy_loop (insert : world -> HashTable -> core -> zval -> res (world * HashTable * option zptr))
    (ctor : option (zval -> zval)) (null_ok packed : bool)
    (w : world) (target : HashTable) (l : list core) : res (world * HashTable) :=
  match l with
  | [] => Ok (w, target)
  | c :: l =>
      o ← resolve packed w c.1.1;
      '(w, target) ← match o with
                     | None => Ok (w, target)
                     | Some v => r ← insert w target c v; run_ctor ctor null_ok r
                     end;
      copy_loop insert ctor null_ok packed w target l
  end.

Definition insert_update (w : world) (target : HashTable) (c : core) (v : zval) :=
  match c.2 with
  | Some key => zend_hash_update w target key v
  | None => zend_hash_index_update w target c.1.2 v
  end.

Definition zend_hash_copy (w : world) (target source : HashTable) (ctor : option (zval -> zval))
  : res (world * HashTable) :=
  copy_loop insert_update ctor false (f_packed source) w target (raw_slots source).

Definition insert_merge (overwrite : bool) (w : world) (target : HashTable) (c : core) (v : zval) :=
  match c.2 with
  | Some key =>
      _zend_hash_add_or_update_i w target key v
        (if overwrite then Z.lor HASH_UPDATE HASH_UPDATE_INDIRECT
         else Z.lor HASH_ADD HASH_UPDATE_INDIRECT)
  | None =>
      if overwrite then zend_hash_index_update w target c.1.2 v
      else zend_hash_index_add w target c.1.2 v
  end.

Definition zend_hash_merge (w : world) (target source : HashTable) (ctor : option (zval -> zval))
    (overwrite : bool) : res (world * HashTable) :=
  copy_loop (insert_merge overwrite) ctor (negb overwrite) (f_packed source) w target
    (raw_slots source).

(** [checker] is pMergeSource with its parameter; it is given a zend_hash_key. *)
Definition zend_hash_replace_checker_wrapper (checker : HashTable -> zval -> Z * option Z -> bool)
    (target : HashTable) (source_data : zval) (h : Z) (key : option Z) : bool :=
  checker target source_data (h, key).

Fixpoint merge_ex_loop (ctor : option (zval -> zval))
    (checker : HashTable -> zval -> Z * option Z -> bool)
    (w : world) (target : HashTable) (l : list core) : res (world * HashTable) :=
  match l with
  | [] => Ok (w, target)
  | c :: l =>
      '(w, target) ←
        (if is_undef c.1.1 then Ok (w, target)
         else if zend_hash_replace_checker_wrapper checker target c.1.1 c.1.2 c.2 then
           match c.2 with
           | Some key => r ← zend_hash_update w target key c.1.1; run_ctor ctor false r
           | None => Ub
           end
         else Ok (w, target));
      merge_ex_loop ctor checker w target l
  end.

Definition zend_hash_merge_ex (w : world) (target source : HashTable)
    (ctor : option (zval -> zval)) (checker : HashTable -> zval -> Z * option Z -> bool)
  : res (world * HashTable) :=
  _ ← assert_ (negb (f_packed source));
  merge_ex_loop ctor checker w target (raw_slots source).
End CopyOps.
