(* ===== verification/HashIterate.v ===== *)
(** * Traversal enumerates the entries in order; the iterators

    The position functions see the entries of the table in iteration order,
    forwards and backwards, skipping the holes. [iters_wf]: a table's iterator
    count is the number of iterators that refer to it, until it saturates at 255;
    entries beyond ht_iterators_used are free. The iterator operations preserve it. *)

From S2P Require Import Prelude.
From S2P Require Import ZendString.
From S2P Require Import OrderedMap.
From S2P Require Import HashTypes.
From S2P Require Import HashOps.
From S2P Require Import HashChain.
From S2P Require Import HashRehash.
From S2P Require Import HashInv.
From S2P Require Import HashLayout.
From S2P Require Import HashInsert.
From S2P Require Import HashIndex.
From S2P Require Import HashDelete.
From S2P Require Import HashIterOps.

Section Iterate.
Context {E : ZendEnv}.

(** ** The slots of a table *)

Definition slot_list (ht : HashTable) : list (option core) :=
  if f_packed ht then imap pcore_at (pre (nNumUsed ht) (arPacked ht))
  else bcore <$> pre (nNumUsed ht) (arData ht).

Lemma slot_list_cores ht : ht_cores ht = omap id (slot_list ht).
Proof.
  unfold ht_cores, slot_list, pcores, cores, pre. destruct (f_packed ht); [done|].
  induction (take _ _) as [|b D IH]; [done|]. cbn. destruct (bcore b); cbn; by rewrite IH.
Qed.

Lemma inv_slots ht : ht_inv ht -> slots_ok (f_packed ht) ht.
Proof.
  intros Hinv. pose proof (inv_used _ Hinv). unfold slots_ok.
  destruct (inv_layout _ Hinv) as [_ -> _ _ Hu|_ -> _ _ Hl _|Hm].
  - pose proof (zlen_nonneg (arData ht)). lia.
  - lia.
  - rewrite (mx_packed _ _ Hm). destruct (mx_geom _ _ Hm). lia.
Qed.

Lemma slot_list_get ht i : slots_ok (f_packed ht) ht -> 0 <= i < nNumUsed ht ->
  exists c, slot_at ht i = Ok c
    /\ slot_undef (f_packed ht) ht i = Ok (is_undef c.1.1)
    /\ slot_list ht !! Z.to_nat i = Some (if is_undef c.1.1 then None else Some c)
    /\ forall w, zptr_get w ht (if f_packed ht then PPacked i else PData i) = Ok c.1.1.
Proof.
  unfold slots_ok, slot_at, slot_undef, slot_list. intros Hs Hi. destruct (f_packed ht).
  - destruct (zget_is_Some (arPacked ht) i) as [v Hv]; [lia|]. rewrite (rd_ok _ _ _ Hv).
    exists (v, i, None). split_and!; try done; [|intros; by apply rd_ok].
    unfold zget in Hv. rewrite (proj2 (Z.leb_le _ _)) in Hv by lia.
    rewrite list_lookup_imap. unfold pre. rewrite lookup_take_lt, Hv by lia. cbn.
    unfold pcore_at. by rewrite Z2Nat.id by lia.
  - destruct (zget_is_Some (arData ht) i) as [b Hb]; [lia|]. rewrite (rd_ok _ _ _ Hb).
    exists (b_val b, b_h b, b_key b).
    split_and!; try done; [|intros; cbn; by rewrite (rd_ok _ _ _ Hb)].
    unfold zget in Hb. rewrite (proj2 (Z.leb_le _ _)) in Hb by lia.
    rewrite list_lookup_fmap. unfold pre. rewrite lookup_take_lt, Hb by lia. cbn.
    unfold bcore, live. by destruct (is_undef (b_val b)).
Qed.

Lemma length_slot_list ht : slots_ok (f_packed ht) ht -> 0 <= nNumUsed ht ->
  length (slot_list ht) = Z.to_nat (nNumUsed ht).
Proof.
  unfold slots_ok, slot_list, zlen. intros Hs Hn.
  destruct (f_packed ht); [rewrite length_imap|rewrite length_fmap];
    unfold pre; rewrite length_take; lia.
Qed.

(** The entries from position [pos] on, and those before it. *)
Definition from_pos (ht : HashTable) (pos : Z) : list core :=
  omap id (drop (Z.to_nat pos) (slot_list ht)).
Definition before_pos (ht : HashTable) (pos : Z) : list core :=
  omap id (take (Z.to_nat pos) (slot_list ht)).

Lemma from_pos_step ht i c : slot_list ht !! Z.to_nat i = Some (Some c) -> 0 <= i ->
  from_pos ht i = c :: from_pos ht (i + 1).
Proof.
  intros Hc Hi. unfold from_pos. rewrite (drop_S _ _ _ Hc). cbn.
  by replace (Z.to_nat (i + 1)) with (S (Z.to_nat i)) by lia.
Qed.

Lemma from_pos_hole ht i : slot_list ht !! Z.to_nat i = Some None -> 0 <= i ->
  from_pos ht i = from_pos ht (i + 1).
Proof.
  intros Hc Hi. unfold from_pos. rewrite (drop_S _ _ _ Hc). cbn.
  by replace (Z.to_nat (i + 1)) with (S (Z.to_nat i)) by lia.
Qed.

Lemma before_pos_step ht i o : slot_list ht !! Z.to_nat i = Some o -> 0 <= i ->
  before_pos ht (i + 1) = before_pos ht i ++ match o with Some c => [c] | None => [] end.
Proof.
  intros Hc Hi. unfold before_pos. replace (Z.to_nat (i + 1)) with (S (Z.to_nat i)) by lia.
  rewrite (take_S_r _ _ _ Hc), omap_app. by destruct o.
Qed.

Lemma from_pos_end ht i : slots_ok (f_packed ht) ht -> 0 <= nNumUsed ht <= i -> from_pos ht i = [].
Proof.
  intros Hs Hi. unfold from_pos. rewrite drop_ge; [done|]. rewrite length_slot_list; [lia|done|lia].
Qed.

Lemma from_pos_0 ht : from_pos ht 0 = ht_cores ht.
Proof. unfold from_pos. by rewrite slot_list_cores. Qed.

Lemma before_pos_end ht : slots_ok (f_packed ht) ht -> 0 <= nNumUsed ht ->
  before_pos ht (nNumUsed ht) = ht_cores ht.
Proof.
  intros Hs Hn. unfold before_pos. by rewrite take_ge, slot_list_cores by (rewrite length_slot_list; done).
Qed.

(** ** The loops over slots *)

(** The slot at [i] is in use and holds [c]. *)
Definition live_slot (ht : HashTable) (i : Z) (c : core) : Prop :=
  0 <= i < nNumUsed ht /\ slot_at ht i = Ok c
  /\ slot_list ht !! Z.to_nat i = Some (Some c)
  /\ forall w, zptr_get w ht (if f_packed ht then PPacked i else PData i) = Ok c.1.1.

(** [at_pos ht pos r]: position [pos] stands for the slot [r] in use, or for the end. *)
Definition at_pos (ht : HashTable) (pos r : Z) : Prop :=
  from_pos ht pos = from_pos ht r /\
  ((nNumUsed ht <= r /\ from_pos ht r = []) \/ exists c, live_slot ht r c).

Lemma slot_cases ht i : slots_ok (f_packed ht) ht -> 0 <= i < nNumUsed ht ->
  (slot_undef (f_packed ht) ht i = Ok true /\ slot_list ht !! Z.to_nat i = Some None)
  \/ exists c, slot_undef (f_packed ht) ht i = Ok false /\ live_slot ht i c.
Proof.
  intros Hs Hi. destruct (slot_list_get ht i Hs Hi) as (c & H1 & H2 & H3 & H4).
  destruct (is_undef c.1.1); [by left|right]. exists c. by split_and!.
Qed.

Lemma valid_pos_loop_ok fuel : forall ht pos, slots_ok (f_packed ht) ht -> 0 <= nNumUsed ht ->
  0 <= pos -> (Z.to_nat (nNumUsed ht - pos) < fuel)%nat ->
  exists r, valid_pos_loop fuel ht pos = Ok r /\ pos <= r /\ at_pos ht pos r
    /\ (pos <= nNumUsed ht -> r <= nNumUsed ht).
Proof.
  induction fuel as [|fuel IH]; intros ht pos Hs Hn Hp Hf; [lia|]. cbn [valid_pos_loop].
  destruct (Z.ltb_spec pos (nNumUsed ht)) as [Hlt|Hge].
  - destruct (slot_cases ht pos Hs ltac:(lia)) as [[Hu Hl]|(c & Hu & Hl)]; rewrite Hu, bind_ok.
    + destruct (IH ht (pos + 1) Hs Hn ltac:(lia) ltac:(lia)) as (r & Hr & Hle & [Hfr Hat] & Hb).
      exists r. split_and!; [done|lia| |lia]. split; [|done]. by rewrite (from_pos_hole ht pos).
    + exists pos. split_and!; [done|lia| |lia]. split; [done|right; by exists c].
  - exists pos. split_and!; [done|lia| |lia]. split; [done|left]. split; [done|].
    by apply from_pos_end.
Qed.

Lemma valid_pos_ok ht pos : slots_ok (f_packed ht) ht -> 0 <= nNumUsed ht -> 0 <= pos ->
  exists r, _zend_hash_get_valid_pos ht pos = Ok r /\ pos <= r /\ at_pos ht pos r
    /\ (pos <= nNumUsed ht -> r <= nNumUsed ht).
Proof. intros. apply valid_pos_loop_ok; try done. unfold pos_fuel. lia. Qed.

Lemma prev_used_ok fuel : forall ht idx, slots_ok (f_packed ht) ht -> 0 <= idx <= nNumUsed ht ->
  (Z.to_nat idx < fuel)%nat ->
  exists o, prev_used fuel ht idx = Ok o /\
    match o with
    | Some r => r < idx /\ exists c, live_slot ht r c /\ before_pos ht idx = before_pos ht r ++ [c]
    | None => before_pos ht idx = []
    end.
Proof.
  induction fuel as [|fuel IH]; intros ht idx Hs Hi Hf; [lia|]. cbn [prev_used].
  destruct (Z.ltb_spec 0 idx) as [Hlt|Hge].
  - destruct (slot_cases ht (idx - 1) Hs ltac:(lia)) as [[Hu Hl]|(c & Hu & Hl)]; rewrite Hu, bind_ok.
    + destruct (IH ht (idx - 1) Hs ltac:(lia) ltac:(lia)) as (o & Ho & Hspec).
      exists o. split; [done|]. pose proof (before_pos_step _ _ _ Hl ltac:(lia)) as Hb.
      rewrite Z.sub_add, app_nil_r in Hb. rewrite Hb. destruct o as [r|]; [|done].
      destruct Hspec as [? Hspec]. split; [lia|done].
    + exists (Some (idx - 1)). split; [done|]. split; [lia|]. exists c. split; [done|].
      destruct Hl as (_ & _ & Hl & _). pose proof (before_pos_step _ _ _ Hl ltac:(lia)) as Hb.
      by rewrite Z.sub_add in Hb.
  - exists None. split; [done|]. by replace idx with 0 by lia.
Qed.

(** ** One step of a traversal *)

(** What a client sees of an entry: its key and its value. *)
Definition seen (c : core) : key_result * zval := (key_of_core c, c.1.1).

Definition current (w : world) (ht : HashTable) (pos : Z) : res (option (key_result * zval)) :=
  d ← zend_hash_get_current_data_ex ht pos;
  match d with
  | None => Ok None
  | Some p => v ← zptr_get w ht p; k ← zend_hash_get_current_key_ex ht pos; Ok (Some (k, v))
  end.

Lemma current_ok w ht pos : slots_ok (f_packed ht) ht -> 0 <= nNumUsed ht -> 0 <= pos ->
  current w ht pos = Ok (seen <$> head (from_pos ht pos)).
Proof.
  intros Hs Hn Hp. unfold current, zend_hash_get_current_data_ex, zend_hash_get_current_key_ex.
  destruct (valid_pos_ok ht pos Hs Hn Hp) as (r & -> & Hle & [-> Hat] & _). rewrite !bind_ok.
  destruct Hat as [[Hge ->]|(c & Hr & Hc & Hl & Hg)].
  - by rewrite (proj2 (Z.ltb_ge _ _)).
  - rewrite (proj2 (Z.ltb_lt _ _)), Hg, !bind_ok by lia. rewrite Hc, !bind_ok.
    by rewrite (from_pos_step ht r c Hl ltac:(lia)).
Qed.

Lemma next_used_from ht r r' : slots_ok (f_packed ht) ht -> 0 <= r -> 0 <= nNumUsed ht ->
  next_slot (f_packed ht) ht r r' -> from_pos ht (r + 1) = from_pos ht r'.
Proof.
  intros Hs Hr Hn (Hlt & Hd & _).
  assert (forall m : nat, r + 1 + Z.of_nat m <= r' -> from_pos ht (r + 1) = from_pos ht (r + 1 + Z.of_nat m)) as Hm.
  { induction m as [|m IH]; intros Hm; [by rewrite Z.add_0_r|]. rewrite IH by lia.
    destruct (slot_cases ht (r + 1 + Z.of_nat m) Hs ltac:(lia)) as [[_ Hl]|(c & Hu & _)].
    - rewrite (from_pos_hole _ _ Hl) by lia. f_equal. lia.
    - unfold dead_slot in Hd. rewrite Hd in Hu by lia. done. }
  rewrite (Hm (Z.to_nat (r' - (r + 1)))) by lia. f_equal. lia.
Qed.

Lemma move_forward_ok ht pos : slots_ok (f_packed ht) ht -> 0 <= nNumUsed ht -> 0 <= pos ->
  exists pos' res, zend_hash_move_forward_ex ht pos = Ok (pos', res)
    /\ match from_pos ht pos with
       | [] => res = FAILURE /\ pos' = pos
       | _ :: rest => res = SUCCESS /\ from_pos ht pos' = rest /\ pos < pos' <= nNumUsed ht
       end.
Proof.
  intros Hs Hn Hp. unfold zend_hash_move_forward_ex.
  destruct (valid_pos_ok ht pos Hs Hn Hp) as (r & -> & Hle & [-> Hat] & _). rewrite bind_ok.
  destruct Hat as [[Hge ->]|(c & Hr & Hc & Hl & Hg)].
  - rewrite (proj2 (Z.ltb_ge _ _)) by lia. by eexists _, _.
  - rewrite (proj2 (Z.ltb_lt _ _)) by lia.
    destruct (next_used_ok (pos_fuel ht) (f_packed ht) ht r Hs Hr) as (r' & -> & Hns);
      [unfold pos_fuel; lia|].
    rewrite bind_ok, (from_pos_step ht r c Hl ltac:(lia)). eexists _, _. split; [done|].
    rewrite (next_used_from ht r r') by (done || lia). destruct Hns as (Hr' & _ & _).
    destruct (Z.leb_spec (nNumUsed ht) r'); split_and!; try done; try lia. f_equal. lia.
Qed.

(** ** Whole traversals *)

Fixpoint traverse_fwd (fuel : nat) (w : world) (ht : HashTable) (pos : Z)
  : res (list (key_result * zval)) :=
  match fuel with
  | O => Ub
  | S fuel =>
      o ← current w ht pos;
      match o with
      | None => Ok []
      | Some e =>
          '(pos, _) ← zend_hash_move_forward_ex ht pos;
          l ← traverse_fwd fuel w ht pos; Ok (e :: l)
      end
  end.

Lemma traverse_fwd_ok fuel : forall w ht pos, slots_ok (f_packed ht) ht -> 0 <= nNumUsed ht ->
  0 <= pos -> (length (from_pos ht pos) < fuel)%nat ->
  traverse_fwd fuel w ht pos = Ok (seen <$> from_pos ht pos).
Proof.
  induction fuel as [|fuel IH]; intros w ht pos Hs Hn Hp Hf; [lia|]. cbn [traverse_fwd].
  rewrite current_ok, bind_ok by done.
  destruct (move_forward_ok ht pos Hs Hn Hp) as (pos' & r & Hmv & Hspec).
  destruct (from_pos ht pos) as [|c l] eqn:Hl; [done|].
  change (seen <$> head (c :: l)) with (Some (seen c)). cbv iota. rewrite Hmv, bind_ok.
  destruct Hspec as (_ & Hl' & Hlt). cbn in Hf.
  by rewrite IH, bind_ok, Hl' by (done || lia || (rewrite Hl'; lia)).
Qed.

Fixpoint traverse_bwd (fuel : nat) (w : world) (ht : HashTable) (pos : Z)
  : res (list (key_result * zval)) :=
  match fuel with
  | O => Ub
  | S fuel =>
      o ← current w ht pos;
      match o with
      | None => Ok []
      | Some e =>
          '(pos, _) ← zend_hash_move_backwards_ex ht pos;
          l ← traverse_bwd fuel w ht pos; Ok (e :: l)
      end
  end.

(** Positions a backward traversal visits: a live slot, or the end. *)
Lemma traverse_bwd_ok fuel : forall w ht o, slots_ok (f_packed ht) ht -> 0 <= nNumUsed ht ->
  (match o with Some r => exists c, live_slot ht r c | None => True end) ->
  (length (match o with Some r => before_pos ht (r + 1) | None => [] end) < fuel)%nat ->
  traverse_bwd fuel w ht (default (nNumUsed ht) o)
  = Ok (seen <$> rev (match o with Some r => before_pos ht (r + 1) | None => [] end)).
Proof.
  induction fuel as [|fuel IH]; intros w ht o Hs Hn Ho Hf; [lia|]. cbn [traverse_bwd].
  assert (0 <= default (nNumUsed ht) o) by (destruct o as [r|]; [destruct Ho as (c & ? & _)|]; cbn; lia).
  rewrite current_ok, bind_ok by done. destruct o as [r|]; cbn [from_option id] in *.
  - destruct Ho as (c & Hr & Hc & Hl & _). rewrite (from_pos_step ht r c Hl) by lia.
    change (seen <$> head (c :: from_pos ht (r + 1))) with (Some (seen c)). cbv iota.
    unfold zend_hash_move_backwards_ex. rewrite (proj2 (Z.ltb_lt _ _)) by lia.
    destruct (prev_used_ok (pos_fuel ht) ht r Hs ltac:(lia)) as (o' & -> & Hspec);
      [unfold pos_fuel; lia|]. rewrite !bind_ok.
    rewrite (before_pos_step ht r _ Hl) in * by lia. rewrite rev_app_distr. cbn.
    assert (before_pos ht r = match o' with Some r' => before_pos ht (r' + 1) | None => [] end) as Hb.
    { destruct o' as [r'|]; [|done]. destruct Hspec as (_ & c' & (? & _ & Hl' & _) & ->).
      by rewrite (before_pos_step ht r' _ Hl') by lia. }
    rewrite IH, bind_ok, Hb; try done.
    + destruct o' as [r'|]; [|done]. destruct Hspec as (_ & c' & ? & _). eauto.
    + rewrite <- Hb. rewrite length_app in Hf. cbn in Hf. lia.
  - by rewrite from_pos_end by (done || lia).
Qed.
End Iterate.

(** ** The global list of iterators *)

Section Iterators.
Context {E : ZendEnv}.

(** ** Counting references *)

Definition icount (a : Z) (l : list HashTableIterator) : Z :=
  zlen (filter (fun it => it_ht it = a) l).

Definition refers (a : Z) (it : HashTableIterator) : Z := if decide (it_ht it = a) then 1 else 0.

Lemma icount_app a l1 l2 : icount a (l1 ++ l2) = icount a l1 + icount a l2.
Proof. unfold icount, zlen. rewrite filter_app, length_app. lia. Qed.

Lemma icount_cons a it l : icount a (it :: l) = refers a it + icount a l.
Proof.
  unfold icount, refers, zlen. rewrite filter_cons. destruct (decide (it_ht it = a)); cbn [length]; lia.
Qed.

Lemma icount_nonneg a l : 0 <= icount a l.
Proof. unfold icount. apply zlen_nonneg. Qed.

Lemma icount_zset a l i it it' : zget l i = Some it ->
  icount a (zset l i it') = icount a l - refers a it + refers a it'.
Proof.
  intros Hi. pose proof (zget_Some_range _ _ _ Hi) as Hr. unfold zget in Hi.
  rewrite (proj2 (Z.leb_le _ _)) in Hi by lia. unfold zset.
  rewrite <- (take_drop_middle l (Z.to_nat i) it Hi) at 2.
  rewrite insert_take_drop by (apply lookup_lt_Some in Hi; done).
  rewrite !icount_app, !icount_cons. lia.
Qed.

Lemma refers_eq a p : refers a (mkIter a p) = 1.
Proof. unfold refers. cbn. by rewrite decide_True. Qed.

Lemma refers_ne a it : it_ht it <> a -> refers a it = 0.
Proof. intros. unfold refers. by rewrite decide_False. Qed.

Lemma icount_pos a l i it : zget l i = Some it -> it_ht it = a -> 0 < icount a l.
Proof.
  intros Hi Ha. pose proof (icount_zset a l i it (mkIter (a + 1) 0) Hi) as H.
  pose proof (icount_nonneg a (zset l i (mkIter (a + 1) 0))).
  rewrite (refers_ne a (mkIter (a + 1) 0)) in H by (cbn; lia).
  unfold refers in H. rewrite decide_True in H by done. lia.
Qed.

(** ** The invariant *)

Record iters_wf (w : world) (hp : heap) : Prop := {
  iw_used : 0 <= ht_iterators_used w <= zlen (ht_iterators w);
  iw_free : forall i it, ht_iterators_used w <= i -> zget (ht_iterators w) i = Some it -> it_ht it = 0;
  iw_known : forall i it, zget (ht_iterators w) i = Some it ->
    it_ht it = 0 \/ it_ht it = HT_POISONED_PTR \/ is_Some (hp !! it_ht it);
  iw_count : forall a ht, hp !! a = Some ht ->
    a <> 0 /\ a <> HT_POISONED_PTR /\ ht_addr ht = a /\ 0 <= nIteratorsCount ht <= 255
    /\ (nIteratorsCount ht = 255 \/ nIteratorsCount ht = icount a (ht_iterators w));
}.

(** What happens to the count of one table when one reference is replaced. *)
Lemma inc_iters_ok ht n : 0 <= nIteratorsCount ht <= 255 ->
  (nIteratorsCount ht = 255 \/ nIteratorsCount ht = n) ->
  0 <= nIteratorsCount (inc_iters ht) <= 255 /\ ht_addr (inc_iters ht) = ht_addr ht
  /\ (nIteratorsCount (inc_iters ht) = 255 \/ nIteratorsCount (inc_iters ht) = n + 1).
Proof.
  intros Hr Hn. unfold inc_iters, HT_ITERATORS_OVERFLOW.
  destruct (Z.eqb_spec (nIteratorsCount ht) 255); cbn; lia.
Qed.

Lemma dec_iters_ok ht n : 0 <= nIteratorsCount ht <= 255 -> nIteratorsCount ht <> 255 ->
  nIteratorsCount ht = n -> 0 < n ->
  0 <= nIteratorsCount (dec_iters ht) <= 255 /\ ht_addr (dec_iters ht) = ht_addr ht
  /\ nIteratorsCount (dec_iters ht) = n - 1.
Proof. intros Hr Hne Hn Hp. unfold dec_iters. cbn. rewrite Z.mod_small by lia. lia. Qed.

(** Dropping the reference an iterator holds, as iterator_pos and iterator_del do. *)
Definition drop_ref (hp : heap) (it : HashTableIterator) : heap :=
  match hp !! it_ht it with
  | Some t => if HT_ITERATORS_OVERFLOW t then hp else <[it_ht it := dec_iters t]> hp
  | None => hp
  end.

Lemma drop_ref_count w hp i it : iters_wf w hp -> zget (ht_iterators w) i = Some it ->
  forall a ht, drop_ref hp it !! a = Some ht ->
    a <> 0 /\ a <> HT_POISONED_PTR /\ ht_addr ht = a /\ 0 <= nIteratorsCount ht <= 255
    /\ (nIteratorsCount ht = 255 \/ nIteratorsCount ht = icount a (ht_iterators w) - refers a it).
Proof.
  intros Hw Hi a ht Ha. unfold drop_ref in Ha.
  assert (forall ht, a <> it_ht it -> hp !! a = Some ht ->
    a <> 0 /\ a <> HT_POISONED_PTR /\ ht_addr ht = a /\ 0 <= nIteratorsCount ht <= 255
    /\ (nIteratorsCount ht = 255 \/ nIteratorsCount ht = icount a (ht_iterators w) - refers a it)) as Hother.
  { intros h Hne Hh. destruct (iw_count _ _ Hw _ _ Hh) as (? & ? & ? & ? & ?).
    rewrite refers_ne by done. rewrite Z.sub_0_r. done. }
  destruct (hp !! it_ht it) as [t|] eqn:Ht; [|apply Hother; [congruence|done]].
  destruct (iw_count _ _ Hw _ _ Ht) as (H1 & H2 & H3 & H4 & H5). unfold HT_ITERATORS_OVERFLOW in Ha.
  destruct (Z.eqb_spec (nIteratorsCount t) 255) as [He|He].
  - destruct (Z.eq_dec a (it_ht it)) as [->|Hne]; [|by apply Hother].
    assert (ht = t) as -> by congruence. split_and!; try done; try lia.
  - apply lookup_insert_Some in Ha as [[<- <-]|[Hne Ha]]; [|apply Hother; [done|done]].
    destruct H5 as [|H5]; [done|].
    destruct (dec_iters_ok t _ H4 He H5 ltac:(by eapply icount_pos)) as (D1 & D2 & D3).
    unfold refers. rewrite decide_True by done. split_and!; try done; try lia; congruence.
Qed.

Lemma drop_ref_dom hp it a : is_Some (drop_ref hp it !! a) <-> is_Some (hp !! a).
Proof.
  unfold drop_ref. destruct (hp !! it_ht it) as [t|] eqn:Ht; [|done].
  destruct (HT_ITERATORS_OVERFLOW t); [done|].
  destruct (decide (it_ht it = a)) as [<-|Hne].
  - rewrite lookup_insert_eq, Ht. split; eauto.
  - by rewrite lookup_insert_ne.
Qed.

(** The table of an iterator that is neither free nor poisoned can be loaded. *)
Lemma release_ref w hp i it (chk : bool) : iters_wf w hp -> zget (ht_iterators w) i = Some it ->
  (if negb (it_ht it =? 0) && negb (it_ht it =? HT_POISONED_PTR) then
     t ← load hp (it_ht it);
     if HT_ITERATORS_OVERFLOW t then Ok hp
     else
       _ ← assert_ (chk || negb (nIteratorsCount t =? 0));
       Ok (<[it_ht it := dec_iters t]> hp)
   else Ok hp) = Ok (drop_ref hp it).
Proof.
  intros Hw Hi. unfold drop_ref, load.
  destruct (Z.eqb_spec (it_ht it) 0) as [He|Hne]; cbn [negb andb].
  { destruct (hp !! it_ht it) as [t|] eqn:Ht; [|done].
    by destruct (iw_count _ _ Hw _ _ Ht) as (? & _). }
  destruct (Z.eqb_spec (it_ht it) HT_POISONED_PTR) as [He|Hne2]; cbn [negb andb].
  { destruct (hp !! it_ht it) as [t|] eqn:Ht; [|done].
    by destruct (iw_count _ _ Hw _ _ Ht) as (_ & ? & _). }
  destruct (iw_known _ _ Hw _ _ Hi) as [?|[?|[t Ht]]]; [done|done|]. rewrite Ht, bind_ok.
  destruct (iw_count _ _ Hw _ _ Ht) as (_ & _ & _ & Hr & Hc). unfold HT_ITERATORS_OVERFLOW.
  destruct (Z.eqb_spec (nIteratorsCount t) 255) as [?|Hn255]; [done|].
  destruct Hc as [|Hc]; [done|]. pose proof (icount_pos _ _ _ _ Hi eq_refl).
  rewrite (proj2 (Z.eqb_neq (nIteratorsCount t) 0)) by lia. by rewrite orb_true_r.
Qed.

(** Replacing entry [i] of the list once its reference was dropped. *)
Lemma replace_iter w hp i it it' hp' u : iters_wf w hp -> zget (ht_iterators w) i = Some it ->
  0 <= u <= zlen (ht_iterators w) ->
  (forall k itk, u <= k -> zget (zset (ht_iterators w) i it') k = Some itk -> it_ht itk = 0) ->
  (forall a, is_Some (hp !! a) -> is_Some (hp' !! a)) ->
  (it_ht it' = 0 \/ is_Some (hp' !! it_ht it')) ->
  (forall a ht, hp' !! a = Some ht ->
    a <> 0 /\ a <> HT_POISONED_PTR /\ ht_addr ht = a /\ 0 <= nIteratorsCount ht <= 255
    /\ (nIteratorsCount ht = 255
        \/ nIteratorsCount ht = icount a (ht_iterators w) - refers a it + refers a it')) ->
  iters_wf (set_iterators_used u (set_iterators (zset (ht_iterators w) i it') w)) hp'.
Proof.
  intros Hw Hi Hu Hfree Hdom Hnew Hc. pose proof (zget_Some_range _ _ _ Hi) as Hr. split; cbn.
  - by rewrite zlen_zset.
  - done.
  - intros k itk Hk. destruct (Z.eq_dec i k) as [->|Hne].
    + rewrite zget_zset_eq in Hk by done. simplify_eq. tauto.
    + rewrite zget_zset_ne in Hk by lia. destruct (iw_known _ _ Hw _ _ Hk) as [?|[?|?]]; auto.
  - intros a ht Ha. rewrite (icount_zset _ _ _ _ _ Hi). by apply Hc.
Qed.

(** ** The operations *)

Lemma free_iter_spec l k : match free_iter l k with
  | Some i => exists it, k <= i /\ zget l (i - k) = Some it /\ it_ht it = 0
  | None => True
  end.
Proof.
  revert k. induction l as [|it l IH]; intros k; cbn; [done|].
  destruct (Z.eqb_spec (it_ht it) 0).
  - exists it. rewrite Z.sub_diag. split_and!; [lia|done|done].
  - specialize (IH (k + 1)). destruct (free_iter l (k + 1)) as [i|]; [|done].
    destruct IH as (it' & Hk & Hi & Hz). exists it'. split_and!; [lia| |done].
    unfold zget in *. rewrite (proj2 (Z.leb_le _ _)) in Hi by lia. rewrite (proj2 (Z.leb_le _ _)) by lia.
    by replace (Z.to_nat (i - k)) with (S (Z.to_nat (i - (k + 1)))) by lia.
Qed.

Lemma inc_count w hp a ht it p i : iters_wf w hp -> hp !! a = Some ht ->
  zget (ht_iterators w) i = Some it -> it_ht it <> a ->
  forall hp1 : heap, (forall b t, hp1 !! b = Some t -> b <> 0 /\ b <> HT_POISONED_PTR /\ ht_addr t = b
     /\ 0 <= nIteratorsCount t <= 255
     /\ (nIteratorsCount t = 255 \/ nIteratorsCount t = icount b (ht_iterators w) - refers b it)) ->
  hp1 !! a = Some ht ->
  forall b t, <[a := inc_iters ht]> hp1 !! b = Some t ->
     b <> 0 /\ b <> HT_POISONED_PTR /\ ht_addr t = b /\ 0 <= nIteratorsCount t <= 255
     /\ (nIteratorsCount t = 255 \/ nIteratorsCount t
         = icount b (ht_iterators w) - refers b it + refers b (mkIter a p)).
Proof.
  intros Hw Ha Hi Hne hp1 Hc Ha1 b t Hb.
  apply lookup_insert_Some in Hb as [[<- <-]|[Hab Hb]].
  - destruct (Hc _ _ Ha1) as (H1 & H2 & H3 & H4 & H5).
    destruct (inc_iters_ok ht _ H4 H5) as (D1 & D2 & D3). rewrite refers_eq.
    split_and!; try done; try lia; congruence.
  - destruct (Hc _ _ Hb) as (H1 & H2 & H3 & H4 & H5).
    rewrite (refers_ne b (mkIter a p)) by done. rewrite Z.add_0_r. split_and!; (done || lia).
Qed.

(** Taking the free entry [i] for the table at [a]. *)
Lemma occupy w hp a ht pos i it : iters_wf w hp -> hp !! a = Some ht ->
  zget (ht_iterators w) i = Some it -> it_ht it = 0 ->
  iters_wf (set_iterators_used (Z.max (ht_iterators_used w) (i + 1))
    (set_iterators (zset (ht_iterators w) i (mkIter a pos)) w)) (<[a:=inc_iters ht]> hp).
Proof.
  intros Hw Ha Hi Hz. destruct (iw_count _ _ Hw _ _ Ha) as (Ha0 & Hap & Haddr & Hr & Hc).
  pose proof (zget_Some_range _ _ _ Hi) as Hri. pose proof (iw_used _ _ Hw) as Hu.
  apply (replace_iter w hp i it); try done; try lia.
  - intros k itk Hk Hik. rewrite zget_zset_ne in Hik by lia. apply (iw_free _ _ Hw k); [lia|done].
  - intros b Hb. destruct (decide (a = b)) as [<-|]; [rewrite lookup_insert_eq; eauto|].
    by rewrite lookup_insert_ne.
  - right. cbn. rewrite lookup_insert_eq. eauto.
  - apply (inc_count w hp a ht it pos i); try done; [congruence|].
    intros b t Hb. destruct (iw_count _ _ Hw _ _ Hb) as (H1 & H2 & H3 & H4 & H5).
    rewrite refers_ne by congruence. rewrite Z.sub_0_r. split_and!; (done || lia).
Qed.

Lemma icount_free a n : a <> 0 -> icount a (replicate n (mkIter 0 0)) = 0.
Proof.
  intros Ha. induction n as [|n IH]; [done|]. cbn [replicate].
  by rewrite icount_cons, IH, refers_ne.
Qed.

Lemma zget_app {A} (l1 l2 : list A) k x : zget (l1 ++ l2) k = Some x ->
  zget l1 k = Some x \/ (zlen l1 <= k /\ zget l2 (k - zlen l1) = Some x).
Proof.
  intros Hk. destruct (Z.lt_ge_cases k (zlen l1)).
  - left. by rewrite zget_app_l in Hk.
  - right. split; [done|]. unfold zget, zlen in *. rewrite (proj2 (Z.leb_le _ _)) in Hk by lia.
    rewrite (proj2 (Z.leb_le _ _)) by lia. rewrite lookup_app_r in Hk by lia.
    by replace (Z.to_nat (k - Z.of_nat (length l1))) with (Z.to_nat k - length l1)%nat by lia.
Qed.

(** Growing the list by free entries. *)
Lemma iters_wf_grow w hp n : iters_wf w hp ->
  iters_wf (set_iterators (ht_iterators w ++ replicate n (mkIter 0 0)) w) hp.
Proof.
  intros Hw. pose proof (iw_used _ _ Hw).
  assert (forall k (x : HashTableIterator), zget (replicate n (mkIter 0 0)) k = Some x -> it_ht x = 0) as Hrep.
  { intros k x Hx. unfold zget in Hx. destruct (0 <=? k); [|done].
    by apply lookup_replicate in Hx as [-> _]. }
  split; cbn.
  - unfold zlen in *. rewrite length_app. lia.
  - intros k it Hk [Hi|[_ Hi]]%zget_app; [by eapply iw_free|by eapply Hrep].
  - intros k it [Hi|[_ Hi]]%zget_app; [by eapply iw_known|left; by eapply Hrep].
  - intros a ht Ha. destruct (iw_count _ _ Hw _ _ Ha) as (H1 & H2 & H3 & H4 & H5).
    rewrite icount_app, icount_free, Z.add_0_r by done. split_and!; (done || lia).
Qed.

Lemma iterator_add_ok w hp a ht pos : iters_wf w hp -> hp !! a = Some ht ->
  let '(w', ht', idx) := zend_hash_iterator_add w ht pos in
  iters_wf w' (<[a := ht']> hp) /\ zget (ht_iterators w') idx = Some (mkIter a pos)
  /\ (forall i it, i <> idx -> zget (ht_iterators w) i = Some it ->
        zget (ht_iterators w') i = Some it)
  /\ (forall it, zget (ht_iterators w) idx = Some it -> it_ht it = 0).
Proof.
  intros Hw Ha. destruct (iw_count _ _ Hw _ _ Ha) as (Ha0 & Hap & Haddr & Hr & Hc).
  unfold zend_hash_iterator_add. replace (ht_addr (inc_iters ht)) with a
    by (rewrite <- Haddr; unfold inc_iters; by destruct (HT_ITERATORS_OVERFLOW ht)).
  pose proof (free_iter_spec (ht_iterators w) 0) as Hspec. pose proof (iw_used _ _ Hw) as Hu.
  destruct (free_iter (ht_iterators w) 0) as [i|].
  - destruct Hspec as (it & Hi0 & Hi & Hz). rewrite Z.sub_0_r in Hi.
    pose proof (zget_Some_range _ _ _ Hi) as Hri.
    pose proof (occupy w hp a ht pos i it Hw Ha Hi Hz) as Hw'. cbn [ht_iterators_used set_iterators].
    split_and!; try (intros; cbn; congruence).
    + destruct (Z.ltb_spec (ht_iterators_used w) (i + 1)).
      * by replace (Z.max (ht_iterators_used w) (i + 1)) with (i + 1) in Hw' by lia.
      * by replace (Z.max (ht_iterators_used w) (i + 1)) with (ht_iterators_used w) in Hw' by lia.
    + destruct (_ <? _); cbn; by apply zget_zset_eq.
    + intros k itk Hk Hik. destruct (_ <? _); cbn; by rewrite zget_zset_ne.
  - set (l := ht_iterators w) in *. pose proof (zlen_nonneg l).
    assert (l ++ mkIter a pos :: replicate 7 (mkIter 0 0)
      = zset (l ++ replicate 8 (mkIter 0 0)) (zlen l) (mkIter a pos)) as Hl.
    { unfold zset, zlen. rewrite Nat2Z.id, insert_app_r_alt by lia. by rewrite Nat.sub_diag. }
    assert (zget (l ++ replicate 8 (mkIter 0 0)) (zlen l) = Some (mkIter 0 0)) as Hz.
    { unfold zget, zlen. rewrite (proj2 (Z.leb_le _ _)) by lia.
      rewrite Nat2Z.id, lookup_app_r by lia. by rewrite Nat.sub_diag. }
    pose proof (occupy _ hp a ht pos _ _ (iters_wf_grow w hp 8 Hw) Ha Hz eq_refl) as Hw'.
    cbn [ht_iterators set_iterators set_iterators_used ht_iterators_used] in *.
    pose proof (zget_Some_range _ _ _ Hz). rewrite Hl. split_and!.
    + by replace (Z.max (ht_iterators_used w) (zlen l + 1)) with (zlen l + 1) in Hw' by lia.
    + by apply zget_zset_eq.
    + intros k itk Hk Hik. rewrite zget_zset_ne by lia.
      rewrite zget_app_l; [done|]. apply zget_Some_range in Hik. lia.
    + intros itk Hik. apply zget_Some_range in Hik. lia.
Qed.

Lemma trim_iters_ok fuel : forall l idx, 0 <= idx <= zlen l -> (Z.to_nat idx < fuel)%nat ->
  exists n, trim_iters fuel l idx = Ok n /\ 0 <= n <= idx
    /\ forall k it, n <= k < idx -> zget l k = Some it -> it_ht it = 0.
Proof.
  induction fuel as [|fuel IH]; intros l idx Hi Hf; [lia|]. cbn [trim_iters].
  destruct (Z.ltb_spec 0 idx).
  - destruct (zget_is_Some l (idx - 1)) as [it Hit]; [lia|]. rewrite (rd_ok _ _ _ Hit), bind_ok.
    destruct (Z.eqb_spec (it_ht it) 0).
    + destruct (IH l (idx - 1) ltac:(lia) ltac:(lia)) as (n & Hn & Hle & Hz).
      exists n. split_and!; [done|lia|lia|]. intros k itk Hk Hitk.
      destruct (Z.eq_dec k (idx - 1)) as [->|]; [congruence|]. apply (Hz k); [lia|done].
    + exists idx. split_and!; [done|lia|lia|]. intros; lia.
  - exists idx. split_and!; [done|lia|lia|]. intros; lia.
Qed.

Lemma iterator_del_ok w hp idx it : iters_wf w hp -> zget (ht_iterators w) idx = Some it ->
  idx < 2 ^ 32 - 1 ->
  exists w' hp', zend_hash_iterator_del w hp idx = Ok (w', hp') /\ iters_wf w' hp'
    /\ ht_iterators w' = zset (ht_iterators w) idx (mkIter 0 (it_pos it)).
Proof.
  intros Hw Hi Hmax. unfold zend_hash_iterator_del.
  rewrite (proj2 (Z.eqb_neq _ _)) by lia. cbn [assert_ negb]. rewrite bind_ok, (rd_ok _ _ _ Hi), bind_ok.
  pose proof (release_ref w hp idx it false Hw Hi) as Hrel. cbn [orb] in Hrel. rewrite Hrel, bind_ok.
  pose proof (zget_Some_range _ _ _ Hi) as Hr. pose proof (iw_used _ _ Hw) as Hu.
  set (l' := zset (ht_iterators w) idx (mkIter 0 (it_pos it))).
  assert (forall u, 0 <= u <= zlen (ht_iterators w) ->
    (forall k itk, u <= k -> zget l' k = Some itk -> it_ht itk = 0) ->
    iters_wf (set_iterators_used u (set_iterators l' w)) (drop_ref hp it)) as Hgen.
  { intros u Hu' Hz. apply (replace_iter w hp idx it); try done.
    - intros b. by rewrite drop_ref_dom.
    - by left.
    - intros b t Hb. destruct (drop_ref_count w hp idx it Hw Hi b t Hb) as (H1 & H2 & H3 & H4 & H5).
      rewrite (refers_ne b (mkIter 0 (it_pos it))), Z.add_0_r by done. split_and!; (done || lia). }
  assert (forall k itk, ht_iterators_used w <= k -> zget l' k = Some itk -> it_ht itk = 0) as Hfree.
  { intros k itk Hk Hik. unfold l' in Hik. destruct (Z.eq_dec idx k) as [->|Hne].
    - rewrite zget_zset_eq in Hik by done. by simplify_eq.
    - rewrite zget_zset_ne in Hik by lia. apply (iw_free _ _ Hw k); [lia|done]. }
  cbn [ht_iterators_used set_iterators ht_iterators]. fold l'.
  destruct (Z.eqb_spec idx (ht_iterators_used w - 1)) as [He|Hne].
  - destruct (trim_iters_ok (S (Z.to_nat idx)) l' idx) as (n & -> & Hn & Hz);
      [unfold l'; rewrite zlen_zset; lia|lia|].
    rewrite bind_ok. eexists _, _. split_and!; [done| |done]. apply Hgen; [lia|].
    intros k itk Hk Hik. destruct (Z.lt_ge_cases k idx); [apply (Hz k); [lia|done]|].
    destruct (Z.eq_dec k idx) as [->|]; [|apply (Hfree k); [lia|done]].
    unfold l' in Hik. rewrite zget_zset_eq in Hik by done. by simplify_eq.
  - eexists _, _. split_and!; [done| |done]. apply (Hgen (ht_iterators_used w)); [lia|done].
Qed.

Lemma iterator_pos_ok w hp idx it a ht : iters_wf w hp -> zget (ht_iterators w) idx = Some it ->
  idx < ht_iterators_used w -> idx < 2 ^ 32 - 1 -> hp !! a = Some ht ->
  slots_ok (f_packed ht) ht -> 0 <= nNumUsed ht -> 0 <= nInternalPointer ht ->
  exists w' hp' pos, zend_hash_iterator_pos w hp idx a = Ok (w', hp', pos) /\ iters_wf w' hp'
    /\ ht_iterators w' = zset (ht_iterators w) idx (mkIter a pos)
    /\ (it_ht it = a -> pos = it_pos it /\ hp' = hp)
    /\ (it_ht it <> a -> _zend_hash_get_current_pos ht = Ok pos).
Proof.
  intros Hw Hi Hused Hmax Ha Hs Hn Hip. unfold zend_hash_iterator_pos.
  rewrite (proj2 (Z.eqb_neq _ _)) by lia. cbn [assert_ negb]. rewrite bind_ok, (rd_ok _ _ _ Hi), bind_ok.
  destruct (Z.eqb_spec (it_ht it) a) as [He|Hne].
  { exists w, hp, (it_pos it). split_and!; try done. rewrite zset_id; [done|]. rewrite <- He. by destruct it. }
  pose proof (release_ref w hp idx it true Hw Hi) as Hrel. cbn [orb assert_] in Hrel.
  assert ((if negb (it_ht it =? 0) && negb (it_ht it =? HT_POISONED_PTR) then
            t ← load hp (it_ht it);
            Ok (if HT_ITERATORS_OVERFLOW t then hp else <[it_ht it := dec_iters t]> hp)
          else Ok hp) = Ok (drop_ref hp it)) as ->.
  { rewrite <- Hrel. destruct (_ && _); [|done]. destruct (load hp (it_ht it)) as [t| |]; try done.
    rewrite !bind_ok. by destruct (HT_ITERATORS_OVERFLOW t). }
  rewrite bind_ok. assert (drop_ref hp it !! a = Some ht) as Ha'.
  { unfold drop_ref. destruct (hp !! it_ht it); [|done]. destruct (HT_ITERATORS_OVERFLOW _); [done|].
    by rewrite lookup_insert_ne. }
  unfold load. rewrite Ha', bind_ok. unfold _zend_hash_get_current_pos.
  destruct (valid_pos_ok ht (nInternalPointer ht) Hs Hn Hip) as (pos & -> & _). rewrite bind_ok.
  eexists _, _, pos. split_and!; try done. pose proof (zget_Some_range _ _ _ Hi) as Hr.
  pose proof (replace_iter w hp idx it (mkIter a pos) (<[a:=inc_iters ht]> (drop_ref hp it))
    (ht_iterators_used w) Hw Hi (iw_used _ _ Hw)) as Hrep. apply Hrep.
  - intros k itk Hk Hik. rewrite zget_zset_ne in Hik by lia. apply (iw_free _ _ Hw k); [lia|done].
  - intros b Hb. destruct (decide (a = b)) as [<-|]; [rewrite lookup_insert_eq; eauto|].
    rewrite lookup_insert_ne by done. by apply drop_ref_dom.
  - right. cbn. rewrite lookup_insert_eq. eauto.
  - apply (inc_count w hp a ht it pos idx); try done. by apply (drop_ref_count w hp idx it).
Qed.
End Iterators.
