(* ===== verification/HashApply.v ===== *)
(** * Apply, emptying and destroying a table

    Deleting through a loop and the effect of the apply loops on the entries; the
    destructor runs once on every value, in order, every key that is not static is
    released, and a cleaned table is a valid empty table. *)

From S2P Require Import Prelude.
From S2P Require Import ZendString.
From S2P Require Import OrderedMap.
From S2P Require Import HashTypes.
From S2P Require Import HashOps.
From S2P Require Import HashChain.
From S2P Require Import HashRehash.
From S2P Require Import HashInv.
From S2P Require Import HashLayout.
From S2P Require Import HashInsert.
From S2P Require Import HashIndex.
From S2P Require Import HashDelete.
From S2P Require Import HashIterOps.
From S2P Require Import HashApplyOps.
From S2P Require Import HashIterate.

Section Apply.
Context {E : ZendEnv}.

(** ** Slots as a function *)

Definition slot_opt (ht : HashTable) (k : nat) : option core := mjoin (slot_list ht !! k).

Lemma omap_id_ext {A} (l1 l2 : list (option A)) :
  (forall k, mjoin (l1 !! k) = mjoin (l2 !! k)) -> omap id l1 = omap id l2.
Proof.
  revert l2. induction l1 as [|o l1 IH]; intros l2 H.
  - induction l2 as [|o l2 IH]; [done|]. pose proof (H 0%nat) as H0. cbn in *. rewrite <- H0.
    apply IH. intros k. specialize (H (S k)). done.
  - destruct l2 as [|o2 l2].
    + pose proof (H 0%nat) as H0. cbn in *. rewrite H0. apply (IH []).
      intros k. specialize (H (S k)). done.
    + pose proof (H 0%nat) as H0. cbn in *. rewrite H0, (IH l2); [done|].
      intros k. apply (H (S k)).
Qed.

Lemma from_pos_ext ht ht' i : (forall k, (Z.to_nat i <= k)%nat -> slot_opt ht' k = slot_opt ht k) ->
  from_pos ht' i = from_pos ht i.
Proof.
  intros H. unfold from_pos. apply omap_id_ext. intros k. rewrite !lookup_drop. apply H. lia.
Qed.

Lemma before_pos_ext ht ht' i : (forall k, (k < Z.to_nat i)%nat -> slot_opt ht' k = slot_opt ht k) ->
  before_pos ht' i = before_pos ht i.
Proof.
  intros H. unfold before_pos. apply omap_id_ext. intros k.
  destruct (decide (k < Z.to_nat i)%nat).
  - rewrite !lookup_take_lt by done. by apply H.
  - by rewrite !lookup_take_ge by lia.
Qed.

Lemma slot_opt_hash ht k : f_packed ht = false ->
  slot_opt ht k = if decide (k < Z.to_nat (nNumUsed ht))%nat then zget (arData ht) (Z.of_nat k) ≫= bcore
                  else None.
Proof.
  intros Hp. unfold slot_opt, slot_list, pre, zget. rewrite Hp, list_lookup_fmap.
  rewrite (proj2 (Z.leb_le _ _)), Nat2Z.id by lia. case_decide.
  - rewrite lookup_take_lt by done. by destruct (arData ht !! k).
  - by rewrite lookup_take_ge by lia.
Qed.

Lemma slot_opt_packed ht k : f_packed ht = true ->
  slot_opt ht k = if decide (k < Z.to_nat (nNumUsed ht))%nat
                  then zget (arPacked ht) (Z.of_nat k) ≫= pcore_at k else None.
Proof.
  intros Hp. unfold slot_opt, slot_list, pre, zget. rewrite Hp, list_lookup_imap.
  rewrite (proj2 (Z.leb_le _ _)), Nat2Z.id by lia. case_decide.
  - rewrite lookup_take_lt by done. by destruct (arPacked ht !! k).
  - by rewrite lookup_take_ge by lia.
Qed.

(** [slots_upd ht ht' i o]: slot [i] becomes [o], no other slot changes. *)
Definition slots_upd (ht ht' : HashTable) (i : Z) (o : option core) : Prop :=
  slot_opt ht' (Z.to_nat i) = o /\ forall k, k <> Z.to_nat i -> slot_opt ht' k = slot_opt ht k.

Lemma from_pos_split ht i : 0 <= i ->
  from_pos ht i = match slot_opt ht (Z.to_nat i) with Some c => [c] | None => [] end
                  ++ from_pos ht (i + 1).
Proof.
  intros Hi. unfold slot_opt. destruct (slot_list ht !! Z.to_nat i) as [[c|]|] eqn:Hc; cbn.
  - by apply from_pos_step.
  - by apply from_pos_hole.
  - unfold from_pos. apply lookup_ge_None_1 in Hc. by rewrite !drop_ge by lia.
Qed.

Lemma slots_upd_pos ht ht' i o : 0 <= i -> slots_upd ht ht' i o ->
  before_pos ht' i = before_pos ht i /\ (forall k, i < k -> from_pos ht' k = from_pos ht k)
  /\ from_pos ht' i = match o with Some c => [c] | None => [] end ++ from_pos ht (i + 1).
Proof.
  intros Hi [Ho Hk]. assert (forall k, i < k -> from_pos ht' k = from_pos ht k) as Hf.
  { intros k Hik. apply from_pos_ext. intros n Hn. apply Hk. lia. }
  split_and!; [|done|].
  - apply before_pos_ext. intros n Hn. apply Hk. lia.
  - rewrite from_pos_split, Ho, Hf by lia. done.
Qed.

Lemma cores_at ht i : ht_cores ht = before_pos ht i ++ from_pos ht i.
Proof.
  unfold before_pos, from_pos. by rewrite <- omap_app, take_drop, slot_list_cores.
Qed.

(** ** Deleting the element of a slot *)

Lemma dead_slot_opt packed ht k : f_packed ht = packed -> 0 <= k -> dead_slot packed ht k ->
  slot_opt ht (Z.to_nat k) = None.
Proof.
  intros Hp Hk Hd. unfold dead_slot, slot_undef in Hd. destruct packed.
  - rewrite (slot_opt_packed ht _ Hp). case_decide; [|done]. rewrite Z2Nat.id by done.
    unfold rd in Hd. destruct (zget (arPacked ht) k) as [v|]; [|done]. cbn in *.
    injection Hd as Hd. unfold pcore_at. by rewrite Hd.
  - rewrite (slot_opt_hash ht _ Hp). case_decide; [|done]. rewrite Z2Nat.id by done.
    unfold rd in Hd. destruct (zget (arData ht) k) as [b|]; [|done]. cbn in *.
    injection Hd as Hd. unfold bcore, live. by rewrite Hd.
Qed.

Lemma slots_upd_hash ht ht' i n ip : f_packed ht = false -> 0 <= i < nNumUsed ht ->
  others_kept ht ht' i -> fixed false ht i n ip -> nNumUsed ht' = n -> slots_upd ht ht' i None.
Proof.
  intros Hp Hi (Hk & Hdead & Hp' & _) (Hn & Hd & _) Hu.
  assert (f_packed ht' = false) as Hp2 by congruence. split.
  - rewrite (slot_opt_hash ht' _ Hp2). case_decide; [|done]. rewrite Z2Nat.id by lia.
    destruct (zget (arData ht') i) as [b|]; [|done]. cbn. unfold bcore.
    by rewrite (Hdead b eq_refl).
  - intros k Hne. rewrite (slot_opt_hash ht' _ Hp2), (slot_opt_hash ht _ Hp).
    destruct (decide (k < Z.to_nat (nNumUsed ht'))%nat) as [Hlt|Hge].
    + rewrite decide_True by lia. specialize (Hk (Z.of_nat k) ltac:(lia)).
      destruct (zget (arData ht') (Z.of_nat k)), (zget (arData ht) (Z.of_nat k)); cbn in *; congruence.
    + destruct (decide (k < Z.to_nat (nNumUsed ht))%nat) as [Hlt|]; [|done].
      destruct (Hd (Z.of_nat k) ltac:(lia)) as [|Hdk]; [lia|].
      apply (dead_slot_opt false ht _ Hp) in Hdk; [|lia]. rewrite Nat2Z.id in Hdk.
      rewrite (slot_opt_hash ht _ Hp), decide_True in Hdk by done. done.
Qed.

Lemma slots_upd_packed ht ht' i n ip v : f_packed ht = true -> f_packed ht' = true ->
  0 <= i < nNumUsed ht -> zget (arPacked ht) i = Some v ->
  arPacked ht' = zset (arPacked ht) i IS_UNDEF -> fixed true ht i n ip -> nNumUsed ht' = n ->
  slots_upd ht ht' i None.
Proof.
  intros Hp Hp2 Hi Hv HP (Hn & Hd & _) Hu. pose proof (zget_Some_range _ _ _ Hv) as Hr. split.
  - rewrite (slot_opt_packed ht' _ Hp2). case_decide; [|done]. rewrite Z2Nat.id by lia.
    by rewrite HP, zget_zset_eq by done.
  - intros k Hne. rewrite (slot_opt_packed ht' _ Hp2), (slot_opt_packed ht _ Hp).
    destruct (decide (k < Z.to_nat (nNumUsed ht'))%nat) as [Hlt|Hge].
    + rewrite decide_True by lia. by rewrite HP, zget_zset_ne by lia.
    + destruct (decide (k < Z.to_nat (nNumUsed ht))%nat) as [Hlt|]; [|done].
      destruct (Hd (Z.of_nat k) ltac:(lia)) as [|Hdk]; [lia|].
      apply (dead_slot_opt true ht _ Hp) in Hdk; [|lia]. rewrite Nat2Z.id in Hdk.
      rewrite (slot_opt_packed ht _ Hp), decide_True in Hdk by done. done.
Qed.

Lemma live_slot_hash ht i c : f_packed ht = false -> live_slot ht i c ->
  exists b, at_index ht i b /\ c = (b_val b, b_h b, b_key b).
Proof.
  intros Hp (Hi & Hc & Hl & _). unfold slot_at in Hc. rewrite Hp in Hc.
  unfold rd in Hc. destruct (zget (arData ht) i) as [b|] eqn:Hb; [|done]. cbn in Hc.
  injection Hc as <-. exists b. split; [|done]. split_and!; try lia; [done|].
  unfold slot_list in Hl. rewrite Hp, list_lookup_fmap in Hl. unfold pre in Hl.
  rewrite lookup_take_lt in Hl by lia. unfold zget in Hb.
  rewrite (proj2 (Z.leb_le _ _)) in Hb by lia. rewrite Hb in Hl. cbn in Hl.
  unfold bcore in Hl. by destruct (live b).
Qed.

Lemma live_slot_packed ht i c : f_packed ht = true -> live_slot ht i c ->
  exists v, zget (arPacked ht) i = Some v /\ v <> IS_UNDEF /\ c = (v, i, None).
Proof.
  intros Hp (Hi & Hc & Hl & _). unfold slot_at in Hc. rewrite Hp in Hc.
  unfold rd in Hc. destruct (zget (arPacked ht) i) as [v|] eqn:Hv; [|done]. cbn in Hc.
  injection Hc as <-. exists v. split_and!; [done| |done]. intros ->.
  unfold slot_list in Hl. rewrite Hp, list_lookup_imap in Hl. unfold pre in Hl.
  rewrite lookup_take_lt in Hl by lia. unfold zget in Hv.
  rewrite (proj2 (Z.leb_le _ _)) in Hv by lia. by rewrite Hv in Hl.
Qed.

Lemma live_not_uninit ht i c : ht_inv ht -> live_slot ht i c -> f_uninit ht = false.
Proof.
  intros Hinv (Hi & _). destruct (inv_layout _ Hinv) as [_ _ _ _ Hu|Hun _ _ _ _ _|Hm];
    [lia|done|apply Hm].
Qed.

(** [raw_upd]: among all allocated slots only [i] changes, and it becomes dead. *)
Definition raw_upd (ht ht' : HashTable) (i : Z) : Prop :=
  slot_undef (f_packed ht) ht' i = Ok true
  /\ forall k, k <> i -> slot_undef (f_packed ht) ht' k = slot_undef (f_packed ht) ht k.

Lemma raw_upd_packed ht ht' i v : f_packed ht = true -> zget (arPacked ht) i = Some v ->
  arPacked ht' = zset (arPacked ht) i IS_UNDEF -> raw_upd ht ht' i.
Proof.
  intros Hp Hv HP. pose proof (zget_Some_range _ _ _ Hv) as Hr.
  unfold raw_upd, slot_undef, rd. rewrite Hp, HP. split.
  - by rewrite zget_zset_eq.
  - intros k Hk. by rewrite zget_zset_ne by lia.
Qed.

Lemma raw_upd_hash ht ht' i b : f_packed ht = false -> zget (arData ht') i = Some b ->
  others_kept ht ht' i -> raw_upd ht ht' i.
Proof.
  intros Hp Hb (Hk & Hd & _). unfold raw_upd, slot_undef, rd. rewrite Hp. split.
  - rewrite Hb. cbn. pose proof (Hd _ Hb) as Hl. unfold live in Hl.
    by destruct (is_undef (b_val b)).
  - intros k Hne. specialize (Hk k Hne). unfold bcore, live in Hk.
    destruct (zget (arData ht') k) as [b1|], (zget (arData ht) k) as [b2|]; cbn in *; try done.
    by destruct (is_undef (b_val b1)), (is_undef (b_val b2)).
Qed.

(** Deleting the element of slot [i] by either deletion function. *)
Lemma del_slot_ok w ht i c : ht_inv ht -> live_slot ht i c ->
  exists w' ht', del_slot w ht i = Ok (w', ht') /\ ht_inv ht' /\ slots_upd ht ht' i None
    /\ w_trace w' = w_trace w ++ del_events (pDestructor ht) c.1.1 c.2 /\ w_ind w' = w_ind w
    /\ f_packed ht' = f_packed ht /\ f_uninit ht' = f_uninit ht /\ pDestructor ht' = pDestructor ht
    /\ nNumUsed ht' <= nNumUsed ht /\ raw_upd ht ht' i.
Proof.
  intros Hinv Hl. pose proof (live_not_uninit _ _ _ Hinv Hl) as Hun. unfold del_slot.
  pose proof Hl as (Hi & _). destruct (f_packed ht) eqn:Hp.
  - destruct (live_slot_packed ht i c Hp Hl) as (v & Hv & Hne & ->).
    destruct (inv_layout _ Hinv) as [? ? ? ? ?|_ _ Hm Ha Hlen Hnf|Hm]; [congruence| |
      pose proof (mx_packed _ _ Hm); congruence].
    destruct (packed_del_ok w ht i v) as (w' & ht' & Hd & (Hinv' & _ & Ht & Hind) & HP & Hp' & Hun' & Hdt
      & n & ip & Hf & Hn); try done.
    exists w', ht'. split_and!; try done; [by eapply slots_upd_packed| |by eapply raw_upd_packed].
    destruct Hf as (? & _). lia.
  - destruct (live_slot_hash ht i c Hp Hl) as (b & Hat & ->).
    destruct (zend_hash_del_bucket_ok w ht i b Hinv Hp Hun Hat)
      as (w' & ht' & Hd & (Hinv' & _ & Ht & Hind) & Hk & n & ip & Hf & Hn & _).
    pose proof Hk as (_ & _ & Hp' & Hun' & Hdt & b' & Hb'). exists w', ht'. split_and!; try done.
    + by eapply slots_upd_hash.
    + congruence.
    + destruct Hf as (? & _). lia.
    + by eapply raw_upd_hash.
Qed.

(** ** Overwriting the value of a slot *)

Definition with_zval (v : zval) (c : core) : core := (v, c.1.2, c.2).

Lemma set_slot_ok w ht i c v : ht_inv ht -> live_slot ht i c -> v <> IS_UNDEF ->
  exists ht', zptr_set w ht (slot_ptr ht i) v = Ok (w, ht') /\ ht_inv ht'
    /\ slots_upd ht ht' i (Some (with_zval v c)) /\ live_slot ht' i (with_zval v c)
    /\ f_packed ht' = f_packed ht /\ f_uninit ht' = f_uninit ht /\ pDestructor ht' = pDestructor ht
    /\ nNumUsed ht' = nNumUsed ht
    /\ (forall k, slot_undef (f_packed ht) ht' k = slot_undef (f_packed ht) ht k).
Proof.
  intros Hinv Hl Hv. pose proof Hl as (Hi & _). pose proof (inv_used _ Hinv) as Hus.
  pose proof (live_not_uninit _ _ _ Hinv Hl) as Hun. unfold slot_ptr.
  assert (forall ht', ht_inv ht' -> f_packed ht' = f_packed ht -> nNumUsed ht' = nNumUsed ht ->
    slots_upd ht ht' i (Some (with_zval v c)) -> live_slot ht' i (with_zval v c)) as Hlive.
  { intros ht' Hinv' Hp' Hn' [Ho _]. pose proof (inv_slots _ Hinv') as Hs'.
    destruct (slot_cases ht' i Hs' ltac:(lia)) as [[_ Hno]|(c' & _ & Hl')].
    - unfold slot_opt in Ho. by rewrite Hno in Ho.
    - destruct (Hl') as (_ & _ & Hc' & _). unfold slot_opt in Ho. rewrite Hc' in Ho. cbn in Ho.
      by simplify_eq. }
  destruct (f_packed ht) eqn:Hp.
  - destruct (live_slot_packed ht i c Hp Hl) as (old & Hold & Hne & ->).
    destruct (set_packed_spec w ht i old v Hinv Hp Hi Hold Hne Hv) as (ht' & Hset & Hinv' & _).
    exists ht'. pose proof (zget_Some_range _ _ _ Hold) as Hr.
    cbn in Hset. rewrite wr_ok, bind_ok in Hset by done. injection Hset as <-.
    assert (slots_upd ht (set_arPacked (zset (arPacked ht) i v) ht) i (Some (with_zval v (old, i, None)))) as Hup.
    { split; [|intros k Hk]; rewrite !slot_opt_packed by done; cbn.
      - rewrite decide_True, Z2Nat.id, zget_zset_eq by lia. cbn. unfold pcore_at.
        rewrite Z2Nat.id by lia. by destruct v.
      - by rewrite zget_zset_ne by lia. }
    split_and!; try done; [cbn; by rewrite wr_ok|by apply Hlive|].
    intros k. unfold slot_undef, rd. cbn. destruct (Z.eq_dec i k) as [<-|];
      [rewrite zget_zset_eq, Hold by done; by destruct v, old|by rewrite zget_zset_ne by lia].
  - destruct (live_slot_hash ht i c Hp Hl) as (b & Hat & ->). pose proof Hat as (_ & Hb & _).
    destruct (inv_layout _ Hinv) as [? ? ? ? ?|? ? ? ? ? ?|Hm]; [congruence..|].
    destruct (set_val_spec w ht _ i b v Hm (inv_side _ Hinv) Hat Hv) as (ht' & Hset & Hinv' & _).
    exists ht'. pose proof (zget_Some_range _ _ _ Hb) as Hr. split; [done|].
    cbn in Hset. rewrite (rd_ok _ _ _ Hb), bind_ok, wr_ok, bind_ok in Hset by done. injection Hset as <-.
    assert (slots_upd ht (set_arData (zset (arData ht) i (with_val v b)) ht) i
      (Some (with_zval v (b_val b, b_h b, b_key b)))) as Hup.
    { split; [|intros k Hk]; rewrite !slot_opt_hash by done; cbn.
      - rewrite decide_True, Z2Nat.id, zget_zset_eq by lia. cbn. unfold bcore, live. cbn. by destruct v.
      - by rewrite zget_zset_ne by lia. }
    split_and!; try done; [by apply Hlive|]. destruct Hat as (_ & _ & Hlb).
    intros k. unfold slot_undef, rd. cbn. destruct (Z.eq_dec i k) as [<-|];
      [rewrite zget_zset_eq, Hb by done; cbn|by rewrite zget_zset_ne by lia].
    unfold live in Hlb. by destruct v, (b_val b).
Qed.

(** ** The apply loops *)

Section Loop.
Context {S : Type} (f : S -> core -> S * zval * Z).
Hypothesis f_value : forall s c, (f s c).1.2 <> IS_UNDEF.

(** The effect on the entries, in order: each is given its new value, or
    removed with its events; the rest is untouched after a stop. *)
Fixpoint applied (dtor : bool) (s : S) (cs : list core) : S * list core * list event :=
  match cs with
  | [] => (s, [], [])
  | c :: cs =>
      let '(s, v, r) := f s c in
      let keep := if has_flag r ZEND_HASH_APPLY_REMOVE then [] else [with_zval v c] in
      let evs := if has_flag r ZEND_HASH_APPLY_REMOVE then del_events dtor v c.2 else [] in
      if has_flag r ZEND_HASH_APPLY_STOP then (s, keep ++ cs, evs)
      else let '(s, cs, evs') := applied dtor s cs in (s, keep ++ cs, evs ++ evs')
  end.

(** One step of either loop, at a slot in use. *)
Lemma apply_at_live s w ht i c s' v r : ht_inv ht -> live_slot ht i c -> f s c = (s', v, r) ->
  exists w' ht', apply_at f s w ht i
      = Ok (negb (has_flag r ZEND_HASH_APPLY_STOP), s', w', ht')
    /\ ht_inv ht' /\ nNumUsed ht' <= nNumUsed ht /\ pDestructor ht' = pDestructor ht
    /\ slots_upd ht ht' i (if has_flag r ZEND_HASH_APPLY_REMOVE then None else Some (with_zval v c))
    /\ w_trace w' = w_trace w ++ (if has_flag r ZEND_HASH_APPLY_REMOVE
                                  then del_events (pDestructor ht) v c.2 else [])
    /\ w_ind w' = w_ind w /\ f_packed ht' = f_packed ht
    /\ forall k, k <> i -> slot_undef (f_packed ht) ht' k = slot_undef (f_packed ht) ht k.
Proof.
  intros Hinv Hl Hf. pose proof (f_value s c) as Hv. rewrite Hf in Hv. cbn in Hv.
  assert (is_undef c.1.1 = false) as Hu.
  { destruct Hl as (Hi & Hc & Hs & _). destruct (slot_list_get ht i (inv_slots _ Hinv) Hi)
      as (c' & Hc' & _ & Hs' & _). assert (c' = c) as -> by congruence.
    destruct (is_undef c.1.1); [congruence|done]. }
  destruct (set_slot_ok w ht i c v Hinv Hl Hv) as (ht1 & Hset & Hinv1 & Hup1 & Hl1 & Hp1 & Hun1 & Hd1 & Hn1 & Hraw1).
  unfold apply_at. destruct Hl as (Hi & -> & _). rewrite bind_ok, Hu, Hf, Hset, bind_ok.
  destruct (has_flag r ZEND_HASH_APPLY_REMOVE).
  - destruct (del_slot_ok w ht1 i _ Hinv1 Hl1) as (w2 & ht2 & -> & Hinv2 & [Ho2 Hk2] & Ht & Hind & Hp2 & _ & Hd2 & Hn2 & _ & Hraw2).
    rewrite bind_ok. exists w2, ht2. destruct Hup1 as [_ Hk1].
    split_and!; try done; try lia; try congruence.
    + split; [done|]. intros k Hk. rewrite Hk2, Hk1 by done. done.
    + by rewrite Ht, Hd1.
    + intros k Hk. rewrite Hp1 in Hraw2. by rewrite Hraw2, Hraw1.
  - exists w, ht1. split_and!; try done; try lia. by rewrite app_nil_r.
Qed.

Lemma apply_loop_end s w ht idx : ht_inv ht -> nNumUsed ht <= idx ->
  exists w' ht', Ok (s, w, ht) = Ok ((applied (pDestructor ht) s (from_pos ht idx)).1.1, w', ht')
    /\ ht_inv ht' /\ ht_cores ht' = before_pos ht idx ++ (applied (pDestructor ht) s (from_pos ht idx)).1.2
    /\ w_trace w' = w_trace w ++ (applied (pDestructor ht) s (from_pos ht idx)).2
    /\ w_ind w' = w_ind w.
Proof.
  intros Hinv Hidx. pose proof (inv_used _ Hinv). exists w, ht.
  rewrite (cores_at ht idx), from_pos_end by (try lia; by apply inv_slots). cbn.
  rewrite !app_nil_r. by split_and!.
Qed.

Lemma apply_loop_ok fuel : forall s w ht idx, ht_inv ht -> 0 <= idx ->
  (Z.to_nat (nNumUsed ht - idx) <= fuel)%nat ->
  exists w' ht', apply_loop f fuel s w ht idx
      = Ok ((applied (pDestructor ht) s (from_pos ht idx)).1.1, w', ht')
    /\ ht_inv ht' /\ ht_cores ht' = before_pos ht idx ++ (applied (pDestructor ht) s (from_pos ht idx)).1.2
    /\ w_trace w' = w_trace w ++ (applied (pDestructor ht) s (from_pos ht idx)).2
    /\ w_ind w' = w_ind w.
Proof.
  induction fuel as [|fuel IH]; intros s w ht idx Hinv Hidx Hf; cbn [apply_loop].
  { rewrite (proj2 (Z.ltb_ge _ _)) by lia. apply apply_loop_end; [done|lia]. }
  destruct (Z.ltb_spec idx (nNumUsed ht)) as [Hlt|Hge];
    [|by apply apply_loop_end].
  destruct (slot_cases ht idx (inv_slots _ Hinv) ltac:(lia)) as [[_ Hno]|(c & _ & Hl)].
  - (* hole *) destruct (slot_list_get ht idx (inv_slots _ Hinv) ltac:(lia)) as (c & Hc & _ & Hs & _).
    unfold apply_at. rewrite Hc, bind_ok. rewrite Hno in Hs. destruct (is_undef c.1.1); [|done].
    rewrite bind_ok. destruct (IH s w ht (idx + 1) Hinv ltac:(lia) ltac:(lia)) as (w' & ht' & -> & H1 & H2 & H3 & H4).
    rewrite (from_pos_hole ht idx Hno) by lia. exists w', ht'. split_and!; try done. rewrite H2.
    rewrite (before_pos_step ht idx _ Hno) by lia. by rewrite app_nil_r.
  - destruct (f s c) as [[s' v] r] eqn:Hfs.
    destruct (apply_at_live s w ht idx c s' v r Hinv Hl Hfs)
      as (w1 & ht1 & -> & Hinv1 & Hn1 & Hd1 & Hup & Ht1 & Hind1 & _).
    rewrite bind_ok. destruct Hl as (Hi & _ & Hsl & _).
    destruct (slots_upd_pos _ _ _ _ Hidx Hup) as (Hb & Hfr & Hfi).
    rewrite (from_pos_step ht idx c Hsl Hidx). cbn [applied]. rewrite Hfs.
    set (keep := if has_flag r ZEND_HASH_APPLY_REMOVE then [] else [with_zval v c]).
    assert (match (if has_flag r ZEND_HASH_APPLY_REMOVE then None else Some (with_zval v c)) with
            | Some c => [c] | None => [] end = keep) as Hkeep
      by (unfold keep; by destruct (has_flag r ZEND_HASH_APPLY_REMOVE)).
    rewrite Hkeep in Hfi. destruct (has_flag r ZEND_HASH_APPLY_STOP); cbn [negb].
    + exists w1, ht1. split_and!; try done. by rewrite (cores_at ht1 idx), Hb, Hfi.
    + destruct (IH s' w1 ht1 (idx + 1) Hinv1 ltac:(lia) ltac:(lia)) as (w' & ht' & -> & H1 & H2 & H3 & H4).
      rewrite Hfr, Hd1 in * by lia. destruct (applied (pDestructor ht) s' (from_pos ht (idx + 1))) as [[s2 cs2] ev2].
      cbn in *. exists w', ht'. split_and!; try done; [| |congruence].
      * rewrite H2. rewrite app_assoc. f_equal.
        pose proof (cores_at ht1 idx) as Hc1. rewrite (cores_at ht1 (idx + 1)), Hb, Hfi in Hc1.
        rewrite Hfr, app_assoc in Hc1 by lia. by apply app_inv_tail in Hc1.
      * by rewrite H3, Ht1, app_assoc.
Qed.

(** *** Backwards

    After a deletion the loop may pass over slots beyond the new nNumUsed: they
    are still allocated and dead. *)
Definition tail_dead (ht : HashTable) (n : Z) : Prop :=
  forall k, nNumUsed ht <= k < n -> slot_undef (f_packed ht) ht k = Ok true.

Lemma slot_at_undef ht i u : slot_undef (f_packed ht) ht i = Ok u ->
  exists c, slot_at ht i = Ok c /\ is_undef c.1.1 = u.
Proof.
  unfold slot_undef, slot_at. destruct (f_packed ht).
  - destruct (rd (arPacked ht) i) as [v| |]; cbn; intros [= <-]. by exists (v, i, None).
  - destruct (rd (arData ht) i) as [b| |]; cbn; intros [= <-]. by exists (b_val b, b_h b, b_key b).
Qed.

Lemma before_pos_split ht i : 0 <= i ->
  before_pos ht (i + 1) = before_pos ht i
    ++ match slot_opt ht (Z.to_nat i) with Some c => [c] | None => [] end.
Proof.
  intros Hi. unfold slot_opt. destruct (slot_list ht !! Z.to_nat i) as [o|] eqn:Hc; cbn.
  - by rewrite (before_pos_step ht i o).
  - unfold before_pos. apply lookup_ge_None_1 in Hc. by rewrite !take_ge, app_nil_r by lia.
Qed.

(** The slot below a dead tail is in use, or is a hole. *)
Lemma tail_cases ht i : ht_inv ht -> 0 <= i -> tail_dead ht (i + 1) ->
  (slot_undef (f_packed ht) ht i = Ok true /\ slot_opt ht (Z.to_nat i) = None)
  \/ exists c, slot_undef (f_packed ht) ht i = Ok false /\ live_slot ht i c
       /\ slot_opt ht (Z.to_nat i) = Some c.
Proof.
  intros Hinv Hi Htd. pose proof (inv_used _ Hinv). pose proof (inv_slots _ Hinv) as Hs.
  destruct (Z.lt_ge_cases i (nNumUsed ht)).
  - destruct (slot_cases ht i Hs ltac:(lia)) as [[Hu Hno]|(c & Hu & Hl)].
    + left. unfold slot_opt. by rewrite Hno.
    + right. exists c. split_and!; [done|done|]. destruct Hl as (_ & _ & Hl & _).
      unfold slot_opt. by rewrite Hl.
  - left. split; [apply Htd; lia|]. unfold slot_opt.
    rewrite lookup_ge_None_2; [done|]. rewrite length_slot_list; [lia|done|lia].
Qed.

Lemma tail_dead_upd ht ht' i o : ht_inv ht -> 0 <= i -> tail_dead ht (i + 1) ->
  slots_upd ht ht' i o -> f_packed ht' = f_packed ht ->
  (forall k, k <> i -> slot_undef (f_packed ht) ht' k = slot_undef (f_packed ht) ht k) ->
  ht_inv ht' -> tail_dead ht' i.
Proof.
  intros Hinv Hi Htd [_ Hup] Hp Hraw Hinv' k Hk. rewrite Hp, Hraw by lia.
  pose proof (inv_used _ Hinv'). destruct (Z.lt_ge_cases k (nNumUsed ht)); [|apply Htd; lia].
  destruct (slot_cases ht k (inv_slots _ Hinv) ltac:(lia)) as [[Hu _]|(c & _ & (_ & _ & Hl & _))]; [done|].
  exfalso. specialize (Hup (Z.to_nat k) ltac:(lia)). unfold slot_opt in Hup. rewrite Hl in Hup.
  rewrite lookup_ge_None_2 in Hup; [done|]. rewrite length_slot_list; [lia| |lia].
  by apply inv_slots.
Qed.

Lemma tail_dead_le ht n m : m <= n -> tail_dead ht n -> tail_dead ht m.
Proof. intros Hm Ht k Hk. apply Ht. lia. Qed.

Lemma reverse_apply_loop_ok n : forall s w ht, ht_inv ht -> tail_dead ht (Z.of_nat n) ->
  exists w' ht', reverse_apply_loop f n s w ht
      = Ok ((applied (pDestructor ht) s (rev (before_pos ht (Z.of_nat n)))).1.1, w', ht')
    /\ ht_inv ht'
    /\ ht_cores ht' = rev (applied (pDestructor ht) s (rev (before_pos ht (Z.of_nat n)))).1.2
                       ++ from_pos ht (Z.of_nat n)
    /\ w_trace w' = w_trace w ++ (applied (pDestructor ht) s (rev (before_pos ht (Z.of_nat n)))).2
    /\ w_ind w' = w_ind w.
Proof.
  induction n as [|n IH]; intros s w ht Hinv Htd; cbn [reverse_apply_loop].
  { exists w, ht. change (before_pos ht (Z.of_nat 0)) with (@nil core). cbn.
    rewrite app_nil_r, from_pos_0. by split_and!. }
  rewrite Nat2Z.inj_succ, <- Z.add_1_r in *. rewrite before_pos_split by lia.
  destruct (tail_cases ht (Z.of_nat n) Hinv ltac:(lia) Htd) as [[Hu Ho]|(c & Hu & Hl & Ho)]; rewrite Ho.
  - destruct (slot_at_undef _ _ _ Hu) as (c & Hc & Hcu). unfold apply_at. rewrite Hc, bind_ok, Hcu, bind_ok.
    destruct (IH s w ht Hinv) as (w' & ht' & -> & H1 & H2 & H3 & H4); [apply (tail_dead_le ht (Z.of_nat n + 1)); [lia|done]|].
    rewrite app_nil_r. exists w', ht'. split_and!; try done. rewrite H2.
    by rewrite (from_pos_split ht (Z.of_nat n)), Ho by lia.
  - destruct (f s c) as [[s' v] r] eqn:Hfs.
    destruct (apply_at_live s w ht _ c s' v r Hinv Hl Hfs)
      as (w1 & ht1 & -> & Hinv1 & Hn1 & Hd1 & Hup & Ht1 & Hind1 & Hp1 & Hraw1).
    rewrite bind_ok, rev_app_distr. cbn [rev app applied]. rewrite Hfs.
    destruct (slots_upd_pos ht ht1 (Z.of_nat n) _ ltac:(lia) Hup) as (Hb & Hfr & Hfi).
    set (keep := if has_flag r ZEND_HASH_APPLY_REMOVE then [] else [with_zval v c]).
    assert (match (if has_flag r ZEND_HASH_APPLY_REMOVE then None else Some (with_zval v c)) with
            | Some c => [c] | None => [] end = keep) as Hkeep
      by (unfold keep; by destruct (has_flag r ZEND_HASH_APPLY_REMOVE)).
    assert (rev keep = keep) as Hrk by (unfold keep; by destruct (has_flag r ZEND_HASH_APPLY_REMOVE)).
    rewrite Hkeep in Hfi. destruct (has_flag r ZEND_HASH_APPLY_STOP); cbn [negb].
    + exists w1, ht1. split_and!; try done. rewrite (cores_at ht1 (Z.of_nat n)), Hb, Hfi. cbn.
      rewrite rev_app_distr, rev_involutive, Hrk. by rewrite app_assoc.
    + destruct (IH s' w1 ht1 Hinv1) as (w' & ht' & -> & H1 & H2 & H3 & H4);
        [by apply (tail_dead_upd ht ht1 (Z.of_nat n) _ Hinv ltac:(lia) Htd Hup Hp1 Hraw1)|].
      rewrite Hb, Hfi, Hd1 in *.
      destruct (applied (pDestructor ht) s' (rev (before_pos ht (Z.of_nat n)))) as [[s2 cs2] ev2].
      cbn in *. exists w', ht'. split_and!; try done; [| |congruence].
      * rewrite H2, rev_app_distr, Hrk. by rewrite app_assoc.
      * by rewrite H3, Ht1, app_assoc.
Qed.
End Loop.

(** ** Graceful destruction *)

Definition all_del_events (dtor : bool) (cs : list core) : list event :=
  c ← cs; del_events dtor c.1.1 c.2.

Lemma graceful_loop_ok fuel : forall w ht idx, ht_inv ht -> 0 <= idx ->
  (Z.to_nat (nNumUsed ht - idx) <= fuel)%nat ->
  exists w' ht', graceful_loop fuel w ht idx = Ok (w', ht') /\ ht_inv ht'
    /\ ht_cores ht' = before_pos ht idx /\ f_uninit ht' = f_uninit ht
    /\ w_trace w' = w_trace w ++ all_del_events (pDestructor ht) (from_pos ht idx).
Proof.
  assert (forall w ht idx, ht_inv ht -> nNumUsed ht <= idx -> exists w' ht',
    Ok (w, ht) = Ok (w', ht') /\ ht_inv ht' /\ ht_cores ht' = before_pos ht idx
    /\ f_uninit ht' = f_uninit ht
    /\ w_trace w' = w_trace w ++ all_del_events (pDestructor ht) (from_pos ht idx)) as Hend.
  { intros w ht idx Hinv Hi. pose proof (inv_used _ Hinv). exists w, ht.
    rewrite (cores_at ht idx), from_pos_end by (try lia; by apply inv_slots). cbn.
    rewrite !app_nil_r. by split_and!. }
  induction fuel as [|fuel IH]; intros w ht idx Hinv Hidx Hf; cbn [graceful_loop].
  { rewrite (proj2 (Z.ltb_ge _ _)) by lia. apply Hend; [done|lia]. }
  destruct (Z.ltb_spec idx (nNumUsed ht)) as [Hlt|Hge]; [|by apply Hend].
  destruct (slot_cases ht idx (inv_slots _ Hinv) ltac:(lia)) as [[Hu Hno]|(c & Hu & Hl)];
    rewrite Hu, bind_ok.
  - destruct (IH w ht (idx + 1) Hinv ltac:(lia) ltac:(lia)) as (w' & ht' & H0 & H1 & H2 & H3 & H4).
    rewrite bind_ok, H0. exists w', ht'. rewrite (from_pos_hole ht idx Hno) by lia.
    split_and!; try done. by rewrite H2, (before_pos_step ht idx _ Hno), app_nil_r by lia.
  - destruct (del_slot_ok w ht idx c Hinv Hl) as (w1 & ht1 & -> & Hinv1 & Hup & Ht & _ & _ & Hun1 & Hd1 & Hn1 & _).
    rewrite bind_ok. destruct (slots_upd_pos _ _ _ _ Hidx Hup) as (Hb & Hfr & Hfi).
    destruct (IH w1 ht1 (idx + 1) Hinv1 ltac:(lia) ltac:(lia)) as (w' & ht' & H0 & H1 & H2 & H3 & H4).
    destruct Hl as (_ & _ & Hsl & _). rewrite (from_pos_step ht idx c Hsl Hidx).
    exists w', ht'. split_and!; try done; [|congruence|].
    + destruct Hup as [Ho _]. by rewrite H2, before_pos_split, Ho, app_nil_r, Hb by lia.
    + rewrite H4, Ht, Hd1, Hfr by lia. unfold all_del_events. cbn. by rewrite app_assoc.
Qed.

Lemma graceful_reverse_loop_ok n : forall w ht, ht_inv ht -> tail_dead ht (Z.of_nat n) ->
  exists w' ht', graceful_reverse_loop n w ht = Ok (w', ht') /\ ht_inv ht'
    /\ ht_cores ht' = from_pos ht (Z.of_nat n) /\ f_uninit ht' = f_uninit ht
    /\ w_trace w' = w_trace w ++ all_del_events (pDestructor ht) (rev (before_pos ht (Z.of_nat n))).
Proof.
  induction n as [|n IH]; intros w ht Hinv Htd; cbn [graceful_reverse_loop].
  { exists w, ht. change (before_pos ht (Z.of_nat 0)) with (@nil core). cbn.
    rewrite app_nil_r, from_pos_0. by split_and!. }
  rewrite Nat2Z.inj_succ, <- Z.add_1_r in *. rewrite before_pos_split by lia.
  destruct (tail_cases ht (Z.of_nat n) Hinv ltac:(lia) Htd) as [[Hu Ho]|(c & Hu & Hl & Ho)];
    rewrite Ho, Hu, bind_ok.
  - rewrite bind_ok, app_nil_r. destruct (IH w ht Hinv) as (w' & ht' & -> & H1 & H2 & H3 & H4);
      [apply (tail_dead_le ht (Z.of_nat n + 1)); [lia|done]|].
    exists w', ht'. split_and!; try done. by rewrite H2, (from_pos_split ht (Z.of_nat n)), Ho by lia.
  - destruct (del_slot_ok w ht _ c Hinv Hl)
      as (w1 & ht1 & -> & Hinv1 & Hup & Ht & _ & Hp1 & Hun1 & Hd1 & Hn1 & _ & Hraw).
    rewrite bind_ok. destruct (slots_upd_pos ht ht1 (Z.of_nat n) _ ltac:(lia) Hup) as (Hb & Hfr & Hfi).
    destruct (IH w1 ht1 Hinv1) as (w' & ht' & -> & H1 & H2 & H3 & H4);
      [by apply (tail_dead_upd ht ht1 (Z.of_nat n) _ Hinv ltac:(lia) Htd Hup Hp1 Hraw)|].
    exists w', ht'. split_and!; try done; [|congruence|].
    + by rewrite H2, Hfi.
    + rewrite H4, Ht, Hd1, Hb, rev_app_distr. unfold all_del_events. cbn. by rewrite app_assoc.
Qed.
End Apply.

(** ** Emptying and destroying a table *)

Section Clean.
Context {E : ZendEnv}.

(** The events of destroying an entry as a whole table is destroyed: first the
    value, then the key, unless all keys are static. *)
Definition drop_events (dtor keys : bool) (c : core) : list event :=
  (if dtor then [EvDtor c.1.1] else [])
  ++ (if keys then match c.2 with Some k => [EvRelease k] | None => [] end else []).

Definition all_drop_events (dtor keys : bool) (cs : list core) : list event :=
  c ← cs; drop_events dtor keys c.

Lemma release_opt_trace key w :
  w_trace (release_opt key w)
  = w_trace w ++ match key with Some k => [EvRelease k] | None => [] end.
Proof. destruct key; cbn; [done|by rewrite app_nil_r]. Qed.

(** A loop over the buckets that skips the dead ones, or that has none to skip. *)
Lemma dtor_buckets_trace (check keys : bool) D w :
  (check = false -> forall b, b ∈ D -> live b = true) ->
  w_trace (dtor_buckets check keys D w)
  = w_trace w ++ all_drop_events true keys (cores D).
Proof.
  unfold dtor_buckets. revert w. induction D as [|b D IH]; intros w Hl; cbn [fold_left].
  { cbn. by rewrite app_nil_r. }
  rewrite IH by (intros Hc b' Hb'; apply Hl; [done|by right]). rewrite cores_cons.
  destruct (check && is_undef (b_val b)) eqn:Hd.
  - apply andb_prop in Hd as [_ Hd]. rewrite bcore_dead by (unfold live; by rewrite Hd). done.
  - assert (live b = true) as Hlb.
    { destruct check; [|by apply Hl; [|left]]. cbn in Hd. unfold live. by rewrite Hd. }
    rewrite bcore_live by done. cbn. unfold drop_events. cbn.
    destruct keys; [rewrite release_opt_trace|]; cbn; by rewrite <- !app_assoc.
Qed.

Lemma dtor_zvals_trace check P w :
  (check = false -> forall v, v ∈ P -> v <> IS_UNDEF) ->
  w_trace (dtor_zvals check P w) = w_trace w ++ all_drop_events true false (pcores P).
Proof.
  unfold dtor_zvals. rewrite pcores_from_0. generalize 0%nat as o. revert w.
  induction P as [|v P IH]; intros w o Hl; cbn [fold_left].
  { cbn. by rewrite app_nil_r. }
  rewrite (IH _ (S o)) by (intros Hc v' Hv'; apply Hl; [done|by right]).
  rewrite pcores_from_cons. destruct (check && is_undef v) eqn:Hd.
  - apply andb_prop in Hd as [_ ->]. done.
  - assert (is_undef v = false) as ->.
    { destruct check; [done|]. pose proof (Hl eq_refl v ltac:(by left)). by destruct v. }
    cbn. by rewrite <- app_assoc.
Qed.

Lemma used_buckets_pre ht : used_buckets ht = pre (nNumUsed ht) (arData ht).
Proof. done. Qed.

(** Without holes every bucket, or every value, is live. *)
Lemma no_holes_live ht : mixed ht (ht_cores ht) -> HT_IS_WITHOUT_HOLES ht = true ->
  forall b, b ∈ used_buckets ht -> live b = true.
Proof.
  intros Hm Hh b Hb. apply Z.eqb_eq in Hh. destruct (mx_geom _ _ Hm) as [_ _ Hd Hu].
  apply list_elem_of_lookup in Hb as [i Hi]. pose proof (lookup_lt_Some _ _ _ Hi) as Hlt.
  unfold used_buckets in Hi, Hlt. rewrite length_take in Hlt. rewrite lookup_take_lt in Hi by lia.
  eapply (cores_full (arData ht) (nNumUsed ht) (Z.of_nat i)).
  - rewrite (mx_cores _ _ Hm), zlen_pre by lia. rewrite <- (mx_count _ _ Hm). lia.
  - lia.
  - unfold zget. by rewrite (proj2 (Z.leb_le _ _)), Nat2Z.id by lia.
Qed.

Lemma no_holes_packed ht : ht_inv ht -> f_packed ht = true -> zlen (arPacked ht) = nTableSize ht ->
  HT_IS_WITHOUT_HOLES ht = true -> forall v, v ∈ used_zvals ht -> v <> IS_UNDEF.
Proof.
  intros Hinv Hp Hl Hh v Hv ->. apply Z.eqb_eq in Hh. pose proof (inv_used _ Hinv) as Hu.
  apply list_elem_of_lookup in Hv as [i Hi]. pose proof (lookup_lt_Some _ _ _ Hi) as Hlt.
  unfold used_zvals in Hi, Hlt. rewrite length_take in Hlt. rewrite lookup_take_lt in Hi by lia.
  pose proof (pcores_hole (arPacked ht) (nNumUsed ht) (Z.of_nat i)) as Hhole.
  unfold zget in Hhole. rewrite (proj2 (Z.leb_le _ _)), Nat2Z.id in Hhole by lia.
  specialize (Hhole ltac:(lia) ltac:(lia) Hi).
  pose proof (inv_count _ Hinv) as Hc. unfold ht_cores in Hc. rewrite Hp in Hc.
  change (take (Z.to_nat (nNumUsed ht))) with (@pre zval (nNumUsed ht)) in Hc. lia.
Qed.

Lemma dtor_hash_trace w ht : mixed ht (ht_cores ht) -> pDestructor ht = true ->
  w_trace (dtor_hash w ht)
  = w_trace w ++ all_drop_events true (negb (f_static ht)) (ht_cores ht).
Proof.
  intros Hm Hd. pose proof (mx_cores _ _ Hm) as Hc. unfold dtor_hash, HT_HAS_STATIC_KEYS_ONLY.
  rewrite Hd, (mx_packed _ _ Hm). cbn [orb].
  assert (forall check keys, (check = false -> HT_IS_WITHOUT_HOLES ht = true) ->
    w_trace (dtor_buckets check keys (used_buckets ht) w)
    = w_trace w ++ all_drop_events true keys (ht_cores ht)) as H.
  { intros check keys Hch. rewrite dtor_buckets_trace; [by rewrite used_buckets_pre, Hc|].
    intros Hf. by apply no_holes_live; [|apply Hch]. }
  destruct (f_static ht), (HT_IS_WITHOUT_HOLES ht) eqn:Hh; apply H; done.
Qed.

Lemma dtor_packed_trace w ht : ht_inv ht -> f_packed ht = true -> zlen (arPacked ht) = nTableSize ht ->
  pDestructor ht = true ->
  w_trace (dtor_packed w ht) = w_trace w ++ all_drop_events true false (ht_cores ht).
Proof.
  intros Hinv Hp Hl Hd. unfold dtor_packed. rewrite Hd.
  replace (ht_cores ht) with (pcores (used_zvals ht)) by (unfold ht_cores; by rewrite Hp).
  destruct (HT_IS_WITHOUT_HOLES ht) eqn:Hh; apply dtor_zvals_trace; [|done].
  intros _. by apply no_holes_packed.
Qed.

(** Packed arrays have no string keys, so releasing them or not is the same. *)
Lemma drop_events_packed dtor keys ht : f_packed ht = true ->
  all_drop_events dtor keys (ht_cores ht) = all_drop_events dtor false (ht_cores ht).
Proof.
  intros Hp. assert (forall c, c ∈ ht_cores ht -> c.2 = None) as Hk.
  { intros c Hc. unfold ht_cores in Hc. rewrite Hp in Hc. by apply pcores_key in Hc. }
  unfold all_drop_events. induction (ht_cores ht) as [|c cs IH]; [done|]. cbn.
  rewrite IH by (intros; apply Hk; by right). f_equal. unfold drop_events.
  rewrite (Hk c) by (by left). by destruct keys.
Qed.

(** ** Emptying *)

Lemma reset_inv ht : ht_inv ht ->
  ht_inv (reset_counts (if negb (nNumUsed ht =? 0) && negb (f_packed ht) then HT_HASH_RESET ht else ht))
  /\ ht_elements (reset_counts (if negb (nNumUsed ht =? 0) && negb (f_packed ht)
                                then HT_HASH_RESET ht else ht)) = [].
Proof.
  intros Hinv. pose proof (size_ok_bounds _ (inv_size _ Hinv)) as Hb. split.
  2:{ unfold ht_elements, ht_cores. destruct (_ && _); cbn; by destruct (f_packed ht). }
  destruct (inv_layout _ Hinv) as [Hun Hp Hm Ha Hu|Hun Hp Hm Ha Hl Hnf|Hm].
  - rewrite Hu. cbn [Z.eqb negb andb].
    split; cbn; try apply (inv_size _ Hinv); try lia; unfold ht_elements, ht_cores; cbn; rewrite ?Hp;
      try done; [apply NoDup_nil_2| |by apply LUninit].
    split; [done|]. intros h v []%not_elem_of_nil.
  - rewrite Hp, andb_false_r. apply packed_inv; cbn; try done; try lia; [apply Hinv|].
    split; [done|by left].
  - rewrite (mx_packed _ _ Hm), andb_true_r.
    assert (mixed (reset_counts (if negb (nNumUsed ht =? 0) then HT_HASH_RESET ht else ht)) []) as Hm'.
    { destruct (mx_geom _ _ Hm) as [Hs Hmask Hd Hu].
      assert (zlen (arHash (if negb (nNumUsed ht =? 0) then HT_HASH_RESET ht else ht))
        = 2 * nTableSize ht) as Hh.
      { destruct (negb _); [|apply Hm]. cbn. rewrite zlen_replicate, Hmask, mask_words by done. lia. }
      split; try (destruct (negb _); cbn; try done; apply Hm).
      - destruct (negb _); (split; cbn; [done|done|done|lia]).
      - destruct (Z.eqb_spec (nNumUsed ht) 0) as [He|Hne]; cbn.
        + rewrite <- He at 1. apply Hm.
        + apply chains_empty. }
    apply mixed_inv in Hm' as [H _]; [done|]. split_and!; try done; [apply NoDup_nil_2|].
    destruct (negb _); (split; [done|]; intros h v []%not_elem_of_nil).
Qed.
End Clean.
