(* ===== verification/HashTheorems2.v ===== *)
(** * Traversal, iterators, apply and destruction: the contracts *)

From S2P Require Import Prelude.
From S2P Require Import ZendString.
From S2P Require Import OrderedMap.
From S2P Require Import HashTypes.
From S2P Require Import HashOps.
From S2P Require Import HashIterOps.
From S2P Require Import HashApplyOps.
From S2P Require Import HashChain.
From S2P Require Import HashRehash.
From S2P Require Import HashInv.
From S2P Require Import HashLayout.
From S2P Require Import HashInsert.
From S2P Require Import HashIndex.
From S2P Require Import HashDelete.
From S2P Require Import HashInit.
From S2P Require Import HashIterate.
From S2P Require Import HashApply.

Section Theorems2.
Context {E : ZendEnv}.

Lemma length_from_pos ht pos : ht_inv ht -> (length (from_pos ht pos) <= Z.to_nat (nNumUsed ht))%nat.
Proof.
  intros Hinv. pose proof (inv_used _ Hinv). unfold from_pos.
  rewrite <- (length_slot_list ht) by (try lia; by apply inv_slots).
  assert (forall l : list (option core), (length (omap id l) <= length l)%nat) as Hle
    by (induction l as [|[c|] l IH]; cbn; lia).
  etransitivity; [apply Hle|]. rewrite length_drop. lia.
Qed.

(** Starting at zend_hash_internal_pointer_reset_ex and stepping with
    zend_hash_move_forward_ex until there is no current element visits every
    entry once, in order, with its key and its value; starting at
    zend_hash_internal_pointer_end_ex and stepping with
    zend_hash_move_backwards_ex visits them in reverse order. *)
Theorem zend_hash_traversal_correct w ht : ht_inv ht ->
  (pos ← zend_hash_internal_pointer_reset_ex ht;
   traverse_fwd (S (Z.to_nat (nNumUsed ht))) w ht pos) = Ok (seen <$> ht_cores ht)
  /\ (pos ← zend_hash_internal_pointer_end_ex ht;
      traverse_bwd (S (Z.to_nat (nNumUsed ht))) w ht pos) = Ok (seen <$> rev (ht_cores ht)).
Proof.
  intros Hinv. pose proof (inv_slots _ Hinv) as Hs. pose proof (inv_used _ Hinv) as Hu. split.
  - unfold zend_hash_internal_pointer_reset_ex.
    destruct (valid_pos_ok ht 0 Hs ltac:(lia) ltac:(lia)) as (r & -> & Hle & [Hf _] & _).
    rewrite bind_ok, traverse_fwd_ok, <- Hf, from_pos_0; try done; try lia.
    pose proof (length_from_pos ht r Hinv). lia.
  - unfold zend_hash_internal_pointer_end_ex.
    destruct (prev_used_ok (pos_fuel ht) ht (nNumUsed ht) Hs ltac:(lia)) as (o & -> & Ho);
      [unfold pos_fuel; lia|]. rewrite !bind_ok.
    assert (ht_cores ht = match o with Some r => before_pos ht (r + 1) | None => [] end) as Hc.
    { rewrite <- (before_pos_end ht Hs ltac:(lia)). destruct o as [r|]; [|done].
      destruct Ho as (_ & c & (Hr & _ & Hl & _) & ->). by rewrite (before_pos_step ht r _ Hl) by lia. }
    rewrite Hc. apply traverse_bwd_ok; try done; try lia.
    + destruct o as [r|]; [|done]. destruct Ho as (_ & c & ? & _). eauto.
    + rewrite <- Hc, <- from_pos_0. pose proof (length_from_pos ht 0 Hinv). lia.
Qed.

(** ** Iterators *)

(** zend_hash_iterator_add takes a free entry of the iterator list, or makes
    the list longer, points it at the table and counts it; the iterator counts
    stay right and no other iterator changes. *)
Theorem zend_hash_iterator_add_correct w hp a ht pos : iters_wf w hp -> hp !! a = Some ht ->
  let '(w', ht', idx) := zend_hash_iterator_add w ht pos in
  iters_wf w' (<[a := ht']> hp) /\ zget (ht_iterators w') idx = Some (mkIter a pos)
  /\ (forall i it, i <> idx -> zget (ht_iterators w) i = Some it ->
        zget (ht_iterators w') i = Some it)
  /\ (forall it, zget (ht_iterators w) idx = Some it -> it_ht it = 0).
Proof. apply iterator_add_ok. Qed.

(** zend_hash_iterator_pos returns the position of an iterator of the table; an
    iterator of another table is moved to this one, at its current position,
    and both tables' counts stay right. *)
Theorem zend_hash_iterator_pos_correct w hp idx it a ht : iters_wf w hp ->
  zget (ht_iterators w) idx = Some it -> idx < ht_iterators_used w -> idx < 2 ^ 32 - 1 ->
  hp !! a = Some ht -> ht_inv ht -> 0 <= nInternalPointer ht ->
  exists w' hp' pos, zend_hash_iterator_pos w hp idx a = Ok (w', hp', pos) /\ iters_wf w' hp'
    /\ ht_iterators w' = zset (ht_iterators w) idx (mkIter a pos)
    /\ (it_ht it = a -> pos = it_pos it /\ hp' = hp)
    /\ (it_ht it <> a -> zend_hash_get_current_pos ht = Ok pos).
Proof.
  intros Hw Hi Hu Hm Ha Hinv Hip. pose proof (inv_used _ Hinv).
  apply (iterator_pos_ok w hp idx it a ht); try done; [by apply inv_slots|lia].
Qed.

(** zend_hash_iterator_del frees the entry, the count of its table stays right,
    the assertion that it is not zero holds, and the list is cut after its last
    iterator. *)
Theorem zend_hash_iterator_del_correct w hp idx it : iters_wf w hp ->
  zget (ht_iterators w) idx = Some it -> idx < 2 ^ 32 - 1 ->
  exists w' hp', zend_hash_iterator_del w hp idx = Ok (w', hp') /\ iters_wf w' hp'
    /\ ht_iterators w' = zset (ht_iterators w) idx (mkIter 0 (it_pos it)).
Proof. apply iterator_del_ok. Qed.

(** ** Apply *)

(** zend_hash_apply_with_arguments, and with it zend_hash_apply and
    zend_hash_apply_with_argument: every element is passed once and in order to
    the function until it asks to stop; elements it asks to remove are deleted,
    with their events, the others keep their order; the invariant is preserved
    although deletions shrink the table during the loop. *)
Theorem zend_hash_apply_correct {S A} (g : S -> zval -> A -> Z * option Z -> S * zval * Z)
    (args : A) s w ht : ht_inv ht -> (forall s v a k, (g s v a k).1.2 <> IS_UNDEF) ->
  let f := fun s (c : core) => g s c.1.1 args (c.1.2, c.2) in
  exists w' ht', zend_hash_apply_with_arguments g args s w ht
      = Ok ((applied f (pDestructor ht) s (ht_cores ht)).1.1, w', ht')
    /\ ht_inv ht' /\ ht_cores ht' = (applied f (pDestructor ht) s (ht_cores ht)).1.2
    /\ w_trace w' = w_trace w ++ (applied f (pDestructor ht) s (ht_cores ht)).2
    /\ w_ind w' = w_ind w.
Proof.
  intros Hinv Hg f. destruct (apply_loop_ok f (fun s c => Hg s _ _ _) (Z.to_nat (nNumUsed ht)) s w ht 0 Hinv)
    as (w' & ht' & Hr & Hrest); [lia|lia|]. rewrite from_pos_0 in *. by exists w', ht'.
Qed.

(** zend_hash_reverse_apply does the same from the last element to the first. *)
Theorem zend_hash_reverse_apply_correct {S} (g : S -> zval -> S * zval * Z) s w ht :
  ht_inv ht -> (forall s v, (g s v).1.2 <> IS_UNDEF) ->
  let f := fun s (c : core) => g s c.1.1 in
  exists w' ht', zend_hash_reverse_apply g s w ht
      = Ok ((applied f (pDestructor ht) s (rev (ht_cores ht))).1.1, w', ht')
    /\ ht_inv ht' /\ ht_cores ht' = rev (applied f (pDestructor ht) s (rev (ht_cores ht))).1.2
    /\ w_trace w' = w_trace w ++ (applied f (pDestructor ht) s (rev (ht_cores ht))).2
    /\ w_ind w' = w_ind w.
Proof.
  intros Hinv Hg f. pose proof (inv_used _ Hinv) as Hu. pose proof (inv_slots _ Hinv) as Hs.
  destruct (reverse_apply_loop_ok f (fun s c => Hg s _) (Z.to_nat (nNumUsed ht)) s w ht Hinv)
    as (w' & ht' & Hr & Hi & Hc & Hrest); [intros k Hk; lia|].
  rewrite Z2Nat.id, before_pos_end in * by (done || lia).
  rewrite from_pos_end, app_nil_r in Hc by (done || lia). by exists w', ht'.
Qed.

(** ** Destruction *)

(** zend_hash_graceful_destroy deletes the elements one by one from the first
    to the last, zend_hash_graceful_reverse_destroy from the last to the first;
    each key is released and each value destroyed exactly once, and the table is
    empty in the end. *)
Theorem zend_hash_graceful_destroy_correct w ht : ht_inv ht ->
  (exists w' ht', zend_hash_graceful_destroy w ht = Ok (w', ht', negb (f_uninit ht)) /\ ht_inv ht'
     /\ ht_cores ht' = []
     /\ w_trace w' = w_trace w ++ all_del_events (pDestructor ht) (ht_cores ht))
  /\ (exists w' ht', zend_hash_graceful_reverse_destroy w ht = Ok (w', ht', negb (f_uninit ht))
     /\ ht_inv ht' /\ ht_cores ht' = []
     /\ w_trace w' = w_trace w ++ all_del_events (pDestructor ht) (rev (ht_cores ht))).
Proof.
  intros Hinv. pose proof (inv_used _ Hinv) as Hu. pose proof (inv_slots _ Hinv) as Hs. split.
  - destruct (graceful_loop_ok (Z.to_nat (nNumUsed ht)) w ht 0 Hinv)
      as (w' & ht' & Hr & Hi & Hc & Hun & Ht); [lia|lia|]. exists w', ht'.
    unfold zend_hash_graceful_destroy. rewrite Hr, bind_ok, Hun. rewrite from_pos_0 in Ht. by split_and!.
  - destruct (graceful_reverse_loop_ok (Z.to_nat (nNumUsed ht)) w ht Hinv)
      as (w' & ht' & Hr & Hi & Hc & Hun & Ht); [intros k Hk; lia|]. exists w', ht'.
    rewrite Z2Nat.id, before_pos_end in Ht by (done || lia).
    rewrite from_pos_end in Hc by (done || lia).
    unfold zend_hash_graceful_reverse_destroy. by rewrite Hr, bind_ok, Hun.
Qed.

Lemma iterators_remove_trace w ht : w_trace (zend_hash_iterators_remove w ht) = w_trace w.
Proof. unfold zend_hash_iterators_remove. by destruct (HT_HAS_ITERATORS ht). Qed.

Lemma no_events ht : ht_inv ht -> nNumUsed ht = 0 -> ht_cores ht = [].
Proof.
  intros Hinv Hu. unfold ht_cores. rewrite Hu. by destruct (f_packed ht).
Qed.

(** zend_hash_clean leaves a valid empty table, and zend_hash_clean and
    zend_hash_destroy destroy every value of the table exactly once and in
    order, each followed by the release of its key unless all keys are static. *)
Theorem zend_hash_clean_correct w ht : ht_inv ht -> pDestructor ht = true ->
  ht_inv (zend_hash_clean w ht).2 /\ ht_elements (zend_hash_clean w ht).2 = []
  /\ w_trace (zend_hash_clean w ht).1
     = w_trace w ++ all_drop_events true (negb (f_static ht)) (ht_cores ht)
  /\ w_trace (zend_hash_destroy w ht).1
     = w_trace w ++ all_drop_events true (negb (f_static ht)) (ht_cores ht).
Proof.
  intros Hinv Hd. destruct (reset_inv ht Hinv) as [Hr He].
  assert ((zend_hash_clean w ht).2 = reset_counts
    (if negb (nNumUsed ht =? 0) && negb (f_packed ht) then HT_HASH_RESET ht else ht)) as Hht
    by (unfold zend_hash_clean; destruct (negb (nNumUsed ht =? 0)), (f_packed ht); done).
  rewrite Hht. split; [done|]. split; [done|]. unfold zend_hash_clean, zend_hash_destroy.
  destruct (Z.eqb_spec (nNumUsed ht) 0) as [Hz|Hnz]; cbn [negb].
  { rewrite (no_events ht Hinv Hz). cbn. rewrite app_nil_r. by destruct (f_uninit ht). }
  destruct (inv_layout _ Hinv) as [? ? ? ? Hu|Hun Hp Hm Ha Hl Hnf|Hm]; [done| |].
  - rewrite Hp. cbn. rewrite Hd. unfold HT_HAS_STATIC_KEYS_ONLY. rewrite Hp. cbn [andb orb].
    rewrite iterators_remove_trace, dtor_packed_trace by done. by rewrite (drop_events_packed true (negb (f_static ht))) by done.
  - rewrite (mx_packed _ _ Hm). cbn. by rewrite iterators_remove_trace, dtor_hash_trace.
Qed.
End Theorems2.

(** ** Instances on concrete tables *)

Lemma zend_hash_traversal_correct_witness :
  (pos ← zend_hash_internal_pointer_reset_ex demo_ht;
   traverse_fwd 3 w0 demo_ht pos) = Ok (seen <$> ht_cores demo_ht)
  /\ (pos ← zend_hash_internal_pointer_end_ex demo_ht;
      traverse_bwd 3 w0 demo_ht pos) = Ok (seen <$> rev (ht_cores demo_ht)).
Proof. exact (zend_hash_traversal_correct w0 demo_ht demo_ht_inv). Defined.

(** A world with one iterator on the demo table, at its second element. *)
Definition demo_iter_ht : HashTable := set_iters 1 demo_ht.
Definition demo_iter_w : world := mkWorld ∅ [mkIter 1000 1] 1 [].
Definition demo_heap : heap := {[ 1000 := demo_iter_ht ]}.

Lemma demo_iters_wf : iters_wf demo_iter_w demo_heap.
Proof.
  split; cbn.
  - by vm_compute.
  - intros i it Hi Hz. apply zget_Some_range in Hz. unfold zlen in Hz. cbn in Hz. lia.
  - intros i it Hz. pose proof (zget_Some_range _ _ _ Hz) as Hr. unfold zlen in Hr. cbn in Hr.
    assert (i = 0) as -> by lia. injection Hz as <-. right. right. by exists demo_iter_ht.
  - intros a ht Ha. unfold demo_heap in Ha. apply lookup_singleton_Some in Ha as [<- <-].
    split_and!; try done. by right.
Qed.

Lemma zend_hash_iterator_add_correct_witness :
  let '(w', ht', idx) := zend_hash_iterator_add demo_iter_w demo_iter_ht 0 in
  iters_wf w' (<[1000 := ht']> demo_heap) /\ zget (ht_iterators w') idx = Some (mkIter 1000 0)
  /\ (forall i it, i <> idx -> zget (ht_iterators demo_iter_w) i = Some it ->
        zget (ht_iterators w') i = Some it)
  /\ (forall it, zget (ht_iterators demo_iter_w) idx = Some it -> it_ht it = 0).
Proof.
  exact (zend_hash_iterator_add_correct demo_iter_w demo_heap 1000 demo_iter_ht 0
    demo_iters_wf eq_refl).
Defined.

Lemma demo_iter_ht_inv : ht_inv demo_iter_ht.
Proof. destruct demo_ht_inv as [H1 H2 H3 H4 H5 H6 H7 H8]. split; try done. destruct H8 as [? ? ? ? ?|? ? ? ? ? ?|[[? ? ? ?] ? ? ? ? ? ?]]; [done|done|].
  apply LMixed. split; try done. Qed.

Lemma zend_hash_iterator_pos_correct_witness :
  exists w' hp' pos, zend_hash_iterator_pos demo_iter_w demo_heap 0 1000 = Ok (w', hp', pos)
    /\ iters_wf w' hp' /\ ht_iterators w' = [mkIter 1000 pos]
    /\ (1000 = 1000 -> pos = 1 /\ hp' = demo_heap)
    /\ (1000 <> 1000 -> zend_hash_get_current_pos demo_iter_ht = Ok pos).
Proof.
  exact (zend_hash_iterator_pos_correct demo_iter_w demo_heap 0 (mkIter 1000 1) 1000 demo_iter_ht
    demo_iters_wf eq_refl ltac:(done) ltac:(done) eq_refl demo_iter_ht_inv ltac:(done)).
Defined.

Lemma zend_hash_iterator_del_correct_witness :
  exists w' hp', zend_hash_iterator_del demo_iter_w demo_heap 0 = Ok (w', hp') /\ iters_wf w' hp'
    /\ ht_iterators w' = [mkIter 0 1].
Proof.
  exact (zend_hash_iterator_del_correct demo_iter_w demo_heap 0 (mkIter 1000 1)
    demo_iters_wf eq_refl ltac:(done)).
Defined.

(** A function that counts the elements and removes those with an integer key. *)
Definition demo_apply (s : nat) (v : zval) (args : unit) (k : Z * option Z) : nat * zval * Z :=
  (S s, match v with IS_UNDEF => IS_NULL | _ => v end,
   match k.2 with None => ZEND_HASH_APPLY_REMOVE | Some _ => ZEND_HASH_APPLY_KEEP end).

Lemma zend_hash_apply_correct_witness :
  exists w' ht', zend_hash_apply_with_arguments demo_apply tt 0%nat w0 demo_ht = Ok (2%nat, w', ht')
    /\ ht_inv ht' /\ ht_cores ht' = [(ZVal 4 1, ZSTR_H str_a, Some str_a)]
    /\ w_trace w' = [EvDtor (ZVal 4 2)] /\ w_ind w' = w_ind w0.
Proof.
  exact (zend_hash_apply_correct demo_apply tt 0%nat w0 demo_ht demo_ht_inv
    (fun s v a k => match v with IS_UNDEF => ltac:(done) | _ => ltac:(done) end)).
Defined.

Lemma zend_hash_reverse_apply_correct_witness :
  exists w' ht', zend_hash_reverse_apply (fun s _ => (S s, IS_NULL, ZEND_HASH_APPLY_KEEP)) 0%nat w0 demo_ht
      = Ok (2%nat, w', ht')
    /\ ht_inv ht' /\ ht_cores ht' = [(IS_NULL, ZSTR_H str_a, Some str_a); (IS_NULL, 5, None)]
    /\ w_trace w' = [] /\ w_ind w' = w_ind w0.
Proof.
  exact (zend_hash_reverse_apply_correct (fun s _ => (S s, IS_NULL, ZEND_HASH_APPLY_KEEP)) 0%nat w0
    demo_ht demo_ht_inv (fun _ _ => ltac:(done))).
Defined.

Lemma zend_hash_graceful_destroy_correct_witness :
  (exists w' ht', zend_hash_graceful_destroy w0 demo_ht = Ok (w', ht', true) /\ ht_inv ht'
     /\ ht_cores ht' = []
     /\ w_trace w' = [EvRelease str_a; EvDtor (ZVal 4 1); EvDtor (ZVal 4 2)])
  /\ (exists w' ht', zend_hash_graceful_reverse_destroy w0 demo_ht = Ok (w', ht', true)
     /\ ht_inv ht' /\ ht_cores ht' = []
     /\ w_trace w' = [EvDtor (ZVal 4 2); EvRelease str_a; EvDtor (ZVal 4 1)]).
Proof. exact (zend_hash_graceful_destroy_correct w0 demo_ht demo_ht_inv). Defined.

Lemma zend_hash_clean_correct_witness :
  ht_inv (zend_hash_clean w0 demo_ht).2 /\ ht_elements (zend_hash_clean w0 demo_ht).2 = []
  /\ w_trace (zend_hash_clean w0 demo_ht).1 = [EvDtor (ZVal 4 1); EvRelease str_a; EvDtor (ZVal 4 2)]
  /\ w_trace (zend_hash_destroy w0 demo_ht).1 = [EvDtor (ZVal 4 1); EvRelease str_a; EvDtor (ZVal 4 2)].
Proof. exact (zend_hash_clean_correct w0 demo_ht demo_ht_inv eq_refl). Defined.
