(* ===== verification/HashCopy.v ===== *)
(** * Copying and merging

    The copy loop is verified against what it needs of the insertion function it
    calls, the class [Inserter]; the insertion functions of the hash table are
    its instances. At the end the contracts of the functions. *)

From S2P Require Import Prelude.
From S2P Require Import ZendString.
From S2P Require Import OrderedMap.
From S2P Require Import HashTypes.
From S2P Require Import HashOps.
From S2P Require Import HashChain.
From S2P Require Import HashRehash.
From S2P Require Import HashInv.
From S2P Require Import HashLayout.
From S2P Require Import HashInsert.
From S2P Require Import HashIndex.
From S2P Require Import HashInit.
From S2P Require Import HashApplyOps.

Section Copy.
Context {E : ZendEnv}.

(** ** Integer keys that fit a packed array

    The last index of a packed array of the maximal size is excluded: a packed
    array that uses it cannot be turned into a hash. *)

Definition roomy_key (k : hkey) : Prop :=
  match k with KInt h => h <> HT_MAX_SIZE - 1 | KStr _ => True end.
Definition roomy_keys (els : list (hkey * zval)) : Prop := Forall roomy_key (okeys els).

Lemma roomy_keys_room ht : ht_inv ht -> roomy_keys (ht_elements ht) -> f_packed ht = true ->
  nNumUsed ht < HT_MAX_SIZE.
Proof.
  intros Hinv Hs Hp. destruct (inv_layout _ Hinv) as [? ? ? ? ?|_ _ _ _ Hl [_ Hlast]|Hm];
    [congruence| |pose proof (mx_packed _ _ Hm); congruence].
  destruct Hlast as [->|(v & Hv & Hne)]; [done|].
  assert (KInt (nNumUsed ht - 1) ∈ okeys (ht_elements ht)) as Hin.
  { unfold ht_elements, ht_cores. rewrite Hp.
    change (take (Z.to_nat (nNumUsed ht))) with (@pre zval (nNumUsed ht)).
    destruct (decide (KInt (nNumUsed ht - 1)
      ∈ okeys (centry <$> pcores (pre (nNumUsed ht) (arPacked ht))))) as [|Hno]; [done|].
    apply olookup_None in Hno. by rewrite (pcores_lookup _ _ _ v) in Hno by (done || lia). }
  unfold roomy_keys in Hs. rewrite Forall_forall in Hs. specialize (Hs _ Hin). cbn in Hs.
  pose proof (inv_used _ Hinv). pose proof (size_ok_bounds _ (inv_size _ Hinv)). lia.
Qed.

Lemma roomy_keys_oinsert k v els : roomy_key k -> roomy_keys els -> roomy_keys (oinsert k v els).
Proof.
  intros Hk Hs. unfold roomy_keys in *. destruct (decide (k ∈ okeys els)) as [Hin|Hno].
  - by rewrite okeys_oinsert.
  - rewrite oinsert_fresh, okeys_app by done. apply Forall_app. split; [done|]. by apply Forall_singleton.
Qed.

(** ** The interface of the copy loop *)

(** What an insertion of [v] under [k] leaves: the entries [sem k v els], and a
    pointer to the new value unless the key was there and is left alone. *)
Definition stored (sem : hkey -> zval -> list (hkey * zval) -> list (hkey * zval)) (null_ok : bool)
    (w : world) (ht : HashTable) (k : hkey) (v : zval) (o : world * HashTable * option zptr) : Prop :=
  let '(w', ht', r) := o in
  ht_inv ht' /\ ht_elements ht' = sem k v (ht_elements ht) /\ w_ind w' = w_ind w
  /\ match r with
     | Some p => points ht' p k v /\ (null_ok = true -> k ∉ okeys (ht_elements ht))
     | None => null_ok = true /\ k ∈ okeys (ht_elements ht)
     end.

Class Inserter (insert : world -> HashTable -> core -> zval -> res (world * HashTable * option zptr))
    (sem : hkey -> zval -> list (hkey * zval) -> list (hkey * zval))
    (null_ok : bool) (P : zval -> Prop) : Prop := {
  insert_ok : forall w ht c v, ht_inv ht -> roomy_keys (ht_elements ht) ->
    Forall (fun e => P e.2) (ht_elements ht) -> core_wf c -> roomy_key (ckey c) ->
    v <> IS_UNDEF ->
    runs (insert w ht c v) (stored sem null_ok w ht (ckey c) v) (nTableSize ht = HT_MAX_SIZE);
  sem_roomy : forall k v els, roomy_key k -> roomy_keys els -> roomy_keys (sem k v els);
  sem_P : forall k v els, P v -> Forall (fun e => P e.2) els -> Forall (fun e => P e.2) (sem k v els);
  sem_again : forall k v v' els, (null_ok = true -> k ∉ okeys els) ->
    oinsert k v' (sem k v els) = sem k v' els;
  sem_present : forall k v v' els, null_ok = true -> k ∈ okeys els -> sem k v els = sem k v' els;
}.

(** Writing through the pointer an insertion returned. *)
Lemma points_set w ht p k v v' : ht_inv ht -> points ht p k v -> v' <> IS_UNDEF ->
  exists ht', zptr_set w ht p v' = Ok (w, ht') /\ ht_inv ht'
    /\ ht_elements ht' = oinsert k v' (ht_elements ht).
Proof.
  intros Hinv Hp Hv'. destruct p as [i|i|a]; [| |done].
  - destruct Hp as (Hpk & b & Hat & <- & _).
    destruct (inv_layout _ Hinv) as [Hun _ _ _ Hu|Hun ? ? ? ? ?|Hm].
    + destruct Hat as ((? & ?) & _). lia.
    + congruence.
    + destruct (set_val_spec w ht _ i b v' Hm (inv_side _ Hinv) Hat Hv') as (ht' & Hset & Hi & He & _).
      by exists ht'.
  - destruct Hp as (Hpk & Hi & Hget & Hne & ->).
    destruct (set_packed_spec w ht i v v' Hinv Hpk Hi Hget Hne Hv') as (ht' & Hset & Hinv' & He & _).
    by exists ht'.
Qed.

(** ** The loop *)

Definition ctor_val (ctor : option (zval -> zval)) (v : zval) : zval :=
  match ctor with Some f => f v | None => v end.

(** The entries a list of slots contributes. *)
Definition contributed (packed : bool) (w : world) (l : list core) : list (hkey * zval) :=
  omap (fun c => match resolve packed w c.1.1 with Ok (Some v) => Some (ckey c, v) | _ => None end) l.

Definition merged (sem : hkey -> zval -> list (hkey * zval) -> list (hkey * zval))
    (ctor : option (zval -> zval)) (els new : list (hkey * zval)) : list (hkey * zval) :=
  fold_left (fun els e => sem e.1 (ctor_val ctor e.2) els) new els.

(** What the loop requires of a slot of the source. *)
Definition slot_fit (packed : bool) (P : zval -> Prop) (ctor : option (zval -> zval)) (w : world)
    (c : core) : Prop :=
  c.1.1 = IS_UNDEF \/
  (core_wf c /\ roomy_key (ckey c)
   /\ exists o, resolve packed w c.1.1 = Ok o
      /\ match o with
         | Some v => v <> IS_UNDEF /\ ctor_val ctor v <> IS_UNDEF /\ P (ctor_val ctor v)
         | None => True
         end).

Lemma resolve_world packed w w' v : w_ind w' = w_ind w -> resolve packed w' v = resolve packed w v.
Proof. intros Hw. unfold resolve. by rewrite Hw. Qed.

Lemma slot_fit_world packed P ctor w w' c : w_ind w' = w_ind w ->
  slot_fit packed P ctor w c -> slot_fit packed P ctor w' c.
Proof. intros Hw. unfold slot_fit. by rewrite (resolve_world packed w w'). Qed.

Lemma contributed_world packed w w' l : w_ind w' = w_ind w ->
  contributed packed w' l = contributed packed w l.
Proof.
  intros Hw. unfold contributed. induction l as [|c l IH]; [done|]. cbn.
  by rewrite (resolve_world packed w w'), IH.
Qed.

Lemma run_ctor_ok insert sem null_ok P (HI : Inserter insert sem null_ok P) ctor w ht c v o :
  stored sem null_ok w ht (ckey c) v o -> v <> IS_UNDEF -> ctor_val ctor v <> IS_UNDEF ->
  exists w' ht', run_ctor ctor null_ok o = Ok (w', ht') /\ ht_inv ht' /\ w_ind w' = w_ind w
    /\ ht_elements ht' = sem (ckey c) (ctor_val ctor v) (ht_elements ht).
Proof.
  destruct o as [[w1 ht1] r]. intros (Hi & He & Hw & Hr) Hv Hcv. unfold run_ctor.
  destruct ctor as [f|]; [|by exists w1, ht1]. cbn in *. destruct r as [p|].
  - destruct Hr as [Hp Hfresh]. rewrite (points_get _ _ _ _ _ Hp), bind_ok.
    destruct (points_set w1 ht1 p (ckey c) v (f v) Hi Hp Hcv) as (ht2 & -> & Hi2 & He2).
    exists w1, ht2. split_and!; try done. rewrite He2, He. by apply sem_again.
  - destruct Hr as [-> Hin]. exists w1, ht1. split_and!; try done. rewrite He. by apply sem_present.
Qed.

Lemma copy_loop_ok insert sem null_ok P (HI : Inserter insert sem null_ok P) ctor packed l :
  forall w ht, ht_inv ht -> roomy_keys (ht_elements ht) -> Forall (fun e => P e.2) (ht_elements ht) ->
  Forall (slot_fit packed P ctor w) l ->
  runs (copy_loop insert ctor null_ok packed w ht l)
    (fun '(w', ht') => ht_inv ht' /\ w_ind w' = w_ind w
       /\ ht_elements ht' = merged sem ctor (ht_elements ht) (contributed packed w l))
    (exists n w1 ht1, copy_loop insert ctor null_ok packed w ht (take n l) = Ok (w1, ht1)
       /\ nTableSize ht1 = HT_MAX_SIZE).
Proof.
  induction l as [|c l IH]; intros w ht Hinv Hsm HP Hfit; cbn [copy_loop]; [by split_and!|].
  apply Forall_cons in Hfit as [Hc Hfit].
  assert (exists o, resolve packed w c.1.1 = Ok o /\ match o with
    | Some v => core_wf c /\ roomy_key (ckey c) /\ v <> IS_UNDEF /\ ctor_val ctor v <> IS_UNDEF
                /\ P (ctor_val ctor v)
    | None => True end) as (o & Ho & Hspec).
  { destruct Hc as [Hu|(H1 & H2 & o & Ho & H3)].
    - exists None. by rewrite Hu.
    - exists o. split; [done|]. destruct o; [|done]. tauto. }
  assert (forall n, copy_loop insert ctor null_ok packed w ht (take (S n) (c :: l))
    = ('(w, ht) ← match o with
        | None => Ok (w, ht)
        | Some v => r ← insert w ht c v; run_ctor ctor null_ok r
        end; copy_loop insert ctor null_ok packed w ht (take n l))) as Hpre.
  { intros n. cbn [take copy_loop]. by rewrite Ho. }
  unfold contributed. cbn [omap list_omap]. rewrite Ho, bind_ok. destruct o as [v|].
  - destruct Hspec as (Hwf & Hk & Hv & Hcv & HPv).
    pose proof (insert_ok w ht c v Hinv Hsm HP Hwf Hk Hv) as Hins.
    destruct (insert w ht c v) as [o'| |]; [|cbn in *; by exists 0%nat, w, ht|done].
    rewrite bind_ok in *. destruct (run_ctor_ok _ _ _ _ HI ctor w ht c v o' Hins Hv Hcv)
      as (w1 & ht1 & Hct & Hi1 & Hw1 & He1). rewrite Hct, bind_ok in *.
    specialize (IH w1 ht1 Hi1). rewrite He1 in IH. eapply runs_weaken; [apply IH| |].
    + by apply sem_roomy.
    + by apply sem_P.
    + eapply Forall_impl; [exact Hfit|]. intros c'. by apply slot_fit_world.
    + intros [w2 ht2] (Hi2 & Hw2 & He2). split_and!; [done|congruence|].
      rewrite He2, (contributed_world packed w w1) by done. done.
    + intros (n & w2 & ht2 & Hr2 & Hs2). exists (S n), w2, ht2. by rewrite Hpre, bind_ok.
  - rewrite bind_ok. eapply runs_weaken; [by apply IH|done|].
    intros (n & w2 & ht2 & Hr2 & Hs2). exists (S n), w2, ht2. by rewrite Hpre, bind_ok.
Qed.

(** ** The instances *)

(** Adding only: an existing key is left alone. *)
Definition oadd (k : hkey) (v : zval) (els : list (hkey * zval)) : list (hkey * zval) :=
  if decide (k ∈ okeys els) then els else els ++ [(k, v)].

Lemma oinsert_last k v v' (els : list (hkey * zval)) : k ∉ okeys els ->
  oinsert k v' (els ++ [(k, v)]) = els ++ [(k, v')].
Proof.
  intros Hk. unfold oinsert. rewrite decide_True.
  - rewrite oreplace_app, oreplace_id by done. cbn. by rewrite decide_True.
  - rewrite okeys_app. apply elem_of_app. right. by left.
Qed.

Lemma oinsert_again k v v' (els : list (hkey * zval)) :
  oinsert k v' (oinsert k v els) = oinsert k v' els.
Proof.
  destruct (decide (k ∈ okeys els)) as [Hin|Hno].
  - unfold oinsert at 1. rewrite decide_True by (by rewrite okeys_oinsert). unfold oinsert.
    rewrite !decide_True by done. unfold oreplace. rewrite <- list_fmap_compose.
    apply list_fmap_ext. intros i [k' x] _. cbn. by repeat case_decide; simplify_eq.
  - by rewrite (oinsert_fresh k v), oinsert_last, (oinsert_fresh k v') by done.
Qed.

Lemma Forall_oinsert (P : zval -> Prop) k v els : P v -> Forall (fun e : hkey * zval => P e.2) els ->
  Forall (fun e => P e.2) (oinsert k v els).
Proof.
  intros Hv Hels. unfold oinsert. case_decide.
  - unfold oreplace. apply Forall_fmap. eapply Forall_impl; [exact Hels|]. intros e He. cbn.
    by case_decide.
  - apply Forall_app. split; [done|]. by apply Forall_singleton.
Qed.

Lemma inserted_stored w ht k v els o : inserted w els k v o -> els = oinsert k v (ht_elements ht) ->
  stored oinsert false w ht k v o.
Proof. destruct o as [[w' ht'] r]. intros (H1 & H2 & (p & -> & Hp) & Hw) ->. by split_and!. Qed.

Lemma ckey_str c key : c.2 = Some key -> ckey c = KStr (ZSTR_VAL key).
Proof. destruct c as [[v h] k]. cbn. by intros ->. Qed.
Lemma ckey_int c : c.2 = None -> ckey c = KInt c.1.2.
Proof. destruct c as [[v h] k]. cbn. by intros ->. Qed.
Lemma core_wf_int c : core_wf c -> c.2 = None -> 0 <= c.1.2 < 2 ^ 64.
Proof. destruct c as [[v h] k]. unfold core_wf. cbn. by intros H ->. Qed.

Lemma insert_int_ok w ht c v : ht_inv ht -> roomy_keys (ht_elements ht) -> core_wf c ->
  c.2 = None -> v <> IS_UNDEF ->
  runs (zend_hash_index_update w ht c.1.2 v) (stored oinsert false w ht (ckey c) v)
    (nTableSize ht = HT_MAX_SIZE).
Proof.
  intros Hinv Hsm Hwf Hc Hv. rewrite (ckey_int c Hc).
  eapply runs_weaken; [apply (index_update_ok w ht c.1.2 v Hinv)|intros o [Ho _]|done].
  - by apply core_wf_int.
  - done.
  - by apply roomy_keys_room.
  - by eapply inserted_stored.
Qed.

#[export] Instance update_inserter : Inserter insert_update oinsert false (fun _ => True).
Proof.
  split; try done.
  - intros w ht c v Hinv Hsm _ Hwf Hk Hv. unfold insert_update. destruct (c.2) as [key|] eqn:Hc.
    + rewrite (ckey_str c key Hc).
      eapply runs_weaken; [apply (update_ok w ht key v Hinv Hv)|intros o [Ho _]|by intros [? _]].
      by eapply inserted_stored.
    + by apply insert_int_ok.
  - intros. by apply roomy_keys_oinsert.
  - intros k v els _ _. by apply (Forall_oinsert (fun _ => True)), Forall_true.
  - intros. apply oinsert_again.
Qed.

(** A bucket of a table whose values are direct holds a direct value. *)
Lemma bucket_direct ht i b : ht_inv ht -> mixed ht (ht_cores ht) -> at_index ht i b ->
  Forall (fun e => direct e.2) (ht_elements ht) -> direct (b_val b).
Proof.
  intros Hinv Hm Hat Hd. rewrite Forall_forall in Hd.
  apply (Hd (bkey b, b_val b)). unfold ht_elements. apply list_elem_of_fmap.
  exists (b_val b, b_h b, b_key b). split; [done|]. by eapply mixed_elem.
Qed.

#[export] Instance merge_overwrite_inserter : Inserter (insert_merge true) oinsert false direct.
Proof.
  split; try done.
  - intros w ht c v Hinv Hsm Hd Hwf Hk Hv. unfold insert_merge.
    destruct (c.2) as [key|] eqn:Hc; [|by apply insert_int_ok].
    rewrite (ckey_str c key Hc). set (flag := Z.lor HASH_UPDATE HASH_UPDATE_INDIRECT).
    destruct (key_cases (KStr (ZSTR_VAL key)) (ht_elements ht)) as [Hin|Hno].
    + destruct (add_or_update_found w ht key v flag Hinv Hin eq_refl) as (i & b & Hm & Hat & Hkb & ->).
      destruct (update_found_update w ht i b v flag Hinv Hm Hat Hv eq_refl eq_refl) as (ht' & -> & Hins);
        [intros _; by eapply bucket_direct|]. rewrite Hkb in Hins. by eapply inserted_stored.
    + pose proof (add_or_update_fresh w ht key v flag Hinv Hv Hno) as Hf.
      eapply runs_weaken; [exact Hf|intros o Ho|by intros [? _]].
      eapply inserted_stored; [exact Ho|]. symmetry. by apply oinsert_fresh.
  - intros. by apply roomy_keys_oinsert.
  - intros. by apply Forall_oinsert.
  - intros. apply oinsert_again.
Qed.

Lemma update_found_add_ind w ht i b v : at_index ht i b -> direct (b_val b) ->
  update_found w ht i v (Z.lor HASH_ADD HASH_UPDATE_INDIRECT) = Ok (w, ht, None).
Proof.
  intros (_ & Hb & _) Hd. unfold update_found, zptr_get. rewrite (rd_ok _ _ _ Hb), !bind_ok.
  by destruct (b_val b).
Qed.

Lemma stored_present w ht k v : ht_inv ht -> k ∈ okeys (ht_elements ht) ->
  stored oadd true w ht k v (w, ht, None).
Proof. intros Hinv Hin. split_and!; try done. unfold oadd. by rewrite decide_True. Qed.

Lemma stored_fresh w ht k v o : k ∉ okeys (ht_elements ht) ->
  inserted w (ht_elements ht ++ [(k, v)]) k v o -> stored oadd true w ht k v o.
Proof.
  destruct o as [[w' ht'] r]. intros Hno (H1 & H2 & (p & -> & Hp) & Hw). split_and!; try done.
  unfold oadd. by rewrite decide_False.
Qed.

#[export] Instance merge_add_inserter : Inserter (insert_merge false) oadd true direct.
Proof.
  split.
  - intros w ht c v Hinv Hsm Hd Hwf Hk Hv. unfold insert_merge. destruct (c.2) as [key|] eqn:Hc.
    + rewrite (ckey_str c key Hc). set (flag := Z.lor HASH_ADD HASH_UPDATE_INDIRECT).
      destruct (key_cases (KStr (ZSTR_VAL key)) (ht_elements ht)) as [Hin|Hno].
      * destruct (add_or_update_found w ht key v flag Hinv Hin eq_refl) as (i & b & Hm & Hat & Hkb & ->).
        unfold flag. rewrite (update_found_add_ind w ht i b v Hat) by (by eapply bucket_direct).
        by apply stored_present.
      * pose proof (add_or_update_fresh w ht key v flag Hinv Hv Hno) as Hf.
        eapply runs_weaken; [exact Hf|intros o; by apply stored_fresh|by intros [? _]].
    + rewrite (ckey_int c Hc). eapply runs_weaken; [apply (index_add_ok w ht c.1.2 v Hinv)| |done].
      * by apply core_wf_int.
      * done.
      * by apply roomy_keys_room.
      * intros o Ho. unfold added in Ho. case_decide; [subst o; by apply stored_present|by apply stored_fresh].
  - intros k v els Hk Hs. unfold oadd. case_decide; [done|]. unfold roomy_keys. rewrite okeys_app.
    apply Forall_app. split; [done|]. by apply Forall_singleton.
  - intros k v els Hv Hels. unfold oadd. case_decide; [done|].
    apply Forall_app. split; [done|]. by apply Forall_singleton.
  - intros k v v' els Hno. unfold oadd. rewrite !decide_False by (by apply Hno).
    by apply oinsert_last, Hno.
  - intros k v v' els _ Hin. unfold oadd. by rewrite !decide_True.
Qed.

(** ** The slots of a valid source *)

Lemma raw_slots_cores ht : ht_cores ht = filter (fun c => is_undef c.1.1 = false) (raw_slots ht).
Proof.
  unfold ht_cores, raw_slots. destruct (f_packed ht).
  - unfold pcores. set (l := take _ _). clearbody l.
    assert (forall o, omap id (imap (fun i => pcore_at (o + i)%nat) l)
      = filter (fun c : core => is_undef c.1.1 = false) (imap (fun i v => (v, Z.of_nat (o + i), None)) l)) as H.
    { induction l as [|v l IH]; intros o; [done|]. rewrite !imap_cons, filter_cons. cbn.
      unfold pcore_at at 1. rewrite Nat.add_0_r. specialize (IH (S o)).
      assert (imap (compose (fun (i : nat) (v : zval) => (v, Z.of_nat (o + i), @None Z)) S) l
        = imap (fun i v => (v, Z.of_nat (S o + i), None)) l) as Hi
        by (apply imap_ext; intros; cbn; by rewrite Nat.add_succ_r).
      assert (imap (compose (fun i => pcore_at (o + i)%nat) S) l
        = imap (fun i => pcore_at (S o + i)%nat) l) as Hi2
        by (apply imap_ext; intros; cbn; by rewrite Nat.add_succ_r).
      rewrite Hi, Hi2. destruct (is_undef v); cbn in *; by rewrite IH. }
    exact (H 0%nat).
  - unfold cores. induction (take _ _) as [|b D IH]; [done|].
    rewrite fmap_cons, filter_cons. cbn. unfold bcore at 1, live. cbn.
    destruct (is_undef (b_val b)); cbn; unfold core in *; cbn in *; by rewrite IH.
Qed.

Lemma contributed_cores packed w ht : contributed packed w (raw_slots ht) = contributed packed w (ht_cores ht).
Proof.
  rewrite raw_slots_cores. unfold contributed. induction (raw_slots ht) as [|c l IH]; [done|].
  rewrite filter_cons. cbn [omap list_omap]. destruct c as [[v h] k]. cbn.
  destruct v; cbn; by rewrite IH.
Qed.
End Copy.

(** ** The contracts *)

Section Theorems3.
Context {E : ZendEnv}.

(** A source whose elements the loops can insert: its integer keys fit, its
    indirections are known, and the copied values satisfy [P]. *)
Definition source_fit (P : zval -> Prop) (ctor : option (zval -> zval)) (w : world)
    (source : HashTable) : Prop :=
  Forall (slot_fit (f_packed source) P ctor w) (raw_slots source).

(** zend_hash_copy inserts the elements of the source into the target one by
    one in order, new keys at the end, old ones overwritten in place;
    indirections are followed and those to undefined slots skipped; every value
    goes through the copy constructor. It stops with an error only if the target
    has reached the size limit. *)
Theorem zend_hash_copy_correct w target source ctor : ht_inv target ->
  roomy_keys (ht_elements target) -> source_fit (fun _ => True) ctor w source ->
  runs (zend_hash_copy w target source ctor)
    (fun '(w', t) => ht_inv t /\ w_ind w' = w_ind w
       /\ ht_elements t = merged oinsert ctor (ht_elements target)
                            (contributed (f_packed source) w (ht_cores source)))
    (exists n w1 t1, copy_loop insert_update ctor false (f_packed source) w target
                       (take n (raw_slots source)) = Ok (w1, t1) /\ nTableSize t1 = HT_MAX_SIZE).
Proof.
  intros Hinv Hsm Hfit. rewrite <- contributed_cores.
  apply (copy_loop_ok insert_update oinsert false (fun _ => True) update_inserter ctor); try done.
  by apply Forall_true.
Qed.

(** zend_hash_merge with overwriting behaves like a copy, and without it adds
    the elements whose keys the target does not have and leaves the others
    alone; the target holds no indirections. *)
Theorem zend_hash_merge_correct w target source ctor overwrite : ht_inv target ->
  roomy_keys (ht_elements target) -> Forall (fun e => direct e.2) (ht_elements target) ->
  source_fit direct ctor w source ->
  runs (zend_hash_merge w target source ctor overwrite)
    (fun '(w', t) => ht_inv t /\ w_ind w' = w_ind w
       /\ ht_elements t = merged (if overwrite then oinsert else oadd) ctor (ht_elements target)
                            (contributed (f_packed source) w (ht_cores source)))
    (exists n w1 t1, copy_loop (insert_merge overwrite) ctor (negb overwrite) (f_packed source) w target
                       (take n (raw_slots source)) = Ok (w1, t1) /\ nTableSize t1 = HT_MAX_SIZE).
Proof.
  intros Hinv Hsm Hd Hfit. rewrite <- contributed_cores. unfold zend_hash_merge. destruct overwrite.
  - by apply (copy_loop_ok (insert_merge true) oinsert false direct merge_overwrite_inserter ctor).
  - by apply (copy_loop_ok (insert_merge false) oadd true direct merge_add_inserter ctor).
Qed.
End Theorems3.

(** ** Instances on concrete tables *)

Lemma demo_source_fit P : P (ZVal 4 1) -> P (ZVal 4 2) -> source_fit P None w0 demo_ht.
Proof.
  intros H1 H2. unfold source_fit, raw_slots. repeat apply Forall_cons_2; [| |apply Forall_nil_2]; right.
  - split; [vm_compute; done|]. split; [done|]. by exists (Some (ZVal 4 1)).
  - split; [vm_compute; done|]. split; [vm_compute; done|]. by exists (Some (ZVal 4 2)).
Qed.

Lemma demo_packed_roomy : roomy_keys (ht_elements demo_packed).
Proof. apply Forall_singleton. done. Qed.

Lemma zend_hash_copy_correct_witness :
  runs (zend_hash_copy w0 demo_packed demo_ht None)
    (fun '(w', t) => ht_inv t /\ w_ind w' = w_ind w0
       /\ ht_elements t = [(KInt 0, ZVal 4 7); (KStr [97], ZVal 4 1); (KInt 5, ZVal 4 2)])
    (exists n w1 t1, copy_loop insert_update None false false w0 demo_packed
                       (take n (raw_slots demo_ht)) = Ok (w1, t1) /\ nTableSize t1 = HT_MAX_SIZE).
Proof.
  exact (zend_hash_copy_correct w0 demo_packed demo_ht None demo_packed_inv demo_packed_roomy
    (demo_source_fit (fun _ => True) I I)).
Defined.

Lemma zend_hash_merge_correct_witness :
  runs (zend_hash_merge w0 demo_packed demo_ht None false)
    (fun '(w', t) => ht_inv t /\ w_ind w' = w_ind w0
       /\ ht_elements t = [(KInt 0, ZVal 4 7); (KStr [97], ZVal 4 1); (KInt 5, ZVal 4 2)])
    (exists n w1 t1, copy_loop (insert_merge false) None true false w0 demo_packed
                       (take n (raw_slots demo_ht)) = Ok (w1, t1) /\ nTableSize t1 = HT_MAX_SIZE).
Proof.
  exact (zend_hash_merge_correct w0 demo_packed demo_ht None false demo_packed_inv demo_packed_roomy
    (proj2 (Forall_singleton (fun e : hkey * zval => direct e.2) (KInt 0, ZVal 4 7)) I)
    (demo_source_fit direct I I)).
Defined.
