(* ===== verification/SortOps.v ===== *)
(** * zend_sort: the hybrid insertion sort and quicksort (Zend/zend_sort.c)

    The routines see their array only through [cmp], the comparison function,
    and [swp], the function that exchanges two elements. [M] is the memory the
    two work on. A pointer [base + siz * i] is the index [i]; both functions
    are undefined outside the array. *)

From S2P Require Import Prelude.

Section SortOps.
Context {M : Type} (cmp : M -> Z -> Z -> res (M * Z)) (swp : M -> Z -> Z -> res M).

(** [cmp(a, b) > 0] *)
Definition cmp_gt (m : M) (a b : Z) : res (M * bool) :=
  '(m, r) ← cmp m a b; Ok (m, 0 <? r).

Definition zend_sort_2 (m : M) (a b : Z) : res M :=
  '(m, g) ← cmp_gt m a b;
  if g : bool then swp m a b else Ok m.

Definition zend_sort_3 (m : M) (a b c : Z) : res M :=
  '(m, g) ← cmp_gt m a b;
  if negb g then
    '(m, g) ← cmp_gt m b c;
    if negb g then Ok m
    else
      m ← swp m b c;
      '(m, g) ← cmp_gt m a b;
      if g : bool then swp m a b else Ok m
  else
    '(m, g) ← cmp_gt m c b;
    if negb g then swp m a c
    else
      m ← swp m a b;
      '(m, g) ← cmp_gt m b c;
      if g : bool then swp m b c else Ok m.

Definition zend_sort_4 (m : M) (a b c d : Z) : res M :=
  m ← zend_sort_3 m a b c;
  '(m, g) ← cmp_gt m c d;
  if g : bool then
    m ← swp m c d;
    '(m, g) ← cmp_gt m b c;
    if g : bool then
      m ← swp m b c;
      '(m, g) ← cmp_gt m a b;
      if g : bool then swp m a b else Ok m
    else Ok m
  else Ok m.

Definition zend_sort_5 (m : M) (a b c d e : Z) : res M :=
  m ← zend_sort_4 m a b c d;
  '(m, g) ← cmp_gt m d e;
  if g : bool then
    m ← swp m d e;
    '(m, g) ← cmp_gt m c d;
    if g : bool then
      m ← swp m c d;
      '(m, g) ← cmp_gt m b c;
      if g : bool then
        m ← swp m b c;
        '(m, g) ← cmp_gt m a b;
        if g : bool then swp m a b else Ok m
      else Ok m
    else Ok m
  else Ok m.

(** [while (j != start)]: where to insert element [i], one step at a time. *)
Fixpoint scan_by_one (fuel : nat) (m : M) (start j i : Z) : res (M * Z) :=
  match fuel with
  | O => Ub
  | S fuel =>
      if j =? start then Ok (m, j)
      else
        let j := j - 1 in
        '(m, g) ← cmp_gt m j i;
        if negb g then Ok (m, j + 1) else scan_by_one fuel m start j i
  end.

(** [do ... while (1)]: the same, two steps at a time. *)
Fixpoint scan_by_two (fuel : nat) (m : M) (start j i : Z) : res (M * Z) :=
  match fuel with
  | O => Ub
  | S fuel =>
      let j := j - 2 in
      '(m, g) ← cmp_gt m j i;
      if negb g then
        let j := j + 1 in
        '(m, g) ← cmp_gt m j i;
        Ok (m, if negb g then j + 1 else j)
      else if j =? start then Ok (m, j)
      else if j =? start + 1 then
        let j := j - 1 in
        '(m, g) ← cmp_gt m i j;
        Ok (m, if g : bool then j + 1 else j)
      else scan_by_two fuel m start j i
  end.

(** [for (k = i; k > j; k -= siz) swp(k, k - siz)] *)
Fixpoint shift_down (fuel : nat) (m : M) (k j : Z) : res M :=
  match fuel with
  | O => Ub
  | S fuel =>
      if j <? k then m ← swp m k (k - 1); shift_down fuel m (k - 1) j else Ok m
  end.

(** The body of the insertion loops. *)
Definition insert_at (scan : nat -> M -> Z -> Z -> Z -> res (M * Z)) (m : M) (start i : Z) : res M :=
  let fuel := S (Z.to_nat (i - start)) in
  let j := i - 1 in
  '(m, g) ← cmp_gt m j i;
  if negb g then Ok m
  else
    '(m, j) ← scan fuel m start j i;
    shift_down fuel m i j.

(** [for (i = ...; i < stop; i += siz)] *)
Fixpoint insert_loop (scan : nat -> M -> Z -> Z -> Z -> res (M * Z)) (fuel : nat) (m : M)
    (start i stop : Z) : res M :=
  match fuel with
  | O => Ub
  | S fuel =>
      if i <? stop then m ← insert_at scan m start i; insert_loop scan fuel m start (i + 1) stop
      else Ok m
  end.

Definition zend_insert_sort (m : M) (base nmemb : Z) : res M :=
  if (nmemb =? 0) || (nmemb =? 1) then Ok m
  else if nmemb =? 2 then zend_sort_2 m base (base + 1)
  else if nmemb =? 3 then zend_sort_3 m base (base + 1) (base + 1 + 1)
  else if nmemb =? 4 then zend_sort_4 m base (base + 1) (base + 2) (base + 1 + 2)
  else if nmemb =? 5 then zend_sort_5 m base (base + 1) (base + 2) (base + 1 + 2) (base + 2 + 2)
  else
    let sentry := base + 6 in
    m ← insert_loop scan_by_one 6 m base (base + 1) sentry;
    insert_loop scan_by_two (S (Z.to_nat (nmemb - 6))) m base sentry (base + nmemb).

(** [while (cmp(pivot, i) > 0) { i += siz; if (i == j) goto done; }]; the
    boolean says that the loop left through [done]. *)
Fixpoint part_up (fuel : nat) (m : M) (pivot i j : Z) : res (M * Z * bool) :=
  match fuel with
  | O => Ub
  | S fuel =>
      '(m, g) ← cmp_gt m pivot i;
      if g : bool then
        let i := i + 1 in
        if i =? j then Ok (m, i, true) else part_up fuel m pivot i j
      else Ok (m, i, false)
  end.

(** [while (cmp(j, pivot) > 0) { j -= siz; if (j == i) goto done; }] *)
Fixpoint part_down (fuel : nat) (m : M) (pivot i j : Z) : res (M * Z * bool) :=
  match fuel with
  | O => Ub
  | S fuel =>
      '(m, g) ← cmp_gt m j pivot;
      if g : bool then
        let j := j - 1 in
        if j =? i then Ok (m, j, true) else part_down fuel m pivot i j
      else Ok (m, j, false)
  end.

(** The outer [while (1)]; the value is [i] at [done]. *)
Fixpoint part_loop (fuel : nat) (m : M) (pivot i j : Z) : res (M * Z) :=
  match fuel with
  | O => Ub
  | S fuel' =>
      '(m, i, finished) ← part_up fuel m pivot i j;
      if finished : bool then Ok (m, i)
      else
        let j := j - 1 in
        if j =? i then Ok (m, i)
        else
          '(m, j, finished) ← part_down fuel m pivot i j;
          if finished : bool then Ok (m, i)
          else
            m ← swp m i j;
            let i := i + 1 in
            if i =? j then Ok (m, i) else part_loop fuel' m pivot i j
  end.

(** The choice of the pivot and the partition around it; the value is [i]. *)
Definition zend_sort_split (m : M) (start nmemb : Z) : res (M * Z) :=
  let end_ := start + nmemb in
  let offset := Z.shiftr nmemb 1 in
  let pivot := start + offset in
  m ← (if negb (Z.shiftr nmemb 10 =? 0) then
         let delta := Z.shiftr offset 1 in
         zend_sort_5 m start (start + delta) pivot (pivot + delta) (end_ - 1)
       else zend_sort_3 m start pivot (end_ - 1));
  m ← swp m (start + 1) pivot;
  let pivot := start + 1 in
  '(m, i) ← part_loop (Z.to_nat nmemb) m pivot (pivot + 1) (end_ - 1);
  m ← swp m pivot (i - 1);
  Ok (m, i).

Fixpoint zend_sort_loop (fuel : nat) (m : M) (base nmemb : Z) : res M :=
  match fuel with
  | O => Ub
  | S fuel =>
      if nmemb <=? 16 then zend_insert_sort m base nmemb
      else
        let start := base in
        let end_ := start + nmemb in
        '(m, i) ← zend_sort_split m start nmemb;
        if (i - 1) - start <? end_ - i then
          m ← zend_sort_loop fuel m start (i - start - 1);
          zend_sort_loop fuel m i (end_ - i)
        else
          m ← zend_sort_loop fuel m i (end_ - i);
          zend_sort_loop fuel m start (i - start - 1)
  end.

Definition zend_sort (m : M) (base nmemb : Z) : res M :=
  zend_sort_loop (S (Z.to_nat nmemb)) m base nmemb.
End SortOps.

(** ** An array of elements

    [S] is what the comparison function may change besides. *)
Section ArrayMem.
Context {S A : Type} (compar : S -> A -> A -> S * Z) (swap : A -> A -> A * A).

Definition array_cmp (m : S * list A) (i j : Z) : res ((S * list A) * Z) :=
  let '(s, l) := m in
  a ← rd l i; b ← rd l j;
  let '(s, r) := compar s a b in
  Ok ((s, l), r).

(** [swp(p, q)]: when [p] and [q] are the same element both writes go there. *)
Definition array_swp (m : S * list A) (i j : Z) : res (S * list A) :=
  let '(s, l) := m in
  a ← rd l i; b ← rd l j;
  let '(a, b) := swap a b in
  l ← wr l i a; l ← wr l j b;
  Ok (s, l).
End ArrayMem.
