(* ===== verification/SortSpec.v ===== *)
(** * Correctness of zend_sort

    [SortMem] states what the routines need of the memory they sort. Safety and
    permutation hold for every comparison function; sortedness for those that
    agree with a transitive relation. *)

From S2P Require Import Prelude.
From S2P Require Import SortOps.

(** ** Exchanging two elements *)
Section Swap.
Context {V : Type}.
Implicit Types (l : list V) (x y : V) (P : V -> Prop).

Definition lswap l (i j : Z) : list V :=
  match zget l i, zget l j with
  | Some x, Some y => zset (zset l i y) j x
  | _, _ => l
  end.

Lemma zlen_lswap l i j : zlen (lswap l i j) = zlen l.
Proof. unfold lswap. destruct (zget l i), (zget l j); try done. by rewrite !zlen_zset. Qed.

Lemma zget_lswap l i j k : 0 <= i < zlen l -> 0 <= j < zlen l ->
  zget (lswap l i j) k = if k =? i then zget l j else if k =? j then zget l i else zget l k.
Proof.
  intros Hi Hj. unfold lswap.
  destruct (zget_is_Some l i Hi) as [x Hx], (zget_is_Some l j Hj) as [y Hy].
  rewrite Hx, Hy. destruct (Z.eq_dec k j) as [->|Hkj].
  - rewrite zget_zset_eq by (rewrite zlen_zset; lia).
    destruct (Z.eqb_spec j i) as [->|]; [congruence|]. by rewrite Z.eqb_refl.
  - rewrite zget_zset_ne by lia. rewrite (proj2 (Z.eqb_neq k j) Hkj).
    destruct (Z.eqb_spec k i) as [->|]; [apply zget_zset_eq; lia|]. rewrite zget_zset_ne by lia. done.
Qed.

Lemma lswap_perm l i j : lswap l i j ≡ₚ l.
Proof.
  unfold lswap. destruct (zget l i) as [x|] eqn:Hx, (zget l j) as [y|] eqn:Hy; try done.
  pose proof (zget_Some_range _ _ _ Hx) as Hi. pose proof (zget_Some_range _ _ _ Hy) as Hj.
  unfold zget, zset in *. rewrite (proj2 (Z.leb_le _ _)) in Hx by lia. rewrite (proj2 (Z.leb_le _ _)) in Hy by lia.
  by apply Permutation_insert_swap.
Qed.

(** One exchange inside [b, e). *)
Definition swap_in (b e : Z) l l' : Prop :=
  exists i j, b <= i < e /\ b <= j < e /\ 0 <= b /\ e <= zlen l /\ l' = lswap l i j.
(** Exchanges inside [b, e), any number of them. *)
Definition swaps_in (b e : Z) : relation (list V) := rtc (swap_in b e).

(** [P] holds of the elements in [b, e). *)
Definition all_in (b e : Z) P l : Prop := forall k x, b <= k < e -> zget l k = Some x -> P x.

Lemma swap_in_mono b e b' e' l l' : swap_in b e l l' -> 0 <= b' <= b -> e <= e' <= zlen l ->
  swap_in b' e' l l'.
Proof. intros (i & j & Hi & Hj & H0 & He & ->) Hb Hee. exists i, j. split_and!; try done; lia. Qed.

Lemma swaps_in_zlen b e l l' : swaps_in b e l l' -> zlen l' = zlen l.
Proof.
  induction 1 as [|l l1 l2 (i & j & Hi & Hj & H0 & He & ->) _ IH]; [done|]. by rewrite IH, zlen_lswap.
Qed.

Lemma swaps_in_mono b e b' e' l l' : swaps_in b e l l' -> 0 <= b' <= b -> e <= e' <= zlen l ->
  swaps_in b' e' l l'.
Proof.
  intros Hs Hb He. revert He. induction Hs as [|l l1 l2 Hl _ IH]; intros He; [apply rtc_refl|].
  apply rtc_l with l1; [by eapply swap_in_mono|]. apply IH.
  destruct Hl as (i & j & _ & _ & _ & _ & ->). by rewrite zlen_lswap.
Qed.

Lemma swaps_in_perm b e l l' : swaps_in b e l l' -> l' ≡ₚ l.
Proof.
  induction 1 as [|l l1 l2 (i & j & _ & _ & _ & _ & ->) _ IH]; [done|]. by rewrite IH, lswap_perm.
Qed.

Lemma swaps_in_outside b e l l' k : swaps_in b e l l' -> ~ b <= k < e -> zget l' k = zget l k.
Proof.
  induction 1 as [|l l1 l2 (i & j & Hi & Hj & H0 & He & ->) _ IH]; intros Hk; [done|].
  rewrite IH by done. rewrite zget_lswap by lia. by repeat zcase; try lia.
Qed.

Lemma swaps_in_all b e l l' P : swaps_in b e l l' -> all_in b e P l -> all_in b e P l'.
Proof.
  induction 1 as [|l l1 l2 (i & j & Hi & Hj & H0 & He & ->) _ IH]; intros Hall; [done|]. apply IH.
  intros k x Hk. rewrite zget_lswap by lia. repeat zcase; intros Hx.
  - by apply (Hall j).
  - by apply (Hall i).
  - by apply (Hall k).
Qed.

Lemma swaps_in_one b e l i j : b <= i < e -> b <= j < e -> 0 <= b -> e <= zlen l ->
  swaps_in b e l (lswap l i j).
Proof. intros. apply rtc_once. by exists i, j. Qed.
End Swap.

(** ** The interface of the sorted memory

    [view] is the list of sorted values and [frame] what sorting leaves alone.
    The comparison may change neither; [ordered] holds when its answers agree
    with the transitive relation [le]. *)
Class SortMem (M V F : Type) (cmp : M -> Z -> Z -> res (M * Z)) (swp : M -> Z -> Z -> res M) := {
  view : M -> list V;
  frame : M -> F;
  ordered : Prop;
  le : V -> V -> Prop;
  le_trans : ordered -> forall x y z, le x y -> le y z -> le x z;
  cmp_ok : forall m i j x y, zget (view m) i = Some x -> zget (view m) j = Some y ->
    exists m' r, cmp m i j = Ok (m', r) /\ view m' = view m /\ frame m' = frame m
      /\ (ordered -> if 0 <? r then le y x else le x y);
  swp_ok : forall m i j, 0 <= i < zlen (view m) -> 0 <= j < zlen (view m) ->
    exists m', swp m i j = Ok m' /\ view m' = lswap (view m) i j /\ frame m' = frame m;
}.

Section Spec.
Context {M V F : Type} {cmp : M -> Z -> Z -> res (M * Z)} {swp : M -> Z -> Z -> res M}.
Context {SM : SortMem M V F cmp swp}.
Implicit Types (m : M) (l : list V).

Definition size m : Z := zlen (view m).

(** From [m] to [m'] by exchanges inside [b, e). *)
Definition moves (b e : Z) m m' : Prop :=
  swaps_in b e (view m) (view m') /\ frame m' = frame m.

(** The elements at [i] and [j] are in order. *)
Definition le_at l (i j : Z) : Prop :=
  forall x y, zget l i = Some x -> zget l j = Some y -> le x y.
Definition sorted (b e : Z) l : Prop := forall i j, b <= i < j -> j < e -> le_at l i j.

Lemma moves_refl b e m : moves b e m m.
Proof. split; [apply rtc_refl|done]. Qed.

Lemma moves_same b e m m' : view m' = view m -> frame m' = frame m -> moves b e m m'.
Proof. intros Hv Hf. split; [rewrite Hv; apply rtc_refl|done]. Qed.

Lemma moves_trans b e m1 m2 m3 : moves b e m1 m2 -> moves b e m2 m3 -> moves b e m1 m3.
Proof. intros [H1 F1] [H2 F2]. unfold moves, swaps_in in *; split; [by etrans|by rewrite F2]. Qed.

Lemma moves_size b e m m' : moves b e m m' -> size m' = size m.
Proof. intros [H _]. by apply (swaps_in_zlen _ _ _ _ H). Qed.

Lemma moves_mono b e b' e' m m' : moves b e m m' -> 0 <= b' <= b -> e <= e' <= size m ->
  moves b' e' m m'.
Proof. intros [H Hf] Hb He. split; [by eapply swaps_in_mono|done]. Qed.

Lemma cmp_gt_ok m i j : 0 <= i < size m -> 0 <= j < size m ->
  exists m' g, cmp_gt cmp m i j = Ok (m', g) /\ view m' = view m /\ frame m' = frame m
    /\ (ordered -> if g : bool then le_at (view m) j i else le_at (view m) i j).
Proof.
  intros Hi Hj. destruct (zget_is_Some _ _ Hi) as [x Hx], (zget_is_Some _ _ Hj) as [y Hy].
  destruct (cmp_ok m i j x y Hx Hy) as (m' & r & Hc & Hv & Hf & Ho).
  exists m', (0 <? r). unfold cmp_gt. rewrite Hc. split_and!; try done.
  intros Hord. specialize (Ho Hord). unfold le_at. destruct (0 <? r); intros; by simplify_eq.
Qed.

Lemma le_at_trans l i j k : ordered -> 0 <= j < zlen l -> le_at l i j -> le_at l j k -> le_at l i k.
Proof.
  intros Ho Hj H1 H2 x z Hx Hz. destruct (zget_is_Some l j Hj) as [y Hy].
  eapply le_trans; [done|by apply H1|by apply H2].
Qed.

(** ** The sorting networks for three, four and five elements

    [during lo hi ps l0 f0 m]: [m] comes from [l0] by exchanges between the
    positions [ps], which lie in [lo, hi). *)
Definition cell m (i : Z) (x : V) : Prop := zget (view m) i = Some x.

Record during (lo hi : Z) (ps : list Z) (l0 : list V) (f0 : F) (m : M) : Prop := {
  du_swaps : swaps_in lo hi l0 (view m);
  du_frame : frame m = f0;
  du_others : forall k, k ∉ ps -> zget (view m) k = zget l0 k;
  du_pos : Forall (fun p => 0 <= lo <= p /\ p < hi <= zlen l0) ps;
}.

Lemma during_start lo hi ps m : Forall (fun p => 0 <= lo <= p /\ p < hi <= size m) ps ->
  during lo hi ps (view m) (frame m) m.
Proof. intros H. by split. Qed.

Lemma during_moves lo hi ps m m' : during lo hi ps (view m) (frame m) m' -> moves lo hi m m'.
Proof. intros [H1 H2 _ _]. done. Qed.

Lemma during_cell lo hi ps l0 f0 m p : during lo hi ps l0 f0 m -> p ∈ ps -> exists x, cell m p x.
Proof.
  intros [H1 _ _ H2] Hp. apply zget_is_Some. rewrite (swaps_in_zlen _ _ _ _ H1).
  rewrite Forall_forall in H2. specialize (H2 p Hp). cbv beta in H2. lia.
Qed.

Lemma during_sub lo hi ps ps' l0 f0 m m' : during lo hi ps l0 f0 m ->
  during lo hi ps' (view m) (frame m) m' -> ps' ⊆ ps -> during lo hi ps l0 f0 m'.
Proof.
  intros [H1 H2 H3 H4] [K1 K2 K3 _] Hsub. split; [|congruence| |done].
  - unfold swaps_in in *. by etrans.
  - intros k Hk. rewrite K3 by set_solver. by apply H3.
Qed.

Lemma cmp_cell lo hi ps l0 f0 m i j x y : during lo hi ps l0 f0 m -> cell m i x -> cell m j y ->
  exists m' g, cmp_gt cmp m i j = Ok (m', g) /\ during lo hi ps l0 f0 m'
    /\ (forall p v, cell m p v -> cell m' p v)
    /\ (ordered -> if g : bool then le y x else le x y).
Proof.
  intros [H1 H2 H3 H4] Hx Hy. destruct (cmp_ok m i j x y Hx Hy) as (m' & r & Hc & Hv & Hf & Ho).
  exists m', (0 <? r). unfold cmp_gt, cell. rewrite Hc, Hv. split_and!; try done.
  split; rewrite ?Hv; try done. congruence.
Qed.

Lemma swp_cell lo hi ps l0 f0 m i j x y : during lo hi ps l0 f0 m -> cell m i x -> cell m j y ->
  i ∈ ps -> j ∈ ps -> i <> j ->
  exists m', swp m i j = Ok m' /\ during lo hi ps l0 f0 m' /\ cell m' i y /\ cell m' j x
    /\ (forall p v, p <> i -> p <> j -> cell m p v -> cell m' p v).
Proof.
  intros [H1 H2 H3 H4] Hx Hy Hi Hj Hne. pose proof H4 as Hps. rewrite Forall_forall in Hps.
  pose proof (Hps i Hi) as Pi. pose proof (Hps j Hj) as Pj. cbv beta in Pi, Pj.
  pose proof (swaps_in_zlen _ _ _ _ H1) as Hlen.
  destruct (swp_ok m i j) as (m' & Hs & Hv & Hf); [lia|lia|]. exists m'. unfold cell.
  pose proof (zget_lswap (view m) i j) as Hg. rewrite <- Hv in Hg.
  split_and!; [done| | | |].
  - split; [|congruence| |done].
    + eapply rtc_r; [done|]. exists i, j. split_and!; (done || lia).
    + intros k Hk. rewrite Hg by lia. rewrite (proj2 (Z.eqb_neq _ _)) by set_solver.
      rewrite (proj2 (Z.eqb_neq _ _)) by set_solver. by apply H3.
  - rewrite Hg by lia. by rewrite Z.eqb_refl.
  - rewrite Hg by lia. rewrite (proj2 (Z.eqb_neq j i)) by lia. by rewrite Z.eqb_refl.
  - intros p v Hp1 Hp2 Hv'. rewrite Hg by lia. by rewrite !(proj2 (Z.eqb_neq _ _)).
Qed.
End Spec.

(** Runs a network one comparison or exchange at a time, keeping the contents
    of its cells. *)
Ltac net_step :=
  match goal with
  | D : during _ _ _ _ _ ?m, Hx : cell ?m ?i _, Hy : cell ?m ?j _ |- context [cmp_gt _ ?m ?i ?j] =>
      let m' := fresh "m" in let g := fresh "g" in let E := fresh "E" in
      let D' := fresh "D" in let Hc := fresh "Hc" in
      destruct (cmp_cell _ _ _ _ _ _ _ _ _ _ D Hx Hy) as (m' & g & E & D' & Hc & ?);
      rewrite E, bind_ok; clear E;
      repeat match goal with H : cell m _ _ |- _ => apply Hc in H end; clear Hc D;
      destruct g; cbn [negb]
  | D : during _ _ _ _ _ ?m, Hx : cell ?m ?i _, Hy : cell ?m ?j _ |- context [?swp ?m ?i ?j] =>
      let m' := fresh "m" in let E := fresh "E" in
      let D' := fresh "D" in let Hc := fresh "Hc" in let C1 := fresh "C" in let C2 := fresh "C" in
      destruct (swp_cell _ _ _ _ _ _ _ _ _ _ D Hx Hy) as (m' & E & D' & C1 & C2 & Hc);
        [set_solver|set_solver|done|];
      rewrite E, ?bind_ok; clear E Hx Hy;
      repeat match goal with H : cell m _ _ |- _ => apply Hc in H; [|done|done] end; clear Hc D
  end.
