(* ===== verification/SortNet.v ===== *)
(** * Correctness of zend_sort: networks, insertion sort, partition

    The sorting networks for up to five elements, insertion sort with its binary search,
    and the quicksort around them. *)

From S2P Require Import Prelude.
From S2P Require Import SortOps.
From S2P Require Import SortSpec.

Section Net.
Context {M V F : Type} {cmp : M -> Z -> Z -> res (M * Z)} {swp : M -> Z -> Z -> res M}.
Context {SM : SortMem M V F cmp swp}.
Implicit Types (m : M) (l : list V).

Fixpoint chain (vs : list V) : Prop :=
  match vs with
  | x :: (y :: _) as vs' => le x y /\ chain vs'
  | _ => True
  end.

(** A network on [ps] turned [m] into [m'], where [ps] holds a chain. *)
Definition net_done (lo hi : Z) (ps : list Z) m m' : Prop :=
  during lo hi ps (view m) (frame m) m'
  /\ exists vs, Forall2 (cell m') ps vs /\ (ordered -> chain vs).

Definition net_pos (lo hi : Z) (ps : list Z) m : Prop :=
  Forall (fun p => 0 <= lo <= p /\ p < hi <= size m) ps /\ NoDup ps.

Ltac net_leaf :=
  eexists; split; [done|]; split; [done|]; eexists; split;
  [repeat (apply Forall2_cons; split; [eassumption|]); apply Forall2_nil; done|];
  cbn [chain]; intros Hord;
  repeat match goal with H : ordered -> _ |- _ => specialize (H Hord) end;
  destruct_and?; by split_and?.

Lemma zend_sort_2_ok lo hi m a b : net_pos lo hi [a; b] m ->
  exists m', zend_sort_2 cmp swp m a b = Ok m' /\ net_done lo hi [a; b] m m'.
Proof.
  intros [D%during_start (Hab & _)%NoDup_cons]. assert (a <> b) as N1 by set_solver.
  destruct (during_cell _ _ _ _ _ _ a D) as [x Cx]; [set_solver|].
  destruct (during_cell _ _ _ _ _ _ b D) as [y Cy]; [set_solver|].
  unfold zend_sort_2. repeat net_step; net_leaf.
Qed.

Lemma zend_sort_3_ok lo hi m a b c : net_pos lo hi [a; b; c] m ->
  exists m', zend_sort_3 cmp swp m a b c = Ok m' /\ net_done lo hi [a; b; c] m m'.
Proof.
  intros [D%during_start (Hab & (Hbc & _)%NoDup_cons)%NoDup_cons].
  assert (a <> b /\ a <> c /\ b <> c) as (N1 & N2 & N3) by set_solver.
  destruct (during_cell _ _ _ _ _ _ a D) as [x Cx]; [set_solver|].
  destruct (during_cell _ _ _ _ _ _ b D) as [y Cy]; [set_solver|].
  destruct (during_cell _ _ _ _ _ _ c D) as [z Cz]; [set_solver|].
  unfold zend_sort_3. repeat net_step; net_leaf.
Qed.

(** A network on [ps] that starts with one on the positions before the last. *)
Lemma net_extend lo hi ps q m m' : net_pos lo hi (ps ++ [q]) m -> net_done lo hi ps m m' ->
  during lo hi (ps ++ [q]) (view m) (frame m) m' /\ (exists w, cell m' q w)
  /\ exists vs, Forall2 (cell m') ps vs /\ (ordered -> chain vs).
Proof.
  intros [Hp Hnd] [D [vs Hvs]]. pose proof (during_start _ _ _ _ Hp) as D0.
  pose proof (during_sub _ _ _ _ _ _ _ _ D0 D ltac:(set_solver)) as D1.
  split; [done|]. split; [|by exists vs]. apply (during_cell _ _ _ _ _ _ q D1). set_solver.
Qed.

Lemma net_pos_front lo hi ps q m : net_pos lo hi (ps ++ [q]) m -> net_pos lo hi ps m.
Proof. intros [[H1 _]%Forall_app [H2 _]%NoDup_app]. done. Qed.

Lemma zend_sort_4_ok lo hi m a b c d : net_pos lo hi [a; b; c; d] m ->
  exists m', zend_sort_4 cmp swp m a b c d = Ok m' /\ net_done lo hi [a; b; c; d] m m'.
Proof.
  intros Hp. destruct (zend_sort_3_ok lo hi m a b c) as (m1 & E1 & N).
  { by apply (net_pos_front _ _ [a; b; c] d). }
  destruct (net_extend lo hi [a; b; c] d m m1 Hp N) as (D & [w Cw] & vs & Hvs & Hch). clear N.
  destruct Hp as [_ Hnd]. cbn [app] in *. unfold zend_sort_4. rewrite E1, bind_ok.
  repeat (apply Forall2_cons_inv_l in Hvs as (? & ? & ? & Hvs & ->)). apply Forall2_nil_inv_l in Hvs as ->.
  assert (a <> b /\ a <> c /\ a <> d /\ b <> c /\ b <> d /\ c <> d) as (? & ? & ? & ? & ? & ?).
  { rewrite !NoDup_cons in Hnd. set_solver. }
  cbn [chain] in Hch. repeat net_step; net_leaf.
Qed.

Lemma zend_sort_5_ok lo hi m a b c d e : net_pos lo hi [a; b; c; d; e] m ->
  exists m', zend_sort_5 cmp swp m a b c d e = Ok m' /\ net_done lo hi [a; b; c; d; e] m m'.
Proof.
  intros Hp. destruct (zend_sort_4_ok lo hi m a b c d) as (m1 & E1 & N).
  { by apply (net_pos_front _ _ [a; b; c; d] e). }
  destruct (net_extend lo hi [a; b; c; d] e m m1 Hp N) as (D & [w Cw] & vs & Hvs & Hch). clear N.
  destruct Hp as [_ Hnd]. cbn [app] in *. unfold zend_sort_5. rewrite E1, bind_ok.
  repeat (apply Forall2_cons_inv_l in Hvs as (? & ? & ? & Hvs & ->)). apply Forall2_nil_inv_l in Hvs as ->.
  assert (a <> b /\ a <> c /\ a <> d /\ a <> e /\ b <> c /\ b <> d /\ b <> e /\ c <> d /\ c <> e /\ d <> e)
    as (? & ? & ? & ? & ? & ? & ? & ? & ? & ?).
  { rewrite !NoDup_cons in Hnd. set_solver. }
  cbn [chain] in Hch. repeat net_step; net_leaf.
Qed.

(** A chain at neighbouring positions is a sorted segment. *)
Lemma chain_le x y vs1 vs2 vs3 : ordered -> chain (vs1 ++ x :: vs2 ++ y :: vs3) -> le x y.
Proof.
  intros Ho. induction vs1 as [|v vs1 IH]; cbn [app].
  - revert x. induction vs2 as [|u vs2 IH]; cbn [app]; intros x [H1 H2]; [done|].
    by apply (le_trans Ho _ u), IH.
  - intros Hc. apply IH. destruct vs1; cbn in *; by destruct Hc.
Qed.

Lemma net_sorted lo hi base n ps m m' : net_done lo hi ps m m' -> ps = seqZ base n -> 0 <= base ->
  ordered -> sorted base (base + n) (view m').
Proof.
  intros [_ (vs & Hvs & Hch)] -> Hb Ho i j Hij Hj x y Hx Hy.
  assert (forall k z, base <= k < base + n -> zget (view m') k = Some z ->
            vs !! Z.to_nat (k - base) = Some z) as Hk.
  { intros k z Hk Hz. destruct (Forall2_lookup_l _ _ _ (Z.to_nat (k - base)) k Hvs) as (z' & Hz' & Hc).
    - apply lookup_seqZ. lia.
    - unfold cell in Hc. by simplify_eq. }
  apply Hk in Hx; [|lia]. apply Hk in Hy; [|lia].
  rewrite <- (take_drop_middle _ _ _ Hx) in Hch.
  assert (drop (S (Z.to_nat (i - base))) vs !! (Z.to_nat (j - base) - S (Z.to_nat (i - base)))%nat = Some y) as Hy'.
  { rewrite lookup_drop. rewrite <- Hy. f_equal. lia. }
  rewrite <- (take_drop_middle _ _ _ Hy') in Hch. by eapply chain_le, Hch.
Qed.
End Net.

(** ** Insertion sort *)

Section Insert.
Context {M V F : Type} {cmp : M -> Z -> Z -> res (M * Z)} {swp : M -> Z -> Z -> res M}.
Context {SM : SortMem M V F cmp swp}.
Implicit Types (m : M) (l : list V).

(** The elements [j, k) move up by one and the element at [k] goes to [j]. *)
Lemma shift_down_ok fuel lo hi m k j : 0 <= lo <= j -> j <= k < hi -> hi <= size m ->
  (Z.to_nat (k - j) < fuel)%nat ->
  exists m', shift_down swp fuel m k j = Ok m' /\ moves lo hi m m'
    /\ forall p, zget (view m') p = if p =? j then zget (view m) k
                                   else if (j <? p) && (p <=? k) then zget (view m) (p - 1)
                                   else zget (view m) p.
Proof.
  revert m k. induction fuel as [|fuel IH]; intros m k Hlo Hk Hhi Hf; [lia|]. cbn [shift_down].
  destruct (Z.ltb_spec j k).
  - destruct (swp_ok m k (k - 1)) as (m1 & E & Hv & Hfr); [unfold size in *; lia..|]. rewrite E, bind_ok.
    assert (moves lo hi m m1) as Hm1.
    { split; [rewrite Hv; apply swaps_in_one; unfold size in *; lia|done]. }
    destruct (IH m1 (k - 1)) as (m2 & E2 & Hm2 & Hg); [lia|lia| |lia|].
    { by rewrite (moves_size _ _ _ _ Hm1). }
    exists m2. split; [done|]. split; [by eapply moves_trans|]. intros p. rewrite Hg, Hv.
    rewrite !zget_lswap by (unfold size in *; lia).
    repeat (zcase; cbn [andb]); try lia; try done; f_equal; lia.
  - exists m. split; [done|]. split; [apply moves_refl|]. intros p.
    repeat (zcase; cbn [andb]); try lia; f_equal; lia.
Qed.

(** A search from [j] down returns where element [i] belongs. *)
Definition scan_ok (scan : nat -> M -> Z -> Z -> Z -> res (M * Z)) (least : Z) : Prop :=
  forall fuel m start j i, 0 <= start -> start + least <= j < i -> i < size m ->
  (Z.to_nat (j - start) < fuel)%nat ->
  exists m' r, scan fuel m start j i = Ok (m', r) /\ view m' = view m /\ frame m' = frame m
    /\ start <= r <= j
    /\ (ordered -> le_at (view m) i j ->
        le_at (view m) i r /\ (r = start \/ le_at (view m) (r - 1) i)).

Lemma scan_by_one_ok : scan_ok (scan_by_one cmp) 0.
Proof.
  intros fuel. induction fuel as [|fuel IH]; intros m start j i Hs Hj Hi Hf; [lia|].
  cbn [scan_by_one]. destruct (Z.eqb_spec j start) as [->|].
  { exists m, start. split_and!; try done; try lia. auto. }
  destruct (cmp_gt_ok m (j - 1) i) as (m1 & g & E & Hv & Hfr & Ho); [lia..|]. rewrite E, bind_ok.
  destruct g; cbn [negb].
  - destruct (IH m1 start (j - 1) i) as (m2 & r & E2 & Hv2 & Hfr2 & Hr & Hle); [lia|lia| |lia|].
    { unfold size in *. by rewrite Hv. }
    exists m2, r. rewrite Hv2, Hv in *. split_and!; try done; try lia; try congruence.
    intros Hord _. apply Hle; [done|]. by apply Ho.
  - exists m1, (j - 1 + 1). split_and!; try done; try lia. intros Hord Hij.
    replace (j - 1 + 1) with j by lia. split; [done|]. right. by apply Ho.
Qed.

Lemma scan_by_two_ok : scan_ok (scan_by_two cmp) 2.
Proof.
  intros fuel. induction fuel as [|fuel IH]; intros m start j i Hs Hj Hi Hf; [lia|].
  cbn [scan_by_two]. destruct (cmp_gt_ok m (j - 2) i) as (m1 & g & E & Hv & Hfr & Ho); [lia..|].
  rewrite E, bind_ok. assert (size m1 = size m) as Hsz by (unfold size; by rewrite Hv).
  destruct g; cbn [negb].
  - destruct (Z.eqb_spec (j - 2) start) as [Es|Es].
    { exists m1, (j - 2). split_and!; try done; try lia. intros Hord _. split; [by apply Ho|by left]. }
    destruct (Z.eqb_spec (j - 2) (start + 1)) as [Es1|Es1].
    + replace (j - 2 - 1) with start by lia.
      destruct (cmp_gt_ok m1 i start) as (m2 & g & E2 & Hv2 & Hfr2 & Ho2); [lia..|].
      rewrite E2, bind_ok. exists m2, (if g then start + 1 else start). rewrite Hv in Ho2.
      split_and!; [done|congruence|congruence|destruct g; lia|destruct g; lia|].
      intros Hord _. specialize (Ho Hord). specialize (Ho2 Hord). rewrite Es1 in Ho.
      destruct g; [|by split; [|left]]. split; [done|]. right. by replace (start + 1 - 1) with start by lia.
    + destruct (IH m1 start (j - 2) i) as (m2 & r & E2 & Hv2 & Hfr2 & Hr & Hle); [lia..|].
      exists m2, r. rewrite Hv2, Hv in *. split_and!; try done; try lia; try congruence.
      intros Hord _. apply Hle; [done|]. by apply Ho.
  - replace (j - 2 + 1) with (j - 1) by lia. replace (j - 1 + 1) with j by lia.
    destruct (cmp_gt_ok m1 (j - 1) i) as (m2 & g & E2 & Hv2 & Hfr2 & Ho2); [lia..|].
    rewrite E2, bind_ok. exists m2, (if negb g then j else j - 1). rewrite Hv in Ho2.
    split_and!; [done|congruence|congruence|destruct g; cbn; lia|destruct g; cbn; lia|].
    intros Hord Hij. specialize (Ho Hord). specialize (Ho2 Hord).
    destruct g; cbn [negb]; (split; [done|]); right; [|done]. by replace (j - 1 - 1) with (j - 2) by lia.
Qed.

(** Inserting element [i] into the sorted segment before it. *)
Lemma insert_sorted l l' start i r : ordered -> 0 <= start -> start <= r <= i -> i < zlen l ->
  sorted start i l -> (r < i -> le_at l i r) -> (r = start \/ le_at l (r - 1) i) ->
  (forall p, zget l' p = if p =? r then zget l i
                         else if (r <? p) && (p <=? i) then zget l (p - 1) else zget l p) ->
  sorted start (i + 1) l'.
Proof.
  intros Ho Hs Hr Hi Hsort Hgt Hle Hg p q Hpq Hq x y. rewrite !Hg.
  assert (forall k, r <= k < i -> le_at l i k) as Habove.
  { intros k Hk. destruct (Z.eq_dec k r) as [->|]; [apply Hgt; lia|].
    apply (le_at_trans _ _ r); [done|lia|apply Hgt; lia|apply Hsort; lia]. }
  assert (forall k, start <= k < r -> le_at l k i) as Hbelow.
  { intros k Hk. destruct Hle as [|Hle]; [lia|]. destruct (Z.eq_dec k (r - 1)) as [->|]; [done|].
    apply (le_at_trans _ _ (r - 1)); [done|lia|apply Hsort; lia|done]. }
  repeat (zcase; cbn [andb]); try lia; intros Hx Hy.
  all: first [ by apply (Habove (q - 1) ltac:(lia) x y)
             | by apply (Hbelow p ltac:(lia) x y)
             | by apply (Hsort (p - 1) (q - 1) ltac:(lia) ltac:(lia) x y)
             | by apply (Hsort p (q - 1) ltac:(lia) ltac:(lia) x y)
             | by apply (Hsort p q ltac:(lia) ltac:(lia) x y) ].
Qed.

Lemma insert_at_ok scan least m start i : scan_ok scan least ->
  0 <= start -> start + least < i -> i < size m -> 0 <= least ->
  exists m', insert_at cmp swp scan m start i = Ok m' /\ moves start (i + 1) m m'
    /\ (ordered -> sorted start i (view m) -> sorted start (i + 1) (view m')).
Proof.
  intros Hscan Hs Hl Hi Hl0. unfold insert_at.
  destruct (cmp_gt_ok m (i - 1) i) as (m1 & g & E & Hv & Hfr & Ho); [lia..|]. rewrite E, bind_ok.
  destruct g; cbn [negb].
  - destruct (Hscan (S (Z.to_nat (i - start))) m1 start (i - 1) i) as (m2 & r & E2 & Hv2 & Hfr2 & Hr & Hle);
      [done|lia| |lia|].
    { unfold size in *. by rewrite Hv. }
    rewrite E2, bind_ok.
    destruct (shift_down_ok (S (Z.to_nat (i - start))) start (i + 1) m2 i r) as (m3 & E3 & Hm & Hg); [lia|lia| |lia|].
    { unfold size in *. rewrite Hv2, Hv. lia. }
    exists m3. split; [done|]. destruct Hm as [Hsw Hf]. rewrite Hv2, Hv in *. split.
    + split; [done|congruence].
    + intros Hord Hsort. destruct (Hle Hord) as [H1 H2]; [by apply Ho|].
      apply (insert_sorted (view m) _ start i r); try done; lia.
  - exists m1. split; [done|]. split; [by apply moves_same|]. intros Hord Hsort.
    apply (insert_sorted (view m) _ start i i); try done; try lia.
    + right. by apply Ho.
    + intros p. rewrite Hv. repeat (zcase; cbn [andb]); try lia; try done. by subst.
Qed.

Lemma insert_loop_ok scan least fuel m start i stop : scan_ok scan least -> 0 <= least ->
  0 <= start -> start + least < i -> i <= stop <= size m -> (Z.to_nat (stop - i) < fuel)%nat ->
  exists m', insert_loop cmp swp scan fuel m start i stop = Ok m' /\ moves start stop m m'
    /\ (ordered -> sorted start i (view m) -> sorted start stop (view m')).
Proof.
  intros Hscan Hl0 Hs. revert m i. induction fuel as [|fuel IH]; intros m i Hl Hst Hf; [lia|].
  cbn [insert_loop]. destruct (Z.ltb_spec i stop).
  - destruct (insert_at_ok scan least m start i Hscan) as (m1 & E & Hm & Hsort); [lia..|].
    rewrite E, bind_ok. pose proof (moves_size _ _ _ _ Hm) as Hsz.
    destruct (IH m1 (i + 1)) as (m2 & E2 & Hm2 & Hsort2); [lia..|]. exists m2. split; [done|].
    split; [|by auto]. eapply moves_trans; [|done]. eapply moves_mono; [done|lia..].
  - exists m. split; [done|]. split; [apply moves_refl|]. by replace i with stop by lia.
Qed.

Lemma sorted_short b e l : e <= b + 1 -> sorted b e l.
Proof. intros He i j Hi Hj. lia. Qed.

(** What a sorting routine does to [b, e). *)
Definition sorts (m : M) (r : res M) (b e : Z) : Prop :=
  exists m', r = Ok m' /\ moves b e m m' /\ (ordered -> sorted b e (view m')).

Lemma net_sorts base n ps m r : 0 <= base -> base + n <= size m -> ps = seqZ base n ->
  (net_pos base (base + n) ps m -> exists m', r = Ok m' /\ net_done base (base + n) ps m m') ->
  sorts m r base (base + n).
Proof.
  intros Hb Hn Hps Hnet. destruct Hnet as (m' & E & Hd).
  { rewrite Hps. split; [|apply NoDup_seqZ]. apply Forall_forall. intros p Hp%elem_of_seqZ. lia. }
  exists m'. split; [done|]. split; [by eapply during_moves, Hd|]. intros Ho.
  by eapply net_sorted.
Qed.

Ltac seqZ_list :=
  repeat (rewrite seqZ_cons by lia; apply (f_equal2 cons); [lia|]); by rewrite seqZ_nil by lia.

Lemma zend_insert_sort_ok m base n : 0 <= base -> 0 <= n -> base + n <= size m ->
  sorts m (zend_insert_sort cmp swp m base n) base (base + n).
Proof.
  intros Hb Hn Hs. unfold zend_insert_sort.
  destruct (Z.eqb_spec n 0); [|destruct (Z.eqb_spec n 1)]; cbn [orb].
  1,2: exists m; split_and!; [done|apply moves_refl|]; intros _; apply sorted_short; lia.
  destruct (Z.eqb_spec n 2) as [->|].
  { eapply net_sorts; [done|done| |apply zend_sort_2_ok]. seqZ_list. }
  destruct (Z.eqb_spec n 3) as [->|].
  { eapply net_sorts; [done|done| |apply zend_sort_3_ok]. seqZ_list. }
  destruct (Z.eqb_spec n 4) as [->|].
  { eapply net_sorts; [done|done| |apply zend_sort_4_ok]. seqZ_list. }
  destruct (Z.eqb_spec n 5) as [->|].
  { eapply net_sorts; [done|done| |apply zend_sort_5_ok]. seqZ_list. }
  destruct (insert_loop_ok _ 0 6 m base (base + 1) (base + 6) scan_by_one_ok) as (m1 & E1 & Hm1 & Hs1); [lia..|].
  rewrite E1, bind_ok. pose proof (moves_size _ _ _ _ Hm1) as Hsz.
  destruct (insert_loop_ok _ 2 (S (Z.to_nat (n - 6))) m1 base (base + 6) (base + n) scan_by_two_ok)
    as (m2 & E2 & Hm2 & Hs2); [lia..|].
  exists m2. split; [done|]. split.
  - eapply moves_trans; [|done]. eapply moves_mono; [done|lia..].
  - intros Ho. apply Hs2, Hs1, sorted_short; (done || lia).
Qed.
End Insert.

(** ** Partition and quicksort *)

Section Quick.
Context {M V F : Type} {cmp : M -> Z -> Z -> res (M * Z)} {swp : M -> Z -> Z -> res M}.
Context {SM : SortMem M V F cmp swp}.
Implicit Types (m : M) (l : list V) (p : V).

(** ** Partition around the value [p] at [pivot] *)
Lemma part_up_ok fuel m pivot p i j : zget (view m) pivot = Some p ->
  0 <= i < j -> j <= size m -> (Z.to_nat (j - i) <= fuel)%nat ->
  exists m' r fin, part_up cmp fuel m pivot i j = Ok (m', r, fin)
    /\ view m' = view m /\ frame m' = frame m /\ i <= r /\ (if fin : bool then r = j else r < j)
    /\ (ordered -> all_in i r (fun x => le x p) (view m)
          /\ (fin = false -> all_in r (r + 1) (le p) (view m))).
Proof.
  intros Hp. pose proof (zget_Some_range _ _ _ Hp) as Hpr. revert m Hp Hpr i.
  induction fuel as [|fuel IH]; intros m Hp Hpr i Hi Hj Hf; [lia|]. cbn [part_up].
  destruct (cmp_gt_ok m pivot i) as (m1 & g & E & Hv & Hfr & Ho); [done|lia|]. rewrite E, bind_ok.
  destruct g.
  - assert (ordered -> all_in i (i + 1) (fun x => le x p) (view m)) as Hone.
    { intros Hord k x Hk Hx. assert (k = i) as -> by lia. by apply Ho. }
    destruct (Z.eqb_spec (i + 1) j) as [<-|].
    + exists m1, (i + 1), true. split_and!; try done; try lia. intros Hord. split; [by apply Hone|done].
    + destruct (IH m1) with (i := i + 1) as (m2 & r & fin & E2 & Hv2 & Hfr2 & Hr & Hfin & Hord2);
        rewrite ?Hv; try done; try lia.
      { unfold size in *. rewrite Hv. lia. }
      exists m2, r, fin. rewrite Hv in *. split_and!; try done; try lia; try congruence.
      intros Hord. destruct (Hord2 Hord) as [H1 H2]. split; [|done].
      intros k x Hk Hx. destruct (Z.eq_dec k i); [apply (Hone Hord k); (done || lia)|].
      apply (H1 k); (done || lia).
  - exists m1, i, false. split_and!; try done; try lia. intros Hord. split.
    + intros k x Hk. lia.
    + intros _ k x Hk Hx. assert (k = i) as -> by lia. by apply Ho.
Qed.

Lemma part_down_ok fuel m pivot p i j : zget (view m) pivot = Some p ->
  0 <= i < j -> j < size m -> (Z.to_nat (j - i) <= fuel)%nat ->
  exists m' r fin, part_down cmp fuel m pivot i j = Ok (m', r, fin)
    /\ view m' = view m /\ frame m' = frame m /\ r <= j /\ (if fin : bool then r = i else i < r)
    /\ (ordered -> all_in (r + 1) (j + 1) (le p) (view m)
          /\ (fin = false -> all_in r (r + 1) (fun x => le x p) (view m))).
Proof.
  intros Hp. pose proof (zget_Some_range _ _ _ Hp) as Hpr. revert m Hp Hpr j.
  induction fuel as [|fuel IH]; intros m Hp Hpr j Hi Hj Hf; [lia|]. cbn [part_down].
  destruct (cmp_gt_ok m j pivot) as (m1 & g & E & Hv & Hfr & Ho); [lia|done|]. rewrite E, bind_ok.
  destruct g.
  - assert (ordered -> all_in j (j + 1) (le p) (view m)) as Hone.
    { intros Hord k x Hk Hx. assert (k = j) as -> by lia. by apply Ho. }
    destruct (Z.eqb_spec (j - 1) i) as [<-|].
    + exists m1, (j - 1), true. split_and!; try done; try lia. intros Hord.
      split; [|done]. replace (j - 1 + 1) with j by lia. by apply Hone.
    + destruct (IH m1) with (j := j - 1) as (m2 & r & fin & E2 & Hv2 & Hfr2 & Hr & Hfin & Hord2);
        rewrite ?Hv; try done; try lia.
      { unfold size in *. rewrite Hv. lia. }
      exists m2, r, fin. rewrite Hv in *. split_and!; try done; try lia; try congruence.
      intros Hord. destruct (Hord2 Hord) as [H1 H2]. split; [|done].
      intros k x Hk Hx. destruct (Z.eq_dec k j); [apply (Hone Hord k); (done || lia)|].
      apply (H1 k); (done || lia).
  - exists m1, j, false. split_and!; try done; try lia. intros Hord. split.
    + intros k x Hk. lia.
    + intros _ k x Hk Hx. assert (k = j) as -> by lia. by apply Ho.
Qed.

Lemma all_in_app b c e P l : all_in b c P l -> all_in c e P l -> all_in b e P l.
Proof. intros H1 H2 k x Hk. destruct (Z.lt_ge_cases k c); [apply H1|apply H2]; lia. Qed.

Lemma all_in_sub b e b' e' P l : all_in b e P l -> b <= b' -> e' <= e -> all_in b' e' P l.
Proof. intros H Hb He k x Hk. apply H. lia. Qed.

(** [lo, r) is below the pivot and [r, hi) above it. *)
Definition parted lo r hi p l : Prop := all_in lo r (fun x => le x p) l /\ all_in r hi (le p) l.

(** The exchange of the two elements where the searches stopped. *)
Lemma parted_swap lo i j hi p l : 0 <= lo <= i -> i < j < hi -> hi <= zlen l ->
  all_in lo i (fun x => le x p) l -> all_in i (i + 1) (le p) l ->
  all_in j (j + 1) (fun x => le x p) l -> all_in (j + 1) hi (le p) l ->
  all_in lo (i + 1) (fun x => le x p) (lswap l i j) /\ all_in j hi (le p) (lswap l i j).
Proof.
  intros Hlo Hij Hhi H1 H2 H3 H4. split; intros k x Hk; rewrite zget_lswap by lia.
  - zcase; [intros Hx; apply (H3 j); (done || lia)|]. zcase; [lia|]. apply H1. lia.
  - zcase; [lia|]. zcase; [intros Hx; apply (H2 i); (done || lia)|]. apply H4. lia.
Qed.

Lemma part_loop_ok fuel m pivot p lo i j hi : zget (view m) pivot = Some p -> pivot < lo ->
  0 <= lo <= i -> i < j <= hi -> hi <= size m -> (Z.to_nat (j - i) <= fuel)%nat ->
  exists m' r, part_loop cmp swp fuel m pivot i j = Ok (m', r) /\ moves lo hi m m' /\ i <= r <= j
    /\ (ordered -> all_in lo i (fun x => le x p) (view m) -> all_in j hi (le p) (view m) ->
        parted lo r hi p (view m')).
Proof.
  revert m i j. induction fuel as [|fuel IH]; intros m i j Hp Hpl Hlo Hij Hhi Hf; [lia|].
  cbn [part_loop].
  destruct (part_up_ok (S fuel) m pivot p i j) as (m1 & i1 & fin & E & Hv & Hfr & Hi1 & Hfin & Hup);
    [done|lia|lia|lia|]. rewrite E, bind_ok. assert (size m1 = size m) as Hs1 by (unfold size; by rewrite Hv).
  assert (moves lo hi m m1) as Hm1 by by apply moves_same.
  destruct fin.
  { exists m1, i1. split_and!; [done|done|lia|lia|]. intros Hord Hl Hr. rewrite Hv. destruct (Hup Hord) as [Hup1 _].
    split; [by apply (all_in_app _ i)|]. by subst. }
  destruct (Z.eqb_spec (j - 1) i1) as [Ej|Ej].
  { exists m1, i1. split_and!; [done|done|lia|lia|]. intros Hord Hl Hr. rewrite Hv. destruct (Hup Hord) as [Hup1 Hup2].
    split; [by apply (all_in_app _ i)|]. apply (all_in_app _ (i1 + 1)); [by apply Hup2|].
    by replace (i1 + 1) with j by lia. }
  destruct (part_down_ok (S fuel) m1 pivot p i1 (j - 1)) as (m2 & j1 & fin & E2 & Hv2 & Hfr2 & Hj1 & Hfin2 & Hdn);
    [by rewrite Hv|lia|lia|lia|]. rewrite E2, bind_ok. rewrite Hv in Hdn, Hv2.
  assert (moves lo hi m m2) as Hm2 by (apply moves_same; congruence).
  replace (j - 1 + 1) with j in Hdn by lia.
  destruct fin.
  { exists m2, i1. split_and!; [done|done|lia|lia|]. intros Hord Hl Hr. rewrite Hv2.
    destruct (Hup Hord) as [Hup1 Hup2], (Hdn Hord) as [Hdn1 _]. split; [by apply (all_in_app _ i)|].
    apply (all_in_app _ (i1 + 1)); [by apply Hup2|]. apply (all_in_app _ j); [by subst|done]. }
  assert (zlen (view m2) = size m) as Hs2 by (unfold size; by rewrite Hv2).
  destruct (swp_ok m2 i1 j1) as (m3 & E3 & Hv3 & Hfr3); [lia..|]. rewrite E3, bind_ok.
  assert (moves lo hi m m3) as Hm3.
  { eapply moves_trans; [exact Hm2|]. split; [|done]. rewrite Hv3. apply swaps_in_one; lia. }
  assert (ordered -> all_in lo i (fun x => le x p) (view m) -> all_in j hi (le p) (view m) ->
    all_in lo (i1 + 1) (fun x => le x p) (view m3) /\ all_in j1 hi (le p) (view m3)) as Hnext.
  { intros Hord Hl Hr. destruct (Hup Hord) as [Hup1 Hup2], (Hdn Hord) as [Hdn1 Hdn2]. rewrite Hv3, Hv2.
    unfold size in *. apply parted_swap; try lia; auto.
    - by apply (all_in_app _ i).
    - by apply (all_in_app _ j). }
  destruct (Z.eqb_spec (i1 + 1) j1) as [<-|].
  { exists m3, (i1 + 1). split_and!; [done|done|lia|lia|]. intros Hord Hl Hr. by apply Hnext. }
  destruct (IH m3 (i1 + 1) j1) as (m4 & r & E4 & Hm4 & Hr & Hpart); try lia.
  { rewrite (swaps_in_outside lo hi (view m)); [done|apply Hm3|lia]. }
  { rewrite (moves_size _ _ _ _ Hm3). lia. }
  exists m4, r. split; [done|]. split; [by eapply moves_trans|]. split; [lia|].
  intros Hord Hl Hrr. destruct (Hnext Hord Hl Hrr). by apply Hpart.
Qed.

(** ** The pivot is between the first and the last element *)
Definition pick_pivot m (start nmemb : Z) : res M :=
  if negb (Z.shiftr nmemb 10 =? 0) then
    zend_sort_5 cmp swp m start (start + Z.shiftr (Z.shiftr nmemb 1) 1) (start + Z.shiftr nmemb 1)
      (start + Z.shiftr nmemb 1 + Z.shiftr (Z.shiftr nmemb 1) 1) (start + nmemb - 1)
  else zend_sort_3 cmp swp m start (start + Z.shiftr nmemb 1) (start + nmemb - 1).

Lemma pick_pivot_ok m b n : 0 <= b -> 17 <= n -> b + n <= size m ->
  exists m' p, pick_pivot m b n = Ok m' /\ moves b (b + n) m m'
    /\ zget (view m') (b + Z.shiftr n 1) = Some p
    /\ (ordered -> all_in b (b + 1) (fun x => le x p) (view m')
                   /\ all_in (b + n - 1) (b + n) (le p) (view m')).
Proof.
  intros Hb Hn Hs. unfold pick_pivot. rewrite !Z.shiftr_div_pow2 by lia.
  change (2 ^ 1) with 2. change (2 ^ 10) with 1024.
  pose proof (Z.div_mod n 2 ltac:(lia)) as D1. pose proof (Z.mod_pos_bound n 2 ltac:(lia)) as D2.
  pose proof (Z.div_mod (n / 2) 2 ltac:(lia)) as D3. pose proof (Z.mod_pos_bound (n / 2) 2 ltac:(lia)) as D4.
  destruct (Z.eqb_spec (n / 1024) 0); cbn [negb].
  - destruct (zend_sort_3_ok b (b + n) m b (b + n / 2) (b + n - 1)) as (m' & E & D & vs & Hvs & Hch).
    { split; [repeat apply Forall_cons_2; try apply Forall_nil_2; cbv beta; lia|].
      rewrite !NoDup_cons, !elem_of_cons. split_and!; try apply NoDup_nil_2; rewrite ?elem_of_nil; lia. }
    repeat (apply Forall2_cons_inv_l in Hvs as (? & ? & ? & Hvs & ->)). apply Forall2_nil_inv_l in Hvs as ->.
    eexists m', _. split; [done|]. split; [by eapply during_moves|]. split; [done|].
    intros Hord. destruct (Hch Hord) as (H1' & H2' & _). unfold cell in *.
    split; intros k y Hk Hy.
    + assert (k = b) as -> by lia. by simplify_eq.
    + assert (k = b + n - 1) as -> by lia. by simplify_eq.
  - destruct (zend_sort_5_ok b (b + n) m b (b + n / 2 / 2) (b + n / 2) (b + n / 2 + n / 2 / 2) (b + n - 1))
      as (m' & E & D & vs & Hvs & Hch).
    { split; [repeat apply Forall_cons_2; try apply Forall_nil_2; cbv beta; lia|].
      rewrite !NoDup_cons, !elem_of_cons. split_and!; try apply NoDup_nil_2; rewrite ?elem_of_nil; lia. }
    repeat (apply Forall2_cons_inv_l in Hvs as (? & ? & ? & Hvs & ->)). apply Forall2_nil_inv_l in Hvs as ->.
    eexists m', _. split; [done|]. split; [by eapply during_moves|]. split; [done|].
    intros Hord. destruct (Hch Hord) as (H1' & H2' & H3' & H4' & _). unfold cell in *.
    split; intros k y Hk Hy.
    + assert (k = b) as -> by lia. simplify_eq. by eapply le_trans.
    + assert (k = b + n - 1) as -> by lia. simplify_eq. by eapply le_trans.
Qed.

(** Moving the pivot, at [b + 1], between the two parts. *)
Lemma place_pivot b i e p l : 0 <= b -> b + 2 <= i <= e - 1 -> e <= zlen l ->
  zget l (b + 1) = Some p -> all_in b (b + 1) (fun x => le x p) l ->
  parted (b + 2) i (e - 1) p l -> all_in (e - 1) e (le p) l ->
  all_in b (i - 1) (fun x => le x p) (lswap l (b + 1) (i - 1))
  /\ all_in i e (le p) (lswap l (b + 1) (i - 1)).
Proof.
  intros Hb Hi He Hp H1 [H2 H3] H4. split; intros k x Hk; rewrite zget_lswap by lia.
  - zcase.
    + intros Hx. apply (H2 (i - 1)); (done || lia).
    + zcase; [lia|]. destruct (Z.eq_dec k b) as [->|]; [apply H1; lia|apply H2; lia].
  - zcase; [lia|]. zcase; [lia|]. by apply (all_in_app i (e - 1) e (le p) l H3 H4).
Qed.

Lemma zend_sort_split_ok m b n : 0 <= b -> 17 <= n -> b + n <= size m ->
  exists m' i p, zend_sort_split cmp swp m b n = Ok (m', i) /\ moves b (b + n) m m'
    /\ b + 2 <= i <= b + n - 1 /\ zget (view m') (i - 1) = Some p
    /\ (ordered -> all_in b (i - 1) (fun x => le x p) (view m') /\ all_in i (b + n) (le p) (view m')).
Proof.
  intros Hb Hn Hs. destruct (pick_pivot_ok m b n Hb Hn Hs) as (m1 & p & E1 & Hm1 & Hp & Ho1).
  pose proof (moves_size _ _ _ _ Hm1) as Hs1. unfold pick_pivot in E1. unfold zend_sort_split. cbv zeta.
  rewrite E1, bind_ok. clear E1. rewrite !Z.shiftr_div_pow2 in * by lia. change (2 ^ 1) with 2 in *.
  pose proof (Z.div_mod n 2 ltac:(lia)) as D1. pose proof (Z.mod_pos_bound n 2 ltac:(lia)) as D2.
  unfold size in *.
  destruct (swp_ok m1 (b + 1) (b + n / 2)) as (m2 & E2 & Hv2 & Hf2); [lia..|]. rewrite E2, bind_ok.
  assert (moves b (b + n) m1 m2) as Hm2 by (split; [rewrite Hv2; apply swaps_in_one; lia|done]).
  pose proof (moves_size _ _ _ _ Hm2) as Hs2. unfold size in Hs2.
  assert (forall k, zget (view m2) k = if k =? b + 1 then Some p
            else if k =? b + n / 2 then zget (view m1) (b + 1) else zget (view m1) k) as Hg2.
  { intros k. rewrite Hv2, zget_lswap by lia. by rewrite Hp. }
  replace (b + 1 + 1) with (b + 2) by lia.
  destruct (part_loop_ok (Z.to_nat n) m2 (b + 1) p (b + 2) (b + 2) (b + n - 1) (b + n - 1))
    as (m3 & i & E3 & Hm3 & Hi & Hpart); try lia.
  { by rewrite Hg2, Z.eqb_refl. }
  { unfold size. lia. }
  rewrite E3, bind_ok. pose proof (moves_size _ _ _ _ Hm3) as Hs3. unfold size in Hs3.
  assert (forall k, ~ b + 2 <= k < b + n - 1 -> zget (view m3) k = zget (view m2) k) as Hg3.
  { intros k Hk. by apply (swaps_in_outside _ _ _ _ _ (proj1 Hm3)). }
  destruct (swp_ok m3 (b + 1) (i - 1)) as (m4 & E4 & Hv4 & Hf4); [lia..|]. rewrite E4, bind_ok.
  exists m4, i, p. split; [done|]. split; [|split; [lia|]].
  { eapply moves_trans; [exact Hm1|]. eapply moves_trans; [exact Hm2|].
    eapply moves_trans; [eapply moves_mono; [exact Hm3|lia|unfold size; lia]|].
    split; [rewrite Hv4; apply swaps_in_one; lia|done]. }
  assert (zget (view m3) (b + 1) = Some p) as Hp3 by (rewrite Hg3, Hg2, Z.eqb_refl by lia; done).
  rewrite Hv4. split.
  { rewrite zget_lswap by lia. zcase; [by replace (i - 1) with (b + 1) by lia|]. by rewrite Z.eqb_refl. }
  intros Hord. destruct (Ho1 Hord) as [Hfst Hlst]. apply place_pivot; try done; try lia.
  - intros k x Hk. rewrite Hg3, Hg2 by lia. zcase; [lia|]. zcase; [lia|]. by apply Hfst.
  - apply Hpart; [done| |]; intros k x Hk; lia.
  - intros k x Hk. rewrite Hg3, Hg2 by lia. zcase; [lia|]. zcase; [lia|]. by apply Hlst.
Qed.

(** ** The recursion *)
Lemma sorted_join b i e p l : ordered -> zget l (i - 1) = Some p ->
  all_in b (i - 1) (fun x => le x p) l -> all_in i e (le p) l ->
  sorted b (i - 1) l -> sorted i e l -> sorted b e l.
Proof.
  intros Ho Hp Hl Hr S1 S2 j k Hjk Hk x y Hx Hy.
  destruct (Z.lt_ge_cases k (i - 1)); [by apply (S1 j k)|].
  destruct (Z.lt_ge_cases j i) as [Hj|]; [|apply (S2 j k); (done || lia)].
  destruct (Z.eq_dec j (i - 1)) as [->|].
  - simplify_eq. apply (Hr k); (done || lia).
  - assert (le x p) as Hxp by (apply (Hl j); (done || lia)).
    destruct (Z.eq_dec k (i - 1)) as [->|]; [by simplify_eq|].
    apply (le_trans Ho _ p); [done|]. apply (Hr k); (done || lia).
Qed.

Lemma sorted_outside b e lo hi m m' : moves lo hi m m' -> e <= lo \/ hi <= b ->
  sorted b e (view m) -> sorted b e (view m').
Proof.
  intros [Hm _] Hd Hs i j Hi Hj x y.
  rewrite !(swaps_in_outside _ _ _ _ _ Hm) by lia. by apply Hs.
Qed.

Lemma all_outside b e lo hi P m m' : moves lo hi m m' -> e <= lo \/ hi <= b ->
  all_in b e P (view m) -> all_in b e P (view m').
Proof. intros [Hm _] Hd H k x Hk. rewrite (swaps_in_outside _ _ _ _ _ Hm) by lia. by apply H. Qed.

(** Sorting one part and then the other leaves the whole sorted. *)
Lemma sorts_both b i e p m r1 f lo1 hi1 lo2 hi2 :
  0 <= b -> b + 2 <= i <= e - 1 -> e <= size m -> zget (view m) (i - 1) = Some p ->
  (ordered -> all_in b (i - 1) (fun x => le x p) (view m) /\ all_in i e (le p) (view m)) ->
  sorts m r1 lo1 hi1 ->
  (forall m1, size m1 = size m -> sorts m1 (f m1) lo2 hi2) ->
  (lo1 = b /\ hi1 = i - 1 /\ lo2 = i /\ hi2 = e) \/ (lo1 = i /\ hi1 = e /\ lo2 = b /\ hi2 = i - 1) ->
  sorts m (m1 ← r1; f m1) b e.
Proof.
  intros Hb Hi He Hp Hall (m1 & -> & Hm1 & Hs1) Hf Hcase. rewrite bind_ok.
  pose proof (moves_size _ _ _ _ Hm1) as Hsz. destruct (Hf m1 Hsz) as (m2 & E2 & Hm2 & Hs2).
  exists m2. split; [done|]. split.
  { eapply moves_trans; [eapply moves_mono; [exact Hm1|lia..]|eapply moves_mono; [exact Hm2|lia..]]. }
  intros Ho. destruct (Hall Ho) as [Hl Hr]. apply (sorted_join b i e p); [done|..].
  - rewrite (swaps_in_outside _ _ _ _ _ (proj1 Hm2)), (swaps_in_outside _ _ _ _ _ (proj1 Hm1)) by lia. done.
  - destruct Hcase as [(-> & -> & -> & ->)|(-> & -> & -> & ->)].
    + apply (all_outside _ _ _ _ _ _ _ Hm2); [lia|]. by apply (swaps_in_all _ _ _ _ _ (proj1 Hm1)).
    + apply (swaps_in_all _ _ _ _ _ (proj1 Hm2)). by apply (all_outside _ _ _ _ _ _ _ Hm1); [lia|].
  - destruct Hcase as [(-> & -> & -> & ->)|(-> & -> & -> & ->)].
    + apply (swaps_in_all _ _ _ _ _ (proj1 Hm2)). by apply (all_outside _ _ _ _ _ _ _ Hm1); [lia|].
    + apply (all_outside _ _ _ _ _ _ _ Hm2); [lia|]. by apply (swaps_in_all _ _ _ _ _ (proj1 Hm1)).
  - destruct Hcase as [(-> & -> & -> & ->)|(-> & -> & -> & ->)]; [|by apply Hs2].
    apply (sorted_outside _ _ _ _ _ _ Hm2); [lia|by apply Hs1].
  - destruct Hcase as [(-> & -> & -> & ->)|(-> & -> & -> & ->)]; [by apply Hs2|].
    apply (sorted_outside _ _ _ _ _ _ Hm2); [lia|by apply Hs1].
Qed.

Lemma sorts_after m m1 r b e : moves b e m m1 -> sorts m1 r b e -> sorts m r b e.
Proof. intros Hm (m2 & E & Hm2 & Hs). exists m2. split_and!; [done|by eapply moves_trans|done]. Qed.

Lemma zend_sort_loop_ok fuel m b n : 0 <= b -> 0 <= n -> b + n <= size m -> (Z.to_nat n < fuel)%nat ->
  sorts m (zend_sort_loop cmp swp fuel m b n) b (b + n).
Proof.
  revert m b n. induction fuel as [|fuel IH]; intros m b n Hb Hn Hs Hf; [lia|]. cbn [zend_sort_loop].
  destruct (Z.leb_spec n 16); [by apply zend_insert_sort_ok|].
  destruct (zend_sort_split_ok m b n) as (m1 & i & p & E & Hm & Hi & Hp & Ho); [lia..|].
  rewrite E, bind_ok. pose proof (moves_size _ _ _ _ Hm) as Hsz. apply (sorts_after _ _ _ _ _ Hm).
  assert (forall m2, size m2 = size m1 -> sorts m2 (zend_sort_loop cmp swp fuel m2 b (i - b - 1)) b (i - 1)) as HL.
  { intros m2 Hm2. replace (i - 1) with (b + (i - b - 1)) by lia. apply IH; lia. }
  assert (forall m2, size m2 = size m1 -> sorts m2 (zend_sort_loop cmp swp fuel m2 i (b + n - i)) i (b + n)) as HR.
  { intros m2 Hm2. replace (b + n) with (i + (b + n - i)) at 2 by lia. apply IH; lia. }
  destruct (Z.ltb_spec (i - 1 - b) (b + n - i)).
  - apply (sorts_both b i (b + n) p m1 _ _ b (i - 1) i (b + n)); try done; try lia; auto.
  - apply (sorts_both b i (b + n) p m1 _ _ i (b + n) b (i - 1)); try done; try lia; auto.
Qed.

Lemma zend_sort_ok m b n : 0 <= b -> 0 <= n -> b + n <= size m ->
  sorts m (zend_sort cmp swp m b n) b (b + n).
Proof. intros. apply zend_sort_loop_ok; lia. Qed.
End Quick.
