(* ===== verification/SortTheorems.v ===== *)
(** * zend_sort on arrays, and its theorems

    Arrays are a memory [zend_sort] can sort, and the interface [SortFn] by which the
    hash table uses a sorting routine. Safety, permutation, order, bounds. *)

From stdpp Require Import sorting.
From S2P Require Import Prelude.
From S2P Require Import SortOps.
From S2P Require Import SortSpec.
From S2P Require Import SortNet.

(** ** Arrays as sorted memory

    An exchange function may move only a part of the elements: [get] is the
    part it moves and [rest] what stays in place. *)
Section ArrayInstance.
Context {S A V R : Type} (compar : S -> A -> A -> S * Z) (swap : A -> A -> A * A).
Context (get : A -> V) (rest : A -> R) (leV : V -> V -> Prop).

Class SwapParts : Prop := {
  swap_get : forall a b, get (swap a b).1 = get b /\ get (swap a b).2 = get a;
  swap_rest : forall a b, rest (swap a b).1 = rest a /\ rest (swap a b).2 = rest b;
}.

(** The answers of [compar] agree with [leV]. *)
Definition agrees : Prop :=
  (forall x y z, leV x y -> leV y z -> leV x z) /\
  forall s a b, if 0 <? (compar s a b).2 then leV (get b) (get a) else leV (get a) (get b).

Lemma zget_fmap {B C} (f : B -> C) l i : zget (f <$> l) i = f <$> zget l i.
Proof. unfold zget. destruct (0 <=? i); [apply list_lookup_fmap|done]. Qed.

Lemma zlen_fmap {B C} (f : B -> C) l : zlen (f <$> l) = zlen l.
Proof. unfold zlen. by rewrite length_fmap. Qed.

Lemma zset_fmap {B C} (f : B -> C) l i b : f <$> zset l i b = zset (f <$> l) i (f b).
Proof. apply list_fmap_insert. Qed.

Lemma zset_id_arr {B} (l : list B) i b : zget l i = Some b -> zset l i b = l.
Proof. unfold zget, zset. destruct (0 <=? i); [apply list_insert_id|done]. Qed.

Lemma array_swp_ok `{SwapParts} (s : S) l i j : 0 <= i < zlen l -> 0 <= j < zlen l ->
  exists l', array_swp swap (s, l) i j = Ok (s, l') /\ get <$> l' = lswap (get <$> l) i j
    /\ rest <$> l' = rest <$> l.
Proof.
  intros Hi Hj. destruct (zget_is_Some l i Hi) as [a Ha], (zget_is_Some l j Hj) as [b Hb].
  unfold array_swp. rewrite (rd_ok _ _ _ Ha), bind_ok, (rd_ok _ _ _ Hb), bind_ok.
  destruct (swap_get a b) as [G1 G2], (swap_rest a b) as [R1 R2]. destruct (swap a b) as [a' b'].
  cbn [fst snd] in *. rewrite wr_ok, bind_ok, wr_ok, bind_ok by (rewrite ?zlen_zset; lia).
  eexists. split; [done|]. rewrite !zset_fmap, G1, G2, R1, R2. unfold lswap.
  rewrite !zget_fmap, Ha, Hb. cbn. split; [done|].
  rewrite (zset_id_arr _ i), zset_id_arr; [done|by rewrite zget_fmap, Hb|by rewrite zget_fmap, Ha].
Qed.

#[export] Program Instance array_sortmem `{SwapParts} :
  SortMem (S * list A) V (list R) (array_cmp compar) (array_swp swap) :=
  {| view m := get <$> m.2; frame m := rest <$> m.2; ordered := agrees; le := leV |}.
Next Obligation. intros _ [Ht _]. exact Ht. Qed.
Next Obligation.
  intros _ [s l] i j x y Hx Hy. cbn [snd] in *. rewrite zget_fmap in Hx, Hy.
  apply fmap_Some in Hx as (a & Ha & ->), Hy as (b & Hb & ->). unfold array_cmp.
  rewrite (rd_ok _ _ _ Ha), bind_ok, (rd_ok _ _ _ Hb), bind_ok.
  destruct (compar s a b) as [s' r] eqn:E. exists (s', l), r. split_and!; try done.
  intros [_ Ho]. specialize (Ho s a b). by rewrite E in Ho.
Qed.
Next Obligation.
  intros HS [s l] i j Hi Hj. cbn [snd] in *. rewrite zlen_fmap in Hi, Hj.
  destruct (array_swp_ok s l i j Hi Hj) as (l' & E & H1 & H2). by exists (s, l').
Qed.
End ArrayInstance.

(** ** Sorting routines

    [sort_func_t]: the routine is called with any memory it can sort. *)
Definition sort_func_t : Type :=
  forall M : Type, (M -> Z -> Z -> res (M * Z)) -> (M -> Z -> Z -> res M) -> M -> Z -> Z -> res M.

Class SortFn (sort : sort_func_t) : Prop :=
  sort_ok : forall M V F cmp swp (SM : SortMem M V F cmp swp) m b n,
    0 <= b -> 0 <= n -> b + n <= size m -> sorts m (sort M cmp swp m b n) b (b + n).

#[export] Instance zend_sort_fn : SortFn (@zend_sort).
Proof. intros M V F cmp swp SM m b n. apply zend_sort_ok. Qed.
#[export] Instance zend_insert_sort_fn : SortFn (@zend_insert_sort).
Proof. intros M V F cmp swp SM m b n. apply zend_insert_sort_ok. Qed.

(** ** Sorting the front of an array *)
Section Prefix.
Context {V : Type}.
Implicit Types (l : list V).

Lemma zget_cons (a : V) l i : 0 <= i -> zget (a :: l) (i + 1) = zget l i.
Proof.
  intros Hi. unfold zget. rewrite !(proj2 (Z.leb_le _ _)) by lia.
  by replace (Z.to_nat (i + 1)) with (Datatypes.S (Z.to_nat i)) by lia.
Qed.

Lemma StronglySorted_lookup (R : V -> V -> Prop) l :
  (forall i j x y, 0 <= i < j -> zget l i = Some x -> zget l j = Some y -> R x y) -> StronglySorted R l.
Proof.
  induction l as [|a l IH]; intros H; [constructor|]. apply StronglySorted_cons. split.
  - apply Forall_forall. intros x [i Hi]%list_elem_of_lookup.
    apply (H 0 (Z.of_nat (Datatypes.S i)) a x); [lia|done|]. unfold zget.
    by rewrite (proj2 (Z.leb_le _ _)), Nat2Z.id by lia.
  - apply IH. intros i j x y Hij Hx Hy. apply (H (i + 1) (j + 1)); [lia|..]; by rewrite zget_cons by lia.
Qed.

Lemma zget_take l n i x : zget (take (Z.to_nat n) l) i = Some x -> 0 <= i < n /\ zget l i = Some x.
Proof.
  intros H. pose proof (zget_Some_range _ _ _ H) as Hr. unfold zlen in Hr. rewrite length_take in Hr.
  unfold zget in *. destruct (0 <=? i); [|done]. rewrite lookup_take_lt in H by lia. split; [lia|done].
Qed.

Lemma swaps_take n l l' : swaps_in 0 n l l' -> take (Z.to_nat n) l' ≡ₚ take (Z.to_nat n) l.
Proof.
  intros H. pose proof (swaps_in_perm _ _ _ _ H) as Hp.
  assert (drop (Z.to_nat n) l' = drop (Z.to_nat n) l) as Hd.
  { apply list_eq. intros i. rewrite !lookup_drop.
    pose proof (swaps_in_outside _ _ _ _ (Z.of_nat (Z.to_nat n + i)) H ltac:(lia)) as Hz.
    unfold zget in Hz. rewrite (proj2 (Z.leb_le _ _)), Nat2Z.id in Hz by lia. done. }
  rewrite <- (take_drop (Z.to_nat n) l'), <- (take_drop (Z.to_nat n) l) in Hp. rewrite Hd in Hp.
  by apply Permutation_app_inv_r in Hp.
Qed.
End Prefix.

Lemma sort_prefix (sort : sort_func_t) `{SortFn sort} {S A V R : Type} (compar : S -> A -> A -> S * Z)
    (swap : A -> A -> A * A) (get : A -> V) (rest : A -> R) `{!SwapParts swap get rest} leV s l n :
  0 <= n <= zlen l ->
  exists s' l', sort _ (array_cmp compar) (array_swp swap) (s, l) 0 n = Ok (s', l')
    /\ length l' = length l /\ rest <$> l' = rest <$> l
    /\ get <$> take (Z.to_nat n) l' ≡ₚ get <$> take (Z.to_nat n) l
    /\ (agrees compar get leV -> StronglySorted leV (get <$> take (Z.to_nat n) l')).
Proof.
  intros Hn. destruct (sort_ok _ _ _ _ _ (array_sortmem compar swap get rest leV) (s, l) 0 n)
    as ([s' l'] & E & [Hm Hf] & Hs); [done|lia|unfold size; cbn; rewrite zlen_fmap; lia|].
  exists s', l'. cbn in Hm, Hf, Hs. split_and!; [done| |done| |].
  - apply (f_equal length) in Hf. by rewrite !length_fmap in Hf.
  - rewrite !fmap_take. by apply swaps_take.
  - intros Ha. rewrite fmap_take. apply StronglySorted_lookup. intros i j x y Hij Hx Hy.
    apply zget_take in Hx as [Hi Hx], Hy as [Hj Hy]. apply (Hs Ha i j); (done || lia).
Qed.

(** ** The theorems *)

Section Theorems.
Context {S A : Type}.

(** An exchange of whole elements. *)
Definition exchange (a b : A) : A * A := (b, a).

#[export] Instance exchange_parts : SwapParts exchange id (fun _ => tt).
Proof. by split. Qed.

(** The whole array is sorted in place. *)
Definition sort_array (sort : sort_func_t) (compar : S -> A -> A -> S * Z) (s : S) (l : list A)
  : res (S * list A) :=
  sort _ (array_cmp compar) (array_swp exchange) (s, l) 0 (zlen l).

Lemma sort_array_ok (sort : sort_func_t) `{SortFn sort} compar leA s l :
  exists s' l', sort_array sort compar s l = Ok (s', l') /\ l' ≡ₚ l
    /\ (agrees compar id leA -> StronglySorted leA l').
Proof.
  destruct (sort_prefix sort compar exchange id (fun _ => tt) leA s l (zlen l))
    as (s' & l' & E & Hl & _ & Hp & Hs); [unfold zlen; lia|].
  exists s', l'. unfold zlen in Hp, Hs. rewrite Nat2Z.id in Hp, Hs. rewrite !list_fmap_id in Hp, Hs.
  rewrite !(take_ge l), !(take_ge l') in Hp by lia. rewrite (take_ge l') in Hs by lia. by rewrite list_fmap_id in Hp.
Qed.

(** C6: zend_sort terminates on every array, never accesses memory outside it, and
    leaves a permutation of its elements, whatever the comparison function
    answers and whatever state it keeps. *)
Theorem zend_sort_safe compar s l :
  exists s' l', sort_array (@zend_sort) compar s l = Ok (s', l') /\ l' ≡ₚ l.
Proof. destruct (sort_array_ok (@zend_sort) compar (fun _ _ => True) s l) as (s' & l' & E & Hp & _).
  by exists s', l'. Qed.

(** C7: If the answers of the comparison function agree with a transitive relation,
    the array is sorted by it afterwards. *)
Theorem zend_sort_sorts compar leA s l : agrees compar id leA ->
  exists s' l', sort_array (@zend_sort) compar s l = Ok (s', l') /\ l' ≡ₚ l /\ StronglySorted leA l'.
Proof. intros Ha. destruct (sort_array_ok (@zend_sort) compar leA s l) as (s' & l' & E & Hp & Hs).
  exists s', l'. auto. Qed.

(** The insertion sort used for short arrays, alone: safe for every comparison
    function and sorting for consistent ones, at every length. *)
Theorem zend_insert_sort_sorts compar leA s l :
  exists s' l', sort_array (@zend_insert_sort) compar s l = Ok (s', l') /\ l' ≡ₚ l
    /\ (agrees compar id leA -> StronglySorted leA l').
Proof. apply (sort_array_ok (@zend_insert_sort)). Qed.

(** When no two different elements are equivalent, the hybrid sort, the
    insertion sort and a merge sort give the same array. *)
Theorem zend_sort_unique compar (leA : A -> A -> Prop) `{!RelDecision leA, !AntiSymm (=) leA, !Total leA} s l :
  agrees compar id leA ->
  exists s1 s2, sort_array (@zend_sort) compar s l = Ok (s1, merge_sort leA l)
    /\ sort_array (@zend_insert_sort) compar s l = Ok (s2, merge_sort leA l).
Proof.
  intros Ha. assert (Transitive leA) as Ht by (intros x y z; apply Ha).
  assert (forall l', l' ≡ₚ l -> StronglySorted leA l' -> l' = merge_sort leA l) as Hu.
  { intros l' Hp Hs. apply (StronglySorted_unique leA); [done|by apply StronglySorted_merge_sort|].
    by rewrite merge_sort_Permutation. }
  destruct (sort_array_ok (@zend_sort) compar leA s l) as (s1 & l1 & E1 & P1 & S1).
  destruct (sort_array_ok (@zend_insert_sort) compar leA s l) as (s2 & l2 & E2 & P2 & S2).
  exists s1, s2. by rewrite E1, E2, (Hu l1), (Hu l2) by auto.
Qed.
End Theorems.

(** ** Instances on concrete arrays *)

(** A comparison function that counts its calls. *)
Definition count_cmp (n : nat) (a b : Z) : nat * Z := (S n, a - b).

Lemma count_cmp_agrees : agrees count_cmp id Z.le.
Proof. split; [apply Z.le_trans|]. intros s a b. cbn. zcase; unfold id; lia. Qed.

Lemma zend_sort_sorts_witness :
  exists s' l', sort_array (@zend_sort) count_cmp 0%nat (Z.of_nat <$> rev (seq 0 40)) = Ok (s', l')
    /\ l' ≡ₚ (Z.of_nat <$> rev (seq 0 40)) /\ StronglySorted Z.le l'.
Proof. exact (zend_sort_sorts count_cmp Z.le 0%nat _ count_cmp_agrees). Defined.

Lemma zend_sort_unique_witness :
  exists s1 s2, sort_array (@zend_sort) count_cmp 0%nat [3; 1; 2] = Ok (s1, merge_sort Z.le [3; 1; 2])
    /\ sort_array (@zend_insert_sort) count_cmp 0%nat [3; 1; 2] = Ok (s2, merge_sort Z.le [3; 1; 2]).
Proof. exact (zend_sort_unique count_cmp Z.le 0%nat [3; 1; 2] count_cmp_agrees). Defined.

(** The quicksort branch runs: 1100 elements in decreasing order. *)
Example zend_sort_runs :
  (fun r => match r with Ok (_, l) => bool_decide (l = Z.of_nat <$> seq 0 1100) | _ => false end)
    (sort_array (@zend_sort) count_cmp 0%nat (Z.of_nat <$> rev (seq 0 1100))) = true.
Proof. vm_compute. reflexivity. Qed.
