(* ===== verification/HashSortOps.v ===== *)
(** * Operations of the hash table, parts 5 and 6: sorting, comparison, minimum and
    maximum (Zend/zend_hash.c), and the stability fallback of the array functions
    (ext/standard/array.c)

    While a table is sorted the collision links hold the original position of
    the elements: [Z_EXTRA] and [Z_NEXT] are the same word. *)

From S2P Require Import Prelude.
From S2P Require Import ZendString.
From S2P Require Import HashTypes.
From S2P Require Import HashOps.
From S2P Require Import HashIterOps.
From S2P Require Import HashApplyOps.
From S2P Require Import SortOps.
From S2P Require Import SortTheorems.

Definition Z_EXTRA (b : Bucket) : Z := b_next b.

(** An assignment of a whole zval moves the word behind it too. *)
Definition zend_hash_bucket_swap (p q : Bucket) : Bucket * Bucket :=
  (mkBucket (b_val q) (b_next q) (b_h q) (b_key q), mkBucket (b_val p) (b_next p) (b_h p) (b_key p)).
Definition zend_hash_bucket_renum_swap (p q : Bucket) : Bucket * Bucket :=
  (mkBucket (b_val q) (b_next q) (b_h p) (b_key p), mkBucket (b_val p) (b_next p) (b_h q) (b_key q)).
Definition zend_hash_bucket_packed_swap (p q : Bucket) : Bucket * Bucket :=
  (mkBucket (b_val q) (b_next q) (b_h q) (b_key p), mkBucket (b_val p) (b_next p) (b_h p) (b_key q)).

(** [for (i = 0; i < nNumUsed; i++) Z_EXTRA(arData[i].val) = i] *)
Fixpoint number_loop (fuel : nat) (n : Z) (D : list Bucket) (i : Z) : res (list Bucket) :=
  match fuel with
  | O => Ub
  | S fuel =>
      if i <? n then
        b ← rd D i; D ← wr D i (with_next i b); number_loop fuel n D (i + 1)
      else Ok D
  end.

(** The loop that also removes the holes. *)
Fixpoint squeeze_loop (fuel : nat) (n : Z) (D : list Bucket) (i j : Z) : res (list Bucket * Z) :=
  match fuel with
  | O => Ub
  | S fuel =>
      if j <? n then
        p ← rd D j;
        if is_undef (b_val p) then squeeze_loop fuel n D i (j + 1)
        else
          D ← (if i =? j then Ok D else wr D i p);
          b ← rd D i; D ← wr D i (with_next i b);
          squeeze_loop fuel n D (i + 1) (j + 1)
      else Ok (D, i)
  end.

(** [for (j = 0; j < i; j++)]: integer keys instead of the old ones. *)
Fixpoint renumber_loop (fuel : nat) (n : Z) (w : world) (D : list Bucket) (j : Z)
  : res (world * list Bucket) :=
  match fuel with
  | O => Ub
  | S fuel =>
      if j <? n then
        p ← rd D j;
        let w := match b_key p with Some key => log (EvRelease key) w | None => w end in
        D ← wr D j (with_hkey j None p);
        renumber_loop fuel n w D (j + 1)
      else Ok (w, D)
  end.

Section SortHash.
Context {E : ZendEnv} {S : Type}.

(** The values of the first nTableSize buckets become a packed array. *)
Definition sorted_to_packed (ht : HashTable) : res HashTable :=
  _ ← assert_ (nTableSize ht <=? zlen (arData ht));
  Ok (HT_HASH_RESET_PACKED
        (set_alloc HT_MIN_MASK (alloc_hash HT_MIN_MASK) []
           (b_val <$> take (Z.to_nat (nTableSize ht)) (arData ht))
           (set_flags true (f_uninit ht) true (f_empty_ind ht) ht))).

Definition zend_hash_sort_internal (w : world) (ht : HashTable) (sort : sort_func_t)
    (compar : S -> Bucket -> Bucket -> S * Z) (s : S) (renumber : bool) : res (S * world * HashTable) :=
  if negb (1 <? nNumOfElements ht) && negb (renumber && (0 <? nNumOfElements ht))
  then Ok (s, w, ht)
  else
    '(w, ht) ← (if f_packed ht then zend_hash_packed_to_hash w ht else Ok (w, ht));
    let fuel := Datatypes.S (Z.to_nat (nNumUsed ht)) in
    '(ht, i) ← (if HT_IS_WITHOUT_HOLES ht then
                  D ← number_loop fuel (nNumUsed ht) (arData ht) 0;
                  Ok (set_arData D ht, nNumUsed ht)
                else
                  '(D, i) ← squeeze_loop fuel (nNumUsed ht) (arData ht) 0 0;
                  Ok (set_nNumUsed i (set_arData D ht), i));
    let ht := if f_packed ht then ht else HT_HASH_RESET ht in
    let swp := if renumber then zend_hash_bucket_renum_swap
               else if f_packed ht then zend_hash_bucket_packed_swap else zend_hash_bucket_swap in
    '(s, D) ← sort _ (array_cmp compar) (array_swp swp) (s, arData ht) 0 (nNumUsed ht);
    let ht := set_nInternalPointer 0 (set_arData D ht) in
    '(w, ht) ← (if renumber then
                  '(w, D) ← renumber_loop (Datatypes.S (Z.to_nat i)) i w (arData ht) 0;
                  Ok (w, set_nNextFreeElement i (set_arData D ht))
                else Ok (w, ht));
    '(w, ht) ← (if f_packed ht then
                  if negb renumber then zend_hash_packed_to_hash w ht else Ok (w, ht)
                else if renumber then ht ← sorted_to_packed ht; Ok (w, ht)
                else zend_hash_rehash w ht);
    Ok (s, w, ht).

Definition zend_hash_sort_ex := zend_hash_sort_internal.
End SortHash.

(** ** Stability (ext/standard/array.c) *)

Definition stable_sort_fallback (a b : Bucket) : Z :=
  if Z_EXTRA b <? Z_EXTRA a then 1
  else if Z_EXTRA a <? Z_EXTRA b then -1
  else 0.

Definition RETURN_STABLE_SORT (a b : Bucket) (result : Z) : Z :=
  if negb (result =? 0) then result else stable_sort_fallback a b.

(** ** Comparison, minimum and maximum *)

(** The sign of memcmp_sign on blocks of the same length; the standard leaves the
    magnitude open. *)
Fixpoint memcmp_sign (a b : list Z) : Z :=
  match a, b with
  | x :: a, y :: b => if x <? y then -1 else if y <? x then 1 else memcmp_sign a b
  | _, _ => 0
  end.

Section CompareOps.
Context {E : ZendEnv} (compar : zval -> zval -> Z).

(** ** Minimum and maximum *)

(** The loop that looks for the first element. *)
Fixpoint minmax_first (fuel : nat) (ht : HashTable) (idx : Z) : res (option Z) :=
  match fuel with
  | O => Ub
  | S fuel =>
      if idx =? nNumUsed ht then Ok None
      else
        c ← slot_at ht idx;
        if negb (is_undef c.1.1) then Ok (Some idx) else minmax_first fuel ht (idx + 1)
  end.

Fixpoint minmax_loop (fuel : nat) (ht : HashTable) (flag : bool) (best idx : Z) : res Z :=
  match fuel with
  | O => Ub
  | S fuel =>
      if idx <? nNumUsed ht then
        c ← slot_at ht idx;
        if is_undef c.1.1 then minmax_loop fuel ht flag best (idx + 1)
        else
          r ← slot_at ht best;
          let best := if flag then if compar r.1.1 c.1.1 <? 0 then idx else best
                      else if 0 <? compar r.1.1 c.1.1 then idx else best in
          minmax_loop fuel ht flag best (idx + 1)
      else Ok best
  end.

Definition zend_hash_minmax (ht : HashTable) (flag : bool) : res (option zptr) :=
  if nNumOfElements ht =? 0 then Ok None
  else
    let fuel := S (Z.to_nat (nNumUsed ht)) in
    o ← minmax_first fuel ht 0;
    match o with
    | None => Ok None
    | Some idx => best ← minmax_loop fuel ht flag idx idx; Ok (Some (slot_ptr ht best))
    end.

(** ** Comparison *)

(** The inner [while (1)]: the next element of the second table. *)
Fixpoint next_element (fuel : nat) (ht : HashTable) (idx : Z) : res (Z * core) :=
  match fuel with
  | O => Ub
  | S fuel =>
      _ ← assert_ (negb (idx =? nNumUsed ht));
      c ← slot_at ht idx;
      if negb (is_undef c.1.1) then Ok (idx, c) else next_element fuel ht (idx + 1)
  end.

(** The comparison of two keys in order; [None] when they are equal. *)
Definition compare_keys (c1 c2 : core) : option Z :=
  match c1.2, c2.2 with
  | None, None =>
      if negb (c1.1.2 =? c2.1.2) then Some (if c2.1.2 <? c1.1.2 then 1 else -1) else None
  | Some key1, Some key2 =>
      let s1 := ZSTR_VAL key1 in
      let s2 := ZSTR_VAL key2 in
      if negb (zlen s1 =? zlen s2) then Some (if zlen s2 <? zlen s1 then 1 else -1)
      else
        let result := memcmp_sign s1 s2 in
        if negb (result =? 0) then Some result else None
  | Some _, None => Some 1
  | None, Some _ => Some (-1)
  end.

Definition Z_INDIRECT_P (w : world) (v : zval) : res zval :=
  match v with
  | IS_INDIRECT a => match w_ind w !! a with Some d => Ok d | None => Ub end
  | _ => Ok v
  end.

(** The comparison of two values; [None] to go on. *)
Definition compare_data (w : world) (v1 v2 : zval) : res (option Z) :=
  v1 ← Z_INDIRECT_P w v1; v2 ← Z_INDIRECT_P w v2;
  Ok (if is_undef v1 then if negb (is_undef v2) then Some (-1) else None
      else if is_undef v2 then Some 1
      else
        let result := compar v1 v2 in
        if negb (result =? 0) then Some result else None).

(** The value in the second table an element is compared with, and where the
    second position is afterwards; or the result. *)
Definition compare_partner (w : world) (ht2 : HashTable) (ordered : bool) (c1 : core) (idx2 : Z)
  : res (zval * Z + Z) :=
  if ordered then
    '(idx2, c2) ← next_element (S (Z.to_nat (nNumUsed ht2))) ht2 idx2;
    Ok (match compare_keys c1 c2 with Some r => inr r | None => inl (c2.1.1, idx2 + 1) end)
  else
    p ← (match c1.2 with
         | None => zend_hash_index_find ht2 c1.1.2
         | Some key1 => zend_hash_find ht2 key1
         end);
    match p with
    | None => Ok (inr 1)
    | Some p => v ← zptr_get w ht2 p; Ok (inl (v, idx2))
    end.

Fixpoint compare_loop (fuel : nat) (w : world) (ht1 ht2 : HashTable) (ordered : bool) (idx1 idx2 : Z) : res Z :=
  match fuel with
  | O => Ub
  | S fuel =>
      if idx1 <? nNumUsed ht1 then
        c1 ← slot_at ht1 idx1;
        if is_undef c1.1.1 then compare_loop fuel w ht1 ht2 ordered (idx1 + 1) idx2
        else
          o ← compare_partner w ht2 ordered c1 idx2;
          match o with
          | inr r => Ok r
          | inl (v2, idx2) =>
              o ← compare_data w c1.1.1 v2;
              match o with
              | Some r => Ok r
              | None => compare_loop fuel w ht1 ht2 ordered (idx1 + 1) idx2
              end
          end
      else Ok 0
  end.

Definition zend_hash_compare_impl (w : world) (ht1 ht2 : HashTable) (ordered : bool) : res Z :=
  if negb (nNumOfElements ht1 =? nNumOfElements ht2)
  then Ok (if nNumOfElements ht2 <? nNumOfElements ht1 then 1 else -1)
  else compare_loop (S (Z.to_nat (nNumUsed ht1))) w ht1 ht2 ordered 0 0.

(** [recursive1] is GC_IS_RECURSIVE(ht1): a comparison of this array is already
    under way. *)
Definition zend_hash_compare (w : world) (recursive1 : bool) (ht1 ht2 : HashTable) (ordered : bool) : res Z :=
  if ht_addr ht1 =? ht_addr ht2 then Ok 0
  else if recursive1 then Fatal
  else zend_hash_compare_impl w ht1 ht2 ordered.
End CompareOps.
