(* ===== verification/HashSort.v ===== *)
(** * Sorting a hash table *)

From stdpp Require Import sorting.
From S2P Require Import Prelude.
From S2P Require Import ZendString.
From S2P Require Import OrderedMap.
From S2P Require Import HashTypes.
From S2P Require Import HashOps.
From S2P Require Import HashChain.
From S2P Require Import HashRehash.
From S2P Require Import HashInv.
From S2P Require Import HashLayout.
From S2P Require Import HashInsert.
From S2P Require Import HashIndex.
From S2P Require Import SortOps.
From S2P Require Import SortSpec.
From S2P Require Import SortNet.
From S2P Require Import SortTheorems.
From S2P Require Import HashSortOps.

(** ** Numbering the elements *)

Definition tag_from (i : nat) (c : core) : Bucket := mkBucket c.1.1 (Z.of_nat i) c.1.2 c.2.
(** The buckets that are sorted: the elements with their positions. *)
Definition tagged (cs : list core) : list Bucket := imap tag_from cs.
Definition uncore (b : Bucket) : core := (b_val b, b_h b, b_key b).

Lemma tagged_snoc cs c : tagged (cs ++ [c]) = tagged cs ++ [tag_from (length cs) c].
Proof. unfold tagged. rewrite imap_app. cbn. by rewrite Nat.add_0_r. Qed.

Lemma zlen_tagged cs : zlen (tagged cs) = zlen cs.
Proof. unfold zlen, tagged. by rewrite length_imap. Qed.

Lemma uncore_tagged cs : uncore <$> tagged cs = cs.
Proof.
  unfold tagged. rewrite fmap_imap. rewrite <- (list_fmap_id cs) at 2. rewrite <- (imap_const id cs).
  apply imap_ext. by intros i [[v h] k] _.
Qed.

Lemma number_loop_ok D0 n fuel D i : 0 <= i <= n -> n <= zlen D -> zlen D0 = zlen D ->
  (Z.to_nat (n - i) < fuel)%nat -> zlen (cores (pre n D0)) = n ->
  pre i D = tagged (cores (pre i D0)) -> (forall k, i <= k -> zget D k = zget D0 k) ->
  exists D', number_loop fuel n D i = Ok D' /\ zlen D' = zlen D /\ pre n D' = tagged (cores (pre n D0)).
Proof.
  revert D i. induction fuel as [|fuel IH]; intros D i Hi Hn Hl Hf Hfull Hpre Hrest; [lia|].
  cbn [number_loop]. destruct (Z.ltb_spec i n).
  - destruct (zget_is_Some D i ltac:(lia)) as [b Hb]. rewrite (rd_ok _ _ _ Hb), bind_ok.
    rewrite wr_ok, bind_ok by lia.
    assert (zget D0 i = Some b) as Hb0 by (by rewrite <- Hrest by lia).
    assert (live b = true) as Hlive.
    { apply (cores_full D0 n i b); [|lia|done]. rewrite Hfull, zlen_pre by lia. done. }
    destruct (IH (zset D i (with_next i b)) (i + 1)) as (D' & E & Hl' & Hp'); rewrite ?zlen_zset; try done; try lia.
    + rewrite (pre_succ _ _ (with_next i b)) by (apply zget_zset_eq; lia). rewrite pre_zset_ge by lia.
      rewrite Hpre, (cores_succ _ _ _ Hb0), bcore_live, tagged_snoc by done. do 2 f_equal.
      unfold tag_from, with_next. cbn. f_equal.
      assert (zlen (tagged (cores (pre i D0))) = i) as Hlen by (rewrite <- Hpre, zlen_pre; lia).
      rewrite zlen_tagged in Hlen. by unfold zlen in Hlen.
    + intros k Hk. rewrite zget_zset_ne by lia. apply Hrest. lia.
    + exists D'. rewrite zlen_zset in Hl'. done.
  - exists D. split_and!; try done. by replace n with i by lia.
Qed.

Lemma squeeze_loop_ok D0 n fuel D i j : 0 <= i <= j -> j <= n -> n <= zlen D -> zlen D0 = zlen D ->
  (Z.to_nat (n - j) < fuel)%nat -> i = zlen (cores (pre j D0)) ->
  pre i D = tagged (cores (pre j D0)) -> (forall k, j <= k -> zget D k = zget D0 k) ->
  exists D', squeeze_loop fuel n D i j = Ok (D', zlen (cores (pre n D0))) /\ zlen D' = zlen D
    /\ pre (zlen (cores (pre n D0))) D' = tagged (cores (pre n D0)).
Proof.
  revert D i j. induction fuel as [|fuel IH]; intros D i j Hi Hj Hn Hl Hf Hcnt Hpre Hrest; [lia|].
  cbn [squeeze_loop]. destruct (Z.ltb_spec j n).
  - destruct (zget_is_Some D j ltac:(lia)) as [p Hp]. rewrite (rd_ok _ _ _ Hp), bind_ok.
    assert (zget D0 j = Some p) as Hp0 by (by rewrite <- Hrest by lia).
    pose proof (cores_succ _ _ _ Hp0) as Hsucc. unfold bcore, live in Hsucc.
    destruct (is_undef (b_val p)); cbn [negb] in Hsucc.
    { rewrite app_nil_r in Hsucc. apply IH; rewrite ?Hsucc; try done; try lia. intros k Hk. apply Hrest. lia. }
    assert (exists D1, (if i =? j then Ok D else wr D i p) = Ok D1 /\ zlen D1 = zlen D
              /\ zget D1 i = Some p /\ pre i D1 = pre i D
              /\ forall k, j < k -> zget D1 k = zget D k) as (D1 & E1 & Hl1 & Hg1 & Hp1 & Hk1).
    { destruct (Z.eqb_spec i j) as [->|]; [by exists D|]. exists (zset D i p). rewrite wr_ok by lia.
      split_and!; [done|apply zlen_zset|apply zget_zset_eq; lia|by rewrite pre_zset_ge by lia|].
      intros k Hk. apply zget_zset_ne; lia. }
    rewrite E1, bind_ok, (rd_ok _ _ _ Hg1), bind_ok, wr_ok, bind_ok by lia.
    destruct (IH (zset D1 i (with_next i p)) (i + 1) (j + 1)) as (D' & E & Hl' & Hp');
      rewrite ?zlen_zset, ?Hl1; try done; try lia.
    + rewrite Hsucc. unfold zlen in *. rewrite length_app. cbn. lia.
    + rewrite (pre_succ _ _ (with_next i p)) by (apply zget_zset_eq; lia). rewrite pre_zset_ge by lia.
      rewrite Hp1, Hpre, Hsucc, tagged_snoc. do 2 f_equal. unfold tag_from, with_next. cbn. f_equal. done.
    + intros k Hk. rewrite zget_zset_ne, Hk1 by lia. apply Hrest. lia.
    + exists D'. rewrite zlen_zset, Hl1 in Hl'. done.
  - assert (j = n) as -> by lia. exists D. subst i. done.
Qed.

#[export] Instance bucket_swap_parts : SwapParts zend_hash_bucket_swap id (fun _ => tt).
Proof. split; [|done]. by intros [] []. Qed.

(** What the renumbering exchange moves, and what it leaves. *)
Definition sort_val (b : Bucket) : zval * Z := (b_val b, Z_EXTRA b).
Definition sort_key (b : Bucket) : Z * option Z := (b_h b, b_key b).

#[export] Instance renum_swap_parts : SwapParts zend_hash_bucket_renum_swap sort_val sort_key.
Proof. by split. Qed.

Lemma cores_live D : Forall (fun b => live b = true) D -> cores D = uncore <$> D.
Proof.
  induction 1 as [|b D Hb _ IH]; [done|]. by rewrite cores_cons, bcore_live, IH by done.
Qed.

Lemma cores_defined D c : c ∈ cores D -> c.1.1 <> IS_UNDEF.
Proof.
  unfold cores. rewrite list_elem_of_omap. intros (b & _ & Hb). unfold bcore, live in Hb.
  destruct (b_val b) eqn:Ev; cbn in Hb; by simplify_eq.
Qed.

Lemma live_defined b : b_val b <> IS_UNDEF -> live b = true.
Proof. unfold live. by destruct (b_val b). Qed.

Lemma tagged_live cs bs : (forall c, c ∈ cs -> c.1.1 <> IS_UNDEF) ->
  (b_val <$> bs) ≡ₚ (b_val <$> tagged cs) -> Forall (fun b => live b = true) bs.
Proof.
  intros Hd Hp. apply Forall_forall. intros b Hb. apply live_defined.
  assert (b_val b ∈ b_val <$> tagged cs) as Hin by (rewrite <- Hp; by apply list_elem_of_fmap_2).
  apply list_elem_of_fmap in Hin as (t & -> & Ht).
  assert (uncore t ∈ cs) as Hc by (rewrite <- (uncore_tagged cs); by apply list_elem_of_fmap_2).
  apply (Hd _ Hc).
Qed.

Section HashSort.
Context {E : ZendEnv}.

Lemma side_ok_perm st nf cs cs' : cs' ≡ₚ cs -> side_ok st nf cs -> side_ok st nf cs'.
Proof.
  intros Hp (H1 & H2 & H3 & H4 & H5). split; [|split; [|split; [|split]]].
  - unfold okeys in *. by rewrite Hp.
  - by rewrite Hp.
  - intros Hs. rewrite Hp. by apply H3.
  - done.
  - intros h v Hin. rewrite Hp in Hin. by apply (H5 h v).
Qed.

(** A table with elements becomes an initialised hash. *)
Lemma sort_prepare w ht : ht_inv ht -> 0 < nNumOfElements ht ->
  exists w1 ht1, (if f_packed ht then zend_hash_packed_to_hash w ht else Ok (w, ht)) = Ok (w1, ht1)
    /\ mixed ht1 (ht_cores ht) /\ side_ok (f_static ht1) (nNextFreeElement ht1) (ht_cores ht)
    /\ w_same w w1.
Proof.
  intros Hinv Hc. destruct (inv_layout _ Hinv) as [H1 H2 H3 H4 H5|H1 H2 H3 H4 H5 H6|Hm].
  - exfalso. rewrite (inv_count _ Hinv), (uninit_elements _ H2 H5) in Hc. done.
  - rewrite H2. destruct (packed_convert w ht Hinv H2 H1 H5) as (w1 & ht1 & E1 & Hm & Hs & Hw & _).
    by exists w1, ht1.
  - rewrite (mx_packed _ _ Hm). exists w, ht. split_and!; try done. by apply inv_side.
Qed.

(** Holes are removed and the positions recorded. *)
Lemma sort_number ht cs : mixed ht cs ->
  exists D, (if HT_IS_WITHOUT_HOLES ht then
               D ← number_loop (S (Z.to_nat (nNumUsed ht))) (nNumUsed ht) (arData ht) 0;
               Ok (set_arData D ht, nNumUsed ht)
             else
               '(D, i) ← squeeze_loop (S (Z.to_nat (nNumUsed ht))) (nNumUsed ht) (arData ht) 0 0;
               Ok (set_nNumUsed i (set_arData D ht), i))
            = Ok (set_nNumUsed (zlen cs) (set_arData D ht), zlen cs)
    /\ zlen D = zlen (arData ht) /\ pre (zlen cs) D = tagged cs.
Proof.
  intros Hm. destruct (mx_geom _ _ Hm) as [Hs _ Hd Hu]. pose proof (mx_cores _ _ Hm) as Hcs.
  unfold HT_IS_WITHOUT_HOLES. rewrite (mx_count _ _ Hm). destruct (Z.eqb_spec (nNumUsed ht) (zlen cs)) as [Hn|Hn].
  - destruct (number_loop_ok (arData ht) (nNumUsed ht) (S (Z.to_nat (nNumUsed ht))) (arData ht) 0)
      as (D & -> & Hl & Hp); try done; try lia; [by rewrite Hcs|].
    exists D. rewrite bind_ok, <- Hn, Hp, Hcs. split_and!; [|done|done]. by destruct ht.
  - destruct (squeeze_loop_ok (arData ht) (nNumUsed ht) (S (Z.to_nat (nNumUsed ht))) (arData ht) 0 0)
      as (D & E1 & Hl & Hp); try done; try lia.
    exists D. rewrite E1, bind_ok. rewrite Hcs in *. done.
Qed.

Definition sorted_ht (n : Z) (D : list Bucket) (ht : HashTable) : HashTable :=
  set_nInternalPointer 0 (set_arData D (HT_HASH_RESET (set_nNumUsed n ht))).

(** Rebuilding the chains after the elements moved. *)
Lemma sort_finish w ht cs bs D : mixed ht cs -> side_ok (f_static ht) (nNextFreeElement ht) cs ->
  zlen D = nTableSize ht -> pre (zlen cs) D = bs -> bs ≡ₚ tagged cs ->
  exists w' ht', zend_hash_rehash w (sorted_ht (zlen cs) D ht) = Ok (w', ht') /\ ht_inv ht'
    /\ w_same w w' /\ ht_cores ht' = uncore <$> bs.
Proof.
  intros Hm Hside HD Hbs Hp. destruct (mx_geom _ _ Hm) as [Hs Hmask Hd Hu].
  assert (forall c, c ∈ cs -> c.1.1 <> IS_UNDEF) as Hdef.
  { intros c Hc. rewrite <- (mx_cores _ _ Hm) in Hc. by eapply cores_defined. }
  assert (Forall (fun b => live b = true) bs) as Hlive by (apply (tagged_live cs); [done|by rewrite Hp]).
  assert (uncore <$> bs ≡ₚ cs) as Hpc by (rewrite Hp; by rewrite uncore_tagged).
  assert (zlen cs <= nNumUsed ht) as Hcu.
  { rewrite <- (mx_cores _ _ Hm). apply rank_le. lia. }
  destruct (mixed_rehash w (sorted_ht (zlen cs) D ht) (uncore <$> bs))
    as (w' & ht' & E1 & Hm' & Hw & Hf & _); try done.
  - split; try done. cbn. unfold zlen in *. lia.
  - apply Hm.
  - apply Hm.
  - cbn. rewrite <- Hbs in *. by apply cores_live.
  - cbn. rewrite (mx_count _ _ Hm). unfold zlen. by rewrite (Permutation_length Hpc).
  - destruct Hf as (_ & Hf1 & _ & _ & Hf4 & _). cbn in Hf1, Hf4.
    destruct (mixed_inv ht' (uncore <$> bs) Hm') as [Hinv' _].
    { rewrite Hf1, Hf4. by apply (side_ok_perm _ _ cs). }
    exists w', ht'. split_and!; try done. by apply mixed_ht_cores.
Qed.

(** Everything up to the call of the sorting routine. *)
Lemma sort_internal_start {T} w ht (sort : sort_func_t) (compar : T -> Bucket -> Bucket -> T * Z) s renumber :
  ht_inv ht -> negb (1 <? nNumOfElements ht) && negb (renumber && (0 <? nNumOfElements ht)) = false ->
  exists w1 ht1 D, mixed ht1 (ht_cores ht) /\ side_ok (f_static ht1) (nNextFreeElement ht1) (ht_cores ht)
    /\ w_same w w1 /\ zlen D = nTableSize ht1 /\ pre (zlen (ht_cores ht)) D = tagged (ht_cores ht)
    /\ 0 < zlen (ht_cores ht) <= zlen D
    /\ zend_hash_sort_internal w ht sort compar s renumber =
       ('(s, D) ← sort _ (array_cmp compar)
                    (array_swp (if renumber then zend_hash_bucket_renum_swap else zend_hash_bucket_swap))
                    (s, D) 0 (zlen (ht_cores ht));
        let ht2 := sorted_ht (zlen (ht_cores ht)) D ht1 in
        if renumber then
          '(w, D) ← renumber_loop (S (Z.to_nat (zlen (ht_cores ht)))) (zlen (ht_cores ht)) w1 D 0;
          ht3 ← sorted_to_packed (set_nNextFreeElement (zlen (ht_cores ht)) (set_arData D ht2));
          Ok (s, w, ht3)
        else '(w, ht3) ← zend_hash_rehash w1 ht2; Ok (s, w, ht3)).
Proof.
  intros Hinv Hg. assert (0 < nNumOfElements ht) as Hc.
  { destruct (Z.ltb_spec 1 (nNumOfElements ht)); [lia|]. destruct (Z.ltb_spec 0 (nNumOfElements ht)); [done|].
    by destruct renumber. }
  destruct (sort_prepare w ht Hinv Hc) as (w1 & ht1 & E1 & Hm & Hside & Hw).
  destruct (sort_number ht1 (ht_cores ht) Hm) as (D & E2 & HD & Hpre).
  destruct (mx_geom _ _ Hm) as [Hs _ Hd Hu]. rewrite (inv_count _ Hinv) in Hc.
  assert (zlen (ht_cores ht) <= nNumUsed ht1) as Hcu.
  { rewrite <- (mx_cores _ _ Hm). apply rank_le. lia. }
  exists w1, ht1, D. split_and!; try done; try lia. unfold zend_hash_sort_internal. rewrite Hg, E1, bind_ok.
  cbv zeta. rewrite E2, bind_ok. clear E1 E2 Hpre Hside.
  assert (f_packed (set_nNumUsed (zlen (ht_cores ht)) (set_arData D ht1)) = false) as F1 by apply Hm.
  rewrite F1. cbv iota.
  assert (f_packed (HT_HASH_RESET (set_nNumUsed (zlen (ht_cores ht)) (set_arData D ht1))) = false) as F2
    by apply Hm.
  change (arData (HT_HASH_RESET _)) with D. change (nNumUsed (HT_HASH_RESET _)) with (zlen (ht_cores ht)).
  rewrite F2. cbv iota. destruct (sort _ _ _ _ _ _) as [[s' D']| |]; [|done|done]. rewrite !bind_ok.
  assert (set_nInternalPointer 0 (set_arData D' (HT_HASH_RESET (set_nNumUsed (zlen (ht_cores ht)) (set_arData D ht1))))
    = sorted_ht (zlen (ht_cores ht)) D' ht1) as -> by reflexivity.
  assert (f_packed (sorted_ht (zlen (ht_cores ht)) D' ht1) = false) as F3 by apply Hm.
  change (arData (sorted_ht _ D' _)) with D'. destruct renumber; cbv iota.
  - destruct (renumber_loop _ _ _ _ _) as [[w' D2]| |]; [|done|done]. rewrite !bind_ok.
    assert (f_packed (set_nNextFreeElement (zlen (ht_cores ht)) (set_arData D2 (sorted_ht (zlen (ht_cores ht)) D' ht1))) = false)
      as F4 by apply Hm.
    rewrite F4. cbv iota. by destruct (sorted_to_packed _).
  - rewrite bind_ok, F3. cbv iota. done.
Qed.

Lemma few_elements (cs : list core) : zlen cs <= 1 ->
  forall (R : Bucket -> Bucket -> Prop), StronglySorted R (tagged cs).
Proof.
  intros Hl R. destruct cs as [|c [|c' cs]]; [constructor|repeat constructor|].
  unfold zlen in Hl. cbn in Hl. lia.
Qed.

Lemma hash_sort_ok {T} (sort : sort_func_t) `{SortFn sort} (compar : T -> Bucket -> Bucket -> T * Z) leB s w ht :
  ht_inv ht ->
  exists s' w' ht' bs, zend_hash_sort_ex w ht sort compar s false = Ok (s', w', ht')
    /\ ht_inv ht' /\ w_same w w' /\ bs ≡ₚ tagged (ht_cores ht) /\ ht_cores ht' = uncore <$> bs
    /\ (agrees compar id leB -> StronglySorted leB bs).
Proof.
  intros Hinv. unfold zend_hash_sort_ex.
  destruct (negb (1 <? nNumOfElements ht) && negb (false && (0 <? nNumOfElements ht))) eqn:Hg.
  - exists s, w, ht, (tagged (ht_cores ht)). unfold zend_hash_sort_internal. rewrite Hg.
    rewrite uncore_tagged. split_and!; try done. intros _. apply few_elements.
    rewrite <- (inv_count _ Hinv). cbn in Hg. destruct (Z.ltb_spec 1 (nNumOfElements ht)); [done|lia].
  - destruct (sort_internal_start w ht sort compar s false Hinv Hg)
      as (w1 & ht1 & D & Hm & Hside & Hw & HD & Hpre & Hn & ->).
    destruct (sort_prefix sort compar zend_hash_bucket_swap id (fun _ => tt) leB s D (zlen (ht_cores ht)))
      as (s' & D' & -> & Hl & _ & Hp & Hs); [lia|]. rewrite bind_ok. cbv zeta.
    rewrite !list_fmap_id in Hp. rewrite list_fmap_id in Hs. unfold pre in Hpre. rewrite Hpre in Hp.
    destruct (sort_finish w1 ht1 (ht_cores ht) (pre (zlen (ht_cores ht)) D') D' Hm Hside) as (w' & ht' & -> & Hinv' & Hw' & Hcs); [|done|done|].
    { unfold zlen in *. lia. }
    exists s', w', ht', (pre (zlen (ht_cores ht)) D'). split_and!; try done; [by etrans..].
Qed.

(** ** Renumbering *)
Lemma renumber_loop_ok n fuel w D j : 0 <= j <= n -> n <= zlen D -> (Z.to_nat (n - j) < fuel)%nat ->
  exists w' D', renumber_loop fuel n w D j = Ok (w', D') /\ zlen D' = zlen D
    /\ b_val <$> D' = b_val <$> D /\ w_ind w' = w_ind w
    /\ w_trace w' = w_trace w ++ (EvRelease <$> omap b_key (drop (Z.to_nat j) (take (Z.to_nat n) D))).
Proof.
  revert w D j. induction fuel as [|fuel IH]; intros w D j Hj Hn Hf; [lia|]. cbn [renumber_loop].
  destruct (Z.ltb_spec j n).
  - destruct (zget_is_Some D j ltac:(lia)) as [p Hp]. rewrite (rd_ok _ _ _ Hp), bind_ok, wr_ok, bind_ok by lia.
    set (w1 := match b_key p with Some key => log (EvRelease key) w | None => w end).
    destruct (IH w1 (zset D j (with_hkey j None p)) (j + 1)) as (w' & D' & -> & Hl & Hv & Hi & Ht);
      rewrite ?zlen_zset; try lia.
    exists w', D'. split_and!; [done|by rewrite Hl, zlen_zset| | |].
    + rewrite Hv. unfold zset. rewrite list_fmap_insert. apply list_insert_id. rewrite list_lookup_fmap.
      unfold zget in Hp. rewrite (proj2 (Z.leb_le _ _)) in Hp by lia. by rewrite Hp.
    + rewrite Hi. subst w1. by destruct (b_key p).
    + rewrite Ht. unfold zset. rewrite take_insert, decide_True by lia. rewrite drop_insert_lt by lia.
      assert (take (Z.to_nat n) D !! Z.to_nat j = Some p) as Hp'.
      { rewrite lookup_take_lt by lia. unfold zget in Hp. rewrite (proj2 (Z.leb_le _ _)) in Hp by lia. done. }
      rewrite (drop_S _ _ _ Hp'). cbn [omap list_omap]. replace (Z.to_nat (j + 1)) with (S (Z.to_nat j)) by lia.
      subst w1. destruct (b_key p); cbn; [by rewrite <- app_assoc|done].
  - exists w, D. split_and!; try done. rewrite drop_ge by (rewrite length_take; lia). by rewrite app_nil_r.
Qed.

(** The packed array made of [n] defined values. *)
Lemma sorted_to_packed_ok ht n : size_ok (nTableSize ht) -> zlen (arData ht) = nTableSize ht ->
  f_uninit ht = false -> nNumUsed ht = n -> nNumOfElements ht = n -> nNextFreeElement ht = n ->
  0 < n <= nTableSize ht -> Forall (fun b => live b = true) (pre n (arData ht)) ->
  exists ht', sorted_to_packed ht = Ok ht' /\ ht_inv ht' /\ nNextFreeElement ht' = n
    /\ ht_cores ht' = imap (fun i b => (b_val b, Z.of_nat i, None)) (pre n (arData ht)).
Proof.
  intros Hs Hd Hun Hu Hc Hnf Hn Hlive. unfold sorted_to_packed. rewrite (proj2 (Z.leb_le _ _)) by lia.
  cbn [assert_]. rewrite bind_ok. eexists. split; [done|].
  set (ht' := HT_HASH_RESET_PACKED _). pose proof (size_ok_bounds _ Hs) as Hb.
  assert (arPacked ht' = b_val <$> arData ht) as HP.
  { cbn. rewrite take_ge; [done|unfold zlen in Hd; lia]. }
  assert (Forall (fun v => v <> IS_UNDEF) (b_val <$> pre n (arData ht))) as Hdef.
  { apply Forall_fmap. eapply Forall_impl; [exact Hlive|]. intros b Hbl Hv. unfold live in Hbl.
    cbn in Hv. by rewrite Hv in Hbl. }
  assert (pcores (pre n (arPacked ht')) = imap (fun i b => (b_val b, Z.of_nat i, None)) (pre n (arData ht))) as Hcs.
  { rewrite HP. unfold pre in *. rewrite <- fmap_take, pcores_from_0, pcores_from_live by done.
    by rewrite imap_fmap. }
  assert (ht_cores ht' = imap (fun i b => (b_val b, Z.of_nat i, None)) (pre n (arData ht))) as Hcs'.
  { unfold ht_cores. cbn [f_packed ht' HT_HASH_RESET_PACKED set_arHash set_alloc set_flags nNumUsed].
    rewrite Hu. exact Hcs. }
  split_and!; [|done|done]. apply packed_inv; try done.
  - rewrite HP. by rewrite zlen_fmap.
  - cbn. lia.
  - split; [cbn; lia|]. right. change (nNumUsed ht') with (nNumUsed ht). rewrite HP, zget_fmap.
    destruct (zget_is_Some (arData ht) (nNumUsed ht - 1)) as [b Hb']; [lia|]. rewrite Hb'. exists (b_val b). split; [done|].
    rewrite Forall_fmap, Forall_forall in Hdef. apply Hdef.
    apply list_elem_of_lookup. exists (Z.to_nat (n - 1)). unfold pre. rewrite lookup_take_lt by lia.
    unfold zget in Hb'. rewrite (proj2 (Z.leb_le _ _)) in Hb' by lia. by rewrite <- Hu.
  - cbn. rewrite Hnf. unfold ZEND_LONG_MIN, ZEND_LONG_MAX, HT_MAX_SIZE in *. lia.
  - change (nNumUsed ht') with (nNumUsed ht). change (nNumOfElements ht') with (nNumOfElements ht).
    rewrite Hu, Hcs, Hc. unfold zlen. rewrite length_imap. fold (zlen (pre n (arData ht))). rewrite zlen_pre; lia.
Qed.

Lemma omap_of_fmap {A B C} (f : A -> B) (g : B -> option C) (l : list A) : omap g (f <$> l) = omap (g ∘ f) l.
Proof. induction l as [|a l IH]; [done|]. cbn. rewrite IH. by destruct (g (f a)). Qed.

Lemma keys_tagged cs : omap b_key (tagged cs) = omap snd cs.
Proof. rewrite <- (uncore_tagged cs) at 2. by rewrite omap_of_fmap. Qed.

Lemma omap_key_rest D D' n : sort_key <$> D' = sort_key <$> D -> omap b_key (take n D') = omap b_key (take n D).
Proof.
  intros H. assert (forall l : list Bucket, omap b_key l = omap snd (sort_key <$> l)) as Hk.
  { intros l. by rewrite omap_of_fmap. }
  by rewrite !Hk, !fmap_take, H.
Qed.

Lemma hash_sort_renumber_ok {T} (sort : sort_func_t) `{SortFn sort}
    (compar : T -> Bucket -> Bucket -> T * Z) leV s w ht : ht_inv ht ->
  exists s' w' ht' vs, zend_hash_sort_ex w ht sort compar s true = Ok (s', w', ht')
    /\ ht_inv ht' /\ vs ≡ₚ sort_val <$> tagged (ht_cores ht)
    /\ ht_cores ht' = imap (fun i v => (v.1, Z.of_nat i, None)) vs
    /\ (0 < nNumOfElements ht -> nNextFreeElement ht' = nNumOfElements ht)
    /\ w_ind w' = w_ind w /\ w_trace w' = w_trace w ++ (EvRelease <$> omap snd (ht_cores ht))
    /\ (agrees compar sort_val leV -> StronglySorted leV vs).
Proof.
  intros Hinv. unfold zend_hash_sort_ex.
  destruct (negb (1 <? nNumOfElements ht) && negb (true && (0 <? nNumOfElements ht))) eqn:Hg.
  - unfold zend_hash_sort_internal. rewrite Hg.
    assert (ht_cores ht = []) as Hnil.
    { apply length_zero_iff_nil. pose proof (inv_count _ Hinv) as Hc. unfold zlen in Hc.
      destruct (Z.ltb_spec 1 (nNumOfElements ht)), (Z.ltb_spec 0 (nNumOfElements ht)); try done; lia. }
    exists s, w, ht, []. rewrite Hnil. split_and!; try done.
    + intros Hc. rewrite (inv_count _ Hinv), Hnil in Hc. done.
    + by rewrite app_nil_r.
    + intros _. constructor.
  - destruct (sort_internal_start w ht sort compar s true Hinv Hg)
      as (w1 & ht1 & D & Hm & Hside & Hw & HD & Hpre & Hn & ->).
    destruct (sort_prefix sort compar zend_hash_bucket_renum_swap sort_val sort_key leV s D (zlen (ht_cores ht)))
      as (s' & D' & -> & Hl & Hr & Hp & Hs); [lia|]. rewrite bind_ok. cbv zeta.
    assert (zlen D' = zlen D) as HlD by (unfold zlen; lia). set (n := zlen (ht_cores ht)) in *.
    destruct (renumber_loop_ok n (S (Z.to_nat n)) w1 D' 0) as (w' & D2 & -> & Hl2 & Hv2 & Hi2 & Ht2); [lia|lia|lia|].
    rewrite bind_ok. destruct (mx_geom _ _ Hm) as [Hsz _ _ _].
    unfold pre in Hpre. rewrite Hpre in Hp.
    assert (b_val <$> take (Z.to_nat n) D2 ≡ₚ b_val <$> tagged (ht_cores ht)) as Hpv.
    { rewrite (fmap_take b_val), Hv2, <- fmap_take.
      assert (forall l : list Bucket, b_val <$> l = fst <$> (sort_val <$> l)) as Hf by (intros l; by rewrite <- list_fmap_compose).
      by rewrite !Hf, Hp. }
    assert (Forall (fun b => live b = true) (pre n D2)) as Hlive.
    { apply (tagged_live (ht_cores ht)); [|done]. intros c Hc. rewrite <- (mx_cores _ _ Hm) in Hc.
      by eapply cores_defined. }
    destruct (sorted_to_packed_ok (set_nNextFreeElement n (set_arData D2 (sorted_ht n D' ht1))) n)
      as (ht' & -> & Hinv' & Hnf & Hcs); try done; cbn [arData]; try apply Hm; try lia.
    { cbn. lia. } { rewrite HD in *. cbn. lia. }
    rewrite bind_ok. exists s', w', ht', (sort_val <$> take (Z.to_nat n) D').
    destruct Hw as (Hw1 & Hw2 & _). split_and!; try done.
    + rewrite Hcs. cbn [arData set_nNextFreeElement set_counts set_arData set_alloc].
      rewrite imap_fmap. unfold pre.
      assert (forall l, imap (fun i b => (b_val b, Z.of_nat i, @None Z)) l
               = imap (fun i v => (v, Z.of_nat i, None)) (b_val <$> l)) as Hi by (intros l; by rewrite imap_fmap).
      rewrite Hi, fmap_take, Hv2, <- fmap_take, <- Hi. done.
    + intros _. by rewrite Hnf, (inv_count _ Hinv).
    + by rewrite Hi2.
    + rewrite Ht2, Hw2. rewrite drop_0, (omap_key_rest D D') by done. by rewrite Hpre, keys_tagged.
Qed.
End HashSort.
