(* ===== verification/HashCompare.v ===== *)
(** * Comparison, minimum and maximum of hash tables

    The reference functions work on the elements of the tables. *)

From S2P Require Import Prelude.
From S2P Require Import ZendString.
From S2P Require Import OrderedMap.
From S2P Require Import HashTypes.
From S2P Require Import HashOps.
From S2P Require Import HashInv.
From S2P Require Import HashInsert.
From S2P Require Import HashIndex.
From S2P Require Import HashDelete.
From S2P Require Import HashIterOps.
From S2P Require Import HashApplyOps.
From S2P Require Import HashIterate.
From S2P Require Import HashSortOps.

(** ** Reference functions *)
Section Reference.
Context (compar : zval -> zval -> Z) (w : world).

Definition key_order (k1 k2 : hkey) : Z :=
  match k1, k2 with
  | KInt a, KInt b => if a =? b then 0 else if b <? a then 1 else -1
  | KStr s, KStr t =>
      if zlen s =? zlen t then memcmp_sign s t else if zlen t <? zlen s then 1 else -1
  | KStr _, KInt _ => 1
  | KInt _, KStr _ => -1
  end.

(** The value behind an indirection. *)
Definition deref (v : zval) : zval :=
  match v with IS_INDIRECT a => default IS_UNDEF (w_ind w !! a) | _ => v end.
Definition ind_known (v : zval) : Prop :=
  match v with IS_INDIRECT a => is_Some (w_ind w !! a) | _ => True end.

Definition val_order (v1 v2 : zval) : Z :=
  if is_undef (deref v1) then if is_undef (deref v2) then 0 else -1
  else if is_undef (deref v2) then 1 else compar (deref v1) (deref v2).

Definition lex (a b : Z) : Z := if a =? 0 then b else a.

(** Element by element, keys first. *)
Fixpoint ordered_ref (l1 l2 : list (hkey * zval)) : Z :=
  match l1, l2 with
  | e1 :: l1, e2 :: l2 => lex (key_order e1.1 e2.1) (lex (val_order e1.2 e2.2) (ordered_ref l1 l2))
  | _, _ => 0
  end.

(** Each element against the one the other array has under its key. *)
Fixpoint unordered_ref (l1 l2 : list (hkey * zval)) : Z :=
  match l1 with
  | [] => 0
  | e1 :: l1 =>
      match olookup e1.1 l2 with
      | None => 1
      | Some v2 => lex (val_order e1.2 v2) (unordered_ref l1 l2)
      end
  end.

Lemma memcmp_eq s t : zlen s = zlen t -> memcmp_sign s t = 0 <-> s = t.
Proof.
  revert t. induction s as [|x s IH]; intros [|y t] Hl; cbn; unfold zlen in *; cbn in *; try done; try lia.
  zcase; [split; [done|intros; simplify_eq; lia]|]. zcase; [split; [done|intros; simplify_eq; lia]|].
  assert (x = y) as -> by lia. rewrite IH by lia. split; [by intros ->|by intros [= ->]].
Qed.

Lemma key_order_eq k1 k2 : key_order k1 k2 = 0 <-> k1 = k2.
Proof.
  destruct k1 as [a|s], k2 as [b|t]; cbn; try done.
  - destruct (Z.eqb_spec a b) as [->|]; [done|]. split; [zcase; lia|intros [=]; lia].
  - destruct (Z.eqb_spec (zlen s) (zlen t)) as [Hl|Hl].
    + rewrite memcmp_eq by done. split; [by intros ->|by intros [= ->]].
    + split; [zcase; lia|]. intros [= ->]. done.
Qed.

Lemma lex_eq a b : lex a b = 0 <-> a = 0 /\ b = 0.
Proof. unfold lex. zcase; [by split; [|intros [_ ?]]|]. split; [done|by intros [? _]]. Qed.

Lemma ordered_ref_eq l1 l2 : length l1 = length l2 ->
  ordered_ref l1 l2 = 0 <-> Forall2 (fun e1 e2 => e1.1 = e2.1 /\ val_order e1.2 e2.2 = 0) l1 l2.
Proof.
  revert l2. induction l1 as [|e1 l1 IH]; intros [|e2 l2] Hl; cbn; try done.
  rewrite !lex_eq, key_order_eq, Forall2_cons, IH by (cbn in Hl; lia). tauto.
Qed.

Lemma unordered_ref_eq l1 l2 :
  unordered_ref l1 l2 = 0 <->
  forall k v, (k, v) ∈ l1 -> exists v2, olookup k l2 = Some v2 /\ val_order v v2 = 0.
Proof.
  induction l1 as [|[k v] l1 IH]; cbn; [split; [|done]; intros _ k v []%not_elem_of_nil|].
  destruct (olookup k l2) as [v2|] eqn:El.
  - rewrite lex_eq, IH. split.
    + intros [H1 H2] k' v' [[= -> ->]|Hin]%elem_of_cons; [by exists v2|by apply H2].
    + intros H. split; [|intros k' v' Hin; apply H; by right].
      destruct (H k v) as (v2' & E2 & Hv); [by left|]. by simplify_eq.
  - split; [done|]. intros H. destruct (H k v) as (v2 & E2 & _); [by left|]. by simplify_eq.
Qed.
End Reference.

Section Compare.
Context {E : ZendEnv} (compar : zval -> zval -> Z).

Lemma slot_step ht i : slots_ok (f_packed ht) ht -> 0 <= i < nNumUsed ht ->
  exists c, slot_at ht i = Ok c
    /\ if is_undef c.1.1 then from_pos ht i = from_pos ht (i + 1)
       else from_pos ht i = c :: from_pos ht (i + 1)
            /\ forall w, zptr_get w ht (slot_ptr ht i) = Ok c.1.1.
Proof.
  intros Hs Hi. destruct (slot_list_get ht i Hs Hi) as (c & H1 & _ & H3 & H4). exists c. split; [done|].
  destruct (is_undef c.1.1).
  - apply from_pos_hole; (done || lia).
  - split; [apply from_pos_step; (done || lia)|]. exact H4.
Qed.

Lemma next_element_ok fuel ht idx c rest : slots_ok (f_packed ht) ht -> 0 <= idx ->
  0 <= nNumUsed ht -> (Z.to_nat (nNumUsed ht - idx) < fuel)%nat -> from_pos ht idx = c :: rest ->
  exists idx', next_element fuel ht idx = Ok (idx', c) /\ idx <= idx' /\ from_pos ht (idx' + 1) = rest.
Proof.
  intros Hs Hi0 Hn. revert idx Hi0. induction fuel as [|fuel IH]; intros idx Hi0 Hf Hc; [lia|].
  destruct (Z.lt_ge_cases idx (nNumUsed ht)) as [Hi|Hi]; [|by rewrite from_pos_end in Hc by (done || lia)].
  cbn [next_element]. destruct (Z.eqb_spec idx (nNumUsed ht)); [lia|]. cbn [negb assert_]. rewrite bind_ok.
  destruct (slot_step ht idx Hs) as (c' & E1 & Hstep); [lia|]. rewrite E1, bind_ok.
  destruct (is_undef c'.1.1); cbn [negb].
  - rewrite Hstep in Hc. destruct (IH (idx + 1)) as (idx' & E2 & Hle & Hr); [lia|lia|done|].
    exists idx'. split_and!; [done|lia|done].
  - destruct Hstep as [Hst _]. rewrite Hc in Hst. simplify_eq. by exists idx.
Qed.

Lemma compare_keys_ok c1 c2 :
  compare_keys c1 c2 = if key_order (ckey c1) (ckey c2) =? 0 then None
                       else Some (key_order (ckey c1) (ckey c2)).
Proof.
  destruct c1 as [[v1 h1] [k1|]], c2 as [[v2 h2] [k2|]]; cbn; try done.
  - destruct (Z.eqb_spec (zlen (ZSTR_VAL k1)) (zlen (ZSTR_VAL k2))); cbn [negb].
    + by destruct (_ =? 0).
    + zcase; done.
  - destruct (Z.eqb_spec h1 h2); cbn [negb]; [done|]. zcase; done.
Qed.

Lemma compare_data_ok w v1 v2 : ind_known w v1 -> ind_known w v2 ->
  compare_data compar w v1 v2 = Ok (if val_order compar w v1 v2 =? 0 then None
                                    else Some (val_order compar w v1 v2)).
Proof.
  intros H1 H2. assert (forall v, ind_known w v -> Z_INDIRECT_P w v = Ok (deref w v)) as Hd.
  { intros v Hv. destruct v; try done. cbn in *. by destruct Hv as [d ->]. }
  unfold compare_data. rewrite (Hd v1 H1), (Hd v2 H2), !bind_ok. f_equal. unfold val_order.
  destruct (is_undef (deref w v1)), (is_undef (deref w v2)); cbn [negb]; try done. by destruct (_ =? 0).
Qed.

Lemma compare_ordered_ok fuel w ht1 ht2 i1 i2 : ht_inv ht1 -> ht_inv ht2 ->
  0 <= i1 -> 0 <= i2 -> (Z.to_nat (nNumUsed ht1 - i1) < fuel)%nat ->
  length (from_pos ht1 i1) = length (from_pos ht2 i2) ->
  Forall (fun c => ind_known w c.1.1) (from_pos ht1 i1) ->
  Forall (fun c => ind_known w c.1.1) (from_pos ht2 i2) ->
  compare_loop compar fuel w ht1 ht2 true i1 i2
  = Ok (ordered_ref compar w (centry <$> from_pos ht1 i1) (centry <$> from_pos ht2 i2)).
Proof.
  intros Hv1 Hv2. pose proof (inv_slots _ Hv1) as Hs1. pose proof (inv_slots _ Hv2) as Hs2.
  pose proof (inv_used _ Hv1) as Hu1. pose proof (inv_used _ Hv2) as Hu2. revert i1 i2.
  induction fuel as [|fuel IH]; intros i1 i2 Hi1 Hi2 Hf Hl Hk1 Hk2; [lia|]. cbn [compare_loop].
  destruct (Z.ltb_spec i1 (nNumUsed ht1)) as [Hlt|Hge]; [|by rewrite from_pos_end by (done || lia)].
  destruct (slot_step ht1 i1 Hs1) as (c1 & E1 & Hstep); [lia|]. rewrite E1, bind_ok.
  destruct (is_undef c1.1.1).
  - rewrite Hstep in *. apply IH; (done || lia).
  - destruct Hstep as [Hst _]. rewrite Hst in *. destruct (from_pos ht2 i2) as [|c2 rest2] eqn:H2; [done|].
    apply Forall_cons in Hk1 as [K1 Hk1], Hk2 as [K2 Hk2]. unfold compare_partner.
    destruct (next_element_ok (S (Z.to_nat (nNumUsed ht2))) ht2 i2 c2 rest2) as (i2' & E2 & Hle & Hr); try done; try lia.
    rewrite E2, !bind_ok, compare_keys_ok. rewrite !fmap_cons. cbn [ordered_ref]. unfold lex at 1.
    change (centry c1).1 with (ckey c1). change (centry c2).1 with (ckey c2).
    destruct (key_order (ckey c1) (ckey c2) =? 0); [|done].
    rewrite compare_data_ok, bind_ok by done. unfold lex. change (centry c1).2 with c1.1.1.
    change (centry c2).2 with c2.1.1. destruct (val_order compar w c1.1.1 c2.1.1 =? 0); [|done].
    rewrite <- Hr. apply IH; rewrite ?Hr; try done; try lia. cbn in Hl. lia.
Qed.

Lemma ht_elements_key ht c : ht_inv ht -> c ∈ ht_cores ht -> match c.2 with None => 0 <= c.1.2 | Some _ => True end.
Proof.
  intros Hinv Hc. pose proof (inv_wf _ Hinv) as Hwf. rewrite Forall_forall in Hwf. specialize (Hwf c Hc).
  unfold core_wf in Hwf. destruct c.2; [done|lia].
Qed.

Lemma olookup_known w ht k v : Forall (fun c => ind_known w c.1.1) (ht_cores ht) ->
  olookup k (ht_elements ht) = Some v -> ind_known w v.
Proof.
  unfold ht_elements. induction 1 as [|c cs Hc _ IH]; cbn; [done|]. case_decide; [|done]. by intros [= <-].
Qed.

Lemma compare_unordered_ok fuel w ht1 ht2 i1 i2 : ht_inv ht1 -> ht_inv ht2 ->
  0 <= i1 -> (Z.to_nat (nNumUsed ht1 - i1) < fuel)%nat ->
  Forall (fun c => ind_known w c.1.1) (from_pos ht1 i1) ->
  (forall c, c ∈ from_pos ht1 i1 -> c ∈ ht_cores ht1) ->
  Forall (fun c => ind_known w c.1.1) (ht_cores ht2) ->
  compare_loop compar fuel w ht1 ht2 false i1 i2
  = Ok (unordered_ref compar w (centry <$> from_pos ht1 i1) (ht_elements ht2)).
Proof.
  intros Hv1 Hv2. pose proof (inv_slots _ Hv1) as Hs1. pose proof (inv_used _ Hv1) as Hu1. revert i1.
  induction fuel as [|fuel IH]; intros i1 Hi1 Hf Hk1 Hsub Hk2; [lia|]. cbn [compare_loop].
  destruct (Z.ltb_spec i1 (nNumUsed ht1)) as [Hlt|Hge]; [|by rewrite from_pos_end by (done || lia)].
  destruct (slot_step ht1 i1 Hs1) as (c1 & E1 & Hstep); [lia|]. rewrite E1, bind_ok.
  destruct (is_undef c1.1.1).
  - rewrite Hstep in *. apply IH; (done || lia).
  - destruct Hstep as [Hst _]. rewrite Hst in *. apply Forall_cons in Hk1 as [K1 Hk1].
    pose proof (ht_elements_key ht1 c1 Hv1 (Hsub c1 ltac:(by left))) as Hkey.
    unfold compare_partner. rewrite fmap_cons. cbn [unordered_ref].
    assert (exists r, (match c1.2 with None => zend_hash_index_find ht2 c1.1.2 | Some key1 => zend_hash_find ht2 key1 end) = Ok r
              /\ finds w ht2 r (olookup (centry c1).1 (ht_elements ht2))) as (r & Er & Hr).
    { unfold centry, ckey. cbn. destruct c1.2 as [key1|]; [by apply zend_hash_find_ok|by apply zend_hash_index_find_ok]. }
    rewrite Er, bind_ok. unfold finds in Hr.
    destruct r as [p|], (olookup (centry c1).1 (ht_elements ht2)) as [v2|] eqn:El; try done.
    rewrite Hr, !bind_ok. rewrite compare_data_ok, bind_ok by (done || by eapply olookup_known).
    unfold lex. change (centry c1).2 with c1.1.1. destruct (val_order compar w c1.1.1 v2 =? 0); [|done].
    apply IH; try done; try lia. intros c Hc. apply Hsub. by right.
Qed.

Lemma length_elements ht : ht_inv ht -> nNumOfElements ht = zlen (ht_elements ht).
Proof. intros Hinv. rewrite (inv_count _ Hinv). unfold ht_elements, zlen. by rewrite length_fmap. Qed.

Lemma zend_hash_compare_impl_ok w ht1 ht2 ordered : ht_inv ht1 -> ht_inv ht2 ->
  Forall (fun c => ind_known w c.1.1) (ht_cores ht1) ->
  Forall (fun c => ind_known w c.1.1) (ht_cores ht2) ->
  zend_hash_compare_impl compar w ht1 ht2 ordered =
  Ok (if zlen (ht_elements ht1) =? zlen (ht_elements ht2) then
        if ordered then ordered_ref compar w (ht_elements ht1) (ht_elements ht2)
        else unordered_ref compar w (ht_elements ht1) (ht_elements ht2)
      else if zlen (ht_elements ht2) <? zlen (ht_elements ht1) then 1 else -1).
Proof.
  intros Hv1 Hv2 Hk1 Hk2. unfold zend_hash_compare_impl.
  rewrite (length_elements _ Hv1), (length_elements _ Hv2).
  destruct (Z.eqb_spec (zlen (ht_elements ht1)) (zlen (ht_elements ht2))) as [Hl|]; cbn [negb]; [|done].
  unfold ht_elements, zlen in Hl. rewrite !length_fmap in Hl. destruct ordered.
  - rewrite compare_ordered_ok; rewrite ?from_pos_0; try done; lia.
  - rewrite compare_unordered_ok; rewrite ?from_pos_0; try done; lia.
Qed.

(** ** Minimum and maximum *)

(** The better of two values, the first when neither is. *)
Definition better (flag : bool) (best v : zval) : zval :=
  if flag then if compar best v <? 0 then v else best
  else if 0 <? compar best v then v else best.

Lemma minmax_first_ok fuel ht idx c rest : slots_ok (f_packed ht) ht -> 0 <= idx ->
  0 <= nNumUsed ht -> (Z.to_nat (nNumUsed ht - idx) < fuel)%nat -> from_pos ht idx = c :: rest ->
  exists i, minmax_first fuel ht idx = Ok (Some i) /\ 0 <= i < nNumUsed ht
    /\ from_pos ht i = c :: rest /\ slot_at ht i = Ok c /\ is_undef c.1.1 = false.
Proof.
  intros Hs Hi0 Hn. revert idx Hi0. induction fuel as [|fuel IH]; intros idx Hi0 Hf Hc; [lia|].
  destruct (Z.lt_ge_cases idx (nNumUsed ht)) as [Hi|Hi]; [|by rewrite from_pos_end in Hc by (done || lia)].
  cbn [minmax_first]. destruct (Z.eqb_spec idx (nNumUsed ht)); [lia|].
  destruct (slot_step ht idx Hs) as (c' & E1 & Hstep); [lia|]. rewrite E1, bind_ok.
  destruct (is_undef c'.1.1) eqn:Eu; cbn [negb].
  - rewrite Hstep in Hc. apply IH; (done || lia).
  - destruct Hstep as [Hst _]. pose proof Hc as Hc'. rewrite Hst in Hc'. simplify_eq. by exists idx.
Qed.

Lemma minmax_loop_ok fuel ht flag best idx cb : slots_ok (f_packed ht) ht -> 0 <= nNumUsed ht ->
  0 <= idx -> (Z.to_nat (nNumUsed ht - idx) < fuel)%nat -> 0 <= best < nNumUsed ht ->
  slot_at ht best = Ok cb -> is_undef cb.1.1 = false ->
  exists r c, minmax_loop compar fuel ht flag best idx = Ok r /\ 0 <= r < nNumUsed ht
    /\ slot_at ht r = Ok c /\ is_undef c.1.1 = false
    /\ c.1.1 = fold_left (better flag) ((fun c => c.1.1) <$> from_pos ht idx) cb.1.1.
Proof.
  intros Hs Hn. revert best idx cb.
  induction fuel as [|fuel IH]; intros best idx cb Hi Hf Hb Hcb Hd; [lia|]. cbn [minmax_loop].
  destruct (Z.ltb_spec idx (nNumUsed ht)) as [Hlt|Hge].
  - destruct (slot_step ht idx Hs) as (c & E1 & Hstep); [lia|]. rewrite E1, bind_ok.
    destruct (is_undef c.1.1) eqn:Eu.
    + rewrite Hstep. apply IH; (done || lia).
    + destruct Hstep as [-> _]. rewrite Hcb, bind_ok. cbn [fmap list_fmap fold_left].
      unfold better at 2. destruct flag; (destruct (_ <? _); [apply IH|apply IH]); (done || lia).
  - exists best, cb. rewrite from_pos_end by (done || lia). done.
Qed.

Lemma better_fold flag l x : comparison compar ->
  let m := fold_left (better flag) l x in
  m ∈ x :: l /\ forall y, y ∈ x :: l -> if flag then 0 <= compar m y else compar m y <= 0.
Proof.
  intros Hc. pose proof Hc as [Hs Ht]. revert x. induction l as [|v l IH]; intros x; cbn.
  - split; [by left|]. intros y ->%list_elem_of_singleton. rewrite comparison_refl by done. by destruct flag.
  - destruct (IH (better flag x v)) as [Hin Hall]. cbn in Hin, Hall.
    set (m := fold_left _ _ _) in *.
    assert (better flag x v = x \/ better flag x v = v) as Hcase.
    { unfold better. destruct flag; destruct (_ <? _); auto. }
    split.
    + apply elem_of_cons in Hin as [->|Hin]; [destruct Hcase as [-> | ->]; set_solver|set_solver].
    + assert (forall y, y = x \/ y = v -> if flag then 0 <= compar (better flag x v) y
                else compar (better flag x v) y <= 0) as Hxv.
      { intros y Hy. pose proof (Hs x v) as S1. pose proof (comparison_refl _ x Hc) as R1.
        pose proof (comparison_refl _ v Hc) as R2. unfold better.
        destruct flag; zcase; destruct Hy as [-> | ->]; lia. }
      pose proof (Hall _ (list_elem_of_here _ _)) as Hm.
      intros y Hy. destruct (decide (y ∈ l)) as [Hl|Hl]; [apply Hall; by right|].
      assert (y = x \/ y = v) as Hyy by set_solver. specialize (Hxv y Hyy).
      destruct flag.
      * pose proof (Hs m (better true x v)) as S1. pose proof (Hs (better true x v) y) as S2.
        pose proof (Hs m y) as S3. assert (compar y m <= 0); [|lia].
        apply (Ht _ (better true x v)); lia.
      * apply (Ht _ (better false x v)); lia.
Qed.

Lemma zend_hash_minmax_ok w ht flag : ht_inv ht ->
  match (fun e => e.2) <$> ht_elements ht with
  | [] => zend_hash_minmax compar ht flag = Ok None
  | v :: l => exists p, zend_hash_minmax compar ht flag = Ok (Some p)
                /\ zptr_get w ht p = Ok (fold_left (better flag) (v :: l) v)
  end.
Proof.
  intros Hinv. pose proof (inv_slots _ Hinv) as Hs. pose proof (inv_used _ Hinv) as Hu.
  unfold zend_hash_minmax. rewrite (inv_count _ Hinv). unfold ht_elements. rewrite <- list_fmap_compose.
  destruct (ht_cores ht) as [|c cs] eqn:Hcs; [done|].
  rewrite (proj2 (Z.eqb_neq _ _)) by (unfold zlen; cbn; lia).
  rewrite <- from_pos_0 in Hcs.
  destruct (minmax_first_ok (S (Z.to_nat (nNumUsed ht))) ht 0 c cs) as (i & -> & Hi & Hp & Hc & Hd); try done; try lia.
  rewrite bind_ok.
  destruct (minmax_loop_ok (S (Z.to_nat (nNumUsed ht))) ht flag i i c) as (r & c2 & -> & Hr & Hc2 & Hd2 & Hv); try done; try lia.
  rewrite bind_ok. exists (slot_ptr ht r). split; [done|].
  destruct (slot_step ht r Hs Hr) as (c3 & E3 & Hstep). rewrite Hc2 in E3. simplify_eq.
  rewrite Hd2 in Hstep. destruct Hstep as [_ ->]. by rewrite Hv, Hp.
Qed.
End Compare.
