(* ===== verification/HashTheorems4.v ===== *)
(** * Sorting, comparison, minimum and maximum of tables: the contracts *)

From stdpp Require Import sorting.
From S2P Require Import Prelude.
From S2P Require Import ZendString.
From S2P Require Import OrderedMap.
From S2P Require Import HashTypes.
From S2P Require Import HashOps.
From S2P Require Import HashRehash.
From S2P Require Import HashInv.
From S2P Require Import HashIndex.
From S2P Require Import HashInit.
From S2P Require Import HashIterOps.
From S2P Require Import SortOps.
From S2P Require Import SortTheorems.
From S2P Require Import HashSortOps.
From S2P Require Import HashSort.
From S2P Require Import HashCompare.

Section Theorems4.
Context {E : ZendEnv} {T : Type}.
Implicit Types (compar : T -> Bucket -> Bucket -> T * Z).

(** C8: zend_hash_sort without renumbering, with any correct sorting routine: the
    table keeps its invariant and its elements, key and value together, in some
    order, whatever the comparison answers; if the answers agree with a
    transitive relation on elements and their original positions, the elements
    are sorted by it. *)
Theorem zend_hash_sort_correct (sort : sort_func_t) (SF : SortFn sort) compar leB s w ht : ht_inv ht ->
  exists s' w' ht' bs, zend_hash_sort_ex w ht sort compar s false = Ok (s', w', ht')
    /\ ht_inv ht' /\ w_same w w' /\ bs ≡ₚ tagged (ht_cores ht)
    /\ ht_elements ht' = centry ∘ uncore <$> bs
    /\ (agrees compar id leB -> StronglySorted leB bs).
Proof.
  intros Hinv. destruct (hash_sort_ok sort compar leB s w ht Hinv) as (s' & w' & ht' & bs & H1 & H2 & H3 & H4 & H5 & H6).
  exists s', w', ht', bs. split_and!; try done. unfold ht_elements. by rewrite H5, <- list_fmap_compose.
Qed.

(** zend_hash_sort with renumbering: the values, sorted, get the keys 0, 1, 2
    and so on in a packed array whose next free index is their number; each string
    key is released once. *)
Theorem zend_hash_sort_renumber_correct (sort : sort_func_t) (SF : SortFn sort) compar leV s w ht : ht_inv ht ->
  exists s' w' ht' vs, zend_hash_sort_ex w ht sort compar s true = Ok (s', w', ht')
    /\ ht_inv ht' /\ vs ≡ₚ sort_val <$> tagged (ht_cores ht)
    /\ ht_elements ht' = imap (fun i v => (KInt (Z.of_nat i), v.1)) vs
    /\ (0 < nNumOfElements ht -> nNextFreeElement ht' = nNumOfElements ht)
    /\ w_ind w' = w_ind w /\ w_trace w' = w_trace w ++ (EvRelease <$> omap snd (ht_cores ht))
    /\ (agrees compar sort_val leV -> StronglySorted leV vs).
Proof.
  intros Hinv. destruct (hash_sort_renumber_ok sort compar leV s w ht Hinv)
    as (s' & w' & ht' & vs & H1 & H2 & H3 & H4 & H5 & H6 & H7 & H8).
  exists s', w', ht', vs. split_and!; try done. unfold ht_elements. rewrite H4, fmap_imap. done.
Qed.

(** Smaller, or equivalent and originally earlier. *)
Definition stable_le (c : core -> core -> Z) (a b : Bucket) : Prop :=
  c (uncore a) (uncore b) < 0 \/ c (uncore a) (uncore b) = 0 /\ Z_EXTRA a <= Z_EXTRA b.

Definition stable_compar (c : core -> core -> Z) (t : T) (a b : Bucket) : T * Z :=
  (t, RETURN_STABLE_SORT a b (c (uncore a) (uncore b))).

Lemma stable_agrees c : comparison c -> agrees (stable_compar c) id (stable_le c).
Proof.
  intros Hc. pose proof Hc as [Hs Ht]. split.
  - unfold stable_le. intros x y z Hxy Hyz.
    assert (c (uncore x) (uncore y) <= 0) as L1 by lia. assert (c (uncore y) (uncore z) <= 0) as L2 by lia.
    pose proof (Ht _ _ _ L1 L2) as L3. pose proof (comparison_lt c _ _ _ Hc L1 L2) as L4. lia.
  - intros t a b. unfold stable_compar, RETURN_STABLE_SORT, stable_sort_fallback, stable_le, id. cbn [snd].
    pose proof (Hs (uncore a) (uncore b)) as S1. repeat (zcase; cbn [negb] in * ); lia.
Qed.

(** C9: With the stability fallback of the array functions zend_sort is stable:
    elements that compare equal stay in their original order. *)
Theorem zend_hash_sort_stable c (t : T) w ht : ht_inv ht -> comparison c ->
  exists t' w' ht' bs, zend_hash_sort_ex w ht (@zend_sort) (stable_compar c) t false = Ok (t', w', ht')
    /\ ht_inv ht' /\ bs ≡ₚ tagged (ht_cores ht) /\ ht_elements ht' = centry ∘ uncore <$> bs
    /\ StronglySorted (stable_le c) bs.
Proof.
  intros Hinv Hc. destruct (hash_sort_ok (@zend_sort) (stable_compar c) (stable_le c) t w ht Hinv)
    as (s' & w' & ht' & bs & H1 & H2 & H3 & H4 & H5 & H6).
  exists s', w', ht', bs. split_and!; try done.
  - unfold ht_elements. by rewrite H5, <- list_fmap_compose.
  - by apply H6, stable_agrees.
Qed.
End Theorems4.

(** ** Instances on concrete tables *)

(** Compares the payloads, descending. *)
Definition payload (c : core) : Z := match c.1.1 with ZVal _ p => p | _ => 0 end.
Definition demo_desc (a b : core) : Z := payload b - payload a.

Lemma demo_desc_comparison : comparison demo_desc.
Proof. unfold demo_desc. split; intros; lia. Qed.

Lemma zend_hash_sort_correct_witness :
  exists s' w' ht' bs, zend_hash_sort_ex w0 demo_ht (@zend_sort) (stable_compar demo_desc) tt false = Ok (s', w', ht')
    /\ ht_inv ht' /\ w_same w0 w' /\ bs ≡ₚ tagged (ht_cores demo_ht)
    /\ ht_elements ht' = centry ∘ uncore <$> bs
    /\ (agrees (S := unit) (stable_compar demo_desc) id (stable_le demo_desc) -> StronglySorted (stable_le demo_desc) bs).
Proof. exact (zend_hash_sort_correct (@zend_sort) _ (stable_compar demo_desc) (stable_le demo_desc) tt w0 demo_ht demo_ht_inv). Defined.

Lemma zend_hash_sort_renumber_correct_witness :
  exists s' w' ht' vs, zend_hash_sort_ex w0 demo_ht (@zend_insert_sort) (stable_compar demo_desc) tt true = Ok (s', w', ht')
    /\ ht_inv ht' /\ vs ≡ₚ sort_val <$> tagged (ht_cores demo_ht)
    /\ ht_elements ht' = imap (fun i v => (KInt (Z.of_nat i), v.1)) vs
    /\ (0 < nNumOfElements demo_ht -> nNextFreeElement ht' = nNumOfElements demo_ht)
    /\ w_ind w' = w_ind w0 /\ w_trace w' = w_trace w0 ++ (EvRelease <$> omap snd (ht_cores demo_ht))
    /\ (agrees (S := unit) (stable_compar demo_desc) sort_val (fun a b => True) -> StronglySorted (fun a b => True) vs).
Proof. exact (zend_hash_sort_renumber_correct (@zend_insert_sort) _ (stable_compar demo_desc) (fun a b => True) tt w0 demo_ht demo_ht_inv). Defined.

Lemma zend_hash_sort_stable_witness :
  exists t' w' ht' bs, zend_hash_sort_ex w0 demo_ht (@zend_sort) (stable_compar demo_desc) tt false = Ok (t', w', ht')
    /\ ht_inv ht' /\ bs ≡ₚ tagged (ht_cores demo_ht) /\ ht_elements ht' = centry ∘ uncore <$> bs
    /\ StronglySorted (stable_le demo_desc) bs.
Proof. exact (zend_hash_sort_stable demo_desc tt w0 demo_ht demo_ht_inv demo_desc_comparison). Defined.

(** ** Comparison, minimum and maximum *)

Section Theorems5.
Context {E : ZendEnv} (compar : zval -> zval -> Z).

Definition known_values (w : world) (ht : HashTable) : Prop :=
  Forall (fun c => ind_known w c.1.1) (ht_cores ht).

(** C10: zend_hash_compare of a table with itself is 0; with another table it is a fatal
    error if a comparison of the first is already under way, and otherwise the
    reference order of the elements: first their number, then, in the ordered mode, key
    by key and value by value in iteration order and, in the other mode, each value
    against the one under the same key. *)
Theorem zend_hash_compare_correct w recursive1 ht1 ht2 ordered : ht_inv ht1 -> ht_inv ht2 ->
  known_values w ht1 -> known_values w ht2 ->
  zend_hash_compare compar w recursive1 ht1 ht2 ordered =
  (if ht_addr ht1 =? ht_addr ht2 then Ok 0
   else if recursive1 then Fatal
   else Ok (if zlen (ht_elements ht1) =? zlen (ht_elements ht2) then
              if ordered then ordered_ref compar w (ht_elements ht1) (ht_elements ht2)
              else unordered_ref compar w (ht_elements ht1) (ht_elements ht2)
            else if zlen (ht_elements ht2) <? zlen (ht_elements ht1) then 1 else -1)).
Proof. intros. unfold zend_hash_compare. by rewrite zend_hash_compare_impl_ok. Qed.

(** Two arrays compare equal in the ordered mode exactly when they have the same
    keys in the same order with equal values, and in the other mode exactly when
    they have the same number of elements and every element of the first has an
    equal one under its key in the second. *)
Theorem zend_hash_compare_equal w ht1 ht2 : ht_inv ht1 -> ht_inv ht2 ->
  known_values w ht1 -> known_values w ht2 ->
  (zend_hash_compare_impl compar w ht1 ht2 true = Ok 0 <->
     Forall2 (fun e1 e2 => e1.1 = e2.1 /\ val_order compar w e1.2 e2.2 = 0) (ht_elements ht1) (ht_elements ht2))
  /\ (zend_hash_compare_impl compar w ht1 ht2 false = Ok 0 <->
     zlen (ht_elements ht1) = zlen (ht_elements ht2)
     /\ forall k v, (k, v) ∈ ht_elements ht1 ->
          exists v2, olookup k (ht_elements ht2) = Some v2 /\ val_order compar w v v2 = 0).
Proof.
  intros H1 H2 K1 K2. rewrite !zend_hash_compare_impl_ok by done. unfold zlen.
  destruct (Z.eqb_spec (Z.of_nat (length (ht_elements ht1))) (Z.of_nat (length (ht_elements ht2)))) as [Hl|Hl].
  - rewrite <- ordered_ref_eq by lia. rewrite <- unordered_ref_eq.
    split; split; first [by intros [= ->]|by intros ->|by intros [_ ->]].
  - split; split.
    + destruct (_ <? _); intros [=].
    + intros Hf%Forall2_length. lia.
    + destruct (_ <? _); intros [=].
    + intros [Hn _]. lia.
Qed.

(** zend_hash_minmax returns no element exactly for the empty array, and
    otherwise a pointer to an element that no element exceeds (flag set) or
    undercuts (flag clear). *)
Theorem zend_hash_minmax_correct w ht flag : ht_inv ht -> comparison compar ->
  match ht_elements ht with
  | [] => zend_hash_minmax compar ht flag = Ok None
  | _ => exists p v, zend_hash_minmax compar ht flag = Ok (Some p) /\ zptr_get w ht p = Ok v
           /\ v ∈ (ht_elements ht).*2
           /\ forall x, x ∈ (ht_elements ht).*2 -> if flag then 0 <= compar v x else compar v x <= 0
  end.
Proof.
  intros Hinv Hc. pose proof (zend_hash_minmax_ok compar w ht flag Hinv) as Hm.
  destruct (ht_elements ht) as [|e l]; [done|]. cbn in Hm. destruct Hm as (p & -> & Hp).
  destruct (better_fold compar flag (e.2 :: l.*2) e.2 Hc) as [Hin Hall]. eexists p, _.
  split; [done|]. split; [exact Hp|]. cbn in Hin, Hall. cbn. split.
  - set_solver.
  - intros x Hx. apply Hall. by right.
Qed.
End Theorems5.

(** ** Instances on concrete tables *)

Definition demo_cmp (a b : zval) : Z :=
  match a, b with ZVal _ x, ZVal _ y => x - y | ZVal _ _, _ => 1 | _, ZVal _ _ => -1 | _, _ => 0 end.

Lemma demo_cmp_comparison : comparison demo_cmp.
Proof. split; [intros [] []|intros [] [] []]; cbn; lia. Qed.

Lemma demo_known : known_values w0 demo_ht.
Proof. repeat constructor. Qed.

Lemma demo_packed_known : known_values w0 demo_packed.
Proof. repeat constructor. Qed.

(** [0 => 7] again, at another address. *)
Definition far_empty : HashTable :=
  mkHT 2000 false false true false false 0 HT_MIN_MASK
    [HT_INVALID_IDX; HT_INVALID_IDX] [] [] 0 0 8 0 ZEND_LONG_MIN true.
Definition far_ht : HashTable := Eval vm_compute in get_ht (zend_hash_index_update w0 far_empty 0 (ZVal 4 7)) far_empty.

Lemma far_ht_inv : ht_inv far_ht.
Proof.
  eapply inserted_inv; [apply (index_fresh w0 far_empty 0 (ZVal 4 7) HASH_UPDATE)| |].
  - apply (init_inv 2000 8 true).
  - lia.
  - done.
  - done.
  - apply not_elem_of_nil.
  - done.
  - vm_compute. reflexivity.
  - reflexivity.
Qed.

Lemma far_known : known_values w0 far_ht.
Proof. repeat constructor. Qed.

Lemma zend_hash_compare_correct_witness :
  zend_hash_compare demo_cmp w0 false demo_ht far_ht true = Ok 1
  /\ zend_hash_compare demo_cmp w0 false demo_packed far_ht true = Ok 0
  /\ zend_hash_compare demo_cmp w0 true demo_ht far_ht true = Fatal
  /\ zend_hash_compare demo_cmp w0 true demo_ht demo_ht true = Ok 0.
Proof.
  pose proof demo_ht_inv. pose proof demo_packed_inv. pose proof far_ht_inv.
  pose proof demo_known. pose proof demo_packed_known. pose proof far_known.
  split_and!; (etransitivity; [by apply (zend_hash_compare_correct demo_cmp)|vm_compute; reflexivity]).
Defined.

Lemma zend_hash_compare_equal_witness : zend_hash_compare_impl demo_cmp w0 demo_ht demo_ht true = Ok 0.
Proof.
  apply (proj1 (zend_hash_compare_equal demo_cmp w0 demo_ht demo_ht demo_ht_inv demo_ht_inv demo_known demo_known)).
  vm_compute. repeat constructor.
Defined.

Lemma zend_hash_minmax_correct_witness :
  exists p v, zend_hash_minmax demo_cmp demo_ht true = Ok (Some p) /\ zptr_get w0 demo_ht p = Ok v
    /\ v ∈ (ht_elements demo_ht).*2 /\ forall x, x ∈ (ht_elements demo_ht).*2 -> 0 <= demo_cmp v x.
Proof. exact (zend_hash_minmax_correct demo_cmp w0 demo_ht true demo_ht_inv demo_cmp_comparison). Defined.
