(* ===== verification/LListOps.v ===== *)
(** * zend_llist: the doubly linked list (Zend/zend_llist.c)

    Elements are nodes of a store, addressed by integers; 0 is NULL. The data of
    an element, [l->size] bytes, is a value of a type [D]. *)

From S2P Require Import Prelude.
From S2P Require Import SortOps.

Record zend_llist_element (D : Type) : Type := mkElement {
  e_next : Z;
  e_prev : Z;
  e_data : D;
}.
Arguments mkElement {D} _ _ _.
Arguments e_next {D} _.
Arguments e_prev {D} _.
Arguments e_data {D} _.

Record zend_llist : Type := mkLList {
  head : Z;
  tail : Z;
  count : Z;
  size : Z;
  dtor : bool;            (* a destructor is set *)
  persistent : bool;
  traverse_ptr : Z;
}.

Definition set_head (a : Z) (l : zend_llist) : zend_llist :=
  mkLList a (tail l) (count l) (size l) (dtor l) (persistent l) (traverse_ptr l).
Definition set_tail (a : Z) (l : zend_llist) : zend_llist :=
  mkLList (head l) a (count l) (size l) (dtor l) (persistent l) (traverse_ptr l).
Definition set_count (n : Z) (l : zend_llist) : zend_llist :=
  mkLList (head l) (tail l) n (size l) (dtor l) (persistent l) (traverse_ptr l).
Definition set_traverse_ptr (a : Z) (l : zend_llist) : zend_llist :=
  mkLList (head l) (tail l) (count l) (size l) (dtor l) (persistent l) a.

(** [pemalloc] returns the address of a new block. *)
Class Allocator (D : Type) : Type := {
  pemalloc : gmap Z (zend_llist_element D) -> Z;
  pemalloc_fresh : forall h, h !! pemalloc h = None;
  pemalloc_nonnull : forall h, pemalloc h <> 0;
}.

Section LListOps.
Context {D : Type} {AL : Allocator D}.
Abbreviation store := (gmap Z (zend_llist_element D)).

(** The store and the data the destructor was called with. *)
Record lworld : Type := mkLWorld { w_store : store; w_dtor : list D }.
Definition set_store (h : store) (w : lworld) : lworld := mkLWorld h (w_dtor w).

Definition elem_at (h : store) (a : Z) : res (zend_llist_element D) :=
  match h !! a with Some e => Ok e | None => Ub end.
Definition set_next (h : store) (a v : Z) : res store :=
  e ← elem_at h a; Ok (<[a := mkElement v (e_prev e) (e_data e)]> h).
Definition set_prev (h : store) (a v : Z) : res store :=
  e ← elem_at h a; Ok (<[a := mkElement (e_next e) v (e_data e)]> h).
Definition run_ldtor (l : zend_llist) (d : D) (w : lworld) : lworld :=
  if dtor l then mkLWorld (w_store w) (w_dtor w ++ [d]) else w.
Definition pefree (a : Z) (w : lworld) : lworld := mkLWorld (delete a (w_store w)) (w_dtor w).

(** Any value is left in [traverse_ptr]: [zend_llist_init] does not set it. *)
Definition zend_llist_init (l : zend_llist) (size : Z) (dtor persistent : bool) : zend_llist :=
  mkLList 0 0 0 size dtor persistent (traverse_ptr l).

Definition zend_llist_add_element (w : lworld) (l : zend_llist) (element : D) : res (lworld * zend_llist) :=
  let tmp := pemalloc (w_store w) in
  let h := <[tmp := mkElement 0 (tail l) element]> (w_store w) in
  '(h, l) ← (if negb (tail l =? 0) then h ← set_next h (tail l) tmp; Ok (h, l)
             else Ok (h, set_head tmp l));
  Ok (set_store h w, set_count (u64 (count l + 1)) (set_tail tmp l)).

Definition zend_llist_prepend_element (w : lworld) (l : zend_llist) (element : D) : res (lworld * zend_llist) :=
  let tmp := pemalloc (w_store w) in
  let h := <[tmp := mkElement (head l) 0 element]> (w_store w) in
  '(h, l) ← (if negb (head l =? 0) then h ← set_prev h (head l) tmp; Ok (h, l)
             else Ok (h, set_tail tmp l));
  Ok (set_store h w, set_count (u64 (count l + 1)) (set_head tmp l)).

Definition DEL_LLIST_ELEMENT (w : lworld) (l : zend_llist) (current : Z) : res (lworld * zend_llist) :=
  e ← elem_at (w_store w) current;
  '(h, l) ← (if negb (e_prev e =? 0) then h ← set_next (w_store w) (e_prev e) (e_next e); Ok (h, l)
             else Ok (w_store w, set_head (e_next e) l));
  '(h, l) ← (if negb (e_next e =? 0) then h ← set_prev h (e_next e) (e_prev e); Ok (h, l)
             else Ok (h, set_tail (e_prev e) l));
  Ok (pefree current (run_ldtor l (e_data e) (set_store h w)), set_count (u64 (count l - 1)) l).

(** Loops over the elements run at most [count] times. *)
Definition list_fuel (l : zend_llist) : nat := S (Z.to_nat (count l)).

Fixpoint del_loop (fuel : nat) (w : lworld) (l : zend_llist) (compare : D -> bool) (current : Z)
  : res (lworld * zend_llist) :=
  match fuel with
  | O => Ub
  | S fuel =>
      if current =? 0 then Ok (w, l)
      else
        e ← elem_at (w_store w) current;
        if compare (e_data e) then DEL_LLIST_ELEMENT w l current
        else del_loop fuel w l compare (e_next e)
  end.

Definition zend_llist_del_element (w : lworld) (l : zend_llist) (element : D) (compare : D -> D -> bool)
  : res (lworld * zend_llist) :=
  del_loop (list_fuel l) w l (fun d => compare d element) (head l).

Fixpoint destroy_loop (fuel : nat) (w : lworld) (l : zend_llist) (current : Z) : res lworld :=
  match fuel with
  | O => Ub
  | S fuel =>
      if current =? 0 then Ok w
      else
        e ← elem_at (w_store w) current;
        destroy_loop fuel (pefree current (run_ldtor l (e_data e) w)) l (e_next e)
  end.

Definition zend_llist_destroy (w : lworld) (l : zend_llist) : res (lworld * zend_llist) :=
  w ← destroy_loop (list_fuel l) w l (head l);
  Ok (w, set_count 0 (set_tail 0 (set_head 0 l))).

Definition zend_llist_clean (w : lworld) (l : zend_llist) : res (lworld * zend_llist) :=
  '(w, l) ← zend_llist_destroy w l;
  Ok (w, set_head 0 (set_tail 0 l)).

Definition zend_llist_remove_tail (w : lworld) (l : zend_llist) : res (lworld * zend_llist) :=
  let old_tail := tail l in
  if old_tail =? 0 then Ok (w, l)
  else
    e ← elem_at (w_store w) old_tail;
    '(h, l) ← (if negb (e_prev e =? 0) then h ← set_next (w_store w) (e_prev e) 0; Ok (h, l)
               else Ok (w_store w, set_head 0 l));
    let l := set_count (u64 (count l - 1)) (set_tail (e_prev e) l) in
    Ok (pefree old_tail (run_ldtor l (e_data e) (set_store h w)), l).

Fixpoint copy_elements (fuel : nat) (w : lworld) (dst : zend_llist) (ptr : Z) : res (lworld * zend_llist) :=
  match fuel with
  | O => Ub
  | S fuel =>
      if ptr =? 0 then Ok (w, dst)
      else
        e ← elem_at (w_store w) ptr;
        '(w, dst) ← zend_llist_add_element w dst (e_data e);
        e ← elem_at (w_store w) ptr;
        copy_elements fuel w dst (e_next e)
  end.

Definition zend_llist_copy (w : lworld) (dst src : zend_llist) : res (lworld * zend_llist) :=
  copy_elements (list_fuel src) w (zend_llist_init dst (size src) (dtor src) (persistent src)) (head src).

(** [func] may change the data of the element it is given. *)
Section Apply.
Context {S : Type} (func : S -> D -> S * D * bool).

Definition set_data (w : lworld) (a : Z) (d : D) : res lworld :=
  e ← elem_at (w_store w) a;
  Ok (set_store (<[a := mkElement (e_next e) (e_prev e) d]> (w_store w)) w).

Fixpoint apply_del_loop (fuel : nat) (s : S) (w : lworld) (l : zend_llist) (element : Z)
  : res (S * lworld * zend_llist) :=
  match fuel with
  | O => Ub
  | Datatypes.S fuel =>
      if element =? 0 then Ok (s, w, l)
      else
        e ← elem_at (w_store w) element;
        let next := e_next e in
        let '(s, d, del) := func s (e_data e) in
        w ← set_data w element d;
        '(w, l) ← (if del : bool then DEL_LLIST_ELEMENT w l element else Ok (w, l));
        apply_del_loop fuel s w l next
  end.

Definition zend_llist_apply_with_del (s : S) (w : lworld) (l : zend_llist) : res (S * lworld * zend_llist) :=
  apply_del_loop (list_fuel l) s w l (head l).
End Apply.

Fixpoint llist_apply_loop {S : Type} (func : S -> D -> S * D) (fuel : nat) (s : S) (w : lworld) (element : Z)
  : res (S * lworld) :=
  match fuel with
  | O => Ub
  | Datatypes.S fuel =>
      if element =? 0 then Ok (s, w)
      else
        e ← elem_at (w_store w) element;
        let '(s, d) := func s (e_data e) in
        w ← set_data w element d;
        e ← elem_at (w_store w) element;
        llist_apply_loop func fuel s w (e_next e)
  end.

Definition zend_llist_apply {S} (func : S -> D -> S * D) (s : S) (w : lworld) (l : zend_llist) :=
  llist_apply_loop func (list_fuel l) s w (head l).
Definition zend_llist_apply_with_argument {S A} (func : S -> D -> A -> S * D) (arg : A) (s : S) (w : lworld)
    (l : zend_llist) :=
  llist_apply_loop (fun s d => func s d arg) (list_fuel l) s w (head l).
Definition zend_llist_apply_with_arguments {S A} (func : S -> D -> list A -> S * D) (args : list A) (s : S)
    (w : lworld) (l : zend_llist) :=
  llist_apply_loop (fun s d => func s d args) (list_fuel l) s w (head l).

(** ** Sorting: an array of pointers to the elements is sorted *)

Definition zend_llist_swap (p q : Z) : Z * Z := (q, p).

Fixpoint collect_loop (fuel : nat) (h : store) (element : Z) : res (list Z) :=
  match fuel with
  | O => Ub
  | S fuel =>
      if element =? 0 then Ok []
      else
        e ← elem_at h element;
        r ← collect_loop fuel h (e_next e);
        Ok (element :: r)
  end.

(** [for (i = 1; i < l->count; i++)] *)
Fixpoint relink_loop (h : store) (prev : Z) (elements : list Z) : res store :=
  match elements with
  | [] => Ok h
  | a :: elements =>
      h ← set_prev h a prev;
      h ← set_next h prev a;
      relink_loop h a elements
  end.

(** [comp_func] is given the two elements by address; it reads what it compares
    itself. *)
Definition zend_llist_sort {S} (comp_func : S -> Z -> Z -> S * Z) (s : S) (w : lworld) (l : zend_llist) : res (S * lworld * zend_llist) :=
  if count l =? 0 then Ok (s, w, l)
  else
    elements ← collect_loop (list_fuel l) (w_store w) (head l);
    _ ← assert_ (zlen elements =? count l);
    '(s, elements) ← zend_sort (array_cmp comp_func) (array_swp zend_llist_swap)
                       (s, elements) 0 (count l);
    first ← rd elements 0;
    h ← set_prev (w_store w) first 0;
    h ← relink_loop h first (drop 1 elements);
    last ← rd elements (count l - 1);
    h ← set_next h last 0;
    Ok (s, set_store h w, set_tail last (set_head first l)).

(** ** Access *)

Definition zend_llist_count (l : zend_llist) : Z := count l.

(** The position is [*pos], or [l->traverse_ptr] where no position is given. *)
Definition get_data (w : lworld) (current : Z) : res (option D) :=
  if current =? 0 then Ok None else e ← elem_at (w_store w) current; Ok (Some (e_data e)).

Definition zend_llist_get_first_ex (w : lworld) (l : zend_llist) : res (Z * option D) :=
  d ← get_data w (head l); Ok (head l, d).
Definition zend_llist_get_last_ex (w : lworld) (l : zend_llist) : res (Z * option D) :=
  d ← get_data w (tail l); Ok (tail l, d).
Definition zend_llist_get_next_ex (w : lworld) (current : Z) : res (Z * option D) :=
  if current =? 0 then Ok (current, None)
  else e ← elem_at (w_store w) current; d ← get_data w (e_next e); Ok (e_next e, d).
Definition zend_llist_get_prev_ex (w : lworld) (current : Z) : res (Z * option D) :=
  if current =? 0 then Ok (current, None)
  else e ← elem_at (w_store w) current; d ← get_data w (e_prev e); Ok (e_prev e, d).

(** The variants of zend_llist.h, which keep their position in the list. *)
Definition zend_llist_get_first (w : lworld) (l : zend_llist) : res (zend_llist * option D) :=
  '(p, d) ← zend_llist_get_first_ex w l; Ok (set_traverse_ptr p l, d).
Definition zend_llist_get_last (w : lworld) (l : zend_llist) : res (zend_llist * option D) :=
  '(p, d) ← zend_llist_get_last_ex w l; Ok (set_traverse_ptr p l, d).
Definition zend_llist_get_next (w : lworld) (l : zend_llist) : res (zend_llist * option D) :=
  '(p, d) ← zend_llist_get_next_ex w (traverse_ptr l); Ok (set_traverse_ptr p l, d).
Definition zend_llist_get_prev (w : lworld) (l : zend_llist) : res (zend_llist * option D) :=
  '(p, d) ← zend_llist_get_prev_ex w (traverse_ptr l); Ok (set_traverse_ptr p l, d).
End LListOps.
