(* ===== verification/LListTheorems.v ===== *)
(** * Representation of zend_llist and its operations on lists

    Insertion and removal, then applying functions, copying, traversal and sorting. *)

From stdpp Require Import sorting.
From S2P Require Import Prelude.
From S2P Require Import SortOps.
From S2P Require Import SortTheorems.
From S2P Require Import LListOps.

Section LList.
Context {D : Type} {AL : Allocator D}.
Abbreviation store := (gmap Z (zend_llist_element D)).
Abbreviation item := (Z * D)%type.
Implicit Types (h : store) (l : list item) (L : zend_llist) (w : @lworld D).

(** Address of the first element, or [n]; of the last, or [p]. *)
Definition first_addr l (n : Z) : Z := match l with [] => n | (a, _) :: _ => a end.
Fixpoint last_addr l (p : Z) : Z := match l with [] => p | (a, _) :: l => last_addr l a end.
Definition addrs l : list Z := fst <$> l.

(** The elements [l] are linked in both directions between [p] and [n]. *)
Fixpoint dseg h (p : Z) l (n : Z) : Prop :=
  match l with
  | [] => True
  | (a, d) :: l => a <> 0 /\ h !! a = Some (mkElement (first_addr l n) p d) /\ dseg h a l n
  end.

Record rep h L l : Prop := {
  rep_head : head L = first_addr l 0;
  rep_tail : tail L = last_addr l 0;
  rep_count : count L = zlen l;
  rep_seg : dseg h 0 l 0;
  rep_nodup : NoDup (addrs l);
  rep_bound : zlen l < 2 ^ 64;
}.

(** ** Segments *)

Lemma first_addr_app l1 l2 n : first_addr (l1 ++ l2) n = first_addr l1 (first_addr l2 n).
Proof. by destruct l1 as [|[a d] l1]. Qed.

Lemma last_addr_app l1 l2 p : last_addr (l1 ++ l2) p = last_addr l2 (last_addr l1 p).
Proof. revert p. induction l1 as [|[a d] l1 IH]; intros p; cbn; auto. Qed.

Lemma dseg_app h p l1 l2 n :
  dseg h p (l1 ++ l2) n <-> dseg h p l1 (first_addr l2 n) /\ dseg h (last_addr l1 p) l2 n.
Proof.
  revert p. induction l1 as [|[a d] l1 IH]; intros p; cbn; [tauto|].
  rewrite IH, first_addr_app. tauto.
Qed.

Lemma dseg_ext h h' p l n : (forall a, a ∈ addrs l -> h' !! a = h !! a) -> dseg h p l n -> dseg h' p l n.
Proof.
  revert p. induction l as [|[a d] l IH]; intros p He; cbn; [done|]. intros (H1 & H2 & H3).
  rewrite He by (cbn; set_solver). split_and!; try done. apply IH; [|done]. intros b Hb. apply He. cbn. set_solver.
Qed.

Lemma last_addr_cases l p : l = [] /\ last_addr l p = p \/ exists l0 a d, l = l0 ++ [(a, d)] /\ last_addr l p = a.
Proof.
  destruct (decide (l = [])) as [->|Hne]; [by left|right].
  destruct (exists_last Hne) as (l0 & [a d] & ->). exists l0, a, d. by rewrite last_addr_app.
Qed.

Lemma dseg_nonnull h p l n a : dseg h p l n -> a ∈ addrs l -> a <> 0.
Proof.
  revert p. induction l as [|[b d] l IH]; intros p; cbn; [by intros _ []%not_elem_of_nil|].
  intros (H1 & _ & H3) [->|Hin]%elem_of_cons; [done|by eapply IH].
Qed.

Lemma last_addr_elem l p : l <> [] -> last_addr l p ∈ addrs l.
Proof.
  intros Hne. destruct (last_addr_cases l p) as [[-> _]|(l0 & a & d & -> & ->)]; [done|].
  unfold addrs. rewrite fmap_app. cbn. set_solver.
Qed.

(** [x->next = n'] for the last element of a segment, or the head of the list
    when there is none; and [x->prev = p'] for the first, or the tail. *)
Definition link_next h L l (n' : Z) : res (store * zend_llist) :=
  if negb (last_addr l 0 =? 0) then h' ← set_next h (last_addr l 0) n'; Ok (h', L)
  else Ok (h, set_head n' L).
Definition link_prev h L l (p' : Z) : res (store * zend_llist) :=
  if negb (first_addr l 0 =? 0) then h' ← set_prev h (first_addr l 0) p'; Ok (h', L)
  else Ok (h, set_tail p' L).

Lemma link_next_ok h L l n n' : dseg h 0 l n -> NoDup (addrs l) ->
  exists h', link_next h L l n' = Ok (h', match l with [] => set_head n' L | _ => L end)
    /\ dseg h' 0 l n' /\ (forall a, a ∉ addrs l -> h' !! a = h !! a)
    /\ (forall a, h !! a = None -> h' !! a = None).
Proof.
  intros Hs Hnd. unfold link_next. destruct (last_addr_cases l 0) as [[-> Hl]|(l0 & a & d & -> & Hl)].
  - cbn. by exists h.
  - rewrite Hl. apply dseg_app in Hs as [H0 (Ha & Hh & _)]. cbn [first_addr] in *.
    rewrite (proj2 (Z.eqb_neq _ _)) by done. cbn [negb]. unfold set_next, elem_at. rewrite Hh, !bind_ok.
    cbn [e_prev e_data]. unfold addrs in Hnd. rewrite fmap_app in Hnd.
    apply NoDup_app in Hnd as (_ & Hnd & _).
    eexists. split; [by destruct l0|]. split_and!.
    + apply dseg_app. split.
      * eapply dseg_ext; [|exact H0]. intros b Hb. rewrite lookup_insert_ne; [done|].
        intros ->. by apply (Hnd b Hb), list_elem_of_here.
      * cbn. by rewrite lookup_insert_eq.
    + intros b Hb. unfold addrs in Hb. rewrite fmap_app in Hb. rewrite lookup_insert_ne; [done|]. cbn in Hb. set_solver.
    + intros b Hb. rewrite lookup_insert_ne; [done|]. intros ->. by rewrite Hh in Hb.
Qed.

Lemma link_prev_ok h L l p p' : dseg h p l 0 -> NoDup (addrs l) ->
  exists h', link_prev h L l p' = Ok (h', match l with [] => set_tail p' L | _ => L end)
    /\ dseg h' p' l 0 /\ (forall a, a ∉ addrs l -> h' !! a = h !! a)
    /\ (forall a, h !! a = None -> h' !! a = None).
Proof.
  intros Hs Hnd. unfold link_prev. destruct l as [|[a d] l]; [by exists h|]. cbn [first_addr].
  destruct Hs as (Ha & Hh & Hs). rewrite (proj2 (Z.eqb_neq _ _)) by done. cbn [negb].
  unfold set_prev, elem_at. rewrite Hh, !bind_ok. cbn [e_next e_data]. cbn in Hnd. apply NoDup_cons in Hnd as [Hna Hnd].
  eexists. split; [done|]. split_and!.
  - cbn. rewrite lookup_insert_eq. split_and!; try done. eapply dseg_ext; [|exact Hs].
    intros b Hb. rewrite lookup_insert_ne; [done|]. by intros ->.
  - intros b Hb. rewrite lookup_insert_ne; [done|]. cbn in Hb. set_solver.
  - intros b Hb. rewrite lookup_insert_ne; [done|]. intros ->. by rewrite Hh in Hb.
Qed.

(** ** Insertion and removal of one element *)

(** What no operation on the elements changes. *)
Definition config L : Z * bool * bool * Z := (size L, dtor L, persistent L, traverse_ptr L).
(** Elements of other lists are left alone. *)
Definition others_same l h h' : Prop := forall b, b ∉ addrs l -> h' !! b = h !! b.
Definition dtor_calls L (ds : list D) : list D := if dtor L then ds else [].

Lemma addrs_app l1 l2 : addrs (l1 ++ l2) = addrs l1 ++ addrs l2.
Proof. apply fmap_app. Qed.

Lemma dseg_lookup h p l n a : dseg h p l n -> h !! a = None -> a ∉ addrs l.
Proof.
  revert p. induction l as [|[b d] l IH]; intros p; cbn; [intros _ _ []%not_elem_of_nil|].
  intros (_ & Hb & Hs) Ha [->|Hin]%elem_of_cons; [congruence|by eapply IH].
Qed.


Lemma add_element_ok w L l d : rep (w_store w) L l -> zlen l + 1 < 2 ^ 64 ->
  exists w' L' a, zend_llist_add_element w L d = Ok (w', L') /\ rep (w_store w') L' (l ++ [(a, d)])
    /\ w_dtor w' = w_dtor w /\ config L' = config L /\ w_store w !! a = None
    /\ others_same (l ++ [(a, d)]) (w_store w) (w_store w').
Proof.
  intros [H1 H2 H3 H4 H5 H6] Hb. unfold zend_llist_add_element. cbv zeta. set (tmp := pemalloc (w_store w)).
  pose proof (pemalloc_fresh (w_store w)) as Hfr. pose proof (pemalloc_nonnull (w_store w)) as Hnn. fold tmp in Hfr, Hnn.
  pose proof (dseg_lookup _ _ _ _ _ H4 Hfr) as Hni. rewrite H2.
  set (h1 := <[tmp := _]> (w_store w)).
  assert (dseg h1 0 l 0) as H4'.
  { eapply dseg_ext; [|exact H4]. intros b Hb'. unfold h1. rewrite lookup_insert_ne; [done|]. by intros ->. }
  destruct (link_next_ok h1 L l 0 tmp H4' H5) as (h' & E & Hs & Ho & _). unfold link_next in E. rewrite E, bind_ok.
  eexists _, _, tmp. split; [done|]. cbn [w_store w_dtor set_store]. split_and!; try done.
  - split; cbn.
    + rewrite first_addr_app. cbn. by destruct l as [|[]].
    + by rewrite last_addr_app.
    + assert (count (match l with [] => set_head tmp L | _ => L end) = zlen l) as -> by (by destruct l).
      rewrite zlen_app. apply u64_small. unfold zlen in *. cbn. lia.
    + apply dseg_app. cbn. split; [done|]. split_and!; try done. rewrite Ho by done. unfold h1. by rewrite lookup_insert_eq.
    + rewrite addrs_app. apply NoDup_app. split_and!; [done|cbn; set_solver|]. apply NoDup_singleton.
    + rewrite zlen_app. unfold zlen in *. cbn. lia.
  - by destruct l.
  - intros b Hb'. rewrite addrs_app in Hb'. cbn in Hb'. rewrite Ho by set_solver. unfold h1.
    rewrite lookup_insert_ne; [done|]. set_solver.
Qed.

Lemma prepend_element_ok w L l d : rep (w_store w) L l -> zlen l + 1 < 2 ^ 64 ->
  exists w' L' a, zend_llist_prepend_element w L d = Ok (w', L') /\ rep (w_store w') L' ((a, d) :: l)
    /\ w_dtor w' = w_dtor w /\ config L' = config L /\ w_store w !! a = None
    /\ others_same ((a, d) :: l) (w_store w) (w_store w').
Proof.
  intros [H1 H2 H3 H4 H5 H6] Hb. unfold zend_llist_prepend_element. cbv zeta. set (tmp := pemalloc (w_store w)).
  pose proof (pemalloc_fresh (w_store w)) as Hfr. pose proof (pemalloc_nonnull (w_store w)) as Hnn. fold tmp in Hfr, Hnn.
  pose proof (dseg_lookup _ _ _ _ _ H4 Hfr) as Hni. rewrite H1.
  set (h1 := <[tmp := _]> (w_store w)).
  assert (dseg h1 0 l 0) as H4'.
  { eapply dseg_ext; [|exact H4]. intros b Hb'. unfold h1. rewrite lookup_insert_ne; [done|]. by intros ->. }
  destruct (link_prev_ok h1 L l 0 tmp H4' H5) as (h' & E & Hs & Ho & _). unfold link_prev in E. rewrite E, bind_ok.
  eexists _, _, tmp. split; [done|]. cbn [w_store w_dtor set_store]. split_and!; try done.
  - split; cbn.
    + done.
    + by destruct l as [|[]].
    + assert (count (match l with [] => set_tail tmp L | _ => L end) = zlen l) as -> by (by destruct l).
      rewrite u64_small by (unfold zlen in *; cbn; lia). unfold zlen. cbn. lia.
    + split_and!; [done| |done]. rewrite Ho by done. unfold h1. by rewrite lookup_insert_eq.
    + by apply NoDup_cons.
    + unfold zlen in *. cbn. lia.
  - by destruct l.
  - intros b Hb'. cbn in Hb'. rewrite Ho by set_solver. unfold h1. rewrite lookup_insert_ne; [done|]. set_solver.
Qed.

Lemma DEL_LLIST_ELEMENT_ok w L l1 a d l2 : rep (w_store w) L (l1 ++ (a, d) :: l2) ->
  exists w' L', DEL_LLIST_ELEMENT w L a = Ok (w', L') /\ rep (w_store w') L' (l1 ++ l2)
    /\ w_dtor w' = w_dtor w ++ dtor_calls L [d] /\ config L' = config L
    /\ w_store w' !! a = None /\ others_same (l1 ++ (a, d) :: l2) (w_store w) (w_store w').
Proof.
  intros [H1 H2 H3 H4 H5 H6]. apply dseg_app in H4 as [Hs1 (Ha & Hh & Hs2)]. cbn [first_addr] in Hs1.
  rewrite addrs_app in H5. apply NoDup_app in H5 as (N1 & N2 & [Na N3]%NoDup_cons).
  assert (a ∉ addrs l1) as Na1 by (intros Hin; by apply (N2 a Hin), list_elem_of_here).
  assert (forall b, b ∈ addrs l1 -> b ∉ addrs l2) as N12 by (intros b Hin Hin2; apply (N2 b Hin); by right).
  unfold DEL_LLIST_ELEMENT, elem_at. rewrite Hh, bind_ok. cbn [e_next e_prev e_data].
  destruct (link_next_ok (w_store w) L l1 a (first_addr l2 0) Hs1 N1) as (h1 & E1 & Hs1' & Ho1 & Hn1).
  unfold link_next in E1. rewrite E1, bind_ok. set (L1 := match l1 with [] => _ | _ => _ end).
  assert (dseg h1 a l2 0) as Hs2'.
  { eapply dseg_ext; [|exact Hs2]. intros b Hb. apply Ho1. intros Hb1. by apply (N12 b). }
  destruct (link_prev_ok h1 L1 l2 a (last_addr l1 0) Hs2' N3) as (h2 & E2 & Hs2'' & Ho2 & Hn2).
  unfold link_prev in E2. rewrite E2, bind_ok. set (L2 := match l2 with [] => _ | _ => _ end).
  assert (config L2 = config L /\ count L2 = count L) as [Hc Hcnt] by (unfold L2, L1; by destruct l1, l2).
  assert (dtor L2 = dtor L) as Hdt by (unfold config in Hc; by simplify_eq).
  eexists _, _. split; [done|].
  assert (w_store (pefree a (run_ldtor L2 d (set_store h2 w))) = delete a h2) as Hst
    by (unfold run_ldtor; by destruct (dtor L2)).
  assert (forall b, b <> a -> b ∉ addrs l1 -> b ∉ addrs l2 -> delete a h2 !! b = w_store w !! b) as Hob.
  { intros b Hb1 Hb2 Hb3. rewrite lookup_delete_ne by done. by rewrite Ho2, Ho1. }
  rewrite Hst. split_and!.
  - split; cbn.
    + rewrite first_addr_app. unfold L2, L1. rewrite first_addr_app in H1. by destruct l1 as [|[]], l2 as [|[]].
    + rewrite last_addr_app. unfold L2, L1. rewrite last_addr_app in H2. by destruct l1 as [|[]], l2 as [|[]].
    + rewrite Hcnt, H3, !zlen_app, u64_small; rewrite zlen_app in H6; unfold zlen in *; cbn in *; lia.
    + apply dseg_app. split.
      * eapply dseg_ext; [|exact Hs1']. intros b Hb. rewrite lookup_delete_ne by (by intros ->).
        apply Ho2. by apply N12.
      * eapply dseg_ext; [|exact Hs2'']. intros b Hb. by rewrite lookup_delete_ne by (by intros ->).
    + rewrite addrs_app. apply NoDup_app. done.
    + rewrite zlen_app in *. unfold zlen in *. cbn in *. lia.
  - unfold run_ldtor, dtor_calls. rewrite Hdt. destruct (dtor L); cbn; [done|by rewrite app_nil_r].
  - exact Hc.
  - by rewrite lookup_delete_eq.
  - intros b Hb. rewrite addrs_app in Hb. cbn in Hb. apply Hob; set_solver.
Qed.

(** ** Loops over the elements *)

(** The list without the first element [f] accepts, and that element's data. *)
Fixpoint remove_first (f : D -> bool) l : list item * list D :=
  match l with
  | [] => ([], [])
  | (a, d) :: l => if f d then (l, [d]) else let '(l', r) := remove_first f l in ((a, d) :: l', r)
  end.

Lemma rep_first h L l1 a d l2 : rep h L (l1 ++ (a, d) :: l2) ->
  a <> 0 /\ h !! a = Some (mkElement (first_addr l2 0) (last_addr l1 0) d).
Proof. intros H. pose proof (rep_seg _ _ _ H) as [_ (H1 & H2 & _)]%dseg_app. done. Qed.

Lemma del_loop_ok f fuel w L l1 l2 : rep (w_store w) L (l1 ++ l2) -> (length l2 < fuel)%nat ->
  exists w' L', del_loop fuel w L f (first_addr l2 0) = Ok (w', L')
    /\ rep (w_store w') L' (l1 ++ (remove_first f l2).1)
    /\ w_dtor w' = w_dtor w ++ dtor_calls L (remove_first f l2).2 /\ config L' = config L
    /\ others_same (l1 ++ l2) (w_store w) (w_store w').
Proof.
  revert l1 l2. induction fuel as [|fuel IH]; intros l1 l2 Hr Hf; [lia|]. cbn [del_loop].
  destruct l2 as [|[a d] l2]; cbn [first_addr remove_first].
  - rewrite Z.eqb_refl. exists w, L. split_and!; try done. unfold dtor_calls. destruct (dtor L); by rewrite app_nil_r.
  - destruct (rep_first _ _ _ _ _ _ Hr) as [Ha Hh]. rewrite (proj2 (Z.eqb_neq _ _)) by done.
    unfold elem_at. rewrite Hh, bind_ok. cbn [e_data e_next]. destruct (f d).
    + destruct (DEL_LLIST_ELEMENT_ok w L l1 a d l2 Hr) as (w' & L' & E & Hr' & Hd & Hc & _ & Ho). by exists w', L'.
    + specialize (IH (l1 ++ [(a, d)]) l2). rewrite <- app_assoc in IH. destruct IH as (w' & L' & E & Hr' & Hd & Hc & Ho);
        [done|cbn in Hf; lia|].
      exists w', L'. destruct (remove_first f l2) as [l' r]. cbn [fst snd] in *. rewrite <- app_assoc in Hr'. done.
Qed.

Lemma destroy_loop_ok fuel w L p l : dseg (w_store w) p l 0 -> NoDup (addrs l) -> (length l < fuel)%nat ->
  exists w', destroy_loop fuel w L (first_addr l 0) = Ok w'
    /\ w_dtor w' = w_dtor w ++ dtor_calls L (snd <$> l)
    /\ (forall a, a ∈ addrs l -> w_store w' !! a = None) /\ others_same l (w_store w) (w_store w').
Proof.
  revert w p l. induction fuel as [|fuel IH]; intros w p l Hs Hnd Hf; [lia|]. cbn [destroy_loop].
  destruct l as [|[a d] l]; cbn [first_addr].
  - rewrite Z.eqb_refl. exists w. split_and!; try done.
    + unfold dtor_calls. destruct (dtor L); by rewrite app_nil_r.
    + by intros a []%not_elem_of_nil.
  - destruct Hs as (Ha & Hh & Hs). cbn in Hnd. apply NoDup_cons in Hnd as [Hna Hnd].
    rewrite (proj2 (Z.eqb_neq _ _)) by done. unfold elem_at. rewrite Hh, bind_ok. cbn [e_data e_next].
    set (w1 := pefree a _).
    assert (w_store w1 = delete a (w_store w)) as Hst by (unfold w1, run_ldtor; by destruct (dtor L)).
    destruct (IH w1 a l) as (w' & E & Hd & Hg & Ho); [|done|cbn in Hf; lia|].
    { eapply dseg_ext; [|exact Hs]. intros b Hb. rewrite Hst, lookup_delete_ne; [done|]. by intros ->. }
    exists w'. split_and!; [done| | |].
    + rewrite Hd. unfold w1, run_ldtor, dtor_calls. destruct (dtor L); cbn; [|done]. by rewrite <- app_assoc.
    + intros b [->|Hb]%elem_of_cons; [|by apply Hg]. rewrite Ho by done. rewrite Hst. by rewrite lookup_delete_eq.
    + intros b Hb. cbn in Hb. rewrite Ho by set_solver. rewrite Hst, lookup_delete_ne; [done|]. set_solver.
Qed.

Lemma remove_tail_ok w L l a d : rep (w_store w) L (l ++ [(a, d)]) ->
  exists w' L', zend_llist_remove_tail w L = Ok (w', L') /\ rep (w_store w') L' l
    /\ w_dtor w' = w_dtor w ++ dtor_calls L [d] /\ config L' = config L
    /\ w_store w' !! a = None /\ others_same (l ++ [(a, d)]) (w_store w) (w_store w').
Proof.
  intros [H1 H2 H3 H4 H5 H6]. apply dseg_app in H4 as [Hs1 (Ha & Hh & _)]. cbn [first_addr] in Hs1, Hh.
  rewrite addrs_app in H5. apply NoDup_app in H5 as (N1 & N2 & _).
  assert (a ∉ addrs l) as Na by (intros Hin; by apply (N2 a Hin), list_elem_of_here).
  rewrite last_addr_app in H2. cbn in H2.
  unfold zend_llist_remove_tail. cbv zeta. rewrite H2, (proj2 (Z.eqb_neq _ _)) by done.
  unfold elem_at at 1. rewrite Hh, bind_ok. cbn [e_next e_prev e_data].
  destruct (link_next_ok (w_store w) L l a 0 Hs1 N1) as (h1 & E1 & Hs1' & Ho1 & Hn1).
  unfold link_next in E1. rewrite E1, bind_ok. set (L1 := match l with [] => _ | _ => _ end).
  assert (config L1 = config L /\ count L1 = count L) as [Hc Hcnt] by (unfold L1; by destruct l).
  assert (dtor L1 = dtor L) as Hdt by (unfold config in Hc; by simplify_eq).
  eexists _, _. split; [done|].
  match goal with |- context [w_store (pefree a ?x)] => assert (w_store (pefree a x) = delete a h1) as Hst end.
  { unfold run_ldtor. cbn [dtor set_count set_tail]. by destruct (dtor L1). }
  rewrite Hst. split_and!.
  - split; cbn.
    + unfold L1. rewrite first_addr_app in H1. by destruct l as [|[]].
    + done.
    + rewrite Hcnt, H3, zlen_app, u64_small; rewrite zlen_app in H6; unfold zlen in *; cbn in *; lia.
    + eapply dseg_ext; [|exact Hs1']. intros b Hb. by rewrite lookup_delete_ne by (by intros ->).
    + done.
    + rewrite zlen_app in H6. unfold zlen in *. cbn in *. lia.
  - unfold run_ldtor, dtor_calls. cbn [dtor set_count set_tail]. rewrite Hdt. destruct (dtor L); cbn; [done|by rewrite app_nil_r].
  - exact Hc.
  - by rewrite lookup_delete_eq.
  - intros b Hb. rewrite addrs_app in Hb. cbn in Hb. rewrite lookup_delete_ne by set_solver. apply Ho1. set_solver.
Qed.
End LList.

(** ** Applying functions, copying, traversal and sorting *)

Section LListMore.
Context {D : Type} {AL : Allocator D}.
Abbreviation store := (gmap Z (zend_llist_element D)).
Abbreviation item := (Z * D)%type.
Implicit Types (h : store) (l : list item) (L : zend_llist) (w : @lworld D).

Lemma elem_at_ok h a e : h !! a = Some e -> elem_at h a = Ok e.
Proof. unfold elem_at. by intros ->. Qed.

Lemma set_data_ok w L l1 a d d' l2 : rep (w_store w) L (l1 ++ (a, d) :: l2) ->
  exists w', set_data w a d' = Ok w' /\ rep (w_store w') L (l1 ++ (a, d') :: l2) /\ w_dtor w' = w_dtor w
    /\ others_same (l1 ++ (a, d) :: l2) (w_store w) (w_store w').
Proof.
  intros Hr. destruct (rep_first _ _ _ _ _ _ Hr) as [Ha Hh]. destruct Hr as [H1 H2 H3 H4 H5 H6].
  unfold set_data, elem_at. rewrite Hh, bind_ok. cbn [e_next e_prev]. eexists. split; [done|].
  cbn [w_store w_dtor set_store]. rewrite addrs_app in H5. cbn in H5.
  assert ((a ∉ addrs l1) /\ (a ∉ addrs l2)) as [Na1 Na2].
  { apply NoDup_app in H5 as (_ & N2 & [Na _]%NoDup_cons). split; [|done]. intros Hin. by apply (N2 a Hin), list_elem_of_here. }
  split_and!; [|done|].
  - apply dseg_app in H4 as [Hs1 (_ & _ & Hs2)].
    split; rewrite ?first_addr_app, ?last_addr_app, ?addrs_app, ?zlen_app in *; try done.
    apply dseg_app. split; [|cbn; split; [done|split]].
    + eapply dseg_ext; [|exact Hs1]. intros b Hb. rewrite lookup_insert_ne; [done|]. by intros ->.
    + by rewrite lookup_insert_eq.
    + eapply dseg_ext; [|exact Hs2]. intros b Hb. rewrite lookup_insert_ne; [done|]. by intros ->.
  - intros b Hb. rewrite addrs_app in Hb. cbn in Hb. rewrite lookup_insert_ne; [done|]. set_solver.
Qed.

Lemma others_same_trans l l' h1 h2 h3 : others_same l h1 h2 -> others_same l' h2 h3 ->
  (forall a, a ∈ addrs l' -> a ∈ addrs l) -> others_same l h1 h3.
Proof. intros H1 H2 Hs b Hb. rewrite H2 by (intros Hin; apply Hb, Hs, Hin). by apply H1. Qed.

Section Apply.
Context {S : Type} (func : S -> D -> S * D * bool).

(** What applying [func] leaves: state, elements, and the data destroyed. *)
Fixpoint apply_del_ref (s : S) l : S * list item * list D :=
  match l with
  | [] => (s, [], [])
  | (a, d) :: l =>
      let '(s, d, del) := func s d in
      let '(s, l', r) := apply_del_ref s l in
      if del : bool then (s, l', d :: r) else (s, (a, d) :: l', r)
  end.

Lemma dtor_calls_cons L (d : D) r : dtor_calls L (d :: r) = dtor_calls L [d] ++ dtor_calls L r.
Proof. unfold dtor_calls. by destruct (dtor L). Qed.

Lemma dtor_calls_config L L' (ds : list D) : config L' = config L -> dtor_calls L' ds = dtor_calls L ds.
Proof. unfold config, dtor_calls. by intros [= _ -> _ _]. Qed.

Lemma apply_del_loop_ok fuel s w L l1 l2 : rep (w_store w) L (l1 ++ l2) -> (length l2 < fuel)%nat ->
  exists w' L', apply_del_loop func fuel s w L (first_addr l2 0) = Ok ((apply_del_ref s l2).1.1, w', L')
    /\ rep (w_store w') L' (l1 ++ (apply_del_ref s l2).1.2)
    /\ w_dtor w' = w_dtor w ++ dtor_calls L (apply_del_ref s l2).2 /\ config L' = config L
    /\ others_same (l1 ++ l2) (w_store w) (w_store w').
Proof.
  revert s w L l1 l2. induction fuel as [|fuel IH]; intros s w L l1 l2 Hr Hf; [lia|]. cbn [apply_del_loop].
  destruct l2 as [|[a d] l2]; cbn [first_addr apply_del_ref].
  - rewrite Z.eqb_refl. exists w, L. split_and!; try done. unfold dtor_calls. destruct (dtor L); by rewrite app_nil_r.
  - destruct (rep_first _ _ _ _ _ _ Hr) as [Ha Hh]. rewrite (proj2 (Z.eqb_neq _ _)) by done.
    unfold elem_at. rewrite Hh, bind_ok. cbn [e_data e_next]. destruct (func s d) as [[s1 d1] del].
    destruct (set_data_ok w L l1 a d d1 l2 Hr) as (w1 & -> & Hr1 & Hd1 & Ho1). rewrite bind_ok. destruct del.
    + destruct (DEL_LLIST_ELEMENT_ok w1 L l1 a d1 l2 Hr1) as (w2 & L2 & -> & Hr2 & Hd2 & Hc2 & _ & Ho2). rewrite bind_ok.
      destruct (IH s1 w2 L2 l1 l2 Hr2) as (w3 & L3 & -> & Hr3 & Hd3 & Hc3 & Ho3); [cbn in Hf; lia|].
      exists w3, L3. destruct (apply_del_ref s1 l2) as [[s2 l'] r]. cbn [fst snd] in *. split_and!; try done.
      * rewrite Hd3, Hd2, Hd1, (dtor_calls_cons L d1 r), (dtor_calls_config L L2) by done. by rewrite <- app_assoc.
      * congruence.
      * eapply others_same_trans; [exact Ho1| |]; [eapply others_same_trans; [exact Ho2|exact Ho3|]|];
          intros b; rewrite !addrs_app; cbn; set_solver.
    + rewrite bind_ok. specialize (IH s1 w1 L (l1 ++ [(a, d1)]) l2). rewrite <- !app_assoc in IH.
      destruct IH as (w3 & L3 & -> & Hr3 & Hd3 & Hc3 & Ho3); [done|cbn in Hf; lia|].
      exists w3, L3. destruct (apply_del_ref s1 l2) as [[s2 l'] r]. cbn [fst snd app] in *.
      split_and!; try done; [by rewrite Hd3, Hd1|].
      eapply others_same_trans; [exact Ho1|exact Ho3|]. intros b. rewrite !addrs_app. cbn. set_solver.
Qed.
End Apply.

(** ** Copying *)
Lemma rep_frame h h' L l : rep h L l -> (forall a, a ∈ addrs l -> h' !! a = h !! a) -> rep h' L l.
Proof. intros [H1 H2 H3 H4 H5 H6] He. split; try done. by eapply dseg_ext. Qed.

Lemma copy_elements_ok fuel w src s1 s2 dst l : rep (w_store w) src (s1 ++ s2) -> rep (w_store w) dst l ->
  (forall a, a ∈ addrs l -> a ∉ addrs (s1 ++ s2)) -> zlen l + zlen s2 < 2 ^ 64 -> (length s2 < fuel)%nat ->
  exists w' dst' l2, copy_elements fuel w dst (first_addr s2 0) = Ok (w', dst')
    /\ rep (w_store w') src (s1 ++ s2) /\ rep (w_store w') dst' (l ++ l2) /\ l2.*2 = s2.*2
    /\ config dst' = config dst /\ w_dtor w' = w_dtor w
    /\ (forall a, a ∈ addrs (l ++ l2) -> a ∉ addrs (s1 ++ s2)).
Proof.
  revert w dst s1 s2 l. induction fuel as [|fuel IH]; intros w dst s1 s2 l Hsrc Hdst Hdis Hb Hf; [lia|].
  cbn [copy_elements]. destruct s2 as [|[a d] s2]; cbn [first_addr].
  - rewrite Z.eqb_refl. exists w, dst, []. by rewrite !app_nil_r in *.
  - destruct (rep_first _ _ _ _ _ _ Hsrc) as [Ha Hh]. rewrite (proj2 (Z.eqb_neq _ _)) by done.
    rewrite (elem_at_ok _ _ _ Hh), bind_ok. cbn [e_data].
    destruct (add_element_ok w dst l d Hdst) as (w1 & dst1 & t & -> & Hd1 & Hw1 & Hc1 & Ht & Ho1).
    { unfold zlen in *. cbn in Hb. lia. }
    rewrite bind_ok.
    assert (t ∉ addrs (s1 ++ (a, d) :: s2)) as Ht' by (eapply dseg_lookup; [apply Hsrc|done]).
    assert (forall b, b ∈ addrs (s1 ++ (a, d) :: s2) -> w_store w1 !! b = w_store w !! b) as Hsame.
    { intros b Hb'. apply Ho1. rewrite addrs_app, elem_of_app. change (addrs [(t, d)]) with [t]. rewrite list_elem_of_singleton. intros [Hin| ->]; [by apply (Hdis b)|done]. }
    pose proof (rep_frame _ _ _ _ Hsrc Hsame) as Hsrc1.
    destruct (rep_first _ _ _ _ _ _ Hsrc1) as [_ Hh1]. rewrite (elem_at_ok _ _ _ Hh1), bind_ok. cbn [e_next].
    specialize (IH w1 dst1 (s1 ++ [(a, d)]) s2 (l ++ [(t, d)])). rewrite <- !app_assoc in IH.
    destruct IH as (w2 & dst2 & l2 & E & Hs2 & Hd2 & Hdata & Hc2 & Hw2 & Hdis2); try done.
    { intros b. rewrite addrs_app, elem_of_app. change (addrs [(t, d)]) with [t]. rewrite list_elem_of_singleton. intros [Hin| ->]; [by apply Hdis|done]. }
    { rewrite zlen_app. unfold zlen in *. cbn in *. lia. }
    { cbn in Hf. lia. }
    exists w2, dst2, ((t, d) :: l2). rewrite <- app_assoc in Hd2, Hdis2. cbn in *. split_and!; try done; congruence.
Qed.

(** ** Traversal *)

(** The data seen from the first element on, and from the last one back. *)
Fixpoint walk (step : @lworld D -> Z -> res (Z * option D)) (fuel : nat) (w : @lworld D) (at_ : Z * option D) : res (list D) :=
  match fuel, at_ with
  | O, _ => Ub
  | S fuel, (_, None) => Ok []
  | S fuel, (pos, Some d) => nxt ← step w pos; r ← walk step fuel w nxt; Ok (d :: r)
  end.

Lemma get_data_first w L l1 l2 : rep (w_store w) L (l1 ++ l2) ->
  get_data w (first_addr l2 0) = Ok (snd <$> List.hd_error l2).
Proof.
  intros Hr. destruct l2 as [|[a d] l2]; [done|]. destruct (rep_first _ _ _ _ _ _ Hr) as [Ha Hh].
  unfold get_data. cbn. rewrite (proj2 (Z.eqb_neq _ _)) by done. unfold elem_at. by rewrite Hh.
Qed.

Lemma get_data_last w L l1 l2 : rep (w_store w) L (l1 ++ l2) ->
  get_data w (last_addr l1 0) = Ok (snd <$> last l1).
Proof.
  intros Hr. destruct (last_addr_cases l1 0) as [[-> ->]|(l0 & a & d & -> & ->)]; [done|].
  rewrite <- app_assoc in Hr. destruct (rep_first _ _ _ _ _ _ Hr) as [Ha Hh]. rewrite last_snoc.
  unfold get_data. rewrite (proj2 (Z.eqb_neq _ _)) by done. unfold elem_at. by rewrite Hh.
Qed.

Lemma get_next_ok w L l1 a d l2 : rep (w_store w) L (l1 ++ (a, d) :: l2) ->
  zend_llist_get_next_ex w a = Ok (first_addr l2 0, snd <$> List.hd_error l2).
Proof.
  intros Hr. destruct (rep_first _ _ _ _ _ _ Hr) as [Ha Hh]. unfold zend_llist_get_next_ex.
  rewrite (proj2 (Z.eqb_neq _ _)) by done. rewrite (elem_at_ok _ _ _ Hh), bind_ok. cbn [e_next].
  rewrite (cons_middle _ l1 l2), app_assoc in Hr. by rewrite (get_data_first w L (l1 ++ [(a, d)]) l2 Hr).
Qed.

Lemma get_prev_ok w L l1 a d l2 : rep (w_store w) L (l1 ++ (a, d) :: l2) ->
  zend_llist_get_prev_ex w a = Ok (last_addr l1 0, snd <$> last l1).
Proof.
  intros Hr. destruct (rep_first _ _ _ _ _ _ Hr) as [Ha Hh]. unfold zend_llist_get_prev_ex.
  rewrite (proj2 (Z.eqb_neq _ _)) by done. rewrite (elem_at_ok _ _ _ Hh), bind_ok. cbn [e_prev].
  by rewrite (get_data_last w L l1 _ Hr).
Qed.

Lemma walk_next_ok fuel w L l1 l2 : rep (w_store w) L (l1 ++ l2) -> (length l2 < fuel)%nat ->
  walk zend_llist_get_next_ex fuel w (first_addr l2 0, snd <$> List.hd_error l2) = Ok l2.*2.
Proof.
  revert l1 l2. induction fuel as [|fuel IH]; intros l1 l2 Hr Hf; [lia|]. destruct l2 as [|[a d] l2]; [done|].
  cbn [first_addr List.hd_error]. change (snd <$> Some (a, d)) with (Some d). cbn [walk].
  rewrite (get_next_ok _ _ _ _ _ _ Hr), bind_ok. rewrite (cons_middle _ l1 l2), app_assoc in Hr.
  by rewrite (IH (l1 ++ [(a, d)]) l2 Hr) by (cbn in Hf; lia).
Qed.

Lemma walk_prev_ok fuel w L l1 l2 : rep (w_store w) L (l1 ++ l2) -> (length l1 < fuel)%nat ->
  walk zend_llist_get_prev_ex fuel w (last_addr l1 0, snd <$> last l1) = Ok (reverse l1.*2).
Proof.
  revert l1 l2. induction fuel as [|fuel IH]; intros l1 l2 Hr Hf; [lia|].
  destruct (last_addr_cases l1 0) as [[-> ->]|(l0 & a & d & -> & ->)]; [done|].
  rewrite <- app_assoc in Hr. rewrite last_snoc. change (snd <$> Some (a, d)) with (Some d). cbn [walk].
  rewrite (get_prev_ok _ _ _ _ _ _ Hr), bind_ok.
  rewrite (IH l0 _ Hr) by (rewrite length_app in Hf; cbn in Hf; lia). rewrite bind_ok.
  by rewrite fmap_app, reverse_app.
Qed.

(** ** Sorting *)

Lemma collect_loop_ok fuel h p l : dseg h p l 0 -> (length l < fuel)%nat ->
  collect_loop fuel h (first_addr l 0) = Ok (addrs l).
Proof.
  revert p l. induction fuel as [|fuel IH]; intros p l Hs Hf; [lia|]. cbn [collect_loop].
  destruct l as [|[a d] l]; [done|]. destruct Hs as (Ha & Hh & Hs). cbn [first_addr].
  rewrite (proj2 (Z.eqb_neq _ _)) by done. rewrite (elem_at_ok _ _ _ Hh), bind_ok. cbn [e_next].
  by rewrite (IH a l Hs) by (cbn in Hf; lia).
Qed.

(** The elements [l] are in the store, with any links. *)
Definition present h l : Prop :=
  forall a d, (a, d) ∈ l -> a <> 0 /\ exists n p, h !! a = Some (mkElement n p d).

Lemma dseg_present h p l n : dseg h p l n -> present h l.
Proof.
  revert p. induction l as [|[a d] l IH]; intros p; cbn; [by intros _ a d []%not_elem_of_nil|].
  intros (H1 & H2 & H3) b e [[= -> ->]|Hin]%elem_of_cons; [by eauto|by eapply IH].
Qed.

Lemma present_change h h' l : present h l -> (forall a, a ∈ addrs l -> h' !! a = h !! a) -> present h' l.
Proof.
  intros H He a d Hin. rewrite He by (apply list_elem_of_fmap; by exists (a, d)). by apply H.
Qed.

Lemma relink_loop_ok h prev n0 p0 d0 l : h !! prev = Some (mkElement n0 p0 d0) ->
  present h l -> NoDup (prev :: addrs l) ->
  exists h' n, relink_loop h prev (addrs l) = Ok h'
    /\ h' !! prev = Some (mkElement (first_addr l n) p0 d0) /\ dseg h' prev l n
    /\ forall b, b ∉ prev :: addrs l -> h' !! b = h !! b.
Proof.
  revert h prev n0 p0 d0. induction l as [|[a d] l IH]; intros h prev n0 p0 d0 Hp Hpr Hnd; [by exists h, n0|].
  cbn [addrs fmap list_fmap fst relink_loop]. fold (addrs l).
  cbn in Hnd. apply NoDup_cons in Hnd as [Hnp Hnd]. pose proof Hnd as [Hna Hnd']%NoDup_cons.
  destruct (Hpr a d) as (Ha & n1 & p1 & Hh); [by left|].
  unfold set_prev at 1. rewrite (elem_at_ok _ _ _ Hh), !bind_ok. cbn [e_next e_data].
  assert (prev <> a) as Hne by set_solver.
  unfold set_next at 1. rewrite (elem_at_ok _ prev (mkElement n0 p0 d0)) by (by rewrite lookup_insert_ne).
  rewrite !bind_ok. cbn [e_prev e_data]. set (h1 := <[prev := _]> _).
  destruct (IH h1 a n1 prev d) as (h' & n & E & Hh' & Hs & Ho); [| |done|].
  { unfold h1. by rewrite lookup_insert_ne, lookup_insert_eq. }
  { eapply present_change; [intros b e Hin; apply Hpr; by right|]. intros b Hb. unfold h1.
    rewrite !lookup_insert_ne; [done|set_solver|set_solver]. }
  exists h', n. split; [done|]. cbn [first_addr dseg]. split_and!; try done.
  - rewrite Ho by set_solver. unfold h1. by rewrite lookup_insert_eq.
  - intros b Hb. rewrite Ho by set_solver. unfold h1. rewrite !lookup_insert_ne; [done|set_solver|set_solver].
Qed.

#[export] Instance llist_swap_parts : SwapParts zend_llist_swap id (fun _ => tt).
Proof. by split. Qed.

Lemma last_lookup l a d : zget (addrs (l ++ [(a, d)])) (zlen (l ++ [(a, d)]) - 1) = Some a.
Proof.
  unfold zget, zlen. rewrite addrs_app, length_app. cbn [length].
  rewrite (proj2 (Z.leb_le _ _)) by lia. replace (Z.to_nat _) with (length (addrs l)).
  - by rewrite lookup_app_r, Nat.sub_diag by done.
  - unfold addrs. rewrite length_fmap. lia.
Qed.

Lemma relink_all h0 l : present h0 l -> NoDup (addrs l) -> l <> [] ->
  exists h first last_,
    rd (addrs l) 0 = Ok first /\ rd (addrs l) (zlen l - 1) = Ok last_
    /\ first = first_addr l 0 /\ last_ = last_addr l 0
    /\ (h1 ← set_prev h0 first 0; h2 ← relink_loop h1 first (drop 1 (addrs l)); set_next h2 last_ 0) = Ok h
    /\ dseg h 0 l 0 /\ others_same l h0 h.
Proof.
  intros Hpr Hnd Hne. destruct l as [|[f d] l]; [done|]. set (l0 := (f, d) :: l) in *.
  destruct (Hpr f d) as (Hf & n & p & Hh); [by left|].
  destruct (relink_loop_ok (<[f := mkElement n 0 d]> h0) f n 0 d l) as (h2 & n' & E2 & Hh2 & Hs2 & Ho2).
  { by rewrite lookup_insert_eq. }
  { eapply present_change; [intros b e Hin; apply Hpr; by right|]. intros b Hb.
    rewrite lookup_insert_ne; [done|]. intros ->. cbn in Hnd. by apply NoDup_cons in Hnd as [? _]. }
  { done. }
  assert (dseg h2 0 l0 n') as Hseg by (cbn; by split_and!).
  destruct (link_next_ok h2 (mkLList 0 0 0 0 false false 0) l0 n' 0 Hseg Hnd) as (h3 & E3 & Hs3 & Ho3 & _).
  exists h3, f, (last_addr l0 0). split_and!; try done.
  - destruct (last_addr_cases l0 0) as [[? _]|(l1 & a & e & El & ->)]; [done|]. rewrite El.
    by rewrite (rd_ok _ _ _ (last_lookup l1 a e)).
  - unfold set_prev. rewrite (elem_at_ok _ _ _ Hh), !bind_ok. cbn [e_next e_data].
    change (drop 1 (addrs l0)) with (addrs l). rewrite E2, bind_ok. unfold link_next in E3.
    assert (last_addr l0 0 <> 0) as Hl0.
    { eapply dseg_nonnull; [exact Hseg|]. by apply last_addr_elem. }
    rewrite (proj2 (Z.eqb_neq _ _)) in E3 by done. cbn [negb] in E3.
    destruct (set_next h2 (last_addr l0 0) 0); cbn in E3; by simplify_eq.
  - intros b Hb. rewrite Ho3 by done. rewrite Ho2 by done. rewrite lookup_insert_ne; [done|].
    intros ->. apply Hb. by left.
Qed.

Lemma sort_ok {S} (comp_func : S -> Z -> Z -> S * Z) leA s w L l : rep (w_store w) L l ->
  exists s' w' L' l', zend_llist_sort comp_func s w L = Ok (s', w', L') /\ rep (w_store w') L' l' /\ l' ≡ₚ l
    /\ w_dtor w' = w_dtor w /\ config L' = config L /\ others_same l (w_store w) (w_store w')
    /\ (agrees comp_func id leA -> StronglySorted leA (addrs l')).
Proof.
  intros Hr. pose proof Hr as [H1 H2 H3 H4 H5 H6]. unfold zend_llist_sort. rewrite H3.
  destruct (Z.eqb_spec (zlen l) 0) as [Hz|Hz].
  { exists s, w, L, l. split_and!; try done. intros _. destruct l; [constructor|done]. }
  unfold list_fuel. rewrite H1, (collect_loop_ok _ _ 0 l H4), bind_ok by (rewrite H3; unfold zlen; lia).
  assert (zlen (addrs l) = zlen l) as Hza by (unfold addrs; apply zlen_fmap).
  rewrite Hza, Z.eqb_refl. cbn [assert_]. rewrite bind_ok.
  destruct (sort_prefix (@zend_sort) comp_func zend_llist_swap id (fun _ => tt) leA s (addrs l) (zlen l))
    as (s' & el & -> & Hl & _ & Hp & Hs); [unfold zlen in *; lia|]. rewrite bind_ok.
  assert (length el = length l) as Hle by (rewrite Hl; unfold addrs; by rewrite length_fmap).
  assert (forall x : list Z, length x = length l -> take (Z.to_nat (zlen l)) x = x) as Ht.
  { intros x Hx. apply take_ge. unfold zlen. lia. }
  rewrite !list_fmap_id, !Ht in Hp by (done || (unfold addrs; by rewrite length_fmap)).
  rewrite list_fmap_id, Ht in Hs by done.
  destruct (Permutation_map_inv fst l Hp) as (l' & -> & Hpl). change (map fst l') with (addrs l') in *.
  destruct (relink_all (w_store w) l') as (h & first & last_ & E1 & E2 & Ef & El & E3 & Hseg & Ho).
  { intros a d Hin. apply (dseg_present _ _ _ _ H4). by rewrite Hpl. }
  { unfold addrs in *. by rewrite <- Hpl. }
  { intros ->. symmetry in Hpl. apply Permutation_nil in Hpl. by rewrite Hpl in Hz. }
  assert (zlen l' = zlen l) as Hll by (unfold zlen; by rewrite Hpl).
  rewrite Hll in E2. rewrite E1, bind_ok.
  destruct (set_prev (w_store w) first 0) as [h1| |] eqn:P1 in E3 |- *; [|done|done].
  rewrite bind_ok in E3. rewrite bind_ok.
  destruct (relink_loop h1 first (drop 1 (addrs l'))) as [h2| |] eqn:P2 in E3 |- *; [|done|done].
  rewrite bind_ok in E3. rewrite bind_ok.
  rewrite E2, bind_ok, E3, bind_ok. eexists _, _, _, l'. split; [done|]. cbn [w_store w_dtor set_store].
  split_and!; try done.
  - split; try done; cbn; rewrite ?Hll; try done. unfold addrs in *. by rewrite <- Hpl.
  - intros b Hb. apply Ho. unfold addrs in *. by rewrite <- Hpl.
Qed.
End LListMore.

(** ** The theorems *)

Section LListTheorems.
Context {D : Type} {AL : Allocator D}.
Implicit Types (l : list (Z * D)) (L : zend_llist) (w : @lworld D).

(** From [w], [L] to [w'], [L'] the list becomes [l'], the destructor runs on
    [ds], and the elements of other lists stay as they are. *)
Definition becomes w L l w' L' l' (ds : list D) : Prop :=
  rep (w_store w') L' l' /\ w_dtor w' = w_dtor w ++ dtor_calls L ds /\ config L' = config L
  /\ forall b, b ∉ addrs l -> b ∉ addrs l' -> w_store w' !! b = w_store w !! b.

Lemma dtor_calls_nil L : dtor_calls L ([] : list D) = [].
Proof. unfold dtor_calls. by destruct (dtor L). Qed.

(** zend_llist_add_element puts a new element at the end and
    zend_llist_prepend_element one at the front; both links, the ends and the count
    are right afterwards and nothing else in memory changes. *)
Theorem zend_llist_insert_correct w L l d : rep (w_store w) L l -> zlen l + 1 < 2 ^ 64 ->
  (exists w' L' a, zend_llist_add_element w L d = Ok (w', L') /\ becomes w L l w' L' (l ++ [(a, d)]) [])
  /\ (exists w' L' a, zend_llist_prepend_element w L d = Ok (w', L') /\ becomes w L l w' L' ((a, d) :: l) []).
Proof.
  intros Hr Hb. split.
  - destruct (add_element_ok w L l d Hr Hb) as (w' & L' & a & E & Hr' & Hd & Hc & _ & Ho). exists w', L', a.
    split; [done|]. unfold becomes. rewrite dtor_calls_nil, app_nil_r. split_and!; try done. intros b _ Hb'. by apply Ho.
  - destruct (prepend_element_ok w L l d Hr Hb) as (w' & L' & a & E & Hr' & Hd & Hc & _ & Ho). exists w', L', a.
    split; [done|]. unfold becomes. rewrite dtor_calls_nil, app_nil_r. split_and!; try done. intros b _ Hb'. by apply Ho.
Qed.

(** C11: zend_llist_del_element removes the first element the comparison accepts,
    zend_llist_remove_tail the last one, zend_llist_apply_with_del those for which
    the function asks for it, and zend_llist_destroy all of them; the destructor
    runs once on each removed element, in order. *)
Theorem zend_llist_remove_correct w L l element compare {S} (func : S -> D -> S * D * bool) s :
  rep (w_store w) L l ->
  (exists w' L', zend_llist_del_element w L element compare = Ok (w', L')
     /\ becomes w L l w' L' (remove_first (fun d => compare d element) l).1
          (remove_first (fun d => compare d element) l).2)
  /\ (forall l0 a d, l = l0 ++ [(a, d)] ->
      exists w' L', zend_llist_remove_tail w L = Ok (w', L') /\ becomes w L l w' L' l0 [d])
  /\ (exists w' L', zend_llist_apply_with_del func s w L = Ok ((apply_del_ref func s l).1.1, w', L')
      /\ becomes w L l w' L' (apply_del_ref func s l).1.2 (apply_del_ref func s l).2)
  /\ (exists w' L', zend_llist_destroy w L = Ok (w', L') /\ becomes w L l w' L' [] (snd <$> l)
      /\ forall a, a ∈ addrs l -> w_store w' !! a = None).
Proof.
  intros Hr. assert (length l < list_fuel L)%nat as Hf by (unfold list_fuel; rewrite (rep_count _ _ _ Hr); unfold zlen; lia).
  pose proof (rep_head _ _ _ Hr) as Hh. split_and!.
  - unfold zend_llist_del_element. rewrite Hh.
    destruct (del_loop_ok (fun d => compare d element) (list_fuel L) w L [] l Hr Hf) as (w' & L' & E & Hr' & Hd & Hc & Ho).
    exists w', L'. split; [done|]. unfold becomes. split_and!; try done. intros b Hb _. by apply Ho.
  - intros l0 a d ->. destruct (remove_tail_ok w L l0 a d Hr) as (w' & L' & E & Hr' & Hd & Hc & _ & Ho).
    exists w', L'. split; [done|]. unfold becomes. split_and!; try done. intros b Hb _. by apply Ho.
  - unfold zend_llist_apply_with_del. rewrite Hh.
    destruct (apply_del_loop_ok func (list_fuel L) s w L [] l Hr Hf) as (w' & L' & E & Hr' & Hd & Hc & Ho).
    exists w', L'. split; [done|]. unfold becomes. split_and!; try done. intros b Hb _. by apply Ho.
  - unfold zend_llist_destroy. rewrite Hh.
    destruct (destroy_loop_ok (list_fuel L) w L 0 l (rep_seg _ _ _ Hr) (rep_nodup _ _ _ Hr) Hf) as (w' & -> & Hd & Hg & Ho).
    rewrite bind_ok. eexists w', _. split; [done|]. split; [|done]. unfold becomes. split_and!; try done.
    + split; try done. constructor.
    + intros b Hb _. by apply Ho.
Qed.

(** zend_llist_copy gives a list with the same data in the same order, on new
    elements, and leaves the source list intact; traversing the copy forwards and
    backwards sees that data. *)
Theorem zend_llist_copy_correct w dst src l : rep (w_store w) src l ->
  exists w' dst' l', zend_llist_copy w dst src = Ok (w', dst') /\ rep (w_store w') src l
    /\ rep (w_store w') dst' l' /\ l'.*2 = l.*2 /\ w_dtor w' = w_dtor w
    /\ (p ← zend_llist_get_first_ex w' dst'; walk zend_llist_get_next_ex (list_fuel dst') w' p) = Ok l.*2
    /\ (p ← zend_llist_get_last_ex w' dst'; walk zend_llist_get_prev_ex (list_fuel dst') w' p) = Ok (reverse l.*2).
Proof.
  intros Hr. unfold zend_llist_copy. rewrite (rep_head _ _ _ Hr).
  destruct (copy_elements_ok (list_fuel src) w src [] l
              (zend_llist_init dst (size src) (dtor src) (persistent src)) [])
    as (w' & dst' & l' & E & Hs & Hd & Hdata & Hc & Hw & _).
  { done. } { split; try done. constructor. } { by intros a []%not_elem_of_nil. }
  { pose proof (rep_bound _ _ _ Hr). unfold zlen in *. cbn. lia. }
  { unfold list_fuel. rewrite (rep_count _ _ _ Hr). unfold zlen. lia. }
  exists w', dst', l'. cbn [app] in *.
  assert (length l' < list_fuel dst')%nat as Hf by (unfold list_fuel; rewrite (rep_count _ _ _ Hd); unfold zlen; lia).
  split_and!; try done.
  - unfold zend_llist_get_first_ex. rewrite (rep_head _ _ _ Hd), (get_data_first w' dst' [] l' Hd), !bind_ok.
    by rewrite (walk_next_ok _ w' dst' [] l' Hd Hf), Hdata.
  - unfold zend_llist_get_last_ex. rewrite (rep_tail _ _ _ Hd).
    assert (rep (w_store w') dst' (l' ++ [])) as Hd' by (by rewrite app_nil_r).
    rewrite (get_data_last w' dst' l' [] Hd'), !bind_ok. by rewrite (walk_prev_ok _ w' dst' l' [] Hd' Hf), Hdata.
Qed.

(** zend_llist_sort reorders the elements by relinking them, data in place: the
    links, ends and count are right for the new order, for every comparison
    function, and sorted when it agrees with a transitive relation. *)
Theorem zend_llist_sort_correct {S} (comp_func : S -> Z -> Z -> S * Z) leA s w L l : rep (w_store w) L l ->
  exists s' w' L' l', zend_llist_sort comp_func s w L = Ok (s', w', L') /\ l' ≡ₚ l /\ becomes w L l w' L' l' []
    /\ (agrees comp_func id leA -> StronglySorted leA (addrs l')).
Proof.
  intros Hr. destruct (sort_ok comp_func leA s w L l Hr) as (s' & w' & L' & l' & E & Hr' & Hp & Hd & Hc & Ho & Hs).
  exists s', w', L', l'. split_and!; try done. unfold becomes. rewrite dtor_calls_nil, app_nil_r.
  split_and!; try done. intros b Hb _. by apply Ho.
Qed.
End LListTheorems.

(** ** Instances on a concrete list *)

(** An allocator that takes an address not in use. *)
#[export] Program Instance fresh_allocator D : Allocator D :=
  {| pemalloc h := fresh ({[0]} ∪ dom h : gset Z) |}.
Next Obligation. intros D h. apply not_elem_of_dom. pose proof (is_fresh ({[0]} ∪ dom h : gset Z)). set_solver. Qed.
Next Obligation. intros D h. pose proof (is_fresh ({[0]} ∪ dom h : gset Z)). set_solver. Qed.

Definition demo_store : gmap Z (zend_llist_element Z) :=
  {[ 16 := mkElement 32 0 7; 32 := mkElement 0 16 5 ]}.
Definition demo_list : zend_llist := mkLList 16 32 2 8 true false 0.
Definition demo_lw : @lworld Z := mkLWorld demo_store [].

Lemma demo_rep : rep demo_store demo_list [(16, 7); (32, 5)].
Proof.
  split; try done. apply NoDup_cons. split; [set_solver|apply NoDup_singleton].
Qed.

Lemma zend_llist_insert_correct_witness :
  (exists w' L' a, zend_llist_add_element demo_lw demo_list 9 = Ok (w', L')
     /\ becomes demo_lw demo_list [(16, 7); (32, 5)] w' L' [(16, 7); (32, 5); (a, 9)] [])
  /\ (exists w' L' a, zend_llist_prepend_element demo_lw demo_list 9 = Ok (w', L')
     /\ becomes demo_lw demo_list [(16, 7); (32, 5)] w' L' [(a, 9); (16, 7); (32, 5)] []).
Proof. apply (zend_llist_insert_correct demo_lw demo_list [(16, 7); (32, 5)] 9 demo_rep). done. Defined.

Lemma zend_llist_remove_correct_witness :
  exists w' L', zend_llist_del_element demo_lw demo_list 5 Z.eqb = Ok (w', L')
    /\ becomes demo_lw demo_list [(16, 7); (32, 5)] w' L' [(16, 7)] [5].
Proof.
  exact (proj1 (zend_llist_remove_correct demo_lw demo_list [(16, 7); (32, 5)] 5 Z.eqb
    (fun (s : unit) d => (s, d, true)) tt demo_rep)).
Defined.

Lemma zend_llist_copy_correct_witness :
  exists w' dst' l', zend_llist_copy demo_lw demo_list demo_list = Ok (w', dst') /\ rep (w_store w') demo_list [(16, 7); (32, 5)]
    /\ rep (w_store w') dst' l' /\ l'.*2 = [7; 5] /\ w_dtor w' = []
    /\ (p ← zend_llist_get_first_ex w' dst'; walk zend_llist_get_next_ex (list_fuel dst') w' p) = Ok [7; 5]
    /\ (p ← zend_llist_get_last_ex w' dst'; walk zend_llist_get_prev_ex (list_fuel dst') w' p) = Ok [5; 7].
Proof. exact (zend_llist_copy_correct demo_lw demo_list demo_list [(16, 7); (32, 5)] demo_rep). Defined.

Lemma zend_llist_sort_correct_witness :
  exists s' w' L' l', zend_llist_sort (fun s a b => (s, b - a)) tt demo_lw demo_list = Ok (s', w', L')
    /\ l' ≡ₚ [(16, 7); (32, 5)] /\ becomes demo_lw demo_list [(16, 7); (32, 5)] w' L' l' []
    /\ (agrees (fun (s : unit) a b => (s, b - a)) id Z.ge -> StronglySorted Z.ge (addrs l')).
Proof. exact (zend_llist_sort_correct (fun s a b => (s, b - a)) Z.ge tt demo_lw demo_list [(16, 7); (32, 5)] demo_rep). Defined.
