(* ===== verification/Stack.v ===== *)
(** * zend_stack (Zend/zend_stack.c)

    A growing array used as a stack. [int] fields are 32-bit signed integers
    whose overflow is undefined. A NULL array is [None]. *)

From S2P Require Import Prelude.

Definition INT_MAX : Z := 2 ^ 31 - 1.
Definition int_add (a b : Z) : res Z :=
  if (- 2 ^ 31 <=? a + b) && (a + b <=? INT_MAX) then Ok (a + b) else Ub.

Lemma int_add_ok a b : - 2 ^ 31 <= a + b <= INT_MAX -> int_add a b = Ok (a + b).
Proof.
  intros H. unfold int_add. by rewrite (proj2 (Z.leb_le _ _)), (proj2 (Z.leb_le _ INT_MAX)) by lia.
Qed.

(** safe_erealloc: the old contents and uninitialised memory behind. *)
Definition realloc {D} (garbage : D) (old : option (list D)) (n : Z) : list D :=
  let l := take (Z.to_nat n) (default [] old) in
  l ++ replicate (Z.to_nat n - length l) garbage.

Module Stack.
Section Ops.
Context {D : Type} (garbage : D).

Record zend_stack : Type := mkStack { size : Z; top : Z; max : Z; elements : option (list D) }.

Definition STACK_BLOCK_SIZE : Z := 16.
Definition ZEND_STACK_APPLY_TOPDOWN : Z := 1.
Definition ZEND_STACK_APPLY_BOTTOMUP : Z := 2.

(** The element at [n]: a pointer into the array. *)
Definition ZEND_STACK_ELEMENT (stack : zend_stack) (n : Z) : res D :=
  match elements stack with Some l => rd l n | None => Ub end.
Definition set_element (stack : zend_stack) (n : Z) (d : D) : res zend_stack :=
  match elements stack with
  | Some l => l ← wr l n d; Ok (mkStack (size stack) (top stack) (max stack) (Some l))
  | None => Ub
  end.

Definition zend_stack_init (size : Z) : zend_stack := mkStack size 0 0 None.

Definition zend_stack_push (stack : zend_stack) (element : D) : res (zend_stack * Z) :=
  stack ← (if max stack <=? top stack then
             m ← int_add (max stack) STACK_BLOCK_SIZE;
             Ok (mkStack (size stack) (top stack) m (Some (realloc garbage (elements stack) m)))
           else Ok stack);
  stack ← set_element stack (top stack) element;
  t ← int_add (top stack) 1;
  Ok (mkStack (size stack) t (max stack) (elements stack), top stack).

(** The index of the element, [None] for NULL. *)
Definition zend_stack_top (stack : zend_stack) : option Z :=
  if 0 <? top stack then Some (top stack - 1) else None.

Definition zend_stack_del_top (stack : zend_stack) : res zend_stack :=
  t ← int_add (top stack) (-1); Ok (mkStack (size stack) t (max stack) (elements stack)).

(** FAILURE is -1; [as_int] reads the element as an int. *)
Definition zend_stack_int_top (as_int : D -> Z) (stack : zend_stack) : res Z :=
  match zend_stack_top stack with
  | Some i => d ← ZEND_STACK_ELEMENT stack i; Ok (as_int d)
  | None => Ok (-1)
  end.

Definition zend_stack_is_empty (stack : zend_stack) : bool := top stack =? 0.
Definition zend_stack_destroy (stack : zend_stack) : zend_stack :=
  match elements stack with
  | Some _ => mkStack (size stack) (top stack) (max stack) None
  | None => stack
  end.
Definition zend_stack_base (stack : zend_stack) : option (list D) := elements stack.
Definition zend_stack_count (stack : zend_stack) : Z := top stack.

(** [apply_function] may change the element and its own state; nonzero stops. *)
Section Apply.
Context {S : Type} (apply_function : S -> D -> S * D * Z).

Fixpoint topdown_loop (n : nat) (s : S) (stack : zend_stack) : res (S * zend_stack) :=
  match n with
  | O => Ok (s, stack)
  | Datatypes.S i =>
      d ← ZEND_STACK_ELEMENT stack (Z.of_nat i);
      let '(s, d, r) := apply_function s d in
      stack ← set_element stack (Z.of_nat i) d;
      if negb (r =? 0) then Ok (s, stack) else topdown_loop i s stack
  end.

Fixpoint bottomup_loop (fuel : nat) (i : Z) (s : S) (stack : zend_stack) : res (S * zend_stack) :=
  match fuel with
  | O => Ub
  | Datatypes.S fuel =>
      if i <? top stack then
        d ← ZEND_STACK_ELEMENT stack i;
        let '(s, d, r) := apply_function s d in
        stack ← set_element stack i d;
        if negb (r =? 0) then Ok (s, stack) else bottomup_loop fuel (i + 1) s stack
      else Ok (s, stack)
  end.

Definition zend_stack_apply (s : S) (stack : zend_stack) (type : Z) : res (S * zend_stack) :=
  if type =? ZEND_STACK_APPLY_TOPDOWN then topdown_loop (Z.to_nat (top stack)) s stack
  else if type =? ZEND_STACK_APPLY_BOTTOMUP then
    bottomup_loop (Datatypes.S (Z.to_nat (top stack))) 0 s stack
  else Ok (s, stack).
End Apply.

Definition zend_stack_apply_with_argument {S A} (apply_function : S -> D -> A -> S * D * Z) (arg : A)
    (s : S) (stack : zend_stack) (type : Z) : res (S * zend_stack) :=
  zend_stack_apply (fun s d => apply_function s d arg) s stack type.

Definition zend_stack_clean {S} (func : option (S -> D -> S * D)) (s : S) (stack : zend_stack)
    (free_elements : bool) : res (S * zend_stack) :=
  '(s, stack) ← match func with
                | Some f => bottomup_loop (fun s d => let '(s, d) := f s d in (s, d, 0))
                              (Datatypes.S (Z.to_nat (top stack))) 0 s stack
                | None => Ok (s, stack)
                end;
  Ok (s, if free_elements then mkStack (size stack) 0 0 None else stack).

(** ** Contents and invariant *)

(** Bottom to top. *)
Definition contents (stack : zend_stack) : list D :=
  take (Z.to_nat (top stack)) (default [] (elements stack)).

Record stack_inv (stack : zend_stack) : Prop := {
  st_top : 0 <= top stack <= max stack;
  st_max : max stack <= INT_MAX;
  st_len : zlen (default [] (elements stack)) = max stack;
}.

Lemma realloc_len (old : option (list D)) n : 0 <= n -> zlen (realloc garbage old n) = n.
Proof. intros Hn. unfold realloc, zlen. rewrite length_app, length_replicate, length_take. lia. Qed.

Lemma realloc_keeps (old : option (list D)) n k : (k <= length (default [] old))%nat -> (k <= Z.to_nat n)%nat ->
  take k (realloc garbage old n) = take k (default [] old).
Proof.
  intros H1 H2. unfold realloc. rewrite take_app_le by (rewrite length_take; lia).
  rewrite take_take. f_equal. lia.
Qed.

Lemma take_snoc_set {A} (l : list A) n d : 0 <= n < zlen l ->
  take (Z.to_nat (n + 1)) (zset l n d) = take (Z.to_nat n) l ++ [d].
Proof.
  intros Hn. unfold zlen in Hn. replace (Z.to_nat (n + 1)) with (Datatypes.S (Z.to_nat n)) by lia.
  rewrite (take_S_r _ _ d); unfold zset.
  - by rewrite take_insert, decide_False by lia.
  - apply list_lookup_insert_eq. lia.
Qed.

Lemma zend_stack_push_ok stack d : stack_inv stack -> top stack < INT_MAX - STACK_BLOCK_SIZE ->
  exists stack', zend_stack_push stack d = Ok (stack', top stack) /\ stack_inv stack'
    /\ contents stack' = contents stack ++ [d] /\ top stack' = top stack + 1.
Proof.
  intros [Ht Hm Hl] Hb. unfold zend_stack_push, STACK_BLOCK_SIZE, INT_MAX in *.
  assert (exists st, (if max stack <=? top stack then
             m ← int_add (max stack) 16;
             Ok (mkStack (size stack) (top stack) m (Some (realloc garbage (elements stack) m)))
           else Ok stack) = Ok st /\ stack_inv st /\ contents st = contents stack /\ top st = top stack
           /\ top st < max st) as (st & -> & [Ht' Hm' Hl'] & Hc & Htop & Hlt).
  { destruct (Z.leb_spec (max stack) (top stack)).
    - unfold int_add, INT_MAX. rewrite (proj2 (Z.leb_le _ _)), (proj2 (Z.leb_le _ (2 ^ 31 - 1))) by lia. cbn [andb].
      rewrite bind_ok. eexists. split; [done|]. split_and!; cbn; try done; try lia.
      + split; cbn; unfold INT_MAX; try lia. apply realloc_len. lia.
      + unfold contents. cbn. apply realloc_keeps; unfold zlen in Hl; lia.
    - by exists stack. }
  rewrite bind_ok. unfold set_element. destruct (elements st) as [l|] eqn:El; cbn in Hl'; [|unfold zlen in Hl'; cbn in Hl'; lia].
  rewrite wr_ok, !bind_ok by lia. unfold int_add, INT_MAX in *. cbn [top].
  rewrite (proj2 (Z.leb_le _ _)), (proj2 (Z.leb_le _ (2 ^ 31 - 1))) by lia. cbn [andb]. rewrite bind_ok.
  eexists. rewrite Htop. split; [done|]. split_and!; cbn; try lia.
  - split; cbn; rewrite ?zlen_zset; unfold INT_MAX; lia.
  - rewrite <- Hc. unfold contents. rewrite El, Htop. cbn. apply take_snoc_set. lia.
Qed.

Lemma contents_top stack : stack_inv stack ->
  match zend_stack_top stack with
  | Some i => exists d, ZEND_STACK_ELEMENT stack i = Ok d /\ last (contents stack) = Some d
  | None => contents stack = []
  end.
Proof.
  intros [Ht Hm Hl]. unfold zend_stack_top. destruct (Z.ltb_spec 0 (top stack)).
  - unfold ZEND_STACK_ELEMENT, contents. destruct (elements stack) as [l|]; cbn in *; [|unfold zlen in Hl; cbn in Hl; lia].
    destruct (zget_is_Some l (top stack - 1)) as [d Hd]; [lia|]. exists d. rewrite (rd_ok _ _ _ Hd). split; [done|].
    rewrite last_lookup, length_take. unfold zlen in Hl.
    rewrite lookup_take_lt by lia. unfold zget in Hd. rewrite (proj2 (Z.leb_le _ _)) in Hd by lia.
    rewrite <- Hd. f_equal. lia.
  - unfold contents. by replace (Z.to_nat (top stack)) with 0%nat by lia.
Qed.

Lemma zend_stack_del_top_ok stack : stack_inv stack -> 0 < top stack ->
  exists stack', zend_stack_del_top stack = Ok stack' /\ stack_inv stack'
    /\ contents stack' = removelast (contents stack).
Proof.
  intros [Ht Hm Hl] Hp. unfold zend_stack_del_top, int_add, INT_MAX in *.
  rewrite (proj2 (Z.leb_le _ _)), (proj2 (Z.leb_le _ (2 ^ 31 - 1))) by lia. cbn [andb]. rewrite bind_ok.
  eexists. split; [done|]. split.
  - split; cbn; unfold INT_MAX; try done; lia.
  - unfold contents. cbn. unfold zlen in Hl. rewrite removelast_firstn_len, length_take, take_take. f_equal. lia.
Qed.

(** What visiting the elements in order does: state, new elements. *)
Section ApplyRef.
Context {S : Type} (f : S -> D -> S * D * Z).
Fixpoint visit (s : S) (l : list D) : S * list D :=
  match l with
  | [] => (s, [])
  | d :: l =>
      let '(s, d, r) := f s d in
      if negb (r =? 0) then (s, d :: l) else let '(s, l) := visit s l in (s, d :: l)
  end.
End ApplyRef.

Lemma set_element_ok stack n d : stack_inv stack -> 0 <= n < top stack ->
  exists stack', set_element stack n d = Ok stack' /\ stack_inv stack' /\ top stack' = top stack
    /\ contents stack' = <[Z.to_nat n := d]> (contents stack).
Proof.
  intros [Ht Hm Hl] Hn. unfold set_element, contents.
  destruct (elements stack) as [l|]; cbn in Hl; [|unfold zlen in Hl; cbn in Hl; lia].
  rewrite wr_ok, bind_ok by lia. eexists. split; [done|]. split_and!; cbn; try done.
  - split; cbn; rewrite ?zlen_zset; (done || lia).
  - unfold zset. rewrite take_insert, decide_True by lia. done.
Qed.

Lemma element_ok stack n : stack_inv stack -> 0 <= n < top stack ->
  exists d, ZEND_STACK_ELEMENT stack n = Ok d /\ contents stack !! Z.to_nat n = Some d.
Proof.
  intros [Ht Hm Hl] Hn. unfold ZEND_STACK_ELEMENT, contents.
  destruct (elements stack) as [l|]; cbn in *; [|unfold zlen in Hl; cbn in Hl; lia].
  destruct (zget_is_Some l n) as [d Hd]; [lia|]. exists d. rewrite (rd_ok _ _ _ Hd). split; [done|].
  rewrite lookup_take_lt by lia. unfold zget in Hd. by rewrite (proj2 (Z.leb_le _ _)) in Hd by lia.
Qed.

Lemma length_contents stack : stack_inv stack -> length (contents stack) = Z.to_nat (top stack).
Proof. intros [Ht Hm Hl]. unfold contents, zlen in *. rewrite length_take. lia. Qed.

Lemma bottomup_ok {S} (f : S -> D -> S * D * Z) fuel i s stack : stack_inv stack -> 0 <= i <= top stack ->
  (Z.to_nat (top stack - i) < fuel)%nat ->
  exists stack', bottomup_loop f fuel i s stack = Ok ((visit f s (drop (Z.to_nat i) (contents stack))).1, stack')
    /\ stack_inv stack' /\ top stack' = top stack
    /\ contents stack' = take (Z.to_nat i) (contents stack) ++ (visit f s (drop (Z.to_nat i) (contents stack))).2.
Proof.
  revert i s stack. induction fuel as [|fuel IH]; intros i s stack Hinv Hi Hf; [lia|]. cbn [bottomup_loop].
  pose proof (length_contents _ Hinv) as Hlen. destruct (Z.ltb_spec i (top stack)).
  - destruct (element_ok stack i Hinv) as (d & -> & Hd); [lia|]. rewrite bind_ok.
    rewrite (drop_S _ _ _ Hd). cbn [visit]. destruct (f s d) as [[s1 d1] r].
    destruct (set_element_ok stack i d1 Hinv) as (st1 & -> & Hinv1 & Ht1 & Hc1); [lia|]. rewrite bind_ok.
    destruct (negb (r =? 0)).
    + exists st1. split_and!; try done. rewrite Hc1. cbn [snd]. apply insert_take_drop. lia.
    + destruct (IH (i + 1) s1 st1 Hinv1) as (st2 & E & Hinv2 & Ht2 & Hc2); [lia|lia|].
      exists st2. rewrite E. replace (Z.to_nat (i + 1)) with (Datatypes.S (Z.to_nat i)) in * by lia.
      rewrite Hc1 in *. rewrite drop_insert_lt in * by lia.
      destruct (visit f s1 (drop (Datatypes.S (Z.to_nat i)) (contents stack))) as [s2 l2]. cbn [fst snd] in *.
      split_and!; try done; [lia|]. rewrite Hc2.
      rewrite (take_S_r _ _ d1) by (apply list_lookup_insert_eq; lia).
      rewrite take_insert, decide_False by lia. by rewrite <- app_assoc.
  - exists stack. rewrite drop_ge by lia. cbn. split_and!; try done. rewrite app_nil_r, take_ge by lia. done.
Qed.

Lemma topdown_ok {S} (f : S -> D -> S * D * Z) n s stack : stack_inv stack -> Z.of_nat n <= top stack ->
  exists stack', topdown_loop f n s stack = Ok ((visit f s (reverse (take n (contents stack)))).1, stack')
    /\ stack_inv stack' /\ top stack' = top stack
    /\ contents stack' = reverse (visit f s (reverse (take n (contents stack)))).2 ++ drop n (contents stack).
Proof.
  revert s stack. induction n as [|n IH]; intros s stack Hinv Hn; [by exists stack|]. cbn [topdown_loop].
  pose proof (length_contents _ Hinv) as Hlen.
  destruct (element_ok stack (Z.of_nat n) Hinv) as (d & -> & Hd); [lia|]. rewrite bind_ok. rewrite Nat2Z.id in Hd.
  rewrite (take_S_r _ _ _ Hd), reverse_snoc. cbn [visit]. destruct (f s d) as [[s1 d1] r].
  destruct (set_element_ok stack (Z.of_nat n) d1 Hinv) as (st1 & -> & Hinv1 & Ht1 & Hc1); [lia|]. rewrite bind_ok.
  rewrite Nat2Z.id in Hc1. destruct (negb (r =? 0)).
  - exists st1. split_and!; try done. rewrite Hc1. cbn [snd]. rewrite reverse_cons, reverse_involutive, <- app_assoc.
    rewrite insert_take_drop by lia. done.
  - destruct (IH s1 st1 Hinv1) as (st2 & E & Hinv2 & Ht2 & Hc2); [lia|]. exists st2. rewrite E.
    rewrite Hc1 in *. rewrite take_insert, decide_False in * by lia.
    destruct (visit f s1 (reverse (take n (contents stack)))) as [s2 l2]. cbn [fst snd] in *.
    split_and!; try done; [lia|]. rewrite Hc2, reverse_cons, <- app_assoc. f_equal.
    rewrite (drop_S _ d1) by (apply list_lookup_insert_eq; lia). by rewrite drop_insert_lt by lia.
Qed.

(** ** The contracts *)

(** zend_stack behaves as a list that grows at its end: push appends and returns
    the old height, top designates the last element, del_top drops it, and the
    array grows so that every access is in bounds. *)
Theorem zend_stack_correct stack d : stack_inv stack -> top stack < INT_MAX - STACK_BLOCK_SIZE ->
  exists stack', zend_stack_push stack d = Ok (stack', zlen (contents stack)) /\ stack_inv stack'
    /\ contents stack' = contents stack ++ [d] /\ zend_stack_count stack' = zlen (contents stack')
    /\ zend_stack_is_empty stack' = false
    /\ (exists i, zend_stack_top stack' = Some i /\ ZEND_STACK_ELEMENT stack' i = Ok d)
    /\ exists stack'', zend_stack_del_top stack' = Ok stack'' /\ stack_inv stack''
         /\ contents stack'' = contents stack.
Proof.
  intros Hinv Hb. destruct (zend_stack_push_ok stack d Hinv Hb) as (st & E & Hinv' & Hc & Ht).
  pose proof (length_contents _ Hinv) as Hl. pose proof (st_top _ Hinv) as Htop.
  assert (zlen (contents stack) = top stack) as Hz by (unfold zlen; lia).
  exists st. rewrite Hz. split_and!; try done.
  - unfold zend_stack_count, zlen. rewrite Hc, length_app. cbn. lia.
  - unfold zend_stack_is_empty. rewrite Ht. apply Z.eqb_neq. lia.
  - pose proof (contents_top st Hinv') as Hct. unfold zend_stack_top in *.
    rewrite (proj2 (Z.ltb_lt _ _)) in * by lia. destruct Hct as (d' & Hd & Hlast). eexists. split; [done|].
    rewrite Hc, last_snoc in Hlast. by simplify_eq.
  - destruct (zend_stack_del_top_ok st Hinv') as (st2 & E2 & Hinv2 & Hc2); [lia|].
    exists st2. split_and!; try done. by rewrite Hc2, Hc, removelast_last.
Qed.

(** zend_stack_apply visits the elements from the top down or from the bottom up,
    as asked, and stops after the first one for which the function returns nonzero. *)
Theorem zend_stack_apply_correct {S} (f : S -> D -> S * D * Z) s stack : stack_inv stack ->
  (exists st, zend_stack_apply f s stack ZEND_STACK_APPLY_BOTTOMUP = Ok ((visit f s (contents stack)).1, st)
     /\ stack_inv st /\ contents st = (visit f s (contents stack)).2)
  /\ (exists st, zend_stack_apply f s stack ZEND_STACK_APPLY_TOPDOWN
                  = Ok ((visit f s (reverse (contents stack))).1, st)
     /\ stack_inv st /\ contents st = reverse (visit f s (reverse (contents stack))).2).
Proof.
  intros Hinv. pose proof (st_top _ Hinv) as Ht. pose proof (length_contents _ Hinv) as Hl. split.
  - destruct (bottomup_ok f (Datatypes.S (Z.to_nat (top stack))) 0 s stack Hinv) as (st & E & Hinv' & _ & Hc); [lia|lia|].
    exists st. cbn in E, Hc. rewrite drop_0 in *. by split_and!.
  - destruct (topdown_ok f (Z.to_nat (top stack)) s stack Hinv) as (st & E & Hinv' & _ & Hc); [lia|].
    exists st. unfold zend_stack_apply. cbn [Z.eqb ZEND_STACK_APPLY_TOPDOWN]. rewrite E.
    rewrite take_ge, drop_ge in * by lia. rewrite app_nil_r in Hc. by split_and!.
Qed.
End Ops.

(** ** Instances on a concrete stack *)

Definition demo_stack : @zend_stack Z := mkStack 8 2 16 (Some ([7; 5] ++ replicate 14 0)).

Lemma demo_stack_inv : stack_inv demo_stack.
Proof. split; cbn; unfold INT_MAX; (done || lia). Qed.

Lemma zend_stack_correct_witness :
  exists stack', zend_stack_push 0 demo_stack 9 = Ok (stack', 2) /\ stack_inv stack'
    /\ contents stack' = [7; 5; 9] /\ zend_stack_count stack' = zlen (contents stack')
    /\ zend_stack_is_empty stack' = false
    /\ (exists i, zend_stack_top stack' = Some i /\ ZEND_STACK_ELEMENT stack' i = Ok 9)
    /\ exists stack'', zend_stack_del_top stack' = Ok stack'' /\ stack_inv stack'' /\ contents stack'' = [7; 5].
Proof. exact (zend_stack_correct 0 demo_stack 9 demo_stack_inv eq_refl). Defined.

Lemma zend_stack_apply_correct_witness :
  (exists st, zend_stack_apply (fun s d => (s + d, d + 1, 0)) 0 demo_stack ZEND_STACK_APPLY_BOTTOMUP = Ok (12, st)
     /\ stack_inv st /\ contents st = [8; 6])
  /\ (exists st, zend_stack_apply (fun s d => (s + d, d + 1, 0)) 0 demo_stack ZEND_STACK_APPLY_TOPDOWN = Ok (12, st)
     /\ stack_inv st /\ contents st = [8; 6]).
Proof. exact (zend_stack_apply_correct (fun s d => (s + d, d + 1, 0)) 0 demo_stack demo_stack_inv). Defined.
End Stack.
