(* ===== verification/PtrStack.v ===== *)
(** * zend_ptr_stack (Zend/zend_ptr_stack.c, Zend/zend_ptr_stack.h)

    A stack of pointers with a second pointer to its top. Pointers are integers;
    [top_element] is an index into the array. *)

From S2P Require Import Prelude.
From S2P Require Import Stack.

Module PtrStack.
Section Ops.
Context (garbage : Z).

Record zend_ptr_stack : Type := mkPtrStack {
  top : Z;
  max : Z;
  elements : option (list Z);
  top_element : Z;
  persistent : bool;
}.

Definition PTR_STACK_BLOCK_SIZE : Z := 64.

Definition zend_ptr_stack_init_ex (persistent : bool) : zend_ptr_stack := mkPtrStack 0 0 None 0 persistent.
Definition zend_ptr_stack_init : zend_ptr_stack := zend_ptr_stack_init_ex false.

(** [do { max += PTR_STACK_BLOCK_SIZE; } while (top + count > max)] *)
Fixpoint grow_loop (fuel : nat) (need max : Z) : res Z :=
  match fuel with
  | O => Ub
  | S fuel =>
      m ← int_add max PTR_STACK_BLOCK_SIZE;
      if m <? need then grow_loop fuel need m else Ok m
  end.

Definition ZEND_PTR_STACK_RESIZE_IF_NEEDED (stack : zend_ptr_stack) (count : Z) : res zend_ptr_stack :=
  need ← int_add (top stack) count;
  if max stack <? need then
    m ← grow_loop (S (Z.to_nat (need - max stack))) need (max stack);
    Ok (mkPtrStack (top stack) m (Some (realloc garbage (elements stack) m)) (top stack) (persistent stack))
  else Ok stack.

(** [*(stack->top_element++) = p] *)
Definition store_top (stack : zend_ptr_stack) (p : Z) : res zend_ptr_stack :=
  match elements stack with
  | Some l => l ← wr l (top_element stack) p;
              Ok (mkPtrStack (top stack) (max stack) (Some l) (top_element stack + 1) (persistent stack))
  | None => Ub
  end.
(** [*(--stack->top_element)] *)
Definition load_top (stack : zend_ptr_stack) : res (zend_ptr_stack * Z) :=
  match elements stack with
  | Some l => p ← rd l (top_element stack - 1);
              Ok (mkPtrStack (top stack) (max stack) (Some l) (top_element stack - 1) (persistent stack), p)
  | None => Ub
  end.
Definition add_top (stack : zend_ptr_stack) (n : Z) : res zend_ptr_stack :=
  t ← int_add (top stack) n; Ok (mkPtrStack t (max stack) (elements stack) (top_element stack) (persistent stack)).

Fixpoint push_loop (stack : zend_ptr_stack) (elems : list Z) : res zend_ptr_stack :=
  match elems with
  | [] => Ok stack
  | elem :: elems =>
      stack ← add_top stack 1; stack ← store_top stack elem; push_loop stack elems
  end.

(** The arguments are a list, [count] of them. *)
Definition zend_ptr_stack_n_push (stack : zend_ptr_stack) (elems : list Z) : res zend_ptr_stack :=
  stack ← ZEND_PTR_STACK_RESIZE_IF_NEEDED stack (zlen elems);
  push_loop stack elems.

(** The values stored through the [count] argument pointers. *)
Fixpoint zend_ptr_stack_n_pop (stack : zend_ptr_stack) (count : nat) : res (zend_ptr_stack * list Z) :=
  match count with
  | O => Ok (stack, [])
  | S count =>
      '(stack, p) ← load_top stack;
      stack ← add_top stack (-1);
      '(stack, r) ← zend_ptr_stack_n_pop stack count;
      Ok (stack, p :: r)
  end.

Definition zend_ptr_stack_push (stack : zend_ptr_stack) (ptr : Z) : res zend_ptr_stack :=
  stack ← ZEND_PTR_STACK_RESIZE_IF_NEEDED stack 1;
  stack ← add_top stack 1;
  store_top stack ptr.

Definition zend_ptr_stack_pop (stack : zend_ptr_stack) : res (zend_ptr_stack * Z) :=
  stack ← add_top stack (-1); load_top stack.

Definition zend_ptr_stack_2_push (stack : zend_ptr_stack) (a b : Z) : res zend_ptr_stack :=
  stack ← ZEND_PTR_STACK_RESIZE_IF_NEEDED stack 2;
  stack ← add_top stack 2;
  stack ← store_top stack a; store_top stack b.

Definition zend_ptr_stack_3_push (stack : zend_ptr_stack) (a b c : Z) : res zend_ptr_stack :=
  stack ← ZEND_PTR_STACK_RESIZE_IF_NEEDED stack 3;
  stack ← add_top stack 3;
  stack ← store_top stack a; stack ← store_top stack b; store_top stack c.

Definition zend_ptr_stack_2_pop (stack : zend_ptr_stack) : res (zend_ptr_stack * Z * Z) :=
  '(stack, a) ← load_top stack; '(stack, b) ← load_top stack;
  stack ← add_top stack (-2); Ok (stack, a, b).

Definition zend_ptr_stack_3_pop (stack : zend_ptr_stack) : res (zend_ptr_stack * Z * Z * Z) :=
  '(stack, a) ← load_top stack; '(stack, b) ← load_top stack; '(stack, c) ← load_top stack;
  stack ← add_top stack (-3); Ok (stack, a, b, c).

Definition zend_ptr_stack_top (stack : zend_ptr_stack) : res Z :=
  match elements stack with Some l => rd l (top stack - 1) | None => Ub end.

Definition zend_ptr_stack_destroy (stack : zend_ptr_stack) : bool :=
  match elements stack with Some _ => true | None => false end.

(** [while (--i >= 0) func(stack->elements[i])] *)
Fixpoint ptr_apply_loop {S} (func : S -> Z -> S) (i : nat) (s : S) (stack : zend_ptr_stack) : res S :=
  match i with
  | O => Ok s
  | Datatypes.S i =>
      p ← match elements stack with Some l => rd l (Z.of_nat i) | None => Ub end;
      ptr_apply_loop func i (func s p) stack
  end.
Definition zend_ptr_stack_apply {S} (func : S -> Z -> S) (s : S) (stack : zend_ptr_stack) : res S :=
  ptr_apply_loop func (Z.to_nat (top stack)) s stack.

Fixpoint ptr_reverse_loop {S} (func : S -> Z -> S) (fuel : nat) (i : Z) (s : S) (stack : zend_ptr_stack) : res S :=
  match fuel with
  | O => Ub
  | Datatypes.S fuel =>
      if i <? top stack then
        p ← match elements stack with Some l => rd l i | None => Ub end;
        ptr_reverse_loop func fuel (i + 1) (func s p) stack
      else Ok s
  end.
Definition zend_ptr_stack_reverse_apply {S} (func : S -> Z -> S) (s : S) (stack : zend_ptr_stack) : res S :=
  ptr_reverse_loop func (Datatypes.S (Z.to_nat (top stack))) 0 s stack.

(** The pointers given to pefree are returned. *)
Definition zend_ptr_stack_clean {S} (func : S -> Z -> S) (s : S) (stack : zend_ptr_stack) (free_elements : bool)
  : res (S * list Z * zend_ptr_stack) :=
  s ← zend_ptr_stack_apply func s stack;
  freed ← (if free_elements then zend_ptr_stack_apply (fun l p => l ++ [p]) [] stack else Ok []);
  Ok (s, freed, mkPtrStack 0 (max stack) (elements stack) 0 (persistent stack)).

Definition zend_ptr_stack_num_elements (stack : zend_ptr_stack) : Z := top stack.

(** ** Contents and invariant *)

Definition contents (stack : zend_ptr_stack) : list Z :=
  take (Z.to_nat (top_element stack)) (default [] (elements stack)).

(** The array is long enough and [top_element] points to its first free slot;
    during an operation [top] may be [d] ahead of it. *)
Record pinv (d : Z) (stack : zend_ptr_stack) : Prop := {
  ps_top : top stack = top_element stack + d;
  ps_range : 0 <= top_element stack <= max stack;
  ps_max : max stack <= INT_MAX;
  ps_len : zlen (default [] (elements stack)) = max stack;
}.

Lemma grow_loop_ok fuel need m : m < need -> need + PTR_STACK_BLOCK_SIZE <= INT_MAX -> 0 <= m ->
  (Z.to_nat (need - m) < fuel)%nat ->
  exists m', grow_loop fuel need m = Ok m' /\ need <= m' <= need + PTR_STACK_BLOCK_SIZE.
Proof.
  unfold PTR_STACK_BLOCK_SIZE. revert m. induction fuel as [|fuel IH]; intros m Hm Hn H0 Hf; [lia|].
  cbn [grow_loop]. unfold PTR_STACK_BLOCK_SIZE. rewrite int_add_ok, bind_ok by lia.
  destruct (Z.ltb_spec (m + 64) need); [apply IH; lia|]. exists (m + 64). split; [done|lia].
Qed.

Lemma resize_ok stack n : pinv 0 stack -> 0 <= n -> top stack + n + PTR_STACK_BLOCK_SIZE <= INT_MAX ->
  exists st, ZEND_PTR_STACK_RESIZE_IF_NEEDED stack n = Ok st /\ pinv 0 st /\ contents st = contents stack
    /\ top_element st = top_element stack /\ top st + n <= max st.
Proof.
  intros [Ht Hr Hm Hl] Hn Hb. unfold ZEND_PTR_STACK_RESIZE_IF_NEEDED. unfold PTR_STACK_BLOCK_SIZE in Hb.
  rewrite int_add_ok, bind_ok by lia. destruct (Z.ltb_spec (max stack) (top stack + n)).
  - destruct (grow_loop_ok (S (Z.to_nat (top stack + n - max stack))) (top stack + n) (max stack)) as (m & -> & Hmm);
      unfold PTR_STACK_BLOCK_SIZE in *; try lia.
    rewrite bind_ok. eexists. split; [done|]. unfold contents. cbn. split_and!; try lia.
    + split; cbn; try lia. apply Stack.realloc_len. lia.
    + rewrite Stack.realloc_keeps; [f_equal; lia| |]; unfold zlen in Hl; lia.
  - exists stack. split_and!; try done; lia.
Qed.

Lemma add_top_ok stack d n : pinv d stack -> - 2 ^ 31 <= top stack + n <= INT_MAX ->
  exists st, add_top stack n = Ok st /\ pinv (d + n) st /\ contents st = contents stack
    /\ top_element st = top_element stack /\ max st = max stack /\ top st = top stack + n.
Proof.
  intros [Ht Hr Hm Hl] Hb. unfold add_top. rewrite int_add_ok, bind_ok by done. eexists. split; [done|].
  split_and!; try done. split; cbn; try done; lia.
Qed.

Lemma store_top_ok stack d p : pinv d stack -> top_element stack < max stack ->
  exists st, store_top stack p = Ok st /\ pinv (d - 1) st /\ contents st = contents stack ++ [p]
    /\ top_element st = top_element stack + 1 /\ max st = max stack /\ top st = top stack.
Proof.
  intros [Ht Hr Hm Hl] Hlt. unfold store_top, contents.
  destruct (elements stack) as [l|]; cbn in *; [|unfold zlen in Hl; cbn in Hl; lia].
  rewrite wr_ok, bind_ok by lia. eexists. split; [done|]. cbn. split_and!; try done.
  - split; cbn; rewrite ?zlen_zset; lia.
  - apply Stack.take_snoc_set. lia.
Qed.

Lemma load_top_ok stack d l p : pinv d stack -> contents stack = l ++ [p] ->
  exists st, load_top stack = Ok (st, p) /\ pinv (d + 1) st /\ contents st = l /\ top st = top stack
    /\ 0 < top_element stack.
Proof.
  intros [Ht Hr Hm Hl] Hc. unfold load_top, contents in *.
  assert (zlen (take (Z.to_nat (top_element stack)) (default [] (elements stack))) = top_element stack) as Hz.
  { unfold zlen in *. rewrite length_take. lia. }
  assert (0 < top_element stack) as Hp.
  { rewrite Hc in Hz. unfold zlen in Hz. rewrite length_app in Hz. cbn in Hz. lia. }
  destruct (elements stack) as [a|]; cbn in *; [|unfold zlen in Hl; cbn in Hl; lia].
  assert (zget a (top_element stack - 1) = Some p) as Hg.
  { unfold zget. rewrite (proj2 (Z.leb_le _ _)) by lia.
    rewrite <- (lookup_take_lt a (Z.to_nat (top_element stack))) by lia. rewrite Hc, lookup_app_r.
    - rewrite Hc in Hz. unfold zlen in Hz. rewrite length_app in Hz. cbn in Hz.
      replace (_ - _)%nat with 0%nat by lia. done.
    - rewrite Hc in Hz. unfold zlen in Hz. rewrite length_app in Hz. cbn in Hz. lia. }
  rewrite (rd_ok _ _ _ Hg), bind_ok. eexists. split; [done|]. cbn. split_and!; try done.
  - split; cbn; try done; lia.
  - assert (take (Z.to_nat (top_element stack - 1)) a = take (length l) (take (Z.to_nat (top_element stack)) a)) as ->.
    { rewrite take_take. f_equal. rewrite Hc in Hz. unfold zlen in Hz. rewrite length_app in Hz. cbn in Hz. lia. }
    by rewrite Hc, take_app_length.
Qed.

Lemma push_loop_ok stack elems : pinv 0 stack -> top stack + zlen elems <= max stack ->
  exists st, push_loop stack elems = Ok st /\ pinv 0 st /\ contents st = contents stack ++ elems.
Proof.
  revert stack. induction elems as [|p elems IH]; intros stack Hinv Hb.
  - exists stack. by rewrite app_nil_r.
  - assert (top stack + 1 <= max stack) as Hb1 by (unfold zlen in Hb; cbn in Hb; lia).
    pose proof Hinv as [Ht Hr Hm Hl]. cbn [push_loop].
    destruct (add_top_ok stack 0 1 Hinv) as (s1 & -> & Hi1 & Hc1 & Ht1 & Hm1 & Htp1); [lia|]. rewrite bind_ok.
    destruct (store_top_ok s1 (0 + 1) p Hi1) as (s2 & -> & Hi2 & Hc2 & Ht2 & Hm2 & Htp2); [lia|]. rewrite bind_ok.
    destruct (IH s2) as (s3 & -> & Hi3 & Hc3); [done|unfold zlen in *; cbn in *; lia|].
    exists s3. split_and!; try done. by rewrite Hc3, Hc2, Hc1, <- app_assoc.
Qed.

Lemma zend_ptr_stack_n_push_ok stack elems : pinv 0 stack ->
  top stack + zlen elems + PTR_STACK_BLOCK_SIZE <= INT_MAX ->
  exists st, zend_ptr_stack_n_push stack elems = Ok st /\ pinv 0 st /\ contents st = contents stack ++ elems.
Proof.
  intros Hinv Hb. unfold zend_ptr_stack_n_push.
  destruct (resize_ok stack (zlen elems) Hinv) as (s1 & -> & Hi1 & Hc1 & _ & Hm1); [apply zlen_nonneg|done|].
  rewrite bind_ok, <- Hc1. by apply push_loop_ok.
Qed.

Lemma zend_ptr_stack_n_pop_ok stack l r : pinv 0 stack -> contents stack = l ++ reverse r ->
  exists st, zend_ptr_stack_n_pop stack (length r) = Ok (st, r) /\ pinv 0 st /\ contents st = l.
Proof.
  revert stack. induction r as [|p r IH]; intros stack Hinv Hc; cbn [length zend_ptr_stack_n_pop].
  - exists stack. by rewrite app_nil_r in Hc.
  - rewrite reverse_cons, app_assoc in Hc. destruct (load_top_ok stack 0 (l ++ reverse r) p Hinv Hc) as (s1 & -> & Hi1 & Hc1 & Ht1 & Hp).
    rewrite bind_ok. pose proof Hinv as [Ht Hr Hm _].
    destruct (add_top_ok s1 (0 + 1) (-1) Hi1) as (s2 & -> & Hi2 & Hc2 & _); [unfold INT_MAX in *; lia|]. rewrite bind_ok.
    destruct (IH s2) as (s3 & -> & Hi3 & Hc3); [done|by rewrite Hc2|]. by exists s3.
Qed.

Lemma ptr_apply_ok {S} (func : S -> Z -> S) n s stack : pinv 0 stack -> Z.of_nat n <= top stack ->
  ptr_apply_loop func n s stack = Ok (fold_left func (reverse (take n (contents stack))) s).
Proof.
  intros Hinv. pose proof Hinv as [Ht Hr Hm Hl]. revert s. induction n as [|n IH]; intros s Hn; [done|]. cbn [ptr_apply_loop].
  destruct (elements stack) as [a|] eqn:Ea; [|unfold zlen in Hl; cbn in Hl; lia]. cbn in Hl.
  destruct (zget_is_Some a (Z.of_nat n)) as [p Hp]; [lia|]. rewrite (rd_ok _ _ _ Hp), bind_ok, IH by lia.
  assert (contents stack !! n = Some p) as Hc.
  { unfold contents. rewrite Ea. cbn. rewrite lookup_take_lt by lia. unfold zget in Hp.
    by rewrite (proj2 (Z.leb_le _ _)), Nat2Z.id in Hp by lia. }
  by rewrite (take_S_r _ _ _ Hc), reverse_snoc.
Qed.

Lemma length_ptr_contents stack : pinv 0 stack -> length (contents stack) = Z.to_nat (top stack).
Proof. intros [Ht Hr Hm Hl]. unfold contents, zlen in *. rewrite length_take. lia. Qed.

(** ** The contracts *)

(** zend_ptr_stack_n_push appends its arguments, growing the array as often as
    needed, and zend_ptr_stack_n_pop gives them back last in, first out, leaving the
    stack as it was; the element count and the top pointer stay in step. *)
Theorem zend_ptr_stack_push_pop_correct stack elems : pinv 0 stack ->
  top stack + zlen elems + PTR_STACK_BLOCK_SIZE <= INT_MAX ->
  exists st st', zend_ptr_stack_n_push stack elems = Ok st /\ pinv 0 st
    /\ contents st = contents stack ++ elems
    /\ zend_ptr_stack_num_elements st = zend_ptr_stack_num_elements stack + zlen elems
    /\ zend_ptr_stack_n_pop st (length elems) = Ok (st', reverse elems) /\ pinv 0 st'
    /\ contents st' = contents stack.
Proof.
  intros Hinv Hb. destruct (zend_ptr_stack_n_push_ok stack elems Hinv Hb) as (st & E & Hi & Hc).
  destruct (zend_ptr_stack_n_pop_ok st (contents stack) (reverse elems) Hi) as (st' & E' & Hi' & Hc').
  { by rewrite reverse_involutive. }
  exists st, st'. rewrite length_reverse in E'. split_and!; try done.
  pose proof (length_ptr_contents _ Hi) as L1. pose proof (length_ptr_contents _ Hinv) as L2.
  pose proof (ps_range _ _ Hi). pose proof (ps_top _ _ Hi). pose proof (ps_range _ _ Hinv). pose proof (ps_top _ _ Hinv).
  unfold zend_ptr_stack_num_elements, zlen. rewrite Hc, length_app in L1. lia.
Qed.

(** zend_ptr_stack_clean calls the function on every pointer from the top down,
    frees them in the same order if asked, and leaves an empty stack that keeps its
    array. *)
Theorem zend_ptr_stack_clean_correct {S} (func : S -> Z -> S) s stack free_elements : pinv 0 stack ->
  exists st, zend_ptr_stack_clean func s stack free_elements
             = Ok (fold_left func (reverse (contents stack)) s,
                   if free_elements then reverse (contents stack) else [], st)
    /\ pinv 0 st /\ contents st = [] /\ max st = max stack.
Proof.
  intros Hinv. pose proof Hinv as [Ht Hr Hm Hl]. pose proof (length_ptr_contents _ Hinv) as Hlen.
  assert (forall T (f : T -> Z -> T) t, zend_ptr_stack_apply f t stack = Ok (fold_left f (reverse (contents stack)) t)) as Ha.
  { intros T f t. unfold zend_ptr_stack_apply. rewrite ptr_apply_ok by (done || lia). by rewrite take_ge by lia. }
  assert (forall l acc : list Z, fold_left (fun l p => l ++ [p]) l acc = acc ++ l) as Hf.
  { induction l as [|x l IH]; intros acc; cbn; [by rewrite app_nil_r|]. by rewrite IH, <- app_assoc. }
  unfold zend_ptr_stack_clean. rewrite (Ha S func s), bind_ok. eexists. split.
  - destruct free_elements; [rewrite Ha, Hf|]; done.
  - split_and!; try done. split; cbn; try done; lia.
Qed.
End Ops.

(** ** Instances on a concrete stack *)

Definition demo_ptrs : zend_ptr_stack := mkPtrStack 2 64 (Some ([7; 5] ++ replicate 62 0)) 2 false.

Lemma demo_pinv : pinv 0 demo_ptrs.
Proof. split; cbn; unfold INT_MAX; (done || lia). Qed.

Lemma zend_ptr_stack_push_pop_correct_witness :
  exists st st', zend_ptr_stack_n_push 0 demo_ptrs [1; 2; 3] = Ok st /\ pinv 0 st
    /\ contents st = [7; 5; 1; 2; 3]
    /\ zend_ptr_stack_num_elements st = zend_ptr_stack_num_elements demo_ptrs + 3
    /\ zend_ptr_stack_n_pop st 3 = Ok (st', [3; 2; 1]) /\ pinv 0 st' /\ contents st' = [7; 5].
Proof. refine (zend_ptr_stack_push_pop_correct 0 demo_ptrs [1; 2; 3] demo_pinv _). done. Defined.

Lemma zend_ptr_stack_clean_correct_witness :
  exists st, zend_ptr_stack_clean (fun s p => s + p) 0 demo_ptrs true = Ok (12, [5; 7], st)
    /\ pinv 0 st /\ contents st = [] /\ max st = 64.
Proof. exact (zend_ptr_stack_clean_correct (fun s p => s + p) 0 demo_ptrs true demo_pinv). Defined.
End PtrStack.
