(* ===== verification/NumericKey.v ===== *)
(** * Integer keys written as strings

    The strings that array operations treat as integer keys are exactly the
    decimal representations zend_print_long_to_buf writes. *)

From S2P Require Import Prelude.
From S2P Require Import ZendString.

(** ** zend_print_ulong_to_buf, zend_print_long_to_buf (Zend/zend_operators.h) *)

(** [do { *--buf = num % 10 + '0'; num /= 10; } while (num > 0)]; [acc] is what
    has been written already. *)
Fixpoint print_loop (fuel : nat) (num : Z) (acc : list Z) : list Z :=
  match fuel with
  | O => acc
  | S fuel =>
      let acc := (num mod 10 + 48) :: acc in
      let num := num / 10 in
      if 0 <? num then print_loop fuel num acc else acc
  end.

(** A 64-bit number has at most 20 digits. *)
Definition zend_print_ulong_to_buf (num : Z) : list Z := print_loop 20 num [].

(** [~((zend_ulong) num) + 1] for a negative number. *)
Definition zend_print_long_to_buf (num : Z) : list Z :=
  if num <? 0 then 45 :: zend_print_ulong_to_buf (u64 (u64 (Z.lnot (u64 num)) + 1))
  else zend_print_ulong_to_buf num.

(** ** Canonical decimal numbers *)

Definition val_from (v : Z) (ds : list Z) : Z := fold_left (fun v c => v * 10 + (c - 48)) ds v.
Definition val : list Z -> Z := val_from 0.

Definition digits (ds : list Z) : Prop := Forall (fun c => 48 <= c <= 57) ds.
(** No leading zero, except for 0 itself. *)
Definition canonical (ds : list Z) : Prop :=
  digits ds /\ exists c ds', ds = c :: ds' /\ (c = 48 -> ds' = []).

Lemma val_from_app v a b : val_from v (a ++ b) = val_from (val_from v a) b.
Proof. apply fold_left_app. Qed.

Lemma val_from_bounds v ds : digits ds -> 0 <= v ->
  v * 10 ^ zlen ds <= val_from v ds < (v + 1) * 10 ^ zlen ds.
Proof.
  intros Hd. revert v. induction Hd as [|c ds Hc _ IH]; intros v Hv; [change (10 ^ zlen (@nil Z)) with 1; unfold val_from; cbn [fold_left]; lia|].
  cbn [val_from fold_left]. change (fold_left _ ds ?x) with (val_from x ds).
  specialize (IH (v * 10 + (c - 48)) ltac:(lia)).
  replace (zlen (c :: ds)) with (zlen ds + 1) by (unfold zlen; cbn; lia).
  rewrite Z.pow_add_r by (unfold zlen; lia). change (10 ^ 1) with 10.
  pose proof (Z.pow_pos_nonneg 10 (zlen ds) ltac:(lia) ltac:(unfold zlen; lia)). nia.
Qed.

Lemma val_bounds ds : digits ds -> 0 <= val ds < 10 ^ zlen ds.
Proof. intros Hd. pose proof (val_from_bounds 0 ds Hd ltac:(lia)). unfold val. lia. Qed.

Lemma val_pos c ds : digits (c :: ds) -> c <> 48 -> 0 < val (c :: ds).
Proof.
  intros [Hc Hd]%Forall_cons Hne. unfold val. cbn [val_from fold_left]. change (fold_left _ ds ?x) with (val_from x ds).
  pose proof (val_from_bounds (0 * 10 + (c - 48)) ds Hd ltac:(lia)).
  pose proof (Z.pow_pos_nonneg 10 (zlen ds) ltac:(lia) ltac:(unfold zlen; lia)). nia.
Qed.

Lemma print_loop_digits ds : forall fuel acc, canonical ds -> (length ds <= fuel)%nat ->
  print_loop fuel (val ds) acc = ds ++ acc.
Proof.
  induction ds as [|c ds IH] using rev_ind; intros fuel acc [Hd (c0 & ds' & Heq & H0)] Hf; [done|].
  rewrite length_app in Hf. cbn in Hf. destruct fuel as [|fuel]; [lia|]. cbn [print_loop].
  apply Forall_app in Hd as [Hd [Hc _]%Forall_cons].
  assert (val (ds ++ [c]) = val ds * 10 + (c - 48)) as Hv by (unfold val; by rewrite val_from_app).
  rewrite Hv. replace ((val ds * 10 + (c - 48)) mod 10) with (c - 48).
  2:{ rewrite Z.add_comm, Z.mod_add by lia. rewrite Z.mod_small; lia. }
  replace ((val ds * 10 + (c - 48)) / 10) with (val ds).
  2:{ rewrite Z.add_comm, Z.div_add, Z.div_small by lia. lia. }
  replace (c - 48 + 48) with c by lia.
  destruct ds as [|c1 ds1]; [done|].
  cbn in Heq. simplify_eq.
  assert (c0 <> 48) as Hne by (intros ->; specialize (H0 eq_refl); by destruct ds1).
  rewrite (proj2 (Z.ltb_lt _ _)) by (by apply val_pos).
  rewrite IH; [by rewrite <- app_assoc| |lia]. split; [done|]. exists c0, ds1. split; [done|]. by intros ->.
Qed.

Lemma canonical_exists n v : 0 <= v < 10 ^ Z.of_nat (S n) ->
  exists ds, canonical ds /\ (length ds <= S n)%nat /\ val ds = v.
Proof.
  revert v. induction n as [|n IH]; intros v Hv.
  - exists [v + 48]. change (10 ^ Z.of_nat 1) with 10 in Hv. split_and!; [|done|unfold val; cbn; lia].
    split; [apply Forall_singleton; lia|]. by exists (v + 48), [].
  - destruct (Z.lt_ge_cases v 10).
    { exists [v + 48]. split_and!; [|cbn; lia|unfold val; cbn; lia].
      split; [apply Forall_singleton; lia|]. by exists (v + 48), []. }
    rewrite Nat2Z.inj_succ, Z.pow_succ_r in Hv by lia.
    pose proof (Z.div_mod v 10 ltac:(lia)) as Hdm. pose proof (Z.mod_pos_bound v 10 ltac:(lia)) as Hm.
    destruct (IH (v / 10)) as (ds & [Hd (c & ds' & -> & H0)] & Hl & Hval); [lia|].
    exists ((c :: ds') ++ [v mod 10 + 48]). split_and!.
    + split; [apply Forall_app; split; [done|apply Forall_singleton; lia]|].
      exists c, (ds' ++ [v mod 10 + 48]). split; [done|]. intros ->. exfalso.
      rewrite (H0 eq_refl) in Hval. unfold val in Hval. cbn in Hval. lia.
    + rewrite length_app. cbn in *. lia.
    + unfold val in *. rewrite val_from_app, Hval. cbn. lia.
Qed.

(** The digits of a number, and that they are the only canonical ones. *)
Lemma print_ulong_canonical v : 0 <= v < 2 ^ 64 ->
  canonical (zend_print_ulong_to_buf v) /\ val (zend_print_ulong_to_buf v) = v.
Proof.
  intros Hv. destruct (canonical_exists 19 v) as (ds & Hc & Hl & Hval); [lia|].
  unfold zend_print_ulong_to_buf. rewrite <- Hval at 1 2. rewrite print_loop_digits, app_nil_r by done. done.
Qed.

Lemma print_ulong_val ds : canonical ds -> (length ds <= 20)%nat -> zend_print_ulong_to_buf (val ds) = ds.
Proof. intros Hc Hl. unfold zend_print_ulong_to_buf. by rewrite print_loop_digits, app_nil_r. Qed.

(** ** The parser *)

(** The range check at the end of the string. *)
Definition finish (neg : bool) (v : Z) : option Z :=
  if neg then if ZEND_LONG_MAX <? u64 (v - 1) then None else Some (u64 (0 - v))
  else if ZEND_LONG_MAX <? v then None else Some v.

Lemma is_digit_spec c : is_digit c = true <-> 48 <= c <= 57.
Proof. unfold is_digit. rewrite andb_true_iff, !Z.leb_le. done. Qed.

Lemma byte_at_drop key i c rest : 0 <= i -> drop (Z.to_nat i) key = c :: rest ->
  byte_at key i = c /\ drop (Z.to_nat (i + 1)) key = rest /\ zlen key = i + 1 + zlen rest.
Proof.
  intros Hi Hd.
  assert (key !! Z.to_nat i = Some c) as Hc by (rewrite <- (Nat.add_0_r (Z.to_nat i)), <- lookup_drop, Hd; done).
  pose proof (f_equal length Hd) as Hl. rewrite length_drop in Hl. cbn in Hl.
  split_and!.
  - unfold byte_at, zget. by rewrite (proj2 (Z.leb_le _ _)), Hc by lia.
  - replace (Z.to_nat (i + 1)) with (Z.to_nat i + 1)%nat by lia. by rewrite <- drop_drop, Hd.
  - unfold zlen. lia.
Qed.

Lemma numeric_loop_ok fuel key tmp idx rest : 0 <= tmp -> drop (Z.to_nat (tmp + 1)) key = rest ->
  zlen key = tmp + 1 + zlen rest -> (length rest < fuel)%nat -> 0 <= idx ->
  (idx + 1) * 10 ^ zlen rest <= 2 ^ 64 ->
  numeric_loop fuel key tmp idx =
  if forallb is_digit rest then finish (byte_at key 0 =? 45) (val_from idx rest) else None.
Proof.
  revert tmp idx rest. induction fuel as [|fuel IH]; intros tmp idx rest Ht Hd Hl Hf Hi Hb; [lia|].
  cbn [numeric_loop]. destruct rest as [|c rest].
  - rewrite (proj2 (Z.eqb_eq _ _)) by (unfold zlen in *; cbn in *; lia). cbn. done.
  - rewrite (proj2 (Z.eqb_neq _ _)) by (unfold zlen in *; cbn in *; lia).
    destruct (byte_at_drop key (tmp + 1) c rest) as (-> & Hd' & Hl'); [lia|done|]. cbn [forallb].
    destruct (is_digit c) eqn:Ec; [|done]. apply is_digit_spec in Ec. cbn [andb].
    assert (zlen (c :: rest) = zlen rest + 1) as Hz by (unfold zlen; cbn; lia).
    rewrite Hz, Z.pow_add_r in Hb by (unfold zlen; lia). change (10 ^ 1) with 10 in Hb.
    pose proof (Z.pow_pos_nonneg 10 (zlen rest) ltac:(lia) ltac:(unfold zlen; lia)) as Hp.
    change (val_from idx (c :: rest)) with (val_from (idx * 10 + (c - 48)) rest).
    rewrite u64_small by nia. apply IH; try done; try lia; [cbn in Hf; lia|]. nia.
Qed.


Lemma schar_digit c : is_byte c -> schar c <= 57 -> 48 <= schar c -> 48 <= c <= 57.
Proof.
  unfold is_byte, schar, sint. intros Hc. change (2 ^ 8) with 256. change (2 ^ (8 - 1)) with 128.
  rewrite Z.mod_small by lia. destruct (Z.ltb_spec c 128); lia.
Qed.

Lemma digit_schar c : 48 <= c <= 57 -> schar c = c.
Proof.
  intros Hc. unfold schar, sint. change (2 ^ 8) with 256. change (2 ^ (8 - 1)) with 128.
  rewrite Z.mod_small by lia. by rewrite (proj2 (Z.ltb_lt _ _)) by lia.
Qed.

(** What the second part of the parser does with sign and digits. *)
Lemma numeric_ex_ok neg c rest : 48 <= c <= 57 ->
  _zend_handle_numeric_str_ex ((if neg : bool then [45] else []) ++ c :: rest) =
  if ((c =? 48) && (neg || negb (zlen rest =? 0))) || (19 <? zlen rest + 1) then None
  else if forallb is_digit rest then finish neg (val (c :: rest)) else None.
Proof.
  intros Hc. set (key := _ ++ _). unfold _zend_handle_numeric_str_ex.
  assert ((byte_at key 0 =? 45) = neg) as Hneg.
  { unfold key. destruct neg; [done|]. change (byte_at ([] ++ c :: rest) 0) with c. apply Z.eqb_neq. lia. }
  rewrite Hneg. set (tmp := if neg then 1 else 0).
  assert (drop (Z.to_nat tmp) key = c :: rest) as Hd by (unfold tmp, key; by destruct neg).
  destruct (byte_at_drop key tmp c rest) as (Hb & Hd' & Hl); [unfold tmp; by destruct neg|done|].
  cbv zeta. rewrite Hb. unfold MAX_LENGTH_OF_LONG.
  replace (1 <? zlen key) with (neg || negb (zlen rest =? 0)).
  2:{ pose proof (zlen_nonneg rest). unfold tmp in Hl. destruct neg; cbn [orb].
      - symmetry. apply Z.ltb_lt. lia.
      - destruct (Z.eqb_spec (zlen rest) 0); cbn [negb]; symmetry; [apply Z.ltb_ge|apply Z.ltb_lt]; lia. }
  replace (20 - 1 <? zlen key - tmp) with (19 <? zlen rest + 1) by (f_equal; lia).
  destruct (_ || _) eqn:Eg; [done|]. apply orb_false_iff in Eg as [_ Eg]. apply Z.ltb_ge in Eg.
  rewrite u64_small by lia.
  assert (0 <= tmp) as Htmp by (unfold tmp; by destruct neg).
  rewrite (numeric_loop_ok _ key tmp (c - 48) rest); try done; try lia.
  - rewrite Hneg. done.
  - unfold zlen in Hl. lia.
  - assert (10 ^ zlen rest <= 10 ^ 18) as Hp by (apply Z.pow_le_mono_r; unfold zlen in *; lia).
    pose proof (Z.pow_pos_nonneg 10 (zlen rest) ltac:(lia) ltac:(unfold zlen; lia)). nia.
Qed.

Lemma numeric_str_split key h : Forall is_byte key -> _zend_handle_numeric_str key = Some h ->
  exists (neg : bool) c rest, key = (if neg then [45] else []) ++ c :: rest /\ 48 <= c <= 57
    /\ _zend_handle_numeric_str_ex key = Some h.
Proof.
  intros Hb. unfold _zend_handle_numeric_str. cbv zeta.
  destruct key as [|c key]; [done|]. cbn [byte_at]. change (byte_at (c :: key) 0) with c.
  apply Forall_cons in Hb as [Hc Hb]. destruct (Z.ltb_spec 57 (schar c)); [done|].
  destruct (Z.ltb_spec (schar c) 48).
  - destruct (Z.eqb_spec c 45) as [->|]; cbn [negb]; [|done].
    destruct key as [|c1 key]; [done|]. change (byte_at (45 :: c1 :: key) 1) with c1.
    apply Forall_cons in Hb as [Hc1 _].
    destruct (Z.ltb_spec 57 (schar c1)), (Z.ltb_spec (schar c1) 48); cbn [orb]; try done.
    intros Hh. exists true, c1, key. split_and!; try done; by apply schar_digit.
  - intros Hh. exists false, c, key. split_and!; try done; by apply schar_digit.
Qed.

Lemma numeric_str_digits neg c rest : 48 <= c <= 57 ->
  _zend_handle_numeric_str ((if neg : bool then [45] else []) ++ c :: rest)
  = _zend_handle_numeric_str_ex ((if neg : bool then [45] else []) ++ c :: rest).
Proof.
  intros Hc. unfold _zend_handle_numeric_str. cbv zeta. pose proof (digit_schar c Hc) as Hs. destruct neg; cbn [app].
  - change (byte_at (45 :: c :: rest) 0) with 45. change (byte_at (45 :: c :: rest) 1) with c.
    change (57 <? schar 45) with false. change (schar 45 <? 48) with true. cbv iota. cbn [negb Z.eqb Pos.eqb].
    rewrite Hs. destruct (Z.ltb_spec 57 c); [lia|]. destruct (Z.ltb_spec c 48); [lia|]. done.
  - change (byte_at (c :: rest) 0) with c. rewrite Hs.
    destruct (Z.ltb_spec 57 c); [lia|]. destruct (Z.ltb_spec c 48); [lia|]. done.
Qed.

Lemma forallb_digits ds : forallb is_digit ds = true <-> digits ds.
Proof.
  unfold digits. induction ds as [|c ds IH]; cbn; [done|].
  rewrite andb_true_iff, IH, Forall_cons, is_digit_spec. done.
Qed.

Lemma finish_spec neg v h : 0 <= v < 2 ^ 64 -> (neg = true -> v <> 0) ->
  finish neg v = Some h <->
  ZEND_LONG_MIN <= (if neg then - v else v) <= ZEND_LONG_MAX /\ h = u64 (if neg then - v else v).
Proof.
  intros Hv Hn. unfold finish, ZEND_LONG_MIN, ZEND_LONG_MAX. destruct neg.
  - specialize (Hn eq_refl). rewrite u64_small by lia. change (0 - v) with (- v).
    destruct (Z.ltb_spec (2 ^ 63 - 1) (v - 1)); split.
    + done.
    + intros [? _]. lia.
    + intros [= <-]. split; [lia|done].
    + by intros [_ ->].
  - destruct (Z.ltb_spec (2 ^ 63 - 1) v); split.
    + done.
    + intros [? _]. lia.
    + intros [= <-]. split; [lia|by rewrite u64_small].
    + intros [_ ->]. by rewrite u64_small.
Qed.

Lemma print_long_shape n : ZEND_LONG_MIN <= n <= ZEND_LONG_MAX ->
  zend_print_long_to_buf n
  = (if n <? 0 then [45] else []) ++ zend_print_ulong_to_buf (Z.abs n).
Proof.
  unfold ZEND_LONG_MIN, ZEND_LONG_MAX. intros Hn. unfold zend_print_long_to_buf.
  destruct (Z.ltb_spec n 0); cbn [app]; [|by rewrite Z.abs_eq]. do 2 f_equal.
  assert (u64 n = n + 2 ^ 64) as ->.
  { unfold u64. rewrite <- (Z.mod_add n 1) by lia. rewrite Z.mod_small; lia. }
  assert (u64 (Z.lnot (n + 2 ^ 64)) = - n - 1) as ->.
  { unfold u64, Z.lnot. rewrite <- (Z.mod_add _ 1) by lia. rewrite Z.mod_small; lia. }
  rewrite u64_small; lia.
Qed.

Lemma numeric_canonical neg ds : canonical ds -> (neg = true -> val ds <> 0) -> (length ds <= 19)%nat ->
  _zend_handle_numeric_str ((if neg : bool then [45] else []) ++ ds) = finish neg (val ds).
Proof.
  intros [Hd (c & rest & -> & H0)] Hn Hl. apply Forall_cons in Hd as [Hc Hd].
  rewrite numeric_str_digits, numeric_ex_ok by done. rewrite (proj2 (forallb_digits rest) Hd).
  replace ((c =? 48) && _) with false.
  2:{ destruct (Z.eqb_spec c 48) as [->|]; [|done]. rewrite (H0 eq_refl) in *. destruct neg; [|done].
      exfalso. by apply Hn. }
  cbn [orb]. rewrite (proj2 (Z.ltb_ge _ _)); [done|]. unfold zlen. cbn in Hl. lia.
Qed.

Lemma numeric_is_printed key h : Forall is_byte key -> _zend_handle_numeric_str key = Some h ->
  exists n, ZEND_LONG_MIN <= n <= ZEND_LONG_MAX /\ key = zend_print_long_to_buf n /\ h = u64 n.
Proof.
  intros Hb Hh. destruct (numeric_str_split key h Hb Hh) as (neg & c & rest & -> & Hc & Hex).
  rewrite numeric_ex_ok in Hex by done. destruct (_ || _) eqn:Eg; [done|].
  apply orb_false_iff in Eg as [Eg1 Eg2]. apply Z.ltb_ge in Eg2.
  destruct (forallb is_digit rest) eqn:Ed; [|done]. apply forallb_digits in Ed.
  assert (canonical (c :: rest)) as Hcan.
  { split; [by apply Forall_cons|]. exists c, rest. split; [done|]. intros ->. cbn in Eg1.
    destruct neg; [done|]. cbn in Eg1. destruct (Z.eqb_spec (zlen rest) 0); [|done]. by destruct rest. }
  assert (neg = true -> 0 < val (c :: rest)) as Hpos.
  { intros ->. apply val_pos; [apply Hcan|]. intros ->. done. }
  assert (0 <= val (c :: rest) < 10 ^ 19) as Hv.
  { pose proof (val_bounds _ (proj1 Hcan)) as Hvb. split; [lia|].
    eapply Z.lt_le_trans; [apply Hvb|]. apply Z.pow_le_mono_r; unfold zlen in *; cbn; lia. }
  apply finish_spec in Hex as [Hr ->]; [|lia|intros Hneg; specialize (Hpos Hneg); lia].
  eexists. split; [exact Hr|]. split; [|done]. rewrite print_long_shape by done.
  assert (zend_print_ulong_to_buf (val (c :: rest)) = c :: rest) as Hp.
  { apply print_ulong_val; [done|]. unfold zlen in Eg2. cbn. lia. }
  destruct neg.
  + specialize (Hpos eq_refl). destruct (Z.ltb_spec (- val (c :: rest)) 0); [|lia].
    rewrite Z.abs_opp, Z.abs_eq, Hp by lia. done.
  + destruct (Z.ltb_spec (val (c :: rest)) 0); [lia|]. rewrite Z.abs_eq, Hp by lia. done.
Qed.

Lemma numeric_of_printed n : ZEND_LONG_MIN <= n <= ZEND_LONG_MAX ->
  _zend_handle_numeric_str (zend_print_long_to_buf n) = Some (u64 n).
Proof.
  intros Hn. rewrite print_long_shape by done. pose proof Hn as Hn'.
  unfold ZEND_LONG_MIN, ZEND_LONG_MAX in Hn'.
  destruct (canonical_exists 18 (Z.abs n)) as (ds & Hc & Hl & Hv); [lia|].
  rewrite <- Hv, print_ulong_val by (done || lia).
  destruct (Z.ltb_spec n 0).
  + trans (finish true (val ds)); [apply (numeric_canonical true ds); [done|intros _; lia|done]|].
    apply finish_spec; [lia|intros _; lia|].
    rewrite Hv. replace (- Z.abs n) with n by lia. done.
  + trans (finish false (val ds)); [by apply (numeric_canonical false ds)|]. apply finish_spec; [lia|done|].
    rewrite Hv, Z.abs_eq by lia. done.
Qed.

(** C12: A string key is taken for an integer key exactly when it is the decimal
    representation, as zend_print_long_to_buf writes it, of a number that fits a
    zend_long; the integer key is that number. *)
Theorem numeric_key_correct key h : Forall is_byte key ->
  _zend_handle_numeric_str key = Some h <->
  exists n, ZEND_LONG_MIN <= n <= ZEND_LONG_MAX /\ key = zend_print_long_to_buf n /\ h = u64 n.
Proof.
  intros Hb. split; [by apply numeric_is_printed|]. intros (n & Hn & -> & ->). by apply numeric_of_printed.
Qed.

Lemma numeric_key_correct_witness : _zend_handle_numeric_str (zend_print_long_to_buf (-42)) = Some (2 ^ 64 - 42).
Proof.
  apply (numeric_key_correct (zend_print_long_to_buf (-42)) (2 ^ 64 - 42)).
  - vm_compute. repeat constructor; intros; discriminate.
  - exists (-42). done.
Defined.

(** The hash of a string key is the classical one byte at a time hash, with the
    top bit set so that no hash is zero: the unrolled loop computes the same. *)
Theorem zend_inline_hash_func_correct str :
  zend_inline_hash_func str = Z.lor (djbx33a 5381 str) (2 ^ 63) /\ 2 ^ 63 <= zend_inline_hash_func str < 2 ^ 64.
Proof.
  split; [|apply zend_inline_hash_func_range]. unfold zend_inline_hash_func. by rewrite hash_loop_djbx.
Qed.
