(* ===== verification/HashDupOps.v ===== *)
(** * Operations of the hash table, part 7: duplication (Zend/zend_hash.c)

    zend_array_dup, zend_array_to_list and the conversions between symbol tables
    and property tables. They copy values and so count references, which the
    other operations on tables do not. *)

From S2P Require Import Prelude.
From S2P Require Import ZendString.
From S2P Require Import HashTypes.
From S2P Require Import HashOps.
From S2P Require Import HashApplyOps.
From S2P Require Import NumericKey.

(** ** Counted values

    What a counted value points to: its reference count and, for a reference,
    the value it holds. *)
Record counted : Type := mkCounted { rc_count : Z; rc_val : zval }.
Notation rheap := (gmap Z counted).

Definition IS_ARRAY : Z := 7.
Definition Z_TYPE_MASK : Z := 0xff.
Definition Z_TYPE_FLAGS_MASK : Z := 0xff00.

(** The tag of a [ZVal] is its type_info: the type and the type flags. *)
Definition Z_OPT_REFCOUNTED (v : zval) : bool :=
  match v with
  | IS_REFERENCE _ => true
  | ZVal t _ => negb (Z.land t Z_TYPE_FLAGS_MASK =? 0)
  | _ => false
  end.

Definition Z_COUNTED (v : zval) : Z :=
  match v with IS_REFERENCE r => r | ZVal _ p => p | _ => 0 end.

Definition Z_ADDREF (R : rheap) (v : zval) : res rheap :=
  match R !! Z_COUNTED v with
  | Some c => Ok (<[Z_COUNTED v := mkCounted (u32 (rc_count c + 1)) (rc_val c)]> R)
  | None => Ub
  end.

(** [Z_TYPE_P(v) == IS_ARRAY && Z_ARRVAL_P(v) == source] *)
Definition is_array_at (source : Z) (v : zval) : bool :=
  match v with ZVal t p => (Z.land t Z_TYPE_MASK =? IS_ARRAY) && (p =? source) | _ => false end.

(** The [do { ... } while (0)] block: a reference nobody else holds is replaced by
    its value, unless [keep] says otherwise, and what is copied gets one more
    reference. *)
Definition copy_counted (keep : zval -> bool) (R : rheap) (data : zval) : res (rheap * zval) :=
  if Z_OPT_REFCOUNTED data then
    match data with
    | IS_REFERENCE r =>
        match R !! r with
        | Some c =>
            if (rc_count c =? 1) && negb (keep (rc_val c)) then
              let data := rc_val c in
              if negb (Z_OPT_REFCOUNTED data) then Ok (R, data)
              else R ← Z_ADDREF R data; Ok (R, data)
            else R ← Z_ADDREF R data; Ok (R, data)
        | None => Ub
        end
    | _ => R ← Z_ADDREF R data; Ok (R, data)
    end
  else Ok (R, data).

Section DupOps.
Context {E : ZendEnv}.

(** ** zend_array_dup *)

Definition zend_array_dup_value (w : world) (R : rheap) (source : HashTable) (data : zval)
    (packed with_holes : bool) : res (rheap * option zval) :=
  o ← (if with_holes then
         data ← (match data with
                 | IS_INDIRECT a =>
                     if packed then Ok data
                     else match w_ind w !! a with Some d => Ok d | None => Ub end
                 | _ => Ok data
                 end);
         Ok (if is_undef data then None else Some data)
       else if negb packed then
         match data with
         | IS_INDIRECT a =>
             match w_ind w !! a with
             | Some d => Ok (if is_undef d then None else Some d)
             | None => Ub
             end
         | _ => Ok (Some data)
         end
       else Ok (Some data));
  match o with
  | None => Ok (R, None)
  | Some data =>
      '(R, data) ← copy_counted (is_array_at (ht_addr source)) R data;
      Ok (R, Some data)
  end.

(** [zend_string_addref(key)], without effect on an interned string. *)
Definition addref_key (key : option Z) (w : world) : world :=
  match key with
  | Some k => if ZSTR_IS_INTERNED k then w else log (EvAddref k) w
  | None => w
  end.

(** A copy of the bucket [p] goes to index [idx] of the target; the boolean says
    whether there was something to copy. *)
Definition zend_array_dup_element (w : world) (R : rheap) (source target : HashTable) (idx : Z)
    (p : Bucket) (static_keys with_holes : bool) : res (world * rheap * HashTable * bool) :=
  '(R, o) ← zend_array_dup_value w R source (b_val p) false with_holes;
  match o with
  | None => Ok (w, R, target, false)
  | Some v =>
      q ← rd (arData target) idx;
      D ← wr (arData target) idx (mkBucket v (b_next q) (b_h p) (b_key p));
      let w := if static_keys then w else addref_key (b_key p) w in
      target ← ht_link (set_arData D target) idx;
      Ok (w, R, target, true)
  end.

Fixpoint zend_array_dup_packed_elements (fuel : nat) (w : world) (R : rheap) (source target : HashTable)
    (with_holes : bool) (i : Z) : res (rheap * HashTable) :=
  match fuel with
  | O => Ub
  | S fuel =>
      p ← rd (arPacked source) i;
      '(R, o) ← zend_array_dup_value w R source p true with_holes;
      target ← match o with
               | Some v => P ← wr (arPacked target) i v; Ok (set_arPacked P target)
               | None =>
                   if with_holes : bool then P ← wr (arPacked target) i IS_UNDEF; Ok (set_arPacked P target)
                   else Ok target
               end;
      if i + 1 =? nNumUsed source then Ok (R, target)
      else zend_array_dup_packed_elements fuel w R source target with_holes (i + 1)
  end.

(** The loop after the first element that was not copied. *)
Fixpoint dup_rest (fuel : nat) (w : world) (R : rheap) (source target : HashTable)
    (static_keys with_holes : bool) (idx target_idx : Z) : res (world * rheap * HashTable * Z) :=
  match fuel with
  | O => Ub
  | S fuel =>
      if idx =? nNumUsed source then Ok (w, R, target, target_idx)
      else
        p ← rd (arData source) idx;
        '(w, R, target, done) ←
          zend_array_dup_element w R source target target_idx p static_keys with_holes;
        if done : bool then
          let target := if nInternalPointer source =? idx
                        then set_nInternalPointer target_idx target else target in
          dup_rest fuel w R source target static_keys with_holes (idx + 1) (target_idx + 1)
        else dup_rest fuel w R source target static_keys with_holes (idx + 1) target_idx
  end.

Fixpoint zend_array_dup_elements (fuel : nat) (w : world) (R : rheap) (source target : HashTable)
    (static_keys with_holes : bool) (idx : Z) : res (world * rheap * HashTable * Z) :=
  match fuel with
  | O => Ub
  | S fuel' =>
      p ← rd (arData source) idx;
      '(w, R, target, done) ← zend_array_dup_element w R source target idx p static_keys with_holes;
      if negb done then dup_rest fuel w R source target static_keys with_holes (idx + 1) idx
      else if idx + 1 =? nNumUsed source then Ok (w, R, target, idx + 1)
      else zend_array_dup_elements fuel' w R source target static_keys with_holes (idx + 1)
  end.

(** [addr] is where ALLOC_HASHTABLE puts the new table; its type information is
    GC_ARRAY, so it is not immutable. *)
Definition zend_array_dup (addr : Z) (w : world) (R : rheap) (source : HashTable)
  : res (world * rheap * HashTable) :=
  let fuel := S (Z.to_nat (nNumUsed source)) in
  if nNumOfElements source =? 0 then
    Ok (w, R, mkHT addr false false true false false 0 HT_MIN_MASK
                [HT_INVALID_IDX; HT_INVALID_IDX] [] [] 0 0 HT_MIN_SIZE 0
                (nNextFreeElement source) true)
  else
    let target := mkHT addr false (f_packed source) (f_uninit source) (f_static source) (f_empty_ind source)
                    0 (nTableMask source) [] [] [] (nNumUsed source) (nNumOfElements source)
                    (nTableSize source)
                    (if ht_immutable source then nInternalPointer source
                     else if nInternalPointer source <? nNumUsed source then nInternalPointer source else 0)
                    (nNextFreeElement source) true in
    if ht_immutable source then
      if f_packed source then
        Ok (w, R, set_alloc (nTableMask source) (arHash source) []
                    (copy_used (nNumUsed source) (arPacked source) (alloc_packed (nTableSize source))) target)
      else
        Ok (w, R, set_alloc (nTableMask source) (arHash source)
                    (copy_used (nNumUsed source) (arData source) (alloc_buckets (nTableSize source))) [] target)
    else if f_packed source then
      let target := HT_HASH_RESET_PACKED
        (set_alloc HT_MIN_MASK (alloc_hash HT_MIN_MASK) [] (alloc_packed (nTableSize source)) target) in
      '(R, target) ← zend_array_dup_packed_elements fuel w R source target
                       (negb (HT_IS_WITHOUT_HOLES target)) 0;
      Ok (w, R, target)
    else
      let target := HT_HASH_RESET
        (set_alloc (nTableMask source) (alloc_hash (nTableMask source)) (alloc_buckets (nTableSize source)) []
           target) in
      '(w, R, target, idx) ←
        zend_array_dup_elements fuel w R source target (HT_HAS_STATIC_KEYS_ONLY target)
          (negb (HT_IS_WITHOUT_HOLES source)) 0;
      Ok (w, R, set_nNumOfElements idx (set_nNumUsed idx target)).
End DupOps.

(** ** zend_array_to_list *)

Section ListOps.
Context {E : ZendEnv}.

Definition Z_TRY_ADDREF (R : rheap) (v : zval) : res rheap :=
  if Z_OPT_REFCOUNTED v then Z_ADDREF R v else Ok R.

(** [Z_ISREF_P(entry) && Z_REFCOUNT_P(entry) == 1 ? Z_REFVAL_P(entry) : entry] *)
Definition sole_ref (R : rheap) (entry : zval) : res zval :=
  match entry with
  | IS_REFERENCE r =>
      match R !! r with
      | Some c => Ok (if rc_count c =? 1 then rc_val c else entry)
      | None => Ub
      end
  | _ => Ok entry
  end.

(** ZEND_HASH_FOREACH_VAL with ZEND_HASH_FILL_ADD: [fill] is __fill_idx. *)
Fixpoint fill_loop (R : rheap) (P : list zval) (fill : Z) (l : list core) : res (rheap * list zval * Z) :=
  match l with
  | [] => Ok (R, P, fill)
  | c :: l =>
      if is_undef c.1.1 then fill_loop R P fill l
      else
        entry ← sole_ref R c.1.1;
        R ← Z_TRY_ADDREF R entry;
        P ← wr P fill entry;
        fill_loop R P (fill + 1) l
  end.

Definition zend_array_to_list (addr : Z) (R : rheap) (source : HashTable) : res (rheap * HashTable) :=
  result ← _zend_new_array addr (nNumOfElements source);
  let result := zend_hash_real_init_packed result in
  _ ← assert_ (f_packed result);
  '(R, P, fill) ← fill_loop R (arPacked result) (nNumUsed result) (raw_slots source);
  Ok (R, set_counts fill fill (nTableSize result) 0 fill (set_arPacked P result)).
End ListOps.

(** ** Symbol tables and property tables

    [ZSTR_CHAR c] is the interned string of one byte, kept by zend_string.c. *)

Class CharStrings {E : ZendEnv} : Type := {
  ZSTR_CHAR : Z -> Z;
  ZSTR_CHAR_val : forall c, 0 <= c < 256 -> ZSTR_VAL (ZSTR_CHAR c) = [c];
  ZSTR_CHAR_interned : forall c, ZSTR_IS_INTERNED (ZSTR_CHAR c) = true;
}.

Section TableConversion.
Context {E : ZendEnv} {CS : CharStrings}.

Definition zend_long_to_str (num : Z) : Z :=
  if u64 num <=? 9 then ZSTR_CHAR (48 + u64 num) else zend_string_init (zend_print_long_to_buf num).

(** [zend_string_delref(key)], without effect on an interned string. *)
Definition delref_key (key : Z) (w : world) : world :=
  if ZSTR_IS_INTERNED key then w else log (EvDelref key) w.

(** One more reference to the table itself, unless it is immutable. *)
Definition addref_table (R : rheap) (ht : HashTable) : res rheap :=
  if ht_immutable ht then Ok R else Z_ADDREF R (ZVal IS_ARRAY (ht_addr ht)).

Fixpoint to_proptable_loop (w : world) (R : rheap) (new_ht : HashTable) (l : list core)
  : res (world * rheap * HashTable) :=
  match l with
  | [] => Ok (w, R, new_ht)
  | c :: l =>
      if is_undef c.1.1 then to_proptable_loop w R new_ht l
      else
        let '(w, str_key) :=
          match c.2 with
          | Some key => (w, key)
          | None => let key := zend_long_to_str (i64 c.1.2) in (delref_key key w, key)
          end in
        '(R, zv) ← copy_counted (fun _ => false) R c.1.1;
        '(w, new_ht, _) ← zend_hash_update w new_ht str_key zv;
        to_proptable_loop w R new_ht l
  end.

(** [None]: the table itself, with one more reference. *)
Definition zend_symtable_to_proptable (addr : Z) (w : world) (R : rheap) (ht : HashTable)
  : res (world * rheap * option HashTable) :=
  if f_packed ht || existsb (fun c => negb (is_undef c.1.1) && bool_decide (c.2 = None)) (raw_slots ht) then
    new_ht ← _zend_new_array addr (nNumOfElements ht);
    '(w, R, new_ht) ← to_proptable_loop w R new_ht (raw_slots ht);
    Ok (w, R, Some new_ht)
  else R ← addref_table R ht; Ok (w, R, None).

Fixpoint to_symtable_loop (w : world) (R : rheap) (new_ht : HashTable) (l : list core)
  : res (world * rheap * HashTable) :=
  match l with
  | [] => Ok (w, R, new_ht)
  | c :: l =>
      o ← resolve false w c.1.1;
      match o with
      | None => to_symtable_loop w R new_ht l
      | Some zv =>
          '(R, zv) ← copy_counted (fun _ => false) R zv;
          '(w, new_ht, _) ←
            match c.2 with
            | None => zend_hash_index_update w new_ht c.1.2 zv
            | Some str_key =>
                match _zend_handle_numeric_str (ZSTR_VAL str_key) with
                | Some num_key => zend_hash_index_update w new_ht num_key zv
                | None => zend_hash_update w new_ht str_key zv
                end
            end;
          to_symtable_loop w R new_ht l
      end
  end.

Definition numeric_key (c : core) : bool :=
  negb (is_undef c.1.1) &&
  match c.2 with
  | Some str_key => bool_decide (is_Some (_zend_handle_numeric_str (ZSTR_VAL str_key)))
  | None => false
  end.

Definition zend_proptable_to_symtable (addr : Z) (w : world) (R : rheap) (ht : HashTable)
    (always_duplicate : bool) : res (world * rheap * option HashTable) :=
  if negb (f_packed ht) && existsb numeric_key (raw_slots ht) then
    new_ht ← _zend_new_array addr (nNumOfElements ht);
    '(w, R, new_ht) ← to_symtable_loop w R new_ht (raw_slots ht);
    Ok (w, R, Some new_ht)
  else if always_duplicate then
    '(w, R, new_ht) ← zend_array_dup addr w R ht; Ok (w, R, Some new_ht)
  else R ← addref_table R ht; Ok (w, R, None).
End TableConversion.
