(* ===== verification/HashDupMain.v ===== *)
(** * Duplication of a table

    zend_array_dup against a reference that copies the elements one by one: first the
    elements, with their reference counts, then the three layouts. *)

From S2P Require Import Prelude.
From S2P Require Import ZendString.
From S2P Require Import OrderedMap.
From S2P Require Import HashTypes.
From S2P Require Import HashOps.
From S2P Require Import HashChain.
From S2P Require Import HashRehash.
From S2P Require Import HashInv.
From S2P Require Import HashLayout.
From S2P Require Import HashIndex.
From S2P Require Import HashApplyOps.
From S2P Require Import HashDupOps.

(** ** Reference counts *)

(** One more reference to what [v] points to. *)
Definition bump (v : zval) (R : rheap) : rheap :=
  if Z_OPT_REFCOUNTED v then alter (fun c => mkCounted (u32 (rc_count c + 1)) (rc_val c)) (Z_COUNTED v) R
  else R.

(** The heap has what a copy of [v] counts: its own cell and, for a reference,
    that of its value, which is defined. *)
Definition known (R : rheap) (v : zval) : Prop :=
  (Z_OPT_REFCOUNTED v = true -> is_Some (R !! Z_COUNTED v))
  /\ forall r c, v = IS_REFERENCE r -> R !! r = Some c ->
       rc_val c <> IS_UNDEF
       /\ (Z_OPT_REFCOUNTED (rc_val c) = true -> is_Some (R !! Z_COUNTED (rc_val c))).

Lemma bump_lookup v R a : bump v R !! a =
  (if bool_decide (Z_OPT_REFCOUNTED v = true /\ Z_COUNTED v = a)
   then (fun c => mkCounted (u32 (rc_count c + 1)) (rc_val c)) <$> R !! a else R !! a).
Proof.
  unfold bump. destruct (Z_OPT_REFCOUNTED v); [|by rewrite bool_decide_false by naive_solver].
  destruct (decide (Z_COUNTED v = a)) as [<-|Hne].
  - rewrite bool_decide_true by done. apply lookup_alter_eq.
  - rewrite bool_decide_false by naive_solver. by apply lookup_alter_ne.
Qed.

Lemma bump_is_Some v R a : is_Some (bump v R !! a) <-> is_Some (R !! a).
Proof. rewrite bump_lookup. case_bool_decide; [apply fmap_is_Some|done]. Qed.

Lemma bump_val v R a c : bump v R !! a = Some c -> exists c0, R !! a = Some c0 /\ rc_val c0 = rc_val c.
Proof.
  rewrite bump_lookup. case_bool_decide; [|by eauto]. intros (c0 & -> & ->)%fmap_Some. by exists c0.
Qed.

Lemma known_bump R v u : known R u -> known (bump v R) u.
Proof.
  intros [H1 H2]. split; [intros; by apply bump_is_Some, H1|].
  intros r c -> (c0 & Hc & Hv)%bump_val. destruct (H2 _ _ eq_refl Hc) as [Hu Hk]. rewrite <- Hv.
  split; [done|]. intros. by apply bump_is_Some, Hk.
Qed.

Lemma Z_ADDREF_bump R v : Z_OPT_REFCOUNTED v = true -> is_Some (R !! Z_COUNTED v) ->
  Z_ADDREF R v = Ok (bump v R).
Proof.
  intros Hv [c Hc]. unfold Z_ADDREF, bump. rewrite Hc, Hv. f_equal.
  apply map_eq. intros a. destruct (decide (Z_COUNTED v = a)) as [<-|].
  - by rewrite lookup_insert_eq, lookup_alter_eq, Hc.
  - by rewrite lookup_insert_ne, lookup_alter_ne.
Qed.

(** What is stored for [v]: the value of a reference held once, [v] otherwise. *)
Lemma copy_counted_ok keep R v : known R v -> v <> IS_UNDEF ->
  exists v', copy_counted keep R v = Ok (bump v' R, v') /\ v' <> IS_UNDEF
    /\ (v' = v \/ exists r c, v = IS_REFERENCE r /\ R !! r = Some c /\ rc_count c = 1 /\ v' = rc_val c).
Proof.
  intros [H1 H2] Hu. unfold copy_counted. destruct (Z_OPT_REFCOUNTED v) eqn:Ev.
  - specialize (H1 eq_refl). destruct v; try done; try (exists (ZVal t p)); try (rewrite Z_ADDREF_bump by done; by auto).
    destruct H1 as [c Hc]. cbn in Hc. rewrite Hc. destruct (H2 _ _ eq_refl Hc) as [Hcu Hk].
    destruct ((rc_count c =? 1) && negb (keep (rc_val c))) eqn:E1.
    + apply andb_true_iff in E1 as [E1%Z.eqb_eq _]. exists (rc_val c).
      destruct (Z_OPT_REFCOUNTED (rc_val c)) eqn:Ec; cbn [negb].
      * rewrite Z_ADDREF_bump by auto. cbn. split_and!; try done. right. by exists r, c.
      * unfold bump. rewrite Ec. split_and!; try done. right. by exists r, c.
    + exists (IS_REFERENCE r). rewrite Z_ADDREF_bump by (done || by exists c). cbn. by auto.
  - exists v. unfold bump. rewrite Ev. by auto.
Qed.

(** ** The reference *)

Section DupRef.
Context {E : ZendEnv} (w : world) (src : Z) (packed : bool).

Definition dup_slot (R : rheap) (v : zval) : res (rheap * option zval) :=
  o ← resolve packed w v;
  match o with
  | None => Ok (R, None)
  | Some v => '(R, v) ← copy_counted (is_array_at src) R v; Ok (R, Some v)
  end.

(** The elements of [cs] copied in order, without those that stand for nothing. *)
Fixpoint dup_ref (R : rheap) (cs : list core) : res (rheap * list core) :=
  match cs with
  | [] => Ok (R, [])
  | c :: cs =>
      '(R, o) ← dup_slot R c.1.1;
      '(R, l) ← dup_ref R cs;
      Ok (R, match o with Some v => (v, c.1.2, c.2) :: l | None => l end)
  end.

(** The slots indirections point to and the counted values are there. *)
Definition dup_known (R : rheap) (v : zval) : Prop :=
  exists o, resolve packed w v = Ok o /\ forall u, o = Some u -> known R u.

Lemma dup_known_bump R u v : dup_known R v -> dup_known (bump u R) v.
Proof. intros (o & Ho & Hk). exists o. split; [done|]. intros. by apply known_bump, Hk. Qed.

Lemma dup_slot_ok R v : dup_known R v ->
  exists o, dup_slot R v = Ok (match o with Some v' => bump v' R | None => R end, o)
    /\ (forall v', o = Some v' -> v' <> IS_UNDEF)
    /\ (o = None <-> resolve packed w v = Ok None).
Proof.
  intros (o & Ho & Hk). unfold dup_slot. rewrite Ho, bind_ok. destruct o as [u|].
  - assert (u <> IS_UNDEF) as Hu.
    { destruct v; cbn in Ho; try (by simplify_eq). destruct packed; [by simplify_eq|].
      destruct (w_ind w !! p) as [d|]; [|done]. destruct d; by simplify_eq/=. }
    destruct (copy_counted_ok (is_array_at src) R u (Hk _ eq_refl) Hu) as (v' & -> & Hv' & _).
    exists (Some v'). cbn. split_and!; naive_solver.
  - exists None. naive_solver.
Qed.
End DupRef.

(** ** The loop over buckets *)

Section DupLoop.
Context {E : ZendEnv}.

Lemma dup_value_slot w R source data packed with_holes :
  (with_holes = false -> data <> IS_UNDEF) ->
  zend_array_dup_value w R source data packed with_holes = dup_slot w (ht_addr source) packed R data.
Proof.
  intros Hd. unfold zend_array_dup_value, dup_slot, resolve.
  destruct with_holes, packed, data; cbn; try done; try (by specialize (Hd eq_refl));
    destruct (w_ind w !! p) as [d|]; done.
Qed.

(** The first [k] buckets of [t] are a hash with the elements [cs]; its counters
    are not set yet. *)
Definition building (t : HashTable) (k : Z) (cs : list core) : Prop :=
  mixed (set_counts k k (nTableSize t) (nInternalPointer t) (nNextFreeElement t) t) cs.

Definition slot_core (p : Bucket) (o : option zval) : list core :=
  match o with Some v => [(v, b_h p, b_key p)] | None => [] end.

Definition key_events (cs : list core) : list event :=
  EvAddref <$> filter (fun k => ZSTR_IS_INTERNED k = false) (omap snd cs).

Definition add_events (l : list event) (w : world) : world :=
  mkWorld (w_ind w) (ht_iterators w) (ht_iterators_used w) (w_trace w ++ l).

Lemma add_events_nil w : add_events [] w = w.
Proof. unfold add_events. rewrite app_nil_r. by destruct w. Qed.

Lemma add_events_app l1 l2 w : add_events l2 (add_events l1 w) = add_events (l1 ++ l2) w.
Proof. unfold add_events. cbn. by rewrite app_assoc. Qed.

Lemma key_events_app l1 l2 : key_events (l1 ++ l2) = key_events l1 ++ key_events l2.
Proof. unfold key_events. by rewrite omap_app, filter_app, fmap_app. Qed.

Lemma addref_key_events v h key w : addref_key key w = add_events (key_events [(v, h, key)]) w.
Proof.
  unfold addref_key, key_events, add_events, log. destruct key as [k|].
  - change (omap snd [(v, h, Some k)]) with [k]. rewrite filter_cons.
    destruct (ZSTR_IS_INTERNED k); [rewrite decide_False by done|by rewrite decide_True by done].
    cbn. rewrite app_nil_r. by destruct w.
  - cbn. rewrite app_nil_r. by destruct w.
Qed.

Lemma key_events_static cs : Forall core_static cs -> key_events cs = [].
Proof.
  intros Hs. unfold key_events. induction Hs as [|[[v h] [k|]] cs Hc _ IH]; [done| |done].
  change (omap snd ((v, h, Some k) :: cs)) with (k :: omap snd cs).
  rewrite filter_cons, decide_False; [done|]. unfold core_static in Hc. cbn in Hc. congruence.
Qed.

Lemma building_put target k cs v h key : building target k cs -> zlen cs = k ->
  k < nTableSize target -> v <> IS_UNDEF ->
  exists q D t', rd (arData target) k = Ok q
    /\ wr (arData target) k (mkBucket v (b_next q) h key) = Ok D
    /\ ht_link (set_arData D target) k = Ok t'
    /\ building t' (k + 1) (cs ++ [(v, h, key)])
    /\ same_frame target t' /\ nTableSize t' = nTableSize target
    /\ nInternalPointer t' = nInternalPointer target.
Proof.
  intros Hm Hk Hlt Hv. destruct (mx_geom _ _ Hm) as [Hs Hmask Hd Hu]. cbn in Hs, Hmask, Hd, Hu.
  pose proof (mixed_geom _ _ Hm) as Hg. pose proof (size_ok_bounds _ Hs) as Hsz. unfold HT_MAX_SIZE in Hsz.
  destruct (zget_is_Some (arData target) k) as [q Hq]; [lia|].
  set (b := mkBucket v (b_next q) h key). set (D := zset (arData target) k b).
  assert (zget D k = Some b) as Hb by (apply zget_zset_eq; lia).
  destruct (ht_link_ok (set_arData D target) k b Hg Hb) as (x & Hx & Hlink).
  exists q, D. eexists. split; [by apply rd_ok|]. split; [by apply wr_ok; lia|]. split; [exact Hlink|].
  split; [|by split_and!]. cbn [set_arData set_alloc arHash arData] in *.
  set (H2 := zset (arHash target) _ k). set (D2 := zset D k (with_next x b)).
  assert (zget D2 k = Some (with_next x b)) as Hb2 by (apply zget_zset_eq; unfold D; rewrite zlen_zset; lia).
  assert (live b = true) as Hlb by (unfold live; cbn; by destruct v).
  split; cbn; try apply Hm.
  - split; cbn; try done; [unfold D2, D; by rewrite !zlen_zset|lia].
  - unfold H2. rewrite zlen_zset. apply Hm.
  - apply chains_link; try done; [apply (geom_pos _ Hg)|lia|unfold HT_INVALID_IDX; lia|].
    eapply chains_agree; [|apply (mx_chains _ _ Hm)]. intros i Hi. cbn in *.
    unfold D. rewrite zget_zset_ne; [done|lia..].
  - rewrite (cores_succ _ _ _ Hb2). unfold D2, D. rewrite !pre_zset_ge by lia.
    pose proof (mx_cores _ _ Hm) as Hcs. cbn in Hcs. rewrite Hcs, bcore_live by done. done.
  - unfold zlen in *. rewrite length_app. cbn. lia.
Qed.

Definition braw (b : Bucket) : core := (b_val b, b_h b, b_key b).

Lemma dup_element_ok w R source target k cs p static with_holes :
  building target k cs -> zlen cs = k -> k < nTableSize target ->
  dup_known w false R (b_val p) -> (with_holes = false -> live p = true) ->
  (static = true -> live p = true -> core_static (braw p)) ->
  exists o t', let R' := match o with Some v => bump v R | None => R end in
    dup_slot w (ht_addr source) false R (b_val p) = Ok (R', o)
    /\ zend_array_dup_element w R source target k p static with_holes
       = Ok (add_events (key_events (slot_core p o)) w, R', t', bool_decide (is_Some o))
    /\ building t' (k + zlen (slot_core p o)) (cs ++ slot_core p o)
    /\ same_frame target t' /\ nTableSize t' = nTableSize target.
Proof.
  intros Hb Hk Hlt Hkn Hlv Hst. unfold zend_array_dup_element. rewrite dup_value_slot.
  2:{ intros Hw Hu. specialize (Hlv Hw). unfold live in Hlv. by rewrite Hu in Hlv. }
  destruct (dup_slot_ok w (ht_addr source) false R _ Hkn) as (o & -> & Hd & Hn). rewrite bind_ok.
  exists o. destruct o as [v|]; cbn [slot_core].
  - destruct (building_put target k cs v (b_h p) (b_key p) Hb Hk Hlt (Hd _ eq_refl))
      as (q & D & t' & -> & Hwr & Hln & Hb' & Hf & Hs & Hi).
    exists t'. split; [done|]. rewrite bind_ok, Hwr, bind_ok, Hln, bind_ok.
    split; [|by split_and!]. do 4 f_equal. destruct static.
    + rewrite key_events_static, add_events_nil; [done|]. apply Forall_singleton, (Hst eq_refl).
      unfold live. destruct (b_val p) eqn:Ep; try done. discriminate (proj2 Hn eq_refl).
    + apply addref_key_events.
  - exists target. rewrite add_events_nil, app_nil_r. change (zlen (@nil core)) with 0. by rewrite Z.add_0_r.
Qed.

(** The buckets still to be copied. *)
Definition buckets_from (ht : HashTable) (i : Z) : list Bucket := drop (Z.to_nat i) (pre (nNumUsed ht) (arData ht)).

Lemma buckets_from_end ht : 0 <= nNumUsed ht -> buckets_from ht (nNumUsed ht) = [].
Proof. intros. unfold buckets_from, pre. apply drop_ge. rewrite length_take. lia. Qed.

Lemma buckets_from_cons ht i b l : 0 <= i -> buckets_from ht i = b :: l ->
  zget (arData ht) i = Some b /\ i < nNumUsed ht /\ buckets_from ht (i + 1) = l.
Proof.
  intros Hi Hb. unfold buckets_from, pre in *.
  assert (take (Z.to_nat (nNumUsed ht)) (arData ht) !! Z.to_nat i = Some b) as Hl.
  { rewrite <- (Nat.add_0_r (Z.to_nat i)), <- lookup_drop, Hb. done. }
  apply lookup_take_Some in Hl as [Hl Hlt]. split_and!; [|lia|].
  - unfold zget. by rewrite (proj2 (Z.leb_le _ _)) by lia.
  - rewrite Z2Nat.inj_add, <- drop_drop, Hb by lia. done.
Qed.

(** What the rest of the loop does, from index [idx] with [k] elements copied. *)
Definition copies_rest w R source target k cs (l : list Bucket)
    (m : res (world * rheap * HashTable * Z)) : Prop :=
  exists R' t' cs', dup_ref w (ht_addr source) false R (braw <$> l) = Ok (R', cs')
    /\ m = Ok (add_events (key_events cs') w, R', t', k + zlen cs')
    /\ building t' (k + zlen cs') (cs ++ cs')
    /\ same_frame target t' /\ nTableSize t' = nTableSize target.

Definition copyable w R (static with_holes : bool) (l : list Bucket) : Prop :=
  Forall (fun p => dup_known w false R (b_val p) /\ (with_holes = false -> live p = true)
                   /\ (static = true -> live p = true -> core_static (braw p))) l.

Lemma copyable_bump w R static wh l v : copyable w R static wh l ->
  copyable w (bump v R) static wh l.
Proof. intros H. eapply Forall_impl; [exact H|]. intros p (H1 & H2 & H3). split_and!; try done. by apply dup_known_bump. Qed.

Lemma dup_ref_world w w' src packed R cs : w_ind w = w_ind w' ->
  dup_ref w src packed R cs = dup_ref w' src packed R cs.
Proof.
  intros Hw. revert R. induction cs as [|c cs IH]; intros R; [done|]. cbn [dup_ref].
  assert (dup_slot w src packed R c.1.1 = dup_slot w' src packed R c.1.1) as ->
    by (unfold dup_slot, resolve; by rewrite Hw).
  destruct (dup_slot w' src packed R c.1.1) as [[R1 o]| |]; [|done..]. rewrite !bind_ok. by rewrite IH.
Qed.

Lemma copyable_world w w' R static wh l : w_ind w = w_ind w' ->
  copyable w R static wh l -> copyable w' R static wh l.
Proof.
  intros Hw H. eapply Forall_impl; [exact H|]. intros p ((o & Ho & Hk) & H2). split; [|done]. exists o. split; [|done].
  rewrite <- Ho. unfold resolve. by rewrite Hw.
Qed.

(** One element, then the rest. *)
Lemma copies_cons w R source target k cs p l o t1 m :
  let R1 := match o with Some v => bump v R | None => R end in
  dup_slot w (ht_addr source) false R (b_val p) = Ok (R1, o) ->
  same_frame target t1 -> nTableSize t1 = nTableSize target ->
  copies_rest (add_events (key_events (slot_core p o)) w) R1 source t1
    (k + zlen (slot_core p o)) (cs ++ slot_core p o) l m ->
  copies_rest w R source target k cs (p :: l) m.
Proof.
  intros R1 Ho Hf Hs (R' & t' & cs' & Hr & -> & Hb & Hf' & Hs').
  exists R', t', (slot_core p o ++ cs'). split.
  { cbn [dup_ref fmap list_fmap]. change (braw p).1.1 with (b_val p). rewrite Ho, bind_ok.
    rewrite (dup_ref_world _ (add_events (key_events (slot_core p o)) w)) by done. fold (fmap braw l).
    change (list_fmap Bucket core braw l) with (braw <$> l). rewrite Hr, bind_ok. by destruct o. }
  rewrite key_events_app, add_events_app, zlen_app, Z.add_assoc. rewrite <- app_assoc in Hb.
  split_and!; [done|done|by etransitivity|congruence].
Qed.

Lemma copies_nil w R source target k cs : building target k cs ->
  copies_rest w R source target k cs [] (Ok (w, R, target, k)).
Proof.
  intros Hb. exists R, target, []. cbn [fmap list_fmap dup_ref].
  rewrite add_events_nil, app_nil_r. change (zlen (@nil core)) with 0. by rewrite Z.add_0_r.
Qed.

Lemma building_iptr t k cs n : building t k cs -> building (set_nInternalPointer n t) k cs.
Proof. intros Hb. split; try apply Hb. split; apply (mx_geom _ _ Hb). Qed.

Lemma dup_rest_ok source static with_holes fuel : forall l idx w R target k cs,
  buckets_from source idx = l -> 0 <= idx <= nNumUsed source -> nNumUsed source <= zlen (arData source) ->
  (length l < fuel)%nat ->
  building target k cs -> zlen cs = k -> k <= idx -> nTableSize target = nTableSize source ->
  nNumUsed source <= nTableSize source -> copyable w R static with_holes l ->
  copies_rest w R source target k cs l (dup_rest fuel w R source target static with_holes idx k).
Proof.
  induction fuel as [|fuel IH]; intros l idx w R target k cs Hl Hi Hlen Hf Hb Hk Hki Hts Hsz Hc; [lia|].
  cbn [dup_rest]. destruct l as [|p l].
  - assert (idx = nNumUsed source) as ->.
    { unfold buckets_from, pre in Hl. apply (f_equal length) in Hl. rewrite length_drop, length_take in Hl.
      unfold zlen in Hlen. cbn in Hl. lia. }
    rewrite Z.eqb_refl. by apply copies_nil.
  - destruct (buckets_from_cons _ _ _ _ (proj1 Hi) Hl) as (Hp & Hlt & Hl').
    rewrite (proj2 (Z.eqb_neq _ _)), (rd_ok _ _ _ Hp), bind_ok by lia.
    apply Forall_cons in Hc as [(Hk1 & Hk2 & Hk3) Hc].
    destruct (dup_element_ok w R source target k cs p static with_holes) as (o & t1 & Ho & -> & Hb1 & Hf1 & Hs1);
      try done; [lia|]. rewrite bind_ok.
    eapply (copies_cons w R source target k cs p l o t1); try done.
    destruct o as [v|]; cbn [slot_core] in *.
    + rewrite bool_decide_true by done. change (zlen [_]) with 1 in *.
      set (t2 := if nInternalPointer source =? idx then set_nInternalPointer k t1 else t1).
      assert (building t2 (k + 1) (cs ++ [(v, b_h p, b_key p)])) as Hb2
        by (unfold t2; destruct (_ =? _); [by apply building_iptr|done]).
      assert (same_frame t1 t2 /\ nTableSize t2 = nTableSize t1) as [Hf2 Hs2] by (unfold t2; by destruct (_ =? _)).
      destruct (IH l (idx + 1) (add_events (key_events [(v, b_h p, b_key p)]) w) (bump v R) t2 (k + 1)
                  (cs ++ [(v, b_h p, b_key p)])) as (R' & t' & cs' & H1 & H2 & H3 & H4 & H5);
        try done; try lia; [cbn in Hf; lia|rewrite zlen_app; change (zlen [_]) with 1; lia|..].
      { by eapply copyable_world, copyable_bump. }
      exists R', t', cs'. split_and!; try done; [by etransitivity|congruence].
    + rewrite bool_decide_false by (by intros []). change (zlen []) with 0 in *. rewrite Z.add_0_r, app_nil_r in *.
      change (key_events []) with (@nil event) in *. rewrite add_events_nil in *.
      apply IH; try done; try lia; cbn in Hf; lia.
Qed.

Lemma dup_elements_ok source static with_holes fuel : forall l idx w R target cs,
  buckets_from source idx = l -> 0 <= idx < nNumUsed source -> nNumUsed source <= zlen (arData source) ->
  (length l < fuel)%nat ->
  building target idx cs -> zlen cs = idx -> nTableSize target = nTableSize source ->
  nNumUsed source <= nTableSize source -> copyable w R static with_holes l ->
  copies_rest w R source target idx cs l
    (zend_array_dup_elements fuel w R source target static with_holes idx).
Proof.
  induction fuel as [|fuel IH]; intros l idx w R target cs Hl Hi Hlen Hf Hb Hk Hts Hsz Hc; [lia|].
  cbn [zend_array_dup_elements]. destruct l as [|p l].
  - exfalso. unfold buckets_from, pre in Hl. apply (f_equal length) in Hl. rewrite length_drop, length_take in Hl.
    unfold zlen in Hlen. cbn in Hl. lia.
  - destruct (buckets_from_cons _ _ _ _ (proj1 Hi) Hl) as (Hp & Hlt & Hl').
    rewrite (rd_ok _ _ _ Hp), bind_ok. apply Forall_cons in Hc as [(Hk1 & Hk2 & Hk3) Hc].
    destruct (dup_element_ok w R source target idx cs p static with_holes) as (o & t1 & Ho & -> & Hb1 & Hf1 & Hs1);
      try done; [lia|]. rewrite bind_ok.
    eapply (copies_cons w R source target idx cs p l o t1); try done.
    destruct o as [v|]; cbn [slot_core] in *.
    + rewrite bool_decide_true by done. change (zlen [_]) with 1 in *. cbn [negb].
      destruct (Z.eqb_spec (idx + 1) (nNumUsed source)) as [Hend|Hne].
      * rewrite Hend, buckets_from_end in Hl' by lia. subst l. rewrite <- Hend in *. by apply copies_nil.
      * apply IH; try done; try lia; [cbn in Hf; lia|rewrite zlen_app; change (zlen [_]) with 1; lia|].
        by eapply copyable_world, copyable_bump.
    + rewrite bool_decide_false by (by intros []). cbn [negb]. change (zlen []) with 0 in *.
      rewrite Z.add_0_r, app_nil_r in *. change (key_events []) with (@nil event) in *. rewrite add_events_nil in *.
      apply dup_rest_ok; try done; try lia; cbn in Hf; lia.
Qed.
End DupLoop.

(** ** The loop over a packed array *)

Section DupPacked.
Context {E : ZendEnv} (w : world).
Implicit Types (R : rheap) (l vs : list zval).

(** The copies of the slots [l], holes kept. *)
Fixpoint dup_vals (src : Z) R l : res (rheap * list zval) :=
  match l with
  | [] => Ok (R, [])
  | v :: l =>
      '(R, o) ← dup_slot w src true R v;
      '(R, l) ← dup_vals src R l;
      Ok (R, default IS_UNDEF o :: l)
  end.

Lemma dup_vals_ok src : forall l R, Forall (dup_known w true R) l ->
  exists R' vs, dup_vals src R l = Ok (R', vs)
    /\ Forall2 (fun v v' => v' = IS_UNDEF <-> v = IS_UNDEF) l vs
    /\ forall k, dup_ref w src true R (pcores_from k l) = Ok (R', pcores_from k vs).
Proof.
  induction l as [|v l IH]; intros R Hk; [by exists R, []|]. apply Forall_cons in Hk as [Hv Hl].
  destruct (dup_slot_ok w src true R v Hv) as (o & Ho & Hd & Hn).
  set (R1 := match o with Some v' => bump v' R | None => R end) in *.
  destruct (IH R1) as (R' & vs & E1 & H2 & H3).
  { unfold R1. destruct o; [|done]. eapply Forall_impl; [exact Hl|]. intros. by apply dup_known_bump. }
  exists R', (default IS_UNDEF o :: vs). cbn [dup_vals]. rewrite Ho, bind_ok, E1, bind_ok. split; [done|].
  assert (resolve true w v = Ok None <-> v = IS_UNDEF) as Hr by (by destruct v).
  split.
  - constructor; [|done]. rewrite <- Hr, <- Hn. destruct o as [v'|]; [|done]. cbn.
    specialize (Hd _ eq_refl). naive_solver.
  - intros k. rewrite !pcores_from_cons. destruct (is_undef v) eqn:Ev.
    + assert (o = None) as -> by (apply Hn, Hr; by destruct v). apply H3.
    + destruct o as [v'|]; [|by destruct v; naive_solver]. change (default IS_UNDEF (Some v')) with v'.
      assert (is_undef v' = false) as -> by (specialize (Hd _ eq_refl); by destruct v').
      cbn [app dup_ref fst snd]. rewrite Ho, bind_ok. fold R1. by rewrite H3, bind_ok.
Qed.

Definition zvals_from (ht : HashTable) (i : Z) : list zval := drop (Z.to_nat i) (pre (nNumUsed ht) (arPacked ht)).

Lemma zvals_from_cons ht i : 0 <= i < nNumUsed ht -> nNumUsed ht <= zlen (arPacked ht) ->
  exists v, zget (arPacked ht) i = Some v /\ zvals_from ht i = v :: zvals_from ht (i + 1).
Proof.
  intros Hi Hlen. destruct (zget_is_Some (arPacked ht) i) as [v Hv]; [lia|]. exists v. split; [done|].
  unfold zvals_from. rewrite Z2Nat.inj_add by lia. change (Z.to_nat 1) with 1%nat. rewrite Nat.add_1_r.
  apply drop_S. unfold pre. unfold zget in Hv. rewrite (proj2 (Z.leb_le _ _)) in Hv by lia.
  rewrite lookup_take_lt; [done|lia].
Qed.

Lemma dup_packed_ok source with_holes fuel : forall i R target,
  0 <= i < nNumUsed source -> nNumUsed source <= zlen (arPacked source) ->
  nNumUsed source <= zlen (arPacked target) -> (Z.to_nat (nNumUsed source - i) <= fuel)%nat ->
  Forall (dup_known w true R) (zvals_from source i) ->
  (with_holes = false -> Forall (fun v => v <> IS_UNDEF) (zvals_from source i)) ->
  exists R' vs P, dup_vals (ht_addr source) R (zvals_from source i) = Ok (R', vs)
    /\ zend_array_dup_packed_elements fuel w R source target with_holes i = Ok (R', set_arPacked P target)
    /\ zlen P = zlen (arPacked target) /\ pre (nNumUsed source) P = pre i (arPacked target) ++ vs.
Proof.
  induction fuel as [|fuel IH]; intros i R target Hi Hs Ht Hf Hk Hh; [lia|].
  destruct (zvals_from_cons source i Hi Hs) as (v & Hv & Hl). rewrite Hl in *.
  apply Forall_cons in Hk as [Hkv Hk]. cbn [zend_array_dup_packed_elements dup_vals].
  rewrite (rd_ok _ _ _ Hv), bind_ok, dup_value_slot.
  2:{ intros Hw. specialize (Hh Hw). by apply Forall_cons in Hh as [? _]. }
  destruct (dup_slot_ok w (ht_addr source) true R v Hkv) as (o & -> & Hd & Hn). rewrite !bind_ok.
  set (R1 := match o with Some v' => bump v' R | None => R end).
  set (P1 := zset (arPacked target) i (default IS_UNDEF o)).
  assert (match o with
          | Some v' => P ← wr (arPacked target) i v'; Ok (set_arPacked P target)
          | None => if with_holes then P ← wr (arPacked target) i IS_UNDEF; Ok (set_arPacked P target) else Ok target
          end = Ok (set_arPacked P1 target)) as ->.
  { destruct o as [v'|]; [by rewrite wr_ok by lia|]. destruct with_holes; [by rewrite wr_ok by lia|].
    specialize (Hh eq_refl). apply Forall_cons in Hh as [Hu _]. destruct Hn as [Hn _]. specialize (Hn eq_refl).
    by destruct v. }
  rewrite bind_ok. assert (zlen P1 = zlen (arPacked target)) as HlP by apply zlen_zset.
  assert (pre (i + 1) P1 = pre i (arPacked target) ++ [default IS_UNDEF o]) as Hpre.
  { rewrite (pre_succ _ _ (default IS_UNDEF o)) by (apply zget_zset_eq; lia). unfold P1. by rewrite pre_zset_ge by lia. }
  destruct (Z.eqb_spec (i + 1) (nNumUsed source)) as [Hend|Hne].
  - assert (zvals_from source (i + 1) = []) as ->.
    { unfold zvals_from, pre. apply drop_ge. rewrite length_take. lia. }
    exists R1, [default IS_UNDEF o], P1. split_and!; try done. by rewrite <- Hend.
  - destruct (IH (i + 1) R1 (set_arPacked P1 target)) as (R' & vs & P & E1 & E2 & HP & Hp); try lia.
    + cbn. by rewrite HlP.
    + unfold R1. destruct o; [|done]. eapply Forall_impl; [exact Hk|]. intros. by apply dup_known_bump.
    + intros Hw. specialize (Hh Hw). by apply Forall_cons in Hh as [_ ?].
    + exists R', (default IS_UNDEF o :: vs), P. rewrite E1, bind_ok, E2. split_and!; try done.
      * cbn in HP. by rewrite HP.
      * cbn in Hp. rewrite Hp, Hpre, <- app_assoc. done.
Qed.
End DupPacked.

(** ** The duplicate *)

Section DupMain.
Context {E : ZendEnv}.
Implicit Types (R : rheap) (cs : list core).

(** ** The keys of the copy *)

Definition hk (c : core) : Z * option Z := (c.1.2, c.2).

Lemma dup_ref_ok w src packed : forall cs R, Forall (fun c => dup_known w packed R c.1.1) cs ->
  exists R' cs', dup_ref w src packed R cs = Ok (R', cs') /\ sublist (hk <$> cs') (hk <$> cs)
    /\ R' = foldl (fun R v => bump v R) R cs'.*1.*1
    /\ Forall (fun c => c.1.1 <> IS_UNDEF) cs'.
Proof.
  induction cs as [|c cs IH]; intros R Hk; [by exists R, []|]. apply Forall_cons in Hk as [Hc Hk].
  cbn [dup_ref]. destruct (dup_slot_ok w src packed R _ Hc) as (o & -> & Hd & _). rewrite bind_ok.
  destruct (IH (match o with Some v => bump v R | None => R end)) as (R' & cs' & -> & Hs & -> & Hu).
  { destruct o; [|done]. eapply Forall_impl; [exact Hk|]. intros. by apply dup_known_bump. }
  rewrite bind_ok. eexists _, _. split; [done|]. destruct o as [v|]; cbn.
  - split_and!; [by apply sublist_skip|done|constructor; [by apply Hd|done]].
  - split_and!; [by apply sublist_cons|done|done].
Qed.

Lemma ckey_hk c c' : hk c = hk c' -> ckey c = ckey c'.
Proof. unfold hk, ckey. intros Hc. by injection Hc as -> ->. Qed.

Lemma okeys_hk cs : okeys (centry <$> cs) = (fun x => match x.2 with None => KInt x.1 | Some k => KStr (ZSTR_VAL k) end) <$> (hk <$> cs).
Proof. unfold okeys. rewrite <- !list_fmap_compose. by apply list_fmap_ext. Qed.

Lemma sublist_fmap {A B} (f : A -> B) l1 l2 : sublist l1 l2 -> sublist (f <$> l1) (f <$> l2).
Proof. induction 1; cbn; by constructor. Qed.

Lemma elem_of_hk c cs cs' : sublist (hk <$> cs') (hk <$> cs) -> c ∈ cs' -> exists c0, c0 ∈ cs /\ hk c0 = hk c.
Proof.
  intros Hs Hc. assert (hk c ∈ hk <$> cs) as (c0 & ? & ?)%list_elem_of_fmap.
  { eapply elem_of_sublist; [|exact Hs]. by apply list_elem_of_fmap_2. }
  by exists c0.
Qed.

(** What the invariant says about the elements is about their keys. *)
Record cores_ok (nfree : Z) (static : bool) cs : Prop := {
  co_nodup : NoDup (okeys (centry <$> cs));
  co_wf : Forall core_wf cs;
  co_static : static = true -> Forall core_static cs;
  co_free : free_ok nfree cs;
}.

Lemma cores_ok_sub nfree static cs cs' : sublist (hk <$> cs') (hk <$> cs) ->
  cores_ok nfree static cs -> cores_ok nfree static cs'.
Proof.
  intros Hs [Hn Hw Hst [Hr Hf]]. split.
  - rewrite okeys_hk in *. eapply sublist_NoDup; [exact Hn|]. by apply sublist_fmap.
  - apply Forall_forall. intros c Hc. destruct (elem_of_hk _ _ _ Hs Hc) as (c0 & H0 & Heq).
    rewrite Forall_forall in Hw. specialize (Hw _ H0). unfold core_wf in *. unfold hk in Heq. injection Heq as E1 E2.
    by rewrite <- E1, <- E2.
  - intros Ht. specialize (Hst Ht). apply Forall_forall. intros c Hc.
    destruct (elem_of_hk _ _ _ Hs Hc) as (c0 & H0 & Heq).
    rewrite Forall_forall in Hst. specialize (Hst _ H0). unfold core_static in *. unfold hk in Heq.
    injection Heq as _ E2. by rewrite <- E2.
  - split; [done|]. intros h v Hc. destruct (elem_of_hk _ _ _ Hs Hc) as ([[v0 h0] k0] & H0 & Heq).
    injection Heq as -> ->. by eapply Hf.
Qed.

Lemma inv_cores_ok ht : ht_inv ht -> cores_ok (nNextFreeElement ht) (f_static ht) (ht_cores ht).
Proof. intros H. split; apply H. Qed.

(** ** The three cases *)

Definition dup_pre w R source : Prop :=
  Forall (fun c => dup_known w (f_packed source) R c.1.1) (ht_cores source)
  /\ (ht_immutable source = true ->
      Forall (fun c => Z_OPT_REFCOUNTED c.1.1 = false /\ (forall a, c.1.1 <> IS_INDIRECT a) /\ core_static c)
        (ht_cores source)).

Definition dup_post addr w R source (m : res (world * rheap * HashTable)) : Prop :=
  exists R' target, m = Ok (add_events (key_events (ht_cores target)) w, R', target)
    /\ ht_inv target
    /\ dup_ref w (ht_addr source) (f_packed source) R (ht_cores source) = Ok (R', ht_cores target)
    /\ nNextFreeElement target = nNextFreeElement source
    /\ nIteratorsCount target = 0 /\ ht_addr target = addr.

Lemma dup_ref_cores w src packed D : forall R,
  dup_ref w src packed R (braw <$> D) = dup_ref w src packed R (cores D).
Proof.
  induction D as [|b D IH]; intros R; [done|]. rewrite fmap_cons, cores_cons.
  unfold bcore, live. destruct (is_undef (b_val b)) eqn:Eb; cbn [negb app dup_ref].
  - assert (dup_slot w src packed R (braw b).1.1 = Ok (R, None)) as -> by (cbn; by destruct (b_val b)).
    rewrite bind_ok, IH. by destruct (dup_ref w src packed R (cores D)) as [[]| |].
  - change (braw b) with (b_val b, b_h b, b_key b). cbn [fst snd].
    destruct (dup_slot w src packed R (b_val b)) as [[R1 o]| |]; [|done..]. rewrite !bind_ok. by rewrite IH.
Qed.

Lemma ht_inv_intro t : cores_ok (nNextFreeElement t) (f_static t) (ht_cores t) ->
  size_ok (nTableSize t) -> 0 <= nNumUsed t <= nTableSize t -> nNumOfElements t = zlen (ht_cores t) -> layout t ->
  ht_inv t.
Proof. intros [] Hs Hu Hn Hl. by split. Qed.

Lemma dup_empty addr w R source : ht_inv source -> nNumOfElements source = 0 ->
  dup_post addr w R source (zend_array_dup addr w R source).
Proof.
  intros Hinv Hn. unfold zend_array_dup. rewrite (proj2 (Z.eqb_eq _ _) Hn).
  assert (ht_cores source = []) as Hcs.
  { pose proof (inv_count _ Hinv) as Hc. rewrite Hn in Hc. destruct (ht_cores source); [done|].
    rewrite zlen_cons in Hc. pose proof (zlen_nonneg l). lia. }
  match goal with |- dup_post _ _ _ _ (Ok (_, _, ?t)) => set (target := t) end.
  exists R, target. change (ht_cores target) with (@nil core). rewrite Hcs, add_events_nil. split_and!; try done.
  apply ht_inv_intro; cbn; try done.
  - assert (cores_ok (nNextFreeElement source) false ([] : list core)) as Hok; [|exact Hok].
    split; [constructor|constructor|done|]. split; [apply (inv_free _ Hinv)|]. intros h v Hc.
    by apply not_elem_of_nil in Hc.
  - exists 3. split; [lia|done].
  - by apply LUninit.
Qed.

Lemma immutable_ref w src packed R : forall cs,
  Forall (fun c => c.1.1 <> IS_UNDEF) cs ->
  Forall (fun c => Z_OPT_REFCOUNTED c.1.1 = false /\ (forall a, c.1.1 <> IS_INDIRECT a) /\ core_static c) cs ->
  dup_ref w src packed R cs = Ok (R, cs).
Proof.
  induction cs as [|[[v h] k] cs IH]; intros Hu Hi; [done|].
  apply Forall_cons in Hu as [Hu1 Hu], Hi as [(Hr & Ha & _) Hi]. cbn [dup_ref fst snd] in *.
  assert (dup_slot w src packed R v = Ok (R, Some v)) as ->.
  { unfold dup_slot, resolve, copy_counted. destruct v; cbn in *; try done; [by destruct (Ha p)|by rewrite Hr]. }
  by rewrite bind_ok, IH.
Qed.

Lemma cores_all_live D : Forall (fun c => c.1.1 <> IS_UNDEF) (cores D).
Proof.
  induction D as [|b D IH]; [constructor|]. rewrite cores_cons.
  unfold bcore, live. destruct (b_val b) eqn:Eb; cbn; try done; by constructor.
Qed.

Lemma pcores_live P : Forall (fun c => c.1.1 <> IS_UNDEF) (pcores P).
Proof. rewrite (pcores_cores _ 0). apply cores_all_live. Qed.

Lemma ht_cores_live ht : Forall (fun c => c.1.1 <> IS_UNDEF) (ht_cores ht).
Proof. unfold ht_cores. destruct (f_packed ht); [apply pcores_live|apply cores_all_live]. Qed.

Lemma dup_immutable addr w R source : ht_inv source -> nNumOfElements source <> 0 -> dup_pre w R source ->
  ht_immutable source = true -> dup_post addr w R source (zend_array_dup addr w R source).
Proof.
  intros Hinv Hn [_ Hpre] Him. unfold zend_array_dup. rewrite (proj2 (Z.eqb_neq _ _) Hn), Him.
  specialize (Hpre Him). pose proof (inv_cores_ok _ Hinv) as Hok. pose proof (inv_used _ Hinv) as Hu.
  pose proof (size_ok_bounds _ (inv_size _ Hinv)) as Hsz.
  pose proof (immutable_ref w (ht_addr source) (f_packed source) R _ (ht_cores_live source) Hpre) as Href.
  assert (key_events (ht_cores source) = []) as Hke
    by (apply key_events_static; eapply Forall_impl; [exact Hpre|]; by intros c (_ & _ & ?)).
  destruct (inv_layout _ Hinv) as [Hun Hp Hm Hh Hz|Hun Hp Hm Hh Hl [He Hlast]|Hmx].
  - exfalso. rewrite (inv_count _ Hinv) in Hn. unfold ht_cores in Hn. by rewrite Hp, Hz in Hn.
  - rewrite Hp in *. match goal with |- dup_post _ _ _ _ (Ok (_, _, ?t)) => set (target := t) end.
    assert (ht_cores target = ht_cores source) as Hcs.
    { unfold ht_cores. cbn. rewrite Hp. f_equal. apply pre_copy_used. lia. }
    exists R, target. rewrite Hcs, Hke, add_events_nil, Hp. split_and!; try done.
    apply ht_inv_intro; rewrite ?Hcs; try apply Hinv; [exact Hok|].
    apply LPacked; try done; cbn.
    + rewrite zlen_copy_used; rewrite ?zlen_alloc_packed by lia; lia.
    + split; [done|]. destruct Hlast as [?|(v & Hv & Hv')]; [by left|right]. exists v. split; [|done]. cbn.
      rewrite <- Hv. unfold copy_used. apply zget_Some_range in Hv.
      rewrite zget_app_l by (change (take (Z.to_nat (nNumUsed source)) (arPacked source)) with (pre (nNumUsed source) (arPacked source)); rewrite zlen_pre; lia).
      apply zget_pre. lia.
  - pose proof (mx_packed _ _ Hmx) as Hp. destruct (mx_geom _ _ Hmx) as [Hs Hmk Hd _]. rewrite Hp in *.
    match goal with |- dup_post _ _ _ _ (Ok (_, _, ?t)) => set (target := t) end.
    assert (pre (nNumUsed source) (arData target) = pre (nNumUsed source) (arData source)) as Hpc
      by (apply pre_copy_used; lia).
    assert (ht_cores target = ht_cores source) as Hcs.
    { unfold ht_cores. rewrite Hp. change (f_packed target) with false. f_equal. exact Hpc. }
    exists R, target. rewrite Hcs, Hke, add_events_nil, Hp. split_and!; try done.
    apply ht_inv_intro; rewrite ?Hcs; try apply Hinv; [exact Hok|].
    apply LMixed. rewrite Hcs. split; try apply Hmx; try done.
    + split; cbn; try done. rewrite zlen_copy_used; rewrite ?zlen_alloc_buckets by lia; lia.
    + cbn. eapply chains_agree; [|apply (mx_chains _ _ Hmx)]. intros i Hi.
      unfold copy_used. rewrite zget_app_l by (change (take (Z.to_nat (nNumUsed source)) (arData source)) with (pre (nNumUsed source) (arData source)); rewrite zlen_pre; lia).
      symmetry. apply zget_pre. lia.
Qed.

Lemma pcores_from_length l : forall k, (length (pcores_from k l) <= length l)%nat.
Proof.
  induction l as [|v l IH]; intros k; [done|]. rewrite pcores_from_cons, length_app. specialize (IH (S k)).
  unfold core in *. destruct (is_undef v); cbn [length]; lia.
Qed.

Lemma pcores_from_full l : forall k, length (pcores_from k l) = length l -> Forall (fun v => v <> IS_UNDEF) l.
Proof.
  induction l as [|v l IH]; intros k Hk; [constructor|]. rewrite pcores_from_cons, length_app in Hk.
  pose proof (pcores_from_length l (S k)) as Hle.
  unfold core in *. destruct (is_undef v) eqn:Ev; cbn [length] in Hk; [lia|]. constructor; [by intros ->|]. apply (IH (S k)). lia.
Qed.

(** Copying keeps the holes where they are. *)
Lemma pcores_from_same l vs k : Forall2 (fun v v' => v' = IS_UNDEF <-> v = IS_UNDEF) l vs ->
  length (pcores_from k l) = length (pcores_from k vs).
Proof.
  intros Hf. revert k. induction Hf as [|v v' l vs Hv _ IH]; intros k; [done|].
  rewrite !pcores_from_cons, !length_app. specialize (IH (S k)). unfold core in *. rewrite IH. f_equal.
  destruct v, v'; naive_solver.
Qed.

Lemma dup_packed addr w R source : ht_inv source -> nNumOfElements source <> 0 -> dup_pre w R source ->
  ht_immutable source = false -> f_packed source = true ->
  dup_post addr w R source (zend_array_dup addr w R source).
Proof.
  intros Hinv Hn [Hpre _] Him Hp. unfold zend_array_dup. rewrite (proj2 (Z.eqb_neq _ _) Hn), Him, Hp.
  pose proof (inv_cores_ok _ Hinv) as Hok. pose proof (inv_used _ Hinv) as Hu.
  pose proof (size_ok_bounds _ (inv_size _ Hinv)) as Hsz. pose proof (inv_count _ Hinv) as Hc.
  destruct (inv_layout _ Hinv) as [Hun Hp' Hm Hh Hz|Hun _ Hm Hh Hl [He Hlast]|Hmx]; [congruence| |].
  2:{ by rewrite (mx_packed _ _ Hmx) in Hp. }
  assert (0 < nNumUsed source) as Hpos.
  { destruct (decide (nNumUsed source = 0)) as [Hz|]; [|lia]. rewrite Hc in Hn. unfold ht_cores in Hn.
    by rewrite Hp, Hz in Hn. }
  cbn zeta. match goal with |- context [zend_array_dup_packed_elements _ _ _ _ ?t _ _] => set (target := t) end.
  set (wh := negb (HT_IS_WITHOUT_HOLES target)).
  assert (ht_cores source = pcores_from 0 (zvals_from source 0)) as Hcs by (unfold ht_cores; by rewrite Hp).
  assert (Forall (dup_known w true R) (zvals_from source 0)) as Hk.
  { apply Forall_forall. intros v Hv. destruct (decide (v = IS_UNDEF)) as [->|Hvu]; [by exists None|].
    rewrite Forall_forall, Hp in Hpre. apply list_elem_of_lookup in Hv as [i Hi].
    apply (Hpre (v, Z.of_nat i, None)). rewrite Hcs. unfold pcores_from. apply list_elem_of_omap.
    exists (Some (v, Z.of_nat i, None)). split; [|done]. apply list_elem_of_lookup. exists i.
    rewrite list_lookup_imap, Hi. cbn. unfold pcore_at. by destruct v. }
  destruct (dup_packed_ok w source wh (S (Z.to_nat (nNumUsed source))) 0 R target)
    as (R' & vs & P & E1 & E2 & HP & Hpr); try done; try lia.
  { cbn. rewrite zlen_alloc_packed; lia. }
  { intros Hw. apply negb_false_iff, Z.eqb_eq in Hw. cbn in Hw. apply (pcores_from_full _ 0).
    assert (length (zvals_from source 0) = Z.to_nat (nNumUsed source)) as ->.
    { unfold zvals_from, pre. change (Z.to_nat 0) with 0%nat. rewrite drop_0, length_take. unfold zlen in Hl. lia. }
    rewrite Hw, Hc, Hcs. unfold zlen. lia. }
  rewrite E2, bind_ok. destruct (dup_vals_ok w (ht_addr source) _ R Hk) as (R2 & vs2 & E3 & Hf2 & Href).
  rewrite E1 in E3. injection E3 as <- <-. rewrite app_nil_l in Hpr.
  set (t' := set_arPacked P target).
  assert (ht_cores t' = pcores_from 0 vs) as Hct by (unfold ht_cores; cbn; unfold pre in Hpr; by rewrite Hpr).
  destruct (dup_ref_ok w (ht_addr source) true (ht_cores source) R) as (R3 & cs3 & E3 & Hsub & _ & _).
  { by rewrite Hp in Hpre. }
  rewrite Hcs, Href in E3. injection E3 as <- E3.
  assert (cores_ok (nNextFreeElement source) true (pcores_from 0 vs)) as Hok'.
  { rewrite E3. eapply cores_ok_sub; [rewrite Hcs in Hsub; exact Hsub|]. destruct Hok as [Ho1 Ho2 Ho3 Ho4].
    rewrite Hcs in *. split; try done. intros _. apply Forall_forall. intros [[v h] k] Hin.
    assert (k = None) as ->; [|done]. unfold pcores_from in Hin. apply list_elem_of_omap in Hin as (o & Hin & Ho).
    apply elem_of_lookup_imap in Hin as (i & x & -> & _). unfold id, pcore_at in Ho. destruct (is_undef x); by simplify_eq/=. }
  exists R', t'. rewrite Hct, Hcs, Hp, Href. rewrite key_events_static, add_events_nil by (by apply Hok').
  split_and!; try done.
  apply ht_inv_intro; rewrite ?Hct; try apply Hinv; [| |].
  - destruct Hok' as [Ho1 Ho2 Ho3 Ho4]. split; try done. intros _. by apply Ho3.
  - cbn. rewrite Hc, Hcs. unfold zlen. f_equal. by apply pcores_from_same.
  - apply LPacked; try done; [change (zlen P = nTableSize source); rewrite HP; apply zlen_alloc_packed; lia|]. split; [done|].
    destruct Hlast as [?|(v & Hv & Hv')]; [by left|right].
    assert (vs !! Z.to_nat (nNumUsed source - 1) = zget P (nNumUsed source - 1)) as Hvs.
    { rewrite <- Hpr. unfold pre, zget. rewrite (proj2 (Z.leb_le _ _)), lookup_take_lt by lia. done. }
    destruct (Forall2_lookup_l _ _ _ (Z.to_nat (nNumUsed source - 1)) v Hf2) as (v' & Hv1 & Hiff).
    { unfold zvals_from, pre. change (Z.to_nat 0) with 0%nat. rewrite drop_0, lookup_take_lt by lia.
      unfold zget in Hv. by rewrite (proj2 (Z.leb_le _ _)) in Hv by lia. }
    exists v'. split; [cbn; congruence|]. naive_solver.
Qed.

Lemma dup_mixed addr w R source : ht_inv source -> nNumOfElements source <> 0 -> dup_pre w R source ->
  ht_immutable source = false -> f_packed source = false ->
  dup_post addr w R source (zend_array_dup addr w R source).
Proof.
  intros Hinv Hn [Hpre _] Him Hp. unfold zend_array_dup. rewrite (proj2 (Z.eqb_neq _ _) Hn), Him, Hp. cbn zeta.
  pose proof (inv_cores_ok _ Hinv) as Hok. pose proof (inv_used _ Hinv) as Hu.
  pose proof (size_ok_bounds _ (inv_size _ Hinv)) as Hsz. pose proof (inv_count _ Hinv) as Hc.
  destruct (inv_layout _ Hinv) as [Hun _ Hm Hh Hz|Hun Hp' Hm Hh Hl [He Hlast]|Hmx]; [|congruence|].
  { exfalso. rewrite Hc in Hn. unfold ht_cores in Hn. by rewrite Hp, Hz in Hn. }
  destruct (mx_geom _ _ Hmx) as [Hs Hmk Hd _].
  assert (0 < nNumUsed source) as Hpos.
  { destruct (decide (nNumUsed source = 0)) as [Hz|]; [|lia]. rewrite Hc in Hn. unfold ht_cores in Hn.
    by rewrite Hp, Hz in Hn. }
  match goal with |- context [zend_array_dup_elements _ _ _ _ ?t _ _ _] => set (target := t) end.
  set (static := HT_HAS_STATIC_KEYS_ONLY target). set (wh := negb (HT_IS_WITHOUT_HOLES source)).
  assert (buckets_from source 0 = pre (nNumUsed source) (arData source)) as Hbf by done.
  assert (ht_cores source = cores (pre (nNumUsed source) (arData source))) as Hcs by (unfold ht_cores; by rewrite Hp).
  assert (length (pre (nNumUsed source) (arData source)) = Z.to_nat (nNumUsed source)) as Hlen
    by (unfold pre; rewrite length_take; unfold zlen in Hd; lia).
  destruct (dup_elements_ok source static wh (S (Z.to_nat (nNumUsed source)))
              (pre (nNumUsed source) (arData source)) 0 w R target [])
    as (R' & t' & cs' & Href & -> & Hb & Hf & Hts); try done; try lia.
  { split; cbn; try done.
    - split; cbn; try done; [rewrite zlen_alloc_buckets; lia|lia].
    - apply (mx_uninit _ _ Hmx).
    - rewrite zlen_replicate, Hmk, mask_words by done. lia.
    - apply chains_empty. }
  { apply Forall_forall. intros p Hin. apply list_elem_of_lookup in Hin as [i Hi].
    assert (live p = true -> braw p ∈ ht_cores source) as Hlv.
    { intros Hl. rewrite Hcs. unfold cores. apply list_elem_of_omap. exists p.
      split; [by eapply list_elem_of_lookup_2|]. by apply bcore_live. }
    split_and!.
    - destruct (live p) eqn:El.
      + rewrite Forall_forall, Hp in Hpre. apply (Hpre _ (Hlv eq_refl)).
      + exists None. split; [|done]. unfold live in El. by destruct (b_val p).
    - intros Hw. apply negb_false_iff, Z.eqb_eq in Hw.
      apply (cores_full (arData source) (nNumUsed source) (Z.of_nat i)).
      + rewrite <- Hcs, <- Hc, zlen_pre by lia. lia.
      + apply lookup_lt_Some in Hi. lia.
      + unfold pre in Hi. apply lookup_take_Some in Hi as [Hi _]. unfold zget.
        by rewrite (proj2 (Z.leb_le _ _)), Nat2Z.id by lia.
    - intros Hst Hl. destruct Hok as [_ _ Ho3 _]. specialize (Ho3 Hst). rewrite Forall_forall in Ho3. by apply Ho3, Hlv. }
  rewrite bind_ok, app_nil_l, Z.add_0_l in *. rewrite dup_ref_cores, <- Hcs in Href.
  destruct (dup_ref_ok w (ht_addr source) false (ht_cores source) R) as (R3 & cs3 & E3 & Hsub & _ & _).
  { by rewrite Hp in Hpre. }
  rewrite Href in E3. injection E3 as <- <-.
  set (t2 := set_nNumOfElements (zlen cs') (set_nNumUsed (zlen cs') t')).
  assert (mixed t2 cs') as Hm2 by exact Hb.
  assert (ht_cores t2 = cs') as Hct.
  { unfold ht_cores. rewrite (mx_packed _ _ Hm2). apply (mx_cores _ _ Hm2). }
  destruct Hf as (F1 & F2 & _ & F4 & F5 & _).
  exists R', t2. rewrite Hct, Hp. split_and!; try done.
  apply ht_inv_intro; rewrite ?Hct.
  - eapply cores_ok_sub; [exact Hsub|]. change (nNextFreeElement t2) with (nNextFreeElement t').
    change (f_static t2) with (f_static t'). rewrite F5, F2. exact Hok.
  - apply (mg_size _ (mx_geom _ _ Hm2)).
  - apply (mg_used _ (mx_geom _ _ Hm2)).
  - done.
  - apply LMixed. by rewrite Hct.
Qed.

Lemma zend_array_dup_ok addr w R source : ht_inv source -> dup_pre w R source ->
  dup_post addr w R source (zend_array_dup addr w R source).
Proof.
  intros Hinv Hpre. destruct (decide (nNumOfElements source = 0)); [by apply dup_empty|].
  destruct (ht_immutable source) eqn:Ei; [by apply dup_immutable|].
  destruct (f_packed source) eqn:Ep; [by apply dup_packed|by apply dup_mixed].
Qed.
End DupMain.
