(* ===== verification/HashConvMain.v ===== *)
(** * Conversions of tables: lists, symbol tables, property tables

    What one element becomes, then the loops over the table. *)

From S2P Require Import Prelude.
From S2P Require Import ZendString.
From S2P Require Import OrderedMap.
From S2P Require Import HashTypes.
From S2P Require Import HashOps.
From S2P Require Import HashChain.
From S2P Require Import HashRehash.
From S2P Require Import HashInv.
From S2P Require Import HashLayout.
From S2P Require Import HashInsert.
From S2P Require Import HashIndex.
From S2P Require Import HashInit.
From S2P Require Import HashApplyOps.
From S2P Require Import HashCopy.
From S2P Require Import NumericKey.
From S2P Require Import HashDupOps.
From S2P Require Import HashDupMain.

(** ** Copies of entries *)

Fixpoint copy_ref {K} (R : rheap) (l : list (K * zval)) : res (rheap * list (K * zval)) :=
  match l with
  | [] => Ok (R, [])
  | e :: l =>
      '(R, v) ← copy_counted (fun _ => false) R e.2;
      '(R, l) ← copy_ref R l;
      Ok (R, (e.1, v) :: l)
  end.

Definition entry_known {K} (R : rheap) (e : K * zval) : Prop := known R e.2 /\ e.2 <> IS_UNDEF.

Lemma copy_ref_ok {K} : forall (l : list (K * zval)) R, Forall (entry_known R) l ->
  exists R' l', copy_ref R l = Ok (R', l') /\ l'.*1 = l.*1
    /\ R' = foldl (fun R v => bump v R) R l'.*2 /\ Forall (fun e => e.2 <> IS_UNDEF) l'.
Proof.
  induction l as [|[k v] l IH]; intros R Hk; [by exists R, []|]. apply Forall_cons in Hk as [[Hk Hu] Hl].
  destruct (copy_counted_ok (fun _ => false) R v Hk Hu) as (v' & E1 & Hv' & _).
  destruct (IH (bump v' R)) as (R' & l' & E2 & H1 & H2 & H3).
  { eapply Forall_impl; [exact Hl|]. intros e [? ?]. split; [by apply known_bump|done]. }
  exists R', ((k, v') :: l'). cbn [copy_ref snd fst]. rewrite E1, bind_ok, E2, bind_ok.
  split_and!; [done|cbn; congruence|done|by constructor].
Qed.

(** Values that are not counted are copied as they are. *)
Lemma copy_ref_plain {K} R (l : list (K * zval)) :
  Forall (fun e => Z_OPT_REFCOUNTED e.2 = false) l -> copy_ref R l = Ok (R, l).
Proof.
  induction 1 as [|[k v] l Hv _ IH]; [done|]. cbn [copy_ref snd fst] in *. unfold copy_counted. rewrite Hv, bind_ok, IH.
  done.
Qed.

(** ** The keys *)

Definition prop_key (k : hkey) : hkey :=
  match k with KInt h => KStr (zend_print_long_to_buf (i64 h)) | KStr _ => k end.
Definition sym_key (k : hkey) : hkey :=
  match k with
  | KStr s => match _zend_handle_numeric_str s with Some h => KInt h | None => k end
  | KInt _ => k
  end.

Lemma u64_i64 h : u64 (i64 h) = u64 h.
Proof.
  unfold u64, i64, sint. change (2 ^ (64 - 1)) with (2 ^ 63). pose proof (Z.mod_pos_bound h (2 ^ 64) ltac:(lia)).
  zcase; [by rewrite Zmod_mod|].
  rewrite <- Zminus_mod_idemp_r, Z_mod_same_full, Z.sub_0_r by lia. by rewrite Zmod_mod.
Qed.

Section Conv.
Context {E : ZendEnv}.

(** ** The conversion loop in general *)

Section ConvLoop.
Context (ins : world -> HashTable -> core -> zval -> res (world * HashTable * option zptr)) (f : core -> hkey)
  (packed : bool).

Fixpoint conv_loop (w : world) (R : rheap) (t : HashTable) (l : list core) : res (world * rheap * HashTable) :=
  match l with
  | [] => Ok (w, R, t)
  | c :: l =>
      o ← resolve packed w c.1.1;
      match o with
      | None => conv_loop w R t l
      | Some v =>
          '(R, v) ← copy_counted (fun _ => false) R v;
          '(w, t, _) ← ins w t c v;
          conv_loop w R t l
      end
  end.

Definition conv_entry (w : world) (c : core) : option (hkey * zval) :=
  match resolve packed w c.1.1 with Ok (Some v) => Some (f c, v) | _ => None end.

Class ConvInserter : Prop := {
  ci_ok : forall w ht c v, ht_inv ht -> roomy_keys (ht_elements ht) -> core_wf c ->
    roomy_key (f c) -> v <> IS_UNDEF ->
    runs (ins w ht c v)
      (fun '(w', ht', _) => ht_inv ht' /\ ht_elements ht' = oinsert (f c) v (ht_elements ht) /\ w_ind w' = w_ind w)
      (nTableSize ht = HT_MAX_SIZE);
}.

Definition conv_fit (w : world) (R : rheap) (c : core) : Prop :=
  exists o, resolve packed w c.1.1 = Ok o
    /\ forall v, o = Some v -> known R v /\ v <> IS_UNDEF /\ core_wf c /\ roomy_key (f c).

Definition insert_all (els l : list (hkey * zval)) : list (hkey * zval) :=
  foldl (fun els e => oinsert e.1 e.2 els) els l.

(** Some prefix of the work leaves a table of the maximal size. *)
Definition hits_limit (w : world) (R : rheap) (t : HashTable) (l : list core) : Prop :=
  exists n w1 R1 t1, conv_loop w R t (take n l) = Ok (w1, R1, t1) /\ nTableSize t1 = HT_MAX_SIZE.

Lemma conv_entry_world w w' (l : list core) : w_ind w' = w_ind w -> omap (conv_entry w') l = omap (conv_entry w) l.
Proof.
  intros Hw. induction l as [|c l IH]; [done|]. cbn. rewrite IH. unfold conv_entry at 1 2. by rewrite (resolve_world packed w w').
Qed.

Lemma conv_loop_ok (CI : ConvInserter) : forall l w R t, ht_inv t -> roomy_keys (ht_elements t) ->
  Forall (conv_fit w R) l ->
  runs (conv_loop w R t l)
    (fun '(w', R', t') => ht_inv t' /\ w_ind w' = w_ind w
       /\ exists l', copy_ref R (omap (conv_entry w) l) = Ok (R', l')
          /\ ht_elements t' = insert_all (ht_elements t) l')
    (hits_limit w R t l).
Proof.
  induction l as [|c l IH]; intros w R t Hinv Hr Hf; [cbn; by eauto|].
  apply Forall_cons in Hf as [(o & Ho & Hs) Hf]. cbn [conv_loop omap list_omap].
  assert (conv_entry w c = (fun v => (f c, v)) <$> o) as -> by (unfold conv_entry; rewrite Ho; by destruct o).
  rewrite Ho, bind_ok. destruct o as [v|]; cbn [fmap option_fmap option_map].
  - destruct (Hs v eq_refl) as (Hk & Hu & Hwf & Hrk).
    destruct (copy_counted_ok (fun _ => false) R v Hk Hu) as (v' & E1 & Hv' & _). rewrite E1, bind_ok.
    pose proof (ci_ok w t c v' Hinv Hr Hwf Hrk Hv') as Hins.
    destruct (ins w t c v') as [[[w1 t1] r]| |] eqn:Ei; [|by exists 0%nat, w, R, t|done].
    destruct Hins as (Hi1 & He1 & Hw1). rewrite bind_ok.
    eapply runs_weaken; [apply (IH w1 (bump v' R) t1 Hi1)| |].
    + rewrite He1. by apply roomy_keys_oinsert.
    + eapply Forall_impl; [exact Hf|]. intros c' (o' & Ho' & Hs'). exists o'.
      split; [by rewrite (resolve_world packed w)|]. intros u Hou. destruct (Hs' u Hou) as (? & ? & ?).
      split; [by apply known_bump|done].
    + intros [[w2 R2] t2] (Hi2 & Hw2 & l2 & Hc2 & He2). split_and!; [done|congruence|].
      exists ((f c, v') :: l2). cbn [copy_ref fst snd]. rewrite E1, bind_ok.
      rewrite (conv_entry_world w w1) in Hc2 by done. rewrite Hc2, bind_ok. split; [done|].
      rewrite He2, He1. done.
    + intros (n & w2 & R2 & t2 & Hn & Hsz). exists (S n), w2, R2, t2. cbn [take conv_loop].
      rewrite Ho, bind_ok, E1, bind_ok, Ei, bind_ok. done.
  - eapply runs_weaken; [by apply IH|done|]. intros (n & w2 & R2 & t2 & Hn & Hsz). exists (S n), w2, R2, t2.
    cbn [take conv_loop]. by rewrite Ho, bind_ok.
Qed.
End ConvLoop.

(** The dead slots do not matter. *)
Lemma omap_raw_slots {B} (g : core -> option B) ht : (forall c, is_undef c.1.1 = true -> g c = None) ->
  omap g (raw_slots ht) = omap g (ht_cores ht).
Proof.
  intros Hg. rewrite raw_slots_cores. induction (raw_slots ht) as [|c l IH]; [done|].
  cbn [omap list_omap]. rewrite filter_cons. destruct (is_undef c.1.1) eqn:Ec.
  - rewrite decide_False, (Hg c Ec) by done. exact IH.
  - rewrite decide_True by done. cbn [omap list_omap]. by rewrite IH.
Qed.

Lemma Forall_raw_slots (P : core -> Prop) ht : (forall c, is_undef c.1.1 = true -> P c) ->
  Forall P (ht_cores ht) -> Forall P (raw_slots ht).
Proof.
  intros Hd Hl. rewrite Forall_forall in *. intros c Hc. destruct (is_undef c.1.1) eqn:Ec; [by apply Hd|].
  apply Hl. rewrite raw_slots_cores. by apply list_elem_of_filter.
Qed.

Lemma conv_fit_dead f packed w R c : is_undef c.1.1 = true -> conv_fit f packed w R c.
Proof. intros Hu. exists None. split; [by destruct c as [[[] ?] ?]|done]. Qed.

(** ** The two loops *)

Context {CS : CharStrings}.

Lemma print_digit num : 0 <= num <= 9 -> zend_print_long_to_buf num = [48 + num].
Proof.
  intros Hn. assert (num = 0 \/ num = 1 \/ num = 2 \/ num = 3 \/ num = 4 \/ num = 5 \/ num = 6 \/ num = 7
    \/ num = 8 \/ num = 9) as Hc by lia. by repeat destruct Hc as [->|Hc]; subst.
Qed.

Lemma zend_long_to_str_val num : ZEND_LONG_MIN <= num <= ZEND_LONG_MAX ->
  ZSTR_VAL (zend_long_to_str num) = zend_print_long_to_buf num.
Proof.
  unfold ZEND_LONG_MIN, ZEND_LONG_MAX. intros Hn. unfold zend_long_to_str.
  destruct (Z.leb_spec (u64 num) 9) as [Hs|Hs]; [|apply zend_string_init_val].
  assert (0 <= num <= 9 /\ u64 num = num) as [Hd ->].
  { unfold u64 in *. destruct (decide (0 <= num)).
    - rewrite Z.mod_small in * by lia. lia.
    - exfalso. rewrite <- (Z.mod_add num 1), Z.mod_small in Hs by lia. lia. }
  rewrite ZSTR_CHAR_val, print_digit by lia. done.
Qed.

Definition prop_ins (w : world) (t : HashTable) (c : core) (v : zval) : res (world * HashTable * option zptr) :=
  match c.2 with
  | Some key => zend_hash_update w t key v
  | None => let key := zend_long_to_str (i64 c.1.2) in zend_hash_update (delref_key key w) t key v
  end.

Definition sym_ins (w : world) (t : HashTable) (c : core) (v : zval) : res (world * HashTable * option zptr) :=
  match c.2 with
  | None => zend_hash_index_update w t c.1.2 v
  | Some key =>
      match _zend_handle_numeric_str (ZSTR_VAL key) with
      | Some h => zend_hash_index_update w t h v
      | None => zend_hash_update w t key v
      end
  end.

Lemma to_proptable_conv l : forall w R t, to_proptable_loop w R t l = conv_loop prop_ins true w R t l.
Proof.
  induction l as [|c l IH]; intros w R t; [done|]. cbn [to_proptable_loop conv_loop].
  assert (resolve true w c.1.1 = Ok (if is_undef c.1.1 then None else Some c.1.1)) as -> by (by destruct c as [[[] ?] ?]).
  rewrite bind_ok. destruct (is_undef c.1.1); [apply IH|]. unfold prop_ins.
  destruct (copy_counted (fun _ => false) R c.1.1) as [[R' v]| |]; [|by destruct (c.2)..].
  rewrite bind_ok. destruct (c.2) as [key|].
  - rewrite bind_ok. destruct (zend_hash_update w t key v) as [[[w' t'] r]| |]; [|done..]. rewrite !bind_ok. apply IH.
  - cbn zeta. rewrite bind_ok. destruct (zend_hash_update _ t _ v) as [[[w' t'] r]| |]; [|done..]. rewrite !bind_ok. apply IH.
Qed.

Lemma to_symtable_conv l : forall w R t, to_symtable_loop w R t l = conv_loop sym_ins false w R t l.
Proof.
  induction l as [|c l IH]; intros w R t; [done|]. cbn [to_symtable_loop conv_loop].
  destruct (resolve false w c.1.1) as [[v|]| |]; [|apply IH|done..]. rewrite !bind_ok.
  destruct (copy_counted (fun _ => false) R v) as [[R' v']| |]; [|done..]. rewrite !bind_ok. fold (sym_ins w t c v').
  destruct (sym_ins w t c v') as [[[w' t'] r]| |]; [|done..]. rewrite !bind_ok. apply IH.
Qed.

Lemma update_conv w ht key v k w1 : ht_inv ht -> v <> IS_UNDEF -> k = KStr (ZSTR_VAL key) -> w_ind w1 = w_ind w ->
  runs (zend_hash_update w1 ht key v)
    (fun '(w', ht', _) => ht_inv ht' /\ ht_elements ht' = oinsert k v (ht_elements ht) /\ w_ind w' = w_ind w)
    (nTableSize ht = HT_MAX_SIZE).
Proof.
  intros Hi Hv -> Hw. eapply runs_weaken; [by apply update_ok| |by intros [? _]].
  intros [[w' ht'] r] [(H1 & H2 & _ & H4) _]. split_and!; [done..|congruence].
Qed.

Lemma index_update_conv w ht h v : ht_inv ht -> roomy_keys (ht_elements ht) -> v <> IS_UNDEF -> 0 <= h < 2 ^ 64 ->
  runs (zend_hash_index_update w ht h v)
    (fun '(w', ht', _) => ht_inv ht' /\ ht_elements ht' = oinsert (KInt h) v (ht_elements ht) /\ w_ind w' = w_ind w)
    (nTableSize ht = HT_MAX_SIZE).
Proof.
  intros Hi Hr Hv Hh. eapply runs_weaken; [apply (index_update_ok w ht h v Hi Hh Hv)| |done].
  - by apply roomy_keys_room.
  - intros [[w' ht'] r] [(H1 & H2 & _ & H4) _]. by split_and!.
Qed.

#[export] Instance prop_inserter : ConvInserter prop_ins (fun c => prop_key (ckey c)).
Proof.
  split. intros w ht [[v0 h] [key|]] v Hi Hr Hwf Hk Hv; unfold prop_ins; cbn [fst snd].
  - by apply update_conv.
  - apply update_conv; try done.
    + unfold prop_key, ckey. cbn. by rewrite zend_long_to_str_val by apply i64_range.
    + unfold delref_key. by destruct (ZSTR_IS_INTERNED _).
Qed.

Lemma numeric_loop_range fuel key : forall tmp idx h, 0 <= idx < 2 ^ 64 -> numeric_loop fuel key tmp idx = Some h ->
  0 <= h < 2 ^ 64.
Proof.
  induction fuel as [|fuel IH]; intros tmp idx h Hi Hn; [done|]. cbn [numeric_loop] in Hn.
  repeat match type of Hn with context [if ?b then _ else _] => destruct b end; simplify_eq; try done.
  - apply u64_range.
  - eapply IH, Hn. apply u64_range.
Qed.

Lemma numeric_str_range key h : _zend_handle_numeric_str key = Some h -> 0 <= h < 2 ^ 64.
Proof.
  unfold _zend_handle_numeric_str, _zend_handle_numeric_str_ex. intros Hn.
  repeat match type of Hn with context [if ?b then _ else _] => destruct b end; simplify_eq;
    try (eapply numeric_loop_range, Hn; apply u64_range).
Qed.

#[export] Instance sym_inserter : ConvInserter sym_ins (fun c => sym_key (ckey c)).
Proof.
  split. intros w ht [[v0 h] [key|]] v Hi Hr Hwf Hk Hv; unfold sym_ins; cbn [fst snd].
  - unfold sym_key, ckey in *. cbn in *. destruct (_zend_handle_numeric_str (ZSTR_VAL key)) as [n|] eqn:En.
    + apply index_update_conv; try done. by eapply numeric_str_range.
    + by apply update_conv.
  - by apply index_update_conv.
Qed.
End Conv.

(** ** zend_array_to_list *)

Section ToList.
Context {E : ZendEnv}.

Lemma sole_ref_copy R v : (forall r, v = IS_REFERENCE r -> is_Some (R !! r)) ->
  (entry ← sole_ref R v; R ← Z_TRY_ADDREF R entry; Ok (R, entry)) = copy_counted (fun _ => false) R v.
Proof.
  intros Hr. unfold copy_counted, sole_ref, Z_TRY_ADDREF. destruct v; try done.
  - destruct (Hr r eq_refl) as [c ->]. cbn [Z_OPT_REFCOUNTED negb]. rewrite bind_ok, andb_true_r.
    destruct (rc_count c =? 1); [|done]. by destruct (Z_OPT_REFCOUNTED (rc_val c)).
  - rewrite bind_ok. by destruct (Z_OPT_REFCOUNTED (ZVal t p)).
Qed.

Notation live_core := (fun c : core => is_undef c.1.1 = false).

Lemma fill_loop_ok : forall (l : list core) R P k,
  Forall (fun c => c.1.1 <> IS_UNDEF -> known R c.1.1) l -> 0 <= k ->
  k + zlen (filter live_core l) <= zlen P ->
  exists R' l' P', fill_loop R P k l = Ok (R', P', k + zlen l')
    /\ copy_ref R (centry <$> filter live_core l) = Ok (R', l')
    /\ zlen P' = zlen P /\ pre (k + zlen l') P' = pre k P ++ l'.*2.
Proof.
  induction l as [|c l IH]; intros R P k Hf Hk Hroom.
  { exists R, [], P. change (zlen (@nil (hkey * zval))) with 0. rewrite Z.add_0_r. cbn. by rewrite app_nil_r. }
  apply Forall_cons in Hf as [Hc Hf]. cbn [fill_loop]. rewrite filter_cons in *.
  destruct (is_undef c.1.1) eqn:Eu.
  { rewrite decide_False in * by done. by apply IH. }
  rewrite decide_True in * by done. rewrite zlen_cons in Hroom. rewrite fmap_cons.
  assert (c.1.1 <> IS_UNDEF) as Hu by (intros Hu; by rewrite Hu in Eu). specialize (Hc Hu).
  destruct (copy_counted_ok (fun _ => false) R c.1.1 Hc Hu) as (v' & E1 & Hv' & _).
  rewrite <- sole_ref_copy in E1.
  2:{ intros r Hr. destruct Hc as [Hc _]. rewrite Hr in Hc. by apply Hc. }
  destruct (sole_ref R c.1.1) as [entry| |] eqn:Es; [|done..]. rewrite bind_ok in E1. rewrite bind_ok.
  destruct (Z_TRY_ADDREF R entry) as [R1| |] eqn:Et; [|done..]. rewrite bind_ok in E1. rewrite bind_ok. injection E1 as -> ->.
  pose proof (zlen_nonneg (filter live_core l)). rewrite wr_ok, bind_ok by lia.
  destruct (IH (bump v' R) (zset P k v') (k + 1)) as (R' & l' & P' & E2 & E3 & H3 & H4); [|lia|rewrite zlen_zset; lia|].
  { eapply Forall_impl; [exact Hf|]. intros c' Hc' Hu'. by apply known_bump, Hc'. }
  exists R', ((ckey c, v') :: l'), P'. cbn [copy_ref centry fst snd].
  rewrite <- sole_ref_copy, Es, bind_ok, Et, !bind_ok by (intros r Hr; destruct Hc as [Hc _]; rewrite Hr in Hc; by apply Hc).
  rewrite E3, bind_ok, E2, zlen_cons. rewrite zlen_zset in H3.
  replace (k + (zlen l' + 1)) with (k + 1 + zlen l') by lia. split_and!; try done.
  rewrite H4, (pre_succ _ _ v') by (apply zget_zset_eq; lia). rewrite pre_zset_ge, <- app_assoc by lia. done.
Qed.
End ToList.

(** ** Whole tables *)

Section ConvMain.
Context {E : ZendEnv}.

(** ** zend_array_to_list *)

Lemma zend_array_to_list_ok addr R source : ht_inv source ->
  Forall (entry_known R) (ht_elements source) ->
  runs (zend_array_to_list addr R source)
    (fun '(R', t) => ht_inv t /\ exists l, copy_ref R (ht_elements source) = Ok (R', l)
       /\ ht_elements t = imap (fun i e => (KInt (Z.of_nat i), e.2)) l
       /\ nNextFreeElement t = zlen (ht_elements source))
    (HT_MAX_SIZE <= nNumOfElements source).
Proof.
  intros Hinv Hk. unfold zend_array_to_list, _zend_new_array, _zend_hash_init_int.
  pose proof (check_size_ok (nNumOfElements source)) as Hcs.
  destruct (zend_hash_check_size (nNumOfElements source)) as [size| |]; [|exact Hcs|exact Hcs].
  destruct Hcs as (Hs & Hle & _). rewrite !bind_ok. cbn [zend_hash_real_init_packed zend_hash_real_init_packed_ex].
  match goal with |- context [assert_ (f_packed ?t)] => set (t1 := t) end.
  change (f_packed t1) with true. cbn [assert_]. rewrite bind_ok. change (nNumUsed t1) with 0.
  pose proof (size_ok_bounds _ Hs) as Hb. rewrite (inv_count _ Hinv) in Hle.
  assert (zlen (arPacked t1) = size) as HlP by (cbn; rewrite zlen_alloc_packed; lia).
  destruct (fill_loop_ok (raw_slots source) R (arPacked t1) 0) as (R' & l & P & -> & Hcr & HP & Hpre).
  { apply Forall_raw_slots; [intros c Hc Hu; by rewrite Hu in Hc || destruct (c.1.1)|].
    unfold ht_elements in Hk. rewrite Forall_fmap in Hk. eapply Forall_impl; [exact Hk|]. by intros c [? _]. }
  { lia. }
  { rewrite <- raw_slots_cores, HlP. lia. }
  rewrite bind_ok, Z.add_0_l in *. rewrite <- raw_slots_cores in Hcr. fold (ht_elements source) in Hcr.
  destruct (copy_ref_ok _ _ Hk) as (R2 & l2 & E2 & Hkeys & _ & Hdef). rewrite Hcr in E2. injection E2 as <- <-.
  assert (zlen l = zlen (ht_cores source)) as Hll.
  { apply (f_equal length) in Hkeys. rewrite !length_fmap in Hkeys. unfold zlen. rewrite Hkeys.
    unfold ht_elements. by rewrite length_fmap. }
  set (t := set_counts _ _ _ _ _ _).
  assert (pcores (pre (zlen l) P) = imap (fun i e => (e.2, Z.of_nat i, None)) l) as Hpc.
  { rewrite Hpre. change (pre 0 (arPacked t1)) with (@nil zval). rewrite app_nil_l, pcores_from_0, pcores_from_live.
    - by rewrite imap_fmap.
    - rewrite Forall_fmap. exact Hdef. }
  assert (ht_inv t) as Hinv'.
  { apply packed_inv; try done; cbn.
    - by rewrite HP, HlP.
    - pose proof (zlen_nonneg l). lia.
    - split; [cbn; lia|]. destruct (decide (zlen l = 0)) as [Hz|Hnz]; [by left|right]. cbn.
      destruct (zget_is_Some P (zlen l - 1)) as [v Hv]; [pose proof (zlen_nonneg l); lia|]. exists v. split; [done|].
      assert (v ∈ pre (zlen l) P) as Hin.
      { apply list_elem_of_lookup. exists (Z.to_nat (zlen l - 1)). unfold pre. pose proof (zlen_nonneg l).
        rewrite lookup_take_lt by lia. unfold zget in Hv. by rewrite (proj2 (Z.leb_le _ _)) in Hv by lia. }
      rewrite Hpre in Hin. change (pre 0 (arPacked t1)) with (@nil zval) in Hin. rewrite app_nil_l in Hin.
      apply list_elem_of_fmap in Hin as (e & -> & He). rewrite Forall_forall in Hdef. by apply Hdef.
    - pose proof (zlen_nonneg l). unfold ZEND_LONG_MIN, ZEND_LONG_MAX, HT_MAX_SIZE in *. lia.
    - rewrite Hpc. unfold zlen. by rewrite length_imap. }
  split; [done|]. exists l. split_and!; [done| |].
  - unfold ht_elements, ht_cores. change (f_packed t) with true. cbn [t nNumUsed arPacked].
    change (take (Z.to_nat (nNumUsed t)) (arPacked t)) with (pre (zlen l) P). rewrite Hpc, fmap_imap. done.
  - cbn. rewrite Hll. unfold zlen, ht_elements. by rewrite length_fmap.
Qed.

(** ** Symbol tables and property tables *)

Context {CS : CharStrings}.

(** The new table would need more than the maximal size, at once or on the way. *)
Definition limit_reached ins packed addr w R ht : Prop :=
  HT_MAX_SIZE <= nNumOfElements ht
  \/ exists new_ht, _zend_new_array addr (nNumOfElements ht) = Ok new_ht
       /\ hits_limit ins packed w R new_ht (raw_slots ht).

Lemma insert_all_fresh : forall (l els : list (hkey * zval)), NoDup (okeys (els ++ l)) -> insert_all els l = els ++ l.
Proof.
  induction l as [|[k v] l IH]; intros els Hn; cbn; [by rewrite app_nil_r|].
  assert (k ∉ okeys els) as Hk.
  { rewrite okeys_app in Hn. apply NoDup_app in Hn as (_ & Hd & _). intros Hin. apply (Hd k Hin). by left. }
  rewrite oinsert_fresh by done. fold (insert_all (els ++ [(k, v)]) l). rewrite IH; rewrite <- app_assoc; [done|exact Hn].
Qed.

Lemma convert_ok ins f packed (CI : ConvInserter ins f) addr w R ht :
  Forall (conv_fit f packed w R) (raw_slots ht) ->
  runs (new_ht ← _zend_new_array addr (nNumOfElements ht); conv_loop ins packed w R new_ht (raw_slots ht))
    (fun '(w', R', t) => ht_inv t /\ w_ind w' = w_ind w
       /\ exists l, copy_ref R (omap (conv_entry f packed w) (ht_cores ht)) = Ok (R', l)
            /\ ht_elements t = insert_all [] l)
    (limit_reached ins packed addr w R ht).
Proof.
  intros Hf. pose proof (init_inv addr (nNumOfElements ht) true) as Hi.
  unfold _zend_new_array, limit_reached, _zend_new_array in *.
  destruct (_zend_hash_init_int addr (nNumOfElements ht) true) as [t| |]; [|by left|done].
  destruct Hi as (Hi & He & _). rewrite bind_ok.
  eapply runs_weaken; [by apply (conv_loop_ok ins f packed CI (raw_slots ht) w R t); [|rewrite He; constructor|]| |].
  - intros [[w' R'] t'] (H1 & H2 & l & H3 & H4). rewrite omap_raw_slots in H3; [|by intros [[[] ?] ?]].
    rewrite He in H4. by split_and!; eauto.
  - intros Hl. right. by exists t.
Qed.

(** The shape both conversions share. *)
Lemma some_table (N : res HashTable) (m1 m2 : HashTable -> res (world * rheap * HashTable)) :
  (forall t, m1 t = m2 t) ->
  (new_ht ← N; '(w, R, new_ht) ← m1 new_ht; Ok (w, R, Some new_ht))
  = ('(w, R, new_ht) ← (new_ht ← N; m2 new_ht); Ok (w, R, Some new_ht)).
Proof. intros Hm. destruct N; [|done..]. cbn. by rewrite Hm. Qed.

(** *** To a property table *)

Lemma prop_entries w ht : omap (conv_entry (fun c => prop_key (ckey c)) true w) (ht_cores ht)
  = (fun e => (prop_key e.1, e.2)) <$> ht_elements ht.
Proof.
  unfold ht_elements. pose proof (ht_cores_live ht) as Hl. induction (ht_cores ht) as [|c cs IH]; [done|].
  apply Forall_cons in Hl as [Hc Hl]. cbn [omap list_omap]. rewrite !fmap_cons, <- (IH Hl).
  unfold conv_entry at 1. destruct c as [[[] h] k]; done.
Qed.

Lemma prop_fit w R ht : ht_inv ht -> Forall (entry_known R) (ht_elements ht) ->
  Forall (conv_fit (fun c => prop_key (ckey c)) true w R) (raw_slots ht).
Proof.
  intros Hinv Hk. apply Forall_raw_slots; [intros; by apply conv_fit_dead|].
  unfold ht_elements in Hk. rewrite Forall_fmap in Hk. pose proof (inv_wf _ Hinv) as Hwf.
  rewrite Forall_forall in *. intros c Hc. destruct (Hk c Hc) as [Hkn Hu]. cbn in Hkn, Hu.
  exists (Some c.1.1). split; [by destruct c as [[[] ?] ?]|]. intros v Hv. injection Hv as <-. split_and!; auto.
  by destruct c as [[v h] [k|]].
Qed.

Definition all_strings (ht : HashTable) : Prop := Forall (fun k => exists s, k = KStr s) (okeys (ht_elements ht)).

Lemma needs_strings ht : f_packed ht = false ->
  existsb (fun c => negb (is_undef c.1.1) && bool_decide (c.2 = None)) (raw_slots ht) = false -> all_strings ht.
Proof.
  intros Hp Hex. unfold all_strings, okeys, ht_elements. rewrite !Forall_fmap. apply Forall_forall. intros c Hc.
  rewrite raw_slots_cores in Hc. apply list_elem_of_filter in Hc as [Hl Hc].
  destruct c as [[v h] [k|]]; [by eexists|]. exfalso. apply not_true_iff_false in Hex. apply Hex.
  apply existsb_exists. exists (v, h, None). split; [by apply list_elem_of_In|]. cbn in *. by rewrite Hl.
Qed.

Lemma zend_symtable_to_proptable_ok addr w R ht : ht_inv ht -> Forall (entry_known R) (ht_elements ht) ->
  (ht_immutable ht = false -> is_Some (R !! ht_addr ht)) ->
  runs (zend_symtable_to_proptable addr w R ht)
    (fun '(w', R', o) => w_ind w' = w_ind w /\
       match o with
       | None => all_strings ht /\ (forall a, is_Some (R !! a) -> is_Some (R' !! a))
       | Some t => ht_inv t
           /\ exists l, copy_ref R ((fun e => (prop_key e.1, e.2)) <$> ht_elements ht) = Ok (R', l)
                /\ ht_elements t = insert_all [] l
       end)
    (limit_reached prop_ins true addr w R ht).
Proof.
  intros Hinv Hk Ht. unfold zend_symtable_to_proptable.
  destruct (f_packed ht || _) eqn:Ec.
  - pose proof (convert_ok prop_ins _ true prop_inserter addr w R ht (prop_fit w R ht Hinv Hk)) as Hcv.
    rewrite prop_entries in Hcv. rewrite (some_table _ _ _ (fun t => to_proptable_conv (raw_slots ht) w R t)).
    eapply runs_bind; [exact Hcv|]. intros [[w' R'] t'] (H1 & H2 & H3). by split_and!.
  - apply orb_false_iff in Ec as [Hp Hex]. unfold addref_table. destruct (ht_immutable ht); cbn.
    + split; [done|]. split; [by apply needs_strings|done].
    + specialize (Ht eq_refl). unfold Z_ADDREF. cbn [Z_COUNTED]. destruct Ht as [c Hc]. rewrite Hc. cbn.
      split; [done|]. split; [by apply needs_strings|]. intros a Ha.
      destruct (decide (a = ht_addr ht)) as [->|]; [by rewrite lookup_insert_eq|by rewrite lookup_insert_ne].
Qed.

(** *** And back *)

(** Values that no conversion looks into. *)
Definition plain (v : zval) : Prop :=
  Z_OPT_REFCOUNTED v = false /\ (forall a, v <> IS_INDIRECT a) /\ v <> IS_UNDEF.

Lemma plain_known R v : plain v -> known R v.
Proof. intros (Hr & _). split; [congruence|]. by intros r c ->. Qed.

(** The keys of a symbol table: no string among them is a decimal integer. *)
Definition symtable_key (k : hkey) : Prop := roomy_key k /\ sym_key k = k.

Lemma sym_prop_key k : (forall h, k = KInt h -> 0 <= h < 2 ^ 64) -> sym_key k = k -> sym_key (prop_key k) = k.
Proof.
  intros Hh Hk. destruct k as [h|s]; [|exact Hk]. cbn. rewrite numeric_of_printed by apply i64_range.
  rewrite u64_i64, u64_small; [done|]. by apply Hh.
Qed.

Lemma keys_wf ht : ht_inv ht -> Forall (fun k => forall h, k = KInt h -> 0 <= h < 2 ^ 64) (okeys (ht_elements ht)).
Proof.
  intros Hinv. unfold okeys, ht_elements. rewrite !Forall_fmap. eapply Forall_impl; [apply (inv_wf _ Hinv)|].
  intros [[v h] [k|]] Hc h' Hk; cbn in *; [done|]. by injection Hk as ->.
Qed.

Lemma prop_keys_back ht : ht_inv ht -> Forall symtable_key (okeys (ht_elements ht)) ->
  sym_key <$> (prop_key <$> okeys (ht_elements ht)) = okeys (ht_elements ht).
Proof.
  intros Hinv Hs. pose proof (keys_wf ht Hinv) as Hw. induction (okeys (ht_elements ht)) as [|k l IH]; [done|].
  apply Forall_cons in Hs as [[_ Hk] Hs], Hw as [Hw1 Hw]. rewrite !fmap_cons, IH by done.
  by rewrite sym_prop_key.
Qed.

Lemma sym_entries w (t : HashTable) : Forall (fun e => plain e.2) (ht_elements t) ->
  omap (conv_entry (fun c => sym_key (ckey c)) false w) (ht_cores t) = (fun e => (sym_key e.1, e.2)) <$> ht_elements t.
Proof.
  unfold ht_elements. rewrite Forall_fmap. intros Hp. induction (ht_cores t) as [|c cs IH]; [done|].
  apply Forall_cons in Hp as [(Hr & Ha & Hu) Hp]. cbn [omap list_omap]. rewrite !fmap_cons, <- (IH Hp).
  unfold conv_entry at 1. destruct c as [[[] h] k]; cbn in *; try done. by destruct (Ha p).
Qed.

Lemma sym_fit w R t : ht_inv t -> Forall (fun e => plain e.2) (ht_elements t) ->
  Forall (fun k => roomy_key (sym_key k)) (okeys (ht_elements t)) ->
  Forall (conv_fit (fun c => sym_key (ckey c)) false w R) (raw_slots t).
Proof.
  intros Hinv Hp Hk. apply Forall_raw_slots; [intros; by apply conv_fit_dead|].
  unfold okeys, ht_elements in *. rewrite !Forall_fmap in *. pose proof (inv_wf _ Hinv) as Hwf.
  rewrite Forall_forall in *. intros c Hc. specialize (Hp c Hc). specialize (Hk c Hc). cbn in Hp, Hk.
  exists (Some c.1.1). split.
  - destruct Hp as (_ & Ha & Hu). destruct c as [[[] ?] ?]; try done. by destruct (Ha p).
  - intros v Hv. injection Hv as <-. split_and!; auto; [by apply plain_known|apply Hp].
Qed.

Definition to_prop_and_back addr1 addr2 w R ht : res (world * rheap * option HashTable) :=
  '(w, R, o) ← zend_symtable_to_proptable addr1 w R ht;
  match o with
  | Some t => zend_proptable_to_symtable addr2 w R t false
  | None => zend_proptable_to_symtable addr2 w R ht false
  end.

Lemma plain_entries_known R els : Forall (fun e : hkey * zval => plain e.2) els -> Forall (entry_known R) els.
Proof. intros Hp. eapply Forall_impl; [exact Hp|]. intros e He. split; [by apply plain_known|apply He]. Qed.

Lemma plain_entries_copy {K} R (l : list (K * zval)) : Forall (fun e => plain e.2) l -> copy_ref R l = Ok (R, l).
Proof. intros Hp. apply copy_ref_plain. eapply Forall_impl; [exact Hp|]. by intros e (? & _). Qed.

Lemma okeys_map (f : hkey -> hkey) (l : list (hkey * zval)) : okeys ((fun e => (f e.1, e.2)) <$> l) = f <$> okeys l.
Proof. unfold okeys. rewrite <- !list_fmap_compose. done. Qed.

Lemma round_trip_ok addr1 addr2 w R ht : ht_inv ht -> Forall symtable_key (okeys (ht_elements ht)) ->
  Forall (fun e => plain e.2) (ht_elements ht) -> (exists h, KInt h ∈ okeys (ht_elements ht)) ->
  (ht_immutable ht = false -> is_Some (R !! ht_addr ht)) ->
  runs (to_prop_and_back addr1 addr2 w R ht)
    (fun '(w', R', o) => R' = R /\ exists t, o = Some t /\ ht_inv t /\ ht_elements t = ht_elements ht)
    (limit_reached prop_ins true addr1 w R ht
     \/ exists w1 t, zend_symtable_to_proptable addr1 w R ht = Ok (w1, R, Some t)
          /\ limit_reached sym_ins false addr2 w1 R t).
Proof.
  intros Hinv Hs Hp [h0 Hh0] Ht. unfold to_prop_and_back.
  pose proof (zend_symtable_to_proptable_ok addr1 w R ht Hinv (plain_entries_known R _ Hp) Ht) as H1.
  destruct (zend_symtable_to_proptable addr1 w R ht) as [[[w1 R1] [t|]]| |]; [| |by left|done]; cbn in H1.
  2:{ destruct H1 as (_ & Hall & _). unfold all_strings in Hall. rewrite Forall_forall in Hall.
      by destruct (Hall _ Hh0). }
  destruct H1 as (_ & Hit & l & Hcr & He). rewrite plain_entries_copy in Hcr.
  2:{ rewrite Forall_fmap. exact Hp. }
  injection Hcr as <- <-. pose proof (prop_keys_back ht Hinv Hs) as Hback.
  rewrite insert_all_fresh in He.
  2:{ rewrite app_nil_l, okeys_map. apply (NoDup_fmap_1 sym_key). rewrite Hback. apply (inv_nodup _ Hinv). }
  rewrite app_nil_l in He. rewrite bind_ok.
  assert (Forall (fun e => plain e.2) (ht_elements t)) as Hpt by (rewrite He, Forall_fmap; exact Hp).
  assert (KStr (zend_print_long_to_buf (i64 h0)) ∈ okeys (ht_elements t)) as Hin.
  { rewrite He, okeys_map. by apply (list_elem_of_fmap_2 prop_key _ (KInt h0)). }
  unfold zend_proptable_to_symtable.
  assert (negb (f_packed t) && existsb numeric_key (raw_slots t) = true) as ->.
  { apply andb_true_iff. split.
    - destruct (f_packed t) eqn:Ep; [|done]. by apply (packed_no_str _ (zend_print_long_to_buf (i64 h0))) in Ep.
    - apply existsb_exists. unfold okeys, ht_elements in Hin. rewrite <- list_fmap_compose in Hin.
      apply list_elem_of_fmap in Hin as (c & Hk & Hc). exists c. rewrite raw_slots_cores in Hc.
      apply list_elem_of_filter in Hc as [Hl Hc]. split; [by apply list_elem_of_In|].
      unfold numeric_key. rewrite Hl. destruct c as [[v h] [k|]]; [|done]. cbn in *. injection Hk as <-.
      by rewrite numeric_of_printed by apply i64_range. }
  rewrite (some_table _ _ _ (fun t' => to_symtable_conv (raw_slots t) w1 R t')).
  eapply runs_bind.
  { eapply runs_weaken; [apply (convert_ok sym_ins _ false sym_inserter addr2 w1 R t)| |].
    - apply sym_fit; try done. rewrite He, okeys_map. rewrite <- Hback in Hs. rewrite Forall_fmap in Hs.
      eapply Forall_impl; [exact Hs|]. by intros k [? _].
    - intros x Hx. exact Hx.
    - intros Hlim. right. by exists w1, t. }
  intros [[w2 R2] t2] (Hi2 & _ & l2 & Hc2 & He2). rewrite sym_entries in Hc2 by done.
  assert ((fun e => (sym_key e.1, e.2)) <$> ht_elements t = ht_elements ht) as Heq.
  { rewrite He, <- list_fmap_compose. rewrite <- (list_fmap_id (ht_elements ht)) at 2.
    apply list_fmap_ext. intros i [k v] Hkv. cbn. f_equal. unfold okeys in Hback.
    rewrite <- !list_fmap_compose in Hback. apply (f_equal (fun l => l !! i)) in Hback.
    rewrite !list_lookup_fmap, Hkv in Hback. cbn in Hback. by injection Hback as ->. }
  rewrite Heq, plain_entries_copy in Hc2 by done. injection Hc2 as <- <-.
  rewrite insert_all_fresh, app_nil_l in He2 by (rewrite app_nil_l; apply (inv_nodup _ Hinv)).
  cbn. split; [done|]. by exists t2.
Qed.

(** Two more references to the table itself. *)
Definition twice_held (R : rheap) (ht : HashTable) : rheap :=
  if ht_immutable ht then R
  else alter (fun c => mkCounted (u32 (u32 (rc_count c + 1) + 1)) (rc_val c)) (ht_addr ht) R.

Lemma addref_twice R ht : (ht_immutable ht = false -> is_Some (R !! ht_addr ht)) ->
  exists R1, addref_table R ht = Ok R1 /\ addref_table R1 ht = Ok (twice_held R ht).
Proof.
  unfold addref_table, twice_held. intros Ht. destruct (ht_immutable ht); [by exists R|]. destruct (Ht eq_refl) as [c Hc].
  unfold Z_ADDREF. cbn [Z_COUNTED]. rewrite Hc. eexists. split; [done|]. rewrite lookup_insert_eq. f_equal.
  apply map_eq. intros a. destruct (decide (a = ht_addr ht)) as [->|Hne].
  - by rewrite lookup_insert_eq, lookup_alter_eq, Hc.
  - by rewrite !lookup_insert_ne, lookup_alter_ne by done.
Qed.

Lemma no_numeric_keys ht : Forall symtable_key (okeys (ht_elements ht)) -> existsb numeric_key (raw_slots ht) = false.
Proof.
  intros Hs. apply not_true_iff_false. intros (c & Hc%list_elem_of_In & Hn)%existsb_exists.
  unfold numeric_key in Hn. apply andb_prop in Hn as [Hl Hn]. destruct c as [[v h] [k|]]; [|done]. cbn in Hl, Hn.
  apply bool_decide_eq_true in Hn as [x Hx].
  assert (Hin : (v, h, Some k) ∈ ht_cores ht) by (rewrite raw_slots_cores; apply list_elem_of_filter; split; [by apply negb_true_iff|done]).
  rewrite Forall_forall in Hs. destruct (Hs (KStr (ZSTR_VAL k))) as [_ Hk].
  - unfold okeys, ht_elements. rewrite <- list_fmap_compose. apply list_elem_of_fmap. by exists (v, h, Some k).
  - cbn in Hk. by rewrite Hx in Hk.
Qed.

(** A table without integer keys is not converted. *)
Lemma strings_stay addr1 addr2 w R ht : Forall symtable_key (okeys (ht_elements ht)) -> f_packed ht = false ->
  (forall h, KInt h ∉ okeys (ht_elements ht)) -> (ht_immutable ht = false -> is_Some (R !! ht_addr ht)) ->
  to_prop_and_back addr1 addr2 w R ht = Ok (w, twice_held R ht, None).
Proof.
  intros Hs Hp Hno Ht. destruct (addref_twice R ht Ht) as (R1 & H1 & H2). unfold to_prop_and_back, zend_symtable_to_proptable.
  assert (existsb (fun c => negb (is_undef c.1.1) && bool_decide (c.2 = None)) (raw_slots ht) = false) as ->.
  { apply not_true_iff_false. intros (c & Hc%list_elem_of_In & Hn)%existsb_exists. apply andb_prop in Hn as [Hl Hn].
    apply bool_decide_eq_true in Hn. destruct c as [[v h] k]. cbn in Hl, Hn. subst k. apply (Hno h).
    unfold okeys, ht_elements. rewrite <- list_fmap_compose. apply list_elem_of_fmap. exists (v, h, None). split; [done|].
    rewrite raw_slots_cores. apply list_elem_of_filter. split; [by apply negb_true_iff|done]. }
  rewrite Hp. cbn [orb]. rewrite H1, !bind_ok. unfold zend_proptable_to_symtable. rewrite no_numeric_keys, andb_false_r by done.
  by rewrite H2, bind_ok.
Qed.

Lemma packed_no_ints ht : f_packed ht = true -> (forall h, KInt h ∉ okeys (ht_elements ht)) -> ht_elements ht = [].
Proof.
  intros Hp Hno. destruct (ht_elements ht) as [|[k v] l] eqn:El; [done|]. exfalso. destruct k as [h|s].
  - apply (Hno h). by left.
  - apply (packed_no_str ht s Hp). rewrite El. apply list_elem_of_here.
Qed.

Lemma round_trip_all addr1 addr2 w R ht : ht_inv ht -> Forall symtable_key (okeys (ht_elements ht)) ->
  Forall (fun e => plain e.2) (ht_elements ht) -> (f_packed ht = true -> ht_elements ht <> []) ->
  (ht_immutable ht = false -> is_Some (R !! ht_addr ht)) ->
  runs (to_prop_and_back addr1 addr2 w R ht)
    (fun '(w', R', o) => match o with
       | Some t => (exists h, KInt h ∈ okeys (ht_elements ht)) /\ R' = R /\ ht_inv t /\ ht_elements t = ht_elements ht
       | None => (forall h, KInt h ∉ okeys (ht_elements ht)) /\ R' = twice_held R ht
       end)
    (limit_reached prop_ins true addr1 w R ht
     \/ exists w1 t, zend_symtable_to_proptable addr1 w R ht = Ok (w1, R, Some t)
          /\ limit_reached sym_ins false addr2 w1 R t).
Proof.
  intros Hinv Hs Hp Hne Ht. destruct (existsb (fun k => match k with KInt _ => true | _ => false end) (okeys (ht_elements ht))) eqn:Ei.
  - apply existsb_exists in Ei as ([h|s] & Hin%list_elem_of_In & Hk); [|done].
    eapply runs_weaken; [apply round_trip_ok; try done; by exists h| |done].
    intros [[w' R'] o] (-> & t & -> & ? & ?). split; [by exists h|done].
  - assert (Hno : forall h, KInt h ∉ okeys (ht_elements ht)).
    { intros h Hin. apply not_true_iff_false in Ei. apply Ei, existsb_exists. exists (KInt h). split; [by apply list_elem_of_In|done]. }
    destruct (f_packed ht) eqn:Ep; [by destruct (Hne eq_refl); apply packed_no_ints|].
    by rewrite strings_stay.
Qed.
End ConvMain.
