(* ===== verification/HashTheorems6.v ===== *)
(** * Duplication and conversion of tables: the contracts *)

From S2P Require Import Prelude.
From S2P Require Import ZendString.
From S2P Require Import OrderedMap.
From S2P Require Import HashTypes.
From S2P Require Import HashOps.
From S2P Require Import HashRehash.
From S2P Require Import HashInv.
From S2P Require Import HashInsert.
From S2P Require Import HashIndex.
From S2P Require Import HashInit.
From S2P Require Import HashApplyOps.
From S2P Require Import HashCopy.
From S2P Require Import NumericKey.
From S2P Require Import HashDupOps.
From S2P Require Import HashDupMain.
From S2P Require Import HashConvMain.

Section Theorems6.
Context {E : ZendEnv}.

(** How often the values [l] refer to the counted cell [a]. *)
Definition refs_to (a : Z) (l : list zval) : Z :=
  zlen (filter (fun v => Z_OPT_REFCOUNTED v = true /\ Z_COUNTED v = a) l).

Lemma bump_all l : forall R a c, R !! a = Some c -> 0 <= rc_count c -> rc_count c + zlen l < 2 ^ 32 ->
  foldl (fun R v => bump v R) R l !! a = Some (mkCounted (rc_count c + refs_to a l) (rc_val c)).
Proof.
  induction l as [|v l IH]; intros R a c Hc H0 Hl; cbn [foldl].
  - unfold refs_to. cbn. rewrite Z.add_0_r, Hc. by destruct c.
  - rewrite zlen_cons in Hl. pose proof (zlen_nonneg l). unfold refs_to. rewrite filter_cons.
    pose proof (bump_lookup v R a) as Hb. case_bool_decide as Hv.
    + rewrite Hc in Hb. cbn in Hb. rewrite (IH _ _ _ Hb); cbn [rc_count rc_val]; rewrite u32_small by lia; try lia.
      rewrite decide_True by done. rewrite zlen_cons. unfold refs_to. do 2 f_equal. lia.
    + rewrite decide_False by done. rewrite Hc in Hb. by rewrite (IH _ _ _ Hb) by lia.
Qed.

(** *** The copy of a value

    A specification by itself, on the heap as it is before the call. [holds_table src v]:
    [v] is the array at [src]. *)
Definition holds_table (src : Z) (v : zval) : bool :=
  match v with ZVal t p => (t mod 2 ^ 8 =? 7) && (p =? src) | _ => false end.

(** What a slot stands for: in a hash, an indirection stands for the slot it points to. *)
Definition followed (w : world) (packed : bool) (v : zval) : option zval :=
  match v with
  | IS_UNDEF => None
  | IS_INDIRECT a =>
      if packed then Some v
      else match w_ind w !! a with Some IS_UNDEF | None => None | Some d => Some d end
  | _ => Some v
  end.

(** Nothing for an undefined value; the value of a reference that nobody else holds, unless
    it is the copied array itself; any other value as it is. *)
Definition copy_of (w : world) (R : rheap) (src : Z) (packed : bool) (v : zval) : option zval :=
  match followed w packed v with
  | Some (IS_REFERENCE r) =>
      Some match R !! r with
           | Some c => if (rc_count c =? 1) && negb (holds_table src (rc_val c)) then rc_val c else IS_REFERENCE r
           | None => IS_REFERENCE r
           end
  | o => o
  end.

(** Pointers are typed: [is_ref] are the addresses of references, to which only
    IS_REFERENCE points; a reference does not hold a reference. *)
Definition points (is_ref : Z -> bool) (v : zval) : Prop :=
  match v with
  | IS_REFERENCE r => is_ref r = true
  | _ => Z_OPT_REFCOUNTED v = true -> is_ref (Z_COUNTED v) = false
  end.

(** The counts are positive and [n] more references do not overflow them. *)
Record sound_heap (is_ref : Z -> bool) (n : Z) (R : rheap) : Prop := {
  sh_count : forall a c, R !! a = Some c -> 0 < rc_count c /\ rc_count c + n < 2 ^ 32;
  sh_val : forall a c, R !! a = Some c -> is_ref a = true ->
    points is_ref (rc_val c) /\ forall r, rc_val c <> IS_REFERENCE r;
}.

(** [R] is the heap [R0] after some copies, with [n] still to come. *)
Definition copied_heap (is_ref : Z -> bool) (src n : Z) (R0 R : rheap) : Prop :=
  forall a c, R !! a = Some c -> exists c0, R0 !! a = Some c0 /\ rc_val c = rc_val c0
    /\ rc_count c0 <= rc_count c /\ rc_count c + n < 2 ^ 32
    /\ (is_ref a = true -> rc_count c0 = 1 -> rc_count c = 1 \/ holds_table src (rc_val c0) = true).

Lemma holds_table_is src v : is_array_at src v = holds_table src v.
Proof. destruct v; try done. cbn. unfold Z_TYPE_MASK. by change 255 with (Z.ones 8); rewrite Z.land_ones. Qed.

Lemma resolve_followed w packed v o : resolve packed w v = Ok o -> o = followed w packed v.
Proof.
  destruct v; cbn; try (by intros [= <-]). destruct packed; [by intros [= <-]|]. destruct (w_ind w !! p) as [d|]; [|done].
  by destruct d; intros [= <-].
Qed.

Lemma copied_bump is_ref src n R0 R v : copied_heap is_ref src (n + 1) R0 R -> 0 <= n ->
  (forall a c c0, R !! a = Some c -> R0 !! a = Some c0 -> 0 < rc_count c0) ->
  (forall c0, Z_OPT_REFCOUNTED v = true -> is_ref (Z_COUNTED v) = true -> R0 !! Z_COUNTED v = Some c0 ->
     rc_count c0 <> 1 \/ holds_table src (rc_val c0) = true) ->
  copied_heap is_ref src n R0 (bump v R).
Proof.
  intros Hc Hn Hpos Hv a c. rewrite bump_lookup. case_bool_decide as Hb.
  - intros (c1 & H1 & ->)%fmap_Some. destruct (Hc a c1 H1) as (c0 & H0 & Hval & Hle & Hmax & _).
    pose proof (Hpos _ _ _ H1 H0). exists c0. cbn [rc_count rc_val]. rewrite u32_small by lia. split_and!; try done; try lia.
    destruct Hb as [Hb <-]. intros Hr He. by destruct (Hv c0 Hb Hr H0); [lia|right].
  - intros H1. destruct (Hc a c H1) as (c0 & H0 & Hval & Hle & Hmax & Hr). exists c0. split_and!; try done; lia.
Qed.

Lemma dup_slot_copy is_ref src w packed n R0 R v R' o : sound_heap is_ref n R0 -> copied_heap is_ref src (n + 1) R0 R -> 0 <= n ->
  dup_known w packed R v -> (forall u, followed w packed v = Some u -> points is_ref u) ->
  dup_slot w src packed R v = Ok (R', o) -> o = copy_of w R0 src packed v /\ copied_heap is_ref src n R0 R'.
Proof.
  intros [Hpos Hval] Hc Hn (u0 & Hu0 & Hkn) Hty. unfold dup_slot, copy_of. rewrite Hu0, bind_ok.
  apply resolve_followed in Hu0. rewrite <- Hu0 in *. destruct u0 as [u|].
  2:{ intros [= <- <-]. split; [done|]. intros a c Ha. destruct (Hc a c Ha) as (c0 & ?). exists c0. split_and!; tauto || lia. }
  destruct (Hkn u eq_refl) as [Hin Hrk]. specialize (Hty u eq_refl).
  assert (Hstep : forall v', (forall c0, Z_OPT_REFCOUNTED v' = true -> is_ref (Z_COUNTED v') = true -> R0 !! Z_COUNTED v' = Some c0 ->
     rc_count c0 <> 1 \/ holds_table src (rc_val c0) = true) -> copied_heap is_ref src n R0 (bump v' R)).
  { intros v' Hv'. apply copied_bump; try done. intros a c c0 _ H0. by apply (Hpos a). }
  assert (Hother : (forall r, u <> IS_REFERENCE r) ->
    (forall x y, (R, u) = (x, y) -> copied_heap is_ref src n R0 x) /\ copied_heap is_ref src n R0 (bump u R)).
  { intros Hu. split.
    - intros x y [= <- <-]. intros a c Ha. destruct (Hc a c Ha) as (c0 & ?). exists c0. split_and!; tauto || lia.
    - apply Hstep. intros c0 Hr1 Hr2 _. destruct u; try (by destruct (Hu r)); rewrite (Hty Hr1) in Hr2; done. }
  unfold copy_counted. destruct (Z_OPT_REFCOUNTED u) eqn:Eu.
  2:{ rewrite bind_ok. intros [= <- <-]. destruct u; try done; (split; [done|]); by apply (proj1 (Hother ltac:(done)) _ _ eq_refl). }
  destruct u as [| | |r|t p]; try done.
  2:{ rewrite Z_ADDREF_bump by (done || by apply Hin). rewrite !bind_ok. intros [= <- <-]. split; [done|]. by apply Hother. }
  destruct (Hin eq_refl) as [c Hcr]. cbn in Hcr, Hty. rewrite Hcr. destruct (Hc r c Hcr) as (c0 & Hc0 & Hv & Hle & _ & Hone).
  rewrite Hc0, holds_table_is, Hv. specialize (Hone Hty). destruct (Hpos r c0 Hc0) as [Hp0 _].
  destruct (Hval r c0 Hc0 Hty) as [Hvt Hvr].
  assert (E1 : (rc_count c =? 1) && negb (holds_table src (rc_val c0)) = (rc_count c0 =? 1) && negb (holds_table src (rc_val c0))).
  { destruct (holds_table src (rc_val c0)); [by rewrite !andb_false_r|]. rewrite !andb_true_r.
    destruct (Z.eqb_spec (rc_count c0) 1) as [E3|], (Z.eqb_spec (rc_count c) 1); try done; [|lia]. destruct (Hone E3); done || lia. }
  rewrite E1. destruct ((rc_count c0 =? 1) && negb (holds_table src (rc_val c0))) eqn:E2.
  - assert (Hb : copied_heap is_ref src n R0 (bump (rc_val c0) R)).
    { apply Hstep. intros c1 Hr1 Hr2 _. destruct (rc_val c0); try (by destruct (Hvr r0)); rewrite (Hvt Hr1) in Hr2; done. }
    destruct (Z_OPT_REFCOUNTED (rc_val c0)) eqn:Ex; cbn [negb].
    + rewrite Z_ADDREF_bump; [|done|]. 2:{ destruct (Hrk r c eq_refl Hcr) as [_ Hx]. rewrite Hv in Hx. by apply Hx. }
      rewrite !bind_ok. by intros [= <- <-].
    + rewrite bind_ok. intros [= <- <-]. split; [done|]. unfold bump in Hb. by rewrite Ex in Hb.
  - rewrite Z_ADDREF_bump by (done || by exists c). rewrite !bind_ok. intros [= <- <-]. split; [done|]. apply Hstep.
    intros c1 _ _ H1. cbn in H1. rewrite Hc0 in H1. injection H1 as <-.
    apply andb_false_iff in E2 as [E2%Z.eqb_neq|E2%negb_false_iff]; [by left|by right].
Qed.

(** The copy of all elements, by the specification. *)
Lemma dup_ref_copy is_ref src w packed R0 : forall cs R n, sound_heap is_ref (n + zlen cs) R0 -> 0 <= n ->
  copied_heap is_ref src (n + zlen cs) R0 R -> Forall (fun c => dup_known w packed R c.1.1) cs ->
  (forall c u, c ∈ cs -> followed w packed c.1.1 = Some u -> points is_ref u) ->
  forall R' cs', dup_ref w src packed R cs = Ok (R', cs') ->
  cs' = omap (fun c => (fun v => (v, c.1.2, c.2)) <$> copy_of w R0 src packed c.1.1) cs.
Proof.
  induction cs as [|c cs IH]; intros R n Hs Hn Hc Hk Hty R' cs'; [by intros [= <- <-]|]. cbn [dup_ref].
  rewrite zlen_cons in *. pose proof (zlen_nonneg cs). apply Forall_cons in Hk as [Hk1 Hk2].
  destruct (dup_slot_ok w src packed R _ Hk1) as (o & Hslot & _). rewrite Hslot, bind_ok. set (R1 := match o with Some v' => _ | None => R end) in *.
  destruct (dup_slot_copy is_ref src w packed (n + zlen cs) R0 R c.1.1 R1 o) as [Ho Hc']; try done; try lia.
  - destruct Hs as [H1 H2]. split; [|done]. intros a x Hx. destruct (H1 a x Hx). lia.
  - intros a x Hx. destruct (Hc a x Hx) as (x0 & ?). exists x0. split_and!; tauto || lia.
  - intros u Hu. apply (Hty c); [by left|done].
  - destruct (dup_ref w src packed R1 cs) as [[R2 l]| |] eqn:El; [|done..]. rewrite bind_ok. intros [= <- <-].
    apply (IH _ n) in El; [| | |done| |].
    + cbn [omap list_omap]. rewrite <- Ho, El. by destruct o.
    + destruct Hs as [H1 H2]. split; [|done]. intros a x Hx. destruct (H1 a x Hx). lia.
    + done.
    + unfold R1. destruct o; [|done]. eapply Forall_impl; [exact Hk2|]. intros. by apply dup_known_bump.
    + intros c1 u Hc1. apply (Hty c1). by right.
Qed.

(** C13: zend_array_dup makes a table with the same keys in the same order, whose values are
    copied as [copy_of] says: indirections are followed, those to undefined slots are
    dropped, and a reference that only this array holds is replaced by its value unless
    that is the array itself. The count of every counted value grows by the number of
    elements of the copy that refer to it; nothing else in the heap changes. The copy
    satisfies the invariant, keeps the next free index, has no iterators, and holds one
    reference to each of its string keys that is not interned. *)
Theorem zend_array_dup_correct is_ref addr w R source : ht_inv source -> dup_pre w R source ->
  sound_heap is_ref (zlen (ht_elements source)) R ->
  (forall e u, e ∈ ht_elements source -> followed w (f_packed source) e.2 = Some u -> points is_ref u) ->
  exists R' target,
    zend_array_dup addr w R source = Ok (add_events (key_events (ht_cores target)) w, R', target)
    /\ ht_inv target
    /\ ht_elements target =
         omap (fun e => pair e.1 <$> copy_of w R (ht_addr source) (f_packed source) e.2) (ht_elements source)
    /\ (forall a, R' !! a = (fun c => mkCounted (rc_count c + refs_to a (ht_elements target).*2) (rc_val c)) <$> R !! a)
    /\ nNextFreeElement target = nNextFreeElement source
    /\ nIteratorsCount target = 0 /\ ht_addr target = addr.
Proof.
  intros Hinv Hpre Hs Hty. destruct (zend_array_dup_ok addr w R source Hinv Hpre) as (R' & t & Hrun & Ht & Hr & Hf).
  destruct (dup_ref_ok w (ht_addr source) (f_packed source) (ht_cores source) R (proj1 Hpre)) as (R2 & cs & E2 & Hsub & HR & _).
  rewrite Hr in E2. injection E2 as <- <-. exists R', t. split; [done|]. split; [done|].
  assert (Hz : zlen (ht_elements source) = zlen (ht_cores source)) by (unfold ht_elements, zlen; by rewrite length_fmap).
  assert (Hlen : zlen (ht_cores t) <= zlen (ht_cores source)).
  { apply sublist_length in Hsub. rewrite !length_fmap in Hsub. unfold zlen. lia. }
  rewrite Hz in Hs. split; [|split; [|exact Hf]].
  - apply (dup_ref_copy is_ref _ _ _ R _ _ 0) in Hr; [| |done| |apply Hpre|].
    + unfold ht_elements. rewrite Hr. generalize (ht_cores source). induction l as [|c l IH]; [done|].
      cbn. destruct (copy_of _ _ _ _ _); cbn; by rewrite IH.
    + by rewrite Z.add_0_l.
    + intros a c Ha. exists c. destruct (sh_count _ _ _ Hs a c Ha). split_and!; try done; by left.
    + intros c u Hc. apply (Hty (centry c)). by apply list_elem_of_fmap_2.
  - intros a. assert ((ht_elements t).*2 = (ht_cores t).*1.*1) as -> by (unfold ht_elements; by rewrite <- !list_fmap_compose).
    destruct (R !! a) as [c|] eqn:Ha.
    + destruct (sh_count _ _ _ Hs a c Ha). rewrite HR. apply bump_all; [done|lia|].
      assert (zlen (ht_cores t).*1.*1 = zlen (ht_cores t)) by (unfold zlen; by rewrite !length_fmap). lia.
    + transitivity (@None counted); [|done]. rewrite HR. revert Ha. clear. generalize ((ht_cores t).*1.*1). intros l. revert R.
      induction l as [|v l IH]; intros R Ha; [done|]. cbn [foldl]. apply IH.
      apply eq_None_not_Some. rewrite bump_is_Some, Ha. by apply eq_None_not_Some.
Qed.

(** Reference counts stay exact: after zend_array_dup the count of every counted
    value is what it was plus the number of times the copy refers to it, and what
    references hold is unchanged. *)
Theorem zend_array_dup_counts addr w R source : ht_inv source -> dup_pre w R source ->
  exists w' R' target, zend_array_dup addr w R source = Ok (w', R', target)
    /\ sublist (okeys (ht_elements target)) (okeys (ht_elements source))
    /\ forall a c, R !! a = Some c -> 0 <= rc_count c -> rc_count c + zlen (ht_elements target) < 2 ^ 32 ->
         R' !! a = Some (mkCounted (rc_count c + refs_to a (ht_elements target).*2) (rc_val c)).
Proof.
  intros Hinv Hpre. destruct (zend_array_dup_ok addr w R source Hinv Hpre) as (R' & t & -> & _ & Hr & _).
  destruct (dup_ref_ok w (ht_addr source) (f_packed source) (ht_cores source) R (proj1 Hpre))
    as (R2 & cs & E2 & Hs & HR & _). rewrite Hr in E2. injection E2 as <- <-.
  eexists _, _, t. split; [done|]. split.
  - unfold ht_elements. rewrite !okeys_hk. by apply sublist_fmap.
  - intros a c Hc H0 Hl.
    assert ((ht_elements t).*2 = (ht_cores t).*1.*1) as -> by (unfold ht_elements; by rewrite <- !list_fmap_compose).
    rewrite HR. apply bump_all; [done..|]. unfold zlen, ht_elements in *. rewrite !length_fmap in *. done.
Qed.

(** zend_array_to_list numbers the values of a table 0, 1, 2 and so on in
    iteration order, in a packed array whose next free index is their number. *)
Theorem zend_array_to_list_correct addr R source : ht_inv source ->
  Forall (entry_known R) (ht_elements source) ->
  runs (zend_array_to_list addr R source)
    (fun '(R', t) => ht_inv t /\ exists l, copy_ref R (ht_elements source) = Ok (R', l)
       /\ ht_elements t = imap (fun i e => (KInt (Z.of_nat i), e.2)) l
       /\ nNextFreeElement t = zlen (ht_elements source))
    (HT_MAX_SIZE <= nNumOfElements source).
Proof. apply zend_array_to_list_ok. Qed.

(** C14: A symbol table turned into a property table and back: integer keys become their
    decimal strings, and the strings that are decimal integers become these integers
    again, so that a table with an integer key comes back as a new table, the same map
    in the same order. A table with string keys only is not copied: the table itself is
    returned twice, with one more reference each time. The values are plain (not
    counted and not indirect), the keys those of a symbol table (no string among them
    is a decimal integer) other than the last index of a packed array of the maximal
    size, and the table is not an empty packed array. *)
Theorem symtable_proptable_round_trip {CS : CharStrings} addr1 addr2 w R ht : ht_inv ht ->
  Forall symtable_key (okeys (ht_elements ht)) -> Forall (fun e => plain e.2) (ht_elements ht) ->
  (f_packed ht = true -> ht_elements ht <> []) -> (ht_immutable ht = false -> is_Some (R !! ht_addr ht)) ->
  runs (to_prop_and_back addr1 addr2 w R ht)
    (fun '(w', R', o) => match o with
       | Some t => (exists h, KInt h ∈ okeys (ht_elements ht)) /\ R' = R /\ ht_inv t /\ ht_elements t = ht_elements ht
       | None => (forall h, KInt h ∉ okeys (ht_elements ht)) /\ R' = twice_held R ht
       end)
    (limit_reached prop_ins true addr1 w R ht
     \/ exists w1 t, zend_symtable_to_proptable addr1 w R ht = Ok (w1, R, Some t)
          /\ limit_reached sym_ins false addr2 w1 R t).
Proof. apply round_trip_all. Qed.
End Theorems6.

(** ** Instances on concrete tables *)

(** ["a" => 1, 5 => 2, "b" => a reference to a counted string]. *)
Definition demo_ref : HashTable :=
  Eval vm_compute in get_ht (zend_hash_update w0 demo_ht str_b (IS_REFERENCE 700)) empty_ht.
Definition demo_rheap : rheap :=
  <[700 := mkCounted 1 (ZVal 0x106 500)]> (<[500 := mkCounted 3 IS_NULL]> (<[1000 := mkCounted 1 IS_NULL]> ∅)).

Lemma demo_ref_inv : ht_inv demo_ref.
Proof.
  eapply inserted_inv; [apply (add_or_update_fresh w0 demo_ht str_b (IS_REFERENCE 700) HASH_UPDATE)| |].
  - apply demo_ht_inv.
  - done.
  - vm_compute. by intros [?|[?|?%not_elem_of_nil]%elem_of_cons]%elem_of_cons.
  - vm_compute. reflexivity.
  - reflexivity.
Qed.

Lemma plain_dup_known w R v : plain v -> dup_known w false R v.
Proof.
  intros Hp. exists (Some v). split; [|intros u Hu; injection Hu as <-; by apply plain_known].
  destruct Hp as (_ & Ha & Hu). destruct v; try done. by destruct (Ha p).
Qed.

Lemma demo_ref_pre : dup_pre w0 demo_rheap demo_ref.
Proof.
  split; [|done]. unfold demo_ref, ht_cores. cbn [f_packed]. repeat apply Forall_cons_2; [| | |apply Forall_nil_2].
  - by apply plain_dup_known.
  - by apply plain_dup_known.
  - exists (Some (IS_REFERENCE 700)). split; [done|]. intros u Hu. injection Hu as <-. split; [by vm_compute; eauto|].
    intros r c Hr Hc. injection Hr as <-. vm_compute in Hc. injection Hc as <-. split; [done|]. by vm_compute; eauto.
Qed.

Definition demo_is_ref (a : Z) : bool := a =? 700.

Lemma demo_sound : sound_heap demo_is_ref (zlen (ht_elements demo_ref)) demo_rheap.
Proof.
  split.
  - intros a c Ha. unfold demo_rheap in Ha.
    repeat (apply lookup_insert_Some in Ha as [[<- <-]|[_ Ha]]; [by vm_compute|]). by rewrite lookup_empty in Ha.
  - intros a c Ha Hr. apply Z.eqb_eq in Hr as ->. vm_compute in Ha. injection Ha as <-. by split.
Qed.

Lemma zend_array_dup_correct_witness : exists R' target,
  zend_array_dup 2000 w0 demo_rheap demo_ref = Ok (add_events (key_events (ht_cores target)) w0, R', target)
  /\ ht_inv target
  /\ ht_elements target = omap (fun e => pair e.1 <$> copy_of w0 demo_rheap 1000 false e.2) (ht_elements demo_ref)
  /\ (forall a, R' !! a = (fun c => mkCounted (rc_count c + refs_to a (ht_elements target).*2) (rc_val c)) <$> demo_rheap !! a)
  /\ nNextFreeElement target = 6 /\ nIteratorsCount target = 0 /\ ht_addr target = 2000.
Proof.
  apply (zend_array_dup_correct demo_is_ref 2000 w0 demo_rheap demo_ref demo_ref_inv demo_ref_pre demo_sound).
  intros e u He Hu. vm_compute in He, Hu.
  repeat (apply elem_of_cons in He as [->|He]; [by injection Hu as <-|]). by apply not_elem_of_nil in He.
Defined.

(** The reference is replaced by the string, whose count goes from 3 to 4. *)
Example zend_array_dup_runs :
  ('(_, R', target) ← zend_array_dup 2000 w0 demo_rheap demo_ref;
   Ok (ht_elements target, R' !! 500, R' !! 700))
  = Ok ([(KStr [97], ZVal 4 1); (KInt 5, ZVal 4 2); (KStr [98], ZVal 0x106 500)],
        Some (mkCounted 4 IS_NULL), Some (mkCounted 1 (ZVal 0x106 500))).
Proof. vm_compute. reflexivity. Qed.

Lemma zend_array_dup_counts_witness : exists w' R' target,
  zend_array_dup 2000 w0 demo_rheap demo_ref = Ok (w', R', target)
  /\ sublist (okeys (ht_elements target)) (okeys (ht_elements demo_ref))
  /\ forall a c, demo_rheap !! a = Some c -> 0 <= rc_count c -> rc_count c + zlen (ht_elements target) < 2 ^ 32 ->
       R' !! a = Some (mkCounted (rc_count c + refs_to a (ht_elements target).*2) (rc_val c)).
Proof. exact (zend_array_dup_counts 2000 w0 demo_rheap demo_ref demo_ref_inv demo_ref_pre). Defined.

Lemma demo_ht_known R : Forall (entry_known R) (ht_elements demo_ht).
Proof. apply plain_entries_known. repeat apply Forall_cons_2; [done|done|apply Forall_nil_2]. Qed.

Lemma zend_array_to_list_correct_witness :
  runs (zend_array_to_list 2000 ∅ demo_ht)
    (fun '(R', t) => ht_inv t /\ exists l, copy_ref ∅ (ht_elements demo_ht) = Ok (R', l)
       /\ ht_elements t = imap (fun i e => (KInt (Z.of_nat i), e.2)) l /\ nNextFreeElement t = 2)
    (HT_MAX_SIZE <= nNumOfElements demo_ht).
Proof. exact (zend_array_to_list_correct 2000 ∅ demo_ht demo_ht_inv (demo_ht_known ∅)). Defined.

#[export] Program Instance demo_chars : CharStrings := {| ZSTR_CHAR c := Z.neg (encode [c]) |}.
Next Obligation. intros c _. change (default [] (decode (encode [c])) = [c]). by rewrite decode_encode. Qed.
Next Obligation. intros c. reflexivity. Qed.

Lemma symtable_proptable_round_trip_witness :
  runs (to_prop_and_back 2000 3000 w0 demo_rheap demo_ht)
    (fun '(w', R', o) => match o with
       | Some t => (exists h, KInt h ∈ okeys (ht_elements demo_ht)) /\ R' = demo_rheap /\ ht_inv t /\ ht_elements t = ht_elements demo_ht
       | None => (forall h, KInt h ∉ okeys (ht_elements demo_ht)) /\ R' = twice_held demo_rheap demo_ht
       end)
    (limit_reached prop_ins true 2000 w0 demo_rheap demo_ht
     \/ exists w1 t, zend_symtable_to_proptable 2000 w0 demo_rheap demo_ht = Ok (w1, demo_rheap, Some t)
          /\ limit_reached sym_ins false 3000 w1 demo_rheap t).
Proof.
  apply (symtable_proptable_round_trip 2000 3000 w0 demo_rheap demo_ht demo_ht_inv).
  - repeat apply Forall_cons_2; [by split|by split|apply Forall_nil_2].
  - repeat apply Forall_cons_2; [done|done|apply Forall_nil_2].
  - done.
  - intros _. vm_compute. eauto.
Defined.

Example round_trip_runs :
  ('(_, _, o) ← to_prop_and_back 2000 3000 w0 demo_rheap demo_ht; Ok (option_map ht_elements o))
  = Ok (Some (ht_elements demo_ht)).
Proof. vm_compute. reflexivity. Qed.
