(* ===== verification/HashExtraOps.v ===== *)
(** * Operations of the hash table, part 8: the rest of the API (Zend/zend_hash.c)

    Variants of insertion, lookup and deletion, the change of a key in place, and
    sorting and iteration of a table that others may refer to. *)

From S2P Require Import Prelude.
From S2P Require Import ZendString.
From S2P Require Import StrMem.
From S2P Require Import StrCaseOps.
From S2P Require Import HashTypes.
From S2P Require Import HashOps.
From S2P Require Import HashIterOps.
From S2P Require Import HashApplyOps.
From S2P Require Import SortTheorems.
From S2P Require Import HashSortOps.
From S2P Require Import HashDupOps.

Section ExtraOps.
Context {E : ZendEnv}.
Implicit Types (w : world) (ht : HashTable).

(** ** Insertion by flag *)

Definition zend_hash_add_or_update w ht (key : Z) (pData : zval) (flag : Z) :=
  if flag =? HASH_ADD then zend_hash_add w ht key pData
  else if flag =? HASH_ADD_NEW then zend_hash_add_new w ht key pData
  else if flag =? HASH_UPDATE then zend_hash_update w ht key pData
  else
    _ ← assert_ (flag =? Z.lor HASH_UPDATE HASH_UPDATE_INDIRECT);
    zend_hash_update_ind w ht key pData.

Definition zend_hash_str_update_ind w ht (str : list Z) (pData : zval) :=
  _zend_hash_str_add_or_update_i w ht str (zend_inline_hash_func str) pData (Z.lor HASH_UPDATE HASH_UPDATE_INDIRECT).
Definition zend_hash_str_add_new w ht (str : list Z) (pData : zval) :=
  _zend_hash_str_add_or_update_i w ht str (zend_inline_hash_func str) pData HASH_ADD_NEW.

Definition zend_hash_str_add_or_update w ht (str : list Z) (pData : zval) (flag : Z) :=
  if flag =? HASH_ADD then zend_hash_str_add w ht str pData
  else if flag =? HASH_ADD_NEW then zend_hash_str_add_new w ht str pData
  else if flag =? HASH_UPDATE then zend_hash_str_update w ht str pData
  else
    _ ← assert_ (flag =? Z.lor HASH_UPDATE HASH_UPDATE_INDIRECT);
    zend_hash_str_update_ind w ht str pData.

Definition zend_hash_index_add_or_update w ht (h : Z) (pData : zval) (flag : Z) :=
  if flag =? HASH_ADD then zend_hash_index_add w ht h pData
  else if flag =? Z.lor HASH_ADD HASH_ADD_NEW then zend_hash_index_add_new w ht h pData
  else if flag =? Z.lor HASH_ADD HASH_ADD_NEXT then
    _ ← assert_ (h =? u64 (nNextFreeElement ht)); zend_hash_next_index_insert w ht pData
  else if flag =? Z.lor (Z.lor HASH_ADD HASH_ADD_NEW) HASH_ADD_NEXT then
    _ ← assert_ (h =? u64 (nNextFreeElement ht)); zend_hash_next_index_insert_new w ht pData
  else _ ← assert_ (flag =? HASH_UPDATE); zend_hash_index_update w ht h pData.

Definition zend_hash_index_add_empty_element w ht (h : Z) := zend_hash_index_add w ht h IS_NULL.
Definition zend_hash_add_empty_element w ht (key : Z) := zend_hash_add w ht key IS_NULL.
Definition zend_hash_str_add_empty_element w ht (str : list Z) := zend_hash_str_add w ht str IS_NULL.

(** ** A new key for a bucket *)

(** [while (Z_NEXT(p->val) != HT_INVALID_IDX && Z_NEXT(p->val) > idx)]: the bucket
    after which [idx] is inserted. *)
Fixpoint find_above (fuel : nat) (D : list Bucket) (i idx : Z) : res Z :=
  match fuel with
  | O => Ub
  | S fuel =>
      p ← rd D i;
      if negb (b_next p =? HT_INVALID_IDX) && (idx <? b_next p) then find_above fuel D (b_next p) idx
      else Ok i
  end.

(** [b] is the index of the bucket. *)
Definition zend_hash_set_bucket_key w ht (b key : Z) : res (world * HashTable * option zptr) :=
  _ ← assert_ (negb (f_packed ht));
  p ← zend_hash_find_bucket ht key;
  match p with
  | Some i => Ok (w, ht, if i =? b then Some (PData i) else None)
  | None =>
      let '(w, ht) := if ZSTR_IS_INTERNED key then (w, ht)
                      else (log (EvAddref key) w, set_static false ht) in
      B ← rd (arData ht) b;
      i ← HT_HASH ht (nIndex_of ht (b_h B));
      ht ← (if i =? b then HT_HASH_set ht (nIndex_of ht (b_h B)) (b_next B)
            else
              j ← find_prev (chain_fuel ht) (arData ht) i b;
              q ← rd (arData ht) j;
              D ← wr (arData ht) j (with_next (b_next B) q);
              Ok (set_arData D ht));
      w ← match b_key B with Some k => Ok (log (EvRelease k) w) | None => Ub end;
      let B := with_hkey (ZSTR_H key) (Some key) B in
      i ← HT_HASH ht (nIndex_of ht (ZSTR_H key));
      ht ← (if (i =? HT_INVALID_IDX) || (i <? b) then
              D ← wr (arData ht) b (with_next i B);
              HT_HASH_set (set_arData D ht) (nIndex_of ht (ZSTR_H key)) b
            else
              j ← find_above (chain_fuel ht) (arData ht) i b;
              q ← rd (arData ht) j;
              D ← wr (arData ht) b (with_next (b_next q) B);
              D ← wr D j (with_next b q);
              Ok (set_arData D ht));
      Ok (w, ht, Some (PData b))
  end.

(** ** Lookup and deletion *)

Definition zend_hash_find_known_hash ht (key : Z) : res (option zptr) :=
  p ← zend_hash_find_bucket ht key; Ok (option_map PData p).

Definition zend_hash_str_del_ind w ht (str : list Z) : res (world * HashTable * zend_result) :=
  let h := zend_inline_hash_func str in
  idx ← HT_HASH ht (nIndex_of ht h);
  r ← chain_find_prev (chain_fuel ht) (arData ht) (match_str str h) idx None;
  match r with
  | Some (idx, prev) =>
      v ← zptr_get w ht (PData idx);
      match v with
      | IS_INDIRECT a =>
          d ← zptr_get w ht (PInd a);
          if is_undef d then Ok (w, ht, FAILURE)
          else
            '(w, ht) ← zptr_set (run_dtor ht d w) ht (PInd a) IS_UNDEF;
            Ok (w, set_empty_ind true ht, SUCCESS)
      | _ =>
          '(w, ht) ← release_key w ht idx;
          '(w, ht) ← _zend_hash_del_el_ex w ht idx prev;
          Ok (w, ht, SUCCESS)
      end
  | None => Ok (w, ht, FAILURE)
  end.

(** ** Lookup by the lower-case form of a key *)

(** [Z_PTR_P]: tables with these lookups hold pointers, which are not NULL. *)
Definition Z_PTR (v : zval) : res Z :=
  match v with ZVal _ p => _ ← assert_ (negb (p =? 0)); Ok p | _ => Ub end.

Definition found_ptr w ht (r : option zptr) : res (option Z) :=
  match r with
  | Some z => v ← zptr_get w ht z; p ← Z_PTR v; Ok (Some p)
  | None => Ok None
  end.

(** [fresh] is the stack memory for the copy, [len + 1] bytes. *)
Definition zend_hash_str_find_ptr_lc (fresh : list Z) w ht (str : list Z) : res (option Z) :=
  lc_str ← zend_str_tolower_dup fresh str;
  r ← zend_hash_str_find ht lc_str;
  found_ptr w ht r.

(** The result of zend_string_tolower is the string itself, with one more reference,
    or a new one; the call of zend_string_release ends that reference. *)
Definition zend_hash_find_ptr_lc (fresh : list Z) w ht (key : Z) : res (world * option Z) :=
  lc ← zend_string_tolower_ex fresh (ZSTR_VAL key);
  let '(w, lc_key) := match lc with
                      | None => (addref_key (Some key) w, key)
                      | Some s => (w, zend_string_init s)
                      end in
  r ← zend_hash_find ht lc_key;
  result ← found_ptr w ht r;
  Ok (release_opt (Some lc_key) w, result).

(** ** Arrays that may be shared *)

Definition array_refcount (R : rheap) (a : Z) : res Z :=
  match R !! a with Some c => Ok (rc_count c) | None => Ub end.
Definition set_array_refcount (R : rheap) (a n : Z) : rheap := <[a := mkCounted (u32 n) IS_UNDEF]> R.

(** [SEPARATE_ARRAY] on a value that holds the array at [a]; [addr] is where a new
    array is allocated. The result is the array the value holds afterwards. *)
Definition SEPARATE_ARRAY (addr : Z) w (R : rheap) (hp : heap) (a : Z) : res (world * rheap * heap * Z) :=
  n ← array_refcount R a;
  if 1 <? n then
    arr ← load hp a;
    '(w, R, new) ← zend_array_dup addr w R arr;
    let R := set_array_refcount R addr 1 in
    let hp := <[addr := new]> hp in
    n ← array_refcount R a;
    Ok (w, if ht_immutable arr then R else set_array_refcount R a (n - 1), hp, addr)
  else Ok (w, R, hp, a).

(** The test before the count of the old table is decreased looks at the new one. *)
Definition zend_hash_iterator_pos_ex (addr : Z) w (R : rheap) (hp : heap) (idx a : Z)
  : res (world * rheap * heap * Z * Z) :=
  _ ← assert_ (negb (idx =? 2 ^ 32 - 1));
  iter ← rd (ht_iterators w) idx;
  if it_ht iter =? a then Ok (w, R, hp, a, it_pos iter)
  else
    ht ← load hp a;
    hp ← (if negb (it_ht iter =? 0) && negb (it_ht iter =? HT_POISONED_PTR) && negb (HT_ITERATORS_OVERFLOW ht) then
            t ← load hp (it_ht iter); Ok (<[it_ht iter := dec_iters t]> hp)
          else Ok hp);
    '(w, R, hp, a) ← SEPARATE_ARRAY addr w R hp a;
    ht ← load hp a;
    let hp := <[a := inc_iters ht]> hp in
    pos ← _zend_hash_get_current_pos ht;
    Ok (set_iterators (zset (ht_iterators w) idx (mkIter a pos)) w, R, hp, a, pos).

(** [None]: the array lost its last reference while it was sorted. *)
Definition zend_array_sort_ex {S : Type} (is_ptr_dtor : bool) w (R : rheap) ht (sort : sort_func_t)
    (compar : S -> Bucket -> Bucket -> S * Z) (s : S) (renumber : bool)
  : res (S * world * rheap * option HashTable) :=
  '(w, ht) ← (if f_packed ht then zend_hash_packed_to_hash w ht else Ok (w, ht));
  R ← Z_ADDREF R (ZVal IS_ARRAY (ht_addr ht));
  '(s, w, ht) ← zend_hash_sort_internal w ht sort compar s renumber;
  n ← array_refcount R (ht_addr ht);
  let R := set_array_refcount R (ht_addr ht) (n - 1) in
  if u32 (n - 1) =? 0 then Ok (s, fst (zend_array_destroy is_ptr_dtor w ht), R, None)
  else Ok (s, w, R, Some ht).
End ExtraOps.
