(* ===== verification/HashRekey.v ===== *)
(** * Changing the key of a bucket in place

    zend_hash_set_bucket_key takes a bucket out of its collision chain and puts it
    into another one, at the place its index requires. *)

From S2P Require Import Prelude.
From S2P Require Import ZendString.
From S2P Require Import OrderedMap.
From S2P Require Import HashTypes.
From S2P Require Import HashOps.
From S2P Require Import HashChain.
From S2P Require Import HashRehash.
From S2P Require Import HashInv.
From S2P Require Import HashLayout.
From S2P Require Import HashInsert.
From S2P Require Import HashDelete.
From S2P Require Import HashInit.
From S2P Require Import HashIterOps.
From S2P Require Import HashDupOps.
From S2P Require Import HashDupMain.
From S2P Require Import HashExtraOps.

(** ** Chains around an index *)

(** Two tables that differ at index [i] only have the same chain above and below. *)
Lemma chain_idx_cut D D' L n s i : 0 <= i < n ->
  (forall k, k <> i -> in_slot D' L s k = in_slot D L s k) ->
  exists hi, Forall (fun k => i < k) hi
    /\ chain_idx D L n s = hi ++ (if in_slot D L s i then [i] else []) ++ chain_idx D L i s
    /\ chain_idx D' L n s = hi ++ (if in_slot D' L s i then [i] else []) ++ chain_idx D L i s.
Proof.
  intros Hi Hk.
  assert (forall m : nat, exists hi, Forall (fun k => i < k) hi
    /\ chain_idx D L (i + 1 + Z.of_nat m) s = hi ++ (if in_slot D L s i then [i] else []) ++ chain_idx D L i s
    /\ chain_idx D' L (i + 1 + Z.of_nat m) s = hi ++ (if in_slot D' L s i then [i] else []) ++ chain_idx D L i s) as H.
  { induction m as [|m (hi & Hhi & H1 & H2)].
    - exists []. rewrite Z.add_0_r, !chain_idx_succ by lia.
      assert (chain_idx D' L i s = chain_idx D L i s) as -> by (apply chain_idx_ext; intros; apply Hk; lia).
      split_and!; [constructor|by destruct (in_slot D L s i)|by destruct (in_slot D' L s i)].
    - rewrite Nat2Z.inj_succ, <- Z.add_1_r, !Z.add_assoc, !chain_idx_succ, H1, H2, Hk by lia.
      destruct (in_slot D L s (i + 1 + Z.of_nat m)); [|by exists hi].
      exists (i + 1 + Z.of_nat m :: hi). split; [constructor; [lia|done]|done]. }
  destruct (H (Z.to_nat (n - i - 1))) as (hi & Hh). exists hi.
  replace (i + 1 + Z.of_nat (Z.to_nat (n - i - 1))) with n in Hh by lia. done.
Qed.

Lemma chain_head D x l : chain D x l -> match l with [] => x = HT_INVALID_IDX | a :: _ => x = a /\ a <> HT_INVALID_IDX end.
Proof. by destruct 1. Qed.

Lemma chain_insert D x hi i lo j q b : chain D x (hi ++ lo) -> NoDup (hi ++ lo) -> i ∉ hi ++ lo ->
  i <> HT_INVALID_IDX -> last hi = Some j -> zget D j = Some q -> 0 <= i < zlen D ->
  chain (zset (zset D i (with_next (b_next q) b)) j (with_next i q)) x (hi ++ i :: lo).
Proof.
  intros Hc Hnd Hni Hinv Hl Hj Hi. assert (0 <= j < zlen D) as Hr by (eapply zget_Some_range; eauto).
  revert x Hc Hnd Hni. induction hi as [|a hi IH]; intros x Hc Hnd Hni; [done|].
  inversion Hc as [|? ba ? Hne Hba Hc' E1 E2]; subst. cbn in Hnd, Hni. apply NoDup_cons in Hnd as [Ha Hnd].
  apply not_elem_of_cons in Hni as [Hia Hni]. rewrite last_cons in Hl. destruct (last hi) as [j'|] eqn:El.
  - injection Hl as ->. cbn. apply chain_cons with ba; [done| |by apply IH].
    assert (j <> a).
    { intros ->. apply Ha, elem_of_app. left. apply last_Some in El as [l' ->]. apply elem_of_app. right. by left. }
    rewrite !zget_zset_ne; [done|lia|congruence|lia|done].
  - injection Hl as ->. apply last_None in El. subst hi. cbn in *. assert (ba = q) as -> by congruence.
    apply chain_cons with (with_next i q); [done|by apply zget_zset_eq; rewrite zlen_zset|]. cbn.
    apply chain_cons with (with_next (b_next q) b); [done| |].
    { rewrite zget_zset_ne; [by apply zget_zset_eq|lia|done]. }
    cbn. eapply chain_agree; [|exact Hc']. intros k Hk. rewrite !zget_zset_ne; [done|lia|by intros ->|lia|by intros ->].
Qed.

Lemma find_above_spec D i lo : forall hi fuel x j, chain D x (hi ++ lo) -> Forall (fun k => i < k) hi ->
  Forall (fun k => k < i) lo -> last hi = Some j -> (length hi <= fuel)%nat -> find_above fuel D x i = Ok j.
Proof.
  induction hi as [|a hi IH]; intros fuel x j Hc Hh Hlo Hl Hf; [done|]. destruct fuel as [|fuel]; [cbn in Hf; lia|].
  inversion Hc as [|? ba ? Hne Hba Hc' E1 E2]; subst. apply Forall_cons in Hh as [Ha Hh].
  cbn [find_above]. rewrite (rd_ok _ _ _ Hba), bind_ok. rewrite last_cons in Hl.
  pose proof (chain_head _ _ _ Hc') as Hhd. destruct hi as [|a' hi].
  - cbn in Hl. injection Hl as ->. destruct lo as [|c lo]; cbn in Hhd.
    + by rewrite Hhd, Z.eqb_refl.
    + apply Forall_cons in Hlo as [Hc1 _]. destruct Hhd as [-> _]. rewrite (proj2 (Z.ltb_ge _ _)), andb_false_r by lia.
      done.
  - apply Forall_cons in Hh as [Ha' Hh']. cbn in Hhd. destruct Hhd as [Hb Hb'].
    rewrite (proj2 (Z.eqb_neq _ _)), (proj2 (Z.ltb_lt _ _)) by (congruence || lia). cbn [negb andb].
    apply (IH fuel (b_next ba) j); [done|by constructor|done| |cbn in *; lia].
    destruct (last (a' :: hi)) as [z|] eqn:Ez; [done|by apply last_None in Ez].
Qed.

(** Linking the bucket [i], which is in no chain, into the chain of slot [s]. *)
Lemma chains_relink H D D1 n i b0 b x fuel : (forall k, k <> i -> zget D1 k = zget D k) -> 0 < zlen H -> chains_ok H D n -> 0 <= i < n -> n <= zlen D ->
  n < HT_INVALID_IDX -> zget D i = Some b0 -> live b0 = false -> live b = true ->
  zget H (b_h b mod zlen H) = Some x -> (Z.to_nat n <= fuel)%nat ->
  if (x =? HT_INVALID_IDX) || (x <? i) then
    chains_ok (zset H (b_h b mod zlen H) i) (zset D i (with_next x b)) n
  else exists j q, find_above fuel D1 x i = Ok j /\ zget D j = Some q /\ j <> i /\ 0 <= j < n
    /\ chains_ok H (zset (zset D i (with_next (b_next q) b)) j (with_next i q)) n.
Proof.
  intros HD1 HL Hc Hi Hn Hinv Hb0 Hd0 Hlb Hx Hf. set (s := b_h b mod zlen H) in *.
  assert (0 <= s < zlen H) as Hs by (by apply Z.mod_pos_bound).
  assert (forall D', (forall k, k <> i -> in_slot D' (zlen H) s k = in_slot D (zlen H) s k) -> in_slot D' (zlen H) s i = true ->
    exists hi, Forall (fun k => i < k) hi /\ chain_idx D (zlen H) n s = hi ++ chain_idx D (zlen H) i s
      /\ chain_idx D' (zlen H) n s = hi ++ i :: chain_idx D (zlen H) i s) as Hcut.
  { intros D' Hk Hi'. destruct (chain_idx_cut D D' (zlen H) n s i Hi Hk) as (hi & Hh & H1 & H2). exists hi.
    assert (in_slot D (zlen H) s i = false) as Hdi by (unfold in_slot; by rewrite Hb0, Hd0).
    rewrite Hdi in H1. rewrite Hi' in H2. by split_and!. }
  assert (Forall (fun k => k < i) (chain_idx D (zlen H) i s)) as Hlo.
  { apply Forall_forall. intros k [Hk _]%elem_of_chain_idx. lia. }
  destruct (Hc s Hs) as (x' & Hx' & Hch). assert (x' = x) as -> by congruence.
  assert (forall s', 0 <= s' < zlen H -> s' <> s -> forall H' D', (forall k, k <> i -> b_h <$> zget D' k = b_h <$> zget D k /\ (live <$> zget D' k) = (live <$> zget D k)) ->
    in_slot D' (zlen H) s' i = false -> zget H' s' = zget H s' -> zlen H' = zlen H ->
    (forall k, k ∈ chain_idx D (zlen H) n s' -> zget D' k = zget D k) ->
    exists y, zget H' s' = Some y /\ chain D' y (chain_idx D' (zlen H) n s')) as Hother.
  { intros s' Hs' Hne H' D' Hsame Hdi HH HlH Hagree. destruct (Hc s' Hs') as (y & Hy & Hchy). exists y.
    split; [congruence|]. rewrite (chain_idx_ext D' D).
    - eapply chain_agree; [|exact Hchy]. intros k Hk. symmetry. by apply Hagree.
    - intros k Hk. destruct (decide (k = i)) as [->|Hki].
      + rewrite Hdi. symmetry. unfold in_slot. by rewrite Hb0, Hd0.
      + unfold in_slot. destruct (Hsame k Hki) as [E1 E2].
        destruct (zget D' k), (zget D k); cbn in *; try done. by injection E1 as ->; injection E2 as ->. }
  destruct ((x =? HT_INVALID_IDX) || (x <? i)) eqn:Ecase.
  - set (D' := zset D i (with_next x b)).
    assert (zget D' i = Some (with_next x b)) as Hi' by (apply zget_zset_eq; lia).
    intros s' Hs'. rewrite zlen_zset in *. destruct (decide (s' = s)) as [->|Hne].
    + destruct (Hcut D') as (hi & Hh & H1 & H2).
      { intros k Hk. unfold in_slot, D'. by rewrite zget_zset_ne by (done || lia). }
      { unfold in_slot. rewrite Hi'. change (live (with_next x b)) with (live b). rewrite Hlb. cbn. apply Z.eqb_refl. }
      assert (hi = []) as ->.
      { destruct hi as [|a hi]; [done|]. rewrite H1 in Hch. apply chain_head in Hch as [-> Ha].
        apply Forall_cons in Hh as [Hia _]. apply orb_true_iff in Ecase as [?%Z.eqb_eq|?%Z.ltb_lt]; [done|lia]. }
      exists i. split; [apply zget_zset_eq; lia|]. rewrite H2. cbn. rewrite H1 in Hch. cbn in Hch.
      apply chain_cons with (with_next x b); [lia|done|]. cbn. eapply chain_agree; [|exact Hch].
      intros k [Hk _]%elem_of_chain_idx. unfold D'. rewrite zget_zset_ne; [done|lia|lia].
    + apply Hother; try done.
      * intros k Hk. unfold D'. by rewrite zget_zset_ne by (done || lia).
      * unfold in_slot. rewrite Hi'. cbn. rewrite (proj2 (Z.eqb_neq _ _)) by (unfold s in Hne; congruence). apply andb_false_r.
      * rewrite zget_zset_ne; [done|lia|congruence].
      * by rewrite zlen_zset.
      * intros k [Hk Hsl]%elem_of_chain_idx. unfold D'. rewrite zget_zset_ne; [done|lia|]. intros <-.
        unfold in_slot in Hsl. by rewrite Hb0, Hd0 in Hsl.
  - apply orb_false_iff in Ecase as [Ex1%Z.eqb_neq Ex2%Z.ltb_ge].
    destruct (Hcut (zset D i b)) as (hi & Hh & H1 & _).
    { intros k Hk. unfold in_slot. by rewrite zget_zset_ne by (done || lia). }
    { unfold in_slot. rewrite zget_zset_eq by lia. rewrite Hlb. apply Z.eqb_refl. }
    assert (i ∉ chain_idx D (zlen H) n s) as Hni.
    { intros [_ Hk]%elem_of_chain_idx. unfold in_slot in Hk. by rewrite Hb0, Hd0 in Hk. }
    pose proof (NoDup_chain_idx D (zlen H) n s) as Hnd. pose proof (length_chain_idx D (zlen H) n s) as Hlen.
    rewrite H1 in Hch, Hni, Hnd, Hlen. destruct (last hi) as [j|] eqn:El.
    2:{ exfalso. apply last_None in El. subst hi. cbn in Hch. apply chain_head in Hch.
        destruct (chain_idx D (zlen H) i s) as [|a l]; [done|]. apply Forall_cons in Hlo as [Ha _]. destruct Hch as [-> _]. lia. }
    assert (j ∈ hi) as Hjh by (apply last_Some in El as [l' ->]; apply elem_of_app; right; by left).
    assert (j ∈ chain_idx D (zlen H) n s) as Hjc by (rewrite H1; apply elem_of_app; by left).
    apply elem_of_chain_idx in Hjc as [Hjr Hjs].
    assert (i < j) as Hij by (rewrite Forall_forall in Hh; by apply Hh).
    destruct (zget_is_Some D j) as [q Hq]; [lia|]. exists j, q. rewrite length_app in Hlen.
    split.
    { eapply (find_above_spec D1 i _ hi); try done; [|lia]. eapply chain_agree; [|exact Hch].
      intros k Hk. symmetry. apply HD1. by intros ->. } split_and!; try done; try lia.
    set (D' := zset (zset D i _) j _).
    assert (zget D' i = Some (with_next (b_next q) b)) as Hi'.
    { unfold D'. rewrite zget_zset_ne by lia. apply zget_zset_eq. lia. }
    assert (zget D' j = Some (with_next i q)) as Hj' by (apply zget_zset_eq; rewrite zlen_zset; lia).
    assert (forall k, k <> i -> k <> j -> zget D' k = zget D k) as Hrest.
    { intros k H3 H4. unfold D'. rewrite !zget_zset_ne; [done|lia|congruence|lia|congruence]. }
    intros s' Hs'. destruct (decide (s' = s)) as [->|Hne].
    + destruct (Hcut D') as (hi' & Hh' & H1' & H2').
      { intros k Hk. unfold in_slot. destruct (decide (k = j)) as [->|Hkj]; [by rewrite Hj', Hq|by rewrite Hrest]. }
      { unfold in_slot. rewrite Hi'. change (live (with_next (b_next q) b)) with (live b). rewrite Hlb. apply Z.eqb_refl. }
      assert (hi' = hi) as -> by (rewrite H1 in H1'; by apply app_inv_tail in H1').
      exists x. split; [done|]. rewrite H2'. apply chain_insert; (done || lia).
    + apply Hother; try done.
      * intros k Hk. destruct (decide (k = j)) as [->|Hkj]; [by rewrite Hj', Hq|by rewrite Hrest].
      * unfold in_slot. rewrite Hi'. cbn. rewrite (proj2 (Z.eqb_neq _ _)) by (unfold s in Hne; congruence). apply andb_false_r.
      * intros k [Hk Hsl]%elem_of_chain_idx. apply Hrest; intros ->.
        -- unfold in_slot in Hsl. by rewrite Hb0, Hd0 in Hsl.
        -- unfold in_slot in Hsl, Hjs. rewrite Hq in Hsl, Hjs. apply andb_prop in Hsl as [_ E1%Z.eqb_eq].
           apply andb_prop in Hjs as [_ E2%Z.eqb_eq]. congruence.
Qed.

Lemma cores_replace D D' n i b : 0 <= i < n -> n <= zlen D -> zlen D' = zlen D ->
  (forall k, k <> i -> bcore <$> zget D' k = bcore <$> zget D k) ->
  zget D' i = Some b -> live b = true ->
  cores (pre n D') = cores (pre i D) ++ (b_val b, b_h b, b_key b) :: cores (drop (S (Z.to_nat i)) (pre n D)).
Proof.
  intros Hi Hn Hl Hk Hb Hd. rewrite (pre_split D' n i b) by (done || lia).
  rewrite cores_app, cores_cons, bcore_live by done. 
  assert (forall m : nat, m <> Z.to_nat i -> bcore <$> D' !! m = bcore <$> D !! m) as Hm.
  { intros m Hne. specialize (Hk (Z.of_nat m) ltac:(lia)). unfold zget in Hk.
    by rewrite (proj2 (Z.leb_le _ _)), Nat2Z.id in Hk by lia. }
  f_equal; [|f_equal]; apply cores_ext, list_eq; intros m; rewrite !list_lookup_fmap; unfold pre.
  - destruct (decide (m < Z.to_nat i)%nat);
      [rewrite !lookup_take_lt by lia; apply Hm; lia|rewrite !lookup_take_ge by lia; done].
  - rewrite !lookup_drop.
    destruct (decide (S (Z.to_nat i) + m < Z.to_nat n)%nat);
      [rewrite !lookup_take_lt by lia; apply Hm; lia|rewrite !lookup_take_ge by lia; done].
Qed.

Section Rekey.
Context {E : ZendEnv}.

(** The bucket leaves its chain. *)
Lemma unlink_step ht cs i b : mixed ht cs -> at_index ht i b ->
  exists prev x, prev_ok (arHash ht) (arData ht) (nNumUsed ht) i b prev
    /\ HT_HASH ht (nIndex_of ht (b_h b)) = Ok x
    /\ (if x =? i then HT_HASH_set ht (nIndex_of ht (b_h b)) (b_next b)
        else
          j ← find_prev (chain_fuel ht) (arData ht) x i;
          q ← rd (arData ht) j;
          D ← wr (arData ht) j (with_next (b_next b) q);
          Ok (set_arData D ht))
       = Ok (set_alloc (nTableMask ht) (unlink_H (arHash ht) b prev) (unlink_D (arData ht) b prev) (arPacked ht) ht).
Proof.
  intros Hm Hat. pose proof Hat as (Hi & Hb & Hl). pose proof (mixed_geom _ _ Hm) as Hg.
  destruct (mx_chains _ _ Hm (b_h b mod zlen (arHash ht))) as (x & Hx & Hch); [by apply slot_range|].
  assert (i ∈ chain_idx (arData ht) (zlen (arHash ht)) (nNumUsed ht) (b_h b mod zlen (arHash ht))) as Hin.
  { apply elem_of_chain_idx. split; [lia|]. unfold in_slot. by rewrite Hb, Hl, Z.eqb_refl. }
  apply list_elem_of_split in Hin as (l1 & l2 & Hl12).
  pose proof (NoDup_chain_idx (arData ht) (zlen (arHash ht)) (nNumUsed ht) (b_h b mod zlen (arHash ht))) as Hnd.
  pose proof (length_chain_idx (arData ht) (zlen (arHash ht)) (nNumUsed ht) (b_h b mod zlen (arHash ht))) as Hlen.
  exists (last l1), x. split; [by exists l1, l2|]. split; [by apply HT_HASH_ok|].
  rewrite Hl12 in Hch, Hnd, Hlen. destruct (chain_mid _ _ _ _ _ Hch) as (_ & _ & _ & Hnil & Hlast).
  unfold unlink_H, unlink_D. destruct (last l1) as [j|] eqn:El.
  - assert (x <> i) as Hne.
    { intros ->. destruct l1 as [|a l1]; [done|]. inversion Hch; subst. cbn in Hnd.
      apply NoDup_cons in Hnd as [Hn _]. apply Hn, elem_of_app. right. by left. }
    destruct (Hlast j eq_refl) as (q & Hq & _). rewrite (proj2 (Z.eqb_neq _ _)) by done.
    rewrite (find_prev_spec _ _ _ _ _ _ _ Hnd Hch El), bind_ok, (rd_ok _ _ _ Hq), bind_ok, Hq.
    + rewrite wr_ok by (eapply zget_Some_range; eauto). done.
    + rewrite length_app in Hlen. destruct (mx_geom _ _ Hm) as [_ _ Hda Hus].
      unfold chain_fuel, zlen in *. cbn in Hlen. lia.
  - apply last_None in El. rewrite (Hnil El), Z.eqb_refl. by rewrite (HT_HASH_set_ok ht _ _ Hg).
Qed.

Lemma unlinked_D H D n i b prev : prev_ok H D n i b prev -> n <= zlen D ->
  zget (unlink_D D b prev) i = zget D i /\ zlen (unlink_D D b prev) = zlen D
  /\ forall k, bcore <$> zget (unlink_D D b prev) k = bcore <$> zget D k.
Proof.
  intros Hp Hn. unfold unlink_D. destruct prev as [j|]; [|done].
  destruct (prev_in_slot _ _ _ _ _ _ _ Hp eq_refl) as (Hji & Hjr & _).
  destruct (zget D j) as [q|] eqn:Hq; [|done]. split_and!.
  - by rewrite zget_zset_ne by lia.
  - apply zlen_zset.
  - intros k. destruct (decide (k = j)) as [->|]; [by rewrite zget_zset_eq, Hq by lia|].
    by rewrite zget_zset_ne by (done || lia).
Qed.

Definition rekey_events (old key : Z) : list event :=
  (if ZSTR_IS_INTERNED key then [] else [EvAddref key]) ++ [EvRelease old].

(** The bucket, out of its old chain, gets its new key and joins the chain for it. *)
Lemma relink_step ht cs i b prev key fuel : mixed ht cs -> at_index ht i b ->
  prev_ok (arHash ht) (arData ht) (nNumUsed ht) i b prev -> (Z.to_nat (nNumUsed ht) <= fuel)%nat ->
  let ht1 := set_alloc (nTableMask ht) (unlink_H (arHash ht) b prev) (unlink_D (arData ht) b prev) (arPacked ht) ht in
  let B := with_hkey (ZSTR_H key) (Some key) b in
  exists x H2 D2, HT_HASH ht1 (nIndex_of ht1 (ZSTR_H key)) = Ok x
    /\ (if (x =? HT_INVALID_IDX) || (x <? i) then
          D ← wr (arData ht1) i (with_next x B);
          HT_HASH_set (set_arData D ht1) (nIndex_of ht1 (ZSTR_H key)) i
        else
          j ← find_above fuel (arData ht1) x i;
          q ← rd (arData ht1) j;
          D ← wr (arData ht1) i (with_next (b_next q) B);
          D ← wr D j (with_next i q);
          Ok (set_arData D ht1))
       = Ok (set_alloc (nTableMask ht) H2 D2 (arPacked ht) ht)
    /\ zlen H2 = zlen (arHash ht) /\ zlen D2 = zlen (arData ht) /\ chains_ok H2 D2 (nNumUsed ht)
    /\ (exists nx, zget D2 i = Some (with_next nx B))
    /\ forall k, k <> i -> bcore <$> zget D2 k = bcore <$> zget (arData ht) k.
Proof.
  intros Hm Hat Hprev Hf ht1 B. pose proof Hat as (Hi & Hb & Hl).
  pose proof (mixed_geom _ _ Hm) as Hg. destruct (mx_geom _ _ Hm) as [Hs _ Hd Hu]. pose proof (size_ok_bounds _ Hs) as Hsz.
  unfold HT_MAX_SIZE in Hsz. set (H1 := unlink_H (arHash ht) b prev) in *. set (D1 := unlink_D (arData ht) b prev) in *.
  destruct (unlinked_D _ _ _ _ _ _ Hprev ltac:(lia)) as (HDi & HDl & HDk). fold D1 in HDi, HDl, HDk.
  assert (zlen H1 = zlen (arHash ht)) as HlH by (unfold H1, unlink_H; destruct prev; [done|apply zlen_zset]).
  assert (geom ht1) as Hg1 by (destruct Hg as (j & Hj & Hmk & Hlw); exists j; cbn; by rewrite HlH).
  set (D0 := zset D1 i (with_val IS_UNDEF b)).
  assert (chains_ok H1 D0 (nNumUsed ht)) as Hc0.
  { eapply chains_remove; try done; [by apply geom_pos|apply (mx_chains _ _ Hm)| |].
    - intros k Hk. unfold D0. by rewrite zget_zset_ne by (done || lia).
    - intros b2. unfold D0. rewrite zget_zset_eq by (rewrite HDl; lia). intros Hb2. by injection Hb2 as <-. }
  destruct (zget_is_Some H1 (b_h B mod zlen H1)) as [x Hx]; [by apply (slot_range ht1)|].
  assert (forall k, k <> i -> zget D1 k = zget D0 k) as HD10.
  { intros k Hk. unfold D0. by rewrite zget_zset_ne by (done || lia). }
  assert (nNumUsed ht <= zlen D0) as HlD0 by (unfold D0; rewrite zlen_zset, HDl; lia).
  assert (nNumUsed ht < HT_INVALID_IDX) as Hinv by (unfold HT_INVALID_IDX; lia).
  assert (zget D0 i = Some (with_val IS_UNDEF b)) as HD0i by (apply zget_zset_eq; rewrite HDl; lia).
  pose proof (chains_relink H1 D0 D1 (nNumUsed ht) i (with_val IS_UNDEF b) B x fuel HD10 (geom_pos ht1 Hg1) Hc0 Hi HlD0 Hinv
    HD0i eq_refl Hl Hx Hf) as Hrl.
  exists x. change (arData ht1) with D1.
  destruct ((x =? HT_INVALID_IDX) || (x <? i)) eqn:Ec.
  - eexists _, _. split; [by apply (HT_HASH_ok ht1)|]. rewrite wr_ok, bind_ok by (rewrite HDl; lia). split.
    { pose proof (HT_HASH_set_ok (set_arData (zset D1 i (with_next x B)) ht1) (ZSTR_H key) i Hg1) as Hst. exact Hst. }
    cbn [set_arData set_alloc arHash arData ht1]. rewrite !zlen_zset. unfold D0 in Hrl. rewrite zset_zset in Hrl.
    split_and!; try done; [by eexists; apply zget_zset_eq; rewrite HDl; lia|].
    intros k Hk. by rewrite zget_zset_ne by (done || lia).
  - destruct Hrl as (j & q & Hfa & Hq & Hji & Hjr & Hrl).
    assert (zget D1 j = Some q) as Hq1 by (rewrite <- Hq; unfold D0; by rewrite zget_zset_ne by lia).
    eexists _, _. split; [by apply (HT_HASH_ok ht1)|]. rewrite Hfa, bind_ok, (rd_ok _ _ _ Hq1), bind_ok.
    rewrite wr_ok, bind_ok, wr_ok, bind_ok by (rewrite ?zlen_zset, HDl; lia). split; [done|].
    unfold D0 in Hrl. rewrite zset_zset in Hrl. rewrite !zlen_zset. split_and!; try done.
    + eexists. rewrite zget_zset_ne by (done || lia). apply zget_zset_eq. rewrite HDl. lia.
    + intros k Hk. rewrite <- HDk. destruct (decide (k = j)) as [->|Hkj].
      * rewrite zget_zset_eq, Hq1 by (rewrite zlen_zset, HDl; lia). done.
      * by rewrite !zget_zset_ne by (done || lia).
Qed.
(** The abstract operation: the entry at [k] gets the key [k'] and keeps its place. *)
Definition orename (k k' : hkey) (l : list (hkey * zval)) : list (hkey * zval) :=
  (fun e => if decide (e.1 = k) then (k', e.2) else e) <$> l.

Lemma orename_id k k' l : k ∉ okeys l -> orename k k' l = l.
Proof.
  induction l as [|[k0 v0] l IH]; cbn; [done|]. intros [Hne Hl]%not_elem_of_cons.
  rewrite decide_False by done. f_equal. by apply IH.
Qed.

Lemma orename_middle k k' v l1 l2 : NoDup (okeys (l1 ++ (k, v) :: l2)) ->
  orename k k' (l1 ++ (k, v) :: l2) = l1 ++ (k', v) :: l2.
Proof.
  intros (H1 & H2 & _)%NoDup_middle. unfold orename. rewrite fmap_app, fmap_cons. cbn.
  rewrite decide_True by done. f_equal; [by apply orename_id|]. f_equal. by apply orename_id.
Qed.

Lemma at_index_inj ht cs i j b c : mixed ht cs -> NoDup (okeys (centry <$> cs)) -> at_index ht i b -> at_index ht j c ->
  bkey b = bkey c -> i = j.
Proof.
  intros Hm Hnd. revert i j b c.
  assert (forall i j b c, at_index ht i b -> at_index ht j c -> bkey b = bkey c -> i < j -> False) as H.
  { intros i j b c Hi Hj Hk Hlt. pose proof (mixed_split _ _ _ _ Hm Hj) as Hs. rewrite Hs, fmap_app, fmap_cons in Hnd.
    change (centry (b_val c, b_h c, b_key c)) with (bkey c, b_val c) in Hnd. apply NoDup_middle in Hnd as (Hn & _).
    apply Hn. rewrite <- Hk. unfold okeys. rewrite <- list_fmap_compose. destruct Hi as (Hi & Hb & Hl).
    destruct Hj as (Hj & _). destruct (mx_geom _ _ Hm) as [_ _ Hd Hu].
    apply list_elem_of_fmap. exists (b_val b, b_h b, b_key b). split; [done|].
    apply elem_of_cores; [lia|]. exists i, b. split_and!; [lia|lia|done|by rewrite bcore_live]. }
  intros i j b c Hi Hj Hk. destruct (Z.lt_trichotomy i j) as [Hlt|[Heq|Hlt]]; [|exact Heq|].
  - exfalso. by apply (H i j b c).
  - exfalso. by apply (H j i c b).
Qed.

Lemma side_ok_rekey st st' nf c1 c2 v h old key : side_ok st nf (c1 ++ (v, h, old) :: c2) ->
  KStr (ZSTR_VAL key) ∉ okeys (centry <$> (c1 ++ (v, h, old) :: c2)) ->
  (st' = true -> st = true /\ ZSTR_IS_INTERNED key = true) ->
  side_ok st' nf (c1 ++ (v, ZSTR_H key, Some key) :: c2).
Proof.
  intros (Hn & Hw & Hst & Hr & Hf) Hk Hs. rewrite fmap_app, fmap_cons in *. split_and!.
  - rewrite fmap_app, fmap_cons. change (centry (v, ZSTR_H key, Some key)) with (KStr (ZSTR_VAL key), v).
    destruct (centry (v, h, old)) as [k0 v0]. apply NoDup_middle in Hn as (_ & _ & Hn). apply NoDup_middle.
    rewrite okeys_app in Hk. apply not_elem_of_app in Hk as [H1 [_ H2]%not_elem_of_cons]. done.
  - rewrite Forall_app, Forall_cons in *. split_and!; [apply Hw|done|apply Hw].
  - intros [Ht Hi]%Hs. specialize (Hst Ht). rewrite Forall_app, Forall_cons in *. split_and!; [apply Hst|done|apply Hst].
  - split; [done|]. intros h0 v0 [Hin|[Heq|Hin]%elem_of_cons]%elem_of_app; [|done|];
      apply (Hf h0 v0); apply elem_of_app; [by left|right; by right].
Qed.

Definition rekeyed (w : world) (ht : HashTable) (i old key : Z) (o : world * HashTable * option zptr) : Prop :=
  let '(w', ht', r) := o in
  ht_inv ht' /\
  if decide (KStr (ZSTR_VAL key) ∈ okeys (ht_elements ht)) then
    w' = w /\ ht' = ht /\ r = if decide (ZSTR_VAL key = ZSTR_VAL old) then Some (PData i) else None
  else
    w' = add_events (rekey_events old key) w /\ r = Some (PData i)
    /\ ht_elements ht' = orename (KStr (ZSTR_VAL old)) (KStr (ZSTR_VAL key)) (ht_elements ht)
    /\ nNextFreeElement ht' = nNextFreeElement ht.

Lemma set_bucket_key_fresh w ht i b old key : ht_inv ht -> mixed ht (ht_cores ht) -> at_index ht i b -> b_key b = Some old ->
  KStr (ZSTR_VAL key) ∉ okeys (ht_elements ht) -> zend_hash_find_bucket ht key = Ok None ->
  exists o, zend_hash_set_bucket_key w ht i key = Ok o /\ rekeyed w ht i old key o.
Proof.
  intros Hinv Hm Hat Hold Hk Hfind. unfold zend_hash_set_bucket_key.
  rewrite (mx_packed _ _ Hm). cbn [negb assert_]. rewrite bind_ok, Hfind, bind_ok.
  set (ht0 := if ZSTR_IS_INTERNED key then ht else set_static false ht).
  set (w1 := if ZSTR_IS_INTERNED key then w else log (EvAddref key) w).
  assert ((if ZSTR_IS_INTERNED key then (w, ht) else (log (EvAddref key) w, set_static false ht)) = (w1, ht0)) as ->
    by (unfold w1, ht0; by destruct (ZSTR_IS_INTERNED key)).
  assert (mixed ht0 (ht_cores ht)) as Hm0 by (unfold ht0; destruct (ZSTR_IS_INTERNED key); [done|destruct Hm as [[] ? ? ? ? ? ?]; by split]).
  assert (at_index ht0 i b) as Hat0 by (unfold ht0; by destruct (ZSTR_IS_INTERNED key)).
  destruct (unlink_step ht0 _ i b Hm0 Hat0) as (prev & x & Hprev & Hx & Hun).
  pose proof Hat0 as (Hi & Hb & Hl). destruct (mx_geom _ _ Hm0) as [Hs Hmask Hd Hu].
  rewrite (rd_ok _ _ _ Hb), bind_ok, Hx, bind_ok, Hun, bind_ok, Hold, bind_ok.
  destruct (relink_step ht0 _ i b prev key (chain_fuel ht0) Hm0 Hat0 Hprev) as (y & H2 & D2 & Hy & Hre & HlH & HlD & Hc & (nx & Hnx) & Hrest).
  { unfold chain_fuel, zlen in *. lia. }
  cbn zeta in Hy, Hre. rewrite Hy, bind_ok.
  set (ht1 := set_alloc _ _ _ _ ht0) in *.
  assert (chain_fuel ht1 = chain_fuel ht0) as ->.
  { destruct (unlinked_D _ _ _ _ _ _ Hprev ltac:(lia)) as (_ & Hlen & _). unfold chain_fuel, ht1. cbn. unfold zlen in Hlen. lia. }
  rewrite Hre, bind_ok. eexists. split; [done|].
  pose proof (mixed_split _ _ _ _ Hm0 Hat0) as Hsp. pose proof (inv_side _ Hinv) as Hside.
  set (c1 := cores (pre i (arData ht0))) in *. set (c2 := cores (drop _ _)) in *.
  set (ht2 := set_alloc _ H2 D2 _ ht0).
  assert (mixed ht2 (c1 ++ (b_val b, ZSTR_H key, Some key) :: c2)) as Hm2.
  { split; try apply Hm0; try done; cbn.
    - split; cbn; [done|done|lia|lia].
    - rewrite HlH. apply Hm0.
    - by rewrite (cores_replace (arData ht0) D2 (nNumUsed ht0) i _ ltac:(lia) ltac:(lia) HlD Hrest Hnx Hl).
    - rewrite (mx_count _ _ Hm0), Hsp. unfold zlen. rewrite !length_app. done. }
  rewrite Hsp in Hside. pose proof Hk as Hk'. unfold ht_elements in Hk'. rewrite Hsp in Hk'.
  destruct (mixed_inv _ _ Hm2) as [Hinv2 He].
  { assert (nNextFreeElement ht2 = nNextFreeElement ht) as -> by (unfold ht2, ht0; by destruct (ZSTR_IS_INTERNED key)).
    eapply side_ok_rekey; [exact Hside|exact Hk'|]. unfold ht2, ht0. by destruct (ZSTR_IS_INTERNED key). }
  unfold rekeyed. split; [done|]. rewrite decide_False by done. split_and!; [|done| |].
  - unfold w1, rekey_events, add_events, log. by destruct (ZSTR_IS_INTERNED key); cbn; rewrite <- ?app_assoc.
  - rewrite He. unfold ht_elements. destruct Hside as (Hnd & _). rewrite Hsp, !fmap_app, !fmap_cons in *.
    assert (centry (b_val b, b_h b, b_key b) = (KStr (ZSTR_VAL old), b_val b)) as Hce by (by rewrite Hold).
    rewrite Hce in *. by rewrite orename_middle.
  - unfold ht2, ht0. by destruct (ZSTR_IS_INTERNED key).
Qed.

Lemma set_bucket_key_ok w ht i b old key : ht_inv ht -> f_packed ht = false -> f_uninit ht = false ->
  at_index ht i b -> b_key b = Some old ->
  exists o, zend_hash_set_bucket_key w ht i key = Ok o /\ rekeyed w ht i old key o.
Proof.
  intros Hinv Hp Hun Hat Hold. destruct (inv_layout _ Hinv) as [Hun' _ _ _ _|_ Hp' _ _ _ _|Hm]; [congruence..|].
  destruct (mixed_find ht _ _ _ Hm (inv_wf _ Hinv) (tests_key key)) as (idx & r & H1 & H2 & H3).
  assert (zend_hash_find_bucket ht key = Ok r) as Hf by (by rewrite find_bucket_eq, H1, bind_ok).
  destruct r as [j|]; cbn in H3; [|by eapply set_bucket_key_fresh].
  destruct H3 as (c & Hj & Hc). unfold zend_hash_set_bucket_key.
  rewrite Hp. cbn [negb assert_]. rewrite bind_ok, Hf, bind_ok. eexists. split; [done|]. split; [done|].
  rewrite decide_True by (apply (mixed_key_index _ _ _ Hm); eauto). split_and!; [done..|].
  assert (bkey b = KStr (ZSTR_VAL old)) as Hbk by (unfold bkey, ckey; cbn; by rewrite Hold).
  destruct (Z.eqb_spec j i) as [->|Hne].
  - destruct Hat as (_ & Hb & _), Hj as (_ & Hc' & _). rewrite decide_True; [done|]. congruence.
  - rewrite decide_False; [done|]. intros Heq. apply Hne. symmetry.
    eapply at_index_inj; [exact Hm|apply Hinv|exact Hat|exact Hj|congruence].
Qed.
End Rekey.

(** ** The contract *)

Section Theorems7.
Context {E : ZendEnv}.

(** zend_hash_set_bucket_key gives a bucket a new string key. When no element has
    that key, the element keeps its place and its value, the other elements are
    untouched, the new key gains a reference and the old one is released. When the
    key is taken nothing changes, and the caller gets the element back if the key
    is its own, NULL otherwise. The invariant holds in every case. *)
Theorem zend_hash_set_bucket_key_correct w ht i b old key : ht_inv ht ->
  f_packed ht = false -> f_uninit ht = false -> at_index ht i b -> b_key b = Some old ->
  exists w' ht' r, zend_hash_set_bucket_key w ht i key = Ok (w', ht', r) /\ ht_inv ht' /\
    if decide (KStr (ZSTR_VAL key) ∈ okeys (ht_elements ht)) then
      w' = w /\ ht' = ht /\ r = if decide (ZSTR_VAL key = ZSTR_VAL old) then Some (PData i) else None
    else
      w' = add_events (rekey_events old key) w /\ r = Some (PData i)
      /\ ht_elements ht' = orename (KStr (ZSTR_VAL old)) (KStr (ZSTR_VAL key)) (ht_elements ht)
      /\ nNextFreeElement ht' = nNextFreeElement ht.
Proof.
  intros H1 H2 H3 H4 H5. destruct (set_bucket_key_ok w ht i b old key H1 H2 H3 H4 H5) as ([[w' ht'] r] & Hr & Hk).
  by exists w', ht', r.
Qed.
End Theorems7.

Lemma zend_hash_set_bucket_key_correct_witness : exists w' ht' r,
  zend_hash_set_bucket_key w0 demo_ht 0 str_b = Ok (w', ht', r) /\ ht_inv ht' /\
  if decide (KStr [98] ∈ okeys (ht_elements demo_ht)) then
    w' = w0 /\ ht' = demo_ht /\ r = if decide ([98] = [97]) then Some (PData 0) else None
  else
    w' = add_events (rekey_events str_a str_b) w0 /\ r = Some (PData 0)
    /\ ht_elements ht' = orename (KStr [97]) (KStr [98]) (ht_elements demo_ht)
    /\ nNextFreeElement ht' = nNextFreeElement demo_ht.
Proof.
  exact (zend_hash_set_bucket_key_correct w0 demo_ht 0 _ str_a str_b demo_ht_inv eq_refl eq_refl demo_ht_at_0 eq_refl).
Defined.

(** ["a" => 1, 5 => 2] becomes ["b" => 1, 5 => 2]. *)
Example zend_hash_set_bucket_key_runs :
  ('(_, ht', _) ← zend_hash_set_bucket_key w0 demo_ht 0 str_b; Ok (ht_elements ht'))
  = Ok [(KStr [98], ZVal 4 1); (KInt 5, ZVal 4 2)].
Proof. vm_compute. reflexivity. Qed.

(** ** Findings *)

(** Eight integer keys from 100 on, in a hash. *)
Definition eight : res (world * HashTable) :=
  ht ← _zend_hash_init_int 1000 8 true;
  foldr (fun i acc => '(w, ht) ← acc;
                      '(w, ht, _) ← zend_hash_index_update w ht (100 + Z.of_nat i) (ZVal 4 (Z.of_nat i));
                      Ok (w, ht)) (Ok (w0, ht)) (rev (seq 0 8)).

(** Two holes before the element 103; one iterator waits in the second hole, the
    other one at the element itself. *)
Definition two_iterators : res (world * HashTable) :=
  '(w, ht) ← eight;
  '(w, ht, _) ← zend_hash_index_del w ht 101;
  '(w, ht, _) ← zend_hash_index_del w ht 102;
  Ok (set_iterators_used 2 (set_iterators [mkIter 1000 2; mkIter 1000 3] w), set_iters 2 ht).

(** Both iterators stand for the element 103, which zend_hash_rehash moves to
    index 1; the second one ends up at index 2, behind it: the loop over iterator
    positions stops before the position of the moved bucket itself. *)
Example rehash_iterator_drift :
  ('(w, ht) ← two_iterators; '(w, ht) ← zend_hash_rehash w ht;
   Ok (ht_elements ht !! 1%nat, it_pos <$> ht_iterators w))
  = Ok (Some (KInt 103, ZVal 4 3), [1; 2]).
Proof. vm_compute. reflexivity. Qed.

(** An uninitialised table with one iterator: the first allocation of a table of
    the minimal size keeps the iterator count, that of a larger table clears it. *)
Example real_init_iterator_count :
  (ht8 ← _zend_hash_init_int 1000 8 true; ht16 ← _zend_hash_init_int 1000 16 true;
   Ok (nIteratorsCount (zend_hash_real_init_mixed (set_iters 1 ht8)),
       nIteratorsCount (zend_hash_real_init_mixed (set_iters 1 ht16)))) = Ok (1, 0).
Proof. vm_compute. reflexivity. Qed.

(** Keys 0, 1, 2; the last two are deleted and key 1 is stored again: the next free
    index of a packed array goes down from 3 to 2, that of a hash stays at 3, so the
    next appended element gets a different key in the two layouts. *)
Definition delete_and_restore (ht : HashTable) : res Z :=
  '(w, ht, _) ← zend_hash_index_update w0 ht 0 (ZVal 4 1);
  '(w, ht, _) ← zend_hash_index_update w ht 1 (ZVal 4 1);
  '(w, ht, _) ← zend_hash_index_update w ht 2 (ZVal 4 1);
  '(w, ht, _) ← zend_hash_index_del w ht 2;
  '(w, ht, _) ← zend_hash_index_del w ht 1;
  '(w, ht, _) ← zend_hash_index_update w ht 1 (ZVal 4 2);
  Ok (nNextFreeElement ht).

Example packed_next_free_decreases :
  (ht ← _zend_hash_init_int 1000 8 true;
   packed ← delete_and_restore (zend_hash_real_init_packed ht);
   hash ← delete_and_restore (zend_hash_real_init_mixed ht);
   Ok (packed, hash)) = Ok (2, 3).
Proof. vm_compute. reflexivity. Qed.

(** An iterator of a table with a saturated count is moved to another table:
    zend_hash_iterator_pos leaves the saturated count alone, zend_hash_iterator_pos_ex,
    which tests the count of the other table, takes it down to 254. *)
Definition saturated : res (heap * world) :=
  a ← _zend_hash_init_int 1000 8 true;
  b ← _zend_hash_init_int 2000 8 true;
  Ok (<[1000 := set_iters 255 a]> (<[2000 := b]> ∅), set_iterators [mkIter 1000 0] w0).

Definition iters_of (hp : heap) : res (Z * Z) :=
  a ← load hp 1000; b ← load hp 2000; Ok (nIteratorsCount a, nIteratorsCount b).

Example iterator_pos_ex_saturated :
  ('(hp, w) ← saturated; '(_, hp, _) ← zend_hash_iterator_pos w hp 0 2000; iters_of hp) = Ok (255, 1)
  /\ ('(hp, w) ← saturated;
      let R := <[2000 := mkCounted 1 IS_UNDEF]> ∅ in
      '(_, _, hp, _, _) ← zend_hash_iterator_pos_ex 3000 w R hp 0 2000; iters_of hp) = Ok (254, 1).
Proof. split; vm_compute; reflexivity. Qed.
