(* ===== verification/ZendDouble.v ===== *)
(** * Doubles (IEEE 754 binary64) as the engine stores them

    A double value is its 64-bit pattern; arithmetic goes through the
    specification floats of the Standard Library. *)

From Stdlib Require Import Floats.SpecFloat.
From S2P Require Import Prelude.

Definition double_of_bits (x : Z) : spec_float :=
  let s := Z.testbit x 63 in
  let e := Z.land (Z.shiftr x 52) 0x7ff in
  let m := Z.land x (2 ^ 52 - 1) in
  if e =? 0 then match m with Zpos p => S754_finite s p (-1074) | _ => S754_zero s end
  else if e =? 0x7ff then match m with Zpos _ => S754_nan | _ => S754_infinity s end
  else match m + 2 ^ 52 with Zpos p => S754_finite s p (e - 1075) | _ => S754_nan end.

Definition double_sub : spec_float -> spec_float -> spec_float := SFsub 53 1024.
Definition double_eq : spec_float -> spec_float -> bool := SFeqb.
(** [(double) n] *)
Definition double_of_long (n : Z) : spec_float := binary_normalize 53 1024 n 0 false.

(** [ZEND_NORMALIZE_BOOL(n)] of a double: a NaN is not zero and not negative. *)
Definition normalize_double (d : spec_float) : Z :=
  match d with
  | S754_zero _ => 0
  | S754_infinity s | S754_finite s _ _ => if s then -1 else 1
  | S754_nan => 1
  end.

Example normalize_half : normalize_double (double_sub (double_of_bits 0x3fe0000000000000) (double_of_long 1)) = -1.
Proof. vm_compute. reflexivity. Qed.
