(* ===== verification/SplHeapOps.v ===== *)
(** * Heaps and priority queues (ext/spl/spl_heap.c)

    An array-based binary heap whose comparison may be a method written in PHP:
    it has a state of its own and may throw. The first section is the heap proper,
    for any type of elements and any comparison; the second has the classes
    SplHeap, SplMinHeap, SplMaxHeap and SplPriorityQueue. *)

From Stdlib Require Import Floats.SpecFloat.
From S2P Require Import Prelude.
From S2P Require Import HashTypes.
From S2P Require Import HashOps.
From S2P Require Import Stack.
From S2P Require Import ZendDouble.

Definition PTR_HEAP_BLOCK_SIZE : Z := 64.
Definition SPL_HEAP_CORRUPTED : Z := 1.
Definition SPL_HEAP_WRITE_LOCKED : Z := 2.
Definition set_bits (flags f : Z) : Z := Z.lor flags f.
Definition clear_bits (flags f : Z) : Z := Z.ldiff flags f.

(** What the engine shares with the code that runs on it: the state of the user
    program, whether an exception is pending, and the values that gained or lost a
    reference. *)
Inductive vm_event : Type :=
| VAddref (v : zval)
| VDtor (v : zval).
Record vm (S : Type) : Type := mkVM {
  vm_user : S;
  EG_exception : bool;
  vm_trace : list vm_event;
}.
Arguments mkVM {S} _ _ _.
Arguments vm_user {S} _.
Arguments EG_exception {S} _.
Arguments vm_trace {S} _.

Definition vm_log {S} (l : list vm_event) (w : vm S) : vm S :=
  mkVM (vm_user w) (EG_exception w) (vm_trace w ++ l).

(** ** The heap

    [A] is the type of elements, [F] that of pointers to comparison functions,
    [call_cmp cmp userdata] a call of one, [ctor] and [dtor] what the constructor
    and the destructor of an element log. [zero] is an element of zero bytes. *)
Record spl_ptr_heap (A F : Type) : Type := mkHeap {
  elements : list A;
  cmp : F;
  count : Z;
  flags : Z;
  max_size : Z;
  elem_size : Z;
}.
Arguments mkHeap {A F} _ _ _ _ _ _.
Arguments elements {A F} _.
Arguments cmp {A F} _.
Arguments count {A F} _.
Arguments flags {A F} _.
Arguments max_size {A F} _.
Arguments elem_size {A F} _.

Section Heap.
Context {A F U S : Type}.
Context (zero : A) (ctor dtor : A -> list vm_event) (call_cmp : F -> U -> vm S -> A -> A -> res (vm S * Z)).
Implicit Types (heap : spl_ptr_heap A F) (w : vm S) (els : list A).

Definition set_heap_flags (f : Z) heap : spl_ptr_heap A F :=
  mkHeap (elements heap) (cmp heap) (count heap) f (max_size heap) (elem_size heap).
Definition set_heap_cmp (c : F) heap : spl_ptr_heap A F :=
  mkHeap (elements heap) c (count heap) (flags heap) (max_size heap) (elem_size heap).

Definition spl_heap_elem_copy els (to from : Z) : res (list A) :=
  _ ← assert_ (negb (to =? from));
  x ← rd els from;
  wr els to x.

Definition spl_ptr_heap_init (cmp : F) (elem_size : Z) : spl_ptr_heap A F :=
  mkHeap (replicate (Z.to_nat PTR_HEAP_BLOCK_SIZE) zero) cmp 0 0 PTR_HEAP_BLOCK_SIZE elem_size.

(** The block is doubled when it is full; safe_erealloc stops the program when the
    size in bytes overflows. *)
Definition heap_grow heap : res (spl_ptr_heap A F) :=
  c ← int_add (count heap) 1;
  if max_size heap <? c then
    let alloc_size := u64 (max_size heap * elem_size heap) in
    if 2 ^ 64 <=? 2 * alloc_size then Fatal
    else Ok (mkHeap (elements heap ++ replicate (Z.to_nat (max_size heap)) zero) (cmp heap) (count heap)
               (flags heap) (u64 (max_size heap * 2)) (elem_size heap))
  else Ok heap.

(** [for (i = heap->count; i > 0 && cmp(parent, elem) < 0; i = (i-1)/2)] *)
Fixpoint sift_up (fuel : nat) (c : F) (ud : U) w els (elem : A) (i : Z) : res (vm S * list A * Z) :=
  match fuel with
  | O => Ub
  | Datatypes.S fuel =>
      if 0 <? i then
        let p := Z.quot (i - 1) 2 in
        x ← rd els p;
        '(w, r) ← call_cmp c ud w x elem;
        if r <? 0 then els ← spl_heap_elem_copy els i p; sift_up fuel c ud w els elem p
        else Ok (w, els, i)
      else Ok (w, els, i)
  end.

Definition corrupt_if (b : bool) (f : Z) : Z := if b then set_bits f SPL_HEAP_CORRUPTED else f.

Definition spl_ptr_heap_insert w heap (elem : A) (ud : U) : res (vm S * spl_ptr_heap A F) :=
  heap ← heap_grow heap;
  let locked := set_bits (flags heap) SPL_HEAP_WRITE_LOCKED in
  '(w, els, i) ← sift_up (Datatypes.S (Z.to_nat (count heap))) (cmp heap) ud w (elements heap) elem (count heap);
  c ← int_add (count heap) 1;
  let unlocked := clear_bits locked SPL_HEAP_WRITE_LOCKED in
  let f := corrupt_if (EG_exception w) unlocked in
  els ← wr els i elem;
  Ok (w, mkHeap els (cmp heap) c f (max_size heap) (elem_size heap)).

(** The index of the top element, [None] for NULL. *)
Definition spl_ptr_heap_top heap : option Z := if count heap =? 0 then None else Some 0.

(** [for (i = 0; i < limit; i = j)]; [n] is the decremented count, the index of
    [bottom]. *)
Fixpoint sift_down (fuel : nat) (c : F) (ud : U) (n limit : Z) w els (i : Z) : res (vm S * list A * Z) :=
  match fuel with
  | O => Ub
  | Datatypes.S fuel =>
      if i <? limit then
        let j := i * 2 + 1 in
        '(w, j) ← (if negb (j =? n) then
                     x ← rd els (j + 1); y ← rd els j;
                     '(w, r) ← call_cmp c ud w x y;
                     Ok (w, if 0 <? r then j + 1 else j)
                   else Ok (w, j));
        bottom ← rd els n; y ← rd els j;
        '(w, r) ← call_cmp c ud w bottom y;
        if r <? 0 then els ← spl_heap_elem_copy els i j; sift_down fuel c ud n limit w els j
        else Ok (w, els, i)
      else Ok (w, els, i)
  end.

(** [keep] says whether the caller wants the element ([elem] is not NULL); without
    it the element is destroyed. *)
Definition spl_ptr_heap_delete_top w heap (keep : bool) (ud : U)
    : res (vm S * spl_ptr_heap A F * option A * zend_result) :=
  let limit := Z.quot (count heap - 1) 2 in
  if count heap =? 0 then Ok (w, heap, None, FAILURE)
  else
    let locked := set_bits (flags heap) SPL_HEAP_WRITE_LOCKED in
    top ← rd (elements heap) 0;
    let w := if keep then w else vm_log (dtor top) w in
    let n := count heap - 1 in
    '(w, els, i) ← sift_down (Datatypes.S (Z.to_nat (count heap))) (cmp heap) ud n limit w (elements heap) 0;
    let unlocked := clear_bits locked SPL_HEAP_WRITE_LOCKED in
    let f := corrupt_if (EG_exception w) unlocked in
    els ← (if negb (i =? n) then spl_heap_elem_copy els i n else Ok els);
    Ok (w, mkHeap els (cmp heap) n f (max_size heap) (elem_size heap), if keep then Some top else None, SUCCESS).

(** The calls of a constructor or destructor on the elements [i], [i + 1], ... *)
Fixpoint each_elem (fuel : nat) (f : A -> list vm_event) w els (n i : Z) : res (vm S) :=
  match fuel with
  | O => Ub
  | Datatypes.S fuel =>
      if i <? n then x ← rd els i; each_elem fuel f (vm_log (f x) w) els n (i + 1) else Ok w
  end.

Definition spl_ptr_heap_clone w (from : spl_ptr_heap A F) : res (vm S * spl_ptr_heap A F) :=
  if 2 ^ 64 <=? elem_size from * max_size from then Fatal
  else
    let heap := mkHeap (elements from) (cmp from) (count from) (flags from) (max_size from) (elem_size from) in
    w ← each_elem (Datatypes.S (Z.to_nat (count heap))) ctor w (elements heap) (count heap) 0;
    Ok (w, heap).

(** The heap and its block are freed: nothing is left of it. *)
Definition spl_ptr_heap_destroy w heap : res (vm S) :=
  each_elem (Datatypes.S (Z.to_nat (count heap))) dtor w (elements heap) (count heap) 0.

Definition spl_ptr_heap_count heap : Z := count heap.
End Heap.

(** ** Comparison of values *)

Definition IS_FALSE : Z := 2.
Definition IS_TRUE : Z := 3.
Definition IS_LONG : Z := 4.
Definition IS_DOUBLE : Z := 5.

Definition Z_TYPE (v : zval) : Z :=
  match v with
  | IS_UNDEF => 0
  | IS_NULL => 1
  | IS_REFERENCE _ => 10
  | IS_INDIRECT _ => 12
  | ZVal t _ => Z.land t 0xff
  end.

(** The members of the value union; reading one that the type does not select is
    undefined. *)
Definition Z_LVAL (v : zval) : res Z :=
  match v with ZVal _ p => if Z_TYPE v =? IS_LONG then Ok (i64 p) else Ub | _ => Ub end.
Definition Z_DVAL (v : zval) : res spec_float :=
  match v with ZVal _ p => if Z_TYPE v =? IS_DOUBLE then Ok (double_of_bits p) else Ub | _ => Ub end.

(** The program that runs on the engine. [call_compare] is a call of the method
    "compare", with its result as an integer, or nothing when it throws. It has a state of
    its own, but not the heap that it compares for: insert and extract on that heap are
    refused while a comparison runs (theorem SplHeap_exceptions); next(), which is not, is
    taken not to be called from it. [call_count] likewise for "count". [compare_other] is the comparison of values
    of the types not listed in [zend_compare]: strings, arrays, objects and mixed
    types, with whether it throws. [deref] reads through a reference. *)
Class PhpProgram (S : Type) : Type := {
  call_compare : S -> zval -> zval -> S * option Z;
  call_count : S -> S * option Z;
  compare_other : S -> zval -> zval -> S * bool * Z;
  deref : S -> zval -> zval;
}.

Definition threeway (a b : Z) : Z := if b <? a then 1 else if a <? b then -1 else 0.
Definition ZEND_NORMALIZE_BOOL (n : Z) : Z := if negb (n =? 0) then if n <? 0 then -1 else 1 else 0.

Section Compare.
Context {S : Type} {PP : PhpProgram S}.
Implicit Types (w : vm S) (a b : zval).

Definition zend_compare w a b : res (vm S * Z) :=
  let ta := Z_TYPE a in
  let tb := Z_TYPE b in
  if (ta =? IS_LONG) && (tb =? IS_LONG) then
    x ← Z_LVAL a; y ← Z_LVAL b; Ok (w, threeway x y)
  else if (ta =? IS_DOUBLE) && (tb =? IS_LONG) then
    x ← Z_DVAL a; y ← Z_LVAL b; Ok (w, normalize_double (double_sub x (double_of_long y)))
  else if (ta =? IS_LONG) && (tb =? IS_DOUBLE) then
    x ← Z_LVAL a; y ← Z_DVAL b; Ok (w, normalize_double (double_sub (double_of_long x) y))
  else if (ta =? IS_DOUBLE) && (tb =? IS_DOUBLE) then
    x ← Z_DVAL a; y ← Z_DVAL b;
    Ok (w, if double_eq x y then 0 else normalize_double (double_sub x y))
  else
    let '(u, exn, r) := compare_other (vm_user w) a b in
    Ok (mkVM u (EG_exception w || exn) (vm_trace w), r).

(** The result and whether the call succeeded. *)
Definition spl_ptr_heap_cmp_cb_helper w a b : vm S * option Z :=
  let '(u, r) := call_compare (vm_user w) a b in
  match r with
  | Some l => (mkVM u (EG_exception w) (vm_trace w), if EG_exception w then None else Some l)
  | None => (mkVM u true (vm_trace w), None)
  end.

(** The part the comparison functions share: [fptr_cmp] says whether the object
    has a "compare" method of its own, [dflt] compares without one. *)
Definition heap_cmp_with (dflt : vm S -> res (vm S * Z)) (fptr_cmp : bool) w a b : res (vm S * Z) :=
  if EG_exception w then Ok (w, 0)
  else if fptr_cmp then
    let '(w, r) := spl_ptr_heap_cmp_cb_helper w a b in
    match r with None => Ok (w, 0) | Some lval => Ok (w, ZEND_NORMALIZE_BOOL lval) end
  else dflt w.

Definition spl_ptr_heap_zval_max_cmp (fptr_cmp : bool) w a b : res (vm S * Z) :=
  heap_cmp_with (fun w => zend_compare w a b) fptr_cmp w a b.
Definition spl_ptr_heap_zval_min_cmp (fptr_cmp : bool) w a b : res (vm S * Z) :=
  heap_cmp_with (fun w => zend_compare w b a) fptr_cmp w a b.

Record spl_pqueue_elem : Type := mkPqElem { pq_data : zval; pq_priority : zval }.
Implicit Types (x y : spl_pqueue_elem).

Definition spl_ptr_pqueue_elem_cmp (fptr_cmp : bool) w x y : res (vm S * Z) :=
  heap_cmp_with (fun w => zend_compare w (pq_priority x) (pq_priority y)) fptr_cmp w (pq_priority x) (pq_priority y).
Definition spl_ptr_pqueue_elem_cmp_long w x y : res (vm S * Z) :=
  a ← Z_LVAL (pq_priority x); b ← Z_LVAL (pq_priority y);
  Ok (w, if b <? a then 1 else if a <? b then -1 else 0).
Definition spl_ptr_pqueue_elem_cmp_double w x y : res (vm S * Z) :=
  a ← Z_DVAL (pq_priority x); b ← Z_DVAL (pq_priority y);
  Ok (w, normalize_double (double_sub a b)).

(** Pointers to the comparison functions of the two kinds of heaps. *)
Inductive zval_cmp_func : Type := CMP_MAX | CMP_MIN.
Inductive pqueue_cmp_func : Type := CMP_ELEM | CMP_LONG | CMP_DOUBLE.
#[export] Instance pqueue_cmp_func_eq_dec : EqDecision pqueue_cmp_func.
Proof. solve_decision. Defined.

Definition call_zval_cmp (f : zval_cmp_func) (fptr_cmp : bool) : vm S -> zval -> zval -> res (vm S * Z) :=
  match f with
  | CMP_MAX => spl_ptr_heap_zval_max_cmp fptr_cmp
  | CMP_MIN => spl_ptr_heap_zval_min_cmp fptr_cmp
  end.
Definition call_pqueue_cmp (f : pqueue_cmp_func) (fptr_cmp : bool) : vm S -> spl_pqueue_elem -> spl_pqueue_elem -> res (vm S * Z) :=
  match f with
  | CMP_ELEM => spl_ptr_pqueue_elem_cmp fptr_cmp
  | CMP_LONG => spl_ptr_pqueue_elem_cmp_long
  | CMP_DOUBLE => spl_ptr_pqueue_elem_cmp_double
  end.
End Compare.

(** ** Objects *)

Definition SPL_PQUEUE_EXTR_MASK : Z := 3.
Definition SPL_PQUEUE_EXTR_BOTH : Z := 3.
Definition SPL_PQUEUE_EXTR_DATA : Z := 1.
Definition SPL_PQUEUE_EXTR_PRIORITY : Z := 2.

(** [fptr_cmp], [fptr_count]: whether the class overrides the method. *)
Record spl_heap_object (A F : Type) : Type := mkObj {
  o_heap : spl_ptr_heap A F;
  o_flags : Z;
  fptr_cmp : bool;
  fptr_count : bool;
}.
Arguments mkObj {A F} _ _ _ _.
Arguments o_heap {A F} _.
Arguments o_flags {A F} _.
Arguments fptr_cmp {A F} _.
Arguments fptr_count {A F} _.
Notation heap_obj := (spl_heap_object zval zval_cmp_func).
Notation pqueue_obj := (spl_heap_object spl_pqueue_elem pqueue_cmp_func).

Definition with_heap {A F} (h : spl_ptr_heap A F) (o : spl_heap_object A F) : spl_heap_object A F :=
  mkObj h (o_flags o) (fptr_cmp o) (fptr_count o).

(** What a method does: it returns a value, or throws one of the exceptions of
    this file. *)
Inductive heap_exception : Type :=
| HeapIsCorrupted
| HeapIsBeingModified
| ExtractFromEmpty
| PeekAtEmpty
| NoExtractFlag.
Inductive outcome (A : Type) : Type :=
| Returns (a : A)
| Throws (e : heap_exception).
Arguments Returns {A} a.
Arguments Throws {A} e.

(** The classes: the built-in ones, and those a program derives, with whether they
    define "compare" and "count". *)
Inductive class_entry : Type :=
| CE_SplHeap
| CE_SplMinHeap
| CE_SplMaxHeap
| CE_SplPriorityQueue
| CE_Derived (parent : class_entry) (defines_compare defines_count : bool).
#[export] Instance class_entry_eq_dec : EqDecision class_entry.
Proof. solve_decision. Defined.

(** The class a method comes from ([common.scope] of the function found). *)
Fixpoint compare_scope (ce : class_entry) : class_entry :=
  match ce with CE_Derived p d _ => if d then ce else compare_scope p | _ => ce end.
Fixpoint count_scope (ce : class_entry) : class_entry :=
  match ce with
  | CE_Derived p _ d => if d then ce else count_scope p
  | CE_SplMinHeap | CE_SplMaxHeap => CE_SplHeap
  | _ => ce
  end.
(** The loop over the parents: the first built-in class. *)
Fixpoint builtin_parent (ce : class_entry) : class_entry :=
  match ce with CE_Derived p _ _ => builtin_parent p | _ => ce end.
Definition is_inherited (ce : class_entry) : bool := match ce with CE_Derived _ _ _ => true | _ => false end.

Definition zval_size : Z := 16.
Definition pq_zero : spl_pqueue_elem := mkPqElem IS_UNDEF IS_UNDEF.

(** spl_heap_object_new_ex without an original object *)
Definition spl_heap_object_new (class_type : class_entry) : heap_obj + pqueue_obj :=
  let parent := builtin_parent class_type in
  let cmp := is_inherited class_type && negb (bool_decide (compare_scope class_type = parent)) in
  let cnt := is_inherited class_type && negb (bool_decide (count_scope class_type = parent)) in
  match parent with
  | CE_SplPriorityQueue =>
      inr (mkObj (spl_ptr_heap_init pq_zero CMP_ELEM (2 * zval_size)) SPL_PQUEUE_EXTR_DATA cmp cnt)
  | CE_SplMinHeap => inl (mkObj (spl_ptr_heap_init IS_UNDEF CMP_MIN zval_size) 0 cmp cnt)
  | _ => inl (mkObj (spl_ptr_heap_init IS_UNDEF CMP_MAX zval_size) 0 cmp cnt)
  end.

Definition spl_heap_consistency_validations {A F} (intern : spl_heap_object A F) (write : bool)
    : option heap_exception :=
  if negb (Z.land (flags (o_heap intern)) SPL_HEAP_CORRUPTED =? 0) then Some HeapIsCorrupted
  else if write && negb (Z.land (flags (o_heap intern)) SPL_HEAP_WRITE_LOCKED =? 0) then Some HeapIsBeingModified
  else None.

Section Methods.
Context {S : Type} {PP : PhpProgram S}.
Implicit Types (w : vm S).

Definition spl_ptr_heap_zval_ctor (v : zval) : list vm_event := [VAddref v].
Definition spl_ptr_heap_zval_dtor (v : zval) : list vm_event := [VDtor v].
Definition spl_ptr_heap_pqueue_elem_ctor (e : spl_pqueue_elem) : list vm_event :=
  [VAddref (pq_data e); VAddref (pq_priority e)].
Definition spl_ptr_heap_pqueue_elem_dtor (e : spl_pqueue_elem) : list vm_event :=
  [VDtor (pq_data e); VDtor (pq_priority e)].

(** zend_throw_exception *)
Definition throws {A O} w (o : O) (e : heap_exception) : res (vm S * O * outcome A) :=
  Ok (mkVM (vm_user w) true (vm_trace w), o, Throws e).

(** *** SplHeap *)

Definition SplHeap_count {A F} (o : spl_heap_object A F) : Z := spl_ptr_heap_count (o_heap o).
Definition SplHeap_isEmpty {A F} (o : spl_heap_object A F) : bool := spl_ptr_heap_count (o_heap o) =? 0.

Definition SplHeap_insert w (intern : heap_obj) (value : zval) : res (vm S * heap_obj * outcome unit) :=
  match spl_heap_consistency_validations intern true with
  | Some e => throws w intern e
  | None =>
      let w := vm_log [VAddref value] w in
      '(w, h) ← spl_ptr_heap_insert IS_UNDEF call_zval_cmp w (o_heap intern) value (fptr_cmp intern);
      Ok (w, with_heap h intern, Returns tt)
  end.

Definition SplHeap_extract w (intern : heap_obj) : res (vm S * heap_obj * outcome zval) :=
  match spl_heap_consistency_validations intern true with
  | Some e => throws w intern e
  | None =>
      '(w, h, top, r) ← spl_ptr_heap_delete_top spl_ptr_heap_zval_dtor call_zval_cmp w (o_heap intern) true (fptr_cmp intern);
      match r, top with
      | SUCCESS, Some v => Ok (w, with_heap h intern, Returns v)
      | _, _ => throws w (with_heap h intern) ExtractFromEmpty
      end
  end.

Definition SplHeap_top w (intern : heap_obj) : res (vm S * heap_obj * outcome zval) :=
  match spl_heap_consistency_validations intern false with
  | Some e => throws w intern e
  | None =>
      match spl_ptr_heap_top (o_heap intern) with
      | None => throws w intern PeekAtEmpty
      | Some i =>
          v ← rd (elements (o_heap intern)) i;
          let v := deref (vm_user w) v in
          Ok (vm_log [VAddref v] w, intern, Returns v)
      end
  end.

Definition SplHeap_recoverFromCorruption {A F} (intern : spl_heap_object A F) : spl_heap_object A F :=
  with_heap (set_heap_flags (clear_bits (flags (o_heap intern)) SPL_HEAP_CORRUPTED) (o_heap intern)) intern.
Definition SplHeap_isCorrupted {A F} (intern : spl_heap_object A F) : bool :=
  negb (Z.land (flags (o_heap intern)) SPL_HEAP_CORRUPTED =? 0).

(** *** Iteration *)

Definition SplHeap_key {A F} (intern : spl_heap_object A F) : Z := count (o_heap intern) - 1.
Definition SplHeap_valid {A F} (intern : spl_heap_object A F) : bool := negb (count (o_heap intern) =? 0).

Definition SplHeap_next w (intern : heap_obj) : res (vm S * heap_obj) :=
  '(w, h, _, _) ← spl_ptr_heap_delete_top spl_ptr_heap_zval_dtor call_zval_cmp w (o_heap intern) false (fptr_cmp intern);
  Ok (w, with_heap h intern).

(** NULL when the heap is empty. *)
Definition SplHeap_current w (intern : heap_obj) : res (vm S * zval) :=
  if count (o_heap intern) =? 0 then Ok (w, IS_NULL)
  else
    v ← rd (elements (o_heap intern)) 0;
    let v := deref (vm_user w) v in
    Ok (vm_log [VAddref v] w, v).

Definition spl_heap_it_valid {A F} (object : spl_heap_object A F) : zend_result :=
  if negb (count (o_heap object) =? 0) then SUCCESS else FAILURE.

(** The value foreach sees: nothing when the heap is empty or corrupted. *)
Definition spl_heap_it_get_current_data w (object : heap_obj) : res (vm S * option zval) :=
  match spl_heap_consistency_validations object false with
  | Some e => Ok (mkVM (vm_user w) true (vm_trace w), None)
  | None =>
      if count (o_heap object) =? 0 then Ok (w, None)
      else v ← rd (elements (o_heap object)) 0; Ok (w, Some v)
  end.
Definition spl_heap_it_get_current_key {A F} (object : spl_heap_object A F) : Z := count (o_heap object) - 1.

Definition spl_heap_it_move_forward w (object : heap_obj) : res (vm S * heap_obj) :=
  match spl_heap_consistency_validations object false with
  | Some e => Ok (mkVM (vm_user w) true (vm_trace w), object)
  | None =>
      '(w, h, _, _) ← spl_ptr_heap_delete_top spl_ptr_heap_zval_dtor call_zval_cmp w (o_heap object) false (fptr_cmp object);
      Ok (w, with_heap h object)
  end.

(** *** SplPriorityQueue *)

(** What extraction returns: the pair as an array, or one of its parts. *)
Inductive pq_result : Type :=
| PqBoth (data priority : zval)
| PqOne (v : zval).

Definition spl_pqueue_extract_helper w (elem : spl_pqueue_elem) (flags : Z) : res (vm S * pq_result) :=
  if Z.land flags SPL_PQUEUE_EXTR_BOTH =? SPL_PQUEUE_EXTR_BOTH then
    Ok (vm_log [VAddref (pq_data elem); VAddref (pq_priority elem)] w, PqBoth (pq_data elem) (pq_priority elem))
  else if negb (Z.land flags SPL_PQUEUE_EXTR_DATA =? 0) then
    Ok (vm_log [VAddref (pq_data elem)] w, PqOne (pq_data elem))
  else if negb (Z.land flags SPL_PQUEUE_EXTR_PRIORITY =? 0) then
    Ok (vm_log [VAddref (pq_priority elem)] w, PqOne (pq_priority elem))
  else Ub.

(** The comparison that fits the type of a priority. *)
Definition cmp_for (priority : zval) : pqueue_cmp_func :=
  if Z_TYPE priority =? IS_LONG then CMP_LONG
  else if Z_TYPE priority =? IS_DOUBLE then CMP_DOUBLE else CMP_ELEM.

Definition specialize (intern : pqueue_obj) (priority : zval) : pqueue_obj :=
  if negb (fptr_cmp intern) then
    let new_cmp := cmp_for priority in
    if count (o_heap intern) =? 0 then with_heap (set_heap_cmp new_cmp (o_heap intern)) intern
    else if negb (bool_decide (new_cmp = cmp (o_heap intern)))
    then with_heap (set_heap_cmp CMP_ELEM (o_heap intern)) intern
    else intern
  else intern.

Definition SplPriorityQueue_insert w (intern : pqueue_obj) (data priority : zval)
    : res (vm S * pqueue_obj * outcome unit) :=
  match spl_heap_consistency_validations intern true with
  | Some e => throws w intern e
  | None =>
      let w := vm_log [VAddref data; VAddref priority] w in
      let elem := mkPqElem data priority in
      let intern := specialize intern priority in
      '(w, h) ← spl_ptr_heap_insert pq_zero call_pqueue_cmp w (o_heap intern) elem (fptr_cmp intern);
      Ok (w, with_heap h intern, Returns tt)
  end.

Definition SplPriorityQueue_extract w (intern : pqueue_obj) : res (vm S * pqueue_obj * outcome pq_result) :=
  match spl_heap_consistency_validations intern true with
  | Some e => throws w intern e
  | None =>
      '(w, h, top, r) ← spl_ptr_heap_delete_top spl_ptr_heap_pqueue_elem_dtor call_pqueue_cmp w (o_heap intern) true (fptr_cmp intern);
      match r, top with
      | SUCCESS, Some elem =>
          '(w, v) ← spl_pqueue_extract_helper w elem (o_flags intern);
          Ok (vm_log (spl_ptr_heap_pqueue_elem_dtor elem) w, with_heap h intern, Returns v)
      | _, _ => throws w (with_heap h intern) ExtractFromEmpty
      end
  end.

Definition SplPriorityQueue_top w (intern : pqueue_obj) : res (vm S * pqueue_obj * outcome pq_result) :=
  match spl_heap_consistency_validations intern false with
  | Some e => throws w intern e
  | None =>
      match spl_ptr_heap_top (o_heap intern) with
      | None => throws w intern PeekAtEmpty
      | Some i =>
          elem ← rd (elements (o_heap intern)) i;
          '(w, v) ← spl_pqueue_extract_helper w elem (o_flags intern);
          Ok (w, intern, Returns v)
      end
  end.

(** The new flags, which are also the result. *)
Definition SplPriorityQueue_setExtractFlags w (intern : pqueue_obj) (value : Z) : res (vm S * pqueue_obj * outcome Z) :=
  let value := Z.land value SPL_PQUEUE_EXTR_MASK in
  if value =? 0 then throws w intern NoExtractFlag
  else Ok (w, mkObj (o_heap intern) value (fptr_cmp intern) (fptr_count intern), Returns value).
Definition SplPriorityQueue_getExtractFlags (intern : pqueue_obj) : Z := o_flags intern.

Definition SplPriorityQueue_current w (intern : pqueue_obj) : res (vm S * option pq_result) :=
  if count (o_heap intern) =? 0 then Ok (w, None)
  else
    elem ← rd (elements (o_heap intern)) 0;
    '(w, v) ← spl_pqueue_extract_helper w elem (o_flags intern);
    Ok (w, Some v).

(** The iterator keeps what it extracted until it moves on: [value] is the kept
    result; the new one is returned with the value foreach sees. *)
Definition spl_pqueue_it_get_current_data w (value : option pq_result) (object : pqueue_obj)
    : res (vm S * option pq_result * option pq_result) :=
  match spl_heap_consistency_validations object false with
  | Some e => Ok (mkVM (vm_user w) true (vm_trace w), value, None)
  | None =>
      if count (o_heap object) =? 0 then Ok (w, value, None)
      else
        match value with
        | Some v => Ok (w, value, Some v)
        | None =>
            elem ← rd (elements (o_heap object)) 0;
            '(w, v) ← spl_pqueue_extract_helper w elem (o_flags object);
            Ok (w, Some v, Some v)
        end
  end.

(** SplPriorityQueue::next is SplHeap::next, and foreach moves on with the function of
    SplHeap: the heap has the comparison and the destructor of its elements. *)
Definition SplPriorityQueue_next w (intern : pqueue_obj) : res (vm S * pqueue_obj) :=
  '(w, h, _, _) ← spl_ptr_heap_delete_top spl_ptr_heap_pqueue_elem_dtor call_pqueue_cmp w (o_heap intern) false (fptr_cmp intern);
  Ok (w, with_heap h intern).
Definition spl_pqueue_it_move_forward w (object : pqueue_obj) : res (vm S * pqueue_obj) :=
  match spl_heap_consistency_validations object false with
  | Some e => Ok (mkVM (vm_user w) true (vm_trace w), object)
  | None => SplPriorityQueue_next w object
  end.

(** The methods "compare" of the built-in classes: no object is passed on. *)
Definition SplMinHeap_compare w (a b : zval) : res (vm S * Z) := spl_ptr_heap_zval_min_cmp false w a b.
Definition SplMaxHeap_compare w (a b : zval) : res (vm S * Z) := spl_ptr_heap_zval_max_cmp false w a b.
Definition SplPriorityQueue_compare w (a b : zval) : res (vm S * Z) := spl_ptr_heap_zval_max_cmp false w a b.

(** *** Handlers *)

Definition spl_heap_object_clone w (orig : heap_obj) : res (vm S * heap_obj) :=
  '(w, h) ← spl_ptr_heap_clone spl_ptr_heap_zval_ctor w (o_heap orig); Ok (w, with_heap h orig).
Definition spl_pqueue_object_clone w (orig : pqueue_obj) : res (vm S * pqueue_obj) :=
  '(w, h) ← spl_ptr_heap_clone spl_ptr_heap_pqueue_elem_ctor w (o_heap orig); Ok (w, with_heap h orig).

Definition spl_heap_object_free_storage w (o : heap_obj) : res (vm S) :=
  spl_ptr_heap_destroy spl_ptr_heap_zval_dtor w (o_heap o).
Definition spl_pqueue_object_free_storage w (o : pqueue_obj) : res (vm S) :=
  spl_ptr_heap_destroy spl_ptr_heap_pqueue_elem_dtor w (o_heap o).

Definition spl_heap_object_count_elements {A F} w (intern : spl_heap_object A F) : vm S * Z * zend_result :=
  if fptr_count intern then
    let '(u, r) := call_count (vm_user w) in
    match r with
    | Some n => (mkVM u (EG_exception w) (vm_trace w), n, SUCCESS)
    | None => (mkVM u true (vm_trace w), 0, FAILURE)
    end
  else (w, spl_ptr_heap_count (o_heap intern), SUCCESS).
End Methods.
