(* ===== verification/SplHeapTheorems.v ===== *)
(** * Correctness of the heap

    Sifting keeps the order of the heap except at one index; the elements are only
    ever exchanged, whatever the comparison does. Then the classes: insertion and
    extraction keep the heap, elements come out in order, a comparison that throws
    marks the heap as corrupted. *)

From Stdlib Require Import Floats.SpecFloat.
From stdpp Require Import sorting.
From S2P Require Import Prelude.
From S2P Require Import HashTypes.
From S2P Require Import HashOps.
From S2P Require Import HashRehash.
From S2P Require Import HashDelete.
From S2P Require Import SortOps.
From S2P Require Import SortSpec.
From S2P Require Import SortTheorems.
From S2P Require Import Stack.
From S2P Require Import ZendDouble.
From S2P Require Import SplHeapOps.

(** ** Heap order *)

Definition par (k : Z) : Z := (k - 1) / 2.

Section Order.
Context {A : Type} (c : A -> A -> Z) (Hc : comparison c).
Implicit Types (g : Z -> A).

Definition ordered (n : Z) g : Prop := forall k, 0 < k < n -> c (g k) (g (par k)) <= 0.
(** The children of [i] are below the parent of [i]. *)
Definition bridged (n i : Z) g : Prop := forall k, 0 < k < n -> par k = i -> 0 < i -> c (g k) (g (par i)) <= 0.
(** Ordered except between [i] and its parent. *)
Definition weak_up (n i : Z) g : Prop :=
  (forall k, 0 < k < n -> k <> i -> c (g k) (g (par k)) <= 0) /\ bridged n i g.
(** Ordered except between [i] and its children. *)
Definition weak_down (n i : Z) g : Prop :=
  (forall k, 0 < k < n -> par k <> i -> c (g k) (g (par k)) <= 0) /\ bridged n i g.

Definition gswap (i j : Z) g : Z -> A := fun k => if k =? i then g j else if k =? j then g i else g k.

Lemma gswap_l i j g : gswap i j g i = g j.
Proof. unfold gswap. by rewrite Z.eqb_refl. Qed.
Lemma gswap_r i j g : gswap i j g j = g i.
Proof. unfold gswap. destruct (Z.eqb_spec j i) as [->|]; [done|]. by rewrite Z.eqb_refl. Qed.
Lemma gswap_o i j g k : k <> i -> k <> j -> gswap i j g k = g k.
Proof. intros H1 H2. unfold gswap. by rewrite !(proj2 (Z.eqb_neq _ _)). Qed.

Lemma par_lt k : 0 < k -> 0 <= par k < k.
Proof. unfold par. intros. Z.div_mod_to_equations. lia. Qed.

Lemma weak_up_step n i g : 0 < i < n -> weak_up n i g -> c (g (par i)) (g i) < 0 ->
  weak_up n (par i) (gswap i (par i) g).
Proof.
  intros Hi [H1 H2] Hlt. pose proof (par_lt i ltac:(lia)) as Hp. destruct Hc as [_ Ht]. split.
  - intros k Hk Hkp. destruct (Z.eq_dec k i) as [->|Hki]; [rewrite gswap_l, gswap_r; lia|].
    pose proof (par_lt k ltac:(lia)) as Hpk. rewrite (gswap_o _ _ _ k) by done.
    destruct (Z.eq_dec (par k) i) as [Hpi|Hpi]; [rewrite Hpi, gswap_l; by apply H2; lia|].
    destruct (Z.eq_dec (par k) (par i)) as [Hpp|Hpp]; [|rewrite gswap_o by done; by apply H1].
    rewrite Hpp, gswap_r. specialize (H1 k Hk Hki). rewrite Hpp in H1. eapply Ht; [exact H1|lia].
  - intros k Hk Hkp H0. pose proof (par_lt (par i) H0) as Hpp. rewrite (gswap_o _ _ _ (par (par i))) by lia.
    pose proof (H1 (par i) ltac:(lia) ltac:(lia)) as Hup.
    destruct (Z.eq_dec k i) as [->|Hki]; [by rewrite gswap_l|].
    pose proof (par_lt k ltac:(lia)). rewrite (gswap_o _ _ _ k) by lia. eapply Ht; [|exact Hup].
    rewrite <- Hkp. by apply H1.
Qed.

Lemma weak_up_ext n i g g' : (forall k, g k = g' k) -> weak_up n i g -> weak_up n i g'.
Proof. intros He [H1 H2]. split; intros k; rewrite <- !He; auto. Qed.

Lemma weak_down_ext n i g g' : (forall k, g k = g' k) -> weak_down n i g -> weak_down n i g'.
Proof. intros He [H1 H2]. split; intros k; rewrite <- !He; auto. Qed.

Lemma weak_up_stop n i g : weak_up n i g -> (0 < i -> c (g i) (g (par i)) <= 0) -> ordered n g.
Proof. intros [H1 _] Hi k Hk. destruct (Z.eq_dec k i) as [->|]; [apply Hi; lia|by apply H1]. Qed.

Lemma weak_down_step n i j g : 0 <= i -> 0 < j < n -> par j = i -> weak_down n i g -> c (g i) (g j) < 0 ->
  (forall k, 0 < k < n -> par k = i -> c (g k) (g j) <= 0) ->
  weak_down n j (gswap i j g).
Proof.
  intros H0 Hj Hpj [H1 H2] Hlt Hmax. pose proof (par_lt j ltac:(lia)) as Hp. rewrite Hpj in Hp. split.
  - intros k Hk Hkp. pose proof (par_lt k ltac:(lia)) as Hpk.
    destruct (Z.eq_dec k j) as [->|Hkj]; [rewrite Hpj, gswap_l, gswap_r; lia|].
    destruct (Z.eq_dec k i) as [->|Hki].
    { rewrite gswap_l, gswap_o by lia. apply H2; lia. }
    rewrite (gswap_o _ _ _ k) by done. destruct (Z.eq_dec (par k) i) as [Hpi|Hpi]; [rewrite Hpi, gswap_l; by apply Hmax|].
    rewrite gswap_o by done. by apply H1.
  - intros k Hk Hkp _. pose proof (par_lt k ltac:(lia)). rewrite Hpj, gswap_l, gswap_o by lia. rewrite <- Hkp. apply H1; lia.
Qed.

Lemma weak_down_stop n i g : weak_down n i g -> (forall k, 0 < k < n -> par k = i -> c (g k) (g i) <= 0) -> ordered n g.
Proof.
  intros [H1 _] Hi k Hk. destruct (Z.eq_dec (par k) i) as [Heq|]; [rewrite Heq; by apply Hi|by apply H1].
Qed.

Lemma ordered_top n g k : ordered n g -> 0 <= k < n -> c (g k) (g 0) <= 0.
Proof.
  intros Ho. assert (forall m : nat, forall k, 0 <= k < n -> k <= Z.of_nat m -> c (g k) (g 0) <= 0) as H.
  { induction m as [|m IH]; intros k' Hk Hm.
    - assert (k' = 0) as -> by lia. by rewrite comparison_refl.
    - destruct (Z.eq_dec k' 0) as [->|]; [by rewrite comparison_refl|]. pose proof (par_lt k' ltac:(lia)).
      destruct Hc as [_ Ht]. apply Ht with (g (par k')); [apply Ho; lia|apply IH; lia]. }
  intros Hk. apply (H (Z.to_nat k)); lia.
Qed.

Lemma ordered_weak_down n g x : ordered (n + 1) g -> 0 <= n -> weak_down n 0 (fun k => if k =? 0 then x else g k).
Proof.
  intros Ho Hn. split; [|intros k _ _ H; lia]. intros k Hk Hp. rewrite !(proj2 (Z.eqb_neq _ _)) by lia. apply Ho. lia.
Qed.

Lemma ordered_ext n g g' : (forall k, 0 <= k < n -> g k = g' k) -> ordered n g -> ordered n g'.
Proof. intros He Ho k Hk. pose proof (par_lt k ltac:(lia)). rewrite <- !He by lia. by apply Ho. Qed.
End Order.

Definition cell {A} (l : list A) (d : A) (k : Z) : A := default d (zget l k).

Lemma cell_lswap {A} (l : list A) d i j k : 0 <= i < zlen l -> 0 <= j < zlen l ->
  cell (lswap l i j) d k = gswap i j (cell l d) k.
Proof. intros Hi Hj. unfold cell, gswap. rewrite zget_lswap by done. by repeat zcase. Qed.

Lemma cell_get {A} (l : list A) d k x : zget l k = Some x -> cell l d k = x.
Proof. unfold cell. by intros ->. Qed.

Lemma zset_swap {A} (l : list A) i j x e : zget l j = Some x -> i <> j -> 0 <= i < zlen l -> 0 <= j ->
  zset (zset l i x) j e = lswap (zset l i e) i j.
Proof.
  intros Hx Hne Hi Hj. unfold lswap. rewrite zget_zset_eq, zget_zset_ne, Hx by lia. by rewrite zset_zset.
Qed.

(** ** The loops *)
Section Loops.
Context {A F U S : Type} (call_cmp : F -> U -> vm S -> A -> A -> res (vm S * Z)).
Context (P : A -> Prop) (c : A -> A -> Z) (f : F) (ud : U) (good : bool).
Implicit Types (w : vm S) (els l : list A).

(** The comparison returns on the elements it is used on; a [good] one throws no
    exception and agrees with [c]. *)
Definition cmp_spec : Prop := forall w a b, P a -> P b ->
  exists w' r, call_cmp f ud w a b = Ok (w', r)
    /\ (good = true -> EG_exception w = false -> EG_exception w' = false /\ Z.sgn r = Z.sgn (c a b)).
Context (Hcmp : cmp_spec) (Hc : good = true -> comparison c).

Lemma sift_up_ok n elem : forall fuel w els i, (Z.to_nat i < fuel)%nat -> 0 <= i < n -> n <= zlen els ->
  all_in 0 n P (zset els i elem) ->
  exists w' els' i', sift_up call_cmp fuel f ud w els elem i = Ok (w', els', i')
    /\ 0 <= i' < n /\ zlen els' = zlen els
    /\ swaps_in 0 n (zset els i elem) (zset els' i' elem)
    /\ (good = true -> EG_exception w = false -> EG_exception w' = false
        /\ (weak_up c n i (cell (zset els i elem) elem) -> ordered c n (cell (zset els' i' elem) elem))).
Proof.
  induction fuel as [|fuel IH]; intros w els i Hf Hi Hn Ha; [lia|]. cbn [sift_up].
  destruct (Z.ltb_spec 0 i) as [H0|H0].
  2:{ exists w, els, i. split_and!; [done|lia|lia|done|apply rtc_refl|]. intros _ Hw. split; [done|].
      intros Hu. eapply weak_up_stop; [exact Hu|lia]. }
  rewrite Z.quot_div_nonneg by lia. change ((i - 1) / 2) with (par i). pose proof (par_lt i H0) as Hp.
  destruct (zget_is_Some els (par i)) as [x Hx]; [lia|]. rewrite (rd_ok _ _ _ Hx), bind_ok.
  assert (P x) as HPx by (apply (Ha (par i)); [lia|]; by rewrite zget_zset_ne by lia).
  assert (P elem) as HPe by (apply (Ha i); [lia|]; apply zget_zset_eq; lia).
  destruct (Hcmp w x elem HPx HPe) as (w1 & r & -> & Hr). rewrite bind_ok.
  assert (cell (zset els i elem) elem (par i) = x /\ cell (zset els i elem) elem i = elem) as [Ep Ei].
  { split; apply cell_get; [by rewrite zget_zset_ne by lia|apply zget_zset_eq; lia]. }
  destruct (Z.ltb_spec r 0) as [Hlt|Hge].
  - unfold spl_heap_elem_copy. rewrite (proj2 (Z.eqb_neq _ _)) by lia. cbn [negb assert_].
    rewrite bind_ok, (rd_ok _ _ _ Hx), bind_ok, wr_ok, bind_ok by lia.
    assert (zset (zset els i x) (par i) elem = lswap (zset els i elem) i (par i)) as Hsw by (apply zset_swap; [done|lia|lia|lia]).
    assert (swaps_in 0 n (zset els i elem) (zset (zset els i x) (par i) elem)) as Hs.
    { rewrite Hsw. apply swaps_in_one; [lia|lia|lia|by rewrite zlen_zset]. }
    destruct (IH w1 (zset els i x) (par i)) as (w' & els' & i' & -> & Hi' & Hl & Hs' & Ho);
      [lia|lia|by rewrite zlen_zset|by eapply swaps_in_all|].
    exists w', els', i'. split_and!; [done|lia|lia|by rewrite Hl, zlen_zset|by etrans|].
    intros Hg Hw. destruct (Hr Hg Hw) as [Hw1 Hsg]. destruct (Ho Hg Hw1) as [Hw' Hord]. split; [done|].
    intros Hu. apply Hord. rewrite Hsw.
    eapply (weak_up_ext); [|apply (weak_up_step c (Hc Hg) n i (cell (zset els i elem) elem) ltac:(lia) Hu); rewrite Ep, Ei; lia].
    intros k. symmetry. apply cell_lswap; rewrite zlen_zset; lia.
  - exists w1, els, i. split_and!; [done|lia|lia|done|apply rtc_refl|].
    intros Hg Hw. destruct (Hr Hg Hw) as [Hw1 Hsg]. split; [done|]. intros Hu. eapply weak_up_stop; [exact Hu|].
    intros _. rewrite Ep, Ei. destruct (Hc Hg) as [Hs _]. specialize (Hs x elem). lia.
Qed.

(** The child with the larger element; the other one may be the index [n] of
    [bottom], which is no longer part of the heap. *)
Lemma pick_child_ok n i w els bot : 0 <= i -> i * 2 + 2 <= n < zlen els -> all_in 0 (n + 1) P (zset els i bot) ->
  exists w' j, (if negb (i * 2 + 1 =? n) then
                  x ← rd els (i * 2 + 1 + 1); y ← rd els (i * 2 + 1);
                  '(w, r) ← call_cmp f ud w x y;
                  Ok (w, if 0 <? r then i * 2 + 1 + 1 else i * 2 + 1)
                else Ok (w, i * 2 + 1)) = Ok (w', j)
    /\ i < j <= n /\ (par j = i)
    /\ (good = true -> EG_exception w = false -> EG_exception w' = false
        /\ forall k, 0 < k <= n -> par k = i -> c (cell (zset els i bot) bot k) (cell (zset els i bot) bot j) <= 0).
Proof.
  intros Hi Hn Ha. rewrite (proj2 (Z.eqb_neq _ _)) by lia. cbn [negb].
  destruct (zget_is_Some els (i * 2 + 1 + 1)) as [x Hx]; [lia|]. destruct (zget_is_Some els (i * 2 + 1)) as [y Hy]; [lia|].
  rewrite (rd_ok _ _ _ Hx), bind_ok, (rd_ok _ _ _ Hy), bind_ok.
  assert (P x) as HPx by (apply (Ha (i * 2 + 1 + 1)); [lia|]; by rewrite zget_zset_ne by lia).
  assert (P y) as HPy by (apply (Ha (i * 2 + 1)); [lia|]; by rewrite zget_zset_ne by lia).
  destruct (Hcmp w x y HPx HPy) as (w1 & r & -> & Hr). rewrite bind_ok. eexists w1, _. split; [done|].
  assert (cell (zset els i bot) bot (i * 2 + 1 + 1) = x) as Ex by (apply cell_get; by rewrite zget_zset_ne by lia).
  assert (cell (zset els i bot) bot (i * 2 + 1) = y) as Ey by (apply cell_get; by rewrite zget_zset_ne by lia).
  split; [zcase; lia|]. split; [unfold par; zcase; Z.div_mod_to_equations; lia|].
  intros Hg Hw. destruct (Hr Hg Hw) as [Hw1 Hsg]. split; [done|]. destruct (Hc Hg) as [Hs Ht].
  pose proof (comparison_refl c x (Hc Hg)). pose proof (comparison_refl c y (Hc Hg)). specialize (Hs x y).
  intros k Hk Hpk. assert (k = i * 2 + 1 \/ k = i * 2 + 1 + 1) as [->| ->]
    by (unfold par in Hpk; Z.div_mod_to_equations; lia); zcase; rewrite ?Ex, ?Ey; lia.
Qed.

Lemma sift_down_ok n bot : forall fuel w els i, (Z.to_nat (n - i) < fuel)%nat -> 0 <= i <= n -> n < zlen els ->
  zget els n = Some bot -> all_in 0 (n + 1) P (zset els i bot) ->
  exists w' els' i', sift_down call_cmp fuel f ud n (n / 2) w els i = Ok (w', els', i')
    /\ 0 <= i' <= n /\ zlen els' = zlen els /\ zget els' n = Some bot
    /\ swaps_in 0 (n + 1) (zset els i bot) (zset els' i' bot)
    /\ (good = true -> EG_exception w = false -> EG_exception w' = false
        /\ (i < n \/ n = 0 -> weak_down c n i (cell (zset els i bot) bot) ->
             (i' < n \/ n = 0) /\ ordered c n (cell (zset els' i' bot) bot))).
Proof.
  induction fuel as [|fuel IH]; intros w els i Hf Hi Hn Hb Ha; [lia|]. cbn [sift_down].
  destruct (Z.ltb_spec i (n / 2)) as [Hlim|Hlim].
  2:{ exists w, els, i. split_and!; [done|lia|lia|done|done|apply rtc_refl|]. intros _ Hw. split; [done|].
      intros Hin Hd. split; [done|]. eapply weak_down_stop; [exact Hd|]. intros k Hk Hp. exfalso.
      unfold par in Hp. Z.div_mod_to_equations. lia. }
  assert (i * 2 + 2 <= n) as H2 by (Z.div_mod_to_equations; lia).
  destruct (pick_child_ok n i w els bot ltac:(lia) ltac:(lia) Ha) as (w1 & j & -> & Hj & Hpj & Hpick).
  rewrite bind_ok, (rd_ok _ _ _ Hb), bind_ok.
  destruct (zget_is_Some els j) as [y Hy]; [lia|]. rewrite (rd_ok _ _ _ Hy), bind_ok.
  assert (P y) as HPy by (apply (Ha j); [lia|]; by rewrite zget_zset_ne by lia).
  assert (P bot) as HPb by (apply (Ha i); [lia|]; apply zget_zset_eq; lia).
  destruct (Hcmp w1 bot y HPb HPy) as (w2 & r & -> & Hr). rewrite bind_ok.
  assert (cell (zset els i bot) bot j = y) as Ej by (apply cell_get; by rewrite zget_zset_ne by lia).
  assert (cell (zset els i bot) bot i = bot) as Ei by (apply cell_get, zget_zset_eq; lia).
  destruct (Z.ltb_spec r 0) as [Hlt|Hge].
  - unfold spl_heap_elem_copy. rewrite (proj2 (Z.eqb_neq _ _)) by lia. cbn [negb assert_].
    rewrite bind_ok, (rd_ok _ _ _ Hy), bind_ok, wr_ok, bind_ok by lia.
    assert (zset (zset els i y) j bot = lswap (zset els i bot) i j) as Hsw by (apply zset_swap; [done|lia|lia|lia]).
    assert (swaps_in 0 (n + 1) (zset els i bot) (zset (zset els i y) j bot)) as Hs.
    { rewrite Hsw. apply swaps_in_one; [lia|lia|lia|rewrite zlen_zset; lia]. }
    destruct (IH w2 (zset els i y) j) as (w' & els' & i' & -> & Hi' & Hl & Hb' & Hs' & Ho);
      [lia|lia|by rewrite zlen_zset|by rewrite zget_zset_ne by lia|by eapply swaps_in_all|].
    exists w', els', i'. split_and!; [done|lia|lia|by rewrite Hl, zlen_zset|done|by etrans|].
    intros Hg Hw. destruct (Hpick Hg Hw) as [Hw1 Hmax]. destruct (Hr Hg Hw1) as [Hw2 Hsg].
    destruct (Ho Hg Hw2) as [Hw' Hord]. split; [done|]. intros Hin Hd.
    assert (j <> n) as Hjn.
    { intros ->. assert (y = bot) as -> by congruence. rewrite comparison_refl in Hsg by auto. cbn in Hsg. lia. }
    apply Hord; [lia|]. rewrite Hsw.
    eapply weak_down_ext; [|apply (weak_down_step c n i j (cell (zset els i bot) bot)); [lia|lia|done|done| |]].
    + intros k. symmetry. apply cell_lswap; rewrite zlen_zset; lia.
    + rewrite Ei, Ej. lia.
    + intros k Hk Hp. apply Hmax; [lia|done].
  - exists w2, els, i. split_and!; [done|lia|lia|done|done|apply rtc_refl|].
    intros Hg Hw. destruct (Hpick Hg Hw) as [Hw1 Hmax]. destruct (Hr Hg Hw1) as [Hw2 Hsg]. split; [done|].
    intros Hin Hd. split; [done|]. eapply weak_down_stop; [exact Hd|]. intros k Hk Hp. rewrite Ei.
    destruct (Hc Hg) as [Hs Ht]. apply Ht with y; [rewrite <- Ej; apply Hmax; [lia|done]|]. specialize (Hs bot y). lia.
Qed.
End Loops.

(** ** The operations *)

Definition heap_items {A F} (heap : spl_ptr_heap A F) : list A := pre (count heap) (elements heap).

Record heap_ok {A F} (P : A -> Prop) (heap : spl_ptr_heap A F) : Prop := {
  hk_len : zlen (elements heap) = max_size heap;
  hk_count : 0 <= count heap <= max_size heap;
  hk_int : count heap <= INT_MAX;
  hk_max : PTR_HEAP_BLOCK_SIZE <= max_size heap <= 2 ^ 32;
  hk_size : 0 < elem_size heap <= 32;
  hk_items : Forall P (heap_items heap);
}.

(** No element is above its parent. *)
Definition heap_ord {A F} (c : A -> A -> Z) (heap : spl_ptr_heap A F) : Prop :=
  forall k x y, 0 < k < count heap -> zget (elements heap) k = Some x -> zget (elements heap) (par k) = Some y ->
    c x y <= 0.

Lemma heap_ord_cell {A F} c (heap : spl_ptr_heap A F) d : count heap <= zlen (elements heap) ->
  heap_ord c heap <-> ordered c (count heap) (cell (elements heap) d).
Proof.
  intros Hl. split.
  - intros Ho k Hk. pose proof (par_lt k ltac:(lia)). destruct (zget_is_Some (elements heap) k) as [x Hx]; [lia|].
    destruct (zget_is_Some (elements heap) (par k)) as [y Hy]; [lia|].
    rewrite (cell_get _ _ _ _ Hx), (cell_get _ _ _ _ Hy). by apply (Ho k).
  - intros Ho k x y Hk Hx Hy. rewrite <- (cell_get _ d _ _ Hx), <- (cell_get _ d _ _ Hy). by apply Ho.
Qed.

Lemma all_in_pre {A} (P : A -> Prop) n l : n <= zlen l -> all_in 0 n P l <-> Forall P (pre n l).
Proof.
  intros Hn. rewrite Forall_forall. split.
  - intros Ha x Hx. apply list_elem_of_lookup in Hx as [i Hi]. pose proof (lookup_lt_Some _ _ _ Hi) as Hlt.
    unfold pre in *. rewrite length_take in Hlt. rewrite lookup_take_lt in Hi by lia. apply (Ha (Z.of_nat i)); [lia|].
    unfold zget. by rewrite (proj2 (Z.leb_le _ _)), Nat2Z.id by lia.
  - intros Hf k x Hk Hx. apply Hf. apply list_elem_of_lookup. exists (Z.to_nat k). unfold zget in Hx.
    rewrite (proj2 (Z.leb_le _ _)) in Hx by lia. unfold pre. by rewrite lookup_take_lt by lia.
Qed.

Section HeapOps.
Context {A F U S : Type} (zero : A) (ctor dtor : A -> list vm_event).
Context (call_cmp : F -> U -> vm S -> A -> A -> res (vm S * Z)).
Context (P : A -> Prop) (c : A -> A -> Z) (good : bool) (Hc : good = true -> comparison c).
Implicit Types (heap : spl_ptr_heap A F) (w : vm S).

Lemma heap_grow_ok heap : heap_ok P heap -> count heap < INT_MAX ->
  exists heap', heap_grow zero heap = Ok heap' /\ heap_ok P heap' /\ count heap < max_size heap'
    /\ heap_items heap' = heap_items heap /\ count heap' = count heap /\ flags heap' = flags heap
    /\ cmp heap' = cmp heap /\ elem_size heap' = elem_size heap
    /\ (heap_ord c heap -> heap_ord c heap').
Proof.
  intros [Hl Hn Hi Hm Hs Hp] Hlt. unfold heap_grow. unfold INT_MAX, PTR_HEAP_BLOCK_SIZE in *.
  rewrite int_add_ok, bind_ok by (unfold INT_MAX; lia).
  destruct (Z.ltb_spec (max_size heap) (count heap + 1)) as [Hf|Hf].
  2:{ exists heap. split_and!; try done; try lia. }
  rewrite !u64_small by nia. rewrite (proj2 (Z.leb_gt _ _)) by nia. eexists. split; [done|].
  assert (pre (count heap) (elements heap ++ replicate (Z.to_nat (max_size heap)) zero) = pre (count heap) (elements heap)) as Hpre.
  { unfold pre, zlen in *. rewrite take_app_le by lia. done. }
  split_and!; cbn; try done; try lia.
  - split; cbn; try done; unfold PTR_HEAP_BLOCK_SIZE, INT_MAX; try lia; [|unfold heap_items; cbn; by rewrite Hpre].
    rewrite zlen_app, zlen_replicate. lia.
  - intros Ho k x y Hk. cbn in *. pose proof (par_lt k ltac:(lia)). rewrite !zget_app_l by lia. apply Ho. done.
Qed.

Lemma heap_insert_ok w heap elem ud : cmp_spec call_cmp P c (cmp heap) ud good ->
  heap_ok P heap -> count heap < INT_MAX -> P elem ->
  exists w' heap', spl_ptr_heap_insert zero call_cmp w heap elem ud = Ok (w', heap')
    /\ heap_ok P heap' /\ heap_items heap' ≡ₚ elem :: heap_items heap /\ count heap' = count heap + 1
    /\ cmp heap' = cmp heap
    /\ flags heap' = corrupt_if (EG_exception w') (clear_bits (set_bits (flags heap) SPL_HEAP_WRITE_LOCKED) SPL_HEAP_WRITE_LOCKED)
    /\ (good = true -> EG_exception w = false -> EG_exception w' = false /\ (heap_ord c heap -> heap_ord c heap')).
Proof.
  intros Hcmp Hok Hlt He. unfold spl_ptr_heap_insert.
  destruct (heap_grow_ok heap Hok Hlt) as (h1 & -> & Hok1 & Hroom & Hit & Hcn & Hfl & Hcf & Hes & Ho1).
  rewrite bind_ok, Hcn, Hcf. pose proof Hok1 as [Hl Hn Hi Hm Hs Hp]. rewrite Hcn in Hn, Hi.
  set (n := count heap) in *. assert (pre (n + 1) (zset (elements h1) n elem) = heap_items heap ++ [elem]) as Hpre.
  { rewrite (pre_succ _ _ elem), pre_zset_ge by (lia || (apply zget_zset_eq; lia)). rewrite <- Hit. unfold heap_items. by rewrite Hcn. }
  destruct (sift_up_ok call_cmp P c (cmp heap) ud good Hcmp Hc (n + 1) elem (Datatypes.S (Z.to_nat n)) w (elements h1) n)
    as (w' & els' & i' & -> & Hi' & Hl' & Hsw & Hgood); [lia|lia|lia| |].
  { apply all_in_pre; [rewrite zlen_zset; lia|]. rewrite Hpre, Forall_app, Forall_singleton. split; [|done].
    rewrite <- Hit. done. }
  rewrite bind_ok, int_add_ok by (unfold INT_MAX in *; lia).
  rewrite bind_ok, wr_ok, bind_ok by lia. eexists w', _. split; [done|].
  assert (heap_items heap ++ [elem] ≡ₚ pre (n + 1) (zset els' i' elem)) as Hperm.
  { rewrite <- Hpre. symmetry. by apply swaps_take. }
  assert (elem :: heap_items heap ≡ₚ pre (n + 1) (zset els' i' elem)) as Hperm2 by (rewrite <- Hperm; by rewrite <- Permutation_cons_append).
  split_and!; [|unfold heap_items; by cbn|done|done|cbn; by rewrite Hfl|].
  - split; cbn; unfold PTR_HEAP_BLOCK_SIZE, INT_MAX in *; try lia; [rewrite zlen_zset; lia|].
    unfold heap_items. cbn. rewrite <- Hperm2, Forall_cons. split; [done|]. by rewrite <- Hit.
  - intros Hg Hw. destruct (Hgood Hg Hw) as [Hw' Hord]. split; [done|]. intros Ho%Ho1.
    apply (heap_ord_cell c _ elem); [cbn; rewrite zlen_zset; lia|]. cbn. apply Hord.
    apply (heap_ord_cell c _ elem) in Ho; [|lia]. rewrite Hcn in Ho. split.
    + intros k Hk Hkn. pose proof (par_lt k ltac:(lia)). unfold cell. rewrite !zget_zset_ne by lia. apply Ho. lia.
    + intros k Hk Hpk H0. pose proof (par_lt k ltac:(lia)). lia.
Qed.

Lemma heap_delete_ok w heap keep ud : cmp_spec call_cmp P c (cmp heap) ud good ->
  heap_ok P heap -> count heap <> 0 ->
  exists w' heap' top, spl_ptr_heap_delete_top dtor call_cmp w heap keep ud
      = Ok (w', heap', if keep then Some top else None, SUCCESS)
    /\ heap_ok P heap' /\ heap_items heap ≡ₚ top :: heap_items heap' /\ count heap' = count heap - 1
    /\ cmp heap' = cmp heap /\ zget (elements heap) 0 = Some top
    /\ flags heap' = corrupt_if (EG_exception w') (clear_bits (set_bits (flags heap) SPL_HEAP_WRITE_LOCKED) SPL_HEAP_WRITE_LOCKED)
    /\ (good = true -> EG_exception w = false -> EG_exception w' = false
        /\ (heap_ord c heap -> heap_ord c heap' /\ Forall (fun x => c x top <= 0) (heap_items heap))).
Proof.
  intros Hcmp [Hl Hn Hi Hm Hs Hp] H0. unfold spl_ptr_heap_delete_top. rewrite (proj2 (Z.eqb_neq _ _)) by done.
  set (n := count heap - 1) in *. assert (count heap = n + 1) as Hcn by lia.
  destruct (zget_is_Some (elements heap) 0) as [top Htop]; [lia|]. destruct (zget_is_Some (elements heap) n) as [bot Hbot]; [lia|].
  rewrite (rd_ok _ _ _ Htop), bind_ok, Z.quot_div_nonneg by lia.
  set (w1 := if keep then w else vm_log (dtor top) w). assert (EG_exception w1 = EG_exception w) as Hw1 by (unfold w1; by destruct keep).
  pose proof (pre_split _ (n + 1) 0 top ltac:(lia) Htop) as Hpre.
  pose proof (pre_zset_split (elements heap) (n + 1) 0 bot ltac:(lia) ltac:(lia)) as HpreV.
  set (R := drop _ _) in *. change (pre 0 (elements heap)) with (@nil A) in *. cbn [app] in Hpre, HpreV.
  unfold heap_items in Hp. rewrite Hcn, Hpre, Forall_cons in Hp. destruct Hp as [HPt HPR].
  assert (P bot) as HPb.
  { assert (all_in 0 (n + 1) P (elements heap)) as Ha; [|by apply (Ha n); [lia|]].
    apply all_in_pre; [lia|]. by rewrite Hpre, Forall_cons. }
  destruct (sift_down_ok call_cmp P c (cmp heap) ud good Hcmp Hc n bot (Datatypes.S (Z.to_nat (count heap))) w1 (elements heap) 0)
    as (w' & els' & i' & -> & Hi' & Hl' & Hb' & Hsw & Hgood); [lia|lia|lia|done| |].
  { apply all_in_pre; [rewrite zlen_zset; lia|]. by rewrite HpreV, Forall_cons. }
  rewrite bind_ok.
  assert ((if negb (i' =? n) then spl_heap_elem_copy els' i' n else Ok els') = Ok (zset els' i' bot)) as ->.
  { destruct (Z.eqb_spec i' n) as [->|Hne]; cbn [negb]; [by rewrite zset_id|]. unfold spl_heap_elem_copy.
    rewrite (proj2 (Z.eqb_neq _ _)) by done. cbn [negb assert_]. rewrite bind_ok, (rd_ok _ _ _ Hb'), bind_ok, wr_ok by lia. done. }
  rewrite bind_ok. eexists w', _, top. split; [done|].
  assert (zget (zset els' i' bot) n = Some bot) as Hlast.
  { destruct (Z.eq_dec i' n) as [->|]; [apply zget_zset_eq; lia|by rewrite zget_zset_ne by lia]. }
  assert (R ≡ₚ pre n (zset els' i' bot)) as Hperm.
  { apply swaps_take in Hsw. fold (pre (n + 1) (zset els' i' bot)) in Hsw. fold (pre (n + 1) (zset (elements heap) 0 bot)) in Hsw.
    rewrite HpreV, (pre_succ _ _ _ Hlast), <- Permutation_cons_append in Hsw. by apply Permutation_cons_inv in Hsw. }
  split_and!; [| |done|done|done|done|].
  - split; cbn; unfold PTR_HEAP_BLOCK_SIZE, INT_MAX in *; try lia; [rewrite zlen_zset; lia|].
    unfold heap_items. cbn. by rewrite <- Hperm.
  - unfold heap_items. cbn. rewrite Hcn, Hpre. by constructor.
  - intros Hg Hw. rewrite <- Hw1 in Hw. destruct (Hgood Hg Hw) as [Hw' Hord]. split; [done|]. intros Ho.
    apply (heap_ord_cell c _ bot) in Ho; [|lia]. split.
    + apply (heap_ord_cell c _ bot); [cbn; rewrite zlen_zset; lia|]. cbn. apply Hord; [lia|].
      rewrite Hcn in Ho. eapply weak_down_ext; [|apply (ordered_weak_down c n _ bot Ho ltac:(lia))].
      intros k. cbn. destruct (Z.eqb_spec k 0) as [->|Hk]; [symmetry; apply cell_get, zget_zset_eq; lia|].
      unfold cell. by rewrite zget_zset_ne by lia.
    + apply all_in_pre; [lia|]. intros k x Hk Hx. rewrite <- (cell_get _ bot _ _ Hx), <- (cell_get _ bot _ _ Htop).
      apply (ordered_top c (Hc Hg) (count heap)); [done|lia].
Qed.
End HeapOps.

(** ** The theorems *)

Lemma with_heap_id {A F} (o : spl_heap_object A F) : with_heap (o_heap o) o = o.
Proof. by destruct o. Qed.

Lemma unlocked_flags f : Z.land f 3 = 0 -> clear_bits (set_bits f SPL_HEAP_WRITE_LOCKED) SPL_HEAP_WRITE_LOCKED = f.
Proof.
  intros H. unfold clear_bits, set_bits, SPL_HEAP_WRITE_LOCKED. apply Z.bits_inj. intros n.
  rewrite Z.ldiff_spec, Z.lor_spec. destruct (Z.testbit 2 n) eqn:E2; [|by rewrite orb_false_r, andb_true_r].
  rewrite andb_false_r. assert (Z.testbit (Z.land f 3) n = false) as Hn by (rewrite H; apply Z.testbit_0_l).
  rewrite Z.land_spec in Hn. destruct (Z.testbit f n); [|done].
  assert (n = 1) as ->; [|done]. destruct (Z.eq_dec n 1) as [|Hne]; [done|]. change 2 with (2 ^ 1) in E2.
  rewrite Z.pow2_bits_eqb in E2 by lia. apply Z.eqb_eq in E2. lia.
Qed.

(** ** What the comparison functions do *)
Section Cmp.
Context {S : Type} {PP : PhpProgram S}.
Implicit Types (w : vm S) (a b v : zval).

Definition lval (v : zval) : Z := match v with ZVal _ p => i64 p | _ => 0 end.

Lemma Z_LVAL_ok v : Z_TYPE v = IS_LONG -> Z_LVAL v = Ok (lval v).
Proof. destruct v as [| |p|p|t p]; try done. unfold Z_LVAL. by intros ->. Qed.
Lemma Z_DVAL_ok v : Z_TYPE v = IS_DOUBLE -> exists d, Z_DVAL v = Ok d.
Proof. destruct v as [| |p|p|t p]; try done. unfold Z_DVAL. intros ->. by eexists. Qed.

Lemma zend_compare_total w a b : exists w' r, zend_compare w a b = Ok (w', r).
Proof.
  unfold zend_compare.
  destruct (Z.eqb_spec (Z_TYPE a) IS_LONG) as [Ha|_], (Z.eqb_spec (Z_TYPE b) IS_LONG) as [Hb|_];
    destruct (Z.eqb_spec (Z_TYPE a) IS_DOUBLE) as [Ha'|_], (Z.eqb_spec (Z_TYPE b) IS_DOUBLE) as [Hb'|_]; cbn [andb];
    rewrite ?(Z_LVAL_ok a), ?(Z_LVAL_ok b) by done;
    try (destruct (Z_DVAL_ok a) as [? ->]; [done|]); try (destruct (Z_DVAL_ok b) as [? ->]; [done|]);
    try (destruct (compare_other _ _ _) as [[? ?] ?]); by eexists _, _.
Qed.

Lemma heap_cmp_with_total dflt fptr w a b : (forall w, exists w' r, dflt w = Ok (w', r)) ->
  exists w' r, heap_cmp_with dflt fptr w a b = Ok (w', r).
Proof.
  intros Hd. unfold heap_cmp_with. destruct (EG_exception w); [by eexists _, _|]. destruct fptr; [|apply Hd].
  destruct (spl_ptr_heap_cmp_cb_helper w a b) as [w' [l|]]; by eexists _, _.
Qed.


(** The element of a queue has a priority of the type its comparison reads. *)
Definition pq_typed (f : pqueue_cmp_func) (e : spl_pqueue_elem) : Prop :=
  match f with
  | CMP_ELEM => True
  | CMP_LONG => Z_TYPE (pq_priority e) = IS_LONG
  | CMP_DOUBLE => Z_TYPE (pq_priority e) = IS_DOUBLE
  end.

Lemma pqueue_cmp_any f fptr c : cmp_spec call_pqueue_cmp (pq_typed f) c f fptr false.
Proof.
  intros w x y Hx Hy. assert (exists w' r, call_pqueue_cmp f fptr w x y = Ok (w', r)) as (w' & r & Hr); [|by exists w', r].
  destruct f; cbn in *.
  - apply heap_cmp_with_total. intros. apply zend_compare_total.
  - unfold spl_ptr_pqueue_elem_cmp_long. rewrite !Z_LVAL_ok by done. by eexists _, _.
  - unfold spl_ptr_pqueue_elem_cmp_double. destruct (Z_DVAL_ok _ Hx) as [? ->], (Z_DVAL_ok _ Hy) as [? ->]. by eexists _, _.
Qed.

(** [agrees D c]: on the values of [D] the comparison operator throws nothing and
    has the sign of [c]. *)
Definition agrees (D : zval -> Prop) (c : zval -> zval -> Z) : Prop := forall w a b, D a -> D b ->
  EG_exception w = false ->
  exists w' r, zend_compare w a b = Ok (w', r) /\ EG_exception w' = false /\ Z.sgn r = Z.sgn (c a b).

Lemma zend_compare_long w a b : Z_TYPE a = IS_LONG -> Z_TYPE b = IS_LONG ->
  zend_compare w a b = Ok (w, threeway (lval a) (lval b)).
Proof. intros Ha Hb. unfold zend_compare. rewrite Ha, Hb. cbn [Z.eqb andb]. by rewrite !Z_LVAL_ok by done. Qed.

Lemma zval_cmp_plain f D c : agrees D c -> comparison c ->
  cmp_spec call_zval_cmp D (match f with CMP_MAX => c | CMP_MIN => fun a b => c b a end) f false true.
Proof.
  intros Hag [Hs _] w a b Ha Hb. destruct (EG_exception w) eqn:Ew.
  { exists w, 0. split; [|done]. destruct f; cbn; unfold spl_ptr_heap_zval_max_cmp, spl_ptr_heap_zval_min_cmp, heap_cmp_with; by rewrite Ew. }
  destruct f; cbn; unfold spl_ptr_heap_zval_max_cmp, spl_ptr_heap_zval_min_cmp, heap_cmp_with; rewrite Ew.
  - destruct (Hag w a b Ha Hb Ew) as (w' & r & -> & ? & ?). by exists w', r.
  - destruct (Hag w b a Hb Ha Ew) as (w' & r & -> & ? & ?). by exists w', r.
Qed.

Lemma pqueue_cmp_plain f D c : agrees D c -> (forall v, D v -> Z_TYPE v <> IS_DOUBLE) ->
  cmp_spec call_pqueue_cmp (fun e => pq_typed f e /\ D (pq_priority e))
    (fun x y => c (pq_priority x) (pq_priority y)) f false true.
Proof.
  intros Hag Hnd w x y [Tx Dx] [Ty Dy]. destruct f; cbn in *; [| |by destruct (Hnd _ Dx)].
  - unfold spl_ptr_pqueue_elem_cmp, heap_cmp_with. destruct (EG_exception w) eqn:Ew; [by exists w, 0|].
    destruct (Hag w _ _ Dx Dy Ew) as (w' & r & -> & ? & ?). by exists w', r.
  - unfold spl_ptr_pqueue_elem_cmp_long. rewrite !Z_LVAL_ok by done. rewrite !bind_ok. eexists w, _. split; [done|].
    intros _ Ew. split; [done|]. destruct (Hag w _ _ Dx Dy Ew) as (w' & r & Hr & _ & Hsg).
    rewrite zend_compare_long in Hr by done. injection Hr as <- <-. rewrite <- Hsg. done.
Qed.
End Cmp.

(** ** SplHeap *)
Section SplHeapClass.
Context {S : Type} {PP : PhpProgram S}.
Implicit Types (w : vm S) (o : heap_obj) (v : zval).

Notation items o := (heap_items (o_heap o)).

Lemma heap_flags_ok {A F} (o : spl_heap_object A F) write : flags (o_heap o) = 0 ->
  spl_heap_consistency_validations o write = None.
Proof. intros H. unfold spl_heap_consistency_validations. rewrite H. by destruct write. Qed.

Lemma items_nil {A F} P (h : spl_ptr_heap A F) : heap_ok P h -> heap_items h = [] <-> count h = 0.
Proof.
  intros [Hl Hn _ _ _ _]. unfold heap_items, pre. split; [|by intros ->].
  intros H%(f_equal length). rewrite length_take in H. cbn in H. unfold zlen in *. lia.
Qed.

(** A heap whose elements satisfy [P], ordered by [c], neither corrupted nor being
    modified. *)
Definition splheap_ok (P : zval -> Prop) (c : zval -> zval -> Z) o : Prop :=
  heap_ok P (o_heap o) /\ heap_ord c (o_heap o) /\ flags (o_heap o) = 0.

(** C15: A heap with a consistent comparison is a priority queue: insertion adds the
    value to the multiset of elements; extraction takes out an element that no
    other exceeds, which is also the one that top shows; an empty heap refuses
    both. The heap order holds throughout. *)
Theorem SplHeap_correct P c w o : comparison c ->
  cmp_spec call_zval_cmp P c (cmp (o_heap o)) (fptr_cmp o) true ->
  splheap_ok P c o -> EG_exception w = false ->
  (forall v, P v -> count (o_heap o) < INT_MAX ->
     exists w' o', SplHeap_insert w o v = Ok (w', o', Returns tt) /\ splheap_ok P c o'
       /\ items o' ≡ₚ v :: items o /\ EG_exception w' = false)
  /\ (items o = [] -> (exists w', SplHeap_extract w o = Ok (w', o, Throws ExtractFromEmpty))
                      /\ (exists w', SplHeap_top w o = Ok (w', o, Throws PeekAtEmpty)))
  /\ (items o <> [] -> exists w' o' v, SplHeap_extract w o = Ok (w', o', Returns v) /\ splheap_ok P c o'
       /\ items o ≡ₚ v :: items o' /\ Forall (fun x => c x v <= 0) (items o) /\ EG_exception w' = false
       /\ exists w2, SplHeap_top w o = Ok (w2, o, Returns (deref (vm_user w) v))).
Proof.
  intros Hc Hcmp (Hok & Hord & Hf) Hw. unfold SplHeap_insert, SplHeap_extract, SplHeap_top.
  rewrite !heap_flags_ok by done. split_and!.
  - intros v Hv Hlt. destruct (heap_insert_ok IS_UNDEF call_zval_cmp P c true ltac:(done)
      (vm_log [VAddref v] w) (o_heap o) v (fptr_cmp o) Hcmp Hok Hlt Hv) as (w' & h' & -> & Hok' & Hp & _ & _ & Hfl & Hg).
    destruct (Hg eq_refl Hw) as [Hw' Ho']. rewrite bind_ok. eexists w', _. split; [done|].
    split; [|done]. split_and!; [done|by apply Ho'|]. cbn. by rewrite Hfl, Hf, Hw'.
  - intros Hn. apply (items_nil P) in Hn; [|done]. unfold spl_ptr_heap_delete_top, spl_ptr_heap_top. rewrite Hn.
    cbn [Z.eqb]. rewrite bind_ok, with_heap_id. unfold throws. split; by eexists.
  - intros Hn. assert (count (o_heap o) <> 0) as H0 by (by rewrite <- (items_nil P)).
    destruct (heap_delete_ok spl_ptr_heap_zval_dtor call_zval_cmp P c true ltac:(done) w (o_heap o) true (fptr_cmp o) Hcmp Hok H0)
      as (w' & h' & top & -> & Hok' & Hp & _ & _ & Ht & Hfl & Hg).
    destruct (Hg eq_refl Hw) as [Hw' Ho']. destruct (Ho' Hord) as [Hord' Hmax]. rewrite bind_ok.
    eexists w', _, top. split; [done|]. split_and!; [|done|done|done|].
    { split_and!; [done|done|]. cbn. by rewrite Hfl, Hf, Hw'. }
    unfold spl_ptr_heap_top. rewrite (proj2 (Z.eqb_neq _ _)) by done. rewrite (rd_ok _ _ _ Ht), bind_ok. by eexists.
Qed.



(** A corrupted heap refuses to be read or changed until it is recovered; recovery
    keeps its elements. *)
Theorem SplHeap_corruption_contained w o v : SplHeap_isCorrupted o = true ->
  (exists w', SplHeap_insert w o v = Ok (w', o, Throws HeapIsCorrupted) /\ EG_exception w' = true)
  /\ (exists w', SplHeap_extract w o = Ok (w', o, Throws HeapIsCorrupted) /\ EG_exception w' = true)
  /\ (exists w', SplHeap_top w o = Ok (w', o, Throws HeapIsCorrupted) /\ EG_exception w' = true)
  /\ SplHeap_isCorrupted (SplHeap_recoverFromCorruption o) = false
  /\ items (SplHeap_recoverFromCorruption o) = items o.
Proof.
  intros Hcor. assert (forall write, spl_heap_consistency_validations o write = Some HeapIsCorrupted) as Hv.
  { intros write. unfold spl_heap_consistency_validations, SplHeap_isCorrupted in *. by rewrite Hcor. }
  unfold SplHeap_insert, SplHeap_extract, SplHeap_top, throws. rewrite !Hv. split_and!; [by eexists..| |done].
  unfold SplHeap_isCorrupted, SplHeap_recoverFromCorruption, clear_bits. cbn. rewrite Z.ldiff_land, <- Z.land_assoc.
  rewrite Z.land_comm, Z.land_lnot_diag. done.
Qed.
End SplHeapClass.

(** ** Iteration *)
Section Iteration.
Context {S : Type} {PP : PhpProgram S}.
Implicit Types (w : vm S) (o : heap_obj).

(** What foreach does with the iterator of a heap: while it is valid, take the
    current value and move on. *)
Fixpoint heap_foreach (fuel : nat) w o : res (vm S * heap_obj * list zval) :=
  match fuel with
  | O => Ub
  | Datatypes.S fuel =>
      match spl_heap_it_valid o with
      | FAILURE => Ok (w, o, [])
      | SUCCESS =>
          '(w, d) ← spl_heap_it_get_current_data w o;
          match d with
          | None => Ok (w, o, [])
          | Some v =>
              '(w, o) ← spl_heap_it_move_forward w o;
              '(w, o, l) ← heap_foreach fuel w o;
              Ok (w, o, v :: l)
          end
      end
  end.

(** C17: A foreach over a heap ends after as many rounds as there are elements. It
    delivers every element once, none before one that exceeds it, and leaves the
    heap empty. *)
Theorem spl_heap_foreach_drains P c fuel w o : comparison c ->
  cmp_spec call_zval_cmp P c (cmp (o_heap o)) (fptr_cmp o) true ->
  splheap_ok P c o -> EG_exception w = false -> count (o_heap o) < Z.of_nat fuel ->
  exists w' o' l, heap_foreach fuel w o = Ok (w', o', l)
    /\ l ≡ₚ heap_items (o_heap o) /\ StronglySorted (fun x y => c y x <= 0) l
    /\ heap_items (o_heap o') = [] /\ EG_exception w' = false.
Proof.
  intros Hc. revert w o. induction fuel as [|fuel IH]; intros w o Hcmp (Hok & Hord & Hf) Hw Hn.
  { destruct Hok as [_ ? _ _ _ _]. lia. }
  cbn [heap_foreach]. unfold spl_heap_it_valid, spl_heap_it_get_current_data, spl_heap_it_move_forward.
  rewrite !heap_flags_ok by done. destruct (Z.eqb_spec (count (o_heap o)) 0) as [H0|H0]; cbn [negb].
  { apply (items_nil P) in H0; [|done]. exists w, o, []. rewrite H0. split_and!; try done. constructor. }
  destruct (heap_delete_ok spl_ptr_heap_zval_dtor call_zval_cmp P c true ltac:(done) w (o_heap o) false (fptr_cmp o) Hcmp Hok H0)
    as (w' & h' & top & Hdel & Hok' & Hp & Hcn & Hcf & Ht & Hfl & Hg).
  destruct (Hg eq_refl Hw) as [Hw' Ho']. destruct (Ho' Hord) as [Hord' Hmax].
  rewrite (rd_ok _ _ _ Ht), !bind_ok, Hdel, !bind_ok.
  destruct (IH w' (with_heap h' o)) as (w2 & o2 & l & -> & Hl & Hs & Hi & Hw2).
  { cbn. by rewrite Hcf. }
  { split_and!; [done|done|]. cbn. by rewrite Hfl, Hf, Hw'. }
  { done. }
  { cbn. lia. }
  rewrite bind_ok. exists w2, o2, (top :: l). cbn in Hl. split_and!; try done.
  - by rewrite Hp, Hl.
  - constructor; [done|]. rewrite Hl. rewrite Hp, Forall_cons in Hmax. apply Hmax.
Qed.
End Iteration.

(** ** SplPriorityQueue *)
Section Queue.
Context {S : Type} {PP : PhpProgram S}.
Implicit Types (w : vm S) (o : pqueue_obj) (f : pqueue_cmp_func).

(** The elements have priorities of the type the installed comparison reads, a
    class with its own comparison never uses a specialised one, and the flags
    select something to extract. *)
Definition pq_inv o : Prop :=
  heap_ok (pq_typed (cmp (o_heap o))) (o_heap o)
  /\ (fptr_cmp o = true -> cmp (o_heap o) = CMP_ELEM)
  /\ Z.land (o_flags o) SPL_PQUEUE_EXTR_MASK <> 0.

Definition pq_pick (flags : Z) (e : spl_pqueue_elem) : pq_result :=
  if Z.land flags SPL_PQUEUE_EXTR_BOTH =? SPL_PQUEUE_EXTR_BOTH then PqBoth (pq_data e) (pq_priority e)
  else if negb (Z.land flags SPL_PQUEUE_EXTR_DATA =? 0) then PqOne (pq_data e) else PqOne (pq_priority e).

Lemma extract_helper_ok w e fl : Z.land fl SPL_PQUEUE_EXTR_MASK <> 0 ->
  exists w', spl_pqueue_extract_helper w e fl = Ok (w', pq_pick fl e) /\ EG_exception w' = EG_exception w.
Proof.
  intros H. unfold spl_pqueue_extract_helper, pq_pick. destruct (_ =? SPL_PQUEUE_EXTR_BOTH); [by eexists|].
  destruct (Z.eqb_spec (Z.land fl SPL_PQUEUE_EXTR_DATA) 0) as [H1|]; cbn [negb]; [|by eexists].
  destruct (Z.eqb_spec (Z.land fl SPL_PQUEUE_EXTR_PRIORITY) 0) as [H2|]; cbn [negb]; [|by eexists].
  exfalso. apply H. change SPL_PQUEUE_EXTR_MASK with (Z.lor SPL_PQUEUE_EXTR_DATA SPL_PQUEUE_EXTR_PRIORITY).
  by rewrite Z.land_lor_distr_r, H1, H2.
Qed.

Lemma each_elem_ok {A} (f : A -> list vm_event) els n : n <= zlen els -> forall fuel w i, 0 <= i ->
  (Z.to_nat (n - i) < fuel)%nat -> exists w', each_elem fuel f w els n i = Ok w' /\ EG_exception w' = EG_exception w.
Proof.
  intros Hn. induction fuel as [|fuel IH]; intros w i H0 Hf; [lia|]. cbn [each_elem].
  destruct (Z.ltb_spec i n) as [Hi|]; [|by eexists]. destruct (zget_is_Some els i) as [x Hx]; [lia|].
  rewrite (rd_ok _ _ _ Hx), bind_ok. destruct (IH (vm_log (f x) w) (i + 1)) as (w' & -> & Hw); [lia|lia|]. by eexists.
Qed.

Lemma cmp_for_typed d p : pq_typed (cmp_for p) (mkPqElem d p).
Proof. unfold cmp_for. repeat zcase; done. Qed.

(** Installing the comparison for the next priority keeps the elements typed. *)
Lemma specialize_ok D o d p : heap_ok (fun e => pq_typed (cmp (o_heap o)) e /\ D (pq_priority e)) (o_heap o) ->
  (fptr_cmp o = true -> cmp (o_heap o) = CMP_ELEM) -> D p ->
  let o' := specialize o p in
  heap_ok (fun e => pq_typed (cmp (o_heap o')) e /\ D (pq_priority e)) (o_heap o')
  /\ pq_typed (cmp (o_heap o')) (mkPqElem d p)
  /\ (fptr_cmp o' = true -> cmp (o_heap o') = CMP_ELEM)
  /\ heap_items (o_heap o') = heap_items (o_heap o) /\ elements (o_heap o') = elements (o_heap o)
  /\ count (o_heap o') = count (o_heap o) /\ flags (o_heap o') = flags (o_heap o)
  /\ o_flags o' = o_flags o /\ fptr_cmp o' = fptr_cmp o.
Proof.
  intros Hok Hcf HD. unfold specialize. destruct (fptr_cmp o) eqn:Ef; cbn [negb].
  { rewrite Ef. split_and!; try done. by rewrite Hcf. }
  destruct (Z.eqb_spec (count (o_heap o)) 0) as [H0|H0].
  { cbn. rewrite Ef. split_and!; try done; [|apply cmp_for_typed].
    pose proof (proj2 (items_nil _ _ Hok) H0) as Hnil. destruct Hok as [? ? ? ? ? _].
    split; try done. unfold heap_items in *. cbn. rewrite Hnil. constructor. }
  case_bool_decide as Hb; cbn [negb].
  { rewrite Ef, <- Hb. split_and!; try done; [by rewrite Hb|apply cmp_for_typed]. }
  cbn. rewrite Ef. split_and!; try done. destruct Hok as [? ? ? ? ? Hit]. split; try done.
  unfold heap_items in *. cbn. eapply Forall_impl; [exact Hit|]. by intros e [_ ?].
Qed.

Lemma heap_ok_weaken {A F} (P Q : A -> Prop) (h : spl_ptr_heap A F) : (forall x, P x -> Q x) -> heap_ok P h -> heap_ok Q h.
Proof. intros H [? ? ? ? ? Hi]. split; try done. by eapply Forall_impl. Qed.

(** One operation, whatever its arguments. *)
Lemma pq_operations_ok w o : pq_inv o ->
  (forall data priority, count (o_heap o) < INT_MAX ->
     exists w' o' r, SplPriorityQueue_insert w o data priority = Ok (w', o', r) /\ pq_inv o')
  /\ (exists w' o' r, SplPriorityQueue_extract w o = Ok (w', o', r) /\ pq_inv o')
  /\ (exists w' r, SplPriorityQueue_top w o = Ok (w', o, r))
  /\ (forall value, exists w' o' r, SplPriorityQueue_setExtractFlags w o value = Ok (w', o', r) /\ pq_inv o')
  /\ (exists w' o', spl_pqueue_object_clone w o = Ok (w', o') /\ pq_inv o')
  /\ (exists w' o', SplPriorityQueue_next w o = Ok (w', o') /\ pq_inv o')
  /\ (exists w' r, SplPriorityQueue_current w o = Ok (w', r)).
Proof.
  intros (Hok & Hcf & Hfl). split_and!.
  - intros d p Hlt. unfold SplPriorityQueue_insert. destruct (spl_heap_consistency_validations o true); [by eexists _, o, _|].
    destruct (specialize_ok (fun _ => True) o d p) as (Hok' & Ht & Hcf' & _ & _ & Hcn & _ & Hf' & _);
      [eapply heap_ok_weaken; [|exact Hok]; done|done|done|].
    set (o' := specialize o p) in *.
    destruct (heap_insert_ok pq_zero call_pqueue_cmp (pq_typed (cmp (o_heap o'))) (fun _ _ => 0) false ltac:(done)
      (vm_log [VAddref d; VAddref p] w) (o_heap o') (mkPqElem d p) (fptr_cmp o') (pqueue_cmp_any _ _ _))
      as (w' & h' & -> & Hok2 & _ & _ & Hc2 & _); [eapply heap_ok_weaken; [|exact Hok']; by intros x []|lia|done|].
    rewrite bind_ok. eexists w', _, _. split; [done|]. split_and!; cbn; [by rewrite Hc2|by rewrite Hc2|by rewrite Hf'].
  - unfold SplPriorityQueue_extract. destruct (spl_heap_consistency_validations o true); [by eexists _, o, _|].
    destruct (Z.eq_dec (count (o_heap o)) 0) as [H0|H0].
    { unfold spl_ptr_heap_delete_top. rewrite H0. cbn [Z.eqb]. rewrite bind_ok, with_heap_id. by eexists _, o, _. }
    destruct (heap_delete_ok spl_ptr_heap_pqueue_elem_dtor call_pqueue_cmp _ (fun _ _ => 0) false ltac:(done) w (o_heap o)
      true (fptr_cmp o) (pqueue_cmp_any _ _ _) Hok H0) as (w' & h' & top & -> & Hok2 & _ & _ & Hc2 & _).
    rewrite bind_ok. destruct (extract_helper_ok w' top _ Hfl) as (w2 & -> & _). rewrite bind_ok.
    eexists _, _, _. split; [done|]. split_and!; cbn; [by rewrite Hc2|by rewrite Hc2|done].
  - unfold SplPriorityQueue_top. destruct (spl_heap_consistency_validations o false); [by eexists _, _|].
    unfold spl_ptr_heap_top. destruct (Z.eqb_spec (count (o_heap o)) 0) as [H0|H0]; [by eexists _, _|].
    destruct Hok as [Hl Hn _ _ _ _]. destruct (zget_is_Some (elements (o_heap o)) 0) as [e He]; [lia|].
    rewrite (rd_ok _ _ _ He), bind_ok. destruct (extract_helper_ok w e _ Hfl) as (w2 & -> & _). rewrite bind_ok. by eexists _, _.
  - intros value. unfold SplPriorityQueue_setExtractFlags. destruct (Z.eqb_spec (Z.land value SPL_PQUEUE_EXTR_MASK) 0) as [|Hv];
      [by eexists _, o, _|]. eexists _, _, _. split; [done|]. split_and!; [done|done|]. cbn. rewrite <- Z.land_assoc.
    change (Z.land SPL_PQUEUE_EXTR_MASK SPL_PQUEUE_EXTR_MASK) with SPL_PQUEUE_EXTR_MASK. done.
  - unfold spl_pqueue_object_clone, spl_ptr_heap_clone. pose proof Hok as [Hl Hn _ Hm Hs _].
    unfold PTR_HEAP_BLOCK_SIZE in Hm. rewrite (proj2 (Z.leb_gt _ _)) by nia. cbn [count elements].
    destruct (each_elem_ok spl_ptr_heap_pqueue_elem_ctor (elements (o_heap o)) (count (o_heap o)) ltac:(lia)
      (Datatypes.S (Z.to_nat (count (o_heap o)))) w 0) as (w' & -> & _); [lia|lia|].
    rewrite !bind_ok. eexists w', _. split; [done|]. split_and!; [|done|done]. cbn. by destruct (o_heap o).
  - unfold SplPriorityQueue_next. destruct (Z.eq_dec (count (o_heap o)) 0) as [H0|H0].
    { unfold spl_ptr_heap_delete_top. rewrite H0. cbn [Z.eqb]. rewrite bind_ok, with_heap_id. by eexists _, o. }
    destruct (heap_delete_ok spl_ptr_heap_pqueue_elem_dtor call_pqueue_cmp _ (fun _ _ => 0) false ltac:(done) w (o_heap o)
      false (fptr_cmp o) (pqueue_cmp_any _ _ _) Hok H0) as (w' & h' & top & -> & Hok2 & _ & _ & Hc2 & _).
    rewrite bind_ok. eexists _, _. split; [done|]. split_and!; cbn; [by rewrite Hc2|by rewrite Hc2|done].
  - unfold SplPriorityQueue_current. destruct (Z.eqb_spec (count (o_heap o)) 0) as [H0|H0]; [by eexists _, _|].
    destruct Hok as [Hl Hn _ _ _ _]. destruct (zget_is_Some (elements (o_heap o)) 0) as [e He]; [lia|].
    rewrite (rd_ok _ _ _ He), bind_ok. destruct (extract_helper_ok w e _ Hfl) as (w2 & -> & _). rewrite bind_ok. by eexists _, _.
Qed.

(** *** Sequences of operations *)

(** The operations on a queue, those of foreach included; [PqForeachData value] asks for the
    current value while the iterator keeps [value]. *)
Inductive pq_op : Type :=
| PqInsert (data priority : zval)
| PqExtract
| PqTop
| PqSetExtractFlags (value : Z)
| PqNext
| PqCurrent
| PqForeachData (value : option pq_result)
| PqMoveForward
| PqRecover
| PqClone.

Definition pq_step w o (op : pq_op) : res (vm S * pqueue_obj) :=
  match op with
  | PqInsert data priority => '(w, o, _) ← SplPriorityQueue_insert w o data priority; Ok (w, o)
  | PqExtract => '(w, o, _) ← SplPriorityQueue_extract w o; Ok (w, o)
  | PqTop => '(w, o, _) ← SplPriorityQueue_top w o; Ok (w, o)
  | PqSetExtractFlags value => '(w, o, _) ← SplPriorityQueue_setExtractFlags w o value; Ok (w, o)
  | PqNext => SplPriorityQueue_next w o
  | PqCurrent => '(w, _) ← SplPriorityQueue_current w o; Ok (w, o)
  | PqForeachData value => '(w, _, _) ← spl_pqueue_it_get_current_data w value o; Ok (w, o)
  | PqMoveForward => spl_pqueue_it_move_forward w o
  | PqRecover => Ok (w, SplHeap_recoverFromCorruption o)
  | PqClone => spl_pqueue_object_clone w o
  end.

(** Room for one more element. *)
Definition pq_allowed o (op : pq_op) : Prop := match op with PqInsert _ _ => count (o_heap o) < INT_MAX | _ => True end.

(** The queues that the constructor of a class and operations, in any order and in any
    state of the program, lead to. *)
Inductive pq_reachable : pqueue_obj -> Prop :=
| pq_new class_type o : spl_heap_object_new class_type = inr o -> pq_reachable o
| pq_next w o op w' o' : pq_reachable o -> pq_allowed o op -> pq_step w o op = Ok (w', o') -> pq_reachable o'.

Lemma pq_new_inv class_type o : spl_heap_object_new class_type = inr o -> pq_inv o.
Proof.
  unfold spl_heap_object_new. destruct (builtin_parent class_type); try done. intros [= <-]. split_and!; [|done|done].
  split; cbn; unfold PTR_HEAP_BLOCK_SIZE, INT_MAX, zval_size; try lia; [done|constructor].
Qed.

Lemma pq_step_ok w o op : pq_inv o -> pq_allowed o op -> exists w' o', pq_step w o op = Ok (w', o') /\ pq_inv o'.
Proof.
  intros Ho Hal. destruct (pq_operations_ok w o Ho) as (Hins & (w1 & o1 & r1 & He & Hi1) & (w2 & r2 & Ht) & Hset & (w3 & o3 & Hc & Hi3) & (w4 & o4 & Hn & Hi4) & w5 & r5 & Hcu).
  destruct op as [d p| | |v| | |v| | |]; cbn [pq_step].
  - destruct (Hins d p Hal) as (w' & o' & r & -> & Hi). by exists w', o'.
  - rewrite He. by exists w1, o1.
  - rewrite Ht. by exists w2, o.
  - destruct (Hset v) as (w' & o' & r & -> & Hi). by exists w', o'.
  - by exists w4, o4.
  - rewrite Hcu. by exists w5, o.
  - unfold spl_pqueue_it_get_current_data. destruct (spl_heap_consistency_validations o false); [by eexists _, o|].
    destruct (Z.eqb_spec (count (o_heap o)) 0) as [H0|H0]; [by eexists _, o|]. destruct v; [by eexists _, o|].
    destruct Ho as (Hok & Hcf & Hfl). destruct (zget_is_Some (elements (o_heap o)) 0) as [e Hel]; [destruct Hok; lia|].
    rewrite (rd_ok _ _ _ Hel), bind_ok. destruct (extract_helper_ok w e _ Hfl) as (w' & -> & _). rewrite !bind_ok. by exists w', o.
  - unfold spl_pqueue_it_move_forward. destruct (spl_heap_consistency_validations o false); [by eexists _, o|by exists w4, o4].
  - eexists _, _. split; [done|]. destruct Ho as (Hok & Hcf & Hfl). by destruct Hok.
  - by exists w3, o3.
Qed.

(** C18: Type safety of the specialised comparisons. Through every sequence of operations on
    a queue of any class, from its constructor on, a queue that compares priorities as
    integers (or doubles) holds only integers (doubles), a class with a comparison of its
    own uses no specialised one, and the flags select something to extract. So every
    operation has a defined result: none reads the wrong member of a value or an element
    outside the array, and extraction always has something to return. (A queue of INT_MAX
    elements takes no more; a method "compare" is taken not to call next on the queue.) *)
Theorem SplPriorityQueue_type_safe o : pq_reachable o ->
  pq_inv o /\ forall w op, pq_allowed o op -> exists w' o', pq_step w o op = Ok (w', o') /\ pq_reachable o'.
Proof.
  intros Hr. assert (Hi : pq_inv o).
  { induction Hr as [ce o Hn|w o op w' o' _ IH Hal Hs]; [by eapply pq_new_inv|].
    destruct (pq_step_ok w o op IH Hal) as (w2 & o2 & H2 & Hi2). rewrite Hs in H2. by injection H2 as <- <-. }
  split; [done|]. intros w op Hal. destruct (pq_step_ok w o op Hi Hal) as (w' & o' & Hs & _). exists w', o'.
  split; [done|]. by apply (pq_next w o op w').
Qed.

(** A queue of a class without its own comparison, ordered by the priorities
    according to [c], neither corrupted nor being modified. *)
Definition pqueue_ok (D : zval -> Prop) (c : zval -> zval -> Z) o : Prop :=
  heap_ok (fun e => pq_typed (cmp (o_heap o)) e /\ D (pq_priority e)) (o_heap o)
  /\ heap_ord (fun x y => c (pq_priority x) (pq_priority y)) (o_heap o)
  /\ flags (o_heap o) = 0 /\ fptr_cmp o = false /\ Z.land (o_flags o) SPL_PQUEUE_EXTR_MASK <> 0.

(** A priority queue hands out an element of highest priority, whichever of the
    specialised comparisons is installed and whenever it is replaced, for
    priorities other than doubles on which the comparison operator is
    consistent. *)
Theorem SplPriorityQueue_correct D c w o : comparison c -> agrees D c ->
  (forall v, D v -> Z_TYPE v <> IS_DOUBLE) -> pqueue_ok D c o -> EG_exception w = false ->
  (forall data priority, D priority -> count (o_heap o) < INT_MAX ->
     exists w' o', SplPriorityQueue_insert w o data priority = Ok (w', o', Returns tt) /\ pqueue_ok D c o'
       /\ heap_items (o_heap o') ≡ₚ mkPqElem data priority :: heap_items (o_heap o) /\ EG_exception w' = false)
  /\ (heap_items (o_heap o) <> [] ->
     exists w' o' e, SplPriorityQueue_extract w o = Ok (w', o', Returns (pq_pick (o_flags o) e)) /\ pqueue_ok D c o'
       /\ heap_items (o_heap o) ≡ₚ e :: heap_items (o_heap o')
       /\ Forall (fun x => c (pq_priority x) (pq_priority e) <= 0) (heap_items (o_heap o)) /\ EG_exception w' = false).
Proof.
  intros Hc Hag Hnd (Hok & Hord & Hf & Hpf & Hfl) Hw.
  assert (comparison (fun x y => c (pq_priority x) (pq_priority y))) as Hcp by (destruct Hc; split; eauto).
  unfold SplPriorityQueue_insert, SplPriorityQueue_extract. rewrite !heap_flags_ok by done. split.
  - intros d p Hp Hlt. destruct (specialize_ok D o d p Hok ltac:(congruence) Hp)
      as (Hok' & Ht & _ & Hit & Hel & Hcn & Hf' & Hfl' & Hpf'). set (o' := specialize o p) in *. rewrite Hpf', Hpf.
    destruct (heap_insert_ok pq_zero call_pqueue_cmp _ _ true ltac:(done) (vm_log [VAddref d; VAddref p] w) (o_heap o')
      (mkPqElem d p) false (pqueue_cmp_plain (cmp (o_heap o')) D c Hag Hnd) Hok' ltac:(lia) (conj Ht Hp))
      as (w' & h' & -> & Hok2 & Hperm & _ & Hc2 & Hfl2 & Hg).
    destruct (Hg eq_refl Hw) as [Hw' Ho']. rewrite bind_ok. eexists w', _. split; [done|]. split_and!; [| |done].
    + split_and!; cbn; [by rewrite Hc2|apply Ho'|by rewrite Hfl2, Hf', Hf, Hw'|congruence|congruence].
      intros k x y. rewrite Hcn, Hel. apply Hord.
    + cbn. by rewrite <- Hit.
  - intros Hn. assert (count (o_heap o) <> 0) as H0 by (by rewrite <- (items_nil _ _ Hok)). rewrite Hpf.
    destruct (heap_delete_ok spl_ptr_heap_pqueue_elem_dtor call_pqueue_cmp _ _ true ltac:(done) w (o_heap o) true false
      (pqueue_cmp_plain (cmp (o_heap o)) D c Hag Hnd) Hok H0) as (w' & h' & top & -> & Hok' & Hp & _ & Hc2 & Ht & Hfl2 & Hg).
    destruct (Hg eq_refl Hw) as [Hw' Ho']. destruct (Ho' Hord) as [Hord' Hmax]. rewrite bind_ok.
    destruct (extract_helper_ok w' top _ Hfl) as (w2 & -> & Hw2). rewrite bind_ok.
    eexists _, _, top. split; [done|]. split_and!; [|done|done|cbn; congruence].
    split_and!; cbn; [by rewrite Hc2|done|by rewrite Hfl2, Hf, Hw'|done|done].
Qed.
End Queue.

(** ** Instances *)

(** A program whose "compare" is the difference of two integers and throws on the
    integer 13. *)
#[export] Instance demo_program : PhpProgram unit := {|
  call_compare u a b := (u, if (lval a =? 13) || (lval b =? 13) then None else Some (lval a - lval b));
  call_count u := (u, Some 0);
  compare_other u a b := (u, false, 0);
  deref u v := v |}.

Definition demo_vm : vm unit := mkVM tt false [].
Definition is_long (v : zval) : Prop := Z_TYPE v = IS_LONG.
Definition long_cmp (a b : zval) : Z := threeway (lval a) (lval b).

Lemma long_cmp_comparison : comparison long_cmp.
Proof. unfold long_cmp, threeway. split; intros; repeat zcase; cbn; lia. Qed.

Lemma long_agrees : agrees is_long long_cmp.
Proof. intros w a b Ha Hb Hw. rewrite zend_compare_long by done. by exists w, (long_cmp a b). Qed.

Definition get_obj {S O A} (m : res (vm S * O * A)) (d : O) : O := match m with Ok (_, o, _) => o | _ => d end.

Definition min_heap0 : heap_obj := match spl_heap_object_new CE_SplMinHeap with inl o => o | inr _ => mkObj (spl_ptr_heap_init IS_UNDEF CMP_MIN 16) 0 false false end.
Definition demo_heap : heap_obj :=
  Eval vm_compute in get_obj (SplHeap_insert demo_vm
    (get_obj (SplHeap_insert demo_vm (get_obj (SplHeap_insert demo_vm min_heap0 (ZVal 4 7)) min_heap0) (ZVal 4 3)) min_heap0)
    (ZVal 4 5)) min_heap0.
Definition min_cmp (a b : zval) : Z := long_cmp b a.

Lemma demo_heap_ok : splheap_ok is_long min_cmp demo_heap.
Proof.
  split_and!; [| |done].
  - split; cbn; unfold PTR_HEAP_BLOCK_SIZE, INT_MAX; try lia; [done|]. repeat constructor.
  - intros k x y Hk. cbn in Hk. assert (k = 1 \/ k = 2) as [->| ->] by lia; intros Hx Hy; vm_compute in Hx, Hy;
      injection Hx as <-; injection Hy as <-; vm_compute; done.
Qed.

Lemma SplHeap_correct_witness : exists w' o' v,
  SplHeap_extract demo_vm demo_heap = Ok (w', o', Returns v) /\ splheap_ok is_long min_cmp o'
  /\ heap_items (o_heap demo_heap) ≡ₚ v :: heap_items (o_heap o')
  /\ Forall (fun x => min_cmp x v <= 0) (heap_items (o_heap demo_heap)) /\ EG_exception w' = false
  /\ exists w2, SplHeap_top demo_vm demo_heap = Ok (w2, demo_heap, Returns v).
Proof.
  refine (proj2 (proj2 (SplHeap_correct is_long min_cmp demo_vm demo_heap _ _ demo_heap_ok eq_refl)) _).
  - destruct long_cmp_comparison as [H1 H2]. split; unfold min_cmp; [intros; apply H1|].
    intros x y z Hx Hy. exact (H2 z y x Hy Hx).
  - exact (zval_cmp_plain CMP_MIN is_long long_cmp long_agrees long_cmp_comparison).
  - vm_compute. discriminate.
Defined.

(** The smallest of 7, 3, 5 comes out first. *)
Example SplHeap_runs :
  ('(_, o, v) ← SplHeap_extract demo_vm demo_heap; Ok (v, heap_items (o_heap o))) = Ok (Returns (ZVal 4 3), [ZVal 4 5; ZVal 4 7]).
Proof. vm_compute. reflexivity. Qed.


(** The heap of a class with its own "compare". *)
Definition user_heap : heap_obj := mkObj (o_heap demo_heap) 0 true false.


Definition corrupted_heap : heap_obj :=
  Eval vm_compute in get_obj (SplHeap_insert demo_vm user_heap (ZVal 4 13)) user_heap.

Lemma SplHeap_corruption_contained_witness :
  (exists w', SplHeap_insert demo_vm corrupted_heap (ZVal 4 1) = Ok (w', corrupted_heap, Throws HeapIsCorrupted) /\ EG_exception w' = true)
  /\ (exists w', SplHeap_extract demo_vm corrupted_heap = Ok (w', corrupted_heap, Throws HeapIsCorrupted) /\ EG_exception w' = true)
  /\ (exists w', SplHeap_top demo_vm corrupted_heap = Ok (w', corrupted_heap, Throws HeapIsCorrupted) /\ EG_exception w' = true)
  /\ SplHeap_isCorrupted (SplHeap_recoverFromCorruption corrupted_heap) = false
  /\ heap_items (o_heap (SplHeap_recoverFromCorruption corrupted_heap)) = heap_items (o_heap corrupted_heap).
Proof. exact (SplHeap_corruption_contained demo_vm corrupted_heap (ZVal 4 1) eq_refl). Defined.

Lemma spl_heap_foreach_drains_witness : exists w' o' l, heap_foreach 10 demo_vm demo_heap = Ok (w', o', l)
  /\ l ≡ₚ heap_items (o_heap demo_heap) /\ StronglySorted (fun x y => min_cmp y x <= 0) l
  /\ heap_items (o_heap o') = [] /\ EG_exception w' = false.
Proof.
  refine (spl_heap_foreach_drains is_long min_cmp 10 demo_vm demo_heap _ _ demo_heap_ok eq_refl _).
  - destruct long_cmp_comparison as [H1 H2]. split; unfold min_cmp; [intros; apply H1|].
    intros x y z Hx Hy. exact (H2 z y x Hy Hx).
  - exact (zval_cmp_plain CMP_MIN is_long long_cmp long_agrees long_cmp_comparison).
  - vm_compute. reflexivity.
Defined.

Definition queue0 : pqueue_obj := mkObj (spl_ptr_heap_init pq_zero CMP_ELEM 32) SPL_PQUEUE_EXTR_DATA false false.
Definition demo_queue : pqueue_obj :=
  Eval vm_compute in get_obj (SplPriorityQueue_insert demo_vm
    (get_obj (SplPriorityQueue_insert demo_vm queue0 (ZVal 4 100) (ZVal 4 1)) queue0) (ZVal 4 200) (ZVal 4 2)) queue0.

Lemma demo_queue_ok : pqueue_ok is_long long_cmp demo_queue.
Proof.
  split_and!; [| |done|done|done].
  - split; cbn; unfold PTR_HEAP_BLOCK_SIZE, INT_MAX; try lia; [done|]. repeat constructor.
  - intros k x y Hk. cbn in Hk. assert (k = 1) as -> by lia. intros Hx Hy; vm_compute in Hx, Hy;
      injection Hx as <-; injection Hy as <-; vm_compute; done.
Qed.

(** Two integers and then a double: the specialised comparison is given up. *)
Definition after_op (o : pqueue_obj) (op : pq_op) : vm unit * pqueue_obj :=
  match pq_step demo_vm o op with Ok x => x | _ => (demo_vm, o) end.
Definition queue1 : vm unit * pqueue_obj := Eval vm_compute in after_op queue0 (PqInsert (ZVal 4 100) (ZVal 4 1)).
Definition queue2 : vm unit * pqueue_obj := Eval vm_compute in after_op queue1.2 (PqInsert (ZVal 4 200) (ZVal 4 2)).

Lemma queue2_reachable : pq_reachable queue2.2.
Proof.
  apply (pq_next demo_vm queue1.2 (PqInsert (ZVal 4 200) (ZVal 4 2)) queue2.1); [|done|vm_compute; reflexivity].
  apply (pq_next demo_vm queue0 (PqInsert (ZVal 4 100) (ZVal 4 1)) queue1.1); [|done|vm_compute; reflexivity].
  by apply (pq_new CE_SplPriorityQueue).
Qed.

Example specialised_comparisons :
  (cmp (o_heap queue1.2), cmp (o_heap queue2.2), cmp (o_heap (after_op queue2.2 (PqInsert (ZVal 4 300) (ZVal 5 0x3ff0000000000000))).2))
  = (CMP_LONG, CMP_LONG, CMP_ELEM).
Proof. vm_compute. reflexivity. Qed.

Lemma SplPriorityQueue_type_safe_witness : exists w' o',
  pq_step demo_vm queue2.2 (PqInsert (ZVal 4 300) (ZVal 5 0x3ff0000000000000)) = Ok (w', o') /\ pq_reachable o'.
Proof. apply (SplPriorityQueue_type_safe queue2.2 queue2_reachable). done. Defined.

Lemma SplPriorityQueue_correct_witness : exists w' o' e,
  SplPriorityQueue_extract demo_vm demo_queue = Ok (w', o', Returns (pq_pick 1 e)) /\ pqueue_ok is_long long_cmp o'
  /\ heap_items (o_heap demo_queue) ≡ₚ e :: heap_items (o_heap o')
  /\ Forall (fun x => long_cmp (pq_priority x) (pq_priority e) <= 0) (heap_items (o_heap demo_queue)) /\ EG_exception w' = false.
Proof.
  refine (proj2 (SplPriorityQueue_correct is_long long_cmp demo_vm demo_queue long_cmp_comparison long_agrees _ demo_queue_ok eq_refl) _).
  - intros v Hv. unfold is_long in Hv. rewrite Hv. discriminate.
  - vm_compute. discriminate.
Defined.

(** ** Two divergences *)

(** For two infinite priorities the comparison specialised to doubles says
    "greater", the general one says "equal". *)
Example infinite_priorities :
  let x := mkPqElem IS_NULL (ZVal 5 0x7ff0000000000000) in
  spl_ptr_pqueue_elem_cmp_double demo_vm x x = Ok (demo_vm, 1)
  /\ spl_ptr_pqueue_elem_cmp false demo_vm x x = Ok (demo_vm, 0).
Proof. vm_compute. by split. Qed.

(** A heap that is being modified refuses extract but not next. *)
Definition locked_heap : heap_obj := with_heap (set_heap_flags SPL_HEAP_WRITE_LOCKED (o_heap demo_heap)) demo_heap.
Example next_ignores_lock :
  ('(_, _, r) ← SplHeap_extract demo_vm locked_heap; Ok r) = Ok (Throws HeapIsBeingModified)
  /\ ('(_, o) ← SplHeap_next demo_vm locked_heap; Ok (SplHeap_count o)) = Ok (SplHeap_count locked_heap - 1).
Proof. vm_compute. by split. Qed.
