(* ===== verification/Base64Ops.v ===== *)
(** * base64 (ext/standard/base64.c)

    The portable encoder and decoder. Strings are lists of bytes; the output goes
    to a buffer of the size the code allocates, so that a write past its end would
    show. The vector variants for particular processors are not modelled. *)

From S2P Require Import Prelude.

Definition base64_table : list Z :=
  [65; 66; 67; 68; 69; 70; 71; 72; 73; 74; 75; 76; 77;
   78; 79; 80; 81; 82; 83; 84; 85; 86; 87; 88; 89; 90;
   97; 98; 99; 100; 101; 102; 103; 104; 105; 106; 107; 108; 109;
   110; 111; 112; 113; 114; 115; 116; 117; 118; 119; 120; 121; 122;
   48; 49; 50; 51; 52; 53; 54; 55; 56; 57; 43; 47; 0].

Definition base64_pad : Z := 61.

(** -1 is white space, -2 any other character outside the alphabet. *)
Definition base64_reverse_table : list Z :=
  [-2; -2; -2; -2; -2; -2; -2; -2; -2; -1; -1; -2; -2; -1; -2; -2;
   -2; -2; -2; -2; -2; -2; -2; -2; -2; -2; -2; -2; -2; -2; -2; -2;
   -1; -2; -2; -2; -2; -2; -2; -2; -2; -2; -2; 62; -2; -2; -2; 63;
   52; 53; 54; 55; 56; 57; 58; 59; 60; 61; -2; -2; -2; -2; -2; -2;
   -2;  0;  1;  2;  3;  4;  5;  6;  7;  8;  9; 10; 11; 12; 13; 14;
   15; 16; 17; 18; 19; 20; 21; 22; 23; 24; 25; -2; -2; -2; -2; -2;
   -2; 26; 27; 28; 29; 30; 31; 32; 33; 34; 35; 36; 37; 38; 39; 40;
   41; 42; 43; 44; 45; 46; 47; 48; 49; 50; 51; -2; -2; -2; -2; -2] ++ replicate 128 (-2).

(** [*out++ = base64_table[k]] *)
Definition put (k : Z) (out : list Z) (o : Z) : res (list Z * Z) :=
  ch ← rd base64_table k; out ← wr out o ch; Ok (out, o + 1).
Definition put_pad (out : list Z) (o : Z) : res (list Z * Z) :=
  out ← wr out o base64_pad; Ok (out, o + 1).

(** [inp] is the rest of the input, [o] the place of the output pointer. *)
Fixpoint php_base64_encode_impl (inp : list Z) (out : list Z) (o : Z) : res (list Z * Z) :=
  match inp with
  | a :: b :: c :: inp =>
      '(out, o) ← put (Z.shiftr a 2) out o;
      '(out, o) ← put (Z.shiftl (Z.land a 0x03) 4 + Z.shiftr b 4) out o;
      '(out, o) ← put (Z.shiftl (Z.land b 0x0f) 2 + Z.shiftr c 6) out o;
      '(out, o) ← put (Z.land c 0x3f) out o;
      php_base64_encode_impl inp out o
  | [a; b] =>
      '(out, o) ← put (Z.shiftr a 2) out o;
      '(out, o) ← put (Z.shiftl (Z.land a 0x03) 4 + Z.shiftr b 4) out o;
      '(out, o) ← put (Z.shiftl (Z.land b 0x0f) 2) out o;
      '(out, o) ← put_pad out o;
      out ← wr out o 0; Ok (out, o)
  | [a] =>
      '(out, o) ← put (Z.shiftr a 2) out o;
      '(out, o) ← put (Z.shiftl (Z.land a 0x03) 4) out o;
      '(out, o) ← put_pad out o;
      '(out, o) ← put_pad out o;
      out ← wr out o 0; Ok (out, o)
  | [] => out ← wr out o 0; Ok (out, o)
  end.

Section Buffers.
(** The contents of freshly allocated memory. *)
Context (garbage_byte : Z).

(** zend_string_alloc(n): room for [n] bytes and the terminating zero. *)
Definition zend_string_alloc (n : Z) : list Z := replicate (Z.to_nat (n + 1)) garbage_byte.

(** zend_string_safe_alloc stops the program when the size overflows. *)
Definition php_base64_encode (str : list Z) : res (list Z) :=
  let n := u64 (zlen str + 2) / 3 in
  if 2 ^ 64 <=? n * 4 + 32 then Fatal
  else
    '(out, p) ← php_base64_encode_impl str (zend_string_alloc (n * 4)) 0;
    Ok (take (Z.to_nat p) out).

(** One character of the alphabet, [ch] its value. *)
Definition decode_char (ch : Z) (out : list Z) (i j : Z) : res (list Z * Z) :=
  if i mod 4 =? 0 then
    out ← wr out j (u8 (Z.shiftl ch 2)); Ok (out, j)
  else if i mod 4 =? 1 then
    x ← rd out j; out ← wr out j (u8 (Z.lor x (Z.shiftr ch 4)));
    out ← wr out (j + 1) (u8 (Z.shiftl (Z.land ch 0x0f) 4)); Ok (out, j + 1)
  else if i mod 4 =? 2 then
    x ← rd out j; out ← wr out j (u8 (Z.lor x (Z.shiftr ch 2)));
    out ← wr out (j + 1) (u8 (Z.shiftl (Z.land ch 0x03) 6)); Ok (out, j + 1)
  else
    x ← rd out j; out ← wr out j (u8 (Z.lor x ch)); Ok (out, j + 1).

(** The loop: [None] is [goto fail]. *)
Fixpoint decode_loop (strict : bool) (inp out : list Z) (i padding j : Z) : res (option (list Z * Z * Z * Z)) :=
  match inp with
  | [] => Ok (Some (out, i, padding, j))
  | ch :: inp =>
      if ch =? base64_pad then decode_loop strict inp out i (padding + 1) j
      else
        ch ← rd base64_reverse_table ch;
        if (negb strict && (ch <? 0)) || (strict && (ch =? -1)) then decode_loop strict inp out i padding j
        else if strict && ((ch =? -2) || negb (padding =? 0)) then Ok None
        else
          '(out, j) ← decode_char ch out i j;
          decode_loop strict inp out (i + 1) padding j
  end.

(** The buffer and the length of the result, [None] for failure. *)
Definition php_base64_decode_impl (inp out : list Z) (outl : Z) (strict : bool) : res (option (list Z * Z)) :=
  r ← decode_loop strict inp out 0 0 outl;
  match r with
  | None => Ok None
  | Some (out, i, padding, j) =>
      if strict && (i mod 4 =? 1) then Ok None
      else if strict && negb (padding =? 0) && ((2 <? padding) || negb ((i + padding) mod 4 =? 0)) then Ok None
      else out ← wr out j 0; Ok (Some (out, j))
  end.

Definition php_base64_decode_ex (str : list Z) (strict : bool) : res (option (list Z)) :=
  r ← php_base64_decode_impl str (zend_string_alloc (zlen str)) 0 strict;
  match r with
  | None => Ok None
  | Some (out, outl) => Ok (Some (take (Z.to_nat outl) out))
  end.
End Buffers.

Example encode_foob : php_base64_encode 0 [102; 111; 111; 98] = Ok [90; 109; 57; 118; 89; 103; 61; 61].
Proof. vm_compute. reflexivity. Qed.
Example decode_foob : php_base64_decode_ex 0 [90; 109; 57; 118; 89; 103; 61; 61] true = Ok (Some [102; 111; 111; 98]).
Proof. vm_compute. reflexivity. Qed.
Example decode_bad : php_base64_decode_ex 0 [90; 109; 57; 118; 89] true = Ok None.
Proof. vm_compute. reflexivity. Qed.
