(* ===== verification/Base64.v ===== *)
(** * Correctness of base64

    What the decoder computes is a fold over the characters of the alphabet; the
    buffers are large enough; decoding inverts encoding; strict decoding accepts
    exactly the well-formed inputs. *)

From S2P Require Import Prelude.
From S2P Require Import HashRehash.
From S2P Require Import Base64Ops.


(** ** The encoder *)

Definition tab (k : Z) : Z := default 0 (zget base64_table k).

(** The text for a list of bytes. *)
Fixpoint encoded (s : list Z) : list Z :=
  match s with
  | a :: b :: c :: s =>
      tab (Z.shiftr a 2) :: tab (Z.shiftl (Z.land a 0x03) 4 + Z.shiftr b 4)
      :: tab (Z.shiftl (Z.land b 0x0f) 2 + Z.shiftr c 6) :: tab (Z.land c 0x3f) :: encoded s
  | [a; b] => [tab (Z.shiftr a 2); tab (Z.shiftl (Z.land a 0x03) 4 + Z.shiftr b 4);
               tab (Z.shiftl (Z.land b 0x0f) 2); base64_pad]
  | [a] => [tab (Z.shiftr a 2); tab (Z.shiftl (Z.land a 0x03) 4); base64_pad; base64_pad]
  | [] => []
  end.

(** Induction by groups of three. *)
Lemma triple_ind (Q : list Z -> Prop) : Q [] -> (forall a, Q [a]) -> (forall a b, Q [a; b]) ->
  (forall a b c l, Q l -> Q (a :: b :: c :: l)) -> forall l, Q l.
Proof.
  intros H0 H1 H2 H3 l. assert (Q l /\ (forall a, Q (a :: l)) /\ (forall a b, Q (a :: b :: l))) as [? _]; [|done].
  induction l as [|x l (IH1 & IH2 & IH3)]; [done|]. split_and!; auto.
Qed.

Lemma sextets a b c : is_byte a -> is_byte b -> is_byte c ->
  0 <= Z.shiftr a 2 < 64 /\ 0 <= Z.shiftl (Z.land a 0x03) 4 + Z.shiftr b 4 < 64
  /\ 0 <= Z.shiftl (Z.land b 0x0f) 2 + Z.shiftr c 6 < 64 /\ 0 <= Z.land c 0x3f < 64
  /\ 0 <= Z.shiftl (Z.land a 0x03) 4 < 64 /\ 0 <= Z.shiftl (Z.land b 0x0f) 2 < 64.
Proof.
  unfold is_byte. intros Ha Hb Hc. change 0x03 with (Z.ones 2). change 0x0f with (Z.ones 4). change 0x3f with (Z.ones 6).
  rewrite !Z.land_ones, !Z.shiftr_div_pow2, !Z.shiftl_mul_pow2 by lia. Z.div_mod_to_equations. lia.
Qed.

(** Bytes already written before position [o]. *)
Definition written (out : list Z) (o : Z) (l : list Z) : Prop := pre o out = l /\ zlen l = o.

Lemma written_put out o l x : written out o l -> o < zlen out ->
  exists out', wr out o x = Ok out' /\ written out' (o + 1) (l ++ [x]) /\ zlen out' = zlen out.
Proof.
  intros [Hp Hl] Ho. pose proof (zlen_nonneg l). exists (zset out o x). rewrite wr_ok by lia.
  split; [done|]. split; [|apply zlen_zset]. split.
  - rewrite (pre_succ _ _ x), pre_zset_ge by (lia || (apply zget_zset_eq; lia)). by rewrite Hp.
  - rewrite zlen_app. change (zlen [x]) with 1. lia.
Qed.

Lemma put_ok k out o l : 0 <= k < 64 -> written out o l -> o < zlen out ->
  exists out', put k out o = Ok (out', o + 1) /\ written out' (o + 1) (l ++ [tab k]) /\ zlen out' = zlen out.
Proof.
  intros Hk Hw Ho. unfold put. destruct (zget_is_Some base64_table k) as [x Hx]; [vm_compute zlen; lia|].
  rewrite (rd_ok _ _ _ Hx), bind_ok. destruct (written_put out o l x Hw Ho) as (out' & -> & Hw' & Hl).
  rewrite bind_ok. exists out'. unfold tab. by rewrite Hx.
Qed.

Lemma put_pad_ok out o l : written out o l -> o < zlen out ->
  exists out', put_pad out o = Ok (out', o + 1) /\ written out' (o + 1) (l ++ [base64_pad]) /\ zlen out' = zlen out.
Proof.
  intros Hw Ho. unfold put_pad. destruct (written_put out o l base64_pad Hw Ho) as (out' & -> & Hw' & Hl). by exists out'.
Qed.

(** Runs the next write; [Hw] says what was written so far. *)
Ltac put_step Hw :=
  let out' := fresh "out" in let E := fresh in let Hl := fresh "Hl" in let H := fresh in
  match goal with
  | |- context [put ?k ?out ?o ≫= _] => destruct (put_ok k out o _ ltac:(lia) Hw ltac:(lia)) as (out' & E & H & Hl)
  | |- context [put_pad ?out ?o ≫= _] => destruct (put_pad_ok out o _ Hw ltac:(lia)) as (out' & E & H & Hl)
  end; rewrite E, bind_ok; clear E Hw; rename H into Hw.

Lemma encode_impl_ok s : Forall is_byte s -> forall out o l, written out o l -> o + zlen (encoded s) < zlen out ->
  exists out', php_base64_encode_impl s out o = Ok (out', o + zlen (encoded s))
    /\ written out' (o + zlen (encoded s)) (l ++ encoded s).
Proof.
  assert (forall out o l, written out o l -> o < zlen out ->
    exists out', (out ← wr out o 0; Ok (out, o)) = Ok (out', o) /\ written out' o l) as Hend.
  { intros out o l [Hp Hl] Ho. pose proof (zlen_nonneg l). rewrite wr_ok, bind_ok by lia. eexists. split; [done|].
    split; [by rewrite pre_zset_ge by lia|done]. }
  assert (forall out o l, written out o l -> 0 <= o) as H0 by (intros out o l [_ <-]; apply zlen_nonneg).
  revert s. refine (triple_ind _ _ _ _ _).
  - intros _ out o l Hw Ho. cbn [encoded php_base64_encode_impl] in *. change (zlen (@nil Z)) with 0 in *.
    rewrite Z.add_0_r, app_nil_r in *. by apply Hend.
  - intros a Hs out o l Hw Ho. rewrite Forall_singleton in Hs. cbn [encoded php_base64_encode_impl] in *.
    change (zlen [_; _; _; _]) with 4 in *. pose proof (sextets a 0 0 Hs ltac:(done) ltac:(done)) as (? & _ & _ & _ & ? & _).
    pose proof (H0 _ _ _ Hw). do 4 put_step Hw. replace (o + 1 + 1 + 1 + 1) with (o + 4) in * by lia.
    rewrite <- !app_assoc in Hw. apply (Hend _ _ _ Hw). lia.
  - intros a b Hs out o l Hw Ho. rewrite Forall_cons, Forall_singleton in Hs. destruct Hs as [Ha Hb].
    cbn [encoded php_base64_encode_impl] in *.
    change (zlen [_; _; _; _]) with 4 in *. pose proof (sextets a b 0 Ha Hb ltac:(done)) as (? & ? & _ & _ & _ & ?).
    pose proof (H0 _ _ _ Hw). do 4 put_step Hw. replace (o + 1 + 1 + 1 + 1) with (o + 4) in * by lia.
    rewrite <- !app_assoc in Hw. apply (Hend _ _ _ Hw). lia.
  - intros a b c s IH Hs out o l Hw Ho. rewrite !Forall_cons in Hs. destruct Hs as (Ha & Hb & Hc & Hs).
    cbn [encoded php_base64_encode_impl] in *. rewrite !zlen_cons in *.
    pose proof (sextets a b c Ha Hb Hc) as (? & ? & ? & ? & _). pose proof (zlen_nonneg (encoded s)).
    pose proof (H0 _ _ _ Hw). do 4 put_step Hw.
    destruct (IH Hs _ _ _ Hw) as (out' & -> & Hw'); [lia|]. exists out'. split; [do 2 f_equal; lia|].
    rewrite <- !app_assoc in Hw'. replace (o + 1 + 1 + 1 + 1 + zlen (encoded s)) with (o + (zlen (encoded s) + 1 + 1 + 1 + 1)) in Hw' by lia.
    done.
Qed.

Lemma zlen_encoded s : zlen (encoded s) = (zlen s + 2) / 3 * 4.
Proof.
  revert s. refine (triple_ind _ _ _ _ _); [done|done|done|]. intros a b c s IH. cbn [encoded]. rewrite !zlen_cons, IH.
  pose proof (zlen_nonneg s). Z.div_mod_to_equations. lia.
Qed.

Lemma php_base64_encode_ok g s : Forall is_byte s -> zlen s < 2 ^ 62 -> php_base64_encode g s = Ok (encoded s).
Proof.
  intros Hs Hl. unfold php_base64_encode. pose proof (zlen_nonneg s). rewrite u64_small by lia.
  rewrite (proj2 (Z.leb_gt _ _)) by (Z.div_mod_to_equations; lia).
  destruct (encode_impl_ok s Hs (zend_string_alloc g ((zlen s + 2) / 3 * 4)) 0 []) as (out & -> & [Hp Hn]); [done| |].
  { unfold zend_string_alloc. rewrite zlen_replicate, zlen_encoded. Z.div_mod_to_equations. lia. }
  rewrite bind_ok. unfold pre in Hp. by rewrite Hp.
Qed.

(** ** The decoder *)

(** The value of a character. *)
Definition rev (ch : Z) : Z := default (-2) (zget base64_reverse_table ch).

(** One value of six bits: how many came before it, the complete bytes, and the
    bits of the next one. *)
Definition dstep (st : Z * list Z * Z) (ch : Z) : Z * list Z * Z :=
  let '(i, done, part) := st in
  if i mod 4 =? 0 then (i + 1, done, u8 (Z.shiftl ch 2))
  else if i mod 4 =? 1 then (i + 1, done ++ [u8 (Z.lor part (Z.shiftr ch 4))], u8 (Z.shiftl (Z.land ch 0x0f) 4))
  else if i mod 4 =? 2 then (i + 1, done ++ [u8 (Z.lor part (Z.shiftr ch 2))], u8 (Z.shiftl (Z.land ch 0x03) 6))
  else (i + 1, done ++ [u8 (Z.lor part ch)], part).

(** The loop without its buffer. *)
Fixpoint scan (strict : bool) (inp : list Z) (st : Z * list Z * Z) (padding : Z) : option (Z * list Z * Z * Z) :=
  match inp with
  | [] => Some (st, padding)
  | ch :: inp =>
      if ch =? base64_pad then scan strict inp st (padding + 1)
      else if (negb strict && (rev ch <? 0)) || (strict && (rev ch =? -1)) then scan strict inp st padding
      else if strict && ((rev ch =? -2) || negb (padding =? 0)) then None
      else scan strict inp (dstep st (rev ch)) padding
  end.

(** The buffer holds the complete bytes and, between groups, the open one. *)
Definition holds (out : list Z) (j : Z) (st : Z * list Z * Z) : Prop :=
  let '(i, done, part) := st in
  0 <= i /\ written out j done /\ (if i mod 4 =? 0 then j <= i else j < i /\ zget out j = Some part).

Lemma written_set out j l x : written out j l -> written (zset out j x) j l.
Proof. intros [Hp Hl]. split; [by rewrite pre_zset_ge by lia|done]. Qed.

Lemma decode_char_ok ch out j i done part : holds out j (i, done, part) -> i + 1 < zlen out ->
  exists out' j', decode_char ch out i j = Ok (out', j') /\ holds out' j' (dstep (i, done, part) ch) /\ zlen out' = zlen out.
Proof.
  intros (Hi & Hw & Hm) Hl. pose proof Hw as [_ Hj]. pose proof (zlen_nonneg done). unfold decode_char, dstep.
  pose proof (Z.mod_pos_bound i 4 ltac:(lia)) as Hb. pose proof (Z.add_mod i 1 4 ltac:(lia)) as Hs. change (1 mod 4) with 1 in Hs.
  destruct (Z.eqb_spec (i mod 4) 0) as [E0|E0].
  { rewrite wr_ok, bind_ok by lia. eexists _, _. split; [done|]. split; [|apply zlen_zset]. split; [lia|].
    split; [by apply written_set|]. rewrite Hs, E0. cbn. split; [lia|]. apply zget_zset_eq. lia. }
  destruct Hm as [Hji Hp]. rewrite (rd_ok _ _ _ Hp), !bind_ok.
  assert (forall x y, exists out', (out ← wr out j x; wr out (j + 1) y) = Ok out' /\ written out' (j + 1) (done ++ [x])
    /\ zget out' (j + 1) = Some y /\ zlen out' = zlen out) as Htwo.
  { intros x y. destruct (written_put out j done x Hw ltac:(lia)) as (o1 & -> & Hw1 & Hl1). rewrite bind_ok, wr_ok by lia.
    eexists. split; [done|]. split_and!; [by apply written_set|apply zget_zset_eq; lia|by rewrite zlen_zset]. }
  destruct (Z.eqb_spec (i mod 4) 1) as [E1|E1]; [|destruct (Z.eqb_spec (i mod 4) 2) as [E2|E2]].
  - destruct (Htwo (u8 (Z.lor part (Z.shiftr ch 4))) (u8 (Z.shiftl (Z.land ch 15) 4))) as (o2 & Ho & Hw2 & Hg & Hl2).
    destruct (wr out j _) as [o1| |]; try done. rewrite bind_ok in Ho. rewrite bind_ok, Ho, bind_ok. eexists _, _. split; [done|].
    split; [|done]. split; [lia|]. split; [done|]. rewrite Hs, E1. cbn. split; [lia|done].
  - destruct (Htwo (u8 (Z.lor part (Z.shiftr ch 2))) (u8 (Z.shiftl (Z.land ch 3) 6))) as (o2 & Ho & Hw2 & Hg & Hl2).
    destruct (wr out j _) as [o1| |]; try done. rewrite bind_ok in Ho. rewrite bind_ok, Ho, bind_ok. eexists _, _. split; [done|].
    split; [|done]. split; [lia|]. split; [done|]. rewrite Hs, E2. cbn. split; [lia|done].
  - destruct (written_put out j done (u8 (Z.lor part ch)) Hw ltac:(lia)) as (o1 & -> & Hw1 & Hl1). rewrite bind_ok.
    eexists _, _. split; [done|]. split; [|done]. split; [lia|]. split; [done|]. rewrite Hs. assert (i mod 4 = 3) as -> by lia.
    change ((3 + 1) mod 4 =? 0) with true. cbn [fst snd]. lia.
Qed.

Lemma decode_loop_ok strict inp : Forall is_byte inp -> forall out st padding j, holds out j st ->
  st.1.1 + zlen inp < zlen out ->
  match scan strict inp st padding with
  | None => decode_loop strict inp out st.1.1 padding j = Ok None
  | Some (st', padding') => exists out' j', decode_loop strict inp out st.1.1 padding j = Ok (Some (out', st'.1.1, padding', j'))
      /\ holds out' j' st' /\ st'.1.1 < zlen out'
  end.
Proof.
  induction 1 as [|ch inp Hch Hinp IH]; intros out st padding j Hh Hl; cbn [scan decode_loop].
  { exists out, j. split_and!; try done. change (zlen (@nil Z)) with 0 in Hl. lia. }
  rewrite zlen_cons in Hl. destruct (ch =? base64_pad); [apply IH; [done|lia]|].
  destruct (zget_is_Some base64_reverse_table ch) as [v Hv]; [unfold is_byte in Hch; vm_compute zlen; lia|].
  assert (rev ch = v) as -> by (unfold rev; by rewrite Hv). rewrite (rd_ok _ _ _ Hv), bind_ok.
  destruct ((negb strict && (v <? 0)) || (strict && (v =? -1))); [apply IH; [done|lia]|].
  destruct (strict && ((v =? -2) || negb (padding =? 0))); [done|].
  destruct st as [[i done] part]. cbn [fst snd] in *. pose proof (zlen_nonneg inp).
  destruct (decode_char_ok v out j i done part Hh ltac:(lia)) as (out' & j' & -> & Hh' & Hl'). rewrite bind_ok.
  assert ((dstep (i, done, part) v).1.1 = i + 1) as Hi by (unfold dstep; repeat zcase; done).
  specialize (IH out' (dstep (i, done, part) v) padding j' Hh'). rewrite Hi in IH. apply IH. lia.
Qed.

(** What strict decoding requires of the number of characters and of padding. *)
Definition length_ok (i padding : Z) : bool :=
  negb (i mod 4 =? 1) && ((padding =? 0) || ((padding <=? 2) && ((i + padding) mod 4 =? 0))).

Definition decoded (strict : bool) (str : list Z) : option (list Z) :=
  match scan strict str (0, [], 0) 0 with
  | None => None
  | Some (i, done, _, padding) => if strict && negb (length_ok i padding) then None else Some done
  end.

Lemma php_base64_decode_ok g strict str : Forall is_byte str -> php_base64_decode_ex g str strict = Ok (decoded strict str).
Proof.
  intros Hs. unfold php_base64_decode_ex, php_base64_decode_impl, decoded. pose proof (zlen_nonneg str).
  pose proof (decode_loop_ok strict str Hs (zend_string_alloc g (zlen str)) (0, [], 0) 0 0) as Hd. cbn [fst snd] in Hd.
  destruct (scan strict str (0, [], 0) 0) as [[[[i done] part] padding]|].
  2:{ rewrite Hd; [done|done|]. unfold zend_string_alloc. rewrite zlen_replicate. lia. }
  destruct Hd as (out & j & -> & (Hi & [Hp Hj] & Hm) & Hl); [done|unfold zend_string_alloc; rewrite zlen_replicate; lia|].
  cbn [fst snd] in *. rewrite bind_ok. unfold length_ok.
  assert ((out ← wr out j 0; Ok (Some (out, j))) = Ok (Some (zset out j 0, j))) as Hw.
  { pose proof (zlen_nonneg done). rewrite wr_ok; [done|]. split; [lia|]. destruct (i mod 4 =? 0); lia. }
  assert (take (Z.to_nat j) (zset out j 0) = done) as Ht by (change (pre j (zset out j 0) = done); by rewrite pre_zset_ge by lia).
  destruct strict; cbn [andb]; [|by rewrite Hw, bind_ok, Ht].
  destruct (i mod 4 =? 1); [done|]. cbn [negb andb]. destruct (padding =? 0); cbn [negb andb orb]; [by rewrite Hw, bind_ok, Ht|].
  destruct (Z.ltb_spec 2 padding); [by rewrite (proj2 (Z.leb_gt _ _))|]. rewrite (proj2 (Z.leb_le _ _)) by lia. cbn [orb andb].
  destruct ((i + padding) mod 4 =? 0); cbn [negb]; [by rewrite Hw, bind_ok, Ht|done].
Qed.

(** ** Groups of four *)

(** Four values of six bits are three bytes. *)
Fixpoint unsextets (ks : list Z) : list Z :=
  match ks with
  | a :: b :: c :: d :: ks => a * 4 + b / 16 :: (b mod 16) * 16 + c / 4 :: (c mod 4) * 64 + d :: unsextets ks
  | [a; b; c] => [a * 4 + b / 16; (b mod 16) * 16 + c / 4]
  | [a; b] => [a * 4 + b / 16]
  | _ => []
  end.

Lemma quad_ind (Q : list Z -> Prop) : Q [] -> (forall a, Q [a]) -> (forall a b, Q [a; b]) -> (forall a b c, Q [a; b; c]) ->
  (forall a b c d l, Q l -> Q (a :: b :: c :: d :: l)) -> forall l, Q l.
Proof.
  intros H0 H1 H2 H3 H4 l.
  assert (Q l /\ (forall a, Q (a :: l)) /\ (forall a b, Q (a :: b :: l)) /\ (forall a b c, Q (a :: b :: c :: l))) as [? _]; [|done].
  induction l as [|x l (IH1 & IH2 & IH3 & IH4)]; [done|]. split_and!; auto.
Qed.

Definition is_sextet (k : Z) : Prop := 0 <= k < 64.

(** A property of two values of six bits, checked on all of them. *)
Lemma all_sextets2 (Q : Z -> Z -> bool) :
  forallb (fun a => forallb (Q a) (seqZ 0 64)) (seqZ 0 64) = true -> forall a b, is_sextet a -> is_sextet b -> Q a b = true.
Proof.
  intros H a b Ha Hb. rewrite forallb_forall in H. specialize (H a). rewrite forallb_forall in H.
  apply H; apply list_elem_of_In, elem_of_seqZ; unfold is_sextet in *; lia.
Qed.

Lemma join1 a b : is_sextet a -> is_sextet b -> u8 (Z.lor (u8 (Z.shiftl a 2)) (Z.shiftr b 4)) = a * 4 + b / 16.
Proof.
  intros Ha Hb. apply Z.eqb_eq.
  apply (all_sextets2 (fun a b => u8 (Z.lor (u8 (Z.shiftl a 2)) (Z.shiftr b 4)) =? a * 4 + b / 16)); [vm_compute; reflexivity|done..].
Qed.
Lemma join2 a b : is_sextet a -> is_sextet b ->
  u8 (Z.lor (u8 (Z.shiftl (Z.land a 15) 4)) (Z.shiftr b 2)) = (a mod 16) * 16 + b / 4.
Proof.
  intros Ha Hb. apply Z.eqb_eq.
  apply (all_sextets2 (fun a b => u8 (Z.lor (u8 (Z.shiftl (Z.land a 15) 4)) (Z.shiftr b 2)) =? (a mod 16) * 16 + b / 4));
    [vm_compute; reflexivity|done..].
Qed.
Lemma join3 a b : is_sextet a -> is_sextet b -> u8 (Z.lor (u8 (Z.shiftl (Z.land a 3) 6)) b) = (a mod 4) * 64 + b.
Proof.
  intros Ha Hb. apply Z.eqb_eq.
  apply (all_sextets2 (fun a b => u8 (Z.lor (u8 (Z.shiftl (Z.land a 3) 6)) b) =? (a mod 4) * 64 + b)); [vm_compute; reflexivity|done..].
Qed.

Lemma dstep_at i r done part ch : i mod 4 = 0 -> 0 <= r < 4 -> dstep (i + r, done, part) ch =
  if r =? 0 then (i + r + 1, done, u8 (Z.shiftl ch 2))
  else if r =? 1 then (i + r + 1, done ++ [u8 (Z.lor part (Z.shiftr ch 4))], u8 (Z.shiftl (Z.land ch 15) 4))
  else if r =? 2 then (i + r + 1, done ++ [u8 (Z.lor part (Z.shiftr ch 2))], u8 (Z.shiftl (Z.land ch 3) 6))
  else (i + r + 1, done ++ [u8 (Z.lor part ch)], part).
Proof.
  intros Hi Hr. unfold dstep. assert ((i + r) mod 4 = r) as -> by (Z.div_mod_to_equations; lia). done.
Qed.

Lemma dsteps_groups ks : Forall is_sextet ks -> forall i done part, i mod 4 = 0 ->
  exists part', foldl dstep (i, done, part) ks = (i + zlen ks, done ++ unsextets ks, part').
Proof.
  assert (forall i done part ch, i mod 4 = 0 -> dstep (i, done, part) ch = (i + 1, done, u8 (Z.shiftl ch 2))) as H0.
  { intros i done part ch Hi. rewrite <- (Z.add_0_r i). by rewrite dstep_at. }
  revert ks. refine (quad_ind _ _ _ _ _ _).
  - intros _ i done part Hi. exists part. cbn. change (zlen (@nil Z)) with 0. by rewrite app_nil_r, Z.add_0_r.
  - intros a _ i done part Hi. eexists. cbn [foldl unsextets]. rewrite H0 by done. by rewrite app_nil_r.
  - intros a b Hs i done part Hi. rewrite !Forall_cons in Hs. destruct Hs as (Ha & Hb & _). eexists. cbn [foldl unsextets].
    rewrite H0, (dstep_at i 1) by (done || lia). cbn [Z.eqb Pos.eqb]. rewrite join1 by done. change (zlen [a; b]) with 2.
    by replace (i + 1 + 1) with (i + 2) by lia.
  - intros a b c Hs i done part Hi. rewrite !Forall_cons in Hs. destruct Hs as (Ha & Hb & Hc & _). eexists. cbn [foldl unsextets].
    rewrite H0, (dstep_at i 1) by (done || lia). cbn [Z.eqb Pos.eqb]. replace (i + 1 + 1) with (i + 2) by lia.
    rewrite (dstep_at i 2) by (done || lia). cbn [Z.eqb Pos.eqb].
    rewrite join1, join2, <- app_assoc by done. change (zlen [a; b; c]) with 3. by replace (i + 2 + 1) with (i + 3) by lia.
  - intros a b c d ks IH Hs i done part Hi. rewrite !Forall_cons in Hs. destruct Hs as (Ha & Hb & Hc & Hd & Hs).
    cbn [foldl unsextets]. rewrite H0, (dstep_at i 1) by (done || lia). cbn [Z.eqb Pos.eqb].
    replace (i + 1 + 1) with (i + 2) by lia. rewrite (dstep_at i 2) by (done || lia). cbn [Z.eqb Pos.eqb].
    replace (i + 2 + 1) with (i + 3) by lia. rewrite (dstep_at i 3) by (done || lia). cbn [Z.eqb Pos.eqb].
    rewrite join1, join2, join3 by done. destruct (IH Hs (i + 3 + 1) (((done ++ [a * 4 + b / 16]) ++ [b mod 16 * 16 + c / 4]) ++ [c mod 4 * 64 + d])
      (u8 (Z.shiftl (Z.land c 3) 6))) as [part' Hp]; [Z.div_mod_to_equations; lia|].
    exists part'. rewrite Hp, <- !app_assoc, !zlen_cons. do 2 f_equal. lia.
Qed.

(** ** Encoding, then decoding *)

(** The values of six bits of a list of bytes. *)
Fixpoint sextets_of (s : list Z) : list Z :=
  match s with
  | a :: b :: c :: s =>
      Z.shiftr a 2 :: Z.shiftl (Z.land a 0x03) 4 + Z.shiftr b 4
      :: Z.shiftl (Z.land b 0x0f) 2 + Z.shiftr c 6 :: Z.land c 0x3f :: sextets_of s
  | [a; b] => [Z.shiftr a 2; Z.shiftl (Z.land a 0x03) 4 + Z.shiftr b 4; Z.shiftl (Z.land b 0x0f) 2]
  | [a] => [Z.shiftr a 2; Z.shiftl (Z.land a 0x03) 4]
  | [] => []
  end.
Definition pads (s : list Z) : nat := Z.to_nat ((- zlen s) mod 3).

Lemma pads_step a b c s : pads (a :: b :: c :: s) = pads s.
Proof. unfold pads. rewrite !zlen_cons. f_equal. Z.div_mod_to_equations. lia. Qed.

Lemma encoded_sextets s : encoded s = (tab <$> sextets_of s) ++ replicate (pads s) base64_pad.
Proof.
  revert s. refine (triple_ind _ _ _ _ _); [done|done|done|]. intros a b c s IH. rewrite pads_step.
  cbn [encoded sextets_of]. by rewrite !fmap_cons, IH.
Qed.

Lemma sextets_of_range s : Forall is_byte s -> Forall is_sextet (sextets_of s).
Proof.
  revert s. refine (triple_ind _ _ _ _ _).
  - intros _. apply Forall_nil_2.
  - intros a Hs. rewrite Forall_singleton in Hs. destruct (sextets a 0 0 Hs ltac:(done) ltac:(done)) as (? & _ & _ & _ & ? & _).
    cbn [sextets_of]. by rewrite !Forall_cons.
  - intros a b Hs. rewrite Forall_cons, Forall_singleton in Hs. destruct Hs as [Ha Hb].
    destruct (sextets a b 0 Ha Hb ltac:(done)) as (? & ? & _ & _ & _ & ?). cbn [sextets_of]. by rewrite !Forall_cons.
  - intros a b c s IH Hs. rewrite !Forall_cons in Hs. destruct Hs as (Ha & Hb & Hc & Hs).
    destruct (sextets a b c Ha Hb Hc) as (? & ? & ? & ? & _). cbn [sextets_of]. rewrite !Forall_cons. split_and!; [done..|by apply IH].
Qed.

Lemma unsextets_sextets s : Forall is_byte s -> unsextets (sextets_of s) = s.
Proof.
  assert (forall a b c, is_byte a -> is_byte b -> is_byte c ->
    Z.shiftr a 2 * 4 + (Z.shiftl (Z.land a 3) 4 + Z.shiftr b 4) / 16 = a
    /\ (Z.shiftl (Z.land a 3) 4 + Z.shiftr b 4) mod 16 * 16 + (Z.shiftl (Z.land b 15) 2 + Z.shiftr c 6) / 4 = b
    /\ (Z.shiftl (Z.land b 15) 2 + Z.shiftr c 6) mod 4 * 64 + Z.land c 63 = c) as H.
  { unfold is_byte. intros a b c Ha Hb Hc. change 3 with (Z.ones 2). change 15 with (Z.ones 4). change 63 with (Z.ones 6).
    rewrite !Z.land_ones, !Z.shiftr_div_pow2, !Z.shiftl_mul_pow2 by lia.
    change (2 ^ 2) with 4. change (2 ^ 4) with 16. change (2 ^ 6) with 64.
    split_and!; Z.div_mod_to_equations; lia. }
  revert s. refine (triple_ind _ _ _ _ _).
  - done.
  - intros a Hs. rewrite Forall_singleton in Hs. cbn [sextets_of unsextets]. destruct (H a 0 0 Hs ltac:(done) ltac:(done)) as (H1 & _).
    rewrite Z.shiftr_0_l, Z.add_0_r in H1. by rewrite H1.
  - intros a b Hs. rewrite Forall_cons, Forall_singleton in Hs. destruct Hs as [Ha Hb]. cbn [sextets_of unsextets].
    destruct (H a b 0 Ha Hb ltac:(done)) as (H1 & H2 & _). rewrite Z.shiftr_0_l, Z.add_0_r in H2. by rewrite H1, H2.
  - intros a b c s IH Hs. rewrite !Forall_cons in Hs. destruct Hs as (Ha & Hb & Hc & Hs). cbn [sextets_of unsextets].
    destruct (H a b c Ha Hb Hc) as (-> & -> & ->). by rewrite IH.
Qed.

Lemma zlen_sextets s : zlen (sextets_of s) = (zlen s * 4 + 2) / 3.
Proof.
  revert s. refine (triple_ind _ _ _ _ _); [done|done|done|]. intros a b c s IH. cbn [sextets_of]. rewrite !zlen_cons, IH.
  Z.div_mod_to_equations. lia.
Qed.

Lemma tab_props k : is_sextet k -> rev (tab k) = k /\ tab k <> base64_pad /\ is_byte (tab k).
Proof.
  intros Hk. assert (forallb (fun k => (rev (tab k) =? k) && negb (tab k =? base64_pad) && (0 <=? tab k) && (tab k <? 256))
    (seqZ 0 64) = true) as H by (vm_compute; reflexivity).
  rewrite forallb_forall in H. specialize (H k). rewrite !andb_true_iff, negb_true_iff, !Z.eqb_eq, Z.eqb_neq, Z.leb_le, Z.ltb_lt in H.
  destruct H as [[[? ?] ?] ?]; [apply list_elem_of_In, elem_of_seqZ; unfold is_sextet in Hk; lia|]. done.
Qed.

Lemma scan_sextets strict ks inp : Forall is_sextet ks -> forall st,
  scan strict ((tab <$> ks) ++ inp) st 0 = scan strict inp (foldl dstep st ks) 0.
Proof.
  induction 1 as [|k ks Hk _ IH]; intros st; [done|]. destruct (tab_props k Hk) as (Hr & Hp & _). unfold is_sextet in Hk.
  rewrite fmap_cons. cbn [app scan foldl]. rewrite (proj2 (Z.eqb_neq _ _)) by done. rewrite Hr.
  rewrite (proj2 (Z.ltb_ge _ _)), !(proj2 (Z.eqb_neq k _)) by lia. rewrite !andb_false_r. cbn [orb]. apply IH.
Qed.

Lemma scan_pads strict n st p : scan strict (replicate n base64_pad) st p = Some (st, p + Z.of_nat n).
Proof.
  revert p. induction n as [|n IH]; intros p; cbn [replicate scan]; [by rewrite Z.add_0_r|].
  rewrite Z.eqb_refl, IH. do 2 f_equal. lia.
Qed.

Lemma decoded_encoded strict s : Forall is_byte s -> decoded strict (encoded s) = Some s.
Proof.
  intros Hs. unfold decoded. rewrite encoded_sextets, scan_sextets, scan_pads by (by apply sextets_of_range).
  destruct (dsteps_groups (sextets_of s) (sextets_of_range s Hs) 0 [] 0 eq_refl) as [part ->].
  rewrite unsextets_sextets by done. cbn [app].
  assert (length_ok (0 + zlen (sextets_of s)) (0 + Z.of_nat (pads s)) = true) as ->; [|by rewrite andb_false_r].
  unfold length_ok, pads. rewrite zlen_sextets, !Z.add_0_l, Z2Nat.id by (apply Z.mod_pos_bound; lia). pose proof (zlen_nonneg s).
  rewrite andb_true_iff, orb_true_iff, andb_true_iff, negb_true_iff, !Z.eqb_eq, Z.eqb_neq, Z.leb_le.
  Z.div_mod_to_equations. lia.
Qed.

Lemma encoded_bytes s : Forall is_byte s -> Forall is_byte (encoded s).
Proof.
  intros Hs. rewrite encoded_sextets, Forall_app, Forall_fmap. split; [|by apply Forall_replicate].
  eapply Forall_impl; [by apply sextets_of_range|]. intros k Hk. by destruct (tab_props k Hk) as (_ & _ & ?).
Qed.

(** Decoding what the encoder wrote gives the bytes back, strict or not, and
    whatever the buffers held before; the text has four characters for every three
    bytes or part of them. *)
Theorem base64_round_trip g1 g2 strict s : Forall is_byte s -> zlen s < 2 ^ 62 ->
  exists text, php_base64_encode g1 s = Ok text /\ zlen text = (zlen s + 2) / 3 * 4
    /\ php_base64_decode_ex g2 text strict = Ok (Some s).
Proof.
  intros Hs Hl. exists (encoded s). split_and!; [by apply php_base64_encode_ok|apply zlen_encoded|].
  rewrite php_base64_decode_ok by (by apply encoded_bytes). by rewrite decoded_encoded.
Qed.

(** ** What strict decoding accepts *)

Lemma rev_cases ch : rev ch = -2 \/ rev ch = -1 \/ 0 <= rev ch.
Proof.
  unfold rev. destruct (zget base64_reverse_table ch) as [v|] eqn:Hv; [|by left]. cbn.
  assert (Forall (fun v => v = -2 \/ v = -1 \/ 0 <= v) base64_reverse_table) as H.
  { apply Forall_forall. intros x Hx. apply list_elem_of_In in Hx. vm_compute in Hx. lia. }
  rewrite Forall_forall in H. apply H. unfold zget in Hv. destruct (0 <=? ch); [|done].
  apply list_elem_of_lookup. eauto.
Qed.

Lemma rev_small ch : rev ch < 64.
Proof.
  unfold rev. destruct (zget base64_reverse_table ch) as [v|] eqn:Hv; [|done]. cbn.
  assert (Forall (fun v => v < 64) base64_reverse_table) as H.
  { apply Forall_forall. intros x Hx. apply list_elem_of_In in Hx. vm_compute in Hx. lia. }
  rewrite Forall_forall in H. apply H. unfold zget in Hv. destruct (0 <=? ch); [|done].
  apply list_elem_of_lookup. eauto.
Qed.

Lemma pads_unique data data' n n' : data ++ replicate n base64_pad = data' ++ replicate n' base64_pad ->
  Forall (fun ch => ch <> base64_pad /\ 0 <= rev ch) data -> Forall (fun ch => ch <> base64_pad /\ 0 <= rev ch) data' ->
  data = data' /\ n = n'.
Proof.
  revert data'. induction data as [|d data IH]; intros [|d' data'] Heq Hd Hd'; cbn in Heq.
  - split; [done|]. apply (f_equal length) in Heq. by rewrite !length_replicate in Heq.
  - destruct n; [done|]. injection Heq as <- _. rewrite Forall_cons in Hd'. by destruct Hd' as [[? _] _].
  - destruct n'; [done|]. injection Heq as -> _. rewrite Forall_cons in Hd. by destruct Hd as [[? _] _].
  - injection Heq as <- Heq. rewrite Forall_cons in Hd, Hd'. destruct (IH data' Heq) as [-> ->]; [apply Hd|apply Hd'|done].
Qed.

Lemma scan_strict_spec inp : forall st p st' p', 0 <= p ->
  scan true inp st p = Some (st', p') <->
  exists data n, filter (fun ch => rev ch <> -1) inp = data ++ replicate n base64_pad
    /\ Forall (fun ch => ch <> base64_pad /\ 0 <= rev ch) data /\ (p <> 0 -> data = [])
    /\ st' = foldl dstep st (rev <$> data) /\ p' = p + Z.of_nat n.
Proof.
  assert (forall (ch : Z) l data n, ch :: l = data ++ replicate n base64_pad ->
    Forall (fun ch => ch <> base64_pad /\ 0 <= rev ch) data -> ch <> base64_pad ->
    exists data', data = ch :: data' /\ 0 <= rev ch /\ l = data' ++ replicate n base64_pad) as Hhead.
  { intros ch l [|d data] n Hl Hd Hne; cbn in Hl; [destruct n; [done|]; by injection Hl as -> _|].
    injection Hl as <- ->. rewrite Forall_cons in Hd. destruct Hd as [[_ ?] _]. by exists data. }
  induction inp as [|ch inp IH]; intros st p st' p' H0; cbn [scan].
  { split.
    - intros [= <- <-]. exists [], 0%nat. split_and!; [done|constructor|done|done|cbn; lia].
    - intros (data & n & Hf & _ & _ & -> & ->). cbn in Hf. symmetry in Hf. apply app_eq_nil in Hf as [-> Hn].
      destruct n; [|done]. cbn. by rewrite Z.add_0_r. }
  destruct (Z.eqb_spec ch base64_pad) as [->|Hne].
  { rewrite filter_cons_True by done. rewrite IH by lia. split.
    - intros (data & n & Hf & Hd & Hp & -> & ->). rewrite (Hp ltac:(lia)) in *. exists [], (S n).
      split_and!; [by rewrite Hf|done|done|done|lia].
    - intros (data & n & Hf & Hd & Hp & -> & ->). destruct data as [|d data].
      + destruct n as [|n]; [done|]. injection Hf as Hf. exists [], n. split_and!; [done|constructor|done|done|lia].
      + injection Hf as <- _. rewrite Forall_cons in Hd. by destruct Hd as [[? _] _]. }
  cbn [negb andb orb]. destruct (Z.eqb_spec (rev ch) (-1)) as [Hr|Hr]; [rewrite filter_cons_False by tauto; by apply IH|].
  rewrite filter_cons_True by done. destruct (Z.eqb_spec (rev ch) (-2)) as [Hr2|Hr2]; cbn [orb].
  { split; [done|]. intros (data & n & Hf & Hd & _). destruct (Hhead _ _ _ _ Hf Hd Hne) as (? & _ & ? & _). lia. }
  destruct (Z.eqb_spec p 0) as [->|Hp]; cbn [negb].
  - rewrite IH by lia. split.
    + intros (data & n & Hf & Hd & Hp & -> & ->). exists (ch :: data), n. rewrite Hf. split_and!; [done| |done|done|done].
      constructor; [|done]. destruct (rev_cases ch) as [?|[?|?]]; [done..|]. done.
    + intros (data & n & Hf & Hd & Hp & -> & ->). destruct (Hhead _ _ _ _ Hf Hd Hne) as (data' & -> & _ & ->).
      rewrite Forall_cons in Hd. exists data', n. split_and!; [done|apply Hd|done|done|done].
  - split; [done|]. intros (data & n & Hf & Hd & Hp' & _). destruct (Hhead _ _ _ _ Hf Hd Hne) as (data' & -> & _). by specialize (Hp' Hp).
Qed.

(** C19: Strict decoding succeeds exactly on texts that, white space apart, are
    characters of the alphabet followed by padding, with no single character left
    over and padding, if any, that completes the last group of four; the result is
    then the bytes of these groups. Every other text is rejected. *)
Theorem base64_strict_accepts g str r : Forall is_byte str ->
  php_base64_decode_ex g str true = Ok (Some r) <->
  exists data n, filter (fun ch => rev ch <> -1) str = data ++ replicate n base64_pad
    /\ Forall (fun ch => ch <> base64_pad /\ 0 <= rev ch) data
    /\ length_ok (zlen data) (Z.of_nat n) = true /\ r = unsextets (rev <$> data).
Proof.
  intros Hs. rewrite php_base64_decode_ok by done. unfold decoded.
  assert (forall data, Forall (fun ch => ch <> base64_pad /\ 0 <= rev ch) data ->
    exists part, foldl dstep (0, [], 0) (rev <$> data) = (zlen data, unsextets (rev <$> data), part)) as Hfold.
  { intros data Hd. destruct (dsteps_groups (rev <$> data)) with (i := 0) (done := @nil Z) (part := 0) as [part ->]; [|done|].
    - apply Forall_fmap. eapply Forall_impl; [exact Hd|]. intros ch [_ Hr]. unfold is_sextet. cbn. split; [done|]. apply rev_small.
    - exists part. unfold zlen. by rewrite length_fmap. }
  destruct (scan true str (0, [], 0) 0) as [[[[i done] part] padding]|] eqn:Hscan.
  - apply scan_strict_spec in Hscan as (data & n & Hf & Hd & _ & Hst & ->); [|done].
    destruct (Hfold data Hd) as [part' Hd']. rewrite Hd' in Hst. injection Hst as -> -> ->. rewrite Z.add_0_l. cbn [andb].
    destruct (length_ok (zlen data) (Z.of_nat n)) eqn:Hlen; cbn [negb]; split.
    + intros [= <-]. by exists data, n.
    + intros (data' & n' & Hf' & Hd2 & _ & ->). rewrite Hf in Hf'. do 2 f_equal. f_equal. f_equal.
      by destruct (pads_unique _ _ _ _ Hf' Hd Hd2).
    + done.
    + intros (data' & n' & Hf' & Hd2 & Hl & _). rewrite Hf in Hf'. destruct (pads_unique _ _ _ _ Hf' Hd Hd2) as [-> ->]. congruence.
  - split; [done|]. intros (data & n & Hf & Hd & Hl & ->). exfalso.
    assert (scan true str (0, [], 0) 0 = Some (foldl dstep (0, [], 0) (rev <$> data), Z.of_nat n)) as Hc; [|congruence].
    apply scan_strict_spec; [done|]. exists data, n. by split_and!.
Qed.

(** ** Instances *)

Lemma base64_round_trip_witness : exists text, php_base64_encode 0 [102; 111; 111; 98] = Ok text
  /\ zlen text = 8 /\ php_base64_decode_ex 255 text true = Ok (Some [102; 111; 111; 98]).
Proof.
  refine (base64_round_trip 0 255 true [102; 111; 111; 98] _ _); [|vm_compute; reflexivity].
  repeat apply Forall_cons_2; try apply Forall_nil_2; unfold is_byte; lia.
Defined.

(** "Zg =" is two characters of data and one of padding too few. *)
Lemma base64_strict_accepts_witness : php_base64_decode_ex 0 [90; 103; 32; 61] true = Ok (Some [102]) <->
  exists data n, filter (fun ch => rev ch <> -1) [90; 103; 32; 61] = data ++ replicate n base64_pad
    /\ Forall (fun ch => ch <> base64_pad /\ 0 <= rev ch) data
    /\ length_ok (zlen data) (Z.of_nat n) = true /\ [102] = unsextets (rev <$> data).
Proof.
  refine (base64_strict_accepts 0 [90; 103; 32; 61] [102] _).
  repeat apply Forall_cons_2; try apply Forall_nil_2; unfold is_byte; lia.
Defined.

Example base64_missing_pad : php_base64_decode_ex 0 [90; 103; 32; 61] true = Ok None
  /\ php_base64_decode_ex 0 [90; 103; 32; 61; 61] true = Ok (Some [102]).
Proof. vm_compute. by split. Qed.
