(* ===== verification/Uuencode.v ===== *)
(** * uuencode (ext/standard/uuencode.c)

    The encoder and the decoder over the memory of their strings: the input with its
    terminating zero, and the output buffer of the size the code allocates. *)

From Stdlib Require Import Floats.SpecFloat.
From S2P Require Import Prelude.
From S2P Require Import HashRehash.
From S2P Require Import ZendDouble.
From S2P Require Import Base64Ops.
From S2P Require Import Base64.

(** ** The code *)

Definition PHP_UU_ENC (c : Z) : Z := if c =? 0 then 96 else Z.land c 63 + 32.
Definition PHP_UU_ENC_C2 (c c1 : Z) : Z := PHP_UU_ENC (Z.lor (Z.land (Z.shiftl c 4) 48) (Z.land (Z.shiftr c1 4) 15)).
Definition PHP_UU_ENC_C3 (c1 c2 : Z) : Z := PHP_UU_ENC (Z.lor (Z.land (Z.shiftl c1 2) 60) (Z.land (Z.shiftr c2 6) 3)).
Definition PHP_UU_DEC (c : Z) : Z := Z.land (c - 32) 63.

(** [*p++ = x] *)
Definition emit (x : Z) (out : list Z) (p : Z) : res (list Z * Z) :=
  out ← wr out p x; Ok (out, p + 1).

(** The four characters for the bytes at [s]. *)
Definition uu_group (mem : list Z) (s : Z) (out : list Z) (p : Z) : res (list Z * Z) :=
  c ← rd mem s; '(out, p) ← emit (PHP_UU_ENC (Z.shiftr c 2)) out p;
  c1 ← rd mem (s + 1); '(out, p) ← emit (PHP_UU_ENC_C2 c c1) out p;
  c2 ← rd mem (s + 2); '(out, p) ← emit (PHP_UU_ENC_C3 c1 c2) out p;
  emit (PHP_UU_ENC (Z.land c2 63)) out p.

(** while (s < ee) *)
Fixpoint uu_groups (fuel : nat) (mem : list Z) (s ee : Z) (out : list Z) (p : Z) : res (Z * list Z * Z) :=
  if s <? ee then
    match fuel with
    | O => Ub
    | S fuel => '(out, p) ← uu_group mem s out p; uu_groups fuel mem (s + 3) ee out p
    end
  else Ok (s, out, p).

(** while ((s + 3) < e). The quotient of two integers below 2^53, rounded to a
    double, has the same [floor] as the exact quotient. *)
Fixpoint uu_lines (fuel : nat) (mem : list Z) (e s len : Z) (out : list Z) (p : Z) : res (Z * Z * list Z * Z) :=
  if s + 3 <? e then
    match fuel with
    | O => Ub
    | S fuel =>
        let ee := s + len in
        let '(ee, len) :=
          if e <? ee then
            let len := e - s in
            if negb (len mod 3 =? 0) then (s + len / 3 * 3, len) else (e, len)
          else (ee, len) in
        '(out, p) ← emit (PHP_UU_ENC len) out p;
        '(s, out, p) ← uu_groups fuel mem s ee out p;
        '(out, p) ← (if len =? 45 then emit 10 out p else Ok (out, p));
        uu_lines fuel mem e s len out p
    end
  else Ok (s, len, out, p).

(** The last group, which may be short. *)
Definition uu_last (mem : list Z) (e s : Z) (out : list Z) (p : Z) : res (list Z * Z) :=
  c ← rd mem s; '(out, p) ← emit (PHP_UU_ENC (Z.shiftr c 2)) out p;
  c1 ← rd mem (s + 1); '(out, p) ← emit (PHP_UU_ENC_C2 c c1) out p;
  x ← (if 1 <? e - s then c2 ← rd mem (s + 2); Ok (PHP_UU_ENC_C3 c1 c2) else Ok (PHP_UU_ENC 0));
  '(out, p) ← emit x out p;
  x ← (if 2 <? e - s then c2 ← rd mem (s + 2); Ok (PHP_UU_ENC (Z.land c2 63)) else Ok (PHP_UU_ENC 0));
  emit x out p.

(** if (s < e); a group that has no line yet gets one. *)
Definition uu_tail (mem : list Z) (e s len : Z) (out : list Z) (p : Z) : res (Z * list Z * Z) :=
  if s <? e then
    '(len, out, p) ← (if len =? 45 then '(out, p) ← emit (PHP_UU_ENC (e - s)) out p; Ok (0, out, p)
                      else Ok (len, out, p));
    '(out, p) ← uu_last mem e s out p;
    Ok (len, out, p)
  else Ok (len, out, p).

Section Strings.
(** The contents of freshly allocated memory. *)
Context (garbage_byte : Z).

(** [src] is the contents of a zend_string, which ends in a zero. *)
Definition php_uuencode (src : list Z) : res (list Z) :=
  let mem := src ++ [0] in let e := zlen src in
  if 2 ^ 64 <=? e / 2 * 3 + 46 + 32 then Fatal
  else
    let out := zend_string_alloc garbage_byte (e / 2 * 3 + 46) in
    '(s, len, out, p) ← uu_lines (S (length src)) mem e 0 45 out 0;
    '(len, out, p) ← uu_tail mem e s len out p;
    '(out, p) ← (if len <? 45 then emit 10 out p else Ok (out, p));
    '(out, p) ← emit (PHP_UU_ENC 0) out p;
    '(out, p) ← emit 10 out p;
    out ← wr out p 0;
    Ok (take (Z.to_nat p) out).

(** [(int) floor(len * 1.33)], in double arithmetic; 1.33 is 0x3ff547ae147ae148. *)
Definition floor_double (d : spec_float) : Z :=
  match d with
  | S754_finite s m e => Z.shiftl (if s then Z.neg m else Z.pos m) e
  | _ => 0
  end.
Definition floor_1_33 (len : Z) : Z :=
  floor_double (SFmul 53 1024 (double_of_long len) (double_of_bits 0x3ff547ae147ae148)).

(** The three bytes for the characters at [s]. *)
Definition uu_ungroup (mem : list Z) (s : Z) (dest : list Z) (p : Z) : res (list Z * Z) :=
  c ← rd mem s; c1 ← rd mem (s + 1);
  '(dest, p) ← emit (u8 (Z.lor (Z.shiftl (PHP_UU_DEC c) 2) (Z.shiftr (PHP_UU_DEC c1) 4))) dest p;
  c2 ← rd mem (s + 2);
  '(dest, p) ← emit (u8 (Z.lor (Z.shiftl (PHP_UU_DEC c1) 4) (Z.shiftr (PHP_UU_DEC c2) 2))) dest p;
  c3 ← rd mem (s + 3);
  emit (u8 (Z.lor (Z.shiftl (PHP_UU_DEC c2) 6) (PHP_UU_DEC c3))) dest p.

(** while (s < ee); [None] is [goto err]. *)
Fixpoint uu_ungroups (fuel : nat) (mem : list Z) (e s ee : Z) (dest : list Z) (p : Z) : res (option (Z * list Z * Z)) :=
  if s <? ee then
    match fuel with
    | O => Ub
    | S fuel =>
        if e <? s + 4 then Ok None
        else '(dest, p) ← uu_ungroup mem s dest p; uu_ungroups fuel mem e (s + 4) ee dest p
    end
  else Ok (Some (s, dest, p)).

(** while (s < e) *)
Fixpoint uu_unlines (fuel : nat) (mem : list Z) (e s total_len : Z) (dest : list Z) (p : Z) : res (option (Z * Z * list Z * Z)) :=
  if s <? e then
    match fuel with
    | O => Ub
    | S fuel =>
        c ← rd mem s; let s := s + 1 in let len := PHP_UU_DEC c in
        if len =? 0 then Ok (Some (s, total_len, dest, p))
        else if e <? len then Ok None
        else
          let total_len := u64 (total_len + len) in
          let ee := s + (if len =? 45 then 60 else floor_1_33 len) in
          if e <? ee then Ok None
          else
            r ← uu_ungroups fuel mem e s ee dest p;
            match r with
            | None => Ok None
            | Some (s, dest, p) =>
                if len <? 45 then Ok (Some (s, total_len, dest, p))
                else uu_unlines fuel mem e (s + 1) total_len dest p
            end
    end
  else Ok (Some (s, total_len, dest, p)).

(** The bytes that are still missing when the loop is done. *)
Definition uu_untail (mem : list Z) (s len : Z) (dest : list Z) (p : Z) : res (list Z * Z) :=
  if p <? len then
    c ← rd mem s; c1 ← rd mem (s + 1);
    '(dest, p) ← emit (u8 (Z.lor (Z.shiftl (PHP_UU_DEC c) 2) (Z.shiftr (PHP_UU_DEC c1) 4))) dest p;
    if 1 <? len then
      c2 ← rd mem (s + 2);
      '(dest, p) ← emit (u8 (Z.lor (Z.shiftl (PHP_UU_DEC c1) 4) (Z.shiftr (PHP_UU_DEC c2) 2))) dest p;
      if 2 <? len then
        c3 ← rd mem (s + 3); emit (u8 (Z.lor (Z.shiftl (PHP_UU_DEC c2) 6) (PHP_UU_DEC c3))) dest p
      else Ok (dest, p)
    else Ok (dest, p)
  else Ok (dest, p).

(** The product with 0.75 is exact for lengths below 2^51. *)
Definition ceil_0_75 (n : Z) : Z := (n * 3 + 3) / 4.

Definition php_uudecode (src : list Z) : res (option (list Z)) :=
  let mem := src ++ [0] in let e := zlen src in
  if e =? 0 then Ok None
  else
    let dest := zend_string_alloc garbage_byte (ceil_0_75 e) in
    r ← uu_unlines (S (length src)) mem e 0 0 dest 0;
    match r with
    | None => Ok None
    | Some (s, total_len, dest, p) =>
        '(dest, p) ← uu_untail mem s total_len dest p;
        dest ← wr dest total_len 0;
        Ok (Some (take (Z.to_nat total_len) dest))
    end.
End Strings.

Example uu_test : php_uuencode 0 [116; 101; 115; 116; 10] = Ok [37; 61; 38; 53; 83; 61; 96; 72; 96; 10; 96; 10].
Proof. vm_compute. reflexivity. Qed.

(** ** Six bits at a time *)

Definition six2 (a b : Z) : Z := Z.lor (Z.land (Z.shiftl a 4) 48) (Z.land (Z.shiftr b 4) 15).
Definition six3 (b c : Z) : Z := Z.lor (Z.land (Z.shiftl b 2) 60) (Z.land (Z.shiftr c 6) 3).

Lemma high_bits x k n : 0 <= x < 2 ^ k -> 0 <= k <= n -> Z.testbit x n = false.
Proof.
  intros Hx Hk. destruct (Z.eq_dec x 0) as [->|]; [apply Z.testbit_0_l|].
  apply Z.bits_above_log2; [lia|]. assert (Z.log2 x < k) by (apply Z.log2_lt_pow2; lia). lia.
Qed.

(** Computes the bit of a combination of shifts. *)
Ltac bit_step :=
  match goal with
  | |- context [Z.testbit ?x (?i - ?j)] => let k := eval compute in (i - j) in change (i - j) with k
  | |- context [Z.testbit ?x (?i + ?j)] => let k := eval compute in (i + j) in change (i + j) with k
  | |- context [Z.testbit ?x (Z.neg ?k)] => rewrite (Z.testbit_neg_r x (Z.neg k)) by lia
  | |- context [Z.testbit (Z.pos ?x) ?k] => let b := eval compute in (Z.testbit (Z.pos x) k) in change (Z.testbit (Z.pos x) k) with b
  | |- _ => rewrite Z.lor_spec
  | |- _ => rewrite Z.land_spec
  | |- context [Z.testbit (Z.shiftr ?x ?j) ?k] => rewrite (Z.shiftr_spec x j k) by lia
  | |- context [Z.testbit (Z.shiftl ?x ?j) ?k] => rewrite (Z.shiftl_spec x j k) by lia
  end.

(** Reduces an equation of numbers of [w] bits to its bits. *)
Ltac bits w :=
  apply Z.bits_inj'; intros n Hn; destruct (Z.lt_ge_cases n w);
  [ unfold u8; rewrite ?Z.mod_pow2_bits_low by lia; unfold six2, six3;
    assert (n = 0 \/ n = 1 \/ n = 2 \/ n = 3 \/ n = 4 \/ n = 5 \/ n = 6 \/ n = 7) as Hcase by lia;
    destruct_or! Hcase; subst n; try lia; repeat bit_step;
    rewrite ?andb_false_r, ?andb_true_r, ?orb_false_r, ?orb_false_l; try done
  | unfold u8; rewrite ?Z.mod_pow2_bits_high by lia ].

Lemma byte1 a b : is_byte a -> u8 (Z.lor (Z.shiftl (Z.shiftr a 2) 2) (Z.shiftr (six2 a b) 4)) = a.
Proof. intros Ha. bits 8. symmetry. by apply (high_bits _ 8). Qed.
Lemma byte2 a b c : is_byte b -> is_byte c -> u8 (Z.lor (Z.shiftl (six2 a b) 4) (Z.shiftr (six3 b c) 2)) = b.
Proof. intros Hb Hc. bits 8. symmetry. by apply (high_bits _ 8). Qed.
Lemma byte3 b c : is_byte c -> u8 (Z.lor (Z.shiftl (six3 b c) 6) (Z.land c 63)) = c.
Proof. intros Hc. bits 8. symmetry. by apply (high_bits _ 8). Qed.

Lemma uu_dec_enc x : 0 <= x < 64 -> PHP_UU_DEC (PHP_UU_ENC x) = x.
Proof.
  intros Hx. assert (Forall (fun x => PHP_UU_DEC (PHP_UU_ENC x) = x) (seqZ 0 64)) as H by (vm_compute; repeat constructor).
  rewrite Forall_forall in H. apply H, elem_of_seqZ. lia.
Qed.

Lemma below_64 x : 0 <= x -> (forall n, 6 <= n -> Z.testbit x n = false) -> 0 <= x < 64.
Proof. intros H0 Hx. split; [done|]. by apply (Z.bounded_iff_bits_nonneg 6). Qed.

Lemma masked_64 x y m k : 0 <= m < 64 -> 0 <= k < 64 -> 0 <= Z.lor (Z.land x m) (Z.land y k) < 64.
Proof.
  intros Hm Hk. apply below_64.
  - apply Z.lor_nonneg. split; apply Z.land_nonneg; lia.
  - intros n Hn. rewrite Z.lor_spec, !Z.land_spec, (high_bits m 6 n), (high_bits k 6 n) by lia. by rewrite !andb_false_r.
Qed.

Lemma sixes a b c : is_byte a -> 0 <= Z.shiftr a 2 < 64 /\ 0 <= six2 a b < 64 /\ 0 <= six3 b c < 64 /\ 0 <= Z.land c 63 < 64.
Proof.
  intros Ha. split; [|split; [apply masked_64; lia|split; [apply masked_64; lia|]]].
  - rewrite Z.shiftr_div_pow2 by lia. change (2 ^ 2) with 4. unfold is_byte in Ha. Z.div_mod_to_equations. lia.
  - change 63 with (Z.ones 6). rewrite Z.land_ones by lia. by apply Z.mod_pos_bound.
Qed.

(** ** Buffers filled from the front *)

Section Buf.
Context (N : nat) (g : Z).

(** [w] has been written, the rest is as it was allocated. *)
Definition buf (w : list Z) : list Z := w ++ replicate (N - length w) g.

Lemma zlen_buf w : zlen w <= Z.of_nat N -> zlen (buf w) = Z.of_nat N.
Proof. unfold buf, zlen. rewrite length_app, length_replicate. lia. Qed.

Lemma emit_buf x w : zlen w < Z.of_nat N -> emit x (buf w) (zlen w) = Ok (buf (w ++ [x]), zlen (w ++ [x])).
Proof.
  intros H. unfold emit. rewrite wr_ok, bind_ok by (rewrite zlen_buf by lia; pose proof (zlen_nonneg w); lia).
  rewrite zlen_app. do 2 f_equal. unfold buf, zset, zlen in *. rewrite Nat2Z.id, length_app. cbn [length].
  destruct (N - length w)%nat as [|k] eqn:E; [lia|]. replace (N - (length w + 1))%nat with k by lia.
  replace (length w) with (length w + 0)%nat by lia. rewrite insert_app_r, <- app_assoc. done.
Qed.

Lemma take_buf w k : 0 <= k <= zlen w -> take (Z.to_nat k) (buf w) = take (Z.to_nat k) w.
Proof. intros Hk. unfold buf, zlen in *. apply take_app_le. lia. Qed.
End Buf.

Lemma alloc_buf g n : 0 <= n -> zend_string_alloc g n = buf (Z.to_nat (n + 1)) g [].
Proof. intros _. unfold zend_string_alloc, buf. by rewrite Nat.sub_0_r. Qed.

Lemma rd_skip (l1 l : list Z) k : 0 <= k -> rd (l1 ++ l) (zlen l1 + k) = rd l k.
Proof.
  intros Hk. unfold rd, zget, zlen. rewrite !(proj2 (Z.leb_le _ _)) by lia.
  rewrite lookup_app_r by lia. replace (Z.to_nat (Z.of_nat (length l1) + k) - length l1)%nat with (Z.to_nat k) by lia. done.
Qed.

Lemma rd_here l1 (x : Z) l : rd (l1 ++ x :: l) (zlen l1) = Ok x.
Proof. rewrite <- (Z.add_0_r (zlen l1)). by rewrite rd_skip. Qed.

(** Runs the next read or write. *)
Ltac uu_step := first [rewrite rd_here|rewrite rd_skip by lia|rewrite emit_buf by (rewrite ?zlen_app; unfold zlen in *; cbn [length] in *; lia)
  |progress change (rd (?x :: ?y :: ?l) 1) with (Ok y)
  |progress change (rd (?x :: ?y :: ?z :: ?l) 2) with (Ok z)|progress change (rd (?x :: ?y :: ?z :: ?t :: ?l) 3) with (Ok t)]; rewrite ?bind_ok.

(** ** The encoder *)

(** The characters for three bytes. *)
Definition chars (a b c : Z) : list Z :=
  [PHP_UU_ENC (Z.shiftr a 2); PHP_UU_ENC (six2 a b); PHP_UU_ENC (six3 b c); PHP_UU_ENC (Z.land c 63)].

Fixpoint enc (l : list Z) : list Z :=
  match l with
  | [] => []
  | [a] => chars a 0 0
  | [a; b] => chars a b 0
  | a :: b :: c :: l => chars a b c ++ enc l
  end.

(** The lines for a string, each with the number of its bytes, 45 but for the last. *)
Fixpoint text (n : nat) (l : list Z) : list Z :=
  match n with
  | O => []
  | S n =>
      if zlen l =? 0 then []
      else if 45 <=? zlen l then PHP_UU_ENC 45 :: enc (take 45 l) ++ [10] ++ text n (drop 45 l)
      else PHP_UU_ENC (zlen l) :: enc l ++ [10]
  end.

(** ... and a line of no bytes at the end. *)
Definition uu_text (l : list Z) : list Z := text (length l) l ++ [96; 10].

Lemma zlen_enc l : zlen (enc l) = (zlen l + 2) / 3 * 4.
Proof.
  revert l. refine (triple_ind _ _ _ _ _); [done|done|done|]. intros a b c l IH. cbn [enc].
  rewrite zlen_app, IH, !zlen_cons. change (zlen (chars a b c)) with 4. pose proof (zlen_nonneg l). Z.div_mod_to_equations. lia.
Qed.

Lemma enc_app l l' : zlen l mod 3 = 0 -> enc (l ++ l') = enc l ++ enc l'.
Proof.
  revert l. refine (triple_ind _ _ _ _ _); [done|done|done|]. intros a b c l IH H. cbn [enc app].
  rewrite IH; [by rewrite app_assoc|]. rewrite !zlen_cons in H. Z.div_mod_to_equations. lia.
Qed.

Lemma zlen_text n l : (length l <= n)%nat -> 15 * zlen (text n l) <= 21 * zlen l + 70.
Proof.
  revert l. induction n as [|n IH]; intros l Hl; cbn [text]; [unfold zlen; cbn; lia|].
  pose proof (zlen_nonneg l). destruct (Z.eqb_spec (zlen l) 0); [unfold zlen in *; cbn; lia|].
  destruct (Z.leb_spec 45 (zlen l)).
  - rewrite zlen_cons, !zlen_app, zlen_enc. change (zlen [10]) with 1.
    assert (zlen (take 45 l) = 45) as -> by (unfold zlen in *; rewrite length_take; lia).
    specialize (IH (drop 45 l)). unfold zlen in *. rewrite length_drop in *. change ((45 + 2) / 3 * 4) with 60. lia.
  - rewrite zlen_cons, zlen_app, zlen_enc. change (zlen [10]) with 1. Z.div_mod_to_equations. lia.
Qed.

Section Encoder.
Context (N : nat) (g : Z).
Local Notation buf := (buf N g).
Local Notation N' := (Z.of_nat N).

Lemma uu_group_ok l1 a b c l2 w : zlen w + 4 <= N' ->
  uu_group (l1 ++ a :: b :: c :: l2) (zlen l1) (buf w) (zlen w) = Ok (buf (w ++ chars a b c), zlen (w ++ chars a b c)).
Proof. intros Hw. unfold uu_group, PHP_UU_ENC_C2, PHP_UU_ENC_C3. repeat uu_step. by rewrite <- !app_assoc. Qed.

Lemma uu_groups_ok l : forall l1 l2 w fuel, zlen l mod 3 = 0 -> (length l <= fuel)%nat -> zlen w + zlen (enc l) <= N' ->
  uu_groups fuel (l1 ++ l ++ l2) (zlen l1) (zlen l1 + zlen l) (buf w) (zlen w)
  = Ok (zlen l1 + zlen l, buf (w ++ enc l), zlen (w ++ enc l)).
Proof.
  revert l. refine (triple_ind _ _ _ _ _); [|done|done|].
  - intros l1 l2 w fuel _ _ _. cbn [enc app]. rewrite app_nil_r. change (zlen []) with 0. rewrite Z.add_0_r.
    destruct fuel; cbn [uu_groups]; by rewrite Z.ltb_irrefl.
  - intros a b c l IH l1 l2 w fuel Hm Hf Hw. destruct fuel as [|fuel]; [by inversion Hf|].
    cbn [enc app uu_groups] in *. rewrite !zlen_cons, zlen_app in *. change (zlen (chars a b c)) with 4 in *.
    pose proof (zlen_nonneg l). pose proof (zlen_nonneg (enc l)). rewrite (proj2 (Z.ltb_lt _ _)) by lia.
    rewrite uu_group_ok, bind_ok by lia.
    specialize (IH (l1 ++ [a; b; c]) l2 (w ++ chars a b c) fuel). rewrite <- !app_assoc, !zlen_app in IH.
    change (zlen [a; b; c]) with 3 in IH. change (zlen (chars a b c)) with 4 in IH. cbn [app] in IH.
    rewrite !zlen_app. change (zlen (chars a b c)) with 4.
    replace (zlen l1 + (zlen l + 1 + 1 + 1)) with (zlen l1 + 3 + zlen l) by lia.
    rewrite IH; [do 2 f_equal; lia|Z.div_mod_to_equations; lia|cbn in Hf; lia|lia].
Qed.

Lemma uu_last_ok l1 l w : 0 < zlen l <= 3 -> zlen w + 4 <= N' ->
  uu_last (l1 ++ l ++ [0]) (zlen l1 + zlen l) (zlen l1) (buf w) (zlen w) = Ok (buf (w ++ enc l), zlen (w ++ enc l)).
Proof.
  intros Hl Hw. unfold uu_last. replace (zlen l1 + zlen l - zlen l1) with (zlen l) by lia.
  destruct l as [|a [|b [|c [|]]]]; unfold zlen in Hl; cbn [length] in Hl; try lia; clear Hl;
    unfold PHP_UU_ENC_C2, PHP_UU_ENC_C3; cbn [app enc]; repeat first [uu_step
      |progress change (zlen [a]) with 1|progress change (zlen [a; b]) with 2|progress change (zlen [a; b; c]) with 3
      |progress (cbn [Z.ltb Z.compare Pos.compare Pos.compare_cont]; rewrite ?bind_ok)]; by rewrite <- !app_assoc.
Qed.

(** What follows the loop over the lines. *)
Definition finish (mem : list Z) (e s len : Z) (out : list Z) (p : Z) : res (list Z * Z) :=
  '(len, out, p) ← uu_tail mem e s len out p; if len <? 45 then emit 10 out p else Ok (out, p).

Lemma finish_ok l1 l w len : 0 <= zlen l <= 3 -> 0 <= len <= 45 -> zlen w + 6 <= N' ->
  finish (l1 ++ l ++ [0]) (zlen l1 + zlen l) (zlen l1) len (buf w) (zlen w)
  = let w' := w ++ (if len =? 45 then text 1 l else enc l ++ [10]) in Ok (buf w', zlen w').
Proof.
  intros Hl Hlen Hw. unfold finish, uu_tail. replace (zlen l1 + zlen l - zlen l1) with (zlen l) by lia.
  cbn [text]. rewrite (proj2 (Z.leb_gt 45 (zlen l))) by lia.
  destruct (Z.eqb_spec (zlen l) 0) as [E|].
  { rewrite E, Z.add_0_r, Z.ltb_irrefl, bind_ok. destruct l; [|by unfold zlen in E]. cbn [enc app].
    destruct (Z.eqb_spec len 45) as [->|]; [by rewrite app_nil_r|]. rewrite (proj2 (Z.ltb_lt _ _)) by lia. by uu_step. }
  assert (zlen (enc l) = 4) as Hl4 by (rewrite zlen_enc; Z.div_mod_to_equations; lia).
  rewrite (proj2 (Z.ltb_lt _ _)) by lia. destruct (Z.eqb_spec len 45) as [->|].
  - rewrite emit_buf, !bind_ok, uu_last_ok, !bind_ok by (rewrite ?zlen_app; change (zlen [_]) with 1; lia).
    change (0 <? 45) with true. cbv iota. rewrite emit_buf by (rewrite !zlen_app, Hl4; change (zlen [_]) with 1; lia).
    by rewrite <- !app_assoc.
  - rewrite bind_ok, uu_last_ok, !bind_ok, (proj2 (Z.ltb_lt len 45)) by lia.
    rewrite emit_buf by (rewrite zlen_app; lia). by rewrite <- !app_assoc.
Qed.

(** The loop does not run on a rest of at most three bytes. *)
Lemma uu_lines_done fuel mem e s len out p : e <= s + 3 -> uu_lines fuel mem e s len out p = Ok (s, len, out, p).
Proof. intros H. destruct fuel; cbn [uu_lines]; by rewrite (proj2 (Z.ltb_ge _ _)) by lia. Qed.

Lemma split_at {A} (k : Z) (l : list A) : 0 <= k <= zlen l ->
  exists l1 l2, l = l1 ++ l2 /\ zlen l1 = k /\ zlen l2 = zlen l - k /\ l1 = take (Z.to_nat k) l /\ l2 = drop (Z.to_nat k) l.
Proof.
  intros Hk. exists (take (Z.to_nat k) l), (drop (Z.to_nat k) l). unfold zlen in *. rewrite length_take, length_drop, take_drop.
  split_and!; [done|lia|lia|done|done].
Qed.

(** A last line of at least four bytes. *)
Lemma uu_lines_last fuel l1 l w : 4 <= zlen l < 45 -> (length l < fuel)%nat -> zlen w + zlen (enc l) + 7 <= N' ->
  exists s len w', uu_lines fuel (l1 ++ l ++ [0]) (zlen l1 + zlen l) (zlen l1) 45 (buf w) (zlen w) = Ok (s, len, buf w', zlen w')
    /\ finish (l1 ++ l ++ [0]) (zlen l1 + zlen l) s len (buf w') (zlen w')
       = Ok (buf (w ++ PHP_UU_ENC (zlen l) :: enc l ++ [10]), zlen (w ++ PHP_UU_ENC (zlen l) :: enc l ++ [10])).
Proof.
  intros Hl Hf Hw. destruct fuel as [|fuel]; [lia|]. cbn [uu_lines]. rewrite (proj2 (Z.ltb_lt _ _)) by lia.
  destruct (split_at (zlen l / 3 * 3) l) as (la & lb & -> & Ha & Hb & _); [Z.div_mod_to_equations; lia|].
  set (L := zlen (la ++ lb)) in *. rewrite (proj2 (Z.ltb_lt (zlen l1 + L) (zlen l1 + 45))) by lia.
  replace (zlen l1 + L - zlen l1) with L by lia.
  assert ((if negb (L mod 3 =? 0) then (zlen l1 + L / 3 * 3, L) else (zlen l1 + L, L)) = (zlen l1 + zlen la, L)) as ->.
  { destruct (Z.eqb_spec (L mod 3) 0); cbn [negb]; f_equal; Z.div_mod_to_equations; lia. }
  assert (zlen la mod 3 = 0) as Ha3 by (rewrite Ha; Z.div_mod_to_equations; lia).
  pose proof (zlen_app la lb) as HL. fold L in HL. rewrite (enc_app _ _ Ha3), zlen_app in Hw.
  pose proof (zlen_nonneg (enc lb)). pose proof (zlen_nonneg lb). pose proof (zlen_nonneg (enc la)).
  rewrite emit_buf, bind_ok, <- app_assoc by lia.
  rewrite uu_groups_ok, bind_ok; [|done|rewrite length_app in Hf; lia|rewrite zlen_app; change (zlen [_]) with 1; lia].
  rewrite (proj2 (Z.eqb_neq L 45)), bind_ok, uu_lines_done by (Z.div_mod_to_equations; lia).
  eexists _, _, _. split; [done|].
  rewrite (app_assoc l1), HL. replace (zlen l1 + (zlen la + zlen lb)) with (zlen (l1 ++ la) + zlen lb) by (rewrite zlen_app; lia).
  replace (zlen l1 + zlen la) with (zlen (l1 ++ la)) by by rewrite zlen_app. rewrite <- HL, finish_ok.
  - rewrite (proj2 (Z.eqb_neq L 45)) by lia. by rewrite (enc_app _ _ Ha3), <- !app_assoc.
  - Z.div_mod_to_equations. lia.
  - lia.
  - rewrite !zlen_app. change (zlen [_]) with 1. lia.
Qed.

Lemma uu_lines_ok n : forall l l1 w fuel, (length l <= n)%nat -> (length l < fuel)%nat -> zlen w + zlen (text n l) + 6 <= N' ->
  exists s len w', uu_lines fuel (l1 ++ l ++ [0]) (zlen l1 + zlen l) (zlen l1) 45 (buf w) (zlen w) = Ok (s, len, buf w', zlen w')
    /\ finish (l1 ++ l ++ [0]) (zlen l1 + zlen l) s len (buf w') (zlen w') = Ok (buf (w ++ text n l), zlen (w ++ text n l)).
Proof.
  induction n as [|n IH]; intros l l1 w fuel Hn Hf Hw; pose proof (zlen_nonneg (text 0 l)).
  { destruct l; [|by inversion Hn]. exists (zlen l1), 45, w. rewrite uu_lines_done by (change (zlen []) with 0; lia).
    split; [done|]. rewrite finish_ok by (change (zlen []) with 0 in *; cbn [text] in *; lia). by cbn. }
  destruct (Z.le_gt_cases (zlen l) 3) as [H3|H3].
  { exists (zlen l1), 45, w. rewrite uu_lines_done by lia. split; [done|].
    pose proof (zlen_nonneg l). pose proof (zlen_nonneg (text (S n) l)). rewrite finish_ok by lia.
    change (45 =? 45) with true. cbn [text]. by rewrite (proj2 (Z.leb_gt 45 (zlen l))) by lia. }
  cbn [text] in *. rewrite (proj2 (Z.eqb_neq (zlen l) 0)) in * by lia.
  destruct (Z.leb_spec 45 (zlen l)) as [H45|H45].
  2: { apply uu_lines_last; [lia|done|]. rewrite zlen_cons, zlen_app in Hw. change (zlen [_]) with 1 in Hw. lia. }
  destruct (split_at 45 l) as (la & lb & El & Ha & Hb & Ea & Eb); [lia|]. change (Z.to_nat 45) with 45%nat in *.
  rewrite <- Ea, <- Eb in *. clear Ea Eb. subst l. destruct fuel as [|fuel]; [lia|]. cbn [uu_lines].
  pose proof (zlen_nonneg lb). pose proof (zlen_nonneg (text n lb)). rewrite length_app in *.
  assert (length la = 45%nat) as Hla by (unfold zlen in Ha; lia).
  rewrite zlen_cons, !zlen_app, zlen_enc, Ha in Hw. change (zlen [_]) with 1 in Hw. change ((45 + 2) / 3 * 4) with 60 in Hw.
  rewrite (proj2 (Z.ltb_lt _ _)) by lia. rewrite (proj2 (Z.ltb_ge (zlen l1 + zlen (la ++ lb)) (zlen l1 + 45))) by lia.
  rewrite emit_buf, bind_ok, <- app_assoc by lia. replace (zlen l1 + 45) with (zlen l1 + zlen la) by lia.
  rewrite uu_groups_ok, bind_ok;
    [|by rewrite Ha|lia|rewrite zlen_app, zlen_enc, Ha; change (zlen [_]) with 1; change ((45 + 2) / 3 * 4) with 60; lia].
  change (45 =? 45) with true. cbv iota.
  rewrite emit_buf, bind_ok by (rewrite !zlen_app, zlen_enc, Ha; change (zlen [_]) with 1; change ((45 + 2) / 3 * 4) with 60; lia).
  destruct (IH lb (l1 ++ la) (((w ++ [PHP_UU_ENC 45]) ++ enc la) ++ [10]) fuel) as (s & len & w' & E & F); [lia..| |].
  { rewrite !zlen_app, zlen_enc, Ha. change (zlen [_]) with 1. change ((45 + 2) / 3 * 4) with 60. lia. }
  exists s, len, w'. rewrite <- !app_assoc, !zlen_app in *. change (zlen [_]) with 1 in *. cbn [app] in *.
  rewrite Z.add_assoc. split; [exact E|]. rewrite F. do 2 f_equal. rewrite zlen_cons, zlen_app, zlen_cons. lia.
Qed.
End Encoder.

Lemma php_uuencode_text g src : zlen src < 2 ^ 50 -> php_uuencode g src = Ok (uu_text src).
Proof.
  intros Hl. unfold php_uuencode. pose proof (zlen_nonneg src). pose proof (zlen_text (length src) src ltac:(done)) as Ht.
  rewrite (proj2 (Z.leb_gt _ _)), alloc_buf by (Z.div_mod_to_equations; lia).
  set (N := Z.to_nat (zlen src / 2 * 3 + 46 + 1)).
  assert (zlen (text (length src) src) + 6 <= Z.of_nat N) as HN by (subst N; Z.div_mod_to_equations; lia).
  destruct (uu_lines_ok N g (length src) src [] [] (S (length src))) as (s & len & w' & E & F); [lia|lia|exact HN|].
  change (zlen []) with 0 in *. rewrite Z.add_0_l in *. cbn [app] in E, F. rewrite E, bind_ok. unfold finish in F. clear E.
  destruct (uu_tail (src ++ [0]) (zlen src) s len (buf N g w') (zlen w')) as [[[len' out] p]| |]; [|done|done]. rewrite bind_ok in F. rewrite bind_ok. rewrite F. clear F.
  rewrite bind_ok. set (T := text (length src) src) in *.
  repeat (rewrite emit_buf, bind_ok by (rewrite ?zlen_app; change (zlen [_]) with 1; lia)).
  rewrite <- app_assoc. change ([PHP_UU_ENC 0] ++ [10]) with [96; 10].
  assert (zlen (T ++ [96; 10]) = zlen T + 2) as HT by by rewrite zlen_app.
  rewrite wr_ok, bind_ok by (rewrite zlen_buf; pose proof (zlen_nonneg T); lia).
  f_equal. unfold uu_text. fold T. unfold zset, buf. rewrite take_insert_ge by done.
  unfold zlen. rewrite Nat2Z.id. by rewrite take_app_length.
Qed.

(** ** The decoder is safe *)

(** What the lines of a malformed text can ask for: a group for each three bytes. *)
Lemma floor_1_33_enough len : 0 < len < 64 ->
  0 < (if len =? 45 then 60 else floor_1_33 len) < 2 ^ 32
  /\ len <= ((if len =? 45 then 60 else floor_1_33 len) + 3) / 4 * 3.
Proof.
  intros Hl. assert (forallb (fun len => let k := if len =? 45 then 60 else floor_1_33 len in
    (0 <? k) && (k <? 2 ^ 32) && (len <=? (k + 3) / 4 * 3)) (seqZ 1 63) = true) as H by (vm_compute; reflexivity).
  rewrite forallb_forall in H. specialize (H len). rewrite <- list_elem_of_In, elem_of_seqZ, !andb_true_iff in H.
  destruct H as [[? ?] ?]; lia.
Qed.

(** For a short line it is the length of its encoding, up to three characters. *)
Lemma floor_1_33_exact len : 0 < len < 45 -> floor_1_33 len <= (len + 2) / 3 * 4 < floor_1_33 len + 4.
Proof.
  intros Hl. assert (forallb (fun len => let k := floor_1_33 len in
    (k <=? (len + 2) / 3 * 4) && ((len + 2) / 3 * 4 <? k + 4)) (seqZ 1 44) = true) as H by (vm_compute; reflexivity).
  rewrite forallb_forall in H. specialize (H len). rewrite <- list_elem_of_In, elem_of_seqZ, !andb_true_iff in H. lia.
Qed.

Lemma uu_dec_range c : 0 <= PHP_UU_DEC c < 64.
Proof. unfold PHP_UU_DEC. change 63 with (Z.ones 6). rewrite Z.land_ones by lia. by apply Z.mod_pos_bound. Qed.

(** The three bytes of four characters. *)
Definition bytes (c c1 c2 c3 : Z) : list Z :=
  [u8 (Z.lor (Z.shiftl (PHP_UU_DEC c) 2) (Z.shiftr (PHP_UU_DEC c1) 4));
   u8 (Z.lor (Z.shiftl (PHP_UU_DEC c1) 4) (Z.shiftr (PHP_UU_DEC c2) 2));
   u8 (Z.lor (Z.shiftl (PHP_UU_DEC c2) 6) (PHP_UU_DEC c3))].

Section Decoder.
Context (N : nat) (mem : list Z) (e : Z).
Hypotheses (He : 0 <= e) (Hmem : zlen mem = e + 1) (HN : e * 3 < Z.of_nat N * 4) (Hlen : e < 2 ^ 50).
Local Notation N' := (Z.of_nat N).

(** The result of a loop, for a buffer that was allocated with any contents. *)
Definition held (g : Z) (r : option (Z * list Z)) : option (Z * list Z * Z) :=
  '(s, w) ← r; Some (s, buf N g w, zlen w).
Definition held4 (g : Z) (r : option (Z * Z * list Z)) : option (Z * Z * list Z * Z) :=
  '(s, t, w) ← r; Some (s, t, buf N g w, zlen w).

Lemma uu_ungroup_ok s w : 0 <= s -> s + 4 <= e -> zlen w + 3 <= N' ->
  exists c c1 c2 c3, forall g, uu_ungroup mem s (buf N g w) (zlen w) = Ok (buf N g (w ++ bytes c c1 c2 c3), zlen w + 3).
Proof.
  intros Hs He4 Hw. destruct (zget_is_Some mem s) as [c E]; [lia|]. destruct (zget_is_Some mem (s + 1)) as [c1 E1]; [lia|].
  destruct (zget_is_Some mem (s + 2)) as [c2 E2]; [lia|]. destruct (zget_is_Some mem (s + 3)) as [c3 E3]; [lia|].
  exists c, c1, c2, c3. intros g. unfold uu_ungroup.
  rewrite (rd_ok _ _ _ E), (rd_ok _ _ _ E1), (rd_ok _ _ _ E2), (rd_ok _ _ _ E3), !bind_ok.
  repeat (rewrite emit_buf by (rewrite ?zlen_app; change (zlen [_]) with 1; lia); rewrite ?bind_ok).
  rewrite <- !app_assoc, !zlen_app. change (zlen [_]) with 1. do 2 f_equal; lia.
Qed.

(** A loop over groups stops at the first group that begins at [ee] or later, within the text. *)
Lemma uu_ungroups_safe fuel : forall s ee w, 0 <= s <= e -> ee <= e -> zlen w * 4 <= s * 3 -> ee - s <= Z.of_nat fuel ->
  exists r, (forall g, uu_ungroups fuel mem e s ee (buf N g w) (zlen w) = Ok (held g r))
    /\ match r with
       | None => True
       | Some (s', w') => s' <= e /\ zlen w' * 4 <= s' * 3 /\ s <= s' /\ zlen w' = zlen w + Z.max ((ee - s + 3) / 4) 0 * 3
       end.
Proof.
  induction fuel as [|fuel IH]; intros s ee w Hs Hee Hw Hf; cbn [uu_ungroups].
  { exists (Some (s, w)). rewrite (proj2 (Z.ltb_ge _ _)) by lia. split; [done|]. split_and!; [lia..|Z.div_mod_to_equations; lia]. }
  destruct (Z.ltb_spec s ee).
  2: { exists (Some (s, w)). split; [done|]. split_and!; [lia..|Z.div_mod_to_equations; lia]. }
  destruct (Z.ltb_spec e (s + 4)); [by exists None|].
  destruct (uu_ungroup_ok s w) as (c & c1 & c2 & c3 & E); [lia..|].
  assert (zlen (w ++ bytes c c1 c2 c3) = zlen w + 3) as Hl by by rewrite zlen_app.
  destruct (IH (s + 4) ee (w ++ bytes c c1 c2 c3)) as (r & Hr & Hok); [lia..|].
  exists r. split; [intros g; by rewrite E, bind_ok, <- Hl|]. destruct r as [[s' w']|]; [|done].
  destruct Hok as (? & ? & ? & E4). split_and!; [lia..|]. rewrite E4, Hl. Z.div_mod_to_equations. lia.
Qed.

(** A line, [c] its first character. *)
Definition unline_body (fuel : nat) (s total : Z) (dest : list Z) (p c : Z) : res (option (Z * Z * list Z * Z)) :=
  let len := PHP_UU_DEC c in
  if len =? 0 then Ok (Some (s + 1, total, dest, p))
  else if e <? len then Ok None
  else
    let ee := s + 1 + (if len =? 45 then 60 else floor_1_33 len) in
    if e <? ee then Ok None
    else
      r ← uu_ungroups fuel mem e (s + 1) ee dest p;
      match r with
      | None => Ok None
      | Some (s, dest, p) =>
          if len <? 45 then Ok (Some (s, u64 (total + len), dest, p))
          else uu_unlines fuel mem e (s + 1) (u64 (total + len)) dest p
      end.

(** The loop over the lines writes at least the bytes it counts. *)
Lemma uu_unlines_safe fuel : forall s total w, 0 <= s <= e + 1 -> 0 <= total <= zlen w -> zlen w * 4 <= Z.min s e * 3 ->
  e - s < Z.of_nat fuel ->
  exists r, (forall g, uu_unlines fuel mem e s total (buf N g w) (zlen w) = Ok (held4 g r))
    /\ match r with None => True | Some (_, t, w') => 0 <= t <= zlen w' /\ zlen w' * 4 <= e * 3 end.
Proof.
  induction fuel as [|fuel IH]; intros s total w Hs Ht Hw Hf.
  { exists (Some (s, total, w)). cbn [uu_unlines]. rewrite (proj2 (Z.ltb_ge _ _)) by lia. split; [done|]. lia. }
  destruct (Z.le_gt_cases e s).
  { exists (Some (s, total, w)). cbn [uu_unlines]. rewrite (proj2 (Z.ltb_ge _ _)) by lia. split; [done|]. lia. }
  destruct (zget_is_Some mem s) as [c Hc]; [lia|].
  assert (forall g, uu_unlines (S fuel) mem e s total (buf N g w) (zlen w) = unline_body fuel s total (buf N g w) (zlen w) c)
    as Hstep by (intros g; cbn [uu_unlines]; by rewrite (proj2 (Z.ltb_lt s e)), (rd_ok _ _ _ Hc) by lia).
  setoid_rewrite Hstep. unfold unline_body. clear Hstep.
  pose proof (uu_dec_range c). destruct (Z.eqb_spec (PHP_UU_DEC c) 0) as [E0|]; [exists (Some (s + 1, total, w)); split; [done|lia]|].
  pose proof (floor_1_33_enough (PHP_UU_DEC c) ltac:(lia)) as [Hfl Hen].
  destruct (Z.ltb_spec e (PHP_UU_DEC c)) as [He'|]; [by exists None|].
  set (len := PHP_UU_DEC c) in *. set (k := if len =? 45 then 60 else floor_1_33 len) in *.
  destruct (Z.ltb_spec e (s + 1 + k)); [by exists None|].
  destruct (uu_ungroups_safe fuel (s + 1) (s + 1 + k) w) as (r & Hr & Hok); [lia..|]. setoid_rewrite Hr.
  destruct r as [[s' w']|]; [|by exists None]. destruct Hok as (Hs' & Hw' & Hle & El).
  replace (s + 1 + k - (s + 1)) with k in El by lia. rewrite u64_small by lia.
  destruct (Z.ltb_spec len 45) as [|]; [exists (Some (s', total + len, w')); split; [done|lia]|].
  apply (IH (s' + 1) (total + len) w'); lia.
Qed.
End Decoder.

(** C39: Decoding any text is safe: the loops end, every read is inside the text, every write
    inside the buffer, and the number of bytes the lines announce is never more than what
    the groups have produced. So the code for missing bytes does nothing, and no byte of
    the result is one that was never written. *)
Theorem php_uudecode_safe src (Hlen : zlen src < 2 ^ 50) :
  exists r, (forall garbage_byte, php_uudecode garbage_byte src = Ok r)
    /\ match r with Some out => zlen out * 4 <= zlen src * 3 | None => True end.
Proof.
  pose proof (zlen_nonneg src). destruct (Z.eqb_spec (zlen src) 0) as [E|Hne].
  { exists None. split; [intros g; unfold php_uudecode; by rewrite E|done]. }
  set (N := Z.to_nat (ceil_0_75 (zlen src) + 1)).
  assert (Z.of_nat N = ceil_0_75 (zlen src) + 1) as HN by (subst N; unfold ceil_0_75; Z.div_mod_to_equations; lia).
  assert (zlen src * 3 < Z.of_nat N * 4) by (rewrite HN; unfold ceil_0_75; Z.div_mod_to_equations; lia).
  destruct (uu_unlines_safe N (src ++ [0]) (zlen src)) with (fuel := S (length src)) (s := 0) (total := 0) (w := @nil Z)
    as (r & Hr & Hok); [try lia..|]; [by rewrite zlen_app|change (zlen []) with 0; lia|change (zlen []) with 0; lia|unfold zlen; lia|].
  exists ('(_, t, w) ← r; Some (take (Z.to_nat t) w)). split.
  - intros g. unfold php_uudecode. rewrite (proj2 (Z.eqb_neq _ _)) by done. rewrite alloc_buf by (unfold ceil_0_75; Z.div_mod_to_equations; lia).
    fold N. change 0 with (zlen (@nil Z)) at 3. rewrite Hr, bind_ok. destruct r as [[[s t] w]|]; [|done].
    cbn [held4 mbind option_bind]. unfold uu_untail. rewrite (proj2 (Z.ltb_ge _ _)), bind_ok by lia.
    rewrite wr_ok, bind_ok by (rewrite zlen_buf; lia). unfold zset. by rewrite take_insert_ge, take_buf by (done || lia).
  - destruct r as [[[s t] w]|]; [|done]. cbn. unfold zlen in *. rewrite length_take. lia.
Qed.

(** ** Decoding an encoded text *)

(** A string with zeros up to a multiple of three bytes. *)
Fixpoint padded (l : list Z) : list Z :=
  match l with
  | [] => []
  | [a] => [a; 0; 0]
  | [a; b] => [a; b; 0]
  | a :: b :: c :: l => a :: b :: c :: padded l
  end.

Lemma padded_prefix l : exists z, padded l = l ++ z /\ zlen z <= 2.
Proof.
  revert l. refine (triple_ind _ _ _ _ _); [by exists []|by exists [0; 0]|by exists [0]|].
  intros a b c l (z & E & Hz). exists z. cbn. by rewrite E.
Qed.

Lemma zlen_padded l : zlen (padded l) * 4 = zlen (enc l) * 3.
Proof.
  revert l. refine (triple_ind _ _ _ _ _); [done|done|done|]. intros a b c l IH. cbn [padded enc].
  rewrite zlen_app, !zlen_cons. change (zlen (chars a b c)) with 4. lia.
Qed.

Section Back.
Context (N : nat) (g : Z).
Local Notation buf := (buf N g).
Local Notation N' := (Z.of_nat N).

Lemma uu_ungroup_chars l1 a b c l2 w : is_byte a -> is_byte b -> is_byte c -> zlen w + 3 <= N' ->
  uu_ungroup (l1 ++ chars a b c ++ l2) (zlen l1) (buf w) (zlen w) = Ok (buf (w ++ [a; b; c]), zlen (w ++ [a; b; c])).
Proof.
  intros Ha Hb Hc Hw. pose proof (sixes a b c Ha) as (H1 & H2 & H3 & H4). unfold uu_ungroup, chars. cbn [app].
  repeat uu_step. rewrite !uu_dec_enc, byte1, byte2, byte3 by done. by rewrite <- !app_assoc.
Qed.

(** The characters [t] decode to the bytes [p], wherever the loop is told to stop in the last group. *)
Definition decodes (t p : list Z) : Prop :=
  forall l1 l2 e ee w fuel, (length t <= fuel)%nat -> ee <= zlen l1 + zlen t < ee + 4 -> zlen l1 + zlen t <= e ->
  zlen w + zlen p <= N' ->
  uu_ungroups fuel (l1 ++ t ++ l2) e (zlen l1) ee (buf w) (zlen w) = Ok (Some (zlen l1 + zlen t, buf (w ++ p), zlen (w ++ p))).

Lemma decodes_nil : decodes [] [].
Proof.
  intros l1 l2 e ee w fuel _ Hee _ _. rewrite app_nil_r. change (zlen []) with 0 in *.
  rewrite Z.add_0_r in *. destruct fuel; cbn [uu_ungroups]; by rewrite (proj2 (Z.ltb_ge _ _)) by lia.
Qed.

Lemma decodes_group a b c t p : is_byte a -> is_byte b -> is_byte c -> decodes t p ->
  decodes (chars a b c ++ t) (a :: b :: c :: p).
Proof.
  intros Ha Hb Hc IH l1 l2 e ee w fuel Hf Hee He Hw. destruct fuel as [|fuel]; [cbn in Hf; lia|].
  rewrite !zlen_cons, zlen_app in *. change (zlen (chars a b c)) with 4 in *. rewrite length_app in Hf. cbn [chars length] in Hf.
  pose proof (zlen_nonneg p). pose proof (zlen_nonneg t). cbn [uu_ungroups].
  rewrite (proj2 (Z.ltb_lt _ _)), (proj2 (Z.ltb_ge e (zlen l1 + 4))) by lia.
  rewrite <- !app_assoc, uu_ungroup_chars, bind_ok by (done || lia).
  specialize (IH (l1 ++ chars a b c) l2 e ee (w ++ [a; b; c]) fuel). rewrite <- !app_assoc, !zlen_app in IH.
  change (zlen (chars a b c)) with 4 in IH. change (zlen [a; b; c]) with 3 in IH. rewrite !zlen_app.
  change (zlen [a; b; c]) with 3. rewrite IH by lia. rewrite !zlen_cons. cbn [app]. do 3 f_equal; [f_equal; lia|lia].
Qed.

Lemma decodes_enc l : Forall is_byte l -> decodes (enc l) (padded l).
Proof.
  assert (is_byte 0) by done. revert l. refine (triple_ind _ _ _ _ _).
  - intros _. apply decodes_nil.
  - intros a Ha. rewrite Forall_singleton in Ha. apply (decodes_group a 0 0 [] []); auto using decodes_nil.
  - intros a b Hab. rewrite Forall_cons, Forall_singleton in Hab. destruct Hab.
    apply (decodes_group a b 0 [] []); auto using decodes_nil.
  - intros a b c l IH Hl. rewrite !Forall_cons in Hl. destruct Hl as (? & ? & ? & ?). cbn [enc padded]. auto using decodes_group.
Qed.

(** One line. *)
Lemma unline_ok l1 len t p l2 e w fuel : decodes t p -> 0 < len < 64 ->
  (let k := if len =? 45 then 60 else floor_1_33 len in k <= zlen t < k + 4) ->
  len <= e -> zlen l1 + 1 + zlen t <= e -> (length t <= fuel)%nat -> zlen w + zlen p <= N' -> zlen w < 2 ^ 60 ->
  uu_unlines (S fuel) (l1 ++ PHP_UU_ENC len :: t ++ l2) e (zlen l1) (zlen w) (buf w) (zlen w)
  = if len <? 45 then Ok (Some (zlen l1 + 1 + zlen t, zlen w + len, buf (w ++ p), zlen (w ++ p)))
    else uu_unlines fuel (l1 ++ PHP_UU_ENC len :: t ++ l2) e (zlen l1 + 1 + zlen t + 1) (zlen w + len) (buf (w ++ p)) (zlen (w ++ p)).
Proof.
  intros Ht Hlen Hk Hle He Hf Hw Hw60. cbv zeta in Hk. cbn [uu_unlines]. pose proof (zlen_nonneg t). pose proof (zlen_nonneg w).
  rewrite (proj2 (Z.ltb_lt _ _)), rd_here, bind_ok by lia. cbv zeta. rewrite uu_dec_enc by lia.
  set (k := if len =? 45 then 60 else floor_1_33 len) in *.
  rewrite (proj2 (Z.eqb_neq len 0)), (proj2 (Z.ltb_ge e len)), (proj2 (Z.ltb_ge e (zlen l1 + 1 + k))) by lia.
  pose proof (Ht (l1 ++ [PHP_UU_ENC len]) l2 e (zlen l1 + 1 + k) w fuel) as Hd.
  rewrite <- app_assoc, (zlen_app l1) in Hd. change (zlen [_]) with 1 in Hd. cbn [app] in Hd.
  rewrite Hd, bind_ok, u64_small by lia. done.
Qed.

(** Reading back the lines, for a buffer with room for three bytes for each four characters. *)
Lemma uu_unlines_text n l : Forall is_byte l -> (length l <= n)%nat -> forall l1 e w fuel,
  e = zlen l1 + zlen (text n l) + 2 -> (length (text n l) + 2 < fuel)%nat -> e < 2 ^ 50 -> zlen w <= zlen l1 ->
  zlen w * 4 + zlen (text n l) * 3 <= N' * 4 ->
  exists s z, uu_unlines fuel (l1 ++ text n l ++ [96; 10; 0]) e (zlen l1) (zlen w) (buf w) (zlen w)
    = Ok (Some (s, zlen (w ++ l), buf (w ++ l ++ z), zlen (w ++ l ++ z))) /\ zlen (w ++ l ++ z) * 4 <= zlen w * 4 + zlen (text n l) * 3.
Proof.
  revert l. induction n as [|n IH]; intros l Hb Hn l1 e w fuel He Hf He50 Hwe Hw; (destruct fuel as [|fuel]; [lia|]).
  { destruct l; [|by inversion Hn]. cbn [text app] in *. change (zlen []) with 0 in *. exists (zlen l1 + 1), [].
    cbn [uu_unlines]. rewrite (proj2 (Z.ltb_lt _ _)), rd_here, bind_ok by lia. rewrite !app_nil_r. cbn. split; [done|lia]. }
  cbn [text] in *. destruct (Z.eqb_spec (zlen l) 0) as [E|].
  { destruct l; [|by unfold zlen in E]. cbn [app] in *. change (zlen []) with 0 in *. exists (zlen l1 + 1), [].
    cbn [uu_unlines]. rewrite (proj2 (Z.ltb_lt _ _)), rd_here, bind_ok by lia. rewrite !app_nil_r. cbn. split; [done|lia]. }
  pose proof (zlen_nonneg l). destruct (Z.leb_spec 45 (zlen l)) as [H45|H45].
  - destruct (split_at 45 l) as (la & lb & El & Ha & Hlb & Ea & Eb); [lia|]. change (Z.to_nat 45) with 45%nat in *.
    rewrite <- Ea, <- Eb in *. clear Ea Eb. subst l. rewrite Forall_app in Hb. destruct Hb as [Hba Hbb].
    assert (zlen (enc la) = 60) as He60 by by rewrite zlen_enc, Ha. pose proof (zlen_padded la) as Hp. rewrite He60 in Hp.
    destruct (padded_prefix la) as (z & Ez & _). rewrite Ez, zlen_app, Ha in Hp.
    assert (z = []) as -> by (destruct z; [done|rewrite zlen_cons in Hp; pose proof (zlen_nonneg z0); lia]).
    rewrite app_nil_r in Ez. rewrite zlen_cons, !zlen_app, He60 in *. change (zlen [10]) with 1 in *.
    cbn [app length] in *. rewrite !length_app in *. cbn [length] in *.
    pose proof (zlen_nonneg (text n lb)). pose proof (zlen_nonneg l1). pose proof (zlen_nonneg w).
    rewrite <- !app_assoc, (unline_ok _ _ _ _ _ _ _ _ (decodes_enc la Hba)).
    all: try change (45 =? 45) with true; cbv iota zeta; rewrite ?Ez, ?Ha; try lia.
    assert (length la = 45%nat) by (unfold zlen in Ha; lia). change (45 <? 45) with false. cbv iota.
    destruct (IH lb Hbb) with (l1 := l1 ++ PHP_UU_ENC 45 :: enc la ++ [10]) (e := e) (w := w ++ la) (fuel := fuel)
      as (s & z & E & Hz).
    all: rewrite ?zlen_app, ?zlen_cons, ?zlen_app, ?He60, ?Ha; change (zlen [10]) with 1; try lia.
    exists s, z. rewrite !zlen_app, zlen_cons, !zlen_app, He60, Ha in *. change (zlen [10]) with 1 in *.
    rewrite <- !app_assoc in *. cbn [app] in *. rewrite <- !app_assoc in *. cbn [app] in *.
    replace (zlen l1 + 1 + 60 + 1) with (zlen l1 + (60 + 1 + 1)) by lia. rewrite E, <- !Z.add_assoc. split; [done|lia].
  - rewrite zlen_cons, zlen_app in *. change (zlen [10]) with 1 in *. cbn [app length] in *. rewrite length_app in *.
    pose proof (zlen_enc l) as HE. pose proof (zlen_padded l) as HP. pose proof (zlen_nonneg l1). pose proof (zlen_nonneg w).
    pose proof (floor_1_33_exact (zlen l) ltac:(lia)) as Hfl.
    rewrite <- !app_assoc, (unline_ok _ _ _ _ _ _ _ _ (decodes_enc l Hb)).
    all: try rewrite (proj2 (Z.eqb_neq (zlen l) 45)) by lia; try (Z.div_mod_to_equations; lia).
    rewrite (proj2 (Z.ltb_lt (zlen l) 45)) by lia.
    destruct (padded_prefix l) as (z & Ez & Hz). rewrite Ez in *. exists (zlen l1 + 1 + zlen (enc l)), z.
    rewrite !zlen_app in *. change (zlen [10]) with 1. split; [done|]. lia.
Qed.
End Back.

(** C40: Decoding what has been encoded gives the string back, whatever the fresh buffers
    contained: no byte beyond the number the last line announces stays in it. *)
Theorem uuencode_round_trip g g' src (Hb : Forall is_byte src) (Hlen : zlen src < 2 ^ 48) :
  exists txt, php_uuencode g src = Ok txt /\ php_uudecode g' txt = Ok (Some src).
Proof.
  exists (uu_text src). pose proof (zlen_nonneg src). split; [apply php_uuencode_text; lia|].
  unfold php_uudecode. set (T := text (length src) src).
  assert (uu_text src = T ++ [96; 10]) as -> by done. pose proof (zlen_nonneg T).
  pose proof (zlen_text (length src) src ltac:(done)) as Ht. fold T in Ht.
  assert (zlen (T ++ [96; 10]) = zlen T + 2) as HT by by rewrite zlen_app. rewrite HT.
  rewrite (proj2 (Z.eqb_neq _ _)), alloc_buf by (unfold ceil_0_75; Z.div_mod_to_equations; lia).
  set (N := Z.to_nat (ceil_0_75 (zlen T + 2) + 1)).
  assert (Z.of_nat N = ceil_0_75 (zlen T + 2) + 1) as HN by (subst N; unfold ceil_0_75; Z.div_mod_to_equations; lia).
  destruct (uu_unlines_text N g' (length src) src Hb ltac:(done) [] (zlen T + 2) [] (S (length (T ++ [96; 10]))))
    as (s & z & E & Hz).
  { by fold T. }
  { fold T. rewrite length_app. cbn. lia. }
  { lia. }
  { done. }
  { fold T. rewrite HN. unfold ceil_0_75. change (zlen []) with 0. Z.div_mod_to_equations. lia. }
  fold T in E. cbn [app] in E, Hz. change (zlen []) with 0 in E. rewrite <- app_assoc. cbn [app]. rewrite E, bind_ok.
  pose proof (zlen_nonneg z). rewrite zlen_app in *. unfold uu_untail. rewrite (proj2 (Z.ltb_ge _ _)), bind_ok by lia.
  change (zlen []) with 0 in Hz. fold T in Hz.
  assert (zlen (src ++ z) < Z.of_nat N) as HzN by (rewrite zlen_app, HN; unfold ceil_0_75; Z.div_mod_to_equations; lia).
  rewrite wr_ok, bind_ok by (rewrite zlen_buf by lia; rewrite zlen_app in HzN; lia).
  unfold zset. rewrite take_insert_ge, take_buf by (done || (rewrite zlen_app; lia)).
  unfold zlen. by rewrite Nat2Z.id, take_app_length.
Qed.

(** "test", a line break *)
Theorem uuencode_round_trip_witness :
  Forall is_byte [116; 101; 115; 116; 10] /\
  exists txt, php_uuencode 1 [116; 101; 115; 116; 10] = Ok txt /\ php_uudecode 2 txt = Ok (Some [116; 101; 115; 116; 10]).
Proof.
  assert (Forall is_byte [116; 101; 115; 116; 10]) as H by (repeat constructor; by vm_compute).
  split; [exact H|]. apply uuencode_round_trip; [exact H|by vm_compute].
Defined.

(** A text that ends in the middle of a group. *)
Theorem php_uudecode_safe_witness :
  (forall g, php_uudecode g [37; 61; 38; 53; 83] = Ok None)
  /\ exists r, (forall g, php_uudecode g [37; 61; 38; 53; 83] = Ok r)
    /\ match r with Some out => zlen out * 4 <= zlen [37; 61; 38; 53; 83] * 3 | None => True end.
Proof. split; [by intros g; vm_compute|]. apply php_uudecode_safe. by vm_compute. Defined.
