(* ===== verification/Levenshtein.v ===== *)
(** * Edit distance (ext/standard/levenshtein.c)

    The function keeps two rows of the table of distances between the prefixes of
    the two strings. What it returns is compared with a specification that knows of
    no table: the least cost of a script of edits that turns one string into the
    other. *)

From S2P Require Import Prelude.
From S2P Require Import HashRehash.

(** ** The code *)

(** [a + b] of two zend_long; the result must fit. *)
Definition add_long (a b : Z) : res Z :=
  if (ZEND_LONG_MIN <=? a + b) && (a + b <=? ZEND_LONG_MAX) then Ok (a + b) else Ub.

Section Costs.
(** What fresh memory holds, and the costs of an insertion, a replacement and a deletion. *)
Context (garbage cost_ins cost_rep cost_del : Z).

(** A size_t times a zend_long, assigned to a zend_long. *)
Definition size_mul_long (n cost : Z) : Z := i64 (u64 (n * cost)).

(** safe_emalloc(n, sizeof(zend_long), 0) *)
Definition emalloc_longs (n : Z) : res (list Z) :=
  if 2 ^ 64 <=? n * 8 then Fatal else Ok (replicate (Z.to_nat n) garbage).

(** The first row; [n] rounds are left. *)
Fixpoint first_row (n : nat) (i2 : Z) (p1 : list Z) : res (list Z) :=
  match n with
  | O => Ok p1
  | S n => p1 ← wr p1 i2 (size_mul_long i2 cost_ins); first_row n (i2 + 1) p1
  end.

(** One entry: the cheapest of a replacement or match, a deletion and an insertion. *)
Definition entry (string1 string2 p1 p2 : list Z) (i1 i2 : Z) : res Z :=
  x ← rd string1 i1; y ← rd string2 i2;
  d ← rd p1 i2; c0 ← add_long d (if x =? y then 0 else cost_rep);
  d ← rd p1 (i2 + 1); c1 ← add_long d cost_del;
  let c0 := if c1 <? c0 then c1 else c0 in
  d ← rd p2 i2; c2 ← add_long d cost_ins;
  Ok (if c2 <? c0 then c2 else c0).

(** The loop over the second string. *)
Fixpoint next_row (n : nat) (string1 string2 p1 : list Z) (i1 i2 : Z) (p2 : list Z) : res (list Z) :=
  match n with
  | O => Ok p2
  | S n =>
      c0 ← entry string1 string2 p1 p2 i1 i2;
      p2 ← wr p2 (i2 + 1) c0;
      next_row n string1 string2 p1 i1 (i2 + 1) p2
  end.

(** The loop over the first string; the rows change places after each round. *)
Fixpoint lev_rows (n : nat) (string1 string2 : list Z) (i1 : Z) (p1 p2 : list Z) : res (list Z * list Z) :=
  match n with
  | O => Ok (p1, p2)
  | S n =>
      d ← rd p1 0; d ← add_long d cost_del; p2 ← wr p2 0 d;
      p2 ← next_row (length string2) string1 string2 p1 i1 0 p2;
      lev_rows n string1 string2 (i1 + 1) p2 p1
  end.

Definition reference_levdist (string1 string2 : list Z) : res Z :=
  if zlen string1 =? 0 then Ok (size_mul_long (zlen string2) cost_ins)
  else if zlen string2 =? 0 then Ok (size_mul_long (zlen string1) cost_del)
  else
    p1 ← emalloc_longs (zlen string2 + 1);
    p2 ← emalloc_longs (zlen string2 + 1);
    p1 ← first_row (S (length string2)) 0 p1;
    '(p1, _) ← lev_rows (length string1) string1 string2 0 p1 p2;
    rd p1 (zlen string2).
End Costs.

(** ** Scripts of edits *)

(** One step through both strings. *)
Inductive edit : Type :=
| Ins (y : Z)
| Del (x : Z)
| Rep (x y : Z)
| Keep (x : Z).

Definition source (e : edit) : list Z := match e with Ins _ => [] | Del x | Rep x _ | Keep x => [x] end.
Definition target (e : edit) : list Z := match e with Ins y | Rep _ y => [y] | Del _ => [] | Keep x => [x] end.
(** A replacement replaces a character by another. *)
Definition proper (e : edit) : Prop := match e with Rep x y => x <> y | _ => True end.

(** [turns a b es]: the script [es] turns [a] into [b]. *)
Definition turns (a b : list Z) (es : list edit) : Prop :=
  concat (source <$> es) = a /\ concat (target <$> es) = b /\ Forall proper es.

Section Spec.
Context (cost_ins cost_rep cost_del : Z).

Definition edit_cost (e : edit) : Z :=
  match e with Ins _ => cost_ins | Del _ => cost_del | Rep _ _ => cost_rep | Keep _ => 0 end.
Definition cost (es : list edit) : Z := foldr (fun e s => edit_cost e + s) 0 es.

(** The least cost of a script. *)
Definition distance (a b : list Z) (d : Z) : Prop :=
  (exists es, turns a b es /\ cost es = d) /\ (forall es, turns a b es -> d <= cost es).

Lemma cost_snoc es e : cost (es ++ [e]) = cost es + edit_cost e.
Proof. unfold cost. induction es as [|e' es IH]; cbn in *; lia. Qed.

Lemma turns_snoc a b es e : turns a b es -> proper e -> turns (a ++ source e) (b ++ target e) (es ++ [e]).
Proof.
  intros (<- & <- & Hp) He. unfold turns. rewrite !fmap_app, !concat_app, Forall_app, Forall_singleton. cbn.
  by rewrite !app_nil_r.
Qed.

Lemma turns_snoc_inv a b es e : turns a b (es ++ [e]) ->
  exists a' b', a = a' ++ source e /\ b = b' ++ target e /\ turns a' b' es /\ proper e.
Proof.
  intros (<- & <- & Hp). rewrite Forall_app, Forall_singleton in Hp. rewrite !fmap_app, !concat_app. cbn.
  destruct Hp. rewrite !app_nil_r. exists (concat (source <$> es)), (concat (target <$> es)). by split_and!.
Qed.

Lemma distance_ins a b y d : distance a b d -> (forall es x, turns a (b ++ [y]) (es ++ [x]) -> x = Ins y) ->
  distance a (b ++ [y]) (d + cost_ins).
Proof.
  intros [(es & Ht & <-) Hm] Hi. split.
  - exists (es ++ [Ins y]). split; [|by rewrite cost_snoc].
    rewrite <- (app_nil_r a). by apply (turns_snoc _ _ _ (Ins y)).
  - intros es' Ht'. destruct es' as [|x es' _] using rev_ind.
    { destruct Ht' as (_ & H & _). cbn in H. by destruct b. }
    pose proof (Hi _ _ Ht') as ->. apply turns_snoc_inv in Ht' as (a' & b' & -> & H & Ht' & _).
    cbn in *. apply app_inj_tail in H as [-> _]. rewrite app_nil_r in *. specialize (Hm _ Ht'). rewrite cost_snoc. cbn. lia.
Qed.

Lemma distance_del a b x d : distance a b d -> (forall es e, turns (a ++ [x]) b (es ++ [e]) -> e = Del x) ->
  distance (a ++ [x]) b (d + cost_del).
Proof.
  intros [(es & Ht & <-) Hm] Hi. split.
  - exists (es ++ [Del x]). split; [|by rewrite cost_snoc].
    rewrite <- (app_nil_r b). by apply (turns_snoc _ _ _ (Del x)).
  - intros es' Ht'. destruct es' as [|e es' _] using rev_ind.
    { destruct Ht' as (H & _ & _). cbn in H. by destruct a. }
    pose proof (Hi _ _ Ht') as ->. apply turns_snoc_inv in Ht' as (a' & b' & H & -> & Ht' & _).
    cbn in *. apply app_inj_tail in H as [-> _]. rewrite app_nil_r in *. specialize (Hm _ Ht'). rewrite cost_snoc. cbn. lia.
Qed.

Lemma distance_nil : distance [] [] 0.
Proof.
  split; [by exists []|]. intros [|e es] (H1 & H2 & _); [done|]. by destruct e.
Qed.

(** Only insertions lead from the empty string, only deletions to it. *)
Lemma distance_nil_l b : distance [] b (zlen b * cost_ins).
Proof.
  induction b as [|y b IH] using rev_ind; [apply distance_nil|].
  rewrite zlen_app. change (zlen [y]) with 1. replace ((zlen b + 1) * cost_ins) with (zlen b * cost_ins + cost_ins) by lia.
  apply distance_ins; [done|]. intros es x (a' & b' & H1 & H2 & _)%turns_snoc_inv.
  destruct x; cbn in *; try by destruct a'. by apply app_inj_tail in H2 as [_ ->].
Qed.

Lemma distance_nil_r a : distance a [] (zlen a * cost_del).
Proof.
  induction a as [|x a IH] using rev_ind; [apply distance_nil|].
  rewrite zlen_app. change (zlen [x]) with 1. replace ((zlen a + 1) * cost_del) with (zlen a * cost_del + cost_del) by lia.
  apply distance_del; [done|]. intros es e (a' & b' & H1 & H2 & _)%turns_snoc_inv.
  destruct e; cbn in *; try by destruct b'. by apply app_inj_tail in H1 as [_ ->].
Qed.

(** The last edit of a script decides between the three neighbours. *)
Lemma distance_step a b x y d0 d1 d2 :
  distance a b d0 -> distance a (b ++ [y]) d1 -> distance (a ++ [x]) b d2 ->
  distance (a ++ [x]) (b ++ [y])
    (Z.min (d2 + cost_ins) (Z.min (d1 + cost_del) (d0 + (if x =? y then 0 else cost_rep)))).
Proof.
  intros [(e0 & H0 & C0) M0] [(e1 & H1 & C1) M1] [(e2 & H2 & C2) M2]. split.
  - assert (forall es e d, turns (a ++ [x]) (b ++ [y]) (es ++ [e]) -> cost es = d ->
      exists es', turns (a ++ [x]) (b ++ [y]) es' /\ cost es' = d + edit_cost e) as Hex
      by (intros es e d H <-; exists (es ++ [e]); by rewrite cost_snoc).
    destruct (Z.min_spec (d2 + cost_ins) (Z.min (d1 + cost_del) (d0 + (if x =? y then 0 else cost_rep)))) as [[_ ->]|[_ ->]].
    { apply (Hex e2 (Ins y)); [|done]. rewrite <- (app_nil_r (a ++ [x])). by apply turns_snoc. }
    destruct (Z.min_spec (d1 + cost_del) (d0 + (if x =? y then 0 else cost_rep))) as [[_ ->]|[_ ->]].
    { apply (Hex e1 (Del x)); [|done]. rewrite <- (app_nil_r (b ++ [y])). by apply turns_snoc. }
    destruct (Z.eqb_spec x y) as [->|Hxy]; [apply (Hex e0 (Keep y))|apply (Hex e0 (Rep x y))]; try done; by apply turns_snoc.
  - intros es Ht. destruct es as [|e es _] using rev_ind.
    { destruct Ht as (H & _). cbn in H. by destruct a. }
    rewrite cost_snoc. apply turns_snoc_inv in Ht as (a' & b' & Ha & Hb & Ht & He).
    destruct e as [y'|x'|x' y'|x']; cbn in *; rewrite ?app_nil_r in *; try apply app_inj_tail in Ha as [<- <-];
      try apply app_inj_tail in Hb as [<- <-]; subst.
    + specialize (M2 _ Ht). lia.
    + specialize (M1 _ Ht). lia.
    + specialize (M0 _ Ht). rewrite (proj2 (Z.eqb_neq _ _)) by done. lia.
    + specialize (M0 _ Ht). rewrite Z.eqb_refl. lia.
Qed.

(** No distance exceeds the number of characters times the greatest cost. *)
Lemma cost_bound M es : Z.abs cost_ins <= M -> Z.abs cost_rep <= M -> Z.abs cost_del <= M ->
  Z.abs (cost es) <= M * (zlen (concat (source <$> es)) + zlen (concat (target <$> es))).
Proof.
  intros H1 H2 H3. induction es as [|e es IH]; [unfold zlen; cbn; lia|]. cbn [fmap list_fmap concat].
  rewrite !zlen_app. change (cost (e :: es)) with (edit_cost e + cost es).
  assert (Z.abs (edit_cost e) <= M * (zlen (source e) + zlen (target e))); [|lia].
  destruct e; cbn [edit_cost source target]; unfold zlen; cbn [length]; lia.
Qed.

Lemma distance_bound M a b d : Z.abs cost_ins <= M -> Z.abs cost_rep <= M -> Z.abs cost_del <= M ->
  distance a b d -> Z.abs d <= M * (zlen a + zlen b).
Proof. intros H1 H2 H3 [(es & (<- & <- & _) & <-) _]. by apply cost_bound. Qed.
End Spec.

(** ** The rows hold distances *)

Lemma sint_exact x : Z.abs x <= ZEND_LONG_MAX -> i64 (u64 x) = x.
Proof.
  unfold ZEND_LONG_MAX, i64, u64, sint. intros H. rewrite Zmod_mod. change (64 - 1) with 63.
  destruct (Z.ltb_spec (x mod 2 ^ 64) (2 ^ 63)); Z.div_mod_to_equations; lia.
Qed.

Lemma add_long_ok a b : Z.abs (a + b) <= ZEND_LONG_MAX -> add_long a b = Ok (a + b).
Proof.
  unfold add_long, ZEND_LONG_MAX, ZEND_LONG_MIN. intros H.
  rewrite (proj2 (Z.leb_le _ _)), (proj2 (Z.leb_le _ _)) by lia. done.
Qed.

Lemma min_if a b : (if a <? b then a else b) = Z.min a b.
Proof. destruct (Z.ltb_spec a b); lia. Qed.

Section Rows.
Context (garbage cost_ins cost_rep cost_del M : Z) (string1 string2 : list Z).
Hypotheses (Hins : Z.abs cost_ins <= M) (Hrep : Z.abs cost_rep <= M) (Hdel : Z.abs cost_del <= M).
Hypothesis Hfit : M * (zlen string1 + zlen string2) <= ZEND_LONG_MAX.
Local Notation dist := (distance cost_ins cost_rep cost_del).

(** The first [k] entries of a row belong to the prefix of length [i] of the first string. *)
Definition row (i k : Z) (p : list Z) : Prop :=
  forall j, 0 <= j < k -> exists d, zget p j = Some d /\ dist (pre i string1) (pre j string2) d.

Lemma row_snoc i k p d : 0 <= k < zlen p -> row i k p -> dist (pre i string1) (pre k string2) d ->
  row i (k + 1) (zset p k d).
Proof.
  intros Hk Hr Hd j Hj. destruct (Z.eq_dec j k) as [->|].
  - exists d. by rewrite zget_zset_eq.
  - rewrite zget_zset_ne by lia. apply Hr. lia.
Qed.

(** A distance of two prefixes, and that of prefixes one longer, fit. *)
Lemma dist_fits i j d c : 0 <= i -> 0 <= j -> i <= zlen string1 -> j <= zlen string2 -> i + j < zlen string1 + zlen string2 ->
  dist (pre i string1) (pre j string2) d -> Z.abs c <= M -> Z.abs (d + c) <= ZEND_LONG_MAX.
Proof.
  intros Hi Hj Hi' Hj' Hs Hd Hc. pose proof (distance_bound _ _ _ M _ _ _ Hins Hrep Hdel Hd) as Hb.
  rewrite !zlen_pre in Hb by lia. nia.
Qed.

Lemma entry_ok i j p1 p2 : 0 <= i < zlen string1 -> 0 <= j < zlen string2 ->
  row i (zlen string2 + 1) p1 -> row (i + 1) (j + 1) p2 ->
  exists d, entry cost_ins cost_rep cost_del string1 string2 p1 p2 i j = Ok d
    /\ dist (pre (i + 1) string1) (pre (j + 1) string2) d.
Proof.
  intros Hi Hj H1 H2. unfold entry.
  destruct (zget_is_Some string1 i) as [x Hx]; [lia|]. destruct (zget_is_Some string2 j) as [y Hy]; [lia|].
  destruct (H1 j) as (d0 & E0 & D0); [lia|]. destruct (H1 (j + 1)) as (d1 & E1 & D1); [lia|].
  destruct (H2 j) as (d2 & E2 & D2); [lia|].
  rewrite (rd_ok _ _ _ Hx), bind_ok, (rd_ok _ _ _ Hy), bind_ok.
  pose proof (Z.abs_nonneg cost_rep).
  assert (Z.abs (if x =? y then 0 else cost_rep) <= M) by (destruct (x =? y); lia).
  rewrite (rd_ok _ _ _ E0), bind_ok, add_long_ok, bind_ok by (eapply (dist_fits i j); eauto; lia).
  rewrite (rd_ok _ _ _ E1), bind_ok, add_long_ok, bind_ok by (eapply (dist_fits i (j + 1)); eauto; lia).
  rewrite (rd_ok _ _ _ E2), bind_ok, add_long_ok, bind_ok, !min_if by (eapply (dist_fits (i + 1) j); eauto; lia).
  eexists. split; [done|]. rewrite (pre_succ _ _ x), (pre_succ _ _ y) in * by done || lia. by apply distance_step.
Qed.

Lemma next_row_ok n i j p1 p2 : 0 <= i < zlen string1 -> 0 <= j -> Z.of_nat n = zlen string2 - j ->
  row i (zlen string2 + 1) p1 -> row (i + 1) (j + 1) p2 -> zlen p2 = zlen string2 + 1 ->
  exists p2', next_row cost_ins cost_rep cost_del n string1 string2 p1 i j p2 = Ok p2'
    /\ row (i + 1) (zlen string2 + 1) p2' /\ zlen p2' = zlen string2 + 1.
Proof.
  intros Hi. revert j p2. induction n as [|n IH]; intros j p2 Hj Hn H1 H2 Hl; cbn [next_row].
  { exists p2. replace (zlen string2) with j by lia. split_and!; [done|done|lia]. }
  destruct (entry_ok i j p1 p2) as (d & -> & Hd); [lia..|done|done|]. rewrite bind_ok, wr_ok, bind_ok by lia.
  apply IH; [lia..|done| |by rewrite zlen_zset]. apply row_snoc; [lia|done|done].
Qed.

Lemma lev_rows_ok n i p1 p2 : 0 <= i -> Z.of_nat n = zlen string1 - i -> 0 < zlen string2 ->
  row i (zlen string2 + 1) p1 -> zlen p1 = zlen string2 + 1 -> zlen p2 = zlen string2 + 1 ->
  exists p1' p2', lev_rows cost_ins cost_rep cost_del n string1 string2 i p1 p2 = Ok (p1', p2')
    /\ row (zlen string1) (zlen string2 + 1) p1'.
Proof.
  revert i p1 p2. induction n as [|n IH]; intros i p1 p2 Hi Hn H2 Hr L1 L2; cbn [lev_rows].
  { exists p1, p2. by replace (zlen string1) with i by lia. }
  destruct (Hr 0) as (d & E & D); [lia|]. destruct (zget_is_Some string1 i) as [x Hx]; [lia|].
  rewrite (rd_ok _ _ _ E), bind_ok, add_long_ok, bind_ok by (eapply (dist_fits i 0); eauto; lia).
  rewrite wr_ok, bind_ok by lia.
  destruct (next_row_ok (length string2) i 0 p1 (zset p2 0 (d + cost_del))) as (p2' & -> & Hr' & L2');
    [lia..|unfold zlen; lia|done| |by rewrite zlen_zset|].
  { apply (row_snoc _ 0); [lia|intros ? ?; lia|]. rewrite (pre_succ _ _ x) by done || lia. unfold pre in *. cbn in *.
    rewrite take_0 in *. apply distance_del; [done|]. intros es e (a' & b' & H1 & H3 & _)%turns_snoc_inv.
    destruct e; cbn in *; try by destruct b'. by apply app_inj_tail in H1 as [_ ->]. }
  rewrite bind_ok. apply IH; [lia..|done|done|done].
Qed.

Lemma first_row_ok n j p : 0 <= j -> Z.of_nat n = zlen string2 + 1 - j -> row 0 j p -> zlen p = zlen string2 + 1 ->
  exists p', first_row cost_ins n j p = Ok p' /\ row 0 (zlen string2 + 1) p' /\ zlen p' = zlen string2 + 1.
Proof.
  revert j p. induction n as [|n IH]; intros j p Hj Hn Hr Hl; cbn [first_row].
  { exists p. assert (j = zlen string2 + 1) as -> by lia. done. }
  rewrite wr_ok, bind_ok by lia. apply IH; [lia..| |by rewrite zlen_zset]. apply row_snoc; [lia|done|].
  unfold size_mul_long. rewrite sint_exact by (pose proof (zlen_nonneg string1); nia).
  pose proof (distance_nil_l cost_ins cost_rep cost_del (pre j string2)) as H.
  rewrite zlen_pre in H by lia. exact H.
Qed.
End Rows.

(** C38: The number returned is the least cost of any script of insertions, deletions and
    replacements that turns the first string into the second, for any costs, negative
    ones too, as long as the strings are not so long that a sum of costs does not fit a
    zend_long. Every access is inside the rows. *)
Theorem reference_levdist_correct garbage cost_ins cost_rep cost_del M string1 string2
  (Hins : Z.abs cost_ins <= M) (Hrep : Z.abs cost_rep <= M) (Hdel : Z.abs cost_del <= M)
  (Hfit : M * (zlen string1 + zlen string2) <= ZEND_LONG_MAX) (Hlen : zlen string2 < 2 ^ 60) :
  exists d, reference_levdist garbage cost_ins cost_rep cost_del string1 string2 = Ok d
    /\ distance cost_ins cost_rep cost_del string1 string2 d.
Proof.
  unfold reference_levdist, size_mul_long. pose proof (zlen_nonneg string1). pose proof (zlen_nonneg string2).
  destruct (Z.eqb_spec (zlen string1) 0) as [E|].
  { rewrite sint_exact by nia. destruct string1; [|by unfold zlen in E]. eexists. split; [done|]. apply distance_nil_l. }
  destruct (Z.eqb_spec (zlen string2) 0) as [E|].
  { rewrite sint_exact by nia. destruct string2; [|by unfold zlen in E]. eexists. split; [done|]. apply distance_nil_r. }
  unfold emalloc_longs. rewrite (proj2 (Z.leb_gt _ _)) by lia. rewrite !bind_ok.
  assert (zlen (replicate (Z.to_nat (zlen string2 + 1)) garbage) = zlen string2 + 1) as Hl by (rewrite zlen_replicate; lia).
  destruct (first_row_ok cost_ins cost_rep cost_del M string1 string2 Hins Hrep Hdel Hfit (S (length string2)) 0
    (replicate (Z.to_nat (zlen string2 + 1)) garbage)) as (p1 & -> & Hr & L1); [lia|unfold zlen; lia|intros ? ?; lia|done|].
  rewrite bind_ok.
  destruct (lev_rows_ok cost_ins cost_rep cost_del M string1 string2 Hins Hrep Hdel Hfit (length string1) 0 p1
    (replicate (Z.to_nat (zlen string2 + 1)) garbage)) as (p1' & p2' & -> & Hr'); [lia|unfold zlen; lia|lia|done|done|done|].
  rewrite bind_ok. destruct (Hr' (zlen string2)) as (d & E & D); [lia|]. exists d. rewrite (rd_ok _ _ _ E). split; [done|].
  unfold pre, zlen in D. by rewrite !Nat2Z.id, !firstn_all in D.
Qed.

(** "kitten" and "sitting" *)
Definition kitten : list Z := [107; 105; 116; 116; 101; 110].
Definition sitting : list Z := [115; 105; 116; 116; 105; 110; 103].

Theorem reference_levdist_correct_witness :
  reference_levdist 0 1 1 1 kitten sitting = Ok 3 /\ distance 1 1 1 kitten sitting 3.
Proof.
  split; [by vm_compute|].
  destruct (reference_levdist_correct 0 1 1 1 1 kitten sitting) as (d & E & D); [by vm_compute..|].
  assert (Ok d = Ok 3) as [= ->]; [rewrite <- E; by vm_compute|exact D].
Defined.
