(* ===== verification/Crc32.v ===== *)
(** * CRC-32 (ext/standard/crc32.c, crc32.h)

    The loop over the bytes with its table, against the register that divides by the
    polynomial bit by bit, and what the checksum detects. *)

From S2P Require Import Prelude.

(** ** The code *)

Definition crc32tab : list Z :=
  [0x00000000; 0x77073096; 0xee0e612c; 0x990951ba;
   0x076dc419; 0x706af48f; 0xe963a535; 0x9e6495a3;
   0x0edb8832; 0x79dcb8a4; 0xe0d5e91e; 0x97d2d988;
   0x09b64c2b; 0x7eb17cbd; 0xe7b82d07; 0x90bf1d91;
   0x1db71064; 0x6ab020f2; 0xf3b97148; 0x84be41de;
   0x1adad47d; 0x6ddde4eb; 0xf4d4b551; 0x83d385c7;
   0x136c9856; 0x646ba8c0; 0xfd62f97a; 0x8a65c9ec;
   0x14015c4f; 0x63066cd9; 0xfa0f3d63; 0x8d080df5;
   0x3b6e20c8; 0x4c69105e; 0xd56041e4; 0xa2677172;
   0x3c03e4d1; 0x4b04d447; 0xd20d85fd; 0xa50ab56b;
   0x35b5a8fa; 0x42b2986c; 0xdbbbc9d6; 0xacbcf940;
   0x32d86ce3; 0x45df5c75; 0xdcd60dcf; 0xabd13d59;
   0x26d930ac; 0x51de003a; 0xc8d75180; 0xbfd06116;
   0x21b4f4b5; 0x56b3c423; 0xcfba9599; 0xb8bda50f;
   0x2802b89e; 0x5f058808; 0xc60cd9b2; 0xb10be924;
   0x2f6f7c87; 0x58684c11; 0xc1611dab; 0xb6662d3d;
   0x76dc4190; 0x01db7106; 0x98d220bc; 0xefd5102a;
   0x71b18589; 0x06b6b51f; 0x9fbfe4a5; 0xe8b8d433;
   0x7807c9a2; 0x0f00f934; 0x9609a88e; 0xe10e9818;
   0x7f6a0dbb; 0x086d3d2d; 0x91646c97; 0xe6635c01;
   0x6b6b51f4; 0x1c6c6162; 0x856530d8; 0xf262004e;
   0x6c0695ed; 0x1b01a57b; 0x8208f4c1; 0xf50fc457;
   0x65b0d9c6; 0x12b7e950; 0x8bbeb8ea; 0xfcb9887c;
   0x62dd1ddf; 0x15da2d49; 0x8cd37cf3; 0xfbd44c65;
   0x4db26158; 0x3ab551ce; 0xa3bc0074; 0xd4bb30e2;
   0x4adfa541; 0x3dd895d7; 0xa4d1c46d; 0xd3d6f4fb;
   0x4369e96a; 0x346ed9fc; 0xad678846; 0xda60b8d0;
   0x44042d73; 0x33031de5; 0xaa0a4c5f; 0xdd0d7cc9;
   0x5005713c; 0x270241aa; 0xbe0b1010; 0xc90c2086;
   0x5768b525; 0x206f85b3; 0xb966d409; 0xce61e49f;
   0x5edef90e; 0x29d9c998; 0xb0d09822; 0xc7d7a8b4;
   0x59b33d17; 0x2eb40d81; 0xb7bd5c3b; 0xc0ba6cad;
   0xedb88320; 0x9abfb3b6; 0x03b6e20c; 0x74b1d29a;
   0xead54739; 0x9dd277af; 0x04db2615; 0x73dc1683;
   0xe3630b12; 0x94643b84; 0x0d6d6a3e; 0x7a6a5aa8;
   0xe40ecf0b; 0x9309ff9d; 0x0a00ae27; 0x7d079eb1;
   0xf00f9344; 0x8708a3d2; 0x1e01f268; 0x6906c2fe;
   0xf762575d; 0x806567cb; 0x196c3671; 0x6e6b06e7;
   0xfed41b76; 0x89d32be0; 0x10da7a5a; 0x67dd4acc;
   0xf9b9df6f; 0x8ebeeff9; 0x17b7be43; 0x60b08ed5;
   0xd6d6a3e8; 0xa1d1937e; 0x38d8c2c4; 0x4fdff252;
   0xd1bb67f1; 0xa6bc5767; 0x3fb506dd; 0x48b2364b;
   0xd80d2bda; 0xaf0a1b4c; 0x36034af6; 0x41047a60;
   0xdf60efc3; 0xa867df55; 0x316e8eef; 0x4669be79;
   0xcb61b38c; 0xbc66831a; 0x256fd2a0; 0x5268e236;
   0xcc0c7795; 0xbb0b4703; 0x220216b9; 0x5505262f;
   0xc5ba3bbe; 0xb2bd0b28; 0x2bb45a92; 0x5cb36a04;
   0xc2d7ffa7; 0xb5d0cf31; 0x2cd99e8b; 0x5bdeae1d;
   0x9b64c2b0; 0xec63f226; 0x756aa39c; 0x026d930a;
   0x9c0906a9; 0xeb0e363f; 0x72076785; 0x05005713;
   0x95bf4a82; 0xe2b87a14; 0x7bb12bae; 0x0cb61b38;
   0x92d28e9b; 0xe5d5be0d; 0x7cdcefb7; 0x0bdbdf21;
   0x86d3d2d4; 0xf1d4e242; 0x68ddb3f8; 0x1fda836e;
   0x81be16cd; 0xf6b9265b; 0x6fb077e1; 0x18b74777;
   0x88085ae6; 0xff0f6a70; 0x66063bca; 0x11010b5c;
   0x8f659eff; 0xf862ae69; 0x616bffd3; 0x166ccf45;
   0xa00ae278; 0xd70dd2ee; 0x4e048354; 0x3903b3c2;
   0xa7672661; 0xd06016f7; 0x4969474d; 0x3e6e77db;
   0xaed16a4a; 0xd9d65adc; 0x40df0b66; 0x37d83bf0;
   0xa9bcae53; 0xdebb9ec5; 0x47b2cf7f; 0x30b5ffe9;
   0xbdbdf21c; 0xcabac28a; 0x53b39330; 0x24b4a3a6;
   0xbad03605; 0xcdd70693; 0x54de5729; 0x23d967bf;
   0xb3667a2e; 0xc4614ab8; 0x5d681b02; 0x2a6f2b94;
   0xb40bbe37; 0xc30c8ea1; 0x5a05df1b; 0x2d02ef8d].

Definition php_crc32_bulk_init : Z := Z.lxor 0 0xffffffff.
Definition php_crc32_bulk_end (c : Z) : Z := Z.lxor c 0xffffffff.

(** A char is read as a byte: of a negative one only the low bits matter. *)
Fixpoint php_crc32_bulk_update (crc : Z) (p : list Z) : res Z :=
  match p with
  | [] => Ok crc
  | c :: p =>
      t ← rd crc32tab (Z.land (Z.lxor crc c) 0xFF);
      php_crc32_bulk_update (Z.lxor (Z.land (Z.shiftr crc 8) 0x00FFFFFF) t) p
  end.

(** The PHP function on a string. *)
Definition crc32 (p : list Z) : res Z :=
  crc ← php_crc32_bulk_update php_crc32_bulk_init p; Ok (php_crc32_bulk_end crc).

(** "123456789" has the check value published for this CRC. *)
Example crc32_check : crc32 [49; 50; 51; 52; 53; 54; 55; 56; 57] = Ok 0xcbf43926.
Proof. vm_compute. reflexivity. Qed.

(** ** The register *)

(** x^32 + x^26 + x^23 + x^22 + x^16 + x^12 + x^11 + x^10 + x^8 + x^7 + x^5 + x^4 + x^2 + x + 1,
    the coefficient of x^31 in bit 0. *)
Definition polynomial : Z :=
  foldr (fun k p => Z.lor (Z.shiftl 1 (31 - k)) p) 0 [26; 23; 22; 16; 12; 11; 10; 8; 7; 5; 4; 2; 1; 0].

(** Multiplication by x, modulo the polynomial. *)
Definition times_x (c : Z) : Z := Z.lxor (Z.shiftr c 1) (if Z.testbit c 0 then polynomial else 0).

Fixpoint steps (n : nat) (c : Z) : Z := match n with O => c | S n => times_x (steps n c) end.

(** A byte enters at the low end, bit 0 first. *)
Definition crc_byte (crc c : Z) : Z := steps 8 (Z.lxor crc c).

Definition crc_spec (p : list Z) : Z := Z.lxor (foldl crc_byte 0xffffffff p) 0xffffffff.

(** ** The table is right *)

Lemma times_x_lxor a b : times_x (Z.lxor a b) = Z.lxor (times_x a) (times_x b).
Proof.
  unfold times_x. rewrite Z.lxor_spec, Z.shiftr_lxor. destruct (Z.testbit a 0), (Z.testbit b 0); cbn [xorb];
    rewrite ?Z.lxor_0_r; rewrite ?Z.lxor_assoc; f_equal; try done.
  - rewrite (Z.lxor_comm polynomial), Z.lxor_assoc, Z.lxor_nilpotent. by rewrite Z.lxor_0_r.
  - by rewrite Z.lxor_comm.
Qed.

Lemma steps_lxor n a b : steps n (Z.lxor a b) = Z.lxor (steps n a) (steps n b).
Proof. induction n as [|n IH]; [done|]. cbn [steps]. by rewrite IH, times_x_lxor. Qed.

Lemma steps_S n c : steps (S n) c = steps n (times_x c).
Proof. induction n as [|n IH]; [done|]. cbn [steps] in *. by rewrite IH. Qed.

Lemma steps_add n m c : steps (n + m) c = steps n (steps m c).
Proof. induction n as [|n IH]; [done|]. cbn. by rewrite IH. Qed.

(** What is above the low [n] bits moves down unchanged. *)
Lemma steps_shiftl n a : steps n (Z.shiftl a (Z.of_nat n)) = a.
Proof.
  revert a. induction n as [|n IH]; intros a; [apply Z.shiftl_0_r|]. rewrite steps_S.
  assert (times_x (Z.shiftl a (Z.of_nat (S n))) = Z.shiftl a (Z.of_nat n)) as ->; [|apply IH].
  unfold times_x. rewrite Z.shiftl_spec, Z.testbit_neg_r by lia. rewrite Z.lxor_0_r, Z.shiftr_shiftl_l by lia. f_equal. lia.
Qed.

Lemma low_high c : c = Z.lxor (Z.land c 0xFF) (Z.shiftl (Z.shiftr c 8) 8).
Proof.
  apply Z.bits_inj'. intros n Hn. rewrite Z.lxor_spec, Z.land_spec, Z.shiftl_spec by lia. change 0xFF with (Z.ones 8).
  rewrite Z.testbit_ones_nonneg by lia. destruct (Z.ltb_spec n 8).
  - rewrite (Z.testbit_neg_r _ (n - 8)) by lia. by rewrite andb_true_r, xorb_false_r.
  - rewrite Z.shiftr_spec by lia. rewrite andb_false_r. cbn. f_equal. lia.
Qed.

Lemma crc32tab_ok i : 0 <= i < 256 -> rd crc32tab i = Ok (steps 8 i).
Proof.
  intros Hi. assert (forallb (fun i => match rd crc32tab i with Ok t => t =? steps 8 i | _ => false end) (seqZ 0 256) = true)
    as H by (vm_compute; reflexivity).
  rewrite forallb_forall in H. specialize (H i). rewrite <- list_elem_of_In, elem_of_seqZ in H. specialize (H ltac:(lia)).
  destruct (rd crc32tab i); [|done|done]. f_equal. lia.
Qed.

Definition is_word (c : Z) : Prop := 0 <= c < 2 ^ 32.

Lemma bits_word k c : 0 <= k -> 0 <= c < 2 ^ k <-> 0 <= c /\ forall n, k <= n -> Z.testbit c n = false.
Proof.
  intros Hk. split; intros [H0 H]; (split; [done|]); by apply (Z.bounded_iff_bits_nonneg k c).
Qed.

Lemma lxor_below k a b : 0 <= k -> 0 <= a < 2 ^ k -> 0 <= b < 2 ^ k -> 0 <= Z.lxor a b < 2 ^ k.
Proof.
  intros Hk. rewrite !bits_word by done. intros [Ha Ha'] [Hb Hb']. split; [apply Z.lxor_nonneg; lia|].
  intros n Hn. by rewrite Z.lxor_spec, Ha', Hb'.
Qed.

Lemma times_x_word c : is_word c -> is_word (times_x c).
Proof.
  unfold is_word, times_x. intros Hc. apply (lxor_below 32); [lia| |destruct (Z.testbit c 0); by vm_compute].
  rewrite Z.shiftr_div_pow2 by lia. change (2 ^ 1) with 2. Z.div_mod_to_equations. lia.
Qed.

Lemma steps_word n c : is_word c -> is_word (steps n c).
Proof. intros Hc. induction n; [done|]. by apply times_x_word. Qed.

(** One round of the loop is a byte of the register. *)
Lemma table_byte crc c : is_word crc -> is_byte c ->
  rd crc32tab (Z.land (Z.lxor crc c) 0xFF) = Ok (steps 8 (Z.land (Z.lxor crc c) 0xFF))
  /\ Z.lxor (Z.land (Z.shiftr crc 8) 0x00FFFFFF) (steps 8 (Z.land (Z.lxor crc c) 0xFF)) = crc_byte crc c.
Proof.
  intros Hcrc Hc. split.
  - apply crc32tab_ok. change 0xFF with (Z.ones 8). rewrite Z.land_ones by lia. by apply Z.mod_pos_bound.
  - unfold crc_byte. rewrite (low_high (Z.lxor crc c)) at 2. rewrite steps_lxor.
    change (Z.shiftl (Z.shiftr (Z.lxor crc c) 8) 8) with (Z.shiftl (Z.shiftr (Z.lxor crc c) 8) (Z.of_nat 8)).
    rewrite steps_shiftl, Z.shiftr_lxor, Z.lxor_comm. f_equal. change 0x00FFFFFF with (Z.ones 24).
    unfold is_word, is_byte in *. rewrite Z.land_ones, !Z.shiftr_div_pow2 by lia.
    rewrite (Z.div_small c) by (change (2 ^ 8) with 256; lia). rewrite Z.lxor_0_r. apply Z.mod_small.
    change (2 ^ 8) with 256. Z.div_mod_to_equations. lia.
Qed.

Lemma byte_word c : is_byte c -> is_word c.
Proof. unfold is_byte, is_word. lia. Qed.

Lemma crc_byte_word crc c : is_word crc -> is_byte c -> is_word (crc_byte crc c).
Proof. intros H Hc. apply steps_word, (lxor_below 32); [lia|done|by apply byte_word]. Qed.

Lemma bulk_update_ok p : Forall is_byte p -> forall crc, is_word crc ->
  php_crc32_bulk_update crc p = Ok (foldl crc_byte crc p) /\ is_word (foldl crc_byte crc p).
Proof.
  induction 1 as [|c p Hc Hp IH]; intros crc Hcrc; cbn [php_crc32_bulk_update foldl]; [done|].
  destruct (table_byte crc c Hcrc Hc) as [-> E]. rewrite bind_ok, E. by apply IH, crc_byte_word.
Qed.

(** ** What the checksum detects *)

(** The steps lose nothing: the top bit tells which polynomial was subtracted. *)
Lemma times_x_inj a b : is_word a -> is_word b -> times_x a = times_x b -> a = b.
Proof.
  intros Ha Hb E. assert (Z.testbit a 0 = Z.testbit b 0) as E0.
  { assert (forall c, is_word c -> Z.testbit (times_x c) 31 = Z.testbit c 0) as H.
    { intros c Hc. unfold times_x. rewrite Z.lxor_spec, Z.shiftr_spec by lia.
      apply (bits_word 32 c) in Hc as [_ Hc]; [|lia]. rewrite Hc by lia. by destruct (Z.testbit c 0). }
    by rewrite <- (H a), <- (H b), E. }
  unfold times_x in E. rewrite E0 in E.
  assert (Z.shiftr a 1 = Z.shiftr b 1) as E1.
  { apply (f_equal (fun z => Z.lxor z (if Z.testbit b 0 then polynomial else 0))) in E.
    by rewrite !Z.lxor_assoc, Z.lxor_nilpotent, !Z.lxor_0_r in E. }
  apply Z.bits_inj'. intros n Hn. destruct (Z.eq_dec n 0) as [->|]; [done|].
  apply (f_equal (fun z => Z.testbit z (n - 1))) in E1. rewrite !Z.shiftr_spec in E1 by lia.
  by replace (n - 1 + 1) with n in E1 by lia.
Qed.

Lemma steps_inj n a b : is_word a -> is_word b -> steps n a = steps n b -> a = b.
Proof.
  intros Ha Hb. induction n as [|n IH]; [done|]. cbn [steps]. intros E%times_x_inj; auto using steps_word.
Qed.

(** Some bytes as one number, the first one lowest. *)
Fixpoint le_number (d : list Z) : Z :=
  match d with [] => 0 | c :: d => Z.lxor c (Z.shiftl (le_number d) 8) end.

Lemma feed_number d : forall crc, foldl crc_byte crc d = steps (8 * length d) (Z.lxor crc (le_number d)).
Proof.
  induction d as [|c d IH]; intros crc; cbn [foldl le_number]; [by rewrite Z.lxor_0_r|].
  rewrite IH. unfold crc_byte. replace (8 * length (c :: d))%nat with (8 * length d + 8)%nat by (cbn; lia).
  rewrite steps_add, <- Z.lxor_assoc. change (Z.shiftl (le_number d) 8) with (Z.shiftl (le_number d) (Z.of_nat 8)).
  by rewrite (steps_lxor 8 (Z.lxor crc c)), (steps_shiftl 8).
Qed.

Lemma shift_byte c x : is_byte c ->
  Z.land (Z.lxor c (Z.shiftl x 8)) 0xFF = c /\ Z.shiftr (Z.lxor c (Z.shiftl x 8)) 8 = x.
Proof.
  intros Hc. rewrite Z.shiftr_lxor, Z.shiftr_shiftl_l, Z.shiftl_0_r by lia. split.
  - apply Z.bits_inj'. intros n Hn. change 0xFF with (Z.ones 8).
    rewrite Z.land_spec, Z.lxor_spec, Z.shiftl_spec, Z.testbit_ones_nonneg by lia.
    destruct (Z.ltb_spec n 8); [by rewrite (Z.testbit_neg_r x), xorb_false_r, andb_true_r by lia|].
    rewrite andb_false_r. apply (bits_word 8 c) in Hc as [_ Hc]; [|lia]. by rewrite Hc.
  - unfold is_byte in Hc. rewrite Z.shiftr_div_pow2, Z.div_small by (change (2 ^ 8) with 256; lia). apply Z.lxor_0_l.
Qed.

Lemma le_number_inj d : forall d', Forall is_byte d -> Forall is_byte d' -> length d = length d' ->
  le_number d = le_number d' -> d = d'.
Proof.
  induction d as [|c d IH]; intros [|c' d'] Hd Hd' Hl E; try done. cbn [le_number] in E.
  rewrite Forall_cons in Hd, Hd'. destruct Hd as [Hc Hd], Hd' as [Hc' Hd'].
  destruct (shift_byte c (le_number d) Hc) as [L1 R1], (shift_byte c' (le_number d') Hc') as [L2 R2].
  rewrite E in L1, R1. f_equal; [congruence|]. apply IH; [done..|cbn in Hl; lia|congruence].
Qed.

Lemma le_number_bound d : Forall is_byte d -> 0 <= le_number d < 2 ^ (8 * zlen d).
Proof.
  induction 1 as [|c d Hc Hd IH]; [done|]. cbn [le_number]. rewrite zlen_cons. pose proof (zlen_nonneg d).
  apply lxor_below; [lia| |].
  - unfold is_byte in Hc. assert (2 ^ 8 <= 2 ^ (8 * (zlen d + 1))) by (apply Z.pow_le_mono_r; lia). lia.
  - rewrite Z.shiftl_mul_pow2 by lia. replace (8 * (zlen d + 1)) with (8 * zlen d + 8) by lia.
    rewrite Z.pow_add_r by lia. nia.
Qed.

Lemma fold_inj p : Forall is_byte p -> forall a b, is_word a -> is_word b -> foldl crc_byte a p = foldl crc_byte b p -> a = b.
Proof.
  induction 1 as [|c p Hc Hp IH]; intros a b Ha Hb E; [done|]. cbn [foldl] in E.
  apply IH in E; [|by apply crc_byte_word..]. apply byte_word in Hc.
  apply steps_inj in E; [|by apply (lxor_below 32)..].
  apply (f_equal (fun z => Z.lxor z c)) in E. by rewrite !Z.lxor_assoc, Z.lxor_nilpotent, !Z.lxor_0_r in E.
Qed.

(** crc32 is the remainder the register computes, bit by bit, and every read of the
    table is in bounds. Updating with two pieces is updating with their concatenation. *)
Theorem crc32_correct p (Hp : Forall is_byte p) :
  crc32 p = Ok (crc_spec p)
  /\ forall crc p1 p2, p = p1 ++ p2 -> is_word crc ->
     (crc1 ← php_crc32_bulk_update crc p1; php_crc32_bulk_update crc1 p2) = php_crc32_bulk_update crc p.
Proof.
  split.
  - unfold crc32. destruct (bulk_update_ok p Hp 0xffffffff) as [E _]; [done|]. change php_crc32_bulk_init with 0xffffffff.
    by rewrite E.
  - intros crc p1 p2 E Hc. destruct (bulk_update_ok p Hp crc Hc) as [-> _]. subst p. apply Forall_app in Hp as [H1 H2].
    destruct (bulk_update_ok p1 H1 crc Hc) as [-> Hw]. rewrite bind_ok, foldl_app. by apply bulk_update_ok.
Qed.

(** Any change within four bytes in succession is detected. *)
Theorem crc32_detects a d d' b (Ha : Forall is_byte a) (Hd : Forall is_byte d) (Hd' : Forall is_byte d')
  (Hb : Forall is_byte b) (Hlen : length d = length d') (H4 : (length d <= 4)%nat) (Hne : d <> d') :
  crc32 (a ++ d ++ b) <> crc32 (a ++ d' ++ b).
Proof.
  intros E. destruct (crc32_correct (a ++ d ++ b)) as [E1 _]; [by rewrite !Forall_app|].
  destruct (crc32_correct (a ++ d' ++ b)) as [E2 _]; [by rewrite !Forall_app|]. rewrite E1, E2 in E. injection E as E.
  unfold crc_spec in E. apply (f_equal (fun z => Z.lxor z 0xffffffff)) in E.
  rewrite !Z.lxor_assoc, Z.lxor_nilpotent, !Z.lxor_0_r, !foldl_app in E.
  destruct (bulk_update_ok a Ha 0xffffffff) as [_ Hw]; [done|]. set (w := foldl crc_byte 0xffffffff a) in *.
  apply fold_inj in E; [|done|by apply bulk_update_ok..]. rewrite !feed_number, <- Hlen in E.
  assert (forall x, Forall is_byte x -> length x = length d -> is_word (le_number x)) as Hnum.
  { intros x Hx Hl. pose proof (le_number_bound x Hx) as [? ?]. unfold is_word. unfold zlen in *.
    assert (2 ^ (8 * Z.of_nat (length x)) <= 2 ^ 32) by (apply Z.pow_le_mono_r; lia). lia. }
  apply steps_inj in E; [|apply (lxor_below 32); [lia|exact Hw|by apply Hnum]..].
  apply (f_equal (Z.lxor w)) in E. rewrite <- !Z.lxor_assoc, Z.lxor_nilpotent, !Z.lxor_0_l in E.
  by apply Hne, le_number_inj.
Qed.

(** A letter in the other case. *)
Theorem crc32_detects_witness : ([97; 98; 99] : list Z) <> [97; 66; 99] /\ crc32 [97; 98; 99] <> crc32 [97; 66; 99].
Proof.
  assert (forall c, 0 <= c < 256 -> Forall is_byte [c]) as H by (intros c Hc; by apply Forall_singleton).
  split; [done|]. apply (crc32_detects [97] [98] [66] [99]); [apply H; lia..|done|cbn; lia|done].
Defined.

Theorem crc32_correct_witness : Forall is_byte [97; 98] /\ crc32 [97; 98] = Ok (crc_spec [97; 98]).
Proof.
  assert (Forall is_byte [97; 98]) as H by (repeat constructor; by vm_compute).
  split; [exact H|]. exact (proj1 (crc32_correct [97; 98] H)).
Defined.
