(* ===== verification/RandomOps.v ===== *)
(** * Random numbers (ext/random)

    The range functions of random.c over any engine, the engines Mt19937,
    PcgOneseq128XslRr64, Xoshiro256StarStar and the combined generator, 128-bit
    arithmetic in its two implementations, and the hexadecimal form of states. *)

From S2P Require Import Prelude.

Definition UINT32_MAX : Z := 2 ^ 32 - 1.
Definition UINT64_MAX : Z := 2 ^ 64 - 1.

(** ** Engines

    The status of an engine and the functions of php_random_algo that produce
    numbers. Generation may raise an exception when the engine is written in PHP. *)
Record php_random_status (S : Type) : Type := mkStatus { last_generated_size : Z; r_state : S; r_exception : bool }.
Arguments mkStatus {S} _ _ _.
Arguments last_generated_size {S} _.
Arguments r_state {S} _.
Arguments r_exception {S} _.
Record php_random_algo (S : Type) : Type := mkAlgo {
  generate_size : Z;
  algo_seed : S -> Z -> res S;
  generate : php_random_status S -> res (php_random_status S * Z);
}.
Arguments mkAlgo {S} _ _ _.
Arguments generate_size {S} _.
Arguments algo_seed {S} _.
Arguments generate {S} _ _.

Definition RANDOM_RANGE_ATTEMPTS : Z := 50.

(** What a range function ends with: a number, a pending exception of the engine,
    or the error "Failed to generate an acceptable random number". *)
Inductive range_result : Type :=
| RNumber (n : Z)
| REngineException
| RBrokenEngine.

Section Range.
Context {S : Type} (algo : php_random_algo S).
Implicit Types (status : php_random_status S).

(** [do { ... } while (total_size < size)]: the bytes of one or more outputs, put
    together to a number of [size] bytes. *)
Fixpoint collect (fuel : nat) (size : Z) status (result total_size : Z) : res (php_random_status S * option Z) :=
  match fuel with
  | O => Ub
  | Datatypes.S fuel =>
      '(status, r) ← generate algo status;
      let r := r mod 2 ^ (8 * size) in
      let result := Z.lor result (Z.shiftl r (total_size * 8) mod 2 ^ (8 * size)) in
      let total_size := total_size + last_generated_size status in
      if r_exception status then Ok (status, None)
      else if total_size <? size then collect fuel size status result total_size
      else Ok (status, Some result)
  end.

(** The [while] loop that discards numbers over the limit. *)
Fixpoint discard (fuel : nat) (size limit : Z) status (result count : Z) : res (php_random_status S * range_result) :=
  match fuel with
  | O => Ub
  | Datatypes.S fuel =>
      if limit <? result then
        let count := count + 1 in
        if RANDOM_RANGE_ATTEMPTS <? count then Ok (status, RBrokenEngine)
        else
          '(status, r) ← collect (Z.to_nat size) size status 0 0;
          match r with
          | None => Ok (status, REngineException)
          | Some result => discard fuel size limit status result count
          end
      else Ok (status, RNumber result)
  end.

(** rand_range32 and rand_range64 for numbers of [size] bytes. *)
Definition rand_range (size : Z) status (umax : Z) : res (php_random_status S * range_result) :=
  let MAX := 2 ^ (8 * size) - 1 in
  '(status, r) ← collect (Z.to_nat size) size status 0 0;
  match r with
  | None => Ok (status, REngineException)
  | Some result =>
      if umax =? MAX then Ok (status, RNumber result)
      else
        let umax := umax + 1 in
        if Z.land umax (umax - 1) =? 0 then Ok (status, RNumber (Z.land result (umax - 1)))
        else
          let limit := MAX - MAX mod umax - 1 in
          '(status, r) ← discard (Z.to_nat (RANDOM_RANGE_ATTEMPTS + 2)) size limit status result 0;
          match r with
          | RNumber result => Ok (status, RNumber (result mod umax))
          | e => Ok (status, e)
          end
  end.

Definition rand_range32 := rand_range 4.
Definition rand_range64 := rand_range 8.

(** The functions return 0 after an exception, to which [min] is added all the
    same; the caller looks at the exception. *)
Definition php_random_range status (min max : Z) : res (php_random_status S * range_result) :=
  let umax := u64 (u64 max - u64 min) in
  '(status, r) ← (if UINT32_MAX <? umax then rand_range64 status umax else rand_range32 status umax);
  match r with
  | RNumber n => Ok (status, RNumber (i64 (u64 (n + u64 min))))
  | e => Ok (status, e)
  end.
End Range.

(** ** Engines written in PHP (engine_user.c)

    [call] runs the method [generate] of the object: the string it returns, or
    [None] when it throws. *)
Section User.
Context {O : Type} (call : O -> O * option (list Z)).

(** [result += ((uint64_t) (unsigned char) str[i]) << (8 * i)] *)
Fixpoint user_bytes (str : list Z) (i : Z) (result : Z) : Z :=
  match str with
  | [] => result
  | c :: str => user_bytes str (i + 1) (u64 (result + u64 (Z.shiftl c (8 * i))))
  end.

(** The string is empty: an error is thrown. *)
Definition user_generate (status : php_random_status O) : res (php_random_status O * Z) :=
  let '(o, retval) := call (r_state status) in
  match retval with
  | None => Ok (mkStatus (last_generated_size status) o true, 0)
  | Some str =>
      if r_exception status then Ok (mkStatus (last_generated_size status) o true, 0)
      else
      let size := if 8 <? zlen str then 8 else zlen str in
      if 0 <? size then Ok (mkStatus size o false, user_bytes (take (Z.to_nat size) str) 0 0)
      else Ok (mkStatus size o true, 0)
  end.

(** There is no seed function. *)
Definition php_random_algo_user : php_random_algo O := mkAlgo 0 (fun _ _ => Ub) user_generate.
End User.

(** ** 128-bit integers *)

(** What the generator needs of a 128-bit type. *)
Class Uint128 (T : Type) : Type := {
  uint128_hi : T -> Z;
  uint128_lo : T -> Z;
  uint128_constant : Z -> Z -> T;
  uint128_add : T -> T -> T;
  uint128_multiply : T -> T -> T;
  rotr64 : T -> Z;
}.

Definition u128 (x : Z) : Z := x mod 2 ^ 128.

(** The compiler's own type. *)
Definition native_rotr64 (num : Z) : Z :=
  let v := Z.lxor (u64 (Z.shiftr num 64)) (u64 num) in
  let s := Z.shiftr num 122 in
  Z.lor (Z.shiftr v s) (u64 (Z.shiftl v (Z.land (u64 (- s)) 63))).
#[export] Instance native_uint128 : Uint128 Z := {|
  uint128_hi num := u64 (Z.shiftr num 64);
  uint128_lo num := u64 num;
  uint128_constant hi lo := u128 (Z.shiftl hi 64 + lo);
  uint128_add num1 num2 := u128 (num1 + num2);
  uint128_multiply num1 num2 := u128 (num1 * num2);
  rotr64 := native_rotr64 |}.

(** Two 64-bit halves, for compilers without such a type. *)
Record emul128 : Type := mkEmul { e_hi : Z; e_lo : Z }.
Definition emul_add (num1 num2 : emul128) : emul128 :=
  let lo := u64 (e_lo num1 + e_lo num2) in
  mkEmul (u64 (u64 (e_hi num1 + e_hi num2) + (if lo <? e_lo num1 then 1 else 0))) lo.
Definition emul_multiply (num1 num2 : emul128) : emul128 :=
  let x0 := Z.land (e_lo num1) 0xffffffff in
  let x1 := Z.shiftr (e_lo num1) 32 in
  let y0 := Z.land (e_lo num2) 0xffffffff in
  let y1 := Z.shiftr (e_lo num2) 32 in
  let z0 := u64 (Z.land (u64 (u64 (x1 * y0) + Z.shiftr (u64 (x0 * y0)) 32)) 0xffffffff + u64 (x0 * y1)) in
  let hi := u64 (u64 (e_hi num1 * e_lo num2) + u64 (e_lo num1 * e_hi num2)) in
  let lo := u64 (e_lo num1 * e_lo num2) in
  mkEmul (u64 (hi + u64 (u64 (u64 (x1 * y1) + Z.shiftr (u64 (u64 (x1 * y0) + Z.shiftr (u64 (x0 * y0)) 32)) 32)
                        + Z.shiftr z0 32))) lo.
Definition emul_rotr64 (num : emul128) : Z :=
  let v := Z.lxor (e_hi num) (e_lo num) in
  let s := Z.shiftr (e_hi num) 58 in
  Z.lor (Z.shiftr v s) (u64 (Z.shiftl v (Z.land (u64 (- s)) 63))).
#[export] Instance emul_uint128 : Uint128 emul128 := {|
  uint128_hi := e_hi;
  uint128_lo := e_lo;
  uint128_constant := mkEmul;
  uint128_add := emul_add;
  uint128_multiply := emul_multiply;
  rotr64 := emul_rotr64 |}.

(** ** PcgOneseq128XslRr64 *)
Module Pcg.
Section Ops.
Context {T : Type} `{Uint128 T}.

Definition multiplier : T := uint128_constant 2549297995355413924 4865540595714422341.
Definition increment : T := uint128_constant 6364136223846793005 1442695040888963407.

Definition step (s : T) : T := uint128_add (uint128_multiply s multiplier) increment.

Definition seed128 (seed : T) : T := step (uint128_add (step (uint128_constant 0 0)) seed).
Definition seed (seed : Z) : T := seed128 (uint128_constant 0 seed).

Definition pcg_generate (status : php_random_status T) : php_random_status T * Z :=
  let s := step (r_state status) in
  (mkStatus (last_generated_size status) s (r_exception status), rotr64 s).

Definition php_random_algo_pcgoneseq128xslrr64 : php_random_algo T := mkAlgo 8 (fun _ s => Ok (seed s)) (fun st => Ok (pcg_generate st)).

(** [while (advance > 0)] *)
Fixpoint advance_loop (fuel : nat) (advance : Z) (cur_mult cur_plus acc_mult acc_plus : T) : res (T * T) :=
  match fuel with
  | O => Ub
  | S fuel =>
      if 0 <? advance then
        let '(acc_mult, acc_plus) :=
          if negb (Z.land advance 1 =? 0) then
            (uint128_multiply acc_mult cur_mult, uint128_add (uint128_multiply acc_plus cur_mult) cur_plus)
          else (acc_mult, acc_plus) in
        let cur_plus := uint128_multiply (uint128_add cur_mult (uint128_constant 0 1)) cur_plus in
        let cur_mult := uint128_multiply cur_mult cur_mult in
        advance_loop fuel (advance / 2) cur_mult cur_plus acc_mult acc_plus
      else Ok (acc_mult, acc_plus)
  end.

Definition php_random_pcgoneseq128xslrr64_advance (state : T) (advance : Z) : res T :=
  '(acc_mult, acc_plus) ← advance_loop 65 advance multiplier increment (uint128_constant 0 1) (uint128_constant 0 0);
  Ok (uint128_add (uint128_multiply acc_mult state) acc_plus).

(** The method: a negative count is an error. *)
Definition jump (state : T) (advance : Z) : res (option T) :=
  if advance <? 0 then Ok None
  else s ← php_random_pcgoneseq128xslrr64_advance state advance; Ok (Some s).
End Ops.
End Pcg.
