(* ===== verification/RandomEngines.v ===== *)
(** * 128-bit arithmetic and the PCG engine

    [Uint128Laws] is what the generator relies on; both implementations of the
    128-bit type satisfy it, and jumping ahead is proved for any that does. *)

From S2P Require Import Prelude.
From S2P Require Import RandomOps.

(** ** The interface *)
Class Uint128Laws (T : Type) `{Uint128 T} : Type := {
  u_val : T -> Z;
  u_wf : T -> Prop;
  u_val_range : forall a, u_wf a -> 0 <= u_val a < 2 ^ 128;
  u_val_inj : forall a b, u_wf a -> u_wf b -> u_val a = u_val b -> a = b;
  u_constant_ok : forall hi lo, 0 <= hi < 2 ^ 64 -> 0 <= lo < 2 ^ 64 ->
    u_wf (uint128_constant hi lo) /\ u_val (uint128_constant hi lo) = hi * 2 ^ 64 + lo;
  u_add_ok : forall a b, u_wf a -> u_wf b -> u_wf (uint128_add a b) /\ u_val (uint128_add a b) = u128 (u_val a + u_val b);
  u_multiply_ok : forall a b, u_wf a -> u_wf b ->
    u_wf (uint128_multiply a b) /\ u_val (uint128_multiply a b) = u128 (u_val a * u_val b);
  u_rotr64_ok : forall a, u_wf a -> rotr64 a = native_rotr64 (u_val a);
  u_halves_ok : forall a, u_wf a -> uint128_hi a = u_val a / 2 ^ 64 /\ uint128_lo a = u_val a mod 2 ^ 64;
}.

Lemma u128_range x : 0 <= u128 x < 2 ^ 128.
Proof. apply Z.mod_pos_bound. lia. Qed.

Lemma shiftl_64 x : Z.shiftl x 64 = x * 2 ^ 64.
Proof. by rewrite Z.shiftl_mul_pow2. Qed.
Lemma shiftr_64 x : Z.shiftr x 64 = x / 2 ^ 64.
Proof. by rewrite Z.shiftr_div_pow2. Qed.
Lemma shiftr_32 x : Z.shiftr x 32 = x / 2 ^ 32.
Proof. by rewrite Z.shiftr_div_pow2. Qed.
Lemma land_32 x : Z.land x 0xffffffff = x mod 2 ^ 32.
Proof. change 0xffffffff with (Z.ones 32). by rewrite Z.land_ones. Qed.

Lemma div_64_range a : 0 <= a < 2 ^ 128 -> 0 <= a / 2 ^ 64 < 2 ^ 64.
Proof. intros. split; [apply Z.div_pos|apply Z.div_lt_upper_bound]; lia. Qed.

#[export] Program Instance native_laws : Uint128Laws Z := {|
  u_val x := x;
  u_wf x := 0 <= x < 2 ^ 128 |}.
Next Obligation. done. Qed.
Next Obligation. done. Qed.
Next Obligation.
  intros hi lo Hh Hl. cbn. rewrite shiftl_64. split; [apply u128_range|]. unfold u128. apply Z.mod_small. lia.
Qed.
Next Obligation. intros a b Ha Hb. cbn. split; [apply u128_range|done]. Qed.
Next Obligation. intros a b Ha Hb. cbn. split; [apply u128_range|done]. Qed.
Next Obligation. done. Qed.
Next Obligation.
  intros a Ha. cbn. rewrite shiftr_64. split; [|done]. apply u64_small. by apply div_64_range.
Qed.

(** ** The emulation *)
Definition eval (a : emul128) : Z := e_hi a * 2 ^ 64 + e_lo a.
Definition ewf (a : emul128) : Prop := 0 <= e_hi a < 2 ^ 64 /\ 0 <= e_lo a < 2 ^ 64.

Lemma emul_add_ok a b : ewf a -> ewf b -> ewf (emul_add a b) /\ eval (emul_add a b) = u128 (eval a + eval b).
Proof.
  destruct a as [ha la], b as [hb lb]. intros [Ha La] [Hb Lb]. unfold ewf, eval, emul_add, u128. cbn [e_hi e_lo] in *.
  split; [split; apply u64_range|]. unfold u64. destruct (Z.ltb_spec ((la + lb) mod 2 ^ 64) la); Z.div_mod_to_equations; lia.
Qed.

(** The high half of the product of two 64-bit numbers, by 32-bit parts. *)
Lemma mul_high x0 x1 y0 y1 : 0 <= x0 < 2 ^ 32 -> 0 <= x1 < 2 ^ 32 -> 0 <= y0 < 2 ^ 32 -> 0 <= y1 < 2 ^ 32 ->
  let t := u64 (u64 (x1 * y0) + u64 (x0 * y0) / 2 ^ 32) in
  let z0 := u64 (t mod 2 ^ 32 + u64 (x0 * y1)) in
  (x1 * 2 ^ 32 + x0) * (y1 * 2 ^ 32 + y0) / 2 ^ 64 = u64 (u64 (u64 (x1 * y1) + t / 2 ^ 32) + z0 / 2 ^ 32).
Proof.
  intros H1 H2 H3 H4.
  assert (forall x y, 0 <= x < 2 ^ 32 -> 0 <= y < 2 ^ 32 -> 0 <= x * y <= (2 ^ 32 - 1) * (2 ^ 32 - 1)) as Hb by (intros; nia).
  pose proof (Hb x0 y0 H1 H3) as B00. pose proof (Hb x0 y1 H1 H4) as B01. pose proof (Hb x1 y0 H2 H3) as B10. pose proof (Hb x1 y1 H2 H4) as B11.
  replace ((x1 * 2 ^ 32 + x0) * (y1 * 2 ^ 32 + y0)) with (x1 * y1 * 2 ^ 64 + (x0 * y1 + x1 * y0) * 2 ^ 32 + x0 * y0) by ring.
  generalize dependent (x0 * y0). generalize dependent (x0 * y1). generalize dependent (x1 * y0). generalize dependent (x1 * y1).
  clear. intros p11 B11 p10 B10 p01 B01 p00 B00. cbn zeta.
  rewrite (u64_small p11), (u64_small p10), (u64_small p01), (u64_small p00) by lia.
  rewrite (u64_small (p10 + p00 / 2 ^ 32)) by (Z.div_mod_to_equations; lia).
  rewrite (u64_small (_ mod _ + p01)) by (Z.div_mod_to_equations; lia).
  rewrite (u64_small (p11 + _)) by (Z.div_mod_to_equations; lia).
  rewrite u64_small by (Z.div_mod_to_equations; lia). Z.div_mod_to_equations. lia.
Qed.

Lemma emul_multiply_ok a b : ewf a -> ewf b ->
  ewf (emul_multiply a b) /\ eval (emul_multiply a b) = u128 (eval a * eval b).
Proof.
  destruct a as [ha la], b as [hb lb]. intros [Ha La] [Hb Lb]. unfold ewf, eval, emul_multiply. cbn [e_hi e_lo] in *.
  rewrite !land_32, !shiftr_32. split; [split; apply u64_range|].
  pose proof (mul_high (la mod 2 ^ 32) (la / 2 ^ 32) (lb mod 2 ^ 32) (lb / 2 ^ 32)) as Hm. cbn zeta in Hm.
  rewrite <- Hm by (Z.div_mod_to_equations; lia). clear Hm.
  assert (forall x, x / 2 ^ 32 * 2 ^ 32 + x mod 2 ^ 32 = x) as E by (intros; Z.div_mod_to_equations; lia). rewrite !E.
  replace ((ha * 2 ^ 64 + la) * (hb * 2 ^ 64 + lb)) with (ha * hb * 2 ^ 128 + (ha * lb + la * hb) * 2 ^ 64 + la * lb) by ring.
  generalize (ha * hb) (ha * lb) (la * hb) (la * lb). clear. intros p q r s. unfold u128, u64. Z.div_mod_to_equations. lia.
Qed.

Lemma eval_halves a : ewf a -> eval a / 2 ^ 64 = e_hi a /\ eval a mod 2 ^ 64 = e_lo a.
Proof. unfold ewf, eval. intros [? ?]. split; Z.div_mod_to_equations; lia. Qed.

Lemma eval_range a : ewf a -> 0 <= eval a < 2 ^ 128.
Proof. unfold ewf, eval. lia. Qed.

Lemma emul_rotr64_ok a : ewf a -> emul_rotr64 a = native_rotr64 (eval a).
Proof.
  intros Ha. unfold emul_rotr64, native_rotr64. destruct (eval_halves a Ha) as [H1 H2].
  replace (Z.shiftr (eval a) 122) with (Z.shiftr (Z.shiftr (eval a) 64) 58) by (by rewrite Z.shiftr_shiftr by lia).
  rewrite shiftr_64, H1, (u64_small (e_hi a)) by apply Ha. change (u64 (eval a)) with (eval a mod 2 ^ 64). by rewrite H2.
Qed.

#[export] Program Instance emul_laws : Uint128Laws emul128 := {| u_val := eval; u_wf := ewf |}.
Next Obligation. apply eval_range. Qed.
Next Obligation.
  intros [ha la] [hb lb] [Ha La] [Hb Lb]. unfold eval. cbn in *. intros He. f_equal; lia.
Qed.
Next Obligation. done. Qed.
Next Obligation. apply emul_add_ok. Qed.
Next Obligation. apply emul_multiply_ok. Qed.
Next Obligation. apply emul_rotr64_ok. Qed.
Next Obligation. intros a Ha. destruct (eval_halves a Ha) as [-> ->]. done. Qed.

(** ** Jumping ahead *)

Lemma iter_half {A} (f : A -> A) n x : Nat.iter (2 * n) f x = Nat.iter n (fun y => f (f y)) x.
Proof. induction n as [|n IH]; [done|]. replace (2 * S n)%nat with (S (S (2 * n))) by lia. rewrite !Nat.iter_succ. by rewrite IH. Qed.

Lemma iter_ext {A} (f g : A -> A) n x : (forall y, f y = g y) -> Nat.iter n f x = Nat.iter n g x.
Proof. intros H. induction n as [|n IH]; [done|]. rewrite !Nat.iter_succ. by rewrite IH, H. Qed.

Lemma iter_shift {A} (f : A -> A) n x : Nat.iter n f (f x) = f (Nat.iter n f x).
Proof. induction n as [|n IH]; [done|]. rewrite !Nat.iter_succ. by rewrite IH. Qed.

Section Advance.
Context {T : Type} `{Uint128Laws T}.

(** The map [x -> m * x + c] modulo 2^128. *)
Definition affine (m c : T) (x : Z) : Z := u128 (u_val m * x + u_val c).

Lemma affine_compose m c m' c' : u_wf m -> u_wf c -> u_wf m' -> u_wf c' ->
  u_wf (uint128_multiply m m') /\ u_wf (uint128_add (uint128_multiply c m') c')
  /\ forall x, affine (uint128_multiply m m') (uint128_add (uint128_multiply c m') c') x = affine m' c' (affine m c x).
Proof.
  intros Hm Hc Hm' Hc'. destruct (u_multiply_ok m m' Hm Hm') as [W1 E1]. destruct (u_multiply_ok c m' Hc Hm') as [W2 E2].
  destruct (u_add_ok _ c' W2 Hc') as [W3 E3]. split_and!; [done|done|]. intros x. unfold affine. rewrite E1, E3, E2.
  generalize (u_val m) (u_val c) (u_val m') (u_val c'). intros a b a' b'. unfold u128.
  rewrite Zplus_mod_idemp_l, Zplus_mod_idemp_r, <- (Zplus_mod_idemp_l (_ * x)), Zmult_mod_idemp_l, Zplus_mod_idemp_l.
  rewrite <- (Zplus_mod_idemp_l (a' * _)), Zmult_mod_idemp_r, Zplus_mod_idemp_l. f_equal. ring.
Qed.

Lemma one_ok : u_wf (uint128_constant 0 1 : T) /\ u_val (uint128_constant 0 1 : T) = 1.
Proof. destruct (u_constant_ok (T:=T) 0 1); lia || done. Qed.
Lemma zero_ok : u_wf (uint128_constant 0 0 : T) /\ u_val (uint128_constant 0 0 : T) = 0.
Proof. destruct (u_constant_ok (T:=T) 0 0); lia || done. Qed.

Lemma affine_square m c : u_wf m -> u_wf c ->
  let c' := uint128_multiply (uint128_add m (uint128_constant 0 1)) c in
  u_wf (uint128_multiply m m) /\ u_wf c' /\ forall x, affine (uint128_multiply m m) c' x = affine m c (affine m c x).
Proof.
  intros Hm Hc. destruct one_ok as [W1 E1]. destruct (u_add_ok m _ Hm W1) as [W2 E2]. destruct (u_multiply_ok _ c W2 Hc) as [W3 E3].
  destruct (affine_compose m c m c Hm Hc Hm Hc) as (W4 & W5 & HC). cbn zeta. split_and!; [done|done|]. intros x. rewrite <- HC.
  unfold affine. rewrite E3, E2, E1. destruct (u_multiply_ok c m Hc Hm) as [W6 E6]. destruct (u_add_ok _ c W6 Hc) as [_ ->]. rewrite E6.
  f_equal. f_equal. unfold u128. rewrite Zmult_mod_idemp_l, Zplus_mod_idemp_l. f_equal. ring.
Qed.

Lemma advance_loop_S fuel advance (cm cp am ap : T) : Pcg.advance_loop (S fuel) advance cm cp am ap
  = if 0 <? advance then
      let '(am, ap) :=
        if negb (Z.land advance 1 =? 0) then (uint128_multiply am cm, uint128_add (uint128_multiply ap cm) cp) else (am, ap) in
      Pcg.advance_loop fuel (advance / 2) (uint128_multiply cm cm)
        (uint128_multiply (uint128_add cm (uint128_constant 0 1)) cp) am ap
    else Ok (am, ap).
Proof. done. Qed.

Lemma advance_loop_ok fuel : forall advance cm cp am ap, 0 <= advance -> advance < 2 ^ Z.of_nat fuel ->
  u_wf cm -> u_wf cp -> u_wf am -> u_wf ap ->
  exists rm rp, Pcg.advance_loop (S fuel) advance cm cp am ap = Ok (rm, rp) /\ u_wf rm /\ u_wf rp
    /\ forall x, affine rm rp x = Nat.iter (Z.to_nat advance) (affine cm cp) (affine am ap x).
Proof.
  induction fuel as [|fuel IH]; intros advance cm cp am ap Hge Hf Hcm Hcp Ham Hap; rewrite advance_loop_S;
    (destruct (Z.ltb_spec 0 advance); [|assert (advance = 0) as -> by lia; by exists am, ap]).
  { change (Z.of_nat 0) with 0 in Hf. lia. }
  destruct (affine_square cm cp Hcm Hcp) as (W1 & W2 & Hsq). destruct (affine_compose am ap cm cp Ham Hap Hcm Hcp) as (W3 & W4 & Hc).
  rewrite Nat2Z.inj_succ, Z.pow_succ_r in Hf by lia.
  assert (0 <= advance / 2 < 2 ^ Z.of_nat fuel) as [Hd1 Hd2] by (Z.div_mod_to_equations; lia).
  assert (Z.land advance 1 = advance mod 2) as -> by (change 1 with (Z.ones 1); by rewrite Z.land_ones).
  pose proof (Z.div_mod advance 2 ltac:(lia)) as Hdm. pose proof (Z.mod_pos_bound advance 2 ltac:(lia)) as Hm2.
  destruct (Z.eqb_spec (advance mod 2) 0) as [He|He]; cbn [negb].
  - destruct (IH (advance / 2) _ _ am ap Hd1 Hd2 W1 W2 Ham Hap) as (rm & rp & -> & ? & ? & HX). exists rm, rp. split_and!; [done..|].
    intros x. rewrite HX. rewrite (iter_ext _ _ _ _ Hsq), <- iter_half. f_equal. lia.
  - destruct (IH (advance / 2) _ _ _ _ Hd1 Hd2 W1 W2 W3 W4) as (rm & rp & -> & ? & ? & HX). exists rm, rp. split_and!; [done..|].
    intros x. rewrite HX. rewrite (iter_ext _ _ _ _ Hsq), <- iter_half, Hc, iter_shift. change (affine cm cp (Nat.iter ?n ?f ?y)) with (Nat.iter (S n) f y).
    f_equal. lia.
Qed.

Lemma constants_ok : u_wf (Pcg.multiplier : T) /\ u_wf (Pcg.increment : T).
Proof. split; apply u_constant_ok; lia. Qed.

Lemma step_ok (s : T) : u_wf s -> u_wf (Pcg.step s) /\ u_val (Pcg.step s) = affine Pcg.multiplier Pcg.increment (u_val s).
Proof.
  intros Hs. destruct constants_ok as [Wm Wi]. unfold Pcg.step. destruct (u_multiply_ok s _ Hs Wm) as [W1 E1].
  destruct (u_add_ok _ _ W1 Wi) as [W2 E2]. split; [done|]. rewrite E2, E1. unfold affine, u128. rewrite Zplus_mod_idemp_l. f_equal. ring.
Qed.

Lemma steps_ok (s : T) n : u_wf s -> u_wf (Nat.iter n Pcg.step s)
  /\ u_val (Nat.iter n Pcg.step s) = Nat.iter n (affine Pcg.multiplier Pcg.increment) (u_val s).
Proof.
  intros Hs. induction n as [|n [W E]]; [done|]. rewrite !Nat.iter_succ. destruct (step_ok _ W) as [W' ->]. by rewrite E.
Qed.

Lemma advance_ok (s : T) n : u_wf s -> 0 <= n < 2 ^ 64 ->
  Pcg.php_random_pcgoneseq128xslrr64_advance s n = Ok (Nat.iter (Z.to_nat n) Pcg.step s).
Proof.
  intros Hs Hn. destruct constants_ok as [Wm Wi]. destruct one_ok as [W1 E1]. destruct zero_ok as [W0 E0].
  unfold Pcg.php_random_pcgoneseq128xslrr64_advance.
  destruct (advance_loop_ok 64 n _ _ _ _ (proj1 Hn) (proj2 Hn) Wm Wi W1 W0) as (rm & rp & -> & Hrm & Hrp & HX).
  rewrite bind_ok. f_equal. destruct (u_multiply_ok rm s Hrm Hs) as [W2 E2]. destruct (u_add_ok _ rp W2 Hrp) as [W3 E3].
  destruct (steps_ok s (Z.to_nat n) Hs) as [W4 E4]. apply u_val_inj; [done|done|]. rewrite E3, E2, E4.
  specialize (HX (u_val s)). unfold affine at 3 in HX. rewrite E1, E0, Z.add_0_r, Z.mul_1_l in HX.
  assert (u128 (u_val s) = u_val s) as Eu by (unfold u128; apply Z.mod_small; by apply u_val_range). rewrite Eu in HX. rewrite <- HX. unfold affine, u128. by rewrite Zplus_mod_idemp_l.
Qed.
End Advance.

(** C22: Jumping [n] steps ahead, for any count PHP can express, is the same as
    generating [n] numbers, and a negative count is refused; the loop ends within
    its 64 rounds. This holds for every implementation of 128-bit integers. *)
Theorem pcg_jump_correct {T} `{Uint128Laws T} (s : T) n : u_wf s -> ZEND_LONG_MIN <= n <= ZEND_LONG_MAX ->
  Pcg.jump s n = Ok (if n <? 0 then None else Some (Nat.iter (Z.to_nat n) Pcg.step s)).
Proof.
  unfold ZEND_LONG_MAX. intros Hs Hn. unfold Pcg.jump. destruct (Z.ltb_spec n 0); [done|].
  by rewrite advance_ok by (done || lia).
Qed.

Lemma pcg_jump_correct_witness :
  Pcg.jump (mkEmul 1 2) 5 = Ok (Some (Nat.iter 5 Pcg.step (mkEmul 1 2))).
Proof. apply (pcg_jump_correct (mkEmul 1 2) 5); [unfold u_wf; cbn; unfold ewf; cbn; lia|done]. Defined.

(** ** The two implementations *)

Fixpoint pcg_outputs {T} `{Uint128 T} (n : nat) (st : php_random_status T) : list Z :=
  match n with O => [] | S n => let '(st, r) := Pcg.pcg_generate st in r :: pcg_outputs n st end.

Section Independent.
Context {T1 T2 : Type} `{Uint128Laws T1} `{Uint128Laws T2}.

Definition same_value (a : T1) (b : T2) : Prop := u_wf a /\ u_wf b /\ u_val a = u_val b.

Lemma same_constant hi lo : 0 <= hi < 2 ^ 64 -> 0 <= lo < 2 ^ 64 -> same_value (uint128_constant hi lo) (uint128_constant hi lo).
Proof.
  intros Hh Hl. destruct (u_constant_ok (T:=T1) hi lo Hh Hl) as [W1 E1], (u_constant_ok (T:=T2) hi lo Hh Hl) as [W2 E2].
  split_and!; congruence.
Qed.

Lemma same_add a b a' b' : same_value a a' -> same_value b b' -> same_value (uint128_add a b) (uint128_add a' b').
Proof.
  intros (Wa & Wa' & Ea) (Wb & Wb' & Eb). destruct (u_add_ok a b Wa Wb) as [W1 E1], (u_add_ok a' b' Wa' Wb') as [W2 E2].
  split_and!; congruence.
Qed.

Lemma same_multiply a b a' b' : same_value a a' -> same_value b b' -> same_value (uint128_multiply a b) (uint128_multiply a' b').
Proof.
  intros (Wa & Wa' & Ea) (Wb & Wb' & Eb). destruct (u_multiply_ok a b Wa Wb) as [W1 E1], (u_multiply_ok a' b' Wa' Wb') as [W2 E2].
  split_and!; congruence.
Qed.

Lemma same_step a a' : same_value a a' -> same_value (Pcg.step a) (Pcg.step a').
Proof. intros Ha. apply same_add; [apply same_multiply|]; try done; apply same_constant; lia. Qed.

Lemma same_seed seed : 0 <= seed < 2 ^ 64 -> same_value (Pcg.seed seed) (Pcg.seed seed).
Proof. intros Hs. apply same_step, same_add; [apply same_step|]; apply same_constant; done || lia. Qed.

Lemma same_outputs n : forall a a' size ex, same_value a a' ->
  pcg_outputs n (mkStatus size a ex) = pcg_outputs n (mkStatus size a' ex).
Proof.
  induction n as [|n IH]; intros a a' size ex Ha; [done|]. cbn [pcg_outputs Pcg.pcg_generate r_state last_generated_size r_exception].
  apply same_step in Ha as Hs. rewrite (IH _ _ size ex Hs). f_equal. destruct Hs as (W & W' & E).
  rewrite (u_rotr64_ok _ W), (u_rotr64_ok _ W'). by rewrite E.
Qed.

Lemma same_steps n a a' : same_value a a' -> same_value (Nat.iter n Pcg.step a) (Nat.iter n Pcg.step a').
Proof. intros Ha. induction n as [|n IH]; [done|]. rewrite !Nat.iter_succ. by apply same_step. Qed.
End Independent.

(** The emulated 128-bit arithmetic is the compiler's: from the same seed, and after
    a jump of the same length, both engines produce the same numbers, and their
    states have the same halves. *)
Theorem pcg_emulation_correct seed jump n : 0 <= seed < 2 ^ 64 -> 0 <= jump <= ZEND_LONG_MAX ->
  exists (s : Z) (e : emul128), Pcg.jump (Pcg.seed seed) jump = Ok (Some s) /\ Pcg.jump (Pcg.seed seed) jump = Ok (Some e)
    /\ pcg_outputs n (mkStatus 8 s false) = pcg_outputs n (mkStatus 8 e false)
    /\ uint128_hi s = uint128_hi e /\ uint128_lo s = uint128_lo e.
Proof.
  intros Hs Hj. destruct (same_seed (T1:=Z) (T2:=emul128) seed Hs) as (W & W' & E).
  exists (Nat.iter (Z.to_nat jump) Pcg.step (Pcg.seed seed)), (Nat.iter (Z.to_nat jump) Pcg.step (Pcg.seed seed)).
  pose proof (same_steps (Z.to_nat jump) _ _ (same_seed (T1:=Z) (T2:=emul128) seed Hs)) as Hsame.
  unfold ZEND_LONG_MAX in Hj. unfold Pcg.jump. assert (0 <= jump < 2 ^ 64) as Hr by lia.
  rewrite (proj2 (Z.ltb_ge _ _)) by lia. rewrite (advance_ok _ jump W Hr), (advance_ok _ jump W' Hr).
  split_and!; [done|done|by apply same_outputs|..]; destruct Hsame as (V & V' & F);
    destruct (u_halves_ok _ V) as [H1 H2], (u_halves_ok _ V') as [H3 H4]; congruence.
Qed.

Lemma pcg_emulation_correct_witness :
  exists (s : Z) (e : emul128), Pcg.jump (Pcg.seed 42) 1000 = Ok (Some s) /\ Pcg.jump (Pcg.seed 42) 1000 = Ok (Some e)
    /\ pcg_outputs 3 (mkStatus 8 s false) = pcg_outputs 3 (mkStatus 8 e false)
    /\ uint128_hi s = uint128_hi e /\ uint128_lo s = uint128_lo e.
Proof. apply (pcg_emulation_correct 42 1000 3); [lia|unfold ZEND_LONG_MAX; lia]. Defined.
