(* ===== verification/Random.v ===== *)
(** * Numbers in a range, and the combined generator

    The range functions return, stay in the range, and are not biased: every value
    of the range stands for the same number of engine outputs. The combined generator
    computes two multiplicative generators by Schrage's method. *)

From S2P Require Import Prelude.
From S2P Require Import RandomOps.

(** ** Bits *)

Lemma lor_bound a b n : 0 <= n -> 0 <= a < 2 ^ n -> 0 <= b < 2 ^ n -> 0 <= Z.lor a b < 2 ^ n.
Proof.
  intros Hn Ha Hb. assert (Z.lor a b = Z.lor a b mod 2 ^ n) as ->; [|apply Z.mod_pos_bound; lia].
  rewrite <- Z.land_ones, Z.land_lor_distr_l, !Z.land_ones, !Z.mod_small by lia. done.
Qed.

(** The test [(u & (u - 1)) == 0] finds the powers of two. *)
Lemma land_pred_pow2 u : 0 < u -> Z.land u (u - 1) = 0 -> u = 2 ^ Z.log2 u.
Proof.
  intros Hu Hl. destruct (Z.log2_spec u Hu) as [H1 H2]. destruct (Z.eq_dec u (2 ^ Z.log2 u)) as [|Hne]; [done|]. exfalso.
  assert (Z.log2 (u - 1) = Z.log2 u) as Hlog by (apply Z.log2_unique; [apply Z.log2_nonneg|lia]).
  assert (Z.testbit (Z.land u (u - 1)) (Z.log2 u) = true) as Hb; [|by rewrite Hl, Z.testbit_0_l in Hb].
  rewrite Z.land_spec, Z.bit_log2 by lia. rewrite <- Hlog at 1. apply Z.bit_log2.
  pose proof (Z.pow_pos_nonneg 2 (Z.log2 u) ltac:(lia) (Z.log2_nonneg u)). lia.
Qed.

Lemma land_pred_mod u x : 0 < u -> Z.land u (u - 1) = 0 -> Z.land x (u - 1) = x mod u.
Proof.
  intros Hu Hl. pose proof (land_pred_pow2 u Hu Hl) as Hp. set (k := Z.log2 u) in *. pose proof (Z.log2_nonneg u).
  rewrite Hp. replace (2 ^ k - 1) with (Z.ones k) by (rewrite Z.ones_equiv; lia). by apply Z.land_ones.
Qed.

(** A divisor of a power of two is a power of two. *)
Lemma divides_pow2 n : forall u, 0 < u -> (u | 2 ^ Z.of_nat n) -> exists k, 0 <= k /\ u = 2 ^ k.
Proof.
  induction n as [|n IH]; intros u Hu Hd.
  - exists 0. split; [done|]. apply Z.divide_1_r_nonneg in Hd; [done|lia].
  - rewrite Nat2Z.inj_succ, Z.pow_succ_r in Hd by lia. destruct (Z.Even_or_Odd u) as [[v ->]|Ho].
    + destruct (IH v) as (k & Hk & ->); [lia| |].
      * apply Z.mul_divide_cancel_l in Hd; [done|lia].
      * exists (Z.succ k). split; [lia|]. by rewrite Z.pow_succ_r.
    + apply IH; [done|]. apply Z.gauss in Hd; [done|]. apply Z.bezout_1_gcd. destruct Ho as [v ->].
      exists 1, (- v). lia.
Qed.

Lemma pow2_divisor n u : 0 <= n -> 0 < u -> 2 ^ n mod u = 0 -> Z.land u (u - 1) = 0.
Proof.
  intros Hn Hu Hd. apply Z.mod_divide in Hd; [|lia]. rewrite <- (Z2Nat.id n Hn) in Hd.
  destruct (divides_pow2 _ u Hu Hd) as (k & Hk & ->). replace (2 ^ k - 1) with (Z.ones k) by (rewrite Z.ones_equiv; lia).
  rewrite Z.land_ones by done. apply Z.mod_same. lia.
Qed.

(** ** What a number of the engine stands for

    A specification. If the size [u] of the range divides the number of raw numbers, every
    raw number stands for its remainder modulo [u]. Otherwise those below the largest
    multiple of [u] do, and the others are discarded ([None]). *)
Definition range_of (size umax raw : Z) : option Z :=
  let N := 2 ^ (8 * size) in
  let u := umax + 1 in
  if (N mod u =? 0) || (raw <? (N - 1) / u * u) then Some (raw mod u) else None.

Lemma range_of_bounds size umax raw n : 0 <= umax -> range_of size umax raw = Some n -> 0 <= n <= umax.
Proof.
  intros Hu. unfold range_of. destruct (_ || _); [|done]. intros [= <-]. pose proof (Z.mod_pos_bound raw (umax + 1)). lia.
Qed.

(** The three cases of the code. *)
Lemma range_of_all size umax raw : 0 <= raw < 2 ^ (8 * size) -> umax = 2 ^ (8 * size) - 1 -> range_of size umax raw = Some raw.
Proof.
  intros Hr ->. unfold range_of. replace (2 ^ (8 * size) - 1 + 1) with (2 ^ (8 * size)) by lia.
  rewrite Z.mod_same by lia. cbn [Z.eqb orb]. by rewrite Z.mod_small.
Qed.

Lemma range_of_pow2 size umax raw : 0 < size -> 0 <= umax < 2 ^ (8 * size) -> Z.land (umax + 1) (umax + 1 - 1) = 0 ->
  range_of size umax raw = Some (Z.land raw (umax + 1 - 1)).
Proof.
  intros Hs Hu Hl. unfold range_of. rewrite land_pred_mod by (done || lia).
  pose proof (land_pred_pow2 (umax + 1) ltac:(lia) Hl) as Hp. set (j := Z.log2 (umax + 1)) in *.
  pose proof (Z.log2_nonneg (umax + 1)) as Hj. fold j in Hj.
  assert (Hj2 : j <= 8 * size) by (apply (Z.pow_le_mono_r_iff 2); lia).
  assert (H0 : 2 ^ (8 * size) mod (umax + 1) = 0).
  { apply Z.mod_divide; [lia|]. exists (2 ^ (8 * size - j)). rewrite Hp, <- Z.pow_add_r by lia. f_equal. lia. }
  by rewrite H0.
Qed.

Lemma range_of_limit size umax raw : 0 < size -> 0 <= umax -> Z.land (umax + 1) (umax + 1 - 1) <> 0 ->
  range_of size umax raw =
  if 2 ^ (8 * size) - 1 - (2 ^ (8 * size) - 1) mod (umax + 1) - 1 <? raw then None else Some (raw mod (umax + 1)).
Proof.
  intros Hs Hu Hl. unfold range_of. destruct (Z.eqb_spec (2 ^ (8 * size) mod (umax + 1)) 0) as [H0|_].
  { apply pow2_divisor in H0; [done|lia|lia]. }
  pose proof (Z.div_mod (2 ^ (8 * size) - 1) (umax + 1) ltac:(lia)) as Hd. cbn [orb].
  destruct (Z.ltb_spec raw ((2 ^ (8 * size) - 1) / (umax + 1) * (umax + 1))),
    (Z.ltb_spec (2 ^ (8 * size) - 1 - (2 ^ (8 * size) - 1) mod (umax + 1) - 1) raw); done || lia.
Qed.

(** ** Counting *)

Lemma filter_iff_in {A} (P Q : A -> Prop) `{!forall x, Decision (P x), !forall x, Decision (Q x)} (l : list A) :
  (forall x, x ∈ l -> P x <-> Q x) -> filter P l = filter Q l.
Proof.
  induction l as [|x l IH]; intros Hi; [done|]. rewrite !filter_cons. rewrite IH by (intros y Hy; apply Hi; by right).
  pose proof (Hi x ltac:(by left)). destruct (decide (P x)), (decide (Q x)); tauto || done.
Qed.

(** How many of 0, 1, ..., n - 1 the function sends to [k]. *)
Definition hits (f : Z -> option Z) (n : nat) (k : Z) : nat :=
  length (filter (fun x => f x = Some k) (seqZ 0 (Z.of_nat n))).

Lemma hits_succ f n k : hits f (S n) k = (hits f n k + if decide (f (Z.of_nat n) = Some k) then 1 else 0)%nat.
Proof.
  unfold hits. rewrite seqZ_S, filter_app, length_app. f_equal. rewrite filter_cons, filter_nil.
  rewrite Z.add_0_l. by destruct (decide (f (Z.of_nat n) = Some k)).
Qed.

Lemma hits_ext f g n k : (forall x, 0 <= x < Z.of_nat n -> f x = g x) -> hits f n k = hits g n k.
Proof.
  induction n as [|n IH]; intros H; [done|]. rewrite !hits_succ, IH, H by (lia || (intros; apply H; lia)). done.
Qed.

Lemma div_step u n k : 0 <= k < u -> 0 <= n ->
  (n + u - k) / u = (n + u - 1 - k) / u + if decide (n mod u = k) then 1 else 0.
Proof.
  intros Hk Hn. pose proof (Z.mod_pos_bound n u ltac:(lia)) as Hr. pose proof (Z.div_mod n u ltac:(lia)) as Hd.
  set (q := n / u) in *. set (r := n mod u) in *.
  assert (forall x, 0 <= x < 2 * u -> (u * q + x) / u = q + if decide (u <= x) then 1 else 0) as H.
  { intros x Hx. rewrite Z.mul_comm, Z.div_add_l by lia. f_equal. case_decide.
    - symmetry. apply (Z.div_unique x u 1 (x - u)); lia.
    - apply Z.div_small. lia. }
  replace (n + u - k) with (u * q + (r + u - k)) by lia. replace (n + u - 1 - k) with (u * q + (r + u - 1 - k)) by lia.
  rewrite !H by lia. repeat case_decide; lia.
Qed.

(** Reduction modulo [u] below a multiple of [u] hits every residue equally often. *)
Lemma hits_mod f u q k : 0 <= k < u -> (forall x, 0 <= x < q * u -> f x = Some (x mod u)) ->
  (forall x, q * u <= x -> f x = None) -> 0 <= q -> forall n, q * u <= Z.of_nat n -> Z.of_nat (hits f n k) = q.
Proof.
  intros Hk Hin Hout Hq. assert (0 <= q * u) as Hqu by nia.
  assert (forall n : nat, Z.of_nat n <= q * u -> Z.of_nat (hits f n k) = (Z.of_nat n + u - 1 - k) / u) as Hlow.
  { induction n as [|n IH]; intros Hn.
    - change (hits f 0 k) with 0%nat. rewrite Z.div_small by lia. done.
    - rewrite hits_succ, Hin by lia. rewrite Nat2Z.inj_add, IH by lia.
      replace (Z.of_nat (S n) + u - 1 - k) with (Z.of_nat n + u - k) by lia. rewrite div_step by lia. f_equal.
      destruct (decide (Z.of_nat n mod u = k)) as [->|Hne]; [by rewrite decide_True|rewrite decide_False; [done|congruence]]. }
  induction n as [|n IH]; intros Hn.
  - rewrite Hlow by lia. assert (q * u = 0) as H0 by nia. rewrite Z.div_small by lia. nia.
  - destruct (Z.eq_dec (Z.of_nat (S n)) (q * u)) as [He|He].
    + rewrite Hlow by lia. rewrite He. replace (q * u + u - 1 - k) with (q * u + (u - 1 - k)) by lia.
      rewrite Z.div_add_l, Z.div_small by lia. lia.
    + rewrite hits_succ, Hout, decide_False, Nat.add_0_r by (done || lia). apply IH. lia.
Qed.

(** Every value of the range has the same number of raw numbers. *)
Lemma hits_range size umax k : 0 < size -> 0 <= umax < 2 ^ (8 * size) -> 0 <= k <= umax ->
  hits (range_of size umax) (Z.to_nat (2 ^ (8 * size))) k = hits (range_of size umax) (Z.to_nat (2 ^ (8 * size))) 0
  /\ (0 < hits (range_of size umax) (Z.to_nat (2 ^ (8 * size))) k)%nat.
Proof.
  intros Hs Hu Hk. set (N := 2 ^ (8 * size)) in *. set (u := umax + 1).
  assert (exists q, 0 < q /\ q * u <= N
    /\ forall x, 0 <= x < N -> range_of size umax x = if x <? q * u then Some (x mod u) else None) as (q & Hq & HqN & Hf).
  { unfold range_of. fold N u. destruct (Z.eqb_spec (N mod u) 0) as [H0|Hne]; cbn [orb].
    - pose proof (Z.div_mod N u ltac:(lia)). exists (N / u). split_and!; [apply Z.div_str_pos; lia|lia|].
      intros x Hx. by rewrite (proj2 (Z.ltb_lt _ _)) by lia.
    - assert (umax <> N - 1) by (intros ->; apply Hne; replace u with N by (unfold u; lia); apply Z.mod_same; lia).
      pose proof (Z.div_mod (N - 1) u ltac:(lia)) as Hd. pose proof (Z.mod_pos_bound (N - 1) u ltac:(lia)) as Hm.
      exists ((N - 1) / u). split_and!; [apply Z.div_str_pos; lia|lia|done]. }
  assert (forall k, 0 <= k < u -> Z.of_nat (hits (range_of size umax) (Z.to_nat N) k) = q) as Hall.
  2:{ pose proof (Hall k ltac:(lia)). pose proof (Hall 0 ltac:(lia)). split; lia. }
  clear k Hk. intros k Hk.
  rewrite (hits_ext _ (fun x => if x <? q * u then Some (x mod u) else None)) by (intros x Hx; apply Hf; lia).
  apply (hits_mod _ u); try lia.
  - intros x Hx. by rewrite (proj2 (Z.ltb_lt _ _)) by lia.
  - intros x Hx. by rewrite (proj2 (Z.ltb_ge _ _)).
Qed.

(** ** The loops *)
Section RangeProofs.
Context {S : Type} (algo : php_random_algo S).
Implicit Types (status : php_random_status S).

(** An engine whose statuses satisfy [I] produces 64-bit numbers, and
    at least one byte unless it throws. *)
Definition productive (I : php_random_status S -> Prop) : Prop := forall status, I status ->
  exists status' r, generate algo status = Ok (status', r) /\ I status' /\ 0 <= r < 2 ^ 64
    /\ (r_exception status' = true \/ 1 <= last_generated_size status').

(** *** The raw numbers

    An output [r] of the engine, shifted past the [total] bytes that are there. *)
Definition place (size total r : Z) : Z := (r * 2 ^ (8 * total)) mod 2 ^ (8 * size).

(** [draw size total status raw status']: consecutive outputs, from [status] on, that make
    up the rest of a number of [size] bytes of which [total] are there. *)
Inductive draw (size : Z) : Z -> php_random_status S -> Z -> php_random_status S -> Prop :=
| draw_last total status r status' : generate algo status = Ok (status', r) -> r_exception status' = false ->
    size <= total + last_generated_size status' -> draw size total status (place size total r) status'
| draw_more total status r status1 raw status' : generate algo status = Ok (status1, r) -> r_exception status1 = false ->
    total + last_generated_size status1 < size -> draw size (total + last_generated_size status1) status1 raw status' ->
    draw size total status (Z.lor (place size total r) raw) status'.

(** The engine throws instead. *)
Inductive breaks (size : Z) : Z -> php_random_status S -> php_random_status S -> Prop :=
| breaks_now total status r status' : generate algo status = Ok (status', r) -> r_exception status' = true ->
    breaks size total status status'
| breaks_later total status r status1 status' : generate algo status = Ok (status1, r) -> r_exception status1 = false ->
    total + last_generated_size status1 < size -> breaks size (total + last_generated_size status1) status1 status' ->
    breaks size total status status'.

(** Consecutive raw numbers. *)
Inductive draws (size : Z) : php_random_status S -> list Z -> php_random_status S -> Prop :=
| draws_none status : draws size status [] status
| draws_cons status x status1 l status' : draw size 0 status x status1 -> draws size status1 l status' ->
    draws size status (x :: l) status'.

Lemma draws_app size status l1 status1 l2 status' : draws size status l1 status1 -> draws size status1 l2 status' ->
  draws size status (l1 ++ l2) status'.
Proof. induction 1; intros H2; [done|]. cbn [app]. econstructor; [done|]. by apply IHdraws. Qed.

Definition discarded (size umax : Z) (l : list Z) : Prop := Forall (fun x => range_of size umax x = None) l.

(** What a range function is to return: the value of the first raw number that is not
    discarded; an error after the first number and fifty attempts more; or the
    exception of the engine. *)
Definition range_outcome (size umax : Z) status status' (r : range_result) : Prop :=
  match r with
  | RNumber n => exists l raw, draws size status (l ++ [raw]) status' /\ discarded size umax l /\ zlen l <= 50
      /\ range_of size umax raw = Some n
  | RBrokenEngine => exists l, draws size status l status' /\ discarded size umax l /\ zlen l = 51
  | REngineException => r_exception status' = true
      /\ exists l status1, draws size status l status1 /\ discarded size umax l /\ zlen l <= 50 /\ breaks size 0 status1 status'
  end.

Context (I : php_random_status S -> Prop) (Hprod : productive I).

Lemma place_code size total r : 0 <= total ->
  Z.shiftl (r mod 2 ^ (8 * size)) (total * 8) mod 2 ^ (8 * size) = place size total r.
Proof. intros Ht. unfold place. rewrite Z.shiftl_mul_pow2, Zmult_mod_idemp_l by lia. by rewrite (Z.mul_comm total). Qed.

Lemma collect_ok size fuel : 0 < size -> forall status result total, I status -> 0 <= total < size -> 0 <= result < 2 ^ (8 * size) ->
  size - total <= Z.of_nat fuel ->
  exists status' o, collect algo fuel size status result total = Ok (status', o)
    /\ I status' /\ match o with
       | Some n => 0 <= n < 2 ^ (8 * size) /\ exists raw, n = Z.lor result raw /\ draw size total status raw status'
       | None => r_exception status' = true /\ breaks size total status status'
       end.
Proof.
  intros Hs. induction fuel as [|fuel IH]; intros status result total Hi Ht Hr Hf; [lia|]. cbn [collect].
  destruct (Hprod status Hi) as (st & r & Hg & Hi' & Hr0 & Hex). rewrite Hg, bind_ok.
  assert (0 < 2 ^ (8 * size)) as Hpos by (apply Z.pow_pos_nonneg; lia). rewrite place_code by lia.
  assert (0 <= place size total r < 2 ^ (8 * size)) as Hmod by (apply Z.mod_pos_bound; lia).
  destruct (r_exception st) eqn:He; [exists st, None; split_and!; try done; by eapply breaks_now|]. destruct Hex as [|Hsz]; [done|].
  assert (Hlor : 0 <= Z.lor result (place size total r) < 2 ^ (8 * size)) by (apply lor_bound; [lia|done|done]).
  destruct (Z.ltb_spec (total + last_generated_size st) size).
  - destruct (IH st (Z.lor result (place size total r)) (total + last_generated_size st)) as (st' & o & Ho & Hi2 & Hx); [done|lia|done|lia|].
    exists st', o. split; [done|]. split; [done|]. destruct o as [n|].
    + destruct Hx as (Hn & raw & -> & Hd). split; [done|]. exists (Z.lor (place size total r) raw).
      split; [by rewrite Z.lor_assoc|by eapply draw_more].
    + destruct Hx. split; [done|by eapply breaks_later].
  - eexists _, (Some _). split; [done|]. split; [done|]. split; [done|]. exists (place size total r). split; [done|].
    apply draw_last; done || lia.
Qed.

Lemma draw_first size status : 0 < size -> I status ->
  exists status' o, collect algo (Z.to_nat size) size status 0 0 = Ok (status', o)
    /\ I status' /\ match o with
       | Some n => 0 <= n < 2 ^ (8 * size) /\ draw size 0 status n status'
       | None => r_exception status' = true /\ breaks size 0 status status'
       end.
Proof.
  intros Hs Hi. destruct (collect_ok size (Z.to_nat size) Hs status 0 0 Hi) as (st & o & Ho & Hi' & Hx); [lia|lia|lia|].
  exists st, o. split; [done|]. split; [done|]. destruct o; [|done]. destruct Hx as (Hn & raw & -> & Hd). by rewrite Z.lor_0_l in *.
Qed.

(** The loop, after the raw numbers [l ++ [result]]. *)
Lemma discard_ok size umax limit fuel status0 : 0 < size ->
  (forall x, 0 <= x < 2 ^ (8 * size) -> range_of size umax x = if limit <? x then None else Some (x mod (umax + 1))) ->
  forall status result l, I status -> 0 <= result < 2 ^ (8 * size) -> draws size status0 (l ++ [result]) status ->
  discarded size umax l -> zlen l <= 50 -> 50 - zlen l < Z.of_nat fuel ->
  exists status' r, discard algo fuel size limit status result (zlen l) = Ok (status', r)
    /\ I status' /\ range_outcome size umax status0 status' (match r with RNumber n => RNumber (n mod (umax + 1)) | e => e end).
Proof.
  intros Hs Hlim. induction fuel as [|fuel IH]; intros status result l Hi Hr Hd Hl Hc Hf; [lia|]. cbn [discard].
  pose proof (Hlim result Hr) as Hres. destruct (Z.ltb_spec limit result).
  2:{ exists status, (RNumber result). split_and!; try done. by exists l, result. }
  assert (Hl' : discarded size umax (l ++ [result])) by (apply Forall_app; split; [done|by constructor]).
  assert (Hz : zlen (l ++ [result]) = zlen l + 1) by (rewrite zlen_app; done). unfold RANDOM_RANGE_ATTEMPTS.
  destruct (Z.ltb_spec 50 (zlen l + 1)).
  { exists status, RBrokenEngine. split_and!; try done. exists (l ++ [result]). split_and!; try done. lia. }
  destruct (draw_first size status Hs Hi) as (st & o & -> & Hi' & Ho). rewrite bind_ok. destruct o as [n|].
  - destruct Ho as [Hn Hdn]. rewrite <- Hz. apply IH; try done; try lia. eapply draws_app; [exact Hd|]. econstructor; [exact Hdn|constructor].
  - exists st, REngineException. split; [done|]. split; [done|]. split; [apply Ho|]. exists (l ++ [result]), status.
    split; [done|]. split; [done|]. split; [lia|apply Ho].
Qed.

Lemma rand_range_ok size status umax : I status -> 0 < size -> 0 <= umax < 2 ^ (8 * size) ->
  exists status' r, rand_range algo size status umax = Ok (status', r) /\ I status' /\ range_outcome size umax status status' r.
Proof.
  intros Hi Hs Hu. unfold rand_range. destruct (draw_first size status Hs Hi) as (st & o & -> & Hi' & Ho).
  rewrite bind_ok. destruct o as [raw|].
  2:{ exists st, REngineException. destruct Ho as [He Hb]. split; [done|]. split; [done|]. split; [done|]. exists [], status.
    split; [constructor|]. split; [constructor|]. by split. }
  destruct Ho as [Hraw Hd]. assert (Hone : draws size status ([] ++ [raw]) st) by (econstructor; [exact Hd|constructor]).
  assert (Hdone : forall n, range_of size umax raw = Some n -> range_outcome size umax status st (RNumber n)).
  { intros n Hn. exists [], raw. split_and!; try done. constructor. }
  destruct (Z.eqb_spec umax (2 ^ (8 * size) - 1)) as [Heq|Hne].
  { exists st, (RNumber raw). split_and!; try done. by apply Hdone, range_of_all. }
  destruct (Z.eqb_spec (Z.land (umax + 1) (umax + 1 - 1)) 0) as [Hp|Hp].
  { eexists st, (RNumber _). split_and!; try done. by apply Hdone, range_of_pow2. }
  set (limit := _ - _ - 1).
  destruct (discard_ok size umax limit (Z.to_nat (RANDOM_RANGE_ATTEMPTS + 2)) status Hs) with (status := st) (result := raw) (l := @nil Z)
    as (st' & r & Hr & Hi2 & Hout); try done.
  { intros x Hx. by apply range_of_limit; [..|lia|]. }
  { constructor. }
  change (zlen (@nil Z)) with 0 in Hr. rewrite Hr, bind_ok. destruct r; by eexists _, _.
Qed.
End RangeProofs.

Lemma u64_diff min max : ZEND_LONG_MIN <= min -> min <= max -> max <= ZEND_LONG_MAX -> u64 (u64 max - u64 min) = max - min.
Proof.
  unfold ZEND_LONG_MIN, ZEND_LONG_MAX, u64. intros H1 H2 H3. rewrite <- Zminus_mod. apply Z.mod_small. lia.
Qed.

Lemma i64_of_u64 x : ZEND_LONG_MIN <= x <= ZEND_LONG_MAX -> i64 (u64 x) = x.
Proof.
  unfold ZEND_LONG_MIN, ZEND_LONG_MAX, i64, sint, u64. intros H. rewrite Zmod_mod. change (2 ^ (64 - 1)) with (2 ^ 63).
  destruct (Z.ltb_spec (x mod 2 ^ 64) (2 ^ 63)); Z.div_mod_to_equations; lia.
Qed.

(** The size of the raw numbers for a range. *)
Definition raw_size (umax : Z) : Z := if UINT32_MAX <? umax then 8 else 4.

Lemma raw_size_ok umax : 0 <= umax < 2 ^ 64 -> 0 < raw_size umax /\ 0 <= umax < 2 ^ (8 * raw_size umax).
Proof.
  intros Hu. unfold raw_size, UINT32_MAX. destruct (Z.ltb_spec (2 ^ 32 - 1) umax); [by split|]. split; [done|].
  change (8 * 4) with 32. lia.
Qed.

(** [php_random_range] adds [min]. *)
Definition shifted_by (min : Z) (r : range_result) : range_result := match r with RNumber n => RNumber (n - min) | e => e end.

Lemma random_range_run {S} (algo : php_random_algo S) status min max :
  ZEND_LONG_MIN <= min -> min <= max -> max <= ZEND_LONG_MAX ->
  php_random_range algo status min max =
  ('(status, r) ← rand_range algo (raw_size (max - min)) status (max - min);
   Ok (status, match r with RNumber n => RNumber (i64 (u64 (n + u64 min))) | e => e end)).
Proof.
  intros H1 H2 H3. unfold php_random_range, raw_size, rand_range64, rand_range32. rewrite u64_diff by done.
  destruct (_ <? _); destruct (rand_range _ _ _ _) as [[st [n| |]]| |]; done.
Qed.

Lemma shift_back n min max : ZEND_LONG_MIN <= min -> max <= ZEND_LONG_MAX -> 0 <= n <= max - min ->
  i64 (u64 (n + u64 min)) = n + min.
Proof.
  intros H1 H2 Hn. assert (u64 (n + u64 min) = u64 (n + min)) as -> by (unfold u64; by rewrite Zplus_mod_idemp_r).
  apply i64_of_u64. unfold ZEND_LONG_MIN, ZEND_LONG_MAX in *. lia.
Qed.

Lemma random_range_ok {S} (algo : php_random_algo S) I status min max : productive algo I -> I status ->
  ZEND_LONG_MIN <= min -> min <= max -> max <= ZEND_LONG_MAX ->
  exists status' r, php_random_range algo status min max = Ok (status', r)
    /\ I status' /\ range_outcome algo (raw_size (max - min)) (max - min) status status' (shifted_by min r)
    /\ match r with
       | RNumber n => min <= n <= max
       | REngineException => r_exception status' = true
       | RBrokenEngine => True
       end.
Proof.
  intros Hp Hi H1 H2 H3. rewrite random_range_run by done.
  destruct (raw_size_ok (max - min)) as [Hs Hb]; [unfold ZEND_LONG_MIN, ZEND_LONG_MAX in *; lia|].
  destruct (rand_range_ok algo I Hp (raw_size (max - min)) status (max - min) Hi Hs Hb) as (st & r & -> & Hi' & Hr). rewrite bind_ok.
  eexists _, _. split; [done|]. split; [done|]. destruct r as [n| |]; [|split; [done|apply Hr]|done].
  assert (Hn : 0 <= n <= max - min) by (destruct Hr as (l & raw & _ & _ & _ & Hn); eapply range_of_bounds; [|exact Hn]; lia).
  rewrite (shift_back n min max) by done. split; [|lia]. cbn. by replace (n + min - min) with n by lia.
Qed.

(** ** Counting outputs

    An engine that reads its outputs, numbers of [size] bytes, from a list, and throws at
    the end of it. *)
Definition replay (size : Z) : php_random_algo (list Z) :=
  mkAlgo size (fun s _ => Ok s)
    (fun st => match r_state st with
               | [] => Ok (mkStatus size [] true, 0)
               | x :: l => Ok (mkStatus size l (r_exception st), x)
               end).
Definition reading (size : Z) (xs : list Z) : php_random_status (list Z) := mkStatus size xs false.

(** All sequences of [m] outputs below [N]. *)
Fixpoint sequences (N : Z) (m : nat) : list (list Z) :=
  match m with
  | O => [[]]
  | Datatypes.S m => seqZ 0 N ≫= fun x => cons x <$> sequences N m
  end.

Definition number {S} (r : res (php_random_status S * range_result)) : option Z :=
  match r with Ok (_, RNumber n) => Some n | _ => None end.

(** How many sequences of [m] outputs make [run] return [n]. *)
Definition ways (size : Z) (run : php_random_status (list Z) -> res (php_random_status (list Z) * range_result)) (m : nat) (n : Z) : nat :=
  length (filter (fun xs => number (run (reading size xs)) = Some n) (sequences (2 ^ (8 * size)) m)).

(** The value of the first of at most [j] numbers that has one. *)
Fixpoint first_of (f : Z -> option Z) (j : nat) (xs : list Z) : option Z :=
  match j, xs with
  | Datatypes.S j, x :: xs => match f x with Some n => Some n | None => first_of f j xs end
  | _, _ => None
  end.

Section Counting.
Context (f : Z -> option Z) (N : Z).

Definition wins (j m : nat) (k : Z) : nat := length (filter (fun xs => first_of f j xs = Some k) (sequences N m)).

Lemma sequences_pos m : 0 < N -> (0 < length (sequences N m))%nat.
Proof.
  intros HN. induction m as [|m IH]; [cbn; lia|]. cbn [sequences]. rewrite seqZ_cons by done. cbn [mbind list_bind].
  rewrite length_app, length_fmap. lia.
Qed.

Lemma filter_cons_fmap (P : list Z -> Prop) `{!forall l, Decision (P l)} x (l : list (list Z)) :
  length (filter P (cons x <$> l)) = length (filter (fun xs => P (x :: xs)) l).
Proof.
  induction l as [|xs l IH]; [done|]. rewrite fmap_cons, !filter_cons. destruct (decide (P (x :: xs))); cbn [length]; by rewrite IH.
Qed.

Lemma wins_succ j m k : wins (Datatypes.S j) (Datatypes.S m) k =
  (length (filter (fun x => f x = Some k) (seqZ 0 N)) * length (sequences N m)
   + length (filter (fun x => f x = None) (seqZ 0 N)) * wins j m k)%nat.
Proof.
  unfold wins. cbn [sequences]. generalize (seqZ 0 N). intros l. induction l as [|x l IH]; [done|]. cbn [mbind list_bind].
  rewrite filter_app, length_app, IH, filter_cons_fmap, !filter_cons. cbn [first_of]. destruct (f x) as [n|].
  - rewrite (decide_False (P := Some n = None)) by done. destruct (decide (Some n = Some k)) as [E|E].
    + cbn [length]. assert (H : filter (fun _ : list Z => Some n = Some k) (sequences N m) = sequences N m).
      { rewrite E. clear. induction (sequences N m) as [|y s IH]; [done|]. rewrite filter_cons, decide_True by done. by rewrite IH. }
      rewrite H. lia.
    + assert (H : filter (fun _ : list Z => Some n = Some k) (sequences N m) = []).
      { clear -E. induction (sequences N m) as [|y s IH]; [done|]. rewrite filter_cons, decide_False by done. done. }
      rewrite H. cbn [length]. lia.
  - rewrite decide_False, decide_True by done. cbn [length]. lia.
Qed.

Lemma wins_none j m k : j = O \/ m = O -> wins j m k = O.
Proof.
  intros Hjm. unfold wins. assert (H : filter (fun xs => first_of f j xs = Some k) (sequences N m) = []); [|by rewrite H].
  destruct Hjm as [-> | ->].
  - induction (sequences N m) as [|xs s IH]; [done|]. rewrite filter_cons, decide_False by done. done.
  - cbn [sequences]. rewrite filter_cons, decide_False; [done|by destruct j].
Qed.

(** Values with equally many numbers win equally often. *)
Lemma wins_fair k k' : hits f (Z.to_nat N) k = hits f (Z.to_nat N) k' -> 0 < N -> forall j m, wins j m k = wins j m k'.
Proof.
  unfold hits. intros Hh HN. rewrite Z2Nat.id in Hh by lia. induction j as [|j IH]; intros m; [by rewrite !wins_none by (by left)|].
  destruct m as [|m]; [by rewrite !wins_none by (by right)|]. by rewrite !wins_succ, Hh, (IH m).
Qed.

Lemma wins_pos k j m : (0 < hits f (Z.to_nat N) k)%nat -> 0 < N -> (0 < wins (Datatypes.S j) (Datatypes.S m) k)%nat.
Proof.
  unfold hits. intros Hh HN. rewrite Z2Nat.id in Hh by lia. rewrite wins_succ. pose proof (sequences_pos m HN). nia.
Qed.
End Counting.

Lemma elem_of_sequences N m : forall xs, xs ∈ sequences N m -> Forall (fun x => 0 <= x < N) xs.
Proof.
  induction m as [|m IH]; intros xs; cbn [sequences]; [by intros ->%list_elem_of_singleton|].
  intros (x & (ys & -> & Hys)%list_elem_of_fmap & Hx)%list_elem_of_bind. apply elem_of_seqZ in Hx. constructor; [lia|by apply IH].
Qed.

Section ReplayRange.
Context (size umax : Z) (Hs : 0 < size) (Hu : 0 <= umax < 2 ^ (8 * size)).
Let N := 2 ^ (8 * size).

Lemma replay_collect x xs : 0 <= x < N ->
  collect (replay size) (Z.to_nat size) size (reading size (x :: xs)) 0 0 = Ok (reading size xs, Some x).
Proof.
  intros Hx. destruct (Z.to_nat size) as [|n] eqn:En; [lia|]. cbn [collect replay generate reading r_state last_generated_size r_exception].
  rewrite bind_ok. cbn [last_generated_size r_exception]. rewrite Z.add_0_l, Z.ltb_irrefl, Z.mul_0_l, Z.shiftl_0_r, Z.lor_0_l.
  fold N. by rewrite !(Z.mod_small x N).
Qed.

Lemma replay_end : collect (replay size) (Z.to_nat size) size (reading size []) 0 0 = Ok (mkStatus size [] true, None).
Proof. destruct (Z.to_nat size) eqn:En; [lia|]. done. Qed.

Lemma replay_discard limit fuel : (forall x, 0 <= x < N -> range_of size umax x = if limit <? x then None else Some (x mod (umax + 1))) ->
  forall xs result count, Forall (fun x => 0 <= x < N) (result :: xs) -> 0 <= count <= 50 -> 50 - count < Z.of_nat fuel ->
  number ('(st, r) ← discard (replay size) fuel size limit (reading size xs) result count;
          match r with RNumber n => Ok (st, RNumber (n mod (umax + 1))) | e => Ok (st, e) end)
  = first_of (range_of size umax) (Z.to_nat (51 - count)) (result :: xs).
Proof.
  intros Hlim. induction fuel as [|fuel IH]; intros xs result count Hx Hc Hf; [lia|]. apply Forall_cons in Hx as [Hr Hx].
  cbn [discard]. replace (Z.to_nat (51 - count)) with (Datatypes.S (Z.to_nat (51 - (count + 1)))) by lia. cbn [first_of]. rewrite (Hlim result Hr).
  destruct (limit <? result); [|done]. unfold RANDOM_RANGE_ATTEMPTS. destruct (Z.ltb_spec 50 (count + 1)).
  - replace (Z.to_nat (51 - (count + 1))) with O by lia. done.
  - destruct xs as [|x xs].
    + rewrite replay_end. by destruct (Z.to_nat _).
    + pose proof (proj1 (proj1 (Forall_cons _ _ _) Hx)). rewrite replay_collect, bind_ok by done. apply IH; [done|lia|lia].
Qed.

Lemma replay_rand_range xs : Forall (fun x => 0 <= x < N) xs ->
  number (rand_range (replay size) size (reading size xs) umax) = first_of (range_of size umax) 51 xs.
Proof.
  intros Hx. unfold rand_range. destruct xs as [|x xs]; [by rewrite replay_end|].
  pose proof (proj1 (proj1 (Forall_cons _ _ _) Hx)) as Hx0. rewrite replay_collect, bind_ok by done.
  assert (Hone : forall n, range_of size umax x = Some n -> first_of (range_of size umax) 51 (x :: xs) = Some n).
  { intros n Hn. cbn [first_of]. by rewrite Hn. }
  destruct (Z.eqb_spec umax (2 ^ (8 * size) - 1)) as [Heq|Hne]; [symmetry; by apply Hone, range_of_all|].
  destruct (Z.eqb_spec (Z.land (umax + 1) (umax + 1 - 1)) 0) as [Hp|Hp]; [symmetry; by apply Hone, range_of_pow2|].
  apply (replay_discard _ (Z.to_nat (RANDOM_RANGE_ATTEMPTS + 2))); try done.
  intros y Hy. by apply range_of_limit; [..|lia|].
Qed.

Lemma ways_wins m k : ways size (fun st => rand_range (replay size) size st umax) m k = wins (range_of size umax) N 51 m k.
Proof.
  unfold ways, wins. f_equal. apply filter_iff_in. intros xs Hxs. by rewrite replay_rand_range by (by eapply elem_of_sequences).
Qed.

Lemma ways_fair m k : 0 <= k <= umax ->
  ways size (fun st => rand_range (replay size) size st umax) m k = ways size (fun st => rand_range (replay size) size st umax) m 0
  /\ ((0 < m)%nat -> (0 < ways size (fun st => rand_range (replay size) size st umax) m k)%nat).
Proof.
  intros Hk. rewrite !ways_wins. destruct (hits_range size umax k Hs Hu Hk) as [H1 H2].
  assert (0 < N) by (apply Z.pow_pos_nonneg; lia). split; [by apply wins_fair|].
  intros Hm. destruct m; [lia|]. by apply wins_pos.
Qed.
End ReplayRange.

(** C20: The range functions are not biased. Of all sequences of [m] outputs, numbers of four
    or eight bytes, that an engine can produce, for any [m], as many make rand_range32 and rand_range64 return one value
    between 0 and [umax] as any other, the discarding of outputs and the limit of fifty
    attempts included; likewise php_random_range and the values from [min] to [max]. *)
Theorem rand_range_unbiased m :
  (forall umax k, 0 <= umax <= UINT32_MAX -> 0 <= k <= umax ->
     let run st := rand_range32 (replay 4) st umax in
     ways 4 run m k = ways 4 run m 0 /\ ((0 < m)%nat -> (0 < ways 4 run m k)%nat))
  /\ (forall umax k, 0 <= umax <= UINT64_MAX -> 0 <= k <= umax ->
     let run st := rand_range64 (replay 8) st umax in
     ways 8 run m k = ways 8 run m 0 /\ ((0 < m)%nat -> (0 < ways 8 run m k)%nat))
  /\ (forall min max n, ZEND_LONG_MIN <= min -> min <= n <= max -> max <= ZEND_LONG_MAX ->
     let size := if UINT32_MAX <? max - min then 8 else 4 in
     let run st := php_random_range (replay size) st min max in
     ways size run m n = ways size run m min /\ ((0 < m)%nat -> (0 < ways size run m n)%nat)).
Proof.
  split_and!.
  - intros umax k Hu Hk. apply (ways_fair 4 umax ltac:(done)); [unfold UINT32_MAX in Hu; change (8 * 4) with 32; lia|done].
  - intros umax k Hu Hk. apply (ways_fair 8 umax ltac:(done)); [unfold UINT64_MAX in Hu; change (8 * 8) with 64; lia|done].
  - intros min max n H1 H2 H3. destruct (raw_size_ok (max - min)) as [Hs Hb]; [unfold ZEND_LONG_MIN, ZEND_LONG_MAX in *; lia|].
    fold (raw_size (max - min)). set (size := raw_size (max - min)) in *. intros size0 run. unfold size0 in *. clear size0.
    assert (Hrun : forall k, min <= k <= max -> ways size run m k = ways size (fun st => rand_range (replay size) size st (max - min)) m (k - min)).
    { intros k Hk. unfold ways. f_equal. apply filter_iff_in. intros xs Hxs. unfold run. rewrite random_range_run by lia. fold size.
      assert (Hn : forall r, number (rand_range (replay size) size (reading size xs) (max - min)) = Some r -> 0 <= r <= max - min).
      { intros r. rewrite (replay_rand_range size (max - min) Hs Hb) by (by eapply elem_of_sequences). generalize 51%nat. revert xs Hxs. intros xs _ j.
        revert xs. induction j as [|j IH]; intros [|x xs]; try done. cbn [first_of]. destruct (range_of _ _ x) eqn:Ex; [|apply IH].
        intros [= <-]. eapply range_of_bounds; [|exact Ex]. lia. }
      destruct (rand_range _ _ _ _) as [[st [r| |]]| |]; try done. cbn [number mbind res_bind] in *. specialize (Hn r eq_refl).
      rewrite (shift_back r min max) by done. split; intros [= E]; f_equal; lia. }
    rewrite !Hrun, Z.sub_diag by lia. apply (ways_fair size (max - min) Hs Hb m (n - min)). lia.
Qed.

(** C21: php_random_range returns whatever the engine does, and what it returns is determined
    by the numbers that the engine's outputs make up, in order, from the given state on:
    the value that [range_of] assigns to the first of them that is not discarded, plus
    [min], which lies between [min] and [max], both included; the error about a broken
    engine exactly when the first 51 are all discarded; or the exception of the engine,
    when it throws before. The state afterwards is the one after these outputs. No
    overflow occurs, even for the full range of integers. *)
Theorem php_random_range_correct {S} (algo : php_random_algo S) I status min max : productive algo I -> I status ->
  ZEND_LONG_MIN <= min -> min <= max -> max <= ZEND_LONG_MAX ->
  exists status' r, php_random_range algo status min max = Ok (status', r) /\ I status'
    /\ let size := if UINT32_MAX <? max - min then 8 else 4 in
       match r with
       | RNumber n => min <= n <= max
           /\ exists l raw, draws algo size status (l ++ [raw]) status' /\ discarded size (max - min) l /\ zlen l <= 50
                /\ range_of size (max - min) raw = Some (n - min)
       | RBrokenEngine => exists l, draws algo size status l status' /\ discarded size (max - min) l /\ zlen l = 51
       | REngineException => r_exception status' = true
           /\ exists l status1, draws algo size status l status1 /\ discarded size (max - min) l /\ zlen l <= 50
                /\ breaks algo size 0 status1 status'
       end.
Proof.
  intros Hp Hi H1 H2 H3. destruct (random_range_ok algo I status min max Hp Hi H1 H2 H3) as (st & r & Hr & Hi' & Ho & Hb).
  exists st, r. split; [done|]. split; [done|]. by destruct r.
Qed.

Lemma rand_range_unbiased_witness :
  ways 4 (fun st => rand_range32 (replay 4) st 5) 60 3 = ways 4 (fun st => rand_range32 (replay 4) st 5) 60 0
  /\ (0 < ways 4 (fun st => rand_range32 (replay 4) st 5) 60 3)%nat
  /\ ways 4 (fun st => php_random_range (replay 4) st (-10) 10) 60 7 = ways 4 (fun st => php_random_range (replay 4) st (-10) 10) 60 (-10).
Proof.
  destruct (rand_range_unbiased 60) as (H1 & _ & H3). destruct (H1 5 3) as [H4 H5]; [unfold UINT32_MAX; lia|lia|].
  split; [exact H4|]. split; [apply H5; lia|]. apply (H3 (-10) 10 7); unfold ZEND_LONG_MIN, ZEND_LONG_MAX; lia.
Defined.

(** The largest output is discarded for a range of six values. *)
Example rand_range_runs :
  number (rand_range32 (replay 4) (reading 4 [2 ^ 32 - 1; 9]) 5) = Some 3
  /\ number (php_random_range (replay 4) (reading 4 [2 ^ 32 - 1; 9]) 1 6) = Some 4
  /\ number (rand_range32 (replay 4) (reading 4 (replicate 51 (2 ^ 32 - 1) ++ [9])) 5) = None.
Proof. vm_compute. done. Qed.

(** ** The combined generator (engine_combinedlcg.c) *)

Definition in_int32 (x : Z) : bool := (- 2 ^ 31 <=? x) && (x <? 2 ^ 31).

(** [MODMULT(a, b, c, m, s)]; the arithmetic is that of [int], where overflow is
    undefined, except the final sum, where [m] is a [long]. *)
Definition MODMULT (a b c m s : Z) : res Z :=
  let q := Z.quot s a in
  _ ← assert_ (in_int32 (a * q));
  _ ← assert_ (in_int32 (s - a * q));
  _ ← assert_ (in_int32 (b * (s - a * q)));
  _ ← assert_ (in_int32 (c * q));
  _ ← assert_ (in_int32 (b * (s - a * q) - c * q));
  let s := b * (s - a * q) - c * q in
  Ok (if s <? 0 then i32 (s + m) else s).

Definition combinedlcg := (Z * Z)%type.

Definition combinedlcg_seed (seed : Z) : combinedlcg := (i32 (Z.land seed 0xffffffff), i32 (Z.shiftr seed 32)).

Definition combinedlcg_generate (s : combinedlcg) : res (combinedlcg * Z) :=
  s0 ← MODMULT 53668 40014 12211 2147483563 s.1;
  s1 ← MODMULT 52774 40692 3791 2147483399 s.2;
  _ ← assert_ (in_int32 (s0 - s1));
  let z := s0 - s1 in
  z ← (if z <? 1 then _ ← assert_ (in_int32 (z + 2147483562)); Ok (z + 2147483562) else Ok z);
  Ok ((s0, s1), u64 z).

Definition combinedlcg_status_generate (st : php_random_status combinedlcg) : res (php_random_status combinedlcg * Z) :=
  '(s, z) ← combinedlcg_generate (r_state st); Ok (mkStatus (last_generated_size st) s (r_exception st), z).
Definition php_random_algo_combinedlcg : php_random_algo combinedlcg :=
  mkAlgo 4 (fun _ s => Ok (combinedlcg_seed s)) combinedlcg_status_generate.

(** ** Schrage's method *)

Lemma in_int32_true x : - 2 ^ 31 <= x < 2 ^ 31 -> assert_ (in_int32 x) = Ok tt.
Proof. intros H. unfold in_int32. by rewrite (proj2 (Z.leb_le _ _)), (proj2 (Z.ltb_lt _ _)) by lia. Qed.

(** With [m = a * b + c] and both parts of the difference in range, the macro is a
    product modulo [m]. *)
Lemma MODMULT_ok a b c m s : - 2 ^ 31 <= s < 2 ^ 31 -> 0 < a -> 0 < b -> 0 < c -> m = a * b + c -> m < 2 ^ 31 ->
  c * (2 ^ 31 / a) < m -> MODMULT a b c m s = Ok (b * s mod m).
Proof.
  intros Hs Ha Hb Hc Hm Hm2 Hcq. unfold MODMULT. pose proof (Z.quot_rem' s a) as Hqr. set (q := Z.quot s a) in *. set (r := Z.rem s a) in *.
  assert (- a < r < a) as Hr by (pose proof (Z.rem_bound_abs s a ltac:(lia)); unfold r; lia).
  assert (Z.abs q <= 2 ^ 31 / a) as Hq.
  { unfold q. rewrite <- Z.quot_abs by lia. rewrite Z.quot_div_nonneg, (Z.abs_eq a) by lia. apply Z.div_le_mono; lia. }
  assert (0 <= r * q) as Hsg.
  { unfold q, r. destruct (Z.le_ge_cases 0 s).
    - pose proof (Z.rem_nonneg s a). pose proof (Z.quot_pos s a). nia.
    - pose proof (Z.rem_nonpos s a). pose proof (Z.quot_opp_l s a). pose proof (Z.quot_pos (- s) a). nia. }
  replace (s - a * q) with r by lia.
  assert (- m < b * r < m /\ - m < c * q < m) as [B1 B2] by (split; nia).
  assert (- m < b * r - c * q < m) as B3.
  { destruct (Z.le_gt_cases 0 r) as [|]; destruct (Z.le_gt_cases 0 q); nia. }
  assert (a * q = s - r) as Eaq by lia.
  assert (- 2 ^ 31 <= a * q < 2 ^ 31) as B0 by nia.
  rewrite !in_int32_true by lia. rewrite !bind_ok. f_equal.
  assert (b * s = (b * r - c * q) + q * m) as E by (subst m; nia).
  rewrite E, Z.mod_add by lia. destruct (Z.ltb_spec (b * r - c * q) 0).
  - rewrite <- (Z.mod_add _ 1), Z.mul_1_l, Z.mod_small by lia. unfold i32, sint. change (2 ^ (32 - 1)) with (2 ^ 31).
    rewrite Z.mod_small by lia. by rewrite (proj2 (Z.ltb_lt _ _)) by lia.
  - by rewrite Z.mod_small by lia.
Qed.

Lemma combinedlcg_generate_eq s0 s1 : - 2 ^ 31 <= s0 < 2 ^ 31 -> - 2 ^ 31 <= s1 < 2 ^ 31 ->
  let t0 := 40014 * s0 mod 2147483563 in
  let t1 := 40692 * s1 mod 2147483399 in
  combinedlcg_generate (s0, s1) = Ok ((t0, t1), 1 + (t0 - t1 - 1) mod 2147483562).
Proof.
  intros H0 H1 t0 t1. unfold combinedlcg_generate. cbn [fst snd].
  rewrite (MODMULT_ok 53668 40014 12211), bind_ok by (done || lia). rewrite (MODMULT_ok 52774 40692 3791), bind_ok by (done || lia).
  fold t0 t1. assert (0 <= t0 < 2147483563) as B0 by (apply Z.mod_pos_bound; lia).
  assert (0 <= t1 < 2147483399) as B1 by (apply Z.mod_pos_bound; lia).
  clearbody t0 t1. rewrite (in_int32_true (t0 - t1)), bind_ok by lia. destruct (Z.ltb_spec (t0 - t1) 1).
  - rewrite in_int32_true, !bind_ok by lia. do 2 f_equal. rewrite u64_small by lia.
    rewrite <- (Z.mod_add _ 1), Z.mul_1_l, Z.mod_small by lia. lia.
  - rewrite bind_ok. do 2 f_equal. rewrite u64_small, Z.mod_small by lia. lia.
Qed.

(** The combined generator: from any 64-bit seed on, every step multiplies the two
    states modulo their primes, without overflow, and yields their difference as a
    number from 1 to 2147483562, so that the fraction derived from it is never 0. *)
Theorem combinedlcg_correct seed n : 0 <= seed < 2 ^ 64 ->
  let step s := (40014 * s.1 mod 2147483563, 40692 * s.2 mod 2147483399) in
  exists s' z, combinedlcg_generate (Nat.iter n step (combinedlcg_seed seed)) = Ok (s', z)
    /\ s' = Nat.iter (S n) step (combinedlcg_seed seed) /\ 1 <= z <= 2147483562
    /\ (z - (s'.1 - s'.2)) mod 2147483562 = 0.
Proof.
  intros Hs step.
  assert (forall n, let s := Nat.iter n step (combinedlcg_seed seed) in
    - 2 ^ 31 <= s.1 < 2 ^ 31 /\ - 2 ^ 31 <= s.2 < 2 ^ 31) as Hr.
  { assert (forall x, - 2 ^ 31 <= i32 x < 2 ^ 31) as Hi.
    { intros x. unfold i32, sint. change (2 ^ (32 - 1)) with (2 ^ 31). pose proof (Z.mod_pos_bound x (2 ^ 32)). zcase; lia. }
    intros [|k]; cbn zeta; [split; apply Hi|]. rewrite Nat.iter_succ. cbn [step fst snd].
    split; match goal with |- _ <= ?x mod ?m < _ => pose proof (Z.mod_pos_bound x m) end; lia. }
  destruct (Hr n) as [H0 H1]. rewrite Nat.iter_succ. set (s := Nat.iter n step (combinedlcg_seed seed)) in *. destruct s as [s0 s1].
  eexists _, _. split; [by apply combinedlcg_generate_eq|]. split; [done|]. cbn [fst snd].
  match goal with |- context [(?x) mod 2147483562] => pose proof (Z.mod_pos_bound x 2147483562 ltac:(lia)); pose proof (Z.div_mod x 2147483562 ltac:(lia)) end.
  split; [lia|]. match goal with |- (?x) mod _ = 0 => replace x with (- ((40014 * s0 mod 2147483563 - 40692 * s1 mod 2147483399 - 1) / 2147483562) * 2147483562) by lia end.
  apply Z_mod_mult.
Qed.

Lemma combinedlcg_correct_witness :
  exists s' z, combinedlcg_generate (combinedlcg_seed 42) = Ok (s', z)
    /\ s' = (40014 * 42 mod 2147483563, 0) /\ 1 <= z <= 2147483562 /\ (z - (s'.1 - s'.2)) mod 2147483562 = 0.
Proof. exact (combinedlcg_correct 42 0 ltac:(lia)). Defined.
