(* ===== verification/RandomMtOps.v ===== *)
(** * Mt19937 (engine_mt19937.c)

    The state is an array of 624 words that is refilled in place; seeding, reload
    and generation with every array access checked. *)

From S2P Require Import Prelude.
From S2P Require Import RandomOps.

Definition MT_N : Z := 624.
Definition MT_M : Z := 397.
Definition MT_RAND_MT19937 : Z := 0.
Definition MT_RAND_PHP : Z := 1.

Record php_random_status_state_mt19937 : Type := mkMt { mt_state : list Z; mt_count : Z; mt_mode : Z }.

Definition hiBit (u : Z) : Z := Z.land u 0x80000000.
Definition loBit (u : Z) : Z := Z.land u 0x00000001.
Definition loBits (u : Z) : Z := Z.land u 0x7FFFFFFF.
Definition mixBits (u v : Z) : Z := Z.lor (hiBit u) (loBits v).
Definition twist (m u v : Z) : Z :=
  Z.lxor (Z.lxor m (Z.shiftr (mixBits u v) 1)) (Z.land (u32 (- loBit v)) 0x9908b0df).
Definition twist_php (m u v : Z) : Z :=
  Z.lxor (Z.lxor m (Z.shiftr (mixBits u v) 1)) (Z.land (u32 (- loBit u)) 0x9908b0df).
Definition mt_twist (mode : Z) : Z -> Z -> Z -> Z := if mode =? MT_RAND_MT19937 then twist else twist_php.

(** [n] rounds of [*p = twist(p[off], p[0], p[1]); ++p]. *)
Fixpoint reload_loop (tw : Z -> Z -> Z -> Z) (off : Z) (n : nat) (st : list Z) (p : Z) : res (list Z * Z) :=
  match n with
  | O => Ok (st, p)
  | S n =>
      m ← rd st (p + off);
      u ← rd st p;
      v ← rd st (p + 1);
      st ← wr st p (tw m u v);
      reload_loop tw off n st (p + 1)
  end.

Definition mt19937_reload (state : php_random_status_state_mt19937) : res php_random_status_state_mt19937 :=
  let tw := mt_twist (mt_mode state) in
  '(st, p) ← reload_loop tw MT_M (Z.to_nat (MT_N - MT_M)) (mt_state state) 0;
  '(st, p) ← reload_loop tw (MT_M - MT_N) (Z.to_nat (MT_M - 1)) st p;
  m ← rd st (p + (MT_M - MT_N));
  u ← rd st p;
  v ← rd st 0;
  st ← wr st p (tw m u v);
  Ok (mkMt st 0 (mt_mode state)).

(** [for (i = 1; i < MT_N; i++)] *)
Fixpoint seed_loop (n : nat) (st : list Z) (i : Z) : res (list Z * Z) :=
  match n with
  | O => Ok (st, i)
  | S n =>
      prev_state ← rd st (i - 1);
      st ← wr st i (Z.land (u32 (u32 (1812433253 * Z.lxor prev_state (Z.shiftr prev_state 30)) + i)) 0xffffffff);
      seed_loop n st (i + 1)
  end.

Definition mt19937_seed_state (state : php_random_status_state_mt19937) (seed : Z)
  : res php_random_status_state_mt19937 :=
  st ← wr (mt_state state) 0 (Z.land seed 0xffffffff);
  '(st, i) ← seed_loop (Z.to_nat (MT_N - 1)) st 1;
  mt19937_reload (mkMt st i (mt_mode state)).

Definition temper (s1 : Z) : Z :=
  let s1 := Z.lxor s1 (Z.shiftr s1 11) in
  let s1 := Z.lxor s1 (Z.land (u32 (Z.shiftl s1 7)) 0x9d2c5680) in
  let s1 := Z.lxor s1 (Z.land (u32 (Z.shiftl s1 15)) 0xefc60000) in
  Z.lxor s1 (Z.shiftr s1 18).

Definition mt19937_generate (s : php_random_status_state_mt19937) : res (php_random_status_state_mt19937 * Z) :=
  s ← (if MT_N <=? mt_count s then mt19937_reload s else Ok s);
  s1 ← rd (mt_state s) (mt_count s);
  Ok (mkMt (mt_state s) (u32 (mt_count s + 1)) (mt_mode s), temper s1).

(** The table of functions, over statuses. *)
Definition mt19937_status_generate (st : php_random_status php_random_status_state_mt19937)
  : res (php_random_status php_random_status_state_mt19937 * Z) :=
  '(s, z) ← mt19937_generate (r_state st); Ok (mkStatus (last_generated_size st) s (r_exception st), z).
Definition php_random_algo_mt19937 : php_random_algo php_random_status_state_mt19937 :=
  mkAlgo 4 mt19937_seed_state mt19937_status_generate.

(** Random\Engine\Mt19937::__construct: the mode must be one of the two. *)
Inductive construct_result (S : Type) : Type :=
| Constructed (s : S)
| ValueError
| RandomException.
Arguments Constructed {S} s.
Arguments ValueError {S}.
Arguments RandomException {S}.

(** [random] is what php_random_bytes gives, [None] on failure. *)
Definition mt19937_construct (state : php_random_status_state_mt19937) (seed : option Z) (mode : Z) (random : option Z)
  : res (construct_result php_random_status_state_mt19937) :=
  if (mode =? MT_RAND_MT19937) || (mode =? MT_RAND_PHP) then
    let state := mkMt (mt_state state) (mt_count state) mode in
    match match seed with Some seed => Some seed | None => random end with
    | None => Ok RandomException
    | Some seed => s ← mt19937_seed_state state (u64 seed); Ok (Constructed s)
    end
  else Ok ValueError.

(** The state php_random_status_alloc leaves: zeroed memory. *)
Definition mt19937_alloc : php_random_status_state_mt19937 := mkMt (replicate (Z.to_nat MT_N) 0) 0 0.

Fixpoint mt_outputs (n : nat) (s : php_random_status_state_mt19937) : res (php_random_status_state_mt19937 * list Z) :=
  match n with
  | O => Ok (s, [])
  | S n => '(s, z) ← mt19937_generate s; '(s, zs) ← mt_outputs n s; Ok (s, z :: zs)
  end.

(** The first outputs for the reference seed 5489. *)
Example mt_reference :
  (s ← mt19937_seed_state mt19937_alloc 5489; '(_, zs) ← mt_outputs 3 s; Ok zs)
  = Ok [3499211612; 581869302; 3890346734].
Proof. vm_compute. reflexivity. Qed.
