(* ===== verification/RandomMt.v ===== *)
(** * The Mersenne Twister refines its recurrence

    The reference is the sequence x(n + 624) = twist x(n + 397) x(n) x(n + 1); the
    engine, which refills its array in place every 624 numbers, produces the
    tempered words of this sequence, one after the other. *)

From S2P Require Import Prelude.
From S2P Require Import RandomOps.
From S2P Require Import RandomMtOps.

(** ** The sequence *)
Section Sequence.
Context (tw : Z -> Z -> Z -> Z).
Implicit Types (l : list Z).

Definition word l (i : Z) : Z := default 0 (zget l i).

(** The 624 words that determine all later ones, moved on by one. *)
Definition window_step l : list Z := drop 1 l ++ [tw (word l MT_M) (word l 0) (word l 1)].
Definition window l (n : nat) : list Z := Nat.iter n window_step l.

(** The n-th word of the sequence that starts with [l]. *)
Definition mt_word l (n : Z) : Z := word (window l (Z.to_nat n)) 0.

Lemma zlen_window_step l : zlen l = MT_N -> zlen (window_step l) = MT_N.
Proof. unfold window_step, MT_N, zlen. rewrite length_app, length_drop. cbn. lia. Qed.

Lemma zlen_window l n : zlen l = MT_N -> zlen (window l n) = MT_N.
Proof. intros Hl. induction n as [|n IH]; [done|]. unfold window. rewrite Nat.iter_succ. by apply zlen_window_step. Qed.

Lemma window_add l a b : window l (a + b) = window (window l a) b.
Proof.
  unfold window. induction b as [|b IH]; [by rewrite Nat.add_0_r|]. rewrite Nat.add_succ_r, !Nat.iter_succ. by rewrite IH.
Qed.

Lemma word_shift l i : zlen l = MT_N -> 0 <= i < MT_N - 1 -> word (window_step l) i = word l (i + 1).
Proof.
  unfold MT_N, word, window_step, zget, zlen. intros Hl Hi.
  rewrite (proj2 (Z.leb_le 0 i)), (proj2 (Z.leb_le 0 (i + 1))), lookup_app_l, lookup_drop by (rewrite ?length_drop; lia).
  do 2 f_equal. lia.
Qed.

Lemma word_last l : zlen l = MT_N -> word (window_step l) (MT_N - 1) = tw (word l MT_M) (word l 0) (word l 1).
Proof.
  unfold MT_N, zlen. intros Hl. unfold word at 1. unfold window_step, zget.
  rewrite (proj2 (Z.leb_le _ _)), lookup_app_r by (rewrite ?length_drop; lia). rewrite length_drop.
  replace (Z.to_nat (624 - 1) - (length l - 1))%nat with 0%nat by lia. done.
Qed.

Lemma word_window l n i : zlen l = MT_N -> 0 <= i < MT_N -> 0 <= n -> word (window l (Z.to_nat n)) i = mt_word l (n + i).
Proof.
  intros Hl Hi Hn. unfold mt_word. replace (Z.to_nat (n + i)) with (Z.to_nat n + Z.to_nat i)%nat by lia.
  rewrite window_add. pose proof (zlen_window l (Z.to_nat n) Hl) as Hw. set (w := window l _) in *. clearbody w. clear Hl Hn n.
  assert (forall (k : nat) j, 0 <= j -> j + Z.of_nat k < MT_N -> word (window w k) j = word w (j + Z.of_nat k)) as H.
  { induction k as [|k IH]; intros j Hj Hk; [by rewrite Z.add_0_r|]. unfold window. rewrite Nat.iter_succ. fold (window w k).
    rewrite word_shift by (try apply zlen_window; try done; lia). rewrite IH by lia. f_equal. lia. }
  rewrite H by lia. f_equal. lia.
Qed.

(** The recurrence. *)
Lemma mt_word_rec l n : zlen l = MT_N -> 0 <= n ->
  mt_word l (n + MT_N) = tw (mt_word l (n + MT_M)) (mt_word l n) (mt_word l (n + 1)).
Proof.
  intros Hl Hn. replace (n + MT_N) with ((n + 1) + (MT_N - 1)) by lia.
  rewrite <- word_window by (done || (unfold MT_N; lia)). replace (Z.to_nat (n + 1)) with (S (Z.to_nat n)) by lia.
  unfold window. rewrite Nat.iter_succ. fold (window l (Z.to_nat n)). rewrite word_last by (by apply zlen_window).
  rewrite !word_window by (done || (unfold MT_N, MT_M; lia)). by rewrite Z.add_0_r.
Qed.

Lemma mt_word_start l i : zlen l = MT_N -> 0 <= i < MT_N -> mt_word l i = word l i.
Proof. intros Hl Hi. rewrite <- (Z.add_0_l i) at 1. by rewrite <- word_window by (done || lia). Qed.

Lemma word_zget l i : 0 <= i < zlen l -> zget l i = Some (word l i).
Proof. intros H. unfold word. by destruct (zget_is_Some l i H) as [x ->]. Qed.

(** ** Reload *)

(** The array while it is refilled: new words below [p], old ones from [p] on. *)
Definition mixed_at l st (p : Z) : Prop :=
  zlen st = MT_N /\ forall i, 0 <= i < MT_N -> zget st i = Some (mt_word l (if i <? p then i + MT_N else i)).

Lemma mixed_at_write l st p m u v : mixed_at l st p -> 0 <= p < MT_N ->
  m = mt_word l (p + MT_M) -> u = mt_word l p -> v = mt_word l (p + 1) -> zlen l = MT_N ->
  mixed_at l (zset st p (tw m u v)) (p + 1).
Proof.
  intros [Hz Hg] Hp -> -> -> Hl. split; [by rewrite zlen_zset|]. intros i Hi. destruct (Z.eq_dec i p) as [->|Hne].
  - rewrite zget_zset_eq by lia. rewrite (proj2 (Z.ltb_lt _ _)) by lia. by rewrite mt_word_rec by (done || lia).
  - rewrite zget_zset_ne by lia. rewrite Hg by done. do 2 f_equal. destruct (Z.ltb_spec i p), (Z.ltb_spec i (p + 1)); done || lia.
Qed.

(** Where the word 397 places ahead is found. *)
Definition off_ok (off p : Z) : Prop := (off = MT_M /\ p < MT_N - MT_M) \/ (off = MT_M - MT_N /\ MT_N - MT_M <= p).

Lemma read_ahead l st p off : mixed_at l st p -> 0 <= p < MT_N -> off_ok off p -> rd st (p + off) = Ok (mt_word l (p + MT_M)).
Proof.
  unfold MT_N, MT_M. intros [_ Hg] Hp [[-> H]|[-> H]]; unfold MT_N, MT_M in *; apply rd_ok; rewrite Hg by lia.
  - by rewrite (proj2 (Z.ltb_ge _ _)) by lia.
  - rewrite (proj2 (Z.ltb_lt _ _)) by lia. do 2 f_equal. lia.
Qed.

Lemma reload_loop_ok l off n : zlen l = MT_N -> forall st p, mixed_at l st p -> 0 <= p -> p + Z.of_nat n < MT_N ->
  (forall q, p <= q < p + Z.of_nat n -> off_ok off q) ->
  exists st', reload_loop tw off n st p = Ok (st', p + Z.of_nat n) /\ mixed_at l st' (p + Z.of_nat n).
Proof.
  intros Hl. induction n as [|n IH]; intros st p Hm Hp Hn Hoff; [exists st; by rewrite Z.add_0_r|]. cbn [reload_loop].
  rewrite (read_ahead l st p off) by (done || lia || (apply Hoff; lia)). rewrite bind_ok. destruct Hm as [Hz Hg].
  rewrite (rd_ok st p (mt_word l p)) by (rewrite Hg, (proj2 (Z.ltb_ge _ _)) by lia; done).
  rewrite (rd_ok st (p + 1) (mt_word l (p + 1))) by (rewrite Hg, (proj2 (Z.ltb_ge _ _)) by lia; done).
  rewrite !bind_ok, wr_ok, bind_ok by lia.
  destruct (IH (zset st p (tw (mt_word l (p + MT_M)) (mt_word l p) (mt_word l (p + 1)))) (p + 1)) as (st' & He & Hm').
  - by apply mixed_at_write; (done || lia).
  - lia.
  - lia.
  - intros q Hq. apply Hoff. lia.
  - exists st'. rewrite He. replace (p + 1 + Z.of_nat n) with (p + Z.of_nat (S n)) in * by lia. done.
Qed.

Lemma mixed_at_full l st n : zlen l = MT_N -> n = MT_N -> mixed_at l st n -> st = window l (Z.to_nat n).
Proof.
  intros Hl Hn [Hz Hg]. pose proof (zlen_window l (Z.to_nat n) Hl) as Hw. apply list_eq_same_length with (length st); [unfold zlen in *; lia|done|].
  intros i x y Hi Hx Hy. unfold zlen in Hz. specialize (Hg (Z.of_nat i) ltac:(lia)). rewrite (proj2 (Z.ltb_lt _ _)) in Hg by lia.
  assert (forall (k : list Z), zget k (Z.of_nat i) = k !! i) as Ez by (intros; unfold zget; by rewrite (proj2 (Z.leb_le _ _)), Nat2Z.id by lia).
  rewrite Ez, Hx in Hg. pose proof (word_zget (window l (Z.to_nat n)) (Z.of_nat i) ltac:(lia)) as Hy'. rewrite Ez, Hy in Hy'.
  assert (0 <= n) as Hn0 by (rewrite Hn; unfold MT_N; lia).
  rewrite (word_window l n (Z.of_nat i) Hl ltac:(lia) Hn0) in Hy'. rewrite Z.add_comm, Hn in Hy'. congruence.
Qed.
End Sequence.

Lemma reload_ok s : zlen (mt_state s) = MT_N ->
  mt19937_reload s = Ok (mkMt (window (mt_twist (mt_mode s)) (mt_state s) (Z.to_nat MT_N)) 0 (mt_mode s)).
Proof.
  destruct s as [l c mode]. cbn [mt_state mt_mode]. intros Hl. unfold mt19937_reload. cbn [mt_state mt_mode]. set (tw := mt_twist mode).
  assert (mixed_at tw l l 0) as H0.
  { split; [done|]. intros i Hi. rewrite (proj2 (Z.ltb_ge _ _)) by lia. rewrite (mt_word_start tw) by done. apply word_zget. lia. }
  destruct (reload_loop_ok tw l MT_M (Z.to_nat (MT_N - MT_M)) Hl l 0 H0) as (st1 & -> & H1).
  1-3: unfold off_ok, MT_N, MT_M; lia.
  rewrite bind_ok. destruct (reload_loop_ok tw l (MT_M - MT_N) (Z.to_nat (MT_M - 1)) Hl st1 _ H1) as (st2 & -> & H2).
  1-3: unfold off_ok, MT_N, MT_M; lia.
  rewrite bind_ok. replace (0 + _ + _) with (MT_N - 1) in * by (unfold MT_N, MT_M; lia).
  rewrite (read_ahead tw l st2 (MT_N - 1) (MT_M - MT_N)) by (done || (unfold off_ok, MT_N, MT_M; lia)). rewrite bind_ok. pose proof H2 as [Hz2 Hg2].
  rewrite (rd_ok st2 (MT_N - 1) (mt_word tw l (MT_N - 1))) by (rewrite Hg2, (proj2 (Z.ltb_ge _ _)) by (unfold MT_N; lia); done).
  rewrite (rd_ok st2 0 (mt_word tw l MT_N)) by (rewrite Hg2, (proj2 (Z.ltb_lt _ _)) by (unfold MT_N; lia); done).
  rewrite !bind_ok, wr_ok, bind_ok by (rewrite Hz2; unfold MT_N; lia). f_equal. f_equal. apply mixed_at_full; [done|done|].
  replace MT_N with (MT_N - 1 + 1) at 2 by lia. by apply mixed_at_write.
Qed.

(** ** Words *)

Lemma lxor_bound a b n : 0 <= n -> 0 <= a < 2 ^ n -> 0 <= b < 2 ^ n -> 0 <= Z.lxor a b < 2 ^ n.
Proof.
  intros Hn Ha Hb. assert (Z.lxor a b = Z.lxor a b mod 2 ^ n) as ->; [|apply Z.mod_pos_bound; lia].
  apply Z.bits_inj'. intros i Hi. destruct (Z.lt_ge_cases i n).
  - by rewrite Z.mod_pow2_bits_low by lia.
  - rewrite Z.mod_pow2_bits_high, Z.lxor_spec by lia. rewrite <- (Z.mod_small a (2 ^ n)), <- (Z.mod_small b (2 ^ n)) by done.
    by rewrite !Z.mod_pow2_bits_high by lia.
Qed.

Lemma land_bound a b : 0 <= b -> 0 <= Z.land a b <= b.
Proof.
  intros Hb. split; [apply Z.land_nonneg; lia|]. assert (b - Z.land a b = Z.ldiff b (Z.land a b)) as He.
  { apply Z.sub_nocarry_ldiff. apply Z.bits_inj'. intros i _. rewrite Z.ldiff_spec, Z.land_spec, Z.bits_0. by destruct (Z.testbit a i), (Z.testbit b i). }
  assert (0 <= Z.ldiff b (Z.land a b)) by (apply Z.ldiff_nonneg; lia). lia.
Qed.

Lemma shiftr_bound a k n : 0 <= k -> 0 <= a < n -> 0 <= Z.shiftr a k < n.
Proof.
  intros Hk Ha. rewrite Z.shiftr_div_pow2 by done. pose proof (Z.pow_pos_nonneg 2 k ltac:(lia) Hk). split; [by apply Z.div_pos; lia|].
  apply Z.le_lt_trans with a; [|lia]. apply Z.div_le_upper_bound; nia.
Qed.

Definition is_u32 (x : Z) : Prop := 0 <= x < 2 ^ 32.

Lemma mt_twist_u32 mode m u v : is_u32 m -> is_u32 (mt_twist mode m u v).
Proof.
  intros Hm. assert (0 <= mixBits u v < 2 ^ 32) as Hb.
  { unfold mixBits, hiBit, loBits. pose proof (land_bound u 0x80000000 ltac:(lia)). pose proof (land_bound v 0x7FFFFFFF ltac:(lia)).
    split; [apply Z.lor_nonneg; lia|]. pose proof (Z.land_lor_distr_l (Z.land u 0x80000000) (Z.land v 0x7FFFFFFF) (Z.ones 32)) as Hd.
    rewrite !Z.land_ones, !(Z.mod_small (Z.land _ _)) in Hd by lia. rewrite <- Hd. apply Z.mod_pos_bound. lia. }
  unfold mt_twist, twist, twist_php, is_u32 in *.
  destruct (mode =? MT_RAND_MT19937); (apply lxor_bound; [lia| |]; [apply lxor_bound; [lia|done|by apply shiftr_bound]|]);
    match goal with |- 0 <= Z.land ?a ?b < _ => pose proof (land_bound a b) end; lia.
Qed.

Lemma temper_u32 x : is_u32 x -> is_u32 (temper x).
Proof.
  unfold temper, is_u32. intros Hx.
  assert (forall a b, 0 <= a < 2 ^ 32 -> 0 <= b < 2 ^ 32 -> 0 <= Z.lxor a b < 2 ^ 32) as HX by (intros; by apply lxor_bound).
  assert (forall a k, 0 <= a < 2 ^ 32 -> 0 <= k -> 0 <= Z.shiftr a k < 2 ^ 32) as HR by (intros; by apply shiftr_bound).
  assert (forall a b, 0 <= b < 2 ^ 32 -> 0 <= Z.land a b < 2 ^ 32) as HL by (intros a b ?; pose proof (land_bound a b); lia).
  cbn zeta. repeat (apply HX || apply HR || apply HL); done || lia.
Qed.

Lemma word_u32 l i : Forall is_u32 l -> is_u32 (word l i).
Proof.
  intros H. unfold word, zget. destruct (0 <=? i); [|by cbn]. destruct (l !! Z.to_nat i) as [x|] eqn:Hx; cbn; [|done].
  eapply Forall_forall; [done|]. by eapply list_elem_of_lookup_2.
Qed.

Lemma window_u32 mode l n : Forall is_u32 l -> Forall is_u32 (window (mt_twist mode) l n).
Proof.
  intros H. induction n as [|n IH]; [done|]. unfold window. rewrite Nat.iter_succ. fold (window (mt_twist mode) l n).
  apply Forall_app. split; [by apply Forall_drop|]. constructor; [|done]. by apply mt_twist_u32, word_u32.
Qed.

(** ** Generation *)

(** The states of an engine whose array once was [l] and that has used [k] words of
    the sequence that starts with [l]. *)
Definition at_word (mode : Z) (l : list Z) (k : Z) (s : php_random_status_state_mt19937) : Prop :=
  mt_mode s = mode /\ exists a, 0 <= a /\ mt_state s = window (mt_twist mode) l (Z.to_nat a)
    /\ 0 <= mt_count s <= MT_N /\ a + mt_count s = k.

Lemma generate_ok mode l k s : zlen l = MT_N -> at_word mode l k s ->
  exists s', mt19937_generate s = Ok (s', temper (mt_word (mt_twist mode) l k)) /\ at_word mode l (k + 1) s'.
Proof.
  intros Hl (Hm & a & Ha & Hst & Hc & Hk). unfold mt19937_generate. pose proof (zlen_window (mt_twist mode) l (Z.to_nat a) Hl) as Hz.
  assert (exists b c, (if MT_N <=? mt_count s then mt19937_reload s else Ok s) = Ok (mkMt (window (mt_twist mode) l (Z.to_nat b)) c mode)
    /\ 0 <= b /\ 0 <= c < MT_N /\ b + c = k) as (b & c & -> & Hb & Hc' & Hbc).
  { destruct (Z.leb_spec MT_N (mt_count s)).
    - exists (a + MT_N), 0. rewrite reload_ok by (by rewrite Hst). rewrite Hm, Hst, <- window_add.
      split; [|unfold MT_N in *; lia]. do 3 f_equal. unfold MT_N. lia.
    - exists a, (mt_count s). destruct s as [st c md]. cbn in *. subst. split; [done|lia]. }
  rewrite bind_ok. cbn [mt_state mt_count mt_mode].
  rewrite (rd_ok _ _ (mt_word (mt_twist mode) l k)), bind_ok.
  2:{ rewrite (word_zget), word_window; rewrite ?zlen_window; try done. by rewrite Hbc. }
  eexists. split; [done|]. split; [done|]. exists b. cbn. rewrite u32_small by (unfold MT_N in *; lia). split_and!; try done; lia.
Qed.

Lemma outputs_ok mode l n : zlen l = MT_N -> forall k s, at_word mode l k s ->
  exists s', mt_outputs n s = Ok (s', (fun i => temper (mt_word (mt_twist mode) l i)) <$> seqZ k (Z.of_nat n))
    /\ at_word mode l (k + Z.of_nat n) s'.
Proof.
  intros Hl. induction n as [|n IH]; intros k s Hs; [exists s; by rewrite Z.add_0_r|]. cbn [mt_outputs].
  destruct (generate_ok mode l k s Hl Hs) as (s1 & -> & H1). rewrite bind_ok. destruct (IH (k + 1) s1 H1) as (s2 & -> & H2).
  rewrite bind_ok. exists s2. split.
  - rewrite (seqZ_cons k) by lia. rewrite fmap_cons. replace (Z.pred (Z.of_nat (S n))) with (Z.of_nat n) by lia. done.
  - by replace (k + Z.of_nat (S n)) with (k + 1 + Z.of_nat n) by lia.
Qed.

(** ** Seeding *)

(** The initial words: each from the one before it. *)
Fixpoint seed_words (n : nat) (i x : Z) : list Z :=
  match n with
  | O => []
  | S n => x :: seed_words n (i + 1) (u32 (1812433253 * Z.lxor x (Z.shiftr x 30) + i))
  end.

Lemma land_mask32 x : Z.land x 0xffffffff = u32 x.
Proof. change 0xffffffff with (Z.ones 32). by rewrite Z.land_ones. Qed.

Lemma length_seed_words n i x : length (seed_words n i x) = n.
Proof. revert i x. induction n as [|n IH]; intros i x; cbn; auto. Qed.

Lemma seed_words_u32 n i x : is_u32 x -> Forall is_u32 (seed_words n i x).
Proof. revert i x. induction n as [|n IH]; intros i x Hx; cbn; [done|]. constructor; [done|]. apply IH, u32_range. Qed.

Lemma seed_loop_ok n : forall pre x rest i, i = zlen pre + 1 -> length rest = n ->
  seed_loop n (pre ++ x :: rest) i = Ok (pre ++ seed_words (S n) i x, i + Z.of_nat n).
Proof.
  induction n as [|n IH]; intros pre x rest i Hi Hn.
  { destruct rest; [|done]. cbn. by rewrite Z.add_0_r. }
  destruct rest as [|y rest]; [done|]. cbn [seed_loop].
  rewrite (rd_ok _ _ x), bind_ok.
  2:{ unfold zget, zlen in *. rewrite (proj2 (Z.leb_le _ _)) by lia. replace (Z.to_nat (i - 1)) with (length pre) by lia. by rewrite list_lookup_middle. }
  rewrite wr_ok, bind_ok by (rewrite zlen_app; unfold zlen in *; cbn; lia).
  rewrite land_mask32. set (x' := u32 _). assert (x' = u32 (1812433253 * Z.lxor x (Z.shiftr x 30) + i)) as Ex.
  { unfold x', u32. rewrite Zmod_mod. by rewrite Zplus_mod_idemp_l. }
  assert (zset (pre ++ x :: y :: rest) i x' = (pre ++ [x]) ++ x' :: rest) as ->.
  { unfold zset, zlen in *. replace (Z.to_nat i) with (length (pre ++ [x]) + 0)%nat by (rewrite length_app; cbn; lia).
    replace (pre ++ x :: y :: rest) with ((pre ++ [x]) ++ y :: rest) by (by rewrite <- app_assoc). by rewrite insert_app_r. }
  rewrite IH by (rewrite ?zlen_app; unfold zlen in *; cbn in *; lia). rewrite Ex, <- app_assoc.
  by replace (i + 1 + Z.of_nat n) with (i + Z.of_nat (S n)) by lia.
Qed.

Definition mt_initial (seed : Z) : list Z := seed_words (Z.to_nat MT_N) 1 (u32 seed).

Lemma seed_state_ok s seed : zlen (mt_state s) = MT_N ->
  exists s', mt19937_seed_state s seed = Ok s' /\ at_word (mt_mode s) (mt_initial seed) MT_N s'.
Proof.
  intros Hz. unfold mt19937_seed_state. rewrite wr_ok, bind_ok by (rewrite Hz; unfold MT_N; lia). rewrite land_mask32.
  destruct s as [[|y rest] c mode]; [done|]. cbn [mt_state mt_mode] in *. change (zset (y :: rest) 0 (u32 seed)) with ([] ++ u32 seed :: rest).
  unfold MT_N, zlen in Hz. cbn in Hz.
  rewrite (seed_loop_ok _ [] (u32 seed) rest 1) by (done || (unfold MT_N; lia)). rewrite bind_ok.
  change (S (Z.to_nat (MT_N - 1))) with (Z.to_nat MT_N). cbn [app]. fold (mt_initial seed).
  assert (zlen (mt_initial seed) = MT_N) as Hl by (unfold zlen, mt_initial; rewrite length_seed_words; unfold MT_N; lia).
  rewrite reload_ok by done. eexists. split; [done|]. split; [done|]. exists MT_N. cbn [mt_state mt_count mt_mode].
  split_and!; try done; unfold MT_N; lia.
Qed.

Lemma word_cons_succ x l j : 0 <= j -> word (x :: l) (j + 1) = word l j.
Proof.
  intros Hj. unfold word, zget. rewrite !(proj2 (Z.leb_le _ _)) by lia. by replace (Z.to_nat (j + 1)) with (S (Z.to_nat j)) by lia.
Qed.

Lemma seed_words_0 n i x : (0 < n)%nat -> word (seed_words n i x) 0 = x.
Proof. by destruct n; [lia|]. Qed.

Lemma seed_words_rec n : forall i x j, 0 <= j -> j + 1 < Z.of_nat n ->
  word (seed_words n i x) (j + 1)
  = u32 (1812433253 * Z.lxor (word (seed_words n i x) j) (Z.shiftr (word (seed_words n i x) j) 30) + (i + j)).
Proof.
  induction n as [|n IH]; intros i x j Hj Hn; [lia|]. destruct n as [|n]; [lia|]. cbn [seed_words] in *. rewrite word_cons_succ by lia.
  destruct (Z.eq_dec j 0) as [->|Hne]; [by rewrite Z.add_0_r|]. replace j with ((j - 1) + 1) by lia.
  rewrite IH by lia. rewrite word_cons_succ by lia. by replace (i + 1 + (j - 1)) with (i + (j - 1 + 1)) by lia.
Qed.

(** ** The engine *)

(** C23: Mt19937 refines the Mersenne Twister: whatever the state was before, seeding
    followed by any number of generations does not leave the array and yields, in
    order, the tempered 32-bit words of the sequence the recurrence defines from
    the words the seed initialises. *)
Theorem mt19937_correct s seed n : zlen (mt_state s) = MT_N ->
  exists s1 s2 zs (x : Z -> Z), mt19937_seed_state s seed = Ok s1 /\ mt_outputs n s1 = Ok (s2, zs)
    /\ x 0 = seed mod 2 ^ 32
    /\ (forall i, 1 <= i < 624 -> x i = (1812433253 * Z.lxor (x (i - 1)) (x (i - 1) / 2 ^ 30) + i) mod 2 ^ 32)
    /\ (forall i, 0 <= i -> x (i + 624) = mt_twist (mt_mode s) (x (i + 397)) (x i) (x (i + 1)))
    /\ zs = (fun i => temper (x i)) <$> seqZ 624 (Z.of_nat n) /\ Forall is_u32 zs.
Proof.
  intros Hz. destruct (seed_state_ok s seed Hz) as (s1 & Hs & Hat).
  assert (zlen (mt_initial seed) = MT_N) as Hl by (unfold zlen, mt_initial; rewrite length_seed_words; unfold MT_N; lia).
  destruct (outputs_ok _ _ n Hl _ _ Hat) as (s2 & Ho & _). set (x := mt_word (mt_twist (mt_mode s)) (mt_initial seed)) in *.
  exists s1, s2, ((fun i => temper (x i)) <$> seqZ MT_N (Z.of_nat n)), x. split; [exact Hs|]. split; [exact Ho|].
  assert (forall i, 0 <= i < 624 -> x i = word (mt_initial seed) i) as Hi by (intros i Hi; by apply mt_word_start).
  split_and!.
  - rewrite Hi by lia. apply seed_words_0. unfold MT_N. lia.
  - intros i Hr. rewrite !Hi by lia. unfold mt_initial. replace i with ((i - 1) + 1) at 1 by lia.
    rewrite seed_words_rec by (unfold MT_N; lia). rewrite Z.shiftr_div_pow2 by lia. unfold u32. do 2 f_equal. lia.
  - intros i Hi0. by apply mt_word_rec.
  - done.
  - apply Forall_fmap, Forall_forall. intros i _. apply temper_u32, word_u32, window_u32. apply seed_words_u32, u32_range.
Qed.

Lemma mt19937_correct_witness :
  exists s1 s2 zs (x : Z -> Z), mt19937_seed_state mt19937_alloc 5489 = Ok s1 /\ mt_outputs 700 s1 = Ok (s2, zs)
    /\ x 0 = 5489 mod 2 ^ 32
    /\ (forall i, 1 <= i < 624 -> x i = (1812433253 * Z.lxor (x (i - 1)) (x (i - 1) / 2 ^ 30) + i) mod 2 ^ 32)
    /\ (forall i, 0 <= i -> x (i + 624) = twist (x (i + 397)) (x i) (x (i + 1)))
    /\ zs = (fun i => temper (x i)) <$> seqZ 624 (Z.of_nat 700) /\ Forall is_u32 zs.
Proof. exact (mt19937_correct mt19937_alloc 5489 700 eq_refl). Defined.

(** The state of the engine is well formed: 624 words of 32 bits, and a mode. *)
Definition mt_words_ok (s : php_random_status_state_mt19937) : Prop :=
  zlen (mt_state s) = MT_N /\ Forall is_u32 (mt_state s) /\ 0 <= mt_count s < 2 ^ 32.
Definition mt_wf (s : php_random_status_state_mt19937) : Prop :=
  mt_words_ok s /\ mt_count s <= MT_N /\ (mt_mode s = MT_RAND_MT19937 \/ mt_mode s = MT_RAND_PHP).

(** Generation stays within the array, even when the counter is beyond its end. *)
Lemma generate_safe s : mt_words_ok s ->
  exists s' z, mt19937_generate s = Ok (s', z) /\ mt_words_ok s' /\ mt_count s' <= MT_N /\ mt_mode s' = mt_mode s /\ is_u32 z.
Proof.
  destruct s as [st c mode]. intros (Hz & Hf & Hc). cbn [mt_state mt_mode mt_count] in *.
  assert (exists st' c', (if MT_N <=? c then mt19937_reload (mkMt st c mode) else Ok (mkMt st c mode)) = Ok (mkMt st' c' mode)
    /\ zlen st' = MT_N /\ Forall is_u32 st' /\ 0 <= c' < MT_N) as (st' & c' & He & Hz' & Hf' & Hc').
  { destruct (Z.leb_spec MT_N c); [|eexists _, _; split_and!; (done || lia)]. rewrite reload_ok by done.
    eexists _, _. split; [done|]. split_and!; [by apply zlen_window|by apply window_u32|done|done]. }
  unfold mt19937_generate. cbn [mt_count]. rewrite He, bind_ok. cbn [mt_state mt_count mt_mode].
  rewrite (rd_ok _ _ (word st' c')), bind_ok by (apply word_zget; lia).
  eexists _, _. split; [done|]. unfold mt_words_ok. cbn [mt_state mt_count mt_mode]. rewrite u32_small by (unfold MT_N in *; lia).
  pose proof (temper_u32 _ (word_u32 st' c' Hf')) as Ht. unfold MT_N in *. split_and!; done || lia || apply Ht.
Qed.
