(* ===== verification/RandomHex.v ===== *)
(** * Memory bytes and their hexadecimal form (ext/random/random.c)

    The bytes of a little-endian word, and php_random_bin2hex_le and
    php_random_hex2bin_le, by which engines write and read their states; and
    the transition and the jumps of Xoshiro256** (engine_xoshiro256starstar.c). *)

From S2P Require Import Prelude.
From S2P Require Import RandomOps.
From S2P Require Import RandomMtOps.
From S2P Require Import RandomMt.

(** ** Words in memory *)


Fixpoint le_bytes (n : nat) (x : Z) : list Z :=
  match n with O => [] | S n => x mod 256 :: le_bytes n (x / 256) end.
Definition le_value (l : list Z) : Z := fold_right (fun c v => c + 256 * v) 0 l.

Lemma length_le_bytes n x : length (le_bytes n x) = n.
Proof. revert x. induction n as [|n IH]; intros x; cbn; auto. Qed.

Lemma le_bytes_byte n x : Forall is_byte (le_bytes n x).
Proof. revert x. induction n as [|n IH]; intros x; constructor; [|done]. by apply Z.mod_pos_bound. Qed.

Lemma le_value_range l : Forall is_byte l -> 0 <= le_value l < 2 ^ (8 * zlen l).
Proof.
  induction 1 as [|c l Hc _ IH]; [done|]. rewrite zlen_cons. cbn. fold (le_value l). unfold is_byte in Hc.
  replace (8 * (zlen l + 1)) with (8 + 8 * zlen l) by lia. rewrite Z.pow_add_r by (pose proof (zlen_nonneg l); lia). lia.
Qed.

Lemma le_value_bytes n x : 0 <= x < 2 ^ (8 * Z.of_nat n) -> le_value (le_bytes n x) = x.
Proof.
  revert x. induction n as [|n IH]; intros x Hx; [change (8 * Z.of_nat 0) with 0 in Hx; assert (x = 0) as -> by lia; done|]. cbn [le_bytes le_value fold_right]. fold (le_value (le_bytes n (x / 256))).
  replace (8 * Z.of_nat (S n)) with (8 + 8 * Z.of_nat n) in Hx by lia. rewrite Z.pow_add_r in Hx by lia.
  rewrite IH; [Z.div_mod_to_equations; lia|]. split; [apply Z.div_pos; lia|]. apply Z.div_lt_upper_bound; lia.
Qed.

Lemma le_bytes_value l : Forall is_byte l -> le_bytes (length l) (le_value l) = l.
Proof.
  induction 1 as [|c l Hc _ IH]; [done|]. cbn. fold (le_value l). unfold is_byte in Hc. f_equal.
  - rewrite Z.mul_comm, Z.mod_add, Z.mod_small by lia. done.
  - rewrite Z.mul_comm, Z.div_add, Z.div_small, Z.add_0_l by lia. done.
Qed.

Lemma le_value_zero l : Forall is_byte l -> le_value l = 0 <-> Forall (fun c => c = 0) l.
Proof.
  induction 1 as [|c l Hc Hl IH]; [done|]. cbn. fold (le_value l). pose proof (le_value_range l Hl). unfold is_byte in Hc.
  rewrite Forall_cons, <- IH. split; lia.
Qed.

Lemma le_value_app l1 l2 : le_value (l1 ++ l2) = le_value l1 + 2 ^ (8 * zlen l1) * le_value l2.
Proof.
  induction l1 as [|c l IH]; [change (le_value l2 = 0 + 1 * le_value l2); lia|]. cbn [app le_value fold_right]. fold (le_value (l ++ l2)). rewrite IH, zlen_cons.
  fold (le_value l). replace (8 * (zlen l + 1)) with (8 + 8 * zlen l) by lia. rewrite Z.pow_add_r by (pose proof (zlen_nonneg l); lia).
  change (2 ^ 8) with 256. ring.
Qed.

(** ** php_random_bin2hex_le *)

Definition hexconvtab : list Z := [48; 49; 50; 51; 52; 53; 54; 55; 56; 57; 97; 98; 99; 100; 101; 102].

(** The string for the [len] bytes at [ptr], on a little-endian machine. *)
Fixpoint php_random_bin2hex_le (ptr : list Z) : res (list Z) :=
  match ptr with
  | [] => Ok []
  | c :: ptr =>
      hi ← rd hexconvtab (Z.shiftr c 4);
      lo ← rd hexconvtab (Z.land c 15);
      str ← php_random_bin2hex_le ptr;
      Ok (hi :: lo :: str)
  end.

(** ** php_random_hex2bin_le *)

(** [((uint32_t) ((l - 'A') ^ (l - 'F' - 1))) >> 31]: 1 when the signs differ. *)
Definition sign_bit (x : Z) : Z := Z.shiftr (u32 x) 31.

(** [int >> 31] keeps the sign: -1 or 0. *)
Definition hex_digit (c : Z) : option Z :=
  let l := Z.land c (u8 (Z.lnot 0x20)) in
  let is_letter := sign_bit (Z.lxor (l - 65) (l - 70 - 1)) in
  if negb (Z.lor (Z.shiftr (Z.lxor c 48 - 10) 31) is_letter =? 0)
  then Some (l - 0x10 - 0x27 * is_letter)
  else None.

(** [len] bytes are written to [dest]; [None] stands for the return value false,
    after which the bytes already written stay. *)
Fixpoint hex2bin_loop (len : nat) (str : list Z) (i : Z) (acc : list Z) : res (list Z * bool) :=
  match len with
  | O => Ok (acc, true)
  | S len =>
      c ← rd str i;
      match hex_digit c with
      | None => Ok (acc, false)
      | Some d =>
          let hi := u8 (Z.shiftl d 4) in
          c ← rd str (i + 1);
          match hex_digit c with
          | None => Ok (acc, false)
          | Some d => hex2bin_loop len str (i + 2) (acc ++ [u8 (Z.lor hi d)])
          end
      end
  end.

(** The bytes written and the return value. *)
Definition php_random_hex2bin_le (hexstr : list Z) : res (list Z * bool) :=
  hex2bin_loop (Z.to_nat (Z.shiftr (zlen hexstr) 1)) hexstr 0 [].

Example hex2bin_mixed_case : php_random_hex2bin_le [65; 98; 48; 57] = Ok ([171; 9], true).
Proof. reflexivity. Qed.

(** The value of a hexadecimal digit. *)
Definition hex_value (c : Z) : option Z :=
  if (48 <=? c) && (c <=? 57) then Some (c - 48)
  else if (97 <=? c) && (c <=? 102) then Some (c - 87)
  else if (65 <=? c) && (c <=? 70) then Some (c - 55)
  else None.

Lemma forall_byte (P : Z -> bool) : forallb P (seqZ 0 256) = true -> forall c, is_byte c -> P c = true.
Proof.
  intros H c Hc. rewrite forallb_forall in H. apply H. apply list_elem_of_In, elem_of_seqZ. unfold is_byte in Hc. lia.
Qed.

Lemma hex_digit_value c : is_byte c -> hex_digit c = hex_value c.
Proof.
  assert (forallb (fun c => bool_decide (hex_digit c = hex_value c)) (seqZ 0 256) = true) as Hall by (vm_compute; reflexivity).
  intros Hc. exact (proj1 (bool_decide_eq_true _) (forall_byte _ Hall c Hc)).
Qed.

Lemma rd_middle pre (x : Z) l : rd (pre ++ x :: l) (zlen pre) = Ok x.
Proof. apply rd_ok. unfold zget, zlen. rewrite (proj2 (Z.leb_le _ _)), Nat2Z.id by lia. by rewrite list_lookup_middle. Qed.

Lemma rd_middle_1 pre (x y : Z) l : rd (pre ++ x :: y :: l) (zlen pre + 1) = Ok y.
Proof.
  change (x :: y :: l) with ([x] ++ y :: l). rewrite app_assoc. replace (zlen pre + 1) with (zlen (pre ++ [x])) by (by rewrite zlen_app).
  apply rd_middle.
Qed.

(** What is written for a byte is read back. *)
Lemma hex_pair c : is_byte c -> exists hi lo d1 d2, rd hexconvtab (Z.shiftr c 4) = Ok hi /\ rd hexconvtab (Z.land c 15) = Ok lo
  /\ hex_digit hi = Some d1 /\ hex_digit lo = Some d2 /\ u8 (Z.lor (u8 (Z.shiftl d1 4)) d2) = c.
Proof.
  intros Hc. pose proof (forall_byte (fun c => match rd hexconvtab (Z.shiftr c 4), rd hexconvtab (Z.land c 15) with
    | Ok hi, Ok lo => match hex_digit hi, hex_digit lo with
                      | Some d1, Some d2 => u8 (Z.lor (u8 (Z.shiftl d1 4)) d2) =? c | _, _ => false end
    | _, _ => false end) ltac:(vm_compute; reflexivity) c Hc) as H. cbn beta in H.
  destruct (rd _ (Z.shiftr c 4)) as [hi| |]; [|done..]. destruct (rd _ (Z.land c 15)) as [lo| |]; [|done..].
  destruct (hex_digit hi) as [d1|] eqn:E1; [|done]. destruct (hex_digit lo) as [d2|] eqn:E2; [|done].
  apply Z.eqb_eq in H. by exists hi, lo, d1, d2.
Qed.

Lemma bin2hex_ok ptr : Forall is_byte ptr -> exists str, php_random_bin2hex_le ptr = Ok str /\ zlen str = 2 * zlen ptr
  /\ forall pre acc, hex2bin_loop (length ptr) (pre ++ str) (zlen pre) acc = Ok (acc ++ ptr, true).
Proof.
  induction 1 as [|c ptr Hc _ (str & IH1 & IH2 & IH3)].
  { exists []. split_and!; try done. intros pre acc. cbn. by rewrite app_nil_r. }
  destruct (hex_pair c Hc) as (hi & lo & d1 & d2 & H1 & H2 & D1 & D2 & Hd). exists (hi :: lo :: str). cbn [php_random_bin2hex_le].
  rewrite H1, H2, IH1, !bind_ok. split; [done|]. split; [rewrite !zlen_cons; lia|]. intros pre acc. cbn [length hex2bin_loop].
  rewrite rd_middle, bind_ok.
  rewrite D1, rd_middle_1, bind_ok.
  rewrite D2, Hd. specialize (IH3 (pre ++ [hi; lo]) (acc ++ [c])).
  rewrite <- !app_assoc, zlen_app in IH3. cbn [app] in IH3. change (zlen [hi; lo]) with 2 in IH3. exact IH3.
Qed.

(** Reading back what bin2hex_le wrote. *)
Lemma hex_bin_ok ptr : Forall is_byte ptr -> exists str, php_random_bin2hex_le ptr = Ok str /\ zlen str = 2 * zlen ptr
  /\ php_random_hex2bin_le str = Ok (ptr, true).
Proof.
  intros Hp. destruct (bin2hex_ok ptr Hp) as (str & H1 & H2 & H3). exists str. split_and!; [done|done|].
  unfold php_random_hex2bin_le. rewrite H2, Z.shiftr_div_pow2, Z.mul_comm, Z.div_mul by lia. unfold zlen. rewrite Nat2Z.id.
  apply (H3 [] []).
Qed.

(** Reading never goes beyond an even number of characters and writes bytes; it
    succeeds exactly on hexadecimal digits. *)
Definition hex_string (str : list Z) : Prop := Forall (fun c => exists d, hex_value c = Some d) str.

Lemma hex2bin_loop_ok n : forall pre str acc, length str = (2 * n)%nat -> Forall is_byte str -> Forall is_byte acc ->
  exists acc' b, hex2bin_loop n (pre ++ str) (zlen pre) acc = Ok (acc', b) /\ Forall is_byte acc'
    /\ (if b then length acc' = (length acc + n)%nat /\ hex_string str else ~ hex_string str).
Proof.
  induction n as [|n IH]; intros pre str acc Hl Hs Ha.
  { destruct str; [|done]. exists acc, true. split; [done|]. split; [done|]. split; [lia|by constructor]. }
  destruct str as [|c1 [|c2 str]]; [done|cbn in Hl; lia|]. apply Forall_cons in Hs as [B1 Hs]. apply Forall_cons in Hs as [B2 Hs].
  cbn [hex2bin_loop]. rewrite rd_middle, bind_ok.
  rewrite (hex_digit_value c1 B1). destruct (hex_value c1) as [d1|] eqn:E1.
  2:{ exists acc, false. split_and!; try done. intros Hh. apply Forall_cons in Hh as [[d Hd] _]. congruence. }
  rewrite rd_middle_1, bind_ok.
  rewrite (hex_digit_value c2 B2). destruct (hex_value c2) as [d2|] eqn:E2.
  2:{ exists acc, false. split_and!; try done. intros Hh. apply Forall_cons in Hh as [_ Hh]. apply Forall_cons in Hh as [[d Hd] _]. congruence. }
  destruct (IH (pre ++ [c1; c2]) str (acc ++ [u8 (Z.lor (u8 (Z.shiftl d1 4)) d2)])) as (acc' & b & He & Hb & Hc).
  - cbn in Hl. lia.
  - done.
  - apply Forall_app. split; [done|]. constructor; [|done]. by apply Z.mod_pos_bound.
  - rewrite <- app_assoc, zlen_app in He. cbn [app] in He. change (zlen [c1; c2]) with 2 in He. rewrite He. exists acc', b.
    split_and!; [done|done|]. destruct b.
    + destruct Hc as [Hl' Hh]. rewrite length_app in Hl'. cbn in Hl'. split; [lia|]. repeat constructor; eauto.
    + intros Hh. apply Hc. apply Forall_cons in Hh as [_ Hh]. by apply Forall_cons in Hh as [_ Hh].
Qed.

(** At most [n] bytes are written. *)
Lemma hex2bin_loop_length n : forall str i acc acc' b, hex2bin_loop n str i acc = Ok (acc', b) -> (length acc' <= length acc + n)%nat.
Proof.
  induction n as [|n IH]; intros str i acc acc' b; cbn [hex2bin_loop]; [intros [= <- <-]; lia|].
  destruct (rd str i) as [c1| |]; [|done..]. rewrite bind_ok. destruct (hex_digit c1); [|intros [= <- <-]; lia].
  destruct (rd str (i + 1)) as [c2| |]; [|done..]. rewrite bind_ok. destruct (hex_digit c2); [|intros [= <- <-]; lia].
  intros H. apply IH in H. rewrite length_app in H. cbn in H. lia.
Qed.

(** ** Xoshiro256** *)

(** ** The code *)

(** [uint64_t state[4]] *)
Record xoshiro : Type := mkXo { xo_0 : Z; xo_1 : Z; xo_2 : Z; xo_3 : Z }.

(** The mixing of splitmix64; [splitmix64] returns the new seed and the number. *)
Definition mix64 (r : Z) : Z :=
  let r := u64 (Z.lxor r (Z.shiftr r 30) * 0xbf58476d1ce4e5b9) in
  let r := u64 (Z.lxor r (Z.shiftr r 27) * 0x94d049bb133111eb) in
  Z.lxor r (Z.shiftr r 31).
Definition splitmix64 (seed : Z) : Z * Z :=
  let r := u64 (seed + 0x9e3779b97f4a7c15) in (r, mix64 r).

Definition rotl (x k : Z) : Z := Z.lor (u64 (Z.shiftl x k)) (Z.shiftr x (64 - k)).

Definition generate_state (s : xoshiro) : xoshiro * Z :=
  let r := u64 (rotl (u64 (xo_1 s * 5)) 7 * 9) in
  let t := u64 (Z.shiftl (xo_1 s) 17) in
  let s2 := Z.lxor (xo_2 s) (xo_0 s) in
  let s3 := Z.lxor (xo_3 s) (xo_1 s) in
  let s1 := Z.lxor (xo_1 s) s2 in
  let s0 := Z.lxor (xo_0 s) s3 in
  let s2 := Z.lxor s2 t in
  let s3 := rotl s3 45 in
  (mkXo s0 s1 s2 s3, r).

Definition xo_xor (a b : xoshiro) : xoshiro :=
  mkXo (Z.lxor (xo_0 a) (xo_0 b)) (Z.lxor (xo_1 a) (xo_1 b)) (Z.lxor (xo_2 a) (xo_2 b)) (Z.lxor (xo_3 a) (xo_3 b)).

(** The inner loop, [n] rounds from bit [j] of the word on. *)
Fixpoint jump_bits (n : nat) (jmp j : Z) (acc state : xoshiro) : xoshiro * xoshiro :=
  match n with
  | O => (acc, state)
  | S n =>
      let acc := if negb (Z.land jmp (u64 (Z.shiftl 1 j)) =? 0) then xo_xor acc state else acc in
      jump_bits n jmp (j + 1) acc (generate_state state).1
  end.

Definition xo_zero : xoshiro := mkXo 0 0 0 0.

(** The outer loop over the words of [jmp]. *)
Definition xo_jump (state : xoshiro) (jmp : list Z) : xoshiro :=
  (fold_left (fun p w => jump_bits 64 w 0 p.1 p.2) jmp (xo_zero, state)).1.

Definition php_random_xoshiro256starstar_jump (state : xoshiro) : xoshiro :=
  xo_jump state [0x180ec6d33cfd0aba; 0xd5a61266f0c9392c; 0xa9582618e03fc9aa; 0x39abdc4529b1661c].
Definition php_random_xoshiro256starstar_jump_long (state : xoshiro) : xoshiro :=
  xo_jump state [0x76e15d3efefdcbbf; 0xc5004e441c522fb3; 0x77710069854ee241; 0x39109bb02acbe635].

Definition seed256 (s0 s1 s2 s3 : Z) : xoshiro := mkXo s0 s1 s2 s3.

Definition xo_seed (seed : Z) : xoshiro :=
  let '(seed, s0) := splitmix64 seed in
  let '(seed, s1) := splitmix64 seed in
  let '(seed, s2) := splitmix64 seed in
  let '(seed, s3) := splitmix64 seed in
  seed256 s0 s1 s2 s3.

Definition xo_generate (status : php_random_status xoshiro) : php_random_status xoshiro * Z :=
  let '(s, r) := generate_state (r_state status) in (mkStatus (last_generated_size status) s (r_exception status), r).
Definition php_random_algo_xoshiro256starstar : php_random_algo xoshiro := mkAlgo 8 (fun _ s => Ok (xo_seed s)) (fun st => Ok (xo_generate st)).

(** [t[i] += ((uint64_t) (unsigned char) str[i * 8 + j]) << (j * 8)] *)
Fixpoint le_word (n : nat) (str : list Z) (pos j : Z) (acc : Z) : res Z :=
  match n with
  | O => Ok acc
  | S n => c ← rd str (pos + j); le_word n str pos (j + 1) (u64 (acc + Z.shiftl c (j * 8)))
  end.

(** The argument of the constructor. *)
Inductive seed_arg : Type :=
| SeedNull
| SeedString (str : list Z)
| SeedInt (n : Z).

Definition is_zero_state (s : xoshiro) : bool := (xo_0 s =? 0) && (xo_1 s =? 0) && (xo_2 s =? 0) && (xo_3 s =? 0).

(** The [do ... while] of a null seed: [random] is the sequence of states
    php_random_bytes gives, [None] being a failure. *)
Fixpoint random_state (random : list (option xoshiro)) : res (construct_result xoshiro) :=
  match random with
  | [] => Ub
  | None :: _ => Ok RandomException
  | Some s :: random => if is_zero_state s then random_state random else Ok (Constructed s)
  end.

Definition xoshiro_construct (seed : seed_arg) (random : list (option xoshiro)) : res (construct_result xoshiro) :=
  match seed with
  | SeedNull => random_state random
  | SeedString str =>
      if zlen str =? 32 then
        t0 ← le_word 8 str 0 0 0;
        t1 ← le_word 8 str 8 0 0;
        t2 ← le_word 8 str 16 0 0;
        t3 ← le_word 8 str 24 0 0;
        if is_zero_state (mkXo t0 t1 t2 t3) then Ok ValueError else Ok (Constructed (seed256 t0 t1 t2 t3))
      else Ok ValueError
  | SeedInt n => Ok (Constructed (xo_seed (u64 n)))
  end.

(** ** Words *)

Definition is_u64 (x : Z) : Prop := 0 <= x < 2 ^ 64.

Lemma u64_bits x i : 0 <= i -> Z.testbit (u64 x) i = (i <? 64) && Z.testbit x i.
Proof.
  intros Hi. unfold u64. destruct (Z.ltb_spec i 64); [by rewrite Z.mod_pow2_bits_low by lia|by rewrite Z.mod_pow2_bits_high by lia].
Qed.

Lemma is_u64_high x i : is_u64 x -> 64 <= i -> Z.testbit x i = false.
Proof. intros Hx Hi. rewrite <- (Z.mod_small x (2 ^ 64)) by done. by rewrite Z.mod_pow2_bits_high by lia. Qed.

Lemma rotl_bits x k i : is_u64 x -> 0 < k < 64 -> 0 <= i ->
  Z.testbit (rotl x k) i = if i <? k then Z.testbit x (i + 64 - k) else (i <? 64) && Z.testbit x (i - k).
Proof.
  intros Hx Hk Hi. unfold rotl. rewrite Z.lor_spec, u64_bits, Z.shiftl_spec, Z.shiftr_spec by lia.
  destruct (Z.ltb_spec i k).
  - rewrite (Z.testbit_neg_r x) by lia. rewrite andb_false_r. cbn. f_equal. lia.
  - rewrite (is_u64_high x (i + _)) by (done || lia). by rewrite orb_false_r.
Qed.

Lemma rotl_range x k : is_u64 x -> 0 < k < 64 -> is_u64 (rotl x k).
Proof.
  intros Hx Hk. unfold rotl. assert (is_u64 (u64 (Z.shiftl x k))) as H1 by apply u64_range.
  assert (is_u64 (Z.shiftr x (64 - k))) as H2 by (by apply shiftr_bound; [lia|]).
  assert (Z.lor (u64 (Z.shiftl x k)) (Z.shiftr x (64 - k)) = u64 (Z.lor (u64 (Z.shiftl x k)) (Z.shiftr x (64 - k)))) as ->; [|apply u64_range].
  unfold u64 at 2. rewrite <- Z.land_ones, Z.land_lor_distr_l, !Z.land_ones by lia. by rewrite !(Z.mod_small _ _) by done.
Qed.

Lemma lxor_u64 a b : is_u64 a -> is_u64 b -> is_u64 (Z.lxor a b).
Proof. intros. by apply lxor_bound. Qed.

Definition xo_wf (s : xoshiro) : Prop := is_u64 (xo_0 s) /\ is_u64 (xo_1 s) /\ is_u64 (xo_2 s) /\ is_u64 (xo_3 s).

Definition xo_next (s : xoshiro) : xoshiro := (generate_state s).1.

Lemma xo_next_wf s : xo_wf s -> xo_wf (xo_next s).
Proof.
  intros (H0 & H1 & H2 & H3). unfold xo_wf, xo_next, generate_state. cbn.
  split_and!; repeat apply lxor_u64; try done; [apply u64_range|]. apply rotl_range; [by apply lxor_u64|lia].
Qed.

(** ** Odd multiplication and xor-shifts are injective *)

Lemma odd_mult_pow2 c (n : nat) : Z.odd c = true -> forall x, (2 ^ Z.of_nat n | c * x) -> (2 ^ Z.of_nat n | x).
Proof.
  intros Hc. induction n as [|n IH]; intros x [q Hq]; [apply Z.divide_1_l|]. rewrite Nat2Z.inj_succ, Z.pow_succ_r in * by lia.
  assert (Z.odd x = false) as Hx.
  { assert (Z.odd (c * x) = false) as Ho by (rewrite Hq, !Z.odd_mul; by rewrite andb_false_r). by rewrite Z.odd_mul, Hc in Ho. }
  destruct (Z.Even_or_Odd x) as [[y ->]|Hodd]; [|apply Z.odd_spec in Hodd; congruence].
  apply Z.mul_divide_mono_l, IH. exists q. lia.
Qed.

Lemma odd_mult_inj c a b : Z.odd c = true -> is_u64 a -> is_u64 b -> u64 (a * c) = u64 (b * c) -> a = b.
Proof.
  unfold is_u64, u64. intros Hc Ha Hb He. assert (2 ^ Z.of_nat 64 | a - b) as [q Hq].
  { apply (odd_mult_pow2 c); [done|]. exists (a * c / 2 ^ 64 - b * c / 2 ^ 64).
    pose proof (Z.div_mod (a * c) (2 ^ 64)). pose proof (Z.div_mod (b * c) (2 ^ 64)). change (Z.of_nat 64) with 64. lia. }
  change (Z.of_nat 64) with 64 in Hq. nia.
Qed.

Lemma xorshift_inj k a b : 0 < k -> is_u64 a -> is_u64 b -> Z.lxor a (Z.shiftr a k) = Z.lxor b (Z.shiftr b k) -> a = b.
Proof.
  intros Hk Ha Hb He. set (z := Z.lxor a b).
  assert (z = Z.shiftr z k) as Hz.
  { apply Z.bits_inj'. intros i Hi. unfold z. apply (f_equal (fun x => Z.testbit x i)) in He.
    rewrite Z.shiftr_lxor. rewrite !Z.lxor_spec in *.
    destruct (Z.testbit a i), (Z.testbit b i), (Z.testbit (Z.shiftr a k) i), (Z.testbit (Z.shiftr b k) i); done. }
  assert (0 <= z) as Hz0 by (apply (lxor_u64 a b Ha Hb)).
  assert (z = 0) as H0.
  { rewrite Z.shiftr_div_pow2 in Hz by lia. destruct (Z.eq_dec z 0) as [|Hne]; [done|].
    pose proof (Z.div_lt z (2 ^ k)). pose proof (Z.pow_gt_1 2 k). lia. }
  by apply Z.lxor_eq.
Qed.

Lemma mix64_inj a b : is_u64 a -> is_u64 b -> mix64 a = mix64 b -> a = b.
Proof.
  intros Ha Hb He. unfold mix64 in He.
  assert (forall x k, is_u64 x -> 0 <= k -> is_u64 (Z.lxor x (Z.shiftr x k))) as HX
    by (intros x k Hx Hk; apply lxor_u64; [done|by apply shiftr_bound]).
  apply xorshift_inj in He; [|lia|apply u64_range|apply u64_range].
  apply odd_mult_inj in He; [|done|apply HX; (lia || apply u64_range)..].
  apply xorshift_inj in He; [|lia|apply u64_range|apply u64_range].
  apply odd_mult_inj in He; [|done|by apply HX..]. by apply xorshift_inj in He.
Qed.

Lemma mix64_range r : is_u64 (mix64 r).
Proof. unfold mix64. apply lxor_u64; [apply u64_range|]. apply shiftr_bound; [lia|apply u64_range]. Qed.

(** ** The zero state *)

Definition nonzero (s : xoshiro) : Prop := s <> xo_zero.

Lemma is_zero_state_spec s : is_zero_state s = false <-> nonzero s.
Proof.
  unfold nonzero, is_zero_state, xo_zero. destruct s as [a b c d]. cbn.
  destruct (Z.eqb_spec a 0), (Z.eqb_spec b 0), (Z.eqb_spec c 0), (Z.eqb_spec d 0); cbn; split; try done; congruence.
Qed.

Lemma rotl_zero x k : is_u64 x -> 0 < k < 64 -> rotl x k = 0 -> x = 0.
Proof.
  intros Hx Hk H0. apply Z.bits_inj'. intros i Hi. rewrite Z.bits_0. destruct (Z.lt_ge_cases i 64) as [Hl|]; [|by apply is_u64_high].
  destruct (Z.lt_ge_cases (i + k) 64).
  - apply (f_equal (fun x => Z.testbit x (i + k))) in H0. rewrite rotl_bits, Z.bits_0 in H0 by (done || lia).
    rewrite (proj2 (Z.ltb_ge _ _)), (proj2 (Z.ltb_lt _ _)) in H0 by lia. cbn in H0. by replace (i + k - k) with i in H0 by lia.
  - apply (f_equal (fun x => Z.testbit x (i + k - 64))) in H0. rewrite rotl_bits, Z.bits_0 in H0 by (done || lia).
    rewrite (proj2 (Z.ltb_lt _ _)) in H0 by lia. by replace (i + k - 64 + 64 - k) with i in H0 by lia.
Qed.

Lemma shift_fixpoint x k : is_u64 x -> 0 < k -> u64 (Z.shiftl x k) = x -> x = 0.
Proof.
  intros Hx Hk He. apply Z.bits_inj'. intros i Hi. rewrite Z.bits_0. remember (Z.to_nat i) as n eqn:Hn. revert i Hi Hn.
  induction n as [n IH] using lt_wf_ind. intros i Hi Hn. rewrite <- He, u64_bits, Z.shiftl_spec by done.
  destruct (Z.lt_ge_cases i k); [rewrite Z.testbit_neg_r by lia; by rewrite andb_false_r|].
  rewrite (IH (Z.to_nat (i - k))); [by rewrite andb_false_r|lia|lia|done].
Qed.

Lemma xo_next_nonzero s : xo_wf s -> nonzero s -> nonzero (xo_next s).
Proof.
  intros (H0 & H1 & H2 & H3) Hn He. apply Hn. destruct s as [a b c d]. unfold xo_next, generate_state, xo_zero in *. cbn in *.
  injection He as E0 E1 E2 E3. apply rotl_zero in E3; [|by apply lxor_u64|lia]. rewrite E3, Z.lxor_0_r in E0. subst a.
  apply Z.lxor_eq in E3 as ->. rewrite Z.lxor_0_r in E1, E2. apply Z.lxor_eq in E1 as <-. apply Z.lxor_eq in E2.
  symmetry in E2. apply shift_fixpoint in E2; [|done|lia]. by subst.
Qed.

Lemma xo_seed_ok seed : is_u64 seed -> xo_wf (xo_seed seed) /\ nonzero (xo_seed seed).
Proof.
  intros Hs. unfold xo_seed, splitmix64, seed256. set (a := u64 (seed + _)). set (b := u64 (a + _)).
  split; [split_and!; apply mix64_range|]. unfold nonzero, xo_zero. intros [= Ea Eb _ _].
  assert (a = b) as Hab by (apply mix64_inj; [apply u64_range|apply u64_range|congruence]).
  assert (is_u64 a) as Ha by apply u64_range. unfold b, u64, is_u64 in *.
  clearbody a. destruct (Z.lt_ge_cases (a + 0x9e3779b97f4a7c15) (2 ^ 64)).
  - rewrite Z.mod_small in Hab by lia. lia.
  - rewrite <- (Z.mod_add _ (-1)), Z.mod_small in Hab by lia. lia.
Qed.

(** ** The constructor *)

Lemma le_word_ok n : forall str pos j acc, Forall is_byte str -> 0 <= pos -> 0 <= j -> j + Z.of_nat n <= 8 -> pos + j + Z.of_nat n <= zlen str ->
  0 <= acc < 2 ^ (8 * j) ->
  le_word n str pos j acc = Ok (acc + 2 ^ (8 * j) * le_value (take n (drop (Z.to_nat (pos + j)) str))).
Proof.
  induction n as [|n IH]; intros str pos j acc Hs Hp Hj Hjn Hl Ha; [cbn [le_word take]; change (le_value []) with 0; by rewrite Z.mul_0_r, Z.add_0_r|].
  cbn [le_word]. destruct (zget_is_Some str (pos + j)) as [c Hc]; [lia|]. rewrite (rd_ok _ _ c Hc), bind_ok.
  unfold zget in Hc. rewrite (proj2 (Z.leb_le _ _)) in Hc by lia.
  assert (is_byte c) as Hb by (eapply Forall_lookup_1; [exact Hs|exact Hc]). unfold is_byte in Hb.
  assert (2 ^ (8 * (j + 1)) = 256 * 2 ^ (8 * j)) as Epow by (rewrite <- (Z.pow_add_r 2 8) by lia; f_equal; lia).
  assert (2 ^ (8 * (j + 1)) <= 2 ^ 64) as Hle by (apply Z.pow_le_mono_r; lia).
  rewrite Z.shiftl_mul_pow2 by lia. replace (j * 8) with (8 * j) by lia. rewrite u64_small by nia.
  rewrite IH by (try done; try lia; nia). f_equal. rewrite (drop_S str c (Z.to_nat (pos + j))) by done. cbn [take].
  replace (Z.to_nat (pos + (j + 1))) with (S (Z.to_nat (pos + j))) by lia. rewrite Epow.
  cbn [le_value fold_right]. fold (le_value (take n (drop (S (Z.to_nat (pos + j))) str))). ring.
Qed.

Lemma le_word_8 str pos : Forall is_byte str -> 0 <= pos -> pos + 8 <= zlen str ->
  exists t, le_word 8 str pos 0 0 = Ok t /\ t = le_value (take 8 (drop (Z.to_nat pos) str)) /\ is_u64 t.
Proof.
  intros Hs Hp Hl. pose proof (le_word_ok 8 str pos 0 0 Hs Hp) as H. rewrite H by lia.
  rewrite !Z.add_0_r, Z.add_0_l, Z.mul_1_l. eexists. split; [done|]. split; [done|]. unfold is_u64.
  assert (Forall is_byte (take 8 (drop (Z.to_nat pos) str))) as Hb by (by apply Forall_take, Forall_drop).
  pose proof (le_value_range _ Hb) as Hr. assert (zlen (take 8 (drop (Z.to_nat pos) str)) = 8) as Hz.
  { unfold zlen in *. rewrite length_take, length_drop. lia. }
  rewrite Hz in Hr. exact Hr.
Qed.

Lemma split_32 (str : list Z) : zlen str = 32 ->
  str = take 8 (drop 0 str) ++ take 8 (drop 8 str) ++ take 8 (drop 16 str) ++ take 8 (drop 24 str).
Proof.
  intros Hl. unfold zlen in Hl. do 33 (destruct str as [|? str]; [cbn in Hl; try lia; done|]). cbn in Hl. lia.
Qed.

Lemma random_state_ok random : Exists (fun o => default True (nonzero <$> o)) random ->
  Forall (fun o => default True (xo_wf <$> o)) random ->
  exists r, random_state random = Ok r
    /\ match r with Constructed s => xo_wf s /\ nonzero s | ValueError => False | RandomException => None ∈ random end.
Proof.
  induction 1 as [o random Ho|o random _ IH]; intros Hw; apply Forall_cons in Hw as [H1 H2].
  - destruct o as [s|]; [|exists RandomException; split; [done|by left]]. cbn in *. apply is_zero_state_spec in Ho as Hz.
    rewrite Hz. by exists (Constructed s).
  - destruct o as [s|]; [|exists RandomException; split; [done|by left]]. cbn in *. destruct (is_zero_state s) eqn:Hz.
    + destruct (IH H2) as (r & Hr & Hm). exists r. split; [done|]. destruct r; [done|done|by right].
    + apply is_zero_state_spec in Hz. by exists (Constructed s).
Qed.

Lemma xo_nexts s n : xo_wf s -> nonzero s -> xo_wf (Nat.iter n xo_next s) /\ nonzero (Nat.iter n xo_next s).
Proof.
  intros Hw Hn. induction n as [|n [IH1 IH2]]; [done|]. rewrite Nat.iter_succ. split; [by apply xo_next_wf|by apply xo_next_nonzero].
Qed.

Lemma construct_string str : Forall is_byte str ->
  (zlen str <> 32 \/ Forall (fun c => c = 0) str) /\ xoshiro_construct (SeedString str) [] = Ok ValueError
  \/ exists s, xoshiro_construct (SeedString str) [] = Ok (Constructed s) /\ xo_wf s /\ nonzero s
       /\ le_bytes 8 (xo_0 s) ++ le_bytes 8 (xo_1 s) ++ le_bytes 8 (xo_2 s) ++ le_bytes 8 (xo_3 s) = str.
Proof.
  intros Hs. cbn [xoshiro_construct]. destruct (Z.eqb_spec (zlen str) 32) as [Hl|]; [|by auto].
  destruct (le_word_8 str 0 Hs) as (t0 & -> & E0 & R0); [lia|lia|]. destruct (le_word_8 str 8 Hs) as (t1 & -> & E1 & R1); [lia|lia|].
  destruct (le_word_8 str 16 Hs) as (t2 & -> & E2 & R2); [lia|lia|]. destruct (le_word_8 str 24 Hs) as (t3 & -> & E3 & R3); [lia|lia|].
  rewrite !bind_ok. pose proof (split_32 str Hl) as Hsplit.
  change (Z.to_nat 0) with 0%nat in E0. change (Z.to_nat 8) with 8%nat in E1. change (Z.to_nat 16) with 16%nat in E2. change (Z.to_nat 24) with 24%nat in E3.
  assert (forall k, (k + 8 <= 32)%nat -> Forall is_byte (take 8 (drop k str)) /\ length (take 8 (drop k str)) = 8%nat) as Hb.
  { intros k Hk. split; [by apply Forall_take, Forall_drop|]. unfold zlen in Hl. rewrite length_take, length_drop. lia. }
  destruct (Hb 0%nat) as [B0 L0]; [lia|]. destruct (Hb 8%nat) as [B1 L1]; [lia|]. destruct (Hb 16%nat) as [B2 L2]; [lia|].
  destruct (Hb 24%nat) as [B3 L3]; [lia|]. clear Hb Hs.
  set (l0 := take 8 (drop 0 str)) in *. set (l1 := take 8 (drop 8 str)) in *. set (l2 := take 8 (drop 16 str)) in *. set (l3 := take 8 (drop 24 str)) in *.
  clearbody l0 l1 l2 l3. subst str t0 t1 t2 t3. destruct (is_zero_state _) eqn:Hz.
  - left. split; [|done]. right. unfold is_zero_state in Hz. cbn in Hz. rewrite !andb_true_iff, !Z.eqb_eq in Hz.
    destruct Hz as [[[H0 H1] H2] H3]. rewrite le_value_zero in H0, H1, H2, H3 by done. rewrite !Forall_app. done.
  - right. eexists. split; [done|]. split; [done|]. split; [by apply is_zero_state_spec|]. unfold seed256. cbn [xo_0 xo_1 xo_2 xo_3].
    rewrite <- L0 at 1. rewrite <- L1 at 1. rewrite <- L2 at 1. rewrite <- L3 at 1. by rewrite !le_bytes_value.
Qed.

(** The constructor never yields the zero state, which would only produce zeros, and
    no later state is zero; a byte string is stored as it is, and refused exactly
    when it has the wrong length or consists of NUL bytes. *)
Theorem xoshiro_never_zero seed random :
  match seed with
  | SeedNull => Exists (fun o => default True (nonzero <$> o)) random /\ Forall (fun o => default True (xo_wf <$> o)) random
  | SeedString str => Forall is_byte str
  | SeedInt _ => True
  end ->
  exists r, xoshiro_construct seed random = Ok r
    /\ match r with
       | Constructed s =>
           (forall n, xo_wf (Nat.iter n xo_next s) /\ nonzero (Nat.iter n xo_next s))
           /\ match seed with
              | SeedString str => le_bytes 8 (xo_0 s) ++ le_bytes 8 (xo_1 s) ++ le_bytes 8 (xo_2 s) ++ le_bytes 8 (xo_3 s) = str
              | _ => True
              end
       | ValueError => exists str, seed = SeedString str /\ (zlen str <> 32 \/ Forall (fun c => c = 0) str)
       | RandomException => seed = SeedNull /\ None ∈ random
       end.
Proof.
  destruct seed as [|str|n]; intros H.
  - destruct (random_state_ok random (proj1 H) (proj2 H)) as (r & Hr & Hm). exists r. split; [done|].
    destruct r as [s| |]; [|done|done]. split; [|done]. intros n. apply xo_nexts; apply Hm.
  - destruct (construct_string str H) as [[Hbad He]|(s & He & Hw & Hn & Hb)]; [exists ValueError; eauto|].
    exists (Constructed s). split; [done|]. split; [|done]. intros n. by apply xo_nexts.
  - exists (Constructed (xo_seed (u64 n))). split; [done|]. split; [|done]. intros k. apply xo_nexts; apply xo_seed_ok, u64_range.
Qed.

Lemma xoshiro_never_zero_witness :
  exists r, xoshiro_construct (SeedString (replicate 31 0 ++ [7])) [] = Ok r
    /\ match r with
       | Constructed s =>
           (forall n, xo_wf (Nat.iter n xo_next s) /\ nonzero (Nat.iter n xo_next s))
           /\ le_bytes 8 (xo_0 s) ++ le_bytes 8 (xo_1 s) ++ le_bytes 8 (xo_2 s) ++ le_bytes 8 (xo_3 s) = replicate 31 0 ++ [7]
       | ValueError => exists str, SeedString (replicate 31 0 ++ [7]) = SeedString str
                       /\ (zlen str <> 32 \/ Forall (fun c => c = 0) str)
       | RandomException => SeedString (replicate 31 0 ++ [7]) = SeedNull /\ None ∈ ([] : list (option xoshiro))
       end.
Proof.
  apply (xoshiro_never_zero (SeedString (replicate 31 0 ++ [7])) []). repeat (constructor; [unfold is_byte; lia|]). constructor.
Defined.

(** ** Jumping *)

Lemma rotl_lxor a b k : is_u64 a -> is_u64 b -> 0 < k < 64 -> rotl (Z.lxor a b) k = Z.lxor (rotl a k) (rotl b k).
Proof.
  intros Ha Hb Hk. apply Z.bits_inj'. intros i Hi. rewrite Z.lxor_spec, !rotl_bits by (done || by apply lxor_u64).
  rewrite !Z.lxor_spec. destruct (i <? k); [done|]. by destruct (i <? 64).
Qed.

Lemma shiftl_lxor a b k : 0 <= k -> u64 (Z.shiftl (Z.lxor a b) k) = Z.lxor (u64 (Z.shiftl a k)) (u64 (Z.shiftl b k)).
Proof.
  intros Hk. apply Z.bits_inj'. intros i Hi. rewrite Z.lxor_spec, !u64_bits, !Z.shiftl_spec, Z.lxor_spec by done. by destruct (i <? 64).
Qed.

Lemma xo_xor_wf a b : xo_wf a -> xo_wf b -> xo_wf (xo_xor a b).
Proof. intros (?&?&?&?) (?&?&?&?). split_and!; by apply lxor_u64. Qed.

(** The transition is linear. *)
Lemma xo_next_xor a b : xo_wf a -> xo_wf b -> xo_next (xo_xor a b) = xo_xor (xo_next a) (xo_next b).
Proof.
  destruct a as [a0 a1 a2 a3], b as [b0 b1 b2 b3]. intros (A0&A1&A2&A3) (B0&B1&B2&B3). unfold xo_next, generate_state, xo_xor. cbn in *.
  rewrite shiftl_lxor by lia. replace (Z.lxor (Z.lxor a3 b3) (Z.lxor a1 b1)) with (Z.lxor (Z.lxor a3 a1) (Z.lxor b3 b1)).
  2:{ apply Z.bits_inj'. intros i _. rewrite !Z.lxor_spec. by destruct (Z.testbit a3 i), (Z.testbit b3 i), (Z.testbit a1 i), (Z.testbit b1 i). }
  rewrite rotl_lxor by (by apply lxor_u64 || lia). set (ta := u64 (Z.shiftl a1 17)). set (tb := u64 (Z.shiftl b1 17)).
  f_equal; apply Z.bits_inj'; intros i _; rewrite !Z.lxor_spec;
    repeat match goal with |- context [Z.testbit ?x i] => destruct (Z.testbit x i) end; done.
Qed.

Lemma xo_xor_zero a : xo_xor xo_zero a = a.
Proof. by destruct a. Qed.

Lemma jump_bits_next n w : forall j acc s, xo_wf acc -> xo_wf s ->
  let p := jump_bits n w j acc s in
  xo_wf p.1 /\ xo_wf p.2 /\ jump_bits n w j (xo_next acc) (xo_next s) = (xo_next p.1, xo_next p.2).
Proof.
  induction n as [|n IH]; intros j acc s Ha Hs; [done|]. cbn [jump_bits]. fold (xo_next s). fold (xo_next (xo_next s)).
  destruct (Z.land _ _ =? 0); cbn [negb]; [|rewrite <- xo_next_xor by done]; apply IH; try by apply xo_next_wf; done.
  - done.
  - by apply xo_xor_wf.
Qed.

(** Jumping commutes with generation. *)
Lemma xo_jump_next n words : forall acc s, xo_wf acc -> xo_wf s ->
  let f := fun p w => jump_bits n w 0 p.1 p.2 in
  let p := fold_left f words (acc, s) in
  xo_wf p.1 /\ fold_left f words (xo_next acc, xo_next s) = (xo_next p.1, xo_next p.2).
Proof.
  induction words as [|w words IH]; intros acc s Ha Hs; [done|]. cbn zeta. cbn [fold_left fst snd].
  destruct (jump_bits_next n w 0 acc s Ha Hs) as (H1 & H2 & ->). destruct (jump_bits n w 0 acc s) as [acc' s'].
  by apply IH.
Qed.

Lemma xo_jump_commutes s words : xo_wf s -> xo_wf (xo_jump s words) /\ xo_jump (xo_next s) words = xo_next (xo_jump s words).
Proof.
  intros Hs. unfold xo_jump. assert (xo_wf xo_zero) as Hz by (unfold xo_wf, is_u64, xo_zero; cbn; lia).
  destruct (xo_jump_next 64 words xo_zero s Hz Hs) as [Hw He]. split; [done|].
  change (xo_next xo_zero) with xo_zero in He. by rewrite He.
Qed.

(** Both jumps are compatible with generation: jumping ahead and then drawing any
    number of values leads to the same state as drawing them first. *)
Theorem xoshiro_jump_correct s n : xo_wf s ->
  let draw := Nat.iter n xo_next in
  (xo_wf (php_random_xoshiro256starstar_jump s)
   /\ php_random_xoshiro256starstar_jump (draw s) = draw (php_random_xoshiro256starstar_jump s))
  /\ (xo_wf (php_random_xoshiro256starstar_jump_long s)
      /\ php_random_xoshiro256starstar_jump_long (draw s) = draw (php_random_xoshiro256starstar_jump_long s)).
Proof.
  intros Hs. cbn zeta. unfold php_random_xoshiro256starstar_jump, php_random_xoshiro256starstar_jump_long.
  assert (forall words, xo_wf (xo_jump s words) /\ xo_jump (Nat.iter n xo_next s) words = Nat.iter n xo_next (xo_jump s words)) as H; [|by split].
  intros words. assert (xo_wf (Nat.iter n xo_next s) /\ xo_jump (Nat.iter n xo_next s) words = Nat.iter n xo_next (xo_jump s words)) as [_ H].
  { induction n as [|k [IH1 IH2]]; [done|]. rewrite !Nat.iter_succ, <- IH2. split; [by apply xo_next_wf|by apply xo_jump_commutes]. }
  split; [by apply xo_jump_commutes|done].
Qed.

Lemma xoshiro_jump_correct_witness :
  let s := mkXo 1 2 3 4 in
  (xo_wf (php_random_xoshiro256starstar_jump s)
   /\ php_random_xoshiro256starstar_jump (xo_next s) = xo_next (php_random_xoshiro256starstar_jump s))
  /\ (xo_wf (php_random_xoshiro256starstar_jump_long s)
      /\ php_random_xoshiro256starstar_jump_long (xo_next s) = xo_next (php_random_xoshiro256starstar_jump_long s)).
Proof. apply (xoshiro_jump_correct (mkXo 1 2 3 4) 1). unfold xo_wf, is_u64. cbn. lia. Defined.
