(* ===== verification/RandomSerialOps.v ===== *)
(** * States of engines as arrays (the [serialize] and [unserialize] functions)

    An engine writes its state into a PHP array, as hexadecimal strings and
    integers appended with zend_hash_next_index_insert, and reads it back with
    zend_hash_index_find from an array that may hold anything. *)

From S2P Require Import Prelude.
From S2P Require Import ZendString.
From S2P Require Import HashTypes.
From S2P Require Import HashOps.
From S2P Require Import SplHeapOps.
From S2P Require Import RandomOps.
From S2P Require Import RandomMtOps.
From S2P Require Import RandomMt.
From S2P Require Import RandomHex.
From S2P Require Import Random.

Section Serialize.
Context {E : ZendEnv}.

Definition IS_STRING : Z := 6.
(** The type of a counted string: [IS_STRING | (IS_TYPE_REFCOUNTED << Z_TYPE_FLAGS_SHIFT)]. *)
Definition IS_STRING_EX : Z := 0x106.

(** [ZVAL_STR(&t, php_random_bin2hex_le(...)); zend_hash_next_index_insert(data, &t);] *)
Definition put_word (size : nat) (w : world) (data : HashTable) (x : Z) : res (world * HashTable) :=
  str ← php_random_bin2hex_le (le_bytes size x);
  '(w, data, _) ← zend_hash_next_index_insert w data (ZVal IS_STRING_EX (zend_string_init str));
  Ok (w, data).

Fixpoint put_words (size : nat) (w : world) (data : HashTable) (words : list Z) : res (world * HashTable) :=
  match words with
  | [] => Ok (w, data)
  | x :: words => '(w, data) ← put_word size w data x; put_words size w data words
  end.

(** [ZVAL_LONG(&t, n); zend_hash_next_index_insert(data, &t);] *)
Definition put_long (w : world) (data : HashTable) (n : Z) : res (world * HashTable) :=
  '(w, data, _) ← zend_hash_next_index_insert w data (ZVal IS_LONG n); Ok (w, data).

(** The value at an index, if there is one. *)
Definition get_value (w : world) (data : HashTable) (i : Z) : res (option zval) :=
  t ← zend_hash_index_find data i;
  match t with
  | None => Ok None
  | Some p => v ← zptr_get w data p; Ok (Some v)
  end.

(** One round of the loop that reads words: the bytes are written over the word
    [old], also those before a character that is not a digit. *)
Definition get_word (size : nat) (w : world) (data : HashTable) (i old : Z) : res (Z * bool) :=
  t ← get_value w data i;
  match t with
  | Some (ZVal ty p) =>
      if negb (Z_TYPE (ZVal ty p) =? IS_STRING) || negb (zlen (ZSTR_VAL p) =? 2 * Z.of_nat size) then Ok (old, false)
      else
        '(bytes, ok) ← php_random_hex2bin_le (ZSTR_VAL p);
        Ok (le_value (bytes ++ drop (length bytes) (le_bytes size old)), ok)
  | _ => Ok (old, false)
  end.

(** [for (i = 0; i < n; i++)]: the words from index [i] on are read over [olds]. *)
Fixpoint get_words (size : nat) (w : world) (data : HashTable) (i : Z) (olds : list Z) : res (list Z * bool) :=
  match olds with
  | [] => Ok ([], true)
  | old :: olds =>
      '(x, ok) ← get_word size w data i old;
      if ok : bool then '(xs, ok) ← get_words size w data (i + 1) olds; Ok (x :: xs, ok)
      else Ok (x :: olds, false)
  end.

Definition get_long (w : world) (data : HashTable) (i : Z) : res (option Z) :=
  t ← get_value w data i;
  match t with
  | Some v => if Z_TYPE v =? IS_LONG then n ← Z_LVAL v; Ok (Some n) else Ok None
  | None => Ok None
  end.

Definition zend_hash_num_elements (ht : HashTable) : Z := nNumOfElements ht.

(** ** Mt19937 *)

Definition mt19937_serialize (w : world) (s : php_random_status_state_mt19937) (data : HashTable) : res (world * HashTable) :=
  '(w, data) ← put_words 4 w data (mt_state s);
  '(w, data) ← put_long w data (mt_count s);
  put_long w data (mt_mode s).

(** The state as it is left, and the return value. *)
Definition mt19937_unserialize (w : world) (s : php_random_status_state_mt19937) (data : HashTable)
  : res (php_random_status_state_mt19937 * bool) :=
  if negb (zend_hash_num_elements data =? MT_N + 2) then Ok (s, false)
  else
    '(st, ok) ← get_words 4 w data 0 (mt_state s);
    let s := mkMt st (mt_count s) (mt_mode s) in
    if negb ok then Ok (s, false)
    else
      t ← get_long w data MT_N;
      match t with
      | None => Ok (s, false)
      | Some n =>
          let s := mkMt st (u32 n) (mt_mode s) in
          if MT_N <? mt_count s then Ok (s, false)
          else
            t ← get_long w data (MT_N + 1);
            match t with
            | None => Ok (s, false)
            | Some n =>
                let s := mkMt st (mt_count s) (u8 n) in
                Ok (s, (mt_mode s =? MT_RAND_MT19937) || (mt_mode s =? MT_RAND_PHP))
            end
      end.

(** ** Xoshiro256StarStar *)

Definition xo_words (s : xoshiro) : list Z := [xo_0 s; xo_1 s; xo_2 s; xo_3 s].
Definition xo_of_words (l : list Z) : xoshiro :=
  match l with [a; b; c; d] => mkXo a b c d | _ => xo_zero end.

Definition xoshiro_serialize (w : world) (s : xoshiro) (data : HashTable) : res (world * HashTable) :=
  put_words 8 w data (xo_words s).

Definition xoshiro_unserialize (w : world) (s : xoshiro) (data : HashTable) : res (xoshiro * bool) :=
  if negb (zend_hash_num_elements data =? 4) then Ok (s, false)
  else '(l, ok) ← get_words 8 w data 0 (xo_words s); Ok (xo_of_words l, ok).

(** ** PcgOneseq128XslRr64 *)

Definition pcg_serialize {T} `{Uint128 T} (w : world) (s : T) (data : HashTable) : res (world * HashTable) :=
  '(w, data) ← put_word 8 w data (uint128_hi s);
  put_word 8 w data (uint128_lo s).

(** The words are read into the local array [u]. *)
Definition pcg_unserialize {T} `{Uint128 T} (w : world) (s : T) (u : Z * Z) (data : HashTable) : res (T * bool) :=
  if negb (zend_hash_num_elements data =? 2) then Ok (s, false)
  else
    '(l, ok) ← get_words 8 w data 0 [u.1; u.2];
    match l with
    | [hi; lo] => Ok (if ok : bool then uint128_constant hi lo else s, ok)
    | _ => Ub
    end.

(** ** The combined generator

    The number of elements is not verified. *)

Definition combinedlcg_serialize (w : world) (s : combinedlcg) (data : HashTable) : res (world * HashTable) :=
  put_words 4 w data [u32 s.1; u32 s.2].

Definition combinedlcg_unserialize (w : world) (s : combinedlcg) (data : HashTable) : res (combinedlcg * bool) :=
  '(l, ok) ← get_words 4 w data 0 [u32 s.1; u32 s.2];
  match l with
  | [a; b] => Ok ((i32 a, i32 b), ok)
  | _ => Ub
  end.
End Serialize.
