(* ===== verification/RandomSerial.v ===== *)
(** * Reading back the state of an engine

    A state that was written is read back unchanged; and whatever array is read,
    the engine can be used afterwards. *)

From S2P Require Import Prelude.
From S2P Require Import ZendString.
From S2P Require Import OrderedMap.
From S2P Require Import HashTypes.
From S2P Require Import HashOps.
From S2P Require Import HashChain.
From S2P Require Import HashRehash.
From S2P Require Import HashInv.
From S2P Require Import HashLayout.
From S2P Require Import HashInsert.
From S2P Require Import HashIndex.
From S2P Require Import HashInit.
From S2P Require Import SplHeapOps.
From S2P Require Import RandomOps.
From S2P Require Import RandomEngines.
From S2P Require Import RandomMtOps.
From S2P Require Import RandomMt.
From S2P Require Import RandomHex.
From S2P Require Import Random.
From S2P Require Import RandomSerialOps.

Section Proofs.
Context {E : ZendEnv}.

Lemma new_array_dense addr : exists ht, _zend_new_array addr 8 = Ok ht /\ dense ht [].
Proof.
  pose proof (init_inv addr 8 true) as H. unfold _zend_new_array. set (r := _zend_hash_init_int addr 8 true) in *.
  assert (r = Ok (mkHT addr false false true false false 0 HT_MIN_MASK [HT_INVALID_IDX; HT_INVALID_IDX] [] [] 0 0 8 0 ZEND_LONG_MIN true)) as Hr
    by (vm_compute; reflexivity).
  rewrite Hr in *. eexists. split; [done|]. destruct H as (H1 & H2 & _). split; [done|done|done|by left].
Qed.

(** ** One value *)

(** A word as it is stored. *)
Definition word_zval (size : nat) (v : zval) (x : Z) : Prop :=
  exists str p, v = ZVal IS_STRING_EX p /\ ZSTR_VAL p = str /\ zlen str = 2 * Z.of_nat size
    /\ php_random_hex2bin_le str = Ok (le_bytes size x, true).

Lemma put_word_ok size w data vals x : dense data vals -> zlen vals < HT_MAX_SIZE ->
  exists data' v, put_word size w data x = Ok (w, data') /\ dense data' (vals ++ [v]) /\ word_zval size v x.
Proof.
  intros Hd Hmax. destruct (hex_bin_ok (le_bytes size x) (le_bytes_byte size x)) as (str & H1 & H2 & H3). unfold put_word. rewrite H1, bind_ok.
  destruct (dense_append w data vals (ZVal IS_STRING_EX (zend_string_init str)) Hd Hmax) as (data' & p & He & Hd'); [done|].
  rewrite He, bind_ok. exists data', (ZVal IS_STRING_EX (zend_string_init str)). split_and!; [done|done|].
  exists str, (zend_string_init str). split_and!; [done|apply zend_string_init_val| |done]. rewrite H2. unfold zlen. by rewrite length_le_bytes.
Qed.

Lemma put_words_ok size w words : forall data vals, dense data vals -> zlen vals + zlen words < HT_MAX_SIZE ->
  exists data' vs, put_words size w data words = Ok (w, data') /\ dense data' (vals ++ vs) /\ Forall2 (word_zval size) vs words.
Proof.
  induction words as [|x words IH]; intros data vals Hd Hmax.
  { exists data, []. rewrite app_nil_r. done. }
  rewrite zlen_cons in Hmax. pose proof (zlen_nonneg words). destruct (put_word_ok size w data vals x Hd) as (d1 & v & H1 & Hd1 & Hv); [lia|].
  destruct (IH d1 (vals ++ [v]) Hd1) as (d2 & vs & H2 & Hd2 & Hvs); [rewrite zlen_app; change (zlen [v]) with 1; lia|].
  exists d2, (v :: vs). cbn [put_words]. rewrite H1, bind_ok, H2. split; [done|]. rewrite <- app_assoc in Hd2. split; [done|]. by constructor.
Qed.

Lemma put_long_ok w data vals n : dense data vals -> zlen vals < HT_MAX_SIZE ->
  exists data', put_long w data n = Ok (w, data') /\ dense data' (vals ++ [ZVal IS_LONG n]).
Proof.
  intros Hd Hmax. destruct (dense_append w data vals (ZVal IS_LONG n) Hd Hmax) as (data' & p & He & Hd'); [done|].
  exists data'. unfold put_long. by rewrite He.
Qed.

Lemma get_value_ok w data vals i : dense data vals -> 0 <= i -> get_value w data i = Ok (zget vals i).
Proof.
  intros Hd Hi. destruct (dense_find w data vals i Hd Hi) as (r & Hr & Hf). unfold get_value. rewrite Hr, bind_ok.
  destruct r as [p|], (zget vals i) as [v|]; cbn in Hf; try done. by rewrite Hf.
Qed.

Lemma get_word_ok size w data vals i old v x : dense data vals -> 0 <= i -> zget vals i = Some v -> word_zval size v x ->
  0 <= x < 2 ^ (8 * Z.of_nat size) -> get_word size w data i old = Ok (x, true).
Proof.
  intros Hd Hi Hv (str & p & -> & Hp & Hl & Hh) Hx. unfold get_word. rewrite (get_value_ok _ _ vals), Hv, bind_ok by done.
  change (Z_TYPE (ZVal IS_STRING_EX p) =? IS_STRING) with true. cbn [negb orb]. rewrite Hp, Hl, Z.eqb_refl. cbn [negb orb]. rewrite Hh, bind_ok.
  do 2 f_equal. rewrite drop_ge by (by rewrite !length_le_bytes). by rewrite app_nil_r, le_value_bytes.
Qed.

Lemma get_words_ok size w data vals : dense data vals -> forall vs words olds i rest, 0 <= i ->
  drop (Z.to_nat i) vals = vs ++ rest -> Forall2 (word_zval size) vs words ->
  Forall (fun x => 0 <= x < 2 ^ (8 * Z.of_nat size)) words -> length olds = length words ->
  get_words size w data i olds = Ok (words, true).
Proof.
  intros Hd vs words olds i rest Hi Hdrop Hf. revert olds i Hi Hdrop.
  induction Hf as [|v x vs words Hv _ IH]; intros olds i Hi Hdrop Hx Hl; (destruct olds as [|old olds]; [try done|try done]).
  apply Forall_cons in Hx as [Hx Hxs]. cbn [get_words]. rewrite (get_word_ok size w data vals i old v x Hd Hi).
  - rewrite bind_ok. rewrite (IH olds (i + 1)); [by rewrite bind_ok|lia| |done|by injection Hl].
    replace (Z.to_nat (i + 1)) with (Z.to_nat i + 1)%nat by lia. by rewrite <- drop_drop, Hdrop.
  - unfold zget. rewrite (proj2 (Z.leb_le _ _)) by lia. rewrite <- (Nat.add_0_r (Z.to_nat i)), <- lookup_drop, Hdrop. done.
  - done.
  - done.
Qed.

Lemma get_long_ok w data vals i n : dense data vals -> 0 <= i -> zget vals i = Some (ZVal IS_LONG n) ->
  get_long w data i = Ok (Some (i64 n)).
Proof. intros Hd Hi Hv. unfold get_long. by rewrite (get_value_ok _ _ vals), Hv, bind_ok by done. Qed.

(** ** Round trips *)

Lemma mt_round_trip w addr s old : mt_wf s -> zlen (mt_state old) = MT_N ->
  exists data data', _zend_new_array addr 8 = Ok data /\ mt19937_serialize w s data = Ok (w, data')
    /\ mt19937_unserialize w old data' = Ok (s, true).
Proof.
  destruct s as [st c mode]. intros ((Hz & Hf & Hc) & Hcm & Hm) Hold. cbn [mt_state mt_count mt_mode] in *.
  destruct (new_array_dense addr) as (d0 & Hnew & Hd0). exists d0. unfold mt19937_serialize. cbn [mt_state mt_count mt_mode].
  assert (zlen st < HT_MAX_SIZE - 10) as Hmax by (rewrite Hz; unfold MT_N, HT_MAX_SIZE; lia).
  destruct (put_words_ok 4 w st d0 [] Hd0) as (d1 & vs & Hput & Hd1 & Hvs); [change (zlen []) with 0; lia|]. cbn [app] in Hd1. rewrite Hput, bind_ok.
  assert (zlen vs = MT_N) as Hlv by (unfold zlen in *; by rewrite (Forall2_length _ _ _ Hvs)).
  destruct (put_long_ok w d1 vs c Hd1) as (d2 & H2 & Hd2); [lia|]. rewrite H2, bind_ok.
  destruct (put_long_ok w d2 _ mode Hd2) as (d3 & H3 & Hd3); [rewrite zlen_app; change (zlen [_]) with 1; lia|].
  exists d3. split_and!; [done|done|]. rewrite <- app_assoc in Hd3. cbn [app] in Hd3. set (vals := vs ++ [ZVal IS_LONG c; ZVal IS_LONG mode]) in *.
  unfold mt19937_unserialize. unfold zend_hash_num_elements. rewrite (dense_count _ _ Hd3). assert (zlen vals = MT_N + 2) as Hlen by (unfold vals; rewrite zlen_app, Hlv; done).
  rewrite Hlen, Z.eqb_refl. cbn [negb].
  rewrite (get_words_ok 4 w d3 vals Hd3 vs st (mt_state old) 0 [ZVal IS_LONG c; ZVal IS_LONG mode]); [|lia|done|exact Hvs|exact Hf|unfold zlen in *; lia].
  rewrite bind_ok. cbn [negb mt_count mt_mode].
  assert (forall k x, zget [ZVal IS_LONG c; ZVal IS_LONG mode] k = Some x -> 0 <= k -> zget vals (MT_N + k) = Some x) as Htail.
  { intros k x Hk Hk0. unfold zget in Hk. rewrite (proj2 (Z.leb_le 0 k)) in Hk by lia. unfold vals, zget.
    rewrite (proj2 (Z.leb_le _ _)) by (unfold MT_N; lia). unfold zlen in Hlv. rewrite lookup_app_r by lia. rewrite <- Hk. f_equal. lia. }
  rewrite (get_long_ok w d3 vals MT_N c Hd3); [|done|by apply (Htail 0)]. rewrite bind_ok.
  assert (c < 2 ^ 32 /\ i64 c = c) as [_ ->] by (split; [lia|apply i64_small; lia]). rewrite u32_small by done.
  rewrite (proj2 (Z.ltb_ge _ _)) by done.
  rewrite (get_long_ok w d3 vals (MT_N + 1) mode Hd3); [|done|by apply (Htail 1)]. rewrite bind_ok. by destruct Hm as [-> | ->].
Qed.

Lemma xoshiro_round_trip w addr s old : xo_wf s ->
  exists data data', _zend_new_array addr 8 = Ok data /\ xoshiro_serialize w s data = Ok (w, data')
    /\ xoshiro_unserialize w old data' = Ok (s, true).
Proof.
  destruct s as [a b c d]. intros (Ha & Hb & Hc & Hd). cbn in Ha, Hb, Hc, Hd. destruct (new_array_dense addr) as (d0 & Hnew & Hd0). exists d0.
  destruct (put_words_ok 8 w [a; b; c; d] d0 [] Hd0) as (d1 & vs & Hput & Hd1 & Hvs); [done|]. exists d1. split_and!; [done|done|].
  cbn [app] in Hd1. unfold xoshiro_unserialize, zend_hash_num_elements. rewrite (dense_count _ _ Hd1).
  assert (zlen vs = 4) as -> by (unfold zlen; by rewrite (Forall2_length _ _ _ Hvs)). cbn [Z.eqb Pos.eqb negb].
  rewrite (get_words_ok 8 w d1 vs Hd1 vs [a; b; c; d] (xo_words old) 0 []); [done|lia|by rewrite app_nil_r|done| |done].
  exact (Forall_cons_2 _ _ _ Ha (Forall_cons_2 _ _ _ Hb (Forall_cons_2 _ _ _ Hc (Forall_cons_2 _ _ _ Hd (Forall_nil_2 _))))).
Qed.

Lemma pcg_round_trip {T} `{Uint128Laws T} w addr (s old : T) u : u_wf s ->
  exists data data', _zend_new_array addr 8 = Ok data /\ pcg_serialize w s data = Ok (w, data')
    /\ pcg_unserialize w old u data' = Ok (s, true).
Proof.
  intros Hs. destruct (u_halves_ok s Hs) as [Hhi Hlo]. pose proof (u_val_range s Hs) as Hr. pose proof (div_64_range _ Hr) as Rhi.
  assert (0 <= u_val s mod 2 ^ 64 < 2 ^ 64) as Rlo by (apply Z.mod_pos_bound; lia). rewrite <- Hhi in Rhi. rewrite <- Hlo in Rlo.
  destruct (new_array_dense addr) as (d0 & Hnew & Hd0). exists d0.
  destruct (put_words_ok 8 w [uint128_hi s; uint128_lo s] d0 [] Hd0) as (d1 & vs & Hput & Hd1 & Hvs); [done|]. exists d1.
  split_and!; [done| |].
  { unfold pcg_serialize. cbn [put_words] in Hput. destruct (put_word 8 w d0 (uint128_hi s)) as [[w1 da]| |]; [|done..].
    rewrite bind_ok in *. destruct (put_word 8 w1 da (uint128_lo s)) as [[w2 db]| |]; [|done..]. by rewrite bind_ok in Hput. }
  cbn [app] in Hd1. unfold pcg_unserialize, zend_hash_num_elements. rewrite (dense_count _ _ Hd1).
  assert (zlen vs = 2) as -> by (unfold zlen; by rewrite (Forall2_length _ _ _ Hvs)). cbn [Z.eqb Pos.eqb negb].
  rewrite (get_words_ok 8 w d1 vs Hd1 vs [uint128_hi s; uint128_lo s] [u.1; u.2] 0 []); [|lia|by rewrite app_nil_r|done|exact (Forall_cons_2 _ _ _ Rhi (Forall_cons_2 _ _ _ Rlo (Forall_nil_2 _)))|done].
  rewrite bind_ok. do 2 f_equal. destruct (u_constant_ok _ _ Rhi Rlo) as [W1 E1]. apply u_val_inj; [done|done|].
  rewrite E1, Hhi, Hlo. pose proof (Z.div_mod (u_val s) (2 ^ 64)). lia.
Qed.

Lemma i32_u32 x : - 2 ^ 31 <= x < 2 ^ 31 -> i32 (u32 x) = x.
Proof.
  intros Hx. unfold i32, sint, u32. rewrite Zmod_mod. change (2 ^ (32 - 1)) with (2 ^ 31). destruct (Z.le_gt_cases 0 x).
  - rewrite Z.mod_small by lia. by rewrite (proj2 (Z.ltb_lt _ _)) by lia.
  - rewrite <- (Z.mod_add x 1), Z.mod_small by lia. rewrite (proj2 (Z.ltb_ge _ _)) by lia. lia.
Qed.

Lemma combinedlcg_round_trip w addr s old : - 2 ^ 31 <= s.1 < 2 ^ 31 -> - 2 ^ 31 <= s.2 < 2 ^ 31 ->
  exists data data', _zend_new_array addr 8 = Ok data /\ combinedlcg_serialize w s data = Ok (w, data')
    /\ combinedlcg_unserialize w old data' = Ok (s, true).
Proof.
  destruct s as [a b]. intros Ha Hb. cbn [fst snd] in *. destruct (new_array_dense addr) as (d0 & Hnew & Hd0). exists d0.
  destruct (put_words_ok 4 w [u32 a; u32 b] d0 [] Hd0) as (d1 & vs & Hput & Hd1 & Hvs); [done|]. exists d1. split_and!; [done|done|].
  cbn [app] in Hd1. unfold combinedlcg_unserialize.
  rewrite (get_words_ok 4 w d1 vs Hd1 vs [u32 a; u32 b] [u32 old.1; u32 old.2] 0 []); [|lia|by rewrite app_nil_r|done| |done].
  - rewrite bind_ok. by rewrite !i32_u32.
  - exact (Forall_cons_2 _ _ _ (u32_range a) (Forall_cons_2 _ _ _ (u32_range b) (Forall_nil_2 _))).
Qed.

(** C24: Every engine with a state that can be saved reads back what it wrote: the array
    that serialize fills, starting from an empty one, makes unserialize succeed and
    restores the state, whatever the state of the engine was before. *)
Theorem engines_round_trip {T} `{Uint128Laws T} w addr (mt mt' : php_random_status_state_mt19937) (xo xo' : xoshiro) (pcg pcg' : T) u
    (lcg lcg' : combinedlcg) :
  mt_wf mt -> zlen (mt_state mt') = MT_N -> xo_wf xo -> u_wf pcg ->
  - 2 ^ 31 <= lcg.1 < 2 ^ 31 -> - 2 ^ 31 <= lcg.2 < 2 ^ 31 ->
  let restores {S : Type} (ser : HashTable -> res (world * HashTable)) (unser : HashTable -> res (S * bool)) (s : S) :=
    exists data data', _zend_new_array addr 8 = Ok data /\ ser data = Ok (w, data') /\ unser data' = Ok (s, true) in
  restores (mt19937_serialize w mt) (mt19937_unserialize w mt') mt
  /\ restores (xoshiro_serialize w xo) (xoshiro_unserialize w xo') xo
  /\ restores (pcg_serialize w pcg) (pcg_unserialize w pcg' u) pcg
  /\ restores (combinedlcg_serialize w lcg) (combinedlcg_unserialize w lcg') lcg.
Proof.
  intros Hmt Hmt' Hxo Hpcg Hl1 Hl2. cbn zeta.
  split_and!; [by apply mt_round_trip|by apply xoshiro_round_trip|by apply pcg_round_trip|by apply combinedlcg_round_trip].
Qed.

(** ** Any array *)

Lemma get_value_any w data i : ht_inv data -> 0 <= i -> get_value w data i = Ok (olookup (KInt i) (ht_elements data)).
Proof.
  intros Hinv Hi. destruct (zend_hash_index_find_ok w data i Hinv Hi) as (r & Hr & Hf). unfold get_value. rewrite Hr, bind_ok.
  destruct r as [p|], (olookup _ _) as [v|]; cbn in Hf; try done. by rewrite Hf.
Qed.

(** The strings among the values of a table hold bytes. *)
Definition byte_strings (data : HashTable) : Prop :=
  forall k t p, (k, ZVal t p) ∈ ht_elements data -> Z_TYPE (ZVal t p) = IS_STRING -> Forall is_byte (ZSTR_VAL p).

Lemma olookup_elem (k : hkey) (v : zval) l : olookup k l = Some v -> (k, v) ∈ l.
Proof.
  induction l as [|[k' v'] l IH]; [done|]. cbn. case_decide as Hk; [|intros H; by right; apply IH].
  subst. intros [= ->]. by left.
Qed.

Lemma get_word_any size w data i old : ht_inv data -> byte_strings data -> 0 <= i -> 0 <= old < 2 ^ (8 * Z.of_nat size) ->
  exists x ok, get_word size w data i old = Ok (x, ok) /\ 0 <= x < 2 ^ (8 * Z.of_nat size).
Proof.
  intros Hinv Hb Hi Hold. unfold get_word. rewrite get_value_any, bind_ok by done.
  destruct (olookup _ _) as [[| | | |ty p]|] eqn:Hv; try by exists old, false. apply olookup_elem in Hv.
  destruct (_ || _) eqn:Hg; [by exists old, false|]. apply orb_false_iff in Hg as [Ht Hg].
  apply negb_false_iff, Z.eqb_eq in Hg, Ht. specialize (Hb _ _ _ Hv Ht). destruct (hex2bin_loop_ok size [] (ZSTR_VAL p) []) as (bytes & ok & He & Hby & Hok); [unfold zlen in Hg; lia|done|done|].
  unfold php_random_hex2bin_le. rewrite Hg, Z.shiftr_div_pow2, (Z.mul_comm 2), Z.div_mul, Nat2Z.id by lia.
  cbn [app] in He. change (zlen []) with 0 in He. rewrite He, bind_ok. eexists _, _. split; [done|].
  assert (length bytes <= size)%nat as Hlen.
  { pose proof (hex2bin_loop_length size (ZSTR_VAL p) 0 [] bytes ok He) as Hll. cbn in Hll. lia. }
  assert (Forall is_byte (bytes ++ drop (length bytes) (le_bytes size old))) as Hall.
  { apply Forall_app. split; [done|]. apply Forall_drop, le_bytes_byte. }
  pose proof (le_value_range _ Hall) as Hr. rewrite zlen_app in Hr. unfold zlen in Hr. rewrite length_drop, length_le_bytes in Hr.
  by replace (8 * (Z.of_nat (length bytes) + Z.of_nat (size - length bytes))) with (8 * Z.of_nat size) in Hr by lia.
Qed.

Lemma get_words_any size w data : ht_inv data -> byte_strings data -> forall olds i, 0 <= i ->
  Forall (fun x => 0 <= x < 2 ^ (8 * Z.of_nat size)) olds ->
  exists xs ok, get_words size w data i olds = Ok (xs, ok) /\ length xs = length olds
    /\ Forall (fun x => 0 <= x < 2 ^ (8 * Z.of_nat size)) xs.
Proof.
  intros Hinv Hb. induction olds as [|old olds IH]; intros i Hi Ho; [by exists [], true|]. apply Forall_cons in Ho as [Ho Hos].
  cbn [get_words]. destruct (get_word_any size w data i old Hinv Hb Hi Ho) as (x & ok & -> & Hx). rewrite bind_ok. destruct ok.
  - destruct (IH (i + 1)) as (xs & ok & -> & Hl & Hxs); [lia|done|]. rewrite bind_ok. exists (x :: xs), ok. split; [done|].
    split; [cbn; by rewrite Hl|by constructor].
  - exists (x :: olds), false. split_and!; [done|done|by constructor].
Qed.

Lemma get_long_any w data i : ht_inv data -> 0 <= i -> exists o, get_long w data i = Ok o.
Proof.
  intros Hinv Hi. unfold get_long. rewrite get_value_any, bind_ok by done. destruct (olookup _ _) as [v|]; [|by eexists].
  destruct (Z.eqb_spec (Z_TYPE v) IS_LONG) as [Ht|]; [|by eexists]. destruct v as [| | | |t p]; try by cbv in Ht.
  cbn [Z_LVAL]. rewrite Ht, Z.eqb_refl, bind_ok. by eexists.
Qed.

(** C25: Unserializing Mt19937 from any array whatsoever, also when it is refused half
    way, leaves an engine that can be used: generating any number of values stays
    within the state. A state that is accepted is well formed. *)
Theorem mt19937_unserialize_safe w s data n : ht_inv data -> byte_strings data -> mt_words_ok s ->
  exists s' ok, mt19937_unserialize w s data = Ok (s', ok) /\ mt_words_ok s' /\ (ok = true -> mt_wf s')
    /\ exists s'' zs, mt_outputs n s' = Ok (s'', zs) /\ Forall is_u32 zs.
Proof.
  intros Hinv Hb Hs.
  assert (forall n s, mt_words_ok s -> exists s'' zs, mt_outputs n s = Ok (s'', zs) /\ Forall is_u32 zs) as Hgen.
  { clear. induction n as [|n IH]; intros s Hs; [by eexists _, []|]. cbn [mt_outputs].
    destruct (generate_safe s Hs) as (s1 & z & -> & H1 & _ & _ & Hz). rewrite bind_ok. destruct (IH s1 H1) as (s2 & zs & -> & Hzs).
    rewrite bind_ok. eexists _, _. split; [done|]. by constructor. }
  assert (exists s' ok, mt19937_unserialize w s data = Ok (s', ok) /\ mt_words_ok s' /\ (ok = true -> mt_wf s')) as (s' & ok & -> & H1 & H2);
    [|exists s', ok; split_and!; [done|done|done|by apply Hgen]].
  unfold mt19937_unserialize. destruct (negb _); [by exists s, false|]. destruct s as [st c mode]. destruct Hs as (Hz & Hf & Hc).
  cbn [mt_state mt_count mt_mode] in *. destruct (get_words_any 4 w data Hinv Hb st 0) as (xs & ok & -> & Hl & Hxs); [lia|done|].
  assert (zlen xs = MT_N) as Hzx by (unfold zlen in *; lia). assert (mt_words_ok (mkMt xs c mode)) as H0 by done. rewrite bind_ok.
  destruct ok; cbn [negb]; [|by eexists _, false].
  destruct (get_long_any w data MT_N Hinv ltac:(done)) as [[n1|] ->]; rewrite bind_ok; [|by eexists _, false]. cbn [mt_count].
  assert (forall m, mt_words_ok (mkMt xs (u32 n1) m)) as H1 by (intros m; split_and!; try done; apply u32_range).
  destruct (Z.ltb_spec MT_N (u32 n1)); [by eexists _, false|].
  destruct (get_long_any w data (MT_N + 1) Hinv ltac:(done)) as [[n2|] ->]; rewrite bind_ok; [|by eexists _, false]. cbn [mt_mode].
  eexists _, _. split; [done|]. split; [done|]. intros Ht. split; [done|]. split; [done|]. cbn [mt_mode].
  apply orb_true_iff in Ht. by rewrite !Z.eqb_eq in Ht.
Qed.
End Proofs.

(** ** Concrete runs *)

Lemma demo_mt_wf : mt_wf mt19937_alloc.
Proof.
  split; [|split; [done|by left]]. split; [done|]. split; [|done]. apply Forall_replicate. done.
Qed.

Lemma engines_round_trip_witness :
  let restores {S : Type} (ser : HashTable -> res (world * HashTable)) (unser : HashTable -> res (S * bool)) (s : S) :=
    exists data data', _zend_new_array 1000 8 = Ok data /\ ser data = Ok (w0, data') /\ unser data' = Ok (s, true) in
  restores (mt19937_serialize w0 mt19937_alloc) (mt19937_unserialize w0 mt19937_alloc) mt19937_alloc
  /\ restores (xoshiro_serialize w0 (mkXo 1 2 3 4)) (xoshiro_unserialize w0 xo_zero) (mkXo 1 2 3 4)
  /\ restores (pcg_serialize w0 (5 : Z)) (pcg_unserialize w0 (6 : Z) (0, 0)) (5 : Z)
  /\ restores (combinedlcg_serialize w0 (7, 8)) (combinedlcg_unserialize w0 (0, 0)) (7, 8).
Proof.
  apply (engines_round_trip w0 1000 mt19937_alloc mt19937_alloc (mkXo 1 2 3 4) xo_zero (5 : Z) (6 : Z) (0, 0) (7, 8) (0, 0) demo_mt_wf);
    [reflexivity|unfold xo_wf, is_u64; cbn; lia|unfold u_wf; cbn; lia|cbn; lia|cbn; lia].
Defined.

Lemma mt19937_unserialize_safe_witness :
  exists s' ok, mt19937_unserialize w0 mt19937_alloc demo_packed = Ok (s', ok) /\ mt_words_ok s' /\ (ok = true -> mt_wf s')
    /\ exists s'' zs, mt_outputs 3 s' = Ok (s'', zs) /\ Forall is_u32 zs.
Proof.
  apply (mt19937_unserialize_safe w0 mt19937_alloc demo_packed 3 demo_packed_inv); [|apply demo_mt_wf].
  intros k t p Hin Ht. vm_compute in Hin. apply list_elem_of_singleton in Hin. injection Hin as -> -> ->. by cbv in Ht.
Defined.

(** The constructor refuses a seed of NUL bytes, but a serialized zero state is
    accepted. *)
Example xoshiro_zero_accepted :
  (data ← _zend_new_array 1000 8;
   '(w, data) ← xoshiro_serialize w0 xo_zero data;
   xoshiro_unserialize w (mkXo 1 2 3 4) data) = Ok (xo_zero, true)
  /\ xoshiro_construct (SeedString (replicate 32 0)) [] = Ok ValueError.
Proof. split; vm_compute; reflexivity. Qed.

(** The counter and the mode are truncated before they are tested. *)
Example mt19937_truncated_counter :
  (data ← _zend_new_array 1000 8;
   '(w, data) ← put_words 4 w0 data (mt_state mt19937_alloc);
   '(w, data) ← put_long w data (2 ^ 32 + 3);
   '(w, data) ← put_long w data 257;
   mt19937_unserialize w mt19937_alloc data) = Ok (mkMt (mt_state mt19937_alloc) 3 1, true).
Proof. vm_compute. reflexivity. Qed.
