(* ===== verification/RandomizerOps.v ===== *)
(** * Using an engine: Random\Randomizer and the shuffling functions

    nextInt, getInt and getBytes of randomizer.c, php_binary_string_shuffle of
    standard/string.c and php_array_data_shuffle of standard/array.c, over any
    engine. *)

From S2P Require Import Prelude.
From S2P Require Import ZendString.
From S2P Require Import HashTypes.
From S2P Require Import HashOps.
From S2P Require Import HashApplyOps.
From S2P Require Import RandomOps.

(** [temp = l[i]; l[i] = l[j]; l[j] = temp;] *)
Definition swap_slots {A} (l : list A) (i j : Z) : res (list A) :=
  temp ← rd l i;
  x ← rd l j;
  l ← wr l i x;
  wr l j temp.

Section Randomizer.
Context {E : ZendEnv} {S : Type} (algo : php_random_algo S).
Implicit Types (status : php_random_status S).

(** What a method ends with: a value or a pending exception. *)
Inductive method_result (A : Type) : Type :=
| Returned (a : A)
| Thrown.
Arguments Returned {A} a.
Arguments Thrown {A}.

Definition nextInt status : res (php_random_status S * method_result Z) :=
  '(status, result) ← generate algo status;
  if r_exception status then Ok (status, Thrown)
  else if 8 <? last_generated_size status then Ok (status, Thrown)
  else Ok (status, Returned (i64 (Z.shiftr result 1))).

(** The branch for an Mt19937 engine in the mode MT_RAND_PHP, which scales a
    floating-point number, is not part of the model. *)
Definition getInt status (min max : Z) : res (php_random_status S * method_result Z) :=
  if max <? min then Ok (status, Thrown)
  else
    '(status, r) ← php_random_range algo status min max;
    match r with RNumber n => Ok (status, Returned n) | _ => Ok (status, Thrown) end.

(** [for (i = 0; i < last_generated_size; i++)]: bytes are appended until the string
    is full. *)
Fixpoint put_bytes (size : nat) (result i length : Z) (str : list Z) : list Z :=
  match size with
  | O => str
  | Datatypes.S size =>
      let str := str ++ [Z.land (Z.shiftr result (i * 8)) 0xff] in
      if length <=? zlen str then str else put_bytes size result (i + 1) length str
  end.

Fixpoint getBytes_loop (fuel : nat) status (length : Z) (str : list Z) : res (php_random_status S * method_result (list Z)) :=
  match fuel with
  | O => Ub
  | Datatypes.S fuel =>
      if zlen str <? length then
        '(status, result) ← generate algo status;
        if r_exception status then Ok (status, Thrown)
        else getBytes_loop fuel status length (put_bytes (Z.to_nat (last_generated_size status)) result 0 length str)
      else Ok (status, Returned str)
  end.

Definition getBytes status (length : Z) : res (php_random_status S * method_result (list Z)) :=
  if length <? 1 then Ok (status, Thrown) else getBytes_loop (Datatypes.S (Z.to_nat length)) status length [].

(** ** php_binary_string_shuffle

    [while (--n_left)], entered with [n_left = n + 1]; the second component is
    false when the engine failed. *)
Fixpoint string_shuffle_loop (n : nat) status (str : list Z) : res (php_random_status S * list Z * bool) :=
  match n with
  | O => Ok (status, str, true)
  | Datatypes.S k =>
      let n_left := Z.of_nat n in
      '(status, r) ← php_random_range algo status 0 n_left;
      match r with
      | RNumber rnd_idx =>
          str ← (if negb (rnd_idx =? n_left) then swap_slots str n_left rnd_idx else Ok str);
          string_shuffle_loop k status str
      | _ => Ok (status, str, false)
      end
  end.

Definition php_binary_string_shuffle status (str : list Z) (len : Z) : res (php_random_status S * list Z * bool) :=
  if len <=? 1 then Ok (status, str, true) else string_shuffle_loop (Z.to_nat (len - 1)) status str.

(** ** php_array_data_shuffle *)

(** The loop that closes the gaps: [idx] runs over the used slots, [j] is the next
    slot to fill; with [iters] the iterators are moved along. *)
Fixpoint shuffle_squeeze (fuel : nat) (iters : bool) (w : world) (hash : HashTable) (P : list zval) (idx j iter_pos : Z)
  : res (world * list zval) :=
  match fuel with
  | O => Ub
  | Datatypes.S fuel =>
      if idx <? nNumUsed hash then
        zv ← rd P idx;
        if is_undef zv then shuffle_squeeze fuel iters w hash P (idx + 1) j iter_pos
        else if negb (j =? idx) then
          P ← wr P j zv;
          let '(w, iter_pos) :=
            if iters && (idx =? iter_pos) then
              let w := zend_hash_iterators_update w hash idx j in
              (w, zend_hash_iterators_lower_pos w hash (iter_pos + 1))
            else (w, iter_pos) in
          shuffle_squeeze fuel iters w hash P (idx + 1) (j + 1) iter_pos
        else shuffle_squeeze fuel iters w hash P (idx + 1) (j + 1) iter_pos
      else Ok (w, P)
  end.

Fixpoint array_shuffle_loop (n : nat) (iters : bool) (w : world) (hash : HashTable) status (P : list zval)
  : res (world * php_random_status S * list zval * bool) :=
  match n with
  | O => Ok (w, status, P, true)
  | Datatypes.S k =>
      let n_left := Z.of_nat n in
      '(status, r) ← php_random_range algo status 0 n_left;
      match r with
      | RNumber rnd_idx =>
          if negb (rnd_idx =? n_left) then
            P ← swap_slots P n_left rnd_idx;
            let w := if iters then zend_hash_iterators_update w hash rnd_idx n_left else w in
            array_shuffle_loop k iters w hash status P
          else array_shuffle_loop k iters w hash status P
      | _ => Ok (w, status, P, false)
      end
  end.

Definition php_array_data_shuffle (w : world) (hash : HashTable) status
  : res (world * HashTable * php_random_status S * bool) :=
  let n_elems := nNumOfElements hash in
  if n_elems <? 1 then Ok (w, hash, status, true)
  else
    '(w, hash) ← (if negb (f_packed hash) then
                    let w := if negb (HT_HAS_STATIC_KEYS_ONLY hash) then release_keys (used_buckets hash) w else w in
                    hash ← zend_hash_to_packed hash; Ok (w, hash)
                  else Ok (w, hash));
    let iters := HT_HAS_ITERATORS hash in
    let iter_pos := if iters then zend_hash_iterators_lower_pos w hash 0 else 0 in
    '(w, P) ← (if negb (nNumUsed hash =? nNumOfElements hash) then
                 shuffle_squeeze (Datatypes.S (Z.to_nat (nNumUsed hash))) iters w hash (arPacked hash) 0 0 iter_pos
               else Ok (w, arPacked hash));
    '(w, status, P, ok) ← array_shuffle_loop (Z.to_nat (n_elems - 1)) iters w hash status P;
    let hash := set_arPacked P hash in
    if negb ok then Ok (w, hash, status, false)
    else Ok (w, set_counts n_elems (nNumOfElements hash) (nTableSize hash) 0 n_elems hash, status, true).
End Randomizer.
Arguments Returned {A} a.
Arguments Thrown {A}.
