(* ===== verification/Randomizer.v ===== *)
(** * Correctness of the shuffling functions and of Random\Randomizer

    A shuffled string or array is a permutation; the sequences of numbers drawn
    from the ranges correspond one to one to the permutations, so that unbiased
    ranges give every permutation with the same probability. *)

From S2P Require Import Prelude.
From S2P Require Import ZendString.
From S2P Require Import OrderedMap.
From S2P Require Import HashTypes.
From S2P Require Import HashOps.
From S2P Require Import HashChain.
From S2P Require Import HashRehash.
From S2P Require Import HashInv.
From S2P Require Import HashLayout.
From S2P Require Import HashInsert.
From S2P Require Import HashIndex.
From S2P Require Import HashInit.
From S2P Require Import HashApplyOps.
From S2P Require Import SortOps.
From S2P Require Import SortSpec.
From S2P Require Import SortTheorems.
From S2P Require Import RandomOps.
From S2P Require Import RandomEngines.
From S2P Require Import Random.
From S2P Require Import RandomHex.
From S2P Require Import RandomMtOps.
From S2P Require Import RandomMt.
From S2P Require Import RandomizerOps.

(** ** Exchanging two slots *)

Lemma swap_slots_ok {A} (l : list A) i j : 0 <= i < zlen l -> 0 <= j < zlen l -> swap_slots l i j = Ok (lswap l i j).
Proof.
  intros Hi Hj. unfold swap_slots, lswap. destruct (zget_is_Some l i Hi) as [x Hx], (zget_is_Some l j Hj) as [y Hy].
  rewrite (rd_ok _ _ _ Hx), (rd_ok _ _ _ Hy), !bind_ok, Hx, Hy. rewrite wr_ok, bind_ok by done. by rewrite wr_ok by (by rewrite zlen_zset).
Qed.

(** ** Fisher-Yates as a function of the numbers drawn *)

(** [cs] holds the number drawn for the positions [n], [n - 1], ..., 1. *)
Fixpoint fisher_yates {A} (n : nat) (cs : list Z) (l : list A) : list A :=
  match n, cs with
  | S k, c :: cs => fisher_yates k cs (lswap l (Z.of_nat n) c)
  | _, _ => l
  end.

(** The numbers lie in the ranges they are drawn from. *)
Fixpoint drawn (n : nat) (cs : list Z) : Prop :=
  match n, cs with
  | O, [] => True
  | S k, c :: cs => 0 <= c <= Z.of_nat n /\ drawn k cs
  | _, _ => False
  end.

Lemma lswap_self {A} (l : list A) i : lswap l i i = l.
Proof.
  unfold lswap. destruct (zget l i) as [x|] eqn:Hx; [|done]. rewrite zset_zset. pose proof (zget_Some_range _ _ _ Hx) as Hr.
  unfold zget, zset in *. rewrite (proj2 (Z.leb_le _ _)) in Hx by lia. by apply list_insert_id.
Qed.

Lemma fisher_yates_outside {A} n : forall cs (l : list A) k, drawn n cs -> Z.of_nat n < zlen l -> Z.of_nat n < k ->
  zget (fisher_yates n cs l) k = zget l k.
Proof.
  induction n as [|n IH]; intros cs l k Hd Hl Hk; [by destruct cs|]. destruct cs as [|c cs]; [done|]. destruct Hd as [Hc Hd].
  cbn [fisher_yates]. rewrite IH by (try done; rewrite ?zlen_lswap; lia). rewrite zget_lswap by lia.
  rewrite !(proj2 (Z.eqb_neq _ _)) by lia. done.
Qed.

Lemma fisher_yates_perm {A} n : forall cs (l : list A), fisher_yates n cs l ≡ₚ l.
Proof.
  induction n as [|n IH]; intros cs l; [by destruct cs|]. destruct cs as [|c cs]; [done|]. cbn [fisher_yates]. by rewrite IH, lswap_perm.
Qed.

(** Lists that agree beyond [n] and are permutations of one another. *)
Definition rearranged {A} (n : nat) (l l' : list A) : Prop :=
  l' ≡ₚ l /\ forall k, Z.of_nat n < k -> zget l' k = zget l k.

Lemma rearranged_find {A} n (l l' : list A) y : NoDup l -> rearranged n l l' -> Z.of_nat n < zlen l -> zget l' (Z.of_nat n) = Some y ->
  exists c, 0 <= c <= Z.of_nat n /\ zget l c = Some y.
Proof.
  intros Hnd [Hp Ho] Hn Hy. assert (y ∈ l) as Hin.
  { rewrite <- Hp. unfold zget in Hy. destruct (0 <=? Z.of_nat n); [|done]. by eapply list_elem_of_lookup_2. }
  apply list_elem_of_lookup in Hin as [i Hi]. exists (Z.of_nat i).
  assert (zget l (Z.of_nat i) = Some y) as Hz by (unfold zget; by rewrite (proj2 (Z.leb_le _ _)), Nat2Z.id by lia).
  split; [|done]. destruct (Z.le_gt_cases (Z.of_nat i) (Z.of_nat n)); [lia|]. exfalso.
  pose proof (Ho (Z.of_nat i) ltac:(lia)) as Hsame. rewrite Hz in Hsame. assert (NoDup l') as Hnd' by (by rewrite Hp).
  unfold zget in Hy, Hsame. rewrite (proj2 (Z.leb_le _ _)) in Hy by lia. rewrite (proj2 (Z.leb_le _ _)) in Hsame by lia.
  pose proof (NoDup_lookup _ _ _ _ Hnd' Hy Hsame). lia.
Qed.

Lemma zget_nodup {A} (l : list A) i j x : NoDup l -> zget l i = Some x -> zget l j = Some x -> i = j.
Proof.
  intros Hn Hi Hj. pose proof (zget_Some_range _ _ _ Hi). pose proof (zget_Some_range _ _ _ Hj). unfold zget in *.
  rewrite (proj2 (Z.leb_le _ _)) in Hi by lia. rewrite (proj2 (Z.leb_le _ _)) in Hj by lia.
  pose proof (NoDup_lookup _ _ _ _ Hn Hi Hj). lia.
Qed.

Lemma rearranged_0 {A} (l l' : list A) : rearranged 0 l l' -> l' = l.
Proof.
  intros [Hp Ho]. pose proof (Permutation_length Hp) as Hl. destruct l as [|x l], l' as [|y l']; try done.
  assert (l' = l) as ->.
  { apply list_eq. intros i. specialize (Ho (Z.of_nat (S i)) ltac:(lia)). unfold zget in Ho.
    rewrite (proj2 (Z.leb_le _ _)), Nat2Z.id in Ho by lia. exact Ho. }
  f_equal.
  assert ([y] ++ l ≡ₚ [x] ++ l) as Hq by exact Hp. apply Permutation_app_inv_r in Hq. apply Permutation_length_1_inv in Hq. by injection Hq.
Qed.

Lemma fisher_yates_unique {A} n : forall (l l' : list A), NoDup l -> Z.of_nat n < zlen l -> rearranged n l l' ->
  exists cs, drawn n cs /\ fisher_yates n cs l = l' /\ forall cs', drawn n cs' -> fisher_yates n cs' l = l' -> cs' = cs.
Proof.
  induction n as [|n IH]; intros l l' Hnd Hl Hr.
  { apply rearranged_0 in Hr as ->. exists []. split_and!; [done|done|]. intros cs' Hd _. by destruct cs'. }
  pose proof (Permutation_length (proj1 Hr)) as Hlen. destruct (zget_is_Some l' (Z.of_nat (S n))) as [y Hy]; [unfold zlen in *; lia|].
  destruct (rearranged_find _ _ _ _ Hnd Hr Hl Hy) as (c & Hc & Hcy). set (l1 := lswap l (Z.of_nat (S n)) c).
  assert (NoDup l1) as Hnd1 by (unfold l1; by rewrite lswap_perm).
  assert (rearranged n l1 l') as Hr1.
  { split; [unfold l1; rewrite lswap_perm; apply Hr|]. intros k Hk. unfold l1. rewrite zget_lswap by lia.
    destruct (Z.eqb_spec k (Z.of_nat (S n))) as [->|Hne]; [by rewrite Hy|].
    rewrite (proj2 (Z.eqb_neq _ _)) by lia. apply Hr. lia. }
  destruct (IH l1 l' Hnd1) as (cs & Hd & Hf & Hu); [unfold l1; rewrite zlen_lswap; lia|done|].
  exists (c :: cs). split_and!; [done|done|]. intros cs' Hd' Hf'. destruct cs' as [|c' cs']; [done|]. destruct Hd' as [Hc' Hd'].
  cbn [fisher_yates] in Hf'. assert (c' = c) as ->.
  { assert (zget l c' = Some y) as Hcy'; [|exact (zget_nodup l c' c y Hnd Hcy' Hcy)].
    rewrite <- Hf', fisher_yates_outside in Hy by (try done; rewrite ?zlen_lswap; lia). rewrite zget_lswap in Hy by lia.
    by rewrite Z.eqb_refl in Hy. }
  f_equal. by apply Hu.
Qed.

Section Shuffle.
Context {E : ZendEnv} {S : Type} (algo : php_random_algo S) (I : php_random_status S -> Prop) (Hprod : productive algo I).
Implicit Types (status : php_random_status S).

Lemma range_0 status n : I status -> (0 < n < 2 ^ 62)%Z ->
  exists status' r, php_random_range algo status 0 n = Ok (status', r) /\ I status'
    /\ match r with RNumber c => 0 <= c <= n | _ => True end.
Proof.
  intros Hi Hn. destruct (random_range_ok algo I status 0 n Hprod Hi) as (st & r & He & Hi' & _ & Hr);
    [unfold ZEND_LONG_MIN, ZEND_LONG_MAX; lia..|]. exists st, r. split_and!; [done|done|]. by destruct r.
Qed.

(** ** php_binary_string_shuffle *)

Lemma string_shuffle_loop_ok n : forall status str, I status -> Z.of_nat n < zlen str -> zlen str < 2 ^ 62 ->
  exists status' str' ok, string_shuffle_loop algo n status str = Ok (status', str', ok) /\ I status' /\ str' ≡ₚ str
    /\ (ok = true -> exists cs, drawn n cs /\ str' = fisher_yates n cs str).
Proof.
  induction n as [|n IH]; intros status str Hi Hn Hl; [exists status, str, true; split_and!; try done; by exists []|].
  cbn [string_shuffle_loop]. destruct (range_0 status (Z.of_nat (Datatypes.S n)) Hi) as (st & r & -> & Hi' & Hr); [lia|]. rewrite bind_ok.
  destruct r as [c| |]; [|by exists st, str, false..].
  assert ((if negb (c =? Z.of_nat (Datatypes.S n)) then swap_slots str (Z.of_nat (Datatypes.S n)) c else Ok str)
    = Ok (lswap str (Z.of_nat (Datatypes.S n)) c)) as ->.
  { destruct (Z.eqb_spec c (Z.of_nat (Datatypes.S n))) as [->|]; cbn [negb]; [by rewrite lswap_self|]. by apply swap_slots_ok; lia. }
  rewrite bind_ok. destruct (IH st (lswap str (Z.of_nat (Datatypes.S n)) c) Hi') as (st' & str' & ok & He & Hi2 & Hp & Hc);
    [rewrite zlen_lswap; lia..|]. exists st', str', ok. split_and!; [done|done|by rewrite Hp, lswap_perm|].
  intros ->. destruct (Hc eq_refl) as (cs & Hd & ->). by exists (c :: cs).
Qed.

(** ** php_array_data_shuffle *)

Lemma array_shuffle_loop_ok n iters hash : forall w status P, I status -> Z.of_nat n < zlen P -> zlen P < 2 ^ 62 ->
  exists w' status' P' ok, array_shuffle_loop algo n iters w hash status P = Ok (w', status', P', ok) /\ I status'
    /\ swaps_in 0 (Z.of_nat n + 1) P P'.
Proof.
  induction n as [|n IH]; intros w status P Hi Hn Hl; [exists w, status, P, true; split_and!; try done; apply rtc_refl|].
  cbn [array_shuffle_loop]. destruct (range_0 status (Z.of_nat (Datatypes.S n)) Hi) as (st & r & -> & Hi' & Hr); [lia|]. rewrite bind_ok.
  destruct r as [c| |]; [|exists w, st, P, false; split_and!; try done; apply rtc_refl..].
  destruct (Z.eqb_spec c (Z.of_nat (Datatypes.S n))) as [->|Hne]; cbn [negb].
  - destruct (IH w st P Hi') as (w' & st' & P' & ok & He & Hi2 & Hs); [lia..|]. exists w', st', P', ok. split_and!; [done|done|].
    eapply swaps_in_mono; [exact Hs|lia|lia].
  - rewrite swap_slots_ok, bind_ok by lia. set (w1 := if iters then _ else w).
    destruct (IH w1 st (lswap P (Z.of_nat (Datatypes.S n)) c) Hi') as (w' & st' & P' & ok & He & Hi2 & Hs); [rewrite zlen_lswap; lia..|].
    exists w', st', P', ok. split_and!; [done|done|].
    eapply rtc_l; [exists (Z.of_nat (Datatypes.S n)), c; split_and!; [lia..|reflexivity]|].
    eapply swaps_in_mono; [exact Hs|lia|rewrite zlen_lswap; lia].
Qed.

(** The defined values among some slots. *)
Definition defined (P : list zval) : list zval := filter (fun v => v <> IS_UNDEF) P.

Lemma defined_app P Q : defined (P ++ Q) = defined P ++ defined Q.
Proof. apply filter_app. Qed.

Lemma pcores_defined o P : (fun c : core => c.1.1) <$> pcores_from o P = defined P.
Proof.
  revert o. induction P as [|v P IH]; intros o; [done|]. rewrite pcores_from_cons, fmap_app, IH. unfold defined.
  rewrite filter_cons. destruct (decide (v <> IS_UNDEF)) as [Hv|Hv].
  - by destruct v.
  - apply dec_stable in Hv. by subst.
Qed.

Lemma shuffle_squeeze_ok fuel iters hash P0 : nNumUsed hash <= zlen P0 -> forall w P idx j iter_pos,
  0 <= j <= idx -> idx <= nNumUsed hash -> nNumUsed hash - idx < Z.of_nat fuel -> zlen P = zlen P0 ->
  pre j P = defined (pre idx P0) -> (forall k, idx <= k -> zget P k = zget P0 k) ->
  exists w' P', shuffle_squeeze fuel iters w hash P idx j iter_pos = Ok (w', P') /\ zlen P' = zlen P0
    /\ let vals := defined (pre (nNumUsed hash) P0) in pre (zlen vals) P' = vals.
Proof.
  intros Hu. induction fuel as [|fuel IH]; intros w P idx j iter_pos Hj Hi Hf Hl Hpre Hrest; [lia|]. cbn [shuffle_squeeze].
  destruct (Z.ltb_spec idx (nNumUsed hash)) as [Hlt|Hge].
  2:{ exists w, P. split_and!; [done|done|]. assert (idx = nNumUsed hash) as <- by lia. cbn zeta. rewrite <- Hpre. by rewrite zlen_pre by lia. }
  destruct (zget_is_Some P0 idx) as [v Hv]; [lia|]. assert (zget P idx = Some v) as HvP by (by rewrite Hrest by lia).
  rewrite (rd_ok _ _ _ HvP), bind_ok. pose proof (pre_succ _ _ _ Hv) as Hsucc.
  destruct (is_undef v) eqn:Hun.
  { destruct v; try done. apply IH; try lia; try done; [|intros k Hk; apply Hrest; lia].
    rewrite Hsucc, defined_app. change (defined [IS_UNDEF]) with (@nil zval). by rewrite app_nil_r. }
  assert (defined (pre (idx + 1) P0) = pre j P ++ [v]) as Hdef.
  { rewrite Hsucc, defined_app, Hpre. f_equal. unfold defined. rewrite filter_cons_True; [done|by destruct v]. }
  destruct (Z.eqb_spec j idx) as [->|Hne]; cbn [negb].
  { apply IH; try lia; try done; [|intros k Hk; apply Hrest; lia]. rewrite Hdef. by apply pre_succ. }
  rewrite wr_ok, bind_ok by lia. destruct (if _ && _ then _ else _) as [w1 ip1].
  apply IH; try lia; [by rewrite zlen_zset| |].
  - rewrite (pre_succ _ _ v) by (apply zget_zset_eq; lia). rewrite pre_zset_ge by lia. by rewrite Hdef.
  - intros k Hk. rewrite zget_zset_ne by lia. apply Hrest. lia.
Qed.

Lemma snd_indexed o vals : snd <$> indexed o vals = vals.
Proof.
  revert o. induction vals as [|v vals IH]; intros o; [done|]. rewrite indexed_cons, fmap_cons. by rewrite IH.
Qed.

Lemma defined_all P : Forall (fun v => v <> IS_UNDEF) P -> defined P = P.
Proof. induction 1 as [|v P Hv _ IH]; [done|]. unfold defined. rewrite filter_cons_True by done. f_equal. exact IH. Qed.

Lemma defined_length P : (length (defined P) <= length P)%nat.
Proof. apply length_filter. Qed.

Lemma defined_full P : length (defined P) = length P -> defined P = P.
Proof.
  induction P as [|v P IH]; [done|]. unfold defined. rewrite filter_cons. case_decide; cbn.
  - intros [= Hl]. f_equal. by apply IH.
  - pose proof (defined_length P) as Hle. unfold defined in Hle. lia.
Qed.

Lemma array_values ht : snd <$> ht_elements ht = (fun c : core => c.1.1) <$> ht_cores ht.
Proof. unfold ht_elements. rewrite <- list_fmap_compose. apply list_fmap_ext. by intros i [[v h] [k|]]. Qed.

(** What the steps before the loops establish. *)
Record packed_ready (ht : HashTable) (vals : list zval) : Prop := {
  pr_packed : f_packed ht = true;
  pr_init : f_uninit ht = false;
  pr_mask : nTableMask ht = HT_MIN_MASK;
  pr_hash : arHash ht = [HT_INVALID_IDX; HT_INVALID_IDX];
  pr_size : size_ok (nTableSize ht);
  pr_zlen : zlen (arPacked ht) = nTableSize ht;
  pr_used : 0 <= nNumUsed ht <= nTableSize ht;
  pr_vals : defined (pre (nNumUsed ht) (arPacked ht)) = vals;
  pr_count : nNumOfElements ht = zlen vals;
}.

Lemma bucket_values D : (fun c : core => c.1.1) <$> cores D = defined (b_val <$> D).
Proof.
  induction D as [|b D IH]; [done|]. rewrite cores_cons, fmap_cons. unfold defined. rewrite filter_cons.
  fold (defined (b_val <$> D)). rewrite <- IH. unfold bcore, live. destruct b as [v n h k]. cbn [b_val]. by destruct v.
Qed.

Lemma make_packed w ht : ht_inv ht -> 1 <= nNumOfElements ht ->
  exists w' ht', (if negb (f_packed ht) then
      hash ← zend_hash_to_packed ht;
      Ok (if negb (HT_HAS_STATIC_KEYS_ONLY ht) then release_keys (used_buckets ht) w else w, hash) else Ok (w, ht)) = Ok (w', ht')
    /\ packed_ready ht' (snd <$> ht_elements ht) /\ nNumUsed ht' = nNumUsed ht /\ nNumOfElements ht' = nNumOfElements ht.
Proof.
  intros Hinv Hn. pose proof (inv_count _ Hinv) as Hc. pose proof (inv_used _ Hinv) as Hu. pose proof (inv_size _ Hinv) as Hs.
  assert (nNumOfElements ht = zlen (snd <$> ht_elements ht)) as Hcv by (rewrite array_values, Hc; unfold zlen; by rewrite length_fmap).
  destruct (inv_layout _ Hinv) as [Hun Hp Hm Ha Hu0|Hun Hp Hm Ha Hl Hnf|Hm].
  - rewrite Hc in Hn. unfold ht_cores in Hn. by rewrite Hp, Hu0 in Hn.
  - rewrite Hp. cbn [negb]. exists w, ht. split_and!; try done. split; try done. rewrite array_values. unfold ht_cores. rewrite Hp.
    change (take (Z.to_nat (nNumUsed ht)) (arPacked ht)) with (pre (nNumUsed ht) (arPacked ht)). by rewrite pcores_from_0, pcores_defined.
  - rewrite (mx_packed _ _ Hm). cbn [negb]. unfold zend_hash_to_packed. pose proof (mg_data _ (mx_geom _ _ Hm)) as Hd.
    rewrite (proj2 (Z.leb_le _ _)) by lia. cbn [assert_]. rewrite !bind_ok. eexists _, _. split; [done|].
    split_and!; try done. split; try done; cbn [nNumUsed nTableSize arPacked HT_HASH_RESET_PACKED set_arHash set_alloc set_flags].
    + by apply (mx_uninit _ _ Hm).
    + rewrite zlen_app. unfold zlen, alloc_packed in *. rewrite length_fmap, length_take, length_drop, length_replicate. lia.
    + unfold pre. rewrite take_app_length' by (rewrite length_fmap, length_take; unfold zlen in Hd; lia).
      rewrite <- bucket_values, array_values. unfold ht_cores. by rewrite (mx_packed _ _ Hm).
Qed.

(** A packed table with [n] defined values in front. *)
Lemma front_inv ht vals n : packed_ready ht vals -> 1 <= n <= nTableSize ht -> forall P', zlen P' = nTableSize ht -> n = nNumOfElements ht ->
  Forall (fun v => v <> IS_UNDEF) (pre n P') ->
  let ht' := set_counts n (nNumOfElements ht) (nTableSize ht) 0 n (set_arPacked P' ht) in
  ht_inv ht' /\ ht_elements ht' = indexed 0 (pre n P').
Proof.
  intros [] Hn P' HP Hne Hd. cbn zeta. set (ht' := set_counts _ _ _ _ _ _).
  assert (pcores (pre n P') = imap (fun i v => (v, Z.of_nat i, None)) (pre n P')) as Hcs by (by rewrite pcores_from_0, pcores_from_live).
  split.
  - apply packed_inv; try done; cbn [nNumUsed nTableSize nNextFreeElement nNumOfElements arPacked ht' set_counts set_arPacked set_alloc].
    + lia.
    + split; cbn [nNumUsed nNextFreeElement arPacked ht' set_counts set_arPacked set_alloc]; [lia|right].
      cbn [nNumUsed nNextFreeElement arPacked ht' set_counts set_arPacked set_alloc].
      destruct (zget_is_Some P' (n - 1)) as [v Hv]; [lia|]. exists v. split; [done|]. rewrite Forall_forall in Hd. apply Hd.
      apply list_elem_of_lookup. exists (Z.to_nat (n - 1)). unfold pre. rewrite lookup_take_lt by lia. unfold zget in Hv.
      by rewrite (proj2 (Z.leb_le _ _)) in Hv by lia.
    + apply size_ok_bounds in pr_size0. unfold HT_MAX_SIZE, ZEND_LONG_MIN, ZEND_LONG_MAX in *. lia.
    + rewrite Hcs. unfold zlen at 1. rewrite length_imap. fold (zlen (pre n P')). rewrite zlen_pre; lia.
  - unfold ht_elements, ht_cores. cbn [f_packed nNumUsed arPacked ht' set_counts set_arPacked set_alloc]. rewrite pr_packed0.
    change (take (Z.to_nat n) P') with (pre n P'). rewrite Hcs. unfold indexed. rewrite fmap_imap. apply imap_ext. done.
Qed.

(** C26: php_array_data_shuffle turns any array into a list of the same values in some
    order, under the keys 0, 1, 2, ..., and keeps the invariant of the table. When
    the engine fails on an array without gaps, the values are still the same. *)
Theorem php_array_data_shuffle_correct w ht status : ht_inv ht -> I status ->
  exists w' ht' status' ok, php_array_data_shuffle algo w ht status = Ok (w', ht', status', ok) /\ I status'
    /\ (ok = true -> ht_inv ht' /\ exists vals, vals ≡ₚ snd <$> ht_elements ht /\ ht_elements ht' = indexed 0 vals)
    /\ (nNumUsed ht = nNumOfElements ht -> snd <$> ht_elements ht' ≡ₚ snd <$> ht_elements ht).
Proof.
  intros Hinv Hi. unfold php_array_data_shuffle. cbn zeta. pose proof (inv_count _ Hinv) as Hc. destruct (Z.ltb_spec (nNumOfElements ht) 1) as [Hlt|Hge].
  { exists w, ht, status, true. split_and!; try done. intros _. split; [done|]. exists [].
    unfold ht_elements. destruct (ht_cores ht) as [|c cs]; [done|]. pose proof (zlen_nonneg cs). rewrite zlen_cons in Hc. lia. }
  destruct (make_packed w ht Hinv Hge) as (w1 & ht1 & -> & Hr & Hu1 & Hn1). rewrite bind_ok. rewrite <- Hn1. set (vals := snd <$> ht_elements ht) in *.
  pose proof Hr as []. pose proof (size_ok_bounds _ pr_size0) as Hsb. unfold HT_MAX_SIZE in Hsb.
  assert (zlen vals <= nNumUsed ht1) as Hvu.
  { pose proof (defined_length (pre (nNumUsed ht1) (arPacked ht1))) as Hlf. pose proof (zlen_pre (arPacked ht1) (nNumUsed ht1)) as Hzp.
    rewrite pr_vals0 in Hlf. unfold zlen in *. lia. }
  set (iters := HT_HAS_ITERATORS ht1). set (ip := if iters then _ else 0).
  assert (exists w2 P, (if negb (nNumUsed ht1 =? nNumOfElements ht1) then
      shuffle_squeeze (Datatypes.S (Z.to_nat (nNumUsed ht1))) iters w1 ht1 (arPacked ht1) 0 0 ip else Ok (w1, arPacked ht1)) = Ok (w2, P)
    /\ zlen P = nTableSize ht1 /\ pre (zlen vals) P = vals) as (w2 & P & -> & HlP & HpP).
  { destruct (Z.eqb_spec (nNumUsed ht1) (nNumOfElements ht1)) as [He|Hne]; cbn [negb].
    - exists w1, (arPacked ht1). split_and!; [done|done|]. rewrite <- pr_count0, <- He. rewrite <- pr_vals0.
      symmetry. apply defined_full. pose proof (zlen_pre (arPacked ht1) (nNumUsed ht1)) as Hzp. rewrite pr_vals0. unfold zlen in *. lia.
    - destruct (shuffle_squeeze_ok (Datatypes.S (Z.to_nat (nNumUsed ht1))) iters ht1 (arPacked ht1) ltac:(lia) w1 (arPacked ht1) 0 0 ip)
        as (w2 & P & -> & HlP & HpP); try done; try lia. exists w2, P. rewrite pr_vals0 in HpP. split_and!; [done|lia|done]. }
  rewrite bind_ok.
  destruct (array_shuffle_loop_ok (Z.to_nat (nNumOfElements ht1 - 1)) iters ht1 w2 status P Hi) as (w3 & st & P' & ok & -> & Hi' & Hsw); [lia..|].
  rewrite bind_ok. replace (Z.of_nat (Z.to_nat (nNumOfElements ht1 - 1)) + 1) with (zlen vals) in Hsw by lia.
  pose proof (swaps_take _ _ _ Hsw) as Hperm. fold (pre (zlen vals) P') in Hperm. fold (pre (zlen vals) P) in Hperm. rewrite HpP in Hperm.
  pose proof (swaps_in_zlen _ _ _ _ Hsw) as HlP'. rewrite HlP in HlP'.
  assert (Forall (fun v => v <> IS_UNDEF) (pre (zlen vals) P')) as Hdef.
  { rewrite Hperm, <- pr_vals0. apply Forall_forall. intros v Hv. unfold defined in Hv. by apply list_elem_of_filter in Hv as [? _]. }
  destruct ok; cbn [negb]; eexists w3, _, st, _; (split; [reflexivity|]); (split; [done|]).
  - destruct (front_inv ht1 vals (zlen vals) Hr ltac:(lia) P' HlP' ltac:(lia) Hdef) as [H1 H2].
    cbn [nNumOfElements nTableSize set_arPacked set_alloc] in *. rewrite pr_count0 in *. split.
    + intros _. split; [done|]. exists (pre (zlen vals) P'). done.
    + intros _. by rewrite H2, snd_indexed.
  - split; [done|]. intros Hfull. rewrite array_values. unfold ht_cores. cbn [f_packed nNumUsed arPacked set_arPacked set_alloc].
    rewrite pr_packed0. rewrite pcores_from_0, pcores_defined. fold (pre (nNumUsed ht1) P').
    replace (nNumUsed ht1) with (zlen vals) by lia. by rewrite defined_all.
Qed.

(** php_binary_string_shuffle always returns, with a rearrangement of the string.
    It is the one that the numbers drawn select, and any rearrangement of distinct
    bytes is selected by exactly one sequence of numbers in the ranges drawn from:
    when the numbers are uniform, so is the shuffle. *)
Theorem php_binary_string_shuffle_correct status str : I status -> zlen str < 2 ^ 62 ->
  (exists status' str' ok, php_binary_string_shuffle algo status str (zlen str) = Ok (status', str', ok) /\ I status'
     /\ str' ≡ₚ str
     /\ (ok = true -> exists cs, drawn (length str - 1) cs /\ str' = fisher_yates (length str - 1) cs str))
  /\ (NoDup str -> forall str', str' ≡ₚ str -> exists cs, drawn (length str - 1) cs /\ fisher_yates (length str - 1) cs str = str'
       /\ forall cs', drawn (length str - 1) cs' -> fisher_yates (length str - 1) cs' str = str' -> cs' = cs).
Proof.
  intros Hi Hl. split.
  - unfold php_binary_string_shuffle. destruct (Z.leb_spec (zlen str) 1) as [Hle|Hgt].
    + exists status, str, true. split_and!; try done. intros _. exists []. unfold zlen in Hle. replace (length str - 1)%nat with 0%nat by lia. done.
    + replace (Z.to_nat (zlen str - 1)) with (length str - 1)%nat by (unfold zlen; lia).
      apply string_shuffle_loop_ok; [done|unfold zlen in *; lia|done].
  - intros Hnd str' Hp. destruct str as [|x str].
    { apply Permutation_nil_r in Hp as ->. exists []. split_and!; [done|done|]. intros cs' Hd _. by destruct cs'. }
    apply fisher_yates_unique; [done|unfold zlen; cbn; lia|]. split; [done|]. intros k Hk. pose proof (Permutation_length Hp) as Hlen.
    unfold zget. rewrite (proj2 (Z.leb_le _ _)) by lia. cbn [length] in *. by rewrite !lookup_ge_None_2 by (cbn [length]; lia).
Qed.

(** ** getBytes *)

Lemma put_bytes_ok size result length : forall i str, zlen str < length -> Forall (fun c => 0 <= c < 256) str ->
  let str' := put_bytes size result i length str in
  Forall (fun c => 0 <= c < 256) str' /\ zlen str' <= length /\ (size <> O -> zlen str < zlen str') /\ zlen str <= zlen str'.
Proof.
  induction size as [|size IH]; intros i str Hl Hs; [cbn zeta; cbn [put_bytes]; split_and!; try done; intros; lia|]. cbn [put_bytes].
  set (str1 := str ++ _). assert (zlen str1 = zlen str + 1) as H1 by (unfold str1; by rewrite zlen_app).
  assert (Forall (fun c => 0 <= c < 256) str1) as Hs1.
  { apply Forall_app. split; [done|]. constructor; [|done]. change 0xff with (Z.ones 8). rewrite Z.land_ones by lia. by apply Z.mod_pos_bound. }
  destruct (Z.leb_spec length (zlen str1)); [split_and!; try done; intros; lia|].
  destruct (IH (i + 1) str1 ltac:(lia) Hs1) as (B1 & B2 & B3 & B4). split_and!; [done|done|intros; lia|lia].
Qed.

Lemma getBytes_loop_ok length fuel : forall status str, I status -> Forall (fun c => 0 <= c < 256) str -> zlen str <= length ->
  length - zlen str < Z.of_nat fuel ->
  exists status' o, getBytes_loop algo fuel status length str = Ok (status', o) /\ I status'
    /\ match o with Returned str' => zlen str' = length /\ Forall (fun c => 0 <= c < 256) str' | Thrown => r_exception status' = true end.
Proof.
  induction fuel as [|fuel IH]; intros status str Hi Hs Hl Hf; [lia|]. cbn [getBytes_loop].
  destruct (Z.ltb_spec (zlen str) length); [|exists status, (Returned str); split_and!; try done; lia].
  destruct (Hprod status Hi) as (st & r & -> & Hi' & _ & Hx). rewrite bind_ok. destruct (r_exception st) eqn:He; [by exists st, Thrown|].
  destruct Hx as [|Hsz]; [done|]. destruct (put_bytes_ok (Z.to_nat (last_generated_size st)) r length 0 str) as (B1 & B2 & B3 & _); [done|done|].
  apply IH; [done|done|done|]. specialize (B3 ltac:(lia)). lia.
Qed.

(** Randomizer::getBytes asks the engine as long as necessary and returns exactly the
    number of bytes asked for, or the exception of the engine; getInt returns a
    number of the interval, and nextInt one that is not negative. *)
Theorem randomizer_correct status length min max : I status ->
  ZEND_LONG_MIN <= min <= ZEND_LONG_MAX -> ZEND_LONG_MIN <= max <= ZEND_LONG_MAX ->
  (exists status' o, getBytes algo status length = Ok (status', o) /\ I status'
    /\ match o with
       | Returned str => 1 <= length /\ zlen str = length /\ Forall (fun c => 0 <= c < 256) str
       | Thrown => length < 1 \/ r_exception status' = true
       end)
  /\ (exists status' o, getInt algo status min max = Ok (status', o) /\ I status'
       /\ match o with Returned n => min <= n <= max | Thrown => True end)
  /\ (exists status' o, nextInt algo status = Ok (status', o) /\ I status'
       /\ match o with
          | Returned n => 0 <= n <= ZEND_LONG_MAX
          | Thrown => r_exception status' = true \/ 8 < last_generated_size status'
          end).
Proof.
  intros Hi Hmin Hmax. split_and!.
  - unfold getBytes. destruct (Z.ltb_spec length 1); [exists status, Thrown; split_and!; try done; by left|].
    destruct (getBytes_loop_ok length (Datatypes.S (Z.to_nat length)) status [] Hi) as (st & o & He & Hi' & Ho);
      [done|change (zlen []) with 0; lia|change (zlen []) with 0; lia|].
    exists st, o. split_and!; [done|done|]. destruct o; [by split|by right].
  - unfold getInt. destruct (Z.ltb_spec max min); [by exists status, Thrown|].
    destruct (random_range_ok algo I status min max Hprod Hi) as (st & r & -> & Hi' & _ & Hr); [lia..|]. rewrite bind_ok.
    destruct r as [n| |]; [exists st, (Returned n); split_and!; try done; apply Hr|by exists st, Thrown..].
  - unfold nextInt. destruct (Hprod status Hi) as (st & r & -> & Hi' & Hr & _). rewrite bind_ok.
    destruct (r_exception st) eqn:He; [exists st, Thrown; split_and!; try done; by left|].
    destruct (Z.ltb_spec 8 (last_generated_size st)); [exists st, Thrown; split_and!; try done; by right|].
    assert (0 <= Z.shiftr r 1 < 2 ^ 63) as Hs by (rewrite Z.shiftr_div_pow2 by lia; change (2 ^ 1) with 2; Z.div_mod_to_equations; lia).
    eexists st, (Returned _). split; [done|]. split; [done|]. rewrite i64_small by done. unfold ZEND_LONG_MAX. lia.
Qed.
End Shuffle.

(** ** The engines fulfil the contract of the range functions *)

(** A status with a well formed state and a positive size. *)
Definition sized {S} (wf : S -> Prop) (status : php_random_status S) : Prop :=
  wf (r_state status) /\ 1 <= last_generated_size status.

Lemma mt19937_productive : productive php_random_algo_mt19937 (sized mt_words_ok).
Proof.
  intros status [Hw Hs]. destruct (generate_safe _ Hw) as (s' & z & He & Hw' & _ & _ & Hz). cbn [generate php_random_algo_mt19937].
  unfold mt19937_status_generate. rewrite He, bind_ok. eexists _, _. split; [done|]. unfold is_u32 in Hz.
  split; [by split|]. split; [lia|by right].
Qed.

Lemma xoshiro_productive : productive php_random_algo_xoshiro256starstar (sized xo_wf).
Proof.
  intros status [Hw Hs]. cbn [generate php_random_algo_xoshiro256starstar]. unfold xo_generate.
  assert (xo_wf (generate_state (r_state status)).1 /\ 0 <= (generate_state (r_state status)).2 < 2 ^ 64) as [Hw' Hr].
  { split; [by apply xo_next_wf|apply u64_range]. }
  destruct (generate_state (r_state status)) as [s' r]. eexists _, _. split; [done|]. split; [by split|]. split; [done|by right].
Qed.

Lemma native_rotr64_range x : 0 <= x -> 0 <= native_rotr64 x < 2 ^ 64.
Proof.
  intros Hx. unfold native_rotr64. apply lor_bound; [lia| |apply u64_range].
  apply shiftr_bound; [by apply Z.shiftr_nonneg|]. apply lxor_bound; [lia|apply u64_range..].
Qed.

Lemma pcg_productive {T} `{Uint128Laws T} : productive (S:=T) Pcg.php_random_algo_pcgoneseq128xslrr64 (sized u_wf).
Proof.
  intros status [Hw Hs]. cbn [generate Pcg.php_random_algo_pcgoneseq128xslrr64]. unfold Pcg.pcg_generate.
  destruct (step_ok _ Hw) as [Hw' _]. eexists _, _. split; [done|]. split; [by split|]. split; [|by right].
  rewrite u_rotr64_ok by done. apply native_rotr64_range. by apply u_val_range.
Qed.

Definition lcg_wf (s : combinedlcg) : Prop := - 2 ^ 31 <= s.1 < 2 ^ 31 /\ - 2 ^ 31 <= s.2 < 2 ^ 31.

Lemma combinedlcg_productive : productive php_random_algo_combinedlcg (sized lcg_wf).
Proof.
  intros status [[H1 H2] Hs]. cbn [generate php_random_algo_combinedlcg]. unfold combinedlcg_status_generate.
  destruct (r_state status) as [s0 s1]. cbn [fst snd] in *. rewrite combinedlcg_generate_eq, bind_ok by done. eexists _, _. split; [done|].
  assert (forall x m, 0 < m < 2 ^ 31 -> - 2 ^ 31 <= x mod m < 2 ^ 31) as Hm by (intros x m Hm; pose proof (Z.mod_pos_bound x m); lia).
  split; [split; [split; apply Hm; lia|done]|]. split; [|by right].
  match goal with |- context [1 + ?x mod ?m] => pose proof (Z.mod_pos_bound x m) end. lia.
Qed.

Lemma user_bytes_range str : forall i result, 0 <= result < 2 ^ 64 -> 0 <= user_bytes str i result < 2 ^ 64.
Proof. induction str as [|c str IH]; intros i result Hr; [done|]. cbn [user_bytes]. apply IH, u64_range. Qed.

Lemma user_productive {O} (call : O -> O * option (list Z)) : productive (php_random_algo_user call) (fun _ => True).
Proof.
  intros status _. cbn [generate php_random_algo_user]. unfold user_generate. destruct (call (r_state status)) as [o [str|]].
  2:{ eexists _, _. split; [done|]. split; [done|]. split; [lia|by left]. }
  destruct (r_exception status); [eexists _, _; split; [done|]; split; [done|]; split; [lia|by left]|].
  set (size := if 8 <? zlen str then 8 else zlen str). destruct (Z.ltb_spec 0 size); (eexists _, _; split; [done|]); (split; [done|]).
  - split; [apply user_bytes_range; lia|]. right. cbn. lia.
  - split; [lia|by left].
Qed.

(** Every engine, also one written in PHP that returns whatever strings it likes,
    fulfils the contract; its state stays well formed. *)
Theorem engines_productive {T O} `{Uint128Laws T} (call : O -> O * option (list Z)) :
  productive php_random_algo_mt19937 (sized mt_words_ok)
  /\ productive php_random_algo_xoshiro256starstar (sized xo_wf)
  /\ productive (S:=T) Pcg.php_random_algo_pcgoneseq128xslrr64 (sized u_wf)
  /\ productive php_random_algo_combinedlcg (sized lcg_wf)
  /\ productive (php_random_algo_user call) (fun _ => True).
Proof.
  split_and!; [apply mt19937_productive|apply xoshiro_productive|apply pcg_productive|apply combinedlcg_productive|apply user_productive].
Qed.

(** ** Concrete runs *)

Definition demo_xo : php_random_status xoshiro := mkStatus 8 (mkXo 1 2 3 4) false.

Lemma demo_xo_sized : sized xo_wf demo_xo.
Proof. unfold sized, demo_xo, xo_wf, is_u64. cbn. lia. Qed.

Lemma php_random_range_correct_witness :
  exists status' r, php_random_range php_random_algo_xoshiro256starstar demo_xo (-10) 10 = Ok (status', r)
    /\ sized xo_wf status' /\ match r with
       | RNumber n => -10 <= n <= 10
           /\ exists l raw, draws php_random_algo_xoshiro256starstar 4 demo_xo (l ++ [raw]) status' /\ discarded 4 20 l /\ zlen l <= 50
                /\ range_of 4 20 raw = Some (n - -10)
       | RBrokenEngine => exists l, draws php_random_algo_xoshiro256starstar 4 demo_xo l status' /\ discarded 4 20 l /\ zlen l = 51
       | REngineException => r_exception status' = true
           /\ exists l status1, draws php_random_algo_xoshiro256starstar 4 demo_xo l status1 /\ discarded 4 20 l /\ zlen l <= 50
                /\ breaks php_random_algo_xoshiro256starstar 4 0 status1 status'
       end.
Proof.
  apply (php_random_range_correct php_random_algo_xoshiro256starstar (sized xo_wf) demo_xo (-10) 10 xoshiro_productive demo_xo_sized);
    unfold ZEND_LONG_MIN, ZEND_LONG_MAX; lia.
Defined.

Lemma php_array_data_shuffle_correct_witness :
  exists w' ht' status' ok, php_array_data_shuffle php_random_algo_xoshiro256starstar w0 demo_ht demo_xo = Ok (w', ht', status', ok)
    /\ sized xo_wf status'
    /\ (ok = true -> ht_inv ht' /\ exists vals, vals ≡ₚ snd <$> ht_elements demo_ht /\ ht_elements ht' = indexed 0 vals)
    /\ (nNumUsed demo_ht = nNumOfElements demo_ht -> snd <$> ht_elements ht' ≡ₚ snd <$> ht_elements demo_ht).
Proof.
  exact (php_array_data_shuffle_correct php_random_algo_xoshiro256starstar (sized xo_wf) xoshiro_productive w0 demo_ht demo_xo
           demo_ht_inv demo_xo_sized).
Defined.

Lemma php_binary_string_shuffle_correct_witness :
  (exists status' str' ok, php_binary_string_shuffle php_random_algo_xoshiro256starstar demo_xo [97; 98; 99] 3 = Ok (status', str', ok)
     /\ sized xo_wf status' /\ str' ≡ₚ [97; 98; 99]
     /\ (ok = true -> exists cs, drawn 2 cs /\ str' = fisher_yates 2 cs [97; 98; 99]))
  /\ (NoDup [97; 98; 99] -> forall str', str' ≡ₚ [97; 98; 99] -> exists cs, drawn 2 cs /\ fisher_yates 2 cs [97; 98; 99] = str'
       /\ forall cs', drawn 2 cs' -> fisher_yates 2 cs' [97; 98; 99] = str' -> cs' = cs).
Proof.
  exact (php_binary_string_shuffle_correct php_random_algo_xoshiro256starstar (sized xo_wf) xoshiro_productive demo_xo [97; 98; 99]
           demo_xo_sized ltac:(done)).
Defined.

Lemma randomizer_correct_witness :
  let algo := php_random_algo_xoshiro256starstar in
  (exists status' o, getBytes algo demo_xo 20 = Ok (status', o) /\ sized xo_wf status'
    /\ match o with
       | Returned str => 1 <= 20 /\ zlen str = 20 /\ Forall (fun c => 0 <= c < 256) str
       | Thrown => 20 < 1 \/ r_exception status' = true
       end)
  /\ (exists status' o, getInt algo demo_xo 1 6 = Ok (status', o) /\ sized xo_wf status'
       /\ match o with Returned n => 1 <= n <= 6 | Thrown => True end)
  /\ (exists status' o, nextInt algo demo_xo = Ok (status', o) /\ sized xo_wf status'
       /\ match o with
          | Returned n => 0 <= n <= ZEND_LONG_MAX
          | Thrown => r_exception status' = true \/ 8 < last_generated_size status'
          end).
Proof.
  apply (randomizer_correct php_random_algo_xoshiro256starstar (sized xo_wf) xoshiro_productive demo_xo 20 1 6 demo_xo_sized);
    unfold ZEND_LONG_MIN, ZEND_LONG_MAX; lia.
Defined.

(** An engine that throws at once. *)
Definition throwing_algo : php_random_algo unit := php_random_algo_user (fun o => (o, None)).

(** [1 => 7, 2 => 8] packed, with a gap at 0. *)
Definition gap_ht : HashTable :=
  mkHT 1000 false true false true false 0 HT_MIN_MASK [HT_INVALID_IDX; HT_INVALID_IDX] []
    ([IS_UNDEF; ZVal 4 7; ZVal 4 8] ++ replicate 5 IS_UNDEF) 3 2 8 0 3 true.

(** When the engine throws after the gaps were closed, the number of used slots is
    not corrected: the array ends up with the last value twice. *)
Example shuffle_exception_duplicates :
  match php_array_data_shuffle throwing_algo w0 gap_ht (mkStatus 0 tt false) with
  | Ok (_, ht', _, ok) => ok = false /\ snd <$> ht_elements gap_ht = [ZVal 4 7; ZVal 4 8]
      /\ snd <$> ht_elements ht' = [ZVal 4 7; ZVal 4 8; ZVal 4 8] /\ nNumOfElements ht' = 2
  | _ => False
  end.
Proof. vm_compute. done. Qed.
