(* ===== verification/MmPageOps.v ===== *)
(** * Bitmaps and pages of a chunk (Zend/zend_alloc.c)

    A bitmap is a list of 64-bit words. The range operations work on the words with
    masks; here they are defined and proved to act on exactly the bits of the range.
    Then the header of a chunk, the info words of its pages, and the best-fit search. *)

From S2P Require Import Prelude.

Definition ZEND_MM_BITSET_LEN : Z := 64.
Definition ALL_ONES : Z := 2 ^ 64 - 1.
(** [~x] on a word. *)
Definition not64 (x : Z) : Z := u64 (Z.lnot x).

(** [__builtin_ctzl], undefined on 0. *)
Fixpoint ctz_loop (fuel : nat) (x n : Z) : Z :=
  match fuel with
  | O => n
  | S fuel => if Z.testbit x n then n else ctz_loop fuel x (n + 1)
  end.
Definition builtin_ctzl (x : Z) : res Z := _ ← assert_ (negb (x =? 0)); Ok (ctz_loop 64 x 0).

(** Number of trailing set (1) bits. *)
Definition zend_mm_bitset_nts (bitset : Z) : res Z := builtin_ctzl (not64 bitset).
Definition zend_ulong_ntz (num : Z) : res Z := builtin_ctzl num.

(** The variant for compilers without the builtin. *)
Definition nts_portable (bitset : Z) : Z :=
  if bitset =? ALL_ONES then ZEND_MM_BITSET_LEN
  else
    let step (mask shift : Z) '(n, b) := if Z.land b mask =? mask then (n + shift, Z.shiftr b shift) else (n, b) in
    let '(n, b) := step 0x3 2 (step 0xf 4 (step 0xff 8 (step 0xffff 16 (step 0xffffffff 32 (0, bitset))))) in
    n + Z.land b 1.

Definition ZEND_BIT_TEST (bits : list Z) (bit : Z) : res bool :=
  w ← rd bits (bit / ZEND_MM_BITSET_LEN);
  Ok (negb (Z.land (Z.shiftr w (Z.land bit (ZEND_MM_BITSET_LEN - 1))) 1 =? 0)).
Definition zend_mm_bitset_is_set : list Z -> Z -> res bool := ZEND_BIT_TEST.

(** [bitset[pos] = f(bitset[pos])] *)
Definition upd_word (bitset : list Z) (pos : Z) (f : Z -> Z) : res (list Z) :=
  w ← rd bitset pos; wr bitset pos (f w).

Definition zend_mm_bitset_set_bit (bitset : list Z) (bit : Z) : res (list Z) :=
  upd_word bitset (bit / ZEND_MM_BITSET_LEN)
    (fun w => Z.lor w (u64 (Z.shiftl 1 (Z.land bit (ZEND_MM_BITSET_LEN - 1))))).
Definition zend_mm_bitset_reset_bit (bitset : list Z) (bit : Z) : res (list Z) :=
  upd_word bitset (bit / ZEND_MM_BITSET_LEN)
    (fun w => Z.land w (not64 (u64 (Z.shiftl 1 (Z.land bit (ZEND_MM_BITSET_LEN - 1)))))).

(** [while (pos != end) bitset[pos++] = v;] *)
Fixpoint fill_words (fuel : nat) (bitset : list Z) (pos end_ v : Z) : res (list Z) :=
  match fuel with
  | O => Ub
  | S fuel =>
      if negb (pos =? end_) then
        bitset ← wr bitset pos v;
        fill_words fuel bitset (pos + 1) end_ v
      else Ok bitset
  end.

Definition words_fuel (bitset : list Z) : nat := S (length bitset).

(** The masks: from [bit] up, up to [end_], and between the two. *)
Definition mask_from (bit : Z) : Z := u64 (Z.shiftl ALL_ONES bit).
Definition mask_to (end_ : Z) : Z := Z.shiftr ALL_ONES ((ZEND_MM_BITSET_LEN - 1) - end_).

Definition zend_mm_bitset_set_range (bitset : list Z) (start len : Z) : res (list Z) :=
  if len =? 1 then zend_mm_bitset_set_bit bitset start
  else
    let pos := start / ZEND_MM_BITSET_LEN in
    let end_ := (start + len - 1) / ZEND_MM_BITSET_LEN in
    let bit := Z.land start (ZEND_MM_BITSET_LEN - 1) in
    let last := Z.land (start + len - 1) (ZEND_MM_BITSET_LEN - 1) in
    if negb (pos =? end_) then
      bitset ← upd_word bitset pos (fun w => Z.lor w (mask_from bit));
      bitset ← fill_words (words_fuel bitset) bitset (pos + 1) end_ ALL_ONES;
      upd_word bitset end_ (fun w => Z.lor w (mask_to last))
    else upd_word bitset pos (fun w => Z.lor w (Z.land (mask_from bit) (mask_to last))).

Definition zend_mm_bitset_reset_range (bitset : list Z) (start len : Z) : res (list Z) :=
  if len =? 1 then zend_mm_bitset_reset_bit bitset start
  else
    let pos := start / ZEND_MM_BITSET_LEN in
    let end_ := (start + len - 1) / ZEND_MM_BITSET_LEN in
    let bit := Z.land start (ZEND_MM_BITSET_LEN - 1) in
    let last := Z.land (start + len - 1) (ZEND_MM_BITSET_LEN - 1) in
    if negb (pos =? end_) then
      bitset ← upd_word bitset pos (fun w => Z.land w (not64 (not64 (u64 (Z.shiftl 1 bit) - 1))));
      bitset ← fill_words (words_fuel bitset) bitset (pos + 1) end_ 0;
      upd_word bitset end_ (fun w => Z.land w (not64 (mask_to last)))
    else upd_word bitset pos (fun w => Z.land w (not64 (Z.land (mask_from bit) (mask_to last)))).

(** [while (pos != end) if (bitset[pos++] != 0) return 0;] *)
Fixpoint words_zero (fuel : nat) (bitset : list Z) (pos end_ : Z) : res bool :=
  match fuel with
  | O => Ub
  | S fuel =>
      if negb (pos =? end_) then
        w ← rd bitset pos;
        if negb (w =? 0) then Ok false else words_zero fuel bitset (pos + 1) end_
      else Ok true
  end.

Definition zend_mm_bitset_is_free_range (bitset : list Z) (start len : Z) : res bool :=
  if len =? 1 then b ← zend_mm_bitset_is_set bitset start; Ok (negb b)
  else
    let pos := start / ZEND_MM_BITSET_LEN in
    let end_ := (start + len - 1) / ZEND_MM_BITSET_LEN in
    let bit := Z.land start (ZEND_MM_BITSET_LEN - 1) in
    let last := Z.land (start + len - 1) (ZEND_MM_BITSET_LEN - 1) in
    if negb (pos =? end_) then
      w ← rd bitset pos;
      if negb (Z.land w (mask_from bit) =? 0) then Ok false
      else
        z ← words_zero (words_fuel bitset) bitset (pos + 1) end_;
        if negb z then Ok false
        else w ← rd bitset end_; Ok (Z.land w (mask_to last) =? 0)
    else w ← rd bitset pos; Ok (Z.land w (Z.land (mask_from bit) (mask_to last)) =? 0).

(** ** The bits of a bitmap *)

(** Bit [k] of the bitmap; bits beyond the end are clear. *)
Definition bit_at (bs : list Z) (k : Z) : bool :=
  Z.testbit (default 0 (zget bs (k / 64))) (k mod 64).

Definition word_ok (w : Z) : Prop := 0 <= w < 2 ^ 64.
Definition bitset_ok (bs : list Z) : Prop := Forall word_ok bs.

Lemma land_63 k : Z.land k 63 = k mod 64.
Proof. change 63 with (Z.ones 6). by rewrite Z.land_ones by lia. Qed.

Lemma u64_bit x j : 0 <= j -> Z.testbit (u64 x) j = (j <? 64) && Z.testbit x j.
Proof.
  intros Hj. unfold u64. destruct (Z.ltb_spec j 64); cbn [andb].
  - by rewrite Z.mod_pow2_bits_low by lia.
  - by rewrite Z.mod_pow2_bits_high by lia.
Qed.

Lemma all_ones_bit j : 0 <= j -> Z.testbit ALL_ONES j = (j <? 64).
Proof.
  intros Hj. change ALL_ONES with (Z.ones 64). rewrite Z.testbit_ones by lia.
  by rewrite (proj2 (Z.leb_le 0 j)) by lia.
Qed.

Lemma not64_bit x j : 0 <= j -> Z.testbit (not64 x) j = (j <? 64) && negb (Z.testbit x j).
Proof. intros Hj. unfold not64. by rewrite u64_bit, Z.lnot_spec by lia. Qed.

Lemma mask_from_bit b j : 0 <= b -> 0 <= j -> Z.testbit (mask_from b) j = (b <=? j) && (j <? 64).
Proof.
  intros Hb Hj. unfold mask_from. rewrite u64_bit, Z.shiftl_spec by lia.
  destruct (Z.leb_spec b j); cbn [andb].
  - rewrite all_ones_bit by lia. destruct (Z.ltb_spec j 64), (Z.ltb_spec (j - b) 64); cbn; done || lia.
  - rewrite Z.testbit_neg_r by lia. by rewrite andb_false_r.
Qed.

Lemma mask_to_bit e j : 0 <= e <= 63 -> 0 <= j -> Z.testbit (mask_to e) j = (j <=? e).
Proof.
  intros He Hj. unfold mask_to, ZEND_MM_BITSET_LEN. rewrite Z.shiftr_spec, all_ones_bit by lia.
  destruct (Z.leb_spec j e), (Z.ltb_spec (j + (64 - 1 - e)) 64); done || lia.
Qed.

Lemma one_bit b j : 0 <= b < 64 -> 0 <= j -> Z.testbit (u64 (Z.shiftl 1 b)) j = (j =? b).
Proof.
  intros Hb Hj. rewrite u64_bit, Z.shiftl_1_l, Z.pow2_bits_eqb by lia.
  destruct (Z.ltb_spec j 64), (Z.eqb_spec b j), (Z.eqb_spec j b); cbn; done || lia.
Qed.

(** [~((1 << bit) - 1)] is [-1 << bit]. *)
Lemma not_below b : 0 <= b < 64 -> not64 (u64 (Z.shiftl 1 b) - 1) = mask_from b.
Proof.
  intros Hb. apply Z.bits_inj'. intros j Hj. rewrite not64_bit, mask_from_bit by lia.
  rewrite Z.shiftl_1_l. rewrite u64_small.
  2:{ split; [apply Z.pow_nonneg; lia|apply Z.pow_lt_mono_r; lia]. }
  replace (2 ^ b - 1) with (Z.ones b) by (rewrite Z.ones_equiv; lia). rewrite Z.testbit_ones by lia.
  rewrite (proj2 (Z.leb_le 0 j)) by lia. destruct (Z.leb_spec b j), (Z.ltb_spec j b), (Z.ltb_spec j 64); cbn; done || lia.
Qed.

Lemma word_ok_bits w : 0 <= w -> (forall j, 64 <= j -> Z.testbit w j = false) -> word_ok w.
Proof.
  intros H0 Hb. split; [done|]. destruct (Z.eq_dec w 0) as [->|]; [done|].
  apply Z.log2_lt_pow2; [lia|]. destruct (Z.lt_ge_cases (Z.log2 w) 64); [done|].
  specialize (Hb (Z.log2 w) H). rewrite Z.bit_log2 in Hb by lia. done.
Qed.

Lemma word_high w j : word_ok w -> 64 <= j -> Z.testbit w j = false.
Proof.
  intros [H0 H1] Hj. destruct (Z.eq_dec w 0) as [->|]; [apply Z.bits_0|].
  apply Z.bits_above_log2; [done|]. apply Z.log2_lt_pow2; [lia|]. apply Z.lt_le_trans with (2 ^ 64); [done|]. apply Z.pow_le_mono_r; lia.
Qed.

Lemma word_ok_lor a b : word_ok a -> word_ok b -> word_ok (Z.lor a b).
Proof.
  intros Ha Hb. apply word_ok_bits; [apply Z.lor_nonneg; destruct Ha, Hb; done|].
  intros j Hj. by rewrite Z.lor_spec, !word_high.
Qed.

Lemma word_ok_land a b : word_ok a -> 0 <= b -> word_ok (Z.land a b).
Proof.
  intros Ha Hb. apply word_ok_bits; [apply Z.land_nonneg; by right|].
  intros j Hj. by rewrite Z.land_spec, word_high.
Qed.

Lemma word_ok_u64 x : word_ok (u64 x).
Proof. apply u64_range. Qed.
Lemma word_ok_mask_to e : 0 <= e <= 63 -> word_ok (mask_to e).
Proof.
  intros He. apply word_ok_bits; [apply Z.shiftr_nonneg; vm_compute; done|].
  intros j Hj. rewrite mask_to_bit by lia. by apply Z.leb_gt; lia.
Qed.

#[export] Hint Resolve word_ok_lor word_ok_land word_ok_u64 word_ok_mask_to : zarr.

(** A word is determined by its bits. *)
Lemma word_zero w : word_ok w -> w = 0 <-> forall j, 0 <= j < 64 -> Z.testbit w j = false.
Proof.
  intros Hw. split; [intros ->; by intros; rewrite Z.bits_0|]. intros H. apply Z.bits_inj'. intros j Hj. rewrite Z.bits_0.
  destruct (Z.lt_ge_cases j 64); [apply H; lia|by apply word_high].
Qed.

(** ** The operations on bits *)

(** Linear arithmetic with division by constants. *)
Ltac dlia := Z.div_mod_to_equations; lia.

Lemma bit_at_word bs pos w k : zget bs pos = Some w -> k / 64 = pos -> bit_at bs k = Z.testbit w (k mod 64).
Proof. unfold bit_at. by intros Hw ->; rewrite Hw. Qed.

Lemma zget_word_ok bs pos w : bitset_ok bs -> zget bs pos = Some w -> word_ok w.
Proof. unfold zget. destruct (0 <=? pos); [|done]. intros H Hw. by eapply Forall_lookup_1 in H. Qed.

Lemma bit_at_zset bs pos w k : 0 <= pos < zlen bs ->
  bit_at (zset bs pos w) k = if k / 64 =? pos then Z.testbit w (k mod 64) else bit_at bs k.
Proof.
  intros Hp. unfold bit_at. destruct (Z.eqb_spec (k / 64) pos) as [->|Hne].
  - by rewrite zget_zset_eq.
  - by rewrite zget_zset_ne by lia.
Qed.

Lemma bitset_ok_zset bs pos w : bitset_ok bs -> word_ok w -> bitset_ok (zset bs pos w).
Proof. intros. by apply Forall_insert. Qed.

Lemma upd_word_ok bs pos f : bitset_ok bs -> 0 <= pos < zlen bs -> (forall w, word_ok w -> word_ok (f w)) ->
  exists bs', upd_word bs pos f = Ok bs' /\ zlen bs' = zlen bs /\ bitset_ok bs' /\
  forall k, bit_at bs' k = if k / 64 =? pos
                           then Z.testbit (f (default 0 (zget bs pos))) (k mod 64) else bit_at bs k.
Proof.
  intros Hb Hp Hf. destruct (zget_is_Some bs pos Hp) as [w Hw]. unfold upd_word. rewrite (rd_ok _ _ _ Hw). cbn [mbind res_bind].
  rewrite wr_ok by done. exists (zset bs pos (f w)). split; [done|]. split; [apply zlen_zset|].
  split; [apply bitset_ok_zset; [done|by eapply Hf, zget_word_ok]|]. intros k. rewrite bit_at_zset by done. by rewrite Hw.
Qed.

Lemma fill_words_ok fuel bs pos end_ v : bitset_ok bs -> word_ok v -> 0 <= pos <= end_ -> end_ <= zlen bs ->
  end_ - pos < Z.of_nat fuel ->
  exists bs', fill_words fuel bs pos end_ v = Ok bs' /\ zlen bs' = zlen bs /\ bitset_ok bs' /\
  forall k, bit_at bs' k = if (pos <=? k / 64) && (k / 64 <? end_) then Z.testbit v (k mod 64) else bit_at bs k.
Proof.
  revert bs pos. induction fuel as [|fuel IH]; intros bs pos Hb Hv Hp He Hf; [lia|]. cbn [fill_words].
  destruct (Z.eqb_spec pos end_) as [->|Hne]; cbn [negb].
  - exists bs. split_and!; try done. intros k. destruct (Z.leb_spec end_ (k / 64)), (Z.ltb_spec (k / 64) end_); cbn; done || lia.
  - rewrite wr_ok by lia. cbn [mbind res_bind].
    destruct (IH (zset bs pos v) (pos + 1)) as (bs' & -> & Hl & Hok & Hbit); rewrite ?zlen_zset; try lia; [by apply bitset_ok_zset|done|].
    exists bs'. split; [done|]. split; [by rewrite Hl, zlen_zset|]. split; [done|]. intros k. rewrite Hbit, bit_at_zset by lia.
    destruct (Z.leb_spec (pos + 1) (k / 64)), (Z.leb_spec pos (k / 64)), (Z.ltb_spec (k / 64) end_), (Z.eqb_spec (k / 64) pos); cbn; done || lia.
Qed.

(** What both range operations do: the bits of the range become [v]. *)
Definition range_becomes (v : bool) (bs : list Z) (start len : Z) (bs' : list Z) : Prop :=
  zlen bs' = zlen bs /\ bitset_ok bs' /\
  forall k, 0 <= k -> bit_at bs' k = if (start <=? k) && (k <? start + len) then v else bit_at bs k.

(** The three steps of a range operation over several words. *)
Lemma range_steps v bs start len (f g : Z -> Z) (c : Z) : bitset_ok bs -> 0 <= start -> 1 < len -> start + len <= 64 * zlen bs ->
  start / 64 <> (start + len - 1) / 64 ->
  (forall w, word_ok w -> word_ok (f w)) -> (forall w, word_ok w -> word_ok (g w)) -> word_ok c ->
  (forall w j, word_ok w -> 0 <= j < 64 -> Z.testbit (f w) j = if start mod 64 <=? j then v else Z.testbit w j) ->
  (forall w j, word_ok w -> 0 <= j < 64 -> Z.testbit (g w) j = if j <=? (start + len - 1) mod 64 then v else Z.testbit w j) ->
  (forall j, 0 <= j < 64 -> Z.testbit c j = v) ->
  exists bs', (bitset ← upd_word bs (start / 64) f;
               bitset ← fill_words (words_fuel bitset) bitset (start / 64 + 1) ((start + len - 1) / 64) c;
               upd_word bitset ((start + len - 1) / 64) g) = Ok bs' /\ range_becomes v bs start len bs'.
Proof.
  intros Hb Hs Hl Hin Hne Hfw Hgw Hcw Hf Hg Hc.
  assert (Hlt : 0 <= start / 64 < (start + len - 1) / 64 /\ (start + len - 1) / 64 < zlen bs) by dlia.
  destruct (upd_word_ok bs (start / 64) f) as (b1 & -> & L1 & O1 & B1); [done|lia|done|]. cbn [mbind res_bind].
  destruct (fill_words_ok (words_fuel b1) b1 (start / 64 + 1) ((start + len - 1) / 64) c) as (b2 & -> & L2 & O2 & B2);
    [done..|lia|lia|unfold words_fuel, zlen in *; lia|]. cbn [mbind res_bind].
  destruct (upd_word_ok b2 ((start + len - 1) / 64) g) as (b3 & -> & L3 & O3 & B3); [done|lia|done|].
  exists b3. split; [done|]. split; [by rewrite L3, L2, L1|]. split; [done|]. intros k Hk. rewrite B3.
  assert (Hw : forall b p, bitset_ok b -> word_ok (default 0 (zget b p))).
  { intros b p Hbo. destruct (zget b p) eqn:E; cbn; [by eapply zget_word_ok|done]. }
  destruct (Z.eqb_spec (k / 64) ((start + len - 1) / 64)) as [E|E].
  - rewrite Hg by (auto; dlia). destruct (Z.leb_spec (k mod 64) ((start + len - 1) mod 64)).
    + rewrite (proj2 (Z.leb_le _ _)), (proj2 (Z.ltb_lt _ _)) by dlia. done.
    + rewrite (proj2 (Z.ltb_ge k (start + len))) by dlia. rewrite andb_false_r.
      change (Z.testbit (default 0 (zget b2 ((start + len - 1) / 64))) (k mod 64) = bit_at bs k). rewrite <- E.
      change (bit_at b2 k = bit_at bs k). rewrite B2. rewrite (proj2 (Z.ltb_ge (k / 64) _)) by lia. rewrite andb_false_r, B1.
      by rewrite (proj2 (Z.eqb_neq _ _)) by lia.
  - rewrite B2. destruct (Z.leb_spec (start / 64 + 1) (k / 64)), (Z.ltb_spec (k / 64) ((start + len - 1) / 64)); cbn [andb].
    + rewrite Hc by dlia. rewrite (proj2 (Z.leb_le _ _)), (proj2 (Z.ltb_lt _ _)) by dlia. done.
    + rewrite B1, (proj2 (Z.eqb_neq _ _)) by lia. rewrite (proj2 (Z.ltb_ge k (start + len))) by dlia. by rewrite andb_false_r.
    + rewrite B1. destruct (Z.eqb_spec (k / 64) (start / 64)) as [E2|E2].
      * rewrite Hf by (auto; dlia). rewrite (proj2 (Z.ltb_lt k _)) by dlia. rewrite andb_true_r. unfold bit_at. rewrite E2.
        destruct (Z.leb_spec (start mod 64) (k mod 64)), (Z.leb_spec start k); done || dlia.
      * rewrite (proj2 (Z.leb_gt start k)) by dlia. done.
    + rewrite B1, (proj2 (Z.eqb_neq _ _)) by lia. rewrite (proj2 (Z.leb_gt start k)) by dlia. done.
Qed.

(** A range within one word. *)
Lemma range_one_word v bs start len f : bitset_ok bs -> 0 <= start -> 0 < len -> start + len <= 64 * zlen bs ->
  start / 64 = (start + len - 1) / 64 -> (forall w, word_ok w -> word_ok (f w)) ->
  (forall w j, word_ok w -> 0 <= j < 64 ->
     Z.testbit (f w) j = if (start mod 64 <=? j) && (j <=? (start + len - 1) mod 64) then v else Z.testbit w j) ->
  exists bs', upd_word bs (start / 64) f = Ok bs' /\ range_becomes v bs start len bs'.
Proof.
  intros Hb Hs Hl Hin He Hfw Hf.
  destruct (upd_word_ok bs (start / 64) f) as (b1 & -> & L1 & O1 & B1); [done|dlia|done|].
  exists b1. split; [done|]. split; [done|]. split; [done|]. intros k Hk. rewrite B1.
  destruct (Z.eqb_spec (k / 64) (start / 64)) as [E|E].
  - rewrite Hf; [|destruct (zget bs (start / 64)) eqn:Ew; cbn; [exact (zget_word_ok _ _ _ Hb Ew)|done]|dlia].
    unfold bit_at. rewrite E. destruct (Z.leb_spec (start mod 64) (k mod 64)), (Z.leb_spec (k mod 64) ((start + len - 1) mod 64)),
      (Z.leb_spec start k), (Z.ltb_spec k (start + len)); cbn; done || dlia.
  - destruct (Z.leb_spec start k), (Z.ltb_spec k (start + len)); cbn; done || dlia.
Qed.

Lemma set_range_ok bs start len : bitset_ok bs -> 0 <= start -> 0 < len -> start + len <= 64 * zlen bs ->
  exists bs', zend_mm_bitset_set_range bs start len = Ok bs' /\ range_becomes true bs start len bs'.
Proof.
  intros Hb Hs Hl Hin. unfold zend_mm_bitset_set_range, zend_mm_bitset_set_bit, ZEND_MM_BITSET_LEN. change (64 - 1) with 63.
  rewrite !land_63. destruct (Z.eqb_spec len 1) as [->|Hl1].
  { apply range_one_word; try done; [dlia|eauto with zarr|]. intros w j Hw Hj.
    rewrite Z.lor_spec, one_bit by dlia. replace (start + 1 - 1) with start by lia.
    destruct (Z.eqb_spec j (start mod 64)), (Z.leb_spec (start mod 64) j), (Z.leb_spec j (start mod 64)); cbn;
      rewrite ?orb_true_r, ?orb_false_r; done || lia. }
  destruct (Z.eqb_spec (start / 64) ((start + len - 1) / 64)) as [He|He]; cbn [negb].
  - apply range_one_word; try done.
    + intros w Hw. apply word_ok_lor; [done|]. apply word_ok_land; [apply word_ok_u64|apply word_ok_mask_to; dlia].
    + intros w j Hw Hj. rewrite Z.lor_spec, Z.land_spec, mask_from_bit, mask_to_bit by dlia. rewrite (proj2 (Z.ltb_lt j 64)) by lia.
      rewrite andb_true_r. destruct (_ && _); [by rewrite orb_true_r|by rewrite orb_false_r].
  - apply range_steps; try done; try lia; try dlia.
    + intros w Hw. apply word_ok_lor; [done|apply word_ok_u64].
    + intros w Hw. apply word_ok_lor; [done|apply word_ok_mask_to; dlia].
    + intros w j Hw Hj. rewrite Z.lor_spec, mask_from_bit by dlia. rewrite (proj2 (Z.ltb_lt j 64)) by lia. rewrite andb_true_r.
      destruct (_ <=? _); [by rewrite orb_true_r|by rewrite orb_false_r].
    + intros w j Hw Hj. rewrite Z.lor_spec, mask_to_bit by dlia. destruct (_ <=? _); [by rewrite orb_true_r|by rewrite orb_false_r].
    + intros j Hj. rewrite all_ones_bit by lia. by rewrite (proj2 (Z.ltb_lt j 64)) by lia.
Qed.

Lemma reset_range_ok bs start len : bitset_ok bs -> 0 <= start -> 0 < len -> start + len <= 64 * zlen bs ->
  exists bs', zend_mm_bitset_reset_range bs start len = Ok bs' /\ range_becomes false bs start len bs'.
Proof.
  intros Hb Hs Hl Hin. unfold zend_mm_bitset_reset_range, zend_mm_bitset_reset_bit, ZEND_MM_BITSET_LEN. change (64 - 1) with 63.
  assert (Hn : forall w x, word_ok w -> word_ok (Z.land w (not64 x))) by (intros; apply word_ok_land; [done|apply u64_range]).
  rewrite !land_63. destruct (Z.eqb_spec len 1) as [->|Hl1].
  { apply range_one_word; try done; [dlia|auto|]. intros w j Hw Hj.
    rewrite Z.land_spec, not64_bit, one_bit by dlia. replace (start + 1 - 1) with start by lia. rewrite (proj2 (Z.ltb_lt j 64)) by lia.
    destruct (Z.eqb_spec j (start mod 64)), (Z.leb_spec (start mod 64) j), (Z.leb_spec j (start mod 64)); cbn;
      rewrite ?andb_true_r, ?andb_false_r; done || lia. }
  destruct (Z.eqb_spec (start / 64) ((start + len - 1) / 64)) as [He|He]; cbn [negb].
  - apply range_one_word; try done; [auto|].
    intros w j Hw Hj. rewrite Z.land_spec, not64_bit, Z.land_spec, mask_from_bit, mask_to_bit by dlia.
    rewrite (proj2 (Z.ltb_lt j 64)) by lia. rewrite andb_true_r. cbn [andb].
    destruct ((_ <=? _) && _); cbn [negb]; [by rewrite andb_false_r|by rewrite andb_true_r].
  - apply range_steps; try done; try lia; try dlia; auto.
    + intros w j Hw Hj. rewrite not_below by dlia. rewrite Z.land_spec, not64_bit, mask_from_bit by dlia. rewrite (proj2 (Z.ltb_lt j 64)) by lia. rewrite andb_true_r.
      cbn [andb]. destruct (_ <=? _); cbn [negb]; [by rewrite andb_false_r|by rewrite andb_true_r].
    + intros w j Hw Hj. rewrite Z.land_spec, not64_bit, mask_to_bit by dlia. rewrite (proj2 (Z.ltb_lt j 64)) by lia.
      cbn [andb]. destruct (_ <=? _); cbn [negb]; [by rewrite andb_false_r|by rewrite andb_true_r].
    + intros j Hj. by rewrite Z.bits_0.
Qed.

Lemma is_set_ok bs k : 0 <= k < 64 * zlen bs -> zend_mm_bitset_is_set bs k = Ok (bit_at bs k).
Proof.
  intros Hk. unfold zend_mm_bitset_is_set, ZEND_BIT_TEST, ZEND_MM_BITSET_LEN. change (64 - 1) with 63. rewrite land_63.
  destruct (zget_is_Some bs (k / 64)) as [w Hw]; [dlia|]. rewrite (rd_ok _ _ _ Hw). cbn [mbind res_bind]. f_equal.
  rewrite (bit_at_word bs _ w k Hw eq_refl). change 1 with (Z.ones 1). rewrite Z.land_ones by lia. change (2 ^ 1) with 2.
  rewrite Zmod_odd, <- Z.bit0_odd, Z.shiftr_spec, Z.add_0_l by lia. by destruct (Z.testbit _ _).
Qed.

Lemma words_zero_ok fuel bs pos end_ : bitset_ok bs -> 0 <= pos <= end_ -> end_ <= zlen bs -> end_ - pos < Z.of_nat fuel ->
  exists b, words_zero fuel bs pos end_ = Ok b /\ (b = true <-> forall k, 64 * pos <= k < 64 * end_ -> bit_at bs k = false).
Proof.
  revert pos. induction fuel as [|fuel IH]; intros pos Hb Hp He Hf; [lia|]. cbn [words_zero].
  destruct (Z.eqb_spec pos end_) as [->|Hne]; cbn [negb]; [exists true; split; [done|]; split; [lia|done]|].
  destruct (zget_is_Some bs pos) as [w Hw]; [lia|]. rewrite (rd_ok _ _ _ Hw). cbn [mbind res_bind].
  pose proof (zget_word_ok _ _ _ Hb Hw) as Hwo. pose proof (word_zero w Hwo) as Hz.
  destruct (Z.eqb_spec w 0) as [E|E]; cbn [negb].
  - destruct (IH (pos + 1)) as (b & -> & Hbb); [done|lia..|]. exists b. split; [done|]. rewrite Hbb. split; intros H k Hk.
    + destruct (decide (k / 64 = pos)) as [Ek|]; [rewrite (bit_at_word bs pos w k Hw Ek); apply Hz; [done|dlia]|apply H; dlia].
    + apply H. lia.
  - exists false. split; [done|]. split; [done|]. intros H. exfalso. apply E, Hz. intros j Hj.
    specialize (H (64 * pos + j)). rewrite (bit_at_word bs pos w) in H by (done || dlia).
    replace ((64 * pos + j) mod 64) with j in H by dlia. apply H. lia.
Qed.

Lemma land_zero w m : word_ok w -> Z.land w m = 0 <-> forall j, 0 <= j < 64 -> Z.testbit m j = true -> Z.testbit w j = false.
Proof.
  intros Hw. split.
  - intros H j Hj Hm. assert (E : Z.testbit (Z.land w m) j = false) by (by rewrite H, Z.bits_0).
    by rewrite Z.land_spec, Hm, andb_true_r in E.
  - intros H. apply Z.bits_inj'. intros j Hj. rewrite Z.land_spec, Z.bits_0. destruct (Z.lt_ge_cases j 64).
    + destruct (Z.testbit m j) eqn:E; [by rewrite H by (done || lia)|by rewrite andb_false_r].
    + by rewrite word_high.
Qed.

Lemma is_free_range_ok bs start len : bitset_ok bs -> 0 <= start -> 0 < len -> start + len <= 64 * zlen bs ->
  exists b, zend_mm_bitset_is_free_range bs start len = Ok b /\
    (b = true <-> forall k, start <= k < start + len -> bit_at bs k = false).
Proof.
  intros Hb Hs Hl Hin. unfold zend_mm_bitset_is_free_range. destruct (Z.eqb_spec len 1) as [->|Hl1].
  { rewrite is_set_ok by lia. cbn [mbind res_bind]. exists (negb (bit_at bs start)). split; [done|]. split.
    - intros H k Hk. replace k with start by lia. by destruct (bit_at bs start).
    - intros H. by rewrite H by lia. }
  unfold ZEND_MM_BITSET_LEN. change (64 - 1) with 63. rewrite !land_63.
  destruct (zget_is_Some bs (start / 64)) as [w Hw]; [dlia|]. pose proof (zget_word_ok _ _ _ Hb Hw) as Hwo.
  rewrite (rd_ok _ _ _ Hw). cbn [mbind res_bind].
  destruct (Z.eqb_spec (start / 64) ((start + len - 1) / 64)) as [He|He]; cbn [negb].
  - eexists. split; [done|]. rewrite Z.eqb_eq, land_zero by done. split; intros H.
    + intros k Hk. rewrite (bit_at_word bs _ w k Hw) by dlia. apply H; [dlia|].
      rewrite Z.land_spec, mask_from_bit, mask_to_bit by dlia. rewrite !(proj2 (Z.leb_le _ _)), (proj2 (Z.ltb_lt _ _)) by dlia. done.
    + intros j Hj. rewrite Z.land_spec, mask_from_bit, mask_to_bit by dlia. intros [[Hj1%Z.leb_le _]%andb_prop Hj2%Z.leb_le]%andb_prop.
      specialize (H (64 * (start / 64) + j)). rewrite (bit_at_word bs _ w _ Hw) in H by dlia.
      replace ((64 * (start / 64) + j) mod 64) with j in H by dlia. apply H. dlia.
  - assert (H1 : Z.land w (mask_from (start mod 64)) = 0 <-> forall k, start <= k < 64 * (start / 64 + 1) -> bit_at bs k = false).
    { rewrite land_zero by done. split; intros H.
      - intros k Hk. rewrite (bit_at_word bs _ w k Hw) by dlia. apply H; [dlia|].
        rewrite mask_from_bit by dlia. rewrite (proj2 (Z.leb_le _ _)), (proj2 (Z.ltb_lt _ _)) by dlia. done.
      - intros j Hj. rewrite mask_from_bit by dlia. intros [Hj1%Z.leb_le _]%andb_prop.
        specialize (H (64 * (start / 64) + j)). rewrite (bit_at_word bs _ w _ Hw) in H by dlia.
        replace ((64 * (start / 64) + j) mod 64) with j in H by dlia. apply H. dlia. }
    destruct (Z.eqb_spec (Z.land w (mask_from (start mod 64))) 0) as [E|E]; cbn [negb].
    2:{ exists false. split; [done|]. split; [done|]. intros H. exfalso. apply E, H1. intros k Hk. apply H. dlia. }
    destruct (words_zero_ok (words_fuel bs) bs (start / 64 + 1) ((start + len - 1) / 64)) as (z & -> & Hz);
      [done|dlia|dlia|unfold words_fuel, zlen in *; dlia|]. cbn [mbind res_bind]. destruct z; cbn [negb].
    2:{ exists false. split; [done|]. split; [done|]. intros H. apply Hz. intros k Hk. apply H. dlia. }
    destruct (zget_is_Some bs ((start + len - 1) / 64)) as [w2 Hw2]; [dlia|]. pose proof (zget_word_ok _ _ _ Hb Hw2) as Hwo2.
    rewrite (rd_ok _ _ _ Hw2). cbn [mbind res_bind]. eexists. split; [done|]. rewrite Z.eqb_eq, land_zero by done. split; intros H.
    + intros k Hk. destruct (Z_lt_le_dec k (64 * (start / 64 + 1))) as [L|L]; [apply (proj1 H1 E); lia|].
      destruct (Z_lt_le_dec k (64 * ((start + len - 1) / 64))) as [L2|L2]; [apply (proj1 Hz eq_refl); lia|].
      rewrite (bit_at_word bs _ w2 k Hw2) by dlia. apply H; [dlia|]. rewrite mask_to_bit by dlia. apply Z.leb_le. dlia.
    + intros j Hj. rewrite mask_to_bit by dlia. intros Hj1%Z.leb_le.
      specialize (H (64 * ((start + len - 1) / 64) + j)). rewrite (bit_at_word bs _ w2 _ Hw2) in H by dlia.
      replace ((64 * ((start + len - 1) / 64) + j) mod 64) with j in H by dlia. apply H. dlia.
Qed.

(** ** Trailing bits *)

Lemma ctz_loop_ok fuel x n : 0 <= n -> n + Z.of_nat fuel = 64 -> (exists j, n <= j < 64 /\ Z.testbit x j = true) ->
  let r := ctz_loop fuel x n in n <= r < 64 /\ Z.testbit x r = true /\ forall j, n <= j < r -> Z.testbit x j = false.
Proof.
  revert n. induction fuel as [|fuel IH]; intros n Hn Hf (j & Hj & Hx); [lia|]. cbn [ctz_loop].
  destruct (Z.testbit x n) eqn:E; [split_and!; [lia|lia|done|intros; lia]|].
  destruct (IH (n + 1)) as (H1 & H2 & H3); [lia|lia| |].
  - exists j. destruct (decide (j = n)) as [->|]; [congruence|]. split; [lia|done].
  - split; [lia|]. split; [done|]. intros k Hk. destruct (decide (k = n)) as [->|]; [done|]. apply H3. lia.
Qed.

Lemma builtin_ctzl_ok x : word_ok x -> x <> 0 ->
  exists r, builtin_ctzl x = Ok r /\ 0 <= r < 64 /\ Z.testbit x r = true /\ forall j, 0 <= j < r -> Z.testbit x j = false.
Proof.
  intros Hx Hne. unfold builtin_ctzl. rewrite (proj2 (Z.eqb_neq x 0) Hne). cbn [negb assert_ mbind res_bind].
  exists (ctz_loop 64 x 0). split; [done|]. apply ctz_loop_ok; [lia|lia|].
  destruct Hx as [H0 H1]. exists (Z.log2 x). split; [|apply Z.bit_log2; lia].
  split; [apply Z.log2_nonneg|]. apply Z.log2_lt_pow2; lia.
Qed.

(** ** The pages of a chunk *)

Definition ZEND_MM_CHUNK_SIZE : Z := 2 * 1024 * 1024.
Definition ZEND_MM_PAGE_SIZE : Z := 4 * 1024.
Definition ZEND_MM_PAGES : Z := 512.
Definition ZEND_MM_FIRST_PAGE : Z := 1.

Definition ZEND_MM_IS_LRUN : Z := 0x40000000.
Definition ZEND_MM_IS_SRUN : Z := 0x80000000.
Definition ZEND_MM_LRUN_PAGES (info : Z) : Z := Z.land info 0x3ff.
Definition ZEND_MM_SRUN_BIN_NUM (info : Z) : Z := Z.land info 0x1f.
Definition ZEND_MM_SRUN_FREE_COUNTER (info : Z) : Z := Z.shiftr (Z.land info 0x01ff0000) 16.
Definition ZEND_MM_NRUN_OFFSET (info : Z) : Z := Z.shiftr (Z.land info 0x01ff0000) 16.
Definition ZEND_MM_LRUN (count : Z) : Z := Z.lor ZEND_MM_IS_LRUN count.
Definition ZEND_MM_SRUN (bin_num : Z) : Z := Z.lor ZEND_MM_IS_SRUN bin_num.
Definition ZEND_MM_SRUN_EX (bin_num count : Z) : Z :=
  Z.lor (Z.lor ZEND_MM_IS_SRUN bin_num) (u32 (Z.shiftl count 16)).
Definition ZEND_MM_NRUN (bin_num offset : Z) : Z :=
  Z.lor (Z.lor (Z.lor ZEND_MM_IS_SRUN ZEND_MM_IS_LRUN) bin_num) (u32 (Z.shiftl offset 16)).
Definition is_srun (info : Z) : bool := negb (Z.land info ZEND_MM_IS_SRUN =? 0).
Definition is_lrun (info : Z) : bool := negb (Z.land info ZEND_MM_IS_LRUN =? 0).

Record zend_mm_chunk : Type := mkChunk {
  ch_heap : Z;
  ch_next : Z;
  ch_prev : Z;
  ch_free_pages : Z;
  ch_free_tail : Z;
  ch_num : Z;
  ch_free_map : list Z;
  ch_map : list Z;
}.

Definition set_links (next prev : Z) (c : zend_mm_chunk) : zend_mm_chunk :=
  mkChunk (ch_heap c) next prev (ch_free_pages c) (ch_free_tail c) (ch_num c) (ch_free_map c) (ch_map c).
Definition set_heap (heap : Z) (c : zend_mm_chunk) : zend_mm_chunk :=
  mkChunk heap (ch_next c) (ch_prev c) (ch_free_pages c) (ch_free_tail c) (ch_num c) (ch_free_map c) (ch_map c).
Definition set_pages (free_pages free_tail : Z) (free_map map : list Z) (c : zend_mm_chunk) : zend_mm_chunk :=
  mkChunk (ch_heap c) (ch_next c) (ch_prev c) free_pages free_tail (ch_num c) free_map map.
Definition set_num (num : Z) (c : zend_mm_chunk) : zend_mm_chunk :=
  mkChunk (ch_heap c) (ch_next c) (ch_prev c) (ch_free_pages c) (ch_free_tail c) num (ch_free_map c) (ch_map c).
Definition set_map (map : list Z) (c : zend_mm_chunk) : zend_mm_chunk :=
  set_pages (ch_free_pages c) (ch_free_tail c) (ch_free_map c) map c.

(** ** Best-fit search

    [n] is the index of the word [*(bitset++)] reads next and [i] the first page that
    belongs to it. The outcome of the search and the new [free_tail]. *)

Inductive search_result : Type :=
| SFound (page_num free_tail : Z)
| SNotFound (free_tail : Z).

(** [while (tmp == (zend_mm_bitset)-1)]: [None] if the end of the map is reached. *)
Fixpoint skip_allocated (fuel : nat) (bitset : list Z) (tmp i n : Z) : res (option (Z * Z * Z)) :=
  match fuel with
  | O => Ub
  | S fuel =>
      if tmp =? ALL_ONES then
        let i := i + ZEND_MM_BITSET_LEN in
        if i =? ZEND_MM_PAGES then Ok None
        else tmp ← rd bitset n; skip_allocated fuel bitset tmp i (n + 1)
      else Ok (Some (tmp, i, n))
  end.

(** [while (tmp == 0)]: [None] if the free pages reach the tail of the chunk. *)
Fixpoint skip_free (fuel : nat) (bitset : list Z) (free_tail tmp i n : Z) : res (option (Z * Z * Z)) :=
  match fuel with
  | O => Ub
  | S fuel =>
      if tmp =? 0 then
        let i := i + ZEND_MM_BITSET_LEN in
        if (free_tail <=? i) || (i =? ZEND_MM_PAGES) then Ok None
        else tmp ← rd bitset n; skip_free fuel bitset free_tail tmp i (n + 1)
      else Ok (Some (tmp, i, n))
  end.

Definition search_fuel : nat := 600.

Fixpoint best_fit_loop (fuel : nat) (bitset : list Z) (pages_count free_tail best best_len tmp i n : Z)
  : res search_result :=
  match fuel with
  | O => Ub
  | S fuel =>
      r ← skip_allocated search_fuel bitset tmp i n;
      match r with
      | None => Ok (if 0 <? best then SFound best free_tail else SNotFound free_tail)
      | Some (tmp, i, n) =>
          z ← zend_mm_bitset_nts tmp;
          let page_num := i + z in
          let tmp := Z.land tmp (u64 (tmp + 1)) in
          r ← skip_free search_fuel bitset free_tail tmp i n;
          match r with
          | None =>
              let len := ZEND_MM_PAGES - page_num in
              Ok (if (pages_count <=? len) && (len <? best_len) then SFound page_num (page_num + pages_count)
                  else if 0 <? best then SFound best page_num
                  else SNotFound page_num)
          | Some (tmp, i, n) =>
              z ← zend_ulong_ntz tmp;
              let len := i + z - page_num in
              if (pages_count <=? len) && (len =? pages_count) then Ok (SFound page_num free_tail)
              else
                let '(best, best_len) :=
                  if (pages_count <=? len) && (len <? best_len) then (page_num, len) else (best, best_len) in
                let tmp := Z.lor tmp (tmp - 1) in
                best_fit_loop fuel bitset pages_count free_tail best best_len tmp i n
          end
      end
  end.

(** The search in one chunk; [ch_free_tail] takes the new value. *)
Definition best_fit (c : zend_mm_chunk) (pages_count : Z) : res search_result :=
  if ch_free_pages c <? pages_count then Ok (SNotFound (ch_free_tail c))
  else
    tmp ← rd (ch_free_map c) 0;
    best_fit_loop search_fuel (ch_free_map c) pages_count (ch_free_tail c) (-1) ZEND_MM_PAGES tmp 0 1.

(** [found:] without the move of the chunk in its list. *)
Definition mark_run (c : zend_mm_chunk) (page_num pages_count : Z) : res zend_mm_chunk :=
  free_map ← zend_mm_bitset_set_range (ch_free_map c) page_num pages_count;
  map ← wr (ch_map c) page_num (ZEND_MM_LRUN pages_count);
  Ok (set_pages (u32 (ch_free_pages c - pages_count))
        (if page_num =? ch_free_tail c then page_num + pages_count else ch_free_tail c) free_map map c).

(** The part of zend_mm_free_pages_ex that concerns the chunk. *)
Definition unmark_run (c : zend_mm_chunk) (page_num pages_count : Z) : res zend_mm_chunk :=
  free_map ← zend_mm_bitset_reset_range (ch_free_map c) page_num pages_count;
  map ← wr (ch_map c) page_num 0;
  Ok (set_pages (u32 (ch_free_pages c + pages_count))
        (if ch_free_tail c =? page_num + pages_count then page_num else ch_free_tail c) free_map map c).

(** The header of a new chunk: the memory is zero, or that of a chunk without runs. *)
Definition chunk_init_pages (c : zend_mm_chunk) : res zend_mm_chunk :=
  free_map ← wr (ch_free_map c) 0 (Z.shiftl 1 ZEND_MM_FIRST_PAGE - 1);
  map ← wr (ch_map c) 0 (ZEND_MM_LRUN ZEND_MM_FIRST_PAGE);
  Ok (set_pages (ZEND_MM_PAGES - ZEND_MM_FIRST_PAGE) ZEND_MM_FIRST_PAGE free_map map c).
