(* ===== verification/MmHeapOps.v ===== *)
(** * The heap of the memory manager (Zend/zend_alloc.c): state, chunks, pages, slots

    The state is what the code keeps in memory: the heap itself (in the header of the
    main chunk), the headers of the chunks, and the bytes of the pages, in which the
    free lists and the list of huge blocks are linked. The operating system is an
    interface. Statistics, the memory limit and the storage-less build are those of
    the default configuration ([ZEND_DEBUG] off). *)

From Stdlib Require Import Floats.SpecFloat.
From S2P Require Import Prelude.
From S2P Require Import ZendDouble.
From S2P Require Import MmPageOps.

(** ** State *)

Record zend_mm_heap : Type := mkHeap {
  mm_size : Z;
  mm_peak : Z;
  mm_free_slot : list Z;
  mm_real_size : Z;
  mm_real_peak : Z;
  mm_limit : Z;
  mm_overflow : Z;
  mm_huge_list : Z;
  mm_main_chunk : Z;
  mm_cached_chunks : Z;
  mm_chunks_count : Z;
  mm_peak_chunks_count : Z;
  mm_cached_chunks_count : Z;
  mm_avg_chunks_count : spec_float;
  mm_last_chunks_delete_boundary : Z;
  mm_last_chunks_delete_count : Z;
}.

Definition set_sizes (size peak : Z) (h : zend_mm_heap) : zend_mm_heap :=
  mkHeap size peak (mm_free_slot h) (mm_real_size h) (mm_real_peak h) (mm_limit h) (mm_overflow h) (mm_huge_list h)
    (mm_main_chunk h) (mm_cached_chunks h) (mm_chunks_count h) (mm_peak_chunks_count h) (mm_cached_chunks_count h)
    (mm_avg_chunks_count h) (mm_last_chunks_delete_boundary h) (mm_last_chunks_delete_count h).
Definition set_slots (slots : list Z) (h : zend_mm_heap) : zend_mm_heap :=
  mkHeap (mm_size h) (mm_peak h) slots (mm_real_size h) (mm_real_peak h) (mm_limit h) (mm_overflow h) (mm_huge_list h)
    (mm_main_chunk h) (mm_cached_chunks h) (mm_chunks_count h) (mm_peak_chunks_count h) (mm_cached_chunks_count h)
    (mm_avg_chunks_count h) (mm_last_chunks_delete_boundary h) (mm_last_chunks_delete_count h).
Definition set_real (size peak : Z) (h : zend_mm_heap) : zend_mm_heap :=
  mkHeap (mm_size h) (mm_peak h) (mm_free_slot h) size peak (mm_limit h) (mm_overflow h) (mm_huge_list h)
    (mm_main_chunk h) (mm_cached_chunks h) (mm_chunks_count h) (mm_peak_chunks_count h) (mm_cached_chunks_count h)
    (mm_avg_chunks_count h) (mm_last_chunks_delete_boundary h) (mm_last_chunks_delete_count h).
Definition set_limit (limit overflow : Z) (h : zend_mm_heap) : zend_mm_heap :=
  mkHeap (mm_size h) (mm_peak h) (mm_free_slot h) (mm_real_size h) (mm_real_peak h) limit overflow (mm_huge_list h)
    (mm_main_chunk h) (mm_cached_chunks h) (mm_chunks_count h) (mm_peak_chunks_count h) (mm_cached_chunks_count h)
    (mm_avg_chunks_count h) (mm_last_chunks_delete_boundary h) (mm_last_chunks_delete_count h).
Definition set_huge (huge_list : Z) (h : zend_mm_heap) : zend_mm_heap :=
  mkHeap (mm_size h) (mm_peak h) (mm_free_slot h) (mm_real_size h) (mm_real_peak h) (mm_limit h) (mm_overflow h) huge_list
    (mm_main_chunk h) (mm_cached_chunks h) (mm_chunks_count h) (mm_peak_chunks_count h) (mm_cached_chunks_count h)
    (mm_avg_chunks_count h) (mm_last_chunks_delete_boundary h) (mm_last_chunks_delete_count h).
Definition set_cached (cached count : Z) (h : zend_mm_heap) : zend_mm_heap :=
  mkHeap (mm_size h) (mm_peak h) (mm_free_slot h) (mm_real_size h) (mm_real_peak h) (mm_limit h) (mm_overflow h) (mm_huge_list h)
    (mm_main_chunk h) cached (mm_chunks_count h) (mm_peak_chunks_count h) count
    (mm_avg_chunks_count h) (mm_last_chunks_delete_boundary h) (mm_last_chunks_delete_count h).
Definition set_counts (count peak : Z) (h : zend_mm_heap) : zend_mm_heap :=
  mkHeap (mm_size h) (mm_peak h) (mm_free_slot h) (mm_real_size h) (mm_real_peak h) (mm_limit h) (mm_overflow h) (mm_huge_list h)
    (mm_main_chunk h) (mm_cached_chunks h) count peak (mm_cached_chunks_count h)
    (mm_avg_chunks_count h) (mm_last_chunks_delete_boundary h) (mm_last_chunks_delete_count h).
Definition set_deletes (boundary count : Z) (h : zend_mm_heap) : zend_mm_heap :=
  mkHeap (mm_size h) (mm_peak h) (mm_free_slot h) (mm_real_size h) (mm_real_peak h) (mm_limit h) (mm_overflow h) (mm_huge_list h)
    (mm_main_chunk h) (mm_cached_chunks h) (mm_chunks_count h) (mm_peak_chunks_count h) (mm_cached_chunks_count h)
    (mm_avg_chunks_count h) boundary count.
Definition set_avg (avg : spec_float) (h : zend_mm_heap) : zend_mm_heap :=
  mkHeap (mm_size h) (mm_peak h) (mm_free_slot h) (mm_real_size h) (mm_real_peak h) (mm_limit h) (mm_overflow h) (mm_huge_list h)
    (mm_main_chunk h) (mm_cached_chunks h) (mm_chunks_count h) (mm_peak_chunks_count h) (mm_cached_chunks_count h)
    avg (mm_last_chunks_delete_boundary h) (mm_last_chunks_delete_count h).

(** The operating system: [mmap(NULL, size, ...)], which returns 0 for [MAP_FAILED],
    [munmap(addr, size)] and [mremap(addr, old_size, new_size, 0)]. *)
Class Os : Type := {
  os : Type;
  os_mmap : os -> Z -> os * Z;
  os_munmap : os -> Z -> Z -> os;
  os_mremap : os -> Z -> Z -> Z -> os * bool;
}.

(** ** Bytes *)

Definition bytes_of (v : Z) : list Z := (fun k => Z.land (Z.shiftr v (8 * k)) 255) <$> seqZ 0 8.
Definition word_of (l : list Z) : Z := foldr (fun b acc => b + 256 * acc) 0 l.

Fixpoint store_bytes (m : gmap Z Z) (p : Z) (l : list Z) : gmap Z Z :=
  match l with
  | [] => m
  | b :: l => store_bytes (<[p := b]> m) (p + 1) l
  end.
Fixpoint load_bytes (m : gmap Z Z) (p : Z) (n : nat) : option (list Z) :=
  match n with
  | O => Some []
  | S n => match m !! p, load_bytes m (p + 1) n with
           | Some b, Some l => Some (b :: l)
           | _, _ => None
           end
  end.
Definition in_span (addr size a : Z) : bool := (addr <=? a) && (a <? addr + size).

Section Heap.
Context {OS : Os}.

Record mstate : Type := mkState {
  st_heap : option zend_mm_heap;   (* [None]: the main chunk is unmapped *)
  st_chunks : gmap Z zend_mm_chunk;
  st_mem : gmap Z Z;
  st_os : os;
}.

(** ** Outcomes

    [MError] is [zend_error_noreturn(E_ERROR, ...)] followed by [zend_bailout()]: the
    heap stays in use. [MUb] is an access to memory that is not mapped, a failed
    assertion or a call of [zend_mm_panic]. *)

Inductive mm_error : Type :=
| MemoryLimit (limit size : Z)
| OutOfMemory (allocated size : Z)
| SizeOverflow (size alignment : Z).

Inductive mres (A : Type) : Type :=
| MOk (a : A) (s : mstate)
| MError (e : mm_error) (s : mstate)
| MUb.
Arguments MOk {A}.
Arguments MError {A}.
Arguments MUb {A}.

Definition MM (A : Type) : Type := mstate -> mres A.
#[export] Instance MM_ret : MRet MM := fun A a s => MOk a s.
#[export] Instance MM_bind : MBind MM := fun A B f m s =>
  match m s with MOk a s => f a s | MError e s => MError e s | MUb => MUb end.

Definition ub {A} : MM A := fun _ => MUb.
Definition guard_ (b : bool) : MM unit := if b then mret tt else ub.
Definition raise {A} (e : mm_error) : MM A := fun s => MError e s.
Definition lift {A} (r : res A) : MM A := match r with Ok a => mret a | _ => ub end.

Definition get_heap : MM zend_mm_heap := fun s =>
  match st_heap s with Some h => MOk h s | None => MUb end.
Definition upd_heap (f : zend_mm_heap -> zend_mm_heap) : MM unit := fun s =>
  match st_heap s with
  | Some h => MOk tt (mkState (Some (f h)) (st_chunks s) (st_mem s) (st_os s))
  | None => MUb
  end.
Definition get_chunk (a : Z) : MM zend_mm_chunk := fun s =>
  match st_chunks s !! a with Some c => MOk c s | None => MUb end.
Definition put_chunk (a : Z) (c : zend_mm_chunk) : MM unit := fun s =>
  match st_chunks s !! a with
  | Some _ => MOk tt (mkState (st_heap s) (<[a := c]> (st_chunks s)) (st_mem s) (st_os s))
  | None => MUb
  end.
Definition upd_chunk (a : Z) (f : zend_mm_chunk -> zend_mm_chunk) : MM unit := c ← get_chunk a; put_chunk a (f c).
Definition load64 (p : Z) : MM Z := fun s =>
  match load_bytes (st_mem s) p 8 with Some l => MOk (word_of l) s | None => MUb end.
Definition store64 (p v : Z) : MM unit := fun s =>
  MOk tt (mkState (st_heap s) (st_chunks s) (store_bytes (st_mem s) p (bytes_of v)) (st_os s)).

(** [&chunk->heap_slot] *)
Definition heap_slot (chunk : Z) : Z := chunk + 64.
(** The address of the heap. *)
Definition heap_addr (h : zend_mm_heap) : Z := heap_slot (mm_main_chunk h).

(** ** OS allocation *)

Definition REAL_PAGE_SIZE : Z := ZEND_MM_PAGE_SIZE.
Definition ZEND_MM_ALIGNED_OFFSET (size alignment : Z) : Z := Z.land size (alignment - 1).
Definition ZEND_MM_ALIGNED_BASE (size alignment : Z) : Z := Z.land size (Z.lnot (alignment - 1)).
Definition ZEND_MM_SIZE_TO_NUM (size alignment : Z) : Z := u64 (size + (alignment - 1)) / alignment.
Definition ZEND_MM_ALIGNED_SIZE_EX (size alignment : Z) : Z :=
  Z.land (u64 (size + alignment - 1)) (u64 (Z.lnot (alignment - 1))).

Definition unmap {V} (addr size : Z) (m : gmap Z V) : gmap Z V :=
  filter (fun x => in_span addr size x.1 = false) m.

Definition zend_mm_munmap (addr size : Z) : MM unit := fun s =>
  MOk tt (mkState (match st_heap s with
                   | Some h => if in_span addr size (mm_main_chunk h) then None else Some h
                   | None => None
                   end)
            (unmap addr size (st_chunks s)) (unmap addr size (st_mem s)) (os_munmap (st_os s) addr size)).

(** Huge pages are off by default. *)
Definition zend_mm_mmap (size : Z) : MM Z := fun s =>
  let '(sys, ptr) := os_mmap (st_os s) size in
  MOk ptr (mkState (st_heap s) (st_chunks s) (st_mem s) sys).

Definition zend_mm_chunk_alloc_int (size alignment : Z) : MM Z :=
  ptr ← zend_mm_mmap size;
  if ptr =? 0 then mret 0
  else if ZEND_MM_ALIGNED_OFFSET ptr alignment =? 0 then mret ptr
  else
    zend_mm_munmap ptr size;;
    ptr ← zend_mm_mmap (u64 (size + alignment - REAL_PAGE_SIZE));
    let offset := ZEND_MM_ALIGNED_OFFSET ptr alignment in
    '(ptr, alignment) ←
      (if negb (offset =? 0) then
         let offset := alignment - offset in
         zend_mm_munmap ptr offset;;
         mret (ptr + offset, alignment - offset)
       else mret (ptr, alignment));
    (if REAL_PAGE_SIZE <? alignment then zend_mm_munmap (ptr + size) (alignment - REAL_PAGE_SIZE) else mret tt);;
    mret ptr.

(** Without a custom storage. *)
Definition zend_mm_chunk_alloc (size alignment : Z) : MM Z := zend_mm_chunk_alloc_int size alignment.
Definition zend_mm_chunk_free (addr size : Z) : MM unit := zend_mm_munmap addr size.
Definition zend_mm_chunk_truncate (addr old_size new_size : Z) : MM bool :=
  zend_mm_munmap (addr + new_size) (old_size - new_size);; mret true.
Definition zend_mm_chunk_extend (addr old_size new_size : Z) : MM bool := fun s =>
  let '(sys, ok) := os_mremap (st_os s) addr old_size new_size in
  MOk ok (mkState (st_heap s) (st_chunks s) (st_mem s) sys).

(** The header in memory that was just mapped, which is zero. *)
Definition zero_chunk : zend_mm_chunk := mkChunk 0 0 0 0 0 0 (replicate 8 0) (replicate 512 0).
Definition map_header (chunk : Z) : MM unit := fun s =>
  MOk tt (mkState (st_heap s) (<[chunk := zero_chunk]> (st_chunks s)) (st_mem s) (st_os s)).

(** [(zend_mm_chunk* )zend_mm_chunk_alloc(heap, ZEND_MM_CHUNK_SIZE, ZEND_MM_CHUNK_SIZE)] *)
Definition alloc_chunk : MM Z :=
  chunk ← zend_mm_chunk_alloc ZEND_MM_CHUNK_SIZE ZEND_MM_CHUNK_SIZE;
  (if chunk =? 0 then mret tt else map_header chunk);; mret chunk.

Definition zend_mm_chunk_init (chunk : Z) : MM unit :=
  h ← get_heap;
  main ← get_chunk (mm_main_chunk h);
  upd_chunk chunk (fun c => set_links (mm_main_chunk h) (ch_prev main) (set_heap (heap_addr h) c));;
  upd_chunk (ch_prev main) (fun c => set_links chunk (ch_prev c) c);;
  upd_chunk (mm_main_chunk h) (fun c => set_links (ch_next c) chunk c);;
  prev ← get_chunk (ch_prev main);
  c ← get_chunk chunk;
  c ← lift (chunk_init_pages c);
  put_chunk chunk (set_num (u32 (ch_num prev + 1)) c).

(** ** Deletion of a chunk *)

Definition double_add : spec_float -> spec_float -> spec_float := SFadd 53 1024.
Definition double_lt : spec_float -> spec_float -> bool := SFltb.
(** The literal [0.1]. *)
Definition DOUBLE_0_1 : spec_float := double_of_bits 0x3fb999999999999a.

Definition delay_deletion (h : zend_mm_heap) : bool :=
  double_lt (double_of_long (mm_chunks_count h + mm_cached_chunks_count h)) (double_add (mm_avg_chunks_count h) DOUBLE_0_1)
  || ((mm_chunks_count h =? mm_last_chunks_delete_boundary h) && (4 <=? mm_last_chunks_delete_count h)).

Definition zend_mm_delete_chunk (chunk : Z) : MM unit :=
  c ← get_chunk chunk;
  upd_chunk (ch_next c) (fun n => set_links (ch_next n) (ch_prev c) n);;
  c ← get_chunk chunk;
  upd_chunk (ch_prev c) (fun p => set_links (ch_next c) (ch_prev p) p);;
  upd_heap (fun h => set_counts (mm_chunks_count h - 1) (mm_peak_chunks_count h) h);;
  h ← get_heap;
  if delay_deletion h then
    upd_heap (set_cached (mm_cached_chunks h) (mm_cached_chunks_count h + 1));;
    upd_chunk chunk (fun c => set_links (mm_cached_chunks h) (ch_prev c) c);;
    upd_heap (set_cached chunk (mm_cached_chunks_count h + 1))
  else
    upd_heap (set_real (u64 (mm_real_size h - ZEND_MM_CHUNK_SIZE)) (mm_real_peak h));;
    (if mm_cached_chunks h =? 0 then
       if negb (mm_chunks_count h =? mm_last_chunks_delete_boundary h)
       then upd_heap (set_deletes (mm_chunks_count h) 0)
       else upd_heap (set_deletes (mm_last_chunks_delete_boundary h) (mm_last_chunks_delete_count h + 1))
     else mret tt);;
    if mm_cached_chunks h =? 0 then zend_mm_chunk_free chunk ZEND_MM_CHUNK_SIZE
    else
      c ← get_chunk chunk;
      k ← get_chunk (mm_cached_chunks h);
      if ch_num k <? ch_num c then zend_mm_chunk_free chunk ZEND_MM_CHUNK_SIZE
      else
        put_chunk chunk (set_links (ch_next k) (ch_prev c) c);;
        zend_mm_chunk_free (mm_cached_chunks h) ZEND_MM_CHUNK_SIZE;;
        upd_heap (set_cached chunk (mm_cached_chunks_count h)).

Definition zend_mm_free_pages_ex (chunk page_num pages_count : Z) (free_chunk : bool) : MM unit :=
  c ← get_chunk chunk;
  c ← lift (unmark_run c page_num pages_count);
  put_chunk chunk c;;
  h ← get_heap;
  if free_chunk && negb (chunk =? mm_main_chunk h) && (ch_free_pages c =? ZEND_MM_PAGES - ZEND_MM_FIRST_PAGE)
  then zend_mm_delete_chunk chunk
  else mret tt.

Definition zend_mm_free_pages (chunk page_num pages_count : Z) : MM unit :=
  zend_mm_free_pages_ex chunk page_num pages_count true.

(** [heap->size], with the peak. *)
Definition add_size (n : Z) : MM unit :=
  upd_heap (fun h => let size := u64 (mm_size h + n) in set_sizes size (Z.max (mm_peak h) size) h).
Definition sub_size (n : Z) : MM unit := upd_heap (fun h => set_sizes (u64 (mm_size h - n)) (mm_peak h) h).
Definition add_real_size (n : Z) : MM unit :=
  upd_heap (fun h => let size := u64 (mm_real_size h + n) in set_real size (Z.max (mm_real_peak h) size) h).
Definition sub_real_size (n : Z) : MM unit := upd_heap (fun h => set_real (u64 (mm_real_size h - n)) (mm_real_peak h) h).

Definition zend_mm_free_large (chunk page_num pages_count : Z) : MM unit :=
  sub_size (pages_count * ZEND_MM_PAGE_SIZE);;
  zend_mm_free_pages chunk page_num pages_count.

End Heap.

Arguments MOk {OS A}.
Arguments MError {OS A}.
Arguments MUb {OS A}.
