(* ===== verification/MmAllocOps.v ===== *)
(** * Blocks of all sizes (Zend/zend_alloc.c)

    The free lists of the bins, the collection of runs whose slots are all free, the
    allocation of pages over the ring of chunks, small, large and huge blocks, the
    entry points, the start and the shutdown of the heap, and the memory limit. At the
    end, an operating system on which the definitions run. *)

From Stdlib Require Import Floats.SpecFloat.
From S2P Require Import Prelude.
From S2P Require Import ZendDouble.
From S2P Require Import MmPageOps.
From S2P Require Import MmHeapOps.

(** ** Bins (Zend/zend_alloc_sizes.h) *)

Definition ZEND_MM_BINS : Z := 30.
Definition ZEND_MM_MAX_SMALL_SIZE : Z := 3072.
Definition ZEND_MM_MAX_LARGE_SIZE : Z := ZEND_MM_CHUNK_SIZE - ZEND_MM_PAGE_SIZE * ZEND_MM_FIRST_PAGE.

Definition bin_data_size : list Z :=
  [8; 16; 24; 32; 40; 48; 56; 64; 80; 96; 112; 128; 160; 192; 224; 256; 320; 384; 448; 512; 640; 768; 896; 1024;
   1280; 1536; 1792; 2048; 2560; 3072].
Definition bin_elements : list Z :=
  [512; 256; 170; 128; 102; 85; 73; 64; 51; 42; 36; 32; 25; 21; 18; 16; 64; 32; 9; 8; 32; 16; 9; 8;
   16; 8; 16; 8; 8; 4].
Definition bin_pages : list Z :=
  [1; 1; 1; 1; 1; 1; 1; 1; 1; 1; 1; 1; 1; 1; 1; 1; 5; 3; 1; 1; 5; 3; 2; 2;
   5; 3; 7; 4; 5; 3].

(** [__builtin_clz], undefined on 0. *)
Definition builtin_clz (x : Z) : res Z := _ ← assert_ (0 <? x); Ok (31 - Z.log2 x).
Definition zend_mm_small_size_to_bit (size : Z) : res Z := n ← builtin_clz size; Ok (Z.lxor n 31 + 1).

Definition zend_mm_small_size_to_bin (size : Z) : res Z :=
  if size <=? 64 then Ok (Z.shiftr (size - Z.b2z (negb (size =? 0))) 3)
  else
    let t1 := u32 (size - 1) in
    bit ← zend_mm_small_size_to_bit t1;
    let t2 := u32 (bit - 3) in
    let t1 := Z.shiftr t1 t2 in
    let t2 := u32 (t2 - 3) in
    let t2 := u32 (Z.shiftl t2 2) in
    Ok (i32 (u32 (t1 + t2))).

Section Alloc.
Context {OS : Os}.

(** [zend_mm_safe_error]: the flag is set while the error is reported. *)
Definition zend_mm_safe_error {A} (e : mm_error) : MM A :=
  upd_heap (fun h => set_limit (mm_limit h) 0 h);; raise e.

(** ** Collection *)

(** A loop over the slots in memory. *)
Definition slot_fuel : MM nat := fun s => MOk (S (size (st_mem s))) s.
Definition chunk_fuel : MM nat := fun s => MOk (S (size (st_chunks s))) s.

(** The run of the free slot [p]: its chunk, its first page and what the map says there. *)
Definition slot_run (i p : Z) : MM (Z * Z * Z) :=
  let chunk := ZEND_MM_ALIGNED_BASE p ZEND_MM_CHUNK_SIZE in
  c ← get_chunk chunk;
  h ← get_heap;
  guard_ (ch_heap c =? heap_addr h);;
  let page_offset := ZEND_MM_ALIGNED_OFFSET p ZEND_MM_CHUNK_SIZE in
  guard_ (negb (page_offset =? 0));;
  let page_num := page_offset / ZEND_MM_PAGE_SIZE in
  info ← lift (rd (ch_map c) page_num);
  guard_ (is_srun info);;
  '(page_num, info) ←
    (if is_lrun info then
       let page_num := page_num - ZEND_MM_NRUN_OFFSET info in
       info ← lift (rd (ch_map c) page_num);
       guard_ (is_srun info);;
       guard_ (negb (is_lrun info));;
       mret (page_num, info)
     else mret (page_num, info));
  guard_ (ZEND_MM_SRUN_BIN_NUM info =? i);;
  mret (chunk, page_num, info).

(** The free slots of every run are counted in the map. *)
Fixpoint gc_count (fuel : nat) (i p : Z) (has_free_pages : bool) : MM bool :=
  match fuel with
  | O => ub
  | S fuel =>
      if p =? 0 then mret has_free_pages
      else
        '(chunk, page_num, info) ← slot_run i p;
        elements ← lift (rd bin_elements i);
        let free_counter := ZEND_MM_SRUN_FREE_COUNTER info + 1 in
        c ← get_chunk chunk;
        map ← lift (wr (ch_map c) page_num (ZEND_MM_SRUN_EX i free_counter));
        put_chunk chunk (set_map map c);;
        p ← load64 p;
        gc_count fuel i p (has_free_pages || (free_counter =? elements))
  end.

(** [*q = p], where [q] is [&heap->free_slot[i]] or [&slot->next_free_slot]. *)
Definition set_slot_link (i : Z) (q : option Z) (p : Z) : MM unit :=
  match q with
  | None => h ← get_heap; slots ← lift (wr (mm_free_slot h) i p); upd_heap (set_slots slots)
  | Some q => store64 q p
  end.

(** The slots of the runs that are free are taken out of the list. *)
Fixpoint gc_unlink (fuel : nat) (i : Z) (q : option Z) (p : Z) : MM unit :=
  match fuel with
  | O => ub
  | S fuel =>
      if p =? 0 then mret tt
      else
        '(chunk, page_num, info) ← slot_run i p;
        elements ← lift (rd bin_elements i);
        next ← load64 p;
        if ZEND_MM_SRUN_FREE_COUNTER info =? elements
        then set_slot_link i q next;; gc_unlink fuel i q next
        else gc_unlink fuel i (Some p) next
  end.

Definition gc_bin (i : Z) : MM unit :=
  h ← get_heap;
  p ← lift (rd (mm_free_slot h) i);
  fuel ← slot_fuel;
  has_free_pages ← gc_count fuel i p false;
  if negb has_free_pages then mret tt
  else
    h ← get_heap;
    p ← lift (rd (mm_free_slot h) i);
    fuel ← slot_fuel;
    gc_unlink fuel i None p.

Fixpoint gc_bins (bins : list Z) : MM unit :=
  match bins with
  | [] => mret tt
  | i :: bins => gc_bin i;; gc_bins bins
  end.

(** The runs of a chunk: those that are free are returned, the counters of the others are reset. *)
Fixpoint gc_pages (fuel : nat) (chunk i collected : Z) : MM Z :=
  match fuel with
  | O => ub
  | S fuel =>
      c ← get_chunk chunk;
      if ch_free_tail c <=? i then mret collected
      else
        used ← lift (zend_mm_bitset_is_set (ch_free_map c) i);
        if (used : bool) then
          info ← lift (rd (ch_map c) i);
          if is_srun info then
            let bin_num := ZEND_MM_SRUN_BIN_NUM info in
            pages_count ← lift (rd bin_pages bin_num);
            elements ← lift (rd bin_elements bin_num);
            if ZEND_MM_SRUN_FREE_COUNTER info =? elements then
              zend_mm_free_pages_ex chunk i pages_count false;;
              gc_pages fuel chunk (i + pages_count) (collected + pages_count)
            else
              map ← lift (wr (ch_map c) i (ZEND_MM_SRUN bin_num));
              put_chunk chunk (set_map map c);;
              gc_pages fuel chunk (i + pages_count) collected
          else gc_pages fuel chunk (i + ZEND_MM_LRUN_PAGES info) collected
        else gc_pages fuel chunk (i + 1) collected
  end.

Definition page_fuel : nat := 513.

(** [do { ... } while (chunk != heap->main_chunk)] *)
Fixpoint gc_chunks (fuel : nat) (chunk collected : Z) : MM Z :=
  match fuel with
  | O => ub
  | S fuel =>
      collected ← gc_pages page_fuel chunk ZEND_MM_FIRST_PAGE collected;
      c ← get_chunk chunk;
      let next_chunk := ch_next c in
      (if ch_free_pages c =? ZEND_MM_PAGES - ZEND_MM_FIRST_PAGE then zend_mm_delete_chunk chunk else mret tt);;
      h ← get_heap;
      if next_chunk =? mm_main_chunk h then mret collected else gc_chunks fuel next_chunk collected
  end.

Definition zend_mm_gc : MM Z :=
  gc_bins (seqZ 0 ZEND_MM_BINS);;
  h ← get_heap;
  fuel ← chunk_fuel;
  collected ← gc_chunks fuel (mm_main_chunk h) 0;
  mret (u64 (collected * ZEND_MM_PAGE_SIZE)).

(** ** Pages *)

Definition set_tail (free_tail : Z) (c : zend_mm_chunk) : zend_mm_chunk :=
  set_pages (ch_free_pages c) free_tail (ch_free_map c) (ch_map c) c.

(** The search over the ring: the chunk and the page, and the number of steps. *)
Fixpoint search_chunks (fuel : nat) (pages_count chunk steps : Z) : MM (option (Z * Z) * Z) :=
  match fuel with
  | O => ub
  | S fuel =>
      c ← get_chunk chunk;
      r ← lift (best_fit c pages_count);
      match r with
      | SFound page_num free_tail => put_chunk chunk (set_tail free_tail c);; mret (Some (chunk, page_num), steps)
      | SNotFound free_tail =>
          put_chunk chunk (set_tail free_tail c);;
          h ← get_heap;
          if ch_next c =? mm_main_chunk h then mret (None, steps)
          else search_chunks fuel pages_count (ch_next c) (steps + 1)
      end
  end.

(** [zend_mm_chunk_alloc] and what follows when it fails. *)
Definition map_chunk (pages_count : Z) : MM Z :=
  let out_of_memory := h ← get_heap; zend_mm_safe_error (OutOfMemory (mm_real_size h) (ZEND_MM_PAGE_SIZE * pages_count)) in
  chunk ← alloc_chunk;
  chunk ←
    (if chunk =? 0 then
       collected ← zend_mm_gc;
       if collected =? 0 then out_of_memory
       else
         chunk ← alloc_chunk;
         if chunk =? 0 then out_of_memory else mret chunk
     else mret chunk);
  add_real_size ZEND_MM_CHUNK_SIZE;;
  mret chunk.

(** [get_chunk:]; a successful collection starts over. *)
Fixpoint obtain_chunk (fuel : nat) (pages_count : Z) : MM Z :=
  match fuel with
  | O => ub
  | S fuel =>
      h ← get_heap;
      if negb (mm_cached_chunks h =? 0) then
        let chunk := mm_cached_chunks h in
        c ← get_chunk chunk;
        upd_heap (set_cached (ch_next c) (mm_cached_chunks_count h - 1));;
        mret chunk
      else if u64 (mm_limit h - mm_real_size h) <? ZEND_MM_CHUNK_SIZE then
        collected ← zend_mm_gc;
        if negb (collected =? 0) then obtain_chunk fuel pages_count
        else
          h ← get_heap;
          if mm_overflow h =? 0
          then zend_mm_safe_error (MemoryLimit (mm_limit h) (ZEND_MM_PAGE_SIZE * pages_count))
          else map_chunk pages_count
      else map_chunk pages_count
  end.

(** Every successful collection returns a page of a chunk. *)
Definition gc_fuel : MM nat := fun s => MOk (S (512 * size (st_chunks s))) s.

Definition move_to_front (chunk : Z) : MM unit :=
  c ← get_chunk chunk;
  upd_chunk (ch_prev c) (fun p => set_links (ch_next c) (ch_prev p) p);;
  c ← get_chunk chunk;
  upd_chunk (ch_next c) (fun n => set_links (ch_next n) (ch_prev c) n);;
  h ← get_heap;
  main ← get_chunk (mm_main_chunk h);
  upd_chunk chunk (set_links (ch_next main) (mm_main_chunk h));;
  upd_chunk (mm_main_chunk h) (fun m => set_links chunk (ch_prev m) m);;
  upd_chunk (ch_next main) (fun n => set_links (ch_next n) chunk n).

Definition zend_mm_alloc_pages (pages_count : Z) : MM Z :=
  h ← get_heap;
  fuel ← chunk_fuel;
  '(found, steps) ← search_chunks fuel pages_count (mm_main_chunk h) 0;
  '(chunk, page_num) ←
    match found with
    | Some r => mret r
    | None =>
        fuel ← gc_fuel;
        chunk ← obtain_chunk fuel pages_count;
        upd_heap (fun h => let n := mm_chunks_count h + 1 in set_counts n (Z.max n (mm_peak_chunks_count h)) h);;
        zend_mm_chunk_init chunk;;
        mret (chunk, ZEND_MM_FIRST_PAGE)
    end;
  (if (2 <? steps) && (pages_count <? 8) then move_to_front chunk else mret tt);;
  c ← get_chunk chunk;
  c ← lift (mark_run c page_num pages_count);
  put_chunk chunk c;;
  mret (chunk + page_num * ZEND_MM_PAGE_SIZE).

Definition zend_mm_alloc_large (size : Z) : MM Z :=
  let pages_count := ZEND_MM_SIZE_TO_NUM size ZEND_MM_PAGE_SIZE in
  ptr ← zend_mm_alloc_pages pages_count;
  add_size (pages_count * ZEND_MM_PAGE_SIZE);;
  mret ptr.

(** ** Small blocks *)

Fixpoint mark_nrun (n : nat) (map : list Z) (page_num bin_num i : Z) : res (list Z) :=
  match n with
  | O => Ok map
  | S n => map ← wr map (page_num + i) (ZEND_MM_NRUN bin_num i); mark_nrun n map page_num bin_num (i + 1)
  end.

(** [do { p->next_free_slot = ...; p = ...; } while (p != end)] *)
Fixpoint link_slots (fuel : nat) (p end_ size : Z) : MM Z :=
  match fuel with
  | O => ub
  | S fuel =>
      store64 p (p + size);;
      let p := p + size in
      if p =? end_ then mret p else link_slots fuel p end_ size
  end.

Definition zend_mm_alloc_small_slow (bin_num : Z) : MM Z :=
  pages ← lift (rd bin_pages bin_num);
  size ← lift (rd bin_data_size bin_num);
  elements ← lift (rd bin_elements bin_num);
  bin ← zend_mm_alloc_pages pages;
  if bin =? 0 then mret 0
  else
    let chunk := ZEND_MM_ALIGNED_BASE bin ZEND_MM_CHUNK_SIZE in
    let page_num := ZEND_MM_ALIGNED_OFFSET bin ZEND_MM_CHUNK_SIZE / ZEND_MM_PAGE_SIZE in
    c ← get_chunk chunk;
    map ← lift (wr (ch_map c) page_num (ZEND_MM_SRUN bin_num));
    map ← lift (mark_nrun (Z.to_nat (pages - 1)) map page_num bin_num 1);
    put_chunk chunk (set_map map c);;
    let end_ := bin + size * (elements - 1) in
    set_slot_link bin_num None (bin + size);;
    p ← link_slots 513 (bin + size) end_ size;
    store64 p 0;;
    mret bin.

Definition zend_mm_alloc_small (bin_num : Z) : MM Z :=
  size ← lift (rd bin_data_size bin_num);
  add_size size;;
  h ← get_heap;
  p ← lift (rd (mm_free_slot h) bin_num);
  if negb (p =? 0) then
    next ← load64 p;
    set_slot_link bin_num None next;;
    mret p
  else zend_mm_alloc_small_slow bin_num.

Definition zend_mm_free_small (ptr bin_num : Z) : MM unit :=
  size ← lift (rd bin_data_size bin_num);
  sub_size size;;
  h ← get_heap;
  head ← lift (rd (mm_free_slot h) bin_num);
  store64 ptr head;;
  set_slot_link bin_num None ptr.
End Alloc.

(** ** Huge blocks and the entry points *)

(** [n] bytes from [s] on are copied to [d]; bytes that were never written stay so. *)
Fixpoint copy_bytes (n : nat) (m0 m : gmap Z Z) (d s : Z) : gmap Z Z :=
  match n with
  | O => m
  | S n => copy_bytes n m0 (partial_alter (fun _ => m0 !! s) d m) (d + 1) (s + 1)
  end.

Section Huge.
Context {OS : Os}.

Definition copy_mem (dest src n : Z) : MM unit := fun s =>
  MOk tt (mkState (st_heap s) (st_chunks s) (copy_bytes (Z.to_nat n) (st_mem s) (st_mem s) dest src) (st_os s)).
(** Undefined if the two overlap. *)
Definition memcpy_ (dest src n : Z) : MM unit :=
  guard_ ((n =? 0) || (dest + n <=? src) || (src + n <=? dest));; copy_mem dest src n.

(** ** The list of huge blocks: [ptr], [size] and [next] *)

Definition SIZEOF_HUGE_LIST : Z := 24.
Definition huge_ptr (node : Z) : MM Z := load64 node.
Definition huge_size (node : Z) : MM Z := load64 (node + 8).
Definition huge_next (node : Z) : MM Z := load64 (node + 16).

(** [zend_mm_alloc_heap] is the parameter: the node is itself a block. *)
Definition zend_mm_add_huge_block (alloc_heap : Z -> MM Z) (ptr size : Z) : MM unit :=
  list ← alloc_heap SIZEOF_HUGE_LIST;
  store64 list ptr;;
  store64 (list + 8) size;;
  h ← get_heap;
  store64 (list + 16) (mm_huge_list h);;
  upd_heap (set_huge list).

(** [None] stands for the loop that ends without the block. *)
Fixpoint find_huge (fuel : nat) (ptr prev list : Z) : MM (option (Z * Z)) :=
  match fuel with
  | O => ub
  | S fuel =>
      if list =? 0 then mret None
      else
        p ← huge_ptr list;
        if p =? ptr then mret (Some (prev, list))
        else next ← huge_next list; find_huge fuel ptr list next
  end.

Definition zend_mm_del_huge_block (free_heap : Z -> MM unit) (ptr : Z) : MM Z :=
  h ← get_heap;
  fuel ← slot_fuel;
  r ← find_huge fuel ptr 0 (mm_huge_list h);
  match r with
  | Some (prev, list) =>
      next ← huge_next list;
      (if negb (prev =? 0) then store64 (prev + 16) next else upd_heap (set_huge next));;
      size ← huge_size list;
      free_heap list;;
      mret size
  | None => ub
  end.

Definition zend_mm_get_huge_block_size (ptr : Z) : MM Z :=
  h ← get_heap;
  fuel ← slot_fuel;
  r ← find_huge fuel ptr 0 (mm_huge_list h);
  match r with
  | Some (_, list) => huge_size list
  | None => ub
  end.

Definition zend_mm_change_huge_block_size (ptr size : Z) : MM unit :=
  h ← get_heap;
  fuel ← slot_fuel;
  r ← find_huge fuel ptr 0 (mm_huge_list h);
  match r with
  | Some (_, list) => store64 (list + 8) size
  | None => mret tt
  end.

(** The memory limit for [n] more bytes. *)
Definition check_limit (n size : Z) : MM unit :=
  h ← get_heap;
  if u64 (mm_limit h - mm_real_size h) <? n then
    collected ← zend_mm_gc;
    h ← get_heap;
    if negb (collected =? 0) && (n <=? u64 (mm_limit h - mm_real_size h)) then mret tt
    else if mm_overflow h =? 0 then zend_mm_safe_error (MemoryLimit (mm_limit h) size)
    else mret tt
  else mret tt.

Definition zend_mm_alloc_huge (alloc_heap : Z -> MM Z) (size : Z) : MM Z :=
  let alignment := REAL_PAGE_SIZE in
  let new_size := ZEND_MM_ALIGNED_SIZE_EX size alignment in
  (if new_size <? size then raise (SizeOverflow size alignment) else mret tt);;
  check_limit new_size size;;
  ptr ← zend_mm_chunk_alloc new_size ZEND_MM_CHUNK_SIZE;
  let out_of_memory := h ← get_heap; zend_mm_safe_error (OutOfMemory (mm_real_size h) size) in
  ptr ←
    (if ptr =? 0 then
       collected ← zend_mm_gc;
       if collected =? 0 then out_of_memory
       else
         ptr ← zend_mm_chunk_alloc new_size ZEND_MM_CHUNK_SIZE;
         if ptr =? 0 then out_of_memory else mret ptr
     else mret ptr);
  zend_mm_add_huge_block alloc_heap ptr new_size;;
  add_real_size new_size;;
  add_size new_size;;
  mret ptr.

Definition zend_mm_free_huge (free_heap : Z -> MM unit) (ptr : Z) : MM unit :=
  guard_ (ZEND_MM_ALIGNED_OFFSET ptr ZEND_MM_CHUNK_SIZE =? 0);;
  size ← zend_mm_del_huge_block free_heap ptr;
  zend_mm_chunk_free ptr size;;
  sub_real_size size;;
  sub_size size.

(** ** Blocks of any size

    A huge block allocates its node, which is small: the recursion is one deep. *)

Fixpoint alloc_heap_fuel (fuel : nat) (size : Z) : MM Z :=
  match fuel with
  | O => ub
  | S fuel =>
      if size <=? ZEND_MM_MAX_SMALL_SIZE then
        bin_num ← lift (zend_mm_small_size_to_bin size);
        zend_mm_alloc_small bin_num
      else if size <=? ZEND_MM_MAX_LARGE_SIZE then zend_mm_alloc_large size
      else zend_mm_alloc_huge (alloc_heap_fuel fuel) size
  end.
Definition zend_mm_alloc_heap : Z -> MM Z := alloc_heap_fuel 2.

(** The header of the chunk of [ptr], the page and what the map says there. *)
Definition page_of (ptr : Z) : MM (Z * Z * Z) :=
  let chunk := ZEND_MM_ALIGNED_BASE ptr ZEND_MM_CHUNK_SIZE in
  let page_num := ZEND_MM_ALIGNED_OFFSET ptr ZEND_MM_CHUNK_SIZE / ZEND_MM_PAGE_SIZE in
  c ← get_chunk chunk;
  info ← lift (rd (ch_map c) page_num);
  h ← get_heap;
  guard_ (ch_heap c =? heap_addr h);;
  mret (chunk, page_num, info).

Fixpoint free_heap_fuel (fuel : nat) (ptr : Z) : MM unit :=
  match fuel with
  | O => ub
  | S fuel =>
      let page_offset := ZEND_MM_ALIGNED_OFFSET ptr ZEND_MM_CHUNK_SIZE in
      if page_offset =? 0 then
        if negb (ptr =? 0) then zend_mm_free_huge (free_heap_fuel fuel) ptr else mret tt
      else
        '(chunk, page_num, info) ← page_of ptr;
        if is_srun info then zend_mm_free_small ptr (ZEND_MM_SRUN_BIN_NUM info)
        else
          let pages_count := ZEND_MM_LRUN_PAGES info in
          guard_ (ZEND_MM_ALIGNED_OFFSET page_offset ZEND_MM_PAGE_SIZE =? 0);;
          zend_mm_free_large chunk page_num pages_count
  end.
Definition zend_mm_free_heap : Z -> MM unit := free_heap_fuel 2.

Definition zend_mm_size (ptr : Z) : MM Z :=
  if ZEND_MM_ALIGNED_OFFSET ptr ZEND_MM_CHUNK_SIZE =? 0 then zend_mm_get_huge_block_size ptr
  else
    '(_, _, info) ← page_of ptr;
    if is_srun info then lift (rd bin_data_size (ZEND_MM_SRUN_BIN_NUM info))
    else mret (ZEND_MM_LRUN_PAGES info * ZEND_MM_PAGE_SIZE).

(** [heap->peak = MAX(orig_peak, heap->size)] *)
Definition restore_peak (orig_peak : Z) : MM unit :=
  upd_heap (fun h => set_sizes (mm_size h) (Z.max orig_peak (mm_size h)) h).

Definition zend_mm_realloc_slow (ptr size copy_size : Z) : MM Z :=
  h ← get_heap;
  let orig_peak := mm_peak h in
  ret ← zend_mm_alloc_heap size;
  memcpy_ ret ptr copy_size;;
  zend_mm_free_heap ptr;;
  restore_peak orig_peak;;
  mret ret.

Definition zend_mm_realloc_huge (ptr size copy_size : Z) : MM Z :=
  old_size ← zend_mm_get_huge_block_size ptr;
  let slow := zend_mm_realloc_slow ptr size (Z.min old_size copy_size) in
  if ZEND_MM_MAX_LARGE_SIZE <? size then
    let new_size := ZEND_MM_ALIGNED_SIZE_EX size REAL_PAGE_SIZE in
    if new_size =? old_size then zend_mm_change_huge_block_size ptr new_size;; mret ptr
    else if new_size <? old_size then
      ok ← zend_mm_chunk_truncate ptr old_size new_size;
      if (ok : bool) then
        sub_real_size (old_size - new_size);;
        sub_size (old_size - new_size);;
        zend_mm_change_huge_block_size ptr new_size;;
        mret ptr
      else slow
    else
      check_limit (new_size - old_size) size;;
      ok ← zend_mm_chunk_extend ptr old_size new_size;
      if (ok : bool) then
        add_real_size (new_size - old_size);;
        add_size (new_size - old_size);;
        zend_mm_change_huge_block_size ptr new_size;;
        mret ptr
      else slow
  else slow.

(** A small block that moves to another bin. *)
Definition move_small (ptr old_bin_num size copy_size : Z) : MM Z :=
  bin_num ← lift (zend_mm_small_size_to_bin size);
  ret ← zend_mm_alloc_small bin_num;
  memcpy_ ret ptr copy_size;;
  zend_mm_free_small ptr old_bin_num;;
  mret ret.

(** A large block: pages are freed or taken behind it. *)
Definition realloc_large (chunk page_num ptr old_pages_count size : Z) (slow : Z -> MM Z) : MM Z :=
  let old_size := old_pages_count * ZEND_MM_PAGE_SIZE in
  if (ZEND_MM_MAX_SMALL_SIZE <? size) && (size <=? ZEND_MM_MAX_LARGE_SIZE) then
    let new_size := ZEND_MM_ALIGNED_SIZE_EX size ZEND_MM_PAGE_SIZE in
    let new_pages_count := new_size / ZEND_MM_PAGE_SIZE in
    if new_size =? old_size then mret ptr
    else if new_size <? old_size then
      let rest_pages_count := (old_size - new_size) / ZEND_MM_PAGE_SIZE in
      sub_size (rest_pages_count * ZEND_MM_PAGE_SIZE);;
      c ← get_chunk chunk;
      map ← lift (wr (ch_map c) page_num (ZEND_MM_LRUN new_pages_count));
      free_map ← lift (zend_mm_bitset_reset_range (ch_free_map c) (page_num + new_pages_count) rest_pages_count);
      put_chunk chunk (set_pages (u32 (ch_free_pages c + rest_pages_count)) (ch_free_tail c) free_map map c);;
      mret ptr
    else
      let old_pages_count := old_size / ZEND_MM_PAGE_SIZE in
      let more := new_pages_count - old_pages_count in
      c ← get_chunk chunk;
      free ← (if page_num + new_pages_count <=? ZEND_MM_PAGES
              then lift (zend_mm_bitset_is_free_range (ch_free_map c) (page_num + old_pages_count) more)
              else mret false);
      if (free : bool) then
        add_size (new_size - old_size);;
        free_map ← lift (zend_mm_bitset_set_range (ch_free_map c) (page_num + old_pages_count) more);
        map ← lift (wr (ch_map c) page_num (ZEND_MM_LRUN new_pages_count));
        put_chunk chunk (set_pages (u32 (ch_free_pages c - more)) (ch_free_tail c) free_map map c);;
        mret ptr
      else slow old_size
  else slow old_size.

Definition zend_mm_realloc_heap (ptr size : Z) (use_copy_size : bool) (copy_size : Z) : MM Z :=
  let page_offset := ZEND_MM_ALIGNED_OFFSET ptr ZEND_MM_CHUNK_SIZE in
  if page_offset =? 0 then
    if ptr =? 0 then zend_mm_alloc_heap size else zend_mm_realloc_huge ptr size copy_size
  else
    '(chunk, page_num, info) ← page_of ptr;
    let slow old_size := zend_mm_realloc_slow ptr size (Z.min old_size copy_size) in
    if is_srun info then
      let old_bin_num := ZEND_MM_SRUN_BIN_NUM info in
      old_size ← lift (rd bin_data_size old_bin_num);
      if size <=? old_size then
        smaller ← (if 0 <? old_bin_num then below ← lift (rd bin_data_size (old_bin_num - 1)); mret (size <? below)
                   else mret false);
        if (smaller : bool) then move_small ptr old_bin_num size (if use_copy_size then Z.min size copy_size else size)
        else mret ptr
      else if size <=? ZEND_MM_MAX_SMALL_SIZE then
        h ← get_heap;
        let orig_peak := mm_peak h in
        ret ← move_small ptr old_bin_num size (if use_copy_size then Z.min old_size copy_size else old_size);
        restore_peak orig_peak;;
        mret ret
      else slow old_size
    else
      guard_ (ZEND_MM_ALIGNED_OFFSET page_offset ZEND_MM_PAGE_SIZE =? 0);;
      realloc_large chunk page_num ptr (ZEND_MM_LRUN_PAGES info) size slow.

Definition _zend_mm_alloc (size : Z) : MM Z := zend_mm_alloc_heap size.
Definition _zend_mm_free (ptr : Z) : MM unit := zend_mm_free_heap ptr.
Definition _zend_mm_realloc (ptr size : Z) : MM Z := zend_mm_realloc_heap ptr size false size.
Definition _zend_mm_realloc2 (ptr size copy_size : Z) : MM Z := zend_mm_realloc_heap ptr size true copy_size.
Definition _zend_mm_block_size (ptr : Z) : MM Z := zend_mm_size ptr.

(** ** Start and shutdown *)

Definition double_div : spec_float -> spec_float -> spec_float := SFdiv 53 1024.
Definition DOUBLE_0_9 : spec_float := double_of_bits 0x3feccccccccccccd.

Definition initial_heap (chunk : Z) : zend_mm_heap :=
  mkHeap 0 0 (replicate 30 0) ZEND_MM_CHUNK_SIZE ZEND_MM_CHUNK_SIZE (2 ^ 63 - 1) 0 0 chunk 0 1 1 0
    (double_of_long 1) 0 0.

Definition start_heap (h : zend_mm_heap) : MM unit := fun s =>
  MOk tt (mkState (Some h) (st_chunks s) (st_mem s) (st_os s)).

(** 0 if there is no memory. *)
Definition zend_mm_init : MM Z :=
  chunk ← zend_mm_chunk_alloc_int ZEND_MM_CHUNK_SIZE ZEND_MM_CHUNK_SIZE;
  if chunk =? 0 then mret 0
  else
    map_header chunk;;
    upd_chunk chunk (fun c => set_links chunk chunk (set_heap (heap_slot chunk) c));;
    c ← get_chunk chunk;
    c ← lift (chunk_init_pages c);
    put_chunk chunk (set_num 0 c);;
    start_heap (initial_heap chunk);;
    mret (heap_slot chunk).

Fixpoint free_huge_list (fuel : nat) (list : Z) : MM unit :=
  match fuel with
  | O => ub
  | S fuel =>
      if list =? 0 then mret tt
      else
        next ← huge_next list;
        ptr ← huge_ptr list;
        size ← huge_size list;
        zend_mm_chunk_free ptr size;;
        free_huge_list fuel next
  end.

Fixpoint cache_chunks (fuel : nat) (p : Z) : MM unit :=
  match fuel with
  | O => ub
  | S fuel =>
      h ← get_heap;
      if p =? mm_main_chunk h then mret tt
      else
        c ← get_chunk p;
        put_chunk p (set_links (mm_cached_chunks h) (ch_prev c) c);;
        upd_heap (fun h => set_counts (mm_chunks_count h - 1) (mm_peak_chunks_count h)
                             (set_cached p (mm_cached_chunks_count h + 1) h));;
        cache_chunks fuel (ch_next c)
  end.

Fixpoint free_cached (fuel : nat) : MM unit :=
  match fuel with
  | O => ub
  | S fuel =>
      h ← get_heap;
      if mm_cached_chunks h =? 0 then mret tt
      else
        c ← get_chunk (mm_cached_chunks h);
        upd_heap (set_cached (ch_next c) (mm_cached_chunks_count h));;
        zend_mm_chunk_free (mm_cached_chunks h) ZEND_MM_CHUNK_SIZE;;
        free_cached fuel
  end.

(** [(double)heap->cached_chunks_count + 0.9 > heap->avg_chunks_count && heap->cached_chunks] *)
Definition too_many_cached (h : zend_mm_heap) : bool :=
  double_lt (mm_avg_chunks_count h) (double_add (double_of_long (mm_cached_chunks_count h)) DOUBLE_0_9)
  && negb (mm_cached_chunks h =? 0).

Fixpoint trim_cached (fuel : nat) : MM unit :=
  match fuel with
  | O => ub
  | S fuel =>
      h ← get_heap;
      if too_many_cached h then
        c ← get_chunk (mm_cached_chunks h);
        upd_heap (set_cached (ch_next c) (mm_cached_chunks_count h));;
        zend_mm_chunk_free (mm_cached_chunks h) ZEND_MM_CHUNK_SIZE;;
        upd_heap (fun h => set_cached (mm_cached_chunks h) (mm_cached_chunks_count h - 1) h);;
        trim_cached fuel
      else mret tt
  end.

Fixpoint clear_cached (fuel : nat) (p : Z) : MM unit :=
  match fuel with
  | O => ub
  | S fuel =>
      if p =? 0 then mret tt
      else
        c ← get_chunk p;
        put_chunk p (set_links (ch_next c) 0 zero_chunk);;
        clear_cached fuel (ch_next c)
  end.

(** [silent] only concerns the detection of leaks of debug builds. *)
Definition zend_mm_shutdown (full : bool) : MM unit :=
  h ← get_heap;
  upd_heap (set_huge 0);;
  fuel ← slot_fuel;
  free_huge_list fuel (mm_huge_list h);;
  main ← get_chunk (mm_main_chunk h);
  fuel ← chunk_fuel;
  cache_chunks fuel (ch_next main);;
  if full then
    free_cached fuel;;
    zend_mm_chunk_free (mm_main_chunk h) ZEND_MM_CHUNK_SIZE
  else
    upd_heap (fun h => set_avg (double_div (double_add (mm_avg_chunks_count h) (double_of_long (mm_peak_chunks_count h)))
                                  (double_of_long 2)) h);;
    trim_cached fuel;;
    h ← get_heap;
    clear_cached fuel (mm_cached_chunks h);;
    let main := mm_main_chunk h in
    upd_chunk main (fun c => set_links main main (set_heap (heap_slot main) c));;
    c ← get_chunk main;
    c ← lift (chunk_init_pages (set_pages 0 0 (replicate 8 0) (replicate 512 0) c));
    put_chunk main (set_num 0 c);;
    let real := u64 ((mm_cached_chunks_count h + 1) * ZEND_MM_CHUNK_SIZE) in
    upd_heap (fun h => set_sizes 0 0 (set_slots (replicate 30 0) (set_real real real
                         (set_counts 1 1 (set_deletes 0 0 h))))).

(** ** Limit and statistics *)

Fixpoint free_to_limit (fuel : nat) (memory_limit : Z) : MM unit :=
  match fuel with
  | O => ub
  | S fuel =>
      h ← get_heap;
      c ← get_chunk (mm_cached_chunks h);
      upd_heap (set_cached (ch_next c) (mm_cached_chunks_count h));;
      zend_mm_chunk_free (mm_cached_chunks h) ZEND_MM_CHUNK_SIZE;;
      upd_heap (fun h => set_cached (mm_cached_chunks h) (mm_cached_chunks_count h - 1) h);;
      sub_real_size ZEND_MM_CHUNK_SIZE;;
      h ← get_heap;
      if memory_limit <? mm_real_size h then free_to_limit fuel memory_limit else mret tt
  end.

(** [true]: SUCCESS. *)
Definition zend_set_memory_limit (memory_limit : Z) : MM bool :=
  h ← get_heap;
  if memory_limit <? mm_real_size h then
    if u64 (mm_real_size h - mm_cached_chunks_count h * ZEND_MM_CHUNK_SIZE) <=? memory_limit then
      fuel ← chunk_fuel;
      free_to_limit fuel memory_limit;;
      mret true
    else mret false
  else upd_heap (fun h => set_limit memory_limit (mm_overflow h) h);; mret true.

Definition zend_alloc_in_memory_limit_error_reporting : MM bool := h ← get_heap; mret (negb (mm_overflow h =? 0)).
Definition zend_memory_usage (real_usage : bool) : MM Z :=
  h ← get_heap; mret (if real_usage then mm_real_size h else mm_size h).
Definition zend_memory_peak_usage (real_usage : bool) : MM Z :=
  h ← get_heap; mret (if real_usage then mm_real_peak h else mm_peak h).
Definition zend_memory_reset_peak_usage : MM unit :=
  upd_heap (fun h => set_real (mm_real_size h) (mm_real_size h) h);;
  upd_heap (fun h => set_sizes (mm_size h) (mm_size h) h).

Fixpoint ptr_in_ring (fuel : nat) (ptr chunk : Z) : MM bool :=
  match fuel with
  | O => ub
  | S fuel =>
      if in_span chunk ZEND_MM_CHUNK_SIZE ptr then mret true
      else
        c ← get_chunk chunk;
        h ← get_heap;
        if ch_next c =? mm_main_chunk h then mret false else ptr_in_ring fuel ptr (ch_next c)
  end.
Fixpoint ptr_in_huge (fuel : nat) (ptr block : Z) : MM bool :=
  match fuel with
  | O => ub
  | S fuel =>
      if block =? 0 then mret false
      else
        p ← huge_ptr block;
        size ← huge_size block;
        if in_span p size ptr then mret true
        else next ← huge_next block; ptr_in_huge fuel ptr next
  end.
Definition is_zend_ptr (ptr : Z) : MM bool :=
  h ← get_heap;
  fuel ← chunk_fuel;
  r ← (if negb (mm_main_chunk h =? 0) then ptr_in_ring fuel ptr (mm_main_chunk h) else mret false);
  if (r : bool) then mret true
  else fuel ← slot_fuel; ptr_in_huge fuel ptr (mm_huge_list h).
End Huge.

(** ** An operating system that hands out memory upwards *)

Definition bump_base (next : Z) : Z := Z.max 4 ((next + ZEND_MM_CHUNK_SIZE - 1) / ZEND_MM_CHUNK_SIZE) * ZEND_MM_CHUNK_SIZE.
Definition bump_os : Os := {|
  os := Z;
  os_mmap next size :=
    if bump_base next + size <=? 2 ^ 47 then (bump_base next + size, bump_base next) else (next, 0);
  os_munmap next _ _ := next;
  os_mremap next _ _ _ := (next, false);
|}.

Definition bump_start : mstate (OS := bump_os) := @mkState bump_os None ∅ ∅ (2 ^ 40).
