(* ===== verification/MmChunk.v ===== *)
(** * Runs of pages, and the best-fit search

    What the bitmap and the info words of a chunk represent: a list of runs. The search
    over the words of the bitmap finds a free run of the least sufficient length,
    although it stops where the tail of the chunk begins and that position is only an
    estimate. *)

From stdpp Require Import functions.
From S2P Require Import Prelude.
From S2P Require Import MmPageOps.
From S2P Require Import MmHeapOps.
From S2P Require Import MmAllocOps.

(** ** Holes *)

Section Search.
Context (bs : list Z) (Hlen : zlen bs = 8) (Hok : bitset_ok bs).
Local Notation b := (bit_at bs).

(** A maximal run of free pages. *)
Definition hole (a e : Z) : Prop :=
  1 <= a < e /\ e <= 512 /\ (forall k, a <= k < e -> b k = false) /\ b (a - 1) = true /\ (e < 512 -> b e = true).

(** The pages from [free_tail] on are free, except that one run may reach over it. *)
Definition tail_ok (free_tail : Z) : Prop :=
  1 <= free_tail <= 512 /\
  forall k, free_tail <= k < 512 -> b k = true -> forall j, free_tail - 1 <= j <= k -> b j = true.

(** The positions of the word [tmp] below [cur] are overwritten with [v]. *)
Definition view (v : bool) (tmp i n cur : Z) : Prop :=
  word_ok tmp /\ i = 64 * (n - 1) /\ 1 <= n <= 8 /\ i <= cur <= i + 64 /\
  forall j, 0 <= j < 64 -> Z.testbit tmp j = if i + j <? cur then v else b (i + j).

Lemma view_next v tmp i n : i = 64 * (n - 1) -> 1 <= n -> n < 8 -> zget bs n = Some tmp -> view v tmp (i + 64) (n + 1) (i + 64).
Proof.
  intros Hi Hn1 Hn Hz. split; [by apply (zget_word_ok bs n)|]. split; [lia|]. split; [lia|]. split; [lia|].
  intros j Hj. rewrite (proj2 (Z.ltb_ge _ _)) by lia. rewrite (bit_at_word bs n tmp) by (done || dlia).
  f_equal. dlia.
Qed.

Lemma skip_allocated_ok fuel tmp i n cur : view true tmp i n cur -> 8 - n < Z.of_nat fuel ->
  exists r, skip_allocated fuel bs tmp i n = Ok r /\
  match r with
  | None => forall k, cur <= k < 512 -> b k = true
  | Some (tmp', i', n') => exists cur', view true tmp' i' n' cur' /\ tmp' <> ALL_ONES /\ cur <= cur' /\
                           (forall k, cur <= k < cur' -> b k = true)
  end.
Proof.
  revert tmp i n cur. induction fuel as [|fuel IH]; intros tmp i n cur Hv Hf; destruct Hv as (Hw & Hi & Hn & Hc & Hb); [lia|].
  cbn [skip_allocated]. destruct (Z.eqb_spec tmp ALL_ONES) as [->|Hne].
  2:{ exists (Some (tmp, i, n)). split; [done|]. exists cur. split; [done|]. split; [done|]. split; [lia|]. lia. }
  assert (Hall : forall k, cur <= k < i + 64 -> b k = true).
  { intros k Hk. specialize (Hb (k - i) ltac:(lia)). rewrite all_ones_bit in Hb by lia.
    rewrite (proj2 (Z.ltb_lt _ _)), (proj2 (Z.ltb_ge _ _)) in Hb by lia. by replace (i + (k - i)) with k in Hb by lia. }
  unfold ZEND_MM_BITSET_LEN, ZEND_MM_PAGES. destruct (Z.eqb_spec (i + 64) 512) as [E|E].
  { exists None. split; [done|]. intros k Hk. apply Hall. lia. }
  destruct (zget_is_Some bs n) as [w Hwd]; [lia|]. rewrite (rd_ok _ _ _ Hwd). cbn [mbind res_bind].
  destruct (IH w (i + 64) (n + 1) (i + 64)) as (r & -> & Hr); [apply view_next; done || lia|lia|].
  exists r. split; [done|]. destruct r as [[[tmp' i'] n']|].
  - destruct Hr as (cur' & Hv & Hne & Hc' & Hk). exists cur'. split; [done|]. split; [done|]. split; [lia|].
    intros k Hk'. destruct (Z_lt_le_dec k (i + 64)); [apply Hall; lia|apply Hk; lia].
  - intros k Hk'. destruct (Z_lt_le_dec k (i + 64)); [apply Hall; lia|apply Hr; lia].
Qed.

(** Trailing ones are skipped and cleared. *)
Lemma first_zero tmp i n cur : view true tmp i n cur -> tmp <> ALL_ONES ->
  exists z, zend_mm_bitset_nts tmp = Ok z /\ 0 <= z < 64 /\ cur <= i + z /\ b (i + z) = false /\
    (forall k, cur <= k < i + z -> b k = true) /\ view false (Z.land tmp (u64 (tmp + 1))) i n (i + z).
Proof.
  intros (Hw & Hi & Hn & Hc & Hb) Hne.
  destruct (builtin_ctzl_ok (not64 tmp)) as (z & Hz & Hzr & Hz1 & Hz0); [apply u64_range| |].
  { intros E. apply Hne. apply Z.bits_inj'. intros j Hj. rewrite all_ones_bit by lia.
    assert (Ej : Z.testbit (not64 tmp) j = false) by (by rewrite E, Z.bits_0). rewrite not64_bit in Ej by lia.
    destruct (Z.ltb_spec j 64); [by destruct (Z.testbit tmp j)|by apply word_high]. }
  rewrite not64_bit in Hz1 by lia. rewrite (proj2 (Z.ltb_lt z 64)) in Hz1 by lia.
  apply negb_true_iff in Hz1. assert (Hz0' : forall j, 0 <= j < z -> Z.testbit tmp j = true).
  { intros j Hj. specialize (Hz0 j Hj). rewrite not64_bit in Hz0 by lia. rewrite (proj2 (Z.ltb_lt j 64)) in Hz0 by lia.
    by apply negb_false_iff in Hz0. }
  assert (Hcz : cur <= i + z /\ b (i + z) = false).
  { pose proof (Hb z ltac:(lia)) as Hbz. rewrite Hz1 in Hbz. destruct (Z.ltb_spec (i + z) cur); [done|]. split; [lia|done]. }
  exists z. split; [done|]. split; [lia|]. split; [lia|]. split; [tauto|]. split.
  { intros k Hk. pose proof (Hb (k - i) ltac:(lia)) as Hbk. rewrite Hz0' in Hbk by lia.
    rewrite (proj2 (Z.ltb_ge _ _)) in Hbk by lia. by replace (i + (k - i)) with k in Hbk by lia. }
  split; [apply word_ok_land; [done|apply u64_range]|]. split; [done|]. split; [done|]. split; [lia|].
  intros j Hj. rewrite Z.land_spec, u64_bit by lia. rewrite (proj2 (Z.ltb_lt j 64)) by lia. cbn [andb].
  (* tmp = 2^z * q + (2^z - 1) with q even, so tmp + 1 = 2^z * (q + 1) *)
  assert (Hq : tmp = 2 ^ z * (tmp / 2 ^ z) + (2 ^ z - 1)).
  { rewrite (Z.div_mod tmp (2 ^ z)) at 1 by (apply Z.pow_nonzero; lia). f_equal.
    rewrite <- Z.land_ones by lia. replace (2 ^ z - 1) with (Z.ones z) by (rewrite Z.ones_equiv; lia).
    apply Z.bits_inj'. intros k Hk. rewrite Z.land_spec, Z.testbit_ones by lia. rewrite (proj2 (Z.leb_le 0 k)) by lia.
    destruct (Z.ltb_spec k z); cbn; [rewrite Hz0' by lia; done|by rewrite andb_false_r]. }
  set (q := tmp / 2 ^ z) in *. assert (Hqe : Z.testbit q 0 = false).
  { unfold q. rewrite Z.div_pow2_bits by lia. by rewrite Z.add_0_l. }
  assert (Hs : tmp + 1 = (q + 1) * 2 ^ z) by lia. rewrite Hs.
  destruct (Z.ltb_spec (i + j) (i + z)) as [Hlt|Hge].
  - rewrite Z.mul_pow2_bits_low by lia. by rewrite andb_false_r.
  - rewrite Z.mul_pow2_bits by lia.
    replace (Z.testbit tmp j) with (Z.testbit q (j - z)) by (unfold q; rewrite Z.div_pow2_bits by lia; f_equal; lia).
    assert (Hq1 : Z.testbit (q + 1) (j - z) = if j =? z then true else Z.testbit q (j - z)).
    { rewrite Z.bit0_odd in Hqe. assert (Hqq : q = 2 * (q / 2)).
      { pose proof (Zmod_odd q) as E. rewrite Hqe in E. rewrite (Z.div_mod q 2) at 1 by lia. lia. }
      destruct (Z.eqb_spec j z) as [->|]; [rewrite Z.sub_diag, Z.bit0_odd; rewrite Z.odd_add; by rewrite Hqe|].
      rewrite Hqq. replace (j - z) with (Z.succ (j - z - 1)) by lia.
      by rewrite Z.testbit_odd_succ, Z.testbit_even_succ by lia. }
    rewrite Hq1. pose proof (Hb j Hj) as Hbj. rewrite (proj2 (Z.ltb_ge (i + j) cur)) in Hbj by lia.
    assert (Hqj : Z.testbit q (j - z) = Z.testbit tmp j) by (unfold q; rewrite Z.div_pow2_bits by lia; f_equal; lia).
    rewrite Hqj, Hbj. destruct (Z.eqb_spec j z) as [->|]; [by rewrite andb_true_r|by rewrite andb_diag].
Qed.

Lemma skip_free_ok fuel F tmp i n cur : view false tmp i n cur -> 8 - n < Z.of_nat fuel ->
  exists r, skip_free fuel bs F tmp i n = Ok r /\
  match r with
  | None => exists e, cur <= e <= 512 /\ i + 64 <= e /\ (F <= e \/ e = 512) /\ (forall k, cur <= k < e -> b k = false)
  | Some (tmp', i', n') => exists cur', view false tmp' i' n' cur' /\ tmp' <> 0 /\ cur <= cur' /\
                           (forall k, cur <= k < cur' -> b k = false)
  end.
Proof.
  revert tmp i n cur. induction fuel as [|fuel IH]; intros tmp i n cur Hv Hf; destruct Hv as (Hw & Hi & Hn & Hc & Hb); [lia|].
  cbn [skip_free]. destruct (Z.eqb_spec tmp 0) as [->|Hne].
  2:{ exists (Some (tmp, i, n)). split; [done|]. exists cur. split; [done|]. split; [done|]. split; [lia|]. lia. }
  assert (Hall : forall k, cur <= k < i + 64 -> b k = false).
  { intros k Hk. specialize (Hb (k - i) ltac:(lia)). rewrite Z.bits_0 in Hb.
    rewrite (proj2 (Z.ltb_ge _ _)) in Hb by lia. by replace (i + (k - i)) with k in Hb by lia. }
  unfold ZEND_MM_BITSET_LEN, ZEND_MM_PAGES. destruct (Z.leb_spec F (i + 64)) as [EF|EF]; cbn [orb].
  { exists None. split; [done|]. exists (i + 64). split; [lia|]. split; [lia|]. split; [by left|done]. }
  destruct (Z.eqb_spec (i + 64) 512) as [E|E].
  { exists None. split; [done|]. exists (i + 64). split; [lia|]. split; [lia|]. split; [by right|done]. }
  destruct (zget_is_Some bs n) as [w Hwd]; [lia|]. rewrite (rd_ok _ _ _ Hwd). cbn [mbind res_bind].
  destruct (IH w (i + 64) (n + 1) (i + 64)) as (r & -> & Hr); [apply view_next; done || lia|lia|].
  exists r. split; [done|]. destruct r as [[[tmp' i'] n']|].
  - destruct Hr as (cur' & Hv & Hne & Hc' & Hk). exists cur'. split; [done|]. split; [done|]. split; [lia|].
    intros k Hk'. destruct (Z_lt_le_dec k (i + 64)); [apply Hall; lia|apply Hk; lia].
  - destruct Hr as (e & He & Hie & HF & Hk). exists e. split; [lia|]. split; [lia|]. split; [done|].
    intros k Hk'. destruct (Z_lt_le_dec k (i + 64)); [apply Hall; lia|apply Hk; lia].
Qed.

(** Up to the first one; then the ones-view of the same word. *)
Lemma first_one tmp i n cur : view false tmp i n cur -> tmp <> 0 ->
  exists z, zend_ulong_ntz tmp = Ok z /\ 0 <= z < 64 /\ cur <= i + z /\ b (i + z) = true /\
    (forall k, cur <= k < i + z -> b k = false) /\ view true (Z.lor tmp (tmp - 1)) i n (i + z).
Proof.
  intros (Hw & Hi & Hn & Hc & Hb) Hne.
  destruct (builtin_ctzl_ok tmp Hw Hne) as (z & Hz & Hzr & Hz1 & Hz0).
  assert (Hcz : cur <= i + z /\ b (i + z) = true).
  { pose proof (Hb z ltac:(lia)) as Hbz. rewrite Hz1 in Hbz. destruct (Z.ltb_spec (i + z) cur); [done|]. split; [lia|done]. }
  exists z. split; [done|]. split; [lia|]. split; [lia|]. split; [tauto|]. split.
  { intros k Hk. pose proof (Hb (k - i) ltac:(lia)) as Hbk. rewrite Hz0 in Hbk by lia.
    rewrite (proj2 (Z.ltb_ge _ _)) in Hbk by lia. by replace (i + (k - i)) with k in Hbk by lia. }
  assert (Hq : tmp = tmp / 2 ^ z * 2 ^ z).
  { apply Z.bits_inj'. intros k Hk. destruct (Z_lt_le_dec k z).
    - rewrite Hz0 by lia. by rewrite Z.mul_pow2_bits_low by lia.
    - rewrite Z.mul_pow2_bits, Z.div_pow2_bits by lia. f_equal. lia. }
  set (q := tmp / 2 ^ z) in *. assert (Hqo : Z.testbit q 0 = true) by (unfold q; rewrite Z.div_pow2_bits, Z.add_0_l by lia; done).
  assert (Hqq : q = 2 * (q / 2) + 1).
  { pose proof (Zmod_odd q) as E. rewrite <- Z.bit0_odd, Hqo in E. rewrite (Z.div_mod q 2) at 1 by lia. lia. }
  assert (Hbit : forall j, 0 <= j -> Z.testbit (tmp - 1) j = if j <? z then true else if j =? z then false else Z.testbit tmp j).
  { intros j Hj. assert (Hm : tmp - 1 = (q - 1) * 2 ^ z + Z.ones z) by (rewrite Z.ones_equiv; lia).
    assert (Ht1 : (tmp - 1) / 2 ^ z = q - 1 /\ (tmp - 1) mod 2 ^ z = Z.ones z).
    { pose proof (Z.pow_pos_nonneg 2 z ltac:(lia) ltac:(lia)). rewrite Hm. rewrite Z.add_comm, Z.div_add, Z.mod_add by lia.
      rewrite Z.ones_equiv. rewrite Z.div_small, Z.mod_small by lia. lia. }
    destruct Ht1 as [Hd Hmo]. destruct (Z.ltb_spec j z).
    - rewrite <- (Z.mod_pow2_bits_low _ z) by lia. rewrite Hmo. apply Z.ones_spec_low. lia.
    - replace j with (j - z + z) at 1 by lia. rewrite <- Z.div_pow2_bits by lia. rewrite Hd.
      replace (q - 1) with (2 * (q / 2)) by lia. destruct (Z.eqb_spec j z) as [->|].
      + rewrite Z.sub_diag. apply Z.testbit_even_0.
      + replace (j - z) with (Z.succ (j - z - 1)) by lia. rewrite Z.testbit_even_succ by lia.
        rewrite <- (Z.testbit_odd_succ (q / 2)) by lia. rewrite <- Hqq. unfold q. rewrite Z.div_pow2_bits by lia. f_equal. lia. }
  assert (Htp : 0 < tmp) by (destruct Hw; lia).
  split.
  { apply word_ok_bits; [apply Z.lor_nonneg; lia|]. intros j Hj. rewrite Z.lor_spec, Hbit by lia.
    rewrite (proj2 (Z.ltb_ge j z)), (proj2 (Z.eqb_neq j z)) by lia. by rewrite word_high. }
  split; [done|]. split; [done|]. split; [lia|]. intros j Hj. rewrite Z.lor_spec, Hbit by lia.
  destruct (Z.ltb_spec j z).
  - rewrite (proj2 (Z.ltb_lt _ _)) by lia. by rewrite orb_true_r.
  - rewrite (proj2 (Z.ltb_ge _ _)) by lia. pose proof (Hb j Hj) as Hbj. rewrite (proj2 (Z.ltb_ge (i + j) cur)) in Hbj by lia.
    rewrite Hbj. destruct (Z.eqb_spec j z) as [->|]; [|by rewrite orb_diag]. by rewrite <- Hbj, Hz1.
Qed.

(** ** The search *)

(** After allocated pages [cur..pn) and free pages [pn..e0), every hole that ends
    there is older or is this one. *)
Lemma hole_cases cur pn e0 a e : b cur = true -> cur <= pn < e0 -> e0 <= 512 -> (forall k, cur <= k < pn -> b k = true) ->
  (forall k, pn <= k < e0 -> b k = false) -> hole a e -> e <= e0 -> e <= cur \/ (a = pn /\ e = e0).
Proof.
  intros Hc Hpn H512 H1 H0 (Ha & He & Hz & Hp & Hn) Hle. destruct (Z_le_gt_dec e cur); [by left|right].
  assert (pn <= e - 1).
  { destruct (Z_lt_le_dec (e - 1) pn); [|done]. specialize (H1 (e - 1) ltac:(lia)). specialize (Hz (e - 1) ltac:(lia)). congruence. }
  assert (cur < pn) by (destruct (Z.eq_dec cur pn) as [->|]; [specialize (H0 pn ltac:(lia)); congruence|lia]).
  assert (pn <= a).
  { destruct (Z_lt_le_dec a pn); [|done]. specialize (H1 (pn - 1) ltac:(lia)). specialize (Hz (pn - 1) ltac:(lia)). congruence. }
  assert (a = pn). { destruct (Z.eq_dec a pn); [done|]. specialize (H0 (a - 1) ltac:(lia)). congruence. }
  split; [done|]. destruct (Z.eq_dec e e0); [done|]. specialize (H0 e ltac:(lia)). specialize (Hn ltac:(lia)). congruence.
Qed.

(** The best hole so far: of those that end by [cur]. *)
Definition best_inv (count cur best best_len : Z) : Prop :=
  (best = -1 /\ best_len = 512 /\ forall a e, hole a e -> e <= cur -> e - a < count)
  \/ (0 < best /\ hole best (best + best_len) /\ best + best_len <= cur /\ count <= best_len /\
      forall a e, hole a e -> e <= cur -> count <= e - a -> best_len <= e - a).

Lemma best_inv_len count cur best best_len : best_inv count cur best best_len -> best_len <= 512.
Proof. intros [(_ & -> & _)|(_ & (? & ? & _) & _)]; lia. Qed.

(** What the outcome of a search means. *)
Definition search_spec (count F : Z) (r : search_result) : Prop :=
  match r with
  | SFound p F' => exists e, hole p e /\ count <= e - p /\ (forall a e', hole a e' -> count <= e' - a -> e - p <= e' - a) /\
      ((F' = F /\ e < 512) \/ (F' = p + count /\ e = 512) \/ (e < 512 /\ hole F' 512 /\ p < F'))
  | SNotFound F' => (forall a e, hole a e -> e - a < count) /\ (F' = F \/ hole F' 512)
  end.

Lemma best_fit_loop_ok fuel count F best best_len tmp i n cur : 0 < count -> tail_ok F ->
  view true tmp i n cur -> cur < 512 -> b cur = true -> best_inv count cur best best_len ->
  512 - cur < Z.of_nat fuel ->
  exists r, best_fit_loop fuel bs count F best best_len tmp i n = Ok r /\ search_spec count F r.
Proof.
  intros Hcnt HF. revert best best_len tmp i n cur.
  induction fuel as [|fuel IH]; intros best best_len tmp i n cur Hv Hcur Hbc Hbest Hf; [lia|]. cbn [best_fit_loop].
  destruct (skip_allocated_ok search_fuel tmp i n cur Hv) as (r & -> & Hr); [destruct Hv as (_ & _ & ? & _); unfold search_fuel; lia|].
  cbn [mbind res_bind]. destruct r as [[[tmp1 i1] n1]|].
  2:{ (* everything from cur on is allocated *)
    assert (Hall : forall a e, hole a e -> e <= cur).
    { intros a e (? & ? & Hz & _). destruct (Z_le_gt_dec e cur); [done|]. specialize (Hr (e - 1) ltac:(lia)).
      specialize (Hz (e - 1) ltac:(lia)). congruence. }
    destruct Hbest as [(-> & -> & Hno)|(Hb0 & Hh & Hle & Hc & Hmin)]; eexists; split; try done.
    - split; [eauto|by left].
    - rewrite (proj2 (Z.ltb_lt 0 best)) by lia. exists (best + best_len). split; [done|]. split; [lia|].
      split; [intros a e' Hae Hce; specialize (Hmin a e' Hae (Hall _ _ Hae) Hce); lia|left; split; [done|lia]]. }
  destruct Hr as (cur1 & Hv1 & Hne1 & Hcur1 & Ha1).
  destruct (first_zero tmp1 i1 n1 cur1 Hv1 Hne1) as (z & -> & Hz & Hcz & Hbz & Ha2 & Hv2). cbn [mbind res_bind].
  set (pn := i1 + z) in *.
  assert (Hones : forall k, cur <= k < pn -> b k = true).
  { intros k Hk. destruct (Z_lt_le_dec k cur1); [apply Ha1; lia|apply Ha2; lia]. }
  assert (Hpn : cur < pn) by (destruct (Z.eq_dec cur pn) as [E|]; [rewrite E in Hbc; congruence|lia]).
  destruct (skip_free_ok search_fuel F _ i1 n1 pn Hv2) as (r & -> & Hr); [destruct Hv2 as (_ & _ & ? & _); unfold search_fuel; lia|].
  cbn [mbind res_bind].
  assert (Hbp : b (pn - 1) = true) by (apply Hones; lia).
  destruct r as [[[tmp2 i2] n2]|].
  - destruct Hr as (cur2 & Hv3 & Hne3 & Hcur2 & Ha3).
    destruct (first_one tmp2 i2 n2 cur2 Hv3 Hne3) as (z2 & -> & Hz2 & Hcz2 & Hbz2 & Ha4 & Hv4). cbn [mbind res_bind].
    set (e0 := i2 + z2) in *.
    assert (Hzeros : forall k, pn <= k < e0 -> b k = false).
    { intros k Hk. destruct (Z_lt_le_dec k cur2); [apply Ha3; lia|apply Ha4; lia]. }
    assert (Hpe : pn < e0) by (destruct (Z.eq_dec pn e0) as [E|]; [rewrite E in Hbz; congruence|lia]).
    assert (He0 : e0 < 512) by (destruct Hv3 as (_ & ? & ? & _); lia).
    assert (0 <= cur) by (destruct Hv as (_ & ? & ? & ? & _); lia).
    assert (Hhole : hole pn e0) by (split; [lia|]; split; [lia|]; split; [done|]; split; done).
    pose proof (hole_cases cur pn e0) as Hcases.
    assert (Hcs : forall a e, hole a e -> e <= e0 -> e <= cur \/ (a = pn /\ e = e0)) by (intros; apply Hcases; done || lia).
    destruct (Z.leb_spec count (e0 - pn)) as [Hle|Hgt]; cbn [andb].
    + destruct (Z.eqb_spec (e0 - pn) count) as [Heq|Hneq].
      { eexists. split; [done|]. exists e0. split; [done|]. split; [lia|]. split; [intros; lia|left; split; [done|lia]]. }
      destruct (Z.ltb_spec (e0 - pn) best_len) as [Hlt|Hge]; (apply (IH _ _ _ _ _ e0); [done|lia|done| |lia]).
      * right. split; [lia|]. replace (pn + (e0 - pn)) with e0 by lia. split; [done|]. split; [lia|]. split; [lia|].
        intros a e Hae Hle2 Hce. destruct (Hcs a e Hae Hle2) as [Hcur'|[-> ->]]; [|lia].
        destruct Hbest as [(_ & -> & Hno)|(_ & _ & _ & _ & Hmin)]; [specialize (Hno a e Hae Hcur'); lia|].
        specialize (Hmin a e Hae Hcur' Hce). lia.
      * destruct Hbest as [(-> & -> & Hno)|(Hb0 & Hh & Hle2 & Hc & Hmin)]; [lia|]. right. split; [done|]. split; [done|].
        split; [lia|]. split; [done|]. intros a e Hae Hle3 Hce. destruct (Hcs a e Hae Hle3) as [Hcur'|[-> ->]]; [by apply Hmin|lia].
    + apply (IH _ _ _ _ _ e0); [done|lia|done| |lia].
      destruct Hbest as [(-> & -> & Hno)|(Hb0 & Hh & Hle2 & Hc & Hmin)].
      * left. split; [done|]. split; [done|]. intros a e Hae Hle3. destruct (Hcs a e Hae Hle3) as [Hcur'|[-> ->]]; [by apply Hno|lia].
      * right. split; [done|]. split; [done|]. split; [lia|]. split; [done|].
        intros a e Hae Hle3 Hce. destruct (Hcs a e Hae Hle3) as [Hcur'|[-> ->]]; [by apply Hmin|lia].
  - destruct Hr as (e1 & He1 & Hie & HFe & Hz1).
    assert (Hpe1 : pn < e1) by (unfold pn; lia).
    assert (Hall0 : forall k, pn <= k < 512 -> b k = false).
    { intros k Hk. destruct (Z_lt_le_dec k e1); [apply Hz1; lia|]. destruct HFe as [HFe|]; [|lia].
      destruct (b k) eqn:Ebk; [|done]. destruct HF as [_ HF]. specialize (HF k ltac:(lia) Ebk (e1 - 1) ltac:(lia)).
      rewrite Hz1 in HF by lia. done. }
    assert (0 <= cur) by (destruct Hv as (_ & ? & ? & ? & _); lia).
    assert (Hhole : hole pn 512) by (split; [lia|]; split; [lia|]; split; [done|]; split; [done|lia]).
    assert (Hcs : forall a e, hole a e -> e <= cur \/ (a = pn /\ e = 512)).
    { intros a e Hae. apply (hole_cases cur pn 512 a e); try done; [lia|]. by destruct Hae as (_ & ? & _). }
    pose proof (best_inv_len _ _ _ _ Hbest) as Hbl. unfold ZEND_MM_PAGES.
    destruct (Z.leb_spec count (512 - pn)) as [Hle|Hgt], (Z.ltb_spec (512 - pn) best_len) as [Hlt|Hge]; cbn [andb].
    + eexists. split; [done|]. exists 512. split; [done|]. split; [lia|]. split; [|right; left; done].
      intros a e Hae Hce. destruct (Hcs a e Hae) as [Hcur'|[-> ->]]; [|lia].
      destruct Hbest as [(_ & -> & Hno)|(_ & _ & _ & _ & Hmin)]; [specialize (Hno a e Hae Hcur'); lia|].
      specialize (Hmin a e Hae Hcur' Hce). lia.
    + destruct Hbest as [(-> & -> & Hno)|(Hb0 & Hh & Hle2 & Hc & Hmin)]; [lia|].
      rewrite (proj2 (Z.ltb_lt 0 best)) by lia. eexists. split; [done|]. exists (best + best_len). split; [done|]. split; [lia|].
      split; [|right; right; split_and!; [lia|done|lia]].
      intros a e Hae Hce. destruct (Hcs a e Hae) as [Hcur'|[-> ->]]; [specialize (Hmin a e Hae Hcur' Hce); lia|lia].
    + destruct Hbest as [(-> & -> & Hno)|(Hb0 & Hh & Hle2 & Hc & Hmin)].
      * eexists. split; [done|]. split; [|by right]. intros a e Hae. destruct (Hcs a e Hae) as [Hcur'|[-> ->]]; [by apply Hno|lia].
      * rewrite (proj2 (Z.ltb_lt 0 best)) by lia. eexists. split; [done|]. exists (best + best_len). split; [done|]. split; [lia|].
        split; [|right; right; split_and!; [lia|done|lia]].
        intros a e Hae Hce. destruct (Hcs a e Hae) as [Hcur'|[-> ->]]; [specialize (Hmin a e Hae Hcur' Hce); lia|lia].
    + destruct Hbest as [(-> & -> & Hno)|(Hb0 & Hh & Hle2 & Hc & Hmin)]; [lia|].
      rewrite (proj2 (Z.ltb_lt 0 best)) by lia. eexists. split; [done|]. exists (best + best_len). split; [done|]. split; [lia|].
      split; [|right; right; split_and!; [lia|done|lia]].
      intros a e Hae Hce. destruct (Hcs a e Hae) as [Hcur'|[-> ->]]; [specialize (Hmin a e Hae Hcur' Hce); lia|lia].
Qed.
End Search.

(** ** Runs of pages in a chunk *)

Inductive kind : Type :=
| Large
| Small (bin : Z).

Record run : Type := Run {
  r_start : Z;
  r_count : Z;
  r_kind : kind;
}.

#[export] Instance kind_eq_dec : EqDecision kind.
Proof. solve_decision. Defined.
#[export] Instance run_eq_dec : EqDecision run.
Proof. solve_decision. Defined.

Definition pages (r : run) : list Z := seqZ (r_start r) (r_count r).
Definition pages_of (rs : list run) : list Z := rs ≫= pages.

(** What the map says about a run; [cnt] has the counters of the free slots. *)
Definition run_in_map (m : list Z) (cnt : Z -> Z) (r : run) : Prop :=
  match r_kind r with
  | Large => zget m (r_start r) = Some (ZEND_MM_LRUN (r_count r))
  | Small b => zget bin_pages b = Some (r_count r) /\ zget m (r_start r) = Some (ZEND_MM_SRUN_EX b (cnt (r_start r))) /\
      forall j, 0 < j < r_count r -> zget m (r_start r + j) = Some (ZEND_MM_NRUN b j)
  end.

Definition run_ok (m : list Z) (cnt : Z -> Z) (free_tail : Z) (r : run) : Prop :=
  1 <= r_start r < free_tail /\ 0 < r_count r /\ r_start r + r_count r <= 512 /\ run_in_map m cnt r.

Record chunk_ok (cnt : Z -> Z) (c : zend_mm_chunk) (rs : list run) : Prop := {
  ck_words : zlen (ch_free_map c) = 8;
  ck_bitset : bitset_ok (ch_free_map c);
  ck_len : zlen (ch_map c) = 512;
  ck_runs : forall r, r ∈ rs -> run_ok (ch_map c) cnt (ch_free_tail c) r;
  ck_nodup : NoDup (pages_of rs);
  ck_bits : forall k, 0 <= k < 512 -> bit_at (ch_free_map c) k = true <-> k = 0 \/ k ∈ pages_of rs;
  ck_free : ch_free_pages c = 511 - zlen (pages_of rs);
  ck_tail : 1 <= ch_free_tail c <= 512;
}.

(** ** Pages *)

Lemma elem_of_pages k r : k ∈ pages r <-> r_start r <= k < r_start r + r_count r.
Proof. unfold pages. rewrite elem_of_seqZ. lia. Qed.

Lemma elem_of_pages_of k rs : k ∈ pages_of rs <-> exists r, r ∈ rs /\ r_start r <= k < r_start r + r_count r.
Proof. unfold pages_of. rewrite list_elem_of_bind. setoid_rewrite elem_of_pages. naive_solver. Qed.

Lemma elem_of_pages_cons k r rs :
  k ∈ pages_of (r :: rs) <-> r_start r <= k < r_start r + r_count r \/ k ∈ pages_of rs.
Proof. unfold pages_of. cbn [mbind list_bind]. rewrite elem_of_app, elem_of_pages. done. Qed.

Lemma zlen_pages_cons r rs : 0 <= r_count r -> zlen (pages_of (r :: rs)) = r_count r + zlen (pages_of rs).
Proof.
  intros. unfold pages_of, pages, zlen. cbn [mbind list_bind]. rewrite length_app, length_seqZ. lia.
Qed.

Lemma nodup_pages_cons r rs :
  NoDup (pages_of (r :: rs)) <-> (forall k, r_start r <= k < r_start r + r_count r -> k ∉ pages_of rs) /\ NoDup (pages_of rs).
Proof.
  unfold pages_of. cbn [mbind list_bind]. rewrite NoDup_app. setoid_rewrite elem_of_pages.
  split; [naive_solver|]. intros [H1 H2]. split; [apply NoDup_seqZ|]. done.
Qed.

#[export] Instance pages_of_perm : Proper (Permutation ==> Permutation) pages_of.
Proof. intros rs rs' H. unfold pages_of. by rewrite H. Qed.

Lemma chunk_ok_perm cnt c rs rs' : rs ≡ₚ rs' -> chunk_ok cnt c rs -> chunk_ok cnt c rs'.
Proof.
  intros Hp []. split; try done.
  - intros r. rewrite <- Hp. auto.
  - by rewrite <- Hp.
  - intros k Hk. rewrite <- Hp. auto.
  - unfold zlen in *. by rewrite <- Hp.
Qed.

Lemma nodup_runs cnt c rs : chunk_ok cnt c rs -> NoDup rs.
Proof.
  intros [_ _ _ Hr Hn _ _ _]. revert Hr Hn. induction rs as [|r rs IH]; intros Hr Hn; [constructor|].
  apply nodup_pages_cons in Hn as [Hd Hn]. constructor; [|apply IH; [|done]; intros; apply Hr; by right].
  intros Hin. destruct (Hr r) as (H1 & H2 & _); [by left|]. apply (Hd (r_start r)); [lia|].
  apply elem_of_pages_of. exists r. split; [done|lia].
Qed.

(** Two runs that share a page are the same. *)
Lemma runs_disjoint cnt c rs r r' k : chunk_ok cnt c rs -> r ∈ rs -> r' ∈ rs ->
  r_start r <= k < r_start r + r_count r -> r_start r' <= k < r_start r' + r_count r' -> r = r'.
Proof.
  intros [_ _ _ _ Hn _ _ _] [i Hi]%list_elem_of_lookup Hr' Hk Hk'.
  assert (Hp : rs ≡ₚ r :: delete i rs) by (by apply delete_Permutation). rewrite Hp in Hn.
  apply nodup_pages_cons in Hn as [Hd _]. rewrite Hp in Hr'. apply elem_of_cons in Hr' as [->|Hr']; [done|].
  destruct (Hd k Hk). apply elem_of_pages_of. eauto.
Qed.

(** Pages below 512 that are all different. *)
Lemma pages_bound (l : list Z) : NoDup l -> (forall k, k ∈ l -> 1 <= k < 512) -> zlen l <= 511.
Proof.
  intros Hn Hb. assert (Hs : l ⊆+ seqZ 1 511).
  { apply NoDup_submseteq; [done|]. intros k Hk. apply elem_of_seqZ. specialize (Hb k Hk). lia. }
  apply submseteq_length in Hs. rewrite length_seqZ in Hs. unfold zlen. lia.
Qed.

Lemma run_pages_range cnt c rs k : chunk_ok cnt c rs -> k ∈ pages_of rs -> 1 <= k < 512.
Proof.
  intros [_ _ _ Hr _ _ _ _] (r & Hin & Hk)%elem_of_pages_of. destruct (Hr r Hin) as (? & ? & ? & _). lia.
Qed.

(** Pages that are free are counted as free. *)
Lemma free_pages_enough cnt c rs a e : chunk_ok cnt c rs -> 1 <= a <= e -> e <= 512 ->
  (forall k, a <= k < e -> k ∉ pages_of rs) -> e - a <= ch_free_pages c <= 511.
Proof.
  intros Hok Ha He Hf. pose proof (ck_nodup _ _ _ Hok) as Hn. pose proof (ck_free _ _ _ Hok) as Hfree.
  pose proof (pages_bound (seqZ a (e - a) ++ pages_of rs)) as Hb.
  unfold zlen in Hb. rewrite length_app, length_seqZ in Hb. rewrite Hfree. unfold zlen. split; [|lia].
  cut (Z.of_nat (Z.to_nat (e - a) + length (pages_of rs)) <= 511); [lia|]. apply Hb.
  - apply NoDup_app. split; [apply NoDup_seqZ|]. split; [|done]. intros k Hk%elem_of_seqZ. apply Hf. lia.
  - intros k [Hk%elem_of_seqZ|Hk]%elem_of_app; [lia|by eapply run_pages_range].
Qed.

(** ** The search *)

Lemma bit_false cnt c rs k : chunk_ok cnt c rs -> 1 <= k < 512 -> bit_at (ch_free_map c) k = false <-> k ∉ pages_of rs.
Proof.
  intros Hok Hk. rewrite <- not_true_iff_false. rewrite (ck_bits _ _ _ Hok k) by lia.
  split; [intros H1 H2; apply H1; by right|intros H1 [H2|H2]; [lia|done]].
Qed.

Lemma chunk_tail_ok cnt c rs : chunk_ok cnt c rs -> tail_ok (ch_free_map c) (ch_free_tail c).
Proof.
  intros Hok. pose proof (ck_tail _ _ _ Hok). split; [done|]. intros k Hk Hbk j Hj.
  pose proof (ck_bits _ _ _ Hok) as Hb. apply Hb in Hbk; [|lia]. destruct Hbk as [|(r & Hin & Hkr)%elem_of_pages_of]; [lia|].
  destruct (ck_runs _ _ _ Hok r Hin) as (? & _). apply Hb; [lia|]. right. apply elem_of_pages_of. exists r. split; [done|lia].
Qed.

Lemma set_tail_ok cnt c rs F : chunk_ok cnt c rs -> 1 <= F <= 512 -> (forall r, r ∈ rs -> r_start r < F) ->
  chunk_ok cnt (set_tail F c) rs.
Proof.
  intros [] HF Hr. split; try done. intros r Hin. destruct (ck_runs0 r Hin) as (? & ? & ? & ?). specialize (Hr r Hin).
  split; [cbn; lia|by split_and!].
Qed.

Lemma hole_free cnt c rs a e k : chunk_ok cnt c rs -> hole (ch_free_map c) a e -> a <= k < e -> k ∉ pages_of rs.
Proof. intros Hok (? & ? & Hz & _) Hk. apply (bit_false cnt c rs k); [done|lia|by apply Hz]. Qed.

(** No run starts at or after a hole that reaches the end. *)
Lemma hole_at_end cnt c rs p : chunk_ok cnt c rs -> hole (ch_free_map c) p 512 -> forall r, r ∈ rs -> r_start r < p.
Proof.
  intros Hok Hh r Hin. destruct (ck_runs _ _ _ Hok r Hin) as (? & ? & ? & _).
  destruct (Z_lt_le_dec (r_start r) p); [done|]. destruct (hole_free _ _ _ _ _ (r_start r) Hok Hh); [lia|].
  apply elem_of_pages_of. exists r. split; [done|lia].
Qed.

(** A run starts where another hole ends. *)
Lemma hole_before_tail cnt c rs p e : chunk_ok cnt c rs -> hole (ch_free_map c) p e -> e < 512 -> e < ch_free_tail c.
Proof.
  intros Hok Hh He. pose proof Hh as (? & ? & _ & _ & Hn). specialize (Hn He).
  apply (ck_bits _ _ _ Hok) in Hn; [|lia]. destruct Hn as [|(r & Hin & Hk)%elem_of_pages_of]; [lia|].
  destruct (ck_runs _ _ _ Hok r Hin) as (? & ? & ? & _). destruct (Z.eq_dec (r_start r) e); [lia|].
  destruct (hole_free _ _ _ _ _ (e - 1) Hok Hh); [lia|]. apply elem_of_pages_of. exists r. split; [done|lia].
Qed.

(** A hole around a free range. *)
Lemma hole_exists cnt c rs p n : chunk_ok cnt c rs -> 1 <= p -> 0 < n -> p + n <= 512 ->
  (forall k, p <= k < p + n -> k ∉ pages_of rs) -> exists a e, hole (ch_free_map c) a e /\ a <= p /\ p + n <= e.
Proof.
  intros Hok Hp Hn He Hf. set (b := bit_at (ch_free_map c)).
  assert (Hz : forall k, p <= k < p + n -> b k = false) by (intros; apply (bit_false cnt c rs); [done|lia|auto]).
  assert (Hlo : exists a, 1 <= a <= p /\ b (a - 1) = true /\ forall k, a <= k < p + n -> b k = false).
  { cut (forall m, 0 <= m -> forall q, q = 1 + m -> q <= p -> (forall k, q <= k < p + n -> b k = false) ->
         exists a, 1 <= a <= p /\ b (a - 1) = true /\ forall k, a <= k < p + n -> b k = false).
    { intros Hall. apply (Hall (p - 1) ltac:(lia) p); [lia|lia|done]. }
    intros m Hm. pattern m. revert m Hm. apply natlike_ind.
    - intros q -> Hq Hkq. exists 1. split; [lia|]. split; [apply (ck_bits _ _ _ Hok); [lia|by left]|done].
    - intros m Hm IH q -> Hq Hkq. destruct (b (1 + m)) eqn:Eb.
      + exists (1 + Z.succ m). replace (1 + Z.succ m - 1) with (1 + m) by lia. split; [lia|done].
      + apply (IH (1 + m) eq_refl ltac:(lia)). intros k Hk. destruct (Z.eq_dec k (1 + m)) as [->|]; [done|apply Hkq; lia]. }
  destruct Hlo as (a & Ha & Hb1 & Hk).
  assert (Hhi : forall m, 0 <= m -> forall e, e = 512 - m -> p + n <= e -> (forall k, a <= k < e -> b k = false) ->
                exists e', e <= e' <= 512 /\ (forall k, a <= k < e' -> b k = false) /\ (e' < 512 -> b e' = true)).
  { intros m Hm. pattern m. revert m Hm. apply natlike_ind; [intros e -> ? Hke; exists 512; split; [lia|]; split; [done|lia]|].
    intros m Hm IH e -> He' Hke. destruct (b (512 - Z.succ m)) eqn:Eb.
    - exists (512 - Z.succ m). split; [lia|]. by split.
    - destruct (IH (512 - m) eq_refl ltac:(lia)) as (e' & H1 & H2 & H3).
      { intros k Hkk. destruct (Z.eq_dec k (512 - Z.succ m)) as [->|]; [done|apply Hke; lia]. }
      exists e'. split; [lia|]. by split. }
  destruct (Hhi (512 - (p + n)) ltac:(lia) (p + n) ltac:(lia) ltac:(lia) Hk) as (e & He1 & He2 & He3).
  exists a, e. split; [|lia]. split; [lia|]. split; [lia|]. split; [done|]. split; done.
Qed.

(** The outcome of a search, in terms of the runs. *)
Definition search_runs (cnt : Z -> Z) (c : zend_mm_chunk) (rs : list run) (count : Z) (r : search_result) : Prop :=
  match r with
  | SFound p F => 1 <= p <= F /\ p + count <= 512 /\ (forall k, p <= k < p + count -> k ∉ pages_of rs) /\
      chunk_ok cnt (set_tail F c) rs /\
      exists e, hole (ch_free_map c) p e /\
        forall a e', hole (ch_free_map c) a e' -> count <= e' - a -> e - p <= e' - a
  | SNotFound F => (forall a e, hole (ch_free_map c) a e -> e - a < count) /\ chunk_ok cnt (set_tail F c) rs
  end.

Lemma same_tail_ok cnt c rs : chunk_ok cnt c rs -> chunk_ok cnt (set_tail (ch_free_tail c) c) rs.
Proof. intros Hok. by destruct c. Qed.

Lemma tail_at_hole cnt c rs p : chunk_ok cnt c rs -> hole (ch_free_map c) p 512 -> forall F, p <= F <= 512 ->
  chunk_ok cnt (set_tail F c) rs.
Proof.
  intros Hok Hh F HF. pose proof Hh as (? & _). apply set_tail_ok; [done|lia|]. intros r Hr.
  pose proof (hole_at_end _ _ _ _ Hok Hh r Hr). lia.
Qed.

Lemma best_fit_ok cnt c rs count : chunk_ok cnt c rs -> 0 < count <= 512 ->
  exists r, best_fit c count = Ok r /\ search_runs cnt c rs count r.
Proof.
  intros Hok Hc. unfold best_fit. destruct (Z.ltb_spec (ch_free_pages c) count) as [Hlt|Hge].
  { eexists. split; [done|]. split; [|by apply same_tail_ok]. intros a e Hh.
    pose proof Hh as (? & ? & _). pose proof (free_pages_enough cnt c rs a e Hok ltac:(lia) ltac:(lia)) as Hf.
    destruct Hf; [intros; by eapply hole_free|lia]. }
  destruct (zget_is_Some (ch_free_map c) 0) as [w Hw]; [rewrite (ck_words _ _ _ Hok); lia|].
  rewrite (rd_ok _ _ _ Hw). cbn [mbind res_bind].
  destruct (best_fit_loop_ok (ch_free_map c) (ck_words _ _ _ Hok) (ck_bitset _ _ _ Hok) search_fuel count (ch_free_tail c)
              (-1) ZEND_MM_PAGES w 0 1 0) as (r & -> & Hr).
  - lia.
  - by eapply chunk_tail_ok.
  - split; [by eapply zget_word_ok; [apply (ck_bitset _ _ _ Hok)|]|]. split; [done|]. split; [lia|]. split; [lia|].
    intros j Hj. rewrite (proj2 (Z.ltb_ge _ _)) by lia. rewrite (bit_at_word _ 0 w) by (done || dlia). f_equal. dlia.
  - lia.
  - apply (ck_bits _ _ _ Hok); [lia|by left].
  - left. split; [done|]. split; [done|]. intros a e (? & _) ?. lia.
  - unfold search_fuel. lia.
  - exists r. split; [done|]. destruct r as [p F|F].
    + destruct Hr as (e & Hh & Hce & Hmin & HF). pose proof Hh as (? & ? & _).
      assert (Htail : p <= F <= 512 /\ chunk_ok cnt (set_tail F c) rs).
      { pose proof (ck_tail _ _ _ Hok). destruct HF as [[-> He]|[[-> ->]|(He & Hh' & HpF)]].
        - pose proof (hole_before_tail _ _ _ _ _ Hok Hh He). split; [lia|by apply same_tail_ok].
        - split; [lia|]. apply (tail_at_hole _ _ _ p); [done..|lia].
        - pose proof Hh' as (? & _). split; [lia|]. apply (tail_at_hole _ _ _ F); [done..|lia]. }
      split; [lia|]. split; [lia|]. split; [intros k Hk; apply (hole_free cnt c rs p e); [done|done|lia]|].
      split; [tauto|]. by exists e.
    + destruct Hr as [Hno HF]. split; [done|]. destruct HF as [->|Hh]; [by apply same_tail_ok|].
      pose proof Hh as (? & _). apply (tail_at_hole _ _ _ F); [done..|lia].
Qed.

(** ** The operations on runs *)

Lemma zget_wr_other (m : list Z) p v k : 0 <= p -> p <> k -> zget (zset m p v) k = zget m k.
Proof. apply zget_zset_ne. Qed.

(** Writing to the map at a page outside a run. *)
Lemma run_in_map_frame m m' cnt r : (forall k, r_start r <= k < r_start r + r_count r -> zget m' k = zget m k) ->
  0 < r_count r -> run_in_map m cnt r -> run_in_map m' cnt r.
Proof.
  unfold run_in_map. intros Hk Hc. destruct (r_kind r); [by rewrite Hk by lia|].
  intros (H1 & H2 & H3). split; [done|]. split; [by rewrite Hk by lia|]. intros j Hj. rewrite Hk by lia. by apply H3.
Qed.

Definition same_place (c c' : zend_mm_chunk) : Prop :=
  ch_heap c' = ch_heap c /\ ch_next c' = ch_next c /\ ch_prev c' = ch_prev c /\ ch_num c' = ch_num c.

(** The general step: the runs [rs] stay, [added] and [removed] are at most one run each. *)
Lemma chunk_ok_change cnt cnt' c added removed rs fm' m' tail' (v : bool) s n :
  chunk_ok cnt c (removed ++ rs) ->
  range_becomes v (ch_free_map c) s n fm' -> zlen m' = 512 -> 1 <= tail' <= 512 ->
  NoDup (pages_of (added ++ rs)) ->
  (forall k, 1 <= k < 512 -> k ∈ pages_of (added ++ rs) <->
     if (s <=? k) && (k <? s + n) then v = true else k ∈ pages_of (removed ++ rs)) ->
  1 <= s ->
  (forall r, r ∈ added -> run_ok m' cnt' tail' r) ->
  (forall r, r ∈ rs -> run_ok (ch_map c) cnt (ch_free_tail c) r -> run_ok m' cnt' tail' r) ->
  chunk_ok cnt' (set_pages (511 - zlen (pages_of (added ++ rs))) tail' fm' m' c) (added ++ rs).
Proof.
  intros Hok (Hlen & Hbs & Hbits) Hm Ht Hn Hp Hs Ha Hr. split; try done.
  - cbn. rewrite Hlen. apply (ck_words _ _ _ Hok).
  - intros r [Hin|Hin]%elem_of_app; [by apply Ha|]. apply Hr; [done|]. apply (ck_runs _ _ _ Hok). apply elem_of_app. by right.
  - intros k Hk. cbn [ch_free_map set_pages]. rewrite Hbits by lia. destruct (Z.eq_dec k 0) as [->|].
    + rewrite (proj2 (Z.leb_gt s 0)) by lia. cbn [andb]. rewrite (ck_bits _ _ _ Hok) by lia. split; by left.
    + rewrite Hp by lia. destruct ((s <=? k) && (k <? s + n)).
      * split; [by right|intros [|]; done || lia].
      * rewrite (ck_bits _ _ _ Hok) by lia. done.
Qed.

Lemma free_pages_u32 cnt c rs x : chunk_ok cnt c rs -> u32 (511 - zlen (pages_of rs)) = 511 - zlen (pages_of rs) -> ch_free_pages c = x -> u32 x = x.
Proof. intros Hok H <-. by rewrite (ck_free _ _ _ Hok). Qed.

(** Between 0 and 511 pages are free. *)
Lemma free_pages_range cnt c rs : chunk_ok cnt c rs -> 0 <= 511 - zlen (pages_of rs) <= 511.
Proof.
  intros Hok. pose proof (pages_bound (pages_of rs) (ck_nodup _ _ _ Hok)) as Hb.
  pose proof (zlen_nonneg (pages_of rs)). specialize (Hb ltac:(intros; by eapply run_pages_range)). lia.
Qed.

Lemma mark_run_ok cnt c rs p n : chunk_ok cnt c rs -> 1 <= p <= ch_free_tail c -> 0 < n -> p + n <= 512 ->
  (forall k, p <= k < p + n -> k ∉ pages_of rs) ->
  exists c', mark_run c p n = Ok c' /\ same_place c c' /\ chunk_ok cnt c' (Run p n Large :: rs).
Proof.
  intros Hok Hp Hn Hpn Hf. unfold mark_run.
  destruct (set_range_ok (ch_free_map c) p n (ck_bitset _ _ _ Hok)) as (fm & -> & Hfm); [lia|lia|rewrite (ck_words _ _ _ Hok); lia|].
  cbn [mbind res_bind]. rewrite wr_ok by (rewrite (ck_len _ _ _ Hok); lia). cbn [mbind res_bind]. eexists. split; [done|].
  split; [by split_and!|].
  pose proof (free_pages_range _ _ _ Hok) as Hfr. pose proof (ck_tail _ _ _ Hok) as Ht.
  pose proof (free_pages_enough cnt c rs p (p + n) Hok ltac:(lia) Hpn Hf) as Hen.
  pose proof (zlen_pages_cons (Run p n Large) rs ltac:(cbn; lia)) as Hz. cbn [r_count] in Hz.
  replace (u32 (ch_free_pages c - n)) with (511 - zlen (pages_of ([Run p n Large] ++ rs))).
  2:{ cbn [app]. rewrite Hz, u32_small by lia. rewrite (ck_free _ _ _ Hok). lia. }
  apply (chunk_ok_change cnt cnt c [Run p n Large] [] rs _ _ _ true p n); try done.
  - by rewrite zlen_zset, (ck_len _ _ _ Hok).
  - destruct (Z.eqb_spec p (ch_free_tail c)); lia.
  - apply nodup_pages_cons. split; [exact Hf|apply (ck_nodup _ _ _ Hok)].
  - intros k Hk. cbn [app]. rewrite elem_of_pages_cons. cbn. destruct (Z.leb_spec p k), (Z.ltb_spec k (p + n)); cbn; naive_solver lia.
  - lia.
  - intros r ->%list_elem_of_singleton. split; [cbn; destruct (Z.eqb_spec p (ch_free_tail c)); lia|].
    split; [done|]. split; [cbn; lia|]. unfold run_in_map. cbn. apply zget_zset_eq. rewrite (ck_len _ _ _ Hok). lia.
  - intros r Hin (H1 & H2 & H3 & H4). split; [destruct (Z.eqb_spec p (ch_free_tail c)); lia|]. split; [done|]. split; [done|].
    eapply run_in_map_frame; [|done|done]. intros k Hk. apply zget_zset_ne; [lia|]. intros <-.
    apply (Hf p); [lia|]. apply elem_of_pages_of. exists r. split; [done|lia].
Qed.

Lemma unmark_run_ok cnt c r rs : chunk_ok cnt c (r :: rs) ->
  exists c', unmark_run c (r_start r) (r_count r) = Ok c' /\ same_place c c' /\ chunk_ok cnt c' rs.
Proof.
  intros Hok. destruct (ck_runs _ _ _ Hok r) as (Hs & Hc & He & _); [by left|]. unfold unmark_run.
  destruct (reset_range_ok (ch_free_map c) (r_start r) (r_count r) (ck_bitset _ _ _ Hok)) as (fm & -> & Hfm); [lia|lia|rewrite (ck_words _ _ _ Hok); lia|].
  cbn [mbind res_bind]. rewrite wr_ok by (rewrite (ck_len _ _ _ Hok); lia). cbn [mbind res_bind]. eexists. split; [done|].
  split; [by split_and!|].
  pose proof (free_pages_range _ _ _ Hok) as Hfr. pose proof (ck_tail _ _ _ Hok) as Ht.
  pose proof (ck_nodup _ _ _ Hok) as Hn. apply nodup_pages_cons in Hn as [Hd Hn].
  rewrite (zlen_pages_cons r rs) in Hfr by lia. pose proof (zlen_nonneg (pages_of rs)).
  replace (u32 (ch_free_pages c + r_count r)) with (511 - zlen (pages_of ([] ++ rs))).
  2:{ cbn [app]. rewrite (ck_free _ _ _ Hok), (zlen_pages_cons r rs), u32_small by lia. lia. }
  apply (chunk_ok_change cnt cnt c [] [r] rs _ _ _ false (r_start r) (r_count r)); try done.
  - by rewrite zlen_zset, (ck_len _ _ _ Hok).
  - destruct (Z.eqb_spec (ch_free_tail c) (r_start r + r_count r)); lia.
  - intros k Hk. cbn [app]. pose proof (elem_of_pages_cons k r rs). specialize (Hd k).
    destruct (Z.leb_spec (r_start r) k), (Z.ltb_spec k (r_start r + r_count r)); cbn [andb]; naive_solver lia.
  - lia.
  - by intros r' ?%elem_of_nil.
  - intros r' Hin (H1 & H2 & H3 & H4).
    assert (Hdis : forall k, r_start r' <= k < r_start r' + r_count r' -> ~ (r_start r <= k < r_start r + r_count r)).
    { intros k Hk Hk'. apply (Hd k Hk'). apply elem_of_pages_of. by exists r'. }
    split. { destruct (Z.eqb_spec (ch_free_tail c) (r_start r + r_count r)); [|lia]. specialize (Hdis (r_start r') ltac:(lia)). lia. }
    split; [done|]. split; [done|]. eapply run_in_map_frame; [|done|done]. intros k Hk. apply zget_zset_ne; [lia|].
    intros <-. apply (Hdis (r_start r)); [done|lia].
Qed.

(** ** Words of the map

    The fields are few and small: the laws are checked on all values. *)

Lemma all_in_range (P : Z -> bool) lo n x : forallb P (seqZ lo n) = true -> lo <= x < lo + n -> P x = true.
Proof. intros H Hx. rewrite forallb_forall in H. apply H. apply list_elem_of_In, elem_of_seqZ. lia. Qed.

Definition srun_law (b v : Z) : bool :=
  let w := ZEND_MM_SRUN_EX b v in
  is_srun w && negb (is_lrun w) && (ZEND_MM_SRUN_BIN_NUM w =? b) && (ZEND_MM_SRUN_FREE_COUNTER w =? v mod 512).
Definition nrun_law (b j : Z) : bool :=
  let w := ZEND_MM_NRUN b j in
  is_srun w && is_lrun w && (ZEND_MM_SRUN_BIN_NUM w =? b) && (ZEND_MM_NRUN_OFFSET w =? j).
Definition lrun_law (n : Z) : bool :=
  let w := ZEND_MM_LRUN n in negb (is_srun w) && (ZEND_MM_LRUN_PAGES w =? n).

Lemma srun_words b v : 0 <= b < 30 -> 0 <= v <= 512 ->
  let w := ZEND_MM_SRUN_EX b v in
  is_srun w = true /\ is_lrun w = false /\ ZEND_MM_SRUN_BIN_NUM w = b /\ ZEND_MM_SRUN_FREE_COUNTER w = v mod 512.
Proof.
  intros Hb Hv. assert (H : srun_law b v = true).
  { apply (all_in_range (fun v => srun_law b v) 0 513); [|lia].
    apply (all_in_range (fun b => forallb (fun v => srun_law b v) (seqZ 0 513)) 0 30); [by vm_compute|lia]. }
  unfold srun_law in H. cbv zeta in *. rewrite !andb_true_iff, negb_true_iff, !Z.eqb_eq in H. tauto.
Qed.

Lemma nrun_words b j : 0 <= b < 30 -> 0 <= j < 512 ->
  let w := ZEND_MM_NRUN b j in
  is_srun w = true /\ is_lrun w = true /\ ZEND_MM_SRUN_BIN_NUM w = b /\ ZEND_MM_NRUN_OFFSET w = j.
Proof.
  intros Hb Hv. assert (H : nrun_law b j = true).
  { apply (all_in_range (fun v => nrun_law b v) 0 512); [|lia].
    apply (all_in_range (fun b => forallb (fun v => nrun_law b v) (seqZ 0 512)) 0 30); [by vm_compute|lia]. }
  unfold nrun_law in H. cbv zeta in *. rewrite !andb_true_iff, !Z.eqb_eq in H. tauto.
Qed.

Lemma lrun_words n : 0 <= n < 1024 -> let w := ZEND_MM_LRUN n in is_srun w = false /\ ZEND_MM_LRUN_PAGES w = n.
Proof.
  intros Hn. assert (H : lrun_law n = true).
  { apply (all_in_range lrun_law 0 1024); [by vm_compute|lia]. }
  unfold lrun_law in H. cbv zeta in *. rewrite !andb_true_iff, negb_true_iff, !Z.eqb_eq in H. tauto.
Qed.

Lemma SRUN_EX_0 b : ZEND_MM_SRUN b = ZEND_MM_SRUN_EX b 0.
Proof. unfold ZEND_MM_SRUN, ZEND_MM_SRUN_EX. change (u32 (Z.shiftl 0 16)) with 0. by rewrite Z.lor_0_r. Qed.

(** ** Bins *)

(** What the code relies on in the table of bins. *)
Definition bin_law (b : Z) : bool :=
  match zget bin_data_size b, zget bin_elements b, zget bin_pages b with
  | Some size, Some elements, Some count =>
      (8 <=? size) && (size mod 8 =? 0) && (4 <=? elements) && (elements <=? 512) && (1 <=? count) && (count <=? 7) &&
      (size * elements <=? count * 4096)
  | _, _, _ => false
  end.

Lemma bin_table b : 0 <= b < 30 -> exists size elements count,
  zget bin_data_size b = Some size /\ zget bin_elements b = Some elements /\ zget bin_pages b = Some count /\
  8 <= size /\ size mod 8 = 0 /\ 4 <= elements <= 512 /\ 1 <= count <= 7 /\ size * elements <= count * 4096.
Proof.
  intros Hb. assert (H : bin_law b = true) by (apply (all_in_range bin_law 0 30); [by vm_compute|lia]).
  unfold bin_law in H. destruct (zget bin_data_size b) as [size|], (zget bin_elements b) as [elements|], (zget bin_pages b) as [count|]; try done.
  rewrite !andb_true_iff, Z.eqb_eq, !Z.leb_le in H. exists size, elements, count. split_and!; try done; lia.
Qed.

Lemma bin_pages_range b n : zget bin_pages b = Some n -> 0 <= b < 30.
Proof. intros H%zget_Some_range. exact H. Qed.

(** ** Runs of a bin *)

Lemma chunk_ok_map cnt cnt' c rs m : chunk_ok cnt c rs -> zlen m = 512 ->
  (forall r, r ∈ rs -> run_in_map (ch_map c) cnt r -> run_in_map m cnt' r) -> chunk_ok cnt' (set_map m c) rs.
Proof.
  intros [] Hl Hr. split; try done. intros r Hin. destruct (ck_runs0 r Hin) as (? & ? & ? & ?).
  split; [done|]. split; [done|]. split; [done|]. by apply Hr.
Qed.

Lemma mark_nrun_ok n m p b i : 0 <= p -> 0 <= i -> p + i + Z.of_nat n <= zlen m ->
  exists m', mark_nrun n m p b i = Ok m' /\ zlen m' = zlen m /\
  forall k, zget m' k = if (p + i <=? k) && (k <? p + i + Z.of_nat n) then Some (ZEND_MM_NRUN b (k - p)) else zget m k.
Proof.
  revert m i. induction n as [|n IH]; intros m i Hp Hi Hb; cbn [mark_nrun].
  - exists m. split; [done|]. split; [done|]. intros k. destruct (Z.leb_spec (p + i) k), (Z.ltb_spec k (p + i + Z.of_nat 0)); cbn; done || lia.
  - rewrite wr_ok by lia. cbn [mbind res_bind]. destruct (IH (zset m (p + i) (ZEND_MM_NRUN b i)) (i + 1)) as (m' & -> & Hl & Hk);
      rewrite ?zlen_zset; try lia. exists m'. split; [done|]. split; [by rewrite Hl, zlen_zset|]. intros k. rewrite Hk.
    destruct (Z.eq_dec k (p + i)) as [->|].
    + rewrite (proj2 (Z.leb_gt _ _)) by lia. cbn [andb]. rewrite zget_zset_eq by lia.
      rewrite (proj2 (Z.leb_le _ _)), (proj2 (Z.ltb_lt _ _)) by lia. cbn. do 2 f_equal. lia.
    + rewrite zget_zset_ne by lia.
      destruct (Z.leb_spec (p + (i + 1)) k), (Z.leb_spec (p + i) k), (Z.ltb_spec k (p + (i + 1) + Z.of_nat n)), (Z.ltb_spec k (p + i + Z.of_nat (S n)));
        cbn; done || lia.
Qed.

Lemma make_small_ok cnt c rs p n b : chunk_ok cnt c (Run p n Large :: rs) -> zget bin_pages b = Some n -> cnt p = 0 ->
  exists m1 m2, wr (ch_map c) p (ZEND_MM_SRUN b) = Ok m1 /\ mark_nrun (Z.to_nat (n - 1)) m1 p b 1 = Ok m2 /\
  chunk_ok cnt (set_map m2 c) (Run p n (Small b) :: rs).
Proof.
  intros Hok Hb Hz. destruct (ck_runs _ _ _ Hok (Run p n Large)) as (Hp & Hn & Hpn & _); [by left|]. cbn in Hp, Hn, Hpn.
  pose proof (ck_tail _ _ _ Hok) as Ht. pose proof (ck_len _ _ _ Hok) as Hl.
  rewrite wr_ok by lia. destruct (mark_nrun_ok (Z.to_nat (n - 1)) (zset (ch_map c) p (ZEND_MM_SRUN b)) p b 1) as (m2 & Hm2 & Hl2 & Hk);
    rewrite ?zlen_zset; try lia. eexists _, m2. split; [done|]. split; [exact Hm2|].
  assert (Hnew : run_in_map m2 cnt (Run p n (Small b))).
  { split; [done|]. cbn. split.
    - rewrite Hk. rewrite (proj2 (Z.leb_gt _ _)) by lia. cbn. rewrite zget_zset_eq by lia. by rewrite Hz, SRUN_EX_0.
    - intros j Hj. rewrite Hk. rewrite (proj2 (Z.leb_le _ _)), (proj2 (Z.ltb_lt _ _)) by lia. cbn. do 2 f_equal. lia. }
  pose proof (ck_nodup _ _ _ Hok) as Hnd. apply nodup_pages_cons in Hnd as [Hd _]. cbn in Hd.
  assert (Hpg : pages_of (Run p n (Small b) :: rs) = pages_of (Run p n Large :: rs)) by done.
  destruct Hok. split; rewrite ?Hpg; try done; [cbn; by rewrite Hl2, zlen_zset|].
  intros r [->|Hin]%elem_of_cons; [split; [cbn; lia|]; split; [cbn; lia|]; split; [cbn; lia|done]|]. destruct (ck_runs0 r) as (? & ? & ? & ?); [by right|].
  split; [done|]. split; [done|]. split; [done|]. eapply run_in_map_frame; [|done|done].
  intros k Hkr. rewrite Hk. assert (~ (p <= k < p + n)).
  { intros Hkp. apply (Hd k Hkp). apply elem_of_pages_of. by exists r. }
  rewrite zget_zset_ne by lia. destruct (Z.leb_spec (p + 1) k), (Z.ltb_spec k (p + 1 + Z.of_nat (Z.to_nat (n - 1)))); cbn; done || lia.
Qed.

(** A counter is set. *)
Lemma set_counter_ok cnt c rs r b v : chunk_ok cnt c rs -> r ∈ rs -> r_kind r = Small b ->
  exists m, wr (ch_map c) (r_start r) (ZEND_MM_SRUN_EX b v) = Ok m /\ chunk_ok (<[r_start r := v]> cnt) (set_map m c) rs.
Proof.
  intros Hok Hr Hk. destruct (ck_runs _ _ _ Hok r Hr) as (Hs & Hc & He & Hm). pose proof (ck_tail _ _ _ Hok) as Ht.
  pose proof (ck_len _ _ _ Hok) as Hl. rewrite wr_ok by lia. eexists. split; [done|].
  apply (chunk_ok_map cnt); [done|by rewrite zlen_zset|]. intros r' Hr' Hm'. destruct (decide (r' = r)) as [->|Hne].
  - unfold run_in_map in *. rewrite Hk in *. destruct Hm' as (? & _ & Hj). split; [done|]. rewrite zget_zset_eq by lia.
    rewrite fn_lookup_insert. split; [done|]. intros j Hj'. rewrite zget_zset_ne by lia. by apply Hj.
  - destruct (ck_runs _ _ _ Hok r' Hr') as (Hs' & Hc' & He' & _).
    assert (Hdis : forall k, r_start r' <= k < r_start r' + r_count r' -> k <> r_start r).
    { intros k Hk' ->. apply Hne. apply (runs_disjoint cnt c rs r' r (r_start r)); done || lia. }
    assert (Hm2 : run_in_map (zset (ch_map c) (r_start r) (ZEND_MM_SRUN_EX b v)) cnt r').
    { eapply run_in_map_frame; [|done|done]. intros k Hk'. apply zget_zset_ne; [lia|]. by apply not_eq_sym, Hdis. }
    unfold run_in_map in *. destruct (r_kind r'); [done|]. rewrite fn_lookup_insert_ne; [done|]. apply not_eq_sym, Hdis. lia.
Qed.
