(* ===== verification/MmHeapInv.v ===== *)
(** * What the heap represents

    The ring of chunks with the runs of each, the cache of chunks, the free lists of
    the bins and the blocks in use; the laws of the operating system; and the rules by
    which the operations are run. *)

From stdpp Require Import functions.
From S2P Require Import Prelude.
From S2P Require Import MmPageOps.
From S2P Require Import MmChunk.
From S2P Require Import MmHeapOps.
From S2P Require Import MmAllocOps.

(** ** Words in memory *)

Definition word_at (m : gmap Z Z) (p : Z) : option Z := word_of <$> load_bytes m p 8.
#[global] Arguments word_at : simpl never.

Lemma lookup_store_bytes m p l a :
  store_bytes m p l !! a = if (p <=? a) && (a <? p + zlen l) then zget l (a - p) else m !! a.
Proof.
  revert m p. induction l as [|b l IH]; intros m p; cbn [store_bytes].
  - destruct (Z.leb_spec p a), (Z.ltb_spec a (p + zlen (@nil Z))); try done. unfold zlen in *. cbn in *. lia.
  - rewrite IH, zlen_cons. unfold zget. destruct (Z.eq_dec a p) as [->|].
    + rewrite (proj2 (Z.leb_gt (p + 1) p)) by lia. cbn [andb]. rewrite lookup_insert_eq. pose proof (zlen_nonneg l).
      rewrite (proj2 (Z.leb_le p p)), (proj2 (Z.ltb_lt p _)) by lia. cbn. by rewrite Z.sub_diag.
    + rewrite lookup_insert_ne by lia.
      destruct (Z.leb_spec (p + 1) a), (Z.leb_spec p a), (Z.ltb_spec a (p + 1 + zlen l)), (Z.ltb_spec a (p + (zlen l + 1))); cbn [andb]; try (done || lia).
      rewrite (proj2 (Z.leb_le 0 _)), (proj2 (Z.leb_le 0 (a - p))) by lia.
      replace (Z.to_nat (a - p)) with (S (Z.to_nat (a - (p + 1)))) by lia. done.
Qed.

Lemma load_bytes_frame m m' p n : (forall k, p <= k < p + Z.of_nat n -> m' !! k = m !! k) -> load_bytes m' p n = load_bytes m p n.
Proof.
  revert p. induction n as [|n IH]; intros p H; cbn [load_bytes]; [done|].
  rewrite H by lia. rewrite IH; [done|]. intros k Hk. apply H. lia.
Qed.

Lemma word_at_frame m m' p : (forall k, p <= k < p + 8 -> m' !! k = m !! k) -> word_at m' p = word_at m p.
Proof. intros H. unfold word_at. by rewrite (load_bytes_frame m). Qed.

Lemma load_stored m p l : load_bytes (store_bytes m p l) p (length l) = Some l.
Proof.
  assert (H : forall l m p, (forall k, p <= k < p + zlen l -> m !! k = zget l (k - p)) -> load_bytes m p (length l) = Some l).
  { clear. induction l as [|b l IH]; intros m p H; cbn [load_bytes length]; [done|]. rewrite zlen_cons in H.
    rewrite (H p) by (pose proof (zlen_nonneg l); lia). rewrite Z.sub_diag. cbn. rewrite IH; [done|]. intros k Hk.
    rewrite H by lia. unfold zget. rewrite (proj2 (Z.leb_le 0 _)), (proj2 (Z.leb_le 0 (k - (p + 1)))) by lia.
    by replace (Z.to_nat (k - p)) with (S (Z.to_nat (k - (p + 1)))) by lia. }
  apply H. intros k Hk. rewrite lookup_store_bytes. by rewrite (proj2 (Z.leb_le _ _)), (proj2 (Z.ltb_lt _ _)) by lia.
Qed.

Lemma word_of_bytes v : 0 <= v < 2 ^ 64 -> word_of (bytes_of v) = v.
Proof.
  intros Hv. change (bytes_of v) with ((fun k => Z.land (Z.shiftr v (8 * k)) 255) <$> [0; 1; 2; 3; 4; 5; 6; 7]).
  cbn [fmap list_fmap word_of foldr]. change 255 with (Z.ones 8).
  rewrite !Z.land_ones, !Z.shiftr_div_pow2 by lia. cbn -[Z.modulo Z.div Z.pow]. 
  change (2 ^ (8 * 0)) with 1. rewrite Z.div_1_r. change (2 ^ 8) with 256.
  change (2 ^ (8 * 1)) with 256. change (2 ^ (8 * 2)) with (256 * 256). change (2 ^ (8 * 3)) with (256 * 256 * 256).
  change (2 ^ (8 * 4)) with (256 * 256 * 256 * 256). change (2 ^ (8 * 5)) with (256 * 256 * 256 * 256 * 256).
  change (2 ^ (8 * 6)) with (256 * 256 * 256 * 256 * 256 * 256).
  change (2 ^ (8 * 7)) with (256 * 256 * 256 * 256 * 256 * 256 * 256).
  rewrite <- !Z.div_div by lia.
  assert (Hq : v / 256 / 256 / 256 / 256 / 256 / 256 / 256 / 256 = 0).
  { rewrite !Z.div_div by lia. apply Z.div_small. lia. }
  do 8 (match goal with |- context [?x mod 256] => rewrite (Z.mod_eq x 256) by lia end). lia.
Qed.

Lemma word_at_store m p v : 0 <= v < 2 ^ 64 -> word_at (store_bytes m p (bytes_of v)) p = Some v.
Proof.
  intros Hv. unfold word_at. change 8%nat with (length (bytes_of v)). rewrite load_stored. cbn. by rewrite word_of_bytes.
Qed.

Lemma store_frame m p v k : ~ (p <= k < p + 8) -> store_bytes m p (bytes_of v) !! k = m !! k.
Proof.
  intros H. rewrite lookup_store_bytes. change (zlen (bytes_of v)) with 8.
  destruct (Z.leb_spec p k), (Z.ltb_spec k (p + 8)); cbn; done || lia.
Qed.

Lemma lookup_unmap {V} (m : gmap Z V) a n k : ~ (a <= k < a + n) -> unmap a n m !! k = m !! k.
Proof.
  intros H. unfold unmap. destruct (m !! k) eqn:E.
  - apply map_lookup_filter_Some. split; [done|]. cbn. unfold in_span. destruct (Z.leb_spec a k), (Z.ltb_spec k (a + n)); cbn; done || lia.
  - apply map_lookup_filter_None. by left.
Qed.

(** ** Regions *)

Definition apart2 (x y : Z * Z) : Prop := x.1 + x.2 <= y.1 \/ y.1 + y.2 <= x.1.
Fixpoint apart (l : list (Z * Z)) : Prop :=
  match l with
  | [] => True
  | x :: l => Forall (apart2 x) l /\ apart l
  end.

Lemma apart2_sym x y : apart2 x y -> apart2 y x.
Proof. unfold apart2. lia. Qed.

#[export] Instance apart_perm : Proper (Permutation ==> iff) apart.
Proof.
  assert (H : forall l l', l ≡ₚ l' -> apart l -> apart l').
  { induction 1 as [|x l l' Hp IH|x y l|l l' l'' _ IH1 _ IH2]; cbn; [done| | |by auto].
    - intros [Hf Ha]. split; [by rewrite <- Hp|by apply IH].
    - intros [Hf [Hf' Ha]]. inversion Hf; subst. split; [constructor; [by apply apart2_sym|done]|done]. }
  intros l l' Hp. split; apply H; [done|by symmetry].
Qed.

Lemma apart_app l1 l2 : apart (l1 ++ l2) <-> apart l1 /\ apart l2 /\ forall x y, x ∈ l1 -> y ∈ l2 -> apart2 x y.
Proof.
  induction l1 as [|a l1 IH]; cbn.
  - split; [intros H; split; [done|]; split; [done|]; by intros x y ?%elem_of_nil|tauto].
  - rewrite Forall_app, IH, !Forall_forall. split.
    + intros ([H1 H2] & H3 & H4 & H5). split; [done|]. split; [done|]. intros x y [->|Hx]%elem_of_cons Hy; auto.
    + intros ([H1 H2] & H3 & H4). split; [split|]; [done|intros; apply H4; [by left|done]|].
      split; [done|]. split; [done|]. intros x y Hx Hy. apply H4; [by right|done].
Qed.

(** The bytes of the regions are the same in both memories. *)
Definition keeps (l : list (Z * Z)) (m m' : gmap Z Z) : Prop :=
  forall a n k, (a, n) ∈ l -> a <= k < a + n -> m' !! k = m !! k.

Lemma keeps_refl l m : keeps l m m.
Proof. done. Qed.
Lemma keeps_trans l m1 m2 m3 : keeps l m1 m2 -> keeps l m2 m3 -> keeps l m1 m3.
Proof. intros H1 H2 a n k Hin Hk. rewrite (H2 a n k Hin Hk). by eapply H1. Qed.
Lemma keeps_incl l l' m m' : l' ⊆ l -> keeps l m m' -> keeps l' m m'.
Proof. intros Hs H a n k Hin. by apply H, Hs. Qed.

(** ** The ring of chunks *)

Section Links.
Context (cs : gmap Z zend_mm_chunk).

(** From [x] the links lead through [l] to [y] and back. *)
Fixpoint dpath (x : Z) (l : list Z) (y : Z) : Prop :=
  match l with
  | [] => ch_next <$> cs !! x = Some y /\ ch_prev <$> cs !! y = Some x
  | a :: l => ch_next <$> cs !! x = Some a /\ ch_prev <$> cs !! a = Some x /\ dpath a l y
  end.

(** The cached chunks: without runs, linked by [next]. *)
Definition clean (c : zend_mm_chunk) : Prop :=
  zlen (ch_free_map c) = 8 /\ bitset_ok (ch_free_map c) /\ zlen (ch_map c) = 512 /\
  forall k, 0 < k < 512 -> bit_at (ch_free_map c) k = false.

Fixpoint cached_list (p : Z) (l : list Z) : Prop :=
  match l with
  | [] => p = 0
  | a :: l => p = a /\ exists c, cs !! a = Some c /\ clean c /\ cached_list (ch_next c) l
  end.
End Links.

Lemma dpath_app cs x l1 a l2 y : dpath cs x (l1 ++ a :: l2) y <-> dpath cs x l1 a /\ dpath cs a l2 y.
Proof. revert x. induction l1 as [|b l1 IH]; intros x; cbn; [tauto|]. rewrite IH. tauto. Qed.

Lemma dpath_frame cs cs' x l y :
  (forall a, a ∈ x :: l -> ch_next <$> cs' !! a = ch_next <$> cs !! a) ->
  (forall a, a ∈ l ++ [y] -> ch_prev <$> cs' !! a = ch_prev <$> cs !! a) -> dpath cs x l y -> dpath cs' x l y.
Proof.
  revert x. induction l as [|b l IH]; intros x Hn Hp; cbn.
  - rewrite Hn by (by left). by rewrite Hp by (by left).
  - intros (H1 & H2 & H3). rewrite Hn by (by left). rewrite Hp by (by left). split; [done|]. split; [done|].
    apply IH; [|intros; apply Hp; by right|done]. intros a Ha. apply Hn. by right.
Qed.

Lemma cached_list_frame cs cs' p l : (forall a, a ∈ l -> cs' !! a = cs !! a) -> cached_list cs p l -> cached_list cs' p l.
Proof.
  revert p. induction l as [|a l IH]; intros p H; cbn; [done|]. intros (-> & c & Hc & Hcl & Hl). split; [done|].
  exists c. rewrite H by (by left). split; [done|]. split; [done|]. apply IH; [|done]. intros; apply H; by right.
Qed.

(** Free slots linked in memory. *)
Fixpoint chain (m : gmap Z Z) (p : Z) (l : list Z) : Prop :=
  match l with
  | [] => p = 0
  | a :: l => p = a /\ exists q, word_at m p = Some q /\ chain m q l
  end.

Lemma chain_frame m m' p l : (forall a k, a ∈ l -> a <= k < a + 8 -> m' !! k = m !! k) -> chain m p l -> chain m' p l.
Proof.
  revert p. induction l as [|a l IH]; intros p H; cbn; [done|]. intros (-> & q & Hq & Hl). split; [done|].
  exists q. rewrite (word_at_frame m) by (intros k Hk; apply (H a); [by left|done]). split; [done|].
  apply IH; [|done]. intros b k Hb. apply H. by right.
Qed.

(** ** The laws of the operating system

    [os_mapped] are the addresses that are mapped at the request of the heap, which are
    not handed out again. Every call of [mmap] and of [mremap] may fail. Mappings lie in
    the lower half of the 48-bit address space, at [os_base] or above: the least address
    at which the system maps memory, which may be zero. *)

Class OsLaws (OS : Os) : Type := {
  os_mapped : os -> Z -> Prop;
  os_mmap_ok : forall (sys : os) n, 0 < n ->
    (forall a, os_mapped sys a -> os_mapped (os_mmap sys n).1 a) /\
    ((os_mmap sys n).2 = 0 \/
     0 < (os_mmap sys n).2 /\ (os_mmap sys n).2 mod REAL_PAGE_SIZE = 0 /\ (os_mmap sys n).2 + n <= 2 ^ 47 /\
     forall a, (os_mmap sys n).2 <= a < (os_mmap sys n).2 + n -> ~ os_mapped sys a /\ os_mapped (os_mmap sys n).1 a);
  os_munmap_ok : forall (sys : os) p n a, os_mapped sys a -> ~ (p <= a < p + n) -> os_mapped (os_munmap sys p n) a;
  os_mremap_ok : forall (sys : os) p old n, old < n ->
    (forall a, os_mapped sys a -> os_mapped (os_mremap sys p old n).1 a) /\
    ((os_mremap sys p old n).2 = true ->
     p + n <= 2 ^ 47 /\
     forall a, p + old <= a < p + n -> ~ os_mapped sys a /\ os_mapped (os_mremap sys p old n).1 a);
  os_base : Z;
  os_low : forall (sys : os) a, os_mapped sys a -> os_base <= a;
}.

(** If the second call of [mmap] for a mapping of [size] bytes fails, the code does not
    test its result: it unmaps [size, size + ZEND_MM_CHUNK_SIZE - REAL_PAGE_SIZE) before
    it reports the failure. For a chunk these are addresses below 4 MiB, which a system
    that maps nothing there does not miss. *)
Class LowFree (OS : Os) {L : OsLaws OS} : Prop := low_free : 2 * ZEND_MM_CHUNK_SIZE <= os_base.

(** A huge block is harmless if there is no memory of the heap at these addresses, or if
    the first call fails already because there are not so many addresses. *)
Definition harmless {OS : Os} {L : OsLaws OS} (size : Z) : Prop :=
  size <= ZEND_MM_MAX_LARGE_SIZE \/ size + 2 * ZEND_MM_CHUNK_SIZE <= os_base \/ 2 ^ 47 <= size.

(** ** Blocks *)

Definition bin_size (b : Z) : Z := default 0 (zget bin_data_size b).
Definition bin_count (b : Z) : Z := default 0 (zget bin_elements b).

Definition run_span (a : Z) (r : run) : Z * Z := (a + ZEND_MM_PAGE_SIZE * r_start r, ZEND_MM_PAGE_SIZE * r_count r).

(** The slots of bin [b] in a run of the chunk at [a]. *)
Definition run_elems (a b : Z) (r : run) : list Z :=
  match r_kind r with
  | Small b' => if b' =? b then (fun k => a + ZEND_MM_PAGE_SIZE * r_start r + k * bin_size b) <$> seqZ 0 (bin_count b) else []
  | Large => []
  end.
Definition elems (ring : list (Z * list run)) (b : Z) : list Z := ring ≫= fun x => x.2 ≫= run_elems x.1 b.
Definition large_span (a : Z) (r : run) : list (Z * Z) := match r_kind r with Large => [run_span a r] | Small _ => [] end.
Definition large_blocks (ring : list (Z * list run)) : list (Z * Z) := ring ≫= fun x => x.2 ≫= large_span x.1.

Record view : Type := View {
  g_ring : list (Z * list run);   (* the chunks from the main chunk on, with their runs *)
  g_cached : list Z;              (* the cached chunks *)
  g_free : Z -> list Z;           (* the free list of each bin *)
  g_used : Z -> list Z;           (* the small blocks of each bin *)
  g_huge : list (Z * Z);          (* mappings that are not chunks *)
  g_extra : Z;                    (* the part of the sizes that is not blocks and chunks *)
  g_rextra : Z;
}.

Definition chunks_of (G : view) : list Z := (g_ring G).*1 ++ g_cached G.
Definition small_blocks (used : Z -> list Z) : list (Z * Z) :=
  seqZ 0 30 ≫= fun b => (fun p => (p, bin_size b)) <$> used b.
(** The blocks of pages and slots that are in use. *)
Definition blocks (G : view) : list (Z * Z) := large_blocks (g_ring G) ++ small_blocks (g_used G).
Definition total (l : list (Z * Z)) : Z := foldr (fun x acc => x.2 + acc) 0 l.

Definition chunk_addr (a : Z) : Prop := 0 < a /\ a mod ZEND_MM_CHUNK_SIZE = 0 /\ a + ZEND_MM_CHUNK_SIZE <= 2 ^ 47.

Definition ring_links (cs : gmap Z zend_mm_chunk) (main : Z) (l : list Z) : Prop :=
  match l with
  | [] => False
  | a :: l => a = main /\ dpath cs a l a
  end.

Section Inv.
Context {OS : Os} {L : OsLaws OS}.

Record heap_ok (cnt : Z -> Z -> Z) (h : zend_mm_heap) (cs : gmap Z zend_mm_chunk) (m : gmap Z Z) (sys : os) (G : view) : Prop := {
  hk_ring : ring_links cs (mm_main_chunk h) (g_ring G).*1;
  hk_nodup : NoDup (chunks_of G);
  hk_addr : forall a, a ∈ chunks_of G -> chunk_addr a /\ forall k, a <= k < a + ZEND_MM_CHUNK_SIZE -> os_mapped sys k;
  hk_chunks : forall a rs, (a, rs) ∈ g_ring G ->
    exists c, cs !! a = Some c /\ ch_heap c = heap_addr h /\ chunk_ok (cnt a) c rs;
  hk_cached : cached_list cs (mm_cached_chunks h) (g_cached G);
  hk_slots : zlen (mm_free_slot h) = 30;
  hk_chain : forall b, 0 <= b < 30 -> exists p, zget (mm_free_slot h) b = Some p /\ chain m p (g_free G b);
  hk_perm : forall b, 0 <= b < 30 -> g_free G b ++ g_used G b ≡ₚ elems (g_ring G) b;
  hk_huge : apart (g_huge G);
  hk_huge_addr : forall p n, (p, n) ∈ g_huge G ->
    0 < n /\ 0 < p /\ p mod ZEND_MM_CHUNK_SIZE = 0 /\ p + n <= 2 ^ 47 /\ forall k, p <= k < p + n -> os_mapped sys k;
  hk_huge_chunks : forall x a, x ∈ g_huge G -> a ∈ chunks_of G -> apart2 x (a, ZEND_MM_CHUNK_SIZE);
  hk_counts : mm_chunks_count h = zlen (g_ring G) /\ mm_cached_chunks_count h = zlen (g_cached G);
  hk_size : mm_size h = u64 (total (blocks G) + g_extra G);
  hk_real : mm_real_size h = u64 (ZEND_MM_CHUNK_SIZE * zlen (chunks_of G) + g_rextra G);
}.

Implicit Types (cnt : Z -> Z -> Z) (h : zend_mm_heap) (cs : gmap Z zend_mm_chunk) (m : gmap Z Z) (sys : os) (G : view).

(** ** Geometry *)

Lemma ring_in_chunks G a rs : (a, rs) ∈ g_ring G -> a ∈ chunks_of G.
Proof. intros H. apply elem_of_app. left. apply list_elem_of_fmap. by exists (a, rs). Qed.

Lemma elem_of_elems ring b p : p ∈ elems ring b <->
  exists a rs r k, (a, rs) ∈ ring /\ r ∈ rs /\ r_kind r = Small b /\ 0 <= k < bin_count b /\
  p = a + ZEND_MM_PAGE_SIZE * r_start r + k * bin_size b.
Proof.
  unfold elems. rewrite list_elem_of_bind. setoid_rewrite list_elem_of_bind. split.
  - intros ([a rs] & (r & Hp & Hr) & Hin). cbn in *. unfold run_elems in Hp. destruct (r_kind r) as [|b'] eqn:Ek; [by apply elem_of_nil in Hp|].
    destruct (Z.eqb_spec b' b) as [->|]; [|by apply elem_of_nil in Hp]. apply list_elem_of_fmap in Hp as (k & -> & Hk%elem_of_seqZ).
    exists a, rs, r, k. split_and!; done || lia.
  - intros (a & rs & r & k & Hin & Hr & Ek & Hk & ->). exists (a, rs). split; [|done]. exists r. split; [|done]. unfold run_elems.
    rewrite Ek, Z.eqb_refl. apply list_elem_of_fmap. exists k. split; [done|]. apply elem_of_seqZ. lia.
Qed.

Lemma bin_facts b : 0 <= b < 30 -> exists count, zget bin_data_size b = Some (bin_size b) /\ zget bin_elements b = Some (bin_count b) /\
  zget bin_pages b = Some count /\ 8 <= bin_size b /\ bin_size b mod 8 = 0 /\ 4 <= bin_count b <= 512 /\ 1 <= count <= 7 /\
  bin_size b * bin_count b <= count * 4096.
Proof.
  intros Hb. destruct (bin_table b Hb) as (size & elements & count & H1 & H2 & H3 & ?). exists count. unfold bin_size, bin_count.
  rewrite H1, H2. cbn. split_and!; try done; lia.
Qed.

Lemma ring_unique cnt h cs m sys G a rs rs' : heap_ok cnt h cs m sys G -> (a, rs) ∈ g_ring G -> (a, rs') ∈ g_ring G -> rs = rs'.
Proof.
  intros Hok [i Hi]%list_elem_of_lookup [j Hj]%list_elem_of_lookup.
  pose proof (hk_nodup _ _ _ _ _ _ Hok) as Hn. apply NoDup_app in Hn as [Hn _].
  assert (i = j) as ->; [|congruence]. apply (NoDup_lookup _ i j a Hn); by rewrite list_lookup_fmap, ?Hi, ?Hj.
Qed.

(** A run of a chunk of the ring: it lies within the chunk, after the header. *)
Lemma run_in_chunk cnt h cs m sys G a rs r : heap_ok cnt h cs m sys G -> (a, rs) ∈ g_ring G -> r ∈ rs ->
  chunk_addr a /\ 1 <= r_start r /\ 0 < r_count r /\ r_start r + r_count r <= 512.
Proof.
  intros Hok Hin Hr. destruct (hk_chunks _ _ _ _ _ _ Hok a rs Hin) as (c & _ & _ & Hc).
  destruct (ck_runs _ _ _ Hc r Hr) as (? & ? & ? & _). split; [|lia]. by apply (hk_addr _ _ _ _ _ _ Hok), (ring_in_chunks G a rs).
Qed.

Lemma chunks_apart a a' : a mod ZEND_MM_CHUNK_SIZE = 0 -> a' mod ZEND_MM_CHUNK_SIZE = 0 -> a <> a' ->
  a + ZEND_MM_CHUNK_SIZE <= a' \/ a' + ZEND_MM_CHUNK_SIZE <= a.
Proof. unfold ZEND_MM_CHUNK_SIZE. intros. dlia. Qed.

Lemma spans_apart cnt h cs m sys G a rs r a' rs' r' : heap_ok cnt h cs m sys G ->
  (a, rs) ∈ g_ring G -> r ∈ rs -> (a', rs') ∈ g_ring G -> r' ∈ rs' -> a <> a' \/ r <> r' ->
  apart2 (run_span a r) (run_span a' r').
Proof.
  intros Hok H1 Hr H2 Hr' Hne. destruct (run_in_chunk _ _ _ _ _ _ _ _ _ Hok H1 Hr) as (Ha & ? & ? & ?).
  destruct (run_in_chunk _ _ _ _ _ _ _ _ _ Hok H2 Hr') as (Ha' & ? & ? & ?). destruct Ha as (_ & Ha & _), Ha' as (_ & Ha' & _).
  unfold apart2, run_span, ZEND_MM_PAGE_SIZE. cbn [fst snd]. destruct (Z.eq_dec a a') as [<-|Hnea].
  - rewrite (ring_unique _ _ _ _ _ _ _ _ _ Hok H2 H1) in Hr'. destruct (hk_chunks _ _ _ _ _ _ Hok a rs H1) as (c & _ & _ & Hc).
    destruct Hne as [|Hne]; [done|].
    destruct (Z_lt_le_dec (r_start r) (r_start r' + r_count r')); [|lia].
    destruct (Z_lt_le_dec (r_start r') (r_start r + r_count r)); [|lia].
    destruct Hne. apply (runs_disjoint _ _ _ r r' (Z.max (r_start r) (r_start r')) Hc); done || lia.
  - pose proof (chunks_apart a a' Ha Ha' Hnea) as Hd. unfold ZEND_MM_CHUNK_SIZE in Hd. lia.
Qed.

(** A slot lies in the span of its run. *)
Lemma elem_span b a r k : 0 <= b < 30 -> zget bin_pages b = Some (r_count r) -> 0 <= k < bin_count b ->
  let p := a + ZEND_MM_PAGE_SIZE * r_start r + k * bin_size b in
  (run_span a r).1 <= p /\ p + bin_size b <= (run_span a r).1 + (run_span a r).2.
Proof.
  intros Hb Hc Hk. destruct (bin_facts b Hb) as (count & _ & _ & Hc' & ? & _ & ? & ? & ?). assert (count = r_count r) as -> by congruence.
  cbn. unfold ZEND_MM_PAGE_SIZE. nia.
Qed.

Lemma small_run cnt h cs m sys G a rs r b : heap_ok cnt h cs m sys G -> (a, rs) ∈ g_ring G -> r ∈ rs -> r_kind r = Small b ->
  0 <= b < 30 /\ zget bin_pages b = Some (r_count r).
Proof.
  intros Hok Hin Hr Hk. destruct (hk_chunks _ _ _ _ _ _ Hok a rs Hin) as (c & _ & _ & Hc).
  destruct (ck_runs _ _ _ Hc r Hr) as (_ & _ & _ & Hm). unfold run_in_map in Hm. rewrite Hk in Hm. destruct Hm as [Hm _].
  split; [by eapply bin_pages_range|done].
Qed.

Lemma elems_apart cnt h cs m sys G b p b' q : heap_ok cnt h cs m sys G -> p ∈ elems (g_ring G) b -> q ∈ elems (g_ring G) b' ->
  p <> q \/ b <> b' -> apart2 (p, bin_size b) (q, bin_size b').
Proof.
  intros Hok (a & rs & r & k & Hin & Hr & Hk & Hkr & ->)%elem_of_elems (a' & rs' & r' & k' & Hin' & Hr' & Hk' & Hkr' & ->)%elem_of_elems Hne.
  destruct (small_run _ _ _ _ _ _ _ _ _ _ Hok Hin Hr Hk) as [Hb Hc]. destruct (small_run _ _ _ _ _ _ _ _ _ _ Hok Hin' Hr' Hk') as [Hb' Hc'].
  pose proof (elem_span b a r k Hb Hc Hkr) as Hs. pose proof (elem_span b' a' r' k' Hb' Hc' Hkr') as Hs'.
  destruct (decide (a = a' /\ r = r')) as [[<- <-]|Hne2].
  - assert (b = b') as <- by congruence. destruct (bin_facts b Hb) as (_ & _ & _ & _ & ? & _). unfold apart2. cbn.
    destruct (Z.lt_trichotomy k k') as [|[->|]]; [left; nia|naive_solver|right; nia].
  - pose proof (spans_apart _ _ _ _ _ _ _ _ _ _ _ _ Hok Hin Hr Hin' Hr' ltac:(destruct (decide (a = a')); naive_solver)) as Ha.
    unfold apart2 in *. cbn [fst snd] in *. lia.
Qed.

Lemma elem_of_run_elems a b r p : p ∈ run_elems a b r <->
  r_kind r = Small b /\ exists k, 0 <= k < bin_count b /\ p = a + ZEND_MM_PAGE_SIZE * r_start r + k * bin_size b.
Proof.
  unfold run_elems. destruct (r_kind r) as [|b']; [split; [by intros ?%elem_of_nil|by intros [? _]]|].
  destruct (Z.eqb_spec b' b) as [->|Hne]; [|split; [by intros ?%elem_of_nil|intros [[= ->] _]; done]].
  rewrite list_elem_of_fmap. setoid_rewrite elem_of_seqZ. split.
  - intros (k & -> & Hk). split; [done|]. exists k. split; [lia|done].
  - intros (_ & k & Hk & ->). exists k. split; [done|lia].
Qed.

(** A slot has one home. *)
Lemma elem_home cnt h cs m sys G b a rs r a' rs' r' p : heap_ok cnt h cs m sys G ->
  (a, rs) ∈ g_ring G -> r ∈ rs -> (a', rs') ∈ g_ring G -> r' ∈ rs' -> p ∈ run_elems a b r -> p ∈ run_elems a' b r' -> a = a' /\ r = r'.
Proof.
  intros Hok Hin Hr Hin' Hr' (Ek & k & Hk & ->)%elem_of_run_elems (Ek' & k' & Hk' & E)%elem_of_run_elems.
  destruct (decide (a = a' /\ r = r')) as [|Hne]; [done|]. exfalso.
  destruct (small_run _ _ _ _ _ _ _ _ _ _ Hok Hin Hr Ek) as [Hb Hc]. destruct (small_run _ _ _ _ _ _ _ _ _ _ Hok Hin' Hr' Ek') as [_ Hc'].
  pose proof (elem_span b a r k Hb Hc ltac:(lia)) as Hs. pose proof (elem_span b a' r' k' Hb Hc' ltac:(lia)) as Hs'.
  assert (Hd : a <> a' \/ r <> r') by (destruct (decide (a = a')); naive_solver).
  pose proof (spans_apart _ _ _ _ _ _ _ _ _ _ _ _ Hok Hin Hr Hin' Hr' Hd) as Ha.
  destruct (bin_facts b Hb) as (_ & _ & _ & _ & ? & _). unfold apart2 in Ha. cbv zeta in *. lia.
Qed.

Lemma ring_fst_nodup cnt h cs m sys G : heap_ok cnt h cs m sys G -> NoDup (g_ring G).
Proof.
  intros Hok. apply NoDup_fmap_1 with (f := fst). pose proof (hk_nodup _ _ _ _ _ _ Hok) as Hn. by apply NoDup_app in Hn as [? _].
Qed.

Lemma elems_nodup cnt h cs m sys G b : heap_ok cnt h cs m sys G -> NoDup (elems (g_ring G) b).
Proof.
  intros Hok. unfold elems. apply NoDup_bind.
  - intros [a rs] [a' rs'] p Hin Hin' (r & Hp & Hr)%list_elem_of_bind (r' & Hp' & Hr')%list_elem_of_bind. cbn in *.
    destruct (elem_home _ _ _ _ _ _ _ _ _ _ _ _ _ _ Hok Hin Hr Hin' Hr' Hp Hp') as [<- _].
    by rewrite (ring_unique _ _ _ _ _ _ _ _ _ Hok Hin Hin').
  - intros [a rs] Hin. cbn. destruct (hk_chunks _ _ _ _ _ _ Hok a rs Hin) as (c & _ & _ & Hc). apply NoDup_bind.
    + intros r r' p Hr Hr' Hp Hp'. by destruct (elem_home _ _ _ _ _ _ _ _ _ _ _ _ _ _ Hok Hin Hr Hin Hr' Hp Hp').
    + intros r Hr. unfold run_elems. destruct (r_kind r) as [|b1] eqn:Ek; [constructor|]. destruct (Z.eqb_spec b1 b) as [->|]; [|constructor].
      destruct (small_run _ _ _ _ _ _ _ _ _ _ Hok Hin Hr Ek) as [Hb _]. destruct (bin_facts b Hb) as (_ & _ & _ & _ & ? & _).
      apply NoDup_fmap_2; [intros k k' E; cbv beta in E; apply (Z.mul_reg_r _ _ (bin_size b)); lia|apply NoDup_seqZ].
    + by eapply nodup_runs.
  - by eapply ring_fst_nodup.
Qed.

Lemma elem_of_large ring x : x ∈ large_blocks ring <->
  exists a rs r, (a, rs) ∈ ring /\ r ∈ rs /\ r_kind r = Large /\ x = run_span a r.
Proof.
  unfold large_blocks. rewrite list_elem_of_bind. setoid_rewrite list_elem_of_bind. unfold large_span. split.
  - intros ([a rs] & (r & Hx & Hr) & Hin). cbn in *. destruct (r_kind r) eqn:Ek; [|by apply elem_of_nil in Hx].
    apply list_elem_of_singleton in Hx as ->. eauto 10.
  - intros (a & rs & r & Hin & Hr & Ek & ->). exists (a, rs). split; [|done]. exists r. split; [|done]. rewrite Ek. by apply list_elem_of_singleton.
Qed.

Lemma elem_of_small used x : x ∈ small_blocks used <-> exists b p, 0 <= b < 30 /\ p ∈ used b /\ x = (p, bin_size b).
Proof.
  unfold small_blocks. rewrite list_elem_of_bind. split.
  - intros (b & (p & -> & Hp)%list_elem_of_fmap & Hb%elem_of_seqZ). exists b, p. split; [lia|done].
  - intros (b & p & Hb & Hp & ->). exists b. split; [apply list_elem_of_fmap; by exists p|apply elem_of_seqZ; lia].
Qed.

Lemma used_elem cnt h cs m sys G b p : heap_ok cnt h cs m sys G -> 0 <= b < 30 -> p ∈ g_used G b -> p ∈ elems (g_ring G) b.
Proof. intros Hok Hb Hp. rewrite <- (hk_perm _ _ _ _ _ _ Hok b Hb). apply elem_of_app. by right. Qed.
Lemma free_elem cnt h cs m sys G b p : heap_ok cnt h cs m sys G -> 0 <= b < 30 -> p ∈ g_free G b -> p ∈ elems (g_ring G) b.
Proof. intros Hok Hb Hp. rewrite <- (hk_perm _ _ _ _ _ _ Hok b Hb). apply elem_of_app. by left. Qed.

Lemma slots_nodup cnt h cs m sys G b : heap_ok cnt h cs m sys G -> 0 <= b < 30 -> NoDup (g_free G b ++ g_used G b).
Proof. intros Hok Hb. rewrite (hk_perm _ _ _ _ _ _ Hok b Hb). by eapply elems_nodup. Qed.

(** A slot and a large block. *)
Lemma elem_large_apart cnt h cs m sys G b p x : heap_ok cnt h cs m sys G -> p ∈ elems (g_ring G) b -> x ∈ large_blocks (g_ring G) ->
  apart2 (p, bin_size b) x.
Proof.
  intros Hok (a & rs & r & k & Hin & Hr & Hk & Hkr & ->)%elem_of_elems (a' & rs' & r' & Hin' & Hr' & Hk' & ->)%elem_of_large.
  destruct (small_run _ _ _ _ _ _ _ _ _ _ Hok Hin Hr Hk) as [Hb Hc]. pose proof (elem_span b a r k Hb Hc Hkr) as Hs.
  assert (r <> r') by congruence. pose proof (spans_apart _ _ _ _ _ _ _ _ _ _ _ _ Hok Hin Hr Hin' Hr' ltac:(by right)) as Ha.
  unfold apart2 in *. cbn [fst snd] in *. lia.
Qed.

(** A slot that is not in use shares no byte with a block. *)
Lemma slot_block_apart cnt h cs m sys G b p x : heap_ok cnt h cs m sys G -> p ∈ elems (g_ring G) b -> p ∉ g_used G b -> x ∈ blocks G ->
  apart2 (p, bin_size b) x.
Proof.
  intros Hok Hp Hn [Hx|(b' & q & Hb' & Hq & ->)%elem_of_small]%elem_of_app; [by eapply elem_large_apart|].
  eapply elems_apart; [done|done|by eapply used_elem|]. destruct (decide (p = q)) as [->|]; [|by left]. right. by intros <-.
Qed.

Lemma free_not_used cnt h cs m sys G b p : heap_ok cnt h cs m sys G -> 0 <= b < 30 -> p ∈ g_free G b -> p ∉ g_used G b.
Proof. intros Hok Hb Hp Hu. pose proof (slots_nodup _ _ _ _ _ _ b Hok Hb) as Hn. apply NoDup_app in Hn as (_ & Hn & _). by apply (Hn p). Qed.

(** Blocks do not overlap. *)
Lemma apart_pairwise (l : list (Z * Z)) : NoDup l -> (forall x y, x ∈ l -> y ∈ l -> x <> y -> apart2 x y) -> apart l.
Proof.
  induction 1 as [|x l Hx Hn IH]; intros H; cbn; [done|]. split.
  - apply Forall_forall. intros y Hy. apply H; [by left|by right|]. by intros ->.
  - apply IH. intros; apply H; [by right..|done].
Qed.

Lemma large_nodup cnt h cs m sys G : heap_ok cnt h cs m sys G -> NoDup (large_blocks (g_ring G)).
Proof.
  intros Hok. unfold large_blocks.
  assert (Hsp : forall a rs r a' rs' r', (a, rs) ∈ g_ring G -> r ∈ rs -> (a', rs') ∈ g_ring G -> r' ∈ rs' ->
            run_span a r = run_span a' r' -> a = a' /\ r = r').
  { intros a rs r a' rs' r' Hin Hr Hin' Hr' E. destruct (decide (a = a' /\ r = r')) as [|Hne]; [done|]. exfalso.
    pose proof (spans_apart _ _ _ _ _ _ _ _ _ _ _ _ Hok Hin Hr Hin' Hr' ltac:(destruct (decide (a = a')); naive_solver)) as Ha.
    rewrite <- E in Ha. destruct (run_in_chunk _ _ _ _ _ _ _ _ _ Hok Hin Hr) as (_ & _ & ? & _).
    unfold apart2, run_span, ZEND_MM_PAGE_SIZE in Ha. cbn in Ha. lia. }
  assert (Hls : forall a r x, x ∈ large_span a r -> x = run_span a r).
  { intros a r x. unfold large_span. destruct (r_kind r); [by intros ?%list_elem_of_singleton|by intros ?%elem_of_nil]. }
  apply NoDup_bind.
  - intros [a rs] [a' rs'] x Hin Hin' (r & Hx & Hr)%list_elem_of_bind (r' & Hx' & Hr')%list_elem_of_bind. cbn in *.
    apply Hls in Hx as ->, Hx'. destruct (Hsp _ _ _ _ _ _ Hin Hr Hin' Hr' Hx') as [<- _].
    by rewrite (ring_unique _ _ _ _ _ _ _ _ _ Hok Hin Hin').
  - intros [a rs] Hin. cbn. destruct (hk_chunks _ _ _ _ _ _ Hok a rs Hin) as (c & _ & _ & Hc). apply NoDup_bind.
    + intros r r' x Hr Hr' Hx Hx'. apply Hls in Hx as ->, Hx'. by destruct (Hsp _ _ _ _ _ _ Hin Hr Hin Hr' Hx').
    + intros r _. unfold large_span. destruct (r_kind r); [apply NoDup_singleton|constructor].
    + by eapply nodup_runs.
  - by eapply ring_fst_nodup.
Qed.

Lemma small_nodup cnt h cs m sys G : heap_ok cnt h cs m sys G -> NoDup (small_blocks (g_used G)).
Proof.
  intros Hok. unfold small_blocks. apply NoDup_bind.
  - intros b b' x Hb%elem_of_seqZ Hb'%elem_of_seqZ (p & -> & Hp)%list_elem_of_fmap (q & [= <- E] & Hq)%list_elem_of_fmap.
    destruct (Z.eq_dec b b') as [|Hne]; [done|]. exfalso.
    pose proof (elems_apart _ _ _ _ _ _ b p b' p Hok ltac:(eapply used_elem; [done|lia|done]) ltac:(eapply used_elem; [done|lia|done]) ltac:(by right)) as Ha.
    destruct (bin_facts b ltac:(lia)) as (_ & _ & _ & _ & ? & _), (bin_facts b' ltac:(lia)) as (_ & _ & _ & _ & ? & _).
    unfold apart2 in Ha. cbn in Ha. lia.
  - intros b Hb%elem_of_seqZ. apply NoDup_fmap_2; [by intros ?? [=]|].
    pose proof (slots_nodup _ _ _ _ _ _ b Hok ltac:(lia)) as Hn. by apply NoDup_app in Hn as (_ & _ & ?).
  - apply NoDup_seqZ.
Qed.

Lemma blocks_apart cnt h cs m sys G : heap_ok cnt h cs m sys G -> apart (blocks G).
Proof.
  intros Hok. apply apart_app. split; [|split].
  - apply apart_pairwise; [by eapply large_nodup|].
    intros x y (a & rs & r & Hin & Hr & _ & ->)%elem_of_large (a' & rs' & r' & Hin' & Hr' & _ & ->)%elem_of_large Hne.
    eapply spans_apart; [done..|]. destruct (decide (a = a')) as [->|]; [|by left]. right. by intros ->.
  - apply apart_pairwise; [by eapply small_nodup|].
    intros x y (b & p & Hb & Hp & ->)%elem_of_small (b' & q & Hb' & Hq & ->)%elem_of_small Hne.
    eapply elems_apart; [done|by eapply used_elem|by eapply used_elem|].
    destruct (decide (p = q)) as [->|]; [|by left]. right. by intros ->.
  - intros x y Hx (b & p & Hb & Hp & ->)%elem_of_small. apply apart2_sym. eapply elem_large_apart; [done|by eapply used_elem|done].
Qed.

(** Where a block lies. *)
Lemma block_in_chunk cnt h cs m sys G x : heap_ok cnt h cs m sys G -> x ∈ blocks G ->
  exists a, a ∈ (g_ring G).*1 /\ a + ZEND_MM_PAGE_SIZE <= x.1 /\ x.1 + x.2 <= a + ZEND_MM_CHUNK_SIZE /\ 0 < x.2.
Proof.
  intros Hok [(a & rs & r & Hin & Hr & _ & ->)%elem_of_large|(b & p & Hb & Hp & ->)%elem_of_small]%elem_of_app.
  - exists a. split; [apply list_elem_of_fmap; by exists (a, rs)|]. destruct (run_in_chunk _ _ _ _ _ _ _ _ _ Hok Hin Hr) as (_ & ? & ? & ?).
    unfold run_span, ZEND_MM_PAGE_SIZE, ZEND_MM_CHUNK_SIZE. cbn. lia.
  - eapply used_elem in Hp; [|done|done]. apply elem_of_elems in Hp as (a & rs & r & k & Hin & Hr & Hk & Hkr & ->).
    exists a. split; [apply list_elem_of_fmap; by exists (a, rs)|]. destruct (run_in_chunk _ _ _ _ _ _ _ _ _ Hok Hin Hr) as (_ & ? & ? & ?).
    destruct (small_run _ _ _ _ _ _ _ _ _ _ Hok Hin Hr Hk) as [_ Hc]. pose proof (elem_span b a r k Hb Hc Hkr) as Hs.
    destruct (bin_facts b Hb) as (_ & _ & _ & _ & ? & _). unfold run_span, ZEND_MM_PAGE_SIZE, ZEND_MM_CHUNK_SIZE in *. cbn in *. lia.
Qed.
End Inv.
