(* ===== verification/MmHeap.v ===== *)
(** * Operations on the heap: chunks

    The rules by which the operations run, and how the steps on one chunk, on the
    ring and on the cache change what the heap represents. *)

From stdpp Require Import functions.
From S2P Require Import Prelude.
From S2P Require Import MmPageOps.
From S2P Require Import MmChunk.
From S2P Require Import MmHeapOps.
From S2P Require Import MmAllocOps.
From S2P Require Import MmHeapInv.

(** ** Addresses *)

Lemma aligned_offset_mod p : 0 <= p -> ZEND_MM_ALIGNED_OFFSET p ZEND_MM_CHUNK_SIZE = p mod ZEND_MM_CHUNK_SIZE.
Proof. intros Hp. unfold ZEND_MM_ALIGNED_OFFSET. change (ZEND_MM_CHUNK_SIZE - 1) with (Z.ones 21). by rewrite Z.land_ones by lia. Qed.

Lemma aligned_base_sub p : 0 <= p -> ZEND_MM_ALIGNED_BASE p ZEND_MM_CHUNK_SIZE = p - p mod ZEND_MM_CHUNK_SIZE.
Proof.
  intros Hp. unfold ZEND_MM_ALIGNED_BASE. change (ZEND_MM_CHUNK_SIZE - 1) with (Z.ones 21).
  change ZEND_MM_CHUNK_SIZE with (2 ^ 21). rewrite <- Z.ldiff_land, Z.ldiff_ones_r by lia.
  rewrite Z.shiftl_mul_pow2, Z.shiftr_div_pow2 by lia. pose proof (Z.div_mod p (2 ^ 21)). lia.
Qed.

Lemma page_offset_mod p : 0 <= p -> ZEND_MM_ALIGNED_OFFSET p ZEND_MM_PAGE_SIZE = p mod ZEND_MM_PAGE_SIZE.
Proof. intros Hp. unfold ZEND_MM_ALIGNED_OFFSET. change (ZEND_MM_PAGE_SIZE - 1) with (Z.ones 12). by rewrite Z.land_ones by lia. Qed.

(** The chunk and the page of an address. *)
Lemma address_in_chunk a p : chunk_addr a -> a <= p < a + ZEND_MM_CHUNK_SIZE ->
  ZEND_MM_ALIGNED_BASE p ZEND_MM_CHUNK_SIZE = a /\ ZEND_MM_ALIGNED_OFFSET p ZEND_MM_CHUNK_SIZE = p - a.
Proof.
  intros (Ha & Hm & _) Hp. rewrite aligned_base_sub, aligned_offset_mod by lia.
  assert (p mod ZEND_MM_CHUNK_SIZE = p - a) as ->; [|lia]. unfold ZEND_MM_CHUNK_SIZE in *. dlia.
Qed.

Section Run.
Context {OS : Os} {L : OsLaws OS}.
Implicit Types (h : zend_mm_heap) (cs : gmap Z zend_mm_chunk) (m : gmap Z Z) (sys : os) (G : view) (s : mstate).

(** ** Running an operation

    [wp op s Q E]: the operation has no undefined behaviour; its value and the new
    state satisfy [Q], or it stops with an error and [E] holds. *)

Definition wp {A} (op : MM A) (s : mstate) (Q : A -> mstate -> Prop) (E : mm_error -> mstate -> Prop) : Prop :=
  match op s with
  | MOk a s => Q a s
  | MError e s => E e s
  | MUb => False
  end.

Lemma wp_bind {A B} (op : MM A) (f : A -> MM B) s Q E : wp op s (fun a s => wp (f a) s Q E) E -> wp (op ≫= f) s Q E.
Proof. unfold wp, mbind, MM_bind. by destruct (op s). Qed.
Lemma wp_ret {A} (a : A) s (Q : A -> mstate -> Prop) E : Q a s -> wp (mret a) s Q E.
Proof. done. Qed.
Lemma wp_conseq {A} (op : MM A) s (P Q : A -> mstate -> Prop) (E F : mm_error -> mstate -> Prop) : wp op s P E ->
  (forall a s, P a s -> Q a s) -> (forall e s, E e s -> F e s) -> wp op s Q F.
Proof. unfold wp. destruct (op s); auto. Qed.
Lemma wp_mono {A} (op : MM A) s (P Q : A -> mstate -> Prop) E : wp op s P E -> (forall a s, P a s -> Q a s) -> wp op s Q E.
Proof. intros H HPQ. by eapply wp_conseq. Qed.
Lemma wp_get_heap h cs m sys Q E : Q h (mkState (Some h) cs m sys) -> wp get_heap (mkState (Some h) cs m sys) Q E.
Proof. done. Qed.
Lemma wp_upd_heap f h cs m sys (Q : unit -> mstate -> Prop) E :
  Q tt (mkState (Some (f h)) cs m sys) -> wp (upd_heap f) (mkState (Some h) cs m sys) Q E.
Proof. done. Qed.
Lemma wp_get_chunk a c ho cs m sys Q E : cs !! a = Some c -> Q c (mkState ho cs m sys) -> wp (get_chunk a) (mkState ho cs m sys) Q E.
Proof. unfold wp, get_chunk. cbn. by intros ->. Qed.
Lemma wp_put_chunk a c c' ho cs m sys (Q : unit -> mstate -> Prop) E : cs !! a = Some c ->
  Q tt (mkState ho (<[a := c']> cs) m sys) -> wp (put_chunk a c') (mkState ho cs m sys) Q E.
Proof. unfold wp, put_chunk. cbn. by intros ->. Qed.
Lemma wp_upd_chunk a f c ho cs m sys (Q : unit -> mstate -> Prop) E : cs !! a = Some c ->
  Q tt (mkState ho (<[a := f c]> cs) m sys) -> wp (upd_chunk a f) (mkState ho cs m sys) Q E.
Proof. intros Hc HQ. unfold upd_chunk. apply wp_bind. eapply wp_get_chunk; [done|]. by eapply wp_put_chunk. Qed.
Lemma wp_lift {A} (r : res A) a s (Q : A -> mstate -> Prop) E : r = Ok a -> Q a s -> wp (lift r) s Q E.
Proof. by intros ->. Qed.
Lemma wp_guard b s (Q : unit -> mstate -> Prop) E : b = true -> Q tt s -> wp (guard_ b) s Q E.
Proof. by intros ->. Qed.
Lemma wp_load64 p v ho cs m sys Q E : word_at m p = Some v -> Q v (mkState ho cs m sys) -> wp (load64 p) (mkState ho cs m sys) Q E.
Proof. unfold wp, load64, word_at. cbn [st_mem]. destruct (load_bytes m p 8); [|done]. cbn. by intros [= ->]. Qed.
Lemma wp_store64 p v ho cs m sys (Q : unit -> mstate -> Prop) E :
  Q tt (mkState ho cs (store_bytes m p (bytes_of v)) sys) -> wp (store64 p v) (mkState ho cs m sys) Q E.
Proof. done. Qed.
Lemma wp_slot_fuel ho cs m sys Q E : Q (S (size m)) (mkState ho cs m sys) -> wp slot_fuel (mkState ho cs m sys) Q E.
Proof. done. Qed.
Lemma wp_chunk_fuel ho cs m sys Q E : Q (S (size cs)) (mkState ho cs m sys) -> wp chunk_fuel (mkState ho cs m sys) Q E.
Proof. done. Qed.
Lemma wp_gc_fuel ho cs m sys Q E : Q (S (512 * size cs)) (mkState ho cs m sys) -> wp gc_fuel (mkState ho cs m sys) Q E.
Proof. done. Qed.
Lemma wp_if {A} (b : bool) (x y : MM A) s Q E : (b = true -> wp x s Q E) -> (b = false -> wp y s Q E) -> wp (if b then x else y) s Q E.
Proof. destruct b; auto. Qed.

(** ** Changes of one chunk

    The runs of the chunk at [a] become [rs'], the bytes and the free lists change as
    the new view says; links and cache stay. *)

Definition with_ring (ring : list (Z * list run)) G : view :=
  View ring (g_cached G) (g_free G) (g_used G) (g_huge G) (g_extra G) (g_rextra G).
Definition with_slots (free used : Z -> list Z) G : view :=
  View (g_ring G) (g_cached G) free used (g_huge G) (g_extra G) (g_rextra G).
Definition with_extra (extra rextra : Z) G : view :=
  View (g_ring G) (g_cached G) (g_free G) (g_used G) (g_huge G) extra rextra.

(** Two heaps that differ in their free lists and sizes. *)
Definition same_links h h' : Prop :=
  mm_main_chunk h' = mm_main_chunk h /\ mm_cached_chunks h' = mm_cached_chunks h /\
  mm_chunks_count h' = mm_chunks_count h /\ mm_cached_chunks_count h' = mm_cached_chunks_count h.

Lemma same_links_refl h : same_links h h.
Proof. done. Qed.

Lemma chunk_in_ring_cached cnt h cs m sys G a rs a' : heap_ok cnt h cs m sys G -> (a, rs) ∈ g_ring G -> a' ∈ g_cached G -> a <> a'.
Proof.
  intros Hok Hin Hc ->. pose proof (hk_nodup _ _ _ _ _ _ Hok) as Hn. apply NoDup_app in Hn as (_ & Hn & _).
  apply (Hn a'); [|done]. apply list_elem_of_fmap. by exists (a', rs).
Qed.

Lemma ring_links_frame cs cs' main l : (forall a, a ∈ l -> ch_next <$> cs' !! a = ch_next <$> cs !! a) ->
  (forall a, a ∈ l -> ch_prev <$> cs' !! a = ch_prev <$> cs !! a) -> ring_links cs main l -> ring_links cs' main l.
Proof.
  intros Hn Hp. destruct l as [|a l]; [done|]. intros [-> H]. split; [done|]. eapply dpath_frame; [done| |done].
  intros b [Hb|Hb%list_elem_of_singleton]%elem_of_app; apply Hp; [by right|subst; by left].
Qed.

Lemma same_place_links cs a c c' b : cs !! a = Some c -> same_place c c' ->
  ch_next <$> <[a := c']> cs !! b = ch_next <$> cs !! b /\ ch_prev <$> <[a := c']> cs !! b = ch_prev <$> cs !! b.
Proof.
  intros Hc (_ & Hn & Hp & _). destruct (decide (a = b)) as [<-|Hne]; [|by rewrite lookup_insert_ne].
  rewrite lookup_insert_eq, Hc. cbn. by rewrite Hn, Hp.
Qed.

Lemma ok_update cnt cnt' h h' cs m m' sys G l1 a rs l2 c c' rs' free' used' extra' : heap_ok cnt h cs m sys G ->
  g_ring G = l1 ++ (a, rs) :: l2 -> cs !! a = Some c -> same_place c c' -> chunk_ok (cnt' a) c' rs' ->
  (forall a', a' <> a -> cnt' a' = cnt a') -> same_links h h' -> mm_real_size h' = mm_real_size h ->
  let G' := View (l1 ++ (a, rs') :: l2) (g_cached G) free' used' (g_huge G) extra' (g_rextra G) in
  zlen (mm_free_slot h') = 30 ->
  (forall b, 0 <= b < 30 -> exists p, zget (mm_free_slot h') b = Some p /\ chain m' p (free' b)) ->
  (forall b, 0 <= b < 30 -> free' b ++ used' b ≡ₚ elems (g_ring G') b) ->
  mm_size h' = u64 (total (blocks G') + extra') ->
  heap_ok cnt' h' (<[a := c']> cs) m' sys G'.
Proof.
  intros Hok Hring Hc Hsp Hc' Hcnt (Hm & Hca & Hcc & Hccc) Hreal G' Hsl Hch Hperm Hsize.
  assert (Hfst : (g_ring G').*1 = (g_ring G).*1) by (cbn; by rewrite Hring, !fmap_app).
  assert (Hcof : chunks_of G' = chunks_of G) by (unfold chunks_of; by rewrite Hfst).
  assert (Hin : (a, rs) ∈ g_ring G) by (rewrite Hring; apply elem_of_app; right; by left).
  pose proof (hk_chunks _ _ _ _ _ _ Hok) as Hchs. destruct (Hchs a rs Hin) as (c0 & Hc0 & Hheap & _).
  assert (c0 = c) as -> by congruence.
  split; try done; rewrite ?Hcof, ?Hfst.
  - rewrite Hm. eapply ring_links_frame; [| |apply (hk_ring _ _ _ _ _ _ Hok)]; intros b _; by eapply same_place_links.
  - apply (hk_nodup _ _ _ _ _ _ Hok).
  - apply (hk_addr _ _ _ _ _ _ Hok).
  - intros a1 rs1 Hin1. cbn [g_ring G'] in Hin1. unfold heap_addr. rewrite Hm. fold (heap_addr h). destruct (decide (a1 = a)) as [->|Hne].
    + exists c'. rewrite lookup_insert_eq. split; [done|]. split; [by rewrite (proj1 Hsp)|].
      assert (rs1 = rs') as ->; [|done].
      pose proof (hk_nodup _ _ _ _ _ _ Hok) as Hn. apply NoDup_app in Hn as [Hn _].
      rewrite Hring, fmap_app, fmap_cons in Hn. apply NoDup_app in Hn as (_ & Hn1 & Hn2%NoDup_cons). cbn in Hn1, Hn2.
      apply elem_of_app in Hin1 as [Hi|[[= ->]|Hi]%elem_of_cons].
      * destruct (Hn1 a); [apply list_elem_of_fmap; by exists (a, rs1)|by left].
      * done.
      * destruct Hn2 as [Hn2 _]. destruct Hn2. apply list_elem_of_fmap. by exists (a, rs1).
    + rewrite lookup_insert_ne by done. rewrite Hcnt by done. apply Hchs. rewrite Hring.
      apply elem_of_app in Hin1 as [Hi|[[= -> ->]|Hi]%elem_of_cons]; [apply elem_of_app; by left|done|apply elem_of_app; right; by right].
  - rewrite Hca. eapply cached_list_frame; [|apply (hk_cached _ _ _ _ _ _ Hok)]. intros a' Ha'. apply lookup_insert_ne.
    by apply (chunk_in_ring_cached cnt h cs m sys G a rs a').
  - apply (hk_huge _ _ _ _ _ _ Hok).
  - apply (hk_huge_addr _ _ _ _ _ _ Hok).
  - apply (hk_huge_chunks _ _ _ _ _ _ Hok).
  - rewrite Hcc, Hccc. destruct (hk_counts _ _ _ _ _ _ Hok) as [-> ->]. split; [|done]. cbn. rewrite Hring, !zlen_app, !zlen_cons. done.
  - rewrite Hreal. apply (hk_real _ _ _ _ _ _ Hok).
Qed.

(** Only the header of one chunk changes. *)
Lemma ok_chunk cnt cnt' h cs m sys G a rs c c' : heap_ok cnt h cs m sys G -> (a, rs) ∈ g_ring G -> cs !! a = Some c ->
  same_place c c' -> chunk_ok (cnt' a) c' rs -> (forall a', a' <> a -> cnt' a' = cnt a') -> heap_ok cnt' h (<[a := c']> cs) m sys G.
Proof.
  intros Hok (l1 & l2 & Hring)%list_elem_of_split Hc Hsp Hc' Hcnt.
  pose proof (ok_update cnt cnt' h h cs m m sys G l1 a rs l2 c c' rs (g_free G) (g_used G) (g_extra G) Hok Hring Hc Hsp Hc' Hcnt) as H.
  rewrite <- Hring in H. cbn zeta in H. destruct G as [ring cached free used huge extra rextra]. cbn in *. apply H; try done.
  - apply (hk_slots _ _ _ _ _ _ Hok).
  - apply (hk_chain _ _ _ _ _ _ Hok).
  - apply (hk_perm _ _ _ _ _ _ Hok).
  - apply (hk_size _ _ _ _ _ _ Hok).
Qed.

(** Only sizes change. *)
Lemma ok_sizes cnt h h' cs m sys G extra rextra : heap_ok cnt h cs m sys G -> same_links h h' -> mm_free_slot h' = mm_free_slot h ->
  mm_size h' = u64 (total (blocks G) + extra) -> mm_real_size h' = u64 (ZEND_MM_CHUNK_SIZE * zlen (chunks_of G) + rextra) ->
  heap_ok cnt h' cs m sys (with_extra extra rextra G).
Proof.
  intros [] (Hm & Hca & Hcc & Hccc) Hs Hsz Hr. split; unfold chunks_of, blocks, heap_addr in *; cbn; rewrite ?Hm, ?Hca, ?Hcc, ?Hccc, ?Hs; done.
Qed.

(** Other fields of the heap. *)
Lemma ok_same cnt h h' cs m sys G : heap_ok cnt h cs m sys G -> same_links h h' -> mm_free_slot h' = mm_free_slot h ->
  mm_size h' = mm_size h -> mm_real_size h' = mm_real_size h -> heap_ok cnt h' cs m sys G.
Proof.
  intros Hok Hl Hs Hsz Hr.
  pose proof (ok_sizes cnt h h' cs m sys G (g_extra G) (g_rextra G) Hok Hl Hs) as H. destruct G. apply H.
  - rewrite Hsz. apply (hk_size _ _ _ _ _ _ Hok).
  - rewrite Hr. apply (hk_real _ _ _ _ _ _ Hok).
Qed.

(** ** The walk over the ring *)

Lemma ring_size cnt h cs m sys G : heap_ok cnt h cs m sys G -> (length (g_ring G) <= size cs)%nat.
Proof.
  intros Hok. pose proof (hk_nodup _ _ _ _ _ _ Hok) as Hn. apply NoDup_app in Hn as [Hn _].
  rewrite <- (length_fmap fst). rewrite <- (size_list_to_set (C := gset Z)) by done. rewrite <- size_dom.
  apply subseteq_size. intros a Ha. apply elem_of_list_to_set in Ha. apply list_elem_of_fmap in Ha as ([a' rs] & -> & Hin).
  destruct (hk_chunks _ _ _ _ _ _ Hok a' rs Hin) as (c & Hc & _). apply elem_of_dom. by exists c.
Qed.

(** The successor of a chunk: the next one, or the main chunk at the end. *)
Lemma ring_next cnt h cs m sys G l1 a rs l2 : heap_ok cnt h cs m sys G -> g_ring G = l1 ++ (a, rs) :: l2 ->
  ch_next <$> cs !! a = Some (match l2 with [] => mm_main_chunk h | x :: _ => x.1 end) /\
  (l1 = [] <-> a = mm_main_chunk h).
Proof.
  intros Hok Hring. pose proof (hk_ring _ _ _ _ _ _ Hok) as Hl. pose proof (hk_nodup _ _ _ _ _ _ Hok) as Hn.
  apply NoDup_app in Hn as [Hn _]. rewrite Hring in Hl, Hn. rewrite fmap_app, fmap_cons in Hl, Hn.
  assert (Hd : exists x, dpath cs a l2.*1 x /\ x = mm_main_chunk h /\ (l1 = [] <-> a = x)).
  { destruct l1 as [|[x rx] l1]; cbn in Hl; destruct Hl as [-> Hl]; [by exists (mm_main_chunk h)|].
    apply dpath_app in Hl as [_ Hl]. exists (mm_main_chunk h). split; [done|]. split; [done|]. split; [done|]. intros ->.
    cbn in Hn. apply NoDup_cons in Hn as [Hn _]. destruct Hn. apply elem_of_app. right. by left. }
  destruct Hd as (x & Hd & -> & Hl1). split; [|done]. destruct l2 as [|[y ry] l2]; cbn in Hd; tauto.
Qed.
End Run.

(** Runs one primitive. *)
Ltac step :=
  match goal with
  | |- wp (_ ≫= _) _ _ _ => apply wp_bind; step
  | |- wp (mret _) _ _ _ => apply wp_ret
  | |- wp get_heap _ _ _ => apply wp_get_heap
  | |- wp (upd_heap _) _ _ _ => apply wp_upd_heap
  | |- wp (add_size _) _ _ _ => apply wp_upd_heap
  | |- wp (sub_size _) _ _ _ => apply wp_upd_heap
  | |- wp (add_real_size _) _ _ _ => apply wp_upd_heap
  | |- wp (sub_real_size _) _ _ _ => apply wp_upd_heap
  | |- wp slot_fuel _ _ _ => apply wp_slot_fuel
  | |- wp chunk_fuel _ _ _ => apply wp_chunk_fuel
  | |- wp gc_fuel _ _ _ => apply wp_gc_fuel
  | |- wp (store64 _ _) _ _ _ => apply wp_store64
  | |- wp (get_chunk _) _ _ _ => eapply wp_get_chunk
  | |- wp (put_chunk _ _) _ _ _ => eapply wp_put_chunk
  | |- wp (upd_chunk _ _) _ _ _ => eapply wp_upd_chunk
  | |- wp (lift _) _ _ _ => eapply wp_lift
  | |- wp (guard_ _) _ _ _ => apply wp_guard
  | |- wp (load64 _) _ _ _ => eapply wp_load64
  end.

(** The parts of the invariant, by name. *)
Ltac open_heap H := destruct H as [hk_ring0 hk_nodup0 hk_addr0 hk_chunks0 hk_cached0 hk_slots0 hk_chain0 hk_perm0 hk_huge0
  hk_huge_addr0 hk_huge_chunks0 hk_counts0 hk_size0 hk_real0].

Section Chunks.
Context {OS : Os} {L : OsLaws OS}.
Implicit Types (h : zend_mm_heap) (cs : gmap Z zend_mm_chunk) (m : gmap Z Z) (sys : os) (G : view) (s : mstate).

(** ** The search *)

(** Pages [p .. p + n) are free. *)
Definition free_at (rs : list run) (p n : Z) : Prop := 1 <= p /\ p + n <= 512 /\ forall k, p <= k < p + n -> k ∉ pages_of rs.

(** The first chunk of the ring that has room for [n] pages, or none. *)
Definition search_result_ok (cnt : Z -> Z -> Z) h cs G (n : Z) (r : option (Z * Z) * Z) : Prop :=
  match r.1 with
  | Some (a, p) => exists l1 rs l2 c, g_ring G = l1 ++ (a, rs) :: l2 /\ cs !! a = Some c /\ p <= ch_free_tail c /\ free_at rs p n /\
      (forall x q, x ∈ l1 -> ~ free_at x.2 q n) /\ (0 < r.2 -> a <> mm_main_chunk h)
  | None => forall x q, x ∈ g_ring G -> ~ free_at x.2 q n
  end.

Lemma search_chunks_ok fuel cnt h cs m sys G n l1 a rs l2 steps E : heap_ok cnt h cs m sys G ->
  g_ring G = l1 ++ (a, rs) :: l2 -> 0 < n <= 512 -> (length l2 < fuel)%nat -> 0 <= steps -> (0 < steps <-> l1 <> []) ->
  (forall x q, x ∈ l1 -> ~ free_at x.2 q n) ->
  wp (search_chunks fuel n a steps) (mkState (Some h) cs m sys)
    (fun r s => exists cs', s = mkState (Some h) cs' m sys /\ heap_ok cnt h cs' m sys G /\ search_result_ok cnt h cs' G n r) E.
Proof.
  revert cs l1 a rs l2 steps. induction fuel as [|fuel IH]; intros cs l1 a rs l2 steps Hok Hring Hn Hf Hst Hst1 Hno; [lia|].
  assert (Hin : (a, rs) ∈ g_ring G) by (rewrite Hring; apply elem_of_app; right; by left).
  destruct (hk_chunks _ _ _ _ _ _ Hok a rs Hin) as (c & Hc & Hheap & Hcok).
  destruct (best_fit_ok (cnt a) c rs n Hcok Hn) as (r & Hr & Hspec).
  destruct (ring_next _ _ _ _ _ _ _ _ _ _ Hok Hring) as [Hnext Hmain].
  assert (Hset : forall F, chunk_ok (cnt a) (set_tail F c) rs -> heap_ok cnt h (<[a := set_tail F c]> cs) m sys G).
  { intros F HF. by eapply ok_chunk. }
  cbn [search_chunks]. step; [done|]. step; [exact Hr|]. destruct r as [p F|F].
  - destruct Hspec as (Hp & Hpn & Hfree & HF & _). step; [done|]. apply wp_ret. eexists. split; [done|]. split; [by apply Hset|].
    exists l1, rs, l2, (set_tail F c). rewrite lookup_insert_eq. split; [done|]. split; [done|].
    split; [cbn; lia|]. split; [by split; [lia|]|]. split; [done|]. intros Hs%Hst1 Ha. by apply Hs, Hmain.
  - destruct Hspec as [Hhole HF]. step; [done|]. step. rewrite Hc in Hnext. cbn in Hnext. injection Hnext as Hnext. cbn [ch_next set_tail set_pages].
    assert (Hroom : forall q, ~ free_at rs q n).
    { intros q (Hq & Hqn & Hfree). destruct (hole_exists (cnt a) c rs q n Hcok Hq ltac:(lia) Hqn Hfree) as (x & y & Hxy & ? & ?).
      specialize (Hhole x y Hxy). lia. }
    assert (Hno' : forall x q, x ∈ l1 ++ [(a, rs)] -> ~ free_at x.2 q n).
    { intros x q [Hx| ->%list_elem_of_singleton]%elem_of_app; [by apply Hno|apply Hroom]. }
    assert (Hring' : g_ring G = (l1 ++ [(a, rs)]) ++ l2) by (by rewrite <- app_assoc).
    rewrite Hnext. destruct l2 as [|[a2 rs2] l2].
    + rewrite Z.eqb_refl. apply wp_ret. eexists. split; [done|]. split; [by apply Hset|]. unfold search_result_ok. cbn.
      rewrite Hring', app_nil_r. done.
    + cbn [fst]. destruct (Z.eqb_spec a2 (mm_main_chunk h)) as [E2|E2].
      { exfalso. destruct (ring_next _ _ _ _ _ _ _ _ _ _ Hok Hring') as [_ [_ Hm]]. specialize (Hm E2). by destruct l1. }
      apply (IH _ (l1 ++ [(a, rs)]) a2 rs2 l2); [by apply Hset|done|done|cbn in Hf; lia|lia| |done].
      split; [by destruct l1|lia].
Qed.

(** ** The ring *)

Fixpoint lst (x : Z) (l : list Z) : Z := match l with [] => x | a :: l => lst a l end.

Lemma lst_in x l : lst x l ∈ x :: l.
Proof. revert x. induction l as [|a l IH]; intros x; cbn; [by left|right; apply IH]. Qed.
Lemma lst_in_cons x a l : lst x (a :: l) ∈ a :: l.
Proof. apply (lst_in a l). Qed.

Lemma dpath_ends cs x l1 a l2 y : dpath cs x (l1 ++ a :: l2) y ->
  ch_prev <$> cs !! a = Some (lst x l1) /\ ch_next <$> cs !! a = Some (hd y l2).
Proof.
  intros [H1 H2]%dpath_app. split.
  - clear H2. revert x H1. induction l1 as [|b l1 IH]; intros x H1; cbn in *; [tauto|]. apply IH. tauto.
  - destruct l2; cbn in *; tauto.
Qed.

Lemma dpath_delete cs cs' x l1 a l2 y : dpath cs x (l1 ++ a :: l2) y -> NoDup (x :: l1 ++ a :: l2) -> y ∉ l1 ++ a :: l2 ->
  (forall b, b <> lst x l1 -> ch_next <$> cs' !! b = ch_next <$> cs !! b) -> ch_next <$> cs' !! lst x l1 = Some (hd y l2) ->
  (forall b, b <> hd y l2 -> ch_prev <$> cs' !! b = ch_prev <$> cs !! b) -> ch_prev <$> cs' !! hd y l2 = Some (lst x l1) ->
  dpath cs' x (l1 ++ l2) y.
Proof.
  revert x. induction l1 as [|c l1 IH]; intros x Hd Hn Hy Hnx Hnp Hpv Hpn.
  - cbn in *. destruct Hd as (_ & _ & Hd). apply NoDup_cons in Hn as [Hx Hn]. apply NoDup_cons in Hn as [Ha Hn].
    destruct l2 as [|n l2]; cbn in *; [done|]. split; [done|]. split; [done|]. destruct Hd as (_ & _ & Hd).
    apply NoDup_cons in Hn as [Hnl Hn]. eapply dpath_frame; [| |exact Hd]; intros b Hb; [apply Hnx|apply Hpv]; intros ->.
    + apply Hx. by right.
    + apply elem_of_app in Hb as [Hb| ->%list_elem_of_singleton]; [done|]. apply Hy. right. by left.
  - cbn [app dpath lst] in *. destruct Hd as (H1 & H2 & Hd). apply NoDup_cons in Hn as [Hx Hn].
    assert (Hin : lst c l1 ∈ c :: l1 ++ a :: l2) by (pose proof (lst_in c l1) as [->|]%elem_of_cons; [by left|right; apply elem_of_app; by left]).
    split; [rewrite Hnx; [done|by intros ->]|]. split; [|apply IH; try done; by intros ?; apply Hy; right].
    rewrite Hpv; [done|]. intros ->. destruct l2 as [|n l2]; cbn in *; [by apply Hy; left|].
    apply NoDup_cons in Hn as [Hn _]. apply Hn. apply elem_of_app. right. right. by left.
Qed.

Lemma dpath_insert cs cs' x l1 a l2 y : dpath cs x (l1 ++ l2) y -> NoDup (x :: l1 ++ l2) -> y ∉ l1 ++ l2 ->
  a ∉ x :: l1 ++ l2 -> a <> y ->
  (forall b, b <> lst x l1 -> b <> a -> ch_next <$> cs' !! b = ch_next <$> cs !! b) -> ch_next <$> cs' !! lst x l1 = Some a ->
  ch_next <$> cs' !! a = Some (hd y l2) ->
  (forall b, b <> hd y l2 -> b <> a -> ch_prev <$> cs' !! b = ch_prev <$> cs !! b) -> ch_prev <$> cs' !! hd y l2 = Some a ->
  ch_prev <$> cs' !! a = Some (lst x l1) ->
  dpath cs' x (l1 ++ a :: l2) y.
Proof.
  revert x. induction l1 as [|c l1 IH]; intros x Hd Hn Hy Ha Hay Hnx Hnp Hna Hpv Hpn Hpa.
  - cbn in *. split; [done|]. split; [done|]. apply NoDup_cons in Hn as [Hx Hn].
    destruct l2 as [|n l2]; cbn in *; [done|]. split; [done|]. split; [done|]. destruct Hd as (_ & _ & Hd).
    apply NoDup_cons in Hn as [Hnl Hn]. eapply dpath_frame; [| |exact Hd]; intros b Hb; [apply Hnx|apply Hpv]; intros ->.
    + done.
    + apply Ha. by right.
    + apply elem_of_app in Hb as [Hb| ->%list_elem_of_singleton]; [done|]. apply Hy. by left.
    + apply elem_of_app in Hb as [Hb| ->%list_elem_of_singleton]; [apply Ha; right; by right|done].
  - cbn [app dpath lst] in *. destruct Hd as (H1 & H2 & Hd). apply NoDup_cons in Hn as [Hx Hn].
    assert (Hin : lst c l1 ∈ c :: l1 ++ l2) by (pose proof (lst_in c l1) as [->|]%elem_of_cons; [by left|right; apply elem_of_app; by left]).
    split; [rewrite Hnx; [done|by intros ->|intros ->; apply Ha; by left]|].
    split; [|apply IH; try done; intros ?; [apply Hy|apply Ha]; by right].
    rewrite Hpv; [done| |intros ->; apply Ha; right; by left]. intros ->. destruct l2 as [|n l2]; cbn in *; [by apply Hy; left|].
    apply NoDup_cons in Hn as [Hn _]. apply Hn. apply elem_of_app. right. by left.
Qed.

(** What all chunks but their links and their [num] keep. *)
Definition same_runs (c c' : zend_mm_chunk) : Prop :=
  ch_heap c' = ch_heap c /\ ch_free_pages c' = ch_free_pages c /\ ch_free_tail c' = ch_free_tail c /\
  ch_free_map c' = ch_free_map c /\ ch_map c' = ch_map c.

Lemma same_runs_ok cnt c c' rs : same_runs c c' -> chunk_ok cnt c rs -> chunk_ok cnt c' rs.
Proof. intros (_ & H1 & H2 & H3 & H4) []. split; rewrite ?H1, ?H2, ?H3, ?H4; done. Qed.

(** ** Regions that are neither in the ring nor in the cache

    A chunk that is unlinked, or taken out of the cache, or just mapped, is for a
    moment a mapping like that of a huge block. *)

Definition with_regions (ring : list (Z * list run)) (cached : list Z) (huge : list (Z * Z)) (rextra : Z) G : view :=
  View ring cached (g_free G) (g_used G) huge (g_extra G) rextra.

Definition relinked cs cs' : Prop := forall b c, cs !! b = Some c -> exists c', cs' !! b = Some c' /\ same_runs c c'.

Lemma relinked_insert cs b c c' : cs !! b = Some c -> same_runs c c' -> relinked cs (<[b := c']> cs).
Proof.
  intros Hc Hs b' c1 Hc1. destruct (decide (b = b')) as [<-|Hne]; [|rewrite lookup_insert_ne by done; by exists c1].
  rewrite lookup_insert_eq. assert (c1 = c) as -> by congruence. eauto.
Qed.

Lemma relinked_trans cs1 cs2 cs3 : relinked cs1 cs2 -> relinked cs2 cs3 -> relinked cs1 cs3.
Proof.
  intros H1 H2 b c Hc. destruct (H1 b c Hc) as (c2 & Hc2 & S2). destruct (H2 b c2 Hc2) as (c3 & Hc3 & S3). exists c3. split; [done|].
  unfold same_runs in *. intuition congruence.
Qed.

Lemma relinked_refl cs : relinked cs cs.
Proof. intros b c Hc. by exists c. Qed.

Lemma elems_nil l1 a l2 b : elems (l1 ++ (a, []) :: l2) b = elems (l1 ++ l2) b.
Proof. unfold elems. by rewrite !bind_app. Qed.
Lemma large_nil l1 a l2 : large_blocks (l1 ++ (a, []) :: l2) = large_blocks (l1 ++ l2).
Proof. unfold large_blocks. by rewrite !bind_app. Qed.

#[export] Instance elems_perm : Proper (Permutation ==> eq ==> Permutation) elems.
Proof. intros l l' Hl b b' <-. unfold elems. by rewrite Hl. Qed.
#[export] Instance large_perm : Proper (Permutation ==> Permutation) large_blocks.
Proof. intros l l' Hl. unfold large_blocks. by rewrite Hl. Qed.
#[export] Instance total_perm : Proper (Permutation ==> eq) total.
Proof. unfold total. induction 1; cbn; lia. Qed.

(** The ring and the cache change; the runs of the chunks in the ring are the same up to
    chunks without runs. *)
Lemma ok_relink cnt cnt' h h' cs cs' m sys G ring' cached' huge' rextra' : heap_ok cnt h cs m sys G ->
  ring_links cs' (mm_main_chunk h) ring'.*1 ->
  (forall a rs, (a, rs) ∈ ring' -> exists c, cs' !! a = Some c /\ ch_heap c = heap_addr h /\ chunk_ok (cnt' a) c rs) ->
  cached_list cs' (mm_cached_chunks h') cached' ->
  NoDup (ring'.*1 ++ cached') ->
  ((fun a => (a, ZEND_MM_CHUNK_SIZE)) <$> (ring'.*1 ++ cached')) ++ huge' ≡ₚ ((fun a => (a, ZEND_MM_CHUNK_SIZE)) <$> chunks_of G) ++ g_huge G ->
  (forall b, elems ring' b ≡ₚ elems (g_ring G) b) -> large_blocks ring' ≡ₚ large_blocks (g_ring G) ->
  mm_main_chunk h' = mm_main_chunk h -> mm_free_slot h' = mm_free_slot h -> mm_size h' = mm_size h ->
  mm_chunks_count h' = zlen ring' -> mm_cached_chunks_count h' = zlen cached' ->
  mm_real_size h' = u64 (ZEND_MM_CHUNK_SIZE * zlen (ring'.*1 ++ cached') + rextra') ->
  heap_ok cnt' h' cs' m sys (with_regions ring' cached' huge' rextra' G).
Proof.
  intros Hok Hl Hch Hca Hnd Hp2 Hel Hla Hm Hs Hsz Hcc Hccc Hreal.
  (* all regions, as one list *)
  set (regions := ((fun a => (a, ZEND_MM_CHUNK_SIZE)) <$> chunks_of G) ++ g_huge G) in Hp2.
  assert (Hap : apart regions).
  { apply apart_app. split; [|split; [apply (hk_huge _ _ _ _ _ _ Hok)|]].
    - apply apart_pairwise.
      + apply NoDup_fmap_2; [by intros ?? [=]|apply (hk_nodup _ _ _ _ _ _ Hok)].
      + intros x y (a & -> & Ha)%list_elem_of_fmap (a' & -> & Ha')%list_elem_of_fmap Hne.
        destruct (hk_addr _ _ _ _ _ _ Hok a Ha) as [(_ & Hma & _) _]. destruct (hk_addr _ _ _ _ _ _ Hok a' Ha') as [(_ & Hma' & _) _].
        exact (chunks_apart a a' Hma Hma' ltac:(by intros ->)).
    - intros x y (a & -> & Ha)%list_elem_of_fmap Hy. apply apart2_sym. by apply (hk_huge_chunks _ _ _ _ _ _ Hok). }
  assert (Hreg : forall p n, (p, n) ∈ regions -> 0 < n /\ 0 < p /\ p mod ZEND_MM_CHUNK_SIZE = 0 /\ p + n <= 2 ^ 47 /\
            forall k, p <= k < p + n -> os_mapped sys k).
  { intros p n [(a & [= -> ->] & Ha)%list_elem_of_fmap|Hin]%elem_of_app; [|by apply (hk_huge_addr _ _ _ _ _ _ Hok)].
    destruct (hk_addr _ _ _ _ _ _ Hok a Ha) as [(? & ? & ?) ?]. done. }
  assert (Hreg' : forall x, x ∈ ((fun a => (a, ZEND_MM_CHUNK_SIZE)) <$> (ring'.*1 ++ cached')) ++ huge' -> x ∈ regions).
  { intros x Hx. by rewrite <- Hp2. }
  rewrite <- Hp2 in Hap. apply apart_app in Hap as (_ & Hap2 & Hap3).
  split; cbn [g_ring g_cached g_free g_used g_huge g_extra g_rextra with_regions]; rewrite ?Hm, ?Hs, ?Hsz; try done.
  - intros a Ha. destruct (Hreg a ZEND_MM_CHUNK_SIZE) as (_ & ? & ? & ? & ?); [|done].
    apply Hreg', elem_of_app. left. apply list_elem_of_fmap. by exists a.
  - unfold heap_addr. rewrite Hm. done.
  - apply (hk_slots _ _ _ _ _ _ Hok).
  - apply (hk_chain _ _ _ _ _ _ Hok).
  - intros b Hb. rewrite (hk_perm _ _ _ _ _ _ Hok b Hb). by rewrite Hel.
  - intros p n Hin. apply Hreg, Hreg', elem_of_app. by right.
  - intros x a Hx Ha. apply apart2_sym. apply Hap3; [|done]. apply list_elem_of_fmap. by exists a.
  - rewrite (hk_size _ _ _ _ _ _ Hok). unfold blocks. cbn. by rewrite Hla.
Qed.

(** *** Links *)

Lemma next_set_next cs a c v b : cs !! a = Some c ->
  ch_next <$> <[a := set_links v (ch_prev c) c]> cs !! b = if decide (b = a) then Some v else ch_next <$> cs !! b.
Proof. intros Hc. destruct (decide (b = a)) as [->|]; [by rewrite lookup_insert_eq|by rewrite lookup_insert_ne]. Qed.
Lemma prev_set_next cs a c v b : cs !! a = Some c -> ch_prev <$> <[a := set_links v (ch_prev c) c]> cs !! b = ch_prev <$> cs !! b.
Proof. intros Hc. destruct (decide (b = a)) as [->|]; [by rewrite lookup_insert_eq, Hc|by rewrite lookup_insert_ne]. Qed.
Lemma next_set_prev cs a c v b : cs !! a = Some c -> ch_next <$> <[a := set_links (ch_next c) v c]> cs !! b = ch_next <$> cs !! b.
Proof. intros Hc. destruct (decide (b = a)) as [->|]; [by rewrite lookup_insert_eq, Hc|by rewrite lookup_insert_ne]. Qed.
Lemma prev_set_prev cs a c v b : cs !! a = Some c ->
  ch_prev <$> <[a := set_links (ch_next c) v c]> cs !! b = if decide (b = a) then Some v else ch_prev <$> cs !! b.
Proof. intros Hc. destruct (decide (b = a)) as [->|]; [by rewrite lookup_insert_eq|by rewrite lookup_insert_ne]. Qed.

Lemma relinked_links cs a c n p : cs !! a = Some c -> relinked cs (<[a := set_links n p c]> cs).
Proof. intros Hc. by eapply relinked_insert. Qed.

(** The chunks of the ring after a relinking. *)
Lemma relinked_chunks cnt h cs cs' m sys G a rs : heap_ok cnt h cs m sys G -> relinked cs cs' -> (a, rs) ∈ g_ring G ->
  exists c, cs' !! a = Some c /\ ch_heap c = heap_addr h /\ chunk_ok (cnt a) c rs.
Proof.
  intros Hok Hr Hin. destruct (hk_chunks _ _ _ _ _ _ Hok a rs Hin) as (c & Hc & Hh & Hcok). destruct (Hr a c Hc) as (c' & Hc' & Hs).
  exists c'. split; [done|]. split; [rewrite <- Hh; apply Hs|by eapply same_runs_ok].
Qed.

Lemma chunk_ok_clean cnt c : chunk_ok cnt c [] -> clean c.
Proof.
  intros Hok. split; [apply (ck_words _ _ _ Hok)|]. split; [apply (ck_bitset _ _ _ Hok)|]. split; [apply (ck_len _ _ _ Hok)|].
  intros k Hk. destruct (bit_at (ch_free_map c) k) eqn:E; [|done].
  apply (ck_bits _ _ _ Hok) in E; [|lia]. destruct E as [|E]; [lia|]. by apply elem_of_nil in E.
Qed.

(** *** A chunk without runs leaves the ring *)

Lemma ring_neighbours cnt h cs m sys G l1 a rs l2 : heap_ok cnt h cs m sys G -> g_ring G = l1 ++ (a, rs) :: l2 -> l1 <> [] ->
  exists r0 l1' c cp cn, l1 = (mm_main_chunk h, r0) :: l1' /\ cs !! a = Some c /\
    ch_prev c = lst (mm_main_chunk h) l1'.*1 /\ ch_next c = hd (mm_main_chunk h) l2.*1 /\
    cs !! ch_prev c = Some cp /\ cs !! ch_next c = Some cn /\ ch_prev c <> a /\ ch_next c <> a /\
    dpath cs (mm_main_chunk h) (l1'.*1 ++ a :: l2.*1) (mm_main_chunk h) /\
    NoDup (mm_main_chunk h :: l1'.*1 ++ a :: l2.*1).
Proof.
  intros Hok Hring Hne. pose proof (hk_ring _ _ _ _ _ _ Hok) as Hl. pose proof (hk_nodup _ _ _ _ _ _ Hok) as Hn.
  apply NoDup_app in Hn as [Hn _]. rewrite Hring, fmap_app, fmap_cons in Hl, Hn. destruct l1 as [|[x r0] l1']; [done|].
  cbn [fmap list_fmap fst app ring_links] in Hl, Hn. destruct Hl as [-> Hl]. fold (@fmap list _ _ _ (@fst Z (list run)) l1') in Hl, Hn.
  set (main := mm_main_chunk h) in *. destruct (dpath_ends _ _ _ _ _ _ Hl) as [Hp Hnx].
  assert (Hin : forall b, b ∈ main :: l1'.*1 ++ a :: l2.*1 -> exists cb, cs !! b = Some cb).
  { intros b Hb. assert (b ∈ (g_ring G).*1) as ([b' rb] & -> & Hi)%list_elem_of_fmap by (rewrite Hring, fmap_app, fmap_cons; exact Hb).
    destruct (hk_chunks _ _ _ _ _ _ Hok b' rb Hi) as (cb & Hcb & _). by exists cb. }
  destruct (cs !! a) as [c|] eqn:Hc; [|done]. cbn in Hp, Hnx. injection Hp as Hp. injection Hnx as Hnx.
  assert (Hpin : lst main l1'.*1 ∈ main :: l1'.*1) by apply lst_in.
  assert (Hnin : hd main l2.*1 ∈ main :: l2.*1) by (destruct l2; cbn; [by left|right; by left]).
  pose proof Hn as Hn'. rewrite app_comm_cons in Hn'. apply NoDup_app in Hn' as (_ & Hd & Hn2). apply NoDup_cons in Hn2 as [Hn2 _].
  destruct (Hin (lst main l1'.*1)) as [cp Hcp]; [rewrite app_comm_cons; apply elem_of_app; by left|].
  destruct (Hin (hd main l2.*1)) as [cn Hcn].
  { apply elem_of_cons in Hnin as [->|Hnin]; [by left|]. right. apply elem_of_app. right. by right. }
  exists r0, l1', c, cp, cn. rewrite Hp, Hnx. split_and!; try done.
  - intros E. rewrite E in Hpin. apply (Hd a Hpin). by left.
  - intros E. rewrite E in Hnin. apply elem_of_cons in Hnin as [->|Hnin]; [|done]. apply (Hd main); by left.
Qed.

Lemma ring_unlink_ok cnt h cs cs1 cs2 m sys G l1 a l2 c cp cn : heap_ok cnt h cs m sys G -> g_ring G = l1 ++ (a, []) :: l2 -> l1 <> [] ->
  cs !! a = Some c -> cs !! ch_next c = Some cn -> cs1 = <[ch_next c := set_links (ch_next cn) (ch_prev c) cn]> cs ->
  cs1 !! ch_prev c = Some cp -> cs2 = <[ch_prev c := set_links (ch_next c) (ch_prev cp) cp]> cs1 ->
  heap_ok cnt (set_counts (mm_chunks_count h - 1) (mm_peak_chunks_count h) h) cs2 m sys
    (with_regions (l1 ++ l2) (g_cached G) ((a, ZEND_MM_CHUNK_SIZE) :: g_huge G) (g_rextra G + ZEND_MM_CHUNK_SIZE) G) /\
  cs2 !! a = Some c /\ clean c.
Proof.
  intros Hok Hring Hne Hc Hcn -> Hcp ->.
  destruct (ring_neighbours _ _ _ _ _ _ _ _ _ _ Hok Hring Hne) as (r0 & l1' & c' & _ & _ & -> & Hc' & Hp & Hnx & _ & _ & Hpa & Hna & Hd & Hn).
  assert (c' = c) as -> by congruence. clear Hc'. set (main := mm_main_chunk h) in *.
  assert (Hin : (a, []) ∈ g_ring G) by (rewrite Hring; apply elem_of_app; right; by left).
  assert (Hcl : clean c).
  { destruct (hk_chunks _ _ _ _ _ _ Hok a [] Hin) as (c0 & Hc0 & _ & Hcok). assert (c0 = c) as -> by congruence. by eapply chunk_ok_clean. }
  split; [|split; [by rewrite !lookup_insert_ne|done]].
  assert (Hrel : relinked cs (<[ch_prev c:=set_links (ch_next c) (ch_prev cp) cp]> (<[ch_next c:=set_links (ch_next cn) (ch_prev c) cn]> cs))).
  { eapply relinked_trans; by apply relinked_links. }
  pose proof (hk_nodup _ _ _ _ _ _ Hok) as Hnd. unfold chunks_of in Hnd.
  assert (Hpm : (g_ring G).*1 ++ g_cached G ≡ₚ a :: (((main, r0) :: l1') ++ l2).*1 ++ g_cached G).
  { rewrite Hring, !fmap_app, !fmap_cons. cbn [fst]. rewrite <- !Permutation_middle. done. }
  apply (ok_relink cnt cnt h _ cs); try done.
  - cbn [fmap list_fmap app fst ring_links]. split; [done|]. rewrite fmap_app.
    apply (dpath_delete cs _ main l1'.*1 a l2.*1 main Hd Hn).
    + by apply NoDup_cons in Hn as [? _].
    + intros b Hb. rewrite next_set_next by done. rewrite decide_False by (by rewrite Hp). by rewrite next_set_prev.
    + rewrite next_set_next by done. rewrite decide_True by done. by rewrite Hnx.
    + intros b Hb. rewrite prev_set_next by done. rewrite prev_set_prev by done. by rewrite decide_False by (by rewrite Hnx).
    + rewrite prev_set_next by done. rewrite prev_set_prev by done. rewrite decide_True by done. by rewrite Hp.
  - intros a1 rs1 Hi. eapply relinked_chunks; [done|done|]. rewrite Hring.
    apply elem_of_app in Hi as [|]; apply elem_of_app; [by left|right; by right].
  - cbn [mm_cached_chunks set_counts]. eapply cached_list_frame; [|apply (hk_cached _ _ _ _ _ _ Hok)]. intros b Hb.
    assert (Hb' : b ∉ main :: l1'.*1 ++ a :: l2.*1).
    { intros Hb1. apply NoDup_app in Hnd as (_ & Hnd & _). apply (Hnd b); [|done]. rewrite Hring, fmap_app, fmap_cons. exact Hb1. }
    rewrite !lookup_insert_ne; [done| |]; intros <-; apply Hb'.
    + rewrite Hnx. destruct l2; cbn; [by left|]. right. apply elem_of_app. right. right. by left.
    + rewrite Hp. rewrite app_comm_cons. apply elem_of_app. left. apply lst_in.
  - rewrite Hpm in Hnd. by apply NoDup_cons in Hnd as [_ Hnd].
  - unfold chunks_of. rewrite Hpm, fmap_cons. cbn [app]. by rewrite <- Permutation_middle.
  - intros b. rewrite Hring. by rewrite elems_nil.
  - rewrite Hring. by rewrite large_nil.
  - cbn [mm_chunks_count set_counts]. destruct (hk_counts _ _ _ _ _ _ Hok) as [-> _]. rewrite Hring. unfold zlen.
    rewrite !length_app. cbn [length]. lia.
  - apply (hk_counts _ _ _ _ _ _ Hok).
  - cbn [mm_real_size set_counts]. rewrite (hk_real _ _ _ _ _ _ Hok). f_equal. unfold chunks_of, zlen. rewrite Hpm. cbn [length]. lia.
Qed.

(** *** The cache *)

Lemma clean_links n p c : clean c -> clean (set_links n p c).
Proof. done. Qed.

Lemma region_not_chunk cnt h cs m sys G a n hs : heap_ok cnt h cs m sys G -> g_huge G ≡ₚ (a, n) :: hs -> a ∉ chunks_of G.
Proof.
  intros Hok Hp Ha. assert (Hin : (a, n) ∈ g_huge G) by (rewrite Hp; by left).
  pose proof (hk_huge_chunks _ _ _ _ _ _ Hok (a, n) a Hin Ha) as Hap. destruct (hk_huge_addr _ _ _ _ _ _ Hok a n Hin) as (Hn & _).
  unfold apart2, ZEND_MM_CHUNK_SIZE in Hap. cbn in Hap. lia.
Qed.

(** A detached chunk without runs becomes the first of the cache. *)
Lemma push_ok cnt h cs m sys G a c hs : heap_ok cnt h cs m sys G -> g_huge G ≡ₚ (a, ZEND_MM_CHUNK_SIZE) :: hs ->
  cs !! a = Some c -> clean c ->
  heap_ok cnt (set_cached a (mm_cached_chunks_count h + 1) h) (<[a := set_links (mm_cached_chunks h) (ch_prev c) c]> cs) m sys
    (with_regions (g_ring G) (a :: g_cached G) hs (g_rextra G - ZEND_MM_CHUNK_SIZE) G).
Proof.
  intros Hok Hp Hc Hcl. pose proof (region_not_chunk _ _ _ _ _ _ _ _ _ Hok Hp) as Ha. unfold chunks_of in Ha. rewrite not_elem_of_app in Ha. destruct Ha as [Har Hac].
  assert (Hpm : (g_ring G).*1 ++ a :: g_cached G ≡ₚ a :: chunks_of G) by (unfold chunks_of; by rewrite <- Permutation_middle).
  apply (ok_relink cnt cnt h _ cs); try done.
  - eapply ring_links_frame; [| |apply (hk_ring _ _ _ _ _ _ Hok)]; intros b Hb; rewrite lookup_insert_ne; try done; by intros <-.
  - intros b rs Hb. rewrite lookup_insert_ne; [by apply (hk_chunks _ _ _ _ _ _ Hok)|]. intros <-. apply Har. apply list_elem_of_fmap. by exists (a, rs).
  - split; [done|]. eexists. rewrite lookup_insert_eq. split; [done|]. split; [by apply clean_links|]. cbn [ch_next set_links].
    eapply cached_list_frame; [|apply (hk_cached _ _ _ _ _ _ Hok)]. intros b Hb. apply lookup_insert_ne. by intros <-.
  - rewrite Hpm. apply NoDup_cons. split; [unfold chunks_of; rewrite not_elem_of_app; done|apply (hk_nodup _ _ _ _ _ _ Hok)].
  - rewrite Hpm, Hp. rewrite fmap_cons. cbn [app]. by rewrite <- Permutation_middle.
  - apply (hk_counts _ _ _ _ _ _ Hok).
  - cbn [mm_cached_chunks_count set_cached]. rewrite zlen_cons. by rewrite (proj2 (hk_counts _ _ _ _ _ _ Hok)).
  - cbn [mm_real_size set_cached]. rewrite (hk_real _ _ _ _ _ _ Hok). f_equal. unfold zlen. rewrite Hpm. cbn [length]. lia.
Qed.

(** The first of the cache is taken out. *)
Lemma pop_ok cnt h cs m sys G a l : heap_ok cnt h cs m sys G -> g_cached G = a :: l ->
  exists c, mm_cached_chunks h = a /\ cs !! a = Some c /\ clean c /\
  heap_ok cnt (set_cached (ch_next c) (mm_cached_chunks_count h - 1) h) cs m sys
    (with_regions (g_ring G) l ((a, ZEND_MM_CHUNK_SIZE) :: g_huge G) (g_rextra G + ZEND_MM_CHUNK_SIZE) G).
Proof.
  intros Hok Hl. pose proof (hk_cached _ _ _ _ _ _ Hok) as Hca. rewrite Hl in Hca. destruct Hca as (Ha & c & Hc & Hcl & Hca).
  exists c. split; [done|]. split; [done|]. split; [done|].
  assert (Hpm : chunks_of G ≡ₚ a :: (g_ring G).*1 ++ l) by (unfold chunks_of; rewrite Hl; by rewrite <- Permutation_middle).
  pose proof (hk_nodup _ _ _ _ _ _ Hok) as Hnd. rewrite Hpm in Hnd. apply NoDup_cons in Hnd as [_ Hnd].
  apply (ok_relink cnt cnt h _ cs); try done.
  - apply (hk_ring _ _ _ _ _ _ Hok).
  - apply (hk_chunks _ _ _ _ _ _ Hok).
  - rewrite Hpm, fmap_cons. cbn [app]. by rewrite <- Permutation_middle.
  - apply (hk_counts _ _ _ _ _ _ Hok).
  - cbn [mm_cached_chunks_count set_cached]. rewrite (proj2 (hk_counts _ _ _ _ _ _ Hok)), Hl, zlen_cons. lia.
  - cbn [mm_real_size set_cached]. rewrite (hk_real _ _ _ _ _ _ Hok). f_equal. unfold zlen. rewrite Hpm. cbn [length]. lia.
Qed.

(** *** Mappings *)

(** What the user and the heap keep: blocks and other mappings. *)
Definition mine G : list (Z * Z) := blocks G ++ g_huge G.

(** All mappings of the heap. *)
Definition regions G : list (Z * Z) := ((fun a => (a, ZEND_MM_CHUNK_SIZE)) <$> chunks_of G) ++ g_huge G.

Lemma region_mapped cnt h cs m sys G x : heap_ok cnt h cs m sys G -> x ∈ regions G ->
  0 < x.2 /\ forall k, x.1 <= k < x.1 + x.2 -> os_mapped sys k.
Proof.
  intros Hok [(a & -> & Ha)%list_elem_of_fmap|Hx]%elem_of_app.
  - by destruct (hk_addr _ _ _ _ _ _ Hok a Ha) as [_ Hm].
  - destruct x as [p n]. destruct (hk_huge_addr _ _ _ _ _ _ Hok p n Hx) as (? & _ & _ & _ & ?). done.
Qed.

Lemma mine_in_region cnt h cs m sys G x : heap_ok cnt h cs m sys G -> x ∈ mine G ->
  exists y, y ∈ regions G /\ y.1 <= x.1 /\ x.1 + x.2 <= y.1 + y.2.
Proof.
  intros Hok [Hx|Hx]%elem_of_app.
  - destruct (block_in_chunk _ _ _ _ _ _ _ Hok Hx) as (a & Ha & ? & ? & ?). exists (a, ZEND_MM_CHUNK_SIZE). cbn.
    unfold ZEND_MM_PAGE_SIZE in *. split; [|lia]. apply elem_of_app. left. apply list_elem_of_fmap. exists a. split; [done|]. apply elem_of_app. by left.
  - exists x. split; [apply elem_of_app; by right|lia].
Qed.

(** Fresh memory overlaps none of them. *)
Lemma fresh_apart cnt h cs m sys G p n : heap_ok cnt h cs m sys G -> 0 < n -> (forall a, p <= a < p + n -> ~ os_mapped sys a) ->
  forall x, x ∈ regions G -> apart2 x (p, n).
Proof.
  intros Hok Hn Hf x Hx. destruct (region_mapped _ _ _ _ _ _ _ Hok Hx) as [Hx2 Hm]. unfold apart2. cbn.
  destruct (Z_lt_le_dec p (x.1 + x.2)); [|lia]. destruct (Z_lt_le_dec x.1 (p + n)); [|lia].
  destruct (Hf (Z.max p x.1)); [lia|]. apply Hm. lia.
Qed.

Lemma ok_os cnt h cs m sys sys' G : heap_ok cnt h cs m sys G ->
  (forall x k, x ∈ regions G -> x.1 <= k < x.1 + x.2 -> os_mapped sys k -> os_mapped sys' k) -> heap_ok cnt h cs m sys' G.
Proof.
  intros Hok Hm. open_heap Hok. split; try done.
  - intros a Ha. destruct (hk_addr0 a Ha) as [? Hk]. split; [done|]. intros k Hkr. apply (Hm (a, ZEND_MM_CHUNK_SIZE)); [|done|by apply Hk].
    apply elem_of_app. left. apply list_elem_of_fmap. by exists a.
  - intros p n Hin. destruct (hk_huge_addr0 p n Hin) as (? & ? & ? & ? & Hk). split_and!; try done.
    intros k Hkr. apply (Hm (p, n)); [|done|by apply Hk]. apply elem_of_app. by right.
Qed.

Lemma ok_unmap cnt h cs m sys G p n : heap_ok cnt h cs m sys G -> (forall x, x ∈ regions G -> apart2 x (p, n)) ->
  in_span p n (mm_main_chunk h) = false /\ heap_ok cnt h (unmap p n cs) (unmap p n m) (os_munmap sys p n) G /\ keeps (mine G) m (unmap p n m).
Proof.
  intros Hok Hap.
  assert (Hch : forall a, a ∈ chunks_of G -> unmap p n cs !! a = cs !! a /\ in_span p n a = false).
  { intros a Ha. assert (Hx : (a, ZEND_MM_CHUNK_SIZE) ∈ regions G) by (apply elem_of_app; left; apply list_elem_of_fmap; by exists a).
    specialize (Hap _ Hx). unfold apart2, ZEND_MM_CHUNK_SIZE in Hap. cbn in Hap. split.
    - apply lookup_unmap. lia.
    - unfold in_span. destruct (Z.leb_spec p a), (Z.ltb_spec a (p + n)); cbn; done || lia. }
  assert (Hreg : forall x k, x ∈ regions G -> x.1 <= k < x.1 + x.2 -> ~ (p <= k < p + n)).
  { intros x k Hx Hk. specialize (Hap x Hx). unfold apart2 in Hap. cbn in Hap. lia. }
  assert (Hin : forall a, a ∈ (g_ring G).*1 -> a ∈ chunks_of G) by (intros a Ha; apply elem_of_app; by left).
  pose proof Hok as Hok0.
  assert (Hok1 : heap_ok cnt h cs m (os_munmap sys p n) G).
  { eapply ok_os; [done|]. intros x k Hx Hk Hm. apply os_munmap_ok; [done|by eapply Hreg]. }
  open_heap Hok1. split.
  - destruct (g_ring G) as [|[main r0] ring] eqn:Er; [by destruct hk_ring0|]. cbn in hk_ring0. destruct hk_ring0 as [<- _].
    apply Hch, Hin. by left.
  - split.
    + split; try done.
      * eapply ring_links_frame; [| |done]; intros a Ha; by rewrite (proj1 (Hch a (Hin a Ha))).
      * intros a rs Ha. rewrite (proj1 (Hch a (ring_in_chunks _ _ _ Ha))). by apply hk_chunks0.
      * eapply cached_list_frame; [|done]. intros a Ha. apply Hch. apply elem_of_app. by right.
      * intros b Hb. destruct (hk_chain0 b Hb) as (q & Hq & Hc). exists q. split; [done|]. eapply chain_frame; [|done].
        intros a k Ha Hk. apply lookup_unmap. eapply free_elem in Ha; [|done|done].
        apply elem_of_elems in Ha as (a0 & rs & r & k0 & Hin0 & Hr & Hkd & Hk0 & ->).
        destruct (run_in_chunk _ _ _ _ _ _ _ _ _ Hok0 Hin0 Hr) as (_ & ? & ? & ?).
        destruct (small_run _ _ _ _ _ _ _ _ _ _ Hok0 Hin0 Hr Hkd) as [_ Hcb]. pose proof (elem_span b a0 r k0 Hb Hcb Hk0) as Hs.
        destruct (bin_facts b Hb) as (_ & _ & _ & _ & ? & _). apply (Hreg (a0, ZEND_MM_CHUNK_SIZE)).
        { apply elem_of_app. left. apply list_elem_of_fmap. exists a0. split; [done|by eapply ring_in_chunks]. }
        unfold run_span, ZEND_MM_PAGE_SIZE, ZEND_MM_CHUNK_SIZE in *. cbn in *. lia.
    + intros a k0 k Hin0 Hk. apply lookup_unmap. destruct (mine_in_region _ _ _ _ _ _ _ Hok0 Hin0) as (y & Hy & ? & ?). cbn in *.
      apply (Hreg y); [done|lia].
Qed.

Lemma ok_drop cnt h cs m sys G x hs : heap_ok cnt h cs m sys G -> g_huge G ≡ₚ x :: hs ->
  heap_ok cnt h cs m sys (with_regions (g_ring G) (g_cached G) hs (g_rextra G) G) /\
  forall y, y ∈ regions (with_regions (g_ring G) (g_cached G) hs (g_rextra G) G) -> apart2 y x.
Proof.
  intros Hok Hp. open_heap Hok. split.
  - split; try done; cbn [g_ring g_cached g_free g_used g_huge g_extra g_rextra with_regions].
    + rewrite Hp in hk_huge0. by destruct hk_huge0.
    + intros p n Hin. apply hk_huge_addr0. rewrite Hp. by right.
    + intros y a Hy. apply hk_huge_chunks0. rewrite Hp. by right.
  - intros y [(a & -> & Ha)%list_elem_of_fmap|Hy]%elem_of_app.
    + apply apart2_sym, hk_huge_chunks0; [rewrite Hp; by left|done].
    + rewrite Hp in hk_huge0. destruct hk_huge0 as [Hf _]. rewrite Forall_forall in Hf. by apply apart2_sym, Hf.
Qed.

Lemma ok_add cnt h cs m sys G p n : heap_ok cnt h cs m sys G -> (forall x, x ∈ regions G -> apart2 x (p, n)) ->
  0 < n -> 0 < p -> p mod ZEND_MM_CHUNK_SIZE = 0 -> p + n <= 2 ^ 47 -> (forall k, p <= k < p + n -> os_mapped sys k) ->
  heap_ok cnt h cs m sys (with_regions (g_ring G) (g_cached G) ((p, n) :: g_huge G) (g_rextra G) G).
Proof.
  intros Hok Hap Hn Hp Hal Hb Hm. open_heap Hok. split; try done; cbn [g_ring g_cached g_free g_used g_huge g_extra g_rextra with_regions].
  - split; [|done]. apply Forall_forall. intros x Hx. apply apart2_sym, Hap, elem_of_app. by right.
  - by intros p' n' [[= -> ->]|Hin]%elem_of_cons; [|apply hk_huge_addr0].
  - intros x a [->|Hx]%elem_of_cons Ha; [|by apply hk_huge_chunks0]. apply apart2_sym, Hap, elem_of_app. left.
    apply list_elem_of_fmap. by exists a.
Qed.
End Chunks.
