(* ===== verification/MmRing.v ===== *)
(** * Chunks of the heap: mapping, linking, deleting

    The operations that obtain a chunk from the operating system or return it, link
    it into the ring, move it to the front, and delete it or keep it in the cache. *)

From stdpp Require Import functions.
From S2P Require Import Prelude.
From S2P Require Import MmPageOps.
From S2P Require Import MmHeapOps.
From S2P Require Import MmAllocOps.
From S2P Require Import MmChunk.
From S2P Require Import MmHeapInv.
From S2P Require Import MmHeap.

Section Ring.
Context {OS : Os} {L : OsLaws OS} {LF : LowFree OS}.
Implicit Types (h : zend_mm_heap) (cs : gmap Z zend_mm_chunk) (m : gmap Z Z) (sys : os) (G : view) (s : mstate).

(** ** Mappings *)

Lemma wp_munmap h cs m sys p n (Q : unit -> mstate -> Prop) E : in_span p n (mm_main_chunk h) = false ->
  Q tt (mkState (Some h) (unmap p n cs) (unmap p n m) (os_munmap sys p n)) -> wp (zend_mm_munmap p n) (mkState (Some h) cs m sys) Q E.
Proof. unfold wp, zend_mm_munmap. cbn [st_heap st_chunks st_mem st_os]. by intros ->. Qed.

Lemma wp_mmap ho cs m sys n Q E : Q (os_mmap sys n).2 (mkState ho cs m (os_mmap sys n).1) -> wp (zend_mm_mmap n) (mkState ho cs m sys) Q E.
Proof. unfold wp, zend_mm_mmap. cbn [st_os]. by destruct (os_mmap sys n). Qed.

Lemma apart_incl p n p' n' G : (forall x, x ∈ regions G -> 0 < x.2) -> p <= p' -> p' + n' <= p + n -> 0 <= n' ->
  (forall x, x ∈ regions G -> apart2 x (p, n)) -> forall x, x ∈ regions G -> apart2 x (p', n').
Proof. intros Hx H1 H2 H3 H x Hin. specialize (H x Hin). unfold apart2 in *. cbn in *. lia. Qed.

(** The outcome of a mapping: nothing, or a new region. *)
Definition mapped_region (cnt : Z -> Z -> Z) h m G n (p : Z) (s : mstate) : Prop :=
  exists cs' m' sys', s = mkState (Some h) cs' m' sys' /\ keeps (mine G) m m' /\
    (p = 0 /\ heap_ok cnt h cs' m' sys' G \/
     0 < p /\ heap_ok cnt h cs' m' sys' (with_regions (g_ring G) (g_cached G) ((p, n) :: g_huge G) (g_rextra G) G)).

(** Memory that was just mapped, of which the region [p'] is kept. *)
Lemma fresh_add cnt h cs m sys G p n : heap_ok cnt h cs m sys G -> (forall x, x ∈ regions G -> apart2 x (p, n)) -> 0 < n -> 0 < p ->
  p mod ZEND_MM_CHUNK_SIZE = 0 -> p + n <= 2 ^ 47 -> (forall k, p <= k < p + n -> os_mapped sys k) ->
  mapped_region cnt h m G n p (mkState (Some h) cs m sys).
Proof.
  intros. exists cs, m, sys. split; [done|]. split; [apply keeps_refl|]. right. split; [done|]. by apply ok_add.
Qed.

Lemma mapped_region_keeps cnt h m m1 G n p s : keeps (mine G) m m1 -> mapped_region cnt h m1 G n p s ->
  mapped_region cnt h m G n p s.
Proof.
  intros Hk (cs' & m' & sys' & -> & Hk' & H). exists cs', m', sys'. split; [done|]. split; [by eapply keeps_trans|done].
Qed.

(** The ends of a fresh mapping are unmapped. *)
Lemma trim_ok cnt h cs m sys G p n q E (Q : Z -> mstate -> Prop) : heap_ok cnt h cs m sys G -> (forall x, x ∈ regions G -> apart2 x (p, n)) ->
  0 < n -> 0 < p -> p mod ZEND_MM_CHUNK_SIZE = 0 -> p + n <= 2 ^ 47 -> 0 <= q -> (forall x, x ∈ regions G -> apart2 x (p + n, q)) ->
  (forall k, p <= k < p + n -> os_mapped sys k) ->
  (forall s, mapped_region cnt h m G n p s -> Q p s) ->
  wp ((if 0 <? q then zend_mm_munmap (p + n) q else mret tt);; mret p) (mkState (Some h) cs m sys) Q E.
Proof.
  intros Hok Hap Hn Hp Hal Hb Hq Hap2 Hm HQ. apply wp_bind. destruct (Z.ltb_spec 0 q).
  - destruct (ok_unmap _ _ _ _ _ _ (p + n) q Hok Hap2) as (Hmain & Hok' & Hk). apply wp_munmap; [done|]. apply wp_ret. apply HQ.
    apply (mapped_region_keeps cnt h m (unmap (p + n) q m)); [done|].
    destruct (fresh_add cnt h _ _ _ G p n Hok' Hap Hn Hp Hal Hb) as (cs' & m' & sys' & Es & Hk' & Hr).
    { intros k Hkr. apply os_munmap_ok; [by apply Hm|lia]. }
    exists cs', m', sys'. by split.
  - apply wp_ret, wp_ret, HQ. by apply fresh_add.
Qed.

(** Below [os_base] there is nothing of the heap. *)
Lemma low_apart cnt h cs m sys G p n : heap_ok cnt h cs m sys G -> p + n <= os_base -> forall x, x ∈ regions G -> apart2 x (p, n).
Proof.
  intros Hok Hb x Hx. destruct (region_mapped _ _ _ _ _ _ x Hok Hx) as [Hx0 Hm].
  pose proof (os_low sys x.1 ltac:(apply Hm; lia)). right. cbn. lia.
Qed.

Lemma chunk_alloc_ok cnt h cs m sys G n E : heap_ok cnt h cs m sys G -> 0 < n ->
  n + ZEND_MM_CHUNK_SIZE <= os_base \/ 2 ^ 47 <= n ->
  wp (zend_mm_chunk_alloc n ZEND_MM_CHUNK_SIZE) (mkState (Some h) cs m sys) (mapped_region cnt h m G n) E.
Proof.
  intros Hok Hn Hlow. assert (Hpos : forall G x, heap_ok cnt h cs m sys G -> x ∈ regions G -> 0 < x.2) by (intros; by eapply region_mapped).
  unfold zend_mm_chunk_alloc, zend_mm_chunk_alloc_int. apply wp_bind, wp_mmap.
  destruct (os_mmap_ok sys n Hn) as [Hmono Hm].
  destruct (os_mmap sys n) as [sys1 p] eqn:E1. cbn [fst snd] in *.
  assert (Hok1 : heap_ok cnt h cs m sys1 G) by (eapply ok_os; [done|]; intros; by apply Hmono).
  destruct (Z.eqb_spec p 0) as [->|Hp0].
  { apply wp_ret. exists cs, m, sys1. split; [done|]. split; [apply keeps_refl|]. by left. }
  destruct Hm as [|(Hp & Hpage & Hb & Hfresh)]; [done|].
  assert (Hap : forall x, x ∈ regions G -> apart2 x (p, n)) by (eapply fresh_apart; [exact Hok|done|intros a Ha; by apply Hfresh]).
  rewrite aligned_offset_mod by lia. destruct (Z.eqb_spec (p mod ZEND_MM_CHUNK_SIZE) 0) as [Hal|Hal].
  { apply wp_ret. destruct (fresh_add cnt h cs m sys1 G p n Hok1 Hap Hn Hp Hal Hb) as (cs' & m' & sys' & Es & Hk' & Hr); [intros k Hk; by apply Hfresh|].
    exists cs', m', sys'. by split. }
  destruct Hlow as [Hlow|]; [|lia]. destruct (ok_unmap _ _ _ _ _ _ p n Hok1 Hap) as (Hmain & Hok2 & Hk).
  apply wp_bind, wp_munmap; [done|]. apply wp_bind, wp_mmap.
  set (sys2 := os_munmap sys1 p n) in *. set (cs2 := unmap p n cs) in *. set (m2 := unmap p n m) in *.
  rewrite u64_small by (unfold ZEND_MM_CHUNK_SIZE, REAL_PAGE_SIZE, ZEND_MM_PAGE_SIZE; lia).
  set (n2 := n + ZEND_MM_CHUNK_SIZE - REAL_PAGE_SIZE) in *.
  assert (Hn2 : n < n2) by (unfold n2, ZEND_MM_CHUNK_SIZE, REAL_PAGE_SIZE, ZEND_MM_PAGE_SIZE; lia).
  destruct (os_mmap_ok sys2 n2 ltac:(lia)) as [Hmono2 Hm2]. destruct (os_mmap sys2 n2) as [sys3 p2] eqn:E2. cbn [fst snd] in *.
  assert (Hok3 : heap_ok cnt h cs2 m2 sys3 G) by (eapply ok_os; [done|]; intros; by apply Hmono2).
  destruct Hm2 as [->|(Hp2 & Hpage2 & Hb2 & Hfresh2)].
  { (* the second call fails: addresses below [os_base] are unmapped *)
    change (ZEND_MM_ALIGNED_OFFSET 0 ZEND_MM_CHUNK_SIZE =? 0) with true. apply wp_bind, wp_ret.
    change (REAL_PAGE_SIZE <? ZEND_MM_CHUNK_SIZE) with true. cbv iota. rewrite Z.add_0_l.
    destruct (ok_unmap _ _ _ _ _ _ n (ZEND_MM_CHUNK_SIZE - REAL_PAGE_SIZE) Hok3) as (Hmain3 & Hok4 & Hk4).
    { apply (low_apart _ _ _ _ _ _ _ _ Hok3). unfold REAL_PAGE_SIZE, ZEND_MM_PAGE_SIZE. lia. }
    apply wp_bind, wp_munmap; [done|]. apply wp_ret. eexists _, _, _. split; [done|].
    split; [eapply keeps_trans; [exact Hk|exact Hk4]|by left]. }
  assert (Hap2 : forall x, x ∈ regions G -> apart2 x (p2, n2)).
  { eapply fresh_apart; [exact Hok2|lia|intros a Ha; by apply Hfresh2]. }
  assert (Hrg : forall x, x ∈ regions G -> 0 < x.2) by (intros x Hx; by apply (Hpos G)).
  rewrite aligned_offset_mod by lia. set (r := p2 mod ZEND_MM_CHUNK_SIZE) in *.
  assert (Hr : 0 <= r < ZEND_MM_CHUNK_SIZE /\ r mod REAL_PAGE_SIZE = 0).
  { unfold r, ZEND_MM_CHUNK_SIZE, REAL_PAGE_SIZE, ZEND_MM_PAGE_SIZE in *. dlia. }
  destruct (Z.eqb_spec r 0) as [Hr0|Hr0]; cbn [negb].
  - (* aligned: the tail is unmapped *)
    apply wp_bind, wp_ret. change (REAL_PAGE_SIZE <? ZEND_MM_CHUNK_SIZE) with (0 <? ZEND_MM_CHUNK_SIZE - REAL_PAGE_SIZE).
    eapply trim_ok; try done.
    + eapply (apart_incl p2 n2); try done; lia.
    + lia.
    + eapply (apart_incl p2 n2); try done; unfold n2, ZEND_MM_CHUNK_SIZE, REAL_PAGE_SIZE, ZEND_MM_PAGE_SIZE; lia.
    + intros k Hkr. apply Hfresh2. lia.
    + intros s Hs. eapply mapped_region_keeps; [exact Hk|]. destruct Hs as (cs' & m' & sys' & Es & Hk' & Hr'). exists cs', m', sys'. by split.
  - assert (Hap3 : forall x, x ∈ regions G -> apart2 x (p2, ZEND_MM_CHUNK_SIZE - r)).
    { eapply (apart_incl p2 n2); try done; unfold n2, ZEND_MM_CHUNK_SIZE, REAL_PAGE_SIZE, ZEND_MM_PAGE_SIZE in *; try lia. dlia. }
    destruct (ok_unmap _ _ _ _ _ _ p2 (ZEND_MM_CHUNK_SIZE - r) Hok3 Hap3) as (Hmain3 & Hok4 & Hk4).
    apply wp_bind, wp_bind, wp_munmap; [done|]. apply wp_ret. cbn beta iota.
    set (p3 := p2 + (ZEND_MM_CHUNK_SIZE - r)).
    replace (ZEND_MM_CHUNK_SIZE - (ZEND_MM_CHUNK_SIZE - r)) with r by lia.
    assert (Hp3 : p3 mod ZEND_MM_CHUNK_SIZE = 0) by (unfold p3, r, ZEND_MM_CHUNK_SIZE in *; dlia).
    assert (Hrp : REAL_PAGE_SIZE <= r) by (unfold REAL_PAGE_SIZE, ZEND_MM_PAGE_SIZE in *; dlia).
    replace (REAL_PAGE_SIZE <? r) with (0 <? r - REAL_PAGE_SIZE) by (destruct (Z.ltb_spec REAL_PAGE_SIZE r), (Z.ltb_spec 0 (r - REAL_PAGE_SIZE)); done || lia).
    assert (Hn3 : p3 + n + (r - REAL_PAGE_SIZE) = p2 + n2) by (unfold p3, n2; lia).
    eapply trim_ok; try done.
    + eapply (apart_incl p2 n2); try done; unfold p3; lia.
    + unfold p3. lia.
    + lia.
    + lia.
    + eapply (apart_incl p2 n2); try done; unfold p3 in *; lia.
    + intros k Hkr. apply os_munmap_ok; [apply Hfresh2; unfold p3 in *; lia|unfold p3 in *; lia].
    + intros s Hs. eapply mapped_region_keeps; [|destruct Hs as (cs' & m' & sys' & Es & Hk' & Hr'); exists cs', m', sys'; split; [exact Es|by split]].
      eapply keeps_trans; [exact Hk|exact Hk4].
Qed.

(** ** A new chunk *)

Lemma zero_chunk_clean : clean zero_chunk.
Proof.
  split; [done|]. split; [by apply Forall_replicate|]. split; [done|]. intros k Hk. unfold bit_at, zero_chunk. cbn [ch_free_map].
  destruct (zget (replicate 8 0) (k / 64)) as [w|] eqn:E; [|apply Z.bits_0]. pose proof (zget_Some_range _ _ _ E) as Hr.
  rewrite zlen_replicate in Hr. rewrite zget_replicate in E by done. injection E as <-. apply Z.bits_0.
Qed.

Lemma chunk_init_pages_ok cnt c : clean c -> exists c', chunk_init_pages c = Ok c' /\ same_place c c' /\ chunk_ok cnt c' [] /\ ch_free_tail c' = 1.
Proof.
  intros (Hw & Hb & Hl & Hbits). unfold chunk_init_pages. rewrite wr_ok by lia. cbn [mbind res_bind]. rewrite wr_ok by lia. cbn [mbind res_bind].
  eexists. split; [done|]. split; [done|]. split; [|done]. split; cbn [ch_free_map ch_map ch_free_pages ch_free_tail set_pages]; try done.
  - by rewrite zlen_zset.
  - by apply bitset_ok_zset.
  - by rewrite zlen_zset.
  - by intros r ?%elem_of_nil.
  - constructor.
  - intros k Hk. rewrite bit_at_zset by lia. change (Z.shiftl 1 ZEND_MM_FIRST_PAGE - 1) with 1. destruct (Z.eqb_spec (k / 64) 0) as [E|E].
    + destruct (Z.eq_dec k 0) as [->|Hne]; [split; [by left|done]|]. rewrite Z.mod_small by dlia.
      assert (Z.testbit 1 k = false) as -> by (apply Z.bits_above_log2; cbn; lia). split; [done|intros [|H]; [done|by apply elem_of_nil in H]].
    + rewrite Hbits by (destruct (Z.eq_dec k 0); [subst; done|lia]). split; [done|]. intros [->|H]; [done|by apply elem_of_nil in H].
Qed.

(** The ring with the main chunk first. *)
Lemma ring_main cnt h cs m sys G : heap_ok cnt h cs m sys G -> exists r0 rest, g_ring G = (mm_main_chunk h, r0) :: rest /\
  dpath cs (mm_main_chunk h) rest.*1 (mm_main_chunk h) /\ NoDup (mm_main_chunk h :: rest.*1).
Proof.
  intros Hok. pose proof (hk_ring _ _ _ _ _ _ Hok) as Hl. pose proof (hk_nodup _ _ _ _ _ _ Hok) as Hn. apply NoDup_app in Hn as [Hn _].
  destruct (g_ring G) as [|[x r0] rest]; [done|]. cbn in Hl, Hn. destruct Hl as [-> Hl]. by exists r0, rest.
Qed.

Lemma ring_chunk cnt h cs m sys G a : heap_ok cnt h cs m sys G -> a ∈ (g_ring G).*1 -> exists c, cs !! a = Some c.
Proof. intros Hok ([b rs] & -> & Hin)%list_elem_of_fmap. destruct (hk_chunks _ _ _ _ _ _ Hok b rs Hin) as (c & Hc & _). by exists c. Qed.

Lemma chunk_init_ok cnt h h1 cs m sys G a c0 hs E : heap_ok cnt h cs m sys G -> g_huge G ≡ₚ (a, ZEND_MM_CHUNK_SIZE) :: hs ->
  cs !! a = Some c0 -> clean c0 -> (exists pk, h1 = set_counts (mm_chunks_count h + 1) pk h) ->
  wp (zend_mm_chunk_init a) (mkState (Some h1) cs m sys)
    (fun _ s => exists cs' c, s = mkState (Some h1) cs' m sys /\ cs' !! a = Some c /\ ch_free_tail c = 1 /\
       heap_ok cnt h1 cs' m sys (with_regions (g_ring G ++ [(a, [])]) (g_cached G) hs (g_rextra G - ZEND_MM_CHUNK_SIZE) G)) E.
Proof.
  intros Hok Hp Hc0 Hcl [pk ->]. destruct (ring_main _ _ _ _ _ _ Hok) as (r0 & rest & Hring & Hd & Hn).
  pose proof (region_not_chunk _ _ _ _ _ _ _ _ _ Hok Hp) as Ha.
  assert (Har : a ∉ mm_main_chunk h :: rest.*1).
  { intros Hi. apply Ha, elem_of_app. left. rewrite Hring. exact Hi. }
  assert (Hac : a ∉ g_cached G) by (intros Hi; apply Ha, elem_of_app; by right).
  set (main := mm_main_chunk h) in *. set (prev := lst main rest.*1).
  assert (Hmain : main ∈ main :: rest.*1) by (by left).
  assert (Hprev : prev ∈ main :: rest.*1) by apply lst_in.
  destruct (ring_chunk _ _ _ _ _ _ main Hok) as [cm Hcm]; [by rewrite Hring|].
  destruct (ring_chunk _ _ _ _ _ _ prev Hok) as [cp Hcp]; [by rewrite Hring|].
  assert (Hpm : ch_prev cm = prev).
  { pose proof Hd as Hd'. clear -Hd' Hcm. assert (H : forall l x, dpath cs x l main -> ch_prev <$> cs !! main = Some (lst x l)).
    { induction l as [|b l IH]; intros x H; cbn in *; [tauto|]. apply IH. tauto. }
    apply H in Hd'. rewrite Hcm in Hd'. by injection Hd'. }
  assert (Hma : main <> a) by (by intros <-). assert (Hpa : prev <> a) by (by intros E'; rewrite E' in Hprev).
  unfold zend_mm_chunk_init. step. step; [exact Hcm|]. rewrite Hpm. step; [exact Hc0|].
  set (ca := set_links _ prev _). set (cs1 := <[a := ca]> cs).
  assert (Hcp1 : cs1 !! prev = Some cp) by (unfold cs1; by rewrite lookup_insert_ne).
  step; [exact Hcp1|]. set (cs2 := <[prev := _]> cs1).
  destruct (cs2 !! main) as [cm2|] eqn:Hcm2.
  2:{ unfold cs2, cs1 in Hcm2. apply lookup_insert_None in Hcm2 as [Hcm2 _]. rewrite lookup_insert_ne in Hcm2 by done. congruence. }
  step; [exact Hcm2|]. cbn [mm_main_chunk set_counts]. fold main. set (cs3 := <[main := _]> cs2).
  assert (Hca3 : cs3 !! a = Some ca) by (unfold cs3, cs2, cs1; rewrite (lookup_insert_ne _ main), (lookup_insert_ne _ prev), lookup_insert_eq by done; done).
  assert (Hrel : relinked cs1 cs3) by (eapply relinked_trans; by apply relinked_links).
  destruct (Hrel prev cp Hcp1) as (cp3 & Hcp3 & _). step; [exact Hcp3|]. step; [exact Hca3|].
  destruct (chunk_init_pages_ok (cnt a) ca) as (c' & Hc' & (Hh & Hnx & Hpv & _) & Hcok & Htail); [done|]. step; [exact Hc'|].
  eapply wp_put_chunk; [exact Hca3|]. set (cf := set_num _ c'). exists (<[a := cf]> cs3), cf. split; [done|]. split; [apply lookup_insert_eq|].
  split; [done|].
  assert (Hother : forall b, b <> a -> <[a := cf]> cs3 !! b = cs3 !! b) by (intros; by apply lookup_insert_ne).
  assert (Hpmt : (g_ring G ++ [(a, [])]).*1 ++ g_cached G ≡ₚ a :: chunks_of G).
  { unfold chunks_of. rewrite fmap_app, <- app_assoc. cbn. by rewrite <- Permutation_middle. }
  apply (ok_relink cnt cnt h _ cs); try done.
  - rewrite Hring. cbn [fmap list_fmap app fst ring_links]. fold main. split; [done|]. rewrite fmap_app. cbn [fmap list_fmap fst].
    apply NoDup_cons in Hn as [Hn1 Hn2]. apply (dpath_insert cs _ main rest.*1 a [] main); rewrite ?app_nil_r; try done.
    + by apply NoDup_cons.
    + intros b Hb Hba. rewrite Hother by done. unfold cs3. rewrite next_set_prev by done. unfold cs2. rewrite next_set_next by done.
      rewrite decide_False by done. unfold cs1. by rewrite lookup_insert_ne.
    + fold prev. rewrite Hother by done. unfold cs3. rewrite next_set_prev by done. unfold cs2. rewrite next_set_next by done. by rewrite decide_True.
    + rewrite lookup_insert_eq. cbn. by rewrite Hnx.
    + cbn [hd]. intros b Hb Hba. rewrite Hother by done. unfold cs3. rewrite prev_set_prev by done. rewrite decide_False by done.
      unfold cs2. rewrite prev_set_next by done. unfold cs1. by rewrite lookup_insert_ne.
    + cbn [hd]. rewrite Hother by done. unfold cs3. rewrite prev_set_prev by done. by rewrite decide_True.
    + rewrite lookup_insert_eq. cbn. by rewrite Hpv.
  - intros b rs [Hb|[= -> ->]%list_elem_of_singleton]%elem_of_app.
    + assert (Hba : b <> a) by (intros ->; apply Ha; by apply (ring_in_chunks G a rs)).
      destruct (hk_chunks _ _ _ _ _ _ Hok b rs Hb) as (cb & Hcb & Hhb & Hokb).
      destruct (Hrel b cb) as (cb' & Hcb' & Hs); [unfold cs1; by rewrite lookup_insert_ne|]. exists cb'. rewrite Hother by done.
      split; [done|]. split; [rewrite <- Hhb; apply Hs|by eapply same_runs_ok].
    + exists cf. rewrite lookup_insert_eq. split; [done|]. split; [cbn; by rewrite Hh|].
      destruct Hcok. by split.
  - eapply cached_list_frame; [|apply (hk_cached _ _ _ _ _ _ Hok)]. intros b Hb. 
    assert (Hbr : b ∉ main :: rest.*1).
    { intros Hi. pose proof (hk_nodup _ _ _ _ _ _ Hok) as Hnd. apply NoDup_app in Hnd as (_ & Hnd & _). apply (Hnd b); [by rewrite Hring|done]. }
    rewrite Hother by (by intros ->). unfold cs3, cs2, cs1. rewrite !lookup_insert_ne; [done| | |]; intros <-; done.
  - rewrite Hpmt. apply NoDup_cons. split; [done|apply (hk_nodup _ _ _ _ _ _ Hok)].
  - rewrite Hpmt, Hp, fmap_cons. cbn [app]. by rewrite <- Permutation_middle.
  - intros b. change [(a, [])] with ((a, []) :: @nil (Z * list run)). by rewrite elems_nil, app_nil_r.
  - by rewrite large_nil, app_nil_r.
  - cbn [mm_chunks_count set_counts]. rewrite (proj1 (hk_counts _ _ _ _ _ _ Hok)), zlen_app. done.
  - apply (hk_counts _ _ _ _ _ _ Hok).
  - cbn [mm_real_size set_counts]. rewrite (hk_real _ _ _ _ _ _ Hok). f_equal. unfold zlen. rewrite Hpmt. cbn [length]. lia.
Qed.

(** The header of a new region. *)
Lemma alloc_chunk_ok cnt h cs m sys G E : heap_ok cnt h cs m sys G ->
  wp alloc_chunk (mkState (Some h) cs m sys)
    (fun p s => mapped_region cnt h m G ZEND_MM_CHUNK_SIZE p s /\ (p <> 0 -> st_chunks s !! p = Some zero_chunk)) E.
Proof.
  intros Hok. unfold alloc_chunk. apply wp_bind. eapply wp_mono; [apply (chunk_alloc_ok cnt); [done|done|left; pose proof low_free; lia]|].
  intros p s (cs' & m' & sys' & -> & Hk & Hor). destruct (Z.eqb_spec p 0) as [->|Hp].
  - apply wp_bind, wp_ret, wp_ret. split; [|done]. by exists cs', m', sys'.
  - destruct Hor as [[? _]|[Hp0 Hok']]; [done|]. apply wp_bind. unfold wp at 1, map_header. cbn [st_heap st_chunks st_mem st_os]. apply wp_ret.
    split; [|intros _; cbn [st_chunks]; apply lookup_insert_eq]. exists (<[p := zero_chunk]> cs'), m', sys'. split; [done|]. split; [done|]. right. split; [done|].
    (* a header in a region outside the chunks *)
    pose proof (region_not_chunk _ _ _ _ _ _ p ZEND_MM_CHUNK_SIZE (g_huge G) Hok' ltac:(done)) as Hn.
    assert (Hne : forall a, a ∈ chunks_of (with_regions (g_ring G) (g_cached G) ((p, ZEND_MM_CHUNK_SIZE) :: g_huge G) (g_rextra G) G) ->
              <[p := zero_chunk]> cs' !! a = cs' !! a) by (intros a Ha; apply lookup_insert_ne; by intros <-).
    open_heap Hok'. split; try done.
    + eapply ring_links_frame; [| |exact hk_ring0]; intros a Ha; (rewrite Hne; [done|apply elem_of_app; by left]).
    + intros a rs Ha. rewrite Hne; [by apply hk_chunks0|by eapply ring_in_chunks].
    + eapply cached_list_frame; [|exact hk_cached0]. intros a Ha. apply Hne, elem_of_app. by right.
Qed.

(** ** Moving a chunk to the front *)

Lemma move_to_front_ok cnt h cs m sys G l1 a rs l2 E : heap_ok cnt h cs m sys G -> g_ring G = l1 ++ (a, rs) :: l2 -> l1 <> [] ->
  wp (move_to_front a) (mkState (Some h) cs m sys)
    (fun _ s => exists cs' r0 l1', s = mkState (Some h) cs' m sys /\ l1 = (mm_main_chunk h, r0) :: l1' /\ relinked cs cs' /\
       heap_ok cnt h cs' m sys (with_ring ((mm_main_chunk h, r0) :: (a, rs) :: l1' ++ l2) G)) E.
Proof.
  intros Hok Hring Hne.
  destruct (ring_neighbours _ _ _ _ _ _ _ _ _ _ Hok Hring Hne) as (r0 & l1' & c & cp & cn & -> & Hc & Hp & Hnx & Hcp & Hcn & Hpa & Hna & Hd & Hn).
  set (main := mm_main_chunk h) in *. assert (Hn' := Hn). apply NoDup_cons in Hn' as [Hmn Hn2].
  unfold move_to_front. step; [exact Hc|]. step; [exact Hcp|]. set (cs1 := <[ch_prev c := _]> cs).
  assert (Hc1 : cs1 !! a = Some c) by (unfold cs1; by rewrite lookup_insert_ne).
  step; [exact Hc1|]. destruct (relinked_links cs (ch_prev c) cp (ch_next c) (ch_prev cp) Hcp (ch_next c) cn Hcn) as (cn1 & Hcn1 & _).
  step; [exact Hcn1|]. set (cs2 := <[ch_next c := _]> cs1).
  assert (Hrel2 : relinked cs cs2) by (eapply relinked_trans; by apply relinked_links).
  assert (Hc2 : cs2 !! a = Some c) by (unfold cs2; by rewrite lookup_insert_ne).
  assert (Hd2 : dpath cs2 main (l1'.*1 ++ l2.*1) main).
  { apply (dpath_delete cs cs2 main l1'.*1 a l2.*1 main Hd Hn Hmn).
    - intros b Hb. unfold cs2. rewrite next_set_prev by done. unfold cs1. rewrite next_set_next by done. by rewrite decide_False by (by rewrite Hp).
    - unfold cs2. rewrite next_set_prev by done. unfold cs1. rewrite next_set_next by done. rewrite decide_True by done. by rewrite Hnx.
    - intros b Hb. unfold cs2. rewrite prev_set_prev by done. rewrite decide_False by (by rewrite Hnx). unfold cs1. by rewrite prev_set_next.
    - unfold cs2. rewrite prev_set_prev by done. rewrite decide_True by done. by rewrite Hp. }
  destruct (ring_chunk _ _ _ _ _ _ main Hok) as [cm0 Hcm0]; [rewrite Hring; by left|].
  destruct (Hrel2 main cm0 Hcm0) as (cm & Hcm & _). step. step; [exact Hcm|]. step; [exact Hc2|]. set (cs3 := <[a := _]> cs2).
  assert (Ham : main <> a) by (intros E'; apply Hmn; rewrite E'; apply elem_of_app; right; by left).
  assert (Hcm3 : cs3 !! main = Some cm) by (unfold cs3; by rewrite lookup_insert_ne).
  fold main. step; [exact Hcm3|]. set (cs4 := <[main := _]> cs3).
  assert (Hrel4 : relinked cs2 cs4) by (eapply relinked_trans; by apply relinked_links).
  assert (Hmnx : ch_next cm = hd main (l1'.*1 ++ l2.*1)).
  { destruct (l1'.*1 ++ l2.*1); cbn in Hd2; rewrite Hcm in Hd2; destruct Hd2 as [[= ->] _]; done. }
  assert (Hnin : ch_next cm ∈ (g_ring G).*1).
  { rewrite Hmnx, Hring, fmap_app, !fmap_cons. cbn [fst app]. destruct l1' as [|x l1']; [destruct l2 as [|y l2]|]; cbn.
    - by left.
    - right. right. by left.
    - right. by left. }
  destruct (ring_chunk _ _ _ _ _ _ _ Hok Hnin) as [cmn0 Hcmn0].
  destruct (relinked_trans _ _ _ Hrel2 Hrel4 _ _ Hcmn0) as (cmn & Hcmn & _). eapply wp_upd_chunk; [exact Hcmn|]. set (cs5 := <[ch_next cm := _]> cs4).
  assert (Hrel5 : relinked cs cs5).
  { eapply relinked_trans; [exact Hrel2|]. eapply relinked_trans; [exact Hrel4|]. by apply relinked_links. }
  assert (Hmna : ch_next cm <> a).
  { rewrite Hmnx. destruct (l1'.*1 ++ l2.*1) as [|x l] eqn:El; cbn; [done|]. intros ->.
    assert (Ha : a ∈ l1'.*1 ++ l2.*1) by (rewrite El; by left). apply NoDup_app in Hn2 as (_ & Hn2 & Hn3). apply NoDup_cons in Hn3 as [Hn3 _].
    apply elem_of_app in Ha as [Ha|Ha]; [|done]. apply (Hn2 a Ha). by left. }
  exists cs5, r0, l1'. split; [done|]. split; [done|]. split; [done|].
  assert (Hpm : (main, r0) :: (a, rs) :: l1' ++ l2 ≡ₚ g_ring G) by (rewrite Hring; cbn [app]; by rewrite Permutation_middle).
  assert (Hpm1 : ((main, r0) :: (a, rs) :: l1' ++ l2).*1 ++ g_cached G ≡ₚ chunks_of G) by (unfold chunks_of; by rewrite Hpm).
  assert (Hcs4a : cs4 !! a = Some (set_links (ch_next cm) main c)) by (unfold cs4, cs3; rewrite lookup_insert_ne by done; apply lookup_insert_eq).
  assert (Hcs4 : forall b, b <> a -> ch_next <$> cs4 !! b = (if decide (b = main) then Some a else ch_next <$> cs2 !! b) /\ ch_prev <$> cs4 !! b = ch_prev <$> cs2 !! b).
  { intros b Hb. unfold cs4. rewrite next_set_next, prev_set_next by done. unfold cs3. by rewrite lookup_insert_ne by done. }
  pose proof (ok_relink cnt cnt h h cs cs5 m sys G ((main, r0) :: (a, rs) :: l1' ++ l2) (g_cached G) (g_huge G) (g_rextra G) Hok) as H.
  unfold with_ring, with_regions in *. apply H; try done; clear H.
  - cbn [fmap list_fmap fst ring_links]. fold main. split; [done|]. change (fmap fst (l1' ++ l2)) with ((l1' ++ l2).*1). rewrite fmap_app.
    apply (dpath_insert cs2 cs5 main [] a (l1'.*1 ++ l2.*1) main Hd2); cbn [lst app]; try done.
    + apply NoDup_app in Hn2 as (H1 & H2 & H3). apply NoDup_cons in H3 as [H3 H4]. apply NoDup_cons. split.
      * intros [Hi|Hi]%elem_of_app; apply Hmn, elem_of_app; [by left|right; by right].
      * apply NoDup_app. split; [done|]. split; [|done]. intros x Hx Hx2. apply (H2 x Hx). by right.
    + intros [Hi|Hi]%elem_of_app; apply Hmn, elem_of_app; [by left|right; by right].
    + intros [Hi|Hi]%elem_of_cons; [by apply Ham|]. apply NoDup_app in Hn2 as (H1 & H2 & H3). apply NoDup_cons in H3 as [H3 H4].
      apply elem_of_app in Hi as [Hi|Hi]; [|done]. apply (H2 a Hi). by left.
    + intros b Hb Hba. unfold cs5. rewrite next_set_prev by done. destruct (Hcs4 b Hba) as [-> _]. by rewrite decide_False.
    + unfold cs5. rewrite next_set_prev by done. destruct (Hcs4 main Ham) as [-> _]. by rewrite decide_True.
    + unfold cs5. rewrite next_set_prev by done. rewrite Hcs4a. cbn. by rewrite Hmnx.
    + intros b Hb Hba. unfold cs5. rewrite prev_set_prev by done. rewrite decide_False by (by rewrite Hmnx). by destruct (Hcs4 b Hba) as [_ ->].
    + unfold cs5. rewrite prev_set_prev by done. by rewrite decide_True.
    + unfold cs5. rewrite prev_set_prev by done. rewrite decide_False by (by intros E'). by rewrite Hcs4a.
  - intros b rb Hb. eapply relinked_chunks; [done|done|]. by rewrite <- Hpm.
  - eapply cached_list_frame; [|apply (hk_cached _ _ _ _ _ _ Hok)]. intros b Hb.
    assert (Hbr : b ∉ (g_ring G).*1).
    { intros Hi. pose proof (hk_nodup _ _ _ _ _ _ Hok) as Hnd. apply NoDup_app in Hnd as (_ & Hnd & _). by apply (Hnd b). }
    assert (Hin2 : forall x, x ∈ main :: l1'.*1 ++ a :: l2.*1 -> x <> b).
    { intros x Hx ->. apply Hbr. rewrite Hring, fmap_app, !fmap_cons. exact Hx. }
    unfold cs5, cs4, cs3, cs2, cs1. rewrite !lookup_insert_ne; [done|..].
    + apply Hin2. rewrite Hp, app_comm_cons. apply elem_of_app. left. apply lst_in.
    + apply Hin2. rewrite Hnx. destruct l2; cbn; [by left|]. right. apply elem_of_app. right. right. by left.
    + apply Hin2. right. apply elem_of_app. right. by left.
    + apply Hin2. by left.
    + by intros <-.
  - rewrite Hpm1. apply (hk_nodup _ _ _ _ _ _ Hok).
  - by rewrite Hpm1.
  - intros b. by rewrite Hpm.
  - by rewrite Hpm.
  - rewrite (proj1 (hk_counts _ _ _ _ _ _ Hok)). unfold zlen. by rewrite Hpm.
  - apply (hk_counts _ _ _ _ _ _ Hok).
  - rewrite (hk_real _ _ _ _ _ _ Hok). unfold zlen. by rewrite Hpm1.
Qed.

(** ** Deletion *)

(** What the operations on chunks leave alone in the heap. *)
Definition kept h h' : Prop :=
  mm_main_chunk h' = mm_main_chunk h /\ mm_free_slot h' = mm_free_slot h /\ mm_huge_list h' = mm_huge_list h /\
  mm_size h' = mm_size h /\ mm_peak h' = mm_peak h /\ mm_limit h' = mm_limit h /\ mm_overflow h' = mm_overflow h.

Lemma kept_refl h : kept h h.
Proof. done. Qed.
Lemma kept_trans h1 h2 h3 : kept h1 h2 -> kept h2 h3 -> kept h1 h3.
Proof. unfold kept. intuition congruence. Qed.

Lemma unmap_insert {V} (m : gmap Z V) p n a v : ~ (p <= a < p + n) -> unmap p n (<[a := v]> m) = <[a := v]> (unmap p n m).
Proof.
  intros Ha. unfold unmap. rewrite map_filter_insert_True; [done|]. cbn. unfold in_span.
  destruct (Z.leb_spec p a), (Z.ltb_spec a (p + n)); cbn; done || lia.
Qed.

(** A region is returned. *)
Lemma free_region_ok cnt h cs m sys G p n hs E : heap_ok cnt h cs m sys G -> g_huge G ≡ₚ (p, n) :: hs ->
  wp (zend_mm_chunk_free p n) (mkState (Some h) cs m sys)
    (fun _ s => exists cs' m' sys', s = mkState (Some h) cs' m' sys' /\ cs' = unmap p n cs /\
       keeps (blocks G ++ hs) m m' /\ heap_ok cnt h cs' m' sys' (with_regions (g_ring G) (g_cached G) hs (g_rextra G) G)) E.
Proof.
  intros Hok Hp. destruct (ok_drop _ _ _ _ _ _ _ _ Hok Hp) as [Hok' Hap].
  destruct (ok_unmap _ _ _ _ _ _ p n Hok' Hap) as (Hmain & Hok2 & Hk). apply wp_munmap; [done|].
  eexists _, _, _. split; [done|]. split; [done|]. by split.
Qed.

Definition deleted cnt h m G l1 l2 (s : mstate) : Prop :=
  exists h' cs' m' sys' cached', s = mkState (Some h') cs' m' sys' /\ keeps (mine G) m m' /\ kept h h' /\
    heap_ok cnt h' cs' m' sys' (with_regions (l1 ++ l2) cached' (g_huge G) (g_rextra G) G).

Lemma delete_chunk_ok cnt h cs m sys G l1 a l2 E : heap_ok cnt h cs m sys G -> g_ring G = l1 ++ (a, []) :: l2 -> l1 <> [] ->
  wp (zend_mm_delete_chunk a) (mkState (Some h) cs m sys) (fun _ s => deleted cnt h m G l1 l2 s) E.
Proof.
  intros Hok Hring Hne.
  destruct (ring_neighbours _ _ _ _ _ _ _ _ _ _ Hok Hring Hne) as (r0 & l1' & c & cp & cn & _ & Hc & _ & _ & Hcp & Hcn & Hpa & Hna & _ & _).
  unfold zend_mm_delete_chunk. step; [exact Hc|]. step; [exact Hcn|]. set (cs1 := <[ch_next c := _]> cs).
  assert (Hc1 : cs1 !! a = Some c) by (unfold cs1; by rewrite lookup_insert_ne). step; [exact Hc1|].
  destruct (relinked_links cs (ch_next c) cn (ch_next cn) (ch_prev c) Hcn (ch_prev c) cp Hcp) as (cp1 & Hcp1 & _). fold cs1 in Hcp1.
  step; [exact Hcp1|]. set (cs2 := <[ch_prev c := _]> cs1).
  destruct (ring_unlink_ok cnt h cs cs1 cs2 m sys G l1 a l2 c cp1 cn Hok Hring Hne Hc Hcn eq_refl Hcp1 eq_refl) as (Hok2 & Hc2 & Hcl).
  step. step. set (h1 := set_counts _ _ h) in *. set (G1 := with_regions _ _ _ _ G) in Hok2.
  apply wp_if; intros Hdelay.
  - (* the chunk goes to the cache *)
    step. step; [exact Hc2|]. apply wp_upd_heap.
    pose proof (push_ok cnt h1 cs2 m sys G1 a c (g_huge G) Hok2 ltac:(done) Hc2 Hcl) as Hok3.
    eexists _, _, _, _, (a :: g_cached G). split; [done|]. split; [apply keeps_refl|]. split; [done|].
    unfold with_regions in *. cbn in *. replace (g_rextra G + ZEND_MM_CHUNK_SIZE - ZEND_MM_CHUNK_SIZE) with (g_rextra G) in Hok3 by lia. exact Hok3.
  - step. set (h2 := set_real _ _ h1).
    assert (Hok3 : heap_ok cnt h2 cs2 m sys (with_extra (g_extra G) (g_rextra G) G1)).
    { apply (ok_sizes cnt h1); [exact Hok2|done|done|apply (hk_size _ _ _ _ _ _ Hok2)|]. cbn [mm_real_size h2 set_real].
      change (mm_real_size h) with (mm_real_size h1). rewrite (hk_real _ _ _ _ _ _ Hok2). unfold u64. rewrite Zminus_mod_idemp_l. f_equal. cbn. lia. }
    set (G2 := with_extra _ _ G1) in Hok3.
    (* the statistics of deletions *)
    assert (Hst : forall Q, (forall h3, kept h2 h3 -> mm_cached_chunks h3 = mm_cached_chunks h1 -> mm_cached_chunks_count h3 = mm_cached_chunks_count h1 ->
                    heap_ok cnt h3 cs2 m sys G2 -> Q tt (mkState (Some h3) cs2 m sys)) ->
              wp (if mm_cached_chunks h1 =? 0 then
                    if negb (mm_chunks_count h1 =? mm_last_chunks_delete_boundary h1) then upd_heap (set_deletes (mm_chunks_count h1) 0)
                    else upd_heap (set_deletes (mm_last_chunks_delete_boundary h1) (mm_last_chunks_delete_count h1 + 1))
                  else mret tt) (mkState (Some h2) cs2 m sys) Q E).
    { intros Q HQ. destruct (mm_cached_chunks h1 =? 0); [|apply wp_ret; apply HQ; done].
      destruct (negb _); apply wp_upd_heap; apply HQ; try done; by apply (ok_same cnt h2). }
    apply wp_bind, Hst. intros h3 Hk3 Hca3 Hcc3 Hok4. clear Hst.
    assert (Hk03 : kept h h3) by (eapply kept_trans; [|exact Hk3]; done).
    assert (Hfree : wp (zend_mm_chunk_free a ZEND_MM_CHUNK_SIZE) (mkState (Some h3) cs2 m sys) (fun _ s => deleted cnt h m G l1 l2 s) E).
    { eapply wp_mono; [apply (free_region_ok cnt h3 cs2 m sys G2 a ZEND_MM_CHUNK_SIZE (g_huge G) E Hok4); done|].
      intros _ s (cs' & m' & sys' & -> & _ & Hk & Hok5). exists h3, cs', m', sys', (g_cached G). split; [done|].
      split; [|by split]. unfold mine. unfold blocks in *. cbn in Hk. rewrite Hring, large_nil. exact Hk. }
    destruct (Z.eqb_spec (mm_cached_chunks h1) 0) as [H0|H0]; [exact Hfree|]. step; [exact Hc2|].
    pose proof (hk_cached _ _ _ _ _ _ Hok4) as Hcl4. destruct (g_cached G2) as [|k l] eqn:Ecached; [cbn in Hcl4; congruence|].
    destruct (pop_ok cnt h3 cs2 m sys G2 k l Hok4 Ecached) as (ck & Hk & Hck & Hckl & Hok5).
    rewrite <- Hca3, Hk. step; [exact Hck|].
    destruct (ch_num ck <? ch_num c); [exact Hfree|]. step; [exact Hc2|].
    set (G3 := with_regions _ _ _ _ G2) in Hok5. set (h4 := set_cached _ _ h3) in Hok5.
    (* the first of the cache is returned and the chunk takes its place *)
    assert (Hak : ~ (k <= a < k + ZEND_MM_CHUNK_SIZE)).
    { pose proof (hk_huge _ _ _ _ _ _ Hok5) as Hap. cbn in Hap. destruct Hap as [Hap _]. inversion Hap as [|? ? Hap' _]; subst.
      unfold apart2, ZEND_MM_CHUNK_SIZE in *. cbn in Hap'. lia. }
    destruct (ok_drop cnt h4 cs2 m sys G3 (k, ZEND_MM_CHUNK_SIZE) ((a, ZEND_MM_CHUNK_SIZE) :: g_huge G) Hok5 ltac:(done)) as [Hok6 Hap6].
    destruct (ok_unmap _ _ _ _ _ _ k ZEND_MM_CHUNK_SIZE Hok6 Hap6) as (Hmain & Hok7 & Hkeep).
    apply wp_bind, wp_munmap; [exact Hmain|]. apply wp_upd_heap.
    rewrite unmap_insert by done.
    pose proof (push_ok cnt h4 _ _ _ _ a c (g_huge G) Hok7 ltac:(done)) as Hok8.
    rewrite lookup_unmap in Hok8 by done. specialize (Hok8 Hc2 Hcl).
    eexists _, _, _, _, (a :: l). split; [reflexivity|]. split.
    { intros a0 n0 k0 Hin Hk0. apply (Hkeep a0 n0 k0); [|done]. unfold mine, blocks in *. rewrite Hring, large_nil in Hin.
      cbn. apply elem_of_app in Hin as [Hin|Hin]; apply elem_of_app; [by left|right; by right]. }
    split; [done|]. unfold with_regions in *. cbn in *.
    replace (g_rextra G + ZEND_MM_CHUNK_SIZE - ZEND_MM_CHUNK_SIZE) with (g_rextra G) in Hok8 by lia.
    replace (mm_cached_chunks_count h3 - 1 + 1) with (mm_cached_chunks_count h3) in Hok8 by lia. rewrite Hcc3 in Hok8.
    exact Hok8.
Qed.
End Ring.
