(* ===== verification/MmGc.v ===== *)
(** * The collection of free runs

    [zend_mm_gc] counts the free slots of every run in the map, takes the slots of
    the runs that are free out of the free lists, returns the pages of these runs, and
    deletes the chunks that have no runs left. First the list of free slots of one bin,
    then the pages of the chunks, then the whole. *)

From stdpp Require Import functions.
From S2P Require Import Prelude.
From S2P Require Import MmPageOps.
From S2P Require Import MmHeapOps.
From S2P Require Import MmAllocOps.
From S2P Require Import MmChunk.
From S2P Require Import MmHeapInv.
From S2P Require Import MmHeap.
From S2P Require Import MmRing.

Lemma not_both {A B} `{EqDecision A} (a a' : A) (b b' : B) : ~ (a = a' /\ b = b') -> a <> a' \/ b <> b'.
Proof. intros H. destruct (decide (a = a')) as [->|]; [right|by left]. intros ->. by apply H. Qed.

Section Slots.
Context {OS : Os} {L : OsLaws OS} {LF : LowFree OS}.
Implicit Types (cnt : Z -> Z -> Z) (h : zend_mm_heap) (cs : gmap Z zend_mm_chunk) (m : gmap Z Z) (sys : os) (G : view) (s : mstate).

(** ** Changes of the free lists *)

Lemma ok_slots cnt h h' cs m m' sys G free' used' extra' : heap_ok cnt h cs m sys G -> same_links h h' -> mm_real_size h' = mm_real_size h ->
  zlen (mm_free_slot h') = 30 ->
  (forall b, 0 <= b < 30 -> exists p, zget (mm_free_slot h') b = Some p /\ chain m' p (free' b)) ->
  (forall b, 0 <= b < 30 -> free' b ++ used' b ≡ₚ elems (g_ring G) b) ->
  mm_size h' = u64 (total (large_blocks (g_ring G) ++ small_blocks used') + extra') ->
  heap_ok cnt h' cs m' sys (View (g_ring G) (g_cached G) free' used' (g_huge G) extra' (g_rextra G)).
Proof.
  intros Hok (Hm & Hca & Hcc & Hccc) Hr Hsl Hch Hperm Hsz. open_heap Hok.
  split; unfold chunks_of, blocks, heap_addr in *; cbn [g_ring g_cached g_free g_used g_huge g_extra g_rextra];
    rewrite ?Hm, ?Hca, ?Hcc, ?Hccc, ?Hr; done.
Qed.

(** Writing the first word of a slot. *)
Lemma store_chain cnt h cs m sys G b q v b' p l : heap_ok cnt h cs m sys G -> q ∈ elems (g_ring G) b ->
  (forall x, x ∈ l -> x ∈ elems (g_ring G) b') -> (b <> b' \/ q ∉ l) -> 0 <= b < 30 -> 0 <= b' < 30 ->
  chain m p l -> chain (store_bytes m q (bytes_of v)) p l.
Proof.
  intros Hok Hq Hl Hd Hb Hb'. apply chain_frame. intros a k Ha Hk. apply store_frame.
  pose proof (elems_apart _ _ _ _ _ _ b q b' a Hok Hq (Hl a Ha) ltac:(destruct Hd as [|Hd]; [by right|left; by intros ->])) as Hap.
  destruct (bin_facts b Hb) as (_ & _ & _ & _ & ? & _), (bin_facts b' Hb') as (_ & _ & _ & _ & ? & _). unfold apart2 in Hap. cbn [fst snd] in Hap. lia.
Qed.

Lemma store_keeps cnt h cs m sys G b q v : heap_ok cnt h cs m sys G -> 0 <= b < 30 -> q ∈ elems (g_ring G) b -> q ∉ g_used G b ->
  keeps (mine G) m (store_bytes m q (bytes_of v)).
Proof.
  intros Hok Hb Hq Hn a n k Hin Hk. apply store_frame. destruct (bin_facts b Hb) as (_ & _ & _ & _ & Hsz & _).
  apply elem_of_app in Hin as [Hin|Hin].
  - pose proof (slot_block_apart _ _ _ _ _ _ _ _ _ Hok Hq Hn Hin) as Hap. unfold apart2 in Hap. cbn [fst snd] in Hap. lia.
  - apply elem_of_elems in Hq as (c & rs & r & k0 & Hc & Hr & Hkd & Hk0 & ->). destruct (run_in_chunk _ _ _ _ _ _ _ _ _ Hok Hc Hr) as (_ & ? & ? & ?).
    destruct (small_run _ _ _ _ _ _ _ _ _ _ Hok Hc Hr Hkd) as [_ Hcb]. pose proof (elem_span b c r k0 Hb Hcb Hk0) as Hs.
    pose proof (hk_huge_chunks _ _ _ _ _ _ Hok (a, n) c Hin (ring_in_chunks _ _ _ Hc)) as Hap.
    unfold apart2, run_span, ZEND_MM_PAGE_SIZE, ZEND_MM_CHUNK_SIZE in *. cbn [fst snd] in *. lia.
Qed.

(** ** The run of a slot *)

(** The counters are those of runs with at most 512 slots. *)
Definition cnt_range cnt G : Prop :=
  forall a rs r, (a, rs) ∈ g_ring G -> r ∈ rs -> 0 <= cnt a (r_start r) <= 512.

Lemma slot_home cnt h cs m sys G b p : heap_ok cnt h cs m sys G -> p ∈ elems (g_ring G) b ->
  exists a rs r, (a, rs) ∈ g_ring G /\ r ∈ rs /\ r_kind r = Small b /\ p ∈ run_elems a b r /\ chunk_addr a /\
    (run_span a r).1 <= p /\ p + 8 <= (run_span a r).1 + (run_span a r).2 /\ 1 <= r_start r /\ r_start r + r_count r <= 512 /\ 0 <= b < 30.
Proof.
  intros Hok (a & rs & r & k & Hin & Hr & Hk & Hkr & ->)%elem_of_elems. destruct (run_in_chunk _ _ _ _ _ _ _ _ _ Hok Hin Hr) as (Ha & ? & ? & ?).
  destruct (small_run _ _ _ _ _ _ _ _ _ _ Hok Hin Hr Hk) as [Hb Hc]. pose proof (elem_span b a r k Hb Hc Hkr) as Hs. cbv zeta in Hs.
  destruct (bin_facts b Hb) as (_ & _ & _ & _ & ? & _). exists a, rs, r. split_and!; try done; try lia.
  apply elem_of_run_elems. split; [done|]. by exists k.
Qed.

Lemma slot_run_ok cnt h cs m sys G b p a rs r c E (Q : Z * Z * Z -> mstate -> Prop) : heap_ok cnt h cs m sys G -> cnt_range cnt G ->
  (a, rs) ∈ g_ring G -> r ∈ rs -> r_kind r = Small b -> p ∈ run_elems a b r -> cs !! a = Some c ->
  Q (a, r_start r, ZEND_MM_SRUN_EX b (cnt a (r_start r))) (mkState (Some h) cs m sys) ->
  wp (slot_run b p) (mkState (Some h) cs m sys) Q E.
Proof.
  intros Hok Hcr Hin Hr Hk Hp Hc HQ. apply elem_of_run_elems in Hp as (_ & k & Hkr & Hp).
  destruct (run_in_chunk _ _ _ _ _ _ _ _ _ Hok Hin Hr) as (Ha & Hs1 & Hs2 & Hs3).
  destruct (small_run _ _ _ _ _ _ _ _ _ _ Hok Hin Hr Hk) as [Hb Hcb]. pose proof (elem_span b a r k Hb Hcb Hkr) as Hs.
  destruct (bin_facts b Hb) as (_ & _ & _ & _ & Hsz & _). cbv zeta in Hs. rewrite <- Hp in Hs.
  unfold run_span, ZEND_MM_PAGE_SIZE in Hs. cbn [fst snd] in Hs.
  destruct (address_in_chunk a p Ha) as [Hbase Hoff]; [unfold ZEND_MM_CHUNK_SIZE; lia|].
  destruct (hk_chunks _ _ _ _ _ _ Hok a rs Hin) as (c' & Hc' & Hh & Hcok). assert (c' = c) as -> by congruence.
  destruct (ck_runs _ _ _ Hcok r Hr) as (_ & _ & _ & Hmap). unfold run_in_map in Hmap. rewrite Hk in Hmap. destruct Hmap as (_ & Hm0 & Hmj).
  pose proof (Hcr a rs r Hin Hr) as Hcnt. destruct (srun_words b (cnt a (r_start r)) Hb Hcnt) as (W1 & W2 & W3 & _).
  unfold slot_run. rewrite Hbase, Hoff. step; [exact Hc|]. step. step; [by apply Z.eqb_eq|].
  step; [by rewrite (proj2 (Z.eqb_neq _ _)) by lia|].
  set (pg := (p - a) / ZEND_MM_PAGE_SIZE). assert (Hpg : r_start r <= pg < r_start r + r_count r) by (unfold pg, ZEND_MM_PAGE_SIZE; dlia).
  destruct (Z.eq_dec pg (r_start r)) as [E0|E0].
  - rewrite E0. step; [by apply rd_ok|]. step; [done|]. rewrite W2. apply wp_bind, wp_ret. step; [by rewrite W3, Z.eqb_refl|]. by apply wp_ret.
  - specialize (Hmj (pg - r_start r) ltac:(lia)). replace (r_start r + (pg - r_start r)) with pg in Hmj by lia.
    destruct (nrun_words b (pg - r_start r) Hb ltac:(lia)) as (V1 & V2 & _ & V4). step; [by apply rd_ok|]. step; [done|].
    rewrite V2, V4. replace (pg - (pg - r_start r)) with (r_start r) by lia. apply wp_bind. step; [by apply rd_ok|].
    step; [done|]. step; [by rewrite W2|]. apply wp_ret. step; [by rewrite W3, Z.eqb_refl|]. by apply wp_ret.
Qed.

(** ** Counting *)

(** How many of the slots in [l] are in the run. *)
Definition nslots (b : Z) (l : list Z) (a : Z) (r : run) : Z := zlen (filter (fun p => p ∈ run_elems a b r) l).

Lemma nslots_snoc b l p a r : nslots b (l ++ [p]) a r = nslots b l a r + (if decide (p ∈ run_elems a b r) then 1 else 0).
Proof.
  unfold nslots. rewrite filter_app, zlen_app, filter_cons, filter_nil. by destruct (decide (p ∈ run_elems a b r)).
Qed.

Lemma nslots_nonneg b l a r : 0 <= nslots b l a r.
Proof. apply zlen_nonneg. Qed.

Lemma zlen_run_elems a b r : r_kind r = Small b -> 0 <= b < 30 -> zlen (run_elems a b r) = bin_count b.
Proof.
  intros Hk Hb. unfold run_elems. rewrite Hk, Z.eqb_refl. unfold zlen. rewrite length_fmap, length_seqZ.
  destruct (bin_facts b Hb) as (_ & _ & _ & _ & _ & _ & ? & _). lia.
Qed.

Lemma nslots_bound b l a r : NoDup l -> r_kind r = Small b -> 0 <= b < 30 -> nslots b l a r <= bin_count b.
Proof.
  intros Hn Hk Hb. rewrite <- (zlen_run_elems a b r Hk Hb). unfold nslots, zlen.
  apply Nat2Z.inj_le, submseteq_length, NoDup_submseteq; [by apply NoDup_filter|]. by intros p [Hp _]%list_elem_of_filter.
Qed.

(** If the count is full, all slots of the run are in the list. *)
Lemma nslots_full b l a r p : NoDup l -> r_kind r = Small b -> 0 <= b < 30 -> nslots b l a r = bin_count b -> p ∈ run_elems a b r -> p ∈ l.
Proof.
  intros Hn Hk Hb Hf Hp. assert (Hs : filter (fun p => p ∈ run_elems a b r) l ≡ₚ run_elems a b r).
  { apply submseteq_length_Permutation.
    - apply NoDup_submseteq; [by apply NoDup_filter|]. by intros q [Hq _]%list_elem_of_filter.
    - pose proof (zlen_run_elems a b r Hk Hb). unfold nslots, zlen in *. lia. }
  rewrite <- Hs in Hp. by apply list_elem_of_filter in Hp as [_ ?].
Qed.

(** The counters of the runs of a bin. *)
Definition counted cnt G (b : Z) (l : list Z) : Prop :=
  forall a rs r, (a, rs) ∈ g_ring G -> r ∈ rs -> r_kind r = Small b -> cnt a (r_start r) = nslots b l a r.
Definition same_others cnt cnt' G (b : Z) : Prop :=
  forall a rs r, (a, rs) ∈ g_ring G -> r ∈ rs -> r_kind r <> Small b -> cnt' a (r_start r) = cnt a (r_start r).

Lemma start_inj cnt h cs m sys G a rs r r' : heap_ok cnt h cs m sys G -> (a, rs) ∈ g_ring G -> r ∈ rs -> r' ∈ rs -> r_start r = r_start r' -> r = r'.
Proof.
  intros Hok Hin Hr Hr' E. destruct (hk_chunks _ _ _ _ _ _ Hok a rs Hin) as (c & _ & _ & Hc).
  destruct (run_in_chunk _ _ _ _ _ _ _ _ _ Hok Hin Hr) as (_ & ? & ? & ?). destruct (run_in_chunk _ _ _ _ _ _ _ _ _ Hok Hin Hr') as (_ & ? & ? & ?).
  apply (runs_disjoint _ _ _ r r' (r_start r) Hc); done || lia.
Qed.

(** The state of a counter set to [v]. *)
Lemma set_counter_heap cnt h cs m sys G a rs r b v c : heap_ok cnt h cs m sys G -> (a, rs) ∈ g_ring G -> r ∈ rs -> r_kind r = Small b -> cs !! a = Some c ->
  exists mp, wr (ch_map c) (r_start r) (ZEND_MM_SRUN_EX b v) = Ok mp /\
    let cnt' := <[a := <[r_start r := v]> (cnt a)]> cnt in
    heap_ok cnt' h (<[a := set_map mp c]> cs) m sys G /\ cnt' a (r_start r) = v /\
    forall a' rs' r', (a', rs') ∈ g_ring G -> r' ∈ rs' -> a' <> a \/ r' <> r -> cnt' a' (r_start r') = cnt a' (r_start r').
Proof.
  intros Hok Hin Hr Hk Hc. destruct (hk_chunks _ _ _ _ _ _ Hok a rs Hin) as (c' & Hc' & Hh & Hcok). assert (c' = c) as -> by congruence.
  destruct (set_counter_ok (cnt a) c rs r b v Hcok Hr Hk) as (mp & Hmp & Hcok'). exists mp. split; [done|]. cbn zeta. split_and!.
  - eapply ok_chunk; [exact Hok|exact Hin|exact Hc|done| |intros a' Ha; by rewrite fn_lookup_insert_ne].
    by rewrite fn_lookup_insert.
  - by rewrite !fn_lookup_insert.
  - intros a' rs' r' Hin' Hr' Hne. destruct (decide (a' = a)) as [->|Ha]; [|by rewrite fn_lookup_insert_ne].
    destruct Hne as [|Hne]; [done|]. rewrite fn_lookup_insert, fn_lookup_insert_ne; [done|]. intros E.
    assert (rs' = rs) as -> by (by eapply ring_unique). apply Hne. symmetry. eapply start_inj; eauto.
Qed.

Lemma gc_count_ok fuel cnt h cs m sys G b p l0 l flag E : heap_ok cnt h cs m sys G -> cnt_range cnt G -> 0 <= b < 30 ->
  g_free G b = l0 ++ l -> chain m p l -> (length l < fuel)%nat -> counted cnt G b l0 ->
  wp (gc_count fuel b p flag) (mkState (Some h) cs m sys)
    (fun flag' s => exists cnt' cs', s = mkState (Some h) cs' m sys /\ heap_ok cnt' h cs' m sys G /\ cnt_range cnt' G /\
       counted cnt' G b (l0 ++ l) /\ same_others cnt cnt' G b /\
       (flag' = false -> flag = false /\ forall a rs r, (a, rs) ∈ g_ring G -> r ∈ rs -> r_kind r = Small b ->
          nslots b l0 a r <> bin_count b -> nslots b (l0 ++ l) a r <> bin_count b)) E.
Proof.
  revert cnt cs p l0 flag l. induction fuel as [|fuel IH]; intros cnt cs p l0 flag l Hok Hcr Hb Hfree Hch Hf Hcnt; [lia|].
  cbn [gc_count]. destruct l as [|x l].
  { cbn in Hch. subst p. rewrite Z.eqb_refl. apply wp_ret. exists cnt, cs. rewrite app_nil_r. split_and!; try done. }
  destruct Hch as (-> & q & Hq & Hch).
  assert (Hx : x ∈ elems (g_ring G) b) by (eapply free_elem; [done|done|rewrite Hfree; apply elem_of_app; right; by left]).
  destruct (slot_home _ _ _ _ _ _ _ _ Hok Hx) as (a & rs & r & Hin & Hr & Hk & Hxr & Ha & Hsp & _ & Hst & _).
  assert (x <> 0). { unfold run_span, ZEND_MM_PAGE_SIZE in Hsp. cbn [fst snd] in Hsp. destruct Ha as [Ha _]. lia. }
  rewrite (proj2 (Z.eqb_neq x 0)) by done.
  destruct (hk_chunks _ _ _ _ _ _ Hok a rs Hin) as (c & Hc & _ & _).
  pose proof (slots_nodup _ _ _ _ _ _ b Hok Hb) as Hnd. apply NoDup_app in Hnd as (Hnd & _). rewrite Hfree in Hnd.
  assert (Hx0 : x ∉ l0). { intros Hi. apply NoDup_app in Hnd as (_ & Hnd & _). apply (Hnd x Hi). by left. }
  assert (Hnd1 : NoDup (l0 ++ [x])).
  { apply (sublist_NoDup (l0 ++ [x]) (l0 ++ x :: l)); [done|]. apply sublist_app; [done|]. apply sublist_skip, sublist_nil_l. }
  destruct (bin_facts b Hb) as (_ & _ & Hel & _ & _ & _ & Hbc & _).
  pose proof (nslots_bound b (l0 ++ [x]) a r Hnd1 Hk Hb) as Hbd. rewrite nslots_snoc, decide_True in Hbd by done.
  pose proof (nslots_nonneg b l0 a r) as Hnn. pose proof (Hcnt a rs r Hin Hr Hk) as Hcv.
  apply wp_bind. eapply slot_run_ok; try done. cbn beta iota. step; [by apply rd_ok|].
  destruct (srun_words b (cnt a (r_start r)) Hb ltac:(lia)) as (_ & _ & _ & ->).
  rewrite Z.mod_small by lia. step; [exact Hc|].
  destruct (set_counter_heap cnt h cs m sys G a rs r b (cnt a (r_start r) + 1) c Hok Hin Hr Hk Hc) as (mp & Hmp & Hok' & Hv & Hoth).
  step; [exact Hmp|]. step; [exact Hc|]. step; [exact Hq|].
  set (cnt1 := <[a := _]> cnt) in *.
  assert (Hcnt1 : counted cnt1 G b (l0 ++ [x])).
  { intros a' rs' r' Hin' Hr' Hk'. rewrite nslots_snoc. destruct (decide (a' = a /\ r' = r)) as [[-> ->]|Hne].
    - rewrite Hv, decide_True by done. lia.
    - rewrite (Hoth a' rs' r' Hin' Hr') by (by apply not_both). rewrite (Hcnt a' rs' r' Hin' Hr' Hk').
      rewrite decide_False; [lia|]. intros Hx'. apply Hne. destruct (elem_home _ _ _ _ _ _ _ _ _ _ _ _ _ _ Hok Hin Hr Hin' Hr' Hxr Hx') as [-> ->]. done. }
  assert (Hcr1 : cnt_range cnt1 G).
  { intros a' rs' r' Hin' Hr'. destruct (decide (a' = a /\ r' = r)) as [[-> ->]|Hne]; [lia|].
    rewrite (Hoth a' rs' r' Hin' Hr') by (by apply not_both). by apply (Hcr a' rs' r'). }
  eapply wp_mono; [apply (IH cnt1 _ q (l0 ++ [x]) _ l Hok' Hcr1 Hb); [by rewrite <- app_assoc|done|cbn in Hf; lia|done]|].
  intros flag' s (cnt' & cs' & -> & Hok2 & Hcr2 & Hcnt2 & Hoth2 & Hfl). rewrite <- app_assoc in Hcnt2, Hfl. exists cnt', cs'.
  split; [done|]. split; [done|]. split; [done|]. split; [done|]. split.
  - intros a' rs' r' Hin' Hr' Hk'. rewrite (Hoth2 a' rs' r' Hin' Hr' Hk'). apply (Hoth a' rs' r' Hin' Hr').
    destruct (decide (r' = r)) as [->|]; [by destruct Hk'|by right].
  - intros Hff. destruct (Hfl Hff) as [[Hfin Hfc]%orb_false_iff Hall]. split; [done|]. intros a' rs' r' Hin' Hr' Hk' Hn0.
    apply (Hall a' rs' r' Hin' Hr' Hk'). rewrite nslots_snoc. destruct (decide (x ∈ run_elems a' b r')) as [Hx'|]; [|lia].
    destruct (elem_home _ _ _ _ _ _ _ _ _ _ _ _ _ _ Hok Hin Hr Hin' Hr' Hxr Hx') as [<- <-]. apply Z.eqb_neq in Hfc. lia.
Qed.

(** ** Taking slots out of the free lists *)

(** The run is collected: all of its slots are free, as far as the nine bits of the counter tell. *)
Definition collectible cnt (a : Z) (r : run) : bool :=
  match r_kind r with
  | Small b => cnt a (r_start r) mod 512 =? bin_count b
  | Large => false
  end.
Definition slot_full cnt G (b x : Z) : Prop :=
  exists a rs r, (a, rs) ∈ g_ring G /\ r ∈ rs /\ r_kind r = Small b /\ x ∈ run_elems a b r /\ collectible cnt a r = true.

Lemma seqZ_split b : 0 <= b < 30 -> seqZ 0 30 = seqZ 0 b ++ b :: seqZ (b + 1) (29 - b).
Proof.
  intros Hb. replace 30 with (b + (30 - b)) by lia. rewrite seqZ_app by lia. f_equal. rewrite seqZ_cons by lia.
  rewrite Z.add_0_l. do 2 f_equal; lia.
Qed.

Lemma small_blocks_perm (used used' : Z -> list Z) b l : 0 <= b < 30 -> (forall b', b' <> b -> used' b' = used b') -> used' b ≡ₚ l ++ used b ->
  small_blocks used' ≡ₚ ((fun p => (p, bin_size b)) <$> l) ++ small_blocks used.
Proof.
  intros Hb Ho Hu. unfold small_blocks. rewrite (seqZ_split b Hb), !bind_app, !bind_cons.
  assert (H : forall bs, b ∉ bs -> (bs ≫= fun b' => (fun p => (p, bin_size b')) <$> used' b') = (bs ≫= fun b' => (fun p => (p, bin_size b')) <$> used b')).
  { induction bs as [|x bs IH]; intros Hn; [done|]. apply not_elem_of_cons in Hn as [Hx Hn]. cbn.
    rewrite Ho by (by apply not_eq_sym). f_equal. by apply IH. }
  rewrite !H by (rewrite elem_of_seqZ; lia). rewrite Hu, fmap_app. 
  set (A := seqZ 0 b ≫= _). set (C := seqZ (b + 1) (29 - b) ≫= _). solve_Permutation.
Qed.

Lemma total_app l1 l2 : total (l1 ++ l2) = total l1 + total l2.
Proof. unfold total. induction l1 as [|x l1 IH]; cbn; [done|]. rewrite IH. lia. Qed.
Lemma total_slots b l : total ((fun p => (p, bin_size b)) <$> l) = bin_size b * zlen l.
Proof.
  induction l as [|x l IH]; [change (0 = bin_size b * 0); lia|]. rewrite zlen_cons.
  change (bin_size b + total ((fun p => (p, bin_size b)) <$> l) = bin_size b * (zlen l + 1)). rewrite IH. lia.
Qed.

Lemma chain_relink m m' p k0 y l1 v l2 : chain m p (k0 ++ y :: l1) -> (forall a, a ∈ k0 -> word_at m' a = word_at m a) ->
  word_at m' y = Some v -> chain m' v l2 -> chain m' p (k0 ++ y :: l2).
Proof.
  revert p. induction k0 as [|a k0 IH]; intros p; cbn [app chain].
  - intros (-> & _) _ Hv Hl. split; [done|]. by exists v.
  - intros (-> & q & Hq & Hc) Hw Hv Hl. split; [done|]. exists q. rewrite Hw by (by left). split; [done|].
    apply IH; [done|intros; apply Hw; by right|done..].
Qed.

Lemma slots_apart cnt h cs m sys G b x y : heap_ok cnt h cs m sys G -> 0 <= b < 30 -> x ∈ elems (g_ring G) b -> y ∈ elems (g_ring G) b -> x <> y ->
  x + 8 <= y \/ y + 8 <= x.
Proof.
  intros Hok Hb Hx Hy Hne. pose proof (elems_apart _ _ _ _ _ _ b x b y Hok Hx Hy ltac:(by left)) as Hap.
  destruct (bin_facts b Hb) as (_ & _ & _ & _ & ? & _). unfold apart2 in Hap. cbn [fst snd] in Hap. lia.
Qed.

(** The outcome for the rest [l] of the list of bin [b], after the slots [k]. *)
Definition unlinked cnt G (b : Z) (k l : list Z) (free' used' : Z -> list Z) (extra' : Z) : Prop :=
  (forall b', b' <> b -> free' b' = g_free G b' /\ used' b' = g_used G b') /\
  exists stay gone, stay ++ gone ≡ₚ l /\ free' b = k ++ stay /\ used' b ≡ₚ gone ++ g_used G b /\
    (forall x, x ∈ stay -> ~ slot_full cnt G b x) /\ (forall x, x ∈ gone -> slot_full cnt G b x) /\
    extra' = g_extra G - bin_size b * zlen gone.

(** [h'] differs from [h] in its free lists. *)
Definition kept_slots h h' : Prop :=
  same_links h h' /\ mm_huge_list h' = mm_huge_list h /\ mm_size h' = mm_size h /\ mm_peak h' = mm_peak h /\
  mm_real_size h' = mm_real_size h /\ mm_limit h' = mm_limit h /\ mm_overflow h' = mm_overflow h.

Definition q_of (k : list Z) : option Z := last k.

(** One slot leaves the list. *)
Lemma unlink_slot_ok cnt h cs m sys G b k x next l E (Q : unit -> mstate -> Prop) : heap_ok cnt h cs m sys G -> 0 <= b < 30 ->
  g_free G b = k ++ x :: l -> word_at m x = Some next -> chain m next l -> 0 <= next < 2 ^ 64 ->
  (forall h' m' , kept_slots h h' -> keeps (mine G) m m' -> chain m' next l ->
     heap_ok cnt h' cs m' sys (View (g_ring G) (g_cached G) (<[b := k ++ l]> (g_free G)) (<[b := x :: g_used G b]> (g_used G)) (g_huge G)
                                 (g_extra G - bin_size b) (g_rextra G)) ->
     Q tt (mkState (Some h') cs m' sys)) ->
  wp (set_slot_link b (q_of k) next) (mkState (Some h) cs m sys) Q E.
Proof.
  intros Hok Hb Hfree Hw Hch Hnext HQ. pose proof (hk_slots _ _ _ _ _ _ Hok) as Hsl.
  assert (Hperm' : forall b', 0 <= b' < 30 -> (<[b := k ++ l]> (g_free G)) b' ++ (<[b := x :: g_used G b]> (g_used G)) b' ≡ₚ elems (g_ring G) b').
  { intros b' Hb'. rewrite <- (hk_perm _ _ _ _ _ _ Hok b' Hb'). destruct (decide (b' = b)) as [->|Hne].
    - rewrite !fn_lookup_insert, Hfree. solve_Permutation.
    - by rewrite !fn_lookup_insert_ne by done. }
  assert (Hsize' : mm_size h = u64 (total (large_blocks (g_ring G) ++ small_blocks (<[b := x :: g_used G b]> (g_used G))) + (g_extra G - bin_size b))).
  { rewrite (hk_size _ _ _ _ _ _ Hok). unfold blocks. f_equal. rewrite !total_app.
    rewrite (small_blocks_perm (g_used G) (<[b := x :: g_used G b]> (g_used G)) b [x] Hb);
      [|intros b' Hne; apply fn_lookup_insert_ne; by apply not_eq_sym|by rewrite fn_lookup_insert].
    rewrite total_app, total_slots. change (zlen [x]) with 1. lia. }
  destruct (hk_chain _ _ _ _ _ _ Hok b Hb) as (p0 & Hp0 & Hc0). rewrite Hfree in Hc0.
  assert (Hel : forall y, y ∈ k ++ x :: l -> y ∈ elems (g_ring G) b) by (intros y Hy; eapply free_elem; [done|done|by rewrite Hfree]).
  pose proof (slots_nodup _ _ _ _ _ _ b Hok Hb) as Hnd. apply NoDup_app in Hnd as (Hnd & _). rewrite Hfree in Hnd.
  unfold q_of. destruct (last k) as [y|] eqn:Elast.
  - (* the link of the slot before *)
    apply last_Some in Elast as [k0 ->]. cbn [set_slot_link]. apply wp_store64.
    assert (Hy : y ∈ (k0 ++ [y]) ++ x :: l) by (apply elem_of_app; left; apply elem_of_app; right; by left).
    rewrite <- app_assoc in Hnd, Hc0. cbn [app] in Hnd, Hc0.
    assert (Hyk : y ∉ k0 ++ l).
    { rewrite Permutation_app_comm in Hnd. cbn in Hnd. apply NoDup_cons in Hnd as [Hn _]. intros [Hi|Hi]%elem_of_app; apply Hn.
      - apply elem_of_cons. right. apply elem_of_app. by right.
      - apply elem_of_cons. right. apply elem_of_app. by left. }
    assert (Hlsub : forall z, z ∈ l -> z ∈ elems (g_ring G) b) by (intros z Hz; apply Hel, elem_of_app; right; by right).
    assert (Hch' : chain (store_bytes m y (bytes_of next)) next l).
    { apply (store_chain cnt h cs m sys G b y next b next l Hok (Hel y Hy)); try done. right. intros Hi. apply Hyk, elem_of_app. by right. }
    apply HQ; try done.
    + by apply (store_keeps cnt h cs m sys G b y next Hok Hb (Hel y Hy)), (free_not_used _ _ _ _ _ _ _ _ Hok Hb); rewrite Hfree.
    + apply (ok_slots cnt h h cs m _ sys G); try done. intros b' Hb'. destruct (decide (b' = b)) as [->|Hne].
      * exists p0. split; [done|]. rewrite fn_lookup_insert, <- app_assoc. cbn [app].
        apply (chain_relink m _ p0 k0 y (x :: l) next l Hc0); [|by apply word_at_store|done].
        intros a Ha. apply word_at_frame. intros k Hk. apply store_frame.
        assert (Ha' : a ∈ (k0 ++ [y]) ++ x :: l) by (apply elem_of_app; left; apply elem_of_app; by left).
        assert (a <> y) by (intros ->; apply Hyk, elem_of_app; by left).
        pose proof (slots_apart _ _ _ _ _ _ b a y Hok Hb (Hel a Ha') (Hel y Hy) ltac:(done)). lia.
      * destruct (hk_chain _ _ _ _ _ _ Hok b' Hb') as (p' & Hp' & Hc'). exists p'. split; [done|]. rewrite fn_lookup_insert_ne by done.
        apply (store_chain cnt h cs m sys G b y next b' p' _ Hok (Hel y Hy)); try done; [|by left; apply not_eq_sym].
        intros z Hz. by eapply free_elem.
  - (* the head of the list *)
    apply last_None in Elast as ->. cbn [app set_slot_link] in *. step. step; [by apply wr_ok; rewrite Hsl|]. apply wp_upd_heap.
    apply HQ; [done|apply keeps_refl|done|].
    apply (ok_slots cnt h _ cs m m sys G); try done; [by cbn; rewrite zlen_zset|].
    intros b' Hb'. cbn [mm_free_slot set_slots]. destruct (decide (b' = b)) as [->|Hne].
    + exists next. rewrite zget_zset_eq by (rewrite Hsl; done). rewrite fn_lookup_insert. by split.
    + rewrite zget_zset_ne by lia. rewrite fn_lookup_insert_ne by done. by apply (hk_chain _ _ _ _ _ _ Hok).
Qed.

Lemma kept_slots_trans h1 h2 h3 : kept_slots h1 h2 -> kept_slots h2 h3 -> kept_slots h1 h3.
Proof. unfold kept_slots, same_links. intuition congruence. Qed.

Lemma chain_head_range cnt h cs m sys G b p l : heap_ok cnt h cs m sys G -> chain m p l -> (forall x, x ∈ l -> x ∈ elems (g_ring G) b) -> 0 <= p < 2 ^ 64.
Proof.
  intros Hok Hc Hl. destruct l as [|x l]; cbn in Hc; [subst; lia|]. destruct Hc as [-> _].
  destruct (slot_home _ _ _ _ _ _ _ _ Hok (Hl x ltac:(by left))) as (a & rs & r & _ & _ & _ & _ & (Ha & _ & Hb) & H1 & H2 & Hs & He & _).
  unfold run_span, ZEND_MM_PAGE_SIZE, ZEND_MM_CHUNK_SIZE in *. cbn [fst snd] in *. lia.
Qed.

Lemma slot_full_dec cnt h cs m sys G b x a rs r : heap_ok cnt h cs m sys G -> (a, rs) ∈ g_ring G -> r ∈ rs -> r_kind r = Small b ->
  x ∈ run_elems a b r -> collectible cnt a r = false -> ~ slot_full cnt G b x.
Proof.
  intros Hok Hin Hr Hk Hx Hc (a' & rs' & r' & Hin' & Hr' & _ & Hx' & Hc').
  destruct (elem_home _ _ _ _ _ _ _ _ _ _ _ _ _ _ Hok Hin Hr Hin' Hr' Hx Hx') as [-> ->]. congruence.
Qed.

Definition unlink_post cnt h cs m sys G b k l (s : mstate) : Prop :=
  exists h' m' free' used' extra', s = mkState (Some h') cs m' sys /\ kept_slots h h' /\ keeps (mine G) m m' /\
    unlinked cnt G b k l free' used' extra' /\
    heap_ok cnt h' cs m' sys (View (g_ring G) (g_cached G) free' used' (g_huge G) extra' (g_rextra G)).

Lemma gc_unlink_ok fuel cnt h cs m sys G b p k l E : heap_ok cnt h cs m sys G -> cnt_range cnt G -> 0 <= b < 30 ->
  g_free G b = k ++ l -> chain m p l -> (length l < fuel)%nat ->
  wp (gc_unlink fuel b (q_of k) p) (mkState (Some h) cs m sys) (fun _ s => unlink_post cnt h cs m sys G b k l s) E.
Proof.
  revert h m G p k l. induction fuel as [|fuel IH]; intros h m G p k l Hok Hcr Hb Hfree Hch Hf; [lia|]. cbn [gc_unlink].
  destruct l as [|x l].
  { cbn in Hch. subst p. rewrite Z.eqb_refl. apply wp_ret. exists h, m, (g_free G), (g_used G), (g_extra G).
    split; [done|]. split; [done|]. split; [apply keeps_refl|]. split; [|by destruct G].
    split; [done|]. exists [], []. rewrite app_nil_r in Hfree. rewrite !app_nil_r. split; [done|]. split; [done|]. split; [done|].
    split; [by intros ? ?%elem_of_nil|]. split; [by intros ? ?%elem_of_nil|]. change (zlen (@nil Z)) with 0. lia. }
  destruct Hch as (-> & next & Hw & Hch).
  assert (Hx : x ∈ elems (g_ring G) b) by (eapply free_elem; [done|done|rewrite Hfree; apply elem_of_app; right; by left]).
  assert (Hnext : 0 <= next < 2 ^ 64).
  { eapply chain_head_range; [done|done|]. intros y Hy. eapply free_elem; [done|done|]. rewrite Hfree. apply elem_of_app. right. by right. }
  destruct (slot_home _ _ _ _ _ _ _ _ Hok Hx) as (a & rs & r & Hin & Hr & Hk & Hxr & Ha & Hsp & _ & Hst & _).
  assert (x <> 0). { unfold run_span, ZEND_MM_PAGE_SIZE in Hsp. cbn [fst snd] in Hsp. destruct Ha as [Ha _]. lia. }
  rewrite (proj2 (Z.eqb_neq x 0)) by done.
  destruct (hk_chunks _ _ _ _ _ _ Hok a rs Hin) as (c & Hc & _ & _).
  destruct (bin_facts b Hb) as (_ & _ & Hel & _ & _ & _ & Hbc & _).
  apply wp_bind. eapply slot_run_ok; try done. cbn beta iota. step; [by apply rd_ok|]. step; [exact Hw|].
  destruct (srun_words b (cnt a (r_start r)) Hb (Hcr a rs r Hin Hr)) as (_ & _ & _ & ->).
  destruct (cnt a (r_start r) mod 512 =? bin_count b) eqn:Ecol.
  - assert (Hfull : slot_full cnt G b x).
    { exists a, rs, r. split_and!; try done. unfold collectible. by rewrite Hk. }
    apply wp_bind. eapply (unlink_slot_ok cnt h cs m sys G b k x next l); try done. intros h1 m1 Hk1 Hkeep1 Hch1 Hok1.
    set (G1 := View _ _ _ _ _ _ _) in Hok1.
    assert (Hcr1 : cnt_range cnt G1) by exact Hcr.
    assert (Hf1 : g_free G1 b = k ++ l) by (cbn; by rewrite fn_lookup_insert).
    eapply wp_mono; [apply (IH h1 m1 G1 next k l Hok1 Hcr1 Hb Hf1 Hch1); cbn in Hf; lia|].
    intros _ s (h' & m' & free' & used' & extra' & -> & Hk2 & Hkeep2 & (Ho & stay & gone & Hp & Hfr & Hu & Hs & Hg & He) & Hok2).
    exists h', m', free', used', extra'. split; [done|]. split; [by eapply kept_slots_trans|].
    split.
    { eapply keeps_trans; [exact Hkeep1|]. eapply keeps_incl; [|exact Hkeep2]. intros y. unfold mine, blocks, G1. cbn [g_ring g_used g_huge].
      pose proof (small_blocks_perm (g_used G) (<[b := x :: g_used G b]> (g_used G)) b [x] Hb) as Hsp2.
      rewrite !elem_of_app. rewrite Hsp2; [|intros b' Hne; apply fn_lookup_insert_ne; by apply not_eq_sym|by rewrite fn_lookup_insert].
      rewrite elem_of_app. tauto. }
    split; [|exact Hok2]. split.
    + intros b' Hne. destruct (Ho b' Hne) as [-> ->]. cbn. by rewrite !fn_lookup_insert_ne by (by apply not_eq_sym).
    + exists stay, (x :: gone). split; [by rewrite <- Permutation_middle, Hp|]. split; [done|]. split.
      { rewrite Hu. cbn. rewrite fn_lookup_insert. by rewrite <- Permutation_middle. }
      split; [exact Hs|]. split; [by intros y [->|Hy]%elem_of_cons; [|apply Hg]|]. rewrite He, zlen_cons. cbn. lia.
  - assert (Hnf : ~ slot_full cnt G b x) by (eapply slot_full_dec; try done; unfold collectible; by rewrite Hk).
    assert (Hq : Some x = q_of (k ++ [x])) by (unfold q_of; by rewrite last_snoc). rewrite Hq.
    eapply wp_mono; [apply (IH h m G next (k ++ [x]) l Hok Hcr Hb); [by rewrite <- app_assoc|done|cbn in Hf; lia]|].
    intros _ s (h' & m' & free' & used' & extra' & -> & Hk2 & Hkeep2 & (Ho & stay & gone & Hp & Hfr & Hu & Hs & Hg & He) & Hok2).
    exists h', m', free', used', extra'. split; [done|]. split; [done|]. split; [done|]. split; [|exact Hok2].
    split; [exact Ho|]. exists (x :: stay), gone. rewrite <- app_assoc in Hfr. split; [cbn; by rewrite Hp|]. split; [exact Hfr|].
    split; [exact Hu|]. split; [by intros y [->|Hy]%elem_of_cons; [|apply Hs]|]. by split.
Qed.

(** ** One bin *)

Lemma free_size cnt h cs m sys G b : heap_ok cnt h cs m sys G -> 0 <= b < 30 -> (length (g_free G b) <= size m)%nat.
Proof.
  intros Hok Hb. destruct (hk_chain _ _ _ _ _ _ Hok b Hb) as (p & _ & Hch).
  pose proof (slots_nodup _ _ _ _ _ _ b Hok Hb) as Hnd. apply NoDup_app in Hnd as (Hnd & _).
  rewrite <- (size_list_to_set (C := gset Z)) by done. rewrite <- size_dom. apply subseteq_size. intros a Ha.
  apply elem_of_list_to_set in Ha. apply elem_of_dom. revert p Hch Ha. clear. induction (g_free G b) as [|x l IH]; intros p Hch Ha; [by apply elem_of_nil in Ha|].
  destruct Hch as (-> & q & Hw & Hch). apply elem_of_cons in Ha as [->|Ha]; [|by eapply IH].
  unfold word_at in Hw. cbn [load_bytes] in Hw. destruct (m !! x); [by eexists|done].
Qed.

(** The counters of bin [b] are set and the slots of its free runs taken out. *)
Definition bin_post cnt h cs m sys G b (s : mstate) : Prop :=
  exists cnt' h' cs' m' free' used' extra', s = mkState (Some h') cs' m' sys /\ kept_slots h h' /\ keeps (mine G) m m' /\
    same_others cnt cnt' G b /\ counted cnt' G b (g_free G b) /\ cnt_range cnt' G /\
    unlinked cnt' G b [] (g_free G b) free' used' extra' /\
    heap_ok cnt' h' cs' m' sys (View (g_ring G) (g_cached G) free' used' (g_huge G) extra' (g_rextra G)).

Lemma gc_bin_ok cnt h cs m sys G b E : heap_ok cnt h cs m sys G -> cnt_range cnt G -> 0 <= b < 30 -> counted cnt G b [] ->
  wp (gc_bin b) (mkState (Some h) cs m sys) (fun _ s => bin_post cnt h cs m sys G b s) E.
Proof.
  intros Hok Hcr Hb Hcnt. pose proof (free_size _ _ _ _ _ _ b Hok Hb) as Hsize.
  destruct (hk_chain _ _ _ _ _ _ Hok b Hb) as (p & Hp & Hch). unfold gc_bin. step. step; [by apply rd_ok|]. step. apply wp_bind.
  eapply wp_mono; [apply (gc_count_ok _ cnt h cs m sys G b p [] (g_free G b) false E Hok Hcr Hb); try done; lia|].
  intros flag s (cnt1 & cs1 & -> & Hok1 & Hcr1 & Hcnt1 & Hoth1 & Hflag). cbn [app] in *. destruct flag; cbn [negb].
  - step. step; [by apply rd_ok|]. step.
    eapply wp_mono; [apply (gc_unlink_ok _ cnt1 h cs1 m sys G b p [] (g_free G b) E Hok1 Hcr1 Hb); try done; lia|].
    intros _ s (h' & m' & free' & used' & extra' & -> & Hk2 & Hkeep2 & Hun & Hok2). exists cnt1, h', cs1, m', free', used', extra'.
    by split_and!.
  - apply wp_ret. exists cnt1, h, cs1, m, (g_free G), (g_used G), (g_extra G). destruct (Hflag eq_refl) as [_ Hno].
    split; [done|]. split; [done|]. split; [apply keeps_refl|]. split; [done|]. split; [done|]. split; [done|].
    split; [|by destruct G]. split; [done|]. exists (g_free G b), []. rewrite app_nil_r. split; [done|]. split; [done|]. split; [done|].
    split; [|split; [by intros ? ?%elem_of_nil|change (zlen (@nil Z)) with 0; lia]].
    intros x Hx (a & rs & r & Hin & Hr & Hk & Hxr & Hcol). unfold collectible in Hcol. rewrite Hk in Hcol. apply Z.eqb_eq in Hcol.
    destruct (bin_facts b Hb) as (_ & _ & _ & _ & _ & _ & Hbc & _).
    assert (H0 : nslots b [] a r <> bin_count b) by (unfold nslots; change (zlen (filter _ [])) with 0; lia).
    specialize (Hno a rs r Hin Hr Hk H0). rewrite (Hcnt1 a rs r Hin Hr Hk) in Hcol.
    pose proof (Hcr1 a rs r Hin Hr) as Hr1. rewrite (Hcnt1 a rs r Hin Hr Hk) in Hr1.
    destruct (Z.eq_dec (nslots b (g_free G b) a r) 512) as [E5|E5]; [rewrite E5 in Hcol; change (512 mod 512) with 0 in Hcol; lia|].
    rewrite Z.mod_small in Hcol by lia. done.
Qed.

(** ** All bins *)

Definition has_run G a r : Prop := exists rs, (a, rs) ∈ g_ring G /\ r ∈ rs.

(** The view [G] in the middle of a collection that started with [G0]: the slots of the
    runs to be collected, [gone], count as blocks until their pages are returned. *)
Record gc_rel cnt (G0 G : view) (gone : Z -> list Z) : Prop := {
  gr_large : large_blocks (g_ring G) ≡ₚ large_blocks (g_ring G0);
  gr_used : forall b, 0 <= b < 30 -> g_used G b ≡ₚ gone b ++ g_used G0 b;
  gr_all : forall a rs r b x, (a, rs) ∈ g_ring G -> r ∈ rs -> r_kind r = Small b -> collectible cnt a r = true ->
    x ∈ run_elems a b r -> x ∈ gone b;
  gr_gone : forall b x, 0 <= b < 30 -> x ∈ gone b -> slot_full cnt G b x;
  gr_range : cnt_range cnt G;
  gr_huge : g_huge G = g_huge G0;
  gr_rextra : g_rextra G = g_rextra G0;
  gr_extra : total (blocks G) + g_extra G = total (blocks G0) + g_extra G0;
}.

(** After the bins in [done]. *)
Record bins_done cnt (G0 G : view) (gone : Z -> list Z) (done : list Z) : Prop := {
  bd_ring : g_ring G = g_ring G0;
  bd_cached : g_cached G = g_cached G0;
  bd_huge : g_huge G = g_huge G0;
  bd_rextra : g_rextra G = g_rextra G0;
  bd_range : cnt_range cnt G0;
  bd_extra : total (blocks G) + g_extra G = total (blocks G0) + g_extra G0;
  bd_used : forall b, g_used G b ≡ₚ gone b ++ g_used G0 b;
  bd_free : forall b, g_free G0 b ≡ₚ g_free G b ++ gone b;
  bd_gone : forall b x, x ∈ gone b -> slot_full cnt G0 b x;
  bd_count : forall b, 0 <= b < 30 -> b ∈ done -> counted cnt G0 b (g_free G0 b);
  bd_stay : forall b x, 0 <= b < 30 -> b ∈ done -> x ∈ g_free G b -> ~ slot_full cnt G0 b x;
  bd_todo : forall b, 0 <= b < 30 -> b ∉ done -> g_free G b = g_free G0 b /\ gone b = [] /\ counted cnt G0 b [];
}.

Lemma slot_full_other cnt cnt' G b b' x : same_others cnt cnt' G b -> b' <> b -> slot_full cnt' G b' x <-> slot_full cnt G b' x.
Proof.
  intros Ho Hne. unfold slot_full.
  assert (H : forall a rs r, (a, rs) ∈ g_ring G -> r ∈ rs -> r_kind r = Small b' -> collectible cnt' a r = collectible cnt a r).
  { intros a rs r Hin Hr Hk. unfold collectible. rewrite Hk. by rewrite (Ho a rs r Hin Hr) by (rewrite Hk; congruence). }
  split; intros (a & rs & r & Hin & Hr & Hk & Hx & Hc); exists a, rs, r; split_and!; try done.
  - by rewrite <- (H a rs r).
  - by rewrite (H a rs r).
Qed.

Lemma bin_step cnt cnt' G0 G gone done b free' used' extra' :
  bins_done cnt G0 G gone done -> b ∉ done -> 0 <= b < 30 -> same_others cnt cnt' G b -> counted cnt' G b (g_free G b) -> cnt_range cnt' G ->
  unlinked cnt' G b [] (g_free G b) free' used' extra' ->
  exists gone', bins_done cnt' G0 (View (g_ring G) (g_cached G) free' used' (g_huge G) extra' (g_rextra G)) gone' (b :: done).
Proof.
  intros [Dr Dc Dh Dx Drg De Du Df Dg Dcn Ds Dt] Hnd Hb Ho Hcnt Hcr (Hfo & stay & gn & Hp & Hfb & Hub & Hs & Hg & He).
  destruct (Dt b Hb Hnd) as (Hfb0 & Hgb0 & _). exists (<[b := gn]> gone). cbn [app] in Hfb.
  assert (Hfull : forall b' x, slot_full cnt' G0 b' x <-> slot_full cnt' G b' x) by (intros; unfold slot_full; by rewrite Dr).
  assert (Hoth : forall b' x, b' <> b -> slot_full cnt' G0 b' x <-> slot_full cnt G0 b' x).
  { intros b' x Hne. rewrite Hfull. rewrite (slot_full_other cnt cnt' G b b' x Ho Hne). unfold slot_full. by rewrite Dr. }
  assert (Hcnt' : forall b', b' <> b -> forall l, counted cnt G0 b' l -> counted cnt' G0 b' l).
  { intros b' Hne l Hc a rs r Hin Hr Hk. rewrite <- (Hc a rs r Hin Hr Hk). rewrite <- Dr in Hin. apply (Ho a rs r Hin Hr). congruence. }
  split; cbn [g_ring g_cached g_free g_used g_huge g_extra g_rextra]; try done.
  - intros a rs r. rewrite <- Dr. apply Hcr.
  - rewrite <- De. unfold blocks. cbn [g_ring g_used]. rewrite !total_app.
    rewrite (small_blocks_perm (g_used G) used' b gn Hb (fun b' Hne => proj2 (Hfo b' Hne)) Hub). rewrite total_app, total_slots. lia.
  - intros b'. destruct (decide (b' = b)) as [->|Hne].
    + rewrite fn_lookup_insert, Hub. by rewrite (Du b), Hgb0.
    + rewrite fn_lookup_insert_ne by (by apply not_eq_sym). destruct (Hfo b' Hne) as [_ ->]. apply Du.
  - intros b'. destruct (decide (b' = b)) as [->|Hne].
    + rewrite fn_lookup_insert, Hfb, <- Hfb0. by rewrite Hp.
    + rewrite fn_lookup_insert_ne by (by apply not_eq_sym). destruct (Hfo b' Hne) as [-> _]. apply Df.
  - intros b' x. destruct (decide (b' = b)) as [->|Hne].
    + rewrite fn_lookup_insert. intros Hx. apply Hfull. by apply Hg.
    + rewrite fn_lookup_insert_ne by (by apply not_eq_sym). intros Hx. apply Hoth; [done|]. by apply Dg.
  - intros b' Hb' [->|Hin]%elem_of_cons.
    + rewrite <- Hfb0. intros a rs r. rewrite <- Dr. apply Hcnt.
    + assert (b' <> b) by (by intros ->). apply Hcnt'; [done|]. by apply Dcn.
  - intros b' x Hb' [->|Hin]%elem_of_cons.
    + rewrite Hfb, Hfull. by apply Hs.
    + assert (Hne : b' <> b) by (by intros ->). destruct (Hfo b' Hne) as [-> _]. rewrite Hoth by done. by apply Ds.
  - intros b' Hb' [Hne Hnd']%not_elem_of_cons. destruct (Hfo b' Hne) as [-> _]. destruct (Dt b' Hb' Hnd') as (H1 & H2 & H3).
    rewrite fn_lookup_insert_ne by (by apply not_eq_sym). split; [done|]. split; [done|]. by apply Hcnt'.
Qed.

Lemma gc_bins_ok bins cnt h cs m sys G0 G gone done E : heap_ok cnt h cs m sys G -> bins_done cnt G0 G gone done ->
  NoDup bins -> (forall b, b ∈ bins -> 0 <= b < 30 /\ b ∉ done) ->
  wp (gc_bins bins) (mkState (Some h) cs m sys)
    (fun _ s => exists cnt' h' cs' m' G' gone' done', s = mkState (Some h') cs' m' sys /\ kept_slots h h' /\ keeps (mine G0) m m' /\
       heap_ok cnt' h' cs' m' sys G' /\ bins_done cnt' G0 G' gone' done' /\ forall b, b ∈ bins \/ b ∈ done -> b ∈ done') E.
Proof.
  revert cnt h cs m G gone done. induction bins as [|b bins IH]; intros cnt h cs m G gone done Hok Hd Hn Hbs; cbn [gc_bins].
  - apply wp_ret. exists cnt, h, cs, m, G, gone, done. split_and!; try done. intros b [Hb|Hb]; [by apply elem_of_nil in Hb|done].
  - apply NoDup_cons in Hn as [Hnb Hn]. destruct (Hbs b ltac:(by left)) as [Hb Hbd]. destruct (bd_todo _ _ _ _ _ Hd b Hb Hbd) as (Hf0 & _ & Hc0).
    apply wp_bind. eapply wp_mono; [apply (gc_bin_ok cnt h cs m sys G b E Hok); try done|].
    { intros a rs r. rewrite (bd_ring _ _ _ _ _ Hd). apply (bd_range _ _ _ _ _ Hd). }
    { intros a rs r. rewrite (bd_ring _ _ _ _ _ Hd). apply Hc0. }
    intros _ s (cnt1 & h1 & cs1 & m1 & free' & used' & extra' & -> & Hk1 & Hkeep1 & Ho1 & Hc1 & Hcr1 & Hun1 & Hok1).
    destruct (bin_step cnt cnt1 G0 G gone done b free' used' extra' Hd Hbd Hb Ho1 Hc1 Hcr1 Hun1) as [gone1 Hd1].
    assert (Hkeep0 : keeps (mine G0) m m1).
    { eapply keeps_incl; [|exact Hkeep1]. intros x. unfold mine, blocks. rewrite (bd_ring _ _ _ _ _ Hd), (bd_huge _ _ _ _ _ Hd).
      rewrite !elem_of_app. intros [[Hx|Hx]|Hx]; [by left; left|left; right|by right].
      apply elem_of_small in Hx as (b' & p & Hb' & Hp & ->). apply elem_of_small. exists b', p. split; [done|]. split; [|done].
      rewrite (bd_used _ _ _ _ _ Hd). apply elem_of_app. by right. }
    eapply wp_mono; [apply (IH cnt1 h1 cs1 m1 _ gone1 (b :: done) Hok1 Hd1); try done|].
    { intros b' Hb'. destruct (Hbs b' ltac:(by right)) as [? ?]. split; [done|]. apply not_elem_of_cons. split; [by intros ->|done]. }
    intros _ s (cnt' & h' & cs' & m' & G' & gone' & done' & -> & Hk2 & Hkeep2 & Hok2 & Hd2 & Hall).
    exists cnt', h', cs', m', G', gone', done'. split; [done|]. split; [by eapply kept_slots_trans|]. split; [by eapply keeps_trans|].
    split; [done|]. split; [done|]. intros b' [[->|Hb']%elem_of_cons|Hb']; apply Hall; [right; by left|by left|right; by right].
Qed.

(** All bins are counted and unlinked. *)
Lemma bins_rel cnt h cs m sys G0 G gone done : heap_ok cnt h cs m sys G -> bins_done cnt G0 G gone done -> (forall b, 0 <= b < 30 -> b ∈ done) ->
  (forall b, 0 <= b < 30 -> NoDup (g_free G0 b)) -> gc_rel cnt G0 G gone.
Proof.
  intros Hok [Dr Dc Dh Dx Drg De Du Df Dg Dcn Ds Dt] Hall Hnd. split; try done.
  - by rewrite Dr.
  - intros a rs r b x Hin Hr Hk Hcol Hx. destruct (small_run _ _ _ _ _ _ _ _ _ _ Hok Hin Hr Hk) as [Hb _].
    assert (Hfull : slot_full cnt G0 b x) by (exists a, rs, r; rewrite <- Dr; by split_and!).
    rewrite Dr in Hin. pose proof (Dcn b Hb (Hall b Hb) a rs r Hin Hr Hk) as Hc. pose proof (Drg a rs r Hin Hr) as Hrange.
    assert (Hf : x ∈ g_free G0 b).
    { apply (nslots_full b (g_free G0 b) a r x (Hnd b Hb) Hk Hb); [|done]. unfold collectible in Hcol. rewrite Hk in Hcol. apply Z.eqb_eq in Hcol.
      destruct (bin_facts b Hb) as (_ & _ & _ & _ & _ & _ & Hbc & _). rewrite <- Hc.
      destruct (Z.eq_dec (cnt a (r_start r)) 512) as [E|]; [rewrite E in Hcol; change (512 mod 512) with 0 in Hcol; lia|]. by rewrite Z.mod_small in Hcol by lia. }
    rewrite Df in Hf. apply elem_of_app in Hf as [Hf|]; [|done]. by destruct (Ds b x Hb (Hall b Hb) Hf).
  - intros b x Hb Hx. specialize (Dg b x Hx). unfold slot_full in *. by rewrite Dr.
  - intros a rs r. rewrite Dr. apply Drg.
Qed.
End Slots.

(** ** Pages and chunks *)

Section Collect.
Context {OS : Os} {L : OsLaws OS} {LF : LowFree OS}.
Implicit Types (cnt : Z -> Z -> Z) (h : zend_mm_heap) (cs : gmap Z zend_mm_chunk) (m : gmap Z Z) (sys : os) (G : view) (s : mstate).

Lemma elems_split (l1 : list (Z * list run)) a rs r rs' l2 b : rs ≡ₚ r :: rs' -> elems (l1 ++ (a, rs) :: l2) b ≡ₚ run_elems a b r ++ elems (l1 ++ (a, rs') :: l2) b.
Proof.
  intros Hp. unfold elems. rewrite !bind_app, !bind_cons. cbn [fst snd]. rewrite Hp, bind_cons. solve_Permutation.
Qed.
Lemma large_split (l1 : list (Z * list run)) a rs r rs' l2 : rs ≡ₚ r :: rs' ->
  large_blocks (l1 ++ (a, rs) :: l2) ≡ₚ large_span a r ++ large_blocks (l1 ++ (a, rs') :: l2).
Proof.
  intros Hp. unfold large_blocks. rewrite !bind_app, !bind_cons. cbn [fst snd]. rewrite Hp, bind_cons. solve_Permutation.
Qed.

Lemma filter_split (P : Z -> Prop) `{forall x, Decision (P x)} (l : list Z) : l ≡ₚ filter P l ++ filter (fun x => ~ P x) l.
Proof.
  induction l as [|x l IH]; [done|]. rewrite !filter_cons. destruct (decide (P x)), (decide (~ P x)); try done.
  - cbn. by rewrite <- IH.
  - by rewrite <- Permutation_middle, <- IH.
Qed.

(** The part of a list without duplicates that is another list. *)
Lemma filter_eq (l l' : list Z) : NoDup l -> NoDup l' -> (forall x, x ∈ l' -> x ∈ l) -> filter (fun x => x ∈ l') l ≡ₚ l'.
Proof.
  intros H1 H2 H. apply NoDup_Permutation; [by apply NoDup_filter|done|]. intros x. rewrite list_elem_of_filter. naive_solver.
Qed.

(** ** A free run is returned *)

Lemma collect_run cnt h cs m sys G0 G gone l1 a rs l2 r rs' b c : heap_ok cnt h cs m sys G -> gc_rel cnt G0 G gone ->
  g_ring G = l1 ++ (a, rs) :: l2 -> rs ≡ₚ r :: rs' -> r_kind r = Small b -> collectible cnt a r = true -> cs !! a = Some c ->
  exists c' used' gone' extra', unmark_run c (r_start r) (r_count r) = Ok c' /\
    let G' := View (l1 ++ (a, rs') :: l2) (g_cached G) (g_free G) used' (g_huge G) extra' (g_rextra G) in
    heap_ok cnt h (<[a := c']> cs) m sys G' /\ gc_rel cnt G0 G' gone'.
Proof.
  intros Hok Hrel Hring Hp Hk Hcol Hc. assert (Hin : (a, rs) ∈ g_ring G) by (rewrite Hring; apply elem_of_app; right; by left).
  assert (Hr : r ∈ rs) by (rewrite Hp; by left). destruct (small_run _ _ _ _ _ _ _ _ _ _ Hok Hin Hr Hk) as [Hb _].
  destruct (hk_chunks _ _ _ _ _ _ Hok a rs Hin) as (c0 & Hc0 & _ & Hcok). assert (c0 = c) as -> by congruence.
  destruct (unmark_run_ok (cnt a) c r rs') as (c' & Hc' & Hsp & Hcok'); [by eapply chunk_ok_perm|].
  destruct Hrel as [Gl Gu Ga Gg Gr Gh Gx Ge].
  set (gone' := <[b := filter (fun x => x ∉ run_elems a b r) (gone b)]> gone).
  set (used' := <[b := gone' b ++ g_used G0 b]> (g_used G)).
  pose proof (slots_nodup _ _ _ _ _ _ b Hok Hb) as Hnd. rewrite (Gu b Hb) in Hnd.
  assert (Hndg : NoDup (gone b)) by (apply NoDup_app in Hnd as (_ & _ & Hnd); by apply NoDup_app in Hnd as [? _]).
  assert (Hnde : NoDup (run_elems a b r)).
  { apply (sublist_NoDup _ (elems (g_ring G) b)); [by eapply elems_nodup|]. unfold elems. rewrite Hring, bind_app, bind_cons. cbn [fst snd].
    apply sublist_inserts_l, sublist_inserts_r. clear -Hr. induction rs as [|r' rs IH]; [by apply elem_of_nil in Hr|]. cbn.
    apply elem_of_cons in Hr as [->|Hr]; [by apply sublist_inserts_r|]. apply sublist_inserts_l. by apply IH. }
  assert (Hgs : gone b ≡ₚ run_elems a b r ++ gone' b).
  { unfold gone'. rewrite fn_lookup_insert. rewrite <- (filter_eq (gone b) (run_elems a b r)) at 1; try done.
    - apply filter_split.
    - intros x Hx. by eapply Ga. }
  assert (Hub : g_used G b ≡ₚ run_elems a b r ++ used' b).
  { unfold used'. rewrite fn_lookup_insert, (Gu b Hb), Hgs. by rewrite <- app_assoc. }
  assert (Hother : forall b', b' <> b -> used' b' = g_used G b' /\ gone' b' = gone b').
  { intros b' Hne. unfold used', gone'. by rewrite !fn_lookup_insert_ne by (by apply not_eq_sym). }
  assert (Hel : forall b', b' <> b -> run_elems a b' r = []).
  { intros b' Hne. unfold run_elems. rewrite Hk. by rewrite (proj2 (Z.eqb_neq b b')) by (by apply not_eq_sym). }
  set (ring' := l1 ++ (a, rs') :: l2).
  assert (Hlarge : large_blocks ring' ≡ₚ large_blocks (g_ring G)).
  { rewrite Hring. unfold ring'. rewrite (large_split l1 a rs r rs' l2 Hp). unfold large_span. by rewrite Hk. }
  set (T := total (blocks G)). set (T' := total (large_blocks ring' ++ small_blocks used')).
  exists c', used', gone', (g_extra G + T - T'). split; [done|]. cbn zeta. split.
  - apply (ok_update cnt cnt h h cs m m sys G l1 a rs l2 c c' rs' (g_free G) used' (g_extra G + T - T') Hok Hring Hc Hsp Hcok'); try done.
    + apply (hk_slots _ _ _ _ _ _ Hok).
    + apply (hk_chain _ _ _ _ _ _ Hok).
    + intros b' Hb'. cbn [g_ring]. pose proof (hk_perm _ _ _ _ _ _ Hok b' Hb') as Hpm. rewrite Hring, (elems_split l1 a rs r rs' l2 b' Hp) in Hpm.
      destruct (decide (b' = b)) as [->|Hne].
      * rewrite Hub in Hpm. apply (Permutation_app_inv_l (run_elems a b r)). rewrite <- Hpm. solve_Permutation.
      * rewrite (Hel b' Hne) in Hpm. cbn [app] in Hpm. by destruct (Hother b' Hne) as [-> _].
    + rewrite (hk_size _ _ _ _ _ _ Hok). f_equal. unfold blocks. cbn [g_ring g_used]. fold ring' T'. unfold T, blocks. lia.
  - split; cbn [g_ring g_cached g_free g_used g_huge g_extra g_rextra]; try done.
    + rewrite <- Gl. exact Hlarge.
    + intros b' Hb'. destruct (decide (b' = b)) as [->|Hne]; [unfold used'; by rewrite fn_lookup_insert|].
      destruct (Hother b' Hne) as [-> ->]. by apply Gu.
    + intros a1 rs1 r1 b1 x Hin1 Hr1 Hk1 Hcol1 Hx1.
      assert (Hold : exists rs1', (a1, rs1') ∈ g_ring G /\ r1 ∈ rs1').
      { fold ring' in Hin1. unfold ring' in Hin1. rewrite Hring. apply elem_of_app in Hin1 as [Hi|[[= -> ->]|Hi]%elem_of_cons].
        - exists rs1. split; [apply elem_of_app; by left|done].
        - exists rs. split; [apply elem_of_app; right; by left|]. rewrite Hp. by right.
        - exists rs1. split; [apply elem_of_app; right; by right|done]. }
      destruct Hold as (rs1' & Hin1' & Hr1'). pose proof (Ga a1 rs1' r1 b1 x Hin1' Hr1' Hk1 Hcol1 Hx1) as Hg1.
      destruct (decide (b1 = b)) as [->|Hne]; [|by destruct (Hother b1 Hne) as [_ ->]].
      unfold gone'. rewrite fn_lookup_insert. apply list_elem_of_filter. split; [|done]. intros Hx.
      destruct (elem_home _ _ _ _ _ _ _ _ _ _ _ _ _ _ Hok Hin Hr Hin1' Hr1' Hx Hx1) as [<- <-].
      (* the run itself is gone *)
      assert (rs1 = rs').
      { unfold ring' in Hin1. pose proof (hk_nodup _ _ _ _ _ _ Hok) as Hn. apply NoDup_app in Hn as [Hn _].
        rewrite Hring, fmap_app, fmap_cons in Hn. apply NoDup_app in Hn as (_ & Hn1 & Hn2%NoDup_cons). cbn in Hn1, Hn2.
        apply elem_of_app in Hin1 as [Hi|[[= ->]|Hi]%elem_of_cons]; [|done|].
        - destruct (Hn1 a); [apply list_elem_of_fmap; by exists (a, rs1)|by left].
        - destruct Hn2 as [Hn2 _]. destruct Hn2. apply list_elem_of_fmap. by exists (a, rs1). }
      subst rs1. pose proof (nodup_runs _ _ _ Hcok) as Hnr. rewrite Hp in Hnr. apply NoDup_cons in Hnr as [Hnr _]. done.
    + intros b' x Hb' Hx.
      assert (Hx' : x ∈ gone b' /\ x ∉ run_elems a b' r).
      { destruct (decide (b' = b)) as [->|Hne].
        - unfold gone' in Hx. rewrite fn_lookup_insert in Hx. apply list_elem_of_filter in Hx. tauto.
        - destruct (Hother b' Hne) as [_ E]. rewrite E in Hx. rewrite (Hel b' Hne). split; [done|by intros ?%elem_of_nil]. }
      destruct Hx' as [Hxg Hxn]. destruct (Gg b' x Hb' Hxg) as (a1 & rs1 & r1 & Hin1 & Hr1 & Hk1 & Hx1 & Hc1).
      rewrite Hring in Hin1. apply elem_of_app in Hin1 as [Hi|[[= -> ->]|Hi]%elem_of_cons].
      * exists a1, rs1, r1. split; [apply elem_of_app; by left|done].
      * rewrite Hp in Hr1. apply elem_of_cons in Hr1 as [->|Hr1]; [done|]. exists a, rs', r1. split; [apply elem_of_app; right; by left|done].
      * exists a1, rs1, r1. split; [apply elem_of_app; right; by right|done].
    + intros a1 rs1 r1 Hin1 Hr1. apply elem_of_app in Hin1 as [Hi|[[= -> ->]|Hi]%elem_of_cons].
      * apply (Gr a1 rs1 r1); [rewrite Hring; apply elem_of_app; by left|done].
      * apply (Gr a rs r1); [done|rewrite Hp; by right].
      * apply (Gr a1 rs1 r1); [rewrite Hring; apply elem_of_app; right; by right|done].
    + rewrite <- Ge. unfold blocks. cbn [g_ring g_used]. fold ring' T'. unfold T, blocks. lia.
Qed.

(** A counter is reset. *)
Lemma reset_run cnt h cs m sys G0 G gone a rs r b c : heap_ok cnt h cs m sys G -> gc_rel cnt G0 G gone ->
  (a, rs) ∈ g_ring G -> r ∈ rs -> r_kind r = Small b -> collectible cnt a r = false -> cs !! a = Some c ->
  exists cnt' mp, wr (ch_map c) (r_start r) (ZEND_MM_SRUN b) = Ok mp /\
    heap_ok cnt' h (<[a := set_map mp c]> cs) m sys G /\ gc_rel cnt' G0 G gone /\ cnt' a (r_start r) = 0 /\
    (forall a' rs' r', (a', rs') ∈ g_ring G -> r' ∈ rs' -> a' <> a \/ r' <> r -> cnt' a' (r_start r') = cnt a' (r_start r')) /\
    (forall a', a' <> a -> cnt' a' = cnt a') /\
    (forall a' rs' r', (a', rs') ∈ g_ring G -> r' ∈ rs' -> collectible cnt' a' r' = collectible cnt a' r').
Proof.
  intros Hok [Gl Gu Ga Gg Gr Gh Gx Ge] Hin Hr Hk Hcol Hc.
  destruct (set_counter_heap cnt h cs m sys G a rs r b 0 c Hok Hin Hr Hk Hc) as (mp & Hmp & Hok' & Hv & Hoth). cbv zeta in *.
  set (cnt' := <[a := _]> cnt) in *. exists cnt', mp. rewrite SRUN_EX_0. split; [done|]. split; [done|].
  assert (Hcl : forall a' rs' r', (a', rs') ∈ g_ring G -> r' ∈ rs' -> collectible cnt' a' r' = collectible cnt a' r').
  { intros a' rs' r' Hin' Hr'. destruct (decide (a' = a /\ r' = r)) as [[-> ->]|Hne].
    - rewrite Hcol. unfold collectible. rewrite Hk, Hv. destruct (small_run _ _ _ _ _ _ _ _ _ _ Hok Hin Hr Hk) as [Hb _].
      destruct (bin_facts b Hb) as (_ & _ & _ & _ & _ & _ & ? & _). apply Z.eqb_neq. change (0 mod 512) with 0. lia.
    - unfold collectible. by rewrite (Hoth a' rs' r' Hin' Hr') by (by apply not_both). }
  split; [|split; [done|split; [done|split; [intros a' Ha; unfold cnt'; apply fn_lookup_insert_ne; by apply not_eq_sym|done]]]]. split; try done.
  - intros a1 rs1 r1 b1 x Hin1 Hr1 Hk1 Hc1. rewrite (Hcl a1 rs1 r1 Hin1 Hr1) in Hc1. by apply (Ga a1 rs1 r1).
  - intros b' x Hb' Hx. destruct (Gg b' x Hb' Hx) as (a1 & rs1 & r1 & Hin1 & Hr1 & Hk1 & Hx1 & Hc1). exists a1, rs1, r1.
    split_and!; try done. by rewrite (Hcl a1 rs1 r1).
  - intros a' rs' r' Hin' Hr'. destruct (decide (a' = a /\ r' = r)) as [[-> ->]|Hne]; [rewrite Hv; lia|].
    rewrite (Hoth a' rs' r' Hin' Hr') by (by apply not_both). by apply (Gr a' rs' r').
Qed.

(** ** The pages of a chunk *)

Definition at_boundary (rs : list run) (i : Z) : Prop := forall r, r ∈ rs -> ~ (r_start r < i < r_start r + r_count r).
Definition reset_below cnt (a : Z) (rs : list run) (i : Z) : Prop :=
  forall r b, r ∈ rs -> r_start r < i -> r_kind r = Small b -> cnt a (r_start r) = 0 /\ collectible cnt a r = false.

Definition pages_post cnt h m sys G0 G l1 (a : Z) (rs : list run) l2 (coll coll' : Z) (s : mstate) : Prop :=
  exists cnt' cs' rs' used' gone' extra',
    let G' := View (l1 ++ (a, rs') :: l2) (g_cached G) (g_free G) used' (g_huge G) extra' (g_rextra G) in
    s = mkState (Some h) cs' m sys /\ heap_ok cnt' h cs' m sys G' /\ gc_rel cnt' G0 G' gone' /\
    (forall a', a' <> a -> cnt' a' = cnt a') /\
    (forall r b, r ∈ rs' -> r_kind r = Small b -> cnt' a (r_start r) = 0 /\ collectible cnt' a r = false) /\
    (forall r, r ∈ rs' <-> r ∈ rs /\ collectible cnt a r = false) /\
    coll' + zlen (pages_of rs') = coll + zlen (pages_of rs).

Lemma gc_pages_ok fuel cnt h cs m sys G0 G gone l1 a rs l2 i coll E : heap_ok cnt h cs m sys G -> gc_rel cnt G0 G gone ->
  g_ring G = l1 ++ (a, rs) :: l2 -> 1 <= i <= 512 -> at_boundary rs i -> reset_below cnt a rs i -> 512 - i < Z.of_nat fuel ->
  wp (gc_pages fuel a i coll) (mkState (Some h) cs m sys) (pages_post cnt h m sys G0 G l1 a rs l2 coll) E.
Proof.
  revert cnt cs G gone rs i coll. induction fuel as [|fuel IH]; intros cnt cs G gone rs i coll Hok Hrel Hring Hi Hbd Hrs Hf;
    assert (Hin : (a, rs) ∈ g_ring G) by (rewrite Hring; apply elem_of_app; right; by left);
    destruct (hk_chunks _ _ _ _ _ _ Hok a rs Hin) as (c & Hc & Hheap & Hcok); pose proof (ck_tail _ _ _ Hcok) as Htail.
  - (* past the last page *)
    exfalso. lia.
  - cbn [gc_pages]. step; [exact Hc|]. destruct (Z.leb_spec (ch_free_tail c) i) as [Hle|Hlt].
    { apply wp_ret. exists cnt, cs, rs, (g_used G), gone, (g_extra G). cbv zeta. rewrite <- Hring. split; [done|].
      assert (Hall : forall r, r ∈ rs -> r_start r < i) by (intros r Hr; destruct (ck_runs _ _ _ Hcok r Hr) as (? & _); lia).
      split; [by destruct G|]. split; [by destruct G|]. split; [done|].
      split; [intros r b Hr Hk; by apply (Hrs r b Hr (Hall r Hr))|]. split; [|done].
      intros r. split; [|tauto]. intros Hr. split; [done|]. unfold collectible. destruct (r_kind r) as [|b] eqn:Ek; [done|].
      destruct (Hrs r b Hr (Hall r Hr) Ek) as [_ Hcol]. unfold collectible in Hcol. by rewrite Ek in Hcol. }
    step; [apply is_set_ok; rewrite (ck_words _ _ _ Hcok); lia|].
    destruct (bit_at (ch_free_map c) i) eqn:Ebit.
    2:{ (* a free page *)
      assert (Hni : i ∉ pages_of rs) by (apply (bit_false (cnt a) c rs i Hcok); [lia|done]).
      apply (IH cnt cs G gone rs (i + 1) coll Hok Hrel Hring); [lia| | |lia].
      - intros r Hr Hx. apply (Hbd r Hr). destruct (Z.eq_dec (r_start r) i) as [E1|]; [|lia].
        destruct Hni. apply elem_of_pages_of. exists r. split; [done|lia].
      - intros r b Hr Hx. apply (Hrs r b Hr). destruct (ck_runs _ _ _ Hcok r Hr) as (? & ? & _).
        destruct (Z.eq_dec (r_start r) i) as [E1|]; [|lia]. destruct Hni. apply elem_of_pages_of. exists r. split; [done|lia]. }
    apply (ck_bits _ _ _ Hcok) in Ebit; [|lia]. destruct Ebit as [|(r & Hr & Hri)%elem_of_pages_of]; [lia|].
    assert (Ei : r_start r = i) by (specialize (Hbd r Hr); lia). subst i.
    destruct (ck_runs _ _ _ Hcok r Hr) as (Hs1 & Hs2 & Hs3 & Hmap).
    (* the next boundary *)
    assert (Hbd' : forall rs1, (forall r1, r1 ∈ rs1 -> r1 ∈ rs) -> at_boundary rs1 (r_start r + r_count r)).
    { intros rs1 Hsub r1 Hr1 Hx. destruct (ck_runs _ _ _ Hcok r1 (Hsub r1 Hr1)) as (? & ? & _).
      assert (r1 = r) as ->; [|lia]. apply (runs_disjoint _ _ _ r1 r (Z.max (r_start r) (r_start r1)) Hcok (Hsub r1 Hr1) Hr); [|lia].
      destruct (Z_lt_le_dec (r_start r) (r_start r1)); [|specialize (Hbd r1 (Hsub r1 Hr1)); lia]. lia. }
    assert (Hbelow : forall r1, r1 ∈ rs -> r_start r1 < r_start r + r_count r -> r1 = r \/ r_start r1 < r_start r).
    { intros r1 Hr1 Hx. destruct (ck_runs _ _ _ Hcok r1 Hr1) as (? & ? & _). destruct (Z_lt_le_dec (r_start r1) (r_start r)); [by right|left].
      apply (runs_disjoint _ _ _ r1 r (r_start r1) Hcok Hr1 Hr); lia. }
    unfold run_in_map in Hmap. destruct (r_kind r) as [|b] eqn:Ek.
    { (* a large block *)
      destruct (lrun_words (r_count r) ltac:(lia)) as [W1 W2]. step; [by apply rd_ok|]. rewrite W1, W2.
      apply (IH cnt cs G gone rs _ coll Hok Hrel Hring); [lia|apply Hbd'; by auto| |lia].
      intros r1 b1 Hr1 Hx Hk1. destruct (Hbelow r1 Hr1 Hx) as [->|]; [congruence|]. by apply (Hrs r1 b1). }
    destruct Hmap as (Hpg & Hm0 & _). pose proof (bin_pages_range _ _ Hpg) as Hb.
    pose proof (gr_range _ _ _ _ Hrel a rs r Hin Hr) as Hcr.
    destruct (srun_words b (cnt a (r_start r)) Hb Hcr) as (W1 & _ & W3 & W4). destruct (bin_facts b Hb) as (_ & _ & Hel & _ & _ & _ & Hbc & _).
    step; [by apply rd_ok|]. rewrite W1, W3, W4. step; [by apply rd_ok|]. step; [by apply rd_ok|].
    destruct (cnt a (r_start r) mod 512 =? bin_count b) eqn:Ecol.
    + (* the run is returned *)
      assert (Hcol : collectible cnt a r = true) by (unfold collectible; by rewrite Ek).
      destruct (list_elem_of_split rs r Hr) as (ra & rb & Ers). set (rs1 := ra ++ rb).
      assert (Hp : rs ≡ₚ r :: rs1) by (rewrite Ers; unfold rs1; by rewrite Permutation_middle).
      destruct (collect_run cnt h cs m sys G0 G gone l1 a rs l2 r rs1 b c Hok Hrel Hring Hp Ek Hcol Hc) as (c' & used' & gone' & extra' & Hun & Hok' & Hrel').
      unfold zend_mm_free_pages_ex. apply wp_bind. step; [exact Hc|]. step; [exact Hun|]. step; [exact Hc|]. step. cbn [andb]. apply wp_ret.
      set (G1 := View _ _ _ _ _ _ _) in *.
      assert (Hsub : forall r1, r1 ∈ rs1 -> r1 ∈ rs) by (intros r1 Hr1; rewrite Hp; by right).
      pose proof (nodup_runs _ _ _ Hcok) as Hnr. rewrite Hp in Hnr. apply NoDup_cons in Hnr as [Hnr _].
      eapply wp_mono; [apply (IH cnt _ G1 gone' rs1 _ (coll + r_count r) Hok' Hrel' eq_refl); [lia|apply Hbd'; by auto| |lia]|].
      { intros r1 b1 Hr1 Hx Hk1. destruct (Hbelow r1 (Hsub r1 Hr1) Hx) as [->|]; [done|]. apply (Hrs r1 b1); [by apply Hsub|done..]. }
      intros coll' s (cnt' & cs' & rs' & used2 & gone2 & extra2 & -> & Hok2 & Hrel2 & Ho2 & Hz2 & Hrs2 & Hsum).
      exists cnt', cs', rs', used2, gone2, extra2. split; [done|]. split; [done|]. split; [done|]. split; [done|]. split; [done|]. split.
      * intros r1. rewrite Hrs2. split; [intros [H1 H2]; split; [by apply Hsub|done]|]. intros [H1 H2]. split; [|done].
        rewrite Hp in H1. apply elem_of_cons in H1 as [->|]; [congruence|done].
      * rewrite Hsum. unfold zlen. rewrite Hp. change (Z.of_nat (length (pages_of (r :: rs1)))) with (zlen (pages_of (r :: rs1))).
        rewrite zlen_pages_cons by lia. unfold zlen. lia.
    + (* its counter is reset *)
      assert (Hcol : collectible cnt a r = false) by (unfold collectible; by rewrite Ek).
      destruct (reset_run cnt h cs m sys G0 G gone a rs r b c Hok Hrel Hin Hr Ek Hcol Hc) as (cnt1 & mp & Hmp & Hok' & Hrel' & Hv & Hoth & Ho1 & Hcl).
      step; [exact Hmp|]. step; [exact Hc|].
      eapply wp_mono; [apply (IH cnt1 _ G gone rs _ coll Hok' Hrel' Hring); [lia|apply Hbd'; by auto| |lia]|].
      { intros r1 b1 Hr1 Hx Hk1. rewrite (Hcl a rs r1 Hin Hr1). destruct (decide (r1 = r)) as [->|Hne]; [by split|].
        destruct (Hbelow r1 Hr1 Hx) as [|Hlt']; [done|]. destruct (Hrs r1 b1 Hr1 Hlt' Hk1) as [Hz Hcf]. split; [|done].
        rewrite (Hoth a rs r1 Hin Hr1); [done|by right]. }
      intros coll' s (cnt' & cs' & rs' & used2 & gone2 & extra2 & -> & Hok2 & Hrel2 & Ho2 & Hz2 & Hrs2 & Hsum).
      exists cnt', cs', rs', used2, gone2, extra2. split; [done|]. split; [done|]. split; [done|].
      split; [intros a' Ha; rewrite Ho2 by done; by apply Ho1|]. split; [done|]. split; [|done].
      intros r1. rewrite Hrs2. split; intros [H1 H2]; (split; [done|]); [by rewrite <- (Hcl a rs r1)|by rewrite (Hcl a rs r1)].
Qed.

(** ** The ring *)

Definition used_pages (ring : list (Z * list run)) : Z := zlen (ring ≫= fun x => pages_of x.2).

Lemma used_pages_at l1 a rs l2 : used_pages (l1 ++ (a, rs) :: l2) = zlen (pages_of rs) + used_pages (l1 ++ l2).
Proof. unfold used_pages. rewrite !bind_app, bind_cons, !zlen_app. cbn [snd]. lia. Qed.

Lemma no_runs (f : Z -> Z) c rs : chunk_ok f c rs -> ch_free_pages c = ZEND_MM_PAGES - ZEND_MM_FIRST_PAGE -> rs = [].
Proof.
  intros Hok Hf. rewrite (ck_free _ _ _ Hok) in Hf. destruct rs as [|r rs]; [done|]. destruct (ck_runs _ _ _ Hok r) as (_ & ? & _); [by left|].
  rewrite zlen_pages_cons in Hf by lia. pose proof (zlen_nonneg (pages_of rs)). unfold ZEND_MM_PAGES, ZEND_MM_FIRST_PAGE in Hf. lia.
Qed.

Lemma used_pages_sub (f g : Z -> Z) c c' rs rs' : chunk_ok f c rs -> chunk_ok g c' rs' -> (forall r, r ∈ rs' -> r ∈ rs) ->
  zlen (pages_of rs') <= zlen (pages_of rs).
Proof.
  intros H H' Hs. assert (Hl : pages_of rs' ⊆+ pages_of rs).
  { apply NoDup_submseteq; [apply (ck_nodup _ _ _ H')|]. intros k (r & Hr & Hk)%elem_of_pages_of. apply elem_of_pages_of. exists r. auto. }
  apply submseteq_length in Hl. unfold zlen. lia.
Qed.

Lemma rel_mine cnt G0 G gone : gc_rel cnt G0 G gone -> mine G0 ⊆ mine G.
Proof.
  intros [Gl Gu _ _ _ Gh _ _] x. unfold mine, blocks. rewrite Gh, !elem_of_app, Gl.
  intros [[Hx|Hx]|Hx]; [by left; left|left; right|by right].
  apply elem_of_small in Hx as (b & p & Hb & Hp & ->). apply elem_of_small. exists b, p. split; [done|]. split; [|done].
  rewrite (Gu b Hb). apply elem_of_app. by right.
Qed.

(** Counters that are zero and runs that stay. *)
Definition settled cnt (ring : list (Z * list run)) : Prop :=
  forall a rs r b, (a, rs) ∈ ring -> r ∈ rs -> r_kind r = Small b -> cnt a (r_start r) = 0 /\ collectible cnt a r = false.

Definition chunks_post cnt h m G0 G (todo : list Z) (coll coll' : Z) (s : mstate) : Prop :=
  exists cnt' h' cs' m' sys' G' gone', s = mkState (Some h') cs' m' sys' /\ heap_ok cnt' h' cs' m' sys' G' /\ gc_rel cnt' G0 G' gone' /\
    keeps (mine G0) m m' /\ kept h h' /\ settled cnt' (g_ring G') /\ g_free G' = g_free G /\
    coll' + used_pages (g_ring G') = coll + used_pages (g_ring G) /\ coll <= coll' /\
    forall a r, has_run G' a r <-> has_run G a r /\ (a ∈ todo -> collectible cnt a r = false).

Lemma has_run_mid G l1 a rs l2 a1 r1 : g_ring G = l1 ++ (a, rs) :: l2 ->
  has_run G a1 r1 <-> (a1 = a /\ r1 ∈ rs) \/ exists rs1, (a1, rs1) ∈ l1 ++ l2 /\ r1 ∈ rs1.
Proof.
  intros Hring. unfold has_run. rewrite Hring. split.
  - intros (rs1 & [Hi|[[= -> ->]|Hi]%elem_of_cons]%elem_of_app & Hr).
    + right. exists rs1. split; [apply elem_of_app; by left|done].
    + by left.
    + right. exists rs1. split; [apply elem_of_app; by right|done].
  - intros [[-> Hr]|(rs1 & [Hi|Hi]%elem_of_app & Hr)].
    + exists rs. split; [apply elem_of_app; right; by left|done].
    + exists rs1. split; [apply elem_of_app; by left|done].
    + exists rs1. split; [apply elem_of_app; right; by right|done].
Qed.

Lemma has_run_nil G l1 a l2 a1 r1 : g_ring G = l1 ++ (a, []) :: l2 ->
  has_run G a1 r1 <-> exists rs1, (a1, rs1) ∈ l1 ++ l2 /\ r1 ∈ rs1.
Proof. intros Hring. rewrite (has_run_mid _ _ _ _ _ _ _ Hring). split; [intros [[_ H]|H]; [by apply elem_of_nil in H|done]|by right]. Qed.

Lemma gc_chunks_ok fuel cnt h cs m sys G0 G gone l1 a rs l2 coll E : heap_ok cnt h cs m sys G -> gc_rel cnt G0 G gone ->
  g_ring G = l1 ++ (a, rs) :: l2 -> (length l2 < fuel)%nat -> settled cnt l1 ->
  (l1 = [] -> exists r, r ∈ rs /\ collectible cnt a r = false) ->
  wp (gc_chunks fuel a coll) (mkState (Some h) cs m sys) (chunks_post cnt h m G0 G (a :: l2.*1) coll) E.
Proof.
  revert cnt h cs m sys G gone l1 a rs l2 coll. induction fuel as [|fuel IH]; intros cnt h cs m sys G gone l1 a rs l2 coll Hok Hrel Hring Hf Hset Hlive; [lia|].
  cbn [gc_chunks]. apply wp_bind. eapply wp_mono.
  { apply (gc_pages_ok page_fuel cnt h cs m sys G0 G gone l1 a rs l2 1 coll E Hok Hrel Hring); [lia| | |unfold page_fuel; lia].
    - intros r Hr Hx. assert (Hin : (a, rs) ∈ g_ring G) by (rewrite Hring; apply elem_of_app; right; by left).
      destruct (run_in_chunk _ _ _ _ _ _ _ _ _ Hok Hin Hr) as (_ & ? & _). lia.
    - intros r b Hr Hx. assert (Hin : (a, rs) ∈ g_ring G) by (rewrite Hring; apply elem_of_app; right; by left).
      destruct (run_in_chunk _ _ _ _ _ _ _ _ _ Hok Hin Hr) as (_ & ? & _). lia. }
  intros coll1 s (cnt1 & cs1 & rs1 & used1 & gone1 & extra1 & -> & Hok1 & Hrel1 & Ho1 & Hz1 & Hrs1 & Hsum1).
  set (G1 := View (l1 ++ (a, rs1) :: l2) _ _ _ _ _ _) in *. assert (Hring1 : g_ring G1 = l1 ++ (a, rs1) :: l2) by done.
  assert (Hin1 : (a, rs1) ∈ g_ring G1) by (rewrite Hring1; apply elem_of_app; right; by left).
  destruct (hk_chunks _ _ _ _ _ _ Hok1 a rs1 Hin1) as (c1 & Hc1 & _ & Hcok1). step; [exact Hc1|].
  destruct (ring_next _ _ _ _ _ _ _ _ _ _ Hok1 Hring1) as [Hnext Hmain]. rewrite Hc1 in Hnext. cbn in Hnext. injection Hnext as Hnext. rewrite Hnext.
  assert (Hna : forall x, x ∈ l1 ++ l2 -> x.1 <> a).
  { intros x Hx E1. pose proof (hk_nodup _ _ _ _ _ _ Hok) as Hn. apply NoDup_app in Hn as [Hn _]. rewrite Hring, fmap_app, fmap_cons in Hn.
    rewrite <- Permutation_middle in Hn. apply NoDup_cons in Hn as [Hn _]. apply Hn. rewrite <- fmap_app. apply list_elem_of_fmap. exists x. by split. }
  (* the rest of the ring is as before *)
  assert (Hset1 : settled cnt1 l1).
  { intros a' rs' r b Hin Hr Hk. destruct (Hset a' rs' r b Hin Hr Hk) as [Hz Hc]. unfold collectible in *. rewrite Hk in *.
    rewrite (Ho1 a') by (apply (Hna (a', rs')), elem_of_app; by left). by split. }
  assert (Hcol1 : forall a' r, a' <> a -> collectible cnt1 a' r = collectible cnt a' r).
  { intros a' r Ha. unfold collectible. by rewrite (Ho1 a' Ha). }
  assert (Hpages1 : coll1 + used_pages (g_ring G1) = coll + used_pages (g_ring G)).
  { rewrite Hring1, Hring, !used_pages_at. lia. }
  assert (Hle1 : coll <= coll1).
  { assert (Hin : (a, rs) ∈ g_ring G) by (rewrite Hring; apply elem_of_app; right; by left).
    destruct (hk_chunks _ _ _ _ _ _ Hok a rs Hin) as (c & _ & _ & Hcok).
    pose proof (used_pages_sub _ _ _ _ _ _ Hcok Hcok1 ltac:(intros r Hr; by apply Hrs1)). lia. }
  assert (Hdel : forall (Q : unit -> mstate -> Prop),
    (forall h2 cs2 m2 sys2 l2' G2, (g_ring G2 = l2' ++ l2) -> heap_ok cnt1 h2 cs2 m2 sys2 G2 -> gc_rel cnt1 G0 G2 gone1 -> keeps (mine G0) m m2 -> kept h h2 ->
       settled cnt1 l2' -> l2' <> [] -> g_free G2 = g_free G -> used_pages (g_ring G2) = used_pages (g_ring G1) ->
       (forall a' r', has_run G2 a' r' <-> has_run G1 a' r') -> Q tt (mkState (Some h2) cs2 m2 sys2)) ->
    wp (if ch_free_pages c1 =? ZEND_MM_PAGES - ZEND_MM_FIRST_PAGE then zend_mm_delete_chunk a else mret tt) (mkState (Some h) cs1 m sys) Q E).
  { intros Q HQ. destruct (Z.eqb_spec (ch_free_pages c1) (ZEND_MM_PAGES - ZEND_MM_FIRST_PAGE)) as [Hfull|Hfull].
    - pose proof (no_runs _ _ _ Hcok1 Hfull) as Hnil. assert (Hl1 : l1 <> []).
      { intros Hl. destruct (Hlive Hl) as (r & Hr & Hc). assert (r ∈ rs1) as Hr1 by (apply Hrs1; by split). rewrite Hnil in Hr1. by apply elem_of_nil in Hr1. }
      subst rs1. eapply wp_mono; [by apply (delete_chunk_ok cnt1 h cs1 m sys G1 l1 a l2 E Hok1)|].
      intros [] s (h2 & cs2 & m2 & sys2 & cached2 & -> & Hk2 & Hkept2 & Hok2).
      assert (Hb : blocks (with_regions (l1 ++ l2) cached2 (g_huge G1) (g_rextra G1) G1) = blocks G1).
      { unfold blocks. cbn [g_ring g_used with_regions]. rewrite Hring1. by rewrite large_nil. }
      eapply (HQ h2 cs2 m2 sys2 l1 (with_regions (l1 ++ l2) cached2 (g_huge G1) (g_rextra G1) G1) eq_refl Hok2); try done.
      + destruct Hrel1 as [Gl Gu Ga Gg Gr Gh Gx Ge]. split; cbn [g_ring g_cached g_free g_used g_huge g_extra g_rextra with_regions]; try done.
        * rewrite <- Gl. rewrite Hring1. by rewrite large_nil.
        * intros a' rs' r b x Hin. apply (Ga a' rs'). rewrite Hring1. apply elem_of_app in Hin as [Hi|Hi]; apply elem_of_app; [by left|right; by right].
        * intros b x Hb' Hx. destruct (Gg b x Hb' Hx) as (a' & rs' & r & Hin & Hr & H). exists a', rs', r. split; [|done].
          rewrite Hring1 in Hin. cbn. apply elem_of_app in Hin as [Hi|[[= -> ->]|Hi]%elem_of_cons]; [apply elem_of_app; by left|by apply elem_of_nil in Hr|apply elem_of_app; by right].
        * intros a' rs' r Hin. apply (Gr a' rs'). rewrite Hring1. apply elem_of_app in Hin as [Hi|Hi]; apply elem_of_app; [by left|right; by right].
        * rewrite <- Ge, Hb. done.
      + eapply keeps_incl; [by eapply rel_mine|exact Hk2].
      + cbn [g_ring with_regions]. rewrite Hring1. by rewrite used_pages_at.
      + intros a' r'. rewrite (has_run_nil _ _ _ _ _ _ Hring1). done.
    - apply wp_ret. eapply (HQ h cs1 m sys (l1 ++ [(a, rs1)]) G1); try done; [by rewrite <- app_assoc| |by destruct l1].
      intros a' rs' r b [Hin|[= -> ->]%list_elem_of_singleton]%elem_of_app Hr Hk; [by apply (Hset1 a' rs' r b)|by apply (Hz1 r b)]. }
  apply wp_bind, Hdel. clear Hdel. intros h2 cs2 m2 sys2 l2' G2 Hring2 Hok2 Hrel2 Hk2 Hkept2 Hset2 Hne2 Hfree2 Hpages2 Hrun2.
  step. rewrite (proj1 Hkept2).
  (* the runs so far *)
  assert (Hrun : forall a' r', has_run G2 a' r' <-> has_run G a' r' /\ (a' = a -> collectible cnt a r' = false)).
  { intros a' r'. rewrite Hrun2, (has_run_mid G1 _ _ _ _ _ _ Hring1), (has_run_mid G _ _ _ _ _ _ Hring). rewrite Hrs1. split.
    - intros [(-> & H1 & H2)|(rs' & H1 & H2)]; [split; [by left|done]|]. split; [right; by exists rs'|]. intros ->. by destruct (Hna (a, rs') H1).
    - intros [[[-> H1]|(rs' & H1 & H2)] H]; [left; split; [done|split; [done|by apply H]]|]. right. by exists rs'. }
  destruct l2 as [|[a2 rs2] l2].
  - rewrite Z.eqb_refl. apply wp_ret. rewrite app_nil_r in Hring2. exists cnt1, h2, cs2, m2, sys2, G2, gone1.
    split; [done|]. split; [done|]. split; [done|]. split; [done|]. split; [done|]. split; [by rewrite Hring2|]. split; [done|]. split; [lia|]. split; [done|].
    intros a' r'. rewrite Hrun. split; intros [H1 H2]; (split; [done|]).
    + intros [->|H]%elem_of_cons; [by apply H2|by apply elem_of_nil in H].
    + intros ->. apply H2. by left.
  - cbn [fst]. assert (Ha2 : a2 <> mm_main_chunk h).
    { assert (Hring1' : g_ring G1 = (l1 ++ [(a, rs1)]) ++ (a2, rs2) :: l2) by (by rewrite <- app_assoc).
      destruct (ring_next _ _ _ _ _ _ _ _ _ _ Hok1 Hring1') as [_ [_ Hm]]. intros E2. specialize (Hm E2). by destruct l1. }
    rewrite (proj2 (Z.eqb_neq a2 (mm_main_chunk h))) by done.
    eapply wp_mono; [apply (IH cnt1 h2 cs2 m2 sys2 G2 gone1 l2' a2 rs2 l2 coll1 Hok2 Hrel2 Hring2); [cbn in Hf; lia|done|by intros ->]|].
    intros coll' s (cnt' & h' & cs' & m' & sys' & G' & gone' & -> & Hok' & Hrel' & Hk' & Hkept' & Hset' & Hfree' & Hpages' & Hle' & Hrun').
    exists cnt', h', cs', m', sys', G', gone'. split; [done|]. split; [done|]. split; [done|]. split; [by eapply keeps_trans|].
    split; [by eapply kept_trans|]. split; [done|]. split; [by rewrite Hfree'|]. split; [lia|]. split; [lia|].
    assert (Hina : forall a', a' ∈ a2 :: l2.*1 -> a' <> a).
    { intros a' Ha'. change (a2 :: l2.*1) with (((a2, rs2) :: l2).*1) in Ha'. apply list_elem_of_fmap in Ha' as (x & -> & Hx). apply Hna, elem_of_app. by right. }
    intros a' r'. rewrite Hrun', Hrun. split.
    + intros [[H1 H2] H3]. split; [done|]. intros [->|Ha']%elem_of_cons; [by apply H2|]. rewrite <- Hcol1 by (by apply Hina). by apply H3.
    + intros [H1 H2]. split; [split; [done|]|]. 
      * intros ->. apply H2. by left.
      * intros Ha'. rewrite Hcol1 by (by apply Hina). apply H2. by right.
Qed.

(** ** The collection *)

(** The invariant between operations: all counters are zero. *)
Definition heap_inv h cs m sys G : Prop := heap_ok (fun _ _ => 0) h cs m sys G.

Lemma settled_inv cnt h cs m sys G : heap_ok cnt h cs m sys G -> settled cnt (g_ring G) -> heap_inv h cs m sys G.
Proof.
  intros Hok Hset. open_heap Hok. split; try done. intros a rs Hin. destruct (hk_chunks0 a rs Hin) as (c & Hc & Hh & Hcok).
  exists c. split; [done|]. split; [done|]. destruct Hcok as [c1 c2 c3 c4 c5 c6 c7 c8]. split; try done. intros r Hr.
  destruct (c4 r Hr) as (? & ? & ? & Hm). split_and!; try done; try lia. unfold run_in_map in *. destruct (r_kind r) as [|b] eqn:Ek; [done|].
  destruct (Hset a rs r b Hin Hr Ek) as [Hz _]. by rewrite Hz in Hm.
Qed.

(** Some block is in the main chunk. *)
Definition main_used G : Prop :=
  exists a rs rest x, g_ring G = (a, rs) :: rest /\ x ∈ blocks G /\ a <= x.1 < a + ZEND_MM_CHUNK_SIZE.

(** All slots of the run are free. The first bin is an exception: its 512 slots do not
    fit in the counter. *)
Definition all_free G (a : Z) (r : run) : Prop :=
  exists b, r_kind r = Small b /\ b <> 0 /\ forall p, p ∈ run_elems a b r -> p ∈ g_free G b.

Lemma bin_count_lt b : 0 < b < 30 -> bin_count b < 512.
Proof. intros Hb. apply Z.ltb_lt. apply (all_in_range (fun b => bin_count b <? 512) 1 29); [by vm_compute|lia]. Qed.

Lemma collectible_all_free cnt cnt1 h cs m sys G a rs r : heap_ok cnt h cs m sys G -> cnt_range cnt1 G ->
  (forall b, 0 <= b < 30 -> counted cnt1 G b (g_free G b)) -> (a, rs) ∈ g_ring G -> r ∈ rs ->
  collectible cnt1 a r = true <-> all_free G a r.
Proof.
  intros Hok Hcr Hcnt Hin Hr. unfold collectible, all_free. destruct (r_kind r) as [|b] eqn:Ek.
  { split; [done|]. by intros (b & [=] & _). }
  destruct (small_run _ _ _ _ _ _ _ _ _ _ Hok Hin Hr Ek) as [Hb _]. destruct (bin_facts b Hb) as (_ & _ & _ & _ & _ & _ & Hbc & _).
  pose proof (slots_nodup _ _ _ _ _ _ b Hok Hb) as Hnd. apply NoDup_app in Hnd as (Hnd & _).
  rewrite (Hcnt b Hb a rs r Hin Hr Ek), Z.eqb_eq. pose proof (nslots_bound b (g_free G b) a r Hnd Ek Hb) as Hbd.
  pose proof (nslots_nonneg b (g_free G b) a r) as Hnn. split.
  - intros E. exists b. split; [done|].
    destruct (Z.eq_dec (nslots b (g_free G b) a r) 512) as [E5|E5]; [rewrite E5 in E; change (512 mod 512) with 0 in E; lia|].
    rewrite Z.mod_small in E by lia. split; [|intros p Hp; by apply (nslots_full b _ a r)].
    intros ->. change (bin_count 0) with 512 in *. lia.
  - intros (b' & [= <-] & Hb0 & Hall). pose proof (bin_count_lt b ltac:(lia)) as Hlt.
    assert (Hn : nslots b (g_free G b) a r = bin_count b).
    { unfold nslots. rewrite <- (zlen_run_elems a b r Ek Hb). unfold zlen. f_equal. apply Permutation_length, filter_eq; [done| |done].
      unfold run_elems. rewrite Ek, Z.eqb_refl. destruct (bin_facts b Hb) as (_ & _ & _ & _ & ? & _).
      apply NoDup_fmap_2; [intros k k' E; cbv beta in E; apply (Z.mul_reg_r _ _ (bin_size b)); lia|apply NoDup_seqZ]. }
    rewrite Hn, Z.mod_small by lia. done.
Qed.

Lemma block_run cnt h cs m sys G x : heap_ok cnt h cs m sys G -> x ∈ blocks G ->
  exists a rs r, (a, rs) ∈ g_ring G /\ r ∈ rs /\ a <= x.1 < a + ZEND_MM_CHUNK_SIZE /\ ~ all_free G a r.
Proof.
  intros Hok [(a & rs & r & Hin & Hr & Hk & ->)%elem_of_large|(b & p & Hb & Hp & ->)%elem_of_small]%elem_of_app.
  - destruct (run_in_chunk _ _ _ _ _ _ _ _ _ Hok Hin Hr) as (_ & ? & ? & ?). exists a, rs, r. split; [done|]. split; [done|].
    split; [unfold run_span, ZEND_MM_PAGE_SIZE, ZEND_MM_CHUNK_SIZE; cbn; lia|]. intros (b & Hk' & _). congruence.
  - pose proof (used_elem _ _ _ _ _ _ _ _ Hok Hb Hp) as He.
    destruct (slot_home _ _ _ _ _ _ _ _ Hok He) as (a & rs & r & Hin & Hr & Hk & Hx & Ha & H1 & H2 & H3 & H4 & _). exists a, rs, r.
    split; [done|]. split; [done|]. split; [unfold run_span, ZEND_MM_PAGE_SIZE, ZEND_MM_CHUNK_SIZE in *; cbn [fst snd] in *; lia|].
    intros (b' & Hk' & _ & Hall). assert (b' = b) as -> by congruence. by apply (free_not_used _ _ _ _ _ _ b p Hok Hb (Hall p Hx)).
Qed.

(** *** A bound on the pages *)

Lemma ring_bound cnt h cs m sys G : heap_ok cnt h cs m sys G -> zlen (g_ring G) <= 2 ^ 26.
Proof.
  intros Hok. pose proof (hk_nodup _ _ _ _ _ _ Hok) as Hn. apply NoDup_app in Hn as [Hn _].
  assert (Ha : forall a, a ∈ (g_ring G).*1 -> chunk_addr a).
  { intros a Hi. apply (hk_addr _ _ _ _ _ _ Hok a). apply elem_of_app. by left. }
  assert (Hs : (fun a => a / ZEND_MM_CHUNK_SIZE) <$> (g_ring G).*1 ⊆+ seqZ 0 (2 ^ 26)).
  { apply NoDup_submseteq.
    - apply NoDup_fmap_2_strong; [|done]. intros a b Hi Hj E. destruct (Ha a Hi) as (_ & ? & _), (Ha b Hj) as (_ & ? & _).
      unfold ZEND_MM_CHUNK_SIZE in *. dlia.
    - intros x (a & -> & Hi)%list_elem_of_fmap. destruct (Ha a Hi) as (? & ? & ?). apply elem_of_seqZ. unfold ZEND_MM_CHUNK_SIZE in *. dlia. }
  apply submseteq_length in Hs. rewrite !length_fmap, length_seqZ in Hs. unfold zlen. lia.
Qed.

Lemma used_pages_range cnt h cs m sys G : heap_ok cnt h cs m sys G -> 0 <= used_pages (g_ring G) <= 511 * zlen (g_ring G).
Proof.
  intros Hok. split; [apply zlen_nonneg|].
  assert (H : forall x, x ∈ g_ring G -> zlen (pages_of x.2) <= 511).
  { intros [a rs] Hin. destruct (hk_chunks _ _ _ _ _ _ Hok a rs Hin) as (c & _ & _ & Hc). pose proof (free_pages_range _ _ _ Hc). cbn [snd]. lia. }
  revert H. clear. unfold used_pages. induction (g_ring G) as [|x ring IH]; intros H; [done|]. rewrite bind_cons, zlen_app, zlen_cons.
  specialize (IH ltac:(intros; apply H; by right)). specialize (H x ltac:(by left)). lia.
Qed.

(** What a collection leaves alone in the heap. *)
Definition kept_gc h h' : Prop :=
  mm_main_chunk h' = mm_main_chunk h /\ mm_huge_list h' = mm_huge_list h /\ mm_size h' = mm_size h /\ mm_peak h' = mm_peak h /\
  mm_limit h' = mm_limit h /\ mm_overflow h' = mm_overflow h.

Lemma bind_perm_ext {A B} (f g : A -> list B) l : (forall x, x ∈ l -> f x ≡ₚ g x) -> l ≫= f ≡ₚ l ≫= g.
Proof. induction l as [|x l IH]; intros H; [done|]. rewrite !bind_cons, (H x) by (by left). f_equiv. apply IH. intros; apply H. by right. Qed.

Definition gc_post h m G (n : Z) (s : mstate) : Prop :=
  exists h' cs' m' sys' G', s = mkState (Some h') cs' m' sys' /\ heap_inv h' cs' m' sys' G' /\
    blocks G' ≡ₚ blocks G /\ g_huge G' = g_huge G /\ g_extra G' = g_extra G /\ g_rextra G' = g_rextra G /\
    (forall b, g_free G' b ⊆ g_free G b) /\ keeps (mine G) m m' /\ kept_gc h h' /\ n = ZEND_MM_PAGE_SIZE * (used_pages (g_ring G) - used_pages (g_ring G')) /\ 0 <= n /\
    main_used G' /\
    forall a r, has_run G' a r <-> has_run G a r /\ ~ all_free G a r.

Lemma zend_mm_gc_ok h cs m sys G E : heap_inv h cs m sys G -> main_used G ->
  wp zend_mm_gc (mkState (Some h) cs m sys) (gc_post h m G) E.
Proof.
  intros Hok (main & rs & rest & x & Hring & Hx & Hxm). unfold zend_mm_gc.
  assert (Hbd0 : bins_done (fun _ _ => 0) G G (fun _ => []) []).
  { split; try done.
    - intros b. by rewrite app_nil_r.
    - intros b y Hy. by apply elem_of_nil in Hy.
    - intros b Hb Hd. by apply elem_of_nil in Hd.
    - intros b y Hb Hd. by apply elem_of_nil in Hd. }
  apply wp_bind. eapply wp_mono; [apply (gc_bins_ok (seqZ 0 ZEND_MM_BINS) (fun _ _ => 0) h cs m sys G G (fun _ => []) [] E Hok Hbd0)|].
  { apply NoDup_seqZ. }
  { intros b Hb%elem_of_seqZ. unfold ZEND_MM_BINS in Hb. split; [lia|apply not_elem_of_nil]. }
  intros [] s (cnt1 & h1 & cs1 & m1 & G1 & gone1 & done1 & -> & Hk1 & Hkeep1 & Hok1 & Hbd1 & Hall1).
  assert (Hdone : forall b, 0 <= b < 30 -> b ∈ done1) by (intros b Hb; apply Hall1; left; apply elem_of_seqZ; unfold ZEND_MM_BINS; lia).
  assert (Hrel1 : gc_rel cnt1 G G1 gone1).
  { apply (bins_rel cnt1 h1 cs1 m1 sys G G1 gone1 done1 Hok1 Hbd1 Hdone). intros b Hb.
    pose proof (slots_nodup _ _ _ _ _ _ b Hok Hb) as Hn. by apply NoDup_app in Hn as [? _]. }
  (* what is collected *)
  assert (Hcol : forall a rs r, (a, rs) ∈ g_ring G -> r ∈ rs -> collectible cnt1 a r = true <-> all_free G a r).
  { intros a rs0 r Hin Hr. apply (collectible_all_free (fun _ _ => 0) cnt1 h cs m sys G a rs0 r Hok (bd_range _ _ _ _ _ Hbd1)); [|done..].
    intros b Hb. apply (bd_count _ _ _ _ _ Hbd1); [done|by apply Hdone]. }
  step. step. assert (Hring1 : g_ring G1 = (main, rs) :: rest) by (by rewrite (bd_ring _ _ _ _ _ Hbd1)).
  assert (Hmain : mm_main_chunk h1 = main).
  { pose proof (hk_ring _ _ _ _ _ _ Hok1) as Hl. rewrite Hring1 in Hl. cbn in Hl. by destruct Hl as [<- _]. }
  rewrite Hmain. apply wp_bind.
  destruct (block_run _ _ _ _ _ _ _ Hok Hx) as (a0 & rs0 & r0 & Hin0 & Hr0 & Hx0 & Hnf0).
  assert (Hin_main : (main, rs) ∈ g_ring G) by (rewrite Hring; by left).
  assert (a0 = main) as ->.
  { destruct (hk_addr _ _ _ _ _ _ Hok a0 (ring_in_chunks _ _ _ Hin0)) as [(_ & H1 & _) _].
    destruct (hk_addr _ _ _ _ _ _ Hok main (ring_in_chunks _ _ _ Hin_main)) as [(_ & H2 & _) _].
    destruct (Z.eq_dec a0 main) as [|Hne]; [done|]. pose proof (chunks_apart a0 main H1 H2 Hne). lia. }
  assert (rs0 = rs) as -> by (by apply (ring_unique _ _ _ _ _ _ main rs0 rs Hok)).
  eapply wp_mono.
  { apply (gc_chunks_ok _ cnt1 h1 cs1 m1 sys G G1 gone1 [] main rs rest 0 E Hok1 Hrel1 Hring1).
    - pose proof (ring_size _ _ _ _ _ _ Hok1) as Hs. rewrite Hring1 in Hs. cbn in Hs. lia.
    - by intros a' rs' r b Hi%elem_of_nil.
    - intros _. exists r0. split; [done|]. apply not_true_is_false. intros Hc. apply Hnf0. by apply (Hcol main rs). }
  intros coll s (cnt' & h' & cs' & m' & sys' & G' & gone' & -> & Hok' & Hrel' & Hkeep' & Hkept' & Hset' & Hfree' & Hpages' & Hle' & Hrun').
  apply wp_ret.
  assert (Hgone : forall b, 0 <= b < 30 -> gone' b = []).
  { intros b Hb. destruct (gone' b) as [|y l] eqn:Eg; [done|]. exfalso.
    destruct (gr_gone _ _ _ _ Hrel' b y Hb) as (a & rs' & r & Hin & Hr & Hk & _ & Hc); [rewrite Eg; by left|].
    destruct (Hset' a rs' r b Hin Hr Hk) as [_ Hc']. congruence. }
  assert (Hblocks : blocks G' ≡ₚ blocks G).
  { unfold blocks. rewrite (gr_large _ _ _ _ Hrel'). f_equiv. unfold small_blocks. apply bind_perm_ext.
    intros b Hb%elem_of_seqZ. rewrite (gr_used _ _ _ _ Hrel' b) by lia. by rewrite Hgone by lia. }
  assert (Hsub : used_pages (g_ring G1) = used_pages (g_ring G)) by (by rewrite (bd_ring _ _ _ _ _ Hbd1)).
  pose proof (used_pages_range _ _ _ _ _ _ Hok) as Hr1. pose proof (used_pages_range _ _ _ _ _ _ Hok') as Hr2.
  pose proof (ring_bound _ _ _ _ _ _ Hok) as Hr3.
  assert (Hrun : forall a r, has_run G' a r <-> has_run G a r /\ ~ all_free G a r).
  { intros a r. rewrite Hrun'. unfold has_run. rewrite (bd_ring _ _ _ _ _ Hbd1). split.
    - intros [(rs' & Hin & Hr) Hc]. split; [by exists rs'|]. rewrite <- (Hcol a rs' r Hin Hr). rewrite Hc; [done|].
      change (main :: rest.*1) with (((main, rs) :: rest).*1). rewrite <- Hring. apply list_elem_of_fmap. by exists (a, rs').
    - intros [(rs' & Hin & Hr) Hc]. split; [by exists rs'|]. intros _. apply not_true_is_false. by rewrite (Hcol a rs' r Hin Hr). }
  exists h', cs', m', sys', G'. split; [done|]. split; [by apply (settled_inv cnt')|]. split; [done|].
  split; [by rewrite (gr_huge _ _ _ _ Hrel')|]. split.
  { pose proof (gr_extra _ _ _ _ Hrel') as Hx'. rewrite Hblocks in Hx'. lia. }
  split; [by rewrite (gr_rextra _ _ _ _ Hrel')|].
  split; [intros b y; rewrite Hfree', (bd_free _ _ _ _ _ Hbd1 b), elem_of_app; by left|]. split; [by eapply keeps_trans|]. split.
  { destruct Hk1 as ((? & _) & ? & ? & ? & ? & ? & ?), Hkept' as (? & _ & ? & ? & ? & ? & ?). unfold kept_gc. intuition congruence. }
  assert (Hn : u64 (coll * ZEND_MM_PAGE_SIZE) = ZEND_MM_PAGE_SIZE * (used_pages (g_ring G) - used_pages (g_ring G'))).
  { assert (coll = used_pages (g_ring G) - used_pages (g_ring G')) as -> by lia.
    rewrite u64_small by (unfold ZEND_MM_PAGE_SIZE; lia). lia. }
  split; [done|]. split; [apply u64_range|]. split; [|done].
  destruct (ring_main _ _ _ _ _ _ Hok') as (r1 & rest1 & Hring' & _). exists (mm_main_chunk h'), r1, rest1, x. split; [done|].
  split; [by rewrite Hblocks|]. destruct Hkept' as [-> _]. by rewrite Hmain.
Qed.
End Collect.
