(* ===== verification/MmBlocks.v ===== *)
(** * Allocation of pages and slots

    How a chunk is obtained, from the cache, after a collection or from the operating
    system; what the allocation and the release of large and small blocks do to the
    heap: the new block, the errors, the blocks that stay. *)

From stdpp Require Import functions.
From S2P Require Import Prelude.
From S2P Require Import MmPageOps.
From S2P Require Import MmHeapOps.
From S2P Require Import MmAllocOps.
From S2P Require Import MmChunk.
From S2P Require Import MmHeapInv.
From S2P Require Import MmHeap.
From S2P Require Import MmRing.
From S2P Require Import MmGc.

Section AllocPages.
Context {OS : Os} {L : OsLaws OS} {LF : LowFree OS}.
Implicit Types (cnt : Z -> Z -> Z) (h : zend_mm_heap) (cs : gmap Z zend_mm_chunk) (m : gmap Z Z) (sys : os) (G : view) (s : mstate).

Lemma wp_raise {A} e s (Q : A -> mstate -> Prop) (F : mm_error -> mstate -> Prop) : F e s -> wp (raise e) s Q F.
Proof. done. Qed.

Lemma u64_add_l x y : u64 (u64 x + y) = u64 (x + y).
Proof. unfold u64. by rewrite Zplus_mod_idemp_l. Qed.
Lemma u64_sub_l x y : u64 (u64 x - y) = u64 (x - y).
Proof. unfold u64. by rewrite Zminus_mod_idemp_l. Qed.

Lemma total_cons x l : total (x :: l) = x.2 + total l.
Proof. done. Qed.

(** The user's blocks and the sizes are the same. *)
Definition same_blocks G G' : Prop :=
  blocks G' ≡ₚ blocks G /\ g_huge G' = g_huge G /\ g_extra G' = g_extra G /\ g_rextra G' = g_rextra G /\
  forall b, g_free G' b ⊆ g_free G b.

Lemma same_blocks_refl G : same_blocks G G.
Proof. done. Qed.
Lemma same_blocks_trans G1 G2 G3 : same_blocks G1 G2 -> same_blocks G2 G3 -> same_blocks G1 G3.
Proof.
  intros (Ha & ? & ? & ? & Hf) (Hb & ? & ? & ? & Hf'). split; [by rewrite Hb|]. split_and!; try congruence. intros b. by transitivity (g_free G2 b).
Qed.
Lemma same_blocks_mine G G' : same_blocks G G' -> mine G ⊆ mine G'.
Proof. intros (H & Hh & _) x. unfold mine. by rewrite H, Hh. Qed.

(** *** Outcomes *)

(** A chunk for the ring: a region of its own, whose header has no runs. *)
Definition obtained h m G (p : Z) (s : mstate) : Prop :=
  exists h' cs' m' sys' G' c, s = mkState (Some h') cs' m' sys' /\ heap_inv h' cs' m' sys' G' /\
    g_huge G' = (p, ZEND_MM_CHUNK_SIZE) :: g_huge G /\ blocks G' ≡ₚ blocks G /\ g_extra G' = g_extra G /\
    g_rextra G' = g_rextra G + ZEND_MM_CHUNK_SIZE /\ (forall b, g_free G' b ⊆ g_free G b) /\ cs' !! p = Some c /\ clean c /\ keeps (mine G) m m' /\ kept_gc h h'.

(** What errors leave alone in the heap. *)
Definition kept_user h h' : Prop :=
  mm_main_chunk h' = mm_main_chunk h /\ mm_huge_list h' = mm_huge_list h /\ mm_limit h' = mm_limit h.

Definition limit_reached h : Prop := u64 (mm_limit h - mm_real_size h) < ZEND_MM_CHUNK_SIZE.

(** The errors: the heap stays as it is; the memory limit is reached and the handler of
    the error is not running, or the system has no memory. *)
Definition alloc_error h m G (size : Z) (e : mm_error) (s : mstate) : Prop :=
  exists h' cs' m' sys' G', s = mkState (Some h') cs' m' sys' /\ heap_inv h' cs' m' sys' G' /\ same_blocks G G' /\
    keeps (mine G) m m' /\ kept_user h h' /\ mm_size h' = mm_size h /\
    (e = MemoryLimit (mm_limit h) size /\ mm_overflow h = 0 /\ limit_reached h \/ e = OutOfMemory (mm_real_size h') size).

Lemma kept_gc_trans h1 h2 h3 : kept_gc h1 h2 -> kept_gc h2 h3 -> kept_gc h1 h3.
Proof. unfold kept_gc. intuition congruence. Qed.

Lemma obtained_after h m G h1 m1 G1 p s : same_blocks G G1 -> keeps (mine G) m m1 -> kept_gc h h1 -> obtained h1 m1 G1 p s -> obtained h m G p s.
Proof.
  intros Hs Hk Hg (h' & cs' & m' & sys' & G' & c & -> & Hok & Hh & Hb & Hx & Hr & Hf & Hc & Hcl & Hk' & Hg').
  pose proof (same_blocks_mine _ _ Hs) as Hm. destruct Hs as (Sb & Sh & Sx & Sr & Sf).
  exists h', cs', m', sys', G', c. split; [done|]. split; [done|]. split; [by rewrite Hh, Sh|]. split; [by rewrite Hb|].
  split; [congruence|]. split; [by rewrite Hr, Sr|]. split; [intros b; by transitivity (g_free G1 b)|]. split; [done|]. split; [done|]. split; [|by eapply kept_gc_trans].
  eapply keeps_trans; [done|]. by eapply keeps_incl.
Qed.

Lemma alloc_error_after h m G h1 m1 G1 size e s : same_blocks G G1 -> keeps (mine G) m m1 -> kept_gc h h1 ->
  limit_reached h \/ (forall l, e <> MemoryLimit l size) -> alloc_error h1 m1 G1 size e s -> alloc_error h m G size e s.
Proof.
  intros Hs Hk (Hm & Hhl & Hsz & _ & Hl & Hov) Hlim (h' & cs' & m' & sys' & G' & -> & Hok & Hs' & Hk' & Hl' & Hsz' & He).
  exists h', cs', m', sys', G'. split; [done|]. split; [done|]. split; [by eapply same_blocks_trans|].
  split; [eapply keeps_trans; [done|]; eapply keeps_incl; [by eapply same_blocks_mine|done]|].
  unfold kept_user in *. rewrite <- Hl, <- Hov, <- Hsz, <- Hm, <- Hhl. split; [done|]. split; [done|]. destruct He as [(-> & ? & ?)|?]; [|by right].
  destruct Hlim as [?|Hne]; [by left|by destruct (Hne (mm_limit h1))].
Qed.

Lemma error_ok {A} h cs m sys G e size (Q : A -> mstate -> Prop) : heap_inv h cs m sys G ->
  (e = MemoryLimit (mm_limit h) size /\ mm_overflow h = 0 /\ limit_reached h \/ e = OutOfMemory (mm_real_size h) size) ->
  wp (zend_mm_safe_error e) (mkState (Some h) cs m sys) Q (fun e' s => e' = e /\ alloc_error h m G size e' s).
Proof.
  intros Hok He. unfold zend_mm_safe_error. step. apply wp_raise. split; [done|]. eexists _, _, _, _, G. split; [done|].
  split; [by apply (ok_same _ h)|]. split; [apply same_blocks_refl|]. split; [apply keeps_refl|]. done.
Qed.

(** ** A chunk from the system *)

Lemma add_real_ok h cs m sys G p c : heap_inv h cs m sys (with_regions (g_ring G) (g_cached G) ((p, ZEND_MM_CHUNK_SIZE) :: g_huge G) (g_rextra G) G) ->
  cs !! p = Some c -> clean c ->
  forall (Q : Z -> mstate -> Prop) F, (forall s, obtained h m G p s -> Q p s) ->
  wp (add_real_size ZEND_MM_CHUNK_SIZE;; mret p) (mkState (Some h) cs m sys) Q F.
Proof.
  intros Hok Hc Hcl Q F HQ. step. step. apply HQ. set (G1 := with_regions _ _ _ _ G) in *.
  eexists _, _, _, _, (with_extra (g_extra G) (g_rextra G + ZEND_MM_CHUNK_SIZE) G1), c. split; [done|]. split; [|done].
  apply (ok_sizes _ h); [exact Hok|done|done|apply (hk_size _ _ _ _ _ _ Hok)|]. cbn [mm_real_size set_real].
  rewrite (hk_real _ _ _ _ _ _ Hok), u64_add_l. f_equal. cbn [g_rextra G1 with_regions]. lia.
Qed.

Lemma map_chunk_ok h cs m sys G n : heap_inv h cs m sys G -> main_used G ->
  wp (map_chunk n) (mkState (Some h) cs m sys) (obtained h m G) (alloc_error h m G (ZEND_MM_PAGE_SIZE * n)).
Proof.
  intros Hok Hmu. unfold map_chunk. apply wp_bind. eapply wp_mono; [by apply (alloc_chunk_ok (fun _ _ => 0))|].
  intros p s [(cs1 & m1 & sys1 & -> & Hk1 & Hor) Hhd]. cbn [st_chunks] in Hhd.
  assert (Hgot : forall q h2 cs2 m2 sys2 G2, heap_inv h2 cs2 m2 sys2 (with_regions (g_ring G2) (g_cached G2) ((q, ZEND_MM_CHUNK_SIZE) :: g_huge G2) (g_rextra G2) G2) ->
    cs2 !! q = Some zero_chunk -> same_blocks G G2 -> keeps (mine G) m m2 -> kept_gc h h2 ->
    wp (add_real_size ZEND_MM_CHUNK_SIZE;; mret q) (mkState (Some h2) cs2 m2 sys2) (obtained h m G) (alloc_error h m G (ZEND_MM_PAGE_SIZE * n))).
  { intros q h2 cs2 m2 sys2 G2 Hok2 Hq Hs Hk Hg. eapply add_real_ok; [exact Hok2|exact Hq|apply zero_chunk_clean|]. intros s. by apply obtained_after. }
  destruct (Z.eqb_spec p 0) as [->|Hp].
  - destruct Hor as [[_ Hok1]|[? _]]; [|lia]. apply wp_bind, wp_bind. eapply wp_mono; [by apply zend_mm_gc_ok|].
    intros coll s (h2 & cs2 & m2 & sys2 & G2 & -> & Hok2 & Hb2 & Hh2 & Hx2 & Hr2 & Hf2 & Hk2 & Hg2 & _).
    assert (Hs2 : same_blocks G G2) by done. assert (Hk02 : keeps (mine G) m m2) by (by eapply keeps_trans).
    assert (Herr : forall (Q : Z -> mstate -> Prop) cs3 m3 sys3, heap_inv h2 cs3 m3 sys3 G2 -> keeps (mine G2) m2 m3 ->
      wp (h' ← get_heap; zend_mm_safe_error (OutOfMemory (mm_real_size h') (ZEND_MM_PAGE_SIZE * n))) (mkState (Some h2) cs3 m3 sys3) Q
        (alloc_error h m G (ZEND_MM_PAGE_SIZE * n))).
    { intros Q cs3 m3 sys3 Hok3 Hk3. step. eapply wp_conseq; [apply (error_ok h2 cs3 m3 sys3 G2 _ (ZEND_MM_PAGE_SIZE * n) Q Hok3); by right|done|].
      intros e s [-> He]. revert He. apply alloc_error_after; [done| |done|by right]. eapply keeps_trans; [done|]. eapply keeps_incl; [by eapply same_blocks_mine|done]. }
    destruct (coll =? 0); [apply Herr; [done|apply keeps_refl]|].
    apply wp_bind. eapply wp_mono; [by apply (alloc_chunk_ok (fun _ _ => 0))|].
    intros q s [(cs3 & m3 & sys3 & -> & Hk3 & Hor3) Hhd3]. cbn [st_chunks] in Hhd3. destruct (Z.eqb_spec q 0) as [->|Hq].
    + destruct Hor3 as [[_ Hok3]|[? _]]; [|lia]. by apply Herr.
    + destruct Hor3 as [[? _]|[_ Hok3]]; [done|]. apply wp_ret. apply (Hgot q h2 cs3 m3 sys3 G2); try done; [by apply Hhd3|].
      eapply keeps_trans; [done|]. eapply keeps_incl; [by eapply same_blocks_mine|done].
  - destruct Hor as [[? _]|[_ Hok1]]; [done|]. apply wp_bind, wp_ret. apply (Hgot p h cs1 m1 sys1 G); try done. by apply Hhd.
Qed.

Lemma obtain_chunk_ok fuel h cs m sys G n : heap_inv h cs m sys G -> main_used G -> used_pages (g_ring G) < Z.of_nat fuel ->
  wp (obtain_chunk fuel n) (mkState (Some h) cs m sys) (obtained h m G) (alloc_error h m G (ZEND_MM_PAGE_SIZE * n)).
Proof.
  revert h cs m sys G. induction fuel as [|fuel IH]; intros h cs m sys G Hok Hmu Hf; [pose proof (used_pages_range _ _ _ _ _ _ Hok); lia|].
  cbn [obtain_chunk]. step. destruct (Z.eqb_spec (mm_cached_chunks h) 0) as [H0|H0]; cbn [negb].
  - destruct (Z.ltb_spec (u64 (mm_limit h - mm_real_size h)) ZEND_MM_CHUNK_SIZE) as [Hlim|Hlim]; [|by apply map_chunk_ok].
    apply wp_bind. eapply wp_mono; [by apply zend_mm_gc_ok|].
    intros coll s (h2 & cs2 & m2 & sys2 & G2 & -> & Hok2 & Hb2 & Hh2 & Hx2 & Hr2 & Hf2 & Hk2 & Hg2 & Hn & Hn0 & Hmu2 & _).
    assert (Hs2 : same_blocks G G2) by done. destruct (Z.eqb_spec coll 0) as [->|Hc]; cbn [negb].
    + step. destruct (Z.eqb_spec (mm_overflow h2) 0) as [Hov|Hov].
      * unfold zend_mm_safe_error. step. apply wp_raise. eexists _, _, _, _, G2. split; [done|]. split; [by apply (ok_same _ h2)|].
        destruct Hg2 as (? & ? & ? & _ & Hl & Hov2). rewrite Hl, Hov2 in *. split_and!; try done. left. by split_and!.
      * eapply wp_conseq; [by apply map_chunk_ok| |]; intros e s; [by apply obtained_after|apply alloc_error_after; try done; by left].
    + eapply wp_conseq; [apply IH; [exact Hok2|done|unfold ZEND_MM_PAGE_SIZE in *; lia]| |]; intros e s; [by apply obtained_after|apply alloc_error_after; try done; by left].
  - pose proof (hk_cached _ _ _ _ _ _ Hok) as Hcl. destruct (g_cached G) as [|a l] eqn:Ec; [done|].
    destruct (pop_ok _ _ _ _ _ _ _ _ Hok Ec) as (c & Ha & Hc & Hclean & Hok'). rewrite Ha. step; [exact Hc|]. step. step.
    eexists _, _, _, _, _, c. split; [done|]. split; [exact Hok'|]. by split_and!.
Qed.

(** ** Pages *)

(** The collection is only run when the ring has no room. *)
Definition has_room G (n : Z) : Prop := exists x p, x ∈ g_ring G /\ free_at x.2 p n.

Lemma mark_pages_ok h cs m sys G l1 a rs l2 c p n E : heap_inv h cs m sys G -> g_ring G = l1 ++ (a, rs) :: l2 -> cs !! a = Some c ->
  p <= ch_free_tail c -> free_at rs p n -> 0 < n ->
  wp (c ← get_chunk a; c ← lift (mark_run c p n); put_chunk a c;; mret (a + p * ZEND_MM_PAGE_SIZE)) (mkState (Some h) cs m sys)
    (fun ptr s => exists cs', s = mkState (Some h) cs' m sys /\ ptr = a + ZEND_MM_PAGE_SIZE * p /\
       heap_inv h cs' m sys (View (l1 ++ (a, Run p n Large :: rs) :: l2) (g_cached G) (g_free G) (g_used G) (g_huge G)
         (g_extra G - ZEND_MM_PAGE_SIZE * n) (g_rextra G))) E.
Proof.
  intros Hok Hring Hc Hpt (Hp & Hpn & Hfree) Hn. assert (Hin : (a, rs) ∈ g_ring G) by (rewrite Hring; apply elem_of_app; right; by left).
  destruct (hk_chunks _ _ _ _ _ _ Hok a rs Hin) as (c0 & Hc0 & _ & Hcok). assert (c0 = c) as -> by congruence.
  destruct (mark_run_ok _ c rs p n Hcok) as (c' & Hc' & Hsp & Hcok'); [lia..|done|].
  step; [exact Hc|]. step; [exact Hc'|]. step; [exact Hc|]. step. eexists. split; [done|]. split; [lia|].
  assert (Hsplit : forall b, elems (l1 ++ (a, Run p n Large :: rs) :: l2) b ≡ₚ elems (g_ring G) b).
  { intros b. rewrite (elems_split l1 a _ (Run p n Large) rs l2 b) by done. rewrite Hring. done. }
  apply (ok_update (fun _ _ => 0) (fun _ _ => 0) h h cs m m sys G l1 a rs l2 c c' (Run p n Large :: rs) (g_free G) (g_used G) (g_extra G - ZEND_MM_PAGE_SIZE * n)); try done.
  - apply (hk_slots _ _ _ _ _ _ Hok).
  - apply (hk_chain _ _ _ _ _ _ Hok).
  - intros b Hb. cbn [g_ring]. rewrite Hsplit. by apply (hk_perm _ _ _ _ _ _ Hok).
  - rewrite (hk_size _ _ _ _ _ _ Hok). f_equal. unfold blocks. cbn [g_ring g_used].
    rewrite (large_split l1 a _ (Run p n Large) rs l2) by done. rewrite Hring.
    unfold large_span, run_span. cbn [r_kind app r_start r_count]. rewrite total_cons. cbn [snd]. lia.
Qed.

Definition pages_allocated h m G (n ptr : Z) (s : mstate) : Prop :=
  exists h' cs' m' sys' G' a p rs l1 l2, s = mkState (Some h') cs' m' sys' /\ heap_inv h' cs' m' sys' G' /\
    g_ring G' = l1 ++ (a, Run p n Large :: rs) :: l2 /\ ptr = a + ZEND_MM_PAGE_SIZE * p /\
    blocks G' ≡ₚ (ptr, ZEND_MM_PAGE_SIZE * n) :: blocks G /\ g_huge G' = g_huge G /\ g_extra G' = g_extra G - ZEND_MM_PAGE_SIZE * n /\
    g_rextra G' = g_rextra G /\ (forall b, g_free G' b ⊆ g_free G b) /\ keeps (mine G) m m' /\ kept_gc h h'.

Lemma finish_pages h0 m0 G0 h cs m sys G l1 a rs l2 c p n steps E : heap_inv h cs m sys G -> same_blocks G0 G -> keeps (mine G0) m0 m -> kept_gc h0 h ->
  g_ring G = l1 ++ (a, rs) :: l2 -> cs !! a = Some c -> p <= ch_free_tail c -> free_at rs p n -> 0 < n -> (0 < steps -> l1 <> []) ->
  wp ((if (2 <? steps) && (n <? 8) then move_to_front a else mret tt);;
      c ← get_chunk a; c ← lift (mark_run c p n); put_chunk a c;; mret (a + p * ZEND_MM_PAGE_SIZE)) (mkState (Some h) cs m sys)
    (pages_allocated h0 m0 G0 n) E.
Proof.
  intros Hok (Sb & Sh & Sx & Sr & Sf) Hk Hg Hring Hc Hpt Hfr Hn Hst.
  assert (Hend : forall cs1 G1 k1 k2 c1, heap_inv h cs1 m sys G1 -> g_ring G1 = k1 ++ (a, rs) :: k2 -> cs1 !! a = Some c1 -> ch_free_tail c1 = ch_free_tail c ->
    g_ring G1 ≡ₚ g_ring G -> G1 = with_ring (g_ring G1) G ->
    wp (c ← get_chunk a; c ← lift (mark_run c p n); put_chunk a c;; mret (a + p * ZEND_MM_PAGE_SIZE)) (mkState (Some h) cs1 m sys)
      (pages_allocated h0 m0 G0 n) E).
  { intros cs1 G1 k1 k2 c1 Hok1 Hr1 Hc1 Ht1 Hp1 HG1. eapply wp_mono; [apply (mark_pages_ok h cs1 m sys G1 k1 a rs k2 c1 p n E); try done; by rewrite Ht1|].
    intros ptr s (cs2 & -> & -> & Hok2). eexists _, _, _, _, _, a, p, rs, k1, k2. split; [done|]. split; [exact Hok2|]. split; [done|]. split; [done|].
    split; [|rewrite HG1; cbn; rewrite Sh, Sx, Sr; done].
    rewrite <- Sb. unfold blocks. cbn [g_ring g_used]. rewrite (large_split k1 a _ (Run p n Large) rs k2) by done. rewrite <- Hr1, Hp1, HG1.
    cbn. done. }
  apply wp_bind. destruct ((2 <? steps) && (n <? 8)) eqn:Es.
  - assert (Hne : l1 <> []) by (apply Hst; lia). eapply wp_mono; [apply (move_to_front_ok _ h cs m sys G l1 a rs l2 E Hok Hring Hne)|].
    intros [] s (cs1 & r0 & l1' & -> & -> & Hrel & Hok1). destruct (Hrel a c Hc) as (c1 & Hc1 & Hsr).
    apply (Hend cs1 _ [(mm_main_chunk h, r0)] (l1' ++ l2) c1 Hok1); try done; [apply Hsr|]. cbn. rewrite Hring. cbn [app]. by rewrite Permutation_middle.
  - apply wp_ret. apply (Hend cs G l1 l2 c Hok); try done. by destruct G.
Qed.

Lemma zend_mm_alloc_pages_ok h cs m sys G n : heap_inv h cs m sys G -> main_used G \/ has_room G n -> 0 < n <= 511 ->
  wp (zend_mm_alloc_pages n) (mkState (Some h) cs m sys) (pages_allocated h m G n) (alloc_error h m G (ZEND_MM_PAGE_SIZE * n)).
Proof.
  intros Hok Hmu Hn. unfold zend_mm_alloc_pages. step. step. apply wp_bind.
  destruct (ring_main _ _ _ _ _ _ Hok) as (r0 & rest & Hring & _). pose proof (ring_size _ _ _ _ _ _ Hok) as Hsz. rewrite Hring in Hsz. cbn in Hsz.
  eapply wp_mono; [apply (search_chunks_ok _ (fun _ _ => 0) h cs m sys G n [] (mm_main_chunk h) r0 rest 0); try done; try lia|].
  { by intros x q ?%elem_of_nil. }
  intros [found steps] s (cs1 & -> & Hok1 & Hspec). unfold search_result_ok in Hspec. cbn [fst snd] in Hspec. cbn beta iota. destruct found as [[a p]|].
  - destruct Hspec as (l1 & rs & l2 & c & Hr1 & Hc & Hpt & Hfr & _ & Hst). apply wp_bind, wp_ret. cbn beta iota.
    apply (finish_pages h m G h cs1 m sys G l1 a rs l2 c p n steps); try done; [lia|]. intros Hs. intros E1.
    destruct (ring_next _ _ _ _ _ _ _ _ _ _ Hok1 Hr1) as [_ [Hm _]]. by apply (Hst Hs), Hm.
  - assert (Hmu' : main_used G). { destruct Hmu as [|(x & p & Hx & Hp)]; [done|]. by destruct (Hspec x p Hx). }
    apply wp_bind. step. apply wp_bind. pose proof (used_pages_range _ _ _ _ _ _ Hok1) as Hup. pose proof (ring_size _ _ _ _ _ _ Hok1) as Hsz1.
    eapply wp_mono; [apply (obtain_chunk_ok _ h cs1 m sys G n Hok1 Hmu'); unfold zlen in Hup; lia|].
    intros q s (h2 & cs2 & m2 & sys2 & G2 & c & -> & Hok2 & Hh2 & Hb2 & Hx2 & Hr2 & Hf2 & Hc2 & Hcl2 & Hk2 & Hg2). step. apply wp_bind.
    eapply wp_mono; [eapply (chunk_init_ok _ h2 _ cs2 m2 sys2 G2 q c (g_huge G)); try done; [by rewrite Hh2|by eexists]|].
    intros [] s (cs3 & c3 & -> & Hc3 & Ht3 & Hok3). apply wp_ret. cbn beta iota.
    destruct (ring_main _ _ _ _ _ _ Hok2) as (r2 & rest2 & Hring2 & _).
    eapply (finish_pages h m G _ cs3 m2 sys2 _ (g_ring G2) q [] [] c3 ZEND_MM_FIRST_PAGE n steps _ Hok3); try done.
    + split_and!; try done; cbn; [|lia]. rewrite <- Hb2. unfold blocks. cbn. by rewrite large_nil, app_nil_r.
    + by rewrite Ht3.
    + split; [done|]. split; [unfold ZEND_MM_FIRST_PAGE; lia|]. intros k _ Hk. by apply elem_of_nil in Hk.
    + lia.
    + intros _. by rewrite Hring2.
Qed.
End AllocPages.

(** ** Large and small blocks *)

Section Blocks.
Context {OS : Os} {L : OsLaws OS} {LF : LowFree OS}.
Implicit Types (cnt : Z -> Z -> Z) (h : zend_mm_heap) (cs : gmap Z zend_mm_chunk) (m : gmap Z Z) (sys : os) (G : view) (s : mstate).

(** *** Outcomes *)

(** The block [(p, n)] is new; [dx] is what the heap counts beyond the blocks. *)
Definition taken (dx : Z) h m G (n p : Z) (s : mstate) : Prop :=
  exists h' cs' m' sys' G', s = mkState (Some h') cs' m' sys' /\ heap_inv h' cs' m' sys' G' /\
    blocks G' ≡ₚ (p, n) :: blocks G /\ g_huge G' = g_huge G /\ g_extra G' = g_extra G + dx /\ g_rextra G' = g_rextra G /\
    keeps (mine G) m m' /\ kept_user h h' /\ mm_overflow h' = mm_overflow h.

(** The allocation failed. *)
Definition failed (dx : Z) h m G (size : Z) (e : mm_error) (s : mstate) : Prop :=
  exists h' cs' m' sys' G', s = mkState (Some h') cs' m' sys' /\ heap_inv h' cs' m' sys' G' /\
    blocks G' ≡ₚ blocks G /\ g_huge G' = g_huge G /\ g_extra G' = g_extra G + dx /\ g_rextra G' = g_rextra G /\
    keeps (mine G) m m' /\ kept_user h h' /\
    (e = MemoryLimit (mm_limit h) size /\ mm_overflow h = 0 /\ limit_reached h \/ e = OutOfMemory (mm_real_size h') size).

Lemma failed_large h m G size e s : alloc_error h m G size e s -> failed 0 h m G size e s.
Proof.
  intros (h' & cs' & m' & sys' & G' & -> & Hok & (Hb & Hh & Hx & Hr & _) & Hk & Hu & _ & He).
  exists h', cs', m', sys', G'. split_and!; try done. lia.
Qed.

Lemma failed_small h h1 m G size n e s : kept_user h h1 -> mm_overflow h1 = mm_overflow h -> mm_real_size h1 = mm_real_size h ->
  alloc_error h1 m (with_extra (g_extra G + n) (g_rextra G) G) size e s -> failed n h m G size e s.
Proof.
  intros (Hm & Hhl & Hl) Hov Hre (h' & cs' & m' & sys' & G' & -> & Hok & (Hb & Hh & Hx & Hr & _) & Hk & (U1 & U2 & U3) & _ & He).
  exists h', cs', m', sys', G'. unfold kept_user, limit_reached in *. split_and!; try done; try congruence.
Qed.

(** ** Large blocks *)

Lemma size_added h h1 cs m sys G n pk : heap_inv h cs m sys G -> h1 = set_sizes (u64 (mm_size h + n)) pk h ->
  heap_inv h1 cs m sys (with_extra (g_extra G + n) (g_rextra G) G).
Proof.
  intros Hok ->. apply (ok_sizes _ h); [exact Hok|done|done| |apply (hk_real _ _ _ _ _ _ Hok)]. cbn [mm_size set_sizes].
  rewrite (hk_size _ _ _ _ _ _ Hok), u64_add_l. f_equal. lia.
Qed.

(** The pages of a size. *)
Definition pages_for (size : Z) : Z := (size + (ZEND_MM_PAGE_SIZE - 1)) / ZEND_MM_PAGE_SIZE.

Lemma pages_for_range size : 0 < size <= ZEND_MM_MAX_LARGE_SIZE -> ZEND_MM_SIZE_TO_NUM size ZEND_MM_PAGE_SIZE = pages_for size /\
  0 < pages_for size <= 511 /\ size <= ZEND_MM_PAGE_SIZE * pages_for size < size + ZEND_MM_PAGE_SIZE.
Proof.
  unfold ZEND_MM_MAX_LARGE_SIZE, ZEND_MM_CHUNK_SIZE, ZEND_MM_PAGE_SIZE, ZEND_MM_FIRST_PAGE, ZEND_MM_SIZE_TO_NUM, pages_for, ZEND_MM_PAGE_SIZE.
  intros H. rewrite u64_small by lia. dlia.
Qed.

Lemma zend_mm_alloc_large_ok h cs m sys G size : heap_inv h cs m sys G -> 0 < size <= ZEND_MM_MAX_LARGE_SIZE ->
  main_used G \/ has_room G (pages_for size) ->
  wp (zend_mm_alloc_large size) (mkState (Some h) cs m sys) (taken 0 h m G (ZEND_MM_PAGE_SIZE * pages_for size))
    (failed 0 h m G (ZEND_MM_PAGE_SIZE * pages_for size)).
Proof.
  intros Hok Hsz Hmu. destruct (pages_for_range size Hsz) as (Hpf & Hn & _). unfold zend_mm_alloc_large. cbv zeta. rewrite Hpf. apply wp_bind.
  eapply wp_conseq; [by apply zend_mm_alloc_pages_ok| |by apply failed_large].
  intros p s (h1 & cs1 & m1 & sys1 & G1 & a & pg & rs & l1 & l2 & -> & Hok1 & _ & _ & Hb & Hh & Hx & Hr & _ & Hk & Hg). step. apply wp_ret.
  eexists _, cs1, m1, sys1, _. split; [done|]. split; [eapply size_added; [exact Hok1|reflexivity]|]. cbn [blocks g_ring g_used g_huge g_extra g_rextra with_extra].
  destruct Hg as (? & ? & ? & ? & ? & ?). split_and!; try done. lia.
Qed.

(** ** Small blocks *)

(** Writes in a block keep the others. *)
Lemma write_in_block h cs m sys G p n B m1 m2 : heap_inv h cs m sys G -> blocks G ≡ₚ (p, n) :: B ->
  (forall k, ~ (p <= k < p + n) -> m2 !! k = m1 !! k) -> keeps (B ++ g_huge G) m1 m2.
Proof.
  intros Hok Hb Hf a l k Hin Hk. apply Hf. pose proof (blocks_apart _ _ _ _ _ _ Hok) as Hap. rewrite Hb in Hap. destruct Hap as [Hap _].
  rewrite Forall_forall in Hap. assert (Hp : (p, n) ∈ blocks G) by (rewrite Hb; by left).
  apply elem_of_app in Hin as [Hin|Hin].
  - specialize (Hap _ Hin). unfold apart2 in Hap. cbn [fst snd] in Hap. lia.
  - destruct (block_in_chunk _ _ _ _ _ _ _ Hok Hp) as (c & Hc & ? & ? & ?).
    pose proof (hk_huge_chunks _ _ _ _ _ _ Hok (a, l) c Hin ltac:(apply elem_of_app; by left)) as Hap2.
    unfold apart2, ZEND_MM_PAGE_SIZE in *. cbn [fst snd] in *. lia.
Qed.

(** The slots that are linked. *)
Lemma chain_seq m size n p : (forall i, 0 <= i < Z.of_nat n -> word_at m (p + i * size) = Some (if i =? Z.of_nat n - 1 then 0 else p + (i + 1) * size)) ->
  (0 < n)%nat -> chain m p ((fun i => p + i * size) <$> seqZ 0 (Z.of_nat n)).
Proof.
  revert p. induction n as [|n IH]; intros p H Hn; [lia|]. rewrite seqZ_cons by lia. rewrite fmap_cons. cbn [chain].
  split; [lia|]. exists (if 0 =? Z.of_nat (S n) - 1 then 0 else p + (0 + 1) * size). split; [rewrite <- (H 0) by lia; f_equal; lia|].
  destruct n as [|n].
  - cbn. done.
  - rewrite (proj2 (Z.eqb_neq 0 (Z.of_nat (S (S n)) - 1))) by lia. replace (p + (0 + 1) * size) with (p + size) by lia.
    replace (Z.pred (Z.of_nat (S (S n)))) with (Z.of_nat (S n)) by lia.
    assert (Hl : (fun i => p + i * size) <$> seqZ (Z.succ 0) (Z.of_nat (S n)) = (fun i => p + size + i * size) <$> seqZ 0 (Z.of_nat (S n))).
    { change (Z.succ 0) with (1 + 0). rewrite <- (fmap_add_seqZ 1 0), <- list_fmap_compose. apply list_fmap_ext. intros i x _. cbn. lia. }
    rewrite Hl. apply IH; [|lia]. intros i Hi. replace (p + size + i * size) with (p + (i + 1) * size) by lia. rewrite H by lia.
    destruct (Z.eqb_spec (i + 1) (Z.of_nat (S (S n)) - 1)), (Z.eqb_spec i (Z.of_nat (S n) - 1)); try lia; [done|]. f_equal. lia.
Qed.

Lemma link_slots_ok k fuel p size ho cs m sys E : 8 <= size -> (k < fuel)%nat -> 0 <= p -> p + Z.of_nat (S k) * size < 2 ^ 64 ->
  wp (link_slots fuel p (p + Z.of_nat (S k) * size) size) (mkState ho cs m sys)
    (fun q s => exists m', s = mkState ho cs m' sys /\ q = p + Z.of_nat (S k) * size /\
       (forall i, 0 <= i < Z.of_nat (S k) -> word_at m' (p + i * size) = Some (p + (i + 1) * size)) /\
       (forall x, ~ (p <= x < p + Z.of_nat (S k) * size) -> m' !! x = m !! x)) E.
Proof.
  intros Hs. revert k p m. induction fuel as [|fuel IH]; intros k p m Hf Hp Hb; [lia|]. cbn [link_slots]. step.
  set (m1 := store_bytes _ _ _). assert (Hw : word_at m1 p = Some (p + size)) by (apply word_at_store; lia).
  assert (Hfr : forall x, ~ (p <= x < p + 8) -> m1 !! x = m !! x) by (intros; by apply store_frame).
  destruct k as [|k].
  - replace (p + Z.of_nat 1 * size) with (p + size) by lia. rewrite Z.eqb_refl. apply wp_ret. exists m1. split; [done|]. split; [done|].
    split; [intros i Hi; replace i with 0 by lia; rewrite Z.mul_0_l, Z.add_0_r, Hw; f_equal; lia|]. intros x Hx. apply Hfr. lia.
  - rewrite (proj2 (Z.eqb_neq _ _)) by lia. replace (p + Z.of_nat (S (S k)) * size) with (p + size + Z.of_nat (S k) * size) by lia.
    eapply wp_mono; [apply (IH k (p + size) m1); lia|]. intros q s (m2 & -> & -> & Hw2 & Hf2). exists m2. split; [done|]. split; [done|]. split.
    + intros i Hi. destruct (Z.eq_dec i 0) as [->|].
      * rewrite Z.mul_0_l, Z.add_0_r. rewrite (word_at_frame m1) by (intros x Hx; apply Hf2; lia). rewrite Hw. f_equal. lia.
      * specialize (Hw2 (i - 1) ltac:(lia)). replace (p + size + (i - 1) * size) with (p + i * size) in Hw2 by lia. rewrite Hw2. f_equal. lia.
    + intros x Hx. rewrite Hf2 by lia. apply Hfr. lia.
Qed.

(** The slots of a run: the first one, and the others. *)
Lemma run_slots a b pg n k : 0 <= b < 30 -> bin_count b = Z.of_nat (S (S (S k))) ->
  run_elems a b (Run pg n (Small b)) = (a + ZEND_MM_PAGE_SIZE * pg) ::
    ((fun i => a + ZEND_MM_PAGE_SIZE * pg + bin_size b + i * bin_size b) <$> seqZ 0 (Z.of_nat (S (S k)))).
Proof.
  intros Hb Hc. unfold run_elems. cbn [r_kind r_start]. rewrite Z.eqb_refl, Hc, seqZ_cons by lia. rewrite fmap_cons. f_equal; [lia|].
  replace (Z.pred (Z.of_nat (S (S (S k))))) with (Z.of_nat (S (S k))) by lia. change (Z.succ 0) with (1 + 0).
  rewrite <- (fmap_add_seqZ 1 0), <- list_fmap_compose. apply list_fmap_ext. intros i x _. cbn. lia.
Qed.

Lemma zend_mm_alloc_small_slow_ok h cs m sys G b n : heap_inv h cs m sys G -> 0 <= b < 30 -> g_free G b = [] -> zget bin_pages b = Some n ->
  main_used G \/ has_room G n ->
  wp (zend_mm_alloc_small_slow b) (mkState (Some h) cs m sys) (taken (- bin_size b) h m G (bin_size b)) (alloc_error h m G (ZEND_MM_PAGE_SIZE * n)).
Proof.
  intros Hok Hb Hnil Hpg Hmu. destruct (bin_facts b Hb) as (n0 & Hsz & Hel & Hpg' & Hs8 & _ & Hcb & Hn & Hfit). assert (n0 = n) as -> by congruence.
  unfold zend_mm_alloc_small_slow. step; [by apply rd_ok|]. step; [by apply rd_ok|]. step; [by apply rd_ok|]. apply wp_bind.
  eapply wp_mono; [apply zend_mm_alloc_pages_ok; try done; lia|].
  intros ptr s (h1 & cs1 & m1 & sys1 & G1 & a & pg & rs & l1 & l2 & -> & Hok1 & Hring & Hptr & Hbl & Hh & Hx & Hr & Hf & Hk & Hg).
  assert (Hin : (a, Run pg n Large :: rs) ∈ g_ring G1) by (rewrite Hring; apply elem_of_app; right; by left).
  destruct (run_in_chunk _ _ _ _ _ _ a _ (Run pg n Large) Hok1 Hin) as (Ha & Hp1 & _ & Hp2); [by left|]. cbn [r_start r_count] in Hp1, Hp2.
  destruct (hk_chunks _ _ _ _ _ _ Hok1 _ _ Hin) as (c & Hc & _ & Hcok). destruct (make_small_ok (fun _ => 0) c rs pg n b Hcok Hpg eq_refl) as (mp1 & mp2 & Hm1 & Hm2 & Hcok2).
  pose proof Ha as (Ha0 & Ham & Ha47).
  destruct (address_in_chunk a ptr) as [Hbase Hoff]; [done|unfold ZEND_MM_CHUNK_SIZE, ZEND_MM_PAGE_SIZE in *; lia|].
  assert (Hpn : ZEND_MM_ALIGNED_OFFSET ptr ZEND_MM_CHUNK_SIZE / ZEND_MM_PAGE_SIZE = pg).
  { rewrite Hoff, Hptr. unfold ZEND_MM_PAGE_SIZE. dlia. }
  rewrite (proj2 (Z.eqb_neq ptr 0)) by (unfold ZEND_MM_PAGE_SIZE in *; lia). cbv zeta. rewrite Hbase, Hpn.
  step; [exact Hc|]. step; [exact Hm1|]. step; [exact Hm2|]. step; [exact Hc|].
  pose proof (hk_slots _ _ _ _ _ _ Hok1) as Hsl. cbn [set_slot_link]. step. step; [apply wr_ok; lia|]. step.
  assert (exists k, bin_count b = Z.of_nat (S (S (S k)))) as [k Hk3] by (exists (Z.to_nat (bin_count b - 3)); lia).
  set (size := bin_size b) in *. set (fst_ := ptr + size).
  assert (Hlt : ptr + bin_count b * size < 2 ^ 48) by (unfold ZEND_MM_CHUNK_SIZE, ZEND_MM_PAGE_SIZE in *; lia).
  assert (Hend : ptr + size * (bin_count b - 1) = fst_ + Z.of_nat (S k) * size) by (unfold fst_; lia). rewrite Hend.
  apply wp_bind. eapply wp_mono; [apply (link_slots_ok k); unfold fst_, ZEND_MM_PAGE_SIZE in *; lia|].
  intros q s (m2 & -> & -> & Hw & Hfr). step. apply wp_ret. set (m3 := store_bytes _ _ _).
  assert (Hfr3 : forall x, ~ (ptr <= x < ptr + ZEND_MM_PAGE_SIZE * n) -> m3 !! x = m1 !! x).
  { intros x Hx'. unfold m3. rewrite store_frame by (unfold fst_, ZEND_MM_PAGE_SIZE in *; lia). apply Hfr. unfold fst_, ZEND_MM_PAGE_SIZE in *. lia. }
  set (tail := (fun i => fst_ + i * size) <$> seqZ 0 (Z.of_nat (S (S k)))).
  assert (Hchain : chain m3 fst_ tail).
  { apply chain_seq; [|lia]. intros i Hi. destruct (Z.eqb_spec i (Z.of_nat (S (S k)) - 1)) as [->|Hne].
    - replace (fst_ + (Z.of_nat (S (S k)) - 1) * size) with (fst_ + Z.of_nat (S k) * size) by lia. apply word_at_store. lia.
    - rewrite (word_at_frame m2); [apply Hw; lia|]. intros x Hx'. apply store_frame. nia. }
  (* the pages belong to the slots now *)
  set (h2 := set_slots (zset (mm_free_slot h1) b fst_) h1).
  set (free' := <[b := tail]> (g_free G1)). set (used' := <[b := ptr :: g_used G1 b]> (g_used G1)).
  assert (Hnil1 : g_free G1 b = []). { destruct (g_free G1 b) as [|y l] eqn:Ef; [done|]. specialize (Hf b y). rewrite Ef, Hnil in Hf. by apply elem_of_nil in Hf; [|left]. }
  assert (Hsb : small_blocks used' ≡ₚ (ptr, size) :: small_blocks (g_used G1)).
  { apply (small_blocks_perm (g_used G1) used' b [ptr] Hb); [intros b' Hne; apply fn_lookup_insert_ne; by apply not_eq_sym|]. unfold used'. by rewrite fn_lookup_insert. }
  assert (Hlarge : large_blocks (g_ring G1) ≡ₚ (ptr, ZEND_MM_PAGE_SIZE * n) :: large_blocks (l1 ++ (a, rs) :: l2)).
  { rewrite Hring, (large_split l1 a _ (Run pg n Large) rs l2) by done. by rewrite Hptr. }
  assert (Hlarge2 : large_blocks (l1 ++ (a, Run pg n (Small b) :: rs) :: l2) ≡ₚ large_blocks (l1 ++ (a, rs) :: l2)).
  { by rewrite (large_split l1 a _ (Run pg n (Small b)) rs l2) by done. }
  assert (Hrest : large_blocks (l1 ++ (a, rs) :: l2) ++ small_blocks (g_used G1) ≡ₚ blocks G).
  { apply (Permutation_cons_inv (a := (ptr, ZEND_MM_PAGE_SIZE * n))). rewrite <- Hbl. unfold blocks. by rewrite Hlarge. }
  set (G2 := View (l1 ++ (a, Run pg n (Small b) :: rs) :: l2) (g_cached G1) free' used' (g_huge G1) (g_extra G - size) (g_rextra G1)).
  assert (Hb2 : blocks G2 ≡ₚ (ptr, size) :: blocks G).
  { unfold blocks. cbn [g_ring g_used G2]. rewrite Hlarge2, Hsb, <- Permutation_middle. by rewrite Hrest. }
  exists h2, (<[a := set_map mp2 c]> cs1), m3, sys1, G2. split; [done|]. split.
  - apply (ok_update (fun _ _ => 0) (fun _ _ => 0) h1 h2 cs1 m1 m3 sys1 G1 l1 a _ l2 c _ _ free' used' (g_extra G - size) Hok1 Hring Hc); try done.
    + cbn [mm_free_slot h2 set_slots]. by rewrite zlen_zset.
    + intros b' Hb'. cbn [mm_free_slot h2 set_slots]. destruct (decide (b' = b)) as [->|Hne].
      * exists fst_. rewrite zget_zset_eq by lia. unfold free'. by rewrite fn_lookup_insert.
      * destruct (hk_chain _ _ _ _ _ _ Hok1 b' Hb') as (p' & Hp' & Hc'). exists p'. rewrite zget_zset_ne by lia. split; [done|].
        unfold free'. rewrite fn_lookup_insert_ne by done. eapply chain_frame; [|exact Hc']. intros y x Hy Hyx. apply Hfr3.
        pose proof (free_elem _ _ _ _ _ _ _ _ Hok1 Hb' Hy) as Hye.
        pose proof (elem_large_apart _ _ _ _ _ _ b' y (ptr, ZEND_MM_PAGE_SIZE * n) Hok1 Hye ltac:(rewrite Hlarge; by left)) as Hap.
        destruct (bin_facts b' Hb') as (_ & _ & _ & _ & ? & _). unfold apart2 in Hap. cbn [fst snd] in Hap. lia.
    + intros b' Hb'. cbn [g_ring]. rewrite (elems_split l1 a _ (Run pg n (Small b)) rs l2 b') by done.
      pose proof (hk_perm _ _ _ _ _ _ Hok1 b' Hb') as Hpm. rewrite Hring, (elems_split l1 a _ (Run pg n Large) rs l2 b') in Hpm by done. cbn [run_elems r_kind app] in Hpm.
      unfold free', used'. destruct (decide (b' = b)) as [->|Hne].
      * rewrite !fn_lookup_insert. rewrite (run_slots a b pg n k Hb Hk3), <- Hptr, <- Hpm, Hnil1. cbn [app]. fold size fst_ tail. solve_Permutation.
      * rewrite !fn_lookup_insert_ne by (by apply not_eq_sym). unfold run_elems. cbn [r_kind]. rewrite (proj2 (Z.eqb_neq b b')) by (by apply not_eq_sym). done.
    + cbn [mm_size h2 set_slots]. rewrite (hk_size _ _ _ _ _ _ Hok1). f_equal. fold G2. rewrite Hb2, Hbl, !total_cons. cbn [fst snd]. lia.
  - destruct Hg as (? & ? & ? & ? & ? & ?). split_and!; try done.
    eapply keeps_trans; [exact Hk|]. unfold mine. rewrite <- Hh. by eapply write_in_block.
Qed.

Lemma zend_mm_alloc_small_ok h cs m sys G b n : heap_inv h cs m sys G -> 0 <= b < 30 -> zget bin_pages b = Some n ->
  g_free G b <> [] \/ main_used G \/ has_room G n ->
  wp (zend_mm_alloc_small b) (mkState (Some h) cs m sys) (taken 0 h m G (bin_size b)) (failed (bin_size b) h m G (ZEND_MM_PAGE_SIZE * n)).
Proof.
  intros Hok Hb Hpg Hmu. destruct (bin_facts b Hb) as (n0 & Hsz & _ & Hpg' & Hs8 & _).
  unfold zend_mm_alloc_small. step; [by apply rd_ok|]. step. cbv zeta. set (h1 := set_sizes _ _ h).
  assert (Hok1 : heap_inv h1 cs m sys (with_extra (g_extra G + bin_size b) (g_rextra G) G)) by (by eapply size_added).
  set (G1 := with_extra _ _ G) in Hok1. step. destruct (hk_chain _ _ _ _ _ _ Hok1 b Hb) as (p & Hp & Hc). step; [by apply rd_ok|].
  assert (Htk : forall q s, taken (- bin_size b) h1 m G1 (bin_size b) q s -> taken 0 h m G (bin_size b) q s).
  { intros q s (h' & cs' & m' & sys' & G' & -> & ? & ? & ? & Hx & ? & ? & ? & ?). exists h', cs', m', sys', G'. split_and!; try done. cbn in Hx. lia. }
  change (g_free G1 b) with (g_free G b) in Hc. destruct (g_free G b) as [|x l] eqn:Ef.
  - cbn in Hc. subst p. rewrite Z.eqb_refl. cbn [negb]. eapply wp_conseq; [apply (zend_mm_alloc_small_slow_ok h1 cs m sys G1 b n Hok1 Hb)| |]; try done.
    + destruct Hmu as [|[|]]; [done|by left|by right].
    + intros e s. by apply failed_small.
  - destruct Hc as (-> & next & Hnext & Hcl). assert (Hxe : x ∈ elems (g_ring G1) b) by (eapply free_elem; [exact Hok1|done|]; cbn; rewrite Ef; by left).
    destruct (slot_home _ _ _ _ _ _ _ _ Hok1 Hxe) as (a & rs & r & _ & _ & _ & _ & (Ha & _) & H1 & _ & H2 & _).
    rewrite (proj2 (Z.eqb_neq x 0)) by (unfold run_span, ZEND_MM_PAGE_SIZE in *; cbn [fst snd] in *; lia). cbn [negb].
    step; [exact Hnext|]. apply wp_bind. change (@None Z) with (q_of []).
    assert (Hl : forall y, y ∈ l -> y ∈ elems (g_ring G1) b) by (intros y Hy; eapply free_elem; [exact Hok1|done|]; cbn; rewrite Ef; by right).
    apply (unlink_slot_ok (fun _ _ => 0) h1 cs m sys G1 b [] x next l); try done; [by eapply chain_head_range|].
    intros h' m' Hks Hk _ Hok'. apply wp_ret, Htk. eexists _, _, _, _, _. split; [done|]. split; [exact Hok'|].
    destruct Hks as ((? & _) & ? & _ & _ & _ & ? & ?). split_and!; try done. unfold blocks. cbn [g_ring g_used]. change (g_used G1) with (g_used G). change (g_ring G1) with (g_ring G).
    assert (Hsb : small_blocks (<[b := x :: g_used G b]> (g_used G)) ≡ₚ (x, bin_size b) :: small_blocks (g_used G)).
    { apply (small_blocks_perm (g_used G) _ b [x] Hb); [intros b' Hne; apply fn_lookup_insert_ne; by apply not_eq_sym|by rewrite fn_lookup_insert]. }
    rewrite Hsb. by rewrite <- Permutation_middle.
Qed.

(** ** The bin of a size *)

Definition size_bin_law (size : Z) : bool :=
  match zend_mm_small_size_to_bin size with
  | Ok b => (0 <=? b) && (b <? 30) && (size <=? bin_size b) && ((b =? 0) || (bin_size (b - 1) <? size))
  | _ => false
  end.

(** The slots of the bin are large enough, those of the bin before it are not. *)
Lemma small_size_to_bin_ok size : 0 <= size <= ZEND_MM_MAX_SMALL_SIZE ->
  exists b, zend_mm_small_size_to_bin size = Ok b /\ 0 <= b < 30 /\ size <= bin_size b /\ (b = 0 \/ bin_size (b - 1) < size).
Proof.
  intros Hs. assert (H : size_bin_law size = true).
  { apply (all_in_range size_bin_law 0 3073); [by vm_compute|unfold ZEND_MM_MAX_SMALL_SIZE in Hs; lia]. }
  unfold size_bin_law in H. destruct (zend_mm_small_size_to_bin size) as [b| |]; try done. exists b. split; [done|].
  rewrite !andb_true_iff, orb_true_iff, Z.eqb_eq, !Z.leb_le, !Z.ltb_lt in H. lia.
Qed.

(** ** Release *)

Definition released h m G (n p : Z) (s : mstate) : Prop :=
  exists h' cs' m' sys' G', s = mkState (Some h') cs' m' sys' /\ heap_inv h' cs' m' sys' G' /\
    blocks G ≡ₚ (p, n) :: blocks G' /\ g_huge G' = g_huge G /\ g_extra G' = g_extra G /\ g_rextra G' = g_rextra G /\
    keeps (mine G') m m' /\ kept_user h h' /\ mm_overflow h' = mm_overflow h.

Lemma size_removed h h1 cs m sys G n pk : heap_inv h cs m sys G -> h1 = set_sizes (u64 (mm_size h - n)) pk h ->
  heap_inv h1 cs m sys (with_extra (g_extra G - n) (g_rextra G) G).
Proof.
  intros Hok ->. apply (ok_sizes _ h); [exact Hok|done|done| |apply (hk_real _ _ _ _ _ _ Hok)]. cbn [mm_size set_sizes].
  rewrite (hk_size _ _ _ _ _ _ Hok), u64_sub_l. f_equal. lia.
Qed.

Lemma zend_mm_free_small_ok h cs m sys G b p E : heap_inv h cs m sys G -> 0 <= b < 30 -> p ∈ g_used G b ->
  wp (zend_mm_free_small p b) (mkState (Some h) cs m sys) (fun _ s => released h m G (bin_size b) p s) E.
Proof.
  intros Hok Hb Hp. destruct (bin_facts b Hb) as (_ & Hsz & _ & _ & Hs8 & _).
  unfold zend_mm_free_small. step; [by apply rd_ok|]. step. set (h1 := set_sizes _ _ h).
  assert (Hok1 : heap_inv h1 cs m sys (with_extra (g_extra G - bin_size b) (g_rextra G) G)) by (by eapply size_removed).
  set (G1 := with_extra _ _ G) in Hok1. step. destruct (hk_chain _ _ _ _ _ _ Hok1 b Hb) as (q & Hq & Hc). step; [by apply rd_ok|]. step.
  cbn [set_slot_link]. step. pose proof (hk_slots _ _ _ _ _ _ Hok1) as Hsl. step; [apply wr_ok; lia|]. step.
  set (m1 := store_bytes _ _ _). apply elem_of_Permutation in Hp as [u Hu].
  set (free' := <[b := p :: g_free G b]> (g_free G)). set (used' := <[b := u]> (g_used G)).
  assert (Hpe : p ∈ elems (g_ring G1) b) by (eapply used_elem; [exact Hok1|done|]; change (g_used G1 b) with (g_used G b); rewrite Hu; by left).
  assert (Hpf : p ∉ g_free G b).
  { intros Hf. apply (free_not_used _ _ _ _ _ _ b p Hok1 Hb Hf). change (g_used G1 b) with (g_used G b). rewrite Hu. by left. }
  assert (Hsb : small_blocks (g_used G) ≡ₚ (p, bin_size b) :: small_blocks used').
  { apply (small_blocks_perm used' (g_used G) b [p] Hb); [|unfold used'; by rewrite fn_lookup_insert].
    intros b' Hne. symmetry. apply fn_lookup_insert_ne. by apply not_eq_sym. }
  set (G2 := View (g_ring G) (g_cached G) free' used' (g_huge G) (g_extra G) (g_rextra G)).
  assert (Hbl : blocks G ≡ₚ (p, bin_size b) :: blocks G2) by (unfold blocks; cbn [g_ring g_used G2]; by rewrite Hsb, <- Permutation_middle).
  eexists _, cs, m1, sys, G2. split; [done|]. split.
  - apply (ok_slots (fun _ _ => 0) h1 _ cs m m1 sys G1); try done.
    + cbn [mm_free_slot set_slots]. by rewrite zlen_zset.
    + intros b' Hb'. cbn [mm_free_slot set_slots]. destruct (decide (b' = b)) as [->|Hne].
      * exists p. rewrite zget_zset_eq by lia. split; [done|]. unfold free'. rewrite fn_lookup_insert. split; [done|]. exists q. split.
        -- apply word_at_store. by eapply chain_head_range; [exact Hok1|exact Hc|]; intros y Hy; eapply free_elem.
        -- apply (store_chain _ h1 cs m sys G1 b p q b q _ Hok1 Hpe); try done; [|by right]. intros y Hy. by eapply free_elem.
      * destruct (hk_chain _ _ _ _ _ _ Hok1 b' Hb') as (p' & Hp' & Hc'). exists p'. rewrite zget_zset_ne by lia. split; [done|].
        unfold free'. rewrite fn_lookup_insert_ne by done.
        apply (store_chain _ h1 cs m sys G1 b p q b' p' _ Hok1 Hpe); try done; [|by left; apply not_eq_sym]. intros y Hy. by eapply free_elem.
    + intros b' Hb'. rewrite <- (hk_perm _ _ _ _ _ _ Hok1 b' Hb'). cbn [g_free g_used G1 with_extra]. unfold free', used'. destruct (decide (b' = b)) as [->|Hne].
      * rewrite !fn_lookup_insert, Hu. solve_Permutation.
      * by rewrite !fn_lookup_insert_ne by (by apply not_eq_sym).
    + cbn [mm_size set_slots]. rewrite (hk_size _ _ _ _ _ _ Hok1). f_equal. change (blocks G1) with (blocks G). rewrite Hbl, total_cons.
      cbn [snd G1 g_extra with_extra]. unfold blocks. cbn [g_ring g_used G2].
      change (g_ring G1) with (g_ring G). lia.
  - split_and!; try done. assert (Hk : keeps ((blocks G2) ++ g_huge G) m m1); [|exact Hk].
    eapply (write_in_block h cs m sys G p (bin_size b)); [exact Hok|exact Hbl|]. intros k Hkr. apply store_frame. lia.
Qed.

Lemma zend_mm_free_large_ok h cs m sys G a rs r E : heap_inv h cs m sys G -> (a, rs) ∈ g_ring G -> r ∈ rs -> r_kind r = Large ->
  wp (zend_mm_free_large a (r_start r) (r_count r)) (mkState (Some h) cs m sys)
    (fun _ s => released h m G (ZEND_MM_PAGE_SIZE * r_count r) (a + ZEND_MM_PAGE_SIZE * r_start r) s) E.
Proof.
  intros Hok Hin Hr Hkd. unfold zend_mm_free_large. step. set (h1 := set_sizes _ _ h).
  assert (Hok1 : heap_inv h1 cs m sys (with_extra (g_extra G - r_count r * ZEND_MM_PAGE_SIZE) (g_rextra G) G)) by (by eapply size_removed).
  set (G1 := with_extra _ _ G) in Hok1. pose proof Hin as (l1 & l2 & Hring)%list_elem_of_split.
  destruct (hk_chunks _ _ _ _ _ _ Hok1 a rs Hin) as (c & Hc & _ & Hcok). pose proof Hr as [rs' Hp]%elem_of_Permutation.
  destruct (unmark_run_ok _ c r rs' ltac:(by eapply chunk_ok_perm)) as (c' & Hc' & Hsp & Hcok').
  unfold zend_mm_free_pages, zend_mm_free_pages_ex. step; [exact Hc|]. step; [exact Hc'|]. step; [exact Hc|]. step.
  set (sz := ZEND_MM_PAGE_SIZE * r_count r). set (ptr := a + ZEND_MM_PAGE_SIZE * r_start r).
  set (G2 := View (l1 ++ (a, rs') :: l2) (g_cached G) (g_free G) (g_used G) (g_huge G) (g_extra G) (g_rextra G)).
  assert (Hbl : blocks G ≡ₚ (ptr, sz) :: blocks G2).
  { unfold blocks. cbn [g_ring g_used G2]. rewrite Hring, (large_split l1 a rs r rs' l2 Hp). unfold large_span. by rewrite Hkd. }
  assert (Hok2 : heap_inv h1 (<[a := c']> cs) m sys G2).
  { apply (ok_update (fun _ _ => 0) (fun _ _ => 0) h1 h1 cs m m sys G1 l1 a rs l2 c c' rs' (g_free G) (g_used G) (g_extra G) Hok1 Hring Hc Hsp Hcok'); try done.
    - apply (hk_slots _ _ _ _ _ _ Hok1).
    - apply (hk_chain _ _ _ _ _ _ Hok1).
    - intros b Hb. pose proof (hk_perm _ _ _ _ _ _ Hok1 b Hb) as Hpm. cbn [g_ring g_free g_used G1 with_extra] in *.
      rewrite Hring, (elems_split l1 a rs r rs' l2 b Hp) in Hpm. unfold run_elems in Hpm. by rewrite Hkd in Hpm.
    - rewrite (hk_size _ _ _ _ _ _ Hok1). f_equal. change (blocks G1) with (blocks G). rewrite Hbl, total_cons. cbn [snd G1 g_extra with_extra].
      unfold sz. change (View _ (g_cached G1) _ _ _ _ _) with G2. lia. }
  assert (Hsub : mine G2 ⊆ mine G).
  { intros x. unfold mine. rewrite !elem_of_app, Hbl. intros [Hx|Hx]; [left; by right|by right]. }
  change (chunk_ok ((fun _ _ => 0) a) c' rs') in Hcok'.
  apply wp_if; intros Hfull.
  - rewrite !andb_true_iff, negb_true_iff, Z.eqb_neq, Z.eqb_eq in Hfull. destruct Hfull as [[_ Hne] Hfp].
    pose proof (no_runs _ _ _ Hcok' Hfp) as Hnil. subst rs'.
    assert (Hl1 : l1 <> []).
    { destruct (ring_next _ _ _ _ _ _ l1 a [] l2 Hok2 ltac:(done)) as [_ [Hm _]]. intros El. apply Hne. by apply Hm. }
    eapply wp_mono; [by apply (delete_chunk_ok (fun _ _ => 0) h1 _ m sys G2 l1 a l2 E Hok2)|].
    intros [] s (h3 & cs3 & m3 & sys3 & cached3 & -> & Hk3 & Hkept & Hok3). eexists h3, cs3, m3, sys3, _. split; [done|]. split; [exact Hok3|].
    destruct Hkept as (? & ? & ? & ? & ? & ? & ?).
    assert (Hb3 : blocks (with_regions (l1 ++ l2) cached3 (g_huge G2) (g_rextra G2) G2) = blocks G2).
    { unfold blocks. cbn [g_ring g_used with_regions G2]. by rewrite large_nil. }
    split_and!; try done; [by rewrite Hb3|]. unfold mine. rewrite Hb3. exact Hk3.
  - apply wp_ret. eexists h1, _, m, sys, G2. split; [done|]. split; [exact Hok2|]. by split_and!.
Qed.
End Blocks.
