(* ===== verification/MmUser.v ===== *)
(** * The heap as its callers see it

    The blocks a caller holds, the list of huge blocks kept in small blocks, and the
    entry points: allocation, release and size of blocks of any size. *)

From stdpp Require Import functions.
From S2P Require Import Prelude.
From S2P Require Import MmPageOps.
From S2P Require Import MmHeapOps.
From S2P Require Import MmAllocOps.
From S2P Require Import MmChunk.
From S2P Require Import MmHeapInv.
From S2P Require Import MmHeap.
From S2P Require Import MmRing.
From S2P Require Import MmGc.
From S2P Require Import MmBlocks.

Section User.
Context {OS : Os} {L : OsLaws OS} {LF : LowFree OS}.
Implicit Types (cnt : Z -> Z -> Z) (h : zend_mm_heap) (cs : gmap Z zend_mm_chunk) (m : gmap Z Z) (sys : os) (G : view) (s : mstate).

(** ** The page of a block *)

Lemma page_of_ok h cs m sys G a rs p k info c (Q : Z * Z * Z -> mstate -> Prop) E : heap_inv h cs m sys G -> (a, rs) ∈ g_ring G -> cs !! a = Some c ->
  a + ZEND_MM_PAGE_SIZE * k <= p < a + ZEND_MM_PAGE_SIZE * (k + 1) -> 1 <= k < 512 -> zget (ch_map c) k = Some info ->
  Q (a, k, info) (mkState (Some h) cs m sys) -> wp (page_of p) (mkState (Some h) cs m sys) Q E.
Proof.
  intros Hok Hin Hc Hp Hk Hi HQ. destruct (hk_addr _ _ _ _ _ _ Hok a (ring_in_chunks _ _ _ Hin)) as [Ha _].
  destruct (address_in_chunk a p Ha) as [Hbase Hoff]; [unfold ZEND_MM_PAGE_SIZE, ZEND_MM_CHUNK_SIZE in *; lia|].
  destruct (hk_chunks _ _ _ _ _ _ Hok a rs Hin) as (c0 & Hc0 & Hh & _). assert (c0 = c) as -> by congruence.
  unfold page_of. rewrite Hbase, Hoff. assert ((p - a) / ZEND_MM_PAGE_SIZE = k) as -> by (unfold ZEND_MM_PAGE_SIZE in *; dlia).
  step; [exact Hc|]. step; [by apply rd_ok|]. step. step; [by apply Z.eqb_eq|]. by apply wp_ret.
Qed.

Lemma block_offset h cs m sys G a rs p k : heap_inv h cs m sys G -> (a, rs) ∈ g_ring G ->
  a + ZEND_MM_PAGE_SIZE * k <= p < a + ZEND_MM_PAGE_SIZE * (k + 1) -> 1 <= k < 512 ->
  ZEND_MM_ALIGNED_OFFSET p ZEND_MM_CHUNK_SIZE = p - a /\ p - a <> 0.
Proof.
  intros Hok Hin Hp Hk. destruct (hk_addr _ _ _ _ _ _ Hok a (ring_in_chunks _ _ _ Hin)) as [Ha _].
  destruct (address_in_chunk a p Ha) as [_ Hoff]; [unfold ZEND_MM_PAGE_SIZE, ZEND_MM_CHUNK_SIZE in *; lia|].
  split; [done|]. unfold ZEND_MM_PAGE_SIZE in *. lia.
Qed.

(** What the map says about the page of a slot, and of a large block. *)
Lemma slot_page h cs m sys G b p : heap_inv h cs m sys G -> p ∈ elems (g_ring G) b ->
  exists a rs c k info, (a, rs) ∈ g_ring G /\ cs !! a = Some c /\ a + ZEND_MM_PAGE_SIZE * k <= p < a + ZEND_MM_PAGE_SIZE * (k + 1) /\
    1 <= k < 512 /\ zget (ch_map c) k = Some info /\ is_srun info = true /\ ZEND_MM_SRUN_BIN_NUM info = b /\ 0 <= b < 30.
Proof.
  intros Hok He. destruct (slot_home _ _ _ _ _ _ _ _ Hok He) as (a & rs & r & Hin & Hr & Hk & _ & Ha & H1 & H2 & H3 & H4 & Hb).
  unfold run_span in H1, H2. cbn [fst snd] in H1, H2.
  destruct (hk_chunks _ _ _ _ _ _ Hok a rs Hin) as (c & Hc & _ & Hcok). destruct (ck_runs _ _ _ Hcok r Hr) as (_ & _ & _ & Hmap).
  unfold run_in_map in Hmap. rewrite Hk in Hmap. destruct Hmap as (_ & Hm0 & Hmj).
  set (k := (p - a) / ZEND_MM_PAGE_SIZE). assert (Hk1 : r_start r <= k < r_start r + r_count r) by (unfold k, ZEND_MM_PAGE_SIZE in *; dlia).
  assert (Hk2 : a + ZEND_MM_PAGE_SIZE * k <= p < a + ZEND_MM_PAGE_SIZE * (k + 1)) by (unfold k, ZEND_MM_PAGE_SIZE in *; dlia).
  destruct (Z.eq_dec k (r_start r)) as [E0|E0].
  - destruct (srun_words b 0 Hb ltac:(lia)) as (W1 & _ & W3 & _). exists a, rs, c, k, (ZEND_MM_SRUN_EX b 0). rewrite E0 in *. by split_and!; try lia.
  - specialize (Hmj (k - r_start r) ltac:(lia)). replace (r_start r + (k - r_start r)) with k in Hmj by lia.
    destruct (nrun_words b (k - r_start r) Hb ltac:(lia)) as (V1 & _ & V3 & _). exists a, rs, c, k, (ZEND_MM_NRUN b (k - r_start r)). by split_and!; try lia.
Qed.

Lemma large_page h cs m sys G a rs r : heap_inv h cs m sys G -> (a, rs) ∈ g_ring G -> r ∈ rs -> r_kind r = Large ->
  exists c, cs !! a = Some c /\ zget (ch_map c) (r_start r) = Some (ZEND_MM_LRUN (r_count r)) /\ 1 <= r_start r < 512 /\
    is_srun (ZEND_MM_LRUN (r_count r)) = false /\ ZEND_MM_LRUN_PAGES (ZEND_MM_LRUN (r_count r)) = r_count r.
Proof.
  intros Hok Hin Hr Hk. destruct (run_in_chunk _ _ _ _ _ _ _ _ _ Hok Hin Hr) as (_ & ? & ? & ?).
  destruct (hk_chunks _ _ _ _ _ _ Hok a rs Hin) as (c & Hc & _ & Hcok). destruct (ck_runs _ _ _ Hcok r Hr) as (_ & _ & _ & Hmap).
  unfold run_in_map in Hmap. rewrite Hk in Hmap. destruct (lrun_words (r_count r)) as [W1 W2]; [lia|]. exists c. split_and!; done || lia.
Qed.

(** Where a block comes from. *)
Lemma block_cases G p n : (p, n) ∈ blocks G ->
  (exists a rs r, (a, rs) ∈ g_ring G /\ r ∈ rs /\ r_kind r = Large /\ p = a + ZEND_MM_PAGE_SIZE * r_start r /\ n = ZEND_MM_PAGE_SIZE * r_count r) \/
  (exists b, 0 <= b < 30 /\ p ∈ g_used G b /\ n = bin_size b).
Proof.
  intros [(a & rs & r & Hin & Hr & Hk & [= -> ->])%elem_of_large|(b & q & Hb & Hq & [= -> ->])%elem_of_small]%elem_of_app; [left|right]; eauto 10.
Qed.

(** ** Release of a block *)

Lemma free_block_ok fuel h cs m sys G p n E : heap_inv h cs m sys G -> (p, n) ∈ blocks G ->
  wp (free_heap_fuel (S fuel) p) (mkState (Some h) cs m sys) (fun _ s => released h m G n p s) E.
Proof.
  intros Hok Hin. cbn [free_heap_fuel]. destruct (block_cases G p n Hin) as [(a & rs & r & Ha & Hr & Hk & Hp & ->)|(b & Hb & Hu & ->)].
  - destruct (large_page _ _ _ _ _ _ _ _ Hok Ha Hr Hk) as (c & Hc & Hi & Hs & W1 & W2).
    destruct (block_offset h cs m sys G a rs p (r_start r) Hok Ha) as [Hoff Hne]; [unfold ZEND_MM_PAGE_SIZE in *; lia|done|].
    rewrite Hoff, (proj2 (Z.eqb_neq _ _) Hne). apply wp_bind. eapply page_of_ok; [exact Hok|exact Ha|exact Hc| |exact Hs|exact Hi|]; [unfold ZEND_MM_PAGE_SIZE in *; lia|].
    cbn beta iota. rewrite W1, W2. step; [|rewrite Hp; by apply (zend_mm_free_large_ok h cs m sys G a rs r)].
    replace (p - a) with (ZEND_MM_PAGE_SIZE * r_start r) by lia.
    rewrite page_offset_mod by (unfold ZEND_MM_PAGE_SIZE; lia). apply Z.eqb_eq. unfold ZEND_MM_PAGE_SIZE. dlia.
  - pose proof (used_elem _ _ _ _ _ _ _ _ Hok Hb Hu) as He. destruct (slot_page _ _ _ _ _ _ _ Hok He) as (a & rs & c & k & info & Ha & Hc & Hp & Hk & Hi & W1 & W2 & _).
    destruct (block_offset h cs m sys G a rs p k Hok Ha Hp Hk) as [Hoff Hne].
    rewrite Hoff, (proj2 (Z.eqb_neq _ _) Hne). apply wp_bind. eapply page_of_ok; [exact Hok|exact Ha|exact Hc|exact Hp|exact Hk|exact Hi|].
    cbn beta iota. rewrite W1, W2. by apply zend_mm_free_small_ok.
Qed.

(** The size of a block. *)
Lemma block_size_ok h cs m sys G p n E : heap_inv h cs m sys G -> (p, n) ∈ blocks G ->
  wp (zend_mm_size p) (mkState (Some h) cs m sys) (fun r s => r = n /\ s = mkState (Some h) cs m sys) E.
Proof.
  intros Hok Hin. unfold zend_mm_size. destruct (block_cases G p n Hin) as [(a & rs & r & Ha & Hr & Hk & Hp & ->)|(b & Hb & Hu & ->)].
  - destruct (large_page _ _ _ _ _ _ _ _ Hok Ha Hr Hk) as (c & Hc & Hi & Hs & W1 & W2).
    destruct (block_offset h cs m sys G a rs p (r_start r) Hok Ha) as [Hoff Hne]; [unfold ZEND_MM_PAGE_SIZE in *; lia|done|].
    rewrite Hoff, (proj2 (Z.eqb_neq _ _) Hne). apply wp_bind. eapply page_of_ok; [exact Hok|exact Ha|exact Hc| |exact Hs|exact Hi|]; [unfold ZEND_MM_PAGE_SIZE in *; lia|].
    cbn beta iota. rewrite W1, W2. apply wp_ret. split; [lia|done].
  - pose proof (used_elem _ _ _ _ _ _ _ _ Hok Hb Hu) as He. destruct (slot_page _ _ _ _ _ _ _ Hok He) as (a & rs & c & k & info & Ha & Hc & Hp & Hk & Hi & W1 & W2 & _).
    destruct (block_offset h cs m sys G a rs p k Hok Ha Hp Hk) as [Hoff Hne].
    rewrite Hoff, (proj2 (Z.eqb_neq _ _) Hne). apply wp_bind. eapply page_of_ok; [exact Hok|exact Ha|exact Hc|exact Hp|exact Hk|exact Hi|].
    cbn beta iota. rewrite W1, W2. destruct (bin_facts b Hb) as (_ & Hsz & _). step; [by apply rd_ok|]. done.
Qed.

(** ** The state as the callers see it

    [H] is the list of huge blocks: the node, and the block; the nodes are small blocks.
    [user] are the caller's small and large blocks. [leaked] are mappings that are in
    no list, and [drift] is what the heap counts in vain: both are left by allocations
    that failed half-way; [rdrift] is only used within an operation. *)

Definition NODE : Z := SIZEOF_HUGE_LIST.

Fixpoint huge_chain m (p : Z) (H : list (Z * (Z * Z))) : Prop :=
  match H with
  | [] => p = 0
  | (node, (ptr, size)) :: H => p = node /\ word_at m node = Some ptr /\ word_at m (node + 8) = Some size /\
      exists q, word_at m (node + 16) = Some q /\ huge_chain m q H
  end.

Definition nodes (H : list (Z * (Z * Z))) : list (Z * Z) := (fun x => (x.1, NODE)) <$> H.
(** The caller's blocks. *)
Definition live (H : list (Z * (Z * Z))) (user : list (Z * Z)) : list (Z * Z) := H.*2 ++ user.

Record user_ok h cs m sys G (H : list (Z * (Z * Z))) (leaked user : list (Z * Z)) (drift rdrift : Z) : Prop := {
  us_inv : heap_inv h cs m sys G;
  us_chain : huge_chain m (mm_huge_list h) H;
  us_blocks : blocks G ≡ₚ nodes H ++ user;
  us_huge : g_huge G ≡ₚ H.*2 ++ leaked;
  us_extra : g_extra G = total H.*2 + drift;
  us_rextra : g_rextra G = total H.*2 + rdrift;
}.

Lemma huge_chain_frame m m' p H : keeps (nodes H) m m' -> huge_chain m p H -> huge_chain m' p H.
Proof.
  revert p. induction H as [|[node [ptr size]] H IH]; intros p Hk; cbn; [done|]. intros (-> & H1 & H2 & q & H3 & H4).
  assert (Hw : forall d, 0 <= d <= 16 -> word_at m' (node + d) = word_at m (node + d)).
  { intros d Hd. apply word_at_frame. intros k Hkr. apply (Hk node NODE); [by left|unfold NODE, SIZEOF_HUGE_LIST; lia]. }
  pose proof (Hw 0 ltac:(lia)) as Hw0. rewrite Z.add_0_r in Hw0. rewrite Hw0, !Hw by lia. split; [done|]. split; [done|]. split; [done|].
  exists q. split; [done|]. apply IH; [|done]. eapply keeps_incl; [|exact Hk]. intros x Hx. by right.
Qed.

Lemma nodes_mine h cs m sys G H leaked user drift rdrift : user_ok h cs m sys G H leaked user drift rdrift -> nodes H ⊆ mine G.
Proof. intros Hok x Hx. apply elem_of_app. left. rewrite (us_blocks _ _ _ _ _ _ _ _ _ _ Hok). apply elem_of_app. by left. Qed.

Lemma live_mine h cs m sys G H leaked user drift rdrift : user_ok h cs m sys G H leaked user drift rdrift -> live H user ⊆ mine G.
Proof.
  intros Hok x [Hx|Hx]%elem_of_app; apply elem_of_app.
  - right. rewrite (us_huge _ _ _ _ _ _ _ _ _ _ Hok). apply elem_of_app. by left.
  - left. rewrite (us_blocks _ _ _ _ _ _ _ _ _ _ Hok). apply elem_of_app. by right.
Qed.

(** The caller's blocks do not overlap. *)
Lemma live_apart h cs m sys G H leaked user drift rdrift : user_ok h cs m sys G H leaked user drift rdrift -> apart (live H user).
Proof.
  intros [Hok Hch Hb Hh _ _]. pose proof (blocks_apart _ _ _ _ _ _ Hok) as Ha. rewrite Hb in Ha. apply apart_app in Ha as (_ & Ha & _).
  pose proof (hk_huge _ _ _ _ _ _ Hok) as Hha. rewrite Hh in Hha. apply apart_app in Hha as (Hha & _).
  apply apart_app. split; [done|]. split; [done|]. intros x y Hx Hy.
  assert (Hyb : y ∈ blocks G) by (rewrite Hb; apply elem_of_app; by right).
  destruct (block_in_chunk _ _ _ _ _ _ _ Hok Hyb) as (c & Hc & ? & ? & ?).
  pose proof (hk_huge_chunks _ _ _ _ _ _ Hok x c ltac:(rewrite Hh; apply elem_of_app; by left) ltac:(apply elem_of_app; by left)) as Hap.
  unfold apart2, ZEND_MM_PAGE_SIZE in *. cbn [fst snd] in *. lia.
Qed.

(** A new block, and a block that is gone. *)
Lemma user_taken h cs m sys G H leaked user drift rdrift n p s : user_ok h cs m sys G H leaked user drift rdrift -> taken 0 h m G n p s ->
  exists h' cs' m' sys' G', s = mkState (Some h') cs' m' sys' /\ user_ok h' cs' m' sys' G' H leaked ((p, n) :: user) drift rdrift /\ keeps (mine G) m m' /\
    kept_user h h' /\ mm_overflow h' = mm_overflow h.
Proof.
  intros Hok (h' & cs' & m' & sys' & G' & -> & Hok' & Hb & Hh & Hx & Hr & Hk & Hu & Ho). exists h', cs', m', sys', G'.
  split; [done|]. split; [|done]. pose proof (nodes_mine _ _ _ _ _ _ _ _ _ _ Hok) as Hnm. destruct Hok as [_ Hch Hb0 Hh0 Hx0 Hr0].
  split; rewrite ?Hh, ?Hr; try done; [| |lia].
  - rewrite (proj1 (proj2 Hu)). eapply huge_chain_frame; [|done]. by eapply keeps_incl.
  - rewrite Hb, Hb0. by rewrite <- Permutation_middle.
Qed.

Lemma user_failed h cs m sys G H leaked user drift rdrift dx size e s : user_ok h cs m sys G H leaked user drift rdrift -> failed dx h m G size e s ->
  exists h' cs' m' sys' G', s = mkState (Some h') cs' m' sys' /\ user_ok h' cs' m' sys' G' H leaked user (drift + dx) rdrift /\ keeps (mine G) m m' /\
    kept_user h h' /\
    (e = MemoryLimit (mm_limit h) size /\ mm_overflow h = 0 /\ limit_reached h \/ e = OutOfMemory (mm_real_size h') size).
Proof.
  intros Hok (h' & cs' & m' & sys' & G' & -> & Hok' & Hb & Hh & Hx & Hr & Hk & Hu & He). exists h', cs', m', sys', G'.
  split; [done|]. split; [|done]. pose proof (nodes_mine _ _ _ _ _ _ _ _ _ _ Hok) as Hnm. destruct Hok as [_ Hch Hb0 Hh0 Hx0 Hr0].
  split; rewrite ?Hh, ?Hr; try done; [|by rewrite Hb|lia].
  rewrite (proj1 (proj2 Hu)). eapply huge_chain_frame; [|done]. by eapply keeps_incl.
Qed.

Lemma user_released h cs m sys G H leaked user user' drift rdrift n p s : user_ok h cs m sys G H leaked user drift rdrift -> user ≡ₚ (p, n) :: user' ->
  released h m G n p s ->
  exists h' cs' m' sys' G', s = mkState (Some h') cs' m' sys' /\ user_ok h' cs' m' sys' G' H leaked user' drift rdrift /\ keeps (mine G') m m' /\
    kept_user h h' /\ mm_overflow h' = mm_overflow h.
Proof.
  intros Hok Hp (h' & cs' & m' & sys' & G' & -> & Hok' & Hb & Hh & Hx & Hr & Hk & Hu & Ho). exists h', cs', m', sys', G'.
  split; [done|]. split; [|done]. destruct Hok as [_ Hch Hb0 Hh0 Hx0 Hr0].
  assert (Hb' : blocks G' ≡ₚ nodes H ++ user').
  { apply (Permutation_cons_inv (a := (p, n))). rewrite <- Hb, Hb0, Hp. by rewrite <- Permutation_middle. }
  split; rewrite ?Hh, ?Hr; try done; [|lia].
  rewrite (proj1 (proj2 Hu)). eapply huge_chain_frame; [|done]. eapply keeps_incl; [|exact Hk].
  intros x Hx'. apply elem_of_app. left. rewrite Hb'. apply elem_of_app. by left.
Qed.
End User.

(** ** Huge blocks *)

Section Huge.
Context {OS : Os} {L : OsLaws OS} {LF : LowFree OS}.
Implicit Types (cnt : Z -> Z -> Z) (h : zend_mm_heap) (cs : gmap Z zend_mm_chunk) (m : gmap Z Z) (sys : os) (G : view) (s : mstate).
Implicit Types (H : list (Z * (Z * Z))) (leaked user : list (Z * Z)).

(** ** Writes in blocks *)

Lemma write_block_inv h cs m m' sys G p n : heap_inv h cs m sys G -> (p, n) ∈ blocks G ->
  (forall k, ~ (p <= k < p + n) -> m' !! k = m !! k) -> heap_inv h cs m' sys G.
Proof.
  intros Hok Hin Hf. pose proof Hok as Hok0. open_heap Hok. split; try done. intros b Hb. destruct (hk_chain0 b Hb) as (q & Hq & Hc).
  exists q. split; [done|]. eapply chain_frame; [|exact Hc]. intros a k Ha Hk. apply Hf.
  pose proof (free_elem _ _ _ _ _ _ _ _ Hok0 Hb Ha) as He. pose proof (free_not_used _ _ _ _ _ _ _ _ Hok0 Hb Ha) as Hn.
  pose proof (slot_block_apart _ _ _ _ _ _ _ _ _ Hok0 He Hn Hin) as Hap. destruct (bin_facts b Hb) as (_ & _ & _ & _ & ? & _).
  unfold apart2 in Hap. cbn [fst snd] in Hap. lia.
Qed.

(** Writes in one of the caller's blocks. *)
Lemma write_user_ok h cs m m' sys G H leaked user user' drift rdrift p n : user_ok h cs m sys G H leaked user drift rdrift ->
  user ≡ₚ (p, n) :: user' -> (forall k, ~ (p <= k < p + n) -> m' !! k = m !! k) ->
  user_ok h cs m' sys G H leaked user drift rdrift /\ keeps (nodes H ++ user' ++ g_huge G) m m'.
Proof.
  intros [Hok Hch Hb Hh Hx Hr] Hp Hf.
  assert (Hb' : blocks G ≡ₚ (p, n) :: nodes H ++ user') by (rewrite Hb, Hp; by rewrite <- Permutation_middle).
  assert (Hk : keeps (nodes H ++ user' ++ g_huge G) m m').
  { rewrite app_assoc. by eapply write_in_block. }
  split; [|done]. split; try done.
  - eapply write_block_inv; [done| |done]. rewrite Hb'. by left.
  - eapply huge_chain_frame; [|done]. eapply keeps_incl; [|exact Hk]. intros x ?. apply elem_of_app. by left.
Qed.

(** ** The size of a huge block *)

Lemma aligned_size_ok size : 0 <= size < 2 ^ 64 ->
  (size + 4095 < 2 ^ 64 /\ ZEND_MM_ALIGNED_SIZE_EX size REAL_PAGE_SIZE = ZEND_MM_PAGE_SIZE * pages_for size /\
     size <= ZEND_MM_PAGE_SIZE * pages_for size < 2 ^ 64) \/
  (2 ^ 64 <= size + 4095 /\ ZEND_MM_ALIGNED_SIZE_EX size REAL_PAGE_SIZE < size).
Proof.
  intros Hs. unfold ZEND_MM_ALIGNED_SIZE_EX, REAL_PAGE_SIZE, pages_for, ZEND_MM_PAGE_SIZE. change (4 * 1024) with 4096.
  replace (size + 4096 - 1) with (size + 4095) by lia. change (4096 - 1) with 4095.
  assert (Hland : forall v, 0 <= v < 2 ^ 64 -> Z.land v (u64 (Z.lnot 4095)) = 4096 * (v / 4096)).
  { intros v Hv. change (u64 (Z.lnot 4095)) with (Z.ldiff (Z.ones 64) (Z.ones 12)).
    assert (E : Z.land v (Z.ldiff (Z.ones 64) (Z.ones 12)) = Z.ldiff v (Z.ones 12)).
    { apply Z.bits_inj'. intros i Hi. rewrite Z.land_spec, !Z.ldiff_spec. destruct (Z_lt_le_dec i 64).
      - rewrite (Z.ones_spec_low 64) by lia. by rewrite andb_true_l.
      - rewrite (Z.bits_above_log2 v i); [done|lia|]. destruct (Z.eq_dec v 0) as [->|]; [cbn; lia|]. apply Z.log2_lt_pow2; [lia|].
        eapply Z.lt_le_trans; [apply Hv|]. apply Z.pow_le_mono_r; lia. }
    rewrite E, Z.ldiff_ones_r, Z.shiftl_mul_pow2, Z.shiftr_div_pow2 by lia. change (2 ^ 12) with 4096. lia. }
  destruct (Z_lt_le_dec (size + 4095) (2 ^ 64)) as [Hlt|Hge]; [left|right]; (split; [done|]).
  - rewrite u64_small by lia. rewrite Hland by lia. split; [done|]. dlia.
  - assert (Hu : u64 (size + 4095) = size + 4095 - 2 ^ 64) by (unfold u64; symmetry; apply (Z.mod_unique_pos _ _ 1); lia).
    rewrite Hu, Hland by lia. dlia.
Qed.

(** ** The memory limit *)

Definition limit_checked h m G (s : mstate) : Prop :=
  exists h' cs' m' sys' G', s = mkState (Some h') cs' m' sys' /\ heap_inv h' cs' m' sys' G' /\ same_blocks G G' /\
    keeps (mine G) m m' /\ kept_gc h h' /\ main_used G'.

(** A memory error; the heap is as before. *)
Definition huge_error h m G (size : Z) (e : mm_error) (s : mstate) : Prop :=
  exists h' cs' m' sys' G', s = mkState (Some h') cs' m' sys' /\ heap_inv h' cs' m' sys' G' /\ same_blocks G G' /\
    keeps (mine G) m m' /\ kept_user h h' /\
    (e = MemoryLimit (mm_limit h) size /\ mm_overflow h = 0 \/ exists real, e = OutOfMemory real size).

Lemma check_limit_ok h cs m sys G n size : heap_inv h cs m sys G -> main_used G ->
  wp (check_limit n size) (mkState (Some h) cs m sys) (fun _ s => limit_checked h m G s) (huge_error h m G size).
Proof.
  intros Hok Hmu. assert (H0 : limit_checked h m G (mkState (Some h) cs m sys)).
  { exists h, cs, m, sys, G. split_and!; try done. }
  unfold check_limit. step. destruct (u64 (mm_limit h - mm_real_size h) <? n); [|by apply wp_ret].
  apply wp_bind. eapply wp_mono; [by apply zend_mm_gc_ok|].
  intros coll s (h2 & cs2 & m2 & sys2 & G2 & -> & Hok2 & Hb2 & Hh2 & Hx2 & Hr2 & Hf2 & Hk2 & Hg2 & _ & _ & Hmu2 & _).
  assert (H2 : limit_checked h m G (mkState (Some h2) cs2 m2 sys2)).
  { exists h2, cs2, m2, sys2, G2. by split_and!. }
  step. apply wp_if; intros _; [by apply wp_ret|]. destruct (Z.eqb_spec (mm_overflow h2) 0) as [Ho|Ho]; [|by apply wp_ret].
  unfold zend_mm_safe_error. step. apply wp_raise. destruct Hg2 as (? & ? & ? & ? & Hl & Hov). eexists _, _, _, _, G2. split; [done|].
  split; [by apply (ok_same _ h2)|]. rewrite Hl, Hov in *. split_and!; try done. by left.
Qed.

(** ** The mapping *)

Definition huge_obtained h m G (n p : Z) (s : mstate) : Prop :=
  exists h' cs' m' sys' G', s = mkState (Some h') cs' m' sys' /\ heap_inv h' cs' m' sys' G' /\
    g_huge G' = (p, n) :: g_huge G /\ blocks G' ≡ₚ blocks G /\ g_extra G' = g_extra G /\ g_rextra G' = g_rextra G /\
    keeps (mine G) m m' /\ kept_gc h h' /\ main_used G' /\ 0 < p.

Definition map_huge (new_size size : Z) : MM Z :=
  ptr ← zend_mm_chunk_alloc new_size ZEND_MM_CHUNK_SIZE;
  if ptr =? 0 then
    collected ← zend_mm_gc;
    if collected =? 0 then h ← get_heap; zend_mm_safe_error (OutOfMemory (mm_real_size h) size)
    else
      ptr ← zend_mm_chunk_alloc new_size ZEND_MM_CHUNK_SIZE;
      if ptr =? 0 then h ← get_heap; zend_mm_safe_error (OutOfMemory (mm_real_size h) size) else mret ptr
  else mret ptr.

Lemma oom_ok {A} h m G h2 cs2 m2 sys2 G2 size (Q : A -> mstate -> Prop) : heap_inv h2 cs2 m2 sys2 G2 -> same_blocks G G2 -> keeps (mine G) m m2 ->
  kept_gc h h2 -> wp (h ← get_heap; zend_mm_safe_error (OutOfMemory (mm_real_size h) size)) (mkState (Some h2) cs2 m2 sys2) Q (huge_error h m G size).
Proof.
  intros Hok Hs Hk Hg. step. unfold zend_mm_safe_error. step. apply wp_raise. destruct Hg as (? & ? & ? & ? & ? & ?).
  eexists _, _, _, _, G2. split; [done|]. split; [by apply (ok_same _ h2)|]. split_and!; try done. right. by eexists.
Qed.

Lemma map_huge_ok h cs m sys G n size : heap_inv h cs m sys G -> main_used G -> 0 < n ->
  n + ZEND_MM_CHUNK_SIZE <= os_base \/ 2 ^ 47 <= n ->
  wp (map_huge n size) (mkState (Some h) cs m sys) (huge_obtained h m G n) (huge_error h m G size).
Proof.
  intros Hok Hmu Hn Hlow. unfold map_huge. apply wp_bind. eapply wp_mono; [by apply (chunk_alloc_ok (fun _ _ => 0))|].
  intros p s (cs1 & m1 & sys1 & -> & Hk1 & Hor). destruct (Z.eqb_spec p 0) as [->|Hp].
  - destruct Hor as [[_ Hok1]|[? _]]; [|lia]. apply wp_bind. eapply wp_mono; [by apply zend_mm_gc_ok|].
    intros coll s (h2 & cs2 & m2 & sys2 & G2 & -> & Hok2 & Hb2 & Hh2 & Hx2 & Hr2 & Hf2 & Hk2 & Hg2 & _ & _ & Hmu2 & _).
    assert (Hs2 : same_blocks G G2) by done. assert (Hk02 : keeps (mine G) m m2) by (by eapply keeps_trans).
    destruct (coll =? 0); [by eapply oom_ok|]. apply wp_bind. eapply wp_mono; [by apply (chunk_alloc_ok (fun _ _ => 0))|].
    intros q s (cs3 & m3 & sys3 & -> & Hk3 & Hor3).
    assert (Hk03 : keeps (mine G) m m3) by (eapply keeps_trans; [done|]; eapply keeps_incl; [by eapply same_blocks_mine|done]).
    destruct (Z.eqb_spec q 0) as [->|Hq].
    + destruct Hor3 as [[_ Hok3]|[? _]]; [|lia]. by eapply oom_ok.
    + destruct Hor3 as [[? _]|[Hq0 Hok3]]; [done|]. apply wp_ret. eexists h2, cs3, m3, sys3, _. split; [done|]. split; [exact Hok3|].
      cbn [g_huge g_extra g_rextra with_regions]. rewrite Hh2. by split_and!.
  - destruct Hor as [[? _]|[Hp0 Hok1]]; [done|]. apply wp_ret. eexists h, cs1, m1, sys1, _. split; [done|]. split; [exact Hok1|]. by split_and!.
Qed.

(** ** The node of a huge block *)

Lemma wp_assoc {A B C} (op : MM A) (f : A -> MM B) (g : B -> MM C) s Q E : wp ((op ≫= f) ≫= g) s Q E -> wp (op ≫= (fun x => f x ≫= g)) s Q E.
Proof. unfold wp, mbind, MM_bind. by destruct (op s). Qed.

Lemma alloc_node_ok f h cs m sys G : heap_inv h cs m sys G -> main_used G ->
  wp (alloc_heap_fuel (S f) SIZEOF_HUGE_LIST) (mkState (Some h) cs m sys) (taken 0 h m G NODE) (failed NODE h m G ZEND_MM_PAGE_SIZE).
Proof.
  intros Hok Hmu. cbn [alloc_heap_fuel]. change (SIZEOF_HUGE_LIST <=? ZEND_MM_MAX_SMALL_SIZE) with true. cbv iota.
  step; [reflexivity|]. change NODE with (bin_size 2).
  eapply wp_conseq; [apply (zend_mm_alloc_small_ok h cs m sys G 2 1 Hok); try done; right; by left|done|]. intros e s He. exact He.
Qed.

(** Three words. *)
Lemma node_words m node a b c : 0 <= a < 2 ^ 64 -> 0 <= b < 2 ^ 64 -> 0 <= c < 2 ^ 64 ->
  let m' := store_bytes (store_bytes (store_bytes m node (bytes_of a)) (node + 8) (bytes_of b)) (node + 16) (bytes_of c) in
  word_at m' node = Some a /\ word_at m' (node + 8) = Some b /\ word_at m' (node + 16) = Some c /\
  forall k, ~ (node <= k < node + NODE) -> m' !! k = m !! k.
Proof.
  intros Ha Hb Hc m'. unfold m', NODE, SIZEOF_HUGE_LIST. split; [|split; [|split]].
  - rewrite (word_at_frame (store_bytes m node (bytes_of a))); [by apply word_at_store|]. intros k Hk. by rewrite !store_frame by lia.
  - rewrite (word_at_frame (store_bytes (store_bytes m node (bytes_of a)) (node + 8) (bytes_of b))); [by apply word_at_store|].
    intros k Hk. by rewrite store_frame by lia.
  - by apply word_at_store.
  - intros k Hk. by rewrite !store_frame by lia.
Qed.

Lemma add_node_ok h h' cs m sys G H leaked user drift p n node pk rpk : user_ok h cs m sys G H ((p, n) :: leaked) ((node, NODE) :: user) drift 0 ->
  word_at m node = Some p -> word_at m (node + 8) = Some n -> word_at m (node + 16) = Some (mm_huge_list h) ->
  h' = set_sizes (u64 (mm_size h + n)) pk (set_real (u64 (mm_real_size h + n)) rpk (set_huge node h)) ->
  user_ok h' cs m sys (with_extra (g_extra G + n) (g_rextra G + n) G) ((node, (p, n)) :: H) leaked user drift 0.
Proof.
  intros [Hok Hch Hb Hh Hx Hr] W1 W2 W3 ->. split; cbn [mm_huge_list set_sizes set_real set_huge g_huge g_extra g_rextra with_extra].
  - apply (ok_sizes _ h); [exact Hok|done|done| |]; cbn [mm_size mm_real_size set_sizes set_real].
    + rewrite (hk_size _ _ _ _ _ _ Hok), u64_add_l. f_equal. lia.
    + rewrite (hk_real _ _ _ _ _ _ Hok), u64_add_l. f_equal. lia.
  - cbn. split; [done|]. split; [done|]. split; [done|]. by eexists.
  - change (blocks G ≡ₚ nodes ((node, (p, n)) :: H) ++ user). rewrite Hb. cbn. by rewrite <- Permutation_middle.
  - rewrite Hh. cbn. by rewrite <- Permutation_middle.
  - rewrite Hx. cbn [fmap list_fmap]. rewrite total_cons. cbn [fst snd]. lia.
  - rewrite Hr. cbn [fmap list_fmap]. rewrite total_cons. cbn [fst snd]. lia.
Qed.

(** ** Outcomes for the caller *)

Definition kept_caller h h' : Prop := mm_main_chunk h' = mm_main_chunk h /\ mm_limit h' = mm_limit h.

Definition user_new h m H leaked user drift (size p : Z) (s : mstate) : Prop :=
  exists h' cs' m' sys' G' H' user' n, s = mkState (Some h') cs' m' sys' /\ user_ok h' cs' m' sys' G' H' leaked user' drift 0 /\
    live H' user' ≡ₚ (p, n) :: live H user /\ size <= n /\ 0 < p /\ p mod 8 = 0 /\ keeps (live H user) m m' /\ kept_caller h h' /\
    mm_overflow h' = mm_overflow h.

Definition user_error h m H user (e : mm_error) (s : mstate) : Prop :=
  exists h' cs' m' sys' G' leaked' drift', s = mkState (Some h') cs' m' sys' /\ user_ok h' cs' m' sys' G' H leaked' user drift' 0 /\
    keeps (live H user) m m' /\ kept_caller h h' /\
    match e with
    | MemoryLimit limit _ => limit = mm_limit h /\ mm_overflow h = 0
    | OutOfMemory _ _ => True
    | SizeOverflow size alignment => 2 ^ 64 <= size + alignment - 1
    end.

(** An error after a part of the operation. *)
Lemma user_error_after h m h2 m2 H user e s : kept_caller h h2 -> mm_overflow h2 = mm_overflow h -> keeps (live H user) m m2 ->
  user_error h2 m2 H user e s -> user_error h m H user e s.
Proof.
  intros [K1 K2] K3 Kk (h' & cs' & m' & sys' & G' & leaked' & drift' & -> & Hu' & Hk' & [K4 K5] & He).
  exists h', cs', m', sys', G', leaked', drift'. split; [done|]. split; [done|]. split; [by eapply keeps_trans|]. split; [split; congruence|].
  destruct e; [|done..]. destruct He as [-> ?]. split; congruence.
Qed.

Lemma same_user h cs m sys G h' cs' m' sys' G' H leaked user drift : user_ok h cs m sys G H leaked user drift 0 -> heap_inv h' cs' m' sys' G' ->
  blocks G' ≡ₚ blocks G -> g_huge G' ≡ₚ g_huge G -> g_extra G' = g_extra G -> g_rextra G' = g_rextra G -> keeps (mine G) m m' ->
  mm_huge_list h' = mm_huge_list h -> user_ok h' cs' m' sys' G' H leaked user drift 0.
Proof.
  intros Hu Hok Hb Hh Hx Hr Hk Hl. pose proof (nodes_mine _ _ _ _ _ _ _ _ _ _ Hu) as Hnm. destruct Hu as [_ Uc Ub Uh Ux Ur].
  split; rewrite ?Hb, ?Hh, ?Hx, ?Hr; try done. rewrite Hl. eapply huge_chain_frame; [|exact Uc]. by eapply keeps_incl.
Qed.

Lemma huge_error_user h cs m sys G H leaked user drift size e s : user_ok h cs m sys G H leaked user drift 0 -> huge_error h m G size e s ->
  user_error h m H user e s.
Proof.
  intros Hu (h' & cs' & m' & sys' & G' & -> & Hok & (Hb & Hh & Hx & Hr & _) & Hk & (? & ? & ?) & He).
  exists h', cs', m', sys', G', leaked, drift. split; [done|]. split; [eapply same_user; try done; by rewrite Hh|].
  split; [eapply keeps_incl; [by eapply live_mine|done]|]. split; [done|]. by destruct He as [[-> ?]|[real ->]].
Qed.

Lemma failed_user h cs m sys G H leaked user drift dx size e s : user_ok h cs m sys G H leaked user drift 0 -> failed dx h m G size e s ->
  user_error h m H user e s.
Proof.
  intros Hu Hf. destruct (user_failed _ _ _ _ _ _ _ _ _ _ _ _ _ _ Hu Hf) as (h' & cs' & m' & sys' & G' & -> & Hu' & Hk & (? & ? & ?) & He).
  exists h', cs', m', sys', G', leaked, (drift + dx). split; [done|]. split; [done|].
  split; [eapply keeps_incl; [eapply live_mine, Hu|done]|]. split; [done|]. by destruct He as [(-> & ? & _)| ->].
Qed.

Lemma node_range h cs m sys G H leaked user drift rdrift p : user_ok h cs m sys G H leaked user drift rdrift -> p ∈ H.*1 ->
  0 < p /\ p + NODE <= 2 ^ 47.
Proof.
  intros Hu (x & -> & Hin)%list_elem_of_fmap. assert (Hb : (x.1, NODE) ∈ blocks G).
  { rewrite (us_blocks _ _ _ _ _ _ _ _ _ _ Hu). apply elem_of_app. left. apply list_elem_of_fmap. by exists x. }
  destruct (block_in_chunk _ _ _ _ _ _ _ (us_inv _ _ _ _ _ _ _ _ _ _ Hu) Hb) as (c & Hc & H1 & H2 & _).
  destruct (hk_addr _ _ _ _ _ _ (us_inv _ _ _ _ _ _ _ _ _ _ Hu) c) as [(? & _ & ?) _]; [apply elem_of_app; by left|].
  unfold ZEND_MM_PAGE_SIZE in *. cbn [fst snd] in *. lia.
Qed.

Lemma huge_list_range h cs m sys G H leaked user drift rdrift : user_ok h cs m sys G H leaked user drift rdrift -> 0 <= mm_huge_list h < 2 ^ 64.
Proof.
  intros Hu. pose proof (us_chain _ _ _ _ _ _ _ _ _ _ Hu) as Hc. destruct H as [|[node [p n]] H]; cbn in Hc; [lia|]. destruct Hc as [-> _].
  destruct (node_range _ _ _ _ _ _ _ _ _ _ node Hu) as [? ?]; [by left|]. unfold NODE, SIZEOF_HUGE_LIST in *. lia.
Qed.

(** ** Allocation *)

(** The size rounded up to pages. *)
Lemma huge_low size n : ZEND_MM_MAX_LARGE_SIZE < size -> size <= n <= size + (REAL_PAGE_SIZE - 1) -> harmless size ->
  n + ZEND_MM_CHUNK_SIZE <= os_base \/ 2 ^ 47 <= n.
Proof. unfold harmless, REAL_PAGE_SIZE, ZEND_MM_PAGE_SIZE, ZEND_MM_CHUNK_SIZE. lia. Qed.

Lemma zend_mm_alloc_huge_ok f h cs m sys G H leaked user drift size : user_ok h cs m sys G H leaked user drift 0 -> main_used G ->
  ZEND_MM_MAX_LARGE_SIZE < size < 2 ^ 64 -> harmless size ->
  wp (zend_mm_alloc_huge (alloc_heap_fuel (S f)) size) (mkState (Some h) cs m sys) (user_new h m H leaked user drift size) (user_error h m H user).
Proof.
  intros Hu Hmu Hsz Hlow. unfold zend_mm_alloc_huge. cbv zeta. set (n := ZEND_MM_ALIGNED_SIZE_EX size REAL_PAGE_SIZE).
  unfold ZEND_MM_MAX_LARGE_SIZE, ZEND_MM_CHUNK_SIZE, ZEND_MM_PAGE_SIZE, ZEND_MM_FIRST_PAGE in Hsz.
  destruct (aligned_size_ok size ltac:(lia)) as [(Hlt & Hn & Hb1)|[Hge Hn]]; fold n in Hn.
  2:{ apply wp_bind. rewrite (proj2 (Z.ltb_lt _ _) Hn). apply wp_raise. exists h, cs, m, sys, G, leaked, drift. split; [done|]. split; [done|].
      split; [apply keeps_refl|]. split; [done|]. unfold REAL_PAGE_SIZE, ZEND_MM_PAGE_SIZE. lia. }
  rewrite <- Hn in Hb1. apply wp_bind. rewrite (proj2 (Z.ltb_ge _ _)) by lia. apply wp_ret. apply wp_bind.
  eapply wp_conseq; [by apply check_limit_ok; [apply (us_inv _ _ _ _ _ _ _ _ _ _ Hu)|]| |intros e s; by eapply huge_error_user].
  intros [] s (h1 & cs1 & m1 & sys1 & G1 & -> & Hok1 & Hs1 & Hk1 & Hg1 & Hmu1).
  destruct Hg1 as (Hm1 & Hl1 & _ & _ & Hlim1 & Hov1).
  assert (Hu1 : user_ok h1 cs1 m1 sys1 G1 H leaked user drift 0).
  { destruct Hs1 as (Hb & Hh & Hx & Hr & _). eapply same_user; try done. by rewrite Hh. }
  assert (Hkl1 : keeps (live H user) m m1) by (eapply keeps_incl; [eapply live_mine, Hu|done]).
  apply wp_assoc. apply wp_bind. change (wp (map_huge n size) (mkState (Some h1) cs1 m1 sys1)
    (fun p s => wp (zend_mm_add_huge_block (alloc_heap_fuel (S f)) p n;; add_real_size n;; add_size n;; mret p) s (user_new h m H leaked user drift size) (user_error h m H user))
    (user_error h m H user)).
  assert (Hlow1 : n + ZEND_MM_CHUNK_SIZE <= os_base \/ 2 ^ 47 <= n).
  { apply (huge_low size); [unfold ZEND_MM_MAX_LARGE_SIZE, ZEND_MM_CHUNK_SIZE, ZEND_MM_PAGE_SIZE, ZEND_MM_FIRST_PAGE; lia| |done].
    split; [lia|]. rewrite Hn. unfold pages_for, REAL_PAGE_SIZE, ZEND_MM_PAGE_SIZE. dlia. }
  eapply wp_conseq; [apply (map_huge_ok h1 cs1 m1 sys1 G1 n size Hok1 Hmu1); [lia|exact Hlow1]| |].
  2:{ intros e s He. eapply (user_error_after h m h1 m1); try done. by eapply huge_error_user. }
  intros p s (h2 & cs2 & m2 & sys2 & G2 & -> & Hok2 & Hh2 & Hb2 & Hx2 & Hr2 & Hk2 & Hg2 & Hmu2 & Hp0).
  destruct Hg2 as (Hm2 & Hl2 & _ & _ & Hlim2 & Hov2).
  assert (Hu2 : user_ok h2 cs2 m2 sys2 G2 H ((p, n) :: leaked) user drift 0).
  { pose proof (nodes_mine _ _ _ _ _ _ _ _ _ _ Hu1) as Hnm. destruct Hu1 as [_ Uc Ub Uh Ux Ur].
    split; rewrite ?Hb2, ?Hx2, ?Hr2; try done; [|by rewrite Hh2, Uh, <- Permutation_middle].
    rewrite Hl2. eapply huge_chain_frame; [|exact Uc]. by eapply keeps_incl. }
  assert (Hkl2 : keeps (live H user) m m2).
  { eapply keeps_trans; [exact Hkl1|]. eapply keeps_incl; [|exact Hk2]. by eapply live_mine. }
  unfold zend_mm_add_huge_block. apply wp_bind, wp_bind.
  eapply wp_conseq; [by apply alloc_node_ok| |].
  2:{ intros e s He. eapply (user_error_after h m h2 m2); [split; congruence|congruence|done|by eapply failed_user]. }
  intros node s Ht. destruct (user_taken _ _ _ _ _ _ _ _ _ _ _ _ _ Hu2 Ht) as (h3 & cs3 & m3 & sys3 & G3 & -> & Hu3 & Hk3 & (Hm3 & Hl3 & Hlim3) & Hov3).
  step. step. step. step. step. step. step. apply wp_ret.
  set (m4 := store_bytes _ _ _).
  assert (Hpn : (p, n) ∈ g_huge G3) by (rewrite (us_huge _ _ _ _ _ _ _ _ _ _ Hu3); apply elem_of_app; right; by left).
  destruct (hk_huge_addr _ _ _ _ _ _ (us_inv _ _ _ _ _ _ _ _ _ _ Hu3) p n Hpn) as (Hn0 & _ & Hpal & Hp47 & _).
  pose proof (huge_list_range _ _ _ _ _ _ _ _ _ _ Hu3) as Hlr.
  destruct (node_words m3 node p n (mm_huge_list h3)) as (W1 & W2 & W3 & Wf); [lia..|]. cbv zeta in W1, W2, W3, Wf. fold m4 in W1, W2, W3, Wf.
  destruct (write_user_ok h3 cs3 m3 m4 sys3 G3 H _ _ user _ _ node NODE Hu3 ltac:(done) Wf) as [Hu4 Hk4].
  eexists _, cs3, m4, sys3, _, ((node, (p, n)) :: H), user, n. split; [reflexivity|].
  split; [eapply (add_node_ok h3); [exact Hu4|exact W1|exact W2|exact W3|reflexivity]|]. split; [done|]. split; [lia|]. split; [done|].
  split; [unfold ZEND_MM_CHUNK_SIZE in *; dlia|]. split.
  - eapply keeps_trans; [exact Hkl2|]. eapply keeps_trans; [eapply keeps_incl; [|exact Hk3]; eapply live_mine, Hu2|].
    eapply keeps_incl; [|exact Hk4]. intros x [Hx|Hx]%elem_of_app; rewrite !elem_of_app; [|by right; left].
    right. right. rewrite (us_huge _ _ _ _ _ _ _ _ _ _ Hu3). apply elem_of_app. by left.
  - cbn [mm_overflow set_sizes set_real set_huge]. split; [split|]; cbn [mm_main_chunk mm_limit set_sizes set_real set_huge]; congruence.
Qed.

(** ** The list *)

Lemma huge_chain_size m p H : huge_chain m p H -> NoDup H.*1 -> (length H <= size m)%nat.
Proof.
  intros Hch Hn. rewrite <- (length_fmap fst). rewrite <- (size_list_to_set (C := gset Z)) by done. rewrite <- size_dom. apply subseteq_size. intros a Ha.
  apply elem_of_list_to_set in Ha. apply elem_of_dom. revert p Hch Ha. clear. induction H as [|[node [p n]] H IH]; intros l Hch Ha; [by apply elem_of_nil in Ha|].
  destruct Hch as (-> & Hw & _ & q & _ & Hch). apply elem_of_cons in Ha as [->|Ha]; [|by eapply IH].
  cbn [fst]. unfold word_at in Hw. cbn [load_bytes] in Hw. destruct (m !! node); [by eexists|done].
Qed.

Lemma nodes_nodup h cs m sys G H leaked user drift rdrift : user_ok h cs m sys G H leaked user drift rdrift -> NoDup H.*1.
Proof.
  intros Hu. pose proof (blocks_apart _ _ _ _ _ _ (us_inv _ _ _ _ _ _ _ _ _ _ Hu)) as Ha. rewrite (us_blocks _ _ _ _ _ _ _ _ _ _ Hu) in Ha.
  apply apart_app in Ha as (Ha & _). revert Ha. clear. unfold nodes. induction H as [|x H IH]; cbn; [constructor|]. intros [Hf Ha].
  constructor; [|by apply IH]. intros (y & Ey & Hy)%list_elem_of_fmap. rewrite Forall_forall in Hf.
  specialize (Hf (y.1, NODE)). rewrite Ey in Hf. unfold apart2, NODE, SIZEOF_HUGE_LIST in Hf. cbn in Hf.
  destruct Hf; [apply list_elem_of_fmap; by exists y|lia..].
Qed.

Lemma huge_size_mem h cs m sys G H leaked user drift rdrift : user_ok h cs m sys G H leaked user drift rdrift -> (length H <= size m)%nat.
Proof. intros Hu. eapply huge_chain_size; [apply (us_chain _ _ _ _ _ _ _ _ _ _ Hu)|by eapply nodes_nodup]. Qed.

(** The node before. *)
Definition last_node (prev : Z) H : Z := match last H with Some x => x.1 | None => prev end.

Lemma find_huge_ok fuel ho cs m sys p prev H1 node ptr size H2 E : huge_chain m p (H1 ++ (node, (ptr, size)) :: H2) ->
  (forall x, x ∈ H1 -> x.2.1 <> ptr /\ x.1 <> 0) -> node <> 0 -> (length H1 < fuel)%nat ->
  wp (find_huge fuel ptr prev p) (mkState ho cs m sys)
    (fun r s => r = Some (last_node prev H1, node) /\ s = mkState ho cs m sys) E.
Proof.
  revert p prev H1. induction fuel as [|fuel IH]; intros p prev H1 Hch Hne Hn Hf; [lia|]. cbn [find_huge].
  destruct H1 as [|[node1 [ptr1 size1]] H1]; cbn [app huge_chain] in Hch.
  - destruct Hch as (-> & Hw & _). rewrite (proj2 (Z.eqb_neq _ _) Hn). unfold huge_ptr. step; [exact Hw|]. rewrite Z.eqb_refl. by apply wp_ret.
  - destruct Hch as (-> & Hw & _ & q & Hq & Hch). destruct (Hne (node1, (ptr1, size1)) ltac:(by left)) as [Hp1 Hn1]. cbn [fst snd] in Hp1, Hn1.
    rewrite (proj2 (Z.eqb_neq _ _) Hn1). unfold huge_ptr, huge_next. step; [exact Hw|]. rewrite (proj2 (Z.eqb_neq _ _) Hp1). step; [exact Hq|].
    eapply wp_mono; [apply (IH q node1 H1 Hch); [intros x Hx; apply Hne; by right|done|cbn in Hf; lia]|].
    intros r s [-> ->]. split; [|done]. unfold last_node. destruct H1 as [|y H1]; [done|]. rewrite last_cons_cons.
    destruct (last (y :: H1)) eqn:El; [done|]. by apply last_None in El.
Qed.

(** The block at the head of a permutation is somewhere in the list. *)
Lemma huge_split h cs m sys G H leaked user drift rdrift node ptr size : user_ok h cs m sys G H leaked user drift rdrift ->
  (node, (ptr, size)) ∈ H -> exists H1 H2, H = H1 ++ (node, (ptr, size)) :: H2 /\ (forall x, x ∈ H1 -> x.2.1 <> ptr /\ x.1 <> 0) /\ node <> 0 /\
    0 < size /\ ptr mod ZEND_MM_CHUNK_SIZE = 0 /\ 0 < ptr.
Proof.
  intros Hu Hin. pose proof Hin as (H1 & H2 & Hs)%list_elem_of_split. exists H1, H2. split; [done|].
  assert (Hg : forall x, x ∈ H -> x.2 ∈ g_huge G).
  { intros x Hx. rewrite (us_huge _ _ _ _ _ _ _ _ _ _ Hu). apply elem_of_app. left. apply list_elem_of_fmap. by exists x. }
  assert (Hnz : forall x, x ∈ H -> x.1 <> 0).
  { intros x Hx. destruct (node_range _ _ _ _ _ _ _ _ _ _ x.1 Hu) as [? _]; [apply list_elem_of_fmap; by exists x|]. lia. }
  pose proof (us_inv _ _ _ _ _ _ _ _ _ _ Hu) as Hok.
  destruct (hk_huge_addr _ _ _ _ _ _ Hok ptr size (Hg _ Hin)) as (Hsz & Hp & Hal & _).
  split; [|split; [by apply (Hnz _ Hin)|done]]. intros x Hx.
  assert (Hxh : x ∈ H) by (rewrite Hs; apply elem_of_app; by left). split; [|by apply Hnz].
  pose proof (hk_huge _ _ _ _ _ _ Hok) as Ha. rewrite (us_huge _ _ _ _ _ _ _ _ _ _ Hu) in Ha. apply apart_app in Ha as (Ha & _).
  rewrite Hs, fmap_app, fmap_cons in Ha. apply apart_app in Ha as (_ & _ & Ha). cbn [snd] in Ha.
  specialize (Ha x.2 (ptr, size) ltac:(apply list_elem_of_fmap; by exists x) ltac:(by left)). intros E.
  destruct x as [nx [px sx]]. cbn [fst snd] in *. destruct (hk_huge_addr _ _ _ _ _ _ Hok px sx (Hg _ Hxh)) as (? & _).
  unfold apart2 in Ha. cbn [fst snd] in Ha. lia.
Qed.

Lemma huge_block_size_ok h cs m sys G H leaked user drift rdrift node ptr size E : user_ok h cs m sys G H leaked user drift rdrift ->
  (node, (ptr, size)) ∈ H ->
  wp (zend_mm_get_huge_block_size ptr) (mkState (Some h) cs m sys) (fun r s => r = size /\ s = mkState (Some h) cs m sys) E.
Proof.
  intros Hu Hin. destruct (huge_split _ _ _ _ _ _ _ _ _ _ _ _ _ Hu Hin) as (H1 & H2 & Hs & Hne & Hn & _).
  pose proof (huge_size_mem _ _ _ _ _ _ _ _ _ _ Hu) as Hl. pose proof (us_chain _ _ _ _ _ _ _ _ _ _ Hu) as Hch. rewrite Hs in Hl, Hch.
  rewrite length_app in Hl. cbn in Hl. unfold zend_mm_get_huge_block_size. step. step. apply wp_bind.
  eapply wp_mono; [apply (find_huge_ok _ _ _ _ _ _ 0 H1 node ptr size H2); try done; lia|]. intros r s [-> ->].
  assert (Hw : word_at m (node + 8) = Some size).
  { revert Hch. generalize (mm_huge_list h). clear. induction H1 as [|[n1 [p1 s1]] H1 IH]; intros p Hch; [cbn in Hch; tauto|].
    destruct Hch as (_ & _ & _ & q & _ & Hch). by eapply IH. }
  unfold huge_size. step; [exact Hw|]. done.
Qed.

(** ** Release *)

Lemma nodes_apart h cs m sys G H leaked user drift rdrift : user_ok h cs m sys G H leaked user drift rdrift -> apart (nodes H).
Proof.
  intros Hu. pose proof (blocks_apart _ _ _ _ _ _ (us_inv _ _ _ _ _ _ _ _ _ _ Hu)) as Ha. rewrite (us_blocks _ _ _ _ _ _ _ _ _ _ Hu) in Ha.
  by apply apart_app in Ha as (Ha & _).
Qed.

Lemma huge_chain_app m p H1 x H2 : huge_chain m p (H1 ++ x :: H2) ->
  exists q, huge_chain m x.1 (x :: H2) /\ word_at m (x.1 + 16) = Some q /\ huge_chain m q H2.
Proof.
  revert p. induction H1 as [|[n1 [p1 s1]] H1 IH]; intros p Hch.
  - destruct x as [n0 [p0 s0]]. cbn [app] in Hch. pose proof Hch as (-> & _ & _ & q & Hq & Hc). by exists q.
  - destruct Hch as (_ & _ & _ & q & _ & Hch). by eapply IH.
Qed.

(** The link of the node before is redirected. *)
Lemma huge_chain_relink m m' p H1 n1 p1 (s1 : Z) q H2 rest : huge_chain m p (H1 ++ (n1, (p1, s1)) :: rest) -> apart (nodes (H1 ++ [(n1, (p1, s1))])) ->
  (forall k, ~ (n1 + 16 <= k < n1 + 24) -> m' !! k = m !! k) -> word_at m' (n1 + 16) = Some q -> huge_chain m' q H2 ->
  huge_chain m' p (H1 ++ (n1, (p1, s1)) :: H2).
Proof.
  intros Hch Hap Hf Hq H2c. revert p Hch Hap. induction H1 as [|[n0 [p0 s0]] H1 IH]; intros p; cbn [app huge_chain].
  - intros (-> & W1 & W2 & _) _. split; [done|].
    rewrite (word_at_frame m _ n1), (word_at_frame m _ (n1 + 8)) by (intros k Hk; apply Hf; lia).
    split; [done|]. split; [done|]. by exists q.
  - intros (-> & W1 & W2 & q0 & W3 & Hch) [Hap0 Hap]. rewrite Forall_forall in Hap0.
    specialize (Hap0 (n1, NODE) ltac:(apply list_elem_of_fmap; exists (n1, (p1, s1)); split; [done|apply elem_of_app; right; by left])).
    unfold apart2, NODE, SIZEOF_HUGE_LIST in Hap0. cbn [fst snd] in Hap0. split; [done|].
    rewrite (word_at_frame m _ n0), (word_at_frame m _ (n0 + 8)), (word_at_frame m _ (n0 + 16)) by (intros k Hk; apply Hf; lia).
    split; [done|]. split; [done|]. exists q0. split; [done|]. by apply IH.
Qed.

Lemma unlink_node_ok h cs m sys G H1 node ptr size H2 leaked user drift q E (Q : unit -> mstate -> Prop) :
  user_ok h cs m sys G (H1 ++ (node, (ptr, size)) :: H2) leaked user drift 0 -> (forall x, x ∈ H1 -> x.1 <> 0) ->
  word_at m (node + 16) = Some q -> huge_chain m q H2 -> 0 <= q < 2 ^ 64 ->
  (forall h' m', user_ok h' cs m' sys G (H1 ++ H2) ((ptr, size) :: leaked) ((node, NODE) :: user) (drift + size) size ->
     keeps (live (H1 ++ (node, (ptr, size)) :: H2) user) m m' -> word_at m' (node + 8) = Some size -> kept_caller h h' -> mm_overflow h' = mm_overflow h ->
     Q tt (mkState (Some h') cs m' sys)) ->
  wp (if negb (last_node 0 H1 =? 0) then store64 (last_node 0 H1 + 16) q else upd_heap (set_huge q)) (mkState (Some h) cs m sys) Q E.
Proof.
  intros Hu Hnz Hq H2c Hqr HQ. pose proof (nodes_apart _ _ _ _ _ _ _ _ _ _ Hu) as Hap. pose proof (nodes_mine _ _ _ _ _ _ _ _ _ _ Hu) as Hnm.
  assert (Hw8 : word_at m (node + 8) = Some size).
  { destruct (huge_chain_app _ _ _ _ _ (us_chain _ _ _ _ _ _ _ _ _ _ Hu)) as (q' & Hc & _). cbn in Hc. tauto. }
  pose proof Hu as [Hok Hch Hb Hh Hx Hr]. set (Hold := H1 ++ (node, (ptr, size)) :: H2) in *.
  assert (Hbl : nodes Hold ++ user ≡ₚ nodes (H1 ++ H2) ++ (node, NODE) :: user).
  { unfold Hold, nodes. rewrite !fmap_app, fmap_cons. cbn [fst]. solve_Permutation. }
  assert (Hhl : Hold.*2 ++ leaked ≡ₚ (H1 ++ H2).*2 ++ (ptr, size) :: leaked).
  { unfold Hold. rewrite !fmap_app, fmap_cons. cbn [snd]. solve_Permutation. }
  assert (Htot : total Hold.*2 = total (H1 ++ H2).*2 + size).
  { unfold Hold. rewrite !fmap_app, fmap_cons, !total_app, total_cons. cbn [snd]. lia. }
  assert (Hmk : forall h' m', heap_inv h' cs m' sys G -> huge_chain m' (mm_huge_list h') (H1 ++ H2) ->
    user_ok h' cs m' sys G (H1 ++ H2) ((ptr, size) :: leaked) ((node, NODE) :: user) (drift + size) size).
  { intros h' m' Hok' Hc'. split; try done; [by rewrite Hb, Hbl|by rewrite Hh, Hhl|rewrite Hx; lia|rewrite Hr; lia]. }
  destruct (decide (H1 = [])) as [->|Hne1].
  - cbn [last_node last]. change (last_node 0 []) with 0. cbn [Z.eqb negb]. step. apply HQ; try done.
    apply Hmk; [by apply (ok_same _ h)|done].
  - destruct (exists_last Hne1) as (H0 & [n1 [p1 s1]] & ->).
    assert (Hl : last_node 0 (H0 ++ [(n1, (p1, s1))]) = n1) by (unfold last_node; by rewrite last_snoc).
    rewrite Hl. assert (Hn1 : n1 <> 0) by (apply (Hnz (n1, (p1, s1))); apply elem_of_app; right; by left).
    rewrite (proj2 (Z.eqb_neq _ _) Hn1). cbn [negb]. step. set (m' := store_bytes _ _ _).
    assert (Hin : (n1, NODE) ∈ nodes Hold).
    { apply list_elem_of_fmap. exists (n1, (p1, s1)). split; [done|]. apply elem_of_app. left. apply elem_of_app. right. by left. }
    assert (Hf : forall k, ~ (n1 + 16 <= k < n1 + 24) -> m' !! k = m !! k) by (intros k Hk; apply store_frame; lia).
    assert (Hf2 : forall k, ~ (n1 <= k < n1 + NODE) -> m' !! k = m !! k) by (unfold NODE, SIZEOF_HUGE_LIST; intros k Hk; apply Hf; lia).
    pose proof Hin as [B HB]%elem_of_Permutation.
    assert (HbB : blocks G ≡ₚ (n1, NODE) :: B ++ user) by (by rewrite Hb, HB).
    assert (Hk : keeps ((B ++ user) ++ g_huge G) m m') by (by eapply write_in_block).
    assert (Hother : forall x, x ∈ nodes Hold -> x <> (n1, NODE) -> x ∈ B).
    { intros x Hxn Hne. rewrite HB in Hxn. by apply elem_of_cons in Hxn as [->|]. }
    assert (Hnd : forall x : Z * (Z * Z), x ∈ (node, (ptr, size)) :: H2 -> x.1 <> n1).
    { intros x Hx1 En. unfold Hold, nodes in Hap. rewrite !fmap_app in Hap. apply apart_app in Hap as (_ & _ & Hap).
      specialize (Hap (n1, NODE) (x.1, NODE) ltac:(apply elem_of_app; right; by left) ltac:(apply list_elem_of_fmap; by exists x)).
      unfold apart2, NODE, SIZEOF_HUGE_LIST in Hap. cbn [fst snd] in Hap. lia. }
    assert (Hkn : forall x, x ∈ (node, (ptr, size)) :: H2 -> (x.1, NODE) ∈ (B ++ user) ++ g_huge G).
    { intros x Hx1. apply elem_of_app. left. apply elem_of_app. left. apply Hother; [|intros [= E1]; by apply (Hnd x Hx1)].
      apply list_elem_of_fmap. exists x. split; [done|]. apply elem_of_app. by right. }
    apply HQ; try done.
    + apply Hmk; [eapply write_block_inv; [done| |exact Hf2]; rewrite HbB; by left|].
      rewrite <- app_assoc. cbn [app]. unfold Hold in Hch, Hap. rewrite <- app_assoc in Hch. cbn [app] in Hch.
      apply (huge_chain_relink m m' _ H0 n1 p1 s1 q H2 _ Hch); [|done|by apply word_at_store|].
      * unfold nodes in *. rewrite fmap_app in Hap. by apply apart_app in Hap as (Hap & _).
      * eapply huge_chain_frame; [|exact H2c]. eapply keeps_incl; [|exact Hk]. intros x (y & -> & Hy)%list_elem_of_fmap. apply Hkn. by right.
    + eapply keeps_incl; [|exact Hk]. intros x [Hx1|Hx1]%elem_of_app; apply elem_of_app; [right|left; apply elem_of_app; by right].
      rewrite Hh. apply elem_of_app. by left.
    + rewrite (word_at_frame m); [done|]. intros k Hkr. apply (Hk node NODE); [|unfold NODE, SIZEOF_HUGE_LIST; lia].
      apply (Hkn (node, (ptr, size))). by left.
Qed.

Definition user_freed h m H' leaked user' drift (s : mstate) : Prop :=
  exists h' cs' m' sys' G', s = mkState (Some h') cs' m' sys' /\ user_ok h' cs' m' sys' G' H' leaked user' drift 0 /\
    keeps (live H' user') m m' /\ kept_caller h h' /\ mm_overflow h' = mm_overflow h.

Lemma unmap_huge_ok h cs m sys G H leaked user drift ptr size E : user_ok h cs m sys G H ((ptr, size) :: leaked) user (drift + size) size ->
  wp (zend_mm_chunk_free ptr size;; sub_real_size size;; sub_size size) (mkState (Some h) cs m sys)
    (fun _ s => user_freed h m H leaked user drift s) E.
Proof.
  intros Hu. pose proof Hu as [Hok Hch Hb Hh Hx Hr]. apply wp_bind.
  assert (Hhp : g_huge G ≡ₚ (ptr, size) :: H.*2 ++ leaked) by (rewrite Hh; by rewrite <- Permutation_middle).
  eapply wp_mono; [by apply (free_region_ok (fun _ _ => 0) h cs m sys G ptr size (H.*2 ++ leaked))|].
  intros [] s (cs1 & m1 & sys1 & -> & _ & Hk & Hok1). step. apply wp_upd_heap. set (G1 := with_regions _ _ _ _ G) in Hok1.
  eexists _, cs1, m1, sys1, (with_extra (g_extra G - size) (g_rextra G - size) G1). split; [done|]. split; [|split; [|done]].
  - split; cbn [mm_huge_list set_sizes set_real g_huge g_extra g_rextra with_extra with_regions G1]; try done; try lia.
    + apply (ok_sizes _ h); [exact Hok1|done|done| |]; cbn [mm_size mm_real_size set_sizes set_real].
      * rewrite (hk_size _ _ _ _ _ _ Hok1), u64_sub_l. f_equal. cbn [g_extra G1 with_regions]. lia.
      * rewrite (hk_real _ _ _ _ _ _ Hok1), u64_sub_l. f_equal. cbn [g_rextra G1 with_regions]. lia.
    + eapply huge_chain_frame; [|exact Hch]. eapply keeps_incl; [|exact Hk]. intros x Hx1. apply elem_of_app. left. rewrite Hb. apply elem_of_app. by left.
  - eapply keeps_incl; [|exact Hk]. intros x [Hx1|Hx1]%elem_of_app; rewrite !elem_of_app; [right; by left|left]. rewrite Hb. apply elem_of_app. by right.
Qed.

Lemma zend_mm_free_huge_ok f h cs m sys G H leaked user drift node ptr size E : user_ok h cs m sys G H leaked user drift 0 -> (node, (ptr, size)) ∈ H ->
  wp (zend_mm_free_huge (free_heap_fuel (S f)) ptr) (mkState (Some h) cs m sys)
    (fun _ s => exists H', H ≡ₚ (node, (ptr, size)) :: H' /\ user_freed h m H' leaked user drift s) E.
Proof.
  intros Hu Hin. destruct (huge_split _ _ _ _ _ _ _ _ _ _ _ _ _ Hu Hin) as (H1 & H2 & -> & Hne & Hn & Hsz & Hal & Hp).
  pose proof (huge_size_mem _ _ _ _ _ _ _ _ _ _ Hu) as Hl. pose proof (us_chain _ _ _ _ _ _ _ _ _ _ Hu) as Hch.
  rewrite length_app in Hl. cbn in Hl. unfold zend_mm_free_huge. step; [rewrite aligned_offset_mod by lia; by apply Z.eqb_eq|].
  apply wp_bind. unfold zend_mm_del_huge_block. step. step. apply wp_bind.
  eapply wp_mono; [apply (find_huge_ok _ _ _ _ _ _ 0 H1 node ptr size H2); try done; lia|]. intros r s [-> ->].
  destruct (huge_chain_app _ _ _ _ _ Hch) as (q & _ & Hq & H2c). cbn [fst] in Hq.
  assert (Hqr : 0 <= q < 2 ^ 64).
  { destruct H2 as [|[n2 [p2 s2]] H2]; cbn in H2c; [lia|]. destruct H2c as [-> _].
    destruct (node_range _ _ _ _ _ _ _ _ _ _ n2 Hu) as [? ?]; [rewrite fmap_app; apply elem_of_app; right; right; by left|].
    unfold NODE, SIZEOF_HUGE_LIST in *. lia. }
  unfold huge_next. step; [exact Hq|]. apply wp_bind.
  eapply (unlink_node_ok h cs m sys G H1 node ptr size H2 leaked user drift q); try done; [intros x Hx; by apply Hne|].
  intros h1 m1 Hu1 Hk1 Hw1 Hg1 Hov1. unfold huge_size. step; [exact Hw1|]. apply wp_bind.
  assert (Hnb : (node, NODE) ∈ blocks G) by (rewrite (us_blocks _ _ _ _ _ _ _ _ _ _ Hu1), elem_of_app; right; by left).
  eapply wp_mono; [apply (free_block_ok f h1 cs m1 sys G node NODE E); [apply (us_inv _ _ _ _ _ _ _ _ _ _ Hu1)|done]|].
  intros [] s Hrel. destruct (user_released _ _ _ _ _ _ _ _ user _ _ _ _ _ Hu1 ltac:(done) Hrel) as (h2 & cs2 & m2 & sys2 & G2 & -> & Hu2 & Hk2 & Hg2 & Hov2).
  apply wp_ret. eapply wp_mono; [by apply (unmap_huge_ok h2 cs2 m2 sys2 G2 (H1 ++ H2) leaked user drift ptr size E)|].
  intros [] s (h3 & cs3 & m3 & sys3 & G3 & -> & Hu3 & Hk3 & [Hg3 Hg3'] & Hov3). exists (H1 ++ H2). split; [by rewrite Permutation_middle|].
  exists h3, cs3, m3, sys3, G3. split; [done|]. split; [done|]. destruct Hg1 as [? ?], Hg2 as (? & ? & ?).
  split; [|split; [split|]; congruence].
  assert (Hsub : live (H1 ++ H2) user ⊆ live (H1 ++ (node, (ptr, size)) :: H2) user).
  { intros x. unfold live. rewrite !fmap_app, fmap_cons, !elem_of_app, elem_of_cons. tauto. }
  eapply keeps_trans; [eapply keeps_incl; [exact Hsub|exact Hk1]|]. eapply keeps_trans; [eapply keeps_incl; [|exact Hk2]|exact Hk3].
  by eapply live_mine.
Qed.

(** ** Blocks of any size *)

(** The collection is not needed: a slot is free, or a chunk has room. *)
Definition no_collection G (size : Z) : Prop :=
  if size <=? ZEND_MM_MAX_SMALL_SIZE then
    forall b n, zend_mm_small_size_to_bin size = Ok b -> zget bin_pages b = Some n -> g_free G b <> [] \/ has_room G n
  else size <= ZEND_MM_MAX_LARGE_SIZE /\ has_room G (pages_for size).

Lemma block_aligned h cs m sys G p n : heap_inv h cs m sys G -> (p, n) ∈ blocks G -> 0 < p /\ p mod 8 = 0.
Proof.
  intros Hok Hin. destruct (block_in_chunk _ _ _ _ _ _ _ Hok Hin) as (c0 & Hc0 & ? & _).
  destruct (hk_addr _ _ _ _ _ _ Hok c0) as [(? & _) _]; [apply elem_of_app; by left|].
  split; [unfold ZEND_MM_PAGE_SIZE in *; cbn [fst] in *; lia|].
  destruct (block_cases G p n Hin) as [(a & rs & r & Ha & Hr & Hk & -> & _)|(b & Hb & Hu & ->)].
  - destruct (hk_addr _ _ _ _ _ _ Hok a (ring_in_chunks _ _ _ Ha)) as [(_ & Hm & _) _]. unfold ZEND_MM_CHUNK_SIZE, ZEND_MM_PAGE_SIZE in *. dlia.
  - pose proof (used_elem _ _ _ _ _ _ _ _ Hok Hb Hu) as (a & rs & r & k & Ha & Hr & Hk & Hkr & ->)%elem_of_elems.
    destruct (hk_addr _ _ _ _ _ _ Hok a (ring_in_chunks _ _ _ Ha)) as [(_ & Hm & _) _].
    destruct (bin_facts b Hb) as (_ & _ & _ & _ & _ & Hm8 & _).
    rewrite <- Zplus_mod_idemp_r, <- Zmult_mod_idemp_r, Hm8, Z.mul_0_r. unfold ZEND_MM_CHUNK_SIZE, ZEND_MM_PAGE_SIZE in *. change (0 mod 8) with 0. dlia.
Qed.

Lemma taken_user h cs m sys G H leaked user drift n p s size : user_ok h cs m sys G H leaked user drift 0 -> taken 0 h m G n p s -> size <= n ->
  user_new h m H leaked user drift size p s.
Proof.
  intros Hu Ht Hn. destruct (user_taken _ _ _ _ _ _ _ _ _ _ _ _ _ Hu Ht) as (h' & cs' & m' & sys' & G' & -> & Hu' & Hk & (? & ? & ?) & ?).
  exists h', cs', m', sys', G', H, ((p, n) :: user), n. destruct (block_aligned h' cs' m' sys' G' p n) as [? ?]; [apply (us_inv _ _ _ _ _ _ _ _ _ _ Hu')| |].
  { rewrite (us_blocks _ _ _ _ _ _ _ _ _ _ Hu'). apply elem_of_app. right. by left. }
  split_and!; try done; [unfold live; by rewrite <- Permutation_middle|]. eapply keeps_incl; [eapply live_mine, Hu|done].
Qed.

Lemma alloc_heap_ok f h cs m sys G H leaked user drift size : user_ok h cs m sys G H leaked user drift 0 -> 0 <= size < 2 ^ 64 ->
  main_used G \/ no_collection G size -> harmless size ->
  wp (alloc_heap_fuel (S (S f)) size) (mkState (Some h) cs m sys) (user_new h m H leaked user drift size) (user_error h m H user).
Proof.
  intros Hu Hsz Hmu Hlow. pose proof (us_inv _ _ _ _ _ _ _ _ _ _ Hu) as Hok. cbn [alloc_heap_fuel].
  unfold no_collection in Hmu. destruct (Z.leb_spec size ZEND_MM_MAX_SMALL_SIZE) as [Hs|Hs].
  - destruct (small_size_to_bin_ok size) as (b & Hb & Hbr & Hfit & _); [lia|]. destruct (bin_facts b Hbr) as (n & _ & _ & Hn & _).
    step; [exact Hb|]. eapply wp_conseq; [apply (zend_mm_alloc_small_ok h cs m sys G b n Hok Hbr Hn)| |].
    + destruct Hmu as [|Hno]; [right; by left|]. destruct (Hno b n Hb Hn); [by left|right; by right].
    + intros p s Ht. by eapply taken_user.
    + intros e s. by apply (failed_user h cs m sys G H leaked user drift (bin_size b) (ZEND_MM_PAGE_SIZE * n)).
  - destruct (Z.leb_spec size ZEND_MM_MAX_LARGE_SIZE) as [Hl|Hl].
    + unfold ZEND_MM_MAX_SMALL_SIZE in Hs. destruct (pages_for_range size ltac:(lia)) as (_ & _ & Hfit).
      eapply wp_conseq; [apply (zend_mm_alloc_large_ok h cs m sys G size Hok); [lia|]| |].
      * destruct Hmu as [|[_ ?]]; [by left|by right].
      * intros p s Ht. eapply taken_user; [done|done|lia].
      * intros e s. by apply (failed_user h cs m sys G H leaked user drift 0).
    + destruct Hmu as [Hmu|[? _]]; [|lia]. apply (zend_mm_alloc_huge_ok f h cs m sys G H leaked user drift size); done || lia.
Qed.

Lemma free_heap_ok f h cs m sys G H leaked user drift p n rest E : user_ok h cs m sys G H leaked user drift 0 -> live H user ≡ₚ (p, n) :: rest ->
  wp (free_heap_fuel (S (S f)) p) (mkState (Some h) cs m sys)
    (fun _ s => exists H' user', live H' user' ≡ₚ rest /\ user_freed h m H' leaked user' drift s) E.
Proof.
  intros Hu Hlive. pose proof (us_inv _ _ _ _ _ _ _ _ _ _ Hu) as Hok.
  assert (Hin : (p, n) ∈ live H user) by (rewrite Hlive; by left). apply elem_of_app in Hin as [([node [p' n']] & [= -> ->] & Hin)%list_elem_of_fmap|Hin].
  - destruct (huge_split _ _ _ _ _ _ _ _ _ _ _ _ _ Hu Hin) as (_ & _ & _ & _ & _ & _ & Hal & Hp).
    cbn [free_heap_fuel].
    rewrite aligned_offset_mod, Hal by lia. rewrite Z.eqb_refl, (proj2 (Z.eqb_neq p' 0)) by lia. cbn [negb].
    eapply wp_mono; [apply (zend_mm_free_huge_ok f h cs m sys G H leaked user drift node p' n' E Hu Hin)|].
    intros [] s (H' & Hp' & Hf). exists H', user. split; [|done]. apply (Permutation_cons_inv (a := (p', n'))). rewrite <- Hlive. unfold live. by rewrite Hp'.
  - pose proof Hin as [user' Hp]%elem_of_Permutation. assert (Hb : (p, n) ∈ blocks G).
    { rewrite (us_blocks _ _ _ _ _ _ _ _ _ _ Hu). apply elem_of_app. by right. }
    eapply wp_mono; [by apply (free_block_ok (S f) h cs m sys G p n E)|]. intros [] s Hr.
    destruct (user_released _ _ _ _ _ _ _ _ user' _ _ _ _ _ Hu Hp Hr) as (h' & cs' & m' & sys' & G' & -> & Hu' & Hk & (? & ? & ?) & ?).
    exists H, user'. split; [apply (Permutation_cons_inv (a := (p, n))); rewrite <- Hlive; unfold live; rewrite Hp; by rewrite <- Permutation_middle|].
    exists h', cs', m', sys', G'. split_and!; try done. eapply keeps_incl; [eapply live_mine, Hu'|done].
Qed.

Lemma size_ok h cs m sys G H leaked user drift p n E : user_ok h cs m sys G H leaked user drift 0 -> (p, n) ∈ live H user ->
  wp (zend_mm_size p) (mkState (Some h) cs m sys) (fun r s => r = n /\ s = mkState (Some h) cs m sys) E.
Proof.
  intros Hu [([node [p' n']] & [= -> ->] & Hin)%list_elem_of_fmap|Hin]%elem_of_app.
  - destruct (huge_split _ _ _ _ _ _ _ _ _ _ _ _ _ Hu Hin) as (_ & _ & _ & _ & _ & _ & Hal & Hp). unfold zend_mm_size.
    rewrite aligned_offset_mod, Hal, Z.eqb_refl by lia. by eapply huge_block_size_ok.
  - apply (block_size_ok h cs m sys G); [apply (us_inv _ _ _ _ _ _ _ _ _ _ Hu)|].
    rewrite (us_blocks _ _ _ _ _ _ _ _ _ _ Hu). apply elem_of_app. by right.
Qed.
End Huge.
