(* ===== verification/MmRealloc.v ===== *)
(** * Reallocation

    A block is resized in place or moved: the new block is large enough, holds the old
    contents, and the other blocks stay as they are. *)

From stdpp Require Import functions.
From S2P Require Import Prelude.
From S2P Require Import MmPageOps.
From S2P Require Import MmChunk.
From S2P Require Import MmHeapOps.
From S2P Require Import MmAllocOps.
From S2P Require Import MmHeapInv.
From S2P Require Import MmHeap.
From S2P Require Import MmRing.
From S2P Require Import MmGc.
From S2P Require Import MmBlocks.
From S2P Require Import MmUser.

(** ** Runs that shrink and grow *)

Lemma resize_run_ok (cnt : Z -> Z) c p old new rs fm (s n : Z) (v : bool) : chunk_ok cnt c (Run p old Large :: rs) -> 0 < new -> p + new <= 512 ->
  range_becomes v (ch_free_map c) s n fm ->
  (s = p + new /\ n = old - new /\ v = false /\ new < old \/
   s = p + old /\ n = new - old /\ v = true /\ old < new /\ forall k, s <= k < s + n -> k ∉ pages_of rs) ->
  exists mp, wr (ch_map c) p (ZEND_MM_LRUN new) = Ok mp /\
    chunk_ok cnt (set_pages (u32 (ch_free_pages c + (old - new))) (ch_free_tail c) fm mp c) (Run p new Large :: rs).
Proof.
  intros Hok Hnew Hend Hfm Hor. destruct (ck_runs _ _ _ Hok (Run p old Large)) as (Hp & Hold & Hpo & _); [by left|]. cbn in Hp, Hold, Hpo.
  pose proof (ck_len _ _ _ Hok) as Hlen. pose proof (ck_tail _ _ _ Hok) as Ht. rewrite wr_ok by lia. eexists. split; [done|].
  pose proof (ck_nodup _ _ _ Hok) as Hn. apply nodup_pages_cons in Hn as [Hd Hn]. cbn [r_start r_count] in Hd.
  assert (Hdn : forall k, p <= k < p + new -> k ∉ pages_of rs).
  { intros k Hk. destruct Hor as [(-> & -> & -> & ?)|(-> & -> & -> & ? & Hfr)]; [apply Hd; lia|].
    destruct (Z_lt_le_dec k (p + old)); [apply Hd; lia|apply Hfr; lia]. }
  assert (Hnd : NoDup (pages_of ([Run p new Large] ++ rs))) by (apply nodup_pages_cons; split; [exact Hdn|done]).
  pose proof (zlen_pages_cons (Run p new Large) rs ltac:(cbn; lia)) as Hz. pose proof (zlen_pages_cons (Run p old Large) rs ltac:(cbn; lia)) as Hz0.
  cbn [r_count] in Hz, Hz0.
  assert (Hb : zlen (pages_of (Run p new Large :: rs)) <= 511).
  { apply pages_bound; [exact Hnd|]. intros k Hk. apply elem_of_pages_cons in Hk as [Hk|Hk]; [cbn in Hk; lia|].
    apply (run_pages_range _ _ _ _ Hok). apply elem_of_pages_cons. by right. }
  pose proof (zlen_nonneg (pages_of (Run p new Large :: rs))).
  replace (u32 (ch_free_pages c + (old - new))) with (511 - zlen (pages_of ([Run p new Large] ++ rs))).
  2:{ rewrite (ck_free _ _ _ Hok), u32_small; cbn [app]; lia. }
  apply (chunk_ok_change cnt cnt c [Run p new Large] [Run p old Large] rs _ _ _ v s n); try done.
  - by rewrite zlen_zset.
  - intros k Hk. cbn [app]. rewrite !elem_of_pages_cons. cbn [r_start r_count]. specialize (Hd k). specialize (Hdn k).
    assert (Hor' : k ∈ pages_of rs -> ~ (p <= k < p + old) /\ ~ (p <= k < p + new)) by (intros Hi; split; intros Hr; [by apply Hd|by apply Hdn]).
    assert (Hs1 : forall P Q : Prop, (k ∈ pages_of rs -> ~ P /\ ~ Q) -> (P <-> Q) -> (Q \/ k ∈ pages_of rs <-> P \/ k ∈ pages_of rs)) by tauto.
    destruct Hor as [(-> & -> & -> & ?)|(-> & -> & -> & ? & _)].
    + destruct (Z.leb_spec (p + new) k), (Z.ltb_spec k (p + new + (old - new))); cbn [andb]; rewrite ?elem_of_pages_cons; cbn [r_start r_count]; try (apply Hs1; [done|lia]).
      split; [intros [?|Hi]; [lia|]|done]. destruct (Hor' Hi). lia.
    + destruct (Z.leb_spec (p + old) k), (Z.ltb_spec k (p + old + (new - old))); cbn [andb]; rewrite ?elem_of_pages_cons; cbn [r_start r_count]; try (apply Hs1; [done|lia]).
      split; [done|intros _; left; lia].
  - lia.
  - intros r ->%list_elem_of_singleton. split; [cbn; lia|]. split; [done|]. split; [done|]. unfold run_in_map. cbn. apply zget_zset_eq. lia.
  - intros r Hin (H1 & H2 & H3 & H4). split; [done|]. split; [done|]. split; [done|]. eapply run_in_map_frame; [|done|done].
    intros k Hk. apply zget_zset_ne; [lia|]. intros <-. apply (Hd p); [lia|]. apply elem_of_pages_of. exists r. split; [done|lia].
Qed.

Section Realloc.
Context {OS : Os} {L : OsLaws OS} {LF : LowFree OS}.
Implicit Types (h : zend_mm_heap) (cs : gmap Z zend_mm_chunk) (m : gmap Z Z) (sys : os) (G : view) (s : mstate).
Implicit Types (H : list (Z * (Z * Z))) (leaked user : list (Z * Z)).

(** ** Outcomes *)

(** The block [p] has become [(q, n')]; its first [K] bytes are the same. *)
Definition user_moved h m leaked drift (rest : list (Z * Z)) (size K p q : Z) (s : mstate) : Prop :=
  exists h' cs' m' sys' G' H' user' n', s = mkState (Some h') cs' m' sys' /\ user_ok h' cs' m' sys' G' H' leaked user' drift 0 /\
    live H' user' ≡ₚ (q, n') :: rest /\ size <= n' /\ keeps rest m m' /\
    (forall i, 0 <= i < K -> m' !! (q + i) = m !! (p + i)) /\ kept_caller h h' /\ mm_overflow h' = mm_overflow h.

(** ** Writes in a live block *)

Lemma write_live_ok h cs m m' sys G H leaked user drift q n rest : user_ok h cs m sys G H leaked user drift 0 ->
  live H user ≡ₚ (q, n) :: rest -> (forall k, ~ (q <= k < q + n) -> m' !! k = m !! k) ->
  user_ok h cs m' sys G H leaked user drift 0 /\ keeps rest m m'.
Proof.
  intros Hu Hl Hf. pose proof Hu as [Hok Hch Hb Hh Hx Hr].
  assert (Hin : (q, n) ∈ live H user) by (rewrite Hl; by left).
  assert (Hk : keeps rest m m').
  { pose proof (live_apart _ _ _ _ _ _ _ _ _ _ Hu) as Ha. rewrite Hl in Ha. destruct Ha as [Ha _]. rewrite Forall_forall in Ha.
    intros a l k Hal Hk. apply Hf. specialize (Ha _ Hal). unfold apart2 in Ha. cbn [fst snd] in Ha. lia. }
  split; [|done]. apply elem_of_app in Hin as [Hin|Hin].
  - (* a huge block: outside the chunks *)
    assert (Hg : (q, n) ∈ g_huge G) by (rewrite Hh; apply elem_of_app; by left).
    assert (Hchunk : forall c k, c ∈ chunks_of G -> c <= k < c + ZEND_MM_CHUNK_SIZE -> m' !! k = m !! k).
    { intros c k Hc Hk'. apply Hf. pose proof (hk_huge_chunks _ _ _ _ _ _ Hok _ c Hg Hc) as Ha. unfold apart2 in Ha. cbn [fst snd] in Ha. lia. }
    assert (Hbk : keeps (blocks G) m m').
    { intros a l k Hal Hk'. destruct (block_in_chunk _ _ _ _ _ _ _ Hok Hal) as (c & Hc & ? & ? & _).
      apply (Hchunk c); [apply elem_of_app; by left|]. unfold ZEND_MM_PAGE_SIZE in *. cbn [fst snd] in *. lia. }
    split; try done.
    + pose proof Hok as Hok0. open_heap Hok. split; try done. intros b Hbr. destruct (hk_chain0 b Hbr) as (p & Hp & Hc). exists p. split; [done|].
      eapply chain_frame; [|exact Hc]. intros a k Ha Hk'. pose proof (free_elem _ _ _ _ _ _ _ _ Hok0 Hbr Ha) as He.
      destruct (slot_home _ _ _ _ _ _ _ _ Hok0 He) as (c & rs & r & Hin1 & _ & _ & _ & _ & H1 & H2 & H3 & H4 & _).
      apply (Hchunk c); [by eapply ring_in_chunks|]. unfold run_span, ZEND_MM_PAGE_SIZE, ZEND_MM_CHUNK_SIZE in *. cbn [fst snd] in *. lia.
    + eapply huge_chain_frame; [|exact Hch]. eapply keeps_incl; [|exact Hbk]. intros x Hx1. rewrite Hb. apply elem_of_app. by left.
  - pose proof Hin as [user' Hp]%elem_of_Permutation. by eapply (write_user_ok h cs m m' sys G H leaked user user').
Qed.

Lemma copy_bytes_lookup (k : Z) n m0 m (d s : Z) : copy_bytes n m0 m d s !! k = if (d <=? k) && (k <? d + Z.of_nat n) then m0 !! (s + (k - d)) else m !! k.
Proof.
  revert m d s. induction n as [|n IH]; intros m d s; cbn [copy_bytes].
  - destruct (Z.leb_spec d k), (Z.ltb_spec k (d + Z.of_nat 0)); cbn; done || lia.
  - rewrite IH. destruct (Z.eq_dec k d) as [->|Hne].
    + rewrite (proj2 (Z.leb_gt (d + 1) d)), (proj2 (Z.leb_le d d)), (proj2 (Z.ltb_lt d (d + Z.of_nat (S n)))) by lia. cbn [andb].
      rewrite lookup_partial_alter_eq. by rewrite Z.sub_diag, Z.add_0_r.
    + rewrite lookup_partial_alter_ne by done. replace (s + 1 + (k - (d + 1))) with (s + (k - d)) by lia.
      destruct (Z.leb_spec (d + 1) k), (Z.leb_spec d k), (Z.ltb_spec k (d + 1 + Z.of_nat n)), (Z.ltb_spec k (d + Z.of_nat (S n))); cbn; done || lia.
Qed.

(** ** A block that moves *)

Lemma move_ok (alloc : MM Z) (finish : Z -> MM Z) h cs m sys G H leaked user drift p n rest size K : user_ok h cs m sys G H leaked user drift 0 ->
  live H user ≡ₚ (p, n) :: rest -> 0 <= K <= n -> K <= size ->
  wp alloc (mkState (Some h) cs m sys) (user_new h m H leaked user drift size) (user_error h m H user) ->
  (forall h1 cs1 m1 sys1 G1 H1 user1 rest1, user_ok h1 cs1 m1 sys1 G1 H1 leaked user1 drift 0 -> live H1 user1 ≡ₚ (p, n) :: rest1 ->
     forall q, wp (finish q) (mkState (Some h1) cs1 m1 sys1)
       (fun r s => r = q /\ exists H' user', live H' user' ≡ₚ rest1 /\ user_freed h1 m1 H' leaked user' drift s) (user_error h m H user)) ->
  wp (ret ← alloc; memcpy_ ret p K;; finish ret) (mkState (Some h) cs m sys) (user_moved h m leaked drift rest size K p) (user_error h m H user).
Proof.
  intros Hu Hl HK Hsz Halloc Hfree. apply wp_bind. eapply wp_mono; [exact Halloc|].
  intros q s (h1 & cs1 & m1 & sys1 & G1 & H1 & user1 & n1 & -> & Hu1 & Hl1 & Hn1 & _ & _ & Hk1 & [Hm1 Hlim1] & Hov1).
  rewrite Hl in Hl1. pose proof (live_apart _ _ _ _ _ _ _ _ _ _ Hu1) as Ha. rewrite Hl1 in Ha. destruct Ha as [Ha _]. rewrite Forall_forall in Ha.
  specialize (Ha (p, n) ltac:(by left)). unfold apart2 in Ha. cbn [fst snd] in Ha.
  unfold memcpy_. apply wp_bind. step.
  { destruct (Z.eqb_spec K 0); [done|]. cbn [orb]. apply orb_true_iff. rewrite !Z.leb_le. lia. }
  unfold wp at 1, copy_mem. cbn [st_heap st_chunks st_mem st_os]. set (m2 := copy_bytes _ _ _ _ _).
  assert (Hm2 : forall k, m2 !! k = if (q <=? k) && (k <? q + K) then m1 !! (p + (k - q)) else m1 !! k).
  { intros k. unfold m2. rewrite copy_bytes_lookup. by rewrite Z2Nat.id by lia. }
  destruct (write_live_ok h1 cs1 m1 m2 sys1 G1 H1 leaked user1 drift q n1 ((p, n) :: rest) Hu1 Hl1) as [Hu2 Hk2].
  { intros k Hk. rewrite Hm2. destruct (Z.leb_spec q k), (Z.ltb_spec k (q + K)); cbn; done || lia. }
  eapply wp_mono; [apply (Hfree h1 cs1 m2 sys1 G1 H1 user1 ((q, n1) :: rest) Hu2); rewrite Hl1; apply Permutation_swap|].
  intros r s (-> & H' & user' & Hl3 & h3 & cs3 & m3 & sys3 & G3 & -> & Hu3 & Hk3 & [Hm3 Hlim3] & Hov3).
  assert (Hk3' : keeps ((q, n1) :: rest) m2 m3) by (eapply keeps_incl; [|exact Hk3]; intros x Hx; by rewrite Hl3).
  exists h3, cs3, m3, sys3, G3, H', user', n1. split; [done|]. split; [done|]. split; [done|]. split; [done|]. split.
  { assert (Hk1' : keeps ((p, n) :: rest) m m1) by (eapply keeps_incl; [|exact Hk1]; intros x Hx; by rewrite Hl).
    eapply keeps_trans; [eapply keeps_incl; [|exact Hk1']; intros x Hx; by right|].
    eapply keeps_trans; [eapply keeps_incl; [|exact Hk2]; intros x Hx; by right|]. eapply keeps_incl; [|exact Hk3']. intros x Hx. by right. }
  split; [|split; [split|]; congruence]. intros i Hi.
  rewrite (Hk3' q n1 (q + i)) by (by left || lia). rewrite Hm2, (proj2 (Z.leb_le _ _)), (proj2 (Z.ltb_lt _ _)) by lia. cbn [andb].
  replace (p + (q + i - q)) with (p + i) by lia. apply (Hk1 p n); [rewrite Hl; by left|lia].
Qed.

Lemma peak_user_ok h cs m sys G H leaked user drift rdrift pk : user_ok h cs m sys G H leaked user drift rdrift ->
  user_ok (set_sizes (mm_size h) pk h) cs m sys G H leaked user drift rdrift.
Proof. intros [Hok ? ? ? ? ?]. split; try done. by apply (ok_same _ h). Qed.

Lemma realloc_slow_ok h cs m sys G H leaked user drift p n rest size K : user_ok h cs m sys G H leaked user drift 0 ->
  live H user ≡ₚ (p, n) :: rest -> 0 <= K <= n -> K <= size -> size < 2 ^ 64 -> main_used G -> harmless size ->
  wp (zend_mm_realloc_slow p size K) (mkState (Some h) cs m sys) (user_moved h m leaked drift rest size K p) (user_error h m H user).
Proof.
  intros Hu Hl HK Hsz Hsz2 Hmu Hlow. unfold zend_mm_realloc_slow. step. eapply move_ok; [exact Hu|exact Hl|done|done| |].
  - apply (alloc_heap_ok 0 h cs m sys G H leaked user drift size Hu); [lia|by left|done].
  - intros h1 cs1 m1 sys1 G1 H1 user1 rest1 Hu1 Hl1 q. apply wp_bind. eapply wp_mono; [by apply (free_heap_ok 0 h1 cs1 m1 sys1 G1 H1 leaked user1 drift p n rest1)|].
    intros [] s (H' & user' & Hl' & h2 & cs2 & m2 & sys2 & G2 & -> & Hu2 & Hk2 & Hg2 & Hov2). unfold restore_peak. step. apply wp_ret.
    split; [done|]. exists H', user'. split; [done|]. eexists _, cs2, m2, sys2, G2. split; [done|]. split; [by apply peak_user_ok|done].
Qed.

(** ** Small blocks *)

(** Bins have different sizes, which are not those of pages. *)
Lemma bin_size_small b : 0 <= b < 30 -> bin_size b <= 3072 /\ forall b', 0 <= b' < 30 -> bin_size b' = bin_size b -> b' = b.
Proof.
  intros Hb. assert (Ht : forallb (fun b => (bin_size b <=? 3072) && forallb (fun b' => (b' =? b) || negb (bin_size b' =? bin_size b)) (seqZ 0 30)) (seqZ 0 30) = true) by (by vm_compute).
  pose proof (all_in_range _ 0 30 b Ht Hb) as Hx. cbv beta in Hx. rewrite andb_true_iff, Z.leb_le in Hx. destruct Hx as [? Hx]. split; [done|].
  intros b' Hb' E. pose proof (all_in_range _ 0 30 b' Hx Hb') as Hy. cbv beta in Hy. rewrite orb_true_iff, negb_true_iff, Z.eqb_eq, Z.eqb_neq in Hy. by destruct Hy as [?|?].
Qed.

Lemma small_block_used h cs m sys G H leaked user drift rdrift p b : user_ok h cs m sys G H leaked user drift rdrift -> (p, bin_size b) ∈ user -> 0 <= b < 30 ->
  p ∈ g_used G b.
Proof.
  intros Hu Hin Hb. assert (Hbl : (p, bin_size b) ∈ blocks G) by (rewrite (us_blocks _ _ _ _ _ _ _ _ _ _ Hu); apply elem_of_app; by right).
  destruct (bin_size_small b Hb) as [Hle Hinj]. destruct (block_cases G p _ Hbl) as [(a & rs & r & Ha & Hr & _ & _ & E)|(b' & Hb' & Hp & E)].
  - destruct (run_in_chunk _ _ _ _ _ _ _ _ _ (us_inv _ _ _ _ _ _ _ _ _ _ Hu) Ha Hr) as (_ & _ & ? & _). unfold ZEND_MM_PAGE_SIZE in E. lia.
  - by rewrite <- (Hinj b' Hb' (eq_sym E)).
Qed.

Lemma small_not_huge h cs m sys G H leaked user drift p n : user_ok h cs m sys G H leaked user drift 0 -> (p, n) ∈ live H user ->
  p mod ZEND_MM_CHUNK_SIZE <> 0 -> (p, n) ∈ user.
Proof.
  intros Hu [([node [p' n']] & [= -> ->] & Hin)%list_elem_of_fmap|Hin]%elem_of_app Hm; [|done].
  destruct (huge_split _ _ _ _ _ _ _ _ _ _ _ _ _ Hu Hin) as (_ & _ & _ & _ & _ & _ & Hal & _). done.
Qed.

Lemma free_small_user_ok h cs m sys G H leaked user drift p b rest E : user_ok h cs m sys G H leaked user drift 0 ->
  live H user ≡ₚ (p, bin_size b) :: rest -> p mod ZEND_MM_CHUNK_SIZE <> 0 -> 0 <= b < 30 ->
  wp (zend_mm_free_small p b) (mkState (Some h) cs m sys)
    (fun _ s => exists H' user', live H' user' ≡ₚ rest /\ user_freed h m H' leaked user' drift s) E.
Proof.
  intros Hu Hl Hm Hb. assert (Hin : (p, bin_size b) ∈ user) by (eapply small_not_huge; [exact Hu|rewrite Hl; by left|done]).
  pose proof Hin as [user' Hp]%elem_of_Permutation. pose proof (small_block_used _ _ _ _ _ _ _ _ _ _ _ _ Hu Hin Hb) as Hused.
  eapply wp_mono; [by apply (zend_mm_free_small_ok h cs m sys G b p E (us_inv _ _ _ _ _ _ _ _ _ _ Hu) Hb)|]. intros [] s Hr.
  destruct (user_released _ _ _ _ _ _ _ _ user' _ _ _ _ _ Hu Hp Hr) as (h' & cs' & m' & sys' & G' & -> & Hu' & Hk & (? & ? & ?) & ?).
  exists H, user'. split; [apply (Permutation_cons_inv (a := (p, bin_size b))); rewrite <- Hl; unfold live; rewrite Hp; by rewrite <- Permutation_middle|].
  exists h', cs', m', sys', G'. split_and!; try done. eapply keeps_incl; [eapply live_mine, Hu'|done].
Qed.

Lemma move_small_ok h cs m sys G H leaked user drift p b rest size K : user_ok h cs m sys G H leaked user drift 0 ->
  live H user ≡ₚ (p, bin_size b) :: rest -> p mod ZEND_MM_CHUNK_SIZE <> 0 -> 0 <= b < 30 -> 0 <= K <= bin_size b -> K <= size ->
  size <= ZEND_MM_MAX_SMALL_SIZE -> main_used G ->
  wp (move_small p b size K) (mkState (Some h) cs m sys) (user_moved h m leaked drift rest size K p) (user_error h m H user).
Proof.
  intros Hu Hl Hm Hb HK Hsz Hmax Hmu. unfold move_small. destruct (small_size_to_bin_ok size) as (b1 & Hb1 & Hbr & Hfit & _); [lia|].
  destruct (bin_facts b1 Hbr) as (n & _ & _ & Hn & _). step; [exact Hb1|]. eapply move_ok; [exact Hu|exact Hl|done|done| |].
  - eapply wp_conseq; [apply (zend_mm_alloc_small_ok h cs m sys G b1 n (us_inv _ _ _ _ _ _ _ _ _ _ Hu) Hbr Hn); right; by left| |].
    + intros q s Ht. by eapply taken_user.
    + intros e s. by apply (failed_user h cs m sys G H leaked user drift (bin_size b1) (ZEND_MM_PAGE_SIZE * n)).
  - intros h1 cs1 m1 sys1 G1 H1 user1 rest1 Hu1 Hl1 q. apply wp_bind.
    eapply wp_mono; [by apply (free_small_user_ok h1 cs1 m1 sys1 G1 H1 leaked user1 drift p b rest1)|]. intros [] s Hs. apply wp_ret. by split.
Qed.

Lemma moved_less h m leaked drift rest size K K' p q s : K' <= K -> user_moved h m leaked drift rest size K p q s -> user_moved h m leaked drift rest size K' p q s.
Proof.
  intros HK (h' & cs' & m' & sys' & G' & H' & user' & n' & ? & ? & ? & ? & ? & Hc & ?). exists h', cs', m', sys', G', H', user', n'.
  do 5 (split; [done|]). split; [|done]. intros i Hi. apply Hc. lia.
Qed.

(** Nothing is moved. *)
Lemma in_place h h' cs cs' m sys sys' G G' H H' leaked user user' drift p n rest size K :
  live H' user' ≡ₚ (p, n) :: rest -> size <= n -> user_ok h' cs' m sys' G' H' leaked user' drift 0 -> kept_caller h h' -> mm_overflow h' = mm_overflow h ->
  user_ok h cs m sys G H leaked user drift 0 ->
  user_moved h m leaked drift rest size K p p (mkState (Some h') cs' m sys').
Proof. intros. exists h', cs', m, sys', G', H', user', n. split_and!; try done. Qed.

(** ** Large blocks *)

Lemma resize_large_ok h h' cs m sys G a rs r rs' c c' new pk : heap_inv h cs m sys G -> (a, rs) ∈ g_ring G -> rs ≡ₚ r :: rs' -> r_kind r = Large ->
  cs !! a = Some c -> same_place c c' -> chunk_ok (fun _ => 0) c' (Run (r_start r) new Large :: rs') ->
  h' = set_sizes (u64 (mm_size h + ZEND_MM_PAGE_SIZE * (new - r_count r))) pk h ->
  exists G' B, heap_inv h' (<[a := c']> cs) m sys G' /\
    blocks G ≡ₚ (a + ZEND_MM_PAGE_SIZE * r_start r, ZEND_MM_PAGE_SIZE * r_count r) :: B /\
    blocks G' ≡ₚ (a + ZEND_MM_PAGE_SIZE * r_start r, ZEND_MM_PAGE_SIZE * new) :: B /\
    g_huge G' = g_huge G /\ g_extra G' = g_extra G /\ g_rextra G' = g_rextra G.
Proof.
  intros Hok Hin Hp Hk Hc Hsp Hcok ->. pose proof Hin as (l1 & l2 & Hring)%list_elem_of_split. set (r' := Run (r_start r) new Large).
  set (ring' := l1 ++ (a, r' :: rs') :: l2). exists (View ring' (g_cached G) (g_free G) (g_used G) (g_huge G) (g_extra G) (g_rextra G)).
  exists (large_blocks (l1 ++ (a, rs') :: l2) ++ small_blocks (g_used G)).
  assert (Hb : blocks G ≡ₚ (a + ZEND_MM_PAGE_SIZE * r_start r, ZEND_MM_PAGE_SIZE * r_count r) :: large_blocks (l1 ++ (a, rs') :: l2) ++ small_blocks (g_used G)).
  { unfold blocks. rewrite Hring, (large_split l1 a rs r rs' l2 Hp). unfold large_span. by rewrite Hk. }
  assert (Hb' : large_blocks ring' ++ small_blocks (g_used G) ≡ₚ (a + ZEND_MM_PAGE_SIZE * r_start r, ZEND_MM_PAGE_SIZE * new) :: large_blocks (l1 ++ (a, rs') :: l2) ++ small_blocks (g_used G)).
  { unfold ring'. by rewrite (large_split l1 a (r' :: rs') r' rs' l2). }
  split; [|done].
  apply (ok_update (fun _ _ => 0) (fun _ _ => 0) h _ cs m m sys G l1 a rs l2 c c' (r' :: rs') (g_free G) (g_used G) (g_extra G) Hok Hring Hc Hsp Hcok); try done.
  - apply (hk_slots _ _ _ _ _ _ Hok).
  - apply (hk_chain _ _ _ _ _ _ Hok).
  - intros b Hbr. pose proof (hk_perm _ _ _ _ _ _ Hok b Hbr) as Hpm. cbn [g_ring].
    rewrite Hring, (elems_split l1 a rs r rs' l2 b Hp) in Hpm. unfold run_elems in Hpm. rewrite Hk in Hpm. cbn [app] in Hpm.
    by rewrite (elems_split l1 a (r' :: rs') r' rs' l2 b).
  - cbn [mm_size set_sizes]. rewrite (hk_size _ _ _ _ _ _ Hok), u64_add_l, Hb. f_equal. unfold blocks. cbn [g_ring g_used]. fold ring'. rewrite Hb', !total_cons. cbn [snd]. lia.
Qed.

(** A large block of the caller is resized. *)
Lemma user_resized h h' cs cs' m sys G G' B H leaked user user' drift p n n' : user_ok h cs m sys G H leaked user drift 0 -> user ≡ₚ (p, n) :: user' ->
  heap_inv h' cs' m sys G' -> blocks G ≡ₚ (p, n) :: B -> blocks G' ≡ₚ (p, n') :: B -> g_huge G' = g_huge G -> g_extra G' = g_extra G -> g_rextra G' = g_rextra G ->
  mm_huge_list h' = mm_huge_list h -> user_ok h' cs' m sys G' H leaked ((p, n') :: user') drift 0.
Proof.
  intros [Hok Hch Hb Hh Hx Hr] Hp Hok' HB HB' Hh' Hx' Hr' Hl. split; rewrite ?Hh', ?Hx', ?Hr', ?Hl; try done.
  rewrite HB'. rewrite <- Permutation_middle. f_equiv. apply (Permutation_cons_inv (a := (p, n))). rewrite <- HB, Hb, Hp. by rewrite <- Permutation_middle.
Qed.

Lemma realloc_large_ok h cs m sys G H leaked user drift a rs r c p rest size K slow : user_ok h cs m sys G H leaked user drift 0 ->
  live H user ≡ₚ (p, ZEND_MM_PAGE_SIZE * r_count r) :: rest -> (a, rs) ∈ g_ring G -> r ∈ rs -> r_kind r = Large -> cs !! a = Some c ->
  p = a + ZEND_MM_PAGE_SIZE * r_start r ->
  wp (slow (r_count r * ZEND_MM_PAGE_SIZE)) (mkState (Some h) cs m sys) (user_moved h m leaked drift rest size K p) (user_error h m H user) ->
  wp (realloc_large a (r_start r) p (r_count r) size slow) (mkState (Some h) cs m sys) (user_moved h m leaked drift rest size K p) (user_error h m H user).
Proof.
  intros Hu Hl Hin Hr Hk Hc Hp Hslow. pose proof (us_inv _ _ _ _ _ _ _ _ _ _ Hu) as Hok.
  assert (Hlin : (p, ZEND_MM_PAGE_SIZE * r_count r) ∈ live H user) by (rewrite Hl; by left).
  destruct (hk_addr _ _ _ _ _ _ Hok a (ring_in_chunks _ _ _ Hin)) as [(Ha0 & Ham & _) _].
  destruct (run_in_chunk _ _ _ _ _ _ _ _ _ Hok Hin Hr) as (_ & Hr1 & Hr2 & Hr3).
  assert (Hpu : (p, ZEND_MM_PAGE_SIZE * r_count r) ∈ user).
  { eapply small_not_huge; [exact Hu|exact Hlin|]. rewrite Hp. unfold ZEND_MM_CHUNK_SIZE, ZEND_MM_PAGE_SIZE in *. dlia. }
  pose proof Hpu as [user' Hpp]%elem_of_Permutation. pose proof Hr as [rs' Hrs]%elem_of_Permutation.
  destruct (hk_chunks _ _ _ _ _ _ Hok a rs Hin) as (c0 & Hc0 & _ & Hcok). assert (c0 = c) as -> by congruence.
  assert (Hcok' : chunk_ok (fun _ => 0) c (Run (r_start r) (r_count r) Large :: rs')).
  { eapply chunk_ok_perm; [|exact Hcok]. rewrite Hrs. destruct r as [r1 r2 r3]. cbn in *. by subst. }
  assert (Hlive' : forall n', live H ((p, n') :: user') ≡ₚ (p, n') :: rest).
  { intros n'. unfold live in *. rewrite Hpp in Hl. rewrite <- Permutation_middle in Hl. rewrite <- Permutation_middle. f_equiv. by apply Permutation_cons_inv in Hl. }
  unfold realloc_large. cbv zeta. apply wp_if; [|done]. rewrite andb_true_iff, Z.ltb_lt, Z.leb_le. intros [Hs1 Hs2].
  unfold ZEND_MM_MAX_SMALL_SIZE in Hs1. destruct (pages_for_range size ltac:(lia)) as (_ & Hnew & Hfit). set (new := pages_for size) in *.
  assert (Hal : ZEND_MM_ALIGNED_SIZE_EX size ZEND_MM_PAGE_SIZE = ZEND_MM_PAGE_SIZE * new).
  { change ZEND_MM_PAGE_SIZE with REAL_PAGE_SIZE at 1. destruct (aligned_size_ok size) as [(_ & E & _)|[? _]]; [|done|]; unfold ZEND_MM_MAX_LARGE_SIZE, ZEND_MM_CHUNK_SIZE, ZEND_MM_PAGE_SIZE, ZEND_MM_FIRST_PAGE in Hs2; lia. }
  rewrite Hal. replace (ZEND_MM_PAGE_SIZE * new / ZEND_MM_PAGE_SIZE) with new by (unfold ZEND_MM_PAGE_SIZE; dlia).
  (* what follows a change of the chunk *)
  assert (Hdone : forall c' pk, same_place c c' -> chunk_ok (fun _ => 0) c' (Run (r_start r) new Large :: rs') ->
    user_moved h m leaked drift rest size K p p (mkState (Some (set_sizes (u64 (mm_size h + ZEND_MM_PAGE_SIZE * (new - r_count r))) pk h)) (<[a := c']> cs) m sys)).
  { intros c' pk Hsp Hc'. destruct (resize_large_ok h _ cs m sys G a rs r rs' c c' new pk Hok Hin Hrs Hk Hc Hsp Hc' eq_refl) as (G' & B & Hok' & HB & HB' & Hh & Hx & Hrx).
    rewrite <- Hp in HB, HB'. eapply (in_place h _ cs _ m sys sys G G' H H leaked user ((p, ZEND_MM_PAGE_SIZE * new) :: user') drift p (ZEND_MM_PAGE_SIZE * new)); try done; [lia|].
    by eapply (user_resized h _ cs). }
  destruct (Z.eqb_spec (ZEND_MM_PAGE_SIZE * new) (r_count r * ZEND_MM_PAGE_SIZE)) as [E1|E1].
  { apply wp_ret. eapply (in_place h h cs cs m sys sys G G H H leaked user user drift p); [exact Hl|lia|exact Hu|done|done|exact Hu]. }
  destruct (Z.ltb_spec (ZEND_MM_PAGE_SIZE * new) (r_count r * ZEND_MM_PAGE_SIZE)) as [Hlt|Hge].
  - assert (Hlt' : new < r_count r) by (unfold ZEND_MM_PAGE_SIZE in Hlt; lia).
    replace ((r_count r * ZEND_MM_PAGE_SIZE - ZEND_MM_PAGE_SIZE * new) / ZEND_MM_PAGE_SIZE) with (r_count r - new) by (unfold ZEND_MM_PAGE_SIZE; dlia).
    destruct (reset_range_ok (ch_free_map c) (r_start r + new) (r_count r - new) (ck_bitset _ _ _ Hcok)) as (fm & Hfm & Hrange); [lia|lia|rewrite (ck_words _ _ _ Hcok); lia|].
    destruct (resize_run_ok _ c (r_start r) (r_count r) new rs' fm _ _ _ Hcok' ltac:(lia) ltac:(lia) Hrange) as (mp & Hmp & Hc'); [left; by split_and!|].
    step. step; [exact Hc|]. step; [exact Hmp|]. step; [exact Hfm|]. step; [exact Hc|]. apply wp_ret.
    replace (mm_size h - (r_count r - new) * ZEND_MM_PAGE_SIZE) with (mm_size h + ZEND_MM_PAGE_SIZE * (new - r_count r)) by lia. by apply Hdone.
  - assert (Hgt : r_count r < new) by (unfold ZEND_MM_PAGE_SIZE in *; lia).
    replace (r_count r * ZEND_MM_PAGE_SIZE / ZEND_MM_PAGE_SIZE) with (r_count r) by (unfold ZEND_MM_PAGE_SIZE; dlia).
    step; [exact Hc|]. apply wp_bind. apply wp_if; intros Hin512; [|by apply wp_ret]. rewrite Z.leb_le in Hin512. unfold ZEND_MM_PAGES in Hin512.
    destruct (is_free_range_ok (ch_free_map c) (r_start r + r_count r) (new - r_count r) (ck_bitset _ _ _ Hcok)) as (b & Hb & Hfr); [lia|lia|rewrite (ck_words _ _ _ Hcok); lia|].
    step; [exact Hb|]. destruct b; [|done]. pose proof (proj1 Hfr eq_refl) as Hfree.
    destruct (set_range_ok (ch_free_map c) (r_start r + r_count r) (new - r_count r) (ck_bitset _ _ _ Hcok)) as (fm & Hfm & Hrange); [lia|lia|rewrite (ck_words _ _ _ Hcok); lia|].
    destruct (resize_run_ok _ c (r_start r) (r_count r) new rs' fm _ _ _ Hcok' ltac:(lia) ltac:(lia) Hrange) as (mp & Hmp & Hc').
    { right. split_and!; try done. intros k Hkr Hi. specialize (Hfree k ltac:(lia)). apply (bit_false _ _ _ k Hcok') in Hfree; [|lia]. apply Hfree, elem_of_pages_cons. by right. }
    step. cbv zeta. step; [exact Hfm|]. step; [exact Hmp|]. step; [exact Hc|]. apply wp_ret.
    replace (ZEND_MM_PAGE_SIZE * new - r_count r * ZEND_MM_PAGE_SIZE) with (ZEND_MM_PAGE_SIZE * (new - r_count r)) by lia.
    replace (ch_free_pages c - (new - r_count r)) with (ch_free_pages c + (r_count r - new)) by lia. by apply Hdone.
Qed.

(** ** Huge blocks *)

Lemma huge_chain_resize m m' p H1 node ptr (n n' : Z) H2 : huge_chain m p (H1 ++ (node, (ptr, n)) :: H2) -> apart (nodes (H1 ++ (node, (ptr, n)) :: H2)) ->
  (forall k, ~ (node + 8 <= k < node + 16) -> m' !! k = m !! k) -> word_at m' (node + 8) = Some n' ->
  huge_chain m' p (H1 ++ (node, (ptr, n')) :: H2).
Proof.
  intros Hch Hap Hf Hw. revert p Hch Hap. induction H1 as [|[n0 [p0 s0]] H1 IH]; intros p; cbn [app huge_chain nodes fmap list_fmap fst apart].
  - intros (-> & W1 & W2 & q & W3 & Hch) [Hap0 _]. rewrite Forall_forall in Hap0. split; [done|].
    rewrite (word_at_frame m _ node), (word_at_frame m _ (node + 16)) by (intros k Hk; apply Hf; lia). split; [done|]. split; [done|].
    exists q. split; [done|]. eapply huge_chain_frame; [|exact Hch]. intros a l k Hin Hk. apply Hf.
    specialize (Hap0 _ Hin). unfold apart2, NODE, SIZEOF_HUGE_LIST in Hap0. cbn [fst snd] in Hap0. lia.
  - intros (-> & W1 & W2 & q & W3 & Hch) [Hap0 Hap]. rewrite Forall_forall in Hap0.
    specialize (Hap0 (node, NODE) ltac:(apply list_elem_of_fmap; exists (node, (ptr, n)); split; [done|apply elem_of_app; right; by left])).
    unfold apart2, NODE, SIZEOF_HUGE_LIST in Hap0. cbn [fst snd] in Hap0. split; [done|].
    rewrite (word_at_frame m _ n0), (word_at_frame m _ (n0 + 8)), (word_at_frame m _ (n0 + 16)) by (intros k Hk; apply Hf; lia).
    split; [done|]. split; [done|]. exists q. split; [done|]. by apply IH.
Qed.

(** The region of the block was resized; its node follows. *)
Lemma change_size_ok h h' cs cs' m m' sys sys' G G' H1 node ptr n n' H2 leaked user drift E (Q : unit -> mstate -> Prop) :
  user_ok h cs m sys G (H1 ++ (node, (ptr, n)) :: H2) leaked user drift 0 -> heap_inv h' cs' m' sys' G' -> 0 <= n' < 2 ^ 64 ->
  blocks G' ≡ₚ blocks G -> g_huge G' ≡ₚ (ptr, n') :: (H1 ++ H2).*2 ++ leaked -> g_extra G' = g_extra G + (n' - n) -> g_rextra G' = g_rextra G + (n' - n) ->
  keeps (blocks G) m m' -> mm_huge_list h' = mm_huge_list h ->
  (forall m'', user_ok h' cs' m'' sys' G' (H1 ++ (node, (ptr, n')) :: H2) leaked user drift 0 ->
     (forall k, ~ (node <= k < node + NODE) -> m'' !! k = m' !! k) -> Q tt (mkState (Some h') cs' m'' sys')) ->
  wp (zend_mm_change_huge_block_size ptr n') (mkState (Some h') cs' m' sys') Q E.
Proof.
  intros Hu Hok' Hn' Hb' Hh' Hx' Hr' Hk Hl HQ. pose proof (nodes_apart _ _ _ _ _ _ _ _ _ _ Hu) as Hap. pose proof (nodes_nodup _ _ _ _ _ _ _ _ _ _ Hu) as Hnd.
  assert (Hin : (node, (ptr, n)) ∈ H1 ++ (node, (ptr, n)) :: H2) by (apply elem_of_app; right; by left).
  assert (Hne : (forall x, x ∈ H1 -> x.2.1 <> ptr /\ x.1 <> 0) /\ node <> 0).
  { destruct (huge_split _ _ _ _ _ _ _ _ _ _ _ _ _ Hu Hin) as (K1 & K2 & Hs & Hx0 & Hn0 & _). split; [|done].
    assert (K1 = H1) as ->; [|done]. pose proof Hnd as Hnd'. rewrite Hs in Hnd'. revert Hnd Hnd' Hs. clear. intros Hnd Hnd' Hs.
    assert (Hlen : length H1 = length K1); [|by apply app_inj_1 in Hs as [-> _]].
    apply (NoDup_lookup _ (length H1) (length K1) node Hnd); [rewrite fmap_app, lookup_app_r, length_fmap by (by rewrite length_fmap)|
      rewrite Hs, fmap_app, lookup_app_r, length_fmap by (by rewrite length_fmap)]; by rewrite Nat.sub_diag. }
  pose proof Hu as [Hok Hch Hb Hh Hx Hr].
  assert (Hch' : huge_chain m' (mm_huge_list h') (H1 ++ (node, (ptr, n)) :: H2)).
  { rewrite Hl. eapply huge_chain_frame; [|exact Hch]. eapply keeps_incl; [|exact Hk]. intros x Hx1. rewrite Hb. apply elem_of_app. by left. }
  pose proof (huge_chain_size _ _ _ Hch' Hnd) as Hlen. rewrite length_app in Hlen. cbn in Hlen.
  unfold zend_mm_change_huge_block_size. step. step. apply wp_bind.
  eapply wp_mono; [apply (find_huge_ok _ _ _ _ _ _ 0 H1 node ptr n H2 _ Hch'); [apply Hne|apply Hne|lia]|]. intros r s [-> ->]. apply wp_store64.
  set (m'' := store_bytes _ _ _).
  assert (Hf : forall k, ~ (node + 8 <= k < node + 16) -> m'' !! k = m' !! k) by (intros k Hkr; apply store_frame; lia).
  assert (Hf2 : forall k, ~ (node <= k < node + NODE) -> m'' !! k = m' !! k) by (unfold NODE, SIZEOF_HUGE_LIST; intros k Hkr; apply Hf; lia).
  assert (Hnb : (node, NODE) ∈ blocks G').
  { rewrite Hb', Hb. apply elem_of_app. left. apply list_elem_of_fmap. by exists (node, (ptr, n)). }
  apply HQ; [|done]. split; rewrite ?Hh', ?Hb'; try done.
  - by eapply write_block_inv.
  - eapply huge_chain_resize; [exact Hch'|done|done|by apply word_at_store].
  - rewrite Hb. unfold nodes. by rewrite !fmap_app, !fmap_cons.
  - rewrite !fmap_app, fmap_cons. cbn [snd]. solve_Permutation.
  - rewrite Hx', Hx, !fmap_app, !fmap_cons, !total_app, !total_cons. cbn [snd]. lia.
  - rewrite Hr', Hr, !fmap_app, !fmap_cons, !total_app, !total_cons. cbn [snd]. lia.
Qed.

(** The tail of a region is unmapped, or memory is mapped behind it. *)
Lemma shrink_region_ok h cs m sys G p n n' hs : heap_inv h cs m sys G -> g_huge G ≡ₚ (p, n) :: hs -> 0 < n' < n ->
  in_span (p + n') (n - n') (mm_main_chunk h) = false /\
  heap_inv h (unmap (p + n') (n - n') cs) (unmap (p + n') (n - n') m) (os_munmap sys (p + n') (n - n'))
    (with_regions (g_ring G) (g_cached G) ((p, n') :: hs) (g_rextra G) G) /\
  keeps (blocks G ++ (p, n') :: hs) m (unmap (p + n') (n - n') m).
Proof.
  intros Hok Hp Hn. assert (Hin : (p, n) ∈ g_huge G) by (rewrite Hp; by left).
  destruct (hk_huge_addr _ _ _ _ _ _ Hok p n Hin) as (_ & Hp0 & Hal & Hb & Hm).
  destruct (ok_drop _ _ _ _ _ _ _ _ Hok Hp) as [Hok0 Hap]. set (G0 := with_regions _ _ _ _ G) in *.
  assert (Hpos : forall x, x ∈ regions G0 -> 0 < x.2) by (intros x Hx; by eapply region_mapped).
  assert (Hap1 : forall x, x ∈ regions G0 -> apart2 x (p, n')).
  { intros x Hx. specialize (Hap x Hx). specialize (Hpos x Hx). unfold apart2 in *. cbn [fst snd] in *. lia. }
  assert (Hok1 : heap_inv h cs m sys (with_regions (g_ring G) (g_cached G) ((p, n') :: hs) (g_rextra G) G)).
  { apply (ok_add (fun _ _ => 0) h cs m sys G0 p n' Hok0 Hap1); try done; try lia. intros k Hk. apply Hm. lia. }
  apply (ok_unmap (fun _ _ => 0) h cs m sys _ (p + n') (n - n') Hok1).
  intros x [Hx|[->|Hx]%elem_of_cons]%elem_of_app; [|unfold apart2; cbn [fst snd]; lia|].
  - specialize (Hap x ltac:(apply elem_of_app; by left)). specialize (Hpos x ltac:(apply elem_of_app; by left)). unfold apart2 in *. cbn [fst snd] in *. lia.
  - specialize (Hap x ltac:(apply elem_of_app; by right)). specialize (Hpos x ltac:(apply elem_of_app; by right)). unfold apart2 in *. cbn [fst snd] in *. lia.
Qed.

Lemma grow_region_ok h cs m sys G p n n' hs : heap_inv h cs m sys G -> g_huge G ≡ₚ (p, n) :: hs -> n < n' -> (os_mremap sys p n n').2 = true ->
  heap_inv h cs m (os_mremap sys p n n').1 (with_regions (g_ring G) (g_cached G) ((p, n') :: hs) (g_rextra G) G).
Proof.
  intros Hok Hp Hn Hgrow. assert (Hin : (p, n) ∈ g_huge G) by (rewrite Hp; by left).
  destruct (hk_huge_addr _ _ _ _ _ _ Hok p n Hin) as (Hn0 & Hp0 & Hal & Hb & Hm).
  destruct (os_mremap_ok sys p n n' Hn) as [Hmono Hf]. specialize (Hf Hgrow). destruct Hf as [Hb' Hf].
  assert (Hok1 : heap_inv h cs m (os_mremap sys p n n').1 G) by (eapply ok_os; [exact Hok|]; intros; by apply Hmono).
  destruct (ok_drop _ _ _ _ _ _ _ _ Hok1 Hp) as [Hok0 Hap]. set (G0 := with_regions _ _ _ _ G) in *.
  apply (ok_add (fun _ _ => 0) h cs m _ G0 p n' Hok0); try done; try lia.
  - intros x Hx. specialize (Hap x Hx). assert (Hx' : x ∈ regions G).
    { unfold regions in *. rewrite !elem_of_app in *. destruct Hx as [Hx|Hx]; [by left|right]. rewrite Hp. by right. }
    pose proof (fresh_apart _ _ _ _ _ _ (p + n) (n' - n) Hok ltac:(lia) ltac:(intros a Ha; apply Hf; lia) x Hx') as Hap2.
    destruct (region_mapped _ _ _ _ _ _ _ Hok Hx') as [? _]. unfold apart2 in *. cbn [fst snd] in *. lia.
  - intros k Hk. destruct (Z_lt_le_dec k (p + n)); [apply Hmono, Hm; lia|apply Hf; lia].
Qed.

Lemma node_write_keeps h cs m m' sys G H1 node x H2 leaked user drift rdrift : user_ok h cs m sys G (H1 ++ (node, x) :: H2) leaked user drift rdrift ->
  (forall k, ~ (node <= k < node + NODE) -> m' !! k = m !! k) -> keeps (live (H1 ++ (node, x) :: H2) user) m m'.
Proof.
  intros Hu Hf. pose proof Hu as [Hok _ Hb Hh _ _].
  assert (HB : blocks G ≡ₚ (node, NODE) :: nodes (H1 ++ H2) ++ user).
  { rewrite Hb. unfold nodes. rewrite !fmap_app, fmap_cons. cbn [fst]. solve_Permutation. }
  eapply keeps_incl; [|by eapply write_in_block]. intros y [Hy|Hy]%elem_of_app; rewrite !elem_of_app; [right|left; by right].
  rewrite Hh. apply elem_of_app. by left.
Qed.

Lemma moved_after h m h1 m1 leaked drift rest size K p n q s : kept_caller h h1 -> mm_overflow h1 = mm_overflow h -> keeps ((p, n) :: rest) m m1 -> K <= n ->
  user_moved h1 m1 leaked drift rest size K p q s -> user_moved h m leaked drift rest size K p q s.
Proof.
  intros [? ?] ? Hk HK (h' & cs' & m' & sys' & G' & H' & user' & n' & ? & ? & ? & ? & Hk' & Hc & [? ?] & ?). exists h', cs', m', sys', G', H', user', n'.
  do 4 (split; [done|]). split; [eapply keeps_trans; [|exact Hk']; eapply keeps_incl; [|exact Hk]; intros x ?; by right|].
  split; [|split; [split|]; congruence]. intros i Hi. rewrite Hc by done. apply (Hk p n); [by left|lia].
Qed.

(** The size in the node is changed, and with it the view. *)
Lemma resized_huge_ok h h' cs cs' m m' sys sys' G G' H1 node p n n' H2 leaked user drift rest size K E :
  user_ok h cs m sys G (H1 ++ (node, (p, n)) :: H2) leaked user drift 0 -> heap_inv h' cs' m' sys' G' -> 0 <= n' < 2 ^ 64 ->
  live (H1 ++ (node, (p, n)) :: H2) user ≡ₚ (p, n) :: rest ->
  blocks G' ≡ₚ blocks G -> g_huge G' ≡ₚ (p, n') :: (H1 ++ H2).*2 ++ leaked -> g_extra G' = g_extra G + (n' - n) -> g_rextra G' = g_rextra G + (n' - n) ->
  keeps (blocks G ++ (p, Z.min n n') :: (H1 ++ H2).*2 ++ leaked) m m' -> mm_huge_list h' = mm_huge_list h -> kept_caller h h' -> mm_overflow h' = mm_overflow h ->
  size <= n' -> K <= Z.min n n' ->
  wp (zend_mm_change_huge_block_size p n';; mret p) (mkState (Some h') cs' m' sys') (user_moved h m leaked drift rest size K p) E.
Proof.
  intros Hu Hok' Hn' Hl Hb' Hh' Hx' Hr' Hk Hhl Hkc Hov Hsz HK. apply wp_bind.
  eapply (change_size_ok h h' cs cs' m m' sys sys' G G' H1 node p n n' H2 leaked user drift); try done.
  { eapply keeps_incl; [|exact Hk]. intros x ?. apply elem_of_app. by left. }
  intros m'' Hu'' Hf. apply wp_ret. pose proof (node_write_keeps h' cs' m'' m' sys' G' H1 node (p, n') H2 leaked user drift 0 Hu'') as Hk2.
  specialize (Hk2 ltac:(intros k Hkr; symmetry; by apply Hf)).
  assert (Hl' : live (H1 ++ (node, (p, n')) :: H2) user ≡ₚ (p, n') :: rest).
  { unfold live in *. rewrite !fmap_app, !fmap_cons in *. cbn [snd] in *. rewrite <- Permutation_middle in *. cbn [app] in *.
    f_equiv. by apply Permutation_cons_inv in Hl. }
  exists h', cs', m'', sys', G', (H1 ++ (node, (p, n')) :: H2), user, n'. split; [done|]. split; [done|]. split; [done|]. split; [done|].
  assert (Hrest : forall x, x ∈ rest -> x ∈ blocks G ++ (p, Z.min n n') :: (H1 ++ H2).*2 ++ leaked).
  { intros x Hx. assert (Hx1 : x ∈ (H1 ++ H2).*2 ++ user).
    { assert (Hl2 : (H1 ++ H2).*2 ++ user ≡ₚ rest).
      { apply (Permutation_cons_inv (a := (p, n))). rewrite <- Hl. unfold live. rewrite !fmap_app, fmap_cons. cbn [snd]. solve_Permutation. }
      by rewrite Hl2. }
    apply elem_of_app in Hx1 as [Hx1|Hx1]; apply elem_of_app; [right; right; apply elem_of_app; by left|left].
    rewrite (us_blocks _ _ _ _ _ _ _ _ _ _ Hu). apply elem_of_app. by right. }
  split.
  - intros a l k Hin Hkr. rewrite <- (Hk2 a l k) by (done || (rewrite Hl'; by right)). apply (Hk a l k); [by apply Hrest|done].
  - split; [|done]. intros i Hi. rewrite <- (Hk2 p n' (p + i)) by (lia || (rewrite Hl'; by left)).
    apply (Hk p (Z.min n n')); [apply elem_of_app; right; by left|lia].
Qed.

Lemma realloc_huge_ok h cs m sys G H leaked user drift node p n rest size copy : user_ok h cs m sys G H leaked user drift 0 -> (node, (p, n)) ∈ H ->
  live H user ≡ₚ (p, n) :: rest -> 0 <= copy <= size -> size + 4095 < 2 ^ 64 -> main_used G -> harmless size ->
  wp (zend_mm_realloc_huge p size copy) (mkState (Some h) cs m sys) (user_moved h m leaked drift rest size (Z.min n copy) p) (user_error h m H user).
Proof.
  intros Hu Hin Hl Hcopy Hsz Hmu Hlow. destruct (huge_split _ _ _ _ _ _ _ _ _ _ _ _ _ Hu Hin) as (H1 & H2 & EH & _ & _ & Hn & Hal & Hp0). subst H.
  set (H := H1 ++ (node, (p, n)) :: H2) in *. pose proof (us_inv _ _ _ _ _ _ _ _ _ _ Hu) as Hok.
  assert (Hhp : g_huge G ≡ₚ (p, n) :: (H1 ++ H2).*2 ++ leaked).
  { rewrite (us_huge _ _ _ _ _ _ _ _ _ _ Hu). unfold H. rewrite !fmap_app, fmap_cons. cbn [snd]. solve_Permutation. }
  assert (Hn64 : n < 2 ^ 64).
  { destruct (hk_huge_addr _ _ _ _ _ _ Hok p n ltac:(rewrite Hhp; by left)) as (_ & _ & _ & ? & _). lia. }
  unfold zend_mm_realloc_huge. apply wp_bind. eapply wp_mono; [by apply (huge_block_size_ok h cs m sys G H leaked user drift 0 node p n)|]. intros r s [-> ->].
  cbv zeta.
  assert (Hslow : wp (zend_mm_realloc_slow p size (Z.min n copy)) (mkState (Some h) cs m sys) (user_moved h m leaked drift rest size (Z.min n copy) p) (user_error h m H user)).
  { apply (realloc_slow_ok h cs m sys G H leaked user drift p n rest size); try done; lia. }
  apply wp_if; intros Hlarge; [|done]. destruct (aligned_size_ok size ltac:(lia)) as [(_ & Enew & Hfit)|[? _]]; [|lia].
  rewrite Enew. set (n' := ZEND_MM_PAGE_SIZE * pages_for size) in *. rewrite Z.ltb_lt in Hlarge.
  assert (Hn'0 : 0 < n') by (unfold ZEND_MM_MAX_LARGE_SIZE, ZEND_MM_CHUNK_SIZE, ZEND_MM_PAGE_SIZE, ZEND_MM_FIRST_PAGE in Hlarge; lia).
  destruct (Z.eqb_spec n' n) as [E0|Hne]; [|destruct (Z.ltb_spec n' n) as [Hlt|Hge]].
  - apply (resized_huge_ok h h cs cs m m sys sys G G H1 node p n n' H2 leaked user drift rest); try done; try lia. by rewrite E0.
  - (* the tail is unmapped *)
    destruct (shrink_region_ok h cs m sys G p n n' _ Hok Hhp ltac:(lia)) as (Hmain & Hok1 & Hk1). unfold zend_mm_chunk_truncate.
    apply wp_bind, wp_bind, wp_munmap; [done|]. apply wp_ret. step. step. set (G1 := with_regions _ _ _ _ G) in Hok1.
    eapply wp_mono; [apply (resized_huge_ok h _ cs _ m _ sys _ G (with_extra (g_extra G + (n' - n)) (g_rextra G + (n' - n)) G1) H1 node p n n' H2 leaked user drift rest size (Z.min n copy) (user_error h m H user) Hu)|done]; try done; try lia.
    + apply (ok_sizes _ h); [exact Hok1|done|done| |]; cbn [mm_size mm_real_size set_sizes set_real].
      * rewrite (hk_size _ _ _ _ _ _ Hok1), u64_sub_l. f_equal. cbn [g_extra G1 with_regions]. lia.
      * rewrite (hk_real _ _ _ _ _ _ Hok1), u64_sub_l. f_equal. cbn [g_rextra G1 with_regions]. lia.
    + rewrite Z.min_r by lia. exact Hk1.
  - apply wp_bind. eapply wp_conseq; [by apply (check_limit_ok h cs m sys G (n' - n) size)| |intros e s; by eapply huge_error_user].
    intros [] s (h1 & cs1 & m1 & sys1 & G1 & -> & Hok1 & (Hb1 & Hh1 & Hx1 & Hr1 & _) & Hk1 & (Hm1 & Hl1 & _ & _ & Hlim1 & Hov1) & Hmu1).
    assert (Hu1 : user_ok h1 cs1 m1 sys1 G1 H leaked user drift 0) by (eapply same_user; try done; by rewrite Hh1).
    assert (Hkl : keeps (live H user) m m1) by (eapply keeps_incl; [eapply live_mine, Hu|done]).
    assert (Hkr : keeps ((p, n) :: rest) m m1) by (eapply keeps_incl; [|exact Hkl]; intros x Hx; by rewrite Hl).
    unfold zend_mm_chunk_extend. apply wp_bind. unfold wp at 1. cbn [st_os st_heap st_chunks st_mem].
    destruct (os_mremap sys1 p n n') as [sys2 ok] eqn:Eg. destruct ok.
    + rewrite <- Hh1 in Hhp. pose proof (grow_region_ok h1 cs1 m1 sys1 G1 p n n' _ Hok1 Hhp ltac:(lia) ltac:(by rewrite Eg)) as Hok2.
      rewrite Eg in Hok2. cbn [fst] in Hok2. set (G2 := with_regions _ _ _ _ G1) in Hok2. step. step. cbv zeta.
      eapply wp_mono; [apply (resized_huge_ok h1 _ cs1 cs1 m1 m1 sys1 sys2 G1 (with_extra (g_extra G1 + (n' - n)) (g_rextra G1 + (n' - n)) G2) H1 node p n n' H2 leaked user drift rest size (Z.min n copy) (user_error h m H user) Hu1)|]; try done; try lia.
      * apply (ok_sizes _ h1); [exact Hok2|done|done| |]; cbn [mm_size mm_real_size set_sizes set_real].
        -- rewrite (hk_size _ _ _ _ _ _ Hok2), u64_add_l. f_equal. cbn [g_extra G2 with_regions]. lia.
        -- rewrite (hk_real _ _ _ _ _ _ Hok2), u64_add_l. f_equal. cbn [g_rextra G2 with_regions]. lia.
      * intros q s. apply (moved_after h m h1 m1 leaked drift rest size (Z.min n copy) p n); try done. lia.
    + (* the block moves *)
      assert (Hu2 : user_ok h1 cs1 m1 sys2 G1 H leaked user drift 0).
      { destruct Hu1 as [_ ? ? ? ? ?]. split; try done. eapply ok_os; [exact Hok1|]. intros x k _ _ Hmk.
        destruct (os_mremap_ok sys1 p n n' ltac:(lia)) as [Hmono _]. rewrite Eg in Hmono. by apply Hmono. }
      eapply wp_conseq; [apply (realloc_slow_ok h1 cs1 m1 sys2 G1 H leaked user drift p n rest size (Z.min n copy) Hu2 Hl); try done; lia| |].
      * intros q s. apply (moved_after h m h1 m1 leaked drift rest size (Z.min n copy) p n); try done. lia.
      * intros e s. by apply user_error_after.
Qed.

(** ** Any block *)

Lemma user_block_cases h cs m sys G H leaked user drift p n : user_ok h cs m sys G H leaked user drift 0 -> (p, n) ∈ live H user ->
  (exists node, (node, (p, n)) ∈ H) \/ (p, n) ∈ user.
Proof. intros Hu [([node [p' n']] & [= -> ->] & Hin)%list_elem_of_fmap|Hin]%elem_of_app; [left; by exists node|by right]. Qed.

(** A small block stays if its bin is the right one or the one above it. *)
Lemma realloc_small_ok h cs m sys G H leaked user drift p b rest size (use_copy_size : bool) copy : user_ok h cs m sys G H leaked user drift 0 ->
  live H user ≡ₚ (p, bin_size b) :: rest -> p mod ZEND_MM_CHUNK_SIZE <> 0 -> 0 <= b < 30 -> 0 <= copy <= size -> size < 2 ^ 64 -> main_used G -> harmless size ->
  wp (old_size ← lift (rd bin_data_size b);
      if size <=? old_size then
        smaller ← (if 0 <? b then below ← lift (rd bin_data_size (b - 1)); mret (size <? below) else mret false);
        if (smaller : bool) then move_small p b size (if use_copy_size then Z.min size copy else size)
        else mret p
      else if size <=? ZEND_MM_MAX_SMALL_SIZE then
        h ← get_heap;
        let orig_peak := mm_peak h in
        ret ← move_small p b size (if use_copy_size then Z.min old_size copy else old_size);
        restore_peak orig_peak;;
        mret ret
      else zend_mm_realloc_slow p size (Z.min old_size copy)) (mkState (Some h) cs m sys)
    (user_moved h m leaked drift rest size (Z.min (bin_size b) copy) p) (user_error h m H user).
Proof.
  intros Hu Hl Hm Hb Hcopy Hsz Hmu Hlow. destruct (bin_facts b Hb) as (_ & Hbs & _). destruct (bin_size_small b Hb) as [Hmax _]. step; [by apply rd_ok|].
  assert (Hmv : forall K, Z.min (bin_size b) copy <= K -> K <= bin_size b -> K <= size -> size <= ZEND_MM_MAX_SMALL_SIZE ->
    wp (move_small p b size K) (mkState (Some h) cs m sys) (user_moved h m leaked drift rest size (Z.min (bin_size b) copy) p) (user_error h m H user)).
  { intros K HK1 HK2 HK3 Hsm. destruct (bin_facts b Hb) as (_ & _ & _ & _ & ? & _).
    eapply wp_mono; [apply (move_small_ok h cs m sys G H leaked user drift p b rest size K); try done; lia|]. intros q s. apply moved_less. lia. }
  destruct (Z.leb_spec size (bin_size b)) as [Hle|Hgt].
  - assert (Hsmall : forall sm : bool, wp (if sm then move_small p b size (if use_copy_size then Z.min size copy else size) else mret p) (mkState (Some h) cs m sys)
      (user_moved h m leaked drift rest size (Z.min (bin_size b) copy) p) (user_error h m H user)).
    { intros [|].
      - apply Hmv; unfold ZEND_MM_MAX_SMALL_SIZE; destruct use_copy_size; lia.
      - apply wp_ret. by eapply (in_place h h cs cs m sys sys G G H H). }
    apply wp_bind. destruct (Z.ltb_spec 0 b).
    + destruct (bin_facts (b - 1) ltac:(lia)) as (_ & Hbs' & _). step; [by apply rd_ok|]. apply wp_ret, Hsmall.
    + apply wp_ret, (Hsmall false).
  - destruct (Z.leb_spec size ZEND_MM_MAX_SMALL_SIZE) as [Hs|Hs].
    + step. cbv zeta. apply wp_bind. eapply wp_mono; [apply Hmv; destruct use_copy_size; lia|].
      intros q s (h1 & cs1 & m1 & sys1 & G1 & H1 & user1 & n1 & -> & Hu1 & Hr). unfold restore_peak. step. apply wp_ret.
      eexists _, cs1, m1, sys1, G1, H1, user1, n1. split; [done|]. split; [by apply peak_user_ok|done].
    + destruct (bin_facts b Hb) as (_ & _ & _ & _ & ? & _). apply (realloc_slow_ok h cs m sys G H leaked user drift p (bin_size b) rest size); try done; lia.
Qed.

Lemma realloc_heap_ok h cs m sys G H leaked user drift p n rest size (use_copy_size : bool) copy : user_ok h cs m sys G H leaked user drift 0 ->
  live H user ≡ₚ (p, n) :: rest -> 0 <= copy <= size -> size + 4095 < 2 ^ 64 -> main_used G -> harmless size ->
  wp (zend_mm_realloc_heap p size use_copy_size copy) (mkState (Some h) cs m sys)
    (user_moved h m leaked drift rest size (Z.min n copy) p) (user_error h m H user).
Proof.
  intros Hu Hl Hcopy Hsz Hmu Hlow. pose proof (us_inv _ _ _ _ _ _ _ _ _ _ Hu) as Hok. assert (Hin : (p, n) ∈ live H user) by (rewrite Hl; by left).
  unfold zend_mm_realloc_heap. cbv zeta. destruct (user_block_cases _ _ _ _ _ _ _ _ _ _ _ Hu Hin) as [[node Hh]|Hus].
  { destruct (huge_split _ _ _ _ _ _ _ _ _ _ _ _ _ Hu Hh) as (_ & _ & _ & _ & _ & _ & Hal & Hp0). rewrite aligned_offset_mod, Hal, Z.eqb_refl by lia.
    rewrite (proj2 (Z.eqb_neq p 0)) by lia. by apply (realloc_huge_ok h cs m sys G H leaked user drift node p n). }
  assert (Hb : (p, n) ∈ blocks G) by (rewrite (us_blocks _ _ _ _ _ _ _ _ _ _ Hu); apply elem_of_app; by right).
  destruct (block_cases G p n Hb) as [(a & rs & r & Ha & Hr & Hk & Hp & ->)|(b & Hbr & Hused & ->)].
  - destruct (large_page _ _ _ _ _ _ _ _ Hok Ha Hr Hk) as (c & Hc & Hi & Hs & W1 & W2).
    destruct (block_offset h cs m sys G a rs p (r_start r) Hok Ha) as [Hoff Hne]; [unfold ZEND_MM_PAGE_SIZE in *; lia|done|].
    rewrite Hoff, (proj2 (Z.eqb_neq _ _) Hne). apply wp_bind. eapply page_of_ok; [exact Hok|exact Ha|exact Hc| |exact Hs|exact Hi|]; [unfold ZEND_MM_PAGE_SIZE in *; lia|].
    cbn beta iota. rewrite W1, W2. step.
    { replace (p - a) with (ZEND_MM_PAGE_SIZE * r_start r) by lia. rewrite page_offset_mod by (unfold ZEND_MM_PAGE_SIZE; lia). apply Z.eqb_eq. unfold ZEND_MM_PAGE_SIZE. dlia. }
    apply (realloc_large_ok h cs m sys G H leaked user drift a rs r c); try done.
    destruct (run_in_chunk _ _ _ _ _ _ _ _ _ Hok Ha Hr) as (_ & _ & ? & _). rewrite (Z.mul_comm (r_count r)).
    apply (realloc_slow_ok h cs m sys G H leaked user drift p (ZEND_MM_PAGE_SIZE * r_count r) rest size); try done; unfold ZEND_MM_PAGE_SIZE; lia.
  - pose proof (used_elem _ _ _ _ _ _ _ _ Hok Hbr Hused) as He. destruct (slot_page _ _ _ _ _ _ _ Hok He) as (a & rs & c & k & info & Ha & Hc & Hp & Hk & Hi & W1 & W2 & _).
    destruct (block_offset h cs m sys G a rs p k Hok Ha Hp Hk) as [Hoff Hne].
    rewrite Hoff, (proj2 (Z.eqb_neq _ _) Hne). apply wp_bind. eapply page_of_ok; [exact Hok|exact Ha|exact Hc|exact Hp|exact Hk|exact Hi|].
    cbn beta iota. rewrite W1, W2. eapply realloc_small_ok; try done; [|lia].
    destruct (hk_addr _ _ _ _ _ _ Hok a (ring_in_chunks _ _ _ Ha)) as [(Ha0 & _) _]. rewrite <- aligned_offset_mod, Hoff; [done|]. unfold ZEND_MM_PAGE_SIZE in *. lia.
Qed.
End Realloc.
