(* ===== verification/MmTheorems.v ===== *)
(** * The start of the heap, and the theorems about the entry points

    A new heap satisfies the invariant; allocation, release, size, reallocation and
    collection for the callers of the memory manager; a heap on which they run. *)

From stdpp Require Import functions.
From S2P Require Import Prelude.
From S2P Require Import MmPageOps.
From S2P Require Import MmHeapOps.
From S2P Require Import MmAllocOps.
From S2P Require Import MmChunk.
From S2P Require Import MmHeapInv.
From S2P Require Import MmHeap.
From S2P Require Import MmRing.
From S2P Require Import MmGc.
From S2P Require Import MmBlocks.
From S2P Require Import MmUser.
From S2P Require Import MmRealloc.

Section Start.
Context {OS : Os} {L : OsLaws OS} {LF : LowFree OS}.
Implicit Types (h : zend_mm_heap) (cs : gmap Z zend_mm_chunk) (m : gmap Z Z) (sys : os) (G : view) (s : mstate).

Lemma wp_munmap_none cs m sys p n (Q : unit -> mstate -> Prop) E :
  Q tt (mkState None (unmap p n cs) (unmap p n m) (os_munmap sys p n)) -> wp (zend_mm_munmap p n) (mkState None cs m sys) Q E.
Proof. done. Qed.

(** A chunk for a heap that does not exist yet. *)
Definition first_chunk (p : Z) (s : mstate) : Prop :=
  exists cs m sys, s = mkState None cs m sys /\ (p = 0 \/ chunk_addr p /\ forall k, p <= k < p + ZEND_MM_CHUNK_SIZE -> os_mapped sys k).

Lemma first_chunk_ok cs m sys E : wp (zend_mm_chunk_alloc_int ZEND_MM_CHUNK_SIZE ZEND_MM_CHUNK_SIZE) (mkState None cs m sys) first_chunk E.
Proof.
  unfold zend_mm_chunk_alloc_int. set (n := ZEND_MM_CHUNK_SIZE). assert (Hn : 0 < n) by done. apply wp_bind, wp_mmap.
  destruct (os_mmap_ok sys n Hn) as [_ Hm]. destruct (os_mmap sys n) as [sys1 p] eqn:E1. cbn [fst snd] in *.
  destruct (Z.eqb_spec p 0) as [->|Hp0]; [apply wp_ret; exists cs, m, sys1; split; [done|by left]|].
  destruct Hm as [|(Hp & Hpage & Hb & Hfresh)]; [done|]. rewrite aligned_offset_mod by lia.
  destruct (Z.eqb_spec (p mod ZEND_MM_CHUNK_SIZE) 0) as [Hal|Hal].
  { apply wp_ret. exists cs, m, sys1. split; [done|]. right. split; [done|]. intros k Hk. by apply Hfresh. }
  apply wp_bind, wp_munmap_none. apply wp_bind, wp_mmap. set (sys2 := os_munmap sys1 p n) in *.
  rewrite u64_small by (unfold n, ZEND_MM_CHUNK_SIZE, REAL_PAGE_SIZE, ZEND_MM_PAGE_SIZE; lia).
  set (n2 := n + ZEND_MM_CHUNK_SIZE - REAL_PAGE_SIZE) in *. replace (n + n - REAL_PAGE_SIZE) with n2 by done.
  assert (Hn2 : n2 = 4190208) by done. change n with 2097152 in *. change ZEND_MM_CHUNK_SIZE with 2097152 in *.
  destruct (os_mmap_ok sys2 n2 ltac:(lia)) as [_ Hm2]. destruct (os_mmap sys2 n2) as [sys3 p2] eqn:E2. cbn [fst snd] in *.
  destruct Hm2 as [->|(Hp2 & Hpage2 & Hb2 & Hfresh2)].
  { apply wp_bind, wp_ret. apply wp_bind, wp_munmap_none, wp_ret. eexists _, _, _. split; [done|by left]. }
  change REAL_PAGE_SIZE with 4096 in *.
  assert (Hao : ZEND_MM_ALIGNED_OFFSET p2 2097152 = p2 mod 2097152) by (apply (aligned_offset_mod p2); lia). rewrite Hao.
  set (r := p2 mod 2097152) in *.
  assert (Hr : 0 <= r < 2097152 /\ r mod 4096 = 0) by (unfold r; dlia).
  destruct (Z.eqb_spec r 0) as [Hr0|Hr0]; cbn [negb].
  - apply wp_bind, wp_ret. change (4096 <? 2097152) with true. cbv iota. apply wp_bind, wp_munmap_none, wp_ret.
    eexists _, _, _. split; [done|]. right. split; [split; [done|]; split; [done|unfold ZEND_MM_CHUNK_SIZE; lia]|].
    intros k Hk. apply os_munmap_ok; [apply Hfresh2; unfold ZEND_MM_CHUNK_SIZE in Hk; lia|unfold ZEND_MM_CHUNK_SIZE in Hk; lia].
  - apply wp_bind, wp_bind, wp_munmap_none, wp_ret. cbn beta iota. set (p3 := p2 + (2097152 - r)).
    replace (2097152 - (2097152 - r)) with r by lia.
    assert (Hp3 : chunk_addr p3 /\ p2 + (2097152 - r) = p3 /\ p3 + 2097152 + (r - 4096) = p2 + n2).
    { split; [|split; unfold p3; lia]. split; [unfold p3; lia|]. split; [unfold p3, r, ZEND_MM_CHUNK_SIZE; dlia|].
      assert (4096 <= r) by dlia. unfold p3, ZEND_MM_CHUNK_SIZE. lia. }
    destruct Hp3 as (Hc3 & Hp23 & Hend). assert (4096 <= r) by dlia.
    assert (Hmap : forall k, p3 <= k < p3 + ZEND_MM_CHUNK_SIZE -> os_mapped (os_munmap sys3 p2 (2097152 - r)) k).
    { intros k Hk. apply os_munmap_ok; [apply Hfresh2; unfold ZEND_MM_CHUNK_SIZE in Hk; lia|lia]. }
    apply wp_bind. destruct (Z.ltb_spec 4096 r) as [Hlt|Hge].
    + apply wp_munmap_none, wp_ret. eexists _, _, _. split; [done|]. right. split; [done|]. intros k Hk. apply os_munmap_ok; [by apply Hmap|].
      unfold ZEND_MM_CHUNK_SIZE in Hk. lia.
    + apply wp_ret, wp_ret. eexists _, _, _. split; [done|]. by right.
Qed.

(** The view of a new heap. *)
Definition new_view (chunk : Z) : view := View [(chunk, [])] [] (fun _ => []) (fun _ => []) [] 0 0.

Lemma zend_mm_init_user cs m sys E : wp zend_mm_init (mkState None cs m sys)
  (fun p s => p = 0 /\ st_heap s = None \/
     exists cs' m' sys' chunk, p = heap_slot chunk /\ s = mkState (Some (initial_heap chunk)) cs' m' sys' /\
       user_ok (initial_heap chunk) cs' m' sys' (new_view chunk) [] [] [] 0 0) E.
Proof.
  unfold zend_mm_init. apply wp_bind. eapply wp_mono; [apply first_chunk_ok|]. intros p s (cs1 & m1 & sys1 & -> & Hp).
  destruct (Z.eqb_spec p 0) as [->|Hp0]; [apply wp_ret; by left|]. destruct Hp as [|[Ha Hm]]; [done|].
  apply wp_bind. unfold wp at 1, map_header. cbn [st_heap st_chunks st_mem st_os]. set (cs2 := <[p := zero_chunk]> cs1).
  step; [apply lookup_insert_eq|]. step; [apply lookup_insert_eq|]. set (c := set_links p p _).
  destruct (chunk_init_pages_ok (fun _ => 0) c) as (c' & Hc' & (Hh & Hn & Hpv & _) & Hcok & _); [apply zero_chunk_clean|].
  step; [exact Hc'|]. step; [apply lookup_insert_eq|]. apply wp_bind. unfold wp at 1, start_heap. cbn [st_heap st_chunks st_mem st_os]. apply wp_ret.
  right. eexists _, m1, sys1, p. split; [done|]. split; [done|]. split; try done.
  - split; cbn [new_view g_ring g_cached g_free g_used g_huge g_extra g_rextra initial_heap mm_main_chunk mm_cached_chunks mm_free_slot]; try done.
    + cbn. rewrite lookup_insert_eq. cbn. by rewrite Hn, Hpv.
    + cbn. apply NoDup_singleton.
    + intros a Ha1. cbn in Ha1. apply list_elem_of_singleton in Ha1 as ->. done.
    + intros a rs Ha1. apply list_elem_of_singleton in Ha1 as [= -> ->]. rewrite lookup_insert_eq. eexists. split; [done|]. split; [cbn; by rewrite Hh|].
      by destruct Hcok.
    + intros b Hb. exists 0. split; [|done]. by apply (zget_replicate 30).
    + by intros p1 n1 ?%elem_of_nil.
    + by intros x a ?%elem_of_nil.
Qed.

(** ** The entry points *)

(** A new heap: one chunk, without blocks; or no memory, and no heap. *)
Theorem zend_mm_init_correct cs m sys :
  match zend_mm_init (mkState None cs m sys) with
  | MOk p s => p = 0 /\ st_heap s = None \/
      exists cs' m' sys' chunk, p = heap_slot chunk /\ s = mkState (Some (initial_heap chunk)) cs' m' sys' /\
        user_ok (initial_heap chunk) cs' m' sys' (new_view chunk) [] [] [] 0 0
  | _ => False
  end.
Proof. exact (zend_mm_init_user cs m sys (fun _ _ => False)). Qed.

(** C29: Allocation returns a block of at least the size asked for, which overlaps no block
    in use, and leaves the contents of those alone; the invariant holds afterwards. If
    it fails, with one of the documented errors, all blocks are still there and the
    invariant holds too. Any call of the operating system may fail. The conditions: a
    block in use lies in the main chunk, or the block is found without a collection,
    which otherwise might delete that chunk; and the addresses that the code unmaps when
    its second call of mmap fails are below those of the heap: 2 MiB to 4 MiB for a new
    chunk (LowFree), and 2 MiB from the rounded size on for a huge block (harmless). *)
Theorem zend_mm_alloc_correct h cs m sys G H leaked user drift size : user_ok h cs m sys G H leaked user drift 0 -> 0 <= size < 2 ^ 64 ->
  main_used G \/ no_collection G size -> harmless size ->
  wp (_zend_mm_alloc size) (mkState (Some h) cs m sys)
    (fun p s => user_new h m H leaked user drift size p s /\ exists n, size <= n /\ forall x, x ∈ live H user -> apart2 (p, n) x)
    (user_error h m H user).
Proof.
  intros Hu Hs Hr Hlow. eapply wp_mono; [by apply (alloc_heap_ok 0 h cs m sys G H leaked user drift size)|]. intros p s Hn. split; [done|].
  destruct Hn as (h' & cs' & m' & sys' & G' & H' & user' & n & _ & Hu' & Hl & Hsz & _). exists n. split; [done|].
  pose proof (live_apart _ _ _ _ _ _ _ _ _ _ Hu') as Ha. rewrite Hl in Ha. destruct Ha as [Ha _]. by rewrite Forall_forall in Ha.
Qed.

(** C30: Release of any block in use, of whatever class: it is gone, the others stay. *)
Theorem zend_mm_free_correct h cs m sys G H leaked user drift p n rest : user_ok h cs m sys G H leaked user drift 0 -> live H user ≡ₚ (p, n) :: rest ->
  wp (_zend_mm_free p) (mkState (Some h) cs m sys)
    (fun _ s => exists H' user', live H' user' ≡ₚ rest /\ user_freed h m H' leaked user' drift s) (fun _ _ => False).
Proof. apply (free_heap_ok 0). Qed.

(** C31: Reallocation, in place, by growing into free pages or by moving: the block has the
    new size and begins with the first [min(old size, copy_size)] bytes of the old one;
    the other blocks stay. If it fails, the old block is still there. Any call of the
    operating system may fail. The conditions: the number of bytes to copy is at most the
    new size; the new size is at most 2^64 - 4096, as a larger one wraps to zero when it
    is rounded up to pages; a block in use lies in the main chunk, which a collection
    otherwise may delete; and the addresses that the code unmaps when its second call of
    mmap fails are below those of the heap: 2 MiB to 4 MiB for a new chunk (LowFree), and
    2 MiB from the rounded size on for a huge block (harmless). *)
Theorem zend_mm_realloc_correct h cs m sys G H leaked user drift p n rest size use_copy_size copy : user_ok h cs m sys G H leaked user drift 0 ->
  live H user ≡ₚ (p, n) :: rest -> 0 <= copy <= size -> size + 4095 < 2 ^ 64 -> main_used G -> harmless size ->
  wp (zend_mm_realloc_heap p size use_copy_size copy) (mkState (Some h) cs m sys)
    (user_moved h m leaked drift rest size (Z.min n copy) p) (user_error h m H user).
Proof. apply realloc_heap_ok. Qed.

(** The blocks in use do not overlap, and the size of each is known from its address. *)
Theorem zend_mm_block_size_correct h cs m sys G H leaked user drift : user_ok h cs m sys G H leaked user drift 0 ->
  apart (live H user) /\ forall p n, (p, n) ∈ live H user -> _zend_mm_block_size p (mkState (Some h) cs m sys) = MOk n (mkState (Some h) cs m sys).
Proof.
  intros Hu. split; [by eapply live_apart|]. intros p n Hin. pose proof (size_ok h cs m sys G H leaked user drift p n (fun _ _ => False) Hu Hin) as Hw.
  unfold wp, _zend_mm_block_size in *. by destruct (zend_mm_size p _) as [r s|e s|]; [destruct Hw as [-> ->]|..].
Qed.

(** C32: When a block in use lies in the main chunk, the collection returns exactly the pages
    of the runs whose slots are all free, and says how many bytes that are; the callers'
    blocks and their contents stay. Runs of the first bin are an exception: their 512
    slots do not fit in the counter. (Without a block in the main chunk the collection
    may delete that chunk, and the heap with it.) *)
Theorem zend_mm_gc_correct h cs m sys G H leaked user drift : user_ok h cs m sys G H leaked user drift 0 -> main_used G ->
  wp zend_mm_gc (mkState (Some h) cs m sys)
    (fun n s => exists h' cs' m' sys' G', s = mkState (Some h') cs' m' sys' /\ user_ok h' cs' m' sys' G' H leaked user drift 0 /\
       keeps (live H user) m m' /\ 0 <= n /\ n = ZEND_MM_PAGE_SIZE * (used_pages (g_ring G) - used_pages (g_ring G')) /\
       forall a r, has_run G' a r <-> has_run G a r /\ ~ all_free G a r)
    (fun _ _ => False).
Proof.
  intros Hu Hmu. eapply wp_mono; [by apply zend_mm_gc_ok; [apply (us_inv _ _ _ _ _ _ _ _ _ _ Hu)|]|].
  intros n s (h' & cs' & m' & sys' & G' & -> & Hok & Hb & Hh & Hx & Hr & _ & Hk & (? & ? & _) & Hn & Hn0 & _ & Hrun).
  exists h', cs', m', sys', G'. split; [done|]. split; [eapply same_user; try done; by rewrite Hh|]. split; [|done].
  eapply keeps_incl; [by eapply live_mine|done].
Qed.

(** The search in a chunk finds the start of the smallest hole that is large enough, or
    says that there is none. *)
Theorem zend_mm_best_fit_correct cnt c rs pages_count : chunk_ok cnt c rs -> 0 < pages_count <= 512 ->
  exists r, best_fit c pages_count = Ok r /\ search_runs cnt c rs pages_count r.
Proof. apply best_fit_ok. Qed.

(** Every small size has a bin whose slots are large enough, and the bin before it is
    too small. *)
Theorem zend_mm_small_size_to_bin_correct size : 0 <= size <= ZEND_MM_MAX_SMALL_SIZE ->
  exists b, zend_mm_small_size_to_bin size = Ok b /\ 0 <= b < 30 /\ size <= bin_size b /\ (b = 0 \/ bin_size (b - 1) < size).
Proof. apply small_size_to_bin_ok. Qed.
End Start.

(** ** A heap to run *)

#[export] Instance bump_laws : OsLaws bump_os.
Proof.
  assert (Hb : forall next, 4 * ZEND_MM_CHUNK_SIZE <= bump_base next /\ next <= bump_base next /\ bump_base next mod ZEND_MM_CHUNK_SIZE = 0).
  { intros next. unfold bump_base. pose proof (Z.div_mod (next + ZEND_MM_CHUNK_SIZE - 1) ZEND_MM_CHUNK_SIZE ltac:(done)) as Hd.
    pose proof (Z.mod_pos_bound (next + ZEND_MM_CHUNK_SIZE - 1) ZEND_MM_CHUNK_SIZE ltac:(done)).
    split; [|split]; [unfold ZEND_MM_CHUNK_SIZE in *; lia..|]. apply Z.mod_mul. done. }
  refine {| os_mapped := fun (next : @os bump_os) a => 4 * ZEND_MM_CHUNK_SIZE <= a < (next : Z); os_base := 4 * ZEND_MM_CHUNK_SIZE |}; cbn [os os_mmap os_munmap os_mremap bump_os].
  - intros next n Hn. destruct (Hb next) as (H1 & H2 & H3). destruct (Z.leb_spec (bump_base next + n) (2 ^ 47)); cbn [fst snd].
    + split; [intros a Ha; lia|]. right. split; [unfold ZEND_MM_CHUNK_SIZE in *; lia|]. split; [|split; [done|intros a Ha; lia]].
      unfold REAL_PAGE_SIZE, ZEND_MM_PAGE_SIZE, ZEND_MM_CHUNK_SIZE in *. dlia.
    + split; [done|by left].
  - done.
  - intros next p old n Hn. split; [done|]. cbn. done.
  - intros next a Ha. lia.
Defined.

#[export] Instance bump_low : LowFree bump_os.
Proof. done. Qed.

Lemma small_harmless size : size <= ZEND_MM_MAX_LARGE_SIZE -> harmless (OS := bump_os) size.
Proof. by left. Qed.

(** A system that hands out one address, which is not aligned, and nothing after that; it
    records what is unmapped. The code does not test the result of its second call: it
    unmaps addresses below 4 MiB, and then reports that there is no memory. *)
Definition miser_os : Os := {|
  os := list (Z * Z);
  os_mmap log size := (log, match log with [] => 2 ^ 40 + REAL_PAGE_SIZE | _ => 0 end);
  os_munmap log p n := log ++ [(p, n)];
  os_mremap log _ _ _ := (log, false);
|}.
Lemma second_mmap_unchecked : zend_mm_chunk_alloc_int (OS := miser_os) ZEND_MM_CHUNK_SIZE ZEND_MM_CHUNK_SIZE (@mkState miser_os None ∅ ∅ []) =
  MOk 0 (@mkState miser_os None ∅ ∅ [(2 ^ 40 + REAL_PAGE_SIZE, ZEND_MM_CHUNK_SIZE); (ZEND_MM_CHUNK_SIZE, ZEND_MM_CHUNK_SIZE - REAL_PAGE_SIZE)]).
Proof. by vm_compute. Qed.

Definition first : Z := 2 ^ 40.
Definition block : Z := first + ZEND_MM_PAGE_SIZE.

(** The heap after the start. *)
Lemma demo_start : exists cs m (sys : @os bump_os),
  zend_mm_init (OS := bump_os) bump_start = MOk (heap_slot first) (mkState (Some (initial_heap first)) cs m sys) /\
  user_ok (initial_heap first) cs m sys (new_view first) [] [] [] 0 0.
Proof.
  pose proof (zend_mm_init_user (OS := bump_os) ∅ ∅ (st_os bump_start) (fun _ _ => False)) as Hw. unfold wp in Hw. change (mkState None ∅ ∅ _) with bump_start in Hw.
  assert (Hp : match zend_mm_init bump_start with MOk p _ => p =? heap_slot first | _ => false end = true) by (by vm_compute).
  destruct (zend_mm_init bump_start) as [p s|e s|]; try done. apply Z.eqb_eq in Hp. destruct Hw as [[-> _]|(cs & m & sys & chunk & -> & -> & Hu)].
  - done.
  - assert (chunk = first) as -> by (unfold heap_slot in Hp; lia). by exists cs, m, sys.
Qed.

Lemma new_no_collection chunk size : 0 <= size <= ZEND_MM_MAX_SMALL_SIZE -> no_collection (new_view chunk) size.
Proof.
  intros Hs. unfold no_collection. destruct (Z.leb_spec size ZEND_MM_MAX_SMALL_SIZE); [|lia]. intros b n Hb Hn. right.
  destruct (small_size_to_bin_ok size Hs) as (b' & Hb' & Hb0 & _). rewrite Hb in Hb'. injection Hb' as <-.
  assert (Hr : 0 < n <= 511).
  { pose proof (all_in_range (fun b => match zget bin_pages b with Some n => (0 <? n) && (n <=? 511) | None => false end) 0 30 b) as Hall.
    cbv beta in Hall. rewrite Hn in Hall. destruct (andb_prop _ _ (Hall ltac:(by vm_compute) ltac:(lia))) as [H1 H2]. apply Z.ltb_lt in H1. apply Z.leb_le in H2. lia. }
  exists (chunk, []), 1. split; [by left|]. split; [done|]. split; [unfold ZEND_MM_FIRST_PAGE, ZEND_MM_PAGES in *; lia|]. intros k _ Hk. by apply not_elem_of_nil in Hk.
Qed.

(** The heap with one block of 100 bytes in use. *)
Lemma demo_alloc : exists h cs m (sys : @os bump_os) G n,
  user_ok h cs m sys G [] [] [(block, n)] 0 0 /\ main_used G.
Proof.
  destruct demo_start as (cs & m & sys & Hrun & Hu).
  pose proof (alloc_heap_ok 0 _ _ _ _ _ _ _ _ _ 100 Hu ltac:(lia) (or_intror (new_no_collection first 100 ltac:(done))) (small_harmless 100 ltac:(done))) as Hw.
  change (alloc_heap_fuel 2 100) with (_zend_mm_alloc (OS := bump_os) 100) in Hw.
  assert (Hc : match zend_mm_init bump_start with
               | MOk _ s => match _zend_mm_alloc 100 s with
                            | MOk p (mkState (Some h) _ _ _) => (p =? block) && (mm_main_chunk h =? first) && (mm_huge_list h =? 0)
                            | _ => false end
               | _ => false end = true) by (by vm_compute).
  rewrite Hrun in Hc. unfold wp in Hw. destruct (_zend_mm_alloc 100 _) as [p s|e s|] eqn:E1; [|done..].
  destruct Hw as (h & cs' & m' & sys' & G & H & user & n & -> & Hu' & Hl & Hn & _).
  apply andb_prop in Hc as [[->%Z.eqb_eq Hm%Z.eqb_eq]%andb_prop Hh%Z.eqb_eq].
  pose proof (us_chain _ _ _ _ _ _ _ _ _ _ Hu') as Hch. rewrite Hh in Hch.
  pose proof (us_inv _ _ _ _ _ _ _ _ _ _ Hu') as Hok.
  assert (H = []) as ->.
  { destruct H as [|[node [q sz]] H]; [done|]. destruct Hch as (Hz & _). 
    destruct (block_aligned _ _ _ _ _ node NODE Hok) as [? _]; [rewrite (us_blocks _ _ _ _ _ _ _ _ _ _ Hu'); by left|lia]. }
  cbn in Hl. apply Permutation_singleton_r in Hl as ->.
  exists h, cs', m', sys', G, n. split; [done|].
  pose proof (hk_ring _ _ _ _ _ _ Hok) as Hring. unfold main_used. destruct (g_ring G) as [|[a rs] rest]; [done|]. destruct Hring as [Ha _].
  exists a, rs, rest, (block, n). split; [reflexivity|]. split; [rewrite (us_blocks _ _ _ _ _ _ _ _ _ _ Hu'); by left|].
  cbn in Ha. rewrite Ha, Hm. unfold block, ZEND_MM_PAGE_SIZE, ZEND_MM_CHUNK_SIZE. cbn [fst]. lia.
Qed.

Lemma zend_mm_alloc_correct_witness : exists cs m (sys : @os bump_os),
  zend_mm_init (OS := bump_os) bump_start = MOk (heap_slot first) (mkState (Some (initial_heap first)) cs m sys) /\
  wp (_zend_mm_alloc (OS := bump_os) 100) (mkState (Some (initial_heap first)) cs m sys)
    (fun p s => user_new (initial_heap first) m [] [] [] 0 100 p s /\ exists n, 100 <= n /\ forall x, x ∈ live [] [] -> apart2 (p, n) x)
    (user_error (initial_heap first) m [] []).
Proof.
  destruct demo_start as (cs & m & sys & Hrun & Hu). exists cs, m, sys. split; [done|].
  apply (zend_mm_alloc_correct _ _ _ _ _ _ _ _ _ _ Hu); [lia| |by apply small_harmless]. right. by apply new_no_collection.
Defined.

Lemma zend_mm_free_correct_witness : exists h cs m (sys : @os bump_os) G n, user_ok h cs m sys G [] [] [(block, n)] 0 0 /\
  wp (_zend_mm_free (OS := bump_os) block) (mkState (Some h) cs m sys)
    (fun _ s => exists H' user', live H' user' ≡ₚ [] /\ user_freed h m H' [] user' 0 s) (fun _ _ => False).
Proof.
  destruct demo_alloc as (h & cs & m & sys & G & n & Hu & Hmu). exists h, cs, m, sys, G, n. split; [exact Hu|].
  apply (zend_mm_free_correct h cs m sys G [] [] [(block, n)] 0 block n []); [exact Hu|done].
Defined.

Lemma zend_mm_realloc_correct_witness : exists h cs m (sys : @os bump_os) G n, user_ok h cs m sys G [] [] [(block, n)] 0 0 /\ main_used G /\
  wp (zend_mm_realloc_heap (OS := bump_os) block 5000 true 64) (mkState (Some h) cs m sys)
    (user_moved h m [] 0 [] 5000 (Z.min n 64) block) (user_error h m [] [(block, n)]).
Proof.
  destruct demo_alloc as (h & cs & m & sys & G & n & Hu & Hmu). exists h, cs, m, sys, G, n. split; [exact Hu|]. split; [exact Hmu|].
  apply (zend_mm_realloc_correct h cs m sys G [] [] [(block, n)] 0 block n []); [exact Hu|done|lia|lia|exact Hmu|by apply small_harmless].
Defined.

Lemma zend_mm_block_size_correct_witness : exists h cs m (sys : @os bump_os) G n, user_ok h cs m sys G [] [] [(block, n)] 0 0 /\
  _zend_mm_block_size (OS := bump_os) block (mkState (Some h) cs m sys) = MOk n (mkState (Some h) cs m sys).
Proof.
  destruct demo_alloc as (h & cs & m & sys & G & n & Hu & Hmu). exists h, cs, m, sys, G, n. split; [exact Hu|].
  apply (proj2 (zend_mm_block_size_correct h cs m sys G [] [] [(block, n)] 0 Hu)). by left.
Defined.

Lemma zend_mm_gc_correct_witness : exists h cs m (sys : @os bump_os) G n, user_ok h cs m sys G [] [] [(block, n)] 0 0 /\ main_used G /\
  wp (zend_mm_gc (OS := bump_os)) (mkState (Some h) cs m sys)
    (fun k s => exists h' cs' m' sys' G', s = mkState (Some h') cs' m' sys' /\ user_ok h' cs' m' sys' G' [] [] [(block, n)] 0 0 /\
       keeps [(block, n)] m m' /\ 0 <= k /\ k = ZEND_MM_PAGE_SIZE * (used_pages (g_ring G) - used_pages (g_ring G')) /\
       forall a r, has_run G' a r <-> has_run G a r /\ ~ all_free G a r)
    (fun _ _ => False).
Proof.
  destruct demo_alloc as (h & cs & m & sys & G & n & Hu & Hmu). exists h, cs, m, sys, G, n. split; [exact Hu|]. split; [exact Hmu|].
  apply (zend_mm_gc_correct h cs m sys G [] [] [(block, n)] 0 Hu Hmu).
Defined.

Lemma zend_mm_best_fit_correct_witness : exists cnt c rs r, chunk_ok cnt c rs /\
  best_fit c 3 = Ok r /\ search_runs cnt c rs 3 r.
Proof.
  destruct (chunk_init_pages_ok (fun _ => 0) zero_chunk zero_chunk_clean) as (c & _ & _ & Hok & _).
  destruct (zend_mm_best_fit_correct _ c _ 3 Hok) as (r & Hr); [lia|]. exists (fun _ => 0), c, [], r. by split.
Defined.

Lemma zend_mm_small_size_to_bin_correct_witness :
  exists b, zend_mm_small_size_to_bin 100 = Ok b /\ 0 <= b < 30 /\ 100 <= bin_size b /\ (b = 0 \/ bin_size (b - 1) < 100).
Proof. apply (zend_mm_small_size_to_bin_correct 100). unfold ZEND_MM_MAX_SMALL_SIZE. lia. Defined.
