(* ===== verification/GcOps.v ===== *)
(** * The collector of cycles: data and operations (Zend/zend_gc.c, zend_gc.h)

    Refcounted values are cells with an address; of their contents the collector sees
    the values they refer to, as [get_gc] and the tables give them. The buffer of
    possible roots is an array of tagged pointers. Handlers of objects are parameters. *)

From S2P Require Import Prelude.

(** ** Constants and bit fields *)

Definition GC_ADDRESS : Z := 0x0fffff.
Definition GC_COLOR : Z := 0x300000.
Definition GC_BLACK : Z := 0x000000.
Definition GC_WHITE : Z := 0x100000.
Definition GC_GREY : Z := 0x200000.
Definition GC_PURPLE : Z := 0x300000.

Definition GC_BITS : Z := 3.
Definition GC_ROOT : Z := 0.
Definition GC_UNUSED : Z := 1.
Definition GC_GARBAGE : Z := 2.
Definition GC_DTOR_GARBAGE : Z := 3.

Definition GC_GET_PTR (p : Z) : Z := Z.land p (Z.lnot GC_BITS).
Definition GC_IS_ROOT (p : Z) : bool := Z.land p GC_BITS =? GC_ROOT.
Definition GC_IS_UNUSED (p : Z) : bool := Z.land p GC_BITS =? GC_UNUSED.
Definition GC_IS_GARBAGE (p : Z) : bool := Z.land p GC_BITS =? GC_GARBAGE.
Definition GC_IS_DTOR_GARBAGE (p : Z) : bool := Z.land p GC_BITS =? GC_DTOR_GARBAGE.
Definition GC_MAKE_GARBAGE (p : Z) : Z := Z.lor p GC_GARBAGE.
Definition GC_MAKE_DTOR_GARBAGE (p : Z) : Z := Z.lor p GC_DTOR_GARBAGE.

(** [sizeof(void* )] is 8. *)
Definition GC_IDX2LIST (idx : Z) : Z := Z.lor (idx * 8) GC_UNUSED.
Definition GC_LIST2IDX (list : Z) : Z := u32 list / 8.

Definition GC_INVALID : Z := 0.
Definition GC_FIRST_ROOT : Z := 1.
Definition GC_DEFAULT_BUF_SIZE : Z := 16 * 1024.
Definition GC_BUF_GROW_STEP : Z := 128 * 1024.
Definition GC_MAX_UNCOMPRESSED : Z := 512 * 1024.
Definition GC_MAX_BUF_SIZE : Z := 0x40000000.
Definition GC_THRESHOLD_DEFAULT : Z := 10000 + GC_FIRST_ROOT.
Definition GC_THRESHOLD_STEP : Z := 10000.
Definition GC_THRESHOLD_MAX : Z := 1000000000.
Definition GC_THRESHOLD_TRIGGER : Z := 100.
Definition GC_HAS_DESTRUCTORS : Z := 1.

(** ** Cells *)

(** A zval: with [Z_REFCOUNTED] its counted value, and whether it is collectable. *)
Inductive gc_zval : Type :=
| ZPlain
| ZCounted (ref : Z) (collectable : bool).
(** An element of a hash; [IS_INDIRECT] points to a zval elsewhere. *)
Inductive gc_bucket : Type :=
| BDirect (zv : gc_zval)
| BIndirect (zv : gc_zval).
Inductive gc_table : Type :=
| Packed (zvals : list gc_zval)
| Hashed (buckets : list gc_bucket).

Inductive gc_type : Type := IS_NULL | IS_ARRAY | IS_OBJECT | IS_REFERENCE | IS_LEAF.
#[export] Instance gc_type_eq_dec : EqDecision gc_type.
Proof. solve_decision. Defined.

(** Of an object: what [get_gc] returns (a table of zvals, perhaps a hash), whether it
    has a destructor of its own, and the offset of the object in its allocation. *)
Inductive gc_body : Type :=
| ArrayBody (t : gc_table)
| ObjectBody (table : list gc_zval) (ht : option Z) (dtor : bool) (offset : Z)
| ReferenceBody (zv : gc_zval)
| LeafBody.

(** [GC_INFO] is the upper part of [GC_TYPE_INFO]: a color and an address. *)
Record zend_refcounted : Type := mkRef {
  rc_count : Z;
  rc_type : gc_type;
  rc_not_collectable : bool;
  rc_info : Z;
  rc_dtor_called : bool;
  rc_free_called : bool;
  rc_body : gc_body
}.

Definition set_rc (n : Z) (c : zend_refcounted) : zend_refcounted :=
  mkRef n (rc_type c) (rc_not_collectable c) (rc_info c) (rc_dtor_called c) (rc_free_called c) (rc_body c).
Definition set_info (i : Z) (c : zend_refcounted) : zend_refcounted :=
  mkRef (rc_count c) (rc_type c) (rc_not_collectable c) i (rc_dtor_called c) (rc_free_called c) (rc_body c).
Definition set_null (c : zend_refcounted) : zend_refcounted :=
  mkRef (rc_count c) IS_NULL true (rc_info c) (rc_dtor_called c) (rc_free_called c) (rc_body c).
Definition set_dtor_called (c : zend_refcounted) : zend_refcounted :=
  mkRef (rc_count c) (rc_type c) (rc_not_collectable c) (rc_info c) true (rc_free_called c) (rc_body c).
Definition set_free_called (c : zend_refcounted) : zend_refcounted :=
  mkRef (rc_count c) (rc_type c) (rc_not_collectable c) (rc_info c) (rc_dtor_called c) true (rc_body c).

Definition GC_REF_ADDRESS (c : zend_refcounted) : Z := Z.land (rc_info c) GC_ADDRESS.
Definition GC_REF_COLOR (c : zend_refcounted) : Z := Z.land (rc_info c) GC_COLOR.
Definition GC_REF_CHECK_COLOR (c : zend_refcounted) (color : Z) : bool := GC_REF_COLOR c =? color.
Definition GC_REF_SET_INFO (info : Z) (c : zend_refcounted) : zend_refcounted := set_info info c.
Definition GC_REF_SET_COLOR (color : Z) (c : zend_refcounted) : zend_refcounted :=
  set_info (Z.lor (Z.land (rc_info c) (Z.lnot GC_COLOR)) color) c.
Definition GC_REF_SET_BLACK (c : zend_refcounted) : zend_refcounted :=
  set_info (Z.land (rc_info c) (Z.lnot GC_COLOR)) c.
Definition GC_MAY_LEAK (c : zend_refcounted) : bool := (rc_info c =? 0) && negb (rc_not_collectable c).

(** ** State *)

Record zend_gc_globals : Type := mkGlobals {
  gc_buf : list Z;
  gc_enabled_ : bool;
  gc_active : bool;
  gc_protected_ : bool;
  gc_full : bool;
  gc_unused : Z;
  gc_first_unused : Z;
  gc_threshold : Z;
  gc_buf_size : Z;
  gc_num_roots : Z;
  gc_runs : Z;
  gc_collected : Z
}.

Definition set_buf (buf : list Z) (size : Z) (g : zend_gc_globals) : zend_gc_globals :=
  mkGlobals buf (gc_enabled_ g) (gc_active g) (gc_protected_ g) (gc_full g) (gc_unused g) (gc_first_unused g)
    (gc_threshold g) size (gc_num_roots g) (gc_runs g) (gc_collected g).
Definition set_gc_flags (enabled active protected full : bool) (g : zend_gc_globals) : zend_gc_globals :=
  mkGlobals (gc_buf g) enabled active protected full (gc_unused g) (gc_first_unused g)
    (gc_threshold g) (gc_buf_size g) (gc_num_roots g) (gc_runs g) (gc_collected g).
Definition set_active (active : bool) (g : zend_gc_globals) : zend_gc_globals :=
  set_gc_flags (gc_enabled_ g) active (gc_protected_ g) (gc_full g) g.
Definition set_unused (unused first_unused num_roots : Z) (g : zend_gc_globals) : zend_gc_globals :=
  mkGlobals (gc_buf g) (gc_enabled_ g) (gc_active g) (gc_protected_ g) (gc_full g) unused first_unused
    (gc_threshold g) (gc_buf_size g) num_roots (gc_runs g) (gc_collected g).
Definition set_threshold (threshold : Z) (g : zend_gc_globals) : zend_gc_globals :=
  mkGlobals (gc_buf g) (gc_enabled_ g) (gc_active g) (gc_protected_ g) (gc_full g) (gc_unused g) (gc_first_unused g)
    threshold (gc_buf_size g) (gc_num_roots g) (gc_runs g) (gc_collected g).
Definition set_stats (runs collected : Z) (g : zend_gc_globals) : zend_gc_globals :=
  mkGlobals (gc_buf g) (gc_enabled_ g) (gc_active g) (gc_protected_ g) (gc_full g) (gc_unused g) (gc_first_unused g)
    (gc_threshold g) (gc_buf_size g) (gc_num_roots g) runs collected.

Notation cells := (gmap Z zend_refcounted).
Record gc_state : Type := mkGc { gs_cells : cells; gs_gc : zend_gc_globals }.

Definition GC (A : Type) : Type := gc_state -> res (A * gc_state).
#[export] Instance GC_ret : MRet GC := fun A a s => Ok (a, s).
#[export] Instance GC_bind : MBind GC := fun A B f m s => '(a, s) ← m s; f a s.

Definition gc_ub {A} : GC A := fun _ => Ub.
Definition gc_assert (b : bool) : GC unit := if b then mret tt else gc_ub.
Definition gc_lift {A} (r : res A) : GC A := fun s => a ← r; Ok (a, s).
Definition globals : GC zend_gc_globals := fun s => Ok (gs_gc s, s).
Definition upd (f : zend_gc_globals -> zend_gc_globals) : GC unit := fun s => Ok (tt, mkGc (gs_cells s) (f (gs_gc s))).
Definition cell (ref : Z) : GC zend_refcounted := fun s =>
  match gs_cells s !! ref with Some c => Ok (c, s) | None => Ub end.
Definition upd_cell (ref : Z) (f : zend_refcounted -> zend_refcounted) : GC unit := fun s =>
  match gs_cells s !! ref with Some c => Ok (tt, mkGc (<[ref := f c]> (gs_cells s)) (gs_gc s)) | None => Ub end.
Definition cell_fuel : GC nat := fun s => Ok (S (size (gs_cells s)), s).

Definition GC_ADDREF (ref : Z) : GC unit := upd_cell ref (fun c => set_rc (u32 (rc_count c + 1)) c).
Definition GC_DELREF (ref : Z) : GC Z :=
  upd_cell ref (fun c => set_rc (u32 (rc_count c - 1)) c);;
  c ← cell ref; mret (rc_count c).

(** ** The stack of the traversals *)

Definition GC_STACK_SEGMENT_SIZE : Z := 4096 / 8 - 2.

(** The segments of the list, the first one of this stack ([prev] is NULL), the one
    in use, and [_top]. *)
Record gc_stack : Type := mkStack {
  sg_segments : list (list Z);
  sg_base : Z;
  sg_cur : Z;
  sg_top : Z
}.

Definition gc_stack_next (s : gc_stack) : gc_stack :=
  if zlen (sg_segments s) <=? sg_cur s + 1
  then mkStack (sg_segments s ++ [replicate (Z.to_nat GC_STACK_SEGMENT_SIZE) 0]) (sg_base s) (sg_cur s) (sg_top s)
  else s.

Definition gc_stack_push (ref : Z) (s : gc_stack) : res gc_stack :=
  let s :=
    if sg_top s =? GC_STACK_SEGMENT_SIZE then
      let s := gc_stack_next s in mkStack (sg_segments s) (sg_base s) (sg_cur s + 1) 0
    else s in
  seg ← rd (sg_segments s) (sg_cur s);
  seg ← wr seg (sg_top s) ref;
  segs ← wr (sg_segments s) (sg_cur s) seg;
  Ok (mkStack segs (sg_base s) (sg_cur s) (sg_top s + 1)).

Definition gc_stack_pop (s : gc_stack) : res (option Z * gc_stack) :=
  if sg_top s =? 0 then
    if sg_cur s =? sg_base s then Ok (None, s)
    else
      let cur := sg_cur s - 1 in
      seg ← rd (sg_segments s) cur;
      ref ← rd seg (GC_STACK_SEGMENT_SIZE - 1);
      Ok (Some ref, mkStack (sg_segments s) (sg_base s) cur (GC_STACK_SEGMENT_SIZE - 1))
  else
    seg ← rd (sg_segments s) (sg_cur s);
    ref ← rd seg (sg_top s - 1);
    Ok (Some ref, mkStack (sg_segments s) (sg_base s) (sg_cur s) (sg_top s - 1)).

(** gc_scan: the tail of the list of segments serves as the stack of gc_scan_black. *)
Definition gc_stack_split (s : gc_stack) : gc_stack :=
  let s := gc_stack_next s in mkStack (sg_segments s) (sg_cur s + 1) (sg_cur s + 1) 0.

(** ** The buffer of roots *)

Definition gc_compress (idx : Z) : Z :=
  if idx <? GC_MAX_UNCOMPRESSED then idx else Z.lor (idx mod GC_MAX_UNCOMPRESSED) GC_MAX_UNCOMPRESSED.

Definition root_at (idx : Z) : GC Z := g ← globals; gc_lift (rd (gc_buf g) idx).
Definition set_root (idx p : Z) : GC unit :=
  g ← globals; buf ← gc_lift (wr (gc_buf g) idx p); upd (set_buf buf (gc_buf_size g)).

(** [while (1) { idx += GC_MAX_UNCOMPRESSED; ... }] *)
Fixpoint decompress_loop (fuel : nat) (ref idx : Z) : GC Z :=
  match fuel with
  | O => gc_ub
  | S fuel =>
      let idx := idx + GC_MAX_UNCOMPRESSED in
      g ← globals;
      gc_assert (idx <? gc_first_unused g);;
      p ← root_at idx;
      if GC_GET_PTR p =? ref then mret idx else decompress_loop fuel ref idx
  end.
Definition gc_decompress (ref idx : Z) : GC Z :=
  p ← root_at idx;
  if GC_GET_PTR p =? ref then mret idx
  else g ← globals; decompress_loop (Z.to_nat (gc_first_unused g)) ref idx.

Definition gc_fetch_unused : GC Z :=
  g ← globals;
  let idx := gc_unused g in
  gc_assert (negb (idx =? GC_INVALID));;
  p ← root_at idx;
  gc_assert (GC_IS_UNUSED p);;
  upd (set_unused (GC_LIST2IDX p) (gc_first_unused g) (gc_num_roots g));;
  mret idx.

Definition gc_link_unused (idx : Z) : GC unit :=
  g ← globals;
  set_root idx (GC_IDX2LIST (gc_unused g));;
  upd (fun g => set_unused idx (gc_first_unused g) (gc_num_roots g) g).

Definition gc_fetch_next_unused : GC Z :=
  g ← globals;
  gc_assert (negb (gc_first_unused g =? gc_buf_size g));;
  upd (set_unused (gc_unused g) (u32 (gc_first_unused g + 1)) (gc_num_roots g));;
  mret (gc_first_unused g).

Definition add_num_roots (n : Z) : GC unit :=
  upd (fun g => set_unused (gc_unused g) (gc_first_unused g) (u32 (gc_num_roots g + n)) g).

Definition gc_remove_from_roots (idx : Z) : GC unit := gc_link_unused idx;; add_num_roots (-1).

Definition gc_grow_root_buffer : GC unit :=
  g ← globals;
  if (GC_MAX_BUF_SIZE <=? gc_buf_size g) && negb (gc_full g)
  then upd (set_gc_flags (gc_enabled_ g) true true true)
  else
    let new_size := if gc_buf_size g <? GC_BUF_GROW_STEP then gc_buf_size g * 2 else gc_buf_size g + GC_BUF_GROW_STEP in
    let new_size := if GC_MAX_BUF_SIZE <? new_size then GC_MAX_BUF_SIZE else new_size in
    upd (set_buf (gc_buf g ++ replicate (Z.to_nat (new_size - gc_buf_size g)) 0) new_size).

Definition gc_adjust_threshold (count : Z) : GC unit :=
  g ← globals;
  if (count <? GC_THRESHOLD_TRIGGER) || (gc_threshold g <=? gc_num_roots g) then
    if gc_threshold g <? GC_THRESHOLD_MAX then
      let new_threshold := u32 (gc_threshold g + GC_THRESHOLD_STEP) in
      let new_threshold := if GC_THRESHOLD_MAX <? new_threshold then GC_THRESHOLD_MAX else new_threshold in
      (if gc_buf_size g <? new_threshold then gc_grow_root_buffer else mret tt);;
      g ← globals;
      if new_threshold <=? gc_buf_size g then upd (set_threshold new_threshold) else mret tt
    else mret tt
  else if GC_THRESHOLD_DEFAULT <? gc_threshold g then
    let new_threshold := gc_threshold g - GC_THRESHOLD_STEP in
    upd (set_threshold (if new_threshold <? GC_THRESHOLD_DEFAULT then GC_THRESHOLD_DEFAULT else new_threshold))
  else mret tt.

(** A place in the buffer: from the list, at the end, or after growing. [None]: full. *)
Definition fetch_root : GC (option Z) :=
  g ← globals;
  if negb (gc_unused g =? GC_INVALID) then idx ← gc_fetch_unused; mret (Some idx)
  else if negb (gc_first_unused g =? gc_buf_size g) then idx ← gc_fetch_next_unused; mret (Some idx)
  else
    gc_grow_root_buffer;;
    g ← globals;
    if gc_first_unused g =? gc_buf_size g then mret None
    else idx ← gc_fetch_next_unused; mret (Some idx).

(** [newRoot->ref = ref; ...; GC_G(num_roots)++] *)
Definition enter_root (ref idx p color : Z) : GC unit :=
  set_root idx p;;
  upd_cell ref (GC_REF_SET_INFO (Z.lor (gc_compress idx) color));;
  add_num_roots 1.

Definition is_collectable_type (t : gc_type) : bool := bool_decide (t = IS_ARRAY \/ t = IS_OBJECT).
Definition root_assertions (ref : Z) : GC unit :=
  c ← cell ref;
  gc_assert (is_collectable_type (rc_type c));;
  gc_assert (rc_info c =? 0).

Definition gc_remove_from_buffer (ref : Z) : GC unit :=
  c ← cell ref;
  let idx := GC_REF_ADDRESS c in
  upd_cell ref (GC_REF_SET_INFO 0);;
  g ← globals;
  if GC_MAX_UNCOMPRESSED <=? gc_first_unused g
  then root ← gc_decompress ref idx; gc_remove_from_roots root
  else gc_assert (negb (idx =? 0));; gc_remove_from_roots idx.

Definition GC_REMOVE_FROM_BUFFER (ref : Z) : GC unit :=
  c ← cell ref;
  if negb (rc_info c =? 0) then gc_remove_from_buffer ref else mret tt.

(** Two-finger compaction. *)
Fixpoint skip_used (fuel : nat) (free : Z) : GC Z :=
  match fuel with
  | O => gc_ub
  | S fuel => p ← root_at free; if negb (GC_IS_UNUSED p) then skip_used fuel (free + 1) else mret free
  end.
Fixpoint skip_unused (fuel : nat) (scan : Z) : GC Z :=
  match fuel with
  | O => gc_ub
  | S fuel => p ← root_at scan; if GC_IS_UNUSED p then skip_unused fuel (scan - 1) else mret scan
  end.
Fixpoint compact_loop (fuel : nat) (free scan end_ : Z) : GC unit :=
  match fuel with
  | O => gc_ub
  | S fuel =>
      if free <? scan then
        g ← globals;
        free ← skip_used (S (length (gc_buf g))) free;
        scan ← skip_unused (S (length (gc_buf g))) scan;
        if free <? scan then
          p ← root_at scan;
          set_root free p;;
          let p := GC_GET_PTR p in
          c ← cell p;
          upd_cell p (GC_REF_SET_INFO (Z.lor (gc_compress free) (GC_REF_COLOR c)));;
          let free := free + 1 in
          let scan := scan - 1 in
          if scan <=? end_ then mret tt else compact_loop fuel free scan end_
        else compact_loop fuel free scan end_
      else mret tt
  end.
Definition gc_compact : GC unit :=
  g ← globals;
  if negb (u32 (gc_num_roots g + GC_FIRST_ROOT) =? gc_first_unused g) then
    (if negb (gc_num_roots g =? 0)
     then compact_loop (S (length (gc_buf g))) GC_FIRST_ROOT (gc_first_unused g - 1) (gc_num_roots g)
     else mret tt);;
    upd (fun g => set_unused GC_INVALID (u32 (gc_num_roots g + GC_FIRST_ROOT)) (gc_num_roots g) g)
  else mret tt.

(** ** Traversals

    A traversal visits the counted values a cell refers to; [touch] changes the counter
    and the color of one of them, and says whether it has to be visited itself. *)

Definition bucket_zval (b : gc_bucket) : gc_zval := match b with BDirect zv | BIndirect zv => zv end.
Definition table_zvals (t : gc_table) : list gc_zval :=
  match t with Packed l => l | Hashed l => bucket_zval <$> l end.

Section Visit.
Variable touch : Z -> GC bool.
Variable push_ht : bool.

(** [while (--n)]: what remains after the value that is visited next. *)
Fixpoint visit_rest (l : list gc_zval) (stack : list Z) : GC (list Z) :=
  match l with
  | [] => mret stack
  | ZPlain :: l => visit_rest l stack
  | ZCounted ref _ :: l => t ← touch ref; visit_rest l (if (t : bool) then ref :: stack else stack)
  end.

(** [handle_zvals] and the loop over buckets: the value to visit next, if there is one. *)
Fixpoint visit_zvals (l : list gc_zval) (stack : list Z) : GC (option Z * list Z) :=
  match l with
  | [] => mret (None, stack)
  | ZPlain :: l => visit_zvals l stack
  | ZCounted ref _ :: l =>
      t ← touch ref;
      if (t : bool) then stack ← visit_rest l stack; mret (Some ref, stack) else visit_zvals l stack
  end.

(** [handle_ht] *)
Definition visit_ht (ht : Z) (stack : list Z) : GC (option Z * list Z) :=
  c ← cell ht;
  match rc_body c with ArrayBody t => visit_zvals (table_zvals t) stack | _ => gc_ub end.

Definition visit_cell (ref : Z) (stack : list Z) : GC (option Z * list Z) :=
  c ← cell ref;
  match rc_type c with
  | IS_OBJECT =>
      if rc_free_called c then mret (None, stack)
      else
        match rc_body c with
        | ObjectBody table (Some ht) _ _ =>
            t ← touch ht;
            if (t : bool) then
              stack ← visit_rest table (if push_ht then ht :: stack else stack);
              visit_ht ht stack
            else visit_zvals table stack
        | ObjectBody table None _ _ => visit_zvals table stack
        | _ => gc_ub
        end
  | IS_ARRAY => visit_ht ref stack
  | IS_REFERENCE =>
      match rc_body c with ReferenceBody zv => visit_zvals [zv] stack | _ => gc_ub end
  | _ => mret (None, stack)
  end.
End Visit.

(** [tail_call:] ... [ref = GC_STACK_POP()]; [acc] are the local variables of the function. *)
Fixpoint traverse {A} (visit : Z -> list Z -> A -> GC (option Z * list Z * A)) (fuel : nat) (ref : Z) (stack : list Z) (acc : A) : GC A :=
  match fuel with
  | O => gc_ub
  | S fuel =>
      '(next, stack, acc) ← visit ref stack acc;
      match next, stack with
      | Some ref, _ => traverse visit fuel ref stack acc
      | None, ref :: stack => traverse visit fuel ref stack acc
      | None, [] => mret acc
      end
  end.
(** A function without local variables. *)
Definition plain (visit : Z -> list Z -> GC (option Z * list Z)) (ref : Z) (stack : list Z) (acc : unit) : GC (option Z * list Z * unit) :=
  '(next, stack) ← visit ref stack; mret (next, stack, acc).

Definition check_set (ref : Z) (check : zend_refcounted -> bool) (set_ : zend_refcounted -> zend_refcounted) : GC bool :=
  c ← cell ref;
  if check c then upd_cell ref set_;; mret true else mret false.

Definition black_touch (ref : Z) : GC bool :=
  GC_ADDREF ref;; check_set ref (fun c => negb (GC_REF_CHECK_COLOR c GC_BLACK)) GC_REF_SET_BLACK.
Definition grey_touch (ref : Z) : GC bool :=
  _ ← GC_DELREF ref; check_set ref (fun c => negb (GC_REF_CHECK_COLOR c GC_GREY)) (GC_REF_SET_COLOR GC_GREY).
Definition white_touch (ref : Z) : GC bool :=
  check_set ref (fun c => GC_REF_CHECK_COLOR c GC_GREY) (GC_REF_SET_COLOR GC_WHITE).
Definition collect_touch (ref : Z) : GC bool :=
  GC_ADDREF ref;; check_set ref (fun c => GC_REF_CHECK_COLOR c GC_WHITE) GC_REF_SET_BLACK.

Definition gc_scan_black (ref : Z) : GC unit :=
  fuel ← cell_fuel; traverse (plain (visit_cell black_touch false)) fuel ref [] tt.
Definition gc_mark_grey (ref : Z) : GC unit :=
  fuel ← cell_fuel; traverse (plain (visit_cell grey_touch false)) fuel ref [] tt.

(** The body of gc_scan: the stack of gc_scan_black is one of its own. *)
Definition scan_visit (ref : Z) (stack : list Z) : GC (option Z * list Z) :=
  c ← cell ref;
  if negb (GC_REF_CHECK_COLOR c GC_WHITE) then mret (None, stack)
  else if 0 <? rc_count c then
    (if negb (GC_REF_CHECK_COLOR c GC_BLACK) then upd_cell ref GC_REF_SET_BLACK;; gc_scan_black ref else mret tt);;
    mret (None, stack)
  else visit_cell white_touch true ref stack.
Definition gc_scan (ref : Z) : GC unit :=
  fuel ← cell_fuel; traverse (plain scan_visit) fuel ref [] tt.

(** A loop over the roots from [current] to [last]. *)
Fixpoint for_roots (fuel : nat) (f : Z -> GC unit) (current last : Z) : GC unit :=
  match fuel with
  | O => gc_ub
  | S fuel => if current =? last then mret tt else f current;; for_roots fuel f (current + 1) last
  end.
Definition root_fuel : GC nat := g ← globals; mret (S (Z.to_nat (gc_first_unused g))).
Definition all_roots (f : Z -> GC unit) : GC unit :=
  g ← globals; fuel ← root_fuel; for_roots fuel f GC_FIRST_ROOT (gc_first_unused g).

Definition mark_root (idx : Z) : GC unit :=
  p ← root_at idx;
  if GC_IS_ROOT p then
    c ← cell p;
    if GC_REF_CHECK_COLOR c GC_PURPLE then upd_cell p (GC_REF_SET_COLOR GC_GREY);; gc_mark_grey p else mret tt
  else mret tt.
Definition gc_mark_roots : GC unit := gc_compact;; all_roots mark_root.

Definition scan_root (idx : Z) : GC unit :=
  p ← root_at idx;
  if GC_IS_ROOT p then
    c ← cell p;
    if GC_REF_CHECK_COLOR c GC_GREY then upd_cell p (GC_REF_SET_COLOR GC_WHITE);; gc_scan p else mret tt
  else mret tt.
Definition gc_scan_roots : GC unit := all_roots scan_root.

(** ** The garbage *)

Definition gc_add_garbage (ref : Z) : GC unit :=
  idx ← fetch_root;
  match idx with
  | None => mret tt
  | Some idx => enter_root ref idx (GC_MAKE_GARBAGE ref) GC_BLACK
  end.

(** The count and the flags. *)
Definition garbage_of (ref : Z) (acc : Z * Z) : GC (Z * Z) :=
  let '(count, flags) := acc in
  c ← cell ref;
  let count := if decide (rc_type c = IS_REFERENCE) then count else count + 1 in
  match rc_type c with
  | IS_OBJECT =>
      if rc_free_called c then mret (count, flags)
      else
        (if rc_info c =? 0 then gc_add_garbage ref else mret tt);;
        match rc_body c with
        | ObjectBody _ _ dtor _ =>
            mret (count, if negb (rc_dtor_called c) && dtor then Z.lor flags GC_HAS_DESTRUCTORS else flags)
        | _ => gc_ub
        end
  | IS_ARRAY => (if rc_info c =? 0 then gc_add_garbage ref else mret tt);; mret (count, flags)
  | _ => mret (count, flags)
  end.
Definition collect_visit (ref : Z) (stack : list Z) (acc : Z * Z) : GC (option Z * list Z * (Z * Z)) :=
  acc ← garbage_of ref acc;
  '(next, stack) ← visit_cell collect_touch false ref stack;
  mret (next, stack, acc).
Definition gc_collect_white (ref : Z) (flags : Z) : GC (Z * Z) :=
  fuel ← cell_fuel; traverse collect_visit fuel ref [] (0, flags).

(** Roots that are not garbage leave the buffer. *)
Definition drop_root (idx : Z) : GC unit :=
  p ← root_at idx;
  if GC_IS_ROOT p then
    c ← cell p;
    if GC_REF_CHECK_COLOR c GC_BLACK then upd_cell p (GC_REF_SET_INFO 0);; gc_remove_from_roots idx else mret tt
  else mret tt.

Fixpoint gc_collect_loop (fuel : nat) (idx end_ : Z) (acc : Z * Z) : GC (Z * Z) :=
  match fuel with
  | O => gc_ub
  | S fuel =>
      if idx =? end_ then mret acc
      else
        ref ← root_at idx;
        gc_assert (GC_IS_ROOT ref);;
        set_root idx (GC_MAKE_GARBAGE ref);;
        c ← cell ref;
        acc ← (if GC_REF_CHECK_COLOR c GC_WHITE then
                 upd_cell ref GC_REF_SET_BLACK;;
                 '(n, flags) ← gc_collect_white ref acc.2;
                 mret (i32 (acc.1 + n), flags)
               else mret acc);
        gc_collect_loop fuel (idx + 1) end_ acc
  end.
Definition gc_collect_roots (flags : Z) : GC (Z * Z) :=
  all_roots drop_root;;
  gc_compact;;
  g ← globals;
  fuel ← root_fuel;
  gc_collect_loop fuel GC_FIRST_ROOT (gc_first_unused g) (0, flags).

(** ** Possible roots, enabling, status *)

Section Roots.
(** [gc_collect_cycles], and [rc_dtor_func] for a value whose count has become 0. *)
Variable collect_cycles : GC Z.
Variable rc_dtor_func : Z -> GC unit.

Definition gc_possible_root_when_full (ref : Z) : GC unit :=
  root_assertions ref;;
  g ← globals;
  stop ←
    (if gc_enabled_ g && negb (gc_active g) then
       GC_ADDREF ref;;
       count ← collect_cycles;
       gc_adjust_threshold count;;
       n ← GC_DELREF ref;
       if n =? 0 then rc_dtor_func ref;; mret true
       else c ← cell ref; mret (negb (rc_info c =? 0))
     else mret false);
  if (stop : bool) then mret tt
  else
    idx ← fetch_root;
    match idx with
    | None => mret tt
    | Some idx => enter_root ref idx ref GC_PURPLE
    end.

Definition gc_possible_root (ref : Z) : GC unit :=
  g ← globals;
  if gc_protected_ g then mret tt
  else
    let enter idx := root_assertions ref;; enter_root ref idx ref GC_PURPLE in
    if negb (gc_unused g =? GC_INVALID) then idx ← gc_fetch_unused; enter idx
    else if gc_first_unused g <? gc_threshold g then idx ← gc_fetch_next_unused; enter idx
    else gc_possible_root_when_full ref.

Definition gc_check_possible_root (ref : Z) : GC unit :=
  c ← cell ref;
  ref ←
    (if bool_decide (rc_type c = IS_REFERENCE) && (rc_info c =? 0) then
       match rc_body c with
       | ReferenceBody (ZCounted r true) => mret (Some r)
       | ReferenceBody _ => mret None
       | _ => gc_ub
       end
     else mret (Some ref));
  match ref with
  | None => mret tt
  | Some ref => c ← cell ref; if GC_MAY_LEAK c then gc_possible_root ref else mret tt
  end.
End Roots.

Definition gc_globals_ctor_ex : zend_gc_globals :=
  mkGlobals [] false false true false GC_INVALID GC_INVALID GC_INVALID GC_INVALID 0 0 0.

Definition gc_reset : GC unit :=
  upd (fun g =>
    if gc_buf_size g =? 0 then g
    else mkGlobals (gc_buf g) (gc_enabled_ g) false false false GC_INVALID GC_FIRST_ROOT (gc_threshold g) (gc_buf_size g) 0 0 0).

Definition gc_enable (enable : bool) : GC bool :=
  g ← globals;
  upd (set_gc_flags enable (gc_active g) (gc_protected_ g) (gc_full g));;
  (if enable && negb (gc_enabled_ g) && (gc_buf_size g =? 0) then
     upd (fun g => set_threshold GC_THRESHOLD_DEFAULT
       (set_buf (replicate (Z.to_nat GC_DEFAULT_BUF_SIZE) 0) GC_DEFAULT_BUF_SIZE g));;
     gc_reset
   else mret tt);;
  mret (gc_enabled_ g).
Definition gc_enabled : GC bool := g ← globals; mret (gc_enabled_ g).
Definition gc_protect (protect : bool) : GC bool :=
  g ← globals; upd (set_gc_flags (gc_enabled_ g) (gc_active g) protect (gc_full g));; mret (gc_protected_ g).
Definition gc_protected : GC bool := g ← globals; mret (gc_protected_ g).
Definition zend_gc_get_status : GC (Z * Z * Z * Z) :=
  g ← globals; mret (gc_runs g, gc_collected g, gc_threshold g, gc_num_roots g).

(** ** Collection *)

(** gc_remove_nested_data_from_buffer: [root] is the first value, which stays. *)
Definition any_touch (_ : Z) : GC bool := mret true.
Definition nested_descend (ref : Z) (stack : list Z) : GC (option Z * list Z) :=
  c ← cell ref;
  match rc_type c with
  | IS_OBJECT =>
      if rc_free_called c then mret (None, stack)
      else
        match rc_body c with
        | ObjectBody table (Some ht) _ _ =>
            stack ← visit_rest any_touch table stack;
            h ← cell ht;
            (if negb (GC_REF_ADDRESS h =? 0) && GC_REF_CHECK_COLOR h GC_BLACK then GC_REMOVE_FROM_BUFFER ht else mret tt);;
            visit_ht any_touch ht stack
        | ObjectBody table None _ _ => visit_zvals any_touch table stack
        | _ => gc_ub
        end
  | IS_ARRAY => visit_ht any_touch ref stack
  | _ => mret (None, stack)
  end.
Definition nested_visit (ref : Z) (stack : list Z) (acc : bool * Z) : GC (option Z * list Z * (bool * Z)) :=
  let '(root, count) := acc in
  c ← cell ref;
  if root then '(next, stack) ← nested_descend ref stack; mret (next, stack, (false, count + 1))
  else if negb (GC_REF_ADDRESS c =? 0) && GC_REF_CHECK_COLOR c GC_BLACK then
    GC_REMOVE_FROM_BUFFER ref;;
    '(next, stack) ← nested_descend ref stack; mret (next, stack, (false, count + 1))
  else if decide (rc_type c = IS_REFERENCE) then
    match rc_body c with
    | ReferenceBody (ZCounted r _) => mret (Some r, stack, acc)
    | ReferenceBody ZPlain => mret (None, stack, acc)
    | _ => gc_ub
    end
  else mret (None, stack, acc).

(** Every cell is descended into at most once; the rest are the values they refer to. *)
Definition body_zvals (b : gc_body) : list gc_zval :=
  match b with
  | ArrayBody t => table_zvals t
  | ObjectBody table _ _ _ => table
  | ReferenceBody zv => [zv]
  | LeafBody => []
  end.
Definition nested_fuel : GC nat := fun s =>
  Ok (2 + map_fold (fun _ c n => 2 * length (body_zvals (rc_body c)) + n) O (gs_cells s) * (2 + size (gs_cells s)), s)%nat.
Definition gc_remove_nested_data_from_buffer (ref : Z) : GC Z :=
  fuel ← nested_fuel; acc ← traverse nested_visit fuel ref [] (true, 0); mret acc.2.

(** What happens to the memory of an allocation that starts at [p]. *)
Definition alloc_offset (c : zend_refcounted) : Z :=
  match rc_body c with ObjectBody _ _ _ offset => offset | _ => 0 end.
Definition efree_ (p : Z) : GC unit := fun s =>
  Ok (tt, mkGc (filter (fun x => x.1 - alloc_offset x.2 <> p) (gs_cells s)) (gs_gc s)).

Inductive run_result : Type :=
| Return (n : Z)
| Finish (total : Z)
| Done (total : Z) (should_rerun_gc : bool).

Section Collect.
(** The handlers of objects, zend_hash_destroy, and the live temporaries of the frames. *)
Variables dtor_obj free_obj zend_hash_destroy : Z -> GC unit.
Variable live_tmpvars : list Z.

Definition has_dtor (c : zend_refcounted) : bool :=
  match rc_body c with ObjectBody _ _ dtor _ => dtor | _ => false end.

Definition mark_dtor (idx : Z) : GC unit :=
  r ← root_at idx;
  if GC_IS_GARBAGE r then
    let p := GC_GET_PTR r in
    c ← cell p;
    if bool_decide (rc_type c = IS_OBJECT) && negb (rc_dtor_called c) then
      if has_dtor c
      then set_root idx (GC_MAKE_DTOR_GARBAGE p);; upd_cell p (GC_REF_SET_COLOR GC_PURPLE)
      else upd_cell p set_dtor_called
    else mret tt
  else mret tt.

Fixpoint remove_nested (fuel : nat) (idx end_ count : Z) : GC Z :=
  match fuel with
  | O => gc_ub
  | S fuel =>
      if idx =? end_ then mret count
      else
        r ← root_at idx;
        n ← (if GC_IS_DTOR_GARBAGE r then gc_remove_nested_data_from_buffer (GC_GET_PTR r) else mret 0);
        remove_nested fuel (idx + 1) end_ (count - n)
  end.

Definition call_dtor (idx : Z) : GC unit :=
  r ← root_at idx;
  if GC_IS_DTOR_GARBAGE r then
    let p := GC_GET_PTR r in
    set_root idx p;;
    c ← cell p;
    if negb (rc_dtor_called c) then
      upd_cell p set_dtor_called;; GC_ADDREF p;; dtor_obj p;; _ ← GC_DELREF p; mret tt
    else mret tt
  else mret tt.

Definition destroy_zval (idx : Z) : GC unit :=
  r ← root_at idx;
  if GC_IS_GARBAGE r then
    let p := GC_GET_PTR r in
    c ← cell p;
    match rc_type c with
    | IS_OBJECT =>
        upd_cell p set_null;;
        set_root idx (GC_MAKE_GARBAGE (p - alloc_offset c));;
        if negb (rc_free_called c) then
          upd_cell p set_free_called;; GC_ADDREF p;; free_obj p;; _ ← GC_DELREF p; mret tt
        else mret tt
    | IS_ARRAY => upd_cell p set_null;; zend_hash_destroy p
    | _ => mret tt
    end
  else mret tt.

Definition free_garbage (idx : Z) : GC unit :=
  r ← root_at idx;
  if GC_IS_GARBAGE r then gc_link_unused idx;; add_num_roots (-1);; efree_ (GC_GET_PTR r) else mret tt.

Definition upto (f : Z -> GC unit) (end_ : Z) : GC unit :=
  for_roots (S (Z.to_nat end_)) f GC_FIRST_ROOT end_.

Definition gc_destructors (end_ count : Z) : GC Z :=
  upto mark_dtor end_;;
  count ← remove_nested (S (Z.to_nat end_)) GC_FIRST_ROOT end_ count;
  upto call_dtor end_;;
  mret count.

Definition gc_run (total_count : Z) : GC run_result :=
  g ← globals;
  if gc_num_roots g =? 0 then gc_compact;; mret (Done total_count false)
  else if gc_active g then mret (Return 0)
  else
    upd (fun g => set_active true (set_stats (u32 (gc_runs g + 1)) (gc_collected g) g));;
    gc_mark_roots;;
    gc_scan_roots;;
    '(count, gc_flags) ← gc_collect_roots 0;
    g ← globals;
    if gc_num_roots g =? 0 then upd (set_active false);; mret (Finish total_count)
    else
      let end_ := gc_first_unused g in
      let destructors := negb (Z.land gc_flags GC_HAS_DESTRUCTORS =? 0) in
      count ← (if destructors then gc_destructors end_ count else mret count);
      g ← globals;
      if destructors && gc_protected_ g then mret (Return 0)
      else
        upto destroy_zval end_;;
        upto free_garbage end_;;
        upd (fun g => set_active false (set_stats (gc_runs g) (u32 (gc_collected g + count)) g));;
        gc_compact;;
        mret (Done (total_count + count) destructors).

Fixpoint zend_gc_remove_root_tmpvars (vars : list Z) : GC unit :=
  match vars with [] => mret tt | ref :: vars => GC_REMOVE_FROM_BUFFER ref;; zend_gc_remove_root_tmpvars vars end.
(** The collector is marked as active, so that adding a root does not start it. *)
Fixpoint zend_gc_check_root_tmpvars (vars : list Z) : GC unit :=
  match vars with
  | [] => mret tt
  | ref :: vars => gc_check_possible_root gc_ub (fun _ => gc_ub) ref;; zend_gc_check_root_tmpvars vars
  end.

Definition gc_finish (total_count : Z) : GC Z :=
  upd (set_active true);;
  zend_gc_check_root_tmpvars live_tmpvars;;
  upd (set_active false);;
  mret total_count.

Definition zend_gc_collect_cycles : GC Z :=
  g ← globals;
  (if negb (gc_num_roots g =? 0) && gc_active g then zend_gc_remove_root_tmpvars live_tmpvars else mret tt);;
  r ← gc_run 0;
  match r with
  | Return n => mret n
  | Finish total_count => gc_finish total_count
  | Done total_count false => gc_finish total_count
  | Done total_count true =>
      r ← gc_run total_count;
      match r with
      | Return n => mret n
      | Finish total_count | Done total_count _ => gc_finish total_count
      end
  end.
End Collect.
