(* ===== verification/GcGraph.v ===== *)
(** * The graph of refcounted values, and the traversals of the collector

    What the collector sees of the cells is a graph with colors and counters. A step of a
    traversal touches the values one cell refers to; a traversal that visits everything
    it colors visits a set of cells closed under references. *)

From S2P Require Import Prelude.
From S2P Require Import GcOps.

(** ** Running an operation *)

Definition gwp {A} (op : GC A) (s : gc_state) (Q : A -> gc_state -> Prop) : Prop :=
  match op s with Ok (a, s) => Q a s | _ => False end.

Lemma gwp_bind {A B} (op : GC A) (f : A -> GC B) s Q : gwp op s (fun a s => gwp (f a) s Q) -> gwp (op ≫= f) s Q.
Proof. unfold gwp, mbind, GC_bind. destruct (op s) as [[a s1]| |]; done. Qed.
Lemma gwp_ret {A} (a : A) s (Q : A -> gc_state -> Prop) : Q a s -> gwp (mret a) s Q.
Proof. done. Qed.
Lemma gwp_mono {A} (op : GC A) s (P Q : A -> gc_state -> Prop) : gwp op s P -> (forall a s, P a s -> Q a s) -> gwp op s Q.
Proof. unfold gwp. destruct (op s) as [[a s1]| |]; auto. Qed.
Lemma gwp_cell ref c s Q : gs_cells s !! ref = Some c -> Q c s -> gwp (cell ref) s Q.
Proof. unfold gwp, cell. by intros ->. Qed.
Lemma gwp_upd_cell ref f c s (Q : unit -> gc_state -> Prop) : gs_cells s !! ref = Some c ->
  Q tt (mkGc (<[ref := f c]> (gs_cells s)) (gs_gc s)) -> gwp (upd_cell ref f) s Q.
Proof. unfold gwp, upd_cell. by intros ->. Qed.
Lemma gwp_globals s Q : Q (gs_gc s) s -> gwp globals s Q.
Proof. done. Qed.
Lemma gwp_upd f s (Q : unit -> gc_state -> Prop) : Q tt (mkGc (gs_cells s) (f (gs_gc s))) -> gwp (upd f) s Q.
Proof. done. Qed.
Lemma gwp_lift {A} (r : res A) a s Q : r = Ok a -> Q a s -> gwp (gc_lift r) s Q.
Proof. unfold gwp, gc_lift. by intros ->. Qed.
Lemma gwp_assert b s (Q : unit -> gc_state -> Prop) : b = true -> Q tt s -> gwp (gc_assert b) s Q.
Proof. by intros ->. Qed.
Lemma gwp_fuel s Q : Q (S (size (gs_cells s))) s -> gwp cell_fuel s Q.
Proof. done. Qed.
Lemma gwp_ok {A} (op : GC A) s Q : gwp op s Q <-> exists a s', op s = Ok (a, s') /\ Q a s'.
Proof.
  unfold gwp. destruct (op s) as [[a s1]| |]; split; try done.
  - intros H. by exists a, s1.
  - by intros (? & ? & [= <- <-] & ?).
  - by intros (? & ? & ? & ?).
  - by intros (? & ? & ? & ?).
Qed.

(** ** Colors *)

Definition is_color (k : Z) : Prop := k = GC_BLACK \/ k = GC_WHITE \/ k = GC_GREY \/ k = GC_PURPLE.

Lemma land_clear_color i : Z.land (Z.land i (Z.lnot GC_COLOR)) GC_COLOR = 0.
Proof. by rewrite <- Z.land_assoc, (Z.land_comm (Z.lnot _)), Z.land_lnot_diag, Z.land_0_r. Qed.
Lemma land_clear_address i : Z.land (Z.land i (Z.lnot GC_COLOR)) GC_ADDRESS = Z.land i GC_ADDRESS.
Proof. by rewrite <- Z.land_assoc. Qed.

Lemma color_set_color c k : is_color k -> GC_REF_COLOR (GC_REF_SET_COLOR k c) = k.
Proof.
  intros Hk. unfold GC_REF_COLOR, GC_REF_SET_COLOR. cbn. rewrite Z.land_lor_distr_l, land_clear_color, Z.lor_0_l.
  by destruct Hk as [->|[->|[->| ->]]].
Qed.
Lemma address_set_color c k : is_color k -> GC_REF_ADDRESS (GC_REF_SET_COLOR k c) = GC_REF_ADDRESS c.
Proof.
  intros Hk. unfold GC_REF_ADDRESS, GC_REF_SET_COLOR. cbn. rewrite Z.land_lor_distr_l, land_clear_address.
  assert (Z.land k GC_ADDRESS = 0) as -> by (by destruct Hk as [->|[->|[->| ->]]]). apply Z.lor_0_r.
Qed.
Lemma set_black_color c : GC_REF_SET_BLACK c = GC_REF_SET_COLOR GC_BLACK c.
Proof. unfold GC_REF_SET_BLACK, GC_REF_SET_COLOR. by rewrite Z.lor_0_r. Qed.
Lemma color_set_black c : GC_REF_COLOR (GC_REF_SET_BLACK c) = GC_BLACK.
Proof. rewrite set_black_color. apply color_set_color. by left. Qed.
Lemma color_range c : is_color (GC_REF_COLOR c).
Proof.
  unfold GC_REF_COLOR, is_color. set (i := rc_info c).
  assert (Z.land i GC_COLOR = Z.lor (if Z.testbit i 20 then GC_WHITE else 0) (if Z.testbit i 21 then GC_GREY else 0)) as ->.
  { apply Z.bits_inj'. intros n Hn. rewrite Z.land_spec, Z.lor_spec.
    destruct (decide (n = 20)) as [->|H20]; [by destruct (Z.testbit i 20), (Z.testbit i 21)|].
    destruct (decide (n = 21)) as [->|H21]; [by destruct (Z.testbit i 20), (Z.testbit i 21)|].
    assert (Hz : forall v, v = GC_COLOR \/ v = GC_WHITE \/ v = GC_GREY -> Z.testbit v n = false).
    { intros v Hv. destruct (Z.ltb_spec n 20).
      - replace v with (v / 2 ^ 20 * 2 ^ 20) by (by destruct Hv as [->|[->| ->]]). apply Z.mul_pow2_bits_low. lia.
      - apply Z.bits_above_log2; [by destruct Hv as [->|[->| ->]]|].
        assert (Z.log2 v <= 21) by (by destruct Hv as [->|[->| ->]]). lia. }
    rewrite (Hz GC_COLOR), andb_false_r by tauto.
    destruct (Z.testbit i 20), (Z.testbit i 21); rewrite ?Z.bits_0, ?(Hz GC_WHITE), ?(Hz GC_GREY) by tauto; done. }
  destruct (Z.testbit i 20), (Z.testbit i 21); vm_compute; tauto.
Qed.

(** ** References *)

Definition counted (l : list gc_zval) : list Z :=
  l ≫= fun v => match v with ZCounted ref _ => [ref] | ZPlain => [] end.

(** What the collector follows from a cell. *)
Definition kids (c : zend_refcounted) : list Z :=
  match rc_type c, rc_body c with
  | IS_OBJECT, ObjectBody table ht _ _ => if rc_free_called c then [] else option_list ht ++ counted table
  | IS_ARRAY, ArrayBody t => counted (table_zvals t)
  | IS_REFERENCE, ReferenceBody zv => counted [zv]
  | _, _ => []
  end.
Definition kids_of (cs : cells) (x : Z) : list Z := from_option kids [] (cs !! x).
Definition rc_of (cs : cells) (x : Z) : Z := from_option rc_count 0 (cs !! x).
Definition color_of (cs : cells) (x : Z) : Z := from_option GC_REF_COLOR (-1) (cs !! x).

Definition body_fits (c : zend_refcounted) : Prop :=
  match rc_type c, rc_body c with
  | IS_OBJECT, ObjectBody _ _ _ _ | IS_ARRAY, ArrayBody _ | IS_REFERENCE, ReferenceBody _ | IS_NULL, _ | IS_LEAF, LeafBody => True
  | _, _ => False
  end.
Definition ht_of (c : zend_refcounted) : option Z :=
  match rc_type c, rc_body c with
  | IS_OBJECT, ObjectBody _ ht _ _ => if rc_free_called c then None else ht
  | _, _ => None
  end.

Record graph_ok (cs : cells) : Prop := {
  gr_body : forall x c, cs !! x = Some c -> body_fits c;
  gr_rc : forall x c, cs !! x = Some c -> 0 <= rc_count c < 2 ^ 32;
  gr_kids : forall x c y, cs !! x = Some c -> y ∈ kids c -> is_Some (cs !! y);
  gr_ht : forall x c y, cs !! x = Some c -> ht_of c = Some y -> exists h, cs !! y = Some h /\ rc_type h = IS_ARRAY
}.

(** Cells that differ in counters and in [GC_INFO] only. *)
Definition same_skel (c c' : zend_refcounted) : Prop :=
  rc_type c' = rc_type c /\ rc_not_collectable c' = rc_not_collectable c /\ rc_dtor_called c' = rc_dtor_called c /\
  rc_free_called c' = rc_free_called c /\ rc_body c' = rc_body c.
Definition skel (cs cs' : cells) : Prop :=
  forall x, match cs !! x, cs' !! x with Some c, Some c' => same_skel c c' | None, None => True | _, _ => False end.

#[export] Instance same_skel_equiv : Equivalence same_skel.
Proof.
  split.
  - done.
  - intros c c' (?&?&?&?&?). by repeat split.
  - intros c c' c'' (?&?&?&?&?) (?&?&?&?&?). repeat split; by etrans.
Qed.
#[export] Instance skel_equiv : Equivalence skel.
Proof.
  split.
  - intros cs x. by destruct (cs !! x).
  - intros cs cs' H x. specialize (H x). destruct (cs !! x), (cs' !! x); first [done | by symmetry].
  - intros cs cs' cs'' H H' x. specialize (H x). specialize (H' x).
    destruct (cs !! x), (cs' !! x), (cs'' !! x); first [done | by etrans].
Qed.

Lemma skel_insert cs x c c' : cs !! x = Some c -> same_skel c c' -> skel cs (<[x := c']> cs).
Proof.
  intros Hc Hs y. destruct (decide (x = y)) as [<-|Hne]; [by rewrite lookup_insert_eq, Hc|].
  rewrite lookup_insert_ne by done. by destruct (cs !! y).
Qed.
Lemma skel_lookup cs cs' x c : skel cs cs' -> cs !! x = Some c -> exists c', cs' !! x = Some c' /\ same_skel c c'.
Proof. intros H Hc. specialize (H x). rewrite Hc in H. destruct (cs' !! x) as [c'|]; [|done]. by exists c'. Qed.
Lemma same_skel_kids c c' : same_skel c c' -> kids c' = kids c.
Proof. intros (H1 & _ & _ & H2 & H3). unfold kids. by rewrite H1, H2, H3. Qed.
Lemma same_skel_ht c c' : same_skel c c' -> ht_of c' = ht_of c.
Proof. intros (H1 & _ & _ & H2 & H3). unfold ht_of. by rewrite H1, H2, H3. Qed.
Lemma skel_kids cs cs' x : skel cs cs' -> kids_of cs' x = kids_of cs x.
Proof.
  intros H. specialize (H x). unfold kids_of. destruct (cs !! x), (cs' !! x); try done. by apply same_skel_kids.
Qed.
Lemma skel_dom cs cs' : skel cs cs' -> dom cs' = dom cs.
Proof.
  intros H. apply set_eq. intros x. rewrite !elem_of_dom. specialize (H x). by destruct (cs !! x), (cs' !! x).
Qed.
Lemma skel_size cs cs' : skel cs cs' -> size cs' = size cs.
Proof. intros H%skel_dom. rewrite <- !size_dom. by rewrite H. Qed.

Lemma skel_graph cs cs' : skel cs cs' -> graph_ok cs -> (forall x, 0 <= rc_of cs' x < 2 ^ 32) -> graph_ok cs'.
Proof.
  intros Hs [G1 G2 G3 G4] Hrc. assert (Hb : forall x c', cs' !! x = Some c' -> exists c, cs !! x = Some c /\ same_skel c c').
  { intros x c' Hc'. destruct (skel_lookup cs' cs x c' ltac:(by symmetry) Hc') as (c & Hc & Hk). exists c. split; [done|by symmetry]. }
  split.
  - intros x c' Hc'. destruct (Hb x c' Hc') as (c & Hc & H1 & _ & _ & _ & H3). specialize (G1 x c Hc). unfold body_fits. by rewrite H1, H3.
  - intros x c' Hc'. specialize (Hrc x). unfold rc_of in Hrc. by rewrite Hc' in Hrc.
  - intros x c' y Hc' Hy. destruct (Hb x c' Hc') as (c & Hc & Hk). rewrite (same_skel_kids _ _ Hk) in Hy.
    destruct (G3 x c y Hc Hy) as [d Hd]. by destruct (skel_lookup _ _ _ _ Hs Hd) as (d' & Hd' & _).
  - intros x c' y Hc' Hy. destruct (Hb x c' Hc') as (c & Hc & Hk). rewrite (same_skel_ht _ _ Hk) in Hy.
    destruct (G4 x c y Hc Hy) as (h & Hh & Ht). destruct (skel_lookup _ _ _ _ Hs Hh) as (h' & Hh' & H1 & _). exists h'. split; [done|congruence].
Qed.

Lemma ht_kid (cs : cells) x y : cs !! x ≫= ht_of = Some y -> y ∈ kids_of cs x.
Proof.
  unfold kids_of. destruct (cs !! x) as [c|]; [|done]. cbn. unfold ht_of, kids. destruct (rc_type c), (rc_body c); try done.
  destruct (rc_free_called c); [done|]. intros ->. by left.
Qed.

(** ** Occurrences and edges *)

Fixpoint occ (x : Z) (l : list Z) : Z :=
  match l with [] => 0 | y :: l => (if y =? x then 1 else 0) + occ x l end.

Lemma occ_app x l k : occ x (l ++ k) = occ x l + occ x k.
Proof. induction l as [|y l IH]; cbn; [done|]. lia. Qed.
Lemma occ_nonneg x l : 0 <= occ x l.
Proof. induction l as [|y l IH]; cbn; [done|]. destruct (y =? x); lia. Qed.
Lemma occ_pos x l : 0 < occ x l <-> x ∈ l.
Proof.
  induction l as [|y l IH]; cbn; [split; [lia|by intros ?%elem_of_nil]|]. pose proof (occ_nonneg x l). rewrite elem_of_cons, <- IH.
  destruct (Z.eqb_spec y x); split; intros; try lia.
Qed.
Lemma occ_not x l : x ∉ l -> occ x l = 0.
Proof. rewrite <- occ_pos. pose proof (occ_nonneg x l). lia. Qed.
#[export] Instance occ_proper x : Proper ((≡ₚ) ==> eq) (occ x).
Proof. intros l k H. induction H; cbn; lia. Qed.

(** References from the cells [V] to [x]. *)
Definition edges (K : Z -> list Z) (V : list Z) (x : Z) : Z := occ x (V ≫= K).

Lemma edges_app K V W x : edges K (V ++ W) x = edges K V x + edges K W x.
Proof. unfold edges. by rewrite bind_app, occ_app. Qed.
Lemma edges_cons K v V x : edges K (v :: V) x = occ x (K v) + edges K V x.
Proof. unfold edges. cbn. apply occ_app. Qed.
Lemma edges_nonneg K V x : 0 <= edges K V x.
Proof. apply occ_nonneg. Qed.
#[export] Instance edges_proper K : Proper ((≡ₚ) ==> eq ==> eq) (edges K).
Proof. intros V W H x _ <-. unfold edges. by rewrite H. Qed.
Lemma edges_ext K K' V x : (forall v, v ∈ V -> K' v = K v) -> edges K' V x = edges K V x.
Proof.
  induction V as [|v V IH]; intros H; [done|]. rewrite !edges_cons, H by (by left). rewrite IH; [done|]. intros w Hw. apply H. by right.
Qed.
Lemma edges_pos K V x : 0 < edges K V x <-> exists v, v ∈ V /\ x ∈ K v.
Proof. unfold edges. rewrite occ_pos, list_elem_of_bind. split; intros (v & ? & ?); by exists v. Qed.
Lemma edges_submset K V W x : V ⊆+ W -> edges K V x <= edges K W x.
Proof. intros [k ->]%submseteq_Permutation. rewrite edges_app. pose proof (edges_nonneg K k x). lia. Qed.
Lemma edges_subset K V W x : NoDup V -> V ⊆ W -> edges K V x <= edges K W x.
Proof. intros HV HW. apply edges_submset. by apply NoDup_submseteq. Qed.

Lemma u32_add_l a b : u32 (u32 a + b) = u32 (a + b).
Proof. unfold u32. by rewrite Zplus_mod_idemp_l. Qed.

(** ** What one function does with the values it follows

    Values with a color in [from] get the color [to]; the counters change by [d] for
    every reference. *)

Definition info_range (i : Z) : Prop := 0 <= i < 2 ^ 22.
Definition info_ok (cs : cells) : Prop := forall x c, cs !! x = Some c -> info_range (rc_info c).

Lemma info_range_color i k : is_color k -> info_range i -> info_range (Z.lor (Z.land i (Z.lnot GC_COLOR)) k).
Proof.
  intros Hk Hi. unfold info_range in *. assert (Hz : Z.lor (Z.land i (Z.lnot GC_COLOR)) k = Z.land (Z.lor (Z.land i (Z.lnot GC_COLOR)) k) (Z.ones 22)).
  { rewrite Z.land_lor_distr_l, <- Z.land_assoc, (Z.land_comm (Z.lnot _)), Z.land_assoc, (Z.land_ones i), (Z.mod_small i) by lia.
    by destruct Hk as [->|[->|[->| ->]]]. }
  rewrite Hz, Z.land_ones by lia. apply Z.mod_pos_bound. lia.
Qed.
Lemma info_range_zero i : info_range i -> Z.land i GC_ADDRESS = 0 -> Z.land i GC_COLOR = 0 -> i = 0.
Proof.
  intros Hi H1 H2. rewrite <- (Z.mod_small i (2 ^ 22)) by exact Hi. rewrite <- Z.land_ones by lia.
  change (Z.ones 22) with (Z.lor GC_ADDRESS GC_COLOR). by rewrite Z.land_lor_distr_r, H1, H2.
Qed.

Class Touch (touch : Z -> GC bool) (from : Z -> bool) (to d : Z) : Type := {
  touched : zend_refcounted -> zend_refcounted;
  touch_run : forall ref c s, gs_cells s !! ref = Some c ->
    touch ref s = Ok (from (GC_REF_COLOR c), mkGc (<[ref := touched c]> (gs_cells s)) (gs_gc s));
  touch_skel : forall c, same_skel c (touched c);
  touch_address : forall c, GC_REF_ADDRESS (touched c) = GC_REF_ADDRESS c;
  touch_rc : forall c, u32 (rc_count (touched c)) = u32 (rc_count c + d);
  touch_range : forall c, 0 <= rc_count c < 2 ^ 32 -> 0 <= rc_count (touched c) < 2 ^ 32;
  touch_color : forall c, GC_REF_COLOR (touched c) = if from (GC_REF_COLOR c) then to else GC_REF_COLOR c;
  touch_to : from to = false;
  touch_info : forall c, info_range (rc_info c) -> info_range (rc_info (touched c));
}.

Lemma check_set_run ref check set_ c s : gs_cells s !! ref = Some c ->
  check_set ref check set_ s = Ok (check c, mkGc (if check c then <[ref := set_ c]> (gs_cells s) else gs_cells s) (gs_gc s)).
Proof.
  intros H. unfold check_set, mbind, GC_bind, cell, upd_cell. rewrite H. cbn. destruct (check c); cbn; [by rewrite H|]. by destruct s.
Qed.
Lemma addref_run ref c s : gs_cells s !! ref = Some c ->
  GC_ADDREF ref s = Ok (tt, mkGc (<[ref := set_rc (u32 (rc_count c + 1)) c]> (gs_cells s)) (gs_gc s)).
Proof. intros H. unfold GC_ADDREF, upd_cell. by rewrite H. Qed.
Lemma delref_run ref c s : gs_cells s !! ref = Some c ->
  GC_DELREF ref s = Ok (u32 (rc_count c - 1), mkGc (<[ref := set_rc (u32 (rc_count c - 1)) c]> (gs_cells s)) (gs_gc s)).
Proof. intros H. unfold GC_DELREF, upd_cell, mbind, GC_bind, cell. rewrite H. cbn. by rewrite lookup_insert_eq. Qed.

Lemma bind_run {A B} (op : GC A) (f : A -> GC B) s a s1 : op s = Ok (a, s1) -> (op ≫= f) s = f a s1.
Proof. unfold mbind, GC_bind. by intros ->. Qed.
Lemma bind_inv {A B} (op : GC A) (f : A -> GC B) s r : (op ≫= f) s = Ok r -> exists a s1, op s = Ok (a, s1) /\ f a s1 = Ok r.
Proof. unfold mbind, GC_bind. destruct (op s) as [[a s1]| |]; [|done..]. intros H. by exists a, s1. Qed.

Definition black_touched (c : zend_refcounted) : zend_refcounted :=
  let c := set_rc (u32 (rc_count c + 1)) c in
  if negb (GC_REF_CHECK_COLOR c GC_BLACK) then GC_REF_SET_BLACK c else c.
Definition grey_touched (c : zend_refcounted) : zend_refcounted :=
  let c := set_rc (u32 (rc_count c - 1)) c in
  if negb (GC_REF_CHECK_COLOR c GC_GREY) then GC_REF_SET_COLOR GC_GREY c else c.
Definition white_touched (c : zend_refcounted) : zend_refcounted :=
  if GC_REF_CHECK_COLOR c GC_GREY then GC_REF_SET_COLOR GC_WHITE c else c.
Definition collect_touched (c : zend_refcounted) : zend_refcounted :=
  let c := set_rc (u32 (rc_count c + 1)) c in
  if GC_REF_CHECK_COLOR c GC_WHITE then GC_REF_SET_BLACK c else c.

Lemma insert_same (cs : cells) ref c (b : bool) c' : cs !! ref = Some c ->
  (if b then <[ref := c']> cs else cs) = <[ref := if b then c' else c]> cs.
Proof. destruct b; [done|]. intros H. by rewrite insert_id. Qed.
Lemma u32_idem x : u32 (u32 x) = u32 x.
Proof. apply u32_small, u32_range. Qed.

Lemma is_black : is_color GC_BLACK. Proof. by left. Qed.
Lemma is_white : is_color GC_WHITE. Proof. right; by left. Qed.
Lemma is_grey : is_color GC_GREY. Proof. right; right; by left. Qed.
#[local] Hint Resolve is_black is_white is_grey : core.

#[export] Instance black_touch_ok : Touch black_touch (fun k => negb (k =? GC_BLACK)) GC_BLACK 1.
Proof.
  refine {| touched := black_touched |}; try (intros c; unfold black_touched; set (c1 := set_rc _ c); destruct (GC_REF_CHECK_COLOR c1 GC_BLACK) eqn:E; cbn [negb]).
  - intros ref c s H. unfold black_touch. erewrite bind_run by (by apply addref_run). erewrite check_set_run by (cbn; apply lookup_insert_eq).
    cbn [gs_cells gs_gc]. f_equal. f_equal. erewrite insert_same by (apply lookup_insert_eq). by rewrite insert_insert_eq.
  - done.
  - done.
  - done.
  - rewrite set_black_color. by rewrite address_set_color.
  - cbn. by rewrite u32_idem.
  - cbn. by rewrite u32_idem.
  - intros _. cbn. apply u32_range.
  - intros _. cbn. apply u32_range.
  - unfold GC_REF_CHECK_COLOR in E. apply Z.eqb_eq in E. replace (GC_REF_COLOR c) with (GC_REF_COLOR c1) by done. by rewrite E.
  - unfold GC_REF_CHECK_COLOR in E. replace (GC_REF_COLOR c) with (GC_REF_COLOR c1) by done. rewrite E. cbn. apply color_set_black.
  - done.
  - done.
  - intros Hi. rewrite set_black_color. by apply info_range_color.
Qed.

#[export] Instance grey_touch_ok : Touch grey_touch (fun k => negb (k =? GC_GREY)) GC_GREY (-1).
Proof.
  refine {| touched := grey_touched |}; try (intros c; unfold grey_touched; set (c1 := set_rc _ c); destruct (GC_REF_CHECK_COLOR c1 GC_GREY) eqn:E; cbn [negb]).
  - intros ref c s H. unfold grey_touch. erewrite bind_run by (by apply delref_run). erewrite check_set_run by (cbn; apply lookup_insert_eq).
    cbn [gs_cells gs_gc]. f_equal. f_equal. erewrite insert_same by (apply lookup_insert_eq). by rewrite insert_insert_eq.
  - done.
  - done.
  - done.
  - by rewrite address_set_color.
  - cbn. by rewrite u32_idem.
  - cbn. by rewrite u32_idem.
  - intros _. cbn. apply u32_range.
  - intros _. cbn. apply u32_range.
  - unfold GC_REF_CHECK_COLOR in E. apply Z.eqb_eq in E. replace (GC_REF_COLOR c) with (GC_REF_COLOR c1) by done. by rewrite E.
  - unfold GC_REF_CHECK_COLOR in E. replace (GC_REF_COLOR c) with (GC_REF_COLOR c1) by done. rewrite E. cbn. by apply color_set_color.
  - done.
  - done.
  - intros Hi. by apply info_range_color.
Qed.

#[export] Instance white_touch_ok : Touch white_touch (fun k => k =? GC_GREY) GC_WHITE 0.
Proof.
  refine {| touched := white_touched |}; try (intros c; unfold white_touched; destruct (GC_REF_CHECK_COLOR c GC_GREY) eqn:E).
  - intros ref c s H. unfold white_touch. erewrite check_set_run by done. f_equal. f_equal. by erewrite insert_same by done.
  - done.
  - done.
  - by rewrite address_set_color.
  - done.
  - cbn. by rewrite Z.add_0_r.
  - by rewrite Z.add_0_r.
  - done.
  - done.
  - unfold GC_REF_CHECK_COLOR in E. rewrite E. by apply color_set_color.
  - unfold GC_REF_CHECK_COLOR in E. by rewrite E.
  - done.
  - intros Hi. by apply info_range_color.
  - done.
Qed.

#[export] Instance collect_touch_ok : Touch collect_touch (fun k => k =? GC_WHITE) GC_BLACK 1.
Proof.
  refine {| touched := collect_touched |}; try (intros c; unfold collect_touched; set (c1 := set_rc _ c); destruct (GC_REF_CHECK_COLOR c1 GC_WHITE) eqn:E).
  - intros ref c s H. unfold collect_touch. erewrite bind_run by (by apply addref_run). erewrite check_set_run by (cbn; apply lookup_insert_eq).
    cbn [gs_cells gs_gc]. f_equal. f_equal. erewrite insert_same by (apply lookup_insert_eq). by rewrite insert_insert_eq.
  - done.
  - done.
  - rewrite set_black_color. by rewrite address_set_color.
  - done.
  - cbn. by rewrite u32_idem.
  - cbn. by rewrite u32_idem.
  - intros _. cbn. apply u32_range.
  - intros _. cbn. apply u32_range.
  - unfold GC_REF_CHECK_COLOR in E. replace (GC_REF_COLOR c) with (GC_REF_COLOR c1) by done. rewrite E. apply color_set_black.
  - unfold GC_REF_CHECK_COLOR in E. replace (GC_REF_COLOR c) with (GC_REF_COLOR c1) by done. by rewrite E.
  - done.
  - intros Hi. rewrite set_black_color. by apply info_range_color.
  - done.
Qed.

(** ** Steps *)

Definition addr_of (cs : cells) (x : Z) : Z := from_option GC_REF_ADDRESS 0 (cs !! x).

Section Steps.
Context (from : Z -> bool) (to d : Z).

(** The values [l] have been touched; [new] are those that were colored. *)
Record step (l : list Z) (s s' : gc_state) (new : list Z) : Prop := {
  sp_gc : gs_gc s' = gs_gc s;
  sp_skel : skel (gs_cells s) (gs_cells s');
  sp_addr : forall x, addr_of (gs_cells s') x = addr_of (gs_cells s) x;
  sp_range : (forall x, 0 <= rc_of (gs_cells s) x < 2 ^ 32) -> forall x, 0 <= rc_of (gs_cells s') x < 2 ^ 32;
  sp_rc : forall x, is_Some (gs_cells s !! x) -> u32 (rc_of (gs_cells s') x) = u32 (rc_of (gs_cells s) x + d * occ x l);
  sp_new : forall x, x ∈ new <-> x ∈ l /\ from (color_of (gs_cells s) x) = true;
  sp_color : forall x, color_of (gs_cells s') x = if decide (x ∈ new) then to else color_of (gs_cells s) x;
  sp_nodup : NoDup new;
  sp_info : info_ok (gs_cells s) -> info_ok (gs_cells s')
}.

Hypothesis Hto : from to = false.

Lemma step_nil s : step [] s s [].
Proof.
  split; try done.
  - intros x _. cbn. by rewrite Z.mul_0_r, Z.add_0_r.
  - intros x. split; [by intros ?%elem_of_nil|by intros [?%elem_of_nil _]].
  - constructor.
Qed.

Lemma step_perm l l' s s' new new' : l ≡ₚ l' -> new ≡ₚ new' -> step l s s' new -> step l' s s' new'.
Proof.
  intros Hl Hn [S1 S2 S3 S4 S5 S6 S7 S8 S9]. split; try done.
  - intros x Hx. by rewrite <- Hl, S5.
  - intros x. by rewrite <- Hl, <- Hn.
  - intros x. rewrite S7. by destruct (decide (x ∈ new)) as [H|H], (decide (x ∈ new')) as [H'|H']; rewrite ?Hn in *.
  - by rewrite <- Hn.
Qed.

Lemma step_app l1 l2 s1 s2 s3 n1 n2 : step l1 s1 s2 n1 -> step l2 s2 s3 n2 -> step (l1 ++ l2) s1 s3 (n1 ++ n2).
Proof.
  intros [A1 A2 A3 A4 A5 A6 A7 A8 A9] [B1 B2 B3 B4 B5 B6 B7 B8 B9]. split.
  - congruence.
  - by etrans.
  - intros x. by rewrite B3, A3.
  - auto.
  - intros x Hx. rewrite B5.
    + rewrite occ_app, Z.mul_add_distr_l, Z.add_assoc. rewrite <- (u32_add_l (rc_of (gs_cells s2) x)), A5 by done. apply u32_add_l.
    + destruct Hx as [c Hc]. by destruct (skel_lookup _ _ _ _ A2 Hc) as (c' & -> & _).
  - intros x. rewrite !elem_of_app, B6, A6, A7. destruct (decide (x ∈ n1)) as [Hx|Hx].
    + rewrite Hto. apply A6 in Hx. naive_solver.
    + rewrite A6 in Hx. tauto.
  - intros x. rewrite B7, A7. pose proof (elem_of_app n1 n2 x). destruct (decide (x ∈ n2)), (decide (x ∈ n1)), (decide (x ∈ n1 ++ n2)); tauto.
  - apply NoDup_app. split; [done|]. split; [|done]. intros x Hx Hx2. apply B6 in Hx2 as [_ Hx2]. rewrite A7 in Hx2.
    destruct (decide (x ∈ n1)); [|done]. by rewrite Hto in Hx2.
  - auto.
Qed.

(** What has been colored keeps its color. *)
Lemma step_to l s s' new x : step l s s' new -> from (color_of (gs_cells s) x) = false -> color_of (gs_cells s') x = color_of (gs_cells s) x.
Proof. intros [_ _ _ _ _ S6 S7 _ _] Hx. rewrite S7. destruct (decide (x ∈ new)) as [H|H]; [|done]. apply S6 in H as [_ H]. congruence. Qed.
Lemma step_from l s s' new x : step l s s' new -> from (color_of (gs_cells s) x) = false -> from (color_of (gs_cells s') x) = false.
Proof. intros H Hx. by rewrite (step_to _ _ _ _ _ H Hx). Qed.
Lemma step_done l s s' new x : step l s s' new -> x ∈ l -> from (color_of (gs_cells s') x) = false.
Proof.
  intros [_ _ _ _ _ S6 S7 _ _] Hx. rewrite S7. destruct (decide (x ∈ new)) as [H|H]; [done|].
  destruct (from (color_of (gs_cells s) x)) eqn:E; [|done]. destruct H. by apply S6.
Qed.
End Steps.

Section Visits.
Context (touch : Z -> GC bool) (from : Z -> bool) (to d : Z) {T : Touch touch from to d}.
Notation stp := (step from to d).

Lemma touch_step ref s c : gs_cells s !! ref = Some c ->
  exists s', touch ref s = Ok (from (GC_REF_COLOR c), s') /\ stp [ref] s s' (if from (GC_REF_COLOR c) then [ref] else []).
Proof.
  intros Hc. eexists. split; [by apply touch_run|]. set (c' := touched c). assert (Hl : forall x, <[ref := c']> (gs_cells s) !! x = if decide (x = ref) then Some c' else gs_cells s !! x).
  { intros x. destruct (decide (x = ref)) as [->|]; [apply lookup_insert_eq|by rewrite lookup_insert_ne]. }
  split; cbn [gs_cells gs_gc].
  - done.
  - eapply skel_insert; [done|apply touch_skel].
  - intros x. unfold addr_of. rewrite Hl. destruct (decide (x = ref)) as [->|]; [|done]. rewrite Hc. cbn. apply touch_address.
  - intros Hr x. specialize (Hr x). unfold rc_of in *. rewrite Hl. destruct (decide (x = ref)) as [->|]; [|done]. rewrite Hc in Hr. cbn in *. by apply touch_range.
  - intros x Hx. unfold rc_of. rewrite Hl. cbn [occ]. destruct (decide (x = ref)) as [->|Hne].
    + rewrite Hc, Z.eqb_refl. cbn. rewrite Z.mul_1_r. apply touch_rc.
    + rewrite (proj2 (Z.eqb_neq ref x)) by done. cbn. by rewrite Z.mul_0_r, Z.add_0_r.
  - intros x. rewrite list_elem_of_singleton. unfold color_of. destruct (from (GC_REF_COLOR c)) eqn:E.
    + rewrite list_elem_of_singleton. split; [|tauto]. intros ->. rewrite Hc. by split.
    + split; [by intros ?%elem_of_nil|]. intros [-> H]. rewrite Hc in H. cbn in H. congruence.
  - intros x. unfold color_of. rewrite Hl. destruct (decide (x = ref)) as [->|Hne].
    + rewrite Hc. subst c'. cbn. rewrite touch_color. destruct (from (GC_REF_COLOR c)) eqn:E; destruct (decide _) as [H|H]; try done.
      * destruct H. by left.
      * by apply elem_of_nil in H.
    + destruct (decide _) as [H|H]; [|done]. destruct (from _); [by apply list_elem_of_singleton in H|by apply elem_of_nil in H].
  - destruct (from _); [apply NoDup_singleton|constructor].
  - intros Hi x e He. rewrite Hl in He. destruct (decide (x = ref)) as [->|]; [injection He as <-; by apply touch_info, (Hi ref)|by apply (Hi x)].
Qed.

Lemma visit_rest_ok l : forall stack s, (forall y, y ∈ counted l -> is_Some (gs_cells s !! y)) ->
  exists stack' s' new, visit_rest touch l stack s = Ok (stack', s') /\ stp (counted l) s s' new /\ stack' ≡ₚ new ++ stack.
Proof.
  induction l as [|[|ref b] l IH]; intros stack s Hd; cbn [visit_rest counted].
  - exists stack, s, []. split; [done|]. split; [apply step_nil|done].
  - apply IH, Hd.
  - destruct (Hd ref) as [c Hc]; [by left|]. destruct (touch_step ref s c Hc) as (s1 & Hrun & Hs1). unfold mbind, GC_bind. rewrite Hrun. cbn.
    destruct (IH (if from (GC_REF_COLOR c) then ref :: stack else stack) s1) as (stack' & s' & new & Hr & Hs & Hp).
    { intros y Hy. destruct (Hd y) as [c' Hc']; [by right|]. destruct (skel_lookup _ _ _ _ (sp_skel _ _ _ _ _ _ _ Hs1) Hc') as (e & -> & _). done. }
    exists stack', s', ((if from (GC_REF_COLOR c) then [ref] else []) ++ new). split; [exact Hr|].
    split; [by apply (step_app from to d touch_to [ref] (counted l) s s1 s')|].
    rewrite Hp. destruct (from _); cbn; [|done]. by rewrite <- Permutation_middle.
Qed.

Lemma visit_zvals_ok l : forall stack s, (forall y, y ∈ counted l -> is_Some (gs_cells s !! y)) ->
  exists next stack' s' new, visit_zvals touch l stack s = Ok ((next, stack'), s') /\ stp (counted l) s s' new /\
    option_list next ++ stack' ≡ₚ new ++ stack.
Proof.
  induction l as [|[|ref b] l IH]; intros stack s Hd; cbn [visit_zvals counted].
  - exists None, stack, s, []. split; [done|]. split; [apply step_nil|done].
  - apply IH, Hd.
  - destruct (Hd ref) as [c Hc]; [by left|]. destruct (touch_step ref s c Hc) as (s1 & Hrun & Hs1). unfold mbind, GC_bind. rewrite Hrun. cbn.
    assert (Hd1 : forall y, y ∈ counted l -> is_Some (gs_cells s1 !! y)).
    { intros y Hy. destruct (Hd y) as [c' Hc']; [by right|]. destruct (skel_lookup _ _ _ _ (sp_skel _ _ _ _ _ _ _ Hs1) Hc') as (e & -> & _). done. }
    destruct (from (GC_REF_COLOR c)) eqn:E.
    + destruct (visit_rest_ok l stack s1 Hd1) as (stack' & s' & new & Hr & Hs & Hp).
      exists (Some ref), stack', s', ([ref] ++ new). unfold mbind, GC_bind. rewrite Hr. split; [done|].
      split; [by apply (step_app from to d touch_to [ref] (counted l) s s1 s')|]. cbn. by rewrite Hp.
    + destruct (IH stack s1 Hd1) as (next & stack' & s' & new & Hr & Hs & Hp). exists next, stack', s', ([] ++ new). split; [exact Hr|].
      split; [by apply (step_app from to d touch_to [ref] (counted l) s s1 s')|done].
Qed.

(** A visit of a cell covers the cell, and the hash of an object if it has just been
    colored: that one is not put on the stack unless [push]. *)
Definition visited (cs : cells) (push : bool) (ref : Z) (stack : list Z) (next : option Z) (stack' new done : list Z) : Prop :=
  (done = [ref] /\ (option_list next ++ stack') ≡ₚ (new ++ stack)) \/
  (exists ht, done = [ref; ht] /\ cs !! ref ≫= ht_of = Some ht /\ ht ∈ new /\
    ((if push then [] else [ht]) ++ option_list next ++ stack') ≡ₚ (new ++ stack)).

Lemma visit_ht_ok ht c stack s : graph_ok (gs_cells s) -> gs_cells s !! ht = Some c -> rc_type c = IS_ARRAY ->
  exists next stack' s' new, visit_ht touch ht stack s = Ok ((next, stack'), s') /\ stp (kids c) s s' new /\
    option_list next ++ stack' ≡ₚ new ++ stack.
Proof.
  intros Hg Hc Ht. pose proof (gr_body _ Hg _ _ Hc) as Hb. pose proof (gr_kids _ Hg ht c) as Hk. unfold visit_ht. erewrite bind_run by (unfold cell; by rewrite Hc).
  unfold body_fits in Hb. unfold kids in *. rewrite Ht in *. destruct (rc_body c) as [t|????|?|]; try done. apply visit_zvals_ok. intros y Hy. by apply Hk.
Qed.

Lemma step_exists l s s' new x : stp l s s' new -> is_Some (gs_cells s !! x) -> is_Some (gs_cells s' !! x).
Proof. intros Hs [c Hc]. by destruct (skel_lookup _ _ _ _ (sp_skel _ _ _ _ _ _ _ Hs) Hc) as (e & -> & _). Qed.

Lemma rc_ranges (cs : cells) : graph_ok cs -> forall x, 0 <= rc_of cs x < 2 ^ 32.
Proof. intros Hg x. unfold rc_of. destruct (cs !! x) as [c|] eqn:E; [by apply (gr_rc _ Hg x)|done]. Qed.

Lemma step_graph l s s' new : stp l s s' new -> graph_ok (gs_cells s) -> graph_ok (gs_cells s').
Proof.
  intros Hs Hg. eapply skel_graph; [apply (sp_skel _ _ _ _ _ _ _ Hs)|done|]. apply (sp_range _ _ _ _ _ _ _ Hs). by apply rc_ranges.
Qed.

Lemma visit_cell_ok push ref c stack s : graph_ok (gs_cells s) -> gs_cells s !! ref = Some c ->
  exists next stack' s' new done, visit_cell touch push ref stack s = Ok ((next, stack'), s') /\
    stp (done ≫= kids_of (gs_cells s)) s s' new /\ visited (gs_cells s) push ref stack next stack' new done.
Proof.
  intros Hg Hc. pose proof (gr_body _ Hg _ _ Hc) as Hb. pose proof (gr_kids _ Hg ref c) as Hk. pose proof (gr_ht _ Hg ref c) as Hht.
  assert (Hkr : kids_of (gs_cells s) ref = kids c) by (unfold kids_of; by rewrite Hc).
  unfold visit_cell. erewrite bind_run by (unfold cell; by rewrite Hc). unfold body_fits in Hb.
  assert (Hplain : forall zs, kids c = counted zs -> exists next stack' s' new done, visit_zvals touch zs stack s = Ok ((next, stack'), s') /\
    stp (done ≫= kids_of (gs_cells s)) s s' new /\ visited (gs_cells s) push ref stack next stack' new done).
  { intros zs Hz. destruct (visit_zvals_ok zs stack s) as (next & stack' & s' & new & Hr & Hs & Hp).
    - intros y Hy. apply (Hk y Hc). by rewrite Hz.
    - exists next, stack', s', new, [ref]. split; [done|]. split; [cbn; by rewrite app_nil_r, Hkr, Hz|]. by left. }
  assert (Hnone : kids c = [] -> exists next stack' s' new done, (mret (None, stack) : GC _) s = Ok ((next, stack'), s') /\
    stp (done ≫= kids_of (gs_cells s)) s s' new /\ visited (gs_cells s) push ref stack next stack' new done).
  { intros Hz. exists None, stack, s, [], [ref]. split; [done|]. split; [cbn; rewrite app_nil_r, Hkr, Hz; apply step_nil|]. by left. }
  destruct (rc_type c) eqn:Et.
  - apply Hnone. unfold kids. by rewrite Et.
  - destruct (visit_ht_ok ref c stack s Hg Hc Et) as (next & stack' & s' & new & Hr & Hs & Hp).
    exists next, stack', s', new, [ref]. split; [done|]. split; [cbn; by rewrite app_nil_r, Hkr|]. by left.
  - destruct (rc_body c) as [t|table ht dt off|zv|] eqn:Eb; try done. destruct (rc_free_called c) eqn:Ef.
    { apply Hnone. unfold kids. by rewrite Et, Eb, Ef. }
    assert (Hkc : kids c = option_list ht ++ counted table) by (unfold kids; by rewrite Et, Eb, Ef).
    destruct ht as [ht|]; [|by apply Hplain].
    assert (Hto : ht_of c = Some ht) by (unfold ht_of; by rewrite Et, Eb, Ef). destruct (Hht ht Hc Hto) as (hc & Hhc & Hhty).
    destruct (touch_step ht s hc Hhc) as (s1 & Hrun & Hs1). erewrite bind_run by done.
    assert (Hd1 : forall y, y ∈ counted table -> is_Some (gs_cells s1 !! y)).
    { intros y Hy. eapply step_exists; [done|]. apply (Hk y Hc). rewrite Hkc. by right. }
    destruct (from (GC_REF_COLOR hc)) eqn:E.
    + destruct (visit_rest_ok table (if push then ht :: stack else stack) s1 Hd1) as (st2 & s2 & n2 & Hr2 & Hs2 & Hp2).
      erewrite bind_run by done. assert (Hg2 : graph_ok (gs_cells s2)) by (eapply step_graph, step_graph; done).
      assert (Hs12 : stp ([ht] ++ counted table) s s2 ([ht] ++ n2)) by (eapply step_app; [apply touch_to|done..]).
      destruct (skel_lookup _ _ _ _ (sp_skel _ _ _ _ _ _ _ Hs12) Hhc) as (h2 & Hh2 & Hsk). assert (Hty2 : rc_type h2 = IS_ARRAY) by (destruct Hsk; congruence).
      destruct (visit_ht_ok ht h2 st2 s2 Hg2 Hh2 Hty2) as (next & stack' & s' & n3 & Hr3 & Hs3 & Hp3).
      exists next, stack', s', (([ht] ++ n2) ++ n3), [ref; ht]. split; [done|]. split.
      * cbn [mbind list_bind]. rewrite app_nil_r, Hkr, Hkc. unfold kids_of at 1. rewrite Hhc. cbn [from_option].
        rewrite <- (same_skel_kids _ _ Hsk). apply (step_app from to d touch_to ([ht] ++ counted table) (kids h2) s s2 s'); done.
      * right. exists ht. split; [done|]. split; [by rewrite Hc|]. split; [by left|]. destruct push; cbn.
        -- rewrite Hp3, Hp2. solve_Permutation.
        -- rewrite Hp3, Hp2. solve_Permutation.
    + destruct (visit_zvals_ok table stack s1 Hd1) as (next & stack' & s' & n2 & Hr & Hs & Hp).
      exists next, stack', s', ([] ++ n2), [ref]. split; [done|]. split; [|by left].
      cbn [mbind list_bind]. rewrite app_nil_r, Hkr, Hkc. by apply (step_app from to d touch_to [ht] (counted table) s s1 s').
  - destruct (rc_body c) as [t|table ht dt off|zv|] eqn:Eb; try done. apply Hplain. unfold kids. by rewrite Et, Eb.
  - apply Hnone. unfold kids. by rewrite Et.
Qed.
End Visits.

(** ** Traversals that visit everything they color *)

Definition follows (K : Z -> list Z) (x y : Z) : Prop := y ∈ K x.

(** Two states with the same graph, counters and colors. *)
Definition same_marks (s s' : gc_state) : Prop :=
  skel (gs_cells s) (gs_cells s') /\
  forall x, rc_of (gs_cells s') x = rc_of (gs_cells s) x /\ color_of (gs_cells s') x = color_of (gs_cells s) x.

Lemma same_marks_refl s : same_marks s s.
Proof. done. Qed.

Section Sweep.
Context (touch : Z -> GC bool) (from : Z -> bool) (to d : Z) {T : Touch touch from to d}.
Context {A : Type} (visit : Z -> list Z -> A -> GC (option Z * list Z * A)) (J : list Z -> A -> gc_state -> Prop).

Hypothesis Hvisit : forall H ref stack acc s, J H acc s -> graph_ok (gs_cells s) -> is_Some (gs_cells s !! ref) -> color_of (gs_cells s) ref = to ->
  ref ∉ H -> exists acc' s1, same_marks s s1 /\ J (ref :: H) acc' s1 /\
    visit ref stack acc s = (r ← visit_cell touch false ref stack; mret (r.1, r.2, acc')) s1.
Hypothesis Hstep : forall H acc l s s' new, J H acc s -> step from to d l s s' new -> J H acc s'.

(** The cells [V] have been visited, [ref] first; before that the state was [s0]. *)
Record swept (s0 s : gc_state) (ref : Z) (V P : list Z) : Prop := {
  sw_skel : skel (gs_cells s0) (gs_cells s);
  sw_range : forall x, 0 <= rc_of (gs_cells s) x < 2 ^ 32;
  sw_rc : forall x, is_Some (gs_cells s0 !! x) -> u32 (rc_of (gs_cells s) x) = u32 (rc_of (gs_cells s0) x + d * edges (kids_of (gs_cells s0)) V x);
  sw_color : forall x, color_of (gs_cells s) x = if decide (x ∈ V ++ P) then to else color_of (gs_cells s0) x;
  sw_from : forall x, x ∈ V ++ P -> x = ref \/ from (color_of (gs_cells s0) x) = true;
  sw_closed : forall x y, x ∈ V -> y ∈ kids_of (gs_cells s0) x -> from (color_of (gs_cells s) y) = false;
  sw_reach : forall x, x ∈ V ++ P -> rtc (follows (kids_of (gs_cells s0))) ref x;
  sw_nodup : NoDup (V ++ P);
  sw_dom : forall x, x ∈ V ++ P -> is_Some (gs_cells s0 !! x)
}.

(** Of the cells visited, those that were not taken from the stack are hashes of others. *)
Definition inner_ht (cs : cells) (H : list Z) (x : Z) : Prop :=
  exists o c, o ∈ H /\ cs !! o = Some c /\ ht_of c = Some x.

Lemma swept_marks s0 s s1 ref V P : swept s0 s ref V P -> same_marks s s1 -> swept s0 s1 ref V P.
Proof.
  intros [] [Hs Hm]. assert (Hr : forall x, rc_of (gs_cells s1) x = rc_of (gs_cells s) x) by apply Hm.
  assert (Hc : forall x, color_of (gs_cells s1) x = color_of (gs_cells s) x) by apply Hm. split; try done.
  - by etrans.
  - intros x. by rewrite Hr.
  - intros x Hx. rewrite Hr. auto.
  - intros x. rewrite Hc. auto.
  - intros x y Hx Hy. rewrite Hc. eauto.
Qed.

Lemma swept_perm s0 s ref V V' P P' : V ≡ₚ V' -> P ≡ₚ P' -> swept s0 s ref V P -> swept s0 s ref V' P'.
Proof.
  intros HV HP []. assert (Hin : forall x, x ∈ V' ++ P' <-> x ∈ V ++ P) by (intros x; by rewrite HV, HP). split; try done.
  - intros x Hx. rewrite sw_rc0 by done. by rewrite HV.
  - intros x. rewrite sw_color0. destruct (decide (x ∈ V ++ P)) as [H|H], (decide (x ∈ V' ++ P')) as [H'|H']; try done; by rewrite Hin in H'.
  - intros x. rewrite Hin. auto.
  - intros x y Hx. rewrite <- HV in Hx. eauto.
  - intros x. rewrite Hin. auto.
  - by rewrite <- HV, <- HP.
  - intros x. rewrite Hin. auto.
Qed.

(** One visit moves cells from what is pending to what has been visited. *)
Lemma swept_step s0 s s' ref V P x next stack' new done : swept s0 s ref V (x :: P) -> graph_ok (gs_cells s0) ->
  step from to d (done ≫= kids_of (gs_cells s)) s s' new -> visited (gs_cells s) false x P next stack' new done ->
  swept s0 s' ref (V ++ done) (option_list next ++ stack').
Proof.
  intros Hsw Hg Hst Hv. pose proof Hsw as [W1 W2 W3 W4 W5 W6 W7 W8 W9]. set (K0 := kids_of (gs_cells s0)) in *.
  assert (HK : forall l, l ≫= kids_of (gs_cells s) = l ≫= K0).
  { intros l. induction l as [|a l IH]; [done|]. cbn. f_equal; [by apply skel_kids|exact IH]. }
  rewrite HK in Hst. pose proof Hst as [S1 S2 S3 S4 S5 S6 S7 S8 S9].
  assert (Hdone : done ++ option_list next ++ stack' ≡ₚ (x :: P) ++ new).
  { destruct Hv as [[-> Hp]|(ht & -> & Hho & Hht & Hp)]; [rewrite Hp; solve_Permutation|].
    cbn [app] in Hp |- *. rewrite Hp. solve_Permutation. }
  assert (Hall : (V ++ done) ++ option_list next ++ stack' ≡ₚ (V ++ x :: P) ++ new).
  { by rewrite <- app_assoc, Hdone, app_assoc. }
  assert (Hto : forall y, y ∈ V ++ x :: P -> color_of (gs_cells s) y = to).
  { intros y Hy. rewrite W4. by destruct (decide _). }
  assert (Hnew : forall y, y ∈ new -> y ∉ V ++ x :: P).
  { intros y [_ Hy]%S6 Hin. rewrite Hto in Hy by done. by rewrite touch_to in Hy. }
  assert (Hxr : rtc (follows K0) ref x) by (apply W7, elem_of_app; right; by left).
  assert (Hnr : forall y, y ∈ new -> rtc (follows K0) ref y).
  { intros y Hy. pose proof Hy as [Hy1 _]%S6. apply list_elem_of_bind in Hy1 as (a & Ha & Hda).
    destruct Hv as [[-> _]|(ht & -> & Hho & Hht & _)].
    - apply list_elem_of_singleton in Hda as ->. eapply rtc_r; [exact Hxr|done].
    - assert (Hxh : follows K0 x ht).
      { unfold follows, K0. rewrite <- (skel_kids _ _ x W1). by apply ht_kid. }
      apply elem_of_cons in Hda as [->|Hda%list_elem_of_singleton]; [by eapply rtc_r|]. subst. eapply rtc_r; [by eapply rtc_r|done]. }
  split.
  - by etrans.
  - by apply S4.
  - intros y Hy. rewrite S5, edges_app, Z.mul_add_distr_l, Z.add_assoc.
    + fold K0. unfold edges at 2. rewrite <- (u32_add_l (rc_of (gs_cells s) y)), W3 by done. by rewrite u32_add_l.
    + destruct Hy as [c Hc]. by destruct (skel_lookup _ _ _ _ W1 Hc) as (c' & -> & _).
  - intros y. rewrite S7, W4. pose proof (elem_of_app (V ++ x :: P) new y) as Hi. rewrite <- Hall in Hi.
    destruct (decide (y ∈ new)), (decide (y ∈ V ++ x :: P)), (decide (y ∈ (V ++ done) ++ option_list next ++ stack')); tauto.
  - intros y. rewrite Hall, elem_of_app. intros [Hy|Hy]; [by apply W5|]. right. pose proof Hy as [_ Hy2]%S6. rewrite W4 in Hy2.
    destruct (decide _) as [H|H]; [|done]. by destruct (Hnew y Hy).
  - intros y z Hy Hz. apply elem_of_app in Hy as [Hy|Hy].
    + eapply step_from; [exact Hst|]. by eapply W6.
    + eapply step_done; [apply touch_to|exact Hst|]. apply list_elem_of_bind. by exists y.
  - intros y. rewrite Hall, elem_of_app. intros [Hy|Hy]; auto.
  - rewrite Hall. apply NoDup_app. split; [done|]. split; [|done]. intros y Hy Hy2. by apply (Hnew y).
  - intros y. rewrite Hall, elem_of_app. intros [Hy|Hy]; [auto|]. apply S6 in Hy as [Hy _]. apply list_elem_of_bind in Hy as (a & Ha & _).
    unfold K0, kids_of in Ha. destruct (gs_cells s0 !! a) as [c|] eqn:E; [|by apply elem_of_nil in Ha]. by eapply (gr_kids _ Hg a c).
Qed.

Lemma nodup_dom (cs : cells) H : NoDup H -> (forall x, x ∈ H -> is_Some (cs !! x)) -> (length H <= size cs)%nat.
Proof.
  intros Hn Hd. rewrite <- size_dom. rewrite <- (size_list_to_set (C := gset Z) H) by done. apply subseteq_size.
  intros x Hx. apply elem_of_list_to_set in Hx. by apply elem_of_dom, Hd.
Qed.

(** [H] are the cells taken from the stack. *)
Record swept_by (s0 s : gc_state) (ref : Z) (V P H : list Z) : Prop := {
  sb_swept : swept s0 s ref V P;
  sb_nodup : NoDup H;
  sb_subset : H ⊆ V;
  sb_rest : forall x, x ∈ V -> x ∈ H \/ inner_ht (gs_cells s0) H x
}.

Lemma traverse_sweep fuel : forall ref stack acc s s0 ref0 V H, swept_by s0 s ref0 V (ref :: stack) H -> graph_ok (gs_cells s0) -> J H acc s ->
  (S (size (gs_cells s0)) <= fuel + length H)%nat ->
  exists acc' s' V' H', traverse visit fuel ref stack acc s = Ok (acc', s') /\ swept_by s0 s' ref0 V' [] H' /\ J H' acc' s' /\ V ++ [ref] ⊆ V'.
Proof.
  induction fuel as [|fuel IH]; intros ref stack acc s s0 ref0 V H [Hsw HnH HHV Hrest] Hg HJ Hf.
  - assert (length H <= size (gs_cells s0))%nat; [|lia]. apply nodup_dom; [done|]. intros x Hx. apply (sw_dom _ _ _ _ _ Hsw).
    apply elem_of_app. left. by apply HHV.
  - cbn [traverse]. assert (Hgs : graph_ok (gs_cells s)) by (eapply skel_graph; [apply (sw_skel _ _ _ _ _ Hsw)|done|apply (sw_range _ _ _ _ _ Hsw)]).
    assert (Hin : ref ∈ V ++ ref :: stack) by (apply elem_of_app; right; by left).
    pose proof (sw_dom _ _ _ _ _ Hsw ref Hin) as [c0 Hc0]. destruct (skel_lookup _ _ _ _ (sw_skel _ _ _ _ _ Hsw) Hc0) as (c & Hc & Hsk).
    assert (Hcol : color_of (gs_cells s) ref = to) by (rewrite (sw_color _ _ _ _ _ Hsw); by destruct (decide _)).
    assert (HrH : ref ∉ H).
    { intros Hx. pose proof (sw_nodup _ _ _ _ _ Hsw) as Hnd. apply NoDup_app in Hnd as (_ & Hnd & _). apply (Hnd ref); [by apply HHV|by left]. }
    destruct (Hvisit H ref stack acc s HJ Hgs ltac:(by eexists) Hcol HrH) as (acc1 & s1 & Hm & HJ1 & Hrun).
    assert (Hsw1 : swept s0 s1 ref0 V (ref :: stack)) by (by eapply swept_marks).
    assert (Hg1 : graph_ok (gs_cells s1)) by (eapply skel_graph; [apply (sw_skel _ _ _ _ _ Hsw1)|done|apply (sw_range _ _ _ _ _ Hsw1)]).
    destruct (skel_lookup _ _ _ _ (proj1 Hm) Hc) as (c1 & Hc1 & Hsk1).
    destruct (visit_cell_ok touch from to d false ref c1 stack s1 Hg1 Hc1) as (next & stack' & s2 & new & done_ & Hr & Hst & Hv).
    pose proof (swept_step s0 s1 s2 ref0 V stack ref next stack' new done_ Hsw1 Hg Hst Hv) as Hsw2.
    pose proof (Hstep _ _ _ _ _ _ HJ1 Hst) as HJ2.
    assert (Hdn : ref ∈ done_) by (destruct Hv as [[-> _]|(ht & -> & _)]; by left).
    assert (Hrun2 : visit ref stack acc s = Ok ((next, stack', acc1), s2)).
    { rewrite Hrun. unfold mbind, GC_bind. by rewrite Hr. }
    assert (Hrest2 : forall x, x ∈ V ++ done_ -> x ∈ ref :: H \/ inner_ht (gs_cells s0) (ref :: H) x).
    { intros x [Hx|Hx]%elem_of_app.
      - destruct (Hrest x Hx) as [?|(o & co & Ho & ?)]; [left; by right|right]. exists o, co. split; [by right|done].
      - destruct Hv as [[-> _]|(ht & -> & Hho & _)]; [apply list_elem_of_singleton in Hx as ->; left; by left|].
        apply elem_of_cons in Hx as [->|Hx%list_elem_of_singleton]; [left; by left|]. subst x. right. exists ref, c0. split; [by left|]. split; [done|].
        rewrite Hc1 in Hho. cbn in Hho. by rewrite <- (same_skel_ht _ _ Hsk), <- (same_skel_ht _ _ Hsk1). }
    assert (Hby : forall P', option_list next ++ stack' = P' -> swept_by s0 s2 ref0 (V ++ done_) P' (ref :: H)).
    { intros P' <-. split; [done| |..].
      - by constructor.
      - intros x [->|Hx]%elem_of_cons; apply elem_of_app; [by right|left; by apply HHV].
      - done. }
    unfold mbind at 1, GC_bind at 1. rewrite Hrun2. cbn -[traverse].
    assert (Hgo : forall r st, option_list next ++ stack' = r :: st ->
      exists acc' s' V' H', traverse visit fuel r st acc1 s2 = Ok (acc', s') /\ swept_by s0 s' ref0 V' [] H' /\ J H' acc' s' /\ V ++ [ref] ⊆ V').
    { intros r st Heq. destruct (IH r st acc1 s2 s0 ref0 (V ++ done_) (ref :: H) (Hby _ Heq) Hg HJ2 ltac:(cbn; lia)) as (acc' & s' & V' & H' & Hr' & Hs' & HJ' & Hsub).
      exists acc', s', V', H'. split; [done|]. split; [done|]. split; [done|]. intros x Hx. apply Hsub. apply elem_of_app. left.
      apply elem_of_app in Hx as [Hx|Hx%list_elem_of_singleton]; apply elem_of_app; [by left|right; by subst]. }
    destruct next as [r|]; [by apply Hgo|]. destruct stack' as [|r st]; [|by apply Hgo].
    exists acc1, s2, (V ++ done_), (ref :: H). split; [done|]. split; [by apply Hby|]. split; [done|].
    intros x [Hx|Hx%list_elem_of_singleton]%elem_of_app; apply elem_of_app; [by left|right; by subst].
Qed.

Lemma swept_start s ref : graph_ok (gs_cells s) -> is_Some (gs_cells s !! ref) -> color_of (gs_cells s) ref = to -> swept_by s s ref [] [ref] [].
Proof.
  intros Hg Hd Hc. split; [|constructor|done|by intros x ?%elem_of_nil]. split; cbn [app].
  - done.
  - by apply rc_ranges.
  - intros x _. unfold edges. cbn. by rewrite Z.mul_0_r, Z.add_0_r.
  - intros x. destruct (decide (x ∈ [ref])) as [H|H]; [|done]. by apply list_elem_of_singleton in H as ->.
  - intros x Hx. left. by apply list_elem_of_singleton in Hx.
  - by intros x y ?%elem_of_nil.
  - intros x ->%list_elem_of_singleton. apply rtc_refl.
  - apply NoDup_singleton.
  - by intros x ->%list_elem_of_singleton.
Qed.

(** A traversal from a cell that already has its color. *)
Lemma sweep_ok s ref acc : graph_ok (gs_cells s) -> is_Some (gs_cells s !! ref) -> color_of (gs_cells s) ref = to -> J [] acc s ->
  exists acc' s' V H, traverse visit (S (size (gs_cells s))) ref [] acc s = Ok (acc', s') /\ swept_by s s' ref V [] H /\ J H acc' s' /\ ref ∈ V.
Proof.
  intros Hg Hd Hc HJ. destruct (traverse_sweep (S (size (gs_cells s))) ref [] acc s s ref [] [] (swept_start s ref Hg Hd Hc) Hg HJ ltac:(cbn; lia))
    as (acc' & s' & V & H & Hr & Hs & HJ' & Hsub). exists acc', s', V, H. split; [done|]. split; [done|]. split; [done|]. apply Hsub. by left.
Qed.
End Sweep.
