(* ===== verification/GcRoots.v ===== *)
(** * The buffer of roots

    A place of the buffer is free, and linked in the list of unused places, or holds a
    tagged pointer to a cell, which knows its place by the address in [GC_INFO]. The two
    fingers of gc_compact move the used places to the front; the buffer holds the same
    pointers afterwards, and the cells know their new places. *)

From S2P Require Import Prelude.
From S2P Require Import GcOps.
From S2P Require Import GcGraph.

(** ** Tagged pointers, links, compressed indices *)

(** Cells are aligned, and above all values a link can have. *)
Definition cell_addr (p : Z) : Prop := 2 ^ 34 <= p /\ p mod 8 = 0.
Definition tag_ok (t : Z) : Prop := t = GC_ROOT \/ t = GC_GARBAGE \/ t = GC_DTOR_GARBAGE.

Lemma get_ptr_mod x : GC_GET_PTR x = x - x mod 4.
Proof.
  unfold GC_GET_PTR, GC_BITS. replace (Z.land x (Z.lnot 3)) with (Z.ldiff x (Z.ones 2)) by (by rewrite Z.ldiff_land).
  rewrite Z.ldiff_ones_r by lia. rewrite Z.shiftr_div_pow2, Z.shiftl_mul_pow2 by lia. change (2 ^ 2) with 4. pose proof (Z.div_mod x 4). lia.
Qed.
Lemma tag_mod x : Z.land x GC_BITS = x mod 4.
Proof. change GC_BITS with (Z.ones 2). by rewrite Z.land_ones. Qed.

Lemma addr_mod4 p : cell_addr p -> p mod 4 = 0.
Proof. intros [_ H]. replace 8 with (4 * 2) in H by done. pose proof (Z.div_mod p (4 * 2) ltac:(done)). rewrite H in *. rewrite Z.add_0_r in *.
  replace p with (2 * (p / (4 * 2)) * 4) by lia. apply Z.mod_mul. done. Qed.
Lemma tagged_mod p t : cell_addr p -> tag_ok t -> (p + t) mod 4 = t.
Proof. intros Hp Ht. rewrite Zplus_mod, (addr_mod4 p Hp). by destruct Ht as [->|[->| ->]]. Qed.
Lemma get_ptr_tagged p t : cell_addr p -> tag_ok t -> GC_GET_PTR (p + t) = p.
Proof. intros Hp Ht. rewrite get_ptr_mod, tagged_mod by done. lia. Qed.
Lemma tag_tagged p t : cell_addr p -> tag_ok t -> Z.land (p + t) GC_BITS = t.
Proof. intros Hp Ht. by rewrite tag_mod, tagged_mod. Qed.
Lemma lor_tag p t : p mod 4 = 0 -> 0 <= t < 4 -> Z.lor p t = p + t.
Proof.
  intros Hp Ht. rewrite <- Z.lxor_lor, <- Z.add_nocarry_lxor; [done|..];
    (apply Z.bits_inj'; intros n Hn; rewrite Z.land_spec, Z.bits_0; destruct (Z.ltb_spec n 2);
     [replace p with (p / 4 * 2 ^ 2) by (change (2 ^ 2) with 4; pose proof (Z.div_mod p 4); lia); by rewrite Z.mul_pow2_bits_low
     |destruct (Z.eq_dec t 0) as [->|]; [by rewrite Z.bits_0, andb_false_r|];
      rewrite (Z.bits_above_log2 t n), andb_false_r; [done|lia|]; assert (Z.log2 t < 2) by (apply Z.log2_lt_pow2; lia); lia]).
Qed.
Lemma make_garbage p : cell_addr p -> GC_MAKE_GARBAGE p = p + GC_GARBAGE.
Proof. intros Hp. apply lor_tag; [by apply addr_mod4|done]. Qed.
Lemma make_dtor_garbage p : cell_addr p -> GC_MAKE_DTOR_GARBAGE p = p + GC_DTOR_GARBAGE.
Proof. intros Hp. apply lor_tag; [by apply addr_mod4|done]. Qed.

Lemma idx2list i : 0 <= i -> GC_IDX2LIST i = 8 * i + 1.
Proof.
  intros Hi. unfold GC_IDX2LIST. rewrite lor_tag; [unfold GC_UNUSED; lia| |done]. replace (i * 8) with (2 * i * 4) by lia. by apply Z.mod_mul.
Qed.
Lemma link_mod i : (8 * i + 1) mod 4 = 1.
Proof. replace (8 * i + 1) with (1 + 2 * i * 4) by lia. by rewrite Z.mod_add. Qed.
Lemma list2idx i : 0 <= i < 2 ^ 29 -> GC_LIST2IDX (8 * i + 1) = i.
Proof. intros Hi. unfold GC_LIST2IDX. rewrite u32_small by lia. replace (8 * i + 1) with (1 + i * 8) by lia. by rewrite Z.div_add, Z.add_0_l. Qed.

Lemma compress_add i : 0 <= i -> gc_compress i = if i <? 2 ^ 19 then i else i mod 2 ^ 19 + 2 ^ 19.
Proof.
  intros Hi. unfold gc_compress. change GC_MAX_UNCOMPRESSED with (2 ^ 19). destruct (Z.ltb_spec i (2 ^ 19)); [done|].
  pose proof (Z.mod_pos_bound i (2 ^ 19)). rewrite <- Z.lxor_lor, <- Z.add_nocarry_lxor; [done|..];
    (apply Z.bits_inj'; intros n Hn; rewrite Z.land_spec, Z.bits_0; destruct (Z.ltb_spec n 19);
     [rewrite (Z.pow2_bits_false 19 n), andb_false_r by lia; done
     |destruct (Z.eq_dec (i mod 2 ^ 19) 0) as [->|]; [by rewrite Z.bits_0|];
      rewrite (Z.bits_above_log2 (i mod 2 ^ 19) n); [done|lia|]; assert (Z.log2 (i mod 2 ^ 19) < 19) by (apply Z.log2_lt_pow2; lia); lia]).
Qed.
Lemma compress_range i : 1 <= i -> 1 <= gc_compress i < 2 ^ 20.
Proof. intros Hi. rewrite compress_add by lia. pose proof (Z.mod_pos_bound i (2 ^ 19)). destruct (Z.ltb_spec i (2 ^ 19)); lia. Qed.
Lemma compress_mod i : 0 <= i -> gc_compress i mod 2 ^ 19 = i mod 2 ^ 19.
Proof.
  intros Hi. rewrite compress_add by lia. destruct (Z.ltb_spec i (2 ^ 19)); [done|]. replace (2 ^ 19) with (1 * 2 ^ 19) at 2 by done.
  rewrite Z.mod_add by done. by rewrite Z.mod_mod.
Qed.

(** The info of a cell in the buffer: an address and a color. *)
Lemma info_parts a k c : 0 <= a < 2 ^ 20 -> is_color k ->
  GC_REF_ADDRESS (GC_REF_SET_INFO (Z.lor a k) c) = a /\ GC_REF_COLOR (GC_REF_SET_INFO (Z.lor a k) c) = k.
Proof.
  intros Ha Hk. unfold GC_REF_ADDRESS, GC_REF_COLOR, GC_REF_SET_INFO. cbn. rewrite !Z.land_lor_distr_l.
  assert (Z.land a GC_ADDRESS = a) as -> by (change GC_ADDRESS with (Z.ones 20); rewrite Z.land_ones by done; by apply Z.mod_small).
  assert (Z.land k GC_ADDRESS = 0) as -> by (by destruct Hk as [->|[->|[->| ->]]]).
  assert (Z.land k GC_COLOR = k) as -> by (by destruct Hk as [->|[->|[->| ->]]]).
  assert (Z.land a GC_COLOR = 0) as ->; [|by rewrite Z.lor_0_r, Z.lor_0_l].
  assert (Z.land a GC_ADDRESS = a) as <- by (change GC_ADDRESS with (Z.ones 20); rewrite Z.land_ones by done; by apply Z.mod_small).
  by rewrite <- Z.land_assoc, Z.land_0_r.
Qed.

Lemma info_range_parts a k : 0 <= a < 2 ^ 20 -> is_color k -> info_range (Z.lor a k).
Proof.
  intros Ha Hk. unfold info_range. assert (Hz : Z.lor a k = Z.land (Z.lor a k) (Z.ones 22)).
  { rewrite Z.land_lor_distr_l, (Z.land_ones a), (Z.mod_small a) by lia. by destruct Hk as [->|[->|[->| ->]]]. }
  rewrite Hz, Z.land_ones by lia. apply Z.mod_pos_bound. lia.
Qed.

(** ** What the buffer holds *)

Fixpoint links (buf : list Z) (i : Z) (U : list Z) : Prop :=
  match U with
  | [] => i = GC_INVALID
  | j :: U => i = j /\ 1 <= j /\ exists k, zget buf j = Some (8 * k + 1) /\ 0 <= k /\ links buf k U
  end.

(** [U] are the unused places, in the order of their list; [E] says what the others
    hold, [X] is a place that has been taken and not yet written. *)
Record buf_inv (g : zend_gc_globals) (U : list Z) (E : gmap Z (Z * Z)) (X : option Z) : Prop := {
  bo_len : zlen (gc_buf g) = gc_buf_size g;
  bo_first : 1 <= gc_first_unused g <= gc_buf_size g;
  bo_small : gc_first_unused g <= 2 ^ 29;
  bo_links : links (gc_buf g) (gc_unused g) U;
  bo_nodup : NoDup U;
  bo_free : forall i, i ∈ U -> 1 <= i < gc_first_unused g /\ E !! i = None;
  bo_cover : forall i, 1 <= i < gc_first_unused g -> i ∈ U \/ is_Some (E !! i) \/ X = Some i;
  bo_entry : forall i p t, E !! i = Some (p, t) -> 1 <= i < gc_first_unused g /\ zget (gc_buf g) i = Some (p + t) /\ cell_addr p /\ tag_ok t;
  bo_num : gc_num_roots g = Z.of_nat (size E);
  bo_total : gc_first_unused g = 1 + zlen U + Z.of_nat (size E) + zlen (option_list X);
  bo_taken : forall i, X = Some i -> 1 <= i < gc_first_unused g /\ E !! i = None /\ i ∉ U
}.
Notation buf_ok g U E := (buf_inv g U E None).

(** The cells and the buffer agree. *)
Record addr_ok (cs : cells) (E : gmap Z (Z * Z)) : Prop := {
  ad_entry : forall i p t, E !! i = Some (p, t) -> is_Some (cs !! p) /\ addr_of cs p = gc_compress i;
  ad_inj : forall i j p t t', E !! i = Some (p, t) -> E !! j = Some (p, t') -> i = j;
  ad_back : forall p, addr_of cs p <> 0 -> exists i t, E !! i = Some (p, t);
  ad_cells : forall p, is_Some (cs !! p) -> cell_addr p
}.

Lemma skel_exists cs cs' x : skel cs cs' -> is_Some (cs' !! x) <-> is_Some (cs !! x).
Proof. intros H. specialize (H x). destruct (cs !! x), (cs' !! x); split; done. Qed.
Lemma addr_ok_skel cs cs' E : skel cs cs' -> (forall x, addr_of cs' x = addr_of cs x) -> addr_ok cs E -> addr_ok cs' E.
Proof.
  intros Hs Ha [A1 A2 A3 A4]. split; [|done| |].
  - intros i p t Hi. rewrite (skel_exists cs), Ha by done. by apply (A1 i p t).
  - intros p. rewrite Ha. apply A3.
  - intros p. rewrite (skel_exists cs) by done. apply A4.
Qed.

Lemma links_frame buf buf' i U : (forall j, j ∈ U -> zget buf' j = zget buf j) -> links buf i U -> links buf' i U.
Proof.
  revert i. induction U as [|j U IH]; intros i Hf H; [done|]. destruct H as (-> & Hj & k & Hk & Hk0 & HU). split; [done|]. split; [done|].
  exists k. rewrite Hf by (by left). split; [done|]. split; [done|]. apply IH; [|done]. intros l Hl. apply Hf. by right.
Qed.

Lemma links_bound buf i U n : links buf i U -> (forall j, j ∈ U -> 1 <= j < n) -> 0 < n -> 0 <= i < n.
Proof. intros Hl Hn H0. destruct U as [|j U]; [cbn in Hl; subst; done|]. destruct Hl as (-> & _). specialize (Hn j ltac:(by left)). lia. Qed.

(** ** Access *)

Lemma root_at_run i e s : zget (gc_buf (gs_gc s)) i = Some e -> root_at i s = Ok (e, s).
Proof. intros H. unfold root_at, mbind, GC_bind, globals, gc_lift. cbn. unfold rd. by rewrite H. Qed.
Lemma set_root_run i p s : 0 <= i < zlen (gc_buf (gs_gc s)) ->
  set_root i p s = Ok (tt, mkGc (gs_cells s) (set_buf (zset (gc_buf (gs_gc s)) i p) (gc_buf_size (gs_gc s)) (gs_gc s))).
Proof.
  intros H. unfold set_root, mbind, GC_bind, globals, gc_lift, upd, wr, in_range. cbn. rewrite (proj2 (Z.leb_le _ _)), (proj2 (Z.ltb_lt _ _)) by lia. done.
Qed.
Lemma upd_run f s : upd f s = Ok (tt, mkGc (gs_cells s) (f (gs_gc s))).
Proof. done. Qed.
Lemma assert_run b s : b = true -> gc_assert b s = Ok (tt, s).
Proof. by intros ->. Qed.
Lemma globals_bind {B} (f : zend_gc_globals -> GC B) s : (globals ≫= f) s = f (gs_gc s) s.
Proof. done. Qed.

Section Buffer.
Context (g : zend_gc_globals) (U : list Z) (E : gmap Z (Z * Z)).
Hypothesis Hb : buf_ok g U E.

Lemma entry_tag i p t : E !! i = Some (p, t) -> GC_GET_PTR (p + t) = p /\ Z.land (p + t) GC_BITS = t /\ GC_IS_UNUSED (p + t) = false.
Proof.
  intros H. destruct (bo_entry _ _ _ _ Hb i p t H) as (_ & _ & Hp & Ht). split; [by apply get_ptr_tagged|]. split; [by apply tag_tagged|].
  unfold GC_IS_UNUSED. rewrite tag_tagged by done. by destruct Ht as [->|[->| ->]].
Qed.
Lemma free_entry i : i ∈ U -> exists k, zget (gc_buf g) i = Some (8 * k + 1) /\ 0 <= k < 2 ^ 29.
Proof.
  intros Hi. pose proof (bo_links _ _ _ _ Hb) as Hl. pose proof (bo_small _ _ _ _ Hb). pose proof (bo_first _ _ _ _ Hb).
  assert (Hf : forall j, j ∈ U -> 1 <= j < gc_first_unused g) by (intros j Hj; by apply (bo_free _ _ _ _ Hb)).
  clear Hb. revert Hi Hl Hf. generalize (gc_unused g). induction U as [|j V IH]; intros u Hi Hl Hf; [by apply elem_of_nil in Hi|].
  destruct Hl as (-> & Hj & k & Hk & Hk0 & HV). assert (HfV : forall l, l ∈ V -> 1 <= l < gc_first_unused g) by (intros l Hl; apply Hf; by right).
  apply elem_of_cons in Hi as [->|Hi]; [|by apply (IH k)]. exists k. split; [done|]. pose proof (links_bound _ _ _ _ HV HfV). lia.
Qed.
Lemma is_unused_link k : GC_IS_UNUSED (8 * k + 1) = true.
Proof. unfold GC_IS_UNUSED. by rewrite tag_mod, link_mod. Qed.

(** Whether a place is free can be read off its tag. *)
Lemma place_tag i : 1 <= i < gc_first_unused g -> exists e, zget (gc_buf g) i = Some e /\ (GC_IS_UNUSED e = true <-> i ∈ U).
Proof.
  intros Hi. destruct (bo_cover _ _ _ _ Hb i Hi) as [HU|[[[p t] HE]|?]]; [| |done].
  - destruct (free_entry i HU) as (k & Hk & _). exists (8 * k + 1). split; [done|]. by rewrite is_unused_link.
  - exists (p + t). split; [by apply (bo_entry _ _ _ _ Hb)|]. rewrite (proj2 (proj2 (entry_tag i p t HE))). split; [done|].
    intros HU. apply (bo_free _ _ _ _ Hb) in HU as [_ HU]. congruence.
Qed.
End Buffer.

(** Two buffers of the same size under the same settings. *)
Definition same_ctl (g g' : zend_gc_globals) : Prop :=
  gc_enabled_ g' = gc_enabled_ g /\ gc_active g' = gc_active g /\ gc_protected_ g' = gc_protected_ g /\ gc_full g' = gc_full g /\
  gc_threshold g' = gc_threshold g /\ gc_runs g' = gc_runs g /\ gc_collected g' = gc_collected g.
#[export] Instance same_ctl_preorder : PreOrder same_ctl.
Proof. split; [done|]. intros g g' g'' (?&?&?&?&?&?&?) (?&?&?&?&?&?&?). repeat split; congruence. Qed.

Lemma link_unused_run i cs g : 0 <= i < zlen (gc_buf g) -> gc_link_unused i (mkGc cs g) =
  Ok (tt, mkGc cs (set_unused i (gc_first_unused g) (gc_num_roots g) (set_buf (zset (gc_buf g) i (GC_IDX2LIST (gc_unused g))) (gc_buf_size g) g))).
Proof. intros Hi. unfold gc_link_unused. rewrite globals_bind. by erewrite bind_run by (by apply set_root_run). Qed.

Lemma remove_from_roots_ok cs g U E i pt : buf_ok g U E -> E !! i = Some pt ->
  exists g', gc_remove_from_roots i (mkGc cs g) = Ok (tt, mkGc cs g') /\ buf_ok g' (i :: U) (delete i E) /\ same_ctl g g' /\
    gc_buf_size g' = gc_buf_size g /\ gc_first_unused g' = gc_first_unused g.
Proof.
  intros Hb He. destruct pt as [p t]. destruct (bo_entry _ _ _ _ Hb i p t He) as (Hi & Hz & Hp & Ht). pose proof (bo_first _ _ _ _ Hb). pose proof (bo_len _ _ _ _ Hb) as Hlen.
  pose proof (bo_small _ _ _ _ Hb).
  assert (Hun : 0 <= gc_unused g).
  { pose proof (bo_links _ _ _ _ Hb) as Hl. destruct U as [|j U']; [cbn in Hl; by rewrite Hl|]. destruct Hl as (-> & ? & _). lia. }
  assert (HiU : i ∉ U) by (intros HU; apply (bo_free _ _ _ _ Hb) in HU as [_ HU]; congruence).
  assert (Hpos : (0 < size E)%nat).
  { destruct (size E) eqn:Es; [|lia]. apply map_size_empty_inv in Es. subst E. by rewrite lookup_empty in He. }
  eexists. split; [unfold gc_remove_from_roots; erewrite bind_run by (apply link_unused_run; lia); reflexivity|].
  cbn [gs_cells gs_gc set_buf set_unused gc_buf gc_buf_size gc_unused gc_first_unused gc_num_roots]. rewrite idx2list by done.
  assert (Hnum : gc_num_roots g = Z.of_nat (size E)) by apply (bo_num _ _ _ _ Hb). pose proof (bo_total _ _ _ _ Hb) as Htot.
  pose proof (zlen_nonneg U). change (zlen (option_list None)) with 0 in Htot.
  assert (HnumS : gc_num_roots g - 1 = Z.of_nat (size (delete i E))).
  { rewrite map_size_delete_Some by (by eexists). lia. }
  split; [|done]. split; cbn [gc_buf gc_buf_size gc_unused gc_first_unused gc_num_roots set_unused set_buf].
  - by rewrite zlen_zset.
  - done.
  - done.
  - cbn [links]. split; [done|]. split; [lia|]. exists (gc_unused g). split; [apply zget_zset_eq; lia|]. split; [done|].
    eapply links_frame; [|apply (bo_links _ _ _ _ Hb)]. intros j Hj. apply zget_zset_ne; [lia|]. by intros ->.
  - constructor; [done|apply (bo_nodup _ _ _ _ Hb)].
  - intros j [->|Hj]%elem_of_cons; [split; [done|apply lookup_delete_eq]|]. destruct (bo_free _ _ _ _ Hb j Hj) as [? Hn]. split; [done|].
    destruct (decide (i = j)) as [->|]; [apply lookup_delete_eq|by rewrite lookup_delete_ne].
  - intros j Hj. destruct (decide (i = j)) as [->|]; [left; by left|]. rewrite lookup_delete_ne by done.
    destruct (bo_cover _ _ _ _ Hb j Hj) as [?|[?|?]]; [left; by right|right; by left|done].
  - intros j q u Hj. apply lookup_delete_Some in Hj as [Hne Hj]. destruct (bo_entry _ _ _ _ Hb j q u Hj) as (? & Hq & ? & ?). split; [done|].
    rewrite zget_zset_ne by (lia || done). done.
  - rewrite u32_small; [exact HnumS|lia].
  - rewrite zlen_cons. change (zlen (option_list None)) with 0. lia.
  - done.
Qed.

(** ** A place for a root *)

Lemma links_head g U E X : buf_inv g U E X -> 0 <= gc_unused g < 2 ^ 29.
Proof.
  intros Hb. pose proof (bo_links _ _ _ _ Hb) as Hl. destruct U as [|j U]; [cbn in Hl; by rewrite Hl|]. destruct Hl as (-> & _).
  pose proof (bo_small _ _ _ _ Hb). destruct (bo_free _ _ _ _ Hb j) as [? _]; [by left|lia].
Qed.

Lemma fetch_unused_ok cs g j U E : buf_ok g (j :: U) E ->
  exists g', gc_fetch_unused (mkGc cs g) = Ok (j, mkGc cs g') /\ buf_inv g' U E (Some j) /\ same_ctl g g' /\
    gc_buf_size g' = gc_buf_size g /\ gc_first_unused g' = gc_first_unused g.
Proof.
  intros Hb. pose proof (bo_links _ _ _ _ Hb) as (Hu & Hj & k & Hk & Hk0 & HU). destruct (bo_free _ _ _ _ Hb j) as [Hj2 HjE]; [by left|].
  pose proof (bo_small _ _ _ _ Hb). pose proof (bo_nodup _ _ _ _ Hb) as [HjU HnU]%NoDup_cons.
  assert (Hkb : 0 <= k < gc_first_unused g).
  { eapply links_bound; [exact HU| |lia]. intros i Hi. apply (bo_free _ _ _ _ Hb). by right. }
  eexists. split.
  { unfold gc_fetch_unused. rewrite globals_bind. cbn [gs_gc]. rewrite Hu. erewrite bind_run by (apply assert_run; apply negb_true_iff, Z.eqb_neq; unfold GC_INVALID; lia).
    erewrite bind_run by (by apply root_at_run). erewrite bind_run by (apply assert_run, is_unused_link). rewrite list2idx by lia. reflexivity. }
  split; [|done]. split; cbn [set_unused gc_buf gc_buf_size gc_unused gc_first_unused gc_num_roots].
  - apply (bo_len _ _ _ _ Hb).
  - apply (bo_first _ _ _ _ Hb).
  - done.
  - done.
  - done.
  - intros i Hi. apply (bo_free _ _ _ _ Hb). by right.
  - intros i Hi. destruct (bo_cover _ _ _ _ Hb i Hi) as [[->|?]%elem_of_cons|[?|?]]; [by right; right|by left|right; by left|done].
  - apply (bo_entry _ _ _ _ Hb).
  - apply (bo_num _ _ _ _ Hb).
  - pose proof (bo_total _ _ _ _ Hb) as Ht. rewrite zlen_cons in Ht. change (zlen (option_list None)) with 0 in Ht. change (zlen (option_list (Some j))) with 1. lia.
  - by intros i [= <-].
Qed.

Lemma fetch_next_unused_ok cs g E : buf_ok g [] E -> gc_first_unused g < 2 ^ 29 -> gc_first_unused g <> gc_buf_size g ->
  exists g', gc_fetch_next_unused (mkGc cs g) = Ok (gc_first_unused g, mkGc cs g') /\ buf_inv g' [] E (Some (gc_first_unused g)) /\ same_ctl g g' /\
    gc_buf_size g' = gc_buf_size g /\ gc_first_unused g' = gc_first_unused g + 1.
Proof.
  intros Hb Hs Hne. pose proof (bo_first _ _ _ _ Hb). pose proof (bo_total _ _ _ _ Hb) as Ht.
  assert (HE : E !! gc_first_unused g = None).
  { destruct (E !! gc_first_unused g) as [[p t]|] eqn:He; [|done]. apply (bo_entry _ _ _ _ Hb) in He. lia. }
  eexists. split.
  { unfold gc_fetch_next_unused. rewrite globals_bind. cbn [gs_gc]. erewrite bind_run by (apply assert_run; by apply negb_true_iff, Z.eqb_neq). reflexivity. }
  cbn [gs_gc set_unused gc_buf_size gc_first_unused]. rewrite u32_small by lia. split; [|done].
  split; cbn [gs_gc set_unused gc_buf gc_buf_size gc_unused gc_first_unused gc_num_roots].
  - apply (bo_len _ _ _ _ Hb).
  - lia.
  - lia.
  - apply (bo_links _ _ _ _ Hb).
  - constructor.
  - by intros i ?%elem_of_nil.
  - intros i Hi. destruct (decide (i = gc_first_unused g)) as [->|]; [by right; right|].
    destruct (bo_cover _ _ _ _ Hb i ltac:(lia)) as [?|[?|?]]; [by left|right; by left|done].
  - intros i p t Hi. destruct (bo_entry _ _ _ _ Hb i p t Hi) as (? & ?). split; [lia|done].
  - apply (bo_num _ _ _ _ Hb).
  - change (zlen (option_list None)) with 0 in Ht. change (zlen (option_list (Some (gc_first_unused g)))) with 1. lia.
  - intros i [= <-]. split; [lia|]. split; [done|]. by intros ?%elem_of_nil.
Qed.

Lemma grow_ok cs g U E : buf_ok g U E -> gc_buf_size g < GC_MAX_BUF_SIZE ->
  exists g', gc_grow_root_buffer (mkGc cs g) = Ok (tt, mkGc cs g') /\ buf_ok g' U E /\ same_ctl g g' /\
    gc_buf_size g < gc_buf_size g' <= GC_MAX_BUF_SIZE /\ gc_first_unused g' = gc_first_unused g /\ gc_unused g' = gc_unused g.
Proof.
  intros Hb Hs. unfold gc_grow_root_buffer. rewrite globals_bind. cbn [gs_gc]. destruct (Z.leb_spec GC_MAX_BUF_SIZE (gc_buf_size g)); [lia|]. cbn [andb].
  set (n1 := if gc_buf_size g <? _ then _ else _). set (n := if GC_MAX_BUF_SIZE <? n1 then _ else n1). pose proof (bo_first _ _ _ _ Hb).
  assert (gc_buf_size g < n <= GC_MAX_BUF_SIZE).
  { assert (gc_buf_size g < n1) by (subst n1; destruct (gc_buf_size g <? GC_BUF_GROW_STEP); unfold GC_BUF_GROW_STEP; lia). subst n. destruct (Z.ltb_spec GC_MAX_BUF_SIZE n1); unfold GC_MAX_BUF_SIZE in *; lia. }
  eexists. split; [reflexivity|]. cbn [set_buf gc_buf_size gc_first_unused gc_unused]. split; [|done]. split; cbn [gs_gc set_buf gc_buf gc_buf_size gc_unused gc_first_unused gc_num_roots].
  - rewrite zlen_app, zlen_replicate, (bo_len _ _ _ _ Hb). lia.
  - lia.
  - apply (bo_small _ _ _ _ Hb).
  - eapply links_frame; [|apply (bo_links _ _ _ _ Hb)]. intros j Hj. apply zget_app_l. rewrite (bo_len _ _ _ _ Hb).
    apply (bo_free _ _ _ _ Hb) in Hj. lia.
  - apply (bo_nodup _ _ _ _ Hb).
  - apply (bo_free _ _ _ _ Hb).
  - apply (bo_cover _ _ _ _ Hb).
  - intros i p t Hi. destruct (bo_entry _ _ _ _ Hb i p t Hi) as (? & ? & ?). split; [done|]. split; [|done].
    rewrite zget_app_l; [done|]. rewrite (bo_len _ _ _ _ Hb). lia.
  - apply (bo_num _ _ _ _ Hb).
  - apply (bo_total _ _ _ _ Hb).
  - done.
Qed.

(** There is a place as long as the indices fit their list. *)
Lemma fetch_root_ok cs g U E : buf_ok g U E -> gc_first_unused g < 2 ^ 29 ->
  exists i g' U', fetch_root (mkGc cs g) = Ok (Some i, mkGc cs g') /\ buf_inv g' U' E (Some i) /\ same_ctl g g' /\ U' = tail U /\
    gc_first_unused g <= gc_first_unused g' <= gc_first_unused g + 1 /\ (U = [] -> i = gc_first_unused g).
Proof.
  intros Hb Hs. unfold fetch_root. rewrite globals_bind. cbn [gs_gc]. destruct U as [|j U].
  - pose proof (bo_links _ _ _ _ Hb) as Hl. cbn in Hl. rewrite Hl. cbn [negb Z.eqb GC_INVALID].
    destruct (Z.eqb_spec (gc_first_unused g) (gc_buf_size g)) as [He|Hne]; cbn [negb].
    + destruct (grow_ok cs g [] E Hb) as (g1 & Hr1 & Hb1 & Hc1 & Hn & Hf & _); [unfold GC_MAX_BUF_SIZE; lia|].
      erewrite bind_run by exact Hr1. rewrite globals_bind. cbn [gs_gc]. destruct (Z.eqb_spec (gc_first_unused g1) (gc_buf_size g1)); [lia|].
      destruct (fetch_next_unused_ok cs g1 E Hb1 ltac:(lia) ltac:(done)) as (g2 & Hr2 & Hb2 & Hc2 & _ & Hf2).
      exists (gc_first_unused g1), g2, []. split; [by erewrite bind_run by exact Hr2|]. split; [done|]. split; [by etrans|]. split; [done|]. split; [lia|]. intros _. lia.
    + destruct (fetch_next_unused_ok cs g E Hb Hs Hne) as (g2 & Hr2 & Hb2 & Hc2 & _ & Hf2).
      exists (gc_first_unused g), g2, []. split; [by erewrite bind_run by exact Hr2|]. split; [done|]. split; [done|]. split; [done|]. split; [lia|done].
  - pose proof (bo_links _ _ _ _ Hb) as (Hu & Hj & _). rewrite Hu. destruct (Z.eqb_spec j GC_INVALID) as [?|_]; [unfold GC_INVALID in *; lia|]. cbn [negb].
    destruct (fetch_unused_ok cs g j U E Hb) as (g2 & Hr2 & Hb2 & Hc2 & _ & Hf2).
    exists j, g2, U. split; [by erewrite bind_run by exact Hr2|]. split; [done|]. split; [done|]. split; [done|]. split; [lia|done].
Qed.

(** ** Entering and removing a cell *)

(** The counters and the graph stay, the colors change at [x] only. *)
Definition info_set (cs cs' : cells) (x : Z) : Prop :=
  skel cs cs' /\ (info_ok cs -> info_ok cs') /\ (forall y, rc_of cs' y = rc_of cs y) /\ forall y, y <> x -> cs' !! y = cs !! y.

Lemma set_info_run ref c i cs : cs !! ref = Some c -> info_range i -> info_set cs (<[ref := GC_REF_SET_INFO i c]> cs) ref.
Proof.
  intros Hc Hi. split; [by eapply skel_insert|]. split.
  { intros H y e [[<- <-]|[_ He]]%lookup_insert_Some; [done|by apply (H y)]. }
  split; intros y; unfold rc_of; [|intros Hne; by rewrite lookup_insert_ne].
  destruct (decide (y = ref)) as [->|]; [by rewrite lookup_insert_eq, Hc|by rewrite lookup_insert_ne].
Qed.

Lemma addr_info cs ref c i y : cs !! ref = Some c ->
  addr_of (<[ref := GC_REF_SET_INFO i c]> cs) y = if decide (y = ref) then Z.land i GC_ADDRESS else addr_of cs y.
Proof.
  intros Hc. unfold addr_of. destruct (decide (y = ref)) as [->|]; [by rewrite lookup_insert_eq|by rewrite lookup_insert_ne].
Qed.

Lemma enter_root_ok cs g U E i ref c t k : buf_inv g U E (Some i) -> addr_ok cs E -> cs !! ref = Some c -> GC_REF_ADDRESS c = 0 ->
  tag_ok t -> is_color k ->
  exists g' cs', enter_root ref i (ref + t) k (mkGc cs g) = Ok (tt, mkGc cs' g') /\ buf_ok g' U (<[i := (ref, t)]> E) /\ addr_ok cs' (<[i := (ref, t)]> E) /\
    info_set cs cs' ref /\ color_of cs' ref = k /\ same_ctl g g' /\ gc_first_unused g' = gc_first_unused g.
Proof.
  intros Hb [A1 A2 A3 A4] Hc Hz Ht Hk. destruct (bo_taken _ _ _ _ Hb i eq_refl) as (Hi & HEi & HUi). pose proof (bo_len _ _ _ _ Hb) as Hlen.
  pose proof (bo_first _ _ _ _ Hb). pose proof (bo_total _ _ _ _ Hb) as Htot. change (zlen (option_list (Some i))) with 1 in Htot. pose proof (zlen_nonneg U).
  pose proof (bo_small _ _ _ _ Hb). pose proof (bo_num _ _ _ _ Hb) as Hnum. assert (Hcr : 1 <= gc_compress i < 2 ^ 20) by (apply compress_range; lia).
  destruct (info_parts (gc_compress i) k c ltac:(lia) Hk) as [HpA HpK]. assert (Href : cell_addr ref) by (apply A4; by eexists).
  assert (Hnew : forall j t', E !! j <> Some (ref, t')).
  { intros j t' Hj. destruct (A1 j ref t' Hj) as [_ Ha]. destruct (bo_entry _ _ _ _ Hb j ref t' Hj) as [Hjr _].
    pose proof (compress_range j ltac:(lia)). unfold addr_of in Ha. rewrite Hc in Ha. cbn in Ha. lia. }
  do 2 eexists. split.
  { unfold enter_root. erewrite bind_run by (apply set_root_run; cbn [gs_gc]; lia). erewrite bind_run by (unfold upd_cell; cbn [gs_cells]; by rewrite Hc). reflexivity. }
  cbn [gs_gc gs_cells]. split; [|split; [|split; [|split; [|split; [|done]]]]].
  - split; cbn [gs_gc set_unused set_buf gc_buf gc_buf_size gc_unused gc_first_unused gc_num_roots].
    + by rewrite zlen_zset.
    + done.
    + done.
    + eapply links_frame; [|apply (bo_links _ _ _ _ Hb)]. intros j Hj. apply zget_zset_ne; [lia|]. by intros ->.
    + apply (bo_nodup _ _ _ _ Hb).
    + intros j Hj. destruct (bo_free _ _ _ _ Hb j Hj). split; [done|]. rewrite lookup_insert_ne; [done|]. by intros ->.
    + intros j Hj. destruct (decide (i = j)) as [->|Hne]; [right; left; by rewrite lookup_insert_eq|]. rewrite lookup_insert_ne by done.
      destruct (bo_cover _ _ _ _ Hb j Hj) as [?|[?|[= ?]]]; [by left|right; by left|done].
    + intros j p u Hj. apply lookup_insert_Some in Hj as [[<- [= <- <-]]|[Hne Hj]].
      * split; [done|]. split; [apply zget_zset_eq; lia|done].
      * destruct (bo_entry _ _ _ _ Hb j p u Hj) as (? & Hz' & ?). split; [done|]. split; [|done]. rewrite zget_zset_ne by (lia || done). done.
    + rewrite map_size_insert_None by done. rewrite u32_small by lia. lia.
    + rewrite map_size_insert_None by done. change (zlen (option_list None)) with 0. lia.
    + done.
  - split.
    + intros j p u Hj. rewrite (addr_info cs ref c) by done. apply lookup_insert_Some in Hj as [[<- [= <- <-]]|[Hne Hj]].
      * split; [by rewrite lookup_insert_eq|]. destruct (decide (ref = ref)); [|done]. exact HpA.
      * destruct (A1 j p u Hj) as [Hd Ha]. destruct (decide (p = ref)) as [->|Hpr]; [by destruct (Hnew j u)|]. by rewrite lookup_insert_ne.
    + intros j j' p u u' Hj Hj'. apply lookup_insert_Some in Hj as [[<- [= <- <-]]|[Hne Hj]]; apply lookup_insert_Some in Hj' as [[<- [= ?]]|[Hne' Hj']]; subst.
      * done.
      * by destruct (Hnew j' u').
      * by destruct (Hnew j u).
      * by eapply A2.
    + intros p. rewrite (addr_info cs ref c) by done. destruct (decide (p = ref)) as [->|Hpr].
      * intros _. exists i, t. by rewrite lookup_insert_eq.
      * intros Hp. destruct (A3 p Hp) as (j & u & Hj). exists j, u. rewrite lookup_insert_ne; [done|]. intros ->. congruence.
    + intros p Hp. apply A4. destruct (decide (p = ref)) as [->|Hpr]; [by eexists|by rewrite lookup_insert_ne in Hp].
  - apply set_info_run; [done|]. apply info_range_parts; [lia|done].
  - unfold color_of. rewrite lookup_insert_eq. exact HpK.
  - done.
Qed.

Lemma addr_ok_delete cs E i ref c t : addr_ok cs E -> cs !! ref = Some c -> E !! i = Some (ref, t) ->
  addr_ok (<[ref := GC_REF_SET_INFO 0 c]> cs) (delete i E).
Proof.
  intros [A1 A2 A3 A4] Hc Hi. split.
  - intros j p u [Hne Hj]%lookup_delete_Some. destruct (A1 j p u Hj) as [Hd Ha]. rewrite (addr_info cs ref c) by done.
    destruct (decide (p = ref)) as [->|Hpr]; [destruct Hne; by eapply A2|]. by rewrite lookup_insert_ne.
  - intros j j' p u u' [_ Hj]%lookup_delete_Some [_ Hj']%lookup_delete_Some. by eapply A2.
  - intros p. rewrite (addr_info cs ref c) by done. destruct (decide (p = ref)) as [->|Hpr]; [done|]. intros Hp.
    destruct (A3 p Hp) as (j & u & Hj). exists j, u. rewrite lookup_delete_ne; [done|]. intros ->. congruence.
  - intros p Hp. apply A4. destruct (decide (p = ref)) as [->|Hpr]; [by eexists|by rewrite lookup_insert_ne in Hp].
Qed.

(** Another place does not hold the same pointer. *)
Lemma place_other g U E i ref t j : buf_ok g U E -> (forall i j t t', E !! i = Some (ref, t) -> E !! j = Some (ref, t') -> i = j) ->
  E !! i = Some (ref, t) -> 1 <= j < gc_first_unused g -> exists p, zget (gc_buf g) j = Some p /\ (GC_GET_PTR p =? ref) = bool_decide (j = i).
Proof.
  intros Hb Hinj Hi Hj. destruct (bo_entry _ _ _ _ Hb i ref t Hi) as (_ & _ & [Href _] & _). destruct (bo_cover _ _ _ _ Hb j Hj) as [HU|[[[p u] HE]|?]]; [| |done].
  - destruct (free_entry g U E Hb j HU) as (k & Hk & Hk0 & Hk1). exists (8 * k + 1). split; [done|].
    rewrite bool_decide_eq_false_2 by (intros ->; apply (bo_free _ _ _ _ Hb) in HU as [_ HU]; congruence).
    apply Z.eqb_neq. rewrite get_ptr_mod, link_mod. lia.
  - exists (p + u). split; [by apply (bo_entry _ _ _ _ Hb)|]. rewrite (proj1 (entry_tag g U E Hb j p u HE)).
    destruct (Z.eqb_spec p ref) as [->|Hne]; [rewrite bool_decide_eq_true_2 by (by eapply Hinj)|rewrite bool_decide_eq_false_2]; [done|done|].
    intros ->. congruence.
Qed.

Lemma decompress_loop_ok cs g U E i ref t : buf_ok g U E -> (forall i j t t', E !! i = Some (ref, t) -> E !! j = Some (ref, t') -> i = j) ->
  E !! i = Some (ref, t) ->
  forall fuel n j, 1 <= j -> i = j + Z.of_nat (S n) * GC_MAX_UNCOMPRESSED -> (n < fuel)%nat ->
  decompress_loop fuel ref j (mkGc cs g) = Ok (i, mkGc cs g).
Proof.
  intros Hb Hinj Hi. pose proof (bo_entry _ _ _ _ Hb i ref t Hi) as [Hir _]. unfold GC_MAX_UNCOMPRESSED. induction fuel as [|fuel IH]; intros n j Hj Hij Hf; [lia|].
  cbn [decompress_loop]. unfold GC_MAX_UNCOMPRESSED. rewrite globals_bind. cbn [gs_gc].
  erewrite bind_run by (apply assert_run, Z.ltb_lt; lia). destruct (place_other g U E i ref t (j + 512 * 1024) Hb Hinj Hi ltac:(lia)) as (p & Hp & Heq).
  erewrite bind_run by (by apply root_at_run). rewrite Heq. case_bool_decide as H; [by rewrite H|]. destruct n as [|n]; [lia|]. apply (IH n); lia.
Qed.

Lemma decompress_ok cs g U E i ref t : buf_ok g U E -> (forall i j t t', E !! i = Some (ref, t) -> E !! j = Some (ref, t') -> i = j) ->
  E !! i = Some (ref, t) -> gc_decompress ref (gc_compress i) (mkGc cs g) = Ok (i, mkGc cs g).
Proof.
  intros Hb Hinj Hi. pose proof (bo_entry _ _ _ _ Hb i ref t Hi) as [Hir _]. set (a := gc_compress i).
  assert (Ha : exists n, i = a + Z.of_nat n * GC_MAX_UNCOMPRESSED /\ 1 <= a).
  { pose proof (compress_range i ltac:(lia)). subst a. unfold GC_MAX_UNCOMPRESSED. rewrite compress_add in * by lia. destruct (Z.ltb_spec i (2 ^ 19)); [exists O; lia|].
    exists (Z.to_nat (i / 2 ^ 19 - 1)). pose proof (Z.div_mod i (2 ^ 19)). assert (1 <= i / 2 ^ 19) by (apply Z.div_le_lower_bound; lia). lia. }
  destruct Ha as (n & Hn & Ha1). unfold gc_decompress.
  destruct (place_other g U E i ref t a Hb Hinj Hi) as (p & Hp & Heq); [unfold GC_MAX_UNCOMPRESSED in *; lia|].
  erewrite bind_run by (by apply root_at_run). rewrite Heq. case_bool_decide as H; [by rewrite <- H|]. rewrite globals_bind. cbn [gs_gc].
  destruct n as [|n]; [lia|]. eapply decompress_loop_ok; [done..|]. unfold GC_MAX_UNCOMPRESSED in *. lia.
Qed.

Lemma remove_from_buffer_ok cs g U E i ref t : buf_ok g U E -> addr_ok cs E -> E !! i = Some (ref, t) ->
  exists g' cs', gc_remove_from_buffer ref (mkGc cs g) = Ok (tt, mkGc cs' g') /\ buf_ok g' (i :: U) (delete i E) /\ addr_ok cs' (delete i E) /\
    (exists c, cs !! ref = Some c /\ cs' = <[ref := GC_REF_SET_INFO 0 c]> cs) /\ same_ctl g g'.
Proof.
  intros Hb HA Hi. destruct (ad_entry _ _ HA i ref t Hi) as [[c Hc] Ha]. pose proof (bo_entry _ _ _ _ Hb i ref t Hi) as [Hir _].
  set (cs' := <[ref := GC_REF_SET_INFO 0 c]> cs). assert (Hidx : GC_REF_ADDRESS c = gc_compress i) by (unfold addr_of in Ha; by rewrite Hc in Ha).
  assert (Hrun : gc_remove_from_buffer ref (mkGc cs g) = gc_remove_from_roots i (mkGc cs' g)).
  { unfold gc_remove_from_buffer. erewrite bind_run by (unfold cell; cbn [gs_cells]; by rewrite Hc). rewrite Hidx.
    erewrite bind_run by (unfold upd_cell; cbn [gs_cells]; by rewrite Hc). rewrite globals_bind. cbn [gs_gc gs_cells]. fold cs'. destruct (Z.leb_spec GC_MAX_UNCOMPRESSED (gc_first_unused g)).
    - erewrite bind_run; [done|]. eapply decompress_ok; [done| |done]. intros. by eapply (ad_inj _ _ HA).
    - unfold GC_MAX_UNCOMPRESSED in *. rewrite compress_add by lia. destruct (Z.ltb_spec i (2 ^ 19)); [|lia].
      erewrite bind_run by (apply assert_run, negb_true_iff, Z.eqb_neq; lia). done. }
  destruct (remove_from_roots_ok cs' g U E i (ref, t) Hb Hi) as (g' & Hr & Hb' & Hctl & _). exists g', cs'. split; [by rewrite Hrun|]. split; [done|].
  split; [by eapply addr_ok_delete|]. split; [by exists c|done].
Qed.

(** ** Compaction of the buffer *)

(** ** Places in a range *)

Section Range.
Context {A : Type} (E : gmap Z A).

Definition zrange (n : Z) : gset Z := list_to_set (seqZ 1 n).
Lemma elem_zrange n i : i ∈ zrange n <-> 1 <= i <= n.
Proof. unfold zrange. rewrite elem_of_list_to_set, elem_of_seqZ. lia. Qed.
Lemma size_zrange n : 0 <= n -> Z.of_nat (size (zrange n)) = n.
Proof. intros Hn. unfold zrange. rewrite size_list_to_set by apply NoDup_seqZ. rewrite length_seqZ. lia. Qed.

Lemma dom_within n : 0 <= n -> (forall i, is_Some (E !! i) -> 1 <= i <= n) ->
  Z.of_nat (size E) <= n /\ (Z.of_nat (size E) = n -> forall i, 1 <= i <= n -> is_Some (E !! i)).
Proof.
  intros Hn H. assert (Hs : dom E ⊆ zrange n) by (intros i Hi; apply elem_zrange, H; by apply elem_of_dom).
  pose proof (size_zrange n Hn). pose proof (subseteq_size _ _ Hs). rewrite size_dom in *. split; [lia|]. intros He i Hi.
  apply elem_of_dom. apply (set_subseteq_size_equiv (dom E) (zrange n)); [done|rewrite size_dom; lia|by apply elem_zrange].
Qed.
Lemma dom_covers n : 0 <= n -> (forall i, 1 <= i <= n -> is_Some (E !! i)) ->
  n <= Z.of_nat (size E) /\ (Z.of_nat (size E) = n -> forall i, is_Some (E !! i) -> 1 <= i <= n).
Proof.
  intros Hn H. assert (Hs : zrange n ⊆ dom E) by (intros i Hi; apply elem_of_dom, H; by apply elem_zrange).
  pose proof (size_zrange n Hn). pose proof (subseteq_size _ _ Hs). rewrite size_dom in *. split; [lia|]. intros He i Hi.
  apply elem_zrange. apply (set_subseteq_size_equiv (zrange n) (dom E)); [done|rewrite size_dom; lia|by apply elem_of_dom].
Qed.
End Range.

(** ** The fingers *)

Lemma skip_used_ok s fuel : forall free j e, free <= j -> (forall i, free <= i < j -> exists p, zget (gc_buf (gs_gc s)) i = Some p) ->
  zget (gc_buf (gs_gc s)) j = Some e -> GC_IS_UNUSED e = true -> j - free < Z.of_nat fuel ->
  exists f e', skip_used fuel free s = Ok (f, s) /\ free <= f <= j /\ zget (gc_buf (gs_gc s)) f = Some e' /\ GC_IS_UNUSED e' = true /\
    forall i, free <= i < f -> exists p, zget (gc_buf (gs_gc s)) i = Some p /\ GC_IS_UNUSED p = false.
Proof.
  induction fuel as [|fuel IH]; intros free j e Hj Hall He Hu Hf; [lia|]. cbn [skip_used].
  assert (Hp : exists p, zget (gc_buf (gs_gc s)) free = Some p).
  { destruct (Z.eq_dec free j) as [->|]; [by eexists|]. apply Hall. lia. }
  destruct Hp as [p Hp]. erewrite bind_run by (by apply root_at_run). destruct (GC_IS_UNUSED p) eqn:Ep; cbn [negb].
  - exists free, p. split; [done|]. split; [lia|]. split; [done|]. split; [done|]. intros i Hi. lia.
  - destruct (Z.eq_dec free j) as [->|]; [congruence|]. destruct (IH (free + 1) j e) as (f & e' & Hr & Hfr & He' & Hu' & Hused); [lia| |done|done|lia|].
    { intros i Hi. apply Hall. lia. }
    exists f, e'. split; [done|]. split; [lia|]. split; [done|]. split; [done|]. intros i Hi.
    destruct (Z.eq_dec i free) as [->|]; [by exists p|]. apply Hused. lia.
Qed.

Lemma skip_unused_ok s fuel : forall scan j e, j <= scan -> (forall i, j < i <= scan -> exists p, zget (gc_buf (gs_gc s)) i = Some p) ->
  zget (gc_buf (gs_gc s)) j = Some e -> GC_IS_UNUSED e = false -> scan - j < Z.of_nat fuel ->
  exists f e', skip_unused fuel scan s = Ok (f, s) /\ j <= f <= scan /\ zget (gc_buf (gs_gc s)) f = Some e' /\ GC_IS_UNUSED e' = false /\
    forall i, f < i <= scan -> exists p, zget (gc_buf (gs_gc s)) i = Some p /\ GC_IS_UNUSED p = true.
Proof.
  induction fuel as [|fuel IH]; intros scan j e Hj Hall He Hu Hf; [lia|]. cbn [skip_unused].
  assert (Hp : exists p, zget (gc_buf (gs_gc s)) scan = Some p).
  { destruct (Z.eq_dec scan j) as [->|]; [by eexists|]. apply Hall. lia. }
  destruct Hp as [p Hp]. erewrite bind_run by (by apply root_at_run). destruct (GC_IS_UNUSED p) eqn:Ep.
  - destruct (Z.eq_dec scan j) as [->|]; [congruence|]. destruct (IH (scan - 1) j e) as (f & e' & Hr & Hfr & He' & Hu' & Hused); [lia| |done|done|lia|].
    { intros i Hi. apply Hall. lia. }
    exists f, e'. split; [done|]. split; [lia|]. split; [done|]. split; [done|]. intros i Hi.
    destruct (Z.eq_dec i scan) as [->|]; [by exists p|]. apply Hused. lia.
  - exists scan, p. split; [done|]. split; [lia|]. split; [done|]. split; [done|]. intros i Hi. lia.
Qed.

(** ** The loop *)

(** The same pointers, in other places. *)
Definition same_entries (E E' : gmap Z (Z * Z)) : Prop :=
  size E' = size E /\ forall pt, (exists i, E' !! i = Some pt) <-> (exists i, E !! i = Some pt).
#[export] Instance same_entries_preorder : PreOrder same_entries.
Proof. split; [done|]. intros E1 E2 E3 [H1 H2] [H3 H4]. split; [congruence|]. intros pt. by rewrite H4. Qed.

(** The counters and colors, and what a cell refers to. *)
Definition same_cells (cs cs' : cells) : Prop :=
  skel cs cs' /\ (info_ok cs -> info_ok cs') /\ forall x, rc_of cs' x = rc_of cs x /\ color_of cs' x = color_of cs x.
#[export] Instance same_cells_preorder : PreOrder same_cells.
Proof. split; [done|]. intros s1 s2 s3 (H1 & Hi1 & H2) (H3 & Hi2 & H4). split; [by etrans|]. split; [auto|]. intros x. destruct (H2 x), (H4 x). split; congruence. Qed.

Record fingers (cs : cells) (g : zend_gc_globals) (E : gmap Z (Z * Z)) (free scan : Z) : Prop := {
  fi_range : 1 <= free <= scan + 1;
  fi_scan : scan < zlen (gc_buf g);
  fi_place : forall i, 1 <= i <= scan -> exists e, zget (gc_buf g) i = Some e /\ (GC_IS_UNUSED e = true <-> E !! i = None);
  fi_entry : forall i p t, E !! i = Some (p, t) -> i <= scan /\ 1 <= i /\ zget (gc_buf g) i = Some (p + t) /\ cell_addr p /\ tag_ok t;
  fi_front : forall i, 1 <= i < free -> is_Some (E !! i);
  fi_num : gc_num_roots g = Z.of_nat (size E);
  fi_addr : addr_ok cs E
}.

Lemma fingers_end cs g E free scan : fingers cs g E free scan -> scan <= free \/ scan <= gc_num_roots g ->
  forall i, is_Some (E !! i) <-> 1 <= i <= gc_num_roots g.
Proof.
  intros [F1 _ _ F4 F5 F6 _] He. rewrite F6 in *.
  assert (Hin : forall i, is_Some (E !! i) -> 1 <= i <= scan) by (intros i [[p t] Hi]; destruct (F4 i p t Hi); lia).
  destruct (dom_within E scan ltac:(lia) Hin) as [Hle Heq]. destruct (dom_covers E (free - 1) ltac:(lia) ltac:(intros; apply F5; lia)) as [Hge Heq'].
  destruct (Z.eq_dec (Z.of_nat (size E)) scan) as [Hs|Hs].
  - rewrite Hs. intros i. split; [apply Hin|by apply Heq].
  - assert (Hs' : Z.of_nat (size E) = free - 1) by lia. rewrite Hs'. intros i. split; [by apply Heq'|intros; apply F5; lia].
Qed.

(** The fingers skip. *)
Lemma fingers_skip cs g E free scan free' scan' : fingers cs g E free scan -> free <= free' <= scan -> scan' <= scan ->
  (forall i, free <= i < free' -> exists p, zget (gc_buf g) i = Some p /\ GC_IS_UNUSED p = false) ->
  (forall i, scan' < i <= scan -> exists p, zget (gc_buf g) i = Some p /\ GC_IS_UNUSED p = true) ->
  1 <= scan' -> fingers cs g E free' scan'.
Proof.
  intros [F1 F2 F3 F4 F5 F6 F7] Hf Hs Hused Hun Hs1.
  assert (Hfront : forall i, 1 <= i < free' -> is_Some (E !! i)).
  { intros i Hi. destruct (Z.lt_ge_cases i free) as [H|H]; [apply F5; lia|]. destruct (Hused i ltac:(lia)) as (p & Hp & Hpu).
    destruct (F3 i ltac:(lia)) as (e & He & Heu). destruct (E !! i) eqn:HE; [done|]. assert (GC_IS_UNUSED e = true) by (by apply Heu). congruence. }
  assert (Hnone : forall i, scan' < i <= scan -> E !! i = None).
  { intros i Hi. destruct (Hun i ltac:(lia)) as (p & Hp & Hpu). destruct (F3 i ltac:(lia)) as (e & He & Heu). apply Heu. congruence. }
  split; try done; try lia.
  - destruct (Z.le_gt_cases free' (scan' + 1)); [lia|]. destruct (Hfront (scan' + 1) ltac:(lia)) as [? HE]. rewrite Hnone in HE by lia. done.
  - intros i Hi. apply F3. lia.
  - intros i p t Hi. destruct (F4 i p t Hi) as (Hle & ?). split; [|done]. destruct (Z.le_gt_cases i scan'); [done|]. rewrite Hnone in Hi by lia. done.
Qed.

Lemma same_cells_info cs ref c a : cs !! ref = Some c -> 0 <= a < 2 ^ 20 ->
  same_cells cs (<[ref := GC_REF_SET_INFO (Z.lor a (GC_REF_COLOR c)) c]> cs).
Proof.
  intros Hc Ha. destruct (set_info_run ref c (Z.lor a (GC_REF_COLOR c)) cs Hc) as (Hs & Hi & Hrc & Hne).
  { apply info_range_parts; [done|apply color_range]. }
  split; [done|]. split; [done|]. intros x. split; [apply Hrc|].
  unfold color_of. destruct (decide (x = ref)) as [->|]; [|by rewrite Hne]. rewrite lookup_insert_eq, Hc. cbn [from_option].
  apply (info_parts a _ c Ha), color_range.
Qed.

(** One entry moves from [scan] to [free]. *)
Lemma fingers_move cs g E free scan p t c : fingers cs g E free scan -> free < scan < 2 ^ 29 -> E !! free = None -> E !! scan = Some (p, t) ->
  cs !! p = Some c ->
  fingers (<[p := GC_REF_SET_INFO (Z.lor (gc_compress free) (GC_REF_COLOR c)) c]> cs)
    (set_buf (zset (gc_buf g) free (p + t)) (gc_buf_size g) g) (<[free := (p, t)]> (delete scan E)) (free + 1) (scan - 1) /\
  same_entries E (<[free := (p, t)]> (delete scan E)).
Proof.
  intros [F1 F2 F3 F4 F5 F6 F7] Hr Hf Hs Hc. assert (Hcr : 1 <= gc_compress free < 2 ^ 20) by (apply compress_range; lia).
  destruct (F4 scan p t Hs) as (_ & _ & Hzs & Hp & Ht). destruct (info_parts (gc_compress free) _ c ltac:(lia) (color_range c)) as [HpA _].
  assert (Hsize : size (<[free := (p, t)]> (delete scan E)) = size E).
  { rewrite map_size_insert_None by (by rewrite lookup_delete_ne by lia). rewrite map_size_delete_Some by (by eexists).
    assert (size E <> 0)%nat; [|lia]. intros H0%map_size_empty_inv. by rewrite H0, lookup_empty in Hs. }
  assert (Hnew : forall i q u, <[free := (p, t)]> (delete scan E) !! i = Some (q, u) -> (i = free /\ q = p /\ u = t) \/ (i <> free /\ i <> scan /\ q <> p /\ E !! i = Some (q, u))).
  { intros i q u [[<- [= <- <-]]|[Hne [Hns Hi]%lookup_delete_Some]]%lookup_insert_Some; [by left|]. right. split; [done|]. split; [done|]. split; [|done].
    intros ->. destruct Hns. by eapply (ad_inj _ _ F7). }
  split; [|split; [done|]].
  - split; cbn [set_buf gc_buf gc_num_roots].
    + lia.
    + rewrite zlen_zset. lia.
    + intros i Hi. destruct (decide (i = free)) as [->|Hne].
      * exists (p + t). rewrite lookup_insert_eq. split; [apply zget_zset_eq; lia|]. unfold GC_IS_UNUSED. rewrite tag_tagged by done.
        split; [by destruct Ht as [->|[->| ->]]|done].
      * destruct (F3 i ltac:(lia)) as (e & He & Heu). exists e. rewrite lookup_insert_ne, lookup_delete_ne by lia. split; [|done].
        rewrite zget_zset_ne by lia. done.
    + intros i q u Hi. destruct (Hnew i q u Hi) as [(-> & -> & ->)|(Hnf & Hns & _ & HE)]; [split; [lia|]; split; [lia|]; split; [apply zget_zset_eq; lia|done]|].
      destruct (F4 i q u HE) as (? & ? & ? & ?). split; [lia|]. split; [lia|]. split; [|done]. rewrite zget_zset_ne by lia. done.
    + intros i Hi. destruct (decide (i = free)) as [->|]; [by rewrite lookup_insert_eq|]. rewrite lookup_insert_ne, lookup_delete_ne by lia. apply F5. lia.
    + by rewrite Hsize.
    + split.
      * intros i q u Hi. rewrite (addr_info cs p c) by done. destruct (Hnew i q u Hi) as [(-> & -> & ->)|(Hnf & Hns & Hqp & HE)].
        -- rewrite lookup_insert_eq. split; [done|]. destruct (decide (p = p)); [exact HpA|done].
        -- rewrite lookup_insert_ne by done. destruct (decide (q = p)); [done|]. by apply (ad_entry _ _ F7 i q u).
      * intros i j q u u' Hi Hj. destruct (Hnew i q u Hi) as [(-> & -> & ->)|(_ & _ & Hq & Hi')], (Hnew j _ u' Hj) as [(-> & ? & ->)|(_ & _ & Hq' & Hj')]; try done.
        by eapply (ad_inj _ _ F7).
      * intros q. rewrite (addr_info cs p c) by done. destruct (decide (q = p)) as [->|Hne]; [intros _; exists free, t; apply lookup_insert_eq|].
        intros (i & u & Hi)%(ad_back _ _ F7). exists i, u. rewrite lookup_insert_ne by congruence. rewrite lookup_delete_ne by congruence. done.
      * intros q Hq. apply (ad_cells _ _ F7). destruct (decide (q = p)) as [->|]; [by eexists|by rewrite lookup_insert_ne in Hq].
  - intros [q u]. split.
    + intros (i & Hi). destruct (Hnew i q u Hi) as [(-> & -> & ->)|(_ & _ & _ & HE)]; by eexists.
    + intros (i & Hi). destruct (decide (i = scan)) as [->|Hne]; [exists free; rewrite lookup_insert_eq; congruence|].
      exists i. rewrite lookup_insert_ne by congruence. by rewrite lookup_delete_ne.
Qed.

Lemma compact_loop_ok fuel : forall cs g E free scan, fingers cs g E free scan -> scan < 2 ^ 29 -> 0 < gc_num_roots g ->
  free < scan -> gc_num_roots g < scan -> scan - free + 1 < Z.of_nat fuel ->
  exists cs' g' E', compact_loop fuel free scan (gc_num_roots g) (mkGc cs g) = Ok (tt, mkGc cs' g') /\
    same_entries E E' /\ same_cells cs cs' /\ addr_ok cs' E' /\ (forall i, is_Some (E' !! i) <-> 1 <= i <= gc_num_roots g) /\
    (forall i p t, E' !! i = Some (p, t) -> zget (gc_buf g') i = Some (p + t) /\ cell_addr p /\ tag_ok t) /\
    exists buf, g' = set_buf buf (gc_buf_size g) g /\ zlen buf = zlen (gc_buf g).
Proof.
  induction fuel as [|fuel IH]; intros cs g E free scan HF Hs29 Hpos Hfs Hns Hfuel; [lia|]. cbn [compact_loop].
  rewrite (proj2 (Z.ltb_lt free scan)) by lia. rewrite globals_bind. cbn [gs_gc]. pose proof HF as [F1 F2 F3 F4 F5 F6 F7].
  assert (Hin : forall i, is_Some (E !! i) -> 1 <= i <= scan) by (intros i [[p t] Hi]; destruct (F4 i p t Hi); lia).
  (* an unused place and a used one *)
  assert (Hfree : exists j, free <= j <= scan /\ E !! j = None).
  { destruct (list_find (fun j => E !! j = None) (seqZ free (scan - free + 1))) as [[n j]|] eqn:Hfind.
    { apply list_find_Some in Hfind as (Hj & HE & _). apply list_elem_of_lookup_2, elem_of_seqZ in Hj. exists j. split; [lia|done]. }
    exfalso. apply list_find_None in Hfind. destruct (dom_covers E scan ltac:(lia)) as [Hge _]; [|lia]. intros i Hi. destruct (Z.lt_ge_cases i free); [apply F5; lia|].
    rewrite Forall_forall in Hfind. specialize (Hfind i ltac:(apply elem_of_seqZ; lia)). by destruct (E !! i). }
  destruct Hfree as (j & Hj & HEj). destruct (F3 j ltac:(lia)) as (e & He & Heu).
  destruct (skip_used_ok (mkGc cs g) (S (length (gc_buf g))) free j e) as (f & e1 & Hr1 & Hf1 & He1 & Hu1 & Hused1); [lia| |done|by apply Heu| |].
  { intros i Hi. destruct (F3 i ltac:(lia)) as (p & Hp & _). by exists p. }
  { unfold zlen in *. lia. }
  assert (HEf : E !! f = None) by (destruct (F3 f ltac:(lia)) as (e' & He' & Hu'); apply Hu'; cbn in He1; congruence).
  assert (Hus : exists k p t, E !! k = Some (p, t)).
  { destruct (map_choose E) as (k & [p t] & Hk); [|by exists k, p, t]. intros ->. rewrite map_size_empty in F6. lia. }
  destruct Hus as (k & kp & kt & Hk). destruct (F4 k kp kt Hk) as (Hks & Hk1 & Hkz & _). destruct (F3 k ltac:(lia)) as (e2 & He2 & Heu2).
  destruct (skip_unused_ok (mkGc cs g) (S (length (gc_buf g))) scan k e2) as (l & e3 & Hr2 & Hl2 & He3 & Hu3 & Hun3); [lia| |done|destruct (GC_IS_UNUSED e2) eqn:Eu; [|done]; rewrite (proj1 Heu2 eq_refl) in Hk; done| |].
  { intros i Hi. destruct (F3 i ltac:(lia)) as (p & Hp & _). by exists p. }
  { unfold zlen in *. lia. }
  erewrite bind_run by exact Hr1. erewrite bind_run by exact Hr2. cbn [gs_gc] in *.
  assert (HF' : fingers cs g E f l) by (eapply fingers_skip; try done; lia).
  assert (HEl : exists p t, E !! l = Some (p, t)).
  { destruct (F3 l ltac:(lia)) as (e' & He' & Hu'). destruct (E !! l) as [[p t]|] eqn:El; [by exists p, t|]. assert (GC_IS_UNUSED e' = true) by (by apply Hu'). congruence. }
  destruct HEl as (p & t & HEl). destruct (Z.ltb_spec f l) as [Hfl|Hfl].
  - destruct (F4 l p t HEl) as (_ & _ & Hzl & Hp & Ht). destruct (ad_entry _ _ F7 l p t HEl) as [[c Hc] _].
    erewrite bind_run by (by apply root_at_run). erewrite bind_run by (apply set_root_run; cbn [gs_gc]; lia). cbn [gs_gc gs_cells].
    rewrite get_ptr_tagged by done. erewrite bind_run by (unfold cell; cbn [gs_cells]; by rewrite Hc). erewrite bind_run by (unfold upd_cell; cbn [gs_cells]; by rewrite Hc).
    cbn [gs_gc gs_cells]. destruct (fingers_move cs g E f l p t c HF' ltac:(lia) HEf HEl Hc) as [HF2 HE2].
    assert (Hsc : same_cells cs (<[p:=GC_REF_SET_INFO (Z.lor (gc_compress f) (GC_REF_COLOR c)) c]> cs)).
    { apply same_cells_info; [done|]. pose proof (compress_range f). lia. }
    destruct (Z.leb_spec (l - 1) (gc_num_roots g)) as [Hend|Hend].
    + do 3 eexists. split; [reflexivity|]. split; [exact HE2|]. split; [done|]. split; [apply (fi_addr _ _ _ _ _ HF2)|].
      split; [apply (fingers_end _ _ _ _ _ HF2); by right|]. split; [|eexists; split; [reflexivity|by rewrite zlen_zset]].
      intros i q u Hi. by apply (fi_entry _ _ _ _ _ HF2 i q u).
    + destruct (Z.lt_ge_cases (f + 1) (l - 1)) as [Hlt|Hge].
      * destruct (IH _ _ _ _ _ HF2 ltac:(lia) Hpos ltac:(lia) Hend ltac:(lia)) as (cs' & g' & E' & Hr & HE & HC & HA & HD & HZ & buf & Hg' & Hlen).
        cbn [gc_num_roots set_buf] in *. exists cs', g', E'. split; [done|]. split; [by etrans|]. split; [by etrans|]. split; [done|]. split; [done|]. split; [done|].
        exists buf. split; [by rewrite Hg'|]. by rewrite Hlen; cbn; rewrite zlen_zset.
      * destruct fuel as [|fuel]; [lia|]. cbn [compact_loop]. rewrite (proj2 (Z.ltb_ge _ _)) by lia.
        do 3 eexists. split; [reflexivity|]. split; [exact HE2|]. split; [done|]. split; [apply (fi_addr _ _ _ _ _ HF2)|].
        split; [apply (fingers_end _ _ _ _ _ HF2); left; lia|]. split; [|eexists; split; [reflexivity|by rewrite zlen_zset]].
        intros i q u Hi. by apply (fi_entry _ _ _ _ _ HF2 i q u).
  - destruct fuel as [|fuel]; [lia|]. cbn [compact_loop]. rewrite (proj2 (Z.ltb_ge _ _)) by lia.
    exists cs, g, E. split; [reflexivity|]. split; [done|]. split; [done|]. split; [done|].
    split; [apply (fingers_end _ _ _ _ _ HF'); left; lia|]. split; [intros i q u Hi; by apply (F4 i q u)|].
    exists (gc_buf g). split; [by destruct g|done].
Qed.

(** ** gc_compact *)

Lemma compact_ok cs g U E : buf_ok g U E -> addr_ok cs E ->
  exists cs' g' E', gc_compact (mkGc cs g) = Ok (tt, mkGc cs' g') /\ buf_ok g' [] E' /\ same_entries E E' /\ same_cells cs cs' /\ addr_ok cs' E' /\ same_ctl g g'.
Proof.
  intros Hb HA. pose proof (bo_total _ _ _ _ Hb) as Htot. change (zlen (option_list None)) with 0 in Htot. pose proof (zlen_nonneg U). pose proof (bo_small _ _ _ _ Hb).
  pose proof (bo_num _ _ _ _ Hb) as Hnum. pose proof (bo_first _ _ _ _ Hb). pose proof (bo_len _ _ _ _ Hb).
  unfold gc_compact. rewrite globals_bind. cbn [gs_gc]. unfold GC_FIRST_ROOT. rewrite u32_small by lia. destruct (Z.eqb_spec (gc_num_roots g + 1) (gc_first_unused g)) as [He|Hne]; cbn [negb].
  - assert (U = []) as -> by (destruct U; [done|]; rewrite zlen_cons in Htot; pose proof (zlen_nonneg U); lia).
    exists cs, g, E. split; [done|]. done.
  - set (g2 := fun buf => set_unused GC_INVALID (gc_num_roots g + 1) (gc_num_roots g) (set_buf buf (gc_buf_size g) g)).
    assert (Hend : forall cs' buf E', zlen buf = gc_buf_size g -> same_entries E E' -> same_cells cs cs' -> addr_ok cs' E' ->
      (forall i, is_Some (E' !! i) <-> 1 <= i <= gc_num_roots g) -> (forall i p t, E' !! i = Some (p, t) -> zget buf i = Some (p + t) /\ cell_addr p /\ tag_ok t) ->
      buf_ok (g2 buf) [] E' /\ same_entries E E' /\ same_cells cs cs' /\ addr_ok cs' E' /\ same_ctl g (g2 buf)).
    { intros cs' buf E' Hlen HE HC HA' HD HZ. split; [|done]. subst g2. split; cbn [set_buf set_unused gc_buf gc_buf_size gc_unused gc_first_unused gc_num_roots]; try done; try lia.
      - constructor.
      - by intros i ?%elem_of_nil.
      - intros i Hi. right. left. apply HD. lia.
      - intros i p t Hi. split; [|by apply HZ]. assert (is_Some (E' !! i)) by (by eexists). assert (1 <= i <= gc_num_roots g) by (by apply HD). lia.
      - by rewrite (proj1 HE).
      - rewrite (proj1 HE). change (zlen (option_list None)) with 0. change (zlen []) with 0. lia. }
    assert (Hzero : (if negb (gc_num_roots g =? 0) then compact_loop (S (length (gc_buf g))) 1 (gc_first_unused g - 1) (gc_num_roots g) else mret tt) (mkGc cs g) = (if gc_num_roots g =? 0 then Ok (tt, mkGc cs g) else compact_loop (S (length (gc_buf g))) 1 (gc_first_unused g - 1) (gc_num_roots g) (mkGc cs g))) by (by destruct (gc_num_roots g =? 0)).
    assert (Hu : forall cs' buf, upd (fun g => set_unused GC_INVALID (u32 (gc_num_roots g + 1)) (gc_num_roots g) g) (mkGc cs' (set_buf buf (gc_buf_size g) g)) = Ok (tt, mkGc cs' (g2 buf))).
    { intros cs' buf. rewrite upd_run. unfold g2. cbn [gs_gc gs_cells set_buf gc_num_roots]. by rewrite u32_small by lia. }
    unfold mbind at 1, GC_bind at 1. rewrite Hzero. destruct (Z.eqb_spec (gc_num_roots g) 0) as [Hz|Hnz].
    + exists cs, (g2 (gc_buf g)), E. split; [rewrite <- Hu; by destruct g|]. assert (E = ∅) as HE0 by (apply map_size_empty_inv; lia). apply Hend; try done.
      * intros i. rewrite HE0, lookup_empty. split; [by intros [? ?]|lia].
      * intros i p t Hi. by rewrite HE0, lookup_empty in Hi.
    + assert (HF : fingers cs g E 1 (gc_first_unused g - 1)).
      { split; try lia; try done.
        - intros i Hi. destruct (place_tag g U E Hb i ltac:(lia)) as (e & He & Heu). exists e. split; [done|]. rewrite Heu. split; [intros HU; apply (bo_free _ _ _ _ Hb i HU)|].
          intros HE. destruct (bo_cover _ _ _ _ Hb i ltac:(lia)) as [?|[[? ?]|?]]; [done|congruence|done].
        - intros i p t Hi. destruct (bo_entry _ _ _ _ Hb i p t Hi) as (? & ? & ?). split; [lia|]. split; [lia|done]. }
      destruct (compact_loop_ok (S (length (gc_buf g))) cs g E 1 (gc_first_unused g - 1) HF) as (cs' & g' & E' & Hr & HE & HC & HA' & HD & HZ & buf & -> & Hlen); try lia.
      { assert (gc_first_unused g <= zlen (gc_buf g)) as Hfl by lia. unfold zlen in Hfl. lia. }
      rewrite Hr. exists cs', (g2 buf), E'. split; [apply Hu|]. apply Hend; try done. lia.
Qed.
