(* ===== verification/GcScan.v ===== *)
(** * Trial deletion: marking grey and scanning

    Marking takes away the references from the cells that can be reached from the roots;
    scanning gives them back to those that turn out to be referred to from elsewhere.
    The cells that are white afterwards are the largest set of cells, all reachable
    from roots, that only cells of the set refer to. *)

From S2P Require Import Prelude.
From S2P Require Import GcOps.
From S2P Require Import GcGraph.
From S2P Require Import GcRoots.

(** A traversal that leaves the buffer and the addresses alone. *)
Definition untouched (s0 : gc_state) (s : gc_state) : Prop :=
  gs_gc s = gs_gc s0 /\ (info_ok (gs_cells s0) -> info_ok (gs_cells s)) /\ forall x, addr_of (gs_cells s) x = addr_of (gs_cells s0) x.

#[export] Instance untouched_preorder : PreOrder untouched.
Proof.
  split; [done|]. intros s1 s2 s3 (H1 & H2 & H3) (H4 & H5 & H6). split; [congruence|]. split; [auto|]. intros x. by rewrite H6.
Qed.

Lemma plain_sweep touch from to d {T : Touch touch from to d} s ref : graph_ok (gs_cells s) -> is_Some (gs_cells s !! ref) ->
  color_of (gs_cells s) ref = to ->
  exists s' V, (fuel ← cell_fuel; traverse (plain (visit_cell touch false)) fuel ref [] tt) s = Ok (tt, s') /\
    swept from to d s s' ref V [] /\ untouched s s' /\ ref ∈ V.
Proof.
  intros Hg Hd Hc. destruct (sweep_ok touch from to d (plain (visit_cell touch false)) (fun _ _ s' => untouched s s')) with (s := s) (ref := ref) (acc := tt)
    as ([] & s' & V & H & Hr & [Hs _ _ _] & HJ & Hin); try done.
  - intros H r stack [] s1 HJ Hg1 Hd1 Hc1 Hr. exists tt, s1. split; [done|]. split; [done|]. unfold plain, mbind, GC_bind.
    destruct (visit_cell touch false r stack s1) as [[[? ?] ?]| |]; done.
  - intros H [] l s1 s2 new HJ Hst. etrans; [exact HJ|]. split; [apply (sp_gc _ _ _ _ _ _ _ Hst)|split; [apply (sp_info _ _ _ _ _ _ _ Hst)|apply (sp_addr _ _ _ _ _ _ _ Hst)]].
  - exists s', V. split; [|done]. unfold cell_fuel, mbind, GC_bind. exact Hr.
Qed.

Lemma gc_mark_grey_ok s ref : graph_ok (gs_cells s) -> is_Some (gs_cells s !! ref) -> color_of (gs_cells s) ref = GC_GREY ->
  exists s' V, gc_mark_grey ref s = Ok (tt, s') /\ swept (fun k => negb (k =? GC_GREY)) GC_GREY (-1) s s' ref V [] /\ untouched s s' /\ ref ∈ V.
Proof. apply (plain_sweep grey_touch _ _ _). Qed.

Lemma gc_scan_black_ok s ref : graph_ok (gs_cells s) -> is_Some (gs_cells s !! ref) -> color_of (gs_cells s) ref = GC_BLACK ->
  exists s' V, gc_scan_black ref s = Ok (tt, s') /\ swept (fun k => negb (k =? GC_BLACK)) GC_BLACK 1 s s' ref V [] /\ untouched s s' /\ ref ∈ V.
Proof. apply (plain_sweep black_touch _ _ _). Qed.

(** ** Changing the color of one cell *)

Definition recolored (s s' : gc_state) (ref k : Z) : Prop :=
  skel (gs_cells s) (gs_cells s') /\ untouched s s' /\ (forall x, rc_of (gs_cells s') x = rc_of (gs_cells s) x) /\
  forall x, color_of (gs_cells s') x = if decide (x = ref) then k else color_of (gs_cells s) x.

Lemma recolor_ok s ref c k f : gs_cells s !! ref = Some c -> is_color k -> f c = GC_REF_SET_COLOR k c ->
  exists s', upd_cell ref f s = Ok (tt, s') /\ recolored s s' ref k.
Proof.
  intros Hc Hk Hf. eexists. unfold upd_cell. rewrite Hc. split; [done|]. unfold recolored, untouched. cbn [gs_cells gs_gc]. rewrite Hf.
  split; [by eapply skel_insert|]. split; [split; [done|split]|split].
  { intros Hi x e [[<- <-]|[_ He]]%lookup_insert_Some; [apply info_range_color; [done|by apply (Hi ref)]|by apply (Hi x)]. }
  all: intros x; unfold addr_of, rc_of, color_of; destruct (decide (x = ref)) as [->|Hne];
    rewrite ?lookup_insert_eq, ?lookup_insert_ne, ?Hc by done; cbn; try done.
  - by rewrite address_set_color.
  - by rewrite color_set_color.
Qed.

(** ** Marking *)

Section Mark.
Context (s0 : gc_state).
Hypothesis Hg0 : graph_ok (gs_cells s0).
Notation K := (kids_of (gs_cells s0)).

(** The cells [S] have been marked, starting from the cells [R]. *)
Record marked (s : gc_state) (S : list Z) (R : Z -> Prop) : Prop := {
  mk_skel : skel (gs_cells s0) (gs_cells s);
  mk_range : forall x, 0 <= rc_of (gs_cells s) x < 2 ^ 32;
  mk_rest : untouched s0 s;
  mk_rc : forall x, is_Some (gs_cells s0 !! x) -> u32 (rc_of (gs_cells s) x) = u32 (rc_of (gs_cells s0) x - edges K S x);
  mk_color : forall x, color_of (gs_cells s) x = if decide (x ∈ S) then GC_GREY else color_of (gs_cells s0) x;
  mk_closed : forall x y, x ∈ S -> y ∈ K x -> y ∈ S;
  mk_reach : forall x, x ∈ S -> exists r, R r /\ rtc (follows K) r x;
  mk_nodup : NoDup S;
  mk_dom : forall x, x ∈ S -> is_Some (gs_cells s0 !! x)
}.

Lemma marked_graph s S R : marked s S R -> graph_ok (gs_cells s).
Proof. intros M. eapply skel_graph; [apply (mk_skel _ _ _ M)|done|apply (mk_range _ _ _ M)]. Qed.

Lemma marked_start : marked s0 [] (fun _ => False).
Proof.
  split; try done.
  - by apply rc_ranges.
  - intros x _. unfold edges. cbn. by rewrite Z.sub_0_r.
  - by intros x y ?%elem_of_nil.
  - by intros x ?%elem_of_nil.
  - constructor.
  - by intros x ?%elem_of_nil.
Qed.

Lemma marked_weaken s S (R R' : Z -> Prop) : (forall x, R x -> R' x) -> marked s S R -> marked s S R'.
Proof. intros HR []. split; try done. intros x Hx. destruct (mk_reach0 x Hx) as (r & ? & ?). exists r. auto. Qed.

Hypothesis Hno : forall x, color_of (gs_cells s0) x <> GC_GREY.

(** One more root, which is not grey yet. *)
Lemma mark_step s S R ref : marked s S R -> is_Some (gs_cells s0 !! ref) -> color_of (gs_cells s) ref <> GC_GREY ->
  exists s' V, (upd_cell ref (GC_REF_SET_COLOR GC_GREY);; gc_mark_grey ref) s = Ok (tt, s') /\
    marked s' (S ++ V) (fun r => R r \/ r = ref) /\ ref ∈ V.
Proof.
  intros M [c0 Hc0] Hng. pose proof M as [M1 M2 M3 M4 M5 M6 M7 M8 M9]. destruct (skel_lookup _ _ _ _ M1 Hc0) as (c & Hc & _).
  destruct (recolor_ok s ref c GC_GREY (GC_REF_SET_COLOR GC_GREY) Hc) as (s1 & Hr1 & Hs1 & Hu1 & Hrc1 & Hcol1); [by right; right; left|done|].
  assert (Hsk1 : skel (gs_cells s0) (gs_cells s1)) by (by etrans).
  assert (Hg1 : graph_ok (gs_cells s1)) by (eapply skel_graph; [exact Hsk1|done|]; intros x; by rewrite Hrc1).
  assert (HcG : color_of (gs_cells s1) ref = GC_GREY) by (rewrite Hcol1; by destruct (decide _)).
  destruct (skel_lookup _ _ _ _ Hsk1 Hc0) as (c1 & Hc1 & _).
  destruct (gc_mark_grey_ok s1 ref Hg1 ltac:(by eexists) HcG) as (s' & V & Hr2 & [W1 W2 W3 W4 W5 W6 W7 W8 W9] & Hu2 & Hin).
  rewrite app_nil_r in *. assert (HK1 : forall x, kids_of (gs_cells s1) x = K x) by (intros x; by apply skel_kids).
  assert (HrS : ref ∉ S) by (intros Hx; apply Hng; rewrite M5; by destruct (decide _)).
  assert (HVS : forall x, x ∈ V -> x ∉ S).
  { intros x Hx HxS. destruct (W5 x Hx) as [->|Hf]; [done|]. rewrite Hcol1, M5 in Hf. destruct (decide (x = ref)); [by subst|]. by destruct (decide (x ∈ S)). }
  assert (Hreach : forall x y, rtc (follows (kids_of (gs_cells s1))) x y -> rtc (follows K) x y).
  { intros x y Hxy. eapply (rtc_congruence id); [|exact Hxy]. intros a b. unfold follows. by rewrite HK1. }
  exists s', V. split; [|split; [|done]].
  { erewrite bind_run by done. done. }
  assert (Hcol : forall x, color_of (gs_cells s') x = if decide (x ∈ S ++ V) then GC_GREY else color_of (gs_cells s0) x).
  { intros x. rewrite W4, Hcol1, M5. pose proof (elem_of_app S V x).
    destruct (decide (x ∈ V)), (decide (x = ref)), (decide (x ∈ S)), (decide (x ∈ S ++ V)); subst; tauto. }
  split.
  - by etrans.
  - done.
  - etrans; [done|]. by etrans.
  - intros x Hx. rewrite W3.
    + rewrite edges_app, (edges_ext K) by done. rewrite Hrc1. replace (_ + -1 * _) with (rc_of (gs_cells s) x + - edges K V x) by lia.
      rewrite <- u32_add_l, M4 by done. rewrite u32_add_l. f_equal. lia.
    + destruct Hx as [e He]. by destruct (skel_lookup _ _ _ _ Hsk1 He) as (e' & -> & _).
  - exact Hcol.
  - intros x y [Hx|Hx]%elem_of_app Hy; [apply elem_of_app; left; by eapply M6|]. specialize (W6 x y Hx). rewrite HK1 in W6. specialize (W6 Hy).
    rewrite Hcol in W6. destruct (decide (y ∈ S ++ V)); [done|]. apply negb_false_iff, Z.eqb_eq in W6. by destruct (Hno y).
  - intros x [Hx|Hx]%elem_of_app; [destruct (M7 x Hx) as (r & ? & ?); exists r; auto|]. exists ref. split; [by right|]. by apply Hreach, W7.
  - apply NoDup_app. split; [done|]. split; [|done]. intros x Hx HxV. by apply (HVS x).
  - intros x [Hx|Hx]%elem_of_app; [by apply M9|]. destruct (W9 x Hx) as [e He]. destruct (skel_lookup (gs_cells s1) (gs_cells s0) x e) as (e' & -> & _); [by symmetry|done|done].
Qed.
End Mark.

(** ** Scanning *)

Section Scan.
Context (s1 : gc_state) (S : list Z).
Notation K := (kids_of (gs_cells s1)).
Hypothesis Hg1 : graph_ok (gs_cells s1).
Hypothesis Hgrey : forall x, x ∈ S <-> color_of (gs_cells s1) x = GC_GREY.
Hypothesis Hclosed : forall x y, x ∈ S -> y ∈ K x -> y ∈ S.
Hypothesis HnS : NoDup S.

Lemma S_dom x : x ∈ S -> is_Some (gs_cells s1 !! x).
Proof. rewrite Hgrey. unfold color_of. by destruct (gs_cells s1 !! x). Qed.
Lemma S_reach x y : rtc (follows K) x y -> x ∈ S -> y ∈ S.
Proof. induction 1 as [|x y z Hxy _ IH]; [done|]. intros Hx. apply IH. by eapply Hclosed. Qed.

(** The cells [W] are white, [B] are black again; [P] are still to be scanned. *)
Record scanned (s : gc_state) (W B P : list Z) : Prop := {
  sc_skel : skel (gs_cells s1) (gs_cells s);
  sc_range : forall x, 0 <= rc_of (gs_cells s) x < 2 ^ 32;
  sc_rest : untouched s1 s;
  sc_nodup : NoDup (W ++ B);
  sc_sub : W ++ B ⊆ S;
  sc_color : forall x, color_of (gs_cells s) x =
    if decide (x ∈ W) then GC_WHITE else if decide (x ∈ B) then GC_BLACK else color_of (gs_cells s1) x;
  sc_rc : forall x, is_Some (gs_cells s1 !! x) -> u32 (rc_of (gs_cells s) x) = u32 (rc_of (gs_cells s1) x + edges K B x);
  sc_black : forall x y, x ∈ B -> y ∈ K x -> y ∈ B;
  sc_white : forall x, x ∈ W -> x ∈ P \/ (rc_of (gs_cells s1) x = 0 /\ forall y, y ∈ K x -> y ∈ W ++ B);
  sc_pending : P ⊆ W ++ B;
  sc_live : forall x, x ∈ B -> exists y, y ∈ S /\ 0 < rc_of (gs_cells s1) y /\ rtc (follows K) y x
}.

Lemma scanned_start : scanned s1 [] [] [].
Proof.
  split; try done.
  - by apply rc_ranges.
  - constructor.
  - by intros x ?%elem_of_nil.
  - intros x _. unfold edges. cbn. by rewrite Z.add_0_r.
  - by intros x y ?%elem_of_nil.
  - by intros x ?%elem_of_nil.
  - by intros x ?%elem_of_nil.
Qed.

Lemma scanned_graph s W B P : scanned s W B P -> graph_ok (gs_cells s).
Proof. intros M. eapply skel_graph; [apply (sc_skel _ _ _ _ M)|done|apply (sc_range _ _ _ _ M)]. Qed.

Lemma scanned_pending s W B P P' : P ≡ₚ P' -> scanned s W B P -> scanned s W B P'.
Proof. intros HP []. split; try done; [intros x; rewrite <- HP; auto|by rewrite <- HP]. Qed.

Lemma white_black_disjoint s W B P x : scanned s W B P -> x ∈ W -> x ∉ B.
Proof. intros [] Hx. apply NoDup_app in sc_nodup0 as (_ & H & _). by apply H. Qed.

(** Nothing black refers to a cell that is not black, so that its count is still what
    marking left. *)
Lemma count_not_black s W B P x : scanned s W B P -> x ∉ B -> is_Some (gs_cells s1 !! x) -> rc_of (gs_cells s) x = rc_of (gs_cells s1) x.
Proof.
  intros M Hx Hd. pose proof (sc_rc _ _ _ _ M x Hd) as Hrc. assert (edges K B x = 0) as HE.
  { pose proof (edges_nonneg K B x). destruct (Z.eq_dec (edges K B x) 0); [done|]. assert (0 < edges K B x) as (v & Hv & Hvx)%edges_pos by lia.
    destruct Hx. by eapply (sc_black _ _ _ _ M). }
  rewrite HE, Z.add_0_r in Hrc. rewrite !u32_small in Hrc; [done|by apply rc_ranges|apply (sc_range _ _ _ _ M)].
Qed.

(** A white cell with references from elsewhere becomes black, with what it refers to. *)
Lemma rescue_step s W B P ref : scanned s W B (ref :: P) -> ref ∈ W -> 0 < rc_of (gs_cells s) ref ->
  exists s' W' B', (upd_cell ref GC_REF_SET_BLACK;; gc_scan_black ref) s = Ok (tt, s') /\ scanned s' W' B' P /\
    W ++ B ⊆ W' ++ B'.
Proof.
  intros M HrW Hrc. pose proof M as [M1 M2 M3 M4 M5 M6 M7 M8 M9 M10 M11]. assert (HrS : ref ∈ S) by (apply M5, elem_of_app; by left).
  destruct (S_dom ref HrS) as [c0 Hc0]. destruct (skel_lookup _ _ _ _ M1 Hc0) as (c & Hc & _).
  pose proof (white_black_disjoint _ _ _ _ _ M HrW) as HrB.
  destruct (recolor_ok s ref c GC_BLACK GC_REF_SET_BLACK Hc) as (s2 & Hr1 & Hs1 & Hu1 & Hrc1 & Hcol1); [by left|apply set_black_color|].
  assert (Hsk2 : skel (gs_cells s1) (gs_cells s2)) by (by etrans).
  assert (Hg2 : graph_ok (gs_cells s2)) by (eapply skel_graph; [exact Hsk2|done|]; intros x; by rewrite Hrc1).
  assert (HcB : color_of (gs_cells s2) ref = GC_BLACK) by (rewrite Hcol1; by destruct (decide _)).
  destruct (skel_lookup _ _ _ _ Hsk2 Hc0) as (c2 & Hc2 & _).
  destruct (gc_scan_black_ok s2 ref Hg2 ltac:(by eexists) HcB) as (s' & V & Hr2 & [W1 W2 W3 W4 W5 W6 W7 W8 W9] & Hu2 & Hin).
  rewrite app_nil_r in *. assert (HK2 : forall x, kids_of (gs_cells s2) x = K x) by (intros x; by apply skel_kids).
  assert (Hreach : forall x, x ∈ V -> rtc (follows K) ref x).
  { intros x Hx. eapply (rtc_congruence id); [|apply (W7 x Hx)]. intros a b. unfold follows. by rewrite HK2. }
  assert (HVS : V ⊆ S) by (intros x Hx; by eapply S_reach, HrS; apply Hreach).
  assert (HVB : forall x, x ∈ V -> x ∉ B).
  { intros x Hx HB. destruct (W5 x Hx) as [->|Hf]; [done|]. rewrite Hcol1, M6 in Hf. destruct (decide (x = ref)); [by subst|].
    destruct (decide (x ∈ W)) as [HW|]; [by apply (white_black_disjoint _ _ _ _ _ M HW)|]. by destruct (decide (x ∈ B)). }
  set (W' := filter (fun x => x ∉ V) W). assert (HW' : forall x, x ∈ W' <-> x ∈ W /\ x ∉ V) by (intros x; unfold W'; rewrite list_elem_of_filter; tauto).
  assert (Hcol : forall x, color_of (gs_cells s') x =
     if decide (x ∈ W') then GC_WHITE else if decide (x ∈ B ++ V) then GC_BLACK else color_of (gs_cells s1) x).
  { intros x. rewrite W4, Hcol1, M6. pose proof (elem_of_app B V x). pose proof (HW' x).
    destruct (decide (x ∈ V)), (decide (x = ref)), (decide (x ∈ W)), (decide (x ∈ W')), (decide (x ∈ B)), (decide (x ∈ B ++ V)); subst; tauto. }
  exists s', W', (B ++ V). split; [erewrite bind_run by done; done|]. split; [split|].
  - by etrans.
  - done.
  - etrans; [done|]. by etrans.
  - apply NoDup_app. split; [apply NoDup_filter; by apply NoDup_app in M4 as [? _]|]. split.
    + intros x [Hx HxV]%HW' [HB|HV]%elem_of_app; [by apply (white_black_disjoint _ _ _ _ _ M Hx)|done].
    + apply NoDup_app. apply NoDup_app in M4 as (_ & _ & ?). split; [done|]. split; [|done]. intros x HB HV. by apply (HVB x).
  - intros x [[Hx _]%HW'|[Hx|Hx]%elem_of_app]%elem_of_app; [apply M5, elem_of_app; by left|apply M5, elem_of_app; by right|by apply HVS].
  - exact Hcol.
  - intros x Hx. rewrite W3.
    + rewrite Z.mul_1_l, edges_app, (edges_ext K) by done. rewrite Hrc1. rewrite <- u32_add_l, M7 by done. rewrite u32_add_l. f_equal. lia.
    + destruct Hx as [e He]. by destruct (skel_lookup _ _ _ _ Hsk2 He) as (e' & -> & _).
  - intros x y [Hx|Hx]%elem_of_app Hy; apply elem_of_app; [left; by eapply M8|]. specialize (W6 x y Hx). rewrite HK2 in W6. specialize (W6 Hy).
    apply negb_false_iff, Z.eqb_eq in W6. assert (HyS : y ∈ S) by (eapply Hclosed, Hy; by apply HVS). rewrite Hcol in W6.
    destruct (decide (y ∈ W')); [done|]. destruct (decide (y ∈ B ++ V)) as [H|H]; [by apply elem_of_app in H|]. apply Hgrey in HyS. by rewrite HyS in W6.
  - intros x [Hx HxV]%HW'. destruct (M9 x Hx) as [[->|HP]%elem_of_cons|[Hz Hk]]; [done|by left|]. right. split; [done|].
    intros y Hy. specialize (Hk y Hy). destruct (decide (y ∈ V)); [rewrite !elem_of_app; tauto|].
    apply elem_of_app in Hk as [Hk|Hk]; apply elem_of_app; [left; by apply HW'|right; apply elem_of_app; by left].
  - intros x Hx. specialize (M10 x ltac:(by right)). destruct (decide (x ∈ V)); [rewrite !elem_of_app; tauto|].
    apply elem_of_app in M10 as [Hk|Hk]; apply elem_of_app; [left; by apply HW'|right; apply elem_of_app; by left].
  - intros x [Hx|Hx]%elem_of_app; [by apply M11|]. exists ref. split; [done|]. split; [|by apply Hreach].
    rewrite <- (count_not_black _ _ _ _ ref M HrB) by (by eexists). done.
  - intros x Hx. destruct (decide (x ∈ V)); [rewrite !elem_of_app; tauto|].
    apply elem_of_app in Hx as [Hk|Hk]; apply elem_of_app; [left; by apply HW'|right; apply elem_of_app; by left].
Qed.

(** A white cell without references from elsewhere: what it refers to becomes white. *)
Lemma spread_step s W B P ref : scanned s W B (ref :: P) -> ref ∈ W -> rc_of (gs_cells s) ref = 0 ->
  exists next stack s' new, visit_cell white_touch true ref P s = Ok ((next, stack), s') /\
    scanned s' (W ++ new) B (option_list next ++ stack) /\ option_list next ++ stack ≡ₚ new ++ P.
Proof.
  intros M HrW Hrc. pose proof M as [M1 M2 M3 M4 M5 M6 M7 M8 M9 M10 M11]. assert (HrS : ref ∈ S) by (apply M5, elem_of_app; by left).
  destruct (S_dom ref HrS) as [c0 Hc0]. destruct (skel_lookup _ _ _ _ M1 Hc0) as (c & Hc & _).
  pose proof (scanned_graph _ _ _ _ M) as Hg. pose proof (white_black_disjoint _ _ _ _ _ M HrW) as HrB.
  destruct (visit_cell_ok white_touch _ _ _ true ref c P s Hg Hc) as (next & stack & s' & new & done_ & Hr & Hst & Hv).
  assert (Hdone : ref ∈ done_ /\ forall x, x ∈ done_ -> x = ref \/ (x ∈ new /\ x ∈ K ref)).
  { destruct Hv as [[-> _]|(ht & -> & Hho & Hht & _)].
    - split; [by left|]. intros x ->%list_elem_of_singleton. by left.
    - split; [by left|]. intros x [->|Hx%list_elem_of_singleton]%elem_of_cons; [by left|]. subst. right. split; [done|].
      rewrite <- (skel_kids _ _ ref M1). by apply ht_kid. }
  assert (Hperm : option_list next ++ stack ≡ₚ new ++ P) by (destruct Hv as [[_ Hp]|(ht & _ & _ & _ & Hp)]; [done|exact Hp]).
  assert (Hst' := Hst). destruct Hst' as [S1 S2 S3 S4 S5 S6 S7 S8 S9].
  assert (Hgr : forall x, color_of (gs_cells s) x = GC_GREY <-> x ∈ S /\ x ∉ W ++ B).
  { intros x. rewrite M6, elem_of_app, Hgrey. destruct (decide (x ∈ W)), (decide (x ∈ B)); try tauto; split; try done; tauto. }
  assert (HdS : forall x, x ∈ done_ -> x ∈ S).
  { intros x Hx. destruct (proj2 Hdone x Hx) as [->|[_ Hk]]; [done|]. by eapply Hclosed. }
  assert (Hnew : forall x, x ∈ new -> x ∈ S /\ x ∉ W ++ B) by (intros x [_ Hx%Z.eqb_eq]%S6; by apply Hgr).
  assert (Hseen : forall x y, x ∈ done_ -> y ∈ K x -> y ∈ (W ++ new) ++ B).
  { intros x y Hx Hy. assert (HyS : y ∈ S) by (eapply Hclosed, Hy; by apply HdS). destruct (decide (y ∈ W ++ B)) as [H|H]; [rewrite !elem_of_app in *; tauto|].
    rewrite !elem_of_app. left. right. apply S6. split; [|by apply Z.eqb_eq, Hgr]. apply list_elem_of_bind. exists x. split; [|done]. by rewrite (skel_kids _ _ x M1). }
  exists next, stack, s', new. split; [done|]. split; [|done]. split.
  - by etrans.
  - by apply S4.
  - etrans; [done|]. by split.
  - rewrite <- app_assoc, (Permutation_app_comm new B), app_assoc. apply NoDup_app. split; [done|]. split; [|done].
    intros x Hx Hn. by apply (Hnew x).
  - intros x. rewrite !elem_of_app. intros [[Hx|Hx]|Hx]; [apply M5, elem_of_app; by left|by apply Hnew|apply M5, elem_of_app; by right].
  - intros x. rewrite S7, M6. pose proof (elem_of_app W new x). pose proof (Hnew x). pose proof (elem_of_app W B x).
    destruct (decide (x ∈ new)), (decide (x ∈ W)), (decide (x ∈ W ++ new)), (decide (x ∈ B)); tauto.
  - intros x Hx. rewrite S5, Z.mul_0_l, Z.add_0_r; [by apply M7|]. destruct Hx as [e He]. by destruct (skel_lookup _ _ _ _ M1 He) as (e' & -> & _).
  - done.
  - intros x [Hx|Hx]%elem_of_app.
    + destruct (M9 x Hx) as [[->|HP]%elem_of_cons|[Hz Hk]].
      * right. split; [by rewrite <- (count_not_black _ _ _ _ ref M HrB) by (by eexists)|]. intros y. apply Hseen, Hdone.
      * left. rewrite Hperm. apply elem_of_app. by right.
      * right. split; [done|]. intros y Hy. specialize (Hk y Hy). rewrite !elem_of_app in *. tauto.
    + left. rewrite Hperm. apply elem_of_app. by left.
  - rewrite Hperm. intros x [Hx|Hx]%elem_of_app; [rewrite !elem_of_app; tauto|]. specialize (M10 x ltac:(by right)). rewrite !elem_of_app in *. tauto.
  - done.
Qed.

Lemma scan_visit_ok s W B P ref : scanned s W B (ref :: P) ->
  exists next stack s' W' B', scan_visit ref P s = Ok ((next, stack), s') /\ scanned s' W' B' (option_list next ++ stack) /\
    W ++ B ⊆ W' ++ B' /\ (length (option_list next ++ stack) + length (W ++ B) <= length P + length (W' ++ B'))%nat.
Proof.
  intros M. pose proof M as [M1 M2 M3 M4 M5 M6 M7 M8 M9 M10 M11]. specialize (M10 ref ltac:(by left)) as HrWB.
  assert (HrS : ref ∈ S) by (by apply M5). destruct (S_dom ref HrS) as [c0 Hc0]. destruct (skel_lookup _ _ _ _ M1 Hc0) as (c & Hc & _).
  assert (Hcc : color_of (gs_cells s) ref = GC_REF_COLOR c) by (unfold color_of; by rewrite Hc). rewrite M6 in Hcc.
  assert (Hrcc : rc_of (gs_cells s) ref = rc_count c) by (unfold rc_of; by rewrite Hc).
  unfold scan_visit. erewrite bind_run by (unfold cell; by rewrite Hc). unfold GC_REF_CHECK_COLOR. rewrite <- Hcc.
  destruct (decide (ref ∈ W)) as [HW|HW].
  - change (negb (GC_WHITE =? GC_WHITE)) with false. change (negb (GC_WHITE =? GC_BLACK)) with true. cbv iota. rewrite <- Hrcc.
    destruct (Z.ltb_spec 0 (rc_of (gs_cells s) ref)) as [Hpos|Hz].
    + destruct (rescue_step s W B P ref M HW Hpos) as (s' & W' & B' & Hr & HM & Hsub). exists None, P, s', W', B'. split; [by erewrite bind_run by exact Hr|].
      split; [done|]. split; [done|]. cbn. assert (length (W ++ B) <= length (W' ++ B'))%nat; [|lia]. by apply submseteq_length, NoDup_submseteq.
    + pose proof (M2 ref). destruct (spread_step s W B P ref M HW ltac:(lia)) as (next & stack & s' & new & Hr & HM & Hp).
      exists next, stack, s', (W ++ new), B. split; [done|]. split; [done|]. split; [intros x; rewrite !elem_of_app; tauto|].
      rewrite Hp, !length_app. lia.
  - apply elem_of_app in HrWB as [?|HB]; [done|]. destruct (decide (ref ∈ B)); [|done]. cbn. exists None, P, s, W, B. split; [done|].
    split; [|split; [done|cbn; lia]]. split; try done.
    + intros x Hx. destruct (M9 x Hx) as [[->|?]%elem_of_cons|?]; [done|by left|by right].
    + intros x Hx. apply M10. by right.
Qed.

Lemma scan_traverse fuel : forall ref P s W B, scanned s W B (ref :: P) -> (length P + length S < fuel + length (W ++ B))%nat ->
  exists s' W' B', traverse (plain scan_visit) fuel ref P tt s = Ok (tt, s') /\ scanned s' W' B' [] /\ W ++ B ⊆ W' ++ B'.
Proof.
  induction fuel as [|fuel IH]; intros ref P s W B M Hf.
  - assert (length (W ++ B) <= length S)%nat; [|lia]. apply submseteq_length, NoDup_submseteq; [apply (sc_nodup _ _ _ _ M)|apply (sc_sub _ _ _ _ M)].
  - cbn [traverse]. destruct (scan_visit_ok s W B P ref M) as (next & stack & s' & W' & B' & Hr & HM & Hsub & Hlen).
    erewrite bind_run by (unfold plain; by erewrite bind_run by exact Hr).
    assert (Hgo : forall r st, option_list next ++ stack = r :: st ->
      exists s'' W'' B'', traverse (plain scan_visit) fuel r st tt s' = Ok (tt, s'') /\ scanned s'' W'' B'' [] /\ W ++ B ⊆ W'' ++ B'').
    { intros r st Heq. rewrite Heq in HM, Hlen. destruct (IH r st s' W' B' HM) as (s'' & W'' & B'' & ? & ? & ?); [cbn in Hlen; lia|].
      exists s'', W'', B''. split; [done|]. split; [done|]. by etrans. }
    destruct next as [r|]; [by apply Hgo|]. destruct stack as [|r st]; [|by apply Hgo]. by exists s', W', B'.
Qed.

(** One root that is still grey. *)
Lemma scan_step s W B ref : scanned s W B [] -> color_of (gs_cells s) ref = GC_GREY ->
  exists s' W' B', (upd_cell ref (GC_REF_SET_COLOR GC_WHITE);; gc_scan ref) s = Ok (tt, s') /\ scanned s' W' B' [] /\
    W ++ B ⊆ W' ++ B' /\ ref ∈ W' ++ B'.
Proof.
  intros M Hc0. pose proof M as [M1 M2 M3 M4 M5 M6 M7 M8 M9 M10 M11].
  assert (Hr : ref ∈ S /\ ref ∉ W ++ B).
  { rewrite M6 in Hc0. rewrite elem_of_app, Hgrey. destruct (decide (ref ∈ W)), (decide (ref ∈ B)); try done; tauto. }
  destruct Hr as [HrS HrWB]. destruct (S_dom ref HrS) as [e He]. destruct (skel_lookup _ _ _ _ M1 He) as (c & Hc & _).
  destruct (recolor_ok s ref c GC_WHITE (GC_REF_SET_COLOR GC_WHITE) Hc) as (s2 & Hr1 & Hs1 & Hu1 & Hrc1 & Hcol1); [by right; left|done|].
  assert (M' : scanned s2 (ref :: W) B [ref]).
  { split.
    - by etrans.
    - intros x. by rewrite Hrc1.
    - by etrans.
    - cbn. by constructor.
    - cbn. intros x [->|Hx]%elem_of_cons; [done|by apply M5].
    - intros x. rewrite Hcol1, M6. pose proof (elem_of_cons W x ref). destruct (decide (x = ref)), (decide (x ∈ W)), (decide (x ∈ ref :: W)); subst; tauto.
    - intros x Hx. by rewrite Hrc1, M7.
    - done.
    - intros x [->|Hx]%elem_of_cons; [left; by left|]. destruct (M9 x Hx) as [?%elem_of_nil|[? Hk]]; [done|]. right. split; [done|].
      intros y Hy. cbn. right. by apply Hk.
    - intros x ->%list_elem_of_singleton. by left.
    - done. }
  destruct (scan_traverse (Datatypes.S (size (gs_cells s2))) ref [] s2 (ref :: W) B M') as (s' & W' & B' & Hr2 & HM & Hsub).
  { assert (length S <= size (gs_cells s1))%nat by (apply nodup_dom; [done|apply S_dom]).
    rewrite (skel_size (gs_cells s1) (gs_cells s2)) by (by etrans). cbn. lia. }
  exists s', W', B'. split; [|split; [done|split]].
  - erewrite bind_run by done. exact Hr2.
  - intros x Hx. apply Hsub. cbn. by right.
  - apply Hsub. by left.
Qed.

(** When every root has been scanned, nothing is grey any more, and the white cells are
    those to which only white cells refer. *)
Lemma scanned_all s W B (R : Z -> Prop) : scanned s W B [] -> (forall x, x ∈ S -> exists r, R r /\ rtc (follows K) r x) -> (forall r, R r -> r ∈ W ++ B) ->
  S ≡ₚ W ++ B.
Proof.
  intros M HS HR. apply NoDup_Permutation; [done|apply (sc_nodup _ _ _ _ M)|]. intros x. split; [|apply (sc_sub _ _ _ _ M)].
  intros (r & Hr & Hp)%HS. specialize (HR r Hr). clear Hr. induction Hp as [|x y z Hxy _ IH]; [done|]. apply IH.
  apply elem_of_app in HR as [Hx|Hx].
  - destruct (sc_white _ _ _ _ M x Hx) as [?%elem_of_nil|[_ Hk]]; [done|]. by apply Hk.
  - apply elem_of_app. right. by eapply (sc_black _ _ _ _ M).
Qed.
End Scan.

(** ** The roots: what trial deletion finds *)

(** ** Loops over the buffer *)

Lemma for_roots_ok (I : Z -> gc_state -> Prop) f last : forall fuel current s,
  (forall i s, current <= i < last -> I i s -> exists s', f i s = Ok (tt, s') /\ I (i + 1) s') ->
  I current s -> current <= last -> last - current < Z.of_nat fuel -> exists s', for_roots fuel f current last s = Ok (tt, s') /\ I last s'.
Proof.
  induction fuel as [|fuel IH]; intros current s Hstep HI Hle Hf; [lia|]. cbn [for_roots]. destruct (Z.eqb_spec current last) as [->|Hne].
  - exists s. done.
  - destruct (Hstep current s ltac:(lia) HI) as (s1 & Hr1 & HI1). erewrite bind_run by done.
    apply IH; [intros i s2 Hi; apply Hstep; lia|done|lia|lia].
Qed.

Lemma all_roots_ok (I : Z -> gc_state -> Prop) f s : 1 <= gc_first_unused (gs_gc s) ->
  (forall i s', 1 <= i < gc_first_unused (gs_gc s) -> I i s' -> exists s'', f i s' = Ok (tt, s'') /\ I (i + 1) s'') ->
  I 1 s -> exists s', all_roots f s = Ok (tt, s') /\ I (gc_first_unused (gs_gc s)) s'.
Proof.
  intros Hf Hstep HI. unfold all_roots, root_fuel. rewrite globals_bind. erewrite bind_run by (rewrite globals_bind; done).
  apply for_roots_ok; [done|done|unfold GC_FIRST_ROOT; lia|unfold GC_FIRST_ROOT; lia].
Qed.

(** ** Marking from the roots *)

Definition is_root (E : gmap Z (Z * Z)) (r : Z) : Prop := exists i, E !! i = Some (r, GC_ROOT).

(** The place [i] holds a root or does not. *)
Lemma root_place g U E i s : buf_ok g U E -> gs_gc s = g -> 1 <= i < gc_first_unused g ->
  exists e, root_at i s = Ok (e, s) /\ if GC_IS_ROOT e then E !! i = Some (e, GC_ROOT) else forall r, E !! i <> Some (r, GC_ROOT).
Proof.
  intros Hb Hg Hi. assert (Hcase : exists e, zget (gc_buf g) i = Some e /\ if GC_IS_ROOT e then E !! i = Some (e, GC_ROOT) else forall r, E !! i <> Some (r, GC_ROOT)).
  { destruct (bo_cover _ _ _ _ Hb i Hi) as [HU|[[[p t] HE]|?]]; [| |done].
    - destruct (free_entry g U E Hb i HU) as (k & Hk & _). exists (8 * k + 1). split; [done|]. unfold GC_IS_ROOT. rewrite tag_mod, link_mod. cbn.
      intros r Hr. apply (bo_free _ _ _ _ Hb) in HU as [_ HU]. congruence.
    - destruct (bo_entry _ _ _ _ Hb i p t HE) as (_ & Hz & Hp & Ht). exists (p + t). split; [done|]. unfold GC_IS_ROOT. rewrite tag_tagged by done.
      destruct (Z.eqb_spec t GC_ROOT) as [->|Hne]; [unfold GC_ROOT in *; by rewrite Z.add_0_r|congruence]. }
  destruct Hcase as (e & Hz & He). exists e. split; [|done]. apply root_at_run. by rewrite Hg.
Qed.

Lemma root_before (E : gmap Z (Z * Z)) i (P : Z -> Prop) : (forall r, (exists j, j < i /\ E !! j = Some (r, GC_ROOT)) -> P r) -> (forall r, E !! i = Some (r, GC_ROOT) -> P r) ->
  forall r, (exists j, j < i + 1 /\ E !! j = Some (r, GC_ROOT)) -> P r.
Proof. intros H1 H2 r (j & Hj & HE). destruct (Z.eq_dec j i) as [->|]; [by apply H2|]. apply H1. exists j. split; [lia|done]. Qed.

Section MarkRoots.
Context (s0 : gc_state) (U : list Z) (E : gmap Z (Z * Z)).
Hypothesis Hg : graph_ok (gs_cells s0).
Hypothesis Hb : buf_ok (gs_gc s0) U E.
Hypothesis HA : addr_ok (gs_cells s0) E.
Hypothesis Hno : forall x, color_of (gs_cells s0) x <> GC_GREY.

Definition purple_root (r : Z) : Prop := is_root E r /\ color_of (gs_cells s0) r = GC_PURPLE.

Lemma mark_roots_loop : exists s' S, all_roots mark_root s0 = Ok (tt, s') /\ marked s0 s' S purple_root /\ forall r, purple_root r -> r ∈ S.
Proof.
  pose proof (bo_first _ _ _ _ Hb) as Hf.
  destruct (all_roots_ok (fun i s => exists S, marked s0 s S purple_root /\
    forall r, (exists j, j < i /\ E !! j = Some (r, GC_ROOT)) -> color_of (gs_cells s0) r = GC_PURPLE -> r ∈ S) mark_root s0) as (s' & Hr & S & HM & HS).
  - lia.
  - intros i s Hi (S & HM & HS). destruct (root_place (gs_gc s0) U E i s Hb (proj1 (mk_rest _ _ _ _ HM)) Hi) as (e & Hr & He).
    unfold mark_root. erewrite bind_run by exact Hr. destruct (GC_IS_ROOT e) eqn:Et.
    + destruct (ad_entry _ _ HA i e GC_ROOT He) as [[c0 Hc0] _]. destruct (skel_lookup _ _ _ _ (mk_skel _ _ _ _ HM) Hc0) as (c & Hc & _).
      erewrite bind_run by (unfold cell; by rewrite Hc). assert (Hcol : color_of (gs_cells s) e = GC_REF_COLOR c) by (unfold color_of; by rewrite Hc).
      assert (Hcol0 := mk_color _ _ _ _ HM e). rewrite Hcol in Hcol0. unfold GC_REF_CHECK_COLOR. rewrite Hcol0.
      destruct (decide (e ∈ S)) as [HeS|HeS].
      * change (GC_GREY =? GC_PURPLE) with false. exists s. split; [done|]. exists S. split; [done|]. apply (root_before E i (fun r => _ -> r ∈ S)); [done|]. intros r Hr' _.
        assert (r = e) as -> by congruence. done.
      * destruct (Z.eqb_spec (color_of (gs_cells s0) e) GC_PURPLE) as [Hp|Hp].
        -- destruct (mark_step s0 Hg Hno s S purple_root e HM ltac:(by eexists)) as (s' & V & Hr' & HM' & HV).
           { rewrite Hcol, Hcol0, Hp. done. }
           exists s'. split; [done|]. exists (S ++ V). split.
           { eapply marked_weaken; [|exact HM']. intros r [?| ->]; [done|]. split; [by exists i|done]. }
           apply (root_before E i (fun r => _ -> r ∈ S ++ V)); [intros r Hj Hpr; apply elem_of_app; left; by apply HS|].
           intros r Hr2 _. assert (r = e) as -> by congruence. apply elem_of_app. by right.
        -- exists s. split; [done|]. exists S. split; [done|]. apply (root_before E i (fun r => _ -> r ∈ S)); [done|]. intros r Hr' ?.
           assert (r = e) as -> by congruence. done.
    + exists s. split; [done|]. exists S. split; [done|]. apply (root_before E i (fun r => _ -> r ∈ S)); [done|]. intros r Hr'. by destruct (He r).
  - exists []. split; [eapply marked_weaken; [|by apply marked_start]; done|]. intros r (j & Hj & HE). destruct (bo_entry _ _ _ _ Hb j r _ HE). lia.
  - exists s', S. split; [done|]. split; [done|]. intros r [(j & HE) Hp]. apply HS; [|done]. exists j. split; [|done].
    destruct (bo_entry _ _ _ _ Hb j r _ HE). lia.
Qed.
End MarkRoots.

Section ScanRoots.
Context (s1 : gc_state) (S U : list Z) (E : gmap Z (Z * Z)).
Hypothesis Hg : graph_ok (gs_cells s1).
Hypothesis Hb : buf_ok (gs_gc s1) U E.
Hypothesis HA : addr_ok (gs_cells s1) E.
Hypothesis Hgrey : forall x, x ∈ S <-> color_of (gs_cells s1) x = GC_GREY.
Hypothesis Hclosed : forall x y, x ∈ S -> y ∈ kids_of (gs_cells s1) x -> y ∈ S.
Hypothesis HnS : NoDup S.

Lemma scan_roots_loop : exists s' W B, gc_scan_roots s1 = Ok (tt, s') /\ scanned s1 S s' W B [] /\
  forall r, is_root E r -> r ∈ S -> r ∈ W ++ B.
Proof.
  pose proof (bo_first _ _ _ _ Hb) as Hf. unfold gc_scan_roots.
  destruct (all_roots_ok (fun i s => exists W B, scanned s1 S s W B [] /\
    forall r, (exists j, j < i /\ E !! j = Some (r, GC_ROOT)) -> r ∈ S -> r ∈ W ++ B) scan_root s1) as (s' & Hr & W & B & HM & HS).
  - lia.
  - intros i s Hi (W & B & HM & HS). destruct (root_place (gs_gc s1) U E i s Hb (proj1 (sc_rest _ _ _ _ _ _ HM)) Hi) as (e & Hr & He).
    unfold scan_root. erewrite bind_run by exact Hr. destruct (GC_IS_ROOT e) eqn:Et.
    + destruct (ad_entry _ _ HA i e GC_ROOT He) as [[c0 Hc0] _]. destruct (skel_lookup _ _ _ _ (sc_skel _ _ _ _ _ _ HM) Hc0) as (c & Hc & _).
      erewrite bind_run by (unfold cell; by rewrite Hc). assert (Hcol : color_of (gs_cells s) e = GC_REF_COLOR c) by (unfold color_of; by rewrite Hc).
      unfold GC_REF_CHECK_COLOR. rewrite <- Hcol. destruct (Z.eqb_spec (color_of (gs_cells s) e) GC_GREY) as [Hgr|Hng].
      * destruct (scan_step s1 S Hg Hgrey Hclosed HnS s W B e HM Hgr) as (s' & W' & B' & Hr' & HM' & Hsub & Hin).
        exists s'. split; [done|]. exists W', B'. split; [done|]. apply (root_before E i (fun r => _ -> r ∈ W' ++ B')); [intros; apply Hsub; by apply HS|].
        intros r Hr2 _. assert (r = e) as -> by congruence. done.
      * exists s. split; [done|]. exists W, B. split; [done|]. apply (root_before E i (fun r => _ -> r ∈ W ++ B)); [done|].
        intros r Hr2 HrS. assert (r = e) as -> by congruence. rewrite (sc_color _ _ _ _ _ _ HM) in Hng. apply elem_of_app.
        destruct (decide (e ∈ W)); [by left|]. destruct (decide (e ∈ B)); [by right|]. by apply Hgrey in HrS.
    + exists s. split; [done|]. exists W, B. split; [done|]. apply (root_before E i (fun r => _ -> r ∈ W ++ B)); [done|]. intros r Hr'. by destruct (He r).
  - exists [], []. split; [by apply scanned_start|]. intros r (j & Hj & HE). destruct (bo_entry _ _ _ _ Hb j r _ HE). lia.
  - exists s', W, B. split; [done|]. split; [done|]. intros r (j & HE) HrS. apply HS; [|done]. exists j. split; [|done].
    destruct (bo_entry _ _ _ _ Hb j r _ HE). lia.
Qed.
End ScanRoots.

(** ** Trial deletion *)

(** The counter of a cell counts at least the references from other cells. *)
Definition well_counted (cs : cells) : Prop :=
  forall x, is_Some (cs !! x) -> edges (kids_of cs) (elements (dom cs)) x <= rc_of cs x.

(** Only cells of [C] refer to a cell of [C]. *)
Definition self_contained (cs : cells) (C : list Z) : Prop :=
  forall x, x ∈ C -> is_Some (cs !! x) /\ rc_of cs x = edges (kids_of cs) C x.

Definition reached_from (cs : cells) (R : Z -> Prop) (x : Z) : Prop := exists r, R r /\ rtc (follows (kids_of cs)) r x.

Lemma edges_all cs V x : well_counted cs -> NoDup V -> (forall v, v ∈ V -> is_Some (cs !! v)) -> is_Some (cs !! x) ->
  0 <= edges (kids_of cs) V x <= rc_of cs x.
Proof.
  intros Hw Hn HV Hx. split; [apply edges_nonneg|]. etrans; [|by apply Hw]. apply edges_subset; [done|]. intros v Hv. by apply elem_of_elements, elem_of_dom, HV.
Qed.

(** No path from elsewhere leads into such a set. *)
Lemma self_path cs C a b : well_counted cs -> NoDup C -> self_contained cs C -> rtc (follows (kids_of cs)) a b -> b ∈ C -> a ∈ C.
Proof.
  intros Hw HnC Hself Hab Hb. induction Hab as [|a b d Hab _ IH]; [done|]. specialize (IH Hb). destruct (decide (a ∈ C)) as [|HaC]; [done|]. exfalso.
  assert (Ha : is_Some (cs !! a)) by (unfold follows, kids_of in Hab; destruct (cs !! a); [done|]; by apply elem_of_nil in Hab).
  destruct (Hself b IH) as [Hbd Hrc]. assert (Hle : 0 <= edges (kids_of cs) (a :: C) b <= rc_of cs b).
  { apply edges_all; [done|by constructor| |done]. intros v [->|Hv]%elem_of_cons; [done|]. by apply Hself. }
  rewrite edges_cons in Hle. assert (0 < occ b (kids_of cs a)) by (by apply occ_pos). lia.
Qed.

(** What the trial leaves: the cells [W] are white, with the references from one
    another taken away; nothing else has lost a reference. *)
Record trial (cs cs' : cells) (W : list Z) : Prop := {
  tr_skel : skel cs cs';
  tr_nodup : NoDup W;
  tr_white : forall x, color_of cs' x = GC_WHITE <-> x ∈ W;
  tr_other : forall x, x ∉ W -> color_of cs' x = GC_BLACK \/ color_of cs' x = color_of cs x;
  tr_rc : forall x, is_Some (cs !! x) -> rc_of cs' x = rc_of cs x - edges (kids_of cs) W x;
  tr_self : self_contained cs W
}.

Section Trial.
Context (cs : cells).
Hypothesis Hg : graph_ok cs.
Hypothesis Hw : well_counted cs.
Hypothesis Hcol : forall x, color_of cs x <> GC_GREY /\ color_of cs x <> GC_WHITE.
Notation K := (kids_of cs).

(** A set that only refers to itself has no counter that stays positive. *)
Lemma trial_largest (S B C : list Z) (rc1 : Z -> Z) : NoDup S -> (forall x, x ∈ S -> is_Some (cs !! x)) -> (forall x, is_Some (cs !! x) -> rc1 x = rc_of cs x - edges K S x) ->
  (forall x, x ∈ B -> exists y, y ∈ S /\ 0 < rc1 y /\ rtc (follows K) y x) ->
  NoDup C -> C ⊆ S -> self_contained cs C -> forall x, x ∈ C -> x ∉ B.
Proof.
  intros HnS HdS Hrc1 HB HnC HCS Hself x Hx (y & HyS & Hpos & Hp)%HB.
  assert (HyC : y ∈ C) by (by apply (self_path cs C y x)).
  destruct (Hself y HyC) as [Hyd Hyrc]. rewrite Hrc1 in Hpos by done. pose proof (edges_subset K C S y HnC HCS). lia.
Qed.

Lemma K_skel cs' : skel cs cs' -> forall x, kids_of cs' x = K x.
Proof. intros H x. by apply skel_kids. Qed.
Lemma rtc_skel cs' x y : skel cs cs' -> rtc (follows (kids_of cs')) x y <-> rtc (follows K) x y.
Proof. intros H. split; apply (rtc_congruence id); intros a b; unfold follows; by rewrite (K_skel cs'). Qed.

(** After marking: [S] are the candidates, and they are grey. *)
Record after_mark (s1 : gc_state) (R : Z -> Prop) (S : list Z) : Prop := {
  am_skel : skel cs (gs_cells s1);
  am_range : forall x, 0 <= rc_of (gs_cells s1) x < 2 ^ 32;
  am_info : info_ok cs -> info_ok (gs_cells s1);
  am_nodup : NoDup S;
  am_set : forall x, x ∈ S <-> reached_from cs R x;
  am_dom : forall x, x ∈ S -> is_Some (cs !! x);
  am_closed : forall x y, x ∈ S -> y ∈ K x -> y ∈ S;
  am_color : forall x, color_of (gs_cells s1) x = if decide (x ∈ S) then GC_GREY else color_of cs x;
  am_rc : forall x, is_Some (cs !! x) -> rc_of (gs_cells s1) x = rc_of cs x - edges K S x
}.

Lemma mark_roots_ok g U E : buf_ok g U E -> addr_ok cs E ->
  exists s1 E0 S, gc_mark_roots (mkGc cs g) = Ok (tt, s1) /\ after_mark s1 (purple_root (mkGc cs g) E) S /\
    buf_ok (gs_gc s1) [] E0 /\ addr_ok (gs_cells s1) E0 /\ same_entries E E0 /\ same_ctl g (gs_gc s1).
Proof.
  intros Hb HA. destruct (compact_ok cs g U E Hb HA) as (cs0 & g0 & E0 & Hr0 & Hb0 & [Hsz HE] & (Hsk0 & Hi0 & Hm0) & HA0 & Hctl).
  assert (Hrc0 : forall x, rc_of cs0 x = rc_of cs x) by apply Hm0. assert (Hcol0 : forall x, color_of cs0 x = color_of cs x) by apply Hm0.
  assert (Hg0 : graph_ok cs0) by (eapply skel_graph; [exact Hsk0|done|]; intros x; rewrite Hrc0; by apply rc_ranges).
  destruct (mark_roots_loop (mkGc cs0 g0) [] E0) as (s1 & S & Hr1 & [M1 M2 (M3 & M3' & M3'') M4 M5 M6 M7 M8 M9] & HPS); try done.
  { intros x. cbn. rewrite Hcol0. apply Hcol. }
  cbn [gs_cells gs_gc] in *. assert (HK0 := K_skel cs0 Hsk0).
  assert (HdS : forall x, x ∈ S -> is_Some (cs !! x)) by (intros x Hx; by apply (skel_exists cs cs0), M9).
  assert (Hproot : forall r, purple_root (mkGc cs0 g0) E0 r <-> purple_root (mkGc cs g) E r).
  { intros r. unfold purple_root, is_root. cbn [gs_cells]. by rewrite Hcol0, HE. }
  assert (Hclosed : forall x y, x ∈ S -> y ∈ K x -> y ∈ S) by (intros x y Hx Hy; eapply M6; [exact Hx|]; by rewrite HK0).
  exists s1, E0, S. split; [unfold gc_mark_roots; erewrite bind_run by exact Hr0; exact Hr1|]. rewrite M3. split; [|split; [done|]; split; [by eapply addr_ok_skel|done]].
  split; try done.
  - by etrans.
  - auto.
  - intros x. split.
    + intros (r & Hr%Hproot & Hp)%M7. exists r. split; [done|]. by apply (rtc_skel cs0).
    + intros (r & Hr%Hproot & Hp). apply HPS in Hr. induction Hp as [|a b d Hab _ IH]; [done|]. apply IH. by eapply Hclosed.
  - intros x. by rewrite M5, Hcol0.
  - intros x Hx. pose proof (edges_all cs S x Hw M8 HdS Hx) as He. pose proof (M4 x (proj2 (skel_exists cs cs0 x Hsk0) Hx)) as Hu. pose proof (rc_ranges cs Hg x).
    rewrite (edges_ext K) in Hu by done. rewrite Hrc0 in Hu. rewrite !u32_small in Hu by (try apply M2; lia). done.
Qed.

(** What scanning leaves, when it has been everywhere. *)
Lemma scanned_trial s1 s2 S W B R : after_mark s1 R S -> scanned s1 S s2 W B [] -> S ≡ₚ W ++ B -> trial cs (gs_cells s2) W.
Proof.
  intros [A1 A2 A3 A4 A5 A6 A7 A8 A9] [N1 N2 N3 N4 N5 N6 N7 N8 N9 N10 N11] HS. assert (HK1 := K_skel _ A1).
  assert (Hdisj : forall x, x ∈ W -> x ∉ B) by (intros x Hx; by apply NoDup_app in N4 as (_ & N4 & _); apply N4).
  assert (HedgeB : forall x, x ∉ B -> edges K B x = 0).
  { intros x Hx. pose proof (edges_nonneg K B x). destruct (Z.eq_dec (edges K B x) 0) as [|Hne]; [done|]. assert (0 < edges K B x) as (v & Hv & Hvx)%edges_pos by lia.
    destruct Hx. apply (N8 v); [done|]. by rewrite HK1. }
  assert (HedgeS : forall x, edges K S x = edges K W x + edges K B x) by (intros x; by rewrite HS, edges_app). split.
  - by etrans.
  - by apply NoDup_app in N4 as [? _].
  - intros x. rewrite N6. destruct (decide (x ∈ W)); [done|]. split; [|done]. destruct (decide (x ∈ B)); [done|]. rewrite A8.
    destruct (decide (x ∈ S)); [done|]. intros Hx. by apply Hcol in Hx.
  - intros x Hx. rewrite N6. destruct (decide (x ∈ W)); [done|]. destruct (decide (x ∈ B)) as [|HB]; [by left|]. right. rewrite A8.
    destruct (decide (x ∈ S)) as [HxS|]; [|done]. rewrite HS in HxS. apply elem_of_app in HxS. tauto.
  - intros x Hx. pose proof (N7 x (proj2 (skel_exists _ _ x A1) Hx)) as Hu. rewrite (edges_ext K), A9 in Hu by done. pose proof (edges_all cs S x Hw A4 A6 Hx) as He.
    pose proof (rc_ranges cs Hg x). pose proof (edges_nonneg K W x). pose proof (edges_nonneg K B x). rewrite HedgeS in *. rewrite !u32_small in Hu by (try apply N2; lia). lia.
  - intros x Hx. assert (HxS : x ∈ S) by (rewrite HS; apply elem_of_app; by left). split; [by apply A6|].
    destruct (N9 x Hx) as [?%elem_of_nil|[Hz _]]; [done|]. rewrite A9 in Hz by (by apply A6). rewrite HedgeS, HedgeB in Hz by (by apply Hdisj). lia.
Qed.

Lemma trial_ok g U E : buf_ok g U E -> addr_ok cs E ->
  exists cs' g' E' W, (gc_mark_roots;; gc_scan_roots) (mkGc cs g) = Ok (tt, mkGc cs' g') /\ trial cs cs' W /\
    (forall x, x ∈ W -> reached_from cs (purple_root (mkGc cs g) E) x) /\
    (forall C, NoDup C -> self_contained cs C -> (forall x, x ∈ C -> reached_from cs (purple_root (mkGc cs g) E) x) -> C ⊆ W) /\
    (forall x, reached_from cs (purple_root (mkGc cs g) E) x -> x ∉ W -> color_of cs' x = GC_BLACK) /\
    (info_ok cs -> info_ok cs') /\
    buf_ok g' [] E' /\ addr_ok cs' E' /\ same_entries E E' /\ same_ctl g g'.
Proof.
  intros Hb HA. destruct (mark_roots_ok g U E Hb HA) as (s1 & E0 & S & Hr1 & HM & Hb1 & HA1 & [Hsz HE] & Hctl). set (R := purple_root (mkGc cs g) E) in *.
  pose proof HM as [A1 A2 A3 A4 A5 A6 A7 A8 A9]. assert (HK1 := K_skel _ A1).
  assert (Hgrey1 : forall x, x ∈ S <-> color_of (gs_cells s1) x = GC_GREY).
  { intros x. rewrite A8. destruct (decide (x ∈ S)); [done|]. split; [done|]. intros Hx. by apply Hcol in Hx. }
  destruct (scan_roots_loop s1 S [] E0) as (s2 & W & B & Hr2 & HN & HRS); try done.
  { by eapply skel_graph. } { intros x y. rewrite HK1. apply A7. }
  assert (HS : S ≡ₚ W ++ B).
  { eapply (scanned_all s1 S) with (R := R); try done.
    - intros x (r & Hr & Hp)%A5. exists r. split; [done|]. by apply (rtc_skel (gs_cells s1)).
    - intros r Hr. apply HRS; [destruct Hr as [[i Hi] _]; apply HE; by exists i|]. apply A5. exists r. split; [done|]. apply rtc_refl. }
  assert (Hin : forall x, reached_from cs R x <-> x ∈ W \/ x ∈ B) by (intros x; by rewrite <- A5, HS, elem_of_app).
  destruct (sc_rest _ _ _ _ _ _ HN) as (Hgc & Hi2 & Ha2). exists (gs_cells s2), (gs_gc s1), E0, W. split.
  { erewrite bind_run by exact Hr1. rewrite Hr2, <- Hgc. by destruct s2. }
  split; [by eapply scanned_trial|]. split; [intros x Hx; apply Hin; by left|]. split; [|split; [|split; [auto|split; [done|split; [|done]]]]].
  - intros C HnC Hself HC x Hx. destruct (proj1 (Hin x) (HC x Hx)) as [|HxB]; [done|]. exfalso.
    eapply (trial_largest S B C (rc_of (gs_cells s1))); try done; [|intros z Hz; by apply A5, HC].
    intros y (z & Hz & Hpos & Hp)%(sc_live _ _ _ _ _ _ HN). exists z. split; [done|]. split; [done|]. by apply (rtc_skel (gs_cells s1)).
  - intros x Hx HxW. rewrite (sc_color _ _ _ _ _ _ HN). destruct (decide (x ∈ W)); [done|]. apply Hin in Hx as [|]; [done|]. by destruct (decide (x ∈ B)).
  - eapply addr_ok_skel; [|exact Ha2|exact HA1]. apply (sc_skel _ _ _ _ _ _ HN).
Qed.
End Trial.
