(* ===== verification/GcCollect.v ===== *)
(** * Collecting the white cells

    Roots that are not garbage leave the buffer; what can be reached from the others is
    white, gets its references back and becomes black, and is entered as garbage. *)

From S2P Require Import Prelude.
From S2P Require Import GcOps.
From S2P Require Import GcGraph.
From S2P Require Import GcScan.
From S2P Require Import GcRoots.

(** ** Roots that are not garbage *)

Lemma same_cells_black cs ref c : cs !! ref = Some c -> GC_REF_COLOR c = GC_BLACK -> same_cells cs (<[ref := GC_REF_SET_INFO 0 c]> cs).
Proof. intros Hc Hk. pose proof (same_cells_info cs ref c 0 Hc ltac:(lia)) as H. rewrite Hk in H. exact H. Qed.

Definition dropped (cs : cells) (i : Z) (E E' : gmap Z (Z * Z)) : Prop :=
  forall j p t, E' !! j = Some (p, t) <-> E !! j = Some (p, t) /\ ~ (j < i /\ t = GC_ROOT /\ color_of cs p = GC_BLACK).

Lemma dropped_next cs i E E' : dropped cs i E E' -> (forall p, E !! i = Some (p, GC_ROOT) -> color_of cs p <> GC_BLACK) -> dropped cs (i + 1) E E'.
Proof.
  intros H Hi j p t. rewrite (H j p t). split; intros [HE Hn]; split; try done; intros (Hj & -> & Hc).
  - destruct (Z.eq_dec j i) as [->|]; [by apply (Hi p)|]. apply Hn. split; [lia|done].
  - apply Hn. split; [lia|done].
Qed.
Lemma dropped_delete cs i E E' p : dropped cs i E E' -> E !! i = Some (p, GC_ROOT) -> color_of cs p = GC_BLACK -> dropped cs (i + 1) E (delete i E').
Proof.
  intros H Hp Hc j q t. rewrite lookup_delete_Some, (H j q t). split.
  - intros (Hne & HE & Hn). split; [done|]. intros (Hj & Ht & Hq). apply Hn. split; [lia|done].
  - intros (HE & Hn). split; [|split; [done|]]; [intros <-|intros (Hj & ? & ?)]; apply Hn.
    + rewrite Hp in HE. injection HE as <- <-. split; [lia|done].
    + split; [lia|done].
Qed.

Lemma drop_roots_ok cs g U E : buf_ok g U E -> addr_ok cs E ->
  exists cs' g' U' E', all_roots drop_root (mkGc cs g) = Ok (tt, mkGc cs' g') /\ buf_ok g' U' E' /\ addr_ok cs' E' /\ same_cells cs cs' /\ same_ctl g g' /\
    forall i p t, E' !! i = Some (p, t) <-> E !! i = Some (p, t) /\ ~ (t = GC_ROOT /\ color_of cs p = GC_BLACK).
Proof.
  intros Hb HA. pose proof (bo_first _ _ _ _ Hb) as Hf.
  destruct (all_roots_ok (fun i s => exists U' E', buf_ok (gs_gc s) U' E' /\ addr_ok (gs_cells s) E' /\ same_cells cs (gs_cells s) /\ same_ctl g (gs_gc s) /\
    gc_first_unused (gs_gc s) = gc_first_unused g /\ dropped cs i E E') drop_root (mkGc cs g)) as (s' & Hr & U' & E' & Hb' & HA' & HC' & Hctl' & _ & HE').
  - cbn. lia.
  - cbn [gs_gc]. intros i s Hi (U1 & E1 & Hb1 & HA1 & HC1 & Hctl1 & Hf1 & HE1).
    destruct (root_place (gs_gc s) U1 E1 i s Hb1 eq_refl ltac:(lia)) as (e & Hr & He). unfold drop_root. erewrite bind_run by exact Hr.
    destruct (GC_IS_ROOT e) eqn:Et.
    + assert (HEe : E !! i = Some (e, GC_ROOT)) by (by apply HE1 in He as [? _]). destruct (ad_entry _ _ HA1 i e GC_ROOT He) as [[c Hc] _].
      erewrite bind_run by (unfold cell; by rewrite Hc). assert (Hcol : GC_REF_COLOR c = color_of cs e).
      { rewrite <- (proj2 (proj2 (proj2 HC1) e)). unfold color_of. by rewrite Hc. }
      unfold GC_REF_CHECK_COLOR. rewrite Hcol. destruct (Z.eqb_spec (color_of cs e) GC_BLACK) as [Hblk|Hblk].
      * erewrite bind_run by (unfold upd_cell; by rewrite Hc). destruct (remove_from_roots_ok (<[e:=GC_REF_SET_INFO 0 c]> (gs_cells s)) (gs_gc s) U1 E1 i _ Hb1 He)
          as (g' & Hr' & Hb' & Hctl' & _ & Hf'). exists (mkGc (<[e:=GC_REF_SET_INFO 0 c]> (gs_cells s)) g'). split; [done|]. exists (i :: U1), (delete i E1). cbn [gs_gc gs_cells].
        split; [done|]. split; [by eapply addr_ok_delete|]. split; [etrans; [done|]; apply same_cells_black; [done|congruence]|]. split; [by etrans|]. split; [congruence|].
        by eapply dropped_delete.
      * exists s. split; [done|]. exists U1, E1. do 5 (split; [done|]). apply dropped_next; [done|]. intros p Hp. congruence.
    + exists s. split; [done|]. exists U1, E1. do 5 (split; [done|]). apply dropped_next; [done|]. intros p Hp Hc. apply (He p), HE1. split; [done|]. lia.
  - cbn. exists U, E. do 5 (split; [done|]). intros j p t. split; [intros HE; split; [done|]|by intros [? _]]. intros (Hj & _). destruct (bo_entry _ _ _ _ Hb j p t HE). lia.
  - destruct s' as [cs' g']. exists cs', g', U', E'. split; [done|]. cbn [gs_gc gs_cells] in *. do 4 (split; [done|]). intros i p t. rewrite (HE' i p t). split.
    + intros [HE Hn]. split; [done|]. intros [? ?]. apply Hn. destruct (bo_entry _ _ _ _ Hb i p t HE). split; [lia|done].
    + intros [HE Hn]. split; [done|]. intros (_ & ? & ?). by apply Hn.
Qed.

(** ** Garbage is entered *)

Lemma entries_size cs E : addr_ok cs E -> (size E <= size cs)%nat.
Proof.
  intros [A1 A2 _ _]. set (l := (fun x => x.2.1) <$> map_to_list E). assert (size E = length l) as ->.
  { unfold l. by rewrite length_fmap, length_map_to_list. }
  apply nodup_dom.
  - apply NoDup_fmap_2_strong; [|apply NoDup_map_to_list]. intros [i [p t]] [j [p' t']] Hi%elem_of_map_to_list Hj%elem_of_map_to_list. cbn. intros <-.
    assert (i = j) as -> by (by eapply A2). congruence.
  - intros p ([i [q t]] & -> & Hi%elem_of_map_to_list)%list_elem_of_fmap. by apply (A1 i q t).
Qed.

Definition nonref (c : zend_refcounted) : bool := negb (bool_decide (rc_type c = IS_REFERENCE)).
(** Objects and arrays are garbage; references are not. *)
Definition buffered (c : zend_refcounted) : bool :=
  match rc_type c with IS_OBJECT => negb (rc_free_called c) | IS_ARRAY => true | _ => false end.
(** An object with a destructor that has not run. *)
Definition pending_dtor (c : zend_refcounted) : bool :=
  bool_decide (rc_type c = IS_OBJECT) && negb (rc_free_called c) && negb (rc_dtor_called c) && has_dtor c.
Definition cell_is (f : zend_refcounted -> bool) (cs : cells) (x : Z) : bool := from_option f false (cs !! x).

Definition count_of (cs : cells) (H : list Z) : Z := Z.of_nat (length (filter (fun x => cell_is nonref cs x = true) H)).
Definition flags_of (cs : cells) (H : list Z) (flags : Z) : Z := if existsb (cell_is pending_dtor cs) H then Z.lor flags GC_HAS_DESTRUCTORS else flags.

Lemma gc_add_garbage_ok cs g E ref c : buf_ok g [] E -> addr_ok cs E -> info_ok cs -> cs !! ref = Some c -> rc_info c = 0 ->
  Z.of_nat (size cs) + 1 < 2 ^ 29 ->
  exists cs' g' i, gc_add_garbage ref (mkGc cs g) = Ok (tt, mkGc cs' g') /\ buf_ok g' [] (<[i := (ref, GC_GARBAGE)]> E) /\ addr_ok cs' (<[i := (ref, GC_GARBAGE)]> E) /\
    same_cells cs cs' /\ same_ctl g g' /\ E !! i = None /\ i = gc_first_unused g /\ gc_first_unused g' = gc_first_unused g + 1.
Proof.
  intros Hb HA Hio Hc Hz Hsz. pose proof (entries_size _ _ HA). pose proof (bo_total _ _ _ _ Hb) as Ht. change (zlen (option_list None)) with 0 in Ht. change (zlen []) with 0 in Ht.
  destruct (fetch_root_ok cs g [] E Hb ltac:(lia)) as (i & g1 & U1 & Hr1 & Hb1 & Hctl1 & -> & Hf1 & Hi). specialize (Hi eq_refl).
  assert (Href : cell_addr ref) by (apply (ad_cells _ _ HA); by eexists).
  destruct (enter_root_ok cs g1 [] E i ref c GC_GARBAGE GC_BLACK Hb1 HA Hc) as (g2 & cs2 & Hr2 & Hb2 & HA2 & (Hs2 & Hi2 & Hrc2 & Hne2) & Hcol2 & Hctl2 & Hf2).
  { unfold GC_REF_ADDRESS. by rewrite Hz. } { right; by left. } { by left. }
  exists cs2, g2, i. split.
  { unfold gc_add_garbage. erewrite bind_run by exact Hr1. by rewrite make_garbage. }
  split; [done|]. split; [done|]. split.
  { split; [done|]. split; [done|]. intros x. split; [done|]. destruct (decide (x = ref)) as [->|Hx]; [|unfold color_of; by rewrite Hne2].
    rewrite Hcol2. unfold color_of. rewrite Hc. cbn. unfold GC_REF_COLOR. by rewrite Hz. }
  split; [by etrans|]. destruct (bo_taken _ _ _ _ Hb1 i eq_refl) as (? & HEi & _). split; [done|]. split; [done|]. rewrite Hf2. lia.
Qed.

(** What the collection has entered: [H] are the cells visited so far. *)
Record entered (cs1 : cells) (g1 : zend_gc_globals) (E1 : gmap Z (Z * Z)) (flags : Z) (H : list Z) (acc : Z * Z) (s : gc_state) : Prop := {
  en_skel : skel cs1 (gs_cells s);
  en_info : info_ok (gs_cells s);
  en_ctl : same_ctl g1 (gs_gc s);
  en_count : acc = (count_of cs1 H, flags_of cs1 H flags);
  en_buf : exists E, buf_ok (gs_gc s) [] E /\ addr_ok (gs_cells s) E /\ E1 ⊆ E /\ gc_first_unused g1 <= gc_first_unused (gs_gc s) /\
    (forall i p t, E !! i = Some (p, t) -> E1 !! i = Some (p, t) \/ t = GC_GARBAGE /\ p ∈ H /\ gc_first_unused g1 <= i) /\
    (forall x, x ∈ H -> cell_is buffered cs1 x = true -> exists i t, E !! i = Some (x, t))
}.

Section Entered.
Context (cs1 : cells) (g1 : zend_gc_globals) (E1 : gmap Z (Z * Z)) (flags : Z).
Hypothesis Hsize : Z.of_nat (size cs1) + 1 < 2 ^ 29.
Hypothesis Hg1 : graph_ok cs1.
Notation entd := (entered cs1 g1 E1 flags).

Lemma entered_step H acc l s s' new : entd H acc s -> step (fun k => k =? GC_WHITE) GC_BLACK 1 l s s' new -> entd H acc s'.
Proof.
  intros [J1 J2 J3 J4 (E & B1 & B2 & B3 & B4 & B5 & B6)] Hst. pose proof (sp_gc _ _ _ _ _ _ _ Hst) as Hgc. split.
  - etrans; [done|apply (sp_skel _ _ _ _ _ _ _ Hst)].
  - by apply (sp_info _ _ _ _ _ _ _ Hst).
  - by rewrite Hgc.
  - done.
  - exists E. rewrite Hgc. split; [done|]. split; [|done]. eapply addr_ok_skel; [apply (sp_skel _ _ _ _ _ _ _ Hst)|apply (sp_addr _ _ _ _ _ _ _ Hst)|done].
Qed.

Lemma count_cons x H : count_of cs1 (x :: H) = count_of cs1 H + (if cell_is nonref cs1 x then 1 else 0).
Proof. unfold count_of. rewrite filter_cons. destruct (cell_is nonref cs1 x); cbn; [destruct (decide _); cbn; [lia|done]|destruct (decide _); [done|lia]]. Qed.
Lemma flags_cons x H : flags_of cs1 (x :: H) flags = if cell_is pending_dtor cs1 x then Z.lor (flags_of cs1 H flags) GC_HAS_DESTRUCTORS else flags_of cs1 H flags.
Proof. unfold flags_of. cbn. destruct (cell_is pending_dtor cs1 x); cbn; [|done]. destruct (existsb _ H); [|done]. by rewrite <- Z.lor_assoc, Z.lor_diag. Qed.

(** The entry of one cell, if it has none. *)
Lemma add_garbage_ok H acc s ref c : entd H acc s -> gs_cells s !! ref = Some c -> GC_REF_COLOR c = GC_BLACK ->
  exists s1, ((if rc_info c =? 0 then gc_add_garbage ref else mret tt) : GC unit) s = Ok (tt, s1) /\ same_cells (gs_cells s) (gs_cells s1) /\
    same_ctl g1 (gs_gc s1) /\ exists E, buf_ok (gs_gc s1) [] E /\ addr_ok (gs_cells s1) E /\ E1 ⊆ E /\ gc_first_unused g1 <= gc_first_unused (gs_gc s1) /\
    (forall i p t, E !! i = Some (p, t) -> E1 !! i = Some (p, t) \/ t = GC_GARBAGE /\ p ∈ ref :: H /\ gc_first_unused g1 <= i) /\
    (forall x, x ∈ ref :: H -> cell_is buffered cs1 x = true -> exists i t, E !! i = Some (x, t)).
Proof.
  intros [J1 J2 J3 J4 (E & B1 & B2 & B3 & B4 & B5 & B6)] Hc Hk. destruct (Z.eqb_spec (rc_info c) 0) as [Hz|Hnz].
  - destruct s as [cs g]. cbn [gs_cells gs_gc] in *.
    destruct (gc_add_garbage_ok cs g E ref c B1 B2 J2 Hc Hz) as (cs' & g' & i & Hr & Hb' & HA' & HC' & Hctl' & Hi & Hif & Hf'); [by rewrite (skel_size cs1)|].
    exists (mkGc cs' g'). split; [done|]. cbn [gs_cells gs_gc]. split; [done|]. split; [by etrans|]. exists (<[i := (ref, GC_GARBAGE)]> E). split; [done|]. split; [done|]. split.
    { etrans; [done|]. by apply insert_subseteq. }
    split; [lia|]. split.
    + intros j p t [[<- [= <- <-]]|[_ Hj]]%lookup_insert_Some; [right; split; [done|]; split; [by left|lia]|]. destruct (B5 j p t Hj) as [|(? & ? & ?)]; [by left|right].
      split; [done|]. split; [by right|done].
    + intros x [->|Hx]%elem_of_cons Hbx; [exists i, GC_GARBAGE; apply lookup_insert_eq|]. destruct (B6 x Hx Hbx) as (j & t & Hj). exists j, t.
      rewrite lookup_insert_ne; [done|]. congruence.
  - exists s. split; [done|]. split; [done|]. split; [done|]. exists E. do 4 (split; [done|]). split.
    + intros j p t Hj. destruct (B5 j p t Hj) as [|(? & ? & ?)]; [by left|right]. split; [done|]. split; [by right|done].
    + intros x [->|Hx]%elem_of_cons Hbx; [|by apply B6]. apply (ad_back _ _ B2). unfold addr_of. rewrite Hc. cbn. intros Ha. apply Hnz, info_range_zero; [by apply (J2 ref)|done|done].
Qed.

Lemma garbage_of_ok H acc s ref c : entd H acc s -> gs_cells s !! ref = Some c -> GC_REF_COLOR c = GC_BLACK ->
  exists acc' s1, garbage_of ref acc s = Ok (acc', s1) /\ same_cells (gs_cells s) (gs_cells s1) /\ entd (ref :: H) acc' s1.
Proof.
  intros HJ Hc Hk. pose proof HJ as [J1 J2 J3 J4 (E & B1 & B2 & B3 & B4 & B5 & B6)]. destruct acc as [n f]. injection J4 as -> ->.
  destruct (skel_lookup (gs_cells s) cs1 ref c ltac:(by symmetry) Hc) as (c1 & Hc1 & Hsame). pose proof Hsame as (T1 & T2 & T3 & T4 & T5).
  assert (Hci : forall f, cell_is f cs1 ref = f c1) by (intros h; unfold cell_is; by rewrite Hc1).
  assert (Hcn : count_of cs1 (ref :: H) = if decide (rc_type c = IS_REFERENCE) then count_of cs1 H else count_of cs1 H + 1).
  { rewrite count_cons, Hci. unfold nonref. rewrite T1. destruct (decide (rc_type c = IS_REFERENCE)); [rewrite bool_decide_eq_true_2 by done|rewrite bool_decide_eq_false_2 by done]; cbn; lia. }
  assert (Hfl := flags_cons ref H). rewrite Hci in Hfl. unfold pending_dtor, has_dtor in Hfl. rewrite T1, T3, T4, T5 in Hfl.
  pose proof (gr_body _ Hg1 _ _ Hc1) as Hb. unfold body_fits in Hb. rewrite T1, T5 in Hb.
  assert (Hskip : cell_is buffered cs1 ref = false -> forall acc', acc' = (count_of cs1 (ref :: H), flags_of cs1 (ref :: H) flags) -> entd (ref :: H) acc' s).
  { intros Hnb acc' ->. split; try done. exists E. do 4 (split; [done|]). split.
    - intros i p t Hi. destruct (B5 i p t Hi) as [|(? & ? & ?)]; [by left|right]. split; [done|]. split; [by right|done].
    - intros x [->|Hx]%elem_of_cons Hbx; [congruence|by apply B6]. }
  assert (Hadd : forall s1, same_cells (gs_cells s) (gs_cells s1) -> same_ctl g1 (gs_gc s1) -> (exists E, buf_ok (gs_gc s1) [] E /\ addr_ok (gs_cells s1) E /\ E1 ⊆ E /\
      gc_first_unused g1 <= gc_first_unused (gs_gc s1) /\
      (forall i p t, E !! i = Some (p, t) -> E1 !! i = Some (p, t) \/ t = GC_GARBAGE /\ p ∈ ref :: H /\ gc_first_unused g1 <= i) /\
      (forall x, x ∈ ref :: H -> cell_is buffered cs1 x = true -> exists i t, E !! i = Some (x, t))) ->
      entd (ref :: H) (count_of cs1 (ref :: H), flags_of cs1 (ref :: H) flags) s1).
  { intros s1 (Hs & Hi & _) Hctl HE. split; try done; [by etrans|by apply Hi]. }
  rewrite Hci in Hskip. unfold buffered in Hskip. rewrite T1, T4 in Hskip.
  unfold garbage_of. erewrite bind_run by (unfold cell; by rewrite Hc). rewrite Hcn in *. rewrite Hfl in *.
  destruct (rc_type c) eqn:Et.
  - do 2 eexists. split; [reflexivity|]. split; [done|]. by apply Hskip.
  - destruct (add_garbage_ok H _ s ref c HJ Hc Hk) as (s1 & Hr & HC & Hctl & HE). erewrite bind_run by exact Hr. do 2 eexists. split; [reflexivity|]. split; [done|]. by apply Hadd.
  - destruct (rc_free_called c) eqn:Ef.
    + do 2 eexists. split; [reflexivity|]. split; [done|]. by apply Hskip.
    + destruct (add_garbage_ok H _ s ref c HJ Hc Hk) as (s1 & Hr & HC & Hctl & HE). erewrite bind_run by exact Hr.
      destruct (rc_body c) as [|? ? dt ?| |]; try done. do 2 eexists. split; [reflexivity|]. split; [done|]. by apply Hadd.
  - do 2 eexists. split; [reflexivity|]. split; [done|]. by apply Hskip.
  - do 2 eexists. split; [reflexivity|]. split; [done|]. by apply Hskip.
Qed.
End Entered.

(** ** gc_collect_white *)

Lemma collect_white_ok s E ref flags : graph_ok (gs_cells s) -> info_ok (gs_cells s) -> buf_ok (gs_gc s) [] E -> addr_ok (gs_cells s) E ->
  Z.of_nat (size (gs_cells s)) + 1 < 2 ^ 29 -> is_Some (gs_cells s !! ref) -> color_of (gs_cells s) ref = GC_BLACK ->
  exists acc s' V H, gc_collect_white ref flags s = Ok (acc, s') /\ swept_by (fun k => k =? GC_WHITE) GC_BLACK 1 s s' ref V [] H /\
    entered (gs_cells s) (gs_gc s) E flags H acc s' /\ ref ∈ V.
Proof.
  intros Hg Hi Hb HA Hsz Hd Hc.
  destruct (sweep_ok collect_touch (fun k => k =? GC_WHITE) GC_BLACK 1 collect_visit (entered (gs_cells s) (gs_gc s) E flags)) with (s := s) (ref := ref) (acc := (0, flags))
    as (acc & s' & V & H & Hr & Hs & HJ & Hin); try done.
  - intros H r stack acc s1 HJ Hg1 [c Hcr] Hcol Hr. unfold color_of in Hcol. rewrite Hcr in Hcol.
    destruct (garbage_of_ok (gs_cells s) (gs_gc s) E flags Hsz Hg H acc s1 r c HJ Hcr Hcol) as (acc' & s2 & Hrun & (Hs2 & _ & Hm2) & HJ2).
    exists acc', s2. split; [done|]. split; [done|]. unfold collect_visit. erewrite bind_run by exact Hrun. unfold mbind, GC_bind.
    destruct (visit_cell collect_touch false r stack s2) as [[[? ?] ?]| |]; done.
  - intros H acc l s1 s2 new. apply entered_step.
  - split; try done. exists E. do 4 (split; [done|]). split; [intros; by left|]. by intros x ?%elem_of_nil.
  - exists acc, s', V, H. split; [|done]. unfold gc_collect_white, cell_fuel, mbind, GC_bind. exact Hr.
Qed.

(** What is counted does not depend on counters and colors. *)
Definition skel_pred (f : zend_refcounted -> bool) : Prop := forall c c', same_skel c c' -> f c' = f c.
Lemma nonref_skel : skel_pred nonref.
Proof. intros c c' (H1 & _). unfold nonref. by rewrite H1. Qed.
Lemma buffered_skel : skel_pred buffered.
Proof. intros c c' (H1 & _ & _ & H2 & _). unfold buffered. by rewrite H1, H2. Qed.
Lemma pending_skel : skel_pred pending_dtor.
Proof. intros c c' (H1 & _ & H2 & H3 & H4). unfold pending_dtor, has_dtor. by rewrite H1, H2, H3, H4. Qed.
Lemma cell_is_skel f cs cs' x : skel_pred f -> skel cs cs' -> cell_is f cs' x = cell_is f cs x.
Proof. intros Hf H. specialize (H x). unfold cell_is. destruct (cs !! x), (cs' !! x); try done. by apply Hf. Qed.

Lemma count_app cs H1 H2 : count_of cs (H1 ++ H2) = count_of cs H1 + count_of cs H2.
Proof. unfold count_of. rewrite filter_app, length_app. lia. Qed.
Lemma count_skel cs cs' H : skel cs cs' -> count_of cs' H = count_of cs H.
Proof.
  intros Hs. induction H as [|x H IH]; [done|]. by rewrite !count_cons, IH, (cell_is_skel nonref cs cs' x nonref_skel Hs).
Qed.
Lemma flags_app cs cs' H1 H2 flags : skel cs cs' -> flags_of cs' H2 (flags_of cs H1 flags) = flags_of cs (H1 ++ H2) flags.
Proof.
  intros Hs. unfold flags_of. rewrite existsb_app. assert (existsb (cell_is pending_dtor cs') H2 = existsb (cell_is pending_dtor cs) H2) as ->.
  { induction H2 as [|x H2 IH]; [done|]. cbn. by rewrite IH, (cell_is_skel pending_dtor cs cs' x pending_skel Hs). }
  destruct (existsb _ H1), (existsb _ H2); cbn; try done. by rewrite <- Z.lor_assoc, Z.lor_diag.
Qed.
Lemma count_range cs H : 0 <= count_of cs H <= Z.of_nat (length H).
Proof. unfold count_of. pose proof (length_filter (fun x => cell_is nonref cs x = true) H). lia. Qed.

Lemma retag_ok cs g U E i p t t' : buf_ok g U E -> addr_ok cs E -> E !! i = Some (p, t) -> tag_ok t' ->
  exists g', set_root i (p + t') (mkGc cs g) = Ok (tt, mkGc cs g') /\ buf_ok g' U (<[i := (p, t')]> E) /\ addr_ok cs (<[i := (p, t')]> E) /\ same_ctl g g' /\
    gc_first_unused g' = gc_first_unused g.
Proof.
  intros Hb [A1 A2 A3 A4] Hi Ht'. destruct (bo_entry _ _ _ _ Hb i p t Hi) as (Hir & Hz & Hp & Ht). pose proof (bo_first _ _ _ _ Hb). pose proof (bo_len _ _ _ _ Hb).
  assert (HiU : i ∉ U) by (intros HU; apply (bo_free _ _ _ _ Hb) in HU as [_ HU]; congruence).
  assert (Hsz : size (<[i := (p, t')]> E) = size E) by (rewrite map_size_insert_Some; [done|by eexists]).
  assert (Hnew : forall j q u, <[i := (p, t')]> E !! j = Some (q, u) -> exists u', E !! j = Some (q, u')).
  { intros j q u [[<- [= <- <-]]|[_ Hj]]%lookup_insert_Some; [by exists t|by exists u]. }
  eexists. split; [apply set_root_run; cbn; lia|]. cbn [gs_gc gs_cells]. split; [|split; [|done]].
  - split; cbn [set_buf gc_buf gc_buf_size gc_unused gc_first_unused gc_num_roots].
    + by rewrite zlen_zset.
    + done.
    + apply (bo_small _ _ _ _ Hb).
    + eapply links_frame; [|apply (bo_links _ _ _ _ Hb)]. intros j Hj. apply zget_zset_ne; [lia|]. by intros ->.
    + apply (bo_nodup _ _ _ _ Hb).
    + intros j Hj. destruct (bo_free _ _ _ _ Hb j Hj). split; [done|]. rewrite lookup_insert_ne; [done|]. by intros ->.
    + intros j Hj. destruct (decide (i = j)) as [->|Hne]; [right; left; by rewrite lookup_insert_eq|]. rewrite lookup_insert_ne by done. by apply (bo_cover _ _ _ _ Hb).
    + intros j q u [[<- [= <- <-]]|[Hne Hj]]%lookup_insert_Some; [split; [done|]; split; [apply zget_zset_eq; lia|done]|].
      destruct (bo_entry _ _ _ _ Hb j q u Hj) as (? & Hz' & ?). split; [done|]. split; [|done]. rewrite zget_zset_ne by (lia || done). done.
    + rewrite Hsz. apply (bo_num _ _ _ _ Hb).
    + rewrite Hsz. apply (bo_total _ _ _ _ Hb).
    + done.
  - split; [| | |done].
    + intros j q u (u' & Hj)%Hnew. by apply (A1 j q u').
    + intros j k q u v (u' & Hj)%Hnew (v' & Hk)%Hnew. by eapply A2.
    + intros q (j & u & Hj)%A3. destruct (decide (i = j)) as [->|Hne]; [exists j, t'; rewrite lookup_insert_eq; congruence|exists j, u; by rewrite lookup_insert_ne].
Qed.

(** ** The loop over the roots *)

Section Collecting.
Context (cs0 : cells) (g0 : zend_gc_globals) (E0 : gmap Z (Z * Z)) (W : list Z) (flags : Z).
Hypothesis Hg0 : graph_ok cs0.
Hypothesis Hsize : Z.of_nat (size cs0) + 1 < 2 ^ 29.
Hypothesis Hwhite : forall x, color_of cs0 x = GC_WHITE <-> x ∈ W.
Hypothesis Hroots : forall i p t, E0 !! i = Some (p, t) -> t = GC_ROOT /\ p ∈ W.
Notation K := (kids_of cs0).

(** The cells [V] have their references back. *)
Record restored (s : gc_state) (V : list Z) : Prop := {
  re_skel : skel cs0 (gs_cells s);
  re_range : forall x, 0 <= rc_of (gs_cells s) x < 2 ^ 32;
  re_rc : forall x, is_Some (cs0 !! x) -> u32 (rc_of (gs_cells s) x) = u32 (rc_of cs0 x + edges K V x);
  re_color : forall x, color_of (gs_cells s) x = if decide (x ∈ V) then GC_BLACK else color_of cs0 x;
  re_nodup : NoDup V;
  re_sub : V ⊆ W;
  re_closed : forall x y, x ∈ V -> y ∈ K x -> y ∈ W -> y ∈ V
}.

(** The roots before [i] have become garbage; behind them are those of the cells [H]
    that had no place. *)
Record entries (i : Z) (s : gc_state) (H : list Z) (E : gmap Z (Z * Z)) : Prop := {
  et_buf : buf_ok (gs_gc s) [] E;
  et_addr : addr_ok (gs_cells s) E;
  et_first : gc_first_unused g0 <= gc_first_unused (gs_gc s);
  et_roots : forall j, j < gc_first_unused g0 -> E !! j = if j <? i then (fun pt => (pt.1, GC_GARBAGE)) <$> E0 !! j else E0 !! j;
  et_behind : forall j p t, gc_first_unused g0 <= j -> E !! j = Some (p, t) -> t = GC_GARBAGE /\ p ∈ H;
  et_all : forall x, x ∈ H -> cell_is buffered cs0 x = true -> exists j t, E !! j = Some (x, t)
}.

(** The places before [i] have been visited, and with them the cells [V]; [H] are those
    of them that are not just the properties of an object. *)
Record collecting (i : Z) (s : gc_state) (V H : list Z) (acc : Z * Z) : Prop := {
  co_restored : restored s V;
  co_info : info_ok (gs_cells s);
  co_ctl : same_ctl g0 (gs_gc s);
  co_taken : NoDup H /\ H ⊆ V /\ forall x, x ∈ V -> x ∈ H \/ inner_ht cs0 H x;
  co_count : acc = (count_of cs0 H, flags_of cs0 H flags);
  co_roots : forall j p t, j < i -> E0 !! j = Some (p, t) -> p ∈ V;
  co_entries : exists E, entries i s H E
}.

Lemma restored_sweep s V p s3 s' V' : restored s V -> p ∈ W -> p ∉ V -> recolored s s3 p GC_BLACK ->
  swept (fun k => k =? GC_WHITE) GC_BLACK 1 s3 s' p V' [] -> p ∈ V' -> restored s' (V ++ V') /\ forall x, x ∈ V' -> x ∈ W /\ x ∉ V.
Proof.
  intros [C1 C2 C3 C4 C5 C6 C7] HpW HpV (Hs3 & _ & Hrc3 & Hcol3) [W1 W2 W3 W4 W5 W6 W7 W8 W9] HpV'. rewrite app_nil_r in *.
  assert (Hsk3 : skel cs0 (gs_cells s3)) by (by etrans). assert (HK3 : forall x, kids_of (gs_cells s3) x = K x) by (intros x; by apply skel_kids).
  assert (HV' : forall x, x ∈ V' -> x ∈ W /\ x ∉ V).
  { intros x Hx. destruct (W5 x Hx) as [->|Hf%Z.eqb_eq]; [done|]. rewrite Hcol3, C4 in Hf. destruct (decide (x = p)); [by subst|]. destruct (decide (x ∈ V)); [done|].
    split; [by apply Hwhite|done]. }
  split; [|done]. split.
  - by etrans.
  - done.
  - intros x Hx. rewrite W3 by (by apply (skel_exists cs0)). rewrite Hrc3, Z.mul_1_l, (edges_ext K) by done. rewrite edges_app, Z.add_assoc. rewrite <- u32_add_l, C3 by done. apply u32_add_l.
  - intros x. rewrite W4, Hcol3, C4. pose proof (elem_of_app V V' x). destruct (decide (x ∈ V')), (decide (x = p)), (decide (x ∈ V)), (decide (x ∈ V ++ V')); subst; tauto.
  - apply NoDup_app. split; [done|]. split; [|done]. intros x Hx Hx'. by apply (HV' x).
  - intros x [Hx|Hx]%elem_of_app; [by apply C6|by apply HV'].
  - intros x y [Hx|Hx]%elem_of_app Hy HyW; apply elem_of_app; [left; by eapply C7|]. destruct (decide (y ∈ V)) as [|HyV]; [by left|]. right.
    specialize (W6 x y Hx). rewrite HK3, W4 in W6. specialize (W6 Hy). destruct (decide (y ∈ V')); [done|]. rewrite Hcol3, C4 in W6.
    destruct (decide (y = p)); [by subst|]. destruct (decide (y ∈ V)); [done|]. by rewrite (proj2 (Hwhite y) HyW) in W6.
Qed.

Lemma entries_retag i s H E p : entries i s H E -> 1 <= i < gc_first_unused g0 -> E0 !! i = Some (p, GC_ROOT) ->
  exists g2, root_at i s = Ok (p, s) /\ GC_IS_ROOT p = true /\ is_Some (gs_cells s !! p) /\ set_root i (GC_MAKE_GARBAGE p) s = Ok (tt, mkGc (gs_cells s) g2) /\
    same_ctl (gs_gc s) g2 /\ entries (i + 1) (mkGc (gs_cells s) g2) H (<[i := (p, GC_GARBAGE)]> E).
Proof.
  intros [B1 B2 B3 B4 B5 B6] Hi HE0. assert (HE : E !! i = Some (p, GC_ROOT)) by (rewrite B4, Z.ltb_irrefl by lia; done).
  destruct (root_place (gs_gc s) [] E i s B1 eq_refl) as (e & Hr & He); [lia|]. assert (e = p /\ GC_IS_ROOT e = true) as [-> Het].
  { destruct (GC_IS_ROOT e); [split; [congruence|done]|by destruct (He p)]. }
  destruct (ad_entry _ _ B2 i p GC_ROOT HE) as [Hd _]. destruct s as [cs g]. cbn [gs_cells gs_gc] in *.
  destruct (retag_ok cs g [] E i p GC_ROOT GC_GARBAGE B1 B2 HE) as (g2 & Hr2 & Hb2 & HA2 & Hctl2 & Hf2); [right; by left|]. exists g2.
  rewrite make_garbage by (by apply (ad_cells _ _ B2)). do 5 (split; [done|]). split; cbn [gs_cells gs_gc]; try done; try lia.
  - intros j Hj. destruct (decide (i = j)) as [<-|Hne].
    + rewrite lookup_insert_eq, HE0, (proj2 (Z.ltb_lt i (i + 1))) by lia. done.
    + rewrite lookup_insert_ne, B4 by done. destruct (Z.ltb_spec j i), (Z.ltb_spec j (i + 1)); try done; lia.
  - intros j q u Hj. rewrite lookup_insert_ne by lia. by apply B5.
  - intros x Hx Hbx. destruct (B6 x Hx Hbx) as (j & u & Hj). destruct (decide (i = j)) as [<-|Hne]; [exists i, GC_GARBAGE; rewrite lookup_insert_eq; congruence|].
    exists j, u. by rewrite lookup_insert_ne.
Qed.

Lemma entries_extend i s H E H' f acc s' : entries i s H E -> skel cs0 (gs_cells s) -> entered (gs_cells s) (gs_gc s) E f H' acc s' -> exists E', entries i s' (H ++ H') E'.
Proof.
  intros [B1 B2 B3 B4 B5 B6] Hsk [N1 N2 N3 N4 (E' & M1 & M2 & M3 & M4 & M5 & M6)]. exists E'. split; try done; try lia.
  - intros j Hj. rewrite <- B4 by done. destruct (E !! j) as [q|] eqn:Eq; [by eapply lookup_weaken|].
    destruct (E' !! j) as [[q u]|] eqn:Eq'; [|done]. destruct (M5 j q u Eq') as [?|(_ & _ & ?)]; [congruence|lia].
  - intros j q u Hj Hq. destruct (M5 j q u Hq) as [Hq2|(-> & ? & _)]; [|split; [done|]; apply elem_of_app; by right].
    destruct (B5 j q u Hj Hq2). split; [done|]. apply elem_of_app. by left.
  - intros x [Hx|Hx]%elem_of_app Hbx.
    + destruct (B6 x Hx Hbx) as (j & u & Hj). exists j, u. by eapply lookup_weaken.
    + apply M6; [done|]. by rewrite (cell_is_skel buffered cs0 (gs_cells s) x buffered_skel Hsk).
Qed.

Lemma taken_app V H V' H' s3 s' p f : NoDup H /\ H ⊆ V /\ (forall x, x ∈ V -> x ∈ H \/ inner_ht cs0 H x) -> skel cs0 (gs_cells s3) ->
  swept_by (fun k => k =? GC_WHITE) f 1 s3 s' p V' [] H' -> (forall x, x ∈ V' -> x ∉ V) ->
  NoDup (H ++ H') /\ H ++ H' ⊆ V ++ V' /\ forall x, x ∈ V ++ V' -> x ∈ H ++ H' \/ inner_ht cs0 (H ++ H') x.
Proof.
  intros (C1 & C2 & C3) Hsk [_ T1 T2 T3] Hdis. split; [|split].
  - apply NoDup_app. split; [done|]. split; [|done]. intros x Hx Hx'. apply (Hdis x); [by apply T2|by apply C2].
  - intros x [Hx|Hx]%elem_of_app; apply elem_of_app; [left; by apply C2|right; by apply T2].
  - intros x [Hx|Hx]%elem_of_app.
    + destruct (C3 x Hx) as [?|(o & d & Ho & ? & ?)]; [left; apply elem_of_app; by left|right; exists o, d; split; [apply elem_of_app; by left|done]].
    + destruct (T3 x Hx) as [?|(o & d & Ho & Hd & Hht)]; [left; apply elem_of_app; by right|right]. destruct (skel_lookup (gs_cells s3) cs0 o d ltac:(by symmetry) Hd) as (d' & Hd' & Hsd).
      exists o, d'. split; [apply elem_of_app; by right|]. split; [done|]. by rewrite (same_skel_ht _ _ Hsd).
Qed.

Lemma count_small V H : H ⊆ V -> V ⊆ W -> NoDup H -> i32 (count_of cs0 H) = count_of cs0 H.
Proof.
  intros HV HW Hn. apply i32_small. pose proof (count_range cs0 H). assert (length H <= size cs0)%nat; [|lia]. apply nodup_dom; [done|].
  intros x Hx. assert (HxW : x ∈ W) by (by apply HW, HV). apply Hwhite in HxW. unfold color_of in HxW. by destruct (cs0 !! x).
Qed.

Lemma collect_step i s V H acc : collecting i s V H acc -> 1 <= i < gc_first_unused g0 -> buf_ok g0 [] E0 ->
  exists acc' s' V' H', (ref ← root_at i; gc_assert (GC_IS_ROOT ref);; set_root i (GC_MAKE_GARBAGE ref);; c ← cell ref;
    (if GC_REF_CHECK_COLOR c GC_WHITE then upd_cell ref GC_REF_SET_BLACK;; '(n, flags) ← gc_collect_white ref acc.2; mret (i32 (acc.1 + n), flags)
     else mret acc)) s = Ok (acc', s') /\ collecting (i + 1) s' V' H' acc'.
Proof.
  intros [C1 C2 C3 C4 C5 C6 (E & HE)] Hi Hb0.
  destruct (bo_cover _ _ _ _ Hb0 i Hi) as [?%elem_of_nil|[[[p t] HE0]|?]]; [done| |done]. destruct (Hroots i p t HE0) as [-> HpW].
  destruct (entries_retag i s H E p HE Hi HE0) as (g2 & Hr1 & Ht & [c Hc] & Hr2 & Hctl2 & HE2). set (s2 := mkGc (gs_cells s) g2) in *.
  assert (Hroots' : forall V', p ∈ V' -> V ⊆ V' -> forall j q u, j < i + 1 -> E0 !! j = Some (q, u) -> q ∈ V').
  { intros V' HpV' HVV' j q u Hj HEj. destruct (Z.eq_dec j i) as [->|]; [congruence|]. apply HVV'. apply (C6 j q u); [lia|done]. }
  erewrite bind_run by exact Hr1. erewrite bind_run by (by apply assert_run). erewrite bind_run by exact Hr2. fold s2. erewrite bind_run by (unfold cell, s2; cbn [gs_cells]; by rewrite Hc).
  assert (Hcolp : color_of (gs_cells s) p = GC_REF_COLOR c) by (unfold color_of; by rewrite Hc). rewrite (re_color _ _ C1) in Hcolp. unfold GC_REF_CHECK_COLOR. rewrite <- Hcolp.
  assert (Hrest2 : restored s2 V) by (by destruct C1). destruct (decide (p ∈ V)) as [HpV|HpV].
  { change (GC_BLACK =? GC_WHITE) with false. exists acc, s2, V, H. split; [done|]. split; try done; [by etrans|by apply Hroots'|by eexists]. }
  rewrite (proj2 (Hwhite p) HpW), Z.eqb_refl.
  destruct (recolor_ok s2 p c GC_BLACK GC_REF_SET_BLACK Hc) as (s3 & Hr3 & Hrec); [by left|apply set_black_color|]. pose proof Hrec as (Hs3 & (Hgc3 & Hi3 & Ha3) & Hrc3 & Hcol3).
  erewrite bind_run by exact Hr3. assert (Hsk3 : skel cs0 (gs_cells s3)) by (etrans; [apply (re_skel _ _ C1)|done]).
  assert (Hg3 : graph_ok (gs_cells s3)) by (eapply skel_graph; [exact Hsk3|done|]; intros x; rewrite Hrc3; apply (re_range _ _ C1)).
  assert (HE3 : entries (i + 1) s3 H (<[i := (p, GC_GARBAGE)]> E)) by (destruct HE2 as [? HAe ? ? ? ?]; split; rewrite ?Hgc3; try done; exact (addr_ok_skel _ _ _ Hs3 Ha3 HAe)).
  destruct (collect_white_ok s3 _ p acc.2 Hg3 (Hi3 C2) (et_buf _ _ _ _ HE3) (et_addr _ _ _ _ HE3)) as (acc' & s' & V' & H' & Hr4 & Hby & Hent & HpV').
  { by rewrite (skel_size cs0). } { apply (skel_exists cs0); [done|]. apply (skel_exists cs0 (gs_cells s)); [apply C1|by eexists]. } { rewrite Hcol3. by destruct (decide _). }
  destruct (restored_sweep s2 V p s3 s' V' Hrest2 HpW HpV Hrec (sb_swept _ _ _ _ _ _ _ _ _ Hby) HpV') as [Hres HV'].
  destruct (taken_app V H V' H' s3 s' p GC_BLACK C4 Hsk3 Hby) as (HnH & HsH & HtH); [intros x Hx; by apply HV'|].
  erewrite bind_run by exact Hr4. rewrite (en_count _ _ _ _ _ _ _ Hent). subst acc. cbn [fst snd]. exists (count_of cs0 (H ++ H'), flags_of cs0 (H ++ H') flags), s', (V ++ V'), (H ++ H'). split.
  { rewrite (count_skel cs0 (gs_cells s3)), <- count_app, (flags_app cs0 (gs_cells s3)) by done. by rewrite (count_small (V ++ V')) by (done || apply (re_sub _ _ Hres)). }
  split; try done.
  - apply (en_info _ _ _ _ _ _ _ Hent).
  - etrans; [exact C3|]. etrans; [exact Hctl2|]. pose proof (en_ctl _ _ _ _ _ _ _ Hent) as Hctl. by rewrite Hgc3 in Hctl.
  - apply Hroots'; [apply elem_of_app; by right|intros x Hx; apply elem_of_app; by left].
  - by eapply entries_extend.
Qed.
End Collecting.

(** ** gc_collect_roots *)

Lemma gc_collect_loop_step fuel i end_ acc s acc' s' : i <> end_ ->
  (ref ← root_at i; gc_assert (GC_IS_ROOT ref);; set_root i (GC_MAKE_GARBAGE ref);; c ← cell ref;
    (if GC_REF_CHECK_COLOR c GC_WHITE then upd_cell ref GC_REF_SET_BLACK;; '(n, flags) ← gc_collect_white ref acc.2; mret (i32 (acc.1 + n), flags)
     else mret acc)) s = Ok (acc', s') ->
  gc_collect_loop (S fuel) i end_ acc s = gc_collect_loop fuel (i + 1) end_ acc' s'.
Proof.
  intros Hne Hr. cbn [gc_collect_loop]. rewrite (proj2 (Z.eqb_neq _ _) Hne). do 4 (apply bind_inv in Hr as (? & ? & Hrun & Hr); rewrite (bind_run _ _ _ _ _ Hrun); clear Hrun).
  by rewrite (bind_run _ _ _ _ _ Hr).
Qed.

Section Collected.
Context (cs0 : cells) (g0 : zend_gc_globals) (E0 : gmap Z (Z * Z)) (W : list Z) (flags : Z).
Hypothesis Hg0 : graph_ok cs0.
Hypothesis Hsize : Z.of_nat (size cs0) + 1 < 2 ^ 29.
Hypothesis Hwhite : forall x, color_of cs0 x = GC_WHITE <-> x ∈ W.
Hypothesis Hroots : forall i p t, E0 !! i = Some (p, t) -> t = GC_ROOT /\ p ∈ W.
Hypothesis Hb0 : buf_ok g0 [] E0.

Lemma collect_all_ok fuel : forall i s V H acc, collecting cs0 g0 E0 W flags i s V H acc -> 1 <= i <= gc_first_unused g0 ->
  gc_first_unused g0 - i < Z.of_nat fuel ->
  exists acc' s' V' H', gc_collect_loop fuel i (gc_first_unused g0) acc s = Ok (acc', s') /\ collecting cs0 g0 E0 W flags (gc_first_unused g0) s' V' H' acc'.
Proof.
  induction fuel as [|fuel IH]; intros i s V H acc HC Hi Hf; [lia|]. destruct (Z.eq_dec i (gc_first_unused g0)) as [->|Hne].
  - cbn [gc_collect_loop]. rewrite Z.eqb_refl. by exists acc, s, V, H.
  - destruct (collect_step cs0 g0 E0 W flags Hg0 Hsize Hwhite Hroots i s V H acc HC ltac:(lia) Hb0) as (acc1 & s1 & V1 & H1 & Hr & HC1).
    rewrite (gc_collect_loop_step _ _ _ _ _ _ _ Hne Hr). apply (IH (i + 1) s1 V1 H1 acc1); [done|lia|lia].
Qed.

Lemma collecting_start s : gs_cells s = cs0 -> gs_gc s = g0 -> addr_ok cs0 E0 -> info_ok cs0 -> collecting cs0 g0 E0 W flags 1 s [] [] (0, flags).
Proof.
  intros Hcs Hgs HA Hi. assert (Hlow : forall j pt, j < 1 -> E0 !! j <> Some pt) by (intros j [p t] Hj HE; destruct (bo_entry _ _ _ _ Hb0 j p t HE); lia).
  split; rewrite ?Hcs, ?Hgs; try done.
  - split; rewrite ?Hcs; try done.
    + by apply rc_ranges.
    + intros x _. unfold edges. cbn. by rewrite Z.add_0_r.
    + constructor.
    + by intros x ?%elem_of_nil.
    + by intros x y ?%elem_of_nil.
  - split; [constructor|]. split; [done|]. by intros x ?%elem_of_nil.
  - intros j p t Hj HE. by destruct (Hlow j (p, t) Hj).
  - exists E0. split; rewrite ?Hcs, ?Hgs; try done.
    + intros j _. destruct (Z.ltb_spec j 1) as [Hj|]; [|done]. destruct (E0 !! j) as [pt|] eqn:HE; [|done]. by destruct (Hlow j pt Hj).
    + intros j p t Hj HE. destruct (bo_entry _ _ _ _ Hb0 j p t HE). lia.
    + by intros x ?%elem_of_nil.
Qed.

(** At the end every white cell that is reached from a root has been collected. *)
Lemma collecting_all s V H acc : collecting cs0 g0 E0 W flags (gc_first_unused g0) s V H acc -> NoDup W ->
  (forall a b, rtc (follows (kids_of cs0)) a b -> b ∈ W -> a ∈ W) ->
  (forall x, x ∈ W -> exists r, is_root E0 r /\ rtc (follows (kids_of cs0)) r x) -> V ≡ₚ W.
Proof.
  intros HC HnW Hmem Hreach. pose proof (co_restored _ _ _ _ _ _ _ _ _ _ HC) as HR. apply NoDup_Permutation; [apply (re_nodup _ _ _ _ HR)|done|]. intros x.
  split; [apply (re_sub _ _ _ _ HR)|]. intros Hx. destruct (Hreach x Hx) as (r & (j & Hj) & Hp).
  assert (HrV : r ∈ V).
  { eapply (co_roots _ _ _ _ _ _ _ _ _ _ HC j); [|exact Hj]. destruct (bo_entry _ _ _ _ Hb0 j r _ Hj); lia. }
  clear Hj j.
  induction Hp as [|a b d Hab Hbd IH]; [done|]. apply IH; [done|]. eapply (re_closed _ _ _ _ HR a b); [done|done|by apply (Hmem b d)].
Qed.
End Collected.

Lemma collect_roots_ok cs cs1 W g U E flags : graph_ok cs -> well_counted cs -> trial cs cs1 W -> info_ok cs1 -> Z.of_nat (size cs) + 1 < 2 ^ 29 ->
  buf_ok g U E -> addr_ok cs1 E -> (forall i p t, E !! i = Some (p, t) -> t = GC_ROOT /\ (color_of cs1 p = GC_BLACK \/ p ∈ W)) ->
  (forall x, x ∈ W -> exists r, is_root E r /\ rtc (follows (kids_of cs)) r x) ->
  exists cs' g' E' H, gc_collect_roots flags (mkGc cs1 g) = Ok ((count_of cs H, flags_of cs H flags), mkGc cs' g') /\
    skel cs cs' /\ info_ok cs' /\ (forall x, rc_of cs' x = rc_of cs x) /\ (forall x, color_of cs' x = if decide (x ∈ W) then GC_BLACK else color_of cs1 x) /\
    buf_ok g' [] E' /\ addr_ok cs' E' /\ same_ctl g g' /\ (forall i p t, E' !! i = Some (p, t) -> t = GC_GARBAGE /\ p ∈ W) /\
    NoDup H /\ H ⊆ W /\ (forall x, x ∈ W -> x ∈ H \/ inner_ht cs H x) /\
    (forall x, x ∈ H -> cell_is buffered cs x = true -> exists i, E' !! i = Some (x, GC_GARBAGE)).
Proof.
  intros Hg Hw [T1 T2 T3 T4 T5 T6] Hi Hsz Hb HA Hroot Hreach.
  destruct (drop_roots_ok cs1 g U E Hb HA) as (cs2 & g2 & U2 & E2 & Hr2 & Hb2 & HA2 & HC2 & Hctl2 & HE2).
  destruct (compact_ok cs2 g2 U2 E2 Hb2 HA2) as (cs3 & g3 & E3 & Hr3 & Hb3 & [Hsz3 HE3] & HC3 & HA3 & Hctl3).
  assert (HC13 : same_cells cs1 cs3) by (by etrans). destruct HC13 as (Hs3 & Hi3 & Hm3).
  assert (Hsk : skel cs cs3) by (by etrans). assert (HK : forall x, kids_of cs3 x = kids_of cs x) by (intros x; by apply skel_kids).
  assert (Hrc3 : forall x, is_Some (cs !! x) -> rc_of cs3 x = rc_of cs x - edges (kids_of cs) W x) by (intros x Hx; rewrite (proj1 (Hm3 x)); by apply T5).
  assert (Hdisj : forall x, x ∈ W -> color_of cs1 x <> GC_BLACK) by (intros x Hx%T3; by rewrite Hx).
  assert (HdW : forall x, x ∈ W -> is_Some (cs !! x)) by (intros x Hx; by apply T6).
  assert (Hrcg : forall x, 0 <= rc_of cs3 x < 2 ^ 32).
  { intros x. destruct (cs !! x) as [c|] eqn:Ex.
    - assert (is_Some (cs !! x)) as Hx by (by eexists). rewrite Hrc3 by done. pose proof (rc_ranges cs Hg x). pose proof (edges_all cs W x Hw T2 HdW Hx). lia.
    - specialize (Hsk x). rewrite Ex in Hsk. unfold rc_of. by destruct (cs3 !! x). }
  assert (Hg3 : graph_ok cs3) by (by eapply skel_graph).
  assert (Hroots3 : forall i p t, E3 !! i = Some (p, t) -> t = GC_ROOT /\ p ∈ W).
  { intros i p t Hip. assert (exists j, E2 !! j = Some (p, t)) as (j & Hj) by (apply HE3; by exists i). apply HE2 in Hj as [Hj Hn].
    destruct (Hroot j p t Hj) as [-> [Hblk|]]; [by destruct Hn|done]. }
  assert (Hwhite3 : forall x, color_of cs3 x = GC_WHITE <-> x ∈ W) by (intros x; rewrite (proj2 (Hm3 x)); apply T3).
  destruct (collect_all_ok cs3 g3 E3 W flags Hg3 ltac:(by rewrite (skel_size cs)) Hwhite3 Hroots3 Hb3 (S (Z.to_nat (gc_first_unused g3))) 1 (mkGc cs3 g3) [] [] (0, flags))
    as (acc & s' & V & H & Hr & HC).
  { apply collecting_start; try done. by apply Hi3. } { pose proof (bo_first _ _ _ _ Hb3). lia. } { lia. }
  assert (Hmem : forall a b, rtc (follows (kids_of cs)) a b -> b ∈ W -> a ∈ W) by (intros a b Hab; by apply (self_path cs)).
  assert (Hrtc : forall a b, rtc (follows (kids_of cs3)) a b <-> rtc (follows (kids_of cs)) a b) by (intros a b; exact (rtc_skel cs cs3 a b Hsk)).
  assert (HVW : V ≡ₚ W).
  { eapply (collecting_all cs3 g3 E3 W flags Hb3 s'); [exact HC|done|intros a b Hab; apply Hmem; by apply (Hrtc a b)|].
    intros x Hx. destruct (Hreach x Hx) as (r & (j & Hj) & Hp). exists r. split.
    - apply HE3. exists j. apply HE2. split; [done|]. intros [_ Hblk]. by apply (Hdisj r); [apply (Hmem r x)|].
    - by apply Hrtc. }
  destruct HC as [[C1 C2 C5 C6 C7 C8 C9] C3 C4 (C10 & C11 & C12) C13 C14 (E' & [B1 B2 B3 B4 B5 B6])].
  assert (HEp : forall i p t, E' !! i = Some (p, t) -> t = GC_GARBAGE /\ p ∈ W).
  { intros i p t Hip. destruct (Z.lt_ge_cases i (gc_first_unused g3)) as [Hlt|Hge].
    - rewrite B4, (proj2 (Z.ltb_lt _ _)) in Hip by done. destruct (E3 !! i) as [[q u]|] eqn:Eq; [|done]. injection Hip as <- <-. split; [done|]. by eapply Hroots3.
    - destruct (B5 i p t Hge Hip) as [? ?]. split; [done|]. by apply C8, C11. }
  destruct s' as [cs' g']. cbn [gs_cells gs_gc] in *. exists cs', g', E', H. split; [|split; [by etrans|split; [done|split; [|split; [|split; [done|split; [done|split; [|split; [done|split; [done|split; [|split]]]]]]]]]]].
  - unfold gc_collect_roots. erewrite bind_run by exact Hr2. erewrite bind_run by exact Hr3. rewrite globals_bind. cbn [gs_gc]. erewrite bind_run by (unfold root_fuel; rewrite globals_bind; reflexivity).
    cbn [gs_gc]. unfold GC_FIRST_ROOT. rewrite Hr, C13. by rewrite (count_skel cs cs3), <- (flags_app cs cs3 [] H) by done.
  - intros x. destruct (cs !! x) as [c|] eqn:Ex.
    + assert (is_Some (cs !! x)) as Hx by (by eexists). pose proof (C5 x (proj2 (skel_exists cs cs3 x Hsk) Hx)) as Hu. rewrite (edges_ext (kids_of cs)), HVW, Hrc3 in Hu by done.
      pose proof (rc_ranges cs Hg x). replace (_ - _ + _) with (rc_of cs x) in Hu by lia. by rewrite !u32_small in Hu by (done || apply C2).
    + pose proof (C1 x) as Hx. specialize (Hsk x). rewrite Ex in Hsk. unfold rc_of. rewrite Ex. destruct (cs3 !! x); [done|]. by destruct (cs' !! x).
  - intros x. rewrite C6, (proj2 (Hm3 x)). destruct (decide (x ∈ V)) as [Hx|Hx], (decide (x ∈ W)) as [Hx'|Hx']; try done; by rewrite HVW in Hx.
  - etrans; [done|]. by etrans.
  - intros x Hx. apply C8, C11, Hx.
  - intros x Hx. rewrite <- HVW in Hx. destruct (C12 x Hx) as [?|(o & d & Ho & Hd & Hht)]; [by left|right]. destruct (skel_lookup cs3 cs o d ltac:(by symmetry) Hd) as (d' & Hd' & Hsd).
    exists o, d'. split; [done|]. split; [done|]. by rewrite (same_skel_ht _ _ Hsd).
  - intros x Hx Hbx. destruct (B6 x Hx) as (i & t & Hi'); [by rewrite (cell_is_skel buffered cs cs3 x buffered_skel Hsk)|]. destruct (HEp i x t Hi') as [-> _]. by exists i.
Qed.
