(* ===== verification/GcTheorems.v ===== *)
(** * The collector of cycles: what it does

    The stack of the traversals is a stack; the buffer holds the roots that have been
    entered and not removed; a run finds the garbage and leaves the counters alone. *)

From S2P Require Import Prelude.
From S2P Require Import GcOps.
From S2P Require Import GcGraph.
From S2P Require Import GcScan.
From S2P Require Import GcRoots.
From S2P Require Import GcCollect.

(** ** The stack in segments *)

Definition SEG : nat := Z.to_nat GC_STACK_SEGMENT_SIZE.

(** The elements from the bottom: full segments, and a part of the one in use. *)
Definition stack_rep (s : gc_stack) (l : list Z) : Prop :=
  exists lo mid cur hi full,
    sg_segments s = lo ++ mid ++ cur :: hi /\ sg_base s = zlen lo /\ sg_cur s = zlen lo + zlen mid /\
    Forall (fun seg => length seg = SEG) (sg_segments s) /\ 0 <= sg_top s <= GC_STACK_SEGMENT_SIZE /\
    full = concat mid ++ take (Z.to_nat (sg_top s)) cur /\ l = reverse full.

Definition same_below (n : Z) (s s' : gc_stack) : Prop := forall i, 0 <= i < n -> zget (sg_segments s') i = zget (sg_segments s) i.

Lemma zget_middle {A} (l : list A) x r : zget (l ++ x :: r) (zlen l) = Some x.
Proof. unfold zget, zlen. rewrite (proj2 (Z.leb_le _ _)), Nat2Z.id by lia. by rewrite list_lookup_middle. Qed.
Lemma zset_middle {A} (l : list A) x y r : zset (l ++ x :: r) (zlen l) y = l ++ y :: r.
Proof. unfold zset, zlen. rewrite Nat2Z.id. rewrite <- (Nat.add_0_r (length l)), insert_app_r. done. Qed.

Lemma push_room s lo mid cur hi l ref : sg_segments s = lo ++ mid ++ cur :: hi -> sg_base s = zlen lo -> sg_cur s = zlen lo + zlen mid ->
  Forall (fun seg => length seg = SEG) (sg_segments s) -> 0 <= sg_top s < GC_STACK_SEGMENT_SIZE -> l = reverse (concat mid ++ take (Z.to_nat (sg_top s)) cur) ->
  exists s', gc_stack_push ref s = Ok s' /\ stack_rep s' (ref :: l) /\ same_below (sg_base s) s s' /\ sg_base s' = sg_base s.
Proof.
  intros Hseg Hb Hc Hall Ht ->. unfold gc_stack_push. rewrite (proj2 (Z.eqb_neq _ _)) by lia.
  rewrite Hseg, app_assoc. replace (sg_cur s) with (zlen (lo ++ mid)) by (rewrite zlen_app; lia). rewrite (rd_ok _ _ _ (zget_middle _ _ _)). cbn [mbind res_bind].
  assert (Hlen : length cur = SEG) by (rewrite Hseg, !Forall_app, Forall_cons in Hall; tauto).
  assert (Hr : 0 <= sg_top s < zlen cur) by (unfold zlen; rewrite Hlen; unfold SEG; lia).
  rewrite wr_ok by done. cbn [mbind res_bind]. rewrite wr_ok by (rewrite !zlen_app, zlen_cons; pose proof (zlen_nonneg hi); pose proof (zlen_nonneg lo); pose proof (zlen_nonneg mid); lia).
  cbn [mbind res_bind]. rewrite zset_middle. eexists. split; [reflexivity|]. cbn [sg_segments sg_base sg_cur sg_top]. split; [|split; [|done]].
  - exists lo, mid, (zset cur (sg_top s) ref), hi, (concat mid ++ take (Z.to_nat (sg_top s)) cur ++ [ref]). cbn. rewrite <- app_assoc. split; [done|]. split; [done|]. split; [by rewrite zlen_app|].
    split; [|split; [lia|split]].
    + rewrite Hseg in Hall. rewrite !Forall_app, Forall_cons in *. unfold zset. rewrite length_insert. tauto.
    + f_equal. rewrite Z2Nat.inj_add by lia. change (Z.to_nat 1) with 1%nat. rewrite Nat.add_1_r. unfold zset. unfold zlen in Hr.
      rewrite (take_S_r _ _ ref) by (apply list_lookup_insert_eq; lia). by rewrite take_insert_ge by lia.
    + by rewrite app_assoc, reverse_snoc.
  - intros i Hi. cbn [sg_segments]. rewrite Hseg, <- !app_assoc. rewrite !(zget_app_l lo) by lia. done.
Qed.

Lemma gc_stack_push_ok s l ref : stack_rep s l -> exists s', gc_stack_push ref s = Ok s' /\ stack_rep s' (ref :: l) /\ same_below (sg_base s) s s' /\ sg_base s' = sg_base s.
Proof.
  intros (lo & mid & cur & hi & full & Hseg & Hb & Hc & Hall & Ht & -> & ->). destruct (Z.eq_dec (sg_top s) GC_STACK_SEGMENT_SIZE) as [He|Hne].
  - assert (Hcl : length cur = SEG) by (rewrite Hseg, !Forall_app, Forall_cons in Hall; tauto).
    set (s1 := let s := gc_stack_next s in mkStack (sg_segments s) (sg_base s) (sg_cur s + 1) 0).
    assert (Hrun : gc_stack_push ref s = gc_stack_push ref s1).
    { unfold gc_stack_push at 1. rewrite He, Z.eqb_refl. fold s1. unfold gc_stack_push. by replace (sg_top s1 =? GC_STACK_SEGMENT_SIZE) with false. }
    assert (Hs1 : exists cur1 hi1, sg_segments s1 = lo ++ (mid ++ [cur]) ++ cur1 :: hi1 /\ Forall (fun seg => length seg = SEG) (sg_segments s1) /\ sg_base s1 = sg_base s /\
      sg_cur s1 = sg_cur s + 1 /\ sg_top s1 = 0 /\ same_below (sg_base s) s s1).
    { unfold s1, gc_stack_next. destruct (Z.leb_spec (zlen (sg_segments s)) (sg_cur s + 1)) as [Hle|Hgt]; cbn [sg_segments sg_base sg_cur sg_top].
      - assert (hi = []) as -> by (destruct hi; [done|]; rewrite Hseg, !zlen_app, !zlen_cons in Hle; pose proof (zlen_nonneg hi); lia).
        exists (replicate SEG 0), []. split; [rewrite Hseg; by rewrite <- !app_assoc|]. split; [rewrite Forall_app, Forall_singleton; split; [done|apply length_replicate]|].
        do 3 (split; [done|]). intros i Hi. apply zget_app_l. rewrite Hseg, zlen_app. pose proof (zlen_nonneg (mid ++ [cur])). lia.
      - destruct hi as [|cur1 hi]; [rewrite Hseg, !zlen_app, !zlen_cons in Hgt; change (zlen []) with 0 in Hgt; lia|].
        exists cur1, hi. split; [rewrite Hseg; by rewrite <- !app_assoc|]. done. }
    destruct Hs1 as (cur1 & hi1 & Hseg1 & Hall1 & Hb1 & Hc1 & Ht1 & Hbel1).
    destruct (push_room s1 lo (mid ++ [cur]) cur1 hi1 (reverse (concat mid ++ take (Z.to_nat (sg_top s)) cur)) ref Hseg1) as (s' & Hr & Hrep & Hbel & Hb').
    { congruence. } { rewrite Hc1, Hc, zlen_app, zlen_cons. change (zlen []) with 0. lia. } { done. } { rewrite Ht1. done. }
    { rewrite Ht1. cbn [Z.to_nat take]. rewrite concat_app, app_nil_r. cbn. rewrite app_nil_r, He, take_ge; [done|]. rewrite Hcl. unfold SEG. lia. }
    exists s'. rewrite Hrun. split; [done|]. split; [done|]. split; [|congruence]. intros i Hi. rewrite Hbel by (rewrite Hb1; done). by apply Hbel1.
  - eapply push_room; try done. lia.
Qed.

Lemma reverse_nil_inv {A} (l : list A) : reverse l = [] -> l = [].
Proof. intros H. rewrite <- (reverse_involutive l), H. done. Qed.

Lemma gc_stack_pop_ok s l : stack_rep s l -> exists s', gc_stack_pop s = Ok (head l, s') /\ stack_rep s' (tail l) /\ same_below (sg_base s) s s' /\ sg_base s' = sg_base s.
Proof.
  intros (lo & mid & cur & hi & full & Hseg & Hb & Hc & Hall & Ht & -> & ->). pose proof (zlen_nonneg mid).
  unfold gc_stack_pop. destruct (Z.eqb_spec (sg_top s) 0) as [Hz|Hnz].
  - rewrite Hz. cbn [Z.to_nat take]. rewrite app_nil_r. destruct (Z.eqb_spec (sg_cur s) (sg_base s)) as [He|Hne].
    + assert (mid = []) as -> by (destruct mid; [done|]; rewrite zlen_cons in Hc; pose proof (zlen_nonneg mid); lia).
      exists s. split; [done|]. split; [|done]. exists lo, [], cur, hi, []. split; [done|]. do 4 (split; [done|]). split; [by rewrite Hz|done].
    + destruct mid as [|m mid _] using rev_ind; [unfold zlen at 2 in Hc; cbn in Hc; lia|]. rewrite zlen_app, zlen_cons in Hc. change (zlen []) with 0 in Hc.
      rewrite Hseg, <- app_assoc. cbn [app]. rewrite app_assoc. replace (sg_cur s - 1) with (zlen (lo ++ mid)) by (rewrite zlen_app; lia).
      rewrite (rd_ok _ _ _ (zget_middle _ _ _)). cbn [mbind res_bind].
      assert (Hml : length m = SEG) by (rewrite Hseg, !Forall_app, Forall_singleton in Hall; tauto).
      destruct (zget_is_Some m (GC_STACK_SEGMENT_SIZE - 1)) as [x Hx]; [unfold zlen; rewrite Hml; unfold SEG, GC_STACK_SEGMENT_SIZE; done|].
      rewrite (rd_ok _ _ _ Hx). cbn [mbind res_bind].
      assert (Hm : m = take (Z.to_nat (GC_STACK_SEGMENT_SIZE - 1)) m ++ [x]).
      { unfold zget in Hx. cbn [Z.leb] in Hx. rewrite <- (take_S_r _ _ _ Hx). rewrite take_ge; [done|]. rewrite Hml. unfold SEG, GC_STACK_SEGMENT_SIZE. done. }
      assert (Hrev : reverse (concat (mid ++ [m])) = x :: reverse (concat mid ++ take (Z.to_nat (GC_STACK_SEGMENT_SIZE - 1)) m)).
      { rewrite concat_app. cbn [concat]. rewrite app_nil_r. rewrite Hm at 1. by rewrite app_assoc, reverse_snoc. }
      rewrite Hrev. eexists. split; [reflexivity|]. cbn [sg_segments sg_base sg_cur sg_top head tail]. split; [|split; [|done]].
      * exists lo, mid, m, (cur :: hi), (concat mid ++ take (Z.to_nat (GC_STACK_SEGMENT_SIZE - 1)) m). cbn. rewrite <- app_assoc. split; [done|]. split; [done|].
        split; [by rewrite zlen_app|]. split; [by rewrite Hseg, <- !app_assoc in Hall|]. done.
      * intros i Hi. cbn [sg_segments]. by rewrite Hseg, <- !app_assoc.
  - rewrite Hseg, app_assoc. replace (sg_cur s) with (zlen (lo ++ mid)) by (rewrite zlen_app; lia). rewrite (rd_ok _ _ _ (zget_middle _ _ _)). cbn [mbind res_bind].
    assert (Hcl : length cur = SEG) by (rewrite Hseg, !Forall_app, Forall_cons in Hall; tauto).
    destruct (zget_is_Some cur (sg_top s - 1)) as [x Hx]; [unfold zlen; rewrite Hcl; unfold SEG; lia|]. rewrite (rd_ok _ _ _ Hx). cbn [mbind res_bind].
    assert (Htk : take (Z.to_nat (sg_top s)) cur = take (Z.to_nat (sg_top s - 1)) cur ++ [x]).
    { unfold zget in Hx. rewrite (proj2 (Z.leb_le _ _)) in Hx by lia. rewrite <- (take_S_r _ _ _ Hx). f_equal. lia. }
    rewrite Htk, app_assoc, reverse_snoc. eexists. split; [reflexivity|]. cbn [sg_segments sg_base sg_cur sg_top head tail]. split; [|split; [|done]].
    + exists lo, mid, cur, hi, (concat mid ++ take (Z.to_nat (sg_top s - 1)) cur). cbn. rewrite <- app_assoc. split; [done|]. split; [done|].
      split; [by rewrite zlen_app|]. split; [by rewrite Hseg in Hall|]. split; [lia|done].
    + intros i Hi. cbn [sg_segments]. by rewrite Hseg, <- !app_assoc.
Qed.

Lemma gc_stack_split_ok s l : stack_rep s l -> stack_rep (gc_stack_split s) [] /\ same_below (sg_base (gc_stack_split s)) s (gc_stack_split s) /\ sg_base (gc_stack_split s) = sg_cur s + 1.
Proof.
  intros (lo & mid & cur & hi & full & Hseg & Hb & Hc & Hall & Ht & -> & ->). pose proof (zlen_nonneg mid). pose proof (zlen_nonneg lo). unfold gc_stack_split, gc_stack_next.
  assert (Hbig : sg_cur s + 1 <= zlen (sg_segments s)) by (rewrite Hseg, !zlen_app, zlen_cons; pose proof (zlen_nonneg hi); lia).
  destruct (Z.leb_spec (zlen (sg_segments s)) (sg_cur s + 1)) as [Hle|Hgt]; cbn [sg_segments sg_base sg_cur sg_top].
  - split; [|split; [intros i Hi; apply zget_app_l; lia|done]]. exists (sg_segments s), [], (replicate SEG 0), [], []. cbn. split; [done|]. split; [lia|]. split; [change (zlen []) with 0; lia|].
    split; [rewrite Forall_app, Forall_singleton; split; [done|apply length_replicate]|]. done.
  - split; [|done]. destruct hi as [|c1 hi]; [rewrite Hseg, !zlen_app, zlen_cons in Hgt; change (zlen []) with 0 in Hgt; lia|].
    exists (lo ++ mid ++ [cur]), [], c1, hi, []. cbn. rewrite !zlen_app, zlen_cons. change (zlen []) with 0. rewrite Hseg, <- !app_assoc. split; [done|]. split; [lia|]. split; [lia|].
    rewrite <- Hseg. done.
Qed.

(** Operations, on the segments and on a list. *)
Inductive stack_op : Type := OpPush (ref : Z) | OpPop.
Fixpoint run_segments (ops : list stack_op) (s : gc_stack) : res (list (option Z) * gc_stack) :=
  match ops with
  | [] => Ok ([], s)
  | OpPush ref :: ops => s ← gc_stack_push ref s; run_segments ops s
  | OpPop :: ops => '(r, s) ← gc_stack_pop s; '(rs, s) ← run_segments ops s; Ok (r :: rs, s)
  end.
Fixpoint run_list (ops : list stack_op) (l : list Z) : list (option Z) * list Z :=
  match ops with
  | [] => ([], l)
  | OpPush ref :: ops => run_list ops (ref :: l)
  | OpPop :: ops => let '(rs, l') := run_list ops (tail l) in (head l :: rs, l')
  end.

Lemma run_refines ops : forall s l, stack_rep s l ->
  exists s', run_segments ops s = Ok ((run_list ops l).1, s') /\ stack_rep s' (run_list ops l).2 /\ same_below (sg_base s) s s'.
Proof.
  induction ops as [|[ref|] ops IH]; intros s l Hs; cbn [run_segments run_list].
  - by exists s.
  - destruct (gc_stack_push_ok s l ref Hs) as (s1 & -> & Hs1 & Hb1 & He1). cbn [mbind res_bind]. destruct (IH s1 _ Hs1) as (s' & Hr & Hrep & Hb). exists s'.
    split; [done|]. split; [done|]. intros i Hi. rewrite Hb by (by rewrite He1). by apply Hb1.
  - destruct (gc_stack_pop_ok s l Hs) as (s1 & -> & Hs1 & Hb1 & He1). cbn [mbind res_bind]. destruct (IH s1 _ Hs1) as (s' & Hr & Hrep & Hb). exists s'.
    rewrite Hr. cbn [mbind res_bind]. destruct (run_list ops (tail l)) as [rs l']. split; [done|]. split; [done|]. intros i Hi. rewrite Hb by (by rewrite He1). by apply Hb1.
Qed.

(** The stack a function resumes with, after a function that used the rest of the list. *)
Definition resume (s used : gc_stack) : gc_stack := mkStack (sg_segments used) (sg_base s) (sg_cur s) (sg_top s).

Lemma resume_rep s l s1 : stack_rep s l -> Forall (fun seg => length seg = SEG) (sg_segments s1) -> same_below (sg_cur s + 1) s s1 -> stack_rep (resume s s1) l.
Proof.
  intros (lo & mid & cur & hi & full & Hseg & Hb & Hc & Hall & Ht & -> & ->) Hall1 Hsame. pose proof (zlen_nonneg lo). pose proof (zlen_nonneg mid).
  set (n := S (length (lo ++ mid))). assert (Hn : Z.of_nat n = sg_cur s + 1) by (unfold n; rewrite length_app; unfold zlen in *; lia).
  assert (Hpre : take n (sg_segments s1) = lo ++ mid ++ [cur]).
  { assert (Hs : take n (sg_segments s) = lo ++ mid ++ [cur]).
    { rewrite Hseg. change (lo ++ mid ++ cur :: hi) with (lo ++ mid ++ [cur] ++ hi). rewrite !app_assoc. apply take_app_length'. unfold n. rewrite !length_app. cbn. lia. }
    rewrite <- Hs. apply list_eq. intros i. destruct (decide (i < n)%nat) as [Hi|Hi]; [|by rewrite !lookup_take_ge by lia]. rewrite !lookup_take_lt by lia.
    specialize (Hsame (Z.of_nat i) ltac:(lia)). unfold zget in Hsame. by rewrite (proj2 (Z.leb_le _ _)), Nat2Z.id in Hsame by lia. }
  exists lo, mid, cur, (drop n (sg_segments s1)), (concat mid ++ take (Z.to_nat (sg_top s)) cur). cbn. split; [|done].
  rewrite <- (take_drop n (sg_segments s1)) at 1. rewrite Hpre. by rewrite <- !app_assoc.
Qed.

Definition init_stack : gc_stack := mkStack [replicate SEG 0] 0 0 0.
Lemma init_stack_rep : stack_rep init_stack [].
Proof. exists [], [], (replicate SEG 0), [], []. repeat split; try done. repeat constructor. Qed.

(** the segmented stack of the collector behaves as a list. A function may use the
    rest of the segments as a stack of its own meanwhile: when it is done, the first
    stack is as it was. *)
Theorem gc_stack_refines s l inner outer : stack_rep s l ->
  exists s1 s2, run_segments inner (gc_stack_split s) = Ok ((run_list inner []).1, s1) /\
    run_segments outer (resume s s1) = Ok ((run_list outer l).1, s2).
Proof.
  intros Hs. destruct (gc_stack_split_ok s l Hs) as (Hsp & Hb1 & Hbase). destruct (run_refines inner _ _ Hsp) as (s1 & Hr1 & Hrep1 & Hb2).
  assert (Hrs : stack_rep (resume s s1) l).
  { destruct Hrep1 as (? & ? & ? & ? & ? & _ & _ & _ & Hall & _). apply resume_rep; [done|done|]. rewrite Hbase in *. intros i Hi. rewrite Hb2 by done. by apply Hb1. }
  destruct (run_refines outer _ _ Hrs) as (s2 & Hr2 & _). by exists s1, s2.
Qed.

Definition many_ops : list stack_op := (OpPush <$> seqZ 1 600) ++ replicate 601 OpPop.

Lemma gc_stack_refines_witness : stack_rep init_stack [] /\ exists s1 s2,
  run_segments many_ops (gc_stack_split init_stack) = Ok ((Some <$> reverse (seqZ 1 600)) ++ [None], s1) /\
  run_segments many_ops (resume init_stack s1) = Ok ((Some <$> reverse (seqZ 1 600)) ++ [None], s2).
Proof.
  split; [apply init_stack_rep|]. destruct (gc_stack_refines init_stack [] many_ops many_ops init_stack_rep) as (s1 & s2 & H1 & H2).
  exists s1, s2. split; [etrans; [exact H1|]|etrans; [exact H2|]]; f_equal; f_equal; vm_compute; reflexivity.
Defined.

(** ** The heap and the buffer before a run *)

(** Every counter counts the references from cells; nothing is marked; the entries are
    possible roots, and the buffer is small enough for its links. *)
Record gc_ready (s : gc_state) (U : list Z) (E : gmap Z (Z * Z)) : Prop := {
  rd_graph : graph_ok (gs_cells s);
  rd_counted : well_counted (gs_cells s);
  rd_info : info_ok (gs_cells s);
  rd_size : Z.of_nat (size (gs_cells s)) + 1 < 2 ^ 29;
  rd_color : forall x c, gs_cells s !! x = Some c -> GC_REF_COLOR c = GC_BLACK \/ GC_REF_COLOR c = GC_PURPLE;
  rd_buf : buf_ok (gs_gc s) U E;
  rd_addr : addr_ok (gs_cells s) E;
  rd_tags : forall i p t, E !! i = Some (p, t) -> t = GC_ROOT;
  rd_purple : forall x, color_of (gs_cells s) x = GC_PURPLE -> is_root E x
}.

(** Cells that can be reached from a possible root. *)
Definition candidate (s : gc_state) (E : gmap Z (Z * Z)) : Z -> Prop := reached_from (gs_cells s) (purple_root s E).

(** [W] is garbage: candidates to which only cells of [W] refer; all such sets are part of it. *)
Record garbage (s : gc_state) (E : gmap Z (Z * Z)) (W : list Z) : Prop := {
  ga_nodup : NoDup W;
  ga_candidate : forall x, x ∈ W -> candidate s E x;
  ga_self : self_contained (gs_cells s) W;
  ga_largest : forall C, NoDup C -> (forall x, x ∈ C -> candidate s E x) -> self_contained (gs_cells s) C -> C ⊆ W
}.

Section Run.
Context (s : gc_state) (U : list Z) (E : gmap Z (Z * Z)).
Hypothesis HR : gc_ready s U E.

Lemma ready_colors x : color_of (gs_cells s) x <> GC_GREY /\ color_of (gs_cells s) x <> GC_WHITE.
Proof. unfold color_of. destruct (gs_cells s !! x) as [c|] eqn:Ec; [|done]. cbn. destruct (rd_color _ _ _ HR x c Ec) as [->| ->]; done. Qed.

(** C33: marking and scanning from the possible roots finishes, and finds the garbage: the
    cells that are white afterwards are the largest set of candidates that only cells of
    the set refer to. Other cells have lost no more than the references from the set. *)
Theorem gc_finds_garbage : exists s' W, (gc_mark_roots;; gc_scan_roots) s = Ok (tt, s') /\ garbage s E W /\
  skel (gs_cells s) (gs_cells s') /\ (forall x, color_of (gs_cells s') x = GC_WHITE <-> x ∈ W) /\ (forall x, color_of (gs_cells s') x <> GC_GREY) /\
  forall x, is_Some (gs_cells s !! x) -> rc_of (gs_cells s') x = rc_of (gs_cells s) x - edges (kids_of (gs_cells s)) W x.
Proof.
  destruct HR as [R1 R2 R3 R4 R5 R6 R7 R8 R9]. pose proof ready_colors as Hcol. destruct s as [cs g].
  destruct (trial_ok cs R1 R2 Hcol g U E R6 R7) as (cs' & g' & E' & W & Hr & [T1 T2 T3 T4 T5 T6] & Hc & Hl & _). cbn [gs_cells] in *.
  exists (mkGc cs' g'), W. split; [done|]. split; [split; auto|]. cbn [gs_cells]. split; [done|]. split; [done|]. split; [|done].
  intros x. destruct (decide (x ∈ W)) as [HW%T3|HW]; [by rewrite HW|]. destruct (T4 x HW) as [->| ->]; [done|apply Hcol].
Qed.

Lemma run_collects flags : exists s' W E' H, (gc_mark_roots;; gc_scan_roots;; gc_collect_roots flags) s = Ok ((count_of (gs_cells s) H, flags_of (gs_cells s) H flags), s') /\
  garbage s E W /\ skel (gs_cells s) (gs_cells s') /\ (forall x, rc_of (gs_cells s') x = rc_of (gs_cells s) x) /\
  (forall x, is_Some (gs_cells s !! x) -> color_of (gs_cells s') x = GC_BLACK) /\
  buf_ok (gs_gc s') [] E' /\ addr_ok (gs_cells s') E' /\ same_ctl (gs_gc s) (gs_gc s') /\
  (forall i p t, E' !! i = Some (p, t) -> t = GC_GARBAGE /\ p ∈ W) /\
  NoDup H /\ H ⊆ W /\ (forall x, x ∈ W -> x ∈ H \/ inner_ht (gs_cells s) H x) /\
  (forall x, x ∈ H -> cell_is buffered (gs_cells s) x = true -> exists i, E' !! i = Some (x, GC_GARBAGE)).
Proof.
  destruct HR as [R1 R2 R3 R4 R5 R6 R7 R8 R9]. pose proof ready_colors as Hcol. destruct s as [cs g].
  destruct (trial_ok cs R1 R2 Hcol g U E R6 R7) as (cs1 & g1 & E1 & W & Hr & HT & Hc & Hl & Hblk & Hi & Hb1 & HA1 & [_ HE1] & Hctl1). cbn [gs_cells gs_gc] in *.
  assert (Hback : forall p t, (exists i, E1 !! i = Some (p, t)) -> t = GC_ROOT /\ is_root E p).
  { intros p t (j & Hj)%HE1. assert (t = GC_ROOT) as -> by (by eapply R8). split; [done|by exists j]. }
  assert (Hroot1 : forall i p t, E1 !! i = Some (p, t) -> t = GC_ROOT /\ (color_of cs1 p = GC_BLACK \/ p ∈ W)).
  { intros i p t Hip. destruct (Hback p t) as [-> Hr0]; [by exists i|]. split; [done|]. destruct (decide (p ∈ W)) as [|HpW]; [by right|left].
    destruct Hr0 as [j Hj]. destruct (ad_entry _ _ R7 j p _ Hj) as [[c Hcp] _].
    destruct (R5 p c Hcp) as [Hk|Hk]; assert (Hcp' : color_of cs p = GC_REF_COLOR c) by (unfold color_of; by rewrite Hcp).
    - destruct (tr_other _ _ _ HT p HpW) as [|H]; [done|congruence].
    - apply Hblk; [|done]. exists p. split; [|apply rtc_refl]. split; [by exists j|]. cbn. congruence. }
  destruct (collect_roots_ok cs cs1 W g1 [] E1 flags R1 R2 HT (Hi R3) R4 Hb1 HA1 Hroot1) as (cs' & g' & E' & H & Hr2 & Hsk & Hi' & Hrc & Hcol' & Hb' & HA' & Hctl' & HE' & HnH & HHW & HHt & HHe).
  { intros x Hx. destruct (Hc x Hx) as (r & [(j & Hj) _] & Hp). exists r. split; [|done]. apply HE1. by exists j. }
  exists (mkGc cs' g'), W, E', H. split.
  { destruct (bind_inv _ _ _ _ Hr) as (u & sm & Hm & Hsn). rewrite (bind_run _ _ _ _ _ Hm). rewrite (bind_run _ _ _ _ _ Hsn). exact Hr2. }
  cbn [gs_cells gs_gc]. split; [split; [apply (tr_nodup _ _ _ HT)|done|apply (tr_self _ _ _ HT)|auto]|]. split; [done|]. split; [done|]. split.
  { intros x [c Hx]. rewrite Hcol'. destruct (decide (x ∈ W)) as [|HxW]; [done|]. assert (Hk : color_of cs x = GC_REF_COLOR c) by (unfold color_of; by rewrite Hx).
    destruct (R5 x c Hx) as [Hc5|Hc5]; [destruct (tr_other _ _ _ HT x HxW) as [|Ho]; [done|congruence]|]. apply Hblk; [|done]. exists x. split; [|apply rtc_refl].
    split; [apply R9|cbn]; congruence. }
  split; [done|]. split; [done|]. split; [by etrans|]. done.
Qed.

(** C34: after the collection of the roots, every counter is what it was before the run,
    and every cell is black again. The buffer holds garbage only, and all of it: every
    array or object of the set that is not just the properties of an object of it. The
    count is that of the cells of the set without references and such properties. *)
Theorem gc_collects flags : exists s' W E' H,
  (gc_mark_roots;; gc_scan_roots;; gc_collect_roots flags) s = Ok ((count_of (gs_cells s) H, flags_of (gs_cells s) H flags), s') /\
  garbage s E W /\ skel (gs_cells s) (gs_cells s') /\ (forall x, rc_of (gs_cells s') x = rc_of (gs_cells s) x) /\
  (forall x, is_Some (gs_cells s !! x) -> color_of (gs_cells s') x = GC_BLACK) /\
  buf_ok (gs_gc s') [] E' /\ addr_ok (gs_cells s') E' /\
  (forall i p t, E' !! i = Some (p, t) -> t = GC_GARBAGE /\ p ∈ W) /\
  NoDup H /\ H ⊆ W /\ (forall x, x ∈ W -> x ∈ H \/ inner_ht (gs_cells s) H x) /\
  (forall x, x ∈ H -> cell_is buffered (gs_cells s) x = true -> exists i, E' !! i = Some (x, GC_GARBAGE)).
Proof.
  destruct (run_collects flags) as (s' & W & E' & H & Hr & Hg & Hs & Hrc & Hk & Hb & HA & _ & Hrest). by exists s', W, E', H.
Qed.
End Run.

Lemma buf_inv_flags g U E X enabled active protected full runs collected : buf_inv g U E X ->
  buf_inv (set_gc_flags enabled active protected full (set_stats runs collected g)) U E X.
Proof. intros []. by split. Qed.

(** C35: a run without garbage frees nothing and calls no handler, whatever the handlers
    do: it only empties the buffer of its roots. *)
Theorem gc_run_keeps_live dtor_obj free_obj zend_hash_destroy total s U E : gc_ready s U E -> gc_active (gs_gc s) = false -> gc_num_roots (gs_gc s) <> 0 ->
  (forall W, garbage s E W -> W = []) ->
  exists s', gc_run dtor_obj free_obj zend_hash_destroy total s = Ok (Finish total, s') /\ skel (gs_cells s) (gs_cells s') /\
    (forall x, rc_of (gs_cells s') x = rc_of (gs_cells s) x) /\ (forall x, is_Some (gs_cells s !! x) -> color_of (gs_cells s') x = GC_BLACK /\ addr_of (gs_cells s') x = 0) /\
    buf_ok (gs_gc s') [] ∅ /\ gc_active (gs_gc s') = false /\ gc_runs (gs_gc s') = u32 (gc_runs (gs_gc s) + 1) /\ gc_collected (gs_gc s') = gc_collected (gs_gc s).
Proof.
  intros HR Ha Hn Hlive. unfold gc_run. rewrite globals_bind. rewrite (proj2 (Z.eqb_neq _ _) Hn), Ha. erewrite bind_run by apply upd_run.
  set (s1 := mkGc _ _). assert (HR1 : gc_ready s1 U E).
  { destruct HR as [R1 R2 R3 R4 R5 R6 R7 R8 R9]. split; try done. by apply (buf_inv_flags _ U E None). }
  destruct (run_collects s1 U E HR1 0) as (s2 & W & E' & H & Hr & Hg & Hs & Hrc & Hk & Hb & HA & Hctl & HE' & _ & HHW & _).
  assert (HW : W = []) by (apply Hlive; by destruct Hg). subst W. assert (HE0 : E' = ∅).
  { apply map_empty. intros i. destruct (E' !! i) as [[p t]|] eqn:Ei; [|done]. by destruct (HE' i p t Ei) as [_ ?%elem_of_nil]. }
  destruct (bind_inv _ _ _ _ Hr) as (u1 & t1 & Hm & Hr'). destruct (bind_inv _ _ _ _ Hr') as (u2 & t2 & Hsc & Hcol).
  erewrite bind_run by exact Hm. erewrite bind_run by exact Hsc. erewrite bind_run by exact Hcol. cbv beta iota. rewrite globals_bind.
  rewrite (bo_num _ _ _ _ Hb), HE0, map_size_empty. change (Z.of_nat 0 =? 0) with true. cbv iota. erewrite bind_run by apply upd_run. eexists. split; [reflexivity|]. cbn [gs_cells gs_gc].
  split; [done|]. split; [done|]. split.
  { intros x Hx. split; [by apply Hk|]. destruct (Z.eq_dec (addr_of (gs_cells s2) x) 0) as [|Hne]; [done|]. destruct (ad_back _ _ HA x Hne) as (i & t & Hi). by rewrite HE0, lookup_empty in Hi. }
  destruct Hctl as (_ & _ & _ & _ & _ & Hrun & Hcoll). split; [|done]. rewrite <- HE0. destruct Hb. by split.
Qed.

(** ** The buffer *)

(** C37: compaction moves the entries to the front, and changes nothing else: the cells
    are the same but for their addresses, and know their new places. *)
Theorem gc_compact_keeps s U E : buf_ok (gs_gc s) U E -> addr_ok (gs_cells s) E ->
  exists s' E', gc_compact s = Ok (tt, s') /\ buf_ok (gs_gc s') [] E' /\ addr_ok (gs_cells s') E' /\
    gc_first_unused (gs_gc s') = gc_num_roots (gs_gc s) + 1 /\ gc_num_roots (gs_gc s') = gc_num_roots (gs_gc s) /\
    (forall pt, (exists i, E' !! i = Some pt) <-> (exists i, E !! i = Some pt)) /\ same_cells (gs_cells s) (gs_cells s').
Proof.
  intros Hb HA. destruct s as [cs g]. destruct (compact_ok cs g U E Hb HA) as (cs' & g' & E' & Hr & Hb' & [Hsz HE] & HC & HA' & _).
  exists (mkGc cs' g'), E'. split; [done|]. split; [done|]. split; [done|]. cbn [gs_gc gs_cells] in *.
  pose proof (bo_total _ _ _ _ Hb') as Ht. change (zlen (option_list None)) with 0 in Ht. change (zlen []) with 0 in Ht.
  rewrite (bo_num _ _ _ _ Hb'), (bo_num _ _ _ _ Hb), Hsz in *. split; [lia|]. done.
Qed.

(** A collection is not started. *)
Definition no_collection (g : zend_gc_globals) : Prop :=
  gc_unused g <> GC_INVALID \/ gc_first_unused g < gc_threshold g \/ gc_enabled_ g = false \/ gc_active g = true.

Lemma possible_root_ok collect_cycles rc_dtor_func cs g U E ref c : buf_ok g U E -> addr_ok cs E -> gc_first_unused g < 2 ^ 29 -> gc_threshold g <= gc_buf_size g ->
  gc_protected_ g = false -> no_collection g -> cs !! ref = Some c -> rc_info c = 0 -> is_collectable_type (rc_type c) = true ->
  exists i g' cs', gc_possible_root collect_cycles rc_dtor_func ref (mkGc cs g) = Ok (tt, mkGc cs' g') /\ buf_ok g' (tail U) (<[i := (ref, GC_ROOT)]> E) /\ addr_ok cs' (<[i := (ref, GC_ROOT)]> E) /\
    E !! i = None /\ info_set cs cs' ref /\ color_of cs' ref = GC_PURPLE /\ same_ctl g g'.
Proof.
  intros Hb HA Hf Hth Hp Hno Hc Hz Ht.
  assert (Hassert : forall g', root_assertions ref (mkGc cs g') = Ok (tt, mkGc cs g')).
  { intros g'. unfold root_assertions. erewrite bind_run by (unfold cell; cbn [gs_cells]; by rewrite Hc). erewrite bind_run by (by apply assert_run).
    apply assert_run. by rewrite Hz. }
  assert (Henter : forall i g1 U1, buf_inv g1 U1 E (Some i) -> same_ctl g g1 -> exists g' cs', enter_root ref i ref GC_PURPLE (mkGc cs g1) = Ok (tt, mkGc cs' g') /\
    buf_ok g' U1 (<[i := (ref, GC_ROOT)]> E) /\ addr_ok cs' (<[i := (ref, GC_ROOT)]> E) /\ E !! i = None /\ info_set cs cs' ref /\ color_of cs' ref = GC_PURPLE /\ same_ctl g g').
  { intros i g1 U1 Hb1 Hctl. destruct (enter_root_ok cs g1 U1 E i ref c GC_ROOT GC_PURPLE Hb1 HA Hc) as (g' & cs' & Hr & Hb' & HA' & Hi & Hk & Hctl' & _).
    { unfold GC_REF_ADDRESS. by rewrite Hz. } { by left. } { by right; right; right. }
    unfold GC_ROOT at 1 in Hr. rewrite Z.add_0_r in Hr. exists g', cs'. split; [done|]. split; [done|]. split; [done|]. split; [by apply (bo_taken _ _ _ _ Hb1)|].
    split; [done|]. split; [done|]. by etrans. }
  unfold gc_possible_root. rewrite globals_bind. cbn [gs_gc]. rewrite Hp. destruct U as [|j U].
  - pose proof (bo_links _ _ _ _ Hb) as Hl. cbn in Hl. rewrite Hl in *. cbn [Z.eqb GC_INVALID negb]. destruct (Z.ltb_spec (gc_first_unused g) (gc_threshold g)) as [Hlt|Hge].
    + destruct (fetch_next_unused_ok cs g E Hb Hf ltac:(lia)) as (g1 & Hr1 & Hb1 & Hctl1 & _). erewrite bind_run by exact Hr1. cbv beta zeta. erewrite bind_run by apply Hassert.
      destruct (Henter _ g1 [] Hb1 Hctl1) as (g' & cs' & Hr & Hrest). exists (gc_first_unused g), g', cs'. done.
    + destruct (fetch_root_ok cs g [] E Hb Hf) as (i & g1 & U1 & Hr1 & Hb1 & Hctl1 & -> & _). unfold gc_possible_root_when_full. erewrite bind_run by apply Hassert. rewrite globals_bind. cbn [gs_gc].
      assert (Hstop : gc_enabled_ g && negb (gc_active g) = false).
      { destruct Hno as [?|[?|[->| ->]]]; [done|lia|done|by rewrite andb_false_r]. }
      rewrite Hstop. erewrite bind_run by reflexivity. cbv iota. erewrite bind_run by exact Hr1. destruct (Henter i g1 [] Hb1 Hctl1) as (g' & cs' & Hr & Hrest). exists i, g', cs'. done.
  - pose proof (bo_links _ _ _ _ Hb) as (Hu & Hj & _). rewrite Hu. destruct (Z.eqb_spec j GC_INVALID) as [?|_]; [unfold GC_INVALID in *; lia|]. cbn [negb].
    destruct (fetch_unused_ok cs g j U E Hb) as (g1 & Hr1 & Hb1 & Hctl1 & _). erewrite bind_run by exact Hr1. cbv beta zeta. erewrite bind_run by apply Hassert.
    destruct (Henter j g1 U Hb1 Hctl1) as (g' & cs' & Hr & Hrest). exists j, g', cs'. done.
Qed.

(** C36: a value that becomes a possible root and is removed from the buffer before a
    collection is as it was, at whatever index it has been entered: the cells are the
    same, and the buffer holds the same entries. *)
Theorem gc_root_roundtrip collect_cycles rc_dtor_func s U E ref c : buf_ok (gs_gc s) U E -> addr_ok (gs_cells s) E -> gc_first_unused (gs_gc s) < 2 ^ 29 ->
  gc_threshold (gs_gc s) <= gc_buf_size (gs_gc s) -> gc_protected_ (gs_gc s) = false -> no_collection (gs_gc s) ->
  gs_cells s !! ref = Some c -> rc_info c = 0 -> is_collectable_type (rc_type c) = true ->
  exists s1 s2 i U', gc_possible_root collect_cycles rc_dtor_func ref s = Ok (tt, s1) /\
    buf_ok (gs_gc s1) (tail U) (<[i := (ref, GC_ROOT)]> E) /\ E !! i = None /\ color_of (gs_cells s1) ref = GC_PURPLE /\ addr_of (gs_cells s1) ref = gc_compress i /\
    GC_REMOVE_FROM_BUFFER ref s1 = Ok (tt, s2) /\ gs_cells s2 = gs_cells s /\ buf_ok (gs_gc s2) U' E /\ addr_ok (gs_cells s2) E.
Proof.
  intros Hb HA Hf Hth Hp Hno Hc Hz Ht. destruct s as [cs g]. cbn [gs_gc gs_cells] in *.
  destruct (possible_root_ok collect_cycles rc_dtor_func cs g U E ref c Hb HA Hf Hth Hp Hno Hc Hz Ht) as (i & g1 & cs1 & Hr1 & Hb1 & HA1 & Hi & (Hsk & _ & Hrc & Hne) & Hk & _).
  assert (Hin : <[i := (ref, GC_ROOT)]> E !! i = Some (ref, GC_ROOT)) by apply lookup_insert_eq.
  destruct (remove_from_buffer_ok cs1 g1 (tail U) _ i ref GC_ROOT Hb1 HA1 Hin) as (g2 & cs2 & Hr2 & Hb2 & HA2 & Hcs2 & _).
  rewrite (delete_insert_id E) in Hb2, HA2 by done. destruct Hcs2 as (c1 & Hc1 & ->).
  destruct (skel_lookup _ _ _ _ Hsk Hc) as (c1' & Hc1' & T1 & T2 & T3 & T4 & T5). assert (c1' = c1) as -> by congruence.
  assert (Hcs : <[ref := GC_REF_SET_INFO 0 c1]> cs1 = cs).
  { apply map_eq. intros x. destruct (decide (x = ref)) as [->|Hx]; [|rewrite lookup_insert_ne by done; by apply Hne]. rewrite lookup_insert_eq, Hc. f_equal.
    specialize (Hrc ref). unfold rc_of in Hrc. rewrite Hc1, Hc in Hrc. cbn in Hrc. destruct c, c1. cbn in *. unfold GC_REF_SET_INFO, set_info. cbn. by subst. }
  exists (mkGc cs1 g1), (mkGc (<[ref := GC_REF_SET_INFO 0 c1]> cs1) g2), i, (i :: tail U). split; [done|]. cbn [gs_gc gs_cells]. split; [done|]. split; [done|]. split; [done|].
  split; [by apply (ad_entry _ _ HA1 i ref GC_ROOT)|]. rewrite Hcs in *. split; [|done]. unfold GC_REMOVE_FROM_BUFFER. erewrite bind_run by (unfold cell; cbn [gs_cells]; by rewrite Hc1).
  destruct (Z.eqb_spec (rc_info c1) 0) as [H0|_]; [|exact Hr2]. unfold color_of, GC_REF_COLOR in Hk. rewrite Hc1 in Hk. cbn in Hk. by rewrite H0 in Hk.
Qed.

(** ** An example

    Two objects that refer to one another, and an array with an array in it that is
    referred to from elsewhere; one of the objects and the outer array are possible roots. *)

Definition pA : Z := 2 ^ 34.
Definition pB : Z := 2 ^ 34 + 64.
Definition pC : Z := 2 ^ 34 + 128.
Definition pD : Z := 2 ^ 34 + 192.

Definition demo_object (to_ info : Z) : zend_refcounted := mkRef 1 IS_OBJECT false info false false (ObjectBody [ZPlain; ZCounted to_ true] None false 0).
Definition demo_array (zvals : list gc_zval) (info : Z) : zend_refcounted := mkRef 1 IS_ARRAY false info false false (ArrayBody (Packed zvals)).
Definition purple_at (idx : Z) : Z := Z.lor (gc_compress idx) GC_PURPLE.
Definition demo_globals (buf : list Z) (first num : Z) : zend_gc_globals := mkGlobals buf true false false false 0 first 8 8 num 5 7.

Definition demo : gc_state := mkGc
  (<[pA := demo_object pB (purple_at 1)]> (<[pB := demo_object pA 0]> (<[pC := demo_array [ZCounted pD true] (purple_at 2)]> (<[pD := demo_array [] 0]> ∅))))
  (demo_globals [0; pA; pC; 0; 0; 0; 0; 0] 3 2).
Definition demo_entries : gmap Z (Z * Z) := <[1 := (pA, GC_ROOT)]> (<[2 := (pC, GC_ROOT)]> ∅).

Definition live : gc_state := mkGc
  (<[pC := demo_array [ZCounted pD true] (purple_at 1)]> (<[pD := demo_array [] 0]> ∅)) (demo_globals [0; pC; 0; 0; 0; 0; 0; 0] 2 1).
Definition live_entries : gmap Z (Z * Z) := <[1 := (pC, GC_ROOT)]> ∅.

(** The cases of a lookup. *)
Lemma demo_lookup x c : gs_cells demo !! x = Some c ->
  (x = pA /\ c = demo_object pB (purple_at 1)) \/ (x = pB /\ c = demo_object pA 0) \/
  (x = pC /\ c = demo_array [ZCounted pD true] (purple_at 2)) \/ (x = pD /\ c = demo_array [] 0).
Proof. unfold demo. cbn [gs_cells]. rewrite !lookup_insert_Some, lookup_empty. naive_solver. Qed.
Lemma demo_entry i pt : demo_entries !! i = Some pt -> (i = 1 /\ pt = (pA, GC_ROOT)) \/ (i = 2 /\ pt = (pC, GC_ROOT)).
Proof. unfold demo_entries. rewrite !lookup_insert_Some, lookup_empty. naive_solver. Qed.
Lemma live_lookup x c : gs_cells live !! x = Some c -> (x = pC /\ c = demo_array [ZCounted pD true] (purple_at 1)) \/ (x = pD /\ c = demo_array [] 0).
Proof. unfold live. cbn [gs_cells]. rewrite !lookup_insert_Some, lookup_empty. naive_solver. Qed.
Lemma live_entry i pt : live_entries !! i = Some pt -> i = 1 /\ pt = (pC, GC_ROOT).
Proof. unfold live_entries. rewrite !lookup_insert_Some, lookup_empty. naive_solver. Qed.

(** A buffer whose entries are all in front. *)
Lemma front_buf g E : zlen (gc_buf g) = gc_buf_size g -> gc_first_unused g <= gc_buf_size g -> gc_first_unused g <= 2 ^ 29 -> gc_unused g = 0 ->
  gc_num_roots g = Z.of_nat (size E) -> gc_first_unused g = 1 + Z.of_nat (size E) ->
  (forall i p t, E !! i = Some (p, t) -> 1 <= i < gc_first_unused g /\ zget (gc_buf g) i = Some (p + t) /\ cell_addr p /\ tag_ok t) -> buf_ok g [] E.
Proof.
  intros H1 H2 H3 H4 H5 H6 H7. assert (Hin : forall i, is_Some (E !! i) -> 1 <= i <= gc_first_unused g - 1) by (intros i [[p t] Hi]; destruct (H7 i p t Hi); lia).
  destruct (dom_within E (gc_first_unused g - 1) ltac:(lia) Hin) as [_ Hall]. split; try done; try lia.
  - constructor.
  - by intros i ?%elem_of_nil.
  - intros i Hi. right. left. apply Hall; lia.
  - change (zlen []) with 0. change (zlen (option_list None)) with 0. lia.
Qed.

Lemma demo_ready : gc_ready demo [] demo_entries.
Proof.
  split.
  - split.
    + by intros x c [[-> ->]|[[-> ->]|[[-> ->]|[-> ->]]]]%demo_lookup.
    + by intros x c [[-> ->]|[[-> ->]|[[-> ->]|[-> ->]]]]%demo_lookup.
    + by intros x c y [[-> ->]|[[-> ->]|[[-> ->]|[-> ->]]]]%demo_lookup; [intros ->%list_elem_of_singleton; eexists..|intros ?%elem_of_nil].
    + by intros x c y [[-> ->]|[[-> ->]|[[-> ->]|[-> ->]]]]%demo_lookup.
  - intros x [c [[-> ->]|[[-> ->]|[[-> ->]|[-> ->]]]]%demo_lookup]; by vm_compute.
  - by intros x c [[-> ->]|[[-> ->]|[[-> ->]|[-> ->]]]]%demo_lookup.
  - by vm_compute.
  - by intros x c [[-> ->]|[[-> ->]|[[-> ->]|[-> ->]]]]%demo_lookup; [right|left|right|left].
  - apply front_buf; try by vm_compute. by intros i p t [[-> [= -> ->]]|[-> [= -> ->]]]%demo_entry; (split; [|split; [|split; [|left]]]).
  - split.
    + intros i p t [[-> [= -> ->]]|[-> [= -> ->]]]%demo_entry; (split; [by eexists|by vm_compute]).
    + by intros i j p t t' [[-> [= -> ->]]|[-> [= -> ->]]]%demo_entry [[-> [=]]|[-> [=]]]%demo_entry.
    + intros p Hp. unfold addr_of in Hp. destruct (gs_cells demo !! p) as [c|] eqn:H; [|done].
      apply demo_lookup in H as [[-> ->]|[[-> ->]|[[-> ->]|[-> ->]]]]; [exists 1, GC_ROOT|done|exists 2, GC_ROOT|done]; done.
    + by intros p [c [[-> _]|[[-> _]|[[-> _]|[-> _]]]]%demo_lookup].
  - by intros i p t [[-> [= -> ->]]|[-> [= -> ->]]]%demo_entry.
  - intros x Hx. unfold color_of in Hx. destruct (gs_cells demo !! x) as [c|] eqn:H; [|done].
    apply demo_lookup in H as [[-> ->]|[[-> ->]|[[-> ->]|[-> ->]]]]; [exists 1|done|exists 2|done]; done.
Qed.

Lemma live_ready : gc_ready live [] live_entries.
Proof.
  split.
  - split.
    + by intros x c [[-> ->]|[-> ->]]%live_lookup.
    + by intros x c [[-> ->]|[-> ->]]%live_lookup.
    + by intros x c y [[-> ->]|[-> ->]]%live_lookup; [intros ->%list_elem_of_singleton; eexists|intros ?%elem_of_nil].
    + by intros x c y [[-> ->]|[-> ->]]%live_lookup.
  - intros x [c [[-> ->]|[-> ->]]%live_lookup]; by vm_compute.
  - by intros x c [[-> ->]|[-> ->]]%live_lookup.
  - by vm_compute.
  - by intros x c [[-> ->]|[-> ->]]%live_lookup; [right|left].
  - apply front_buf; try by vm_compute. by intros i p t [-> [= -> ->]]%live_entry; (split; [|split; [|split; [|left]]]).
  - split.
    + intros i p t [-> [= -> ->]]%live_entry. split; [by eexists|by vm_compute].
    + by intros i j p t t' [-> [= -> ->]]%live_entry [-> [=]]%live_entry.
    + intros p Hp. unfold addr_of in Hp. destruct (gs_cells live !! p) as [c|] eqn:H; [|done].
      apply live_lookup in H as [[-> ->]|[-> ->]]; [by exists 1, GC_ROOT|done].
    + by intros p [c [[-> _]|[-> _]]%live_lookup].
  - by intros i p t [-> [= -> ->]]%live_entry.
  - intros x Hx. unfold color_of in Hx. destruct (gs_cells live !! x) as [c|] eqn:H; [|done].
    apply live_lookup in H as [[-> ->]|[-> ->]]; [by exists 1|done].
Qed.

(** Every cell is referred to from elsewhere, or from one that is. *)
Lemma live_no_garbage W : garbage live live_entries W -> W = [].
Proof.
  intros [_ _ Hself _]. assert (Hpred : forall x, x ∈ W -> exists v, v ∈ W /\ x ∈ kids_of (gs_cells live) v).
  { intros x Hx. destruct (Hself x Hx) as [[c Hc] Hrc]. apply edges_pos. rewrite <- Hrc. apply live_lookup in Hc as [[-> _]|[-> _]]; by vm_compute. }
  assert (Hkid : forall v x, x ∈ kids_of (gs_cells live) v -> v = pC /\ x = pD).
  { intros v x Hx. unfold kids_of in Hx. destruct (gs_cells live !! v) as [c|] eqn:H; [|by apply elem_of_nil in Hx].
    apply live_lookup in H as [[-> ->]|[-> ->]]; [by apply list_elem_of_singleton in Hx as ->|by apply elem_of_nil in Hx]. }
  destruct W as [|x W]; [done|]. destruct (Hpred x) as (v & Hv & [-> ->]%Hkid); [by left|]. by destruct (Hpred pC Hv) as (w & _ & [_ ?]%Hkid).
Qed.

Lemma gc_finds_garbage_witness : gc_ready demo [] demo_entries /\ exists s' W, (gc_mark_roots;; gc_scan_roots) demo = Ok (tt, s') /\
  garbage demo demo_entries W /\ forall x, color_of (gs_cells s') x = GC_WHITE <-> x ∈ W.
Proof.
  split; [exact demo_ready|]. destruct (gc_finds_garbage demo [] demo_entries demo_ready) as (s' & W & H1 & H2 & _ & H3 & _).
  exists s', W. exact (conj H1 (conj H2 H3)).
Defined.

Lemma gc_collects_witness : gc_ready demo [] demo_entries /\ exists s' n flags E', (gc_mark_roots;; gc_scan_roots;; gc_collect_roots 0) demo = Ok ((n, flags), s') /\
  (forall x, rc_of (gs_cells s') x = rc_of (gs_cells demo) x) /\ buf_ok (gs_gc s') [] E'.
Proof.
  split; [exact demo_ready|]. destruct (gc_collects demo [] demo_entries demo_ready 0) as (s' & W & E' & H & H1 & _ & _ & H2 & _ & H3 & _).
  eexists s', _, _, E'. exact (conj H1 (conj H2 H3)).
Defined.

Lemma gc_run_keeps_live_witness : gc_ready live [] live_entries /\
  exists s', gc_run (fun _ => gc_ub) (fun _ => gc_ub) (fun _ => gc_ub) 3 live = Ok (Finish 3, s') /\ forall x, rc_of (gs_cells s') x = rc_of (gs_cells live) x.
Proof.
  split; [exact live_ready|]. destruct (gc_run_keeps_live (fun _ => gc_ub) (fun _ => gc_ub) (fun _ => gc_ub) 3 live [] live_entries live_ready eq_refl)
    as (s' & H1 & _ & H2 & _); [by vm_compute|exact live_no_garbage|]. exists s'. exact (conj H1 H2).
Defined.

Lemma gc_compact_keeps_witness : exists s1 s2 E', gc_remove_from_buffer pA demo = Ok (tt, s1) /\ gc_compact s1 = Ok (tt, s2) /\
  buf_ok (gs_gc s2) [] E' /\ forall pt, (exists i, E' !! i = Some pt) <-> (exists i, delete 1 demo_entries !! i = Some pt).
Proof.
  destruct (remove_from_buffer_ok (gs_cells demo) (gs_gc demo) [] demo_entries 1 pA GC_ROOT) as (g1 & cs1 & Hr & Hb & HA & _);
    [apply (rd_buf _ _ _ demo_ready)|apply (rd_addr _ _ _ demo_ready)|reflexivity|].
  destruct (gc_compact_keeps (mkGc cs1 g1) [1] (delete 1 demo_entries) Hb HA) as (s2 & E' & H1 & H2 & _ & _ & _ & H3 & _).
  exists (mkGc cs1 g1), s2, E'. exact (conj Hr (conj H1 (conj H2 H3))).
Defined.

Lemma gc_root_roundtrip_witness : exists s1 s2, gc_possible_root gc_ub (fun _ => gc_ub) pB demo = Ok (tt, s1) /\
  GC_REMOVE_FROM_BUFFER pB s1 = Ok (tt, s2) /\ gs_cells s2 = gs_cells demo.
Proof.
  destruct (gc_root_roundtrip gc_ub (fun _ => gc_ub) demo [] demo_entries pB (demo_object pA 0)) as (s1 & s2 & i & U' & H1 & _ & _ & _ & _ & H2 & H3 & _);
    [apply (rd_buf _ _ _ demo_ready)|apply (rd_addr _ _ _ demo_ready)|by vm_compute|by vm_compute|reflexivity|right; left; by vm_compute|reflexivity|reflexivity|reflexivity|].
  exists s1, s2. exact (conj H1 (conj H2 H3)).
Defined.

(** The whole of a run, with handlers that do nothing: the two objects are freed. *)
Example demo_run : (match zend_gc_collect_cycles (fun _ => mret tt) (fun _ => mret tt) (fun _ => mret tt) [] demo with
  | Ok (n, s) => (n, (fun x => rc_of (gs_cells s) x) <$> [pA; pB; pC; pD], elements (dom (gs_cells s)), gc_num_roots (gs_gc s), gc_collected (gs_gc s))
  | _ => (-1, [], [], 0, 0) end) = (2, [0; 0; 1; 1], [pD; pC], 0, 9).
Proof. vm_compute. reflexivity. Qed.

(** A link to an index from 2^29 on loses its upper bits: [GC_LIST2IDX] converts to 32
    bits before it divides, and the buffer may have 2^30 places. *)
Lemma gc_link_truncated : 2 ^ 29 < GC_MAX_BUF_SIZE /\ GC_LIST2IDX (GC_IDX2LIST (2 ^ 29)) = 0.
Proof. split; vm_compute; reflexivity. Qed.
